(* ===== verification/_CoqProject ===== *)
-Q . S2P
Prelude.v
Kernel.v
Protocol.v
Policy.v
Dmabuf.v
Engine.v
EngineFiles.v
EngineInv.v
EngineSafe.v
Broker.v
BrokerLive.v
PrimeMapper.v
AnnexB.v
AnnexBSpec.v
DrmBlob.v
DrmFormats.v
DrmBridge.v
DecodeEos.v
EncodeEos.v
VaapiRoutes.v
Client.v
ClientSafe.v
VaapiPolicy.v
ClientBroker.v
ClientConnect.v
RepackCache.v
MapperMetadata.v
AndroidMapper.v
StreamSplit.v
StreamInspect.v
Vp9.v
Hevc.v
Av1.v
Av1Spec.v
Av1Frame.v
Av1Stream.v
Av1Claims.v
World.v
Still.v
Va.v
DecodeState.v
DecodeStaging.v
DecodeOutput.v
DecodeRuntime.v
DecodeSlices.v
DecodeOwn.v
DecodeDrain.v
DecodeSettle.v
DecodeQueue.v
DecodeInv.v
DecodeEntry.v
DecodePicture.v
DecodeSubmit.v
DecodeSafe.v
DecodeCalls.v
DecodeWait.v
DecodeClaims.v
EncodeParams.v
EncodeState.v
EncodeWorld.v
EncodeBroker.v
EncodeLink.v
EncodeSync.v
EncodeRuntime.v
Image.v
EncodeScene.v
EncodeReceive.v
ImageCopy.v
ImageUpload.v
ImagePut.v
EncodeKeeps.v
EncodeQueue.v
EncodeFifo.v
EncodeInv.v
EncodeCalls.v
EncodeSubmit.v
EncodeServe.v
EncodeClaims.v
