(* ===== verification/Prelude.v ===== *)
(** * LinDeX: verification of the display bridge and video codec broker

    LinDeX runs a Debian Wayland desktop on the external display of an Android
    phone.  The part of it that carries its own logic is the hardware codec path:
    a broker process on the Android side owns the MediaCodec components, and
    Linux clients (the VA-API driver, the tools) reach it over a SOCK_SEQPACKET
    socket whose records carry file descriptors.  Around it are the VA-API driver
    that turns libva calls into codec input, and the DRM bridge that lets an
    unmodified compositor run on a leased display.  This library models the
    broker from the socket to the codec backend, the client library it talks to,
    the gralloc mapper that exports decoded buffers, the decisions, bitstream code,
    end-of-stream machines, decode runtime, encode runtime and images of the VA-API
    driver, the stream tools, and the DRM bridge, and proves them correct.

    ** How the parts interact

    - broker_main.c accepts a client, checks that the peer is root, creates a
      session engine and serves the client until a round fails.
    - broker.c runs one round: receive a record (protocol.c), answer HELLO, PING
      and QUERY_CAPABILITIES, pass other opcodes to the provider (the session
      engine), send one reply, let the engine finish work that must follow the
      reply, close what both messages still hold.
    - client.c is the other end: connect with a deadline, one transaction per
      call, and the hand-over of the descriptors a reply carries.
    - session_engine.c keeps up to four sessions, each with output slots, a
      pending AHardwareBuffer handshake and a dma-buf registry
      (dmabuf_ingress.c), and calls the codec backend through callbacks.
    - ahb_prime_mapper.c guards the export of hardware buffers as PRIME
      descriptors; android_prime_mapper.c implements it on the vendor's IMapper,
      whose metadata stable_mapper_metadata.c decodes.  byte_range.c,
      transport_policy.c and codec_discovery.c take decisions for the backend.
    - In the VA-API driver, advc_vaapi_policy.c and advc_vaapi_preflight.c decide
      which profiles are offered, advc_vaapi_surface_policy.c and
      advc_vaapi_modifier_policy.c how a decoded buffer reaches a surface,
      advc_h264_annexb.c, advc_vaapi_decode_hevc.c, advc_vaapi_decode_vp9.c and
      advc_vaapi_slice_layout.c turn libva's buffers into the byte stream a decoder
      reads, and the two eos files drain a session.  advc_vaapi_decode_runtime.c
      puts these together (advc_vaapi_decode_av1.c, the same for AV1, is called by
      its own test alone in this version): it owns the tables of configurations,
      contexts, surfaces and buffers, stages a picture, sends it over the context's
      connection and delivers what comes back to the surface that waits for it.
    - advc_vaapi_encode.c reads the parameter buffers of a picture and keeps the
      broker connection of an encode session; advc_vaapi_encode_runtime.c owns the
      tables of configurations, contexts, surfaces and coded buffers, submits a
      surface per picture and gives the outputs that come back to the submissions
      in their order.  advc_vaapi_image.c has the images, the copies into a surface,
      PRIME import and export, and the link between a surface and its fences; it
      reaches the encode runtime's surfaces through two callbacks.
      advc_annexb.c and advc_bitstream.c cut and inspect streams for the tools.
      turnip_repack_cache.c is the bookkeeping of the gateway that repacks
      compressed buffers.
    - android_drm_bridge.c validates a display lease, reads the formats of its
      planes and imports framebuffers; android_drm_blob.c extends a plane's
      IN_FORMATS blob.

    ** Files

    Sources are under src/src/.  Definitions keep the names of the C functions;
    PROJECT.json maps each one to its lines.

    - Prelude: machine integers, bits, byte buffers, array search and counting.
    - Kernel: the state monad [St], the process state [machine] and the system
      calls the sources use (descriptor table with RLIMIT_NOFILE, dup, close,
      memfd with seals, pread/pwrite, sendmsg/recvmsg with SCM_RIGHTS).
    - Protocol (video_bridge/src/protocol.c): field access, the 32-byte header,
      sending and receiving a record.
    - Policy: Modules [ByteRange], [Transport], [CodecDiscovery] for byte_range.c,
      transport_policy.c, codec_discovery.c.
    - Dmabuf (dmabuf_ingress.c): descriptor validation, the registration,
      submission and completion records, the registry.
    - Engine (session_engine.c): the data, the file helpers and every handler;
      EngineFiles: the retry loops and the sealed memory files; EngineInv: the
      backend contract [BackendOk], the invariant [engine_wf] and the ownership
      lemma of each handler; EngineSafe: dispatch, identifiers, teardown.
    - Broker (broker.c and the client part of android/broker_main.c); BrokerLive:
      what touches the client's queue, one reply per request, termination.
    - PrimeMapper (ahb_prime_mapper.c); MapperMetadata
      (android/stable_mapper_metadata.c): the metadata decoders, the layout gate
      and the QTI NV12 recogniser; AndroidMapper (android/android_prime_mapper.c):
      the queries, the export and the release.
    - AnnexB (vaapi_advc/advc_h264_annexb.c); AnnexBSpec: bit strings, the H.264
      codes as specifications, and the proofs against them.  Hevc
      (advc_vaapi_decode_hevc.c) on the same bit strings; Vp9
      (advc_vaapi_decode_vp9.c).
    - Av1 (advc_vaapi_decode_av1.c); Av1Spec: LEB128 and OBUs as bytes; Av1Frame: the
      sequences of OBUs that make a frame, as a grammar; Av1Stream: the two framings
      as relations between OBUs and bytes; Av1Claims: the tiles and the whole call.
    - StreamSplit (video_bridge/tools/advc_annexb.c), StreamInspect
      (video_bridge/tools/advc_bitstream.c).
    - DrmBlob (bridge/android_drm_blob.c); DrmFormats and DrmBridge
      (bridge/android_drm_bridge.c): the format table and its parsers, then the
      calls on a device.
    - DecodeEos, EncodeEos (vaapi_advc/advc_vaapi_decode_eos.c,
      advc_vaapi_encode_eos.c).
    - VaapiRoutes: Modules [Surface], [Modifier], [Slices] for the surface policy,
      the modifier policy and the slice layout; VaapiPolicy
      (advc_vaapi_policy.c, advc_vaapi_preflight.c).
    - Client (video_bridge/src/client.c): every call; ClientSafe: who owns a
      descriptor after any sequence of calls; ClientConnect: the connection with
      its clock, deadline and retries; ClientBroker: a client call served by a
      broker round ([call_over] delivers the sent record to the other process).
    - RepackCache (video_bridge/tools/turnip_repack_cache.c).
    - vaapi_advc/advc_vaapi_decode_runtime.c: DecodeState (the tables and the
      [world]: a process, one peer per connected socket), DecodeStaging (the pure
      staging of slices and parameters), DecodeOutput (conversion, delivery,
      draining, queueing), DecodeRuntime (the entry points).  DecodeSlices: the
      staged picture against its abstract view.  DecodeOwn, DecodeDrain,
      DecodeQueue: who owns a descriptor after each internal operation;
      DecodeSettle: what an output does to the surface that awaits it; DecodeInv:
      the invariant [runtime_ok] and the updates that keep it; DecodeEntry,
      DecodePicture, DecodeSubmit: every entry point keeps both; DecodeSafe: the
      locked sections as a step relation; DecodeCalls: the reachable states, and the
      calls that release the mutex as sequences of sections; DecodeWait: waiting for
      a surface against the clock; DecodeClaims: the properties of every
      reachable state, and a whole decode as their instance.
    - World: the world of the driver, shared by both runtimes (a process, one peer
      per connected socket, the environment of its system calls) and what holds of
      a call in it; Still: the calls that take no time on the clock; Va: libva's
      types.
    - vaapi_advc/advc_vaapi_encode.c: EncodeParams (policy, configuration, parameter
      buffers), EncodeBroker (the connection).  advc_vaapi_encode_runtime.c:
      EncodeState (the tables), EncodeWorld (mappings, dma-bufs and slots), EncodeSync
      (waiting, the end of a context, the image callbacks), EncodeRuntime (the entry
      points).  advc_vaapi_image.c: EncodeLink (import, export and the surface link),
      Image (images and uploads, and the end of the encode runtime).
    - EncodeScene: concrete runtimes.  EncodeReceive: receiving output returns.
      ImageCopy, ImageUpload, ImagePut: the rows of an upload, its mappings, the call.
    - EncodeKeeps: the calls that leave the encode tables alone.  EncodeQueue: what it
      means that the tables hold queues of submissions, and how the searches and
      updates of the code act on them; EncodeFifo: a round and the loop of a wait;
      EncodeInv: waits and the drains at the end of a context; EncodeCalls,
      EncodeSubmit: every other entry point; EncodeServe: sequences of calls;
      EncodeClaims: the properties, and an application that encodes two frames.

    ** What the theorems show

    - Descriptor ownership.  [installed t t' l] says that [t'] is [t] with the
      descriptors [l] opened.  Where the code loses a descriptor the account names it:
      [accounted lost t P] is the account [P] of [t] or of [t] with the lost ones, and
      the [ledger] of the driver's world counts those that records without bytes can
      bring ([holds]).  Receiving, every engine handler, a whole broker
      round, the service of a whole client, every sequence of client calls, the
      export of a buffer and the calls of the DRM bridge are accounted for with
      it: receive_ownership, engine_handle_safe, broker_round_safe,
      broker_client_clean, client_owns_results, registry_no_leak,
      prime_export_owned, android_export_owned, lease_dup_exact, fb_lifecycle; of
      the decode runtime in every reachable state, decode_descriptors_accounted.
      GEM handles and framebuffers are accounted for in the same way
      (fb_lifecycle, fb_observe_clean).
    - Invariants.  [engine_wf] (slot arrays of the right length, unique nonzero
      session identifiers, registry counters equal to what they count, ...) is
      preserved by every request (engine_handle_safe, broker_round_safe); the lease
      table of the repack gateway keeps distinct nonzero tokens
      (lease_table_invariant); the tables of the decode runtime stay well typed
      (decode_tables_typed), so that no section reads past a buffer or uses a
      missing slot, but for one destruction (decode_sections_defined).  After any
      sequence of calls the tables of the encode runtime hold a queue of submissions
      per context (encode_tables_hold_queues).
    - Refinement.  Every registry call implements a finite-map specification
      (registry_refines); every call of the end-of-stream machine follows a
      transition system of adapter calls in which a lease is consumed exactly once
      (eos_lifecycle); the format table of a plane is a finite map
      (format_table_exact); the gralloc mapper meets the contract of the boundary
      that calls it (the instance android_ops_ok, used by android_export_owned); the
      decode calls that release the mutex are sequences of locked sections
      (sync_steps, begin_steps and export_steps of DecodeCalls); the packet
      inspector describes a packet by the first framing that fits (inspect_exact).
      A wait for an encoded surface takes entries off the head of its context's
      queue (sync_completes_in_order, sync_round_takes_oldest), the end of a picture
      appends one or changes nothing (end_picture_enqueues,
      end_picture_failure_clean).
    - Composition.  A client call against a broker round returns what the broker
      decided (hello_end_to_end, capabilities_end_to_end); the blob one file
      rewrites is read back by another as the old table and one entry
      (rewritten_blob_parses).  A picture rendered through the decode runtime
      reaches the builders as the slices the application bound
      (staged_slices_exact), and its output the surface it was submitted for
      (output_reaches_its_surface).  An image that is put on a surface is written
      into the dma-bufs of that surface and nowhere else (image_put_exact).
    - Round trips.  Headers, registrations, whole messages with descriptors,
      capability sets, gralloc metadata, Exp-Golomb codes, escaped NAL units; an AV1
      access unit in the normal form reads back as the same OBUs
      (av1_output_is_raw).
    - Equivalence with a reference.  vaapi_policy_exact, nv12_normalize_exact,
      select_is_first_usable.
    - Exact acceptance.  descriptor_validate_exact, header_decode_exact,
      load_input_exact, checked_byte_range_exact, parse_identity_exact,
      reference_override_exact, blob_append_exact, create_check_sound,
      access_unit_exact, codec_config_exact, annexb_split_exact,
      vp9_access_unit_exact, hevc_config_exact, hevc_access_unit_exact,
      av1_access_unit_exact, surface_route_exact,
      rebase_slices_exact, preflight_exact, source_select_exact,
      preload_gate_sound: what is accepted, what is produced, and which errno an
      error has.
    - Progress.  One reply per request, carrying its identifiers (broker_one_reply,
      broker_request_answered); the service of a client returns
      (broker_client_clean); a bounded connect returns (connect_bounded_returns); a
      wait for a decoded surface returns with a status that is true of the surface
      (sync_surface_returns); the AV1 parsers return (av1_build_returns); an encode
      session is drained once (encode_eos_once); receiving coded output returns
      (broker_receive_returns); destroying an encode context drains and frees it
      (destroy_context_drains); allocate_session_id_fresh; register_succeeds;
      fallback_progress.
    - Policy.  HELLO grants what is offered, requested and known to the version
      (hello_negotiation), gated features need their exact token
      (broker_feature_gate), strict mode never copies pixels
      (strict_never_copies), unknown codec names are not hardware
      (classify_fail_closed), unknown modifiers are not routed
      (modifier_policy_fail_closed).
    - What the code gets wrong is stated as well: receive_empty_record_leaks,
      dequeue_refused_leaks, reserve_abandon_closes_twice, shared_handle_closed,
      chroma_rows_unchecked, overcount_is_overread, destroying_twice_is_undefined,
      stale_buffer_is_overread, shared_target_leaks, eos_fails_foreign_surface,
      poll_fails_ready_output, destroy_closes_stdin, destroying_surface_twice,
      frame_pts_max, failure_without_errno.

    ** Conventions

    - A C integer is a [Z] with its wrap-around written where it is stored
      ([u8] ... [u64]); a byte buffer is a list of such integers read by index.
      An array with its count is a list where the entries past the count are never
      read.
    - Pointers that are only compared and passed on (codec handles, native
      buffers, userdata) are integers, 0 for NULL; a payload that may be NULL is
      an option.  Out-parameters are results; the calls in src/ never pass NULL
      for one, and the NULL guards of such parameters are left out except in
      PrimeMapper and DecodeEos, where they are modelled.
    - The environment is scripted by the [machine]: [m_alloc] decides the next
      allocations, [m_rx] what the socket delivers (including truncation and
      interruption), [m_txres] and [m_io] the results of sends and file calls.
      Theorems quantify over the scripts, so they cover every such behaviour; of a
      record they ask [control_fits] alone, that it carries at most the eight
      descriptors the receiver's control buffer has room for.
      Two descriptors of one memory file are two table entries; a write through
      one is not seen through the other, which no modelled code relies on.
    - Client calls that receive into a stack buffer take its previous contents as
      an argument; dequeue_ignores_stack shows that they do not matter.
    - The display device of DrmBridge is the state [drm_state] (GEM handles, PRIME
      table, framebuffers with the ADDFB2 command that made them, the outcomes of the
      next ioctls) and a record [kms_env]
      of the kernel's answers.  A duplicated descriptor shares the state.
    - Code outside src/ is a parameter.  The codec backend is a record of callbacks
      with the contract [BackendOk] (which descriptors a callback takes and returns,
      as session_engine.h documents) and [BackendQuiet] (it does not touch the
      client socket); the mapper boundary has [MapperOk], met by AndroidMapper for
      every vendor library with [AiMapperOk] (IMapper.h; among it, that an imported
      handle has the descriptors its transport count says); the kernel's new handles
      have [KmsOk]; the sockets and the clock of ClientConnect are the record
      [connect_env].  Each contract is met by a concrete instance used in the
      witnesses.  The adapters of the end-of-stream machines are records of
      arbitrary functions.  The decode runtime's conversion hooks are a parameter
      with the contract [DriverOk] (they hand over what they return, and the process
      has no socket pool, whose hooks would return descriptors that were open
      before) and, where time matters, [ConversionsStill].  The hooks of a bounded
      connect are unconstrained but for the clock ([hooks_monotonic]).  The sizes of
      libva's structures and the reading of their fields are the parameter [va_abi],
      of which [AbiTyped] asks that the fields are [uint32_t].  The encode runtime's
      parameter is [encoder]: the environment variables, the hook that repacks a
      compressed surface, and the reading [enc_abi] of libva's encode structures.
      Its theorems hold for every [encoder].
    - The memory of the driver is [driver_state]: the bytes of each dma-buf by inode,
      the mappings by address, the heap of each image.  A shared mapping reads and
      writes the dma-buf, so that two mappings of one file alias.
    - An operation of the encode runtime, of the images or of AndroidMapper in which
      the code has undefined behaviour (a NULL slot, an access outside of a mapping,
      a read past a handle) returns [None].  The runtime and the images hold a mutex
      for the whole of a call, so a call is one step.
    - Threads of the decode runtime: a step is one section that holds the mutex, and
      the sections of concurrent calls interleave freely.  [arguments_ok] is what the
      C types say of the arguments; [permitted] adds what the application must
      respect: no buffer outliving its context when another is created, no surface
      begun by two contexts.  The last lemmas of DecodeClaims show what happens
      otherwise.

    ** Bounds and fuel

    - [allocate_session_id] runs at most six rounds: zero is skipped once and at
      most four identifiers are in use; that this always suffices is
      allocate_session_id_fresh.
    - [write_all_at] and [read_all_at] have one unit of fuel per byte still to
      move and per scripted file result, because an iteration moves a byte,
      consumes a result or returns.
    - [serve] has fuel for one round more than the socket has records; that it
      then returns is part of broker_client_clean.
    - The loops over OBUs have a round per byte of the buffer, which av1_build_returns
      shows to be enough; a LEB128 number has at most eight bytes where it is read
      and ten where it is written.
    - The bit loops of AnnexB run 64 (a code), 8 (alignment) or 32 (leading
      zeroes) steps, the number the C loop conditions allow.
    - [progress_loop] runs on the outputs the call may still take; the drain loop
      of EncodeEos has fuel for the timeout and the pending outputs, which
      encode_eos_once shows to be enough.
    - A wait of the encode runtime has a round per surface slot, the drain at the end
      of a stream two more; sync_completes_in_order and destroy_context_drains show
      that they return.  [receive_fuel] has a round per millisecond of the timeout and
      ten more, which broker_receive_returns shows to be enough.
    - The connect loop has fuel for the attempts its deadline allows, which
      connect_bounded_returns shows to be enough.
    - [queue_attempts] has the 5000 attempts of the C loop.  [sync_loop] polls until
      the time limit, which depends on the clock, so its fuel is an argument;
      sync_surface_returns shows that [sync_rounds] are enough.
    - [ioctl_loop] has a round per scripted outcome and one more, because only a
      scripted outcome is EINTR.

    ** What is not modelled

    The Android backend, encoder surfaces and probes (NDK, EGL and Vulkan drivers),
    loading the vendor mapper library, the launchers, seat, input and Firefox shims
    (device ioctls and preload glue), tools and scripts: their work is done by the
    kernel or by libraries that are not part of the sources.  The Vulkan identity
    layer and the preload library patch function tables of a loader, and the lease
    broker passes one descriptor over a socket.  Of advc_drv_video.c, the table of
    libva's entry points, nothing is modelled: it dispatches to the runtimes.  Of
    broker_main.c, option parsing, the accept loop and the log are left out.
    Outside the two runtimes threads do not occur in the modelled code: a broker
    serves one client per process and the end-of-stream machines are serialised by
    their callers.  The traces of ADVC_VAAPI_TRACE are left out.*)

From stdpp Require Import base list gmap.
From Stdlib Require Import ZArith Lia Bool.

#[global] Open Scope Z_scope.

(** ** Machine integers

    A C integer of width [w] is a [Z]; arithmetic that can leave the width is
    written with the wrap-around of the type it is stored in. *)

Definition u8 (x : Z) : Z := x mod 2 ^ 8.
Definition u16 (x : Z) : Z := x mod 2 ^ 16.
Definition u32 (x : Z) : Z := x mod 2 ^ 32.
Definition u64 (x : Z) : Z := x mod 2 ^ 64.

Definition UINT32_MAX : Z := 2 ^ 32 - 1.
Definition UINT64_MAX : Z := 2 ^ 64 - 1.
Definition INT64_MAX : Z := 2 ^ 63 - 1.
Definition SIZE_MAX : Z := UINT64_MAX.

(** Ranges of the unsigned types, as used by the well-formedness predicates. *)
Definition is_u8 (x : Z) : Prop := 0 <= x < 2 ^ 8.
Definition is_u16 (x : Z) : Prop := 0 <= x < 2 ^ 16.
Definition is_u32 (x : Z) : Prop := 0 <= x < 2 ^ 32.
Definition is_u64 (x : Z) : Prop := 0 <= x < 2 ^ 64.

Create HintDb width.

(** [wsolve] closes width side conditions: it unfolds every wrap and hands
    [lia] the powers of two as numerals. *)
Ltac wunfold :=
  unfold is_u8, is_u16, is_u32, is_u64, u8, u16, u32, u64,
    SIZE_MAX, UINT32_MAX, UINT64_MAX, INT64_MAX in *;
  change (2 ^ 8) with 256 in *; change (2 ^ 16) with 65536 in *;
  change (2 ^ 32) with 4294967296 in *;
  change (2 ^ 63) with 9223372036854775808 in *;
  change (2 ^ 64) with 18446744073709551616 in *.
Ltac wsolve := wunfold; Z.to_euclidean_division_equations; lia.

Lemma u8_range x : is_u8 (u8 x).
Proof. wsolve. Qed.
Lemma u16_range x : is_u16 (u16 x).
Proof. wsolve. Qed.
Lemma u32_range x : is_u32 (u32 x).
Proof. wsolve. Qed.
Lemma u64_range x : is_u64 (u64 x).
Proof. wsolve. Qed.
Lemma u8_id x : is_u8 x -> u8 x = x.
Proof. wsolve. Qed.
Lemma u16_id x : is_u16 x -> u16 x = x.
Proof. wsolve. Qed.
Lemma u32_id x : is_u32 x -> u32 x = x.
Proof. wsolve. Qed.
Lemma u64_id x : is_u64 x -> u64 x = x.
Proof. wsolve. Qed.

#[export] Hint Resolve u8_range u16_range u32_range u64_range : width.
#[export] Hint Unfold is_u8 is_u16 is_u32 is_u64 : width.

(** ** Bits *)

Lemma land_low_shiftl a b n :
  0 <= n -> 0 <= a < 2 ^ n -> Z.land a (Z.shiftl b n) = 0.
Proof.
  intros Hn Ha. apply Z.bits_inj'. intros m Hm.
  rewrite Z.land_spec, Z.shiftl_spec, Z.bits_0 by lia.
  destruct (Z.lt_ge_cases m n).
  - rewrite (Z.testbit_neg_r b) by lia. apply andb_false_r.
  - rewrite <- (Z.mod_small a (2 ^ n)), Z.mod_pow2_bits_high by lia. reflexivity.
Qed.

(** Or-ing a value below bit [n] with one shifted to bit [n] adds them. *)
Lemma lor_low_shiftl a b n :
  0 <= n -> 0 <= a < 2 ^ n -> Z.lor a (Z.shiftl b n) = a + b * 2 ^ n.
Proof.
  intros Hn Ha. pose proof (land_low_shiftl a b n Hn Ha) as H0.
  rewrite <- Z.lxor_lor, <- Z.add_nocarry_lxor by exact H0.
  rewrite Z.shiftl_mul_pow2 by lia. reflexivity.
Qed.

Lemma land_pow2_testbit a n :
  0 <= n -> (Z.land a (Z.shiftl 1 n) =? 0) = negb (Z.testbit a n).
Proof.
  intros Hn. destruct (Z.testbit a n) eqn:E; simpl.
  - apply Z.eqb_neq. intros H. assert (Z.testbit (Z.land a (Z.shiftl 1 n)) n = false) as Hb
      by (rewrite H; apply Z.bits_0).
    rewrite Z.land_spec, E, Z.shiftl_spec, Z.sub_diag in Hb by lia. discriminate.
  - apply Z.eqb_eq. apply Z.bits_inj'. intros m Hm.
    rewrite Z.land_spec, Z.shiftl_spec, Z.bits_0 by lia.
    destruct (Z.eq_dec m n) as [->|].
    + rewrite E. reflexivity.
    + destruct (Z.lt_ge_cases m n).
      * rewrite (Z.testbit_neg_r 1) by lia. apply andb_false_r.
      * rewrite (Z.bits_above_log2 1) by (simpl; lia). apply andb_false_r.
Qed.

(** ** Byte memory

    A [uint8_t] buffer is a list of cells indexed by [Z]; a cell is read at
    width 8.  Writing outside the list changes nothing, so a theorem about a
    write states the capacity it needs. *)

Definition byte_at (p : list Z) (i : Z) : Z := u8 (default 0 (p !! Z.to_nat i)).
Definition set_byte (p : list Z) (i v : Z) : list Z := <[Z.to_nat i := u8 v]> p.
Definition zlen {A} (p : list A) : Z := Z.of_nat (length p).

(** [memset(p, 0, n)] on the first [n] cells. *)
Definition memzero (p : list Z) (n : Z) : list Z :=
  replicate (Nat.min (Z.to_nat n) (length p)) 0 ++ drop (Z.to_nat n) p.

(** All cells of [p[off .. off + n)] are zero. *)
Definition bytes_are_zero (p : list Z) (off n : Z) : bool :=
  forallb (fun i => byte_at p (off + Z.of_nat i) =? 0) (seq 0 (Z.to_nat n)).

Lemma zlen_app {A} (p q : list A) : zlen (p ++ q) = zlen p + zlen q.
Proof. unfold zlen. rewrite length_app. lia. Qed.
Lemma zlen_cons {A} (x : A) p : zlen (x :: p) = 1 + zlen p.
Proof. unfold zlen. cbn. lia. Qed.
Lemma zlen_nonneg {A} (p : list A) : 0 <= zlen p.
Proof. unfold zlen. lia. Qed.
Lemma byte_at_range p i : is_u8 (byte_at p i).
Proof. apply u8_range. Qed.
#[export] Hint Resolve byte_at_range : width.

Lemma zlen_set_byte p i v : zlen (set_byte p i v) = zlen p.
Proof. unfold zlen, set_byte. by rewrite length_insert. Qed.

Lemma zlen_memzero p n : zlen (memzero p n) = zlen p.
Proof. unfold zlen, memzero. rewrite length_app, length_replicate, length_drop. lia. Qed.

Lemma byte_at_set_eq p i v : 0 <= i < zlen p -> byte_at (set_byte p i v) i = u8 v.
Proof.
  unfold zlen, byte_at, set_byte. intros H.
  rewrite list_lookup_insert_eq by lia. simpl. apply u8_id, u8_range.
Qed.

Lemma byte_at_set_ne p i j v : 0 <= i -> 0 <= j -> i <> j ->
  byte_at (set_byte p i v) j = byte_at p j.
Proof.
  unfold byte_at, set_byte. intros. by rewrite list_lookup_insert_ne by lia.
Qed.

Lemma byte_at_memzero p n i : 0 <= i ->
  byte_at (memzero p n) i = if i <? n then 0 else byte_at p i.
Proof.
  intros Hi. unfold byte_at, memzero.
  destruct (Z.ltb_spec i n) as [Hlt|Hge].
  - destruct (decide (Z.to_nat i < length p)%nat).
    + rewrite lookup_app_l by (rewrite length_replicate; lia).
      by rewrite lookup_replicate_2 by lia.
    + rewrite lookup_ge_None_2; [done|].
      rewrite length_app, length_replicate, length_drop. lia.
  - rewrite lookup_app_r by (rewrite length_replicate; lia).
    rewrite length_replicate, lookup_drop.
    destruct (decide (Z.to_nat n <= length p)%nat).
    + do 3 f_equal. lia.
    + rewrite !lookup_ge_None_2 by lia. done.
Qed.

Lemma bytes_are_zero_spec p off n :
  bytes_are_zero p off n = true <->
  forall i, 0 <= i < n -> byte_at p (off + i) = 0.
Proof.
  unfold bytes_are_zero. rewrite forallb_forall. split.
  - intros H i Hi. apply Z.eqb_eq. rewrite <- (Z2Nat.id i) by lia.
    apply H, in_seq. lia.
  - intros H x Hx%in_seq. apply Z.eqb_eq, H. lia.
Qed.

(** A property of bytes that holds of all 256 of them. *)
Lemma byte_cases (P : Z -> bool) : forallb P (Z.of_nat <$> seq 0 256) = true ->
  forall x, is_u8 x -> P x = true.
Proof.
  intros H x Hx. rewrite forallb_forall in H. apply H, list_elem_of_In, list_elem_of_fmap.
  exists (Z.to_nat x). unfold is_u8 in Hx. split; [lia|]. apply elem_of_seq. lia.
Qed.

(** Two buffers agree on their first [n] cells. *)
Definition agree_upto (n : Z) (p q : list Z) : Prop :=
  forall i, 0 <= i < n -> byte_at p i = byte_at q i.

#[export] Instance agree_upto_equiv n : Equivalence (agree_upto n).
Proof.
  split; unfold agree_upto.
  - done.
  - intros p q H i Hi. symmetry. by apply H.
  - intros p q r H1 H2 i Hi. by rewrite H1, H2.
Qed.

(** ** Arrays searched from the front *)

(** [for (i = 0; i < N; ++i) if (f(&a[i])) return &a[i];] as an index. *)
Fixpoint find_idx {A} (f : A -> bool) (l : list A) : option nat :=
  match l with
  | [] => None
  | x :: l => if f x then Some O else S <$> find_idx f l
  end.

Lemma find_idx_Some {A} (f : A -> bool) l i :
  find_idx f l = Some i ->
  exists x, l !! i = Some x /\ f x = true /\
    forall j y, (j < i)%nat -> l !! j = Some y -> f y = false.
Proof.
  revert i. induction l as [|x l IH]; intros i; cbn; [done|].
  destruct (f x) eqn:E.
  - intros [= <-]. exists x. repeat split; try done. lia.
  - destruct (find_idx f l) as [k|]; [|done]. intros [= <-].
    destruct (IH k eq_refl) as (y & Hy & Hf & Hlt). exists y. repeat split; try done.
    intros [|j] z Hj Hz; cbn in Hz; [congruence|]. apply (Hlt j); [lia|done].
Qed.

Lemma find_idx_None {A} (f : A -> bool) l :
  find_idx f l = None -> forall i x, l !! i = Some x -> f x = false.
Proof.
  induction l as [|x l IH]; cbn; [done|]. destruct (f x) eqn:E; [done|].
  destruct (find_idx f l); [done|]. intros _ [|i] y Hy; cbn in Hy; [congruence|].
  by apply (IH eq_refl i).
Qed.

Lemma find_idx_exists {A} (f : A -> bool) l i x :
  l !! i = Some x -> f x = true -> exists k, find_idx f l = Some k.
Proof.
  intros Hi Hf. destruct (find_idx f l) eqn:E; [eauto|].
  rewrite (find_idx_None f l E i x Hi) in Hf. done.
Qed.

(** The number of array elements satisfying a test. *)
Definition count {A} (f : A -> bool) (l : list A) : Z :=
  Z.of_nat (length (List.filter f l)).

Lemma count_insert {A} (f : A -> bool) (l : list A) i x y :
  l !! i = Some x ->
  count f (<[i := y]> l) = count f l - Z.b2z (f x) + Z.b2z (f y).
Proof.
  unfold count. revert i. induction l as [|z l IH]; intros [|i]; try done.
  - intros [= ->]. simpl. destruct (f x), (f y); simpl; lia.
  - intros H. specialize (IH i H). simpl. destruct (f z); simpl; lia.
Qed.

Lemma count_nonneg {A} (f : A -> bool) l : 0 <= count f l.
Proof. unfold count. lia. Qed.

Lemma count_le_length {A} (f : A -> bool) l : count f l <= zlen l.
Proof. unfold count, zlen. pose proof (List.filter_length_le f l). lia. Qed.

Lemma count_full {A} (f : A -> bool) l i x :
  l !! i = Some x -> f x = false -> count f l < zlen l.
Proof.
  unfold count, zlen. revert i. induction l as [|z l IH]; intros [|i]; cbn; try done.
  - intros [= ->] ->. pose proof (List.filter_length_le f l). lia.
  - intros H Hf. specialize (IH i H Hf). destruct (f z); cbn; lia.
Qed.

Lemma count_all {A} (f : A -> bool) l :
  (forall i x, l !! i = Some x -> f x = true) -> count f l = zlen l.
Proof.
  unfold count, zlen. induction l as [|z l IH]; cbn; [done|]. intros H.
  rewrite (H 0%nat z eq_refl). cbn. rewrite !Nat2Z.inj_succ, IH; [done|].
  intros i x. apply (H (S i)).
Qed.

Lemma count_pos {A} (f : A -> bool) l i x : l !! i = Some x -> f x = true -> 0 < count f l.
Proof.
  unfold count. revert i. induction l as [|z l IH]; intros [|i]; cbn; try done.
  - intros [= ->] ->. cbn. lia.
  - intros H Hf. specialize (IH i H Hf). destruct (f z); cbn; lia.
Qed.
