(* ===== verification/Kernel.v ===== *)
(** * The process as the code sees it: file descriptors, [errno], allocation

    The C code threads its effects through the kernel and the C library.  A
    [machine] is that shared state: the descriptor table, [errno], the outcomes
    of the next allocations, the records waiting on the client socket and the
    ones already sent.  [m_be] is the state of the codec backend, which the
    engine only reaches through callbacks.  Effectful functions are written in
    the state monad [St]; every system call the sources use is a definition
    here, with the behaviour POSIX and Linux document for it. *)

From stdpp Require Import base list gmap.
From Stdlib Require Import ZArith Lia Bool.
From S2P Require Import Prelude.

(** ** The state monad *)

Definition St (S A : Type) : Type := S -> A * S.

#[export] Instance st_ret {S} : MRet (St S) := fun A a s => (a, s).
#[export] Instance st_bind {S} : MBind (St S) :=
  fun A B k m s => let '(a, s') := m s in k a s'.

Definition gets {S A} (f : S -> A) : St S A := fun s => (f s, s).
Definition modify {S} (f : S -> S) : St S unit := fun s => (tt, f s).

(** [wp m Q s]: running [m] from [s] ends in a result and a state related by
    [Q].  The monad is total, so this is total correctness. *)
Definition wp {S A} (m : St S A) (Q : A -> S -> Prop) (s : S) : Prop :=
  Q (fst (m s)) (snd (m s)).

Lemma wp_ret {S A} (a : A) Q (s : S) : wp (mret a) Q s <-> Q a s.
Proof. done. Qed.

Lemma wp_bind {S A C} (m : St S A) (k : A -> St S C) Q s :
  wp (m ≫= k) Q s <-> wp m (fun a s' => wp (k a) Q s') s.
Proof. unfold wp, mbind, st_bind. by destruct (m s). Qed.

Lemma wp_mono {S A} (m : St S A) (Q1 Q2 : A -> S -> Prop) s :
  wp m Q1 s -> (forall a s', Q1 a s' -> Q2 a s') -> wp m Q2 s.
Proof. unfold wp. eauto. Qed.

Lemma wp_gets {S A} (f : S -> A) Q s : wp (gets f) Q s <-> Q (f s) s.
Proof. done. Qed.

Lemma wp_modify {S} (f : S -> S) Q s : wp (modify f) Q s <-> Q tt (f s).
Proof. done. Qed.

(** ** errno *)

Definition EPERM : Z := 1.
Definition ENOENT : Z := 2.
Definition EINTR : Z := 4.
Definition EIO : Z := 5.
Definition EBADF : Z := 9.
Definition EAGAIN : Z := 11.
Definition ENOMEM : Z := 12.
Definition EBUSY : Z := 16.
Definition EEXIST : Z := 17.
Definition EINVAL : Z := 22.
Definition EMFILE : Z := 24.
Definition ENOTTY : Z := 25.
Definition ENOSPC : Z := 28.
Definition EPROTO : Z := 71.
Definition EOVERFLOW : Z := 75.
Definition EMSGSIZE : Z := 90.
Definition ENOTSUP : Z := 95.
Definition ECONNRESET : Z := 104.
Definition EALREADY : Z := 114.

(** ** Open files *)

Inductive file_kind :=
  | KSyncFile                               (* answers SYNC_IOC_FILE_INFO *)
  | KMemFile (data : list Z) (seals : Z)    (* regular memfd with its seals *)
  | KDmaBuf (inode : Z)                     (* a dma-buf *)
  | KOther.                                 (* socket, pipe, ... *)

Record fd_info := FdInfo { fd_cloexec : bool; fd_kind : file_kind }.

Definition FD_CLOEXEC : Z := 1.

(** One control message of a received record: the files it carries when it is
    [SOL_SOCKET]/[SCM_RIGHTS], nothing the code looks at otherwise. *)
Inductive cmsg := ScmRights (files : list file_kind) | OtherCmsg.

(** What [recvmsg] can report. *)
Inductive rx_event :=
  | RxError (e : Z)
  | RxRecord (bytes : list Z) (truncated : bool) (control : list cmsg).

(** A record handed to [sendmsg]: its bytes and the descriptors attached. *)
Record packet := Packet { pk_bytes : list Z; pk_fds : list Z }.

Record machine (B : Type) := Machine {
  m_be : B;
  m_fds : gmap Z fd_info;
  m_limit : Z;              (* RLIMIT_NOFILE *)
  m_errno : Z;
  m_alloc : list bool;      (* outcomes of the next allocations; [] = success *)
  m_rx : list rx_event;     (* what the client socket reports next *)
  m_tx : list packet;       (* records sent, newest first *)
  m_txres : list Z;         (* results of the next sendmsg calls: < 0 is -errno *)
  m_io : list Z;            (* results of the next file calls: < 0 is -errno,
                               otherwise the most bytes moved; [] = no limit *)
}.
Arguments Machine {B}.
Arguments m_be {B}.
Arguments m_fds {B}.
Arguments m_limit {B}.
Arguments m_errno {B}.
Arguments m_alloc {B}.
Arguments m_rx {B}.
Arguments m_tx {B}.
Arguments m_txres {B}.
Arguments m_io {B}.

Section Syscalls.
Context {B : Type}.
Implicit Types m : machine B.

Definition set_errno (e : Z) m : machine B :=
  Machine (m_be m) (m_fds m) (m_limit m) e (m_alloc m) (m_rx m) (m_tx m) (m_txres m) (m_io m).
Definition set_fds (t : gmap Z fd_info) m : machine B :=
  Machine (m_be m) t (m_limit m) (m_errno m) (m_alloc m) (m_rx m) (m_tx m) (m_txres m) (m_io m).
Definition set_be (b : B) m : machine B :=
  Machine b (m_fds m) (m_limit m) (m_errno m) (m_alloc m) (m_rx m) (m_tx m) (m_txres m) (m_io m).
Definition set_alloc (l : list bool) m : machine B :=
  Machine (m_be m) (m_fds m) (m_limit m) (m_errno m) l (m_rx m) (m_tx m) (m_txres m) (m_io m).
Definition set_rx (l : list rx_event) m : machine B :=
  Machine (m_be m) (m_fds m) (m_limit m) (m_errno m) (m_alloc m) l (m_tx m) (m_txres m) (m_io m).
Definition set_tx (l : list packet) (r : list Z) m : machine B :=
  Machine (m_be m) (m_fds m) (m_limit m) (m_errno m) (m_alloc m) (m_rx m) l r (m_io m).
Definition set_io (l : list Z) m : machine B :=
  Machine (m_be m) (m_fds m) (m_limit m) (m_errno m) (m_alloc m) (m_rx m) (m_tx m) (m_txres m) l.

Definition errno : St (machine B) Z := gets m_errno.
Definition errno_is (e : Z) : St (machine B) unit := modify (set_errno e).

(** [errno = e; return -1;] *)
Definition fail_with (e : Z) : St (machine B) Z := errno_is e ;; mret (-1).

(** The lowest descriptor number that is not open: the one POSIX promises for
    every call that opens a descriptor. *)
Fixpoint lowest_from (n : nat) (c : Z) (t : gmap Z fd_info) : Z :=
  match n with
  | O => c
  | S n => match t !! c with None => c | Some _ => lowest_from n (c + 1) t end
  end.
Definition lowest_free (t : gmap Z fd_info) : Z := lowest_from (size t) 0 t.

(** Install a file at the lowest free number; -1 with [EMFILE] at the limit. *)
Definition install_fd (f : fd_info) : St (machine B) Z := fun m =>
  let n := lowest_free (m_fds m) in
  if m_limit m <=? n then (-1, set_errno EMFILE m)
  else (n, set_fds (<[n := f]> (m_fds m)) m).

(** [close(fd)], whose result the sources ignore. *)
Definition sys_close (fd : Z) : St (machine B) unit := fun m =>
  match m_fds m !! fd with
  | Some _ => (tt, set_fds (delete fd (m_fds m)) m)
  | None => (tt, set_errno EBADF m)
  end.

(** [if (fd >= 0) close(fd);] *)
Definition close_if_open (fd : Z) : St (machine B) unit :=
  if 0 <=? fd then sys_close fd else mret tt.

Definition close_all (l : list Z) : St (machine B) unit :=
  foldr (fun fd k => sys_close fd ;; k) (mret tt) l.

(** Closing an array of descriptors in order, skipping the negative ones. *)
Definition close_each (l : list Z) : St (machine B) unit :=
  foldr (fun fd k => close_if_open fd ;; k) (mret tt) l.

(** [fcntl(fd, F_GETFD)] *)
Definition fcntl_getfd (fd : Z) : St (machine B) Z := fun m =>
  match m_fds m !! fd with
  | Some f => (if fd_cloexec f then FD_CLOEXEC else 0, m)
  | None => (-1, set_errno EBADF m)
  end.

(** [fcntl(fd, F_DUPFD_CLOEXEC, 0)] *)
Definition fcntl_dupfd_cloexec (fd : Z) : St (machine B) Z := fun m =>
  match m_fds m !! fd with
  | Some f => install_fd (FdInfo true (fd_kind f)) m
  | None => (-1, set_errno EBADF m)
  end.

(** [ioctl(fd, SYNC_IOC_FILE_INFO, &info)] *)
Definition ioctl_sync_file_info (fd : Z) : St (machine B) Z := fun m =>
  match m_fds m !! fd with
  | Some (FdInfo _ KSyncFile) => (0, m)
  | Some _ => (-1, set_errno ENOTTY m)
  | None => (-1, set_errno EBADF m)
  end.

(** [malloc]/[calloc]: whether the next allocation succeeds. *)
Definition sys_alloc : St (machine B) bool := fun m =>
  match m_alloc m with
  | [] => (true, m)
  | true :: l => (true, set_alloc l m)
  | false :: l => (false, set_errno ENOMEM (set_alloc l m))
  end.

(** The environment's answer to the next file call. *)
Definition next_io : St (machine B) Z := fun m =>
  match m_io m with
  | [] => (2 ^ 63 - 1, m)
  | v :: l => if v <? 0 then (v, set_errno (- v) (set_io l m)) else (v, set_io l m)
  end.

(** *** Memory files *)

Definition F_SEAL_SEAL : Z := 1.
Definition F_SEAL_SHRINK : Z := 2.
Definition F_SEAL_GROW : Z := 4.
Definition F_SEAL_WRITE : Z := 8.

Definition has_seal (seals s : Z) : bool := negb (Z.land seals s =? 0).

(** [memfd_create(name, MFD_CLOEXEC | MFD_ALLOW_SEALING)] *)
Definition sys_memfd_create : St (machine B) Z :=
  v ← next_io;
  if v <? 0 then mret (-1) else install_fd (FdInfo true (KMemFile [] 0)).

Definition set_file (fd : Z) (f : fd_info) : St (machine B) unit :=
  modify (fun m => set_fds (<[fd := f]> (m_fds m)) m).

Definition sys_ftruncate (fd n : Z) : St (machine B) Z :=
  v ← next_io;
  if v <? 0 then mret (-1)
  else
    t ← gets m_fds;
    match t !! fd with
    | Some (FdInfo c (KMemFile data seals)) =>
        if ((n <? zlen data) && has_seal seals F_SEAL_SHRINK) ||
           ((zlen data <? n) && has_seal seals F_SEAL_GROW) then fail_with EPERM
        else set_file fd (FdInfo c (KMemFile (resize (Z.to_nat n) 0 data) seals)) ;; mret 0
    | Some _ => fail_with EINVAL
    | None => fail_with EBADF
    end.

(** [pwrite(fd, bytes, len, off)] inside the file: at most the environment's
    bound is written. *)
Definition sys_pwrite (fd : Z) (bytes : list Z) (off : Z) : St (machine B) Z :=
  v ← next_io;
  if v <? 0 then mret (-1)
  else
    t ← gets m_fds;
    match t !! fd with
    | Some (FdInfo c (KMemFile data seals)) =>
        if has_seal seals F_SEAL_WRITE then fail_with EPERM
        else
          let n := Z.min v (Z.min (zlen bytes) (zlen data - off)) in
          set_file fd (FdInfo c (KMemFile
            (take (Z.to_nat off) data ++ take (Z.to_nat n) bytes ++
             drop (Z.to_nat (off + n)) data) seals)) ;; mret n
    | Some _ => fail_with EINVAL
    | None => fail_with EBADF
    end.

(** [pread(fd, buf, n, off)]: the bytes read, or the error. *)
Definition sys_pread (fd n off : Z) : St (machine B) (Z * list Z) :=
  v ← next_io;
  if v <? 0 then mret (-1, [])
  else
    t ← gets m_fds;
    match t !! fd with
    | Some (FdInfo _ (KMemFile data _)) =>
        let l := take (Z.to_nat (Z.min v n)) (drop (Z.to_nat off) data) in mret (zlen l, l)
    | Some _ => errno_is EINVAL ;; mret (-1, [])
    | None => errno_is EBADF ;; mret (-1, [])
    end.

(** [fstat]: [None] on failure, else whether the file is regular and its size. *)
Definition sys_fstat (fd : Z) : St (machine B) (option (bool * Z)) :=
  t ← gets m_fds;
  match t !! fd with
  | Some (FdInfo _ (KMemFile data _)) => mret (Some (true, zlen data))
  | Some _ => mret (Some (false, 0))
  | None => errno_is EBADF ;; mret None
  end.

Definition fcntl_get_seals (fd : Z) : St (machine B) Z :=
  t ← gets m_fds;
  match t !! fd with
  | Some (FdInfo _ (KMemFile _ seals)) => mret seals
  | Some _ => fail_with EINVAL
  | None => fail_with EBADF
  end.

Definition fcntl_add_seals (fd seals : Z) : St (machine B) Z :=
  v ← next_io;
  if v <? 0 then mret (-1)
  else
    t ← gets m_fds;
    match t !! fd with
    | Some (FdInfo c (KMemFile data old)) =>
        if has_seal old F_SEAL_SEAL then fail_with EPERM
        else set_file fd (FdInfo c (KMemFile data (Z.lor old seals))) ;; mret 0
    | Some _ => fail_with EINVAL
    | None => fail_with EBADF
    end.

End Syscalls.

(** ** Facts about descriptors *)

Section Facts.
Context {B : Type}.
Implicit Types m : machine B.
Implicit Types t : gmap Z fd_info.

Lemma lowest_from_spec n c t :
  c <= lowest_from n c t <= c + Z.of_nat n /\
  (forall k, c <= k < lowest_from n c t -> is_Some (t !! k)) /\
  (is_Some (t !! lowest_from n c t) -> lowest_from n c t = c + Z.of_nat n).
Proof.
  revert c. induction n as [|n IH]; intros c; cbn [lowest_from].
  - repeat split; lia.
  - destruct (t !! c) eqn:E.
    + destruct (IH (c + 1)) as (Hr & Hall & Hend). repeat split; try lia.
      * intros k Hk. destruct (Z.eq_dec k c) as [->|]; [by rewrite E|]. apply Hall. lia.
      * intros H%Hend. lia.
    + repeat split; try lia. rewrite E. by intros [? ?].
Qed.

(** A range of open descriptors is no larger than the table. *)
Lemma open_range_size t n :
  (forall k, 0 <= k < Z.of_nat n -> is_Some (t !! k)) -> (n <= size t)%nat.
Proof.
  intros H. rewrite <- (size_dom t).
  rewrite <- (length_seq n 0), <- (length_fmap Z.of_nat).
  rewrite <- (size_list_to_set (C := gset Z) (Z.of_nat <$> seq 0 n)).
  - apply subseteq_size. intros x Hx.
    apply elem_of_list_to_set, list_elem_of_fmap in Hx as (y & -> & Hy).
    apply elem_of_dom, H. apply elem_of_seq in Hy. lia.
  - apply NoDup_fmap_2; [apply _|apply NoDup_seq].
Qed.

Lemma lowest_free_spec t : 0 <= lowest_free t /\ t !! lowest_free t = None.
Proof.
  unfold lowest_free. destruct (lowest_from_spec (size t) 0 t) as (Hr & Hall & Hend).
  split; [lia|]. destruct (t !! lowest_from (size t) 0 t) eqn:E; [|done].
  exfalso. pose proof (Hend (mk_is_Some _ _ eq_refl)) as Hmax.
  assert (S (size t) <= size t)%nat; [|lia]. apply open_range_size. intros k Hk.
  destruct (Z.eq_dec k (Z.of_nat (size t))) as [->|].
  - rewrite Z.add_0_l in Hmax. rewrite <- Hmax, E. eauto.
  - apply Hall. lia.
Qed.

Lemma lowest_free_nonneg t : 0 <= lowest_free t.
Proof. apply lowest_free_spec. Qed.
Lemma lowest_free_fresh t : t !! lowest_free t = None.
Proof. apply lowest_free_spec. Qed.

(** [dup] either fails and leaves the table alone, or opens a new descriptor. *)
Lemma dup_cases fd m :
  (exists e, e <> 0 /\ fcntl_dupfd_cloexec fd m = (-1, set_errno e m)) \/
  (exists f, m_fds m !! fd = Some f /\
    fcntl_dupfd_cloexec fd m =
      (lowest_free (m_fds m),
       set_fds (<[lowest_free (m_fds m) := FdInfo true (fd_kind f)]> (m_fds m)) m)).
Proof.
  unfold fcntl_dupfd_cloexec, install_fd.
  destruct (m_fds m !! fd) as [f|]; [|left; by exists EBADF].
  destruct (_ <=? _); [left; by exists EMFILE|right; eauto].
Qed.

Lemma close_open_fds fd m f :
  m_fds m !! fd = Some f -> sys_close fd m = (tt, set_fds (delete fd (m_fds m)) m).
Proof. unfold sys_close. by intros ->. Qed.

End Facts.

(** ** Descriptors opened and closed together

    [installed t t' fds]: the table [t'] is [t] with the descriptors [fds], all
    of them new and distinct, opened on top. *)

Definition installed (t t' : gmap Z fd_info) (fds : list Z) : Prop :=
  NoDup fds /\
  (forall fd, fd ∈ fds -> 0 <= fd /\ t !! fd = None /\ is_Some (t' !! fd)) /\
  (forall fd, fd ∉ fds -> t' !! fd = t !! fd).

Section Installed.
Context {B : Type}.
Implicit Types m : machine B.
Implicit Types t : gmap Z fd_info.

Lemma installed_nil t : installed t t [].
Proof. repeat split; try apply NoDup_nil_2; set_solver. Qed.

Lemma installed_one t f : installed t (<[lowest_free t := f]> t) [lowest_free t].
Proof.
  pose proof (lowest_free_spec t) as [Hn Hf]. split; [|split].
  - apply NoDup_singleton.
  - intros fd ->%list_elem_of_singleton. rewrite lookup_insert_eq. eauto.
  - intros fd Hne. rewrite lookup_insert_ne; [done|]. set_solver.
Qed.

Lemma installed_app t0 t1 t2 l1 l2 :
  installed t0 t1 l1 -> installed t1 t2 l2 -> installed t0 t2 (l1 ++ l2).
Proof.
  intros (N1 & O1 & K1) (N2 & O2 & K2).
  assert (forall fd, (fd ∈ l2) -> (fd ∉ l1) /\ t0 !! fd = None) as Hdis.
  { intros fd H2. destruct (O2 _ H2) as (_ & Hnone & _).
    assert (fd ∉ l1) as H1 by (intros H1; destruct (O1 _ H1) as (_ & _ & [? ?]); congruence).
    split; [done|]. by rewrite <- K1. }
  repeat split.
  - apply NoDup_app. split; [done|]. split; [|done]. intros x H1 H2. by apply (Hdis x H2).
  - apply elem_of_app in H as [H|H]; [apply O1, H|apply O2, H].
  - apply elem_of_app in H as [H|H]; [apply O1, H|apply Hdis, H].
  - apply elem_of_app in H as [H|H]; [|apply O2, H].
    rewrite K2; [apply O1, H|]. intros H2. by apply (Hdis fd H2).
  - intros fd [H1 H2]%not_elem_of_app. by rewrite K2, K1.
Qed.

Lemma install_fd_spec f m :
  (exists m', install_fd f m = (-1, m') /\ m_fds m' = m_fds m) \/
  (m_limit m > lowest_free (m_fds m) /\
   install_fd f m = (lowest_free (m_fds m), set_fds (<[lowest_free (m_fds m) := f]> (m_fds m)) m)).
Proof.
  unfold install_fd. destruct (Z.leb_spec (m_limit m) (lowest_free (m_fds m))).
  - left. eexists. split; [reflexivity|done].
  - right. split; [lia|done].
Qed.

Lemma bind_seq {A C} (c : St (machine B) A) (k : A -> St (machine B) C) m :
  (c ≫= k) m = k (fst (c m)) (snd (c m)).
Proof. unfold mbind, st_bind. by destruct (c m). Qed.

(** Closing exactly what was opened restores the table. *)
Lemma close_all_installed t l m :
  installed t (m_fds m) l -> m_fds (snd (close_all l m)) = t.
Proof.
  revert m. induction l as [|fd l IH]; intros m (N & Ho & K).
  - apply map_eq. intros k. apply K. set_solver.
  - apply NoDup_cons in N as [Hfd N]. cbn [close_all foldr].
    destruct (Ho fd) as (_ & Hnone & [f Hf]); [set_solver|].
    rewrite bind_seq, (close_open_fds _ _ _ Hf). cbn [fst snd].
    apply IH. repeat split; try done.
    + apply Ho. set_solver.
    + apply Ho. set_solver.
    + cbn. rewrite lookup_delete_ne by set_solver. apply Ho. set_solver.
    + intros k Hk. cbn. destruct (decide (k = fd)) as [->|].
      * by rewrite lookup_delete_eq, Hnone.
      * rewrite lookup_delete_ne by done. apply K. set_solver.
Qed.

Lemma close_each_all l m : Forall (fun fd => 0 <= fd) l -> close_each l m = close_all l m.
Proof.
  intros H. revert m. induction H as [|fd l Hfd H IH]; intros m; [done|].
  cbn [close_each close_all foldr]. rewrite !bind_seq. unfold close_if_open.
  destruct (Z.leb_spec 0 fd); [|lia]. apply IH.
Qed.

Lemma installed_nonneg t t' l : installed t t' l -> Forall (fun fd => 0 <= fd) l.
Proof. intros (_ & Ho & _). apply Forall_forall. intros fd Hfd. by apply Ho. Qed.

Lemma close_each_installed t l m :
  installed t (m_fds m) l -> m_fds (snd (close_each l m)) = t.
Proof.
  intros H. rewrite close_each_all by (by eapply installed_nonneg). by apply close_all_installed.
Qed.

Lemma close_each_errno l m : m_errno m <> 0 -> m_errno (snd (close_each l m)) <> 0.
Proof.
  revert m. induction l as [|fd l IH]; intros m H; [done|]. cbn [close_each foldr].
  rewrite bind_seq. apply IH. unfold close_if_open. destruct (0 <=? fd); [|done].
  unfold sys_close. by destruct (m_fds m !! fd).
Qed.

Lemma installed_Permutation t t' l l' : l ≡ₚ l' -> installed t t' l -> installed t t' l'.
Proof.
  intros Hp (N & Ho & K). repeat split.
  - by rewrite <- Hp.
  - intros. apply Ho. by rewrite Hp.
  - apply Ho. by rewrite Hp.
  - apply Ho. by rewrite Hp.
  - intros fd Hfd. apply K. by rewrite Hp.
Qed.

(** Dropping the last group of opened descriptors. *)
Lemma installed_app_inv t t' l1 l2 :
  installed t t' (l1 ++ l2) ->
  exists t1, installed t t1 l1 /\ installed t1 t' l2.
Proof.
  intros (N & Ho & K). apply NoDup_app in N as (N1 & Hdis & N2).
  exists (filter (fun kv => kv.1 ∉ l2) t').
  assert (forall fd, fd ∉ l2 -> filter (fun kv : Z * fd_info => kv.1 ∉ l2) t' !! fd = t' !! fd) as Hkeep.
  { intros fd Hfd. destruct (t' !! fd) eqn:E.
    - by apply map_lookup_filter_Some_2.
    - apply map_lookup_filter_None_2. by left. }
  assert (forall fd, fd ∈ l2 -> filter (fun kv : Z * fd_info => kv.1 ∉ l2) t' !! fd = None) as Hdrop.
  { intros fd Hfd. apply map_lookup_filter_None_2. right. intros f _ Hn. by apply Hn. }
  split; (split; [done|]; split).
  - intros fd Hfd. destruct (Ho fd) as (H1 & H2 & H3); [set_solver|].
    rewrite Hkeep by (intros H; by apply (Hdis fd)). done.
  - intros fd Hfd. destruct (decide (fd ∈ l2)) as [H2|H2].
    + rewrite Hdrop by done. symmetry. apply Ho. set_solver.
    + rewrite Hkeep by done. apply K. set_solver.
  - intros fd Hfd. destruct (Ho fd) as (H1 & H2 & H3); [set_solver|].
    split; [done|]. split; [by apply Hdrop|done].
  - intros fd Hfd. symmetry. by apply Hkeep.
Qed.

(** Two groups opened one after the other can be closed in either order. *)
Lemma installed_swap t t1 t2 l1 l2 : installed t t1 l1 -> installed t1 t2 l2 ->
  exists t', installed t t' l2 /\ installed t' t2 l1.
Proof.
  intros H1 H2. apply installed_app_inv. eapply installed_Permutation; [apply Permutation_app_comm|].
  by eapply installed_app.
Qed.

End Installed.

(** [accounted L t Q]: the state described by [Q] holds over the table [t], or
    over [t] with descriptors [L] allows to be lost: open, and owned by nobody. *)
Definition accounted (L : list Z -> Prop) (t : gmap Z fd_info) (Q : gmap Z fd_info -> Prop) : Prop :=
  Q t \/ exists lost t', L lost /\ installed t t' lost /\ Q t'.

(** What is accounted for over a larger table is accounted for below it. *)
Lemma accounted_below (L : list Z -> Prop) t t1 l (Q R : gmap Z fd_info -> Prop) :
  installed t t1 l -> accounted L t1 Q ->
  (forall t0 t', installed t0 t' l -> Q t' -> R t0) -> accounted L t R.
Proof.
  intros Hi [HQ|(lost & t' & HL & Ht & HQ)] HR; [left; by eapply HR|right].
  destruct (installed_swap _ _ _ _ _ Hi Ht) as (t0 & H0 & H1).
  exists lost, t0. eauto.
Qed.

Lemma accounted_mono (L L' : list Z -> Prop) t (Q R : gmap Z fd_info -> Prop) :
  accounted L t Q -> (forall l, L l -> L' l) -> (forall t', Q t' -> R t') -> accounted L' t R.
Proof. intros [H|(lost & t' & H1 & H2 & H3)] HL HQ; [left|right; exists lost, t']; eauto. Qed.

Lemma lowest_free_le_size (t : gmap Z fd_info) : lowest_free t <= Z.of_nat (size t).
Proof. unfold lowest_free. pose proof (lowest_from_spec (size t) 0 t). lia. Qed.

(** The files behind a list of descriptors. *)
Definition files_of (t : gmap Z fd_info) (fds : list Z) : list file_kind :=
  omap (fun fd => fd_kind <$> t !! fd) fds.
