(* ===== verification/Protocol.v ===== *)
(** * The ADVC wire protocol (src/src/video_bridge/src/protocol.c, protocol.h)

    Little-endian field access, the 32-byte record header with its validation,
    and the transfer of one record with its descriptors over the client socket. *)

From stdpp Require Import base list gmap.
From Stdlib Require Import ZArith Lia Bool.
From S2P Require Import Prelude Kernel.

(** ** Constants of protocol.h *)

Definition ADVC_MAGIC : Z := 0x43564441.
Definition ADVC_VERSION_MAJOR : Z := 1.
Definition ADVC_VERSION_MINOR : Z := 8.
Definition ADVC_HEADER_SIZE : Z := 32.
Definition ADVC_MAX_PAYLOAD : Z := 1024 * 1024.
Definition ADVC_MAX_FDS : Z := 8.

Definition ADVC_MSG_REQUEST : Z := 1.
Definition ADVC_MSG_REPLY : Z := 2.
Definition ADVC_MSG_EVENT : Z := 3.

Definition ADVC_OP_HELLO : Z := 1.
Definition ADVC_OP_QUERY_CAPABILITIES : Z := 2.
Definition ADVC_OP_CREATE_SESSION : Z := 3.
Definition ADVC_OP_QUEUE_INPUT : Z := 4.
Definition ADVC_OP_DEQUEUE_OUTPUT : Z := 5.
Definition ADVC_OP_RELEASE_OUTPUT : Z := 6.
Definition ADVC_OP_FLUSH : Z := 7.
Definition ADVC_OP_CLOSE_SESSION : Z := 8.
Definition ADVC_OP_TRANSFER_AHB : Z := 9.
Definition ADVC_OP_PING : Z := 10.
Definition ADVC_OP_QUEUE_AHB : Z := 11.
Definition ADVC_OP_COMPLETE_AHB : Z := 12.
Definition ADVC_OP_REGISTER_DMABUF : Z := 13.
Definition ADVC_OP_UNREGISTER_DMABUF : Z := 14.
Definition ADVC_OP_QUEUE_DMABUF : Z := 15.
Definition ADVC_OP_COMPLETE_DMABUF : Z := 16.
Definition ADVC_OP_TRANSFER_PRIME : Z := 17.
Definition ADVC_OP_RESERVE_LINEAR : Z := 18.

Definition ADVC_STATUS_OK : Z := 0.
Definition ADVC_STATUS_BAD_MESSAGE : Z := 1.
Definition ADVC_STATUS_UNSUPPORTED : Z := 2.
Definition ADVC_STATUS_NO_RESOURCE : Z := 3.
Definition ADVC_STATUS_CODEC_ERROR : Z := 4.
Definition ADVC_STATUS_PERMISSION_DENIED : Z := 5.
Definition ADVC_STATUS_WOULD_BLOCK : Z := 6.
Definition ADVC_STATUS_INTERNAL : Z := 7.

Definition ADVC_DIRECTION_DECODE : Z := 1.
Definition ADVC_DIRECTION_ENCODE : Z := 2.

Definition ADVC_TRANSPORT_BYTES : Z := 1.
Definition ADVC_TRANSPORT_DMABUF : Z := 2.
Definition ADVC_TRANSPORT_AHARDWAREBUFFER : Z := 3.
Definition ADVC_TRANSPORT_BROKER_EGL_SURFACE : Z := 4.
Definition ADVC_TRANSPORT_ANDROID_AHB_SURFACE : Z := 5.

Definition ADVC_FD_NONE : Z := 0.
Definition ADVC_FD_INPUT_DATA : Z := 1.
Definition ADVC_FD_ACQUIRE_FENCE : Z := 32.
Definition ADVC_FD_RELEASE_FENCE : Z := 33.

Definition ADVC_FLAG_END_OF_STREAM : Z := 1.
Definition ADVC_FLAG_KEY_FRAME : Z := 2.
Definition ADVC_FLAG_CODEC_CONFIG : Z := 4.
Definition ADVC_FLAG_AHB_FOLLOWS : Z := 16.

Definition ADVC_MAX_INPUT_BYTES : Z := 16 * 1024 * 1024.
Definition ADVC_MAX_OUTPUT_BYTES : Z := 16 * 1024 * 1024.

(** ** Little-endian fields *)

Definition advc_put_u16 (p : list Z) (off v : Z) : list Z :=
  set_byte (set_byte p off v) (off + 1) (Z.shiftr v 8).

Definition advc_put_u32 (p : list Z) (off v : Z) : list Z :=
  set_byte (set_byte (set_byte (set_byte p off v)
    (off + 1) (Z.shiftr v 8)) (off + 2) (Z.shiftr v 16)) (off + 3) (Z.shiftr v 24).

Definition advc_put_u64 (p : list Z) (off v : Z) : list Z :=
  advc_put_u32 (advc_put_u32 p off (u32 v)) (off + 4) (u32 (Z.shiftr v 32)).

Definition advc_get_u16 (p : list Z) (off : Z) : Z :=
  u16 (Z.lor (byte_at p off) (Z.shiftl (byte_at p (off + 1)) 8)).

Definition advc_get_u32 (p : list Z) (off : Z) : Z :=
  Z.lor (Z.lor (Z.lor (byte_at p off) (Z.shiftl (byte_at p (off + 1)) 8))
               (Z.shiftl (byte_at p (off + 2)) 16))
        (Z.shiftl (byte_at p (off + 3)) 24).

Definition advc_get_u64 (p : list Z) (off : Z) : Z :=
  Z.lor (advc_get_u32 p off) (Z.shiftl (advc_get_u32 p (off + 4)) 32).

(** ** Records and messages *)

Record advc_header := Header {
  version_major : Z;
  version_minor : Z;
  message_type : Z;
  opcode : Z;
  request_id : Z;
  session_id : Z;
  h_flags : Z;
  payload_size : Z;
  fd_count : Z;
  reserved : Z;
}.

(** The C struct's field widths. *)
Definition header_typed (h : advc_header) : Prop :=
  is_u16 (version_major h) /\ is_u16 (version_minor h) /\ is_u16 (message_type h) /\
  is_u16 (opcode h) /\ is_u32 (request_id h) /\ is_u32 (session_id h) /\
  is_u32 (h_flags h) /\ is_u32 (payload_size h) /\ is_u16 (fd_count h) /\
  is_u16 (reserved h).

(** [msg_payload] is [None] for a NULL payload pointer, else the buffer with
    its capacity in cells. *)
Record advc_message := Message {
  msg_header : advc_header;
  msg_payload : option (list Z);
  payload_capacity : Z;
  msg_fds : list Z;
}.

Definition payload_of (m : advc_message) : list Z := default [] (msg_payload m).
Definition fd_at (m : advc_message) (i : Z) : Z := default (-1) (msg_fds m !! Z.to_nat i).

Definition with_header (h : advc_header) (m : advc_message) : advc_message :=
  Message h (msg_payload m) (payload_capacity m) (msg_fds m).
Definition with_payload (p : list Z) (m : advc_message) : advc_message :=
  Message (msg_header m) (Some p) (payload_capacity m) (msg_fds m).
Definition with_fds (l : list Z) (m : advc_message) : advc_message :=
  Message (msg_header m) (msg_payload m) (payload_capacity m) l.

Definition header_with_payload_size (n : Z) (h : advc_header) : advc_header :=
  Header (version_major h) (version_minor h) (message_type h) (opcode h) (request_id h)
    (session_id h) (h_flags h) n (fd_count h) (reserved h).
Definition header_with_fd_count (n : Z) (h : advc_header) : advc_header :=
  Header (version_major h) (version_minor h) (message_type h) (opcode h) (request_id h)
    (session_id h) (h_flags h) (payload_size h) n (reserved h).
Definition header_with_flags (n : Z) (h : advc_header) : advc_header :=
  Header (version_major h) (version_minor h) (message_type h) (opcode h) (request_id h)
    (session_id h) n (payload_size h) (fd_count h) (reserved h).
Definition header_with_session_id (n : Z) (h : advc_header) : advc_header :=
  Header (version_major h) (version_minor h) (message_type h) (opcode h) (request_id h)
    n (h_flags h) (payload_size h) (fd_count h) (reserved h).

(** The condition under which [advc_header_validate] rejects. *)
Definition header_invalid (h : advc_header) : bool :=
  negb (version_major h =? ADVC_VERSION_MAJOR) ||
  (message_type h <? ADVC_MSG_REQUEST) || (ADVC_MSG_EVENT <? message_type h) ||
  (opcode h <? ADVC_OP_HELLO) || (ADVC_OP_RESERVE_LINEAR <? opcode h) ||
  (ADVC_MAX_PAYLOAD <? payload_size h) || (ADVC_MAX_FDS <? fd_count h) ||
  negb (reserved h =? 0).

(** The ten stores of [advc_header_encode]. *)
Definition header_store (out : list Z) (h : advc_header) : list Z :=
  let p := memzero out ADVC_HEADER_SIZE in
  let p := advc_put_u32 p 0 ADVC_MAGIC in
  let p := advc_put_u16 p 4 (version_major h) in
  let p := advc_put_u16 p 6 (version_minor h) in
  let p := advc_put_u16 p 8 (message_type h) in
  let p := advc_put_u16 p 10 (opcode h) in
  let p := advc_put_u32 p 12 (request_id h) in
  let p := advc_put_u32 p 16 (session_id h) in
  let p := advc_put_u32 p 20 (h_flags h) in
  let p := advc_put_u32 p 24 (payload_size h) in
  let p := advc_put_u16 p 28 (fd_count h) in
  advc_put_u16 p 30 0.

(** The ten loads of [advc_header_decode]. *)
Definition header_load (p : list Z) : advc_header :=
  Header (advc_get_u16 p 4) (advc_get_u16 p 6) (advc_get_u16 p 8) (advc_get_u16 p 10)
    (advc_get_u32 p 12) (advc_get_u32 p 16) (advc_get_u32 p 20) (advc_get_u32 p 24)
    (advc_get_u16 p 28) (advc_get_u16 p 30).

Section Messages.
Context {B : Type}.

Definition advc_header_validate (h : advc_header) : St (machine B) Z :=
  if header_invalid h then fail_with EPROTO else mret 0.

(** Result and the buffer as it is left. *)
Definition advc_header_encode (out : list Z) (h : advc_header) : St (machine B) (Z * list Z) :=
  r ← advc_header_validate h;
  if negb (r =? 0) then errno_is EINVAL ;; mret (-1, out)
  else mret (ADVC_HEADER_SIZE, header_store out h).

(** Result and the header as it is left; on a bad magic it is not written. *)
Definition advc_header_decode (h : advc_header) (inb : list Z)
  : St (machine B) (Z * advc_header) :=
  if negb (advc_get_u32 inb 0 =? ADVC_MAGIC) then errno_is EPROTO ;; mret (-1, h)
  else r ← advc_header_validate (header_load inb); mret (r, header_load inb).

(** *** Sending *)

(** [do { sent = sendmsg(...) } while (sent < 0 && errno == EINTR)]: the first
    result that is not an interrupted call, and the results left.  With no
    scripted result the whole record is accepted. *)
Fixpoint send_retry (full : Z) (rs : list Z) : Z * list Z :=
  match rs with
  | [] => (full, [])
  | r :: rs => if r =? - EINTR then send_retry full rs else (r, rs)
  end.

Definition sys_sendmsg (pk : packet) : St (machine B) Z := fun m =>
  let '(r, rs) := send_retry (zlen (pk_bytes pk)) (m_txres m) in
  if r <? 0 then (-1, set_errno (- r) (set_tx (m_tx m) rs m))
  else (r, set_tx (pk :: m_tx m) rs m).

Definition advc_send_message (m : advc_message) : St (machine B) Z :=
  let h := msg_header m in
  if (0 <? payload_size h) && bool_decide (msg_payload m = None) then mret (-1)
  else
    '(r, hdr) ← advc_header_encode (replicate 32 0) h;
    if r <? 0 then mret (-1)
    else
      let bytes := hdr ++ take (Z.to_nat (payload_size h)) (payload_of m) in
      let fds := take (Z.to_nat (fd_count h)) (msg_fds m) in
      sent ← sys_sendmsg (Packet bytes fds);
      if sent <? 0 then mret (-1)
      else if negb (sent =? ADVC_HEADER_SIZE + payload_size h) then fail_with EIO
      else mret 0.

(** *** Receiving *)

(** The kernel installs the files of one control message, close-on-exec, until
    the table is full. *)
Fixpoint install_files (l : list file_kind) : St (machine B) (list Z) :=
  match l with
  | [] => mret []
  | k :: l =>
      fd ← install_fd (FdInfo true k);
      if fd <? 0 then mret []
      else rest ← install_files l; mret (fd :: rest)
  end.

Fixpoint install_control (l : list cmsg) : St (machine B) (list (option (list Z))) :=
  match l with
  | [] => mret []
  | ScmRights files :: l =>
      fds ← install_files files; rest ← install_control l; mret (Some fds :: rest)
  | OtherCmsg :: l => rest ← install_control l; mret (None :: rest)
  end.

(** [do { received = recvmsg(...) } while (received < 0 && errno == EINTR)]; an
    exhausted script is the peer's orderly shutdown. *)
Fixpoint recv_retry (l : list rx_event) : rx_event * list rx_event :=
  match l with
  | [] => (RxRecord [] false [], [])
  | RxError e :: l => if e =? EINTR then recv_retry l else (RxError e, l)
  | ev :: l => (ev, l)
  end.

Definition sys_recvmsg : St (machine B) rx_event := fun s =>
  let '(ev, l) := recv_retry (m_rx s) in (ev, set_rx l s).

(** [memcpy(dst + at, src, ...)] on an array of ints. *)
Definition store_fds (dst : list Z) (at_ : Z) (src : list Z) : list Z :=
  list_inserts (Z.to_nat at_) src dst.

(** The control-message loop: the descriptors gathered in [fds] and their count,
    or [None] after closing the message that does not fit. *)
Fixpoint gather_fds (l : list (option (list Z))) (fds : list Z) (n : Z)
  : St (machine B) (option (list Z * Z)) :=
  match l with
  | [] => mret (Some (fds, n))
  | None :: l => gather_fds l fds n
  | Some incoming :: l =>
      if ADVC_MAX_FDS <? n + zlen incoming then
        close_all incoming ;; errno_is EMSGSIZE ;; mret None
      else gather_fds l (store_fds fds n incoming) (n + zlen incoming)
  end.

Definition no_header : advc_header := Header 0 0 0 0 0 0 0 0 0 0.

(** The six-way rejection test after the loop, with C's short-circuit order:
    whether the record is rejected, and the decoded header. *)
Definition record_check (flagged : bool) (received : Z) (hb : list Z) (n capacity : Z)
  : St (machine B) (bool * advc_header) :=
  if flagged || (received <? ADVC_HEADER_SIZE) then mret (true, no_header)
  else
    '(r, hdr) ← advc_header_decode no_header hb;
    mret ((r <? 0) || negb (received =? ADVC_HEADER_SIZE + payload_size hdr) ||
          negb (n =? fd_count hdr) || (capacity <? payload_size hdr), hdr).

Definition advc_receive_message (m : advc_message) : St (machine B) (Z * advc_message) :=
  if (0 <? payload_capacity m) && bool_decide (msg_payload m = None) then
    errno_is EINVAL ;; mret (-1, m)
  else
    ev ← sys_recvmsg;
    match ev with
    | RxError e => errno_is e ;; mret (-1, m)
    | RxRecord sent truncated control =>
        (* what fits the two buffers is delivered, the rest raises MSG_TRUNC *)
        let room := ADVC_HEADER_SIZE + Z.max 0 (payload_capacity m) in
        let bytes := take (Z.to_nat room) sent in
        let flagged := truncated || (room <? zlen sent) in
        delivered ← install_control control;
        let received := zlen bytes in
        let m := match msg_payload m with
                 | Some p => with_payload (list_inserts 0 (drop 32 bytes) p) m
                 | None => m
                 end in
        if received =? 0 then errno_is ECONNRESET ;; mret (-1, m)
        else
          g ← gather_fds delivered (msg_fds m) 0;
          match g with
          | None => mret (-1, m)
          | Some (fds, n) =>
              let m := with_fds fds m in
              chk ← record_check flagged received (take 32 bytes) n (payload_capacity m);
              if (fst chk : bool) then
                close_all (take (Z.to_nat n) fds) ;; errno_is EMSGSIZE ;; mret (-1, m)
              else mret (0, with_header (snd chk) m)
          end
    end.

(** [advc_close_message_fds] *)
Definition advc_close_message_fds (m : advc_message) : St (machine B) advc_message :=
  let n := Z.to_nat (Z.min (fd_count (msg_header m)) ADVC_MAX_FDS) in
  close_each (take n (msg_fds m)) ;;
  mret (with_header (header_with_fd_count 0 (msg_header m))
         (with_fds (replicate (Nat.min n (length (msg_fds m))) (-1) ++ drop n (msg_fds m)) m)).

End Messages.

(** ** Field algebra *)

Lemma zlen_put_u16 p off v : zlen (advc_put_u16 p off v) = zlen p.
Proof. unfold advc_put_u16. by rewrite !zlen_set_byte. Qed.
Lemma zlen_put_u32 p off v : zlen (advc_put_u32 p off v) = zlen p.
Proof. unfold advc_put_u32. by rewrite !zlen_set_byte. Qed.
Lemma zlen_put_u64 p off v : zlen (advc_put_u64 p off v) = zlen p.
Proof. unfold advc_put_u64. by rewrite !zlen_put_u32. Qed.

Create Rewrite HintDb zlen.
#[export] Hint Rewrite zlen_set_byte zlen_memzero zlen_put_u16 zlen_put_u32 zlen_put_u64 : zlen.

(** Side conditions of field rewriting: offsets are numerals. *)
Ltac side := autorewrite with zlen; lia.

Lemma byte_put_u16_out p off v i : 0 <= off -> 0 <= i -> i < off \/ off + 2 <= i ->
  byte_at (advc_put_u16 p off v) i = byte_at p i.
Proof. intros. unfold advc_put_u16. by rewrite !byte_at_set_ne by lia. Qed.
Lemma byte_put_u32_out p off v i : 0 <= off -> 0 <= i -> i < off \/ off + 4 <= i ->
  byte_at (advc_put_u32 p off v) i = byte_at p i.
Proof. intros. unfold advc_put_u32. by rewrite !byte_at_set_ne by lia. Qed.
Lemma byte_put_u64_out p off v i : 0 <= off -> 0 <= i -> i < off \/ off + 8 <= i ->
  byte_at (advc_put_u64 p off v) i = byte_at p i.
Proof. intros. unfold advc_put_u64. by rewrite !byte_put_u32_out by lia. Qed.

Lemma get_u16_arith p off :
  advc_get_u16 p off = byte_at p off + byte_at p (off + 1) * 256.
Proof.
  unfold advc_get_u16. rewrite lor_low_shiftl by (pose proof (byte_at_range p off); wsolve).
  pose proof (byte_at_range p off). pose proof (byte_at_range p (off + 1)).
  apply u16_id. wsolve.
Qed.

Lemma get_u32_arith p off :
  advc_get_u32 p off = byte_at p off + byte_at p (off + 1) * 256
    + byte_at p (off + 2) * 65536 + byte_at p (off + 3) * 16777216.
Proof.
  unfold advc_get_u32.
  pose proof (byte_at_range p off). pose proof (byte_at_range p (off + 1)).
  pose proof (byte_at_range p (off + 2)). pose proof (byte_at_range p (off + 3)).
  rewrite (lor_low_shiftl _ _ 8), (lor_low_shiftl _ _ 16), (lor_low_shiftl _ _ 24)
    by (change (2 ^ 24) with 16777216; wsolve).
  reflexivity.
Qed.

Lemma get_u16_range p off : is_u16 (advc_get_u16 p off).
Proof. unfold advc_get_u16. auto with width. Qed.
Lemma get_u32_range p off : is_u32 (advc_get_u32 p off).
Proof.
  rewrite get_u32_arith.
  pose proof (byte_at_range p off). pose proof (byte_at_range p (off + 1)).
  pose proof (byte_at_range p (off + 2)). pose proof (byte_at_range p (off + 3)). wsolve.
Qed.

Lemma get_u64_arith p off :
  advc_get_u64 p off = advc_get_u32 p off + advc_get_u32 p (off + 4) * 2 ^ 32.
Proof.
  unfold advc_get_u64. pose proof (get_u32_range p off).
  by rewrite lor_low_shiftl by wsolve.
Qed.
Lemma get_u64_range p off : is_u64 (advc_get_u64 p off).
Proof.
  rewrite get_u64_arith. pose proof (get_u32_range p off).
  pose proof (get_u32_range p (off + 4)). wsolve.
Qed.
#[export] Hint Resolve get_u16_range get_u32_range get_u64_range : width.

(** A load only looks at the cells of its field. *)
Lemma get_u16_ext p q off :
  (forall i, off <= i < off + 2 -> byte_at p i = byte_at q i) ->
  advc_get_u16 p off = advc_get_u16 q off.
Proof. intros H. unfold advc_get_u16. by rewrite !H by lia. Qed.
Lemma get_u32_ext p q off :
  (forall i, off <= i < off + 4 -> byte_at p i = byte_at q i) ->
  advc_get_u32 p off = advc_get_u32 q off.
Proof. intros H. unfold advc_get_u32. by rewrite !H by lia. Qed.
Lemma get_u64_ext p q off :
  (forall i, off <= i < off + 8 -> byte_at p i = byte_at q i) ->
  advc_get_u64 p off = advc_get_u64 q off.
Proof.
  intros H. unfold advc_get_u64.
  rewrite (get_u32_ext p q), (get_u32_ext p q (off + 4)); [done|..]; intros; apply H; lia.
Qed.

Lemma get_put_u16 p off v : 0 <= off -> off + 2 <= zlen p ->
  advc_get_u16 (advc_put_u16 p off v) off = u16 v.
Proof.
  intros. rewrite get_u16_arith. unfold advc_put_u16.
  rewrite byte_at_set_ne, !byte_at_set_eq by side.
  rewrite Z.shiftr_div_pow2 by lia. wsolve.
Qed.

Lemma get_put_u32 p off v : 0 <= off -> off + 4 <= zlen p ->
  advc_get_u32 (advc_put_u32 p off v) off = u32 v.
Proof.
  intros. rewrite get_u32_arith. unfold advc_put_u32.
  repeat first [rewrite byte_at_set_eq by side | rewrite byte_at_set_ne by side].
  rewrite !Z.shiftr_div_pow2 by lia.
  change (2 ^ 24) with 16777216. wsolve.
Qed.

Lemma get_put_u64 p off v : 0 <= off -> off + 8 <= zlen p ->
  advc_get_u64 (advc_put_u64 p off v) off = u64 v.
Proof.
  intros. rewrite get_u64_arith. unfold advc_put_u64.
  rewrite get_put_u32 by side.
  rewrite (get_u32_ext _ (advc_put_u32 p off (u32 v)))
    by (intros; apply byte_put_u32_out; lia).
  rewrite get_put_u32, Z.shiftr_div_pow2 by side. wsolve.
Qed.

(** A store does not disturb a disjoint field. *)
Ltac put_out L := intros; apply L; intros;
  first [apply byte_put_u16_out | apply byte_put_u32_out | apply byte_put_u64_out]; lia.

Lemma get_u16_put_u16_ne p off v o : 0 <= off -> 0 <= o -> o + 2 <= off \/ off + 2 <= o ->
  advc_get_u16 (advc_put_u16 p off v) o = advc_get_u16 p o.
Proof. put_out get_u16_ext. Qed.
Lemma get_u16_put_u32_ne p off v o : 0 <= off -> 0 <= o -> o + 2 <= off \/ off + 4 <= o ->
  advc_get_u16 (advc_put_u32 p off v) o = advc_get_u16 p o.
Proof. put_out get_u16_ext. Qed.
Lemma get_u32_put_u16_ne p off v o : 0 <= off -> 0 <= o -> o + 4 <= off \/ off + 2 <= o ->
  advc_get_u32 (advc_put_u16 p off v) o = advc_get_u32 p o.
Proof. put_out get_u32_ext. Qed.
Lemma get_u32_put_u32_ne p off v o : 0 <= off -> 0 <= o -> o + 4 <= off \/ off + 4 <= o ->
  advc_get_u32 (advc_put_u32 p off v) o = advc_get_u32 p o.
Proof. put_out get_u32_ext. Qed.
Lemma get_u32_put_u64_ne p off v o : 0 <= off -> 0 <= o -> o + 4 <= off \/ off + 8 <= o ->
  advc_get_u32 (advc_put_u64 p off v) o = advc_get_u32 p o.
Proof. put_out get_u32_ext. Qed.
Lemma get_u64_put_u32_ne p off v o : 0 <= off -> 0 <= o -> o + 8 <= off \/ off + 4 <= o ->
  advc_get_u64 (advc_put_u32 p off v) o = advc_get_u64 p o.
Proof. put_out get_u64_ext. Qed.
Lemma get_u64_put_u64_ne p off v o : 0 <= off -> 0 <= o -> o + 8 <= off \/ off + 8 <= o ->
  advc_get_u64 (advc_put_u64 p off v) o = advc_get_u64 p o.
Proof. put_out get_u64_ext. Qed.

(** [fields] evaluates loads from a buffer built by stores. *)
Ltac fields :=
  repeat first
    [ rewrite get_put_u16 by side | rewrite get_put_u32 by side
    | rewrite get_put_u64 by side
    | rewrite get_u16_put_u16_ne by side | rewrite get_u16_put_u32_ne by side
    | rewrite get_u32_put_u16_ne by side | rewrite get_u32_put_u32_ne by side
    | rewrite get_u32_put_u64_ne by side | rewrite get_u64_put_u32_ne by side
    | rewrite get_u64_put_u64_ne by side ].

(** ** The header *)

Lemma zlen_header_store out h : zlen (header_store out h) = zlen out.
Proof. unfold header_store. by autorewrite with zlen. Qed.

Lemma header_store_magic out h : zlen out = 32 ->
  advc_get_u32 (header_store out h) 0 = ADVC_MAGIC.
Proof. intros Hl. unfold header_store. fields. reflexivity. Qed.

(** Loading what was stored gives the header back, except [reserved], which is
    always stored as zero. *)
Lemma header_load_store out h : zlen out = 32 -> header_typed h -> reserved h = 0 ->
  header_load (header_store out h) = h.
Proof.
  intros Hl (?&?&?&?&?&?&?&?&?&?) Hr. unfold header_load, header_store. fields.
  destruct h; cbn in *. subst.
  f_equal; first [apply u16_id | apply u32_id | reflexivity]; assumption.
Qed.

Lemma header_load_typed p : header_typed (header_load p).
Proof. unfold header_typed, header_load; cbn. repeat split; apply get_u16_range || apply get_u32_range. Qed.

(** Monadic stepping: the continuation runs on the result and the state. *)
Ltac step := rewrite ?bind_seq; cbn [fst snd].

Section HeaderTheorems.
Context {B : Type}.
Implicit Types s : machine B.

Lemma validate_ok h s : header_invalid h = false -> advc_header_validate h s = (0, s).
Proof. unfold advc_header_validate. by intros ->. Qed.
Lemma validate_bad h s : header_invalid h = true ->
  advc_header_validate h s = (-1, set_errno EPROTO s).
Proof. unfold advc_header_validate. by intros ->. Qed.

Lemma encode_ok out h s : header_invalid h = false ->
  advc_header_encode out h s = ((ADVC_HEADER_SIZE, header_store out h), s).
Proof.
  intros H. unfold advc_header_encode. step. by rewrite (validate_ok _ _ H).
Qed.

Lemma invalid_reserved h : header_invalid h = false -> reserved h = 0.
Proof. unfold header_invalid. lia. Qed.

Lemma decode_valid h0 p s :
  advc_get_u32 p 0 = ADVC_MAGIC -> header_invalid (header_load p) = false ->
  advc_header_decode h0 p s = ((0, header_load p), s).
Proof.
  intros Hm Hv. unfold advc_header_decode. rewrite Hm, Z.eqb_refl. cbn [negb]. step.
  by rewrite (validate_ok _ _ Hv).
Qed.

Lemma decode_inv h0 p s r h s' :
  advc_header_decode h0 p s = ((r, h), s') ->
  m_fds s' = m_fds s /\
  (r = 0 /\ advc_get_u32 p 0 = ADVC_MAGIC /\ h = header_load p /\
     header_invalid h = false /\ s' = s \/ r = -1).
Proof.
  unfold advc_header_decode. destruct (Z.eqb_spec (advc_get_u32 p 0) ADVC_MAGIC) as [Hm|];
    cbn [negb]; step.
  - destruct (header_invalid (header_load p)) eqn:E.
    + rewrite (validate_bad _ _ E). intros [= <- <- <-]. split; [done|]. by right.
    + rewrite (validate_ok _ _ E). intros [= <- <- <-]. split; [done|]. by left.
  - intros [= <- <- <-]. split; [done|]. by right.
Qed.

End HeaderTheorems.

(** ** Descriptors attached to a record *)

Definition all_fds (l : list (option (list Z))) : list Z := concat (default [] <$> l).

Section FdTheorems.
Context {B : Type}.
Implicit Types s : machine B.

Lemma install_files_installed l s :
  installed (m_fds s) (m_fds (snd (install_files l s))) (fst (install_files l s)) /\
  (length (fst (install_files l s)) <= length l)%nat.
Proof.
  revert s. induction l as [|k l IH]; intros s; cbn [install_files].
  - split; [apply installed_nil|cbn; lia].
  - step. destruct (install_fd_spec (FdInfo true k) s) as [(m' & Hm & Hf)|(_ & Hm)]; rewrite Hm; step.
    + cbn. rewrite Hf. split; [apply installed_nil|lia].
    + destruct (Z.ltb_spec (lowest_free (m_fds s)) 0) as [?|_];
        [pose proof (lowest_free_nonneg (m_fds s)); lia|]. step.
      set (s1 := set_fds _ _). destruct (IH s1) as [I Hl].
      cbn. split; [|lia]. apply (installed_app _ (m_fds s1) _ [_]); [apply installed_one|done].
Qed.

(** The number of files a control block carries. *)
Definition cmsg_files (c : cmsg) : nat :=
  match c with ScmRights l => length l | OtherCmsg => 0 end.
Definition control_files (l : list cmsg) : nat := sum_list_with cmsg_files l.

Lemma install_control_installed l s :
  installed (m_fds s) (m_fds (snd (install_control l s))) (all_fds (fst (install_control l s))) /\
  (length (all_fds (fst (install_control l s))) <= control_files l)%nat.
Proof.
  revert s. induction l as [|[files|] l IH]; intros s; cbn [install_control].
  - split; [apply installed_nil|cbn; lia].
  - step. destruct (install_files_installed files s) as [I1 L1].
    set (s1 := snd (install_files files s)) in *. destruct (IH s1) as [I2 L2]. step.
    cbn. split; [by eapply installed_app|]. rewrite length_app. unfold all_fds, control_files in L2. lia.
  - step. destruct (IH s) as [I L]. by split.
Qed.

(** While the total fits the array, gathering only copies. *)
Lemma gather_fds_fits l fds n s :
  zlen fds = ADVC_MAX_FDS -> 0 <= n -> n + zlen (all_fds l) <= ADVC_MAX_FDS ->
  exists fds', gather_fds l fds n s = (Some (fds', n + zlen (all_fds l)), s) /\
    zlen fds' = ADVC_MAX_FDS /\
    take (Z.to_nat (n + zlen (all_fds l))) fds' = take (Z.to_nat n) fds ++ all_fds l.
Proof.
  revert fds n. induction l as [|[inc|] l IH]; intros fds n Hl Hn Ht; cbn [gather_fds].
  - exists fds. cbn in *. rewrite Z.add_0_r, app_nil_r. done.
  - assert (all_fds (Some inc :: l) = inc ++ all_fds l) as Ha by done.
    rewrite Ha in Ht |- *. unfold zlen in *. rewrite length_app in *.
    destruct (Z.ltb_spec ADVC_MAX_FDS (n + Z.of_nat (length inc))) as [?|_]; [lia|].
    destruct (IH (store_fds fds n inc) (n + Z.of_nat (length inc))) as (fds' & Hg & Hz & Htk).
    { unfold store_fds. by rewrite length_inserts. }
    { lia. }
    { lia. }
    exists fds'. split; [rewrite Hg; do 3 f_equal; lia|]. split; [done|].
    replace (n + Z.of_nat (length inc + length (all_fds l)))
      with (n + Z.of_nat (length inc) + Z.of_nat (length (all_fds l))) by lia.
    rewrite Htk, app_assoc. f_equal. unfold store_fds.
    apply list_eq. intros i. unfold ADVC_MAX_FDS in *.
    destruct (decide (i < Z.to_nat n + length inc)%nat) as [Hi|Hi].
    + rewrite lookup_take_lt by lia. destruct (decide (i < Z.to_nat n)%nat).
      * rewrite list_lookup_inserts_lt, lookup_app_l by (rewrite ?length_take; lia).
        by rewrite lookup_take_lt by lia.
      * rewrite list_lookup_inserts, lookup_app_r by (rewrite ?length_take; lia).
        f_equal. rewrite length_take. lia.
    + rewrite !lookup_ge_None_2; [done|..]; rewrite ?length_app, ?length_take, ?length_inserts; lia.
  - apply IH; done.
Qed.

End FdTheorems.

(** ** Properties of the protocol *)

Section ReceiveTheorems.
Context {B : Type}.
Implicit Types s : machine B.

Lemma record_check_fds flagged received hb n cap s :
  m_fds (snd (record_check flagged received hb n cap s)) = m_fds s.
Proof.
  unfold record_check. destruct (_ || _); [done|]. step.
  destruct (advc_header_decode no_header hb s) as [[r h] s'] eqn:E.
  apply decode_inv in E as [E _]. done.
Qed.

Lemma record_check_accepts flagged received hb n cap s :
  fst (fst (record_check flagged received hb n cap s)) = false ->
  let h := snd (fst (record_check flagged received hb n cap s)) in
  flagged = false /\ h = header_load hb /\ advc_get_u32 hb 0 = ADVC_MAGIC /\
  header_invalid h = false /\ received = ADVC_HEADER_SIZE + payload_size h /\
  n = fd_count h /\ payload_size h <= cap.
Proof.
  unfold record_check. destruct (flagged || _) eqn:F; [done|]. step.
  destruct (advc_header_decode no_header hb s) as [[r h] s'] eqn:E. cbn. intros H.
  apply decode_inv in E as [_ [(-> & ? & -> & ? & ->)| -> ]]; [|done].
  apply orb_false_iff in F as [-> _]. repeat split; try done; lia.
Qed.

(** What the receiver has to say about the event at the head of the socket:
    the record is not empty, and its control block fits the 8-entry array. *)
Definition event_fits (ev : rx_event) : Prop :=
  match ev with
  | RxError _ => True
  | RxRecord bytes _ control => bytes <> [] /\ (control_files control <= 8)%nat
  end.

Lemma receive_cases s msg :
  event_fits (fst (recv_retry (m_rx s))) -> zlen (msg_fds msg) = ADVC_MAX_FDS ->
  let r := fst (fst (advc_receive_message msg s)) in
  let msg' := snd (fst (advc_receive_message msg s)) in
  let s' := snd (advc_receive_message msg s) in
  (r = -1 /\ m_fds s' = m_fds s) \/
  (r = 0 /\ header_typed (msg_header msg') /\ header_invalid (msg_header msg') = false /\
   payload_size (msg_header msg') <= payload_capacity msg /\
   installed (m_fds s) (m_fds s') (take (Z.to_nat (fd_count (msg_header msg'))) (msg_fds msg'))).
Proof.
  intros Hev Hl. unfold advc_receive_message.
  destruct (_ && _); [left; done|]. step. unfold sys_recvmsg.
  destruct (recv_retry (m_rx s)) as [ev rest]. cbn [fst snd] in *.
  destruct ev as [e|bytes tr control]; [left; done|]. destruct Hev as [Hne Hc]. step.
  set (s0 := set_rx rest s). destruct (install_control_installed control s0) as [I L].
  set (s1 := snd (install_control control s0)) in *.
  set (d := fst (install_control control s0)) in *. cbn beta zeta.
  set (by_ := take _ bytes). destruct (Z.eqb_spec (zlen by_) 0) as [H0|_].
  { exfalso. unfold by_, zlen, ADVC_HEADER_SIZE in H0. rewrite length_take in H0.
    destruct bytes; [done|]. cbn in H0. lia. }
  assert (zlen (msg_fds (match msg_payload msg with
            | Some p => with_payload (list_inserts 0 (drop 32 by_) p) msg
            | None => msg end)) = ADVC_MAX_FDS) as Hl'.
  { by destruct (msg_payload msg). }
  set (m1 := match msg_payload msg with Some _ => _ | None => _ end) in *.
  assert (payload_capacity m1 = payload_capacity msg) as Hcap.
  { unfold m1. by destruct (msg_payload msg). }
  destruct (gather_fds_fits d (msg_fds m1) 0 s1) as (fds' & Hg & _ & Htk);
    [done|lia|unfold zlen, ADVC_MAX_FDS; lia|].
  step. rewrite Hg. cbn [fst snd]. step. rewrite Z.add_0_l in *. cbn [take app Z.to_nat] in Htk.
  set (chk := record_check _ _ _ _ _). pose proof (record_check_fds (tr ||
    (ADVC_HEADER_SIZE + Z.max 0 (payload_capacity msg) <? zlen bytes)) (zlen by_) (take 32 by_)
    (zlen (all_fds d)) (payload_capacity (with_fds fds' m1)) s1) as Hfds.
  pose proof (record_check_accepts (tr ||
    (ADVC_HEADER_SIZE + Z.max 0 (payload_capacity msg) <? zlen bytes)) (zlen by_) (take 32 by_)
    (zlen (all_fds d)) (payload_capacity (with_fds fds' m1)) s1) as Hacc.
  fold chk in Hfds, Hacc. destruct (chk s1) as [[bad h] s2]. cbn [fst snd] in *.
  destruct bad.
  - left. step. cbn [fst snd]. split; [done|]. rewrite Htk.
    unfold errno_is, modify, mret, st_ret; cbn. apply close_all_installed. by rewrite Hfds.
  - right. destruct (Hacc eq_refl) as (_ & -> & _ & Hv & _ & Hn & Hps). cbn.
    split; [done|]. split; [apply header_load_typed|]. split; [done|].
    split; [cbn in Hps; lia|].
    change (advc_get_u16 (take 32 by_) 28) with (fd_count (header_load (take 32 by_))).
    by rewrite <- Hn, Htk, Hfds.
Qed.

End ReceiveTheorems.

Section Roundtrip.
Context {A B : Type}.
Implicit Types s : machine B.

(** With room in the table every file gets a close-on-exec descriptor. *)
Lemma install_files_kinds l s :
  Z.of_nat (size (m_fds s)) + zlen l <= m_limit s ->
  Forall2 (fun fd k => m_fds (snd (install_files l s)) !! fd = Some (FdInfo true k))
    (fst (install_files l s)) l.
Proof.
  revert s. induction l as [|k l IH]; intros s Hroom; cbn [install_files]; [by constructor|].
  step. pose proof (lowest_free_le_size (m_fds s)). pose proof (lowest_free_nonneg (m_fds s)).
  unfold zlen in *. cbn [length] in *.
  destruct (install_fd_spec (FdInfo true k) s) as [(m' & Hm & Hf)|(_ & Hm)].
  { exfalso. unfold install_fd in Hm. destruct (Z.leb_spec (m_limit s) (lowest_free (m_fds s))); [lia|].
    injection Hm. lia. }
  rewrite Hm. step. destruct (Z.ltb_spec (lowest_free (m_fds s)) 0) as [?|_]; [lia|].
  set (s1 := set_fds _ _). step.
  assert (Z.of_nat (size (m_fds s1)) + Z.of_nat (length l) <= m_limit s1) as Hr1.
  { cbn. rewrite map_size_insert_None by apply lowest_free_fresh. lia. }
  destruct (install_files_installed l s1) as [(N & Ho & K) _].
  constructor; [|by apply IH]. rewrite K.
  - cbn. by rewrite lookup_insert_eq.
  - intros (_ & Hn & _)%Ho. cbn in Hn. by rewrite lookup_insert_eq in Hn.
Qed.

(** The kernel carries a sent record to the peer: its bytes, and the open files
    behind the attached descriptors. *)
Definition control_of (t : gmap Z fd_info) (fds : list Z) : list cmsg :=
  match fds with [] => [] | _ => [ScmRights (files_of t fds)] end.
Definition deliver (t : gmap Z fd_info) (pk : packet) : rx_event :=
  RxRecord (pk_bytes pk) false (control_of t (pk_fds pk)).

Lemma files_of_Forall2 t fds :
  (forall fd, fd ∈ fds -> is_Some (t !! fd)) ->
  Forall2 (fun fd k => exists f, t !! fd = Some f /\ k = fd_kind f) fds (files_of t fds).
Proof.
  induction fds as [|fd fds IH]; intros H; cbn; [constructor|].
  destruct (H fd) as [f Hf]; [apply list_elem_of_here|]. rewrite Hf. cbn.
  constructor; [eauto|]. apply IH. intros x Hx. apply H. by apply list_elem_of_further.
Qed.

Lemma Forall2_Forall2_trans {X Y W} (P : X -> Y -> Prop) (Q : Y -> W -> Prop)
  (R : X -> W -> Prop) l1 l2 l3 :
  Forall2 P l1 l2 -> Forall2 Q l2 l3 ->
  (forall x y w, P x y -> Q y w -> R x w) -> Forall2 R l1 l3.
Proof.
  intros H1. revert l3. induction H1; intros l3 H2 HR; inversion H2; subst; constructor; eauto.
Qed.

(** Each delivered descriptor is a close-on-exec one for the same file. *)
Lemma control_of_kinds t fds s :
  (forall fd, fd ∈ fds -> is_Some (t !! fd)) ->
  Z.of_nat (size (m_fds s)) + zlen fds <= m_limit s ->
  Forall2 (fun fd fd' => exists f, t !! fd = Some f /\
             m_fds (snd (install_control (control_of t fds) s)) !! fd' =
               Some (FdInfo true (fd_kind f)))
    fds (all_fds (fst (install_control (control_of t fds) s))).
Proof.
  intros Hopen Hroom. pose proof (files_of_Forall2 t fds Hopen) as Hfiles.
  pose proof (Forall2_length _ _ _ Hfiles) as Hlen.
  pose proof (install_files_kinds (files_of t fds) s) as Hk. unfold zlen in *.
  rewrite <- Hlen in Hk. specialize (Hk Hroom).
  destruct fds as [|fd fds]; [constructor|]. cbn [control_of install_control]. step.
  unfold all_fds, mret, st_ret. cbn [fst snd fmap list_fmap default concat id app].
  rewrite app_nil_r.
  apply Forall2_flip in Hk. eapply Forall2_Forall2_trans; [exact Hfiles|exact Hk|].
  intros x k y (f & Hx & ->) Hy. by exists f.
Qed.

(** Installing the files of a record leaves the socket alone. *)
Lemma install_files_rx l s : m_rx (snd (install_files l s)) = m_rx s.
Proof.
  revert s. induction l as [|k l IH]; intros s; [done|]. cbn [install_files]. step.
  destruct (install_fd_spec (FdInfo true k) s) as [(s' & E & _)|[Hlim E]]; rewrite E; cbn [fst snd].
  - unfold install_fd in E. destruct (_ <=? _); simplify_eq/=; [done|].
    pose proof (lowest_free_nonneg (m_fds s)). lia.
  - destruct (Z.ltb_spec (lowest_free (m_fds s)) 0); [done|]. step. by etrans; [apply IH|].
Qed.
Lemma install_control_rx l s : m_rx (snd (install_control l s)) = m_rx s.
Proof.
  revert s. induction l as [|[files|] l IH]; intros s; cbn [install_control]; step; [done| |by etrans; [apply IH|]].
  etrans; [apply IH|apply install_files_rx].
Qed.

Lemma take_inserts_prefix (src dst : list Z) :
  (length src <= length dst)%nat -> take (length src) (list_inserts 0 src dst) = src.
Proof.
  intros Hle. apply list_eq. intros i. destruct (decide (i < length src)%nat).
  - rewrite lookup_take_lt, list_lookup_inserts by lia. f_equal. lia.
  - rewrite !lookup_ge_None_2; rewrite ?length_take; done || lia.
Qed.

Lemma send_ok (msg : advc_message) (sA : machine A) :
  header_invalid (msg_header msg) = false ->
  0 <= payload_size (msg_header msg) <= zlen (payload_of msg) ->
  m_txres sA = [] ->
  advc_send_message msg sA =
    (0, set_tx (Packet
          (header_store (replicate 32 0) (msg_header msg) ++
             take (Z.to_nat (payload_size (msg_header msg))) (payload_of msg))
          (take (Z.to_nat (fd_count (msg_header msg))) (msg_fds msg)) :: m_tx sA) [] sA).
Proof.
  intros Hv Hp Ht. unfold advc_send_message.
  destruct ((0 <? _) && _) eqn:E.
  { exfalso. apply andb_true_iff in E as [E1 E2%bool_decide_eq_true].
    unfold payload_of, zlen in Hp. rewrite E2 in Hp. cbn in Hp. lia. }
  step. rewrite (encode_ok _ _ _ Hv). cbn [fst snd].
  change (ADVC_HEADER_SIZE <? 0) with false. cbn iota. step.
  unfold sys_sendmsg. rewrite Ht.
  cbn [send_retry fst snd pk_bytes ADVC_HEADER_SIZE].
  assert (forall l, zlen (header_store (replicate 32 0) (msg_header msg) ++ l) = 32 + zlen l) as Hz.
  { intros l. pose proof (zlen_header_store (replicate 32 0) (msg_header msg)) as Hs.
    unfold zlen in *. rewrite length_app. rewrite length_replicate in Hs. lia. }
  rewrite Hz.
  assert (zlen (take (Z.to_nat (payload_size (msg_header msg))) (payload_of msg))
          = payload_size (msg_header msg)) as Hl.
  { unfold zlen in *. rewrite length_take. lia. }
  rewrite Hl. destruct (Z.ltb_spec (32 + payload_size (msg_header msg)) 0); [lia|].
  cbn [fst snd]. destruct (Z.ltb_spec (32 + payload_size (msg_header msg)) 0); [lia|].
  by rewrite Z.eqb_refl.
Qed.

End Roundtrip.

Section ReceiveOk.
Context {B : Type}.
Implicit Types s : machine B.

(** A well-formed record is accepted, and what is left where. *)
Lemma receive_ok s rmsg buf hb pl control rest :
  recv_retry (m_rx s) = (RxRecord (hb ++ pl) false control, rest) ->
  length hb = 32%nat -> advc_get_u32 hb 0 = ADVC_MAGIC ->
  header_invalid (header_load hb) = false ->
  payload_size (header_load hb) = zlen pl ->
  msg_payload rmsg = Some buf -> zlen pl <= payload_capacity rmsg ->
  zlen (msg_fds rmsg) = ADVC_MAX_FDS ->
  fd_count (header_load hb) = zlen (all_fds (fst (install_control control (set_rx rest s)))) ->
  exists fds',
    advc_receive_message rmsg s =
      ((0, Message (header_load hb) (Some (list_inserts 0 pl buf)) (payload_capacity rmsg) fds'),
       snd (install_control control (set_rx rest s))) /\
    take (Z.to_nat (fd_count (header_load hb))) fds' =
      all_fds (fst (install_control control (set_rx rest s))).
Proof.
  intros Hrx Hhb Hm Hv Hps Hbuf Hcap Hl Hn. set (s1 := install_control _ _) in *.
  assert (fd_count (header_load hb) <= ADVC_MAX_FDS) as Hmax.
  { unfold header_invalid in Hv. lia. }
  destruct (gather_fds_fits (fst s1) (msg_fds rmsg) 0 (snd s1)) as (fds' & Hg & _ & Htk);
    [done|lia|lia|].
  exists fds'. rewrite Z.add_0_l, <- Hn in *. cbn [take app Z.to_nat] in Htk. split; [|done].
  unfold advc_receive_message. rewrite Hbuf, bool_decide_eq_false_2, andb_false_r by done.
  step. unfold sys_recvmsg. rewrite Hrx. cbn [fst snd]. step. fold s1.
  assert (zlen (hb ++ pl) = 32 + zlen pl) as Hz by (unfold zlen; rewrite length_app; lia).
  assert (0 <= zlen pl) as Hpl by (unfold zlen; lia).
  rewrite take_ge by (unfold zlen, ADVC_HEADER_SIZE in *; lia).
  rewrite Hz. destruct (Z.eqb_spec (32 + zlen pl) 0); [lia|].
  change (msg_fds (with_payload _ rmsg)) with (msg_fds rmsg).
  rewrite (drop_app_le hb pl) by lia. rewrite drop_ge by lia. cbn [app].
  step. rewrite Hg. cbn [fst snd]. step.
  assert ((ADVC_HEADER_SIZE + Z.max 0 (payload_capacity rmsg) <? 32 + zlen pl) = false) as ->
    by (unfold ADVC_HEADER_SIZE; lia).
  unfold record_check. cbn [orb].
  assert ((32 + zlen pl <? ADVC_HEADER_SIZE) = false) as -> by (unfold ADVC_HEADER_SIZE; lia).
  step. rewrite take_app_le, take_ge by lia. rewrite (decode_valid _ _ _ Hm Hv). cbn [fst snd].
  assert ((0 <? 0) || negb (32 + zlen pl =? ADVC_HEADER_SIZE + payload_size (header_load hb)) ||
    negb (fd_count (header_load hb) =? fd_count (header_load hb)) ||
    (payload_capacity (with_fds fds' (with_payload (list_inserts 0 pl buf) rmsg)) <?
       payload_size (header_load hb)) = false) as Hchk.
  { cbn [payload_capacity with_fds with_payload]. unfold ADVC_HEADER_SIZE. lia. }
  unfold mret at 1 2, st_ret at 1 2. cbn [fst snd]. rewrite Hchk. cbn iota.
  reflexivity.
Qed.

End ReceiveOk.

(** ** Claims *)

(** Encoding a well-typed, valid header and decoding the 32 bytes gives the
    same header back, with both calls succeeding and no side effect. *)
Theorem header_roundtrip {B} (s : machine B) (out : list Z) (h h0 : advc_header)
  (Hout : zlen out = ADVC_HEADER_SIZE) (Ht : header_typed h) (Hv : header_invalid h = false) :
  exists buf,
    advc_header_encode out h s = ((ADVC_HEADER_SIZE, buf), s) /\
    zlen buf = ADVC_HEADER_SIZE /\
    advc_header_decode h0 buf s = ((0, h), s).
Proof.
  exists (header_store out h). split; [by apply encode_ok|].
  split; [by rewrite zlen_header_store|].
  pose proof (header_load_store out h Hout Ht (invalid_reserved h Hv)) as Hl.
  rewrite decode_valid; [by rewrite Hl|by apply header_store_magic|by rewrite Hl].
Qed.

Definition start_machine : machine unit := Machine tt ∅ 64 0 [] [] [] [] [].
Definition sample_header : advc_header :=
  Header 1 8 ADVC_MSG_REQUEST ADVC_OP_QUEUE_INPUT 7 1 0 3 1 0.

Lemma header_roundtrip_witness :
  exists buf,
    advc_header_encode (replicate 32 0) sample_header start_machine =
      ((ADVC_HEADER_SIZE, buf), start_machine) /\
    zlen buf = ADVC_HEADER_SIZE /\
    advc_header_decode no_header buf start_machine = ((0, sample_header), start_machine).
Proof.
  apply (header_roundtrip start_machine (replicate 32 0) sample_header no_header).
  - reflexivity.
  - repeat split; vm_compute; congruence.
  - reflexivity.
Defined.

(** A 32-byte block decodes successfully exactly when it carries the magic
    number and its fields pass validation; the header then holds the loaded
    fields, and otherwise the call fails with EPROTO. *)
Theorem header_decode_exact {B} (s : machine B) (h0 : advc_header) (p : list Z) :
  let r := advc_header_decode h0 p s in
  (advc_get_u32 p 0 = ADVC_MAGIC /\ header_invalid (header_load p) = false /\
     r = ((0, header_load p), s)) \/
  ((advc_get_u32 p 0 = ADVC_MAGIC -> header_invalid (header_load p) = true) /\
     fst (fst r) = -1 /\ snd r = set_errno EPROTO s).
Proof.
  cbn. unfold advc_header_decode.
  destruct (Z.eqb_spec (advc_get_u32 p 0) ADVC_MAGIC) as [Hm|Hm]; cbn [negb]; step.
  - destruct (header_invalid (header_load p)) eqn:E.
    + right. by rewrite (validate_bad _ _ E).
    + left. by rewrite (validate_ok _ _ E).
  - right. done.
Qed.

(** C15. A message that is sent is received intact by the peer: the same header,
    the same payload bytes and, for each attached descriptor, a close-on-exec
    descriptor of the same open file, in the order they were attached.  The
    record is the next one of the receiver's socket; whatever follows it stays
    there. *)
Theorem send_receive_roundtrip {A B} (sA : machine A) (sB : machine B)
  (msg rmsg : advc_message) (buf : list Z)
  (Ht : header_typed (msg_header msg)) (Hv : header_invalid (msg_header msg) = false)
  (Hp : payload_size (msg_header msg) <= zlen (payload_of msg))
  (Hf : fd_count (msg_header msg) <= zlen (msg_fds msg))
  (Hopen : forall fd, fd ∈ take (Z.to_nat (fd_count (msg_header msg))) (msg_fds msg) ->
             is_Some (m_fds sA !! fd))
  (Htx : m_txres sA = [])
  (Hbuf : msg_payload rmsg = Some buf) (Hlen : zlen buf = payload_capacity rmsg)
  (Hcap : payload_size (msg_header msg) <= payload_capacity rmsg)
  (Hfds : zlen (msg_fds rmsg) = ADVC_MAX_FDS)
  (Hroom : Z.of_nat (size (m_fds sB)) + ADVC_MAX_FDS <= m_limit sB) :
  exists pk sA',
    advc_send_message msg sA = (0, sA') /\ m_tx sA' = pk :: m_tx sA /\
    (forall rest, exists msg' sB',
       advc_receive_message rmsg (set_rx (deliver (m_fds sA) pk :: rest) sB) = ((0, msg'), sB') /\
       m_rx sB' = rest /\
       msg_header msg' = msg_header msg /\
       take (Z.to_nat (payload_size (msg_header msg))) (payload_of msg') =
         take (Z.to_nat (payload_size (msg_header msg))) (payload_of msg) /\
       Forall2 (fun fd fd' => exists f, m_fds sA !! fd = Some f /\
                  m_fds sB' !! fd' = Some (FdInfo true (fd_kind f)))
         (take (Z.to_nat (fd_count (msg_header msg))) (msg_fds msg))
         (take (Z.to_nat (fd_count (msg_header msg))) (msg_fds msg'))).
Proof.
  assert (0 <= payload_size (msg_header msg)) as Hp0 by apply Ht.
  assert (0 <= fd_count (msg_header msg)) as Hf0 by apply Ht.
  rewrite send_ok by (done || lia). do 2 eexists. split; [done|]. split; [done|].
  set (pk := Packet _ _). intros rest.
  set (sR := set_rx _ sB).
  set (hb := header_store (replicate 32 0) (msg_header msg)) in *.
  set (pl := take (Z.to_nat (payload_size (msg_header msg))) (payload_of msg)) in *.
  set (n := Z.to_nat (fd_count (msg_header msg))) in *.
  assert (header_load hb = msg_header msg) as Hh
    by (apply header_load_store; [done|done|by apply invalid_reserved]).
  assert (zlen pl = payload_size (msg_header msg)) as Hpl
    by (unfold pl, zlen in *; rewrite length_take; lia).
  assert (length (take n (msg_fds msg)) = n) as Hn by (rewrite length_take; unfold n, zlen in *; lia).
  assert (n <= 8)%nat as Hn8 by (unfold header_invalid, ADVC_MAX_FDS in Hv; lia).
  pose proof (control_of_kinds (m_fds sA) (take n (msg_fds msg)) (set_rx rest sR) Hopen
    ltac:(cbn; unfold zlen, ADVC_MAX_FDS in *; lia)) as Hk.
  destruct (receive_ok sR rmsg buf hb pl (control_of (m_fds sA) (pk_fds pk)) rest)
    as (fds' & Hrecv & Htk); try done.
  { by rewrite Hh. }
  { by rewrite Hh, Hpl. }
  { lia. }
  { rewrite Hh. unfold zlen. change (pk_fds pk) with (take n (msg_fds msg)).
    rewrite <- (Forall2_length _ _ _ Hk), Hn. lia. }
  do 2 eexists. split; [exact Hrecv|]. cbn [msg_header payload_of msg_payload default msg_fds].
  split; [apply install_control_rx|]. split; [done|]. split.
  { rewrite <- Hpl. unfold zlen. rewrite Nat2Z.id. apply take_inserts_prefix. unfold zlen in *. lia. }
  rewrite Hh in Htk. fold n in Htk. rewrite Htk. by apply Hk.
Qed.

Definition sample_sender : machine unit :=
  Machine tt {[5 := FdInfo false KSyncFile]} 64 0 [] [] [] [] [].
Definition sample_message : advc_message :=
  Message sample_header (Some [10; 20; 30]) 3 (5 :: replicate 7 (-1)).
Definition sample_slot : advc_message :=
  Message no_header (Some (replicate 16 0)) 16 (replicate 8 (-1)).

Lemma send_receive_roundtrip_witness :
  exists pk sA',
    advc_send_message sample_message sample_sender = (0, sA') /\ m_tx sA' = [pk] /\
    (forall rest, exists msg' sB',
       advc_receive_message sample_slot
         (set_rx (deliver (m_fds sample_sender) pk :: rest) start_machine) = ((0, msg'), sB') /\
       m_rx sB' = rest /\
       msg_header msg' = sample_header /\
       take 3 (payload_of msg') = [10; 20; 30] /\
       Forall2 (fun fd fd' => exists f, m_fds sample_sender !! fd = Some f /\
                  m_fds sB' !! fd' = Some (FdInfo true (fd_kind f)))
         [5] (take 1 (msg_fds msg'))).
Proof.
  apply (send_receive_roundtrip sample_sender start_machine sample_message sample_slot
           (replicate 16 0)); try reflexivity.
  - repeat split; vm_compute; congruence.
  - vm_compute. discriminate.
  - intros fd Hfd. cbn in Hfd. apply list_elem_of_singleton in Hfd as ->. vm_compute. eauto.
  - vm_compute. discriminate.
  - vm_compute. discriminate.
Defined.

(** Receiving a non-empty record whose control block fits the descriptor
    array never leaks and never loses a descriptor: a rejected record leaves the
    descriptor table as it was, and an accepted one adds exactly the [fd_count]
    new descriptors listed in the message, whose header is valid and whose
    payload fits the caller's buffer. *)
Theorem receive_ownership {B} (s : machine B) (msg : advc_message)
  (Hev : event_fits (fst (recv_retry (m_rx s))))
  (Hfds : zlen (msg_fds msg) = ADVC_MAX_FDS) :
  let r := fst (fst (advc_receive_message msg s)) in
  let msg' := snd (fst (advc_receive_message msg s)) in
  let s' := snd (advc_receive_message msg s) in
  (r = -1 /\ m_fds s' = m_fds s) \/
  (r = 0 /\ header_typed (msg_header msg') /\ header_invalid (msg_header msg') = false /\
   payload_size (msg_header msg') <= payload_capacity msg /\
   installed (m_fds s) (m_fds s')
     (take (Z.to_nat (fd_count (msg_header msg'))) (msg_fds msg'))).
Proof. by apply receive_cases. Qed.

Definition flooded_machine : machine unit :=
  Machine tt ∅ 64 0 [] [RxError EINTR; RxRecord [1; 2] false [ScmRights [KOther; KSyncFile]]] [] [] [].

Lemma receive_ownership_witness :
  fst (fst (advc_receive_message sample_slot flooded_machine)) = -1 /\
  m_fds (snd (advc_receive_message sample_slot flooded_machine)) = ∅.
Proof.
  destruct (receive_ownership flooded_machine sample_slot) as [H|H].
  - split; [discriminate|vm_compute; lia].
  - reflexivity.
  - exact H.
  - exfalso. destruct H as [H _]. vm_compute in H. discriminate.
Defined.

(** A zero-length record is refused as a closed connection before its
    control block is looked at: the descriptors that came with it stay open in
    the process and no message records them. *)
Theorem receive_empty_record_leaks {B} (s : machine B) (msg : advc_message)
  (truncated : bool) (files : list file_kind) (rest : list rx_event)
  (Hrx : recv_retry (m_rx s) = (RxRecord [] truncated [ScmRights files], rest))
  (Hpay : msg_payload msg <> None)
  (Hroom : Z.of_nat (size (m_fds s)) + zlen files <= m_limit s) :
  exists fds,
    fst (fst (advc_receive_message msg s)) = -1 /\
    m_errno (snd (advc_receive_message msg s)) = ECONNRESET /\
    length fds = length files /\
    installed (m_fds s) (m_fds (snd (advc_receive_message msg s))) fds /\
    msg_fds (snd (fst (advc_receive_message msg s))) = msg_fds msg.
Proof.
  exists (fst (install_files files (set_rx rest s))). unfold advc_receive_message.
  rewrite bool_decide_eq_false_2, andb_false_r by done. step.
  unfold sys_recvmsg. rewrite Hrx. cbn [fst snd]. rewrite take_nil. step.
  cbn [install_control]. step. change (zlen (@nil Z)) with 0. cbn [Z.eqb].
  pose proof (install_files_kinds files (set_rx rest s) Hroom) as Hk.
  split; [done|]. split; [done|]. split; [by apply Forall2_length in Hk|].
  split; [exact (proj1 (install_files_installed files (set_rx rest s)))|].
  cbn. by destruct (msg_payload msg).
Qed.

Definition hostile_machine : machine unit :=
  Machine tt ∅ 64 0 [] [RxRecord [] false [ScmRights [KOther; KOther]]] [] [] [].

Lemma receive_empty_record_leaks_witness :
  exists fds,
    fst (fst (advc_receive_message sample_slot hostile_machine)) = -1 /\
    length fds = 2%nat /\
    installed ∅ (m_fds (snd (advc_receive_message sample_slot hostile_machine))) fds.
Proof.
  destruct (receive_empty_record_leaks hostile_machine sample_slot false [KOther; KOther] [])
    as (fds & H1 & _ & H2 & H3 & _).
  - reflexivity.
  - discriminate.
  - vm_compute. discriminate.
  - exists fds. auto.
Defined.
