(* ===== verification/Policy.v ===== *)
(** * Pure decision code of the video bridge

    byte_range.c (bounds of a MediaCodec buffer view), transport_policy.c (which
    backend a codec session uses) and codec_discovery.c (whether a component
    name is evidence of hardware), all under src/src/video_bridge/src. *)

From stdpp Require Import base list gmap.
From Stdlib Require Import ZArith Lia Bool String.
From S2P Require Import Prelude Kernel Protocol.

(** ** byte_range.c *)

Module ByteRange.

(** [base] is the buffer's address, [None] for NULL.  The result is [None] for a
    return of -1, else the pointer and the size stored through the out
    parameters, which are not NULL. *)
Definition advc_checked_byte_range (base : option Z) (capacity offset length : Z)
  : option (option Z * Z) :=
  if (offset <? 0) || (length <? 0) then None
  else
    let unsigned_offset := u64 offset in
    let unsigned_length := u64 length in
    if (SIZE_MAX <? unsigned_offset) || (SIZE_MAX <? unsigned_length) then None
    else if (capacity <? unsigned_offset) ||
            (u64 (capacity - unsigned_offset) <? unsigned_length) then None
    else match base with
         | None => if negb (unsigned_offset =? 0) || negb (unsigned_length =? 0) then None
                   else Some (None, unsigned_length)
         | Some b => Some (Some (b + unsigned_offset), unsigned_length)
         end.

(** The checked view of a buffer is accepted exactly when the signed offset
    and length describe a range inside the capacity (and are both zero for a
    NULL buffer); the returned pointer and size are that range, computed without
    wrap-around for every 64-bit input. *)
Theorem checked_byte_range_exact (base : option Z) (capacity offset length : Z)
  (Hcap : is_u64 capacity) (Hoff : - 2 ^ 63 <= offset < 2 ^ 63)
  (Hlen : - 2 ^ 63 <= length < 2 ^ 63) :
  match advc_checked_byte_range base capacity offset length with
  | Some (p, n) =>
      n = length /\ 0 <= offset /\ 0 <= length /\ offset + length <= capacity /\
      match base with
      | Some b => p = Some (b + offset) /\ b <= b + offset /\ b + offset + n <= b + capacity
      | None => p = None /\ offset = 0 /\ length = 0
      end
  | None =>
      offset < 0 \/ length < 0 \/ capacity < offset + length \/
      (base = None /\ (offset <> 0 \/ length <> 0))
  end.
Proof.
  unfold advc_checked_byte_range.
  destruct ((offset <? 0) || (length <? 0)) eqn:E1; [lia|].
  assert (0 <= offset /\ 0 <= length) as [Ho Hl] by lia.
  rewrite (u64_id offset), (u64_id length) by wsolve.
  destruct ((SIZE_MAX <? offset) || (SIZE_MAX <? length)) eqn:E2; [wsolve|].
  destruct (Z.ltb_spec capacity offset) as [?|Hc]; cbn [orb]; [lia|].
  rewrite u64_id by wsolve.
  destruct (Z.ltb_spec (capacity - offset) length); [lia|].
  destruct base as [b|]; [repeat split; lia|].
  destruct (negb (offset =? 0) || negb (length =? 0)) eqn:E3; [right; right; right|]; repeat split; lia.
Qed.

Lemma checked_byte_range_exact_witness :
  advc_checked_byte_range (Some 4096) 100 40 60 = Some (Some 4136, 60) /\ 40 + 60 <= 100.
Proof.
  split; [reflexivity|].
  pose proof (checked_byte_range_exact (Some 4096) 100 40 60) as H.
  cbn in H. apply H; wsolve.
Defined.

End ByteRange.

(** ** transport_policy.c *)

Module Transport.

Definition ADVC_ZERO_COPY_STRICT : Z := 1.
Definition ADVC_ZERO_COPY_AUTO : Z := 2.
Definition ADVC_DMABUF_BACKEND_AUTO : Z := 0.
Definition ADVC_DMABUF_BACKEND_VULKAN : Z := 1.
Definition ADVC_DMABUF_BACKEND_EGL : Z := 2.
Definition ADVC_BACKEND_UNAVAILABLE : Z := 0.
Definition ADVC_BACKEND_VULKAN_DMABUF : Z := 1.
Definition ADVC_BACKEND_EGL_DMABUF : Z := 2.
Definition ADVC_BACKEND_ANDROID_AHB : Z := 3.
Definition ADVC_BACKEND_BROKER_SURFACE : Z := 4.
Definition ADVC_BACKEND_BYTES : Z := 5.
Definition ADVC_BACKEND_MASK (backend : Z) : Z := Z.shiftl 1 backend.
Definition ADVC_SELECTION_REAL_PROBE_PASS : Z := 1.
Definition ADVC_SELECTION_AUTO_ANDROID_LOCAL : Z := 2.
Definition ADVC_SELECTION_AUTO_BYTE_COPY : Z := 3.
Definition ADVC_SELECTION_STRICT_ZERO_COPY_UNAVAILABLE : Z := 4.
Definition ADVC_SELECTION_CANDIDATES_EXHAUSTED : Z := 5.

Definition ADVC_FEATURE_MEMFD : Z := Z.shiftl 1 0.
Definition ADVC_FEATURE_DMABUF : Z := Z.shiftl 1 1.
Definition ADVC_FEATURE_BROKER_EGL_SURFACE : Z := Z.shiftl 1 6.
Definition ADVC_FEATURE_ANDROID_AHB_SURFACE : Z := Z.shiftl 1 7.
Definition ADVC_FEATURE_DMABUF_EGL : Z := Z.shiftl 1 8.
Definition ADVC_FEATURE_DMABUF_VULKAN : Z := Z.shiftl 1 9.

Record advc_transport_policy_request := Request {
  zero_copy_mode : Z;
  dmabuf_preference : Z;
  available_features : Z;
  rejected_backends : Z;
  frames_submitted_in_previous_session : Z;
  previous_session_closed : bool;
}.

Record advc_transport_policy_result := Result {
  r_backend : Z;
  r_reason : Z;
  r_transport : Z;
  r_cpu_pixel_copy : Z;
}.

Definition available (r : advc_transport_policy_request) (backend feature : Z) : bool :=
  let dmabuf_backend := (backend =? ADVC_BACKEND_VULKAN_DMABUF) ||
                        (backend =? ADVC_BACKEND_EGL_DMABUF) in
  (negb dmabuf_backend || negb (Z.land (available_features r) ADVC_FEATURE_DMABUF =? 0)) &&
  negb (Z.land (available_features r) feature =? 0) &&
  (Z.land (rejected_backends r) (ADVC_BACKEND_MASK backend) =? 0).

Definition choose := Result.

(** [inl errno] for a return of -1, else the stored result. *)
Definition advc_transport_policy_select (r : advc_transport_policy_request)
  : Z + advc_transport_policy_result :=
  if (negb (zero_copy_mode r =? ADVC_ZERO_COPY_STRICT) &&
      negb (zero_copy_mode r =? ADVC_ZERO_COPY_AUTO)) ||
     (ADVC_DMABUF_BACKEND_EGL <? dmabuf_preference r) then inl EINVAL
  else if negb (rejected_backends r =? 0) &&
          (negb (frames_submitted_in_previous_session r =? 0) ||
           negb (previous_session_closed r)) then inl EBUSY
  else
    let '(first, first_feature, second, second_feature) :=
      if dmabuf_preference r =? ADVC_DMABUF_BACKEND_EGL
      then (ADVC_BACKEND_EGL_DMABUF, ADVC_FEATURE_DMABUF_EGL,
            ADVC_BACKEND_VULKAN_DMABUF, ADVC_FEATURE_DMABUF_VULKAN)
      else (ADVC_BACKEND_VULKAN_DMABUF, ADVC_FEATURE_DMABUF_VULKAN,
            ADVC_BACKEND_EGL_DMABUF, ADVC_FEATURE_DMABUF_EGL) in
    if available r first first_feature then
      inr (choose first ADVC_SELECTION_REAL_PROBE_PASS ADVC_TRANSPORT_DMABUF 0)
    else if (dmabuf_preference r =? ADVC_DMABUF_BACKEND_AUTO) &&
            available r second second_feature then
      inr (choose second ADVC_SELECTION_REAL_PROBE_PASS ADVC_TRANSPORT_DMABUF 0)
    else if zero_copy_mode r =? ADVC_ZERO_COPY_STRICT then
      inr (choose ADVC_BACKEND_UNAVAILABLE ADVC_SELECTION_STRICT_ZERO_COPY_UNAVAILABLE 0 0)
    else if available r ADVC_BACKEND_ANDROID_AHB ADVC_FEATURE_ANDROID_AHB_SURFACE then
      inr (choose ADVC_BACKEND_ANDROID_AHB ADVC_SELECTION_AUTO_ANDROID_LOCAL
             ADVC_TRANSPORT_ANDROID_AHB_SURFACE 0)
    else if available r ADVC_BACKEND_BROKER_SURFACE ADVC_FEATURE_BROKER_EGL_SURFACE then
      inr (choose ADVC_BACKEND_BROKER_SURFACE ADVC_SELECTION_AUTO_ANDROID_LOCAL
             ADVC_TRANSPORT_BROKER_EGL_SURFACE 0)
    else if available r ADVC_BACKEND_BYTES ADVC_FEATURE_MEMFD then
      inr (choose ADVC_BACKEND_BYTES ADVC_SELECTION_AUTO_BYTE_COPY ADVC_TRANSPORT_BYTES 1)
    else inr (choose ADVC_BACKEND_UNAVAILABLE ADVC_SELECTION_CANDIDATES_EXHAUSTED 0 0).

Definition advc_selected_backend_name (backend : Z) : string :=
  if backend =? ADVC_BACKEND_VULKAN_DMABUF then "vulkan-dmabuf"
  else if backend =? ADVC_BACKEND_EGL_DMABUF then "egl-dmabuf"
  else if backend =? ADVC_BACKEND_ANDROID_AHB then "android-ahb-surface"
  else if backend =? ADVC_BACKEND_BROKER_SURFACE then "broker-egl-surface"
  else if backend =? ADVC_BACKEND_BYTES then "byte-copy"
  else "unavailable".

Definition advc_selection_reason_name (reason : Z) : string :=
  if reason =? ADVC_SELECTION_REAL_PROBE_PASS then "real-probe-pass"
  else if reason =? ADVC_SELECTION_AUTO_ANDROID_LOCAL then "auto-android-local"
  else if reason =? ADVC_SELECTION_AUTO_BYTE_COPY then "auto-byte-copy"
  else if reason =? ADVC_SELECTION_STRICT_ZERO_COPY_UNAVAILABLE then "strict-zero-copy-unavailable"
  else "candidates-exhausted".

(** *** Specification: the ordered list of candidates, and the first usable one *)

Definition feature_of (backend : Z) : Z :=
  if backend =? ADVC_BACKEND_VULKAN_DMABUF then ADVC_FEATURE_DMABUF_VULKAN
  else if backend =? ADVC_BACKEND_EGL_DMABUF then ADVC_FEATURE_DMABUF_EGL
  else if backend =? ADVC_BACKEND_ANDROID_AHB then ADVC_FEATURE_ANDROID_AHB_SURFACE
  else if backend =? ADVC_BACKEND_BROKER_SURFACE then ADVC_FEATURE_BROKER_EGL_SURFACE
  else ADVC_FEATURE_MEMFD.

(** The preference narrows the dma-buf part; strict mode has nothing after it. *)
Definition candidates (r : advc_transport_policy_request) : list Z :=
  (if dmabuf_preference r =? ADVC_DMABUF_BACKEND_AUTO
   then [ADVC_BACKEND_VULKAN_DMABUF; ADVC_BACKEND_EGL_DMABUF]
   else if dmabuf_preference r =? ADVC_DMABUF_BACKEND_EGL
   then [ADVC_BACKEND_EGL_DMABUF] else [ADVC_BACKEND_VULKAN_DMABUF]) ++
  (if zero_copy_mode r =? ADVC_ZERO_COPY_STRICT then []
   else [ADVC_BACKEND_ANDROID_AHB; ADVC_BACKEND_BROKER_SURFACE; ADVC_BACKEND_BYTES]).

Definition usable (r : advc_transport_policy_request) (b : Z) : bool :=
  available r b (feature_of b).

Definition first_usable (r : advc_transport_policy_request) : Z :=
  default ADVC_BACKEND_UNAVAILABLE (List.find (usable r) (candidates r)).

Definition request_ok (r : advc_transport_policy_request) : Prop :=
  (zero_copy_mode r = ADVC_ZERO_COPY_STRICT \/ zero_copy_mode r = ADVC_ZERO_COPY_AUTO) /\
  0 <= dmabuf_preference r <= ADVC_DMABUF_BACKEND_EGL /\
  (rejected_backends r = 0 \/
   (frames_submitted_in_previous_session r = 0 /\ previous_session_closed r = true)).

Lemma select_reference r : request_ok r ->
  exists res, advc_transport_policy_select r = inr res /\ r_backend res = first_usable r /\
    (r_cpu_pixel_copy res = 1 <-> r_backend res = ADVC_BACKEND_BYTES).
Proof.
  intros (Hm & Hp & Hr). unfold advc_transport_policy_select.
  destruct ((_ && _) || _) eqn:E1.
  { exfalso. unfold ADVC_DMABUF_BACKEND_EGL in *. lia. }
  destruct (negb (rejected_backends r =? 0) && _) eqn:E2.
  { exfalso. destruct Hr as [Hr|[Hf Hc]]; [|rewrite Hc in E2]; lia. }
  clear E1 E2. unfold first_usable, candidates, usable, choose.
  assert (dmabuf_preference r = 0 \/ dmabuf_preference r = 1 \/ dmabuf_preference r = 2) as Hpref
    by (unfold ADVC_DMABUF_BACKEND_EGL in Hp; lia).
  destruct Hpref as [Hd|[Hd|Hd]], Hm as [Hm|Hm]; rewrite Hd, Hm; cbn -[available];
    repeat (destruct (available _ _ _); cbn -[available];
      [eexists; split; [reflexivity|]; split; [reflexivity|done]|]);
    eexists; (split; [reflexivity|]; split; [reflexivity|done]).
Qed.

(** Recording a backend as rejected, as the header asks of the caller before it
    selects again with the previous session closed and no frame submitted. *)
Definition reject (b : Z) (r : advc_transport_policy_request) : advc_transport_policy_request :=
  Request (zero_copy_mode r) (dmabuf_preference r) (available_features r)
    (Z.lor (rejected_backends r) (ADVC_BACKEND_MASK b)) 0 true.

Lemma reject_usable b c r : 0 <= b -> 0 <= c ->
  usable (reject b r) c = usable r c && negb (c =? b).
Proof.
  intros Hb Hc. unfold usable, available, reject, ADVC_BACKEND_MASK.
  cbn [available_features rejected_backends].
  rewrite !(land_pow2_testbit _ c), Z.lor_spec, Z.shiftl_spec by done.
  assert (Z.testbit 1 (c - b) = (c =? b)) as ->.
  { destruct (Z.eqb_spec c b) as [->|Hne]; [by rewrite Z.sub_diag|].
    destruct (Z.lt_ge_cases c b); [by rewrite Z.testbit_neg_r by lia|].
    apply Z.bits_above_log2; cbn; lia. }
  destruct (Z.testbit (rejected_backends r) c), (c =? b); cbn; rewrite ?andb_false_r, ?andb_true_r; done.
Qed.

Lemma find_and {X} (f g : X -> bool) (P : X -> Prop) l :
  Forall P l -> (forall x, P x -> f x = g x) -> List.find f l = List.find g l.
Proof.
  intros HP H. induction HP as [|x l Hx HP IH]; [done|]. cbn. rewrite H by done. by rewrite IH.
Qed.

Lemma candidates_positive r : Forall (fun b => 0 < b) (candidates r).
Proof.
  unfold candidates. apply Forall_app. split;
    repeat case_match; repeat constructor.
Qed.

(** On every well-formed request the selection is the first usable entry of
    the documented preference order (the forced or automatic dma-buf backends,
    then, outside strict mode, Android AHB, broker surface and byte copy), and a
    CPU pixel copy is reported exactly for the byte backend. *)
Theorem select_is_first_usable (r : advc_transport_policy_request) (Hok : request_ok r) :
  exists res, advc_transport_policy_select r = inr res /\ r_backend res = first_usable r /\
    (r_cpu_pixel_copy res = 1 <-> r_backend res = ADVC_BACKEND_BYTES).
Proof. by apply select_reference. Qed.

Definition sample_request : advc_transport_policy_request :=
  Request ADVC_ZERO_COPY_AUTO ADVC_DMABUF_BACKEND_AUTO
    (ADVC_FEATURE_DMABUF + ADVC_FEATURE_DMABUF_EGL + ADVC_FEATURE_MEMFD) 0 0 false.

Lemma select_is_first_usable_witness :
  exists res, advc_transport_policy_select sample_request = inr res /\
    r_backend res = ADVC_BACKEND_EGL_DMABUF.
Proof.
  destruct (select_is_first_usable sample_request) as (res & H1 & H2 & _).
  - split; [by right|]. split; [split; vm_compute; discriminate|]. by left.
  - exists res. split; [exact H1|]. rewrite H2. reflexivity.
Defined.

(** In strict zero-copy mode a successful selection never involves a CPU
    pixel copy: it is a dma-buf backend whose probe bits are present and that was
    not rejected, or no backend at all. *)
Theorem strict_never_copies (r : advc_transport_policy_request) (res : advc_transport_policy_result)
  (Hs : zero_copy_mode r = ADVC_ZERO_COPY_STRICT)
  (Hres : advc_transport_policy_select r = inr res) :
  r_cpu_pixel_copy res = 0 /\
  ((r_backend res = ADVC_BACKEND_UNAVAILABLE /\ r_transport res = 0) \/
   ((r_backend res = ADVC_BACKEND_VULKAN_DMABUF \/ r_backend res = ADVC_BACKEND_EGL_DMABUF) /\
    r_transport res = ADVC_TRANSPORT_DMABUF /\ usable r (r_backend res) = true)).
Proof.
  revert Hres. unfold advc_transport_policy_select. rewrite Hs. cbn [Z.eqb].
  repeat case_match; intros Hres; simplify_eq; cbn; (split; [done|]); auto 10.
  all: right; split; [auto|]; split; [done|]; unfold usable, feature_of; cbn -[available];
    first [done | by match goal with H : _ && _ = true |- _ => apply andb_true_iff in H as [_ H] end].
Qed.

Lemma strict_never_copies_witness :
  advc_transport_policy_select (Request ADVC_ZERO_COPY_STRICT 0 ADVC_FEATURE_MEMFD 0 0 false) =
    inr (Result 0 ADVC_SELECTION_STRICT_ZERO_COPY_UNAVAILABLE 0 0) /\
  r_cpu_pixel_copy (Result 0 ADVC_SELECTION_STRICT_ZERO_COPY_UNAVAILABLE 0 0) = 0.
Proof.
  split; [reflexivity|].
  apply (strict_never_copies (Request ADVC_ZERO_COPY_STRICT 0 ADVC_FEATURE_MEMFD 0 0 false)); reflexivity.
Defined.

(** Falling back makes progress and keeps the order: selecting again after
    rejecting the chosen backend gives the next usable candidate of the same
    list, so a backend is never chosen twice. *)
Theorem fallback_progress (r : advc_transport_policy_request) (b : Z) (res : advc_transport_policy_result)
  (Hok : request_ok r) (Hb : b = first_usable r) (Hav : b <> ADVC_BACKEND_UNAVAILABLE)
  (Hres : advc_transport_policy_select (reject b r) = inr res) :
  r_backend res <> b /\
  r_backend res = default ADVC_BACKEND_UNAVAILABLE
    (List.find (fun c => usable r c && negb (c =? b)) (candidates r)).
Proof.
  pose proof (candidates_positive r) as Hpos.
  assert (0 < b) as Hb0.
  { subst b. unfold first_usable in *. destruct (List.find _ _) eqn:E; [|done]. cbn.
    apply List.find_some in E as [Hin _]. rewrite Forall_forall in Hpos.
    by apply Hpos, list_elem_of_In. }
  destruct (select_reference (reject b r)) as (res' & H1 & H2 & _).
  { destruct Hok as (Hm & Hp & _). split; [done|]. split; [done|]. by right. }
  rewrite H1 in Hres. injection Hres as <-.
  assert (r_backend res' = default ADVC_BACKEND_UNAVAILABLE
    (List.find (fun c => usable r c && negb (c =? b)) (candidates r))) as Heq.
  { rewrite H2. unfold first_usable. f_equal. change (candidates (reject b r)) with (candidates r).
    eapply find_and; [exact Hpos|]. intros x Hx. cbn beta in Hx. apply reject_usable; lia. }
  split; [|done]. rewrite Heq. destruct (List.find _ _) eqn:E; cbn; [|unfold ADVC_BACKEND_UNAVAILABLE; lia].
  apply List.find_some in E as [_ E]. lia.
Qed.

Lemma fallback_progress_witness :
  exists res, advc_transport_policy_select (reject ADVC_BACKEND_EGL_DMABUF sample_request) = inr res /\
    r_backend res <> ADVC_BACKEND_EGL_DMABUF.
Proof.
  eexists. split; [vm_compute; reflexivity|].
  apply (fallback_progress sample_request ADVC_BACKEND_EGL_DMABUF).
  - split; [by right|]. split; [split; vm_compute; discriminate|]. by left.
  - reflexivity.
  - discriminate.
  - reflexivity.
Defined.

End Transport.

(** ** codec_discovery.c *)

Module CodecDiscovery.

Definition ADVC_ACCELERATION_UNKNOWN : Z := 0.
Definition ADVC_ACCELERATION_SOFTWARE : Z := 1.
Definition ADVC_ACCELERATION_HARDWARE : Z := 2.

(** C strings hold no NUL; [strncmp(value, prefix, strlen(prefix)) == 0]. *)
Definition starts_with (value prefix : string) : bool := String.prefix prefix value.

(** [value + value_length - suffix_length] compared with [strcmp]. *)
Definition ends_with (value suffix : string) : bool :=
  (String.length suffix <=? String.length value)%nat &&
  String.eqb (String.substring (String.length value - String.length suffix)
                (String.length suffix) value) suffix.

(** [strstr(value, needle) != NULL] *)
Fixpoint strstr (value needle : string) : bool :=
  String.prefix needle value ||
  match value with EmptyString => false | String _ rest => strstr rest needle end.

Definition software_prefixes : list string :=
  ["c2.android."; "c2.google."; "c2.ffmpeg."; "OMX.google."; "OMX.ffmpeg."]%string.

Definition hardware_prefixes : list string :=
  ["c2.qti."; "c2.qcom."; "c2.mtk."; "c2.exynos."; "c2.samsung."; "c2.unisoc.";
   "c2.rk."; "c2.amlogic."; "c2.nvidia."; "c2.intel."; "OMX.qcom."; "OMX.QCOM.";
   "OMX.MTK."; "OMX.Exynos."; "OMX.SEC."; "OMX.Intel."; "OMX.Nvidia."; "OMX.rk.";
   "OMX.amlogic."]%string.

Definition marked (name : string) : bool :=
  strstr name ".secure" || strstr name ".software." || strstr name ".sw." ||
  ends_with name ".software" || ends_with name ".sw".

(** [None] is a NULL name. *)
Definition advc_classify_codec_component (name : option string) : Z :=
  match name with
  | None => ADVC_ACCELERATION_UNKNOWN
  | Some name =>
      if String.eqb name "" then ADVC_ACCELERATION_UNKNOWN
      else if marked name then ADVC_ACCELERATION_UNKNOWN
      else if existsb (starts_with name) software_prefixes then ADVC_ACCELERATION_SOFTWARE
      else if existsb (starts_with name) hardware_prefixes then ADVC_ACCELERATION_HARDWARE
      else ADVC_ACCELERATION_UNKNOWN
  end.

Lemma prefix_comparable p q s :
  String.prefix p s = true -> String.prefix q s = true ->
  String.prefix p q = true \/ String.prefix q p = true.
Proof.
  revert q s. induction p as [|a p IH]; intros [|b q] [|c s]; cbn; auto; try done.
  destruct (Ascii.ascii_dec a c) as [->|]; [|done].
  destruct (Ascii.ascii_dec b c) as [->|]; [|done].
  destruct (Ascii.ascii_dec c c) as [_|]; [|done]. apply IH.
Qed.

(** No vendor prefix is compatible with a software prefix. *)
Lemma prefixes_disjoint name :
  existsb (starts_with name) hardware_prefixes = true ->
  existsb (starts_with name) software_prefixes = false.
Proof.
  intros (h & Hh & Ph)%existsb_exists. apply not_true_iff_false.
  intros (w & Hw & Pw)%existsb_exists.
  assert (forallb (fun h => forallb (fun w => negb (String.prefix h w || String.prefix w h))
    software_prefixes) hardware_prefixes = true) as Hall by reflexivity.
  rewrite forallb_forall in Hall. specialize (Hall h Hh). cbn beta in Hall.
  rewrite forallb_forall in Hall. specialize (Hall w Hw). cbn beta in Hall.
  destruct (prefix_comparable h w name Ph Pw) as [E|E]; rewrite E in Hall;
    rewrite ?orb_true_r in Hall; discriminate.
Qed.

(** Classification is fail-closed: a component counts as hardware exactly
    when its name carries no secure or software marker and starts with a vendor
    prefix; the software prefixes cannot shadow a vendor one, and NULL, empty,
    marked and unlisted names are all unknown. *)
Theorem classify_fail_closed (name : option string) :
  (advc_classify_codec_component name = ADVC_ACCELERATION_HARDWARE <->
   exists n, name = Some n /\ marked n = false /\
     existsb (starts_with n) hardware_prefixes = true) /\
  (advc_classify_codec_component name = ADVC_ACCELERATION_SOFTWARE <->
   exists n, name = Some n /\ marked n = false /\
     existsb (starts_with n) software_prefixes = true) /\
  (advc_classify_codec_component name = ADVC_ACCELERATION_UNKNOWN \/
   advc_classify_codec_component name = ADVC_ACCELERATION_SOFTWARE \/
   advc_classify_codec_component name = ADVC_ACCELERATION_HARDWARE).
Proof.
  unfold advc_classify_codec_component, ADVC_ACCELERATION_HARDWARE, ADVC_ACCELERATION_SOFTWARE,
    ADVC_ACCELERATION_UNKNOWN.
  destruct name as [n|]; [|repeat split; auto; try discriminate; by intros (? & ? & _)].
  assert (forall P : string -> Prop, (exists n', Some n = Some n' /\ P n') <-> P n) as Hex.
  { intros P. split; [by intros (? & [= <-] & ?)|eauto]. }
  rewrite !Hex. pose proof (prefixes_disjoint n) as Hd.
  destruct (String.eqb_spec n "") as [->|]; [vm_compute; intuition discriminate|].
  destruct (marked n); [intuition discriminate|].
  destruct (existsb (starts_with n) software_prefixes), (existsb (starts_with n) hardware_prefixes);
    intuition discriminate.
Qed.

End CodecDiscovery.
