(* ===== verification/Dmabuf.v ===== *)
(** * DRM PRIME ingress (src/src/video_bridge/src/dmabuf_ingress.c)

    The explicit dma-buf descriptor with its structural validation, the fixed
    256-byte registration record, the submission and completion records, and the
    bounded registry that owns duplicated descriptors. *)

From stdpp Require Import base list gmap.
From Stdlib Require Import ZArith Lia Bool.
From S2P Require Import Prelude Kernel Protocol.

(** ** Constants *)

Definition ADVC_MAX_REGISTERED_DMABUFS : Z := 16.
Definition ADVC_MAX_INFLIGHT_DMABUFS : Z := 4.
Definition ADVC_MAX_DMABUF_OBJECTS : Z := 4.
Definition ADVC_MAX_DMABUF_PLANES : Z := 4.
Definition ADVC_MAX_DMABUF_OBJECT_BYTES : Z := Z.shiftl 1 30.
Definition ADVC_MAX_DMABUF_PITCH : Z := Z.shiftl 1 20.
Definition ADVC_DMABUF_EXPLICIT_ALL : Z := Z.lor (Z.lor (Z.shiftl 1 0) (Z.shiftl 1 1)) (Z.shiftl 1 2).

Definition ADVC_REGISTER_DMABUF_SIZE : Z := 256.
Definition ADVC_REGISTER_DMABUF_OBJECTS_OFFSET : Z := 96.
Definition ADVC_REGISTER_DMABUF_OBJECT_STRIDE : Z := 16.
Definition ADVC_REGISTER_DMABUF_PLANES_OFFSET : Z := 160.
Definition ADVC_REGISTER_DMABUF_PLANE_STRIDE : Z := 24.
Definition ADVC_UNREGISTER_DMABUF_SIZE : Z := 8.
Definition ADVC_QUEUE_DMABUF_SIZE : Z := 32.
Definition ADVC_COMPLETE_DMABUF_SIZE : Z := 24.

Definition ADVC_COLOR_PRIMARIES_BT2020 : Z := 4.
Definition ADVC_COLOR_TRANSFER_HLG : Z := 5.
Definition ADVC_COLOR_MATRIX_RGB : Z := 1.
Definition ADVC_COLOR_MATRIX_BT2020 : Z := 4.
Definition ADVC_COLOR_RANGE_LIMITED : Z := 2.
Definition ADVC_CHROMA_SITING_UNSPECIFIED : Z := 0.
Definition ADVC_CHROMA_SITING_MIDPOINT : Z := 2.

(** ** Data *)

Record advc_dmabuf_object := Obj { o_fd : Z; o_size : Z }.
Record advc_dmabuf_plane := Plane { p_object_index : Z; p_offset : Z; p_pitch : Z }.

Record advc_dmabuf_descriptor := Desc {
  d_buffer_id : Z;
  d_width : Z;
  d_height : Z;
  d_drm_fourcc : Z;
  d_explicit_flags : Z;
  d_drm_modifier : Z;
  d_crop_left : Z;
  d_crop_top : Z;
  d_crop_width : Z;
  d_crop_height : Z;
  d_object_count : Z;
  d_plane_count : Z;
  d_color_primaries : Z;
  d_color_transfer : Z;
  d_color_matrix : Z;
  d_color_range : Z;
  d_chroma_horizontal : Z;
  d_chroma_vertical : Z;
  d_objects : list advc_dmabuf_object;   (* ADVC_MAX_DMABUF_OBJECTS of them *)
  d_planes : list advc_dmabuf_plane;     (* ADVC_MAX_DMABUF_PLANES of them *)
}.

Definition zero_object : advc_dmabuf_object := Obj 0 0.
Definition zero_plane : advc_dmabuf_plane := Plane 0 0 0.
(** The descriptor after a [memset] to zero. *)
Definition zero_descriptor : advc_dmabuf_descriptor :=
  Desc 0 0 0 0 0 0 0 0 0 0 0 0 0 0 0 0 0 0 (replicate 4 zero_object) (replicate 4 zero_plane).

Definition object_at (d : advc_dmabuf_descriptor) (i : Z) : advc_dmabuf_object :=
  default zero_object (d_objects d !! Z.to_nat i).
Definition plane_at (d : advc_dmabuf_descriptor) (i : Z) : advc_dmabuf_plane :=
  default zero_plane (d_planes d !! Z.to_nat i).

Definition with_objects (l : list advc_dmabuf_object) (d : advc_dmabuf_descriptor)
  : advc_dmabuf_descriptor :=
  Desc (d_buffer_id d) (d_width d) (d_height d) (d_drm_fourcc d) (d_explicit_flags d)
    (d_drm_modifier d) (d_crop_left d) (d_crop_top d) (d_crop_width d) (d_crop_height d)
    (d_object_count d) (d_plane_count d) (d_color_primaries d) (d_color_transfer d)
    (d_color_matrix d) (d_color_range d) (d_chroma_horizontal d) (d_chroma_vertical d)
    l (d_planes d).
Definition with_planes (l : list advc_dmabuf_plane) (d : advc_dmabuf_descriptor)
  : advc_dmabuf_descriptor :=
  Desc (d_buffer_id d) (d_width d) (d_height d) (d_drm_fourcc d) (d_explicit_flags d)
    (d_drm_modifier d) (d_crop_left d) (d_crop_top d) (d_crop_width d) (d_crop_height d)
    (d_object_count d) (d_plane_count d) (d_color_primaries d) (d_color_transfer d)
    (d_color_matrix d) (d_color_range d) (d_chroma_horizontal d) (d_chroma_vertical d)
    (d_objects d) l.

Record advc_dmabuf_submission := Submission {
  sub_buffer_id : Z; sub_pts_ns : Z; sub_acquire_fence_fd : Z }.

Record advc_dmabuf_job := Job {
  job_buffer_id : Z; job_pts_ns : Z; job_acquire_fence_fd : Z;
  job_descriptor : option advc_dmabuf_descriptor }.

Record advc_dmabuf_entry := Entry {
  e_descriptor : advc_dmabuf_descriptor; e_in_flight : bool; e_in_use : bool }.
Definition zero_entry : advc_dmabuf_entry := Entry zero_descriptor false false.

Record advc_dmabuf_registry := Registry {
  reg_entries : list advc_dmabuf_entry;  (* ADVC_MAX_REGISTERED_DMABUFS of them *)
  reg_registered_count : Z;
  reg_inflight_count : Z;
}.

(** ** Structural validation *)

(** [fd >= 0], [F_GETFD] succeeds and reports [FD_CLOEXEC]. *)
Definition valid_cloexec_fd (t : gmap Z fd_info) (fd : Z) : bool :=
  if fd <? 0 then false
  else match t !! fd with
       | Some f => negb (Z.land (if fd_cloexec f then FD_CLOEXEC else 0) FD_CLOEXEC =? 0)
       | None => false
       end.

Definition valid_color (d : advc_dmabuf_descriptor) : bool :=
  if (ADVC_COLOR_PRIMARIES_BT2020 <? d_color_primaries d) ||
     (ADVC_COLOR_TRANSFER_HLG <? d_color_transfer d) ||
     (ADVC_COLOR_MATRIX_BT2020 <? d_color_matrix d) ||
     (ADVC_COLOR_RANGE_LIMITED <? d_color_range d) ||
     (ADVC_CHROMA_SITING_MIDPOINT <? d_chroma_horizontal d) ||
     (ADVC_CHROMA_SITING_MIDPOINT <? d_chroma_vertical d) then false
  else if (d_color_matrix d =? ADVC_COLOR_MATRIX_RGB) &&
          (negb (d_chroma_horizontal d =? ADVC_CHROMA_SITING_UNSPECIFIED) ||
           negb (d_chroma_vertical d =? ADVC_CHROMA_SITING_UNSPECIFIED)) then false
  else true.

(** The first test of [advc_dmabuf_descriptor_validate]. *)
Definition bad_shape (d : advc_dmabuf_descriptor) : bool :=
  (d_buffer_id d =? 0) || (d_width d <? 16) || (8192 <? d_width d) ||
  (d_height d <? 16) || (8192 <? d_height d) || (d_drm_fourcc d =? 0) ||
  (d_drm_modifier d =? UINT64_MAX) ||
  negb (d_explicit_flags d =? ADVC_DMABUF_EXPLICIT_ALL) ||
  (d_object_count d =? 0) || (ADVC_MAX_DMABUF_OBJECTS <? d_object_count d) ||
  (d_plane_count d =? 0) || (ADVC_MAX_DMABUF_PLANES <? d_plane_count d) ||
  (d_crop_width d =? 0) || (d_crop_height d =? 0) || negb (valid_color d).

(** [crop_right > width || crop_bottom > height], summed in 64 bits. *)
Definition bad_crop (d : advc_dmabuf_descriptor) : bool :=
  (d_width d <? u64 (d_crop_left d + d_crop_width d)) ||
  (d_height d <? u64 (d_crop_top d + d_crop_height d)).

(** One declared object: a distinct close-on-exec descriptor of bounded size. *)
Definition good_object (t : gmap Z fd_info) (d : advc_dmabuf_descriptor) (i : Z) : bool :=
  valid_cloexec_fd t (o_fd (object_at d i)) && negb (o_size (object_at d i) =? 0) &&
  negb (ADVC_MAX_DMABUF_OBJECT_BYTES <? o_size (object_at d i)) &&
  forallb (fun j => negb (o_fd (object_at d j) =? o_fd (object_at d i))) (seqZ 0 i).

Definition unused_object (d : advc_dmabuf_descriptor) (i : Z) : bool :=
  (o_fd (object_at d i) =? -1) && (o_size (object_at d i) =? 0).

(** One declared plane: an object of the descriptor holds its first row. *)
Definition good_plane (d : advc_dmabuf_descriptor) (i : Z) : bool :=
  let pl := plane_at d i in
  if (d_object_count d <=? p_object_index pl) || (p_pitch pl =? 0) ||
     (ADVC_MAX_DMABUF_PITCH <? p_pitch pl) then false
  else
    let object_size := o_size (object_at d (p_object_index pl)) in
    negb ((object_size <=? p_offset pl) || (u64 (object_size - p_offset pl) <? p_pitch pl)).

Definition unused_plane (d : advc_dmabuf_descriptor) (i : Z) : bool :=
  (p_object_index (plane_at d i) =? 0) && (p_offset (plane_at d i) =? 0) &&
  (p_pitch (plane_at d i) =? 0).

(** [advc_dmabuf_descriptor_validate] accepts. *)
Definition descriptor_ok (t : gmap Z fd_info) (d : advc_dmabuf_descriptor) : bool :=
  negb (bad_shape d) && negb (bad_crop d) &&
  forallb (good_object t d) (seqZ 0 (d_object_count d)) &&
  forallb (unused_object d)
    (seqZ (d_object_count d) (ADVC_MAX_DMABUF_OBJECTS - d_object_count d)) &&
  forallb (good_plane d) (seqZ 0 (d_plane_count d)) &&
  forallb (unused_plane d) (seqZ (d_plane_count d) (ADVC_MAX_DMABUF_PLANES - d_plane_count d)).

(** ** The registration record *)

(** The stores for one object and one plane. *)
Definition write_object (d : advc_dmabuf_descriptor) (p : list Z) (i : Z) : list Z :=
  let record := ADVC_REGISTER_DMABUF_OBJECTS_OFFSET + i * ADVC_REGISTER_DMABUF_OBJECT_STRIDE in
  advc_put_u64 (advc_put_u32 p (record + 0) i) (record + 8) (o_size (object_at d i)).

Definition write_plane (d : advc_dmabuf_descriptor) (p : list Z) (i : Z) : list Z :=
  let record := ADVC_REGISTER_DMABUF_PLANES_OFFSET + i * ADVC_REGISTER_DMABUF_PLANE_STRIDE in
  let p := advc_put_u32 p (record + 0) (p_object_index (plane_at d i)) in
  let p := advc_put_u64 p (record + 8) (p_offset (plane_at d i)) in
  advc_put_u32 p (record + 16) (p_pitch (plane_at d i)).

(** The eighteen fixed fields. *)
Definition write_fixed (p : list Z) (d : advc_dmabuf_descriptor) : list Z :=
  let p := memzero p ADVC_REGISTER_DMABUF_SIZE in
  let p := advc_put_u64 p 0 (d_buffer_id d) in
  let p := advc_put_u32 p 8 (d_width d) in
  let p := advc_put_u32 p 12 (d_height d) in
  let p := advc_put_u32 p 16 (d_drm_fourcc d) in
  let p := advc_put_u32 p 20 (d_explicit_flags d) in
  let p := advc_put_u64 p 24 (d_drm_modifier d) in
  let p := advc_put_u32 p 32 (d_crop_left d) in
  let p := advc_put_u32 p 36 (d_crop_top d) in
  let p := advc_put_u32 p 40 (d_crop_width d) in
  let p := advc_put_u32 p 44 (d_crop_height d) in
  let p := advc_put_u32 p 48 (d_object_count d) in
  let p := advc_put_u32 p 52 (d_plane_count d) in
  let p := advc_put_u32 p 56 (d_color_primaries d) in
  let p := advc_put_u32 p 60 (d_color_transfer d) in
  let p := advc_put_u32 p 64 (d_color_matrix d) in
  let p := advc_put_u32 p 68 (d_color_range d) in
  let p := advc_put_u32 p 72 (d_chroma_horizontal d) in
  advc_put_u32 p 76 (d_chroma_vertical d).

Definition write_registration (p : list Z) (d : advc_dmabuf_descriptor) : list Z :=
  foldl (write_plane d)
    (foldl (write_object d) (write_fixed p d) (seqZ 0 (d_object_count d)))
    (seqZ 0 (d_plane_count d)).

(** The eighteen loads of [advc_dmabuf_registration_decode], on a descriptor
    whose objects are [{-1, 0}] and whose planes are zero. *)
Definition read_fixed (p : list Z) : advc_dmabuf_descriptor :=
  Desc (advc_get_u64 p 0) (advc_get_u32 p 8) (advc_get_u32 p 12) (advc_get_u32 p 16)
    (advc_get_u32 p 20) (advc_get_u64 p 24) (advc_get_u32 p 32) (advc_get_u32 p 36)
    (advc_get_u32 p 40) (advc_get_u32 p 44) (advc_get_u32 p 48) (advc_get_u32 p 52)
    (advc_get_u32 p 56) (advc_get_u32 p 60) (advc_get_u32 p 64) (advc_get_u32 p 68)
    (advc_get_u32 p 72) (advc_get_u32 p 76) (replicate 4 (Obj (-1) 0)) (replicate 4 zero_plane).

(** One round of the object loop: [inl] is the EINVAL return with the objects as
    they were left, [inr] the mask of descriptor indices seen and the objects so
    far. *)
Definition read_object (p : list Z) (fds : list Z) (fd_count object_count : Z)
  (acc : list advc_dmabuf_object + Z * list advc_dmabuf_object) (i : Z)
  : list advc_dmabuf_object + Z * list advc_dmabuf_object :=
  match acc with
  | inl objs => inl objs
  | inr (fd_indices, objs) =>
      let record := ADVC_REGISTER_DMABUF_OBJECTS_OFFSET + i * ADVC_REGISTER_DMABUF_OBJECT_STRIDE in
      if i <? object_count then
        let fd_index := advc_get_u32 p (record + 0) in
        if negb (bytes_are_zero p (record + 4) 4) || (fd_count <=? fd_index) ||
           negb (Z.land fd_indices (Z.shiftl 1 fd_index) =? 0) then inl objs
        else inr (Z.lor fd_indices (Z.shiftl 1 fd_index),
                   <[Z.to_nat i := Obj (default (-1) (fds !! Z.to_nat fd_index))
                                       (advc_get_u64 p (record + 8))]> objs)
      else if negb (bytes_are_zero p record ADVC_REGISTER_DMABUF_OBJECT_STRIDE) then inl objs
      else inr (fd_indices, objs)
  end.

(** One round of the plane loop. *)
Definition read_plane (p : list Z) (plane_count : Z)
  (acc : list advc_dmabuf_plane + list advc_dmabuf_plane) (i : Z)
  : list advc_dmabuf_plane + list advc_dmabuf_plane :=
  match acc with
  | inl planes => inl planes
  | inr planes =>
      let record := ADVC_REGISTER_DMABUF_PLANES_OFFSET + i * ADVC_REGISTER_DMABUF_PLANE_STRIDE in
      if i <? plane_count then
        if negb (bytes_are_zero p (record + 4) 4) || negb (bytes_are_zero p (record + 20) 4)
        then inl planes
        else inr (<[Z.to_nat i := Plane (advc_get_u32 p (record + 0))
                       (advc_get_u64 p (record + 8)) (advc_get_u32 p (record + 16))]> planes)
      else if negb (bytes_are_zero p record ADVC_REGISTER_DMABUF_PLANE_STRIDE) then inl planes
      else inr planes
  end.

(** Everything between the argument checks and the final validation: [inl] with
    the partly filled record on EINVAL, [inr] with the filled one. *)
Definition read_registration (p : list Z) (fds : list Z) (fd_count : Z)
  : advc_dmabuf_descriptor + advc_dmabuf_descriptor :=
  let d := read_fixed p in
  if negb (bytes_are_zero p 80 16) || negb (d_object_count d =? fd_count) ||
     (d_object_count d =? 0) || (ADVC_MAX_DMABUF_OBJECTS <? d_object_count d) ||
     (d_plane_count d =? 0) || (ADVC_MAX_DMABUF_PLANES <? d_plane_count d) then inl d
  else
    match foldl (read_object p fds fd_count (d_object_count d))
            (inr (0, d_objects d)) (seqZ 0 ADVC_MAX_DMABUF_OBJECTS) with
    | inl objs => inl (with_objects objs d)
    | inr (_, objs) =>
        match foldl (read_plane p (d_plane_count d)) (inr (d_planes d))
                (seqZ 0 ADVC_MAX_DMABUF_PLANES) with
        | inl planes => inl (with_planes planes (with_objects objs d))
        | inr planes => inr (with_planes planes (with_objects objs d))
        end
    end.

Section Effects.
Context {B : Type}.
Implicit Types m : machine B.

Definition advc_dmabuf_sync_file_validate (fd : Z) : St (machine B) Z :=
  t ← gets m_fds;
  if negb (valid_cloexec_fd t fd) then fail_with EBADF
  else
    r ← ioctl_sync_file_info fd;
    if r <? 0 then
      e ← errno; (if e =? 0 then errno_is EINVAL else mret tt) ;; mret (-1)
    else mret 0.

Definition advc_dmabuf_descriptor_validate (d : advc_dmabuf_descriptor) : St (machine B) Z :=
  t ← gets m_fds;
  if descriptor_ok t d then mret 0 else fail_with EINVAL.

(** Closes the distinct declared descriptors and resets the record. *)
Definition advc_dmabuf_descriptor_close (d : advc_dmabuf_descriptor)
  : St (machine B) advc_dmabuf_descriptor :=
  let object_count := Z.min (d_object_count d) ADVC_MAX_DMABUF_OBJECTS in
  foldr (fun i k =>
           (if existsb (fun j => o_fd (object_at d j) =? o_fd (object_at d i)) (seqZ 0 i)
            then mret tt else close_if_open (o_fd (object_at d i))) ;; k)
    (mret tt) (seqZ 0 object_count) ;;
  mret (with_objects (replicate 4 (Obj (-1) 0)) zero_descriptor).

(** Result, payload, descriptor array and count as they are left. *)
Definition advc_dmabuf_registration_encode (payload : list Z) (d : advc_dmabuf_descriptor)
  (fds : list Z) (n : Z) : St (machine B) (Z * (list Z * list Z * Z)) :=
  r ← advc_dmabuf_descriptor_validate d;
  if r <? 0 then mret (-1, (payload, fds, n))
  else
    mret (0, (write_registration payload d,
              foldl (fun l i => <[Z.to_nat i := o_fd (object_at d i)]> l) (replicate 4 (-1))
                (seqZ 0 (d_object_count d)),
              u16 (d_object_count d))).

Definition advc_dmabuf_registration_decode (payload : list Z) (payload_size : Z)
  (fds : list Z) (fd_count : Z) (d0 : advc_dmabuf_descriptor)
  : St (machine B) (Z * advc_dmabuf_descriptor) :=
  if negb (payload_size =? ADVC_REGISTER_DMABUF_SIZE) || (ADVC_MAX_DMABUF_OBJECTS <? fd_count)
  then errno_is EINVAL ;; mret (-1, d0)
  else match read_registration payload fds fd_count with
       | inl d => errno_is EINVAL ;; mret (-1, d)
       | inr d => r ← advc_dmabuf_descriptor_validate d; mret (r, d)
       end.

Definition advc_dmabuf_submission_decode (payload : list Z) (payload_size : Z)
  (fds : list Z) (fd_count : Z) (submission : advc_dmabuf_submission)
  : St (machine B) (Z * advc_dmabuf_submission) :=
  if negb (payload_size =? ADVC_QUEUE_DMABUF_SIZE) || (1 <? fd_count)
  then errno_is EINVAL ;; mret (-1, submission)
  else
    let role := advc_get_u32 payload 20 in
    let fd0 := default (-1) (fds !! 0%nat) in
    if (advc_get_u64 payload 0 =? 0) || (INT64_MAX <? advc_get_u64 payload 8) ||
       negb (advc_get_u32 payload 16 =? 0) || negb (bytes_are_zero payload 24 8) ||
       ((fd_count =? 0) && negb (role =? ADVC_FD_NONE)) ||
       ((fd_count =? 1) && negb (role =? ADVC_FD_ACQUIRE_FENCE))
    then errno_is EINVAL ;; mret (-1, submission)
    else
      r ← (if fd_count =? 1 then advc_dmabuf_sync_file_validate fd0 else mret 0);
      if r <? 0 then errno_is EINVAL ;; mret (-1, submission)
      else mret (0, Submission (advc_get_u64 payload 0) (advc_get_u64 payload 8)
                      (if fd_count =? 1 then fd0 else -1)).

Definition advc_dmabuf_unregister_decode (payload : list Z) (payload_size fd_count : Z)
  : St (machine B) (Z * Z) :=
  if negb (payload_size =? ADVC_UNREGISTER_DMABUF_SIZE) || negb (fd_count =? 0)
  then errno_is EINVAL ;; mret (-1, 0)
  else if advc_get_u64 payload 0 =? 0 then errno_is EINVAL ;; mret (-1, 0)
  else mret (0, advc_get_u64 payload 0).

Definition advc_dmabuf_completion_validate (payload : list Z) (payload_size : Z)
  (fds : list Z) (fd_count : Z) : St (machine B) Z :=
  if negb (payload_size =? ADVC_COMPLETE_DMABUF_SIZE) || (1 <? fd_count)
  then fail_with EINVAL
  else
    let role := advc_get_u32 payload 16 in
    let status := advc_get_u32 payload 8 in
    if (advc_get_u64 payload 0 =? 0) || (ADVC_STATUS_INTERNAL <? status) ||
       negb (bytes_are_zero payload 20 4) ||
       ((fd_count =? 0) && negb (role =? ADVC_FD_NONE)) ||
       ((fd_count =? 1) && (negb (role =? ADVC_FD_RELEASE_FENCE) ||
                            negb (status =? ADVC_STATUS_OK)))
    then fail_with EINVAL
    else
      r ← (if fd_count =? 1 then advc_dmabuf_sync_file_validate (default (-1) (fds !! 0%nat))
           else mret 0);
      if r <? 0 then fail_with EINVAL else mret 0.

(** ** The registry *)

Definition find_entry (r : advc_dmabuf_registry) (id : Z) : option nat :=
  find_idx (fun e => e_in_use e && (d_buffer_id (e_descriptor e) =? id)) (reg_entries r).
Definition entry_at (r : advc_dmabuf_registry) (i : nat) : advc_dmabuf_entry :=
  default zero_entry (reg_entries r !! i).
Definition set_entry (i : nat) (e : advc_dmabuf_entry) (r : advc_dmabuf_registry)
  : advc_dmabuf_registry :=
  Registry (<[i := e]> (reg_entries r)) (reg_registered_count r) (reg_inflight_count r).
Definition add_registered (n : Z) (r : advc_dmabuf_registry) : advc_dmabuf_registry :=
  Registry (reg_entries r) (u64 (reg_registered_count r + n)) (reg_inflight_count r).
Definition add_inflight (n : Z) (r : advc_dmabuf_registry) : advc_dmabuf_registry :=
  Registry (reg_entries r) (reg_registered_count r) (u64 (reg_inflight_count r + n)).

(** The declared descriptors, in order. *)
Definition declared_fds (d : advc_dmabuf_descriptor) : list Z :=
  o_fd <$> take (Z.to_nat (d_object_count d)) (d_objects d).

(** The static [close_descriptor]; its resets are overwritten by the [memset] or
    [free] that follows every call. *)
Definition close_descriptor (d : advc_dmabuf_descriptor) : St (machine B) unit :=
  close_each (declared_fds d).

(** [calloc]; [allowed] is a parameter of the operations that call it. *)
Definition advc_dmabuf_registry_create : St (machine B) (option advc_dmabuf_registry) :=
  ok ← sys_alloc;
  if (ok : bool) then mret (Some (Registry (replicate 16 zero_entry) 0 0)) else mret None.

Definition advc_dmabuf_registry_destroy (r : option advc_dmabuf_registry) : St (machine B) unit :=
  match r with
  | None => mret tt
  | Some r =>
      foldr (fun e k => (if e_in_use e then close_descriptor (e_descriptor e) else mret tt) ;; k)
        (mret tt) (reg_entries r)
  end.

(** The duplication loop over the declared objects: the duplicates made, and
    whether all of them succeeded.  A failing round first closes the duplicates
    of the earlier rounds. *)
Fixpoint dup_fds (todo done_ : list Z) : St (machine B) (option (list Z)) :=
  match todo with
  | [] => mret (Some done_)
  | fd :: todo =>
      n ← fcntl_dupfd_cloexec fd;
      if n <? 0 then
        close_each done_ ;; mret None
      else dup_fds todo (done_ ++ [n])
  end.

(** The stored copy of a descriptor: its duplicates, then [fd = -1]. *)
Definition owned_objects (d : advc_dmabuf_descriptor) (dups : list Z)
  : list advc_dmabuf_object :=
  imap (fun i o => Obj (default (-1) (dups !! i)) (o_size o)) (d_objects d).

Definition advc_dmabuf_registry_register
  (allowed : advc_dmabuf_descriptor -> St (machine B) Z)
  (r : advc_dmabuf_registry) (d : advc_dmabuf_descriptor)
  : St (machine B) (Z * advc_dmabuf_registry) :=
  v ← advc_dmabuf_descriptor_validate d;
  if v <? 0 then mret (-1, r)
  else if bool_decide (is_Some (find_entry r (d_buffer_id d))) then
    errno_is EEXIST ;; mret (-1, r)
  else if ADVC_MAX_REGISTERED_DMABUFS <=? reg_registered_count r then
    errno_is ENOSPC ;; mret (-1, r)
  else
    a ← allowed d;
    if a <=? 0 then
      (if a =? 0 then errno_is ENOTSUP
       else e ← errno; if e =? 0 then errno_is EIO else mret tt) ;;
      mret (-1, r)
    else match find_idx (fun e => negb (e_in_use e)) (reg_entries r) with
         | None => errno_is ENOSPC ;; mret (-1, r)
         | Some i =>
             dups ← dup_fds (declared_fds d) [];
             match dups with
             | None => mret (-1, set_entry i zero_entry r)
             | Some dups =>
                 mret (0, add_registered 1
                   (set_entry i (Entry (with_objects (owned_objects d dups) d) false true) r))
             end
         end.

Definition advc_dmabuf_registry_unregister (r : advc_dmabuf_registry) (buffer_id : Z)
  : St (machine B) (Z * advc_dmabuf_registry) :=
  if buffer_id =? 0 then errno_is EINVAL ;; mret (-1, r)
  else match find_entry r buffer_id with
       | None => errno_is ENOENT ;; mret (-1, r)
       | Some i =>
           if e_in_flight (entry_at r i) then errno_is EBUSY ;; mret (-1, r)
           else close_descriptor (e_descriptor (entry_at r i)) ;;
                mret (0, add_registered (-1) (set_entry i zero_entry r))
       end.

Definition zero_job : advc_dmabuf_job := Job 0 0 (-1) None.

Definition advc_dmabuf_registry_begin (r : advc_dmabuf_registry)
  (s : advc_dmabuf_submission) (job : advc_dmabuf_job)
  : St (machine B) (Z * (advc_dmabuf_registry * advc_dmabuf_job)) :=
  if (sub_buffer_id s =? 0) || (INT64_MAX <? sub_pts_ns s) || (sub_acquire_fence_fd s <? -1)
  then errno_is EINVAL ;; mret (-1, (r, job))
  else
    v ← (if 0 <=? sub_acquire_fence_fd s
         then advc_dmabuf_sync_file_validate (sub_acquire_fence_fd s) else mret 0);
    if v <? 0 then errno_is EINVAL ;; mret (-1, (r, job))
    else match find_entry r (sub_buffer_id s) with
         | None => errno_is ENOENT ;; mret (-1, (r, zero_job))
         | Some i =>
             let e := entry_at r i in
             if e_in_flight e then errno_is EBUSY ;; mret (-1, (r, zero_job))
             else if ADVC_MAX_INFLIGHT_DMABUFS <=? reg_inflight_count r then
               errno_is EAGAIN ;; mret (-1, (r, zero_job))
             else
               fence ← (if 0 <=? sub_acquire_fence_fd s
                        then fcntl_dupfd_cloexec (sub_acquire_fence_fd s) else mret (-1));
               if (0 <=? sub_acquire_fence_fd s) && (fence <? 0) then mret (-1, (r, zero_job))
               else
                 mret (0, (add_inflight 1 (set_entry i (Entry (e_descriptor e) true (e_in_use e)) r),
                           Job (sub_buffer_id s) (sub_pts_ns s) fence (Some (e_descriptor e))))
         end.

Definition advc_dmabuf_registry_finish (r : advc_dmabuf_registry) (buffer_id : Z)
  : St (machine B) (Z * advc_dmabuf_registry) :=
  if buffer_id =? 0 then errno_is EINVAL ;; mret (-1, r)
  else match find_entry r buffer_id with
       | None => errno_is ENOENT ;; mret (-1, r)
       | Some i =>
           let e := entry_at r i in
           if negb (e_in_flight e) then errno_is EALREADY ;; mret (-1, r)
           else mret (0, add_inflight (-1)
                  (set_entry i (Entry (e_descriptor e) false (e_in_use e)) r))
       end.

Definition advc_dmabuf_job_close (job : advc_dmabuf_job) : St (machine B) advc_dmabuf_job :=
  close_if_open (job_acquire_fence_fd job) ;; mret zero_job.

Definition advc_dmabuf_registry_registered_count (r : option advc_dmabuf_registry) : Z :=
  match r with None => 0 | Some r => reg_registered_count r end.
Definition advc_dmabuf_registry_inflight_count (r : option advc_dmabuf_registry) : Z :=
  match r with None => 0 | Some r => reg_inflight_count r end.

End Effects.

(** ** The registration record round trip *)

(** An array of fixed-stride records written one after the other: a byte outside
    all of them is untouched, and record [i] is what its own write made of the
    bytes that were there. *)
Section RecordArray.
Context (W : list Z -> Z -> list Z) (lo stride : Z).
Context (Hlo : 0 <= lo) (Hstride : 0 <= stride).
Context (Wlen : forall p i, zlen (W p i) = zlen p).
Context (Wout : forall p i j, 0 <= i -> 0 <= j ->
  j < lo + i * stride \/ lo + i * stride + stride <= j -> byte_at (W p i) j = byte_at p j).

Lemma records_len n p : zlen (foldl W p (seqZ 0 (Z.of_nat n))) = zlen p.
Proof.
  revert p. induction n as [|n IH]; intros p; [done|].
  rewrite seqZ_S, foldl_app. cbn. by rewrite Wlen, IH.
Qed.

Lemma records_out n p j : 0 <= j -> j < lo \/ lo + Z.of_nat n * stride <= j ->
  byte_at (foldl W p (seqZ 0 (Z.of_nat n))) j = byte_at p j.
Proof.
  intros Hj Hout. revert Hout. induction n as [|n IH]; intros Hout; [done|].
  rewrite seqZ_S, foldl_app. cbn. rewrite Wout, IH; [done|..]; nia.
Qed.

Lemma records_in n p i : 0 <= i < Z.of_nat n ->
  exists q, zlen q = zlen p /\
    (forall j, lo + i * stride <= j < lo + i * stride + stride -> byte_at q j = byte_at p j) /\
    (forall j, lo + i * stride <= j < lo + i * stride + stride ->
       byte_at (foldl W p (seqZ 0 (Z.of_nat n))) j = byte_at (W q i) j).
Proof.
  induction n as [|n IH]; intros Hi; [lia|].
  rewrite seqZ_S, foldl_app. cbn [foldl]. rewrite Z.add_0_l.
  destruct (Z.eq_dec i (Z.of_nat n)) as [->|Hne].
  - eexists. split; [apply records_len|]. split; [|done].
    intros j Hj. apply records_out; nia.
  - destruct IH as (q & Hl & Hq & Hr); [lia|]. exists q. split; [done|]. split; [done|].
    intros j Hj. rewrite Wout by nia. by apply Hr.
Qed.

End RecordArray.

(** The widths of the C struct, and its array lengths. *)
Definition descriptor_typed (d : advc_dmabuf_descriptor) : Prop :=
  is_u64 (d_buffer_id d) /\ is_u32 (d_width d) /\ is_u32 (d_height d) /\
  is_u32 (d_drm_fourcc d) /\ is_u32 (d_explicit_flags d) /\ is_u64 (d_drm_modifier d) /\
  is_u32 (d_crop_left d) /\ is_u32 (d_crop_top d) /\ is_u32 (d_crop_width d) /\
  is_u32 (d_crop_height d) /\ is_u32 (d_object_count d) /\ is_u32 (d_plane_count d) /\
  is_u32 (d_color_primaries d) /\ is_u32 (d_color_transfer d) /\ is_u32 (d_color_matrix d) /\
  is_u32 (d_color_range d) /\ is_u32 (d_chroma_horizontal d) /\ is_u32 (d_chroma_vertical d) /\
  length (d_objects d) = 4%nat /\ length (d_planes d) = 4%nat /\
  Forall (fun o => is_u64 (o_size o)) (d_objects d) /\
  Forall (fun pl => is_u32 (p_object_index pl) /\ is_u64 (p_offset pl) /\ is_u32 (p_pitch pl))
    (d_planes d).

Ltac consts := unfold ADVC_REGISTER_DMABUF_SIZE, ADVC_REGISTER_DMABUF_OBJECTS_OFFSET,
  ADVC_REGISTER_DMABUF_OBJECT_STRIDE, ADVC_REGISTER_DMABUF_PLANES_OFFSET,
  ADVC_REGISTER_DMABUF_PLANE_STRIDE, ADVC_MAX_DMABUF_OBJECTS, ADVC_MAX_DMABUF_PLANES,
  ADVC_MAX_REGISTERED_DMABUFS, ADVC_MAX_INFLIGHT_DMABUFS in *.

Section Roundtrip.
Context (d : advc_dmabuf_descriptor) (p0 : list Z).
Context (Hd : descriptor_typed d) (Hp0 : ADVC_REGISTER_DMABUF_SIZE <= zlen p0).
Context (Hoc : 0 < d_object_count d <= 4) (Hpc : 0 < d_plane_count d <= 4).

Let p1 := write_fixed p0 d.
Let p2 := foldl (write_object d) p1 (seqZ 0 (d_object_count d)).
Let p3 := foldl (write_plane d) p2 (seqZ 0 (d_plane_count d)).

Lemma write_object_len p i : zlen (write_object d p i) = zlen p.
Proof. unfold write_object. by autorewrite with zlen. Qed.
Lemma write_plane_len p i : zlen (write_plane d p i) = zlen p.
Proof. unfold write_plane. by autorewrite with zlen. Qed.

Lemma write_object_out p i j : 0 <= i -> 0 <= j ->
  j < 96 + i * 16 \/ 96 + i * 16 + 16 <= j -> byte_at (write_object d p i) j = byte_at p j.
Proof.
  intros. unfold write_object. consts. by rewrite byte_put_u64_out, byte_put_u32_out by lia.
Qed.
Lemma write_plane_out p i j : 0 <= i -> 0 <= j ->
  j < 160 + i * 24 \/ 160 + i * 24 + 24 <= j -> byte_at (write_plane d p i) j = byte_at p j.
Proof.
  intros. unfold write_plane. consts.
  by rewrite byte_put_u32_out, byte_put_u64_out, byte_put_u32_out by lia.
Qed.

Lemma p1_len : zlen p1 = zlen p0.
Proof. unfold p1, write_fixed. by autorewrite with zlen. Qed.

Lemma p1_zero j : 80 <= j < 256 -> byte_at p1 j = 0.
Proof.
  intros Hj. unfold p1, write_fixed.
  repeat first [rewrite byte_put_u32_out by lia | rewrite byte_put_u64_out by lia].
  rewrite byte_at_memzero by lia. consts. destruct (Z.ltb_spec j 256); [done|lia].
Qed.

(** Bytes below the object table are those of the fixed part. *)
Lemma p3_fixed j : 0 <= j < 96 -> byte_at p3 j = byte_at p1 j.
Proof.
  intros Hj. unfold p3, p2.
  rewrite <- (Z2Nat.id (d_plane_count d)), <- (Z2Nat.id (d_object_count d)) by lia.
  rewrite (records_out (write_plane d) 160 24) by (apply write_plane_out || lia).
  by rewrite (records_out (write_object d) 96 16) by (apply write_object_out || lia).
Qed.

Lemma p3_object_bytes i : 0 <= i < d_object_count d ->
  exists q, zlen q = zlen p0 /\
    (forall j, 96 + i * 16 <= j < 96 + i * 16 + 16 -> byte_at q j = 0) /\
    (forall j, 96 + i * 16 <= j < 96 + i * 16 + 16 ->
       byte_at p3 j = byte_at (write_object d q i) j).
Proof.
  intros Hi. unfold p3, p2.
  rewrite <- (Z2Nat.id (d_plane_count d)), <- (Z2Nat.id (d_object_count d)) by lia.
  destruct (records_in (write_object d) 96 16 ltac:(lia) ltac:(lia) write_object_len
    write_object_out (Z.to_nat (d_object_count d)) p1 i) as (q & Hl & Hq & Hr); [lia|].
  exists q. split; [by rewrite Hl, p1_len|]. split.
  - intros j Hj. rewrite Hq by lia. apply p1_zero. lia.
  - intros j Hj. rewrite <- Hr by lia.
    apply (records_out (write_plane d) 160 24); (apply write_plane_out || lia).
Qed.

Lemma p3_plane_bytes i : 0 <= i < d_plane_count d ->
  exists q, zlen q = zlen p0 /\
    (forall j, 160 + i * 24 <= j < 160 + i * 24 + 24 -> byte_at q j = 0) /\
    (forall j, 160 + i * 24 <= j < 160 + i * 24 + 24 ->
       byte_at p3 j = byte_at (write_plane d q i) j).
Proof.
  intros Hi. unfold p3, p2.
  rewrite <- (Z2Nat.id (d_plane_count d)), <- (Z2Nat.id (d_object_count d)) by lia.
  destruct (records_in (write_plane d) 160 24 ltac:(lia) ltac:(lia) write_plane_len
    write_plane_out (Z.to_nat (d_plane_count d))
    (foldl (write_object d) p1 (seqZ 0 (Z.of_nat (Z.to_nat (d_object_count d))))) i)
    as (q & Hl & Hq & Hr); [lia|].
  exists q. split; [rewrite Hl, (records_len _ write_object_len); apply p1_len|]. split.
  - intros j Hj. rewrite Hq by lia.
    rewrite (records_out (write_object d) 96 16) by (apply write_object_out || lia).
    apply p1_zero. lia.
  - intros j Hj. by apply Hr.
Qed.

(** The rest of the two tables is zero. *)
Lemma p3_object_rest j : 96 + d_object_count d * 16 <= j < 160 -> byte_at p3 j = 0.
Proof.
  intros Hj. unfold p3, p2.
  rewrite <- (Z2Nat.id (d_plane_count d)), <- (Z2Nat.id (d_object_count d)) by lia.
  rewrite (records_out (write_plane d) 160 24) by (apply write_plane_out || lia).
  rewrite (records_out (write_object d) 96 16) by (apply write_object_out || lia).
  apply p1_zero. lia.
Qed.
Lemma p3_plane_rest j : 160 + d_plane_count d * 24 <= j < 256 -> byte_at p3 j = 0.
Proof.
  intros Hj. unfold p3, p2.
  rewrite <- (Z2Nat.id (d_plane_count d)), <- (Z2Nat.id (d_object_count d)) by lia.
  rewrite (records_out (write_plane d) 160 24) by (apply write_plane_out || lia).
  rewrite (records_out (write_object d) 96 16) by (apply write_object_out || lia).
  apply p1_zero. lia.
Qed.

(** *** What the decoder reads back *)

Lemma read_fixed_p3 :
  read_fixed p3 = with_planes (replicate 4 zero_plane) (with_objects (replicate 4 (Obj (-1) 0)) d).
Proof.
  assert (read_fixed p3 = read_fixed p1) as ->.
  { unfold read_fixed. f_equal; first [apply get_u32_ext | apply get_u64_ext]; intros; apply p3_fixed; lia. }
  assert (256 <= zlen p0) as Hl by (consts; lia).
  unfold read_fixed, p1, write_fixed, with_planes, with_objects. cbn.
  destruct Hd as (?&?&?&?&?&?&?&?&?&?&?&?&?&?&?&?&?&?&_).
  f_equal; fields; first [apply u32_id | apply u64_id]; assumption.
Qed.

Lemma object_size_typed i : is_u64 (o_size (object_at d i)).
Proof.
  destruct Hd as (_&_&_&_&_&_&_&_&_&_&_&_&_&_&_&_&_&_&_&_&Ho&_).
  unfold object_at. destruct (d_objects d !! Z.to_nat i) eqn:E; cbn; [|wsolve].
  rewrite Forall_lookup in Ho. by apply (Ho (Z.to_nat i)).
Qed.
Lemma plane_typed i : is_u32 (p_object_index (plane_at d i)) /\
  is_u64 (p_offset (plane_at d i)) /\ is_u32 (p_pitch (plane_at d i)).
Proof.
  destruct Hd as (_&_&_&_&_&_&_&_&_&_&_&_&_&_&_&_&_&_&_&_&_&Ho).
  unfold plane_at. destruct (d_planes d !! Z.to_nat i) eqn:E; cbn; [|wsolve].
  rewrite Forall_lookup in Ho. by apply (Ho (Z.to_nat i)).
Qed.

Lemma read_object_fields i : 0 <= i < d_object_count d ->
  advc_get_u32 p3 (96 + i * 16 + 0) = i /\
  bytes_are_zero p3 (96 + i * 16 + 4) 4 = true /\
  advc_get_u64 p3 (96 + i * 16 + 8) = o_size (object_at d i).
Proof.
  intros Hi. destruct (p3_object_bytes i Hi) as (q & Hl & Hz & Hr).
  assert (256 <= zlen q) by (consts; lia).
  rewrite (get_u32_ext p3 (write_object d q i)), (get_u64_ext p3 (write_object d q i))
    by (intros; apply Hr; lia).
  unfold write_object. consts. fields.
  split; [apply u32_id; wsolve|]. split; [|apply u64_id, object_size_typed].
  apply bytes_are_zero_spec. intros j Hj. rewrite Hr by lia. unfold write_object. consts.
  rewrite byte_put_u64_out, byte_put_u32_out by lia. apply Hz. lia.
Qed.

Lemma read_plane_fields i : 0 <= i < d_plane_count d ->
  advc_get_u32 p3 (160 + i * 24 + 0) = p_object_index (plane_at d i) /\
  advc_get_u64 p3 (160 + i * 24 + 8) = p_offset (plane_at d i) /\
  advc_get_u32 p3 (160 + i * 24 + 16) = p_pitch (plane_at d i) /\
  bytes_are_zero p3 (160 + i * 24 + 4) 4 = true /\
  bytes_are_zero p3 (160 + i * 24 + 20) 4 = true.
Proof.
  intros Hi. destruct (p3_plane_bytes i Hi) as (q & Hl & Hz & Hr).
  assert (256 <= zlen q) by (consts; lia). destruct (plane_typed i) as (T1 & T2 & T3).
  rewrite (get_u32_ext p3 (write_plane d q i)), (get_u64_ext p3 (write_plane d q i)),
    (get_u32_ext p3 (write_plane d q i) (160 + i * 24 + 16)) by (intros; apply Hr; lia).
  assert (forall o, o = 4 \/ o = 20 -> bytes_are_zero p3 (160 + i * 24 + o) 4 = true) as Hb.
  { intros o Ho. apply bytes_are_zero_spec. intros j Hj. rewrite Hr by lia.
    unfold write_plane. consts.
    rewrite byte_put_u32_out, byte_put_u64_out, byte_put_u32_out by lia. apply Hz. lia. }
  unfold write_plane at 1 2 3. consts. fields.
  repeat split; [by apply u32_id|by apply u64_id|by apply u32_id|auto|auto].
Qed.

Lemma object_rest_zero i : d_object_count d <= i < 4 -> bytes_are_zero p3 (96 + i * 16) 16 = true.
Proof. intros Hi. apply bytes_are_zero_spec. intros j Hj. apply p3_object_rest. lia. Qed.
Lemma plane_rest_zero i : d_plane_count d <= i < 4 -> bytes_are_zero p3 (160 + i * 24) 24 = true.
Proof. intros Hi. apply bytes_are_zero_spec. intros j Hj. apply p3_plane_rest. lia. Qed.

(** The descriptor array the encoder fills. *)
Definition encoded_fds : list Z :=
  foldl (fun l i => <[Z.to_nat i := o_fd (object_at d i)]> l) (replicate 4 (-1))
    (seqZ 0 (d_object_count d)).

Lemma encoded_fds_at i : 0 <= i < d_object_count d ->
  encoded_fds !! Z.to_nat i = Some (o_fd (object_at d i)).
Proof.
  intros Hi. unfold encoded_fds.
  assert (d_object_count d = 1 \/ d_object_count d = 2 \/ d_object_count d = 3 \/
          d_object_count d = 4) as Hc by lia.
  assert (i = 0 \/ i = 1 \/ i = 2 \/ i = 3) as Hi' by lia.
  destruct Hc as [Hc|[Hc|[Hc|Hc]]]; rewrite Hc in Hi |- *;
    destruct Hi' as [->|[->|[->| ->]]]; first [lia|reflexivity].
Qed.

(** A round of the object loop at a declared index, given the bits seen so far. *)
Lemma read_object_step fd_indices objs i : 0 <= i < d_object_count d ->
  Z.land fd_indices (Z.shiftl 1 i) = 0 ->
  read_object p3 encoded_fds (d_object_count d) (d_object_count d) (inr (fd_indices, objs)) i =
  inr (Z.lor fd_indices (Z.shiftl 1 i), <[Z.to_nat i := object_at d i]> objs).
Proof.
  intros Hi Hbit. unfold read_object. consts.
  destruct (read_object_fields i Hi) as (H1 & H2 & H3).
  destruct (Z.ltb_spec i (d_object_count d)); [|lia].
  rewrite H1, H2, H3, Hbit, encoded_fds_at by done.
  destruct (Z.leb_spec (d_object_count d) i); [lia|]. cbn. by destruct (object_at d i).
Qed.
Lemma read_object_skip acc i : d_object_count d <= i < 4 ->
  read_object p3 encoded_fds (d_object_count d) (d_object_count d) (inr acc) i = inr acc.
Proof.
  intros Hi. unfold read_object. destruct acc. consts.
  destruct (Z.ltb_spec i (d_object_count d)); [lia|]. by rewrite object_rest_zero.
Qed.
Lemma read_plane_step planes i : 0 <= i < d_plane_count d ->
  read_plane p3 (d_plane_count d) (inr planes) i = inr (<[Z.to_nat i := plane_at d i]> planes).
Proof.
  intros Hi. unfold read_plane. consts.
  destruct (read_plane_fields i Hi) as (H1 & H2 & H3 & H4 & H5).
  destruct (Z.ltb_spec i (d_plane_count d)); [|lia].
  rewrite H1, H2, H3, H4, H5. cbn. by destruct (plane_at d i).
Qed.
Lemma read_plane_skip acc i : d_plane_count d <= i < 4 ->
  read_plane p3 (d_plane_count d) (inr acc) i = inr acc.
Proof.
  intros Hi. unfold read_plane. consts.
  destruct (Z.ltb_spec i (d_plane_count d)); [lia|]. by rewrite plane_rest_zero.
Qed.

Context (Huo : forall i, d_object_count d <= i < 4 -> object_at d i = Obj (-1) 0).
Context (Hup : forall i, d_plane_count d <= i < 4 -> plane_at d i = zero_plane).

Lemma objects_read : exists mask,
  foldl (read_object p3 encoded_fds (d_object_count d) (d_object_count d))
    (inr (0, replicate 4 (Obj (-1) 0))) (seqZ 0 ADVC_MAX_DMABUF_OBJECTS) =
  inr (mask, d_objects d).
Proof.
  assert (d_objects d = [object_at d 0; object_at d 1; object_at d 2; object_at d 3]) as ->.
  { destruct Hd as (_&_&_&_&_&_&_&_&_&_&_&_&_&_&_&_&_&_&Hl&_).
    unfold object_at. by destruct (d_objects d) as [|? [|? [|? [|? [|]]]]]. }
  change (seqZ 0 ADVC_MAX_DMABUF_OBJECTS) with [0; 1; 2; 3]. cbn [foldl].
  destruct (decide (d_object_count d <= 1)), (decide (d_object_count d <= 2)),
    (decide (d_object_count d <= 3)); try lia;
    repeat first [rewrite read_object_step by (try reflexivity; lia)
                 | rewrite read_object_skip by lia];
    eexists; cbn; rewrite ?(Huo 1), ?(Huo 2), ?(Huo 3) by lia; reflexivity.
Qed.

Lemma planes_read :
  foldl (read_plane p3 (d_plane_count d)) (inr (replicate 4 zero_plane))
    (seqZ 0 ADVC_MAX_DMABUF_PLANES) = inr (d_planes d).
Proof.
  assert (d_planes d = [plane_at d 0; plane_at d 1; plane_at d 2; plane_at d 3]) as ->.
  { destruct Hd as (_&_&_&_&_&_&_&_&_&_&_&_&_&_&_&_&_&_&_&Hl&_).
    unfold plane_at. by destruct (d_planes d) as [|? [|? [|? [|? [|]]]]]. }
  change (seqZ 0 ADVC_MAX_DMABUF_PLANES) with [0; 1; 2; 3]. cbn [foldl].
  destruct (decide (d_plane_count d <= 1)), (decide (d_plane_count d <= 2)),
    (decide (d_plane_count d <= 3)); try lia;
    repeat first [rewrite read_plane_step by lia | rewrite read_plane_skip by lia];
    cbn; rewrite ?(Hup 1), ?(Hup 2), ?(Hup 3) by lia; reflexivity.
Qed.

Lemma read_write_registration :
  read_registration (write_registration p0 d) encoded_fds (d_object_count d) = inr d.
Proof.
  change (write_registration p0 d) with p3. unfold read_registration. rewrite read_fixed_p3.
  cbn [d_object_count d_plane_count d_objects d_planes with_planes with_objects].
  assert (bytes_are_zero p3 80 16 = true) as ->.
  { apply bytes_are_zero_spec. intros j Hj. rewrite p3_fixed by lia. apply p1_zero. lia. }
  rewrite Z.eqb_refl. consts.
  destruct (negb true || negb true || _ || _ || _ || _) eqn:E; [cbn in E; lia|].
  destruct objects_read as [mask Ho]. consts. rewrite Ho.
  pose proof planes_read as Hpl. consts. rewrite Hpl. cbn. by destruct d.
Qed.

End Roundtrip.

Lemma write_registration_len p d : 0 <= d_object_count d -> 0 <= d_plane_count d ->
  zlen (write_registration p d) = zlen p.
Proof.
  intros Ho Hp. unfold write_registration.
  apply Z2Nat.id in Ho. apply Z2Nat.id in Hp. rewrite <- Ho, <- Hp.
  rewrite (records_len _ (write_plane_len d)), (records_len _ (write_object_len d)).
  apply p1_len.
Qed.

(** ** What validation guarantees *)

Lemma forallb_seqZ (f : Z -> bool) a n :
  forallb f (seqZ a n) = true <-> forall i, a <= i < a + n -> f i = true.
Proof.
  rewrite forallb_forall. split.
  - intros H i Hi. apply H, list_elem_of_In, elem_of_seqZ. lia.
  - intros H i Hi%list_elem_of_In%elem_of_seqZ. apply H. lia.
Qed.

Lemma valid_cloexec_fd_spec t fd :
  valid_cloexec_fd t fd = true <->
  0 <= fd /\ exists f, t !! fd = Some f /\ fd_cloexec f = true.
Proof.
  unfold valid_cloexec_fd. destruct (Z.ltb_spec fd 0); [split; [done|lia]|].
  destruct (t !! fd) as [f|]; [|split; [done|intros (_ & ? & [=] & _)]].
  destruct (fd_cloexec f) eqn:E; cbn; split; try done.
  - intros _. split; [done|]. eauto.
  - intros (_ & f' & [= <-] & ?). congruence.
Qed.

(** The contract of a descriptor, in unbounded arithmetic. *)
Record descriptor_spec (t : gmap Z fd_info) (d : advc_dmabuf_descriptor) : Prop := {
  ds_id : d_buffer_id d <> 0;
  ds_size : 16 <= d_width d <= 8192 /\ 16 <= d_height d <= 8192;
  ds_format : d_drm_fourcc d <> 0 /\ d_drm_modifier d <> UINT64_MAX /\
              d_explicit_flags d = ADVC_DMABUF_EXPLICIT_ALL;
  ds_counts : 0 < d_object_count d <= 4 /\ 0 < d_plane_count d <= 4;
  ds_color : valid_color d = true;
  ds_crop : 0 < d_crop_width d /\ 0 < d_crop_height d /\
            d_crop_left d + d_crop_width d <= d_width d /\
            d_crop_top d + d_crop_height d <= d_height d;
  ds_object : forall i, 0 <= i < d_object_count d ->
    (exists f, t !! o_fd (object_at d i) = Some f /\ fd_cloexec f = true) /\
    0 <= o_fd (object_at d i) /\
    0 < o_size (object_at d i) <= 2 ^ 30;
  ds_distinct : forall i j, 0 <= i < d_object_count d -> 0 <= j < d_object_count d -> i <> j ->
    o_fd (object_at d i) <> o_fd (object_at d j);
  ds_unused_object : forall i, d_object_count d <= i < 4 -> object_at d i = Obj (-1) 0;
  ds_plane : forall i, 0 <= i < d_plane_count d ->
    0 <= p_object_index (plane_at d i) < d_object_count d /\
    0 < p_pitch (plane_at d i) <= 2 ^ 20 /\
    p_offset (plane_at d i) + p_pitch (plane_at d i) <=
      o_size (object_at d (p_object_index (plane_at d i)));
  ds_unused_plane : forall i, d_plane_count d <= i < 4 -> plane_at d i = zero_plane;
}.

Lemma good_object_spec t d i : is_u64 (o_size (object_at d i)) ->
  good_object t d i = true <->
  ((exists f, t !! o_fd (object_at d i) = Some f /\ fd_cloexec f = true) /\
   0 <= o_fd (object_at d i) /\ 0 < o_size (object_at d i) <= 2 ^ 30) /\
  (forall j, 0 <= j < i -> o_fd (object_at d j) <> o_fd (object_at d i)).
Proof.
  intros Ht. unfold good_object.
  rewrite !andb_true_iff, forallb_seqZ, valid_cloexec_fd_spec.
  change ADVC_MAX_DMABUF_OBJECT_BYTES with (2 ^ 30). wunfold.
  split.
  - intros (((H1 & H2) & H3) & H4). split; [split; [apply H1|lia]|].
    intros j Hj. specialize (H4 j ltac:(lia)). lia.
  - intros ((H1 & H2 & H3) & H4). repeat split; try done; try lia.
    intros j Hj. specialize (H4 j ltac:(lia)). lia.
Qed.

Lemma good_plane_spec d i :
  is_u32 (p_object_index (plane_at d i)) -> is_u64 (p_offset (plane_at d i)) ->
  is_u32 (p_pitch (plane_at d i)) ->
  is_u64 (o_size (object_at d (p_object_index (plane_at d i)))) ->
  good_plane d i = true <->
  0 <= p_object_index (plane_at d i) < d_object_count d /\
  0 < p_pitch (plane_at d i) <= 2 ^ 20 /\
  p_offset (plane_at d i) + p_pitch (plane_at d i) <=
    o_size (object_at d (p_object_index (plane_at d i))).
Proof.
  intros T1 T2 T3 T4. unfold good_plane. change ADVC_MAX_DMABUF_PITCH with 1048576.
  change (2 ^ 20) with 1048576.
  destruct ((d_object_count d <=? _) || _ || _) eqn:E; [split; [done|wsolve]|].
  destruct (Z.leb_spec (o_size (object_at d (p_object_index (plane_at d i)))) (p_offset (plane_at d i)));
    cbn [orb negb]; [split; [done|wsolve]|].
  rewrite u64_id by wsolve. split; wsolve.
Qed.

Lemma descriptor_ok_spec t d : descriptor_typed d ->
  descriptor_ok t d = true <-> descriptor_spec t d.
Proof.
  intros Hd. pose proof (object_size_typed d Hd) as To. pose proof (plane_typed d Hd) as Tp.
  destruct Hd as (?&?&?&?&?&?&?&?&?&?&?&?&?&?&?&?&?&?&_).
  unfold descriptor_ok, bad_shape, bad_crop. consts.
  rewrite !andb_true_iff, !forallb_seqZ. rewrite !(u64_id (_ + _)) by wsolve.
  split.
  - intros (((((Hs & Hcr) & Hgo) & Huo) & Hgp) & Hup).
    pose proof (fun i (Hi : 0 <= i < d_object_count d) =>
      proj1 (good_object_spec t d i (To i)) (Hgo i Hi)) as Ho.
    assert (0 < d_object_count d <= 4 /\ 0 < d_plane_count d <= 4) as Hc by wsolve.
    constructor; try wsolve.
    + destruct (valid_color d); [done|]. by rewrite orb_true_r in Hs.
    + intros i Hi. by apply Ho.
    + intros i j Hi Hj Hne. destruct (Z.lt_ge_cases i j).
      * apply (proj2 (Ho j Hj)). lia.
      * apply not_eq_sym. apply (proj2 (Ho i Hi)). lia.
    + intros i Hi. specialize (Huo i ltac:(lia)). unfold unused_object in Huo.
      destruct (object_at d i); cbn in *. f_equal; lia.
    + intros i Hi. apply good_plane_spec; [apply Tp..|apply To|]. apply Hgp. lia.
    + intros i Hi. specialize (Hup i ltac:(lia)). unfold unused_plane in Hup.
      destruct (plane_at d i); cbn in *. unfold zero_plane. f_equal; lia.
  - intros [? ? ? ? Hcol ? Ho Hdist Huo Hpl Hup]. rewrite Hcol. repeat split; try wsolve.
    + intros i Hi. apply good_object_spec; [apply To|]. split; [apply Ho; lia|].
      intros j Hj. apply Hdist; lia.
    + intros i Hi. unfold unused_object. rewrite Huo by lia. done.
    + intros i Hi. apply good_plane_spec; [apply Tp..|apply To|]. apply Hpl. lia.
    + intros i Hi. unfold unused_plane. rewrite Hup by lia. done.
Qed.

(** ** The registry: invariant, ownership, refinement *)

Definition entry_id (e : advc_dmabuf_entry) : Z := d_buffer_id (e_descriptor e).
Definition busy (e : advc_dmabuf_entry) : bool := e_in_use e && e_in_flight e.

(** The registry's own invariant: the counters count, identifiers are distinct
    and non-zero, only used entries are in flight, at most four of them. *)
Record registry_wf (r : advc_dmabuf_registry) : Prop := {
  rw_length : length (reg_entries r) = 16%nat;
  rw_registered : reg_registered_count r = count e_in_use (reg_entries r);
  rw_inflight : reg_inflight_count r = count busy (reg_entries r);
  rw_bounded : reg_inflight_count r <= ADVC_MAX_INFLIGHT_DMABUFS;
  rw_busy : forall i e, reg_entries r !! i = Some e -> e_in_flight e = true -> e_in_use e = true;
  rw_ids : forall i e, reg_entries r !! i = Some e -> e_in_use e = true -> entry_id e <> 0;
  rw_distinct : forall i j e e', reg_entries r !! i = Some e -> reg_entries r !! j = Some e' ->
    e_in_use e = true -> e_in_use e' = true -> entry_id e = entry_id e' -> i = j;
}.

(** The descriptors the registry owns. *)
Definition entry_fds (e : advc_dmabuf_entry) : list Z :=
  if e_in_use e then declared_fds (e_descriptor e) else [].
Definition owned_fds (r : advc_dmabuf_registry) : list Z := concat (entry_fds <$> reg_entries r).

(** Abstract state: registered identifiers with their descriptor and whether a
    job is in flight. *)
Definition lookup_entry (r : advc_dmabuf_registry) (id : Z)
  : option (advc_dmabuf_descriptor * bool) :=
  (fun i => (e_descriptor (entry_at r i), e_in_flight (entry_at r i))) <$> find_entry r id.

Definition refines (r : advc_dmabuf_registry) (M : gmap Z (advc_dmabuf_descriptor * bool)) : Prop :=
  forall id, M !! id = lookup_entry r id.

Lemma find_entry_inv r id i : find_entry r id = Some i ->
  reg_entries r !! i = Some (entry_at r i) /\ e_in_use (entry_at r i) = true /\
  entry_id (entry_at r i) = id.
Proof.
  intros H. apply find_idx_Some in H as (e & He & Hf & _).
  unfold entry_at. rewrite He. cbn. apply andb_true_iff in Hf as [? ?%Z.eqb_eq]. done.
Qed.

Lemma find_entry_complete r i e : registry_wf r -> reg_entries r !! i = Some e ->
  e_in_use e = true -> find_entry r (entry_id e) = Some i.
Proof.
  intros Hw Hi Hu. unfold find_entry.
  destruct (find_idx_exists (fun e' => e_in_use e' && (d_buffer_id (e_descriptor e') =? entry_id e))
    (reg_entries r) i e Hi) as [k Hk].
  { rewrite Hu. cbn. apply Z.eqb_refl. }
  rewrite Hk. f_equal. apply find_idx_Some in Hk as (e' & He' & Hf & _).
  apply andb_true_iff in Hf as [Hu' Hid%Z.eqb_eq].
  eapply (rw_distinct r Hw k i e' e); done.
Qed.

Lemma entry_at_eq r i e : reg_entries r !! i = Some e -> entry_at r i = e.
Proof. unfold entry_at. by intros ->. Qed.

Lemma lookup_entry_Some r id e i : registry_wf r -> reg_entries r !! i = Some e ->
  e_in_use e = true -> entry_id e = id ->
  lookup_entry r id = Some (e_descriptor e, e_in_flight e).
Proof.
  intros Hw Hi Hu <-. unfold lookup_entry. rewrite (find_entry_complete r i e) by done. cbn.
  by rewrite (entry_at_eq r i e).
Qed.

(** The abstract map counts the same entries as the array. *)
Lemma size_count (g : advc_dmabuf_entry -> bool) l (X : gset Z) :
  (forall i j e e', l !! i = Some e -> l !! j = Some e' -> g e = true -> g e' = true ->
     entry_id e = entry_id e' -> i = j) ->
  (forall id, id ∈ X <-> exists i e, l !! i = Some e /\ g e = true /\ entry_id e = id) ->
  Z.of_nat (size X) = count g l.
Proof.
  intros Hd HX. unfold count. f_equal.
  assert (X = list_to_set (entry_id <$> List.filter g l)) as ->.
  { apply set_eq. intros id. rewrite HX, elem_of_list_to_set, list_elem_of_fmap. split.
    - intros (i & e & Hi & Hg & <-). exists e. split; [done|].
      apply list_elem_of_In, filter_In. split; [|done].
      by apply list_elem_of_In, (list_elem_of_lookup_2 _ i).
    - intros (e & -> & He%list_elem_of_In%filter_In). destruct He as [He Hg].
      apply list_elem_of_In, list_elem_of_lookup in He as [i Hi]. eauto. }
  rewrite size_list_to_set, length_fmap; [done|].
  clear HX. induction l as [|e l IH]; cbn; [constructor|].
  assert (NoDup (entry_id <$> List.filter g l)) as IHl.
  { apply IH. intros i j a b Hi Hj Ha Hb Hab.
    specialize (Hd (S i) (S j) a b Hi Hj Ha Hb Hab). lia. }
  destruct (g e) eqn:E; [|done]. cbn. constructor; [|done].
  intros (e' & Heq & [Hin Hg]%list_elem_of_In%filter_In)%list_elem_of_fmap.
  apply list_elem_of_In, list_elem_of_lookup in Hin as [j Hj].
  specialize (Hd 0%nat (S j) e e' eq_refl Hj E Hg Heq). lia.
Qed.

Lemma refines_size r M : registry_wf r -> refines r M ->
  Z.of_nat (size M) = reg_registered_count r.
Proof.
  intros Hw HM. rewrite (rw_registered r Hw), <- size_dom. apply size_count.
  - apply (rw_distinct r Hw).
  - intros id. rewrite elem_of_dom, HM. unfold lookup_entry. split.
    + intros [x Hx]. destruct (find_entry r id) as [i|] eqn:E; [|done].
      apply find_entry_inv in E as (H1 & H2 & H3). eauto.
    + intros (i & e & Hi & Hu & <-). rewrite (find_entry_complete r i e) by done. cbn. eauto.
Qed.

Lemma lookup_entry_iff r id v : registry_wf r ->
  lookup_entry r id = Some v <->
  exists i e, reg_entries r !! i = Some e /\ e_in_use e = true /\ entry_id e = id /\
    v = (e_descriptor e, e_in_flight e).
Proof.
  intros Hw. split.
  - unfold lookup_entry. destruct (find_entry r id) as [i|] eqn:E; [|done].
    intros [= <-]. apply find_entry_inv in E as (H1 & H2 & H3). eauto 10.
  - intros (i & e & Hi & Hu & Hid & ->). by eapply lookup_entry_Some.
Qed.

(** Replacing one entry, with the counters moved accordingly. *)
Lemma registry_wf_update r i e0 e1 n k :
  registry_wf r -> reg_entries r !! i = Some e0 ->
  n = reg_registered_count r - Z.b2z (e_in_use e0) + Z.b2z (e_in_use e1) ->
  k = reg_inflight_count r - Z.b2z (busy e0) + Z.b2z (busy e1) ->
  k <= ADVC_MAX_INFLIGHT_DMABUFS ->
  (e_in_flight e1 = true -> e_in_use e1 = true) ->
  (e_in_use e1 = true -> entry_id e1 <> 0 /\ forall j e, j <> i ->
     reg_entries r !! j = Some e -> e_in_use e = true -> entry_id e <> entry_id e1) ->
  registry_wf (Registry (<[i := e1]> (reg_entries r)) n k).
Proof.
  intros Hw Hi -> -> Hk Hb Hid. destruct Hw as [L C1 C2 Bd Bu Ids Di].
  assert (i < length (reg_entries r))%nat as Hlt by (by eapply lookup_lt_Some).
  constructor; cbn [reg_entries reg_registered_count reg_inflight_count].
  - by rewrite length_insert.
  - by rewrite (count_insert _ _ _ _ _ Hi), C1.
  - by rewrite (count_insert _ _ _ _ _ Hi), C2.
  - done.
  - intros j e [(-> & <- & _)|[Hne Hj]]%list_lookup_insert_Some; [done|by apply (Bu j)].
  - intros j e [(-> & <- & _)|[Hne Hj]]%list_lookup_insert_Some; [|by apply (Ids j)].
    intros Hu. by apply Hid.
  - intros j1 j2 a b [(-> & <- & _)|[Hn1 H1]]%list_lookup_insert_Some
      [(-> & <- & _)|[Hn2 H2]]%list_lookup_insert_Some Ha Hb' Hab; try done.
    + exfalso. destruct (Hid Ha) as [_ Hf]. by apply (Hf j2 b).
    + exfalso. destruct (Hid Hb') as [_ Hf]. by apply (Hf j1 a).
    + by eapply (Di j1 j2 a b).
Qed.

Lemma lookup_entry_update r i e0 e1 n k id :
  registry_wf r -> registry_wf (Registry (<[i := e1]> (reg_entries r)) n k) ->
  reg_entries r !! i = Some e0 ->
  lookup_entry (Registry (<[i := e1]> (reg_entries r)) n k) id =
    if e_in_use e1 && (entry_id e1 =? id) then Some (e_descriptor e1, e_in_flight e1)
    else if e_in_use e0 && (entry_id e0 =? id) then None else lookup_entry r id.
Proof.
  intros Hw Hw' Hi. assert (i < length (reg_entries r))%nat as Hlt by (by eapply lookup_lt_Some).
  destruct (e_in_use e1 && (entry_id e1 =? id)) eqn:E1.
  { apply andb_true_iff in E1 as [Hu Hid%Z.eqb_eq]. apply lookup_entry_iff; [done|].
    exists i, e1. cbn. rewrite list_lookup_insert_eq by done. done. }
  destruct (e_in_use e0 && (entry_id e0 =? id)) eqn:E0.
  - apply andb_true_iff in E0 as [Hu Hid%Z.eqb_eq].
    destruct (lookup_entry (Registry _ _ _) id) eqn:E; [|done]. exfalso.
    apply lookup_entry_iff in E as (j & e & Hj & Hue & Hie & _); [|done]. cbn in Hj.
    apply list_lookup_insert_Some in Hj as [(-> & <- & _)|[Hne Hj]].
    + rewrite Hue, Hie, Z.eqb_refl in E1. done.
    + apply Hne. by eapply (rw_distinct r Hw i j e0 e); rewrite ?Hid.
  - apply option_eq. intros v. rewrite !lookup_entry_iff by done. cbn. split.
    + intros (j & e & [(-> & <- & _)|[Hne Hj]]%list_lookup_insert_Some & Hue & Hie & ->); [|eauto 10].
      rewrite Hue, Hie, Z.eqb_refl in E1. done.
    + intros (j & e & Hj & Hue & Hie & ->). exists j, e. split; [|done].
      rewrite list_lookup_insert_ne; [done|]. intros <-. rewrite Hi in Hj. injection Hj as <-.
      rewrite Hue, Hie, Z.eqb_refl in E0. done.
Qed.

(** Ownership follows the replaced entry. *)
Lemma concat_insert_perm {A C} (f : A -> list C) l i x y :
  l !! i = Some x -> concat (f <$> <[i := y]> l) ++ f x ≡ₚ concat (f <$> l) ++ f y.
Proof.
  revert i. induction l as [|z l IH]; intros [|i] H; try done.
  - injection H as ->. cbn. solve_Permutation.
  - cbn. rewrite <- !app_assoc. apply Permutation_app_head. by apply IH.
Qed.

Lemma counters_small r : registry_wf r ->
  0 <= reg_registered_count r <= 16 /\ 0 <= reg_inflight_count r <= 4.
Proof.
  intros Hw. rewrite (rw_registered r Hw). pose proof (rw_bounded r Hw). consts.
  pose proof (count_nonneg e_in_use (reg_entries r)).
  pose proof (count_le_length e_in_use (reg_entries r)).
  pose proof (count_nonneg busy (reg_entries r)). rewrite <- (rw_inflight r Hw) in *.
  unfold zlen in *. rewrite (rw_length r Hw) in *. lia.
Qed.

Lemma registry_create_wf : registry_wf (Registry (replicate 16 zero_entry) 0 0).
Proof.
  constructor; cbn [reg_entries reg_registered_count reg_inflight_count]; try done;
    intros i; intros *; rewrite ?lookup_replicate; intros; destruct_and?; by subst.
Qed.

Lemma declared_fds_at d i : descriptor_typed d -> 0 <= d_object_count d <= 4 ->
  declared_fds d !! i =
    if decide (Z.of_nat i < d_object_count d) then Some (o_fd (object_at d (Z.of_nat i))) else None.
Proof.
  intros (_&_&_&_&_&_&_&_&_&_&_&_&_&_&_&_&_&_&L&_) Hc.
  unfold declared_fds, object_at. rewrite list_lookup_fmap, Nat2Z.id. case_decide.
  - rewrite lookup_take_lt by lia.
    destruct (lookup_lt_is_Some_2 (d_objects d) i) as [o ->]; [lia|]. done.
  - by rewrite lookup_take_ge by lia.
Qed.

Lemma declared_fds_length d : descriptor_typed d -> 0 <= d_object_count d <= 4 ->
  length (declared_fds d) = Z.to_nat (d_object_count d).
Proof.
  intros (_&_&_&_&_&_&_&_&_&_&_&_&_&_&_&_&_&_&L&_) Hc.
  unfold declared_fds. rewrite length_fmap, length_take, L. lia.
Qed.

(** A valid descriptor's declared descriptors are open and pairwise distinct. *)
Lemma declared_fds_valid t d : descriptor_typed d -> descriptor_spec t d ->
  NoDup (declared_fds d) /\ Forall (fun fd => 0 <= fd /\ is_Some (t !! fd)) (declared_fds d).
Proof.
  intros Hd Hs. pose proof (ds_counts _ _ Hs) as [Hc _]. split.
  - apply NoDup_alt. intros i j x Hi Hj. rewrite declared_fds_at in Hi, Hj by (done || lia).
    repeat case_decide; try done. injection Hi as <-. injection Hj as Hj.
    destruct (decide (i = j)) as [|Hne]; [done|].
    exfalso. apply (ds_distinct _ _ Hs (Z.of_nat i) (Z.of_nat j)); (done || lia).
  - apply Forall_lookup. intros i x Hi. rewrite declared_fds_at in Hi by (done || lia).
    case_decide; [|done]. injection Hi as <-.
    destruct (ds_object _ _ Hs (Z.of_nat i)) as ((f & Hf & _) & Hn & _); [lia|]. eauto.
Qed.

Section RegistryOps.
Context {B : Type}.
Implicit Types m : machine B.

(** The machine after a call that only touched descriptors and [errno]. *)
Lemma sync_validate_fds fd m : m_fds (snd (advc_dmabuf_sync_file_validate fd m)) = m_fds m.
Proof.
  unfold advc_dmabuf_sync_file_validate. step. cbn [gets fst snd].
  destruct (negb _); [done|]. step. unfold ioctl_sync_file_info.
  destruct (m_fds m !! fd) as [[? []]|]; cbn; try done;
    match goal with |- context [if ?c then _ else _] => destruct c end; done.
Qed.

Lemma sync_validate_limit fd m : m_limit (snd (advc_dmabuf_sync_file_validate fd m)) = m_limit m.
Proof.
  unfold advc_dmabuf_sync_file_validate. step. cbn [gets fst snd].
  destruct (negb _); [done|]. step. unfold ioctl_sync_file_info.
  destruct (m_fds m !! fd) as [[? []]|]; cbn; try done;
    match goal with |- context [if ?c then _ else _] => destruct c end; done.
Qed.

Lemma validate_desc d m :
  advc_dmabuf_descriptor_validate d m =
    if descriptor_ok (m_fds m) d then (0, m) else (-1, set_errno EINVAL m).
Proof. unfold advc_dmabuf_descriptor_validate. step. cbn. by destruct (descriptor_ok _ _). Qed.

(** The duplication loop: all duplicates on top of the table, or the table as
    it was. *)
Lemma dup_fds_spec t todo done_ m :
  installed t (m_fds m) done_ ->
  match fst (dup_fds todo done_ m) with
  | Some l => exists new, l = done_ ++ new /\ length new = length todo /\
      installed t (m_fds (snd (dup_fds todo done_ m))) l /\
      m_errno (snd (dup_fds todo done_ m)) = m_errno m
  | None => m_fds (snd (dup_fds todo done_ m)) = t /\ m_errno (snd (dup_fds todo done_ m)) <> 0
  end.
Proof.
  revert done_ m. induction todo as [|fd todo IH]; intros done_ m Hi; cbn [dup_fds].
  - exists []. rewrite app_nil_r. done.
  - step. destruct (dup_cases fd m) as [(e & Hne & He)|(f & Hf & He)]; rewrite He; cbn [fst snd].
    + cbn [Z.ltb Z.compare]. step. cbn. split; [by apply close_each_installed|].
      by apply close_each_errno.
    + destruct (Z.ltb_spec (lowest_free (m_fds m)) 0);
        [pose proof (lowest_free_nonneg (m_fds m)); lia|].
      set (m1 := set_fds _ _). specialize (IH (done_ ++ [lowest_free (m_fds m)]) m1).
      assert (installed t (m_fds m1) (done_ ++ [lowest_free (m_fds m)])) as Hi1.
      { eapply installed_app; [exact Hi|]. apply installed_one. }
      specialize (IH Hi1). destruct (fst (dup_fds todo _ m1)); [|done].
      destruct IH as (new & -> & Hl & Hin & He'). exists (lowest_free (m_fds m) :: new).
      rewrite <- app_assoc. split; [done|]. split; [cbn; lia|]. split; [|done].
      by rewrite <- app_assoc in Hin.
Qed.

(** [close] of what is open keeps [errno]. *)
Lemma close_each_open_errno t l m : installed t (m_fds m) l ->
  m_errno (snd (close_each l m)) = m_errno m.
Proof.
  intros Hi. rewrite close_each_all by (by eapply installed_nonneg). revert m Hi.
  induction l as [|fd l IH]; intros m Hi; [done|]. cbn [close_all foldr]. step.
  pose proof Hi as (_ & Ho & _). destruct (Ho fd) as (_ & _ & [f Hf]); [apply list_elem_of_here|].
  rewrite (close_open_fds _ _ _ Hf). cbn [fst snd].
  destruct (installed_app_inv t (m_fds m) l [fd]) as (t1 & H1 & H2).
  { eapply installed_Permutation; [|exact Hi]. apply Permutation_cons_append. }
  etrans; [apply IH|done]. cbn. replace (delete fd (m_fds m)) with t1; [done|].
  apply map_eq. intros k. destruct H2 as (_ & Ho2 & K2). destruct (decide (k = fd)) as [->|Hne].
  - rewrite lookup_delete_eq. apply Ho2. apply list_elem_of_here.
  - rewrite lookup_delete_ne by done. symmetry. apply K2. by intros ?%list_elem_of_singleton.
Qed.

(** The duplicates of open descriptors are close-on-exec and refer to the same
    files, and only a full table makes the duplication fail. *)
Definition duplicates (t t' : gmap Z fd_info) (fds dups : list Z) : Prop :=
  installed t t' dups /\
  Forall2 (fun fd n => exists f, t !! fd = Some f /\ t' !! n = Some (FdInfo true (fd_kind f))) fds dups.

Lemma dup_fds_files t todo fds0 done_ m :
  duplicates t (m_fds m) fds0 done_ -> Forall (fun fd => is_Some (t !! fd)) todo ->
  match fst (dup_fds todo done_ m) with
  | Some l => duplicates t (m_fds (snd (dup_fds todo done_ m))) (fds0 ++ todo) l
  | None => m_errno (snd (dup_fds todo done_ m)) = EMFILE /\
      m_limit m < Z.of_nat (size (m_fds m)) + zlen todo
  end.
Proof.
  revert fds0 done_ m. induction todo as [|fd todo IH]; intros fds0 done_ m [Hi Hf2] Hop; cbn [dup_fds].
  { rewrite app_nil_r. by split. }
  apply Forall_cons in Hop as [[f Hf] Hop]. step.
  pose proof (lowest_free_spec (m_fds m)) as [Hnn Hfresh]. pose proof (lowest_free_le_size (m_fds m)) as Hle.
  assert (m_fds m !! fd = Some f) as Hfm.
  { destruct Hi as (_ & Ho & K). rewrite K; [done|]. intros Hin. destruct (Ho fd Hin) as (_ & Hn & _). congruence. }
  unfold fcntl_dupfd_cloexec, install_fd. rewrite Hfm. unfold zlen. cbn [length].
  destruct (Z.leb_spec (m_limit m) (lowest_free (m_fds m))) as [Hlim|Hlim]; cbn [fst snd].
  - cbn [Z.ltb Z.compare]. step. cbn [mret st_ret fst snd]. rewrite (close_each_open_errno t) by done. cbn. lia.
  - destruct (Z.ltb_spec (lowest_free (m_fds m)) 0); [lia|]. set (m1 := set_fds _ _).
    specialize (IH (fds0 ++ [fd]) (done_ ++ [lowest_free (m_fds m)]) m1). rewrite <- app_assoc in IH. cbn [app] in IH.
    destruct (fst (dup_fds todo _ m1)).
    + apply IH; [|done]. split; [eapply installed_app; [exact Hi|apply installed_one]|].
      apply Forall2_app.
      * eapply Forall2_impl; [exact Hf2|]. intros x n (g & Hg & Hn). exists g. split; [done|]. cbn.
        rewrite lookup_insert_ne; [done|]. intros <-. congruence.
      * constructor; [|constructor]. exists f. split; [done|]. cbn. by rewrite lookup_insert_eq.
    + destruct IH as [He Hl]; [|done|].
      * split; [eapply installed_app; [exact Hi|apply installed_one]|]. apply Forall2_app.
        -- eapply Forall2_impl; [exact Hf2|]. intros x n (g & Hg & Hn). exists g. split; [done|]. cbn.
           rewrite lookup_insert_ne; [done|]. intros <-. congruence.
        -- constructor; [|constructor]. exists f. split; [done|]. cbn. by rewrite lookup_insert_eq.
      * split; [done|]. cbn [m1 m_limit set_fds m_fds] in Hl. unfold zlen in Hl.
        rewrite map_size_insert_None in Hl by done. lia.
Qed.

(** *** Abstract specification *)

Inductive reg_op :=
  | OpRegister (d : advc_dmabuf_descriptor)
  | OpUnregister (id : Z)
  | OpBegin (s : advc_dmabuf_submission)
  | OpFinish (id : Z).

Definition inflight_ids (M : gmap Z (advc_dmabuf_descriptor * bool))
  : gmap Z (advc_dmabuf_descriptor * bool) := filter (fun kv => kv.2.2 = true) M.

(** What [advc_dmabuf_registry_begin] demands of a submission. *)
Definition submission_ok (t : gmap Z fd_info) (s : advc_dmabuf_submission) : Prop :=
  sub_buffer_id s <> 0 /\ sub_pts_ns s <= INT64_MAX /\
  (sub_acquire_fence_fd s = -1 \/
   0 <= sub_acquire_fence_fd s /\ t !! sub_acquire_fence_fd s = Some (FdInfo true KSyncFile)).

(** The admission policy of the codec backend, a callback of [register]. *)
Context (allowed : advc_dmabuf_descriptor -> St (machine B) Z).

(** The errno of a refusal by the policy: it answered [a] and left [m]. *)
Definition policy_errno (a : Z) m : Z :=
  if a =? 0 then ENOTSUP else if m_errno m =? 0 then EIO else m_errno m.

(** The copy a registry keeps: every field of the descriptor, with the declared
    objects under the descriptors [dups] and no descriptor in the others. *)
Definition kept_copy (d d' : advc_dmabuf_descriptor) (dups : list Z) : Prop :=
  exists objs, d' = with_objects objs d /\ o_size <$> objs = o_size <$> d_objects d /\
    o_fd <$> objs = dups ++ replicate (4 - length dups) (-1).

(** [reg_spec m t' M op e M']: called in the state [m], with the abstract map [M],
    the operation succeeds ([e = 0]) or fails with [errno = e], and ends with the
    descriptor table [t'] in the abstract map [M'].  The conditions of the cases
    exclude each other: what is refused, and with which errno, is a function of
    the request, the map, the policy's answer and the room in the table. *)
Inductive reg_spec (m : machine B) (t' : gmap Z fd_info) (M : gmap Z (advc_dmabuf_descriptor * bool))
  : reg_op -> Z -> gmap Z (advc_dmabuf_descriptor * bool) -> Prop :=
  | RsRegister d d' dups :
      descriptor_ok (m_fds m) d = true ->
      M !! d_buffer_id d = None -> Z.of_nat (size M) < ADVC_MAX_REGISTERED_DMABUFS ->
      0 < fst (allowed d m) ->
      duplicates (m_fds m) t' (declared_fds d) dups -> kept_copy d d' dups ->
      reg_spec m t' M (OpRegister d) 0 (<[d_buffer_id d := (d', false)]> M)
  | RsRegisterInvalid d :
      descriptor_ok (m_fds m) d = false -> reg_spec m t' M (OpRegister d) EINVAL M
  | RsRegisterExists d :
      descriptor_ok (m_fds m) d = true ->
      is_Some (M !! d_buffer_id d) -> reg_spec m t' M (OpRegister d) EEXIST M
  | RsRegisterFull d :
      descriptor_ok (m_fds m) d = true ->
      M !! d_buffer_id d = None -> ADVC_MAX_REGISTERED_DMABUFS <= Z.of_nat (size M) ->
      reg_spec m t' M (OpRegister d) ENOSPC M
  | RsRegisterPolicy d :
      descriptor_ok (m_fds m) d = true ->
      M !! d_buffer_id d = None -> Z.of_nat (size M) < ADVC_MAX_REGISTERED_DMABUFS ->
      fst (allowed d m) <= 0 ->
      reg_spec m t' M (OpRegister d) (policy_errno (fst (allowed d m)) (snd (allowed d m))) M
  | RsRegisterNoRoom d :
      descriptor_ok (m_fds m) d = true ->
      M !! d_buffer_id d = None -> Z.of_nat (size M) < ADVC_MAX_REGISTERED_DMABUFS ->
      0 < fst (allowed d m) ->
      m_limit (snd (allowed d m)) < Z.of_nat (size (m_fds m)) + d_object_count d ->
      reg_spec m t' M (OpRegister d) EMFILE M
  | RsUnregister id d : id <> 0 -> M !! id = Some (d, false) ->
      reg_spec m t' M (OpUnregister id) 0 (delete id M)
  | RsUnregisterZero : reg_spec m t' M (OpUnregister 0) EINVAL M
  | RsUnregisterNone id : id <> 0 -> M !! id = None -> reg_spec m t' M (OpUnregister id) ENOENT M
  | RsUnregisterBusy id d : id <> 0 -> M !! id = Some (d, true) ->
      reg_spec m t' M (OpUnregister id) EBUSY M
  | RsBegin s d : submission_ok (m_fds m) s -> M !! sub_buffer_id s = Some (d, false) ->
      Z.of_nat (size (inflight_ids M)) < ADVC_MAX_INFLIGHT_DMABUFS ->
      sub_acquire_fence_fd s < 0 \/ lowest_free (m_fds m) < m_limit m ->
      reg_spec m t' M (OpBegin s) 0 (<[sub_buffer_id s := (d, true)]> M)
  | RsBeginInvalid s : ~ submission_ok (m_fds m) s -> reg_spec m t' M (OpBegin s) EINVAL M
  | RsBeginNone s : submission_ok (m_fds m) s ->
      M !! sub_buffer_id s = None -> reg_spec m t' M (OpBegin s) ENOENT M
  | RsBeginBusy s d : submission_ok (m_fds m) s ->
      M !! sub_buffer_id s = Some (d, true) -> reg_spec m t' M (OpBegin s) EBUSY M
  | RsBeginFull s d : submission_ok (m_fds m) s -> M !! sub_buffer_id s = Some (d, false) ->
      ADVC_MAX_INFLIGHT_DMABUFS <= Z.of_nat (size (inflight_ids M)) ->
      reg_spec m t' M (OpBegin s) EAGAIN M
  | RsBeginNoRoom s d : submission_ok (m_fds m) s -> M !! sub_buffer_id s = Some (d, false) ->
      Z.of_nat (size (inflight_ids M)) < ADVC_MAX_INFLIGHT_DMABUFS ->
      0 <= sub_acquire_fence_fd s -> m_limit m <= lowest_free (m_fds m) ->
      reg_spec m t' M (OpBegin s) EMFILE M
  | RsFinish id d : id <> 0 -> M !! id = Some (d, true) ->
      reg_spec m t' M (OpFinish id) 0 (<[id := (d, false)]> M)
  | RsFinishZero : reg_spec m t' M (OpFinish 0) EINVAL M
  | RsFinishNone id : id <> 0 -> M !! id = None -> reg_spec m t' M (OpFinish id) ENOENT M
  | RsFinishIdle id d : id <> 0 -> M !! id = Some (d, false) ->
      reg_spec m t' M (OpFinish id) EALREADY M.

(** The job of a successful [begin]: the buffer as it is registered, and a
    duplicate of the acquire fence. *)
Definition begun_job (m : machine B) (t' : gmap Z fd_info)
    (M : gmap Z (advc_dmabuf_descriptor * bool)) (s : advc_dmabuf_submission) (job : advc_dmabuf_job) : Prop :=
  exists d fence, M !! sub_buffer_id s = Some (d, false) /\
    job = Job (sub_buffer_id s) (sub_pts_ns s) fence (Some d) /\
    (if 0 <=? sub_acquire_fence_fd s
     then 0 <= fence /\ m_fds m !! fence = None /\ t' !! fence = Some (FdInfo true KSyncFile)
     else fence = -1).

Lemma refines_inflight r M : registry_wf r -> refines r M ->
  Z.of_nat (size (inflight_ids M)) = reg_inflight_count r.
Proof.
  intros Hw HM. rewrite (rw_inflight r Hw), <- size_dom. apply size_count.
  - intros i j e e' Hi Hj [Hu _]%andb_true_iff [Hu' _]%andb_true_iff.
    by apply (rw_distinct r Hw i j e e').
  - intros id. rewrite elem_of_dom. split.
    + intros [[d fl] [Hl Hfl]%map_lookup_filter_Some]. cbn in Hfl. rewrite HM in Hl.
      apply lookup_entry_iff in Hl as (i & e & Hi & Hu & Hid & [= -> ->]); [|done].
      exists i, e. unfold busy. by rewrite Hu, Hfl.
    + intros (i & e & Hi & [Hu Hfl]%andb_true_iff & Hid).
      exists (e_descriptor e, e_in_flight e). apply map_lookup_filter_Some_2; [|done].
      rewrite HM. by eapply lookup_entry_Some.
Qed.

(** The running system: one call, with its job dropped for [OpBegin]. *)
Definition run_op (op : reg_op) (r : advc_dmabuf_registry) : St (machine B) (Z * advc_dmabuf_registry) :=
  match op with
  | OpRegister d => advc_dmabuf_registry_register allowed r d
  | OpUnregister id => advc_dmabuf_registry_unregister r id
  | OpBegin s => x ← advc_dmabuf_registry_begin r s zero_job; mret (fst x, fst (snd x))
  | OpFinish id => advc_dmabuf_registry_finish r id
  end.

(** 0, or the [errno] a -1 return left behind. *)
Definition outcome (x : Z * advc_dmabuf_registry * machine B) : Z :=
  if fst (fst x) =? 0 then 0 else m_errno (snd x).

(** *** Each operation, on every branch *)

(** What one call does to the invariant, to ownership over a base table [t0]
    (with [extra] descriptors handed to the caller), and to the abstract state. *)
Definition op_post (m : machine B) (t0 : gmap Z fd_info) (M : gmap Z (advc_dmabuf_descriptor * bool))
  (op : reg_op) (extra : list Z) (x : Z * advc_dmabuf_registry * machine B) : Prop :=
  let r' := snd (fst x) in
  (fst (fst x) = 0 \/ fst (fst x) = -1 /\ m_errno (snd x) <> 0) /\
  registry_wf r' /\
  installed t0 (m_fds (snd x)) (owned_fds r' ++ extra) /\
  exists M', refines r' M' /\ reg_spec m (m_fds (snd x)) M op (outcome x) M'.

Lemma op_post_fail m t0 M op r m' :
  registry_wf r -> refines r M -> installed t0 (m_fds m') (owned_fds r) ->
  m_errno m' <> 0 -> reg_spec m (m_fds m') M op (m_errno m') M -> op_post m t0 M op [] ((-1, r), m').
Proof.
  intros Hw HM Hi He Hs. unfold op_post. cbn. rewrite app_nil_r. eauto 10.
Qed.

Lemma set_entry_eq i e r :
  set_entry i e r = Registry (<[i := e]> (reg_entries r)) (reg_registered_count r) (reg_inflight_count r).
Proof. done. Qed.

Lemma owned_update r i e0 e1 n k :
  reg_entries r !! i = Some e0 ->
  owned_fds (Registry (<[i := e1]> (reg_entries r)) n k) ++ entry_fds e0 ≡ₚ
  owned_fds r ++ entry_fds e1.
Proof. intros H. unfold owned_fds. cbn. by apply concat_insert_perm. Qed.

(** Moving a used entry in or out of flight. *)
Lemma flip_flight r i e fl k M :
  registry_wf r -> refines r M -> reg_entries r !! i = Some e -> e_in_use e = true ->
  k = reg_inflight_count r - Z.b2z (e_in_flight e) + Z.b2z fl ->
  k <= ADVC_MAX_INFLIGHT_DMABUFS ->
  let r' := Registry (<[i := Entry (e_descriptor e) fl (e_in_use e)]> (reg_entries r))
              (reg_registered_count r) k in
  registry_wf r' /\ owned_fds r' ≡ₚ owned_fds r /\
  refines r' (<[entry_id e := (e_descriptor e, fl)]> M).
Proof.
  intros Hw HM He Hu Hk Hk4. set (e1 := Entry (e_descriptor e) fl (e_in_use e)). cbn zeta.
  assert (registry_wf (Registry (<[i := e1]> (reg_entries r)) (reg_registered_count r) k)) as Hw'.
  { eapply registry_wf_update; try done; unfold busy; cbn; rewrite ?Hu; cbn; try lia.
    intros _. split; [exact (rw_ids r Hw i e He Hu)|]. intros j e' Hne Hj Hu' Hid'. apply Hne.
    exact (rw_distinct r Hw j i e' e Hj He Hu' Hu Hid'). }
  split; [done|]. split.
  - eapply (Permutation_app_inv_r (entry_fds e)). rewrite (owned_update r i e e1) by done. done.
  - intros id'. rewrite (lookup_entry_update r i e e1) by done.
    change (entry_id e1) with (entry_id e). change (e_in_use e1) with (e_in_use e). rewrite Hu. cbn.
    destruct (Z.eqb_spec (entry_id e) id') as [<-|Hne]; [by rewrite lookup_insert_eq|].
    rewrite lookup_insert_ne by done. apply HM.
Qed.

Lemma finish_post t0 M r id m :
  registry_wf r -> refines r M -> installed t0 (m_fds m) (owned_fds r) ->
  op_post m t0 M (OpFinish id) [] (advc_dmabuf_registry_finish r id m).
Proof.
  intros Hw HM Hi. unfold advc_dmabuf_registry_finish.
  destruct (Z.eqb_spec id 0) as [->|Hid].
  { eapply op_post_fail; try done. constructor. }
  pose proof (HM id) as Hl. unfold lookup_entry in Hl.
  destruct (find_entry r id) as [i|] eqn:E; cbn in Hl.
  2:{ eapply op_post_fail; try done. by constructor. }
  apply find_entry_inv in E as (He & Hu & Heid). set (e := entry_at r i) in *.
  destruct (e_in_flight e) eqn:Efl; cbn [negb].
  2:{ eapply op_post_fail; try done. by econstructor. }
  pose proof (counters_small r Hw) as Hc.
  assert (0 < reg_inflight_count r) as Hpos.
  { rewrite (rw_inflight r Hw). eapply count_pos; [exact He|]. unfold busy. by rewrite Hu, Efl. }
  destruct (flip_flight r i e false (reg_inflight_count r - 1) M) as (Hw' & Hp & HM');
    [done..|rewrite Efl; cbn; lia|consts; lia|].
  unfold op_post, add_inflight, set_entry. cbn [mret st_ret fst snd reg_entries reg_registered_count
    reg_inflight_count]. rewrite u64_id by wsolve.
  split; [by left|]. split; [done|]. split.
  - rewrite app_nil_r. by eapply installed_Permutation.
  - rewrite Heid in HM'. eexists. split; [exact HM'|]. by econstructor.
Qed.

(** The fence check accepts exactly the close-on-exec sync files. *)
Lemma sync_validate_result fd m :
  (fst (advc_dmabuf_sync_file_validate fd m) <? 0) = false <->
  0 <= fd /\ m_fds m !! fd = Some (FdInfo true KSyncFile).
Proof.
  unfold advc_dmabuf_sync_file_validate. step. cbn [gets fst snd]. unfold valid_cloexec_fd.
  destruct (Z.ltb_spec fd 0); [split; [done|lia]|].
  destruct (m_fds m !! fd) as [[[] k]|] eqn:E; cbn; [|split; [done|naive_solver]..].
  change (negb (negb (Z.land FD_CLOEXEC FD_CLOEXEC =? 0))) with false. cbn iota.
  step. unfold ioctl_sync_file_info. rewrite E. destruct k; cbn; split; naive_solver.
Qed.

Lemma begin_checks s m :
  (sub_buffer_id s =? 0) || (INT64_MAX <? sub_pts_ns s) || (sub_acquire_fence_fd s <? -1) = false ->
  let v := (if 0 <=? sub_acquire_fence_fd s
            then advc_dmabuf_sync_file_validate (sub_acquire_fence_fd s) else mret 0) m in
  m_fds (snd v) = m_fds m /\ m_limit (snd v) = m_limit m /\
  ((fst v <? 0) = false <-> submission_ok (m_fds m) s).
Proof.
  intros E. cbn zeta. destruct (Z.leb_spec 0 (sub_acquire_fence_fd s)).
  - split; [apply sync_validate_fds|]. split; [apply sync_validate_limit|]. rewrite sync_validate_result. unfold submission_ok.
    split; [intros []; repeat split; try lia; by right|].
    intros (_ & _ & [?|?]); [lia|done].
  - split; [done|]. split; [done|]. cbn. split; [|done]. intros _. repeat split; lia.
Qed.

(** The fence a successful [begin] hands to its job. *)
Definition job_fds (job : advc_dmabuf_job) : list Z :=
  if 0 <=? job_acquire_fence_fd job then [job_acquire_fence_fd job] else [].

(** A refused [begin]: the registry and the table (left by the fence check in
    [v]) are those of the call. *)
Ltac begin_fails t0 r v Hv :=
  split; [|done]; eapply op_post_fail; try done;
  [change (installed t0 (m_fds (snd v)) (owned_fds r)); by rewrite Hv|].

Lemma begin_post t0 M r s m :
  registry_wf r -> refines r M -> installed t0 (m_fds m) (owned_fds r) ->
  let x := advc_dmabuf_registry_begin r s zero_job m in
  op_post m t0 M (OpBegin s) (job_fds (snd (snd (fst x))))
    ((fst (fst x), fst (snd (fst x))), snd x) /\
  (fst (fst x) = 0 -> begun_job m (m_fds (snd x)) M s (snd (snd (fst x)))).
Proof.
  intros Hw HM Hi. unfold advc_dmabuf_registry_begin.
  destruct ((sub_buffer_id s =? 0) || _ || _) eqn:E0.
  { split; [|done]. eapply op_post_fail; try done. constructor. intros (? & ? & ?). lia. }
  step. destruct (begin_checks s m E0) as (Hv & Hvl & Hok). revert Hv Hvl Hok.
  set (v := (if 0 <=? sub_acquire_fence_fd s
    then advc_dmabuf_sync_file_validate (sub_acquire_fence_fd s) else mret 0) m). intros Hv Hvl Hok. clearbody v.
  destruct (fst v <? 0).
  { begin_fails t0 r v Hv. constructor. naive_solver. }
  assert (submission_ok (m_fds m) s) as Hsub by (by apply Hok).
  pose proof (HM (sub_buffer_id s)) as Hl. unfold lookup_entry in Hl.
  destruct (find_entry r (sub_buffer_id s)) as [i|] eqn:E; cbn in Hl.
  2:{ begin_fails t0 r v Hv. by constructor. }
  apply find_entry_inv in E as (He & Hu & Heid). set (e := entry_at r i) in *.
  destruct (e_in_flight e) eqn:Efl.
  { begin_fails t0 r v Hv. by econstructor. }
  pose proof (refines_inflight r M Hw HM) as Hsz.
  destruct (Z.leb_spec ADVC_MAX_INFLIGHT_DMABUFS (reg_inflight_count r)) as [Hge|Hlt].
  { begin_fails t0 r v Hv.
    econstructor; [done..|]. lia. }
  pose proof (counters_small r Hw) as Hc.
  destruct (flip_flight r i e true (reg_inflight_count r + 1) M) as (Hw' & Hp & HM');
    [done..|rewrite Efl; cbn; lia|consts; lia|]. rewrite Heid in HM'.
  assert (m_limit (snd v) = m_limit m) as Hlim by exact Hvl.
  step. destruct (Z.leb_spec 0 (sub_acquire_fence_fd s)) as [Hf|Hf]; cbn [andb].
  - assert (m_fds m !! sub_acquire_fence_fd s = Some (FdInfo true KSyncFile)) as Hfile
      by (destruct Hsub as (_ & _ & [?|[_ ?]]); [lia|done]).
    pose proof (lowest_free_spec (m_fds (snd v))) as [Hnn Hfresh].
    unfold fcntl_dupfd_cloexec, install_fd. rewrite Hv, Hfile, Hlim in *. cbn [fd_kind].
    destruct (Z.leb_spec (m_limit m) (lowest_free (m_fds m))) as [Hfull|Hroom]; cbn [fst snd].
    + cbn [Z.ltb Z.compare]. begin_fails t0 r v Hv. eapply RsBeginNoRoom; try done. lia.
    + destruct (Z.ltb_spec (lowest_free (m_fds m)) 0); [lia|]. cbn [mret st_ret fst snd].
      split.
      * unfold op_post, job_fds, add_inflight, set_entry. cbn [fst snd reg_entries reg_registered_count
          reg_inflight_count job_acquire_fence_fd]. rewrite u64_id by wsolve.
        destruct (Z.leb_spec 0 (lowest_free (m_fds m))); [|lia].
        split; [by left|]. split; [done|].
        split; [|eexists; split; [exact HM'|]; eapply RsBegin; [done..|lia|by right]].
        eapply installed_app; [eapply installed_Permutation; [symmetry; exact Hp|exact Hi]|].
        apply installed_one.
      * intros _. eexists _, _. split; [done|]. split; [done|].
        destruct (Z.leb_spec 0 (sub_acquire_fence_fd s)); [|lia]. split; [done|]. split; [done|].
        cbn. by rewrite lookup_insert_eq.
  - cbn [mret st_ret fst snd]. split.
    + unfold op_post, job_fds, add_inflight, set_entry. cbn [fst snd reg_entries reg_registered_count
        reg_inflight_count job_acquire_fence_fd]. rewrite u64_id by wsolve. cbn [Z.leb Z.compare].
      split; [by left|]. split; [done|].
      split; [|eexists; split; [exact HM'|]; eapply RsBegin; [done..|lia|by left]].
      rewrite app_nil_r, Hv. eapply installed_Permutation; [symmetry; exact Hp|exact Hi].
    + intros _. eexists _, _. split; [done|]. split; [done|].
      destruct (Z.leb_spec 0 (sub_acquire_fence_fd s)); [lia|done].
Qed.

Lemma close_descriptor_fds t d m :
  installed t (m_fds m) (declared_fds d) -> m_fds (snd (close_descriptor d m)) = t.
Proof. apply close_each_installed. Qed.

Lemma unregister_post t0 M r id m :
  registry_wf r -> refines r M -> installed t0 (m_fds m) (owned_fds r) ->
  op_post m t0 M (OpUnregister id) [] (advc_dmabuf_registry_unregister r id m).
Proof.
  intros Hw HM Hi. unfold advc_dmabuf_registry_unregister.
  destruct (Z.eqb_spec id 0) as [->|Hid].
  { eapply op_post_fail; try done. constructor. }
  pose proof (HM id) as Hl. unfold lookup_entry in Hl.
  destruct (find_entry r id) as [i|] eqn:E; cbn in Hl.
  2:{ eapply op_post_fail; try done. by constructor. }
  apply find_entry_inv in E as (He & Hu & Heid). set (e := entry_at r i) in *.
  destruct (e_in_flight e) eqn:Efl.
  { eapply op_post_fail; try done. by econstructor. }
  pose proof (counters_small r Hw) as Hc.
  assert (0 < reg_registered_count r) as Hpos by (rewrite (rw_registered r Hw); by eapply count_pos).
  assert (registry_wf (Registry (<[i := zero_entry]> (reg_entries r))
            (reg_registered_count r - 1) (reg_inflight_count r))) as Hw'.
  { eapply registry_wf_update; try done; unfold busy; cbn; rewrite ?Hu, ?Efl; cbn; try lia.
    apply (rw_bounded r Hw). }
  pose proof (owned_update r i e zero_entry (reg_registered_count r - 1) (reg_inflight_count r) He) as Hp.
  unfold entry_fds in Hp. rewrite Hu in Hp. cbn [e_in_use zero_entry] in Hp. rewrite app_nil_r in Hp.
  destruct (installed_app_inv t0 (m_fds m) (owned_fds (Registry (<[i := zero_entry]> (reg_entries r))
     (reg_registered_count r - 1) (reg_inflight_count r))) (declared_fds (e_descriptor e)))
    as (t1 & Hi1 & Hi2).
  { eapply installed_Permutation; [symmetry; exact Hp|exact Hi]. }
  step. unfold op_post, add_registered, set_entry. cbn [mret st_ret fst snd reg_entries
    reg_registered_count reg_inflight_count].
  replace (u64 (reg_registered_count r + -1)) with (reg_registered_count r - 1) by wsolve.
  split; [by left|]. split; [done|]. split.
  - rewrite app_nil_r, (close_descriptor_fds t1) by done. done.
  - exists (delete id M). split; [|by econstructor].
    intros id'. rewrite (lookup_entry_update r i e zero_entry) by done. cbn [e_in_use zero_entry andb].
    rewrite Hu, Heid. cbn. destruct (Z.eqb_spec id id') as [<-|Hne].
    + by rewrite lookup_delete_eq.
    + rewrite lookup_delete_ne by done. apply HM.
Qed.

(** The stored copy declares the duplicates. *)
Lemma owned_objects_fds d dups n :
  length (d_objects d) = 4%nat -> (n <= 4)%nat -> length dups = n ->
  o_fd <$> take n (owned_objects d dups) = dups.
Proof.
  intros Hl Hn Hd. apply list_eq. intros i. rewrite list_lookup_fmap.
  destruct (decide (i < n)%nat) as [Hi|Hi].
  - rewrite lookup_take_lt by done. unfold owned_objects. rewrite list_lookup_imap.
    destruct (lookup_lt_is_Some_2 (d_objects d) i) as [o Ho]; [lia|]. rewrite Ho. cbn.
    destruct (lookup_lt_is_Some_2 dups i) as [x Hx]; [lia|]. by rewrite Hx.
  - rewrite lookup_take_ge by lia. cbn. symmetry. apply lookup_ge_None_2. lia.
Qed.

Lemma owned_objects_sizes d dups : o_size <$> owned_objects d dups = o_size <$> d_objects d.
Proof.
  unfold owned_objects. apply list_eq. intros i. rewrite !list_lookup_fmap, list_lookup_imap.
  by destruct (d_objects d !! i).
Qed.

(** Filling a free entry with a new descriptor. *)
Lemma fill_entry r M i e d :
  registry_wf r -> refines r M -> reg_entries r !! i = Some e -> e_in_use e = false ->
  d_buffer_id d <> 0 -> M !! d_buffer_id d = None ->
  let r' := Registry (<[i := Entry d false true]> (reg_entries r))
              (reg_registered_count r + 1) (reg_inflight_count r) in
  registry_wf r' /\ owned_fds r' ≡ₚ owned_fds r ++ declared_fds d /\
  refines r' (<[d_buffer_id d := (d, false)]> M).
Proof.
  intros Hw HM He Hu Hid HN. cbn zeta. set (e1 := Entry d false true).
  assert (registry_wf (Registry (<[i := e1]> (reg_entries r)) (reg_registered_count r + 1)
            (reg_inflight_count r))) as Hw'.
  { eapply registry_wf_update; try done; unfold busy; rewrite ?Hu; cbn; try lia.
    - apply (rw_bounded r Hw).
    - intros _. split; [done|]. intros j e' Hne Hj Hu' Heq.
      rewrite HM in HN. by rewrite (lookup_entry_Some r _ e' j) in HN. }
  split; [done|]. split.
  - pose proof (owned_update r i e e1 (reg_registered_count r + 1) (reg_inflight_count r) He) as Hp.
    unfold entry_fds in Hp. rewrite Hu in Hp. rewrite app_nil_r in Hp. exact Hp.
  - intros id'. rewrite (lookup_entry_update r i e e1) by done. rewrite Hu. cbn.
    change (entry_id e1) with (d_buffer_id d).
    destruct (Z.eqb_spec (d_buffer_id d) id') as [<-|Hne]; [by rewrite lookup_insert_eq|].
    rewrite lookup_insert_ne by done. apply HM.
Qed.

(** Clearing an entry that is already free changes nothing observable. *)
Lemma clear_free r M i e :
  registry_wf r -> refines r M -> reg_entries r !! i = Some e -> e_in_use e = false ->
  registry_wf (set_entry i zero_entry r) /\ owned_fds (set_entry i zero_entry r) ≡ₚ owned_fds r /\
  refines (set_entry i zero_entry r) M.
Proof.
  intros Hw HM He Hu. rewrite set_entry_eq.
  assert (registry_wf (Registry (<[i := zero_entry]> (reg_entries r)) (reg_registered_count r)
            (reg_inflight_count r))) as Hw'.
  { eapply registry_wf_update; try done; unfold busy; rewrite ?Hu; cbn; try lia.
    apply (rw_bounded r Hw). }
  split; [done|]. split.
  - pose proof (owned_update r i e zero_entry (reg_registered_count r) (reg_inflight_count r) He) as Hp.
    unfold entry_fds in Hp. rewrite Hu in Hp. by rewrite !app_nil_r in Hp.
  - intros id'. rewrite (lookup_entry_update r i e zero_entry) by done. rewrite Hu. cbn. apply HM.
Qed.

(** With room left there is a free entry. *)
Lemma free_entry_exists r : registry_wf r -> reg_registered_count r < ADVC_MAX_REGISTERED_DMABUFS ->
  exists i e, find_idx (fun e => negb (e_in_use e)) (reg_entries r) = Some i /\
    reg_entries r !! i = Some e /\ e_in_use e = false.
Proof.
  intros Hw Hc. destruct (find_idx _ _) as [i|] eqn:E.
  - apply find_idx_Some in E as (e & He & Hf & _). exists i, e. by destruct (e_in_use e).
  - exfalso. rewrite (rw_registered r Hw) in Hc. rewrite count_all in Hc.
    + unfold zlen in Hc. rewrite (rw_length r Hw) in Hc. consts. lia.
    + intros i x Hx. pose proof (find_idx_None _ _ E i x Hx) as Hn. cbn in Hn. by destruct (e_in_use x).
Qed.

Section Register.
(** The admission callback decides; it neither opens nor closes descriptors. *)
Context (Hallowed : forall d m, m_fds (snd (allowed d m)) = m_fds m).

(** [errno] is set on a refusal. *)
Lemma refusal_errno a m :
  m_fds (snd ((if a =? 0 then errno_is ENOTSUP
    else e ← errno; if e =? 0 then errno_is EIO else mret tt) m)) = m_fds m /\
  m_errno (snd ((if a =? 0 then errno_is ENOTSUP
    else e ← errno; if e =? 0 then errno_is EIO else mret tt) m)) = policy_errno a m /\
  policy_errno a m <> 0.
Proof.
  unfold policy_errno. destruct (a =? 0); [done|]. step. cbn [errno gets fst snd].
  destruct (Z.eqb_spec (m_errno m) 0); done.
Qed.

(** The stored copy, field by field. *)
Lemma owned_objects_copy d dups : length (d_objects d) = 4%nat -> (length dups <= 4)%nat ->
  kept_copy d (with_objects (owned_objects d dups) d) dups.
Proof.
  intros Hl Hd. exists (owned_objects d dups). split; [done|]. split; [apply owned_objects_sizes|].
  unfold owned_objects. apply list_eq. intros i. rewrite list_lookup_fmap, list_lookup_imap.
  destruct (decide (i < 4)%nat) as [Hi|Hi].
  - destruct (lookup_lt_is_Some_2 (d_objects d) i) as [o Ho]; [lia|]. rewrite Ho. cbn.
    destruct (decide (i < length dups)%nat).
    + destruct (lookup_lt_is_Some_2 dups i) as [x Hx]; [done|]. rewrite lookup_app_l by done. by rewrite Hx.
    + rewrite (lookup_ge_None_2 dups) by lia. rewrite lookup_app_r by lia. cbn. symmetry.
      apply lookup_replicate. split; [done|lia].
  - rewrite (lookup_ge_None_2 (d_objects d)) by lia. cbn. symmetry. apply lookup_ge_None_2.
    rewrite length_app, length_replicate. lia.
Qed.

Lemma register_post t0 M r d m :
  descriptor_typed d ->
  registry_wf r -> refines r M -> installed t0 (m_fds m) (owned_fds r) ->
  op_post m t0 M (OpRegister d) [] (advc_dmabuf_registry_register allowed r d m).
Proof.
  intros Hd Hw HM Hi. unfold advc_dmabuf_registry_register. step. rewrite validate_desc.
  destruct (descriptor_ok (m_fds m) d) eqn:Eok; cbn [fst snd Z.ltb Z.compare].
  2:{ eapply op_post_fail; try done. by constructor. }
  assert (M !! d_buffer_id d = lookup_entry r (d_buffer_id d)) as Hl by apply HM.
  unfold lookup_entry in Hl. case_bool_decide as Hex.
  { eapply op_post_fail; try done. constructor; [done|]. rewrite Hl. by apply fmap_is_Some. }
  apply eq_None_not_Some in Hex. rewrite Hex in Hl. cbn in Hl.
  pose proof (refines_size r M Hw HM) as Hsz.
  destruct (Z.leb_spec ADVC_MAX_REGISTERED_DMABUFS (reg_registered_count r)) as [Hge|Hlt].
  { eapply op_post_fail; try done. constructor; try done. lia. }
  step. specialize (Hallowed d m). destruct (allowed d m) as [a m1] eqn:Hal. cbn [fst snd] in *.
  destruct (Z.leb_spec a 0) as [Hle|Hgt].
  { step. destruct (refusal_errno a m1) as (Hf & He & Hne). eapply op_post_fail; try done.
    - by rewrite Hf, Hallowed.
    - by rewrite He.
    - rewrite He. pose proof (RsRegisterPolicy m (m_fds m1) M d) as Hs. rewrite Hal in Hs. cbn [fst snd] in Hs.
      rewrite Hf. apply Hs; try done. lia. }
  destruct (free_entry_exists r Hw Hlt) as (i & e & -> & He & Hu).
  pose proof (proj1 (descriptor_ok_spec _ _ Hd) Eok) as Hsp.
  pose proof (declared_fds_valid _ _ Hd Hsp) as [_ Hval].
  assert (length (d_objects d) = 4%nat) as L by (by destruct Hd as (_&_&_&_&_&_&_&_&_&_&_&_&_&_&_&_&_&_&L&_)).
  pose proof (ds_counts _ _ Hsp) as [Hoc _].
  pose proof (declared_fds_length d Hd ltac:(lia)) as Hdl.
  assert (duplicates (m_fds m1) (m_fds m1) [] []) as Hd0 by (split; [apply installed_nil|constructor]).
  pose proof (dup_fds_files (m_fds m1) (declared_fds d) [] [] m1 Hd0) as Hfiles.
  step. pose proof (dup_fds_spec (m_fds m1) (declared_fds d) [] m1 (installed_nil _)) as Hdup.
  rewrite Hallowed in Hfiles. specialize (Hfiles ltac:(eapply Forall_impl; [exact Hval|by intros ? []])).
  destruct (dup_fds (declared_fds d) [] m1) as [[dups|] m2]; cbn [fst snd app] in *.
  - destruct Hdup as (new & -> & Hlen & Hin & Herr). cbn [app] in *.
    assert (length new = Z.to_nat (d_object_count d)) as Hn by congruence.
    destruct (fill_entry r M i e (with_objects (owned_objects d new) d)) as (Hw' & Hp & HM');
      try done; [apply (ds_id _ _ Hsp)|].
    pose proof (counters_small r Hw) as Hc.
    unfold op_post, add_registered, set_entry. cbn [mret st_ret fst snd reg_entries
      reg_registered_count reg_inflight_count]. rewrite u64_id by wsolve.
    split; [by left|]. split; [done|]. split.
    + rewrite app_nil_r. eapply installed_Permutation; [symmetry; exact Hp|].
      eapply installed_app; [exact Hi|]. rewrite <- Hallowed.
      unfold declared_fds. cbn [d_object_count d_objects with_objects].
      rewrite owned_objects_fds; [done|done|lia|done].
    + eexists. split; [exact HM'|].
      eapply (RsRegister _ _ _ d (with_objects (owned_objects d new) d) new); try done; [lia|by rewrite Hal|].
      apply owned_objects_copy; [done|lia].
  - destruct Hdup as [Hf Herr]. destruct (clear_free r M i e Hw HM He Hu) as (Hw' & Hp & HM').
    unfold op_post. cbn [mret st_ret fst snd]. split; [right; done|]. split; [done|]. split.
    + rewrite app_nil_r, Hf, Hallowed. eapply installed_Permutation; [symmetry; exact Hp|done].
    + exists M. split; [done|]. destruct Hfiles as [Hfe Hfl]. change (outcome _) with (m_errno m2). rewrite Hfe.
      apply RsRegisterNoRoom; try done; [lia|by rewrite Hal|]. rewrite Hal. cbn [snd].
      unfold zlen in Hfl. rewrite Hdl in Hfl. lia.
Qed.

End Register.

(** Destroying closes the owned descriptors, and only them. *)
Lemma destroy_fds t0 r m :
  installed t0 (m_fds m) (owned_fds r) ->
  m_fds (snd (advc_dmabuf_registry_destroy (Some r) m)) = t0.
Proof.
  cbn. unfold owned_fds. revert m. induction (reg_entries r) as [|e l IH]; intros m Hi.
  - cbn in *. destruct Hi as (_ & _ & K). apply map_eq. intros k. apply K, not_elem_of_nil.
  - cbn [foldr]. rewrite bind_seq. apply IH. cbn [fmap list_fmap concat] in Hi.
    eapply installed_Permutation in Hi; [|apply Permutation_app_comm].
    apply installed_app_inv in Hi as (t1 & H1 & H2). unfold entry_fds in H2.
    destruct (e_in_use e).
    + rewrite (close_descriptor_fds t1) by done. done.
    + destruct H2 as (_ & _ & K). assert (m_fds m = t1) as Hm.
      { apply map_eq. intros k. apply K, not_elem_of_nil. }
      cbn. by rewrite Hm.
Qed.

End RegistryOps.

(** ** Decoding untrusted records *)

Section Decode.
Context (p fds : list Z).

(** What the loops keep: lengths, widths, and where descriptors come from. *)
Definition objects_inv (objs : list advc_dmabuf_object) : Prop :=
  length objs = 4%nat /\
  Forall (fun o => is_u64 (o_size o) /\ (o_fd o = -1 \/ o_fd o ∈ fds)) objs.
Definition planes_inv (planes : list advc_dmabuf_plane) : Prop :=
  length planes = 4%nat /\
  Forall (fun pl => is_u32 (p_object_index pl) /\ is_u64 (p_offset pl) /\ is_u32 (p_pitch pl)) planes.

Lemma read_object_inv n c mask objs i x :
  objects_inv objs -> read_object p fds n c (inr (mask, objs)) i = inr x -> objects_inv (snd x).
Proof.
  intros [Hl Hf]. unfold read_object.
  destruct (i <? c).
  - destruct (_ || _); [done|].
    intros [= <-]. cbn. split; [by rewrite length_insert|]. apply Forall_insert; [done|].
    cbn. split; [apply get_u64_range|].
    destruct (fds !! _) eqn:E; cbn; [right; by eapply list_elem_of_lookup_2|by left].
  - destruct (negb _); [done|]. by intros [= <-].
Qed.

Lemma read_objects_inv n c l mask objs x :
  objects_inv objs -> foldl (read_object p fds n c) (inr (mask, objs)) l = inr x ->
  objects_inv (snd x).
Proof.
  revert mask objs. induction l as [|i l IH]; intros mask objs Hi; cbn [foldl].
  - by intros [= <-].
  - destruct (read_object p fds n c (inr (mask, objs)) i) as [bad|[mask' objs']] eqn:E.
    2:{ apply IH. by apply (read_object_inv _ _ _ _ _ _ Hi E). }
    intros H. exfalso. clear IH E. induction l as [|j l IH]; [done|]. by apply IH.
Qed.

Lemma read_plane_inv c planes i x :
  planes_inv planes -> read_plane p c (inr planes) i = inr x -> planes_inv x.
Proof.
  intros [Hl Hf]. unfold read_plane. destruct (i <? c).
  - destruct (_ || _); [done|]. intros [= <-]. split; [by rewrite length_insert|].
    apply Forall_insert; [done|]. cbn. auto using get_u32_range, get_u64_range.
  - destruct (negb _); [done|]. by intros [= <-].
Qed.

Lemma read_planes_inv c l planes x :
  planes_inv planes -> foldl (read_plane p c) (inr planes) l = inr x -> planes_inv x.
Proof.
  revert planes. induction l as [|i l IH]; intros planes Hi; cbn [foldl].
  - by intros [= <-].
  - destruct (read_plane p c (inr planes) i) as [bad|planes'] eqn:E.
    2:{ apply IH. by eapply read_plane_inv. }
    intros H. exfalso. clear IH E. induction l as [|j l IH]; [done|]. by apply IH.
Qed.

Lemma read_registration_inv n d : read_registration p fds n = inr d ->
  descriptor_typed d /\ d_object_count d = n /\
  Forall (fun o => o_fd o = -1 \/ o_fd o ∈ fds) (d_objects d).
Proof.
  unfold read_registration. destruct (_ || _) eqn:E; [done|].
  destruct (foldl (read_object _ _ _ _) _ _) as [|[mask objs]] eqn:Eo; cbn; [done|].
  destruct (foldl (read_plane _ _) _ _) as [|planes] eqn:Ep; cbn; [done|].
  intros [= <-].
  apply read_objects_inv in Eo as [Lo Fo].
  2:{ split; [done|]. apply Forall_replicate. cbn. split; [wsolve|by left]. }
  apply read_planes_inv in Ep as [Lp Fp].
  2:{ split; [done|]. apply (Forall_replicate _ 4 zero_plane). cbn. wsolve. }
  cbn [snd] in *. split; [|split].
  - unfold descriptor_typed. cbn -[advc_get_u32 advc_get_u64].
    repeat split; try (first [apply get_u64_range | apply get_u32_range | done]).
    eapply Forall_impl; [exact Fo|]. by intros ? [].
  - cbn -[advc_get_u32 advc_get_u64] in *. lia.
  - eapply Forall_impl; [exact Fo|]. by intros ? [].
Qed.

End Decode.

Lemma decoded_fds_perm p fds t d : descriptor_spec t d ->
  read_registration p fds (zlen fds) = inr d -> declared_fds d ≡ₚ fds.
Proof.
  intros Hs Hr. apply read_registration_inv in Hr as (Hd & Hc & Hf).
  pose proof (ds_counts _ _ Hs) as [Hc4 _].
  destruct (declared_fds_valid t d Hd Hs) as [Hnd Hopen].
  apply submseteq_length_Permutation.
  - apply NoDup_submseteq; [done|]. intros x Hx.
    pose proof (proj1 (Forall_forall _ _) Hopen x Hx) as [Hx0 _].
    apply list_elem_of_fmap in Hx as (o & -> & Ho).
    apply elem_of_take in Ho as (i & Hi & _). apply list_elem_of_lookup_2 in Hi.
    destruct (proj1 (Forall_forall _ _) Hf o Hi) as [Hx|]; [lia|done].
  - rewrite declared_fds_length by (done || lia). unfold zlen in Hc. lia.
Qed.

(** ** Histories of registry calls *)

Section Histories.
Context {B : Type} (allowed : advc_dmabuf_descriptor -> St (machine B) Z).
Implicit Types m : machine B.

(** A history of calls; the acquire fences handed to the caller are collected. *)
Fixpoint run_ops (ops : list reg_op) (r : advc_dmabuf_registry)
  : St (machine B) (list Z * advc_dmabuf_registry) :=
  match ops with
  | [] => mret ([], r)
  | OpBegin s :: ops =>
      x ← advc_dmabuf_registry_begin r s zero_job;
      y ← run_ops ops (fst (snd x));
      mret (job_fds (snd (snd x)) ++ fst y, snd y)
  | op :: ops => x ← run_op allowed op r; run_ops ops (snd x)
  end.

Definition op_typed (op : reg_op) : Prop :=
  match op with OpRegister d => descriptor_typed d | _ => True end.

Context (Hallowed : forall d m, m_fds (snd (allowed d m)) = m_fds m).

Lemma run_ops_owned ops r M m t0 :
  Forall op_typed ops ->
  registry_wf r -> refines r M -> installed t0 (m_fds m) (owned_fds r) ->
  let y := run_ops ops r m in
  registry_wf (snd (fst y)) /\
  installed t0 (m_fds (snd y)) (fst (fst y) ++ owned_fds (snd (fst y))).
Proof.
  intros Hty. revert r M m t0. induction Hty as [|op ops Hop Hty IH]; intros r M m t0 Hw HM Hi.
  { done. }
  assert (forall x, op_post allowed m t0 M op [] x -> 
    let y := run_ops ops (snd (fst x)) (snd x) in
    registry_wf (snd (fst y)) /\
    installed t0 (m_fds (snd y)) (fst (fst y) ++ owned_fds (snd (fst y)))) as Hsimple.
  { intros x (_ & Hw' & Hi' & M' & HM' & _). rewrite app_nil_r in Hi'. by eapply IH. }
  destruct op as [d|id|s|id]; cbn [run_ops run_op]; step.
  - apply Hsimple. by apply register_post.
  - apply Hsimple. by apply unregister_post.
  - destruct (begin_post allowed t0 M r s m Hw HM Hi) as [(_ & Hw' & Hi' & M' & HM' & _) _].
    destruct (advc_dmabuf_registry_begin r s zero_job m) as [[c [r' job]] m']. cbn [fst snd] in *.
    eapply installed_Permutation in Hi'; [|apply Permutation_app_comm].
    apply installed_app_inv in Hi' as (t1 & H1 & H2).
    destruct (IH r' M' m' t1 Hw' HM' H2) as [Hw'' Hi'']. cbn [mret st_ret fst snd].
    split; [done|]. rewrite <- app_assoc. by eapply installed_app.
  - apply Hsimple. by apply finish_post.
Qed.

(** A valid descriptor can be duplicated when the table has room. *)
Lemma dup_fds_succeeds t todo done_ m :
  Forall (fun fd => is_Some (m_fds m !! fd)) todo ->
  installed t (m_fds m) done_ ->
  Z.of_nat (size (m_fds m)) + zlen todo <= m_limit m ->
  is_Some (fst (dup_fds todo done_ m)).
Proof.
  revert done_ m. induction todo as [|fd todo IH]; intros done_ m Hop Hi Hroom; [by eexists|].
  apply Forall_cons in Hop as [[f Hf] Hop]. cbn [dup_fds]. step.
  pose proof (lowest_free_le_size (m_fds m)) as Hle.
  pose proof (lowest_free_spec (m_fds m)) as [Hnn Hfresh].
  unfold fcntl_dupfd_cloexec, install_fd. rewrite Hf. unfold zlen in Hroom. cbn [length] in Hroom.
  destruct (Z.leb_spec (m_limit m) (lowest_free (m_fds m))); [lia|]. cbn [fst snd].
  destruct (Z.ltb_spec (lowest_free (m_fds m)) 0); [lia|]. apply IH; cbn.
  - eapply Forall_impl; [exact Hop|]. intros k Hk. cbn.
    destruct (decide (k = lowest_free (m_fds m))) as [->|]; [by rewrite lookup_insert_eq|].
    by rewrite lookup_insert_ne.
  - eapply installed_app; [exact Hi|apply installed_one].
  - rewrite map_size_insert_None by done. unfold zlen. lia.
Qed.

End Histories.

(** ** Properties *)

(** A typed sample: one object of 64 KiB holding a luma and a chroma plane. *)
Definition sample_descriptor : advc_dmabuf_descriptor :=
  Desc 7 128 64 842094158 ADVC_DMABUF_EXPLICIT_ALL 0 0 0 128 64 1 2 2 3 3 2 1 1
    (Obj 5 65536 :: replicate 3 (Obj (-1) 0))
    ([Plane 0 0 128; Plane 0 8192 128] ++ replicate 2 zero_plane).
Definition sample_table : gmap Z fd_info :=
  <[5 := FdInfo true KOther]> (<[6 := FdInfo true KSyncFile]> ∅).
Definition sample_process : machine unit := Machine tt sample_table 64 0 [] [] [] [] [].
Definition empty_registry : advc_dmabuf_registry := Registry (replicate 16 zero_entry) 0 0.

Lemma sample_typed : descriptor_typed sample_descriptor.
Proof.
  unfold descriptor_typed. split_and!; try done;
    repeat (apply Forall_cons; split); try apply Forall_nil; done.
Qed.
Lemma sample_ok : descriptor_ok sample_table sample_descriptor = true.
Proof. by vm_compute. Qed.

Section Claims.
Context {B : Type}.
Implicit Types m : machine B.

(** A registration record written by the client and read by the broker
    gives back the same descriptor: encoding a valid descriptor succeeds, and
    decoding its 256 bytes with the descriptors it lists returns it unchanged. *)
Theorem registration_roundtrip m d d0 payload fds n :
  descriptor_typed d -> ADVC_REGISTER_DMABUF_SIZE <= zlen payload ->
  descriptor_ok (m_fds m) d = true ->
  exists payload' fds' n',
    advc_dmabuf_registration_encode payload d fds n m = ((0, (payload', fds', n')), m) /\
    zlen payload' = zlen payload /\ n' = d_object_count d /\
    advc_dmabuf_registration_decode payload' ADVC_REGISTER_DMABUF_SIZE fds' n' d0 m = ((0, d), m).
Proof.
  intros Hd Hp Hok. pose proof (proj1 (descriptor_ok_spec _ _ Hd) Hok) as Hs.
  destruct (ds_counts _ _ Hs) as [Hoc Hpc].
  unfold advc_dmabuf_registration_encode. step. rewrite validate_desc, Hok. cbn [fst snd Z.ltb Z.compare].
  do 3 eexists. split; [reflexivity|]. split; [|split].
  - apply write_registration_len; lia.
  - apply u16_id. wsolve.
  - unfold advc_dmabuf_registration_decode. rewrite Z.eqb_refl, u16_id by wsolve. consts.
    destruct (Z.ltb_spec 4 (d_object_count d)); [lia|]. cbn [negb orb].
    rewrite read_write_registration; try done; [|apply (ds_unused_object _ _ Hs)|apply (ds_unused_plane _ _ Hs)].
    step. by rewrite validate_desc, Hok.
Qed.

(** C38. Validation is exact: [advc_dmabuf_descriptor_validate] accepts a
    descriptor if and only if, in unbounded arithmetic, its crop lies in the
    picture, its objects are distinct open close-on-exec descriptors of at most
    1 GiB, the first row of every plane lies inside its object, and the unused
    tail of both tables is clear.  Otherwise it fails with [EINVAL]; nothing
    else changes. *)
Theorem descriptor_validate_exact m d : descriptor_typed d ->
  (descriptor_spec (m_fds m) d /\ advc_dmabuf_descriptor_validate d m = (0, m)) \/
  (~ descriptor_spec (m_fds m) d /\
   advc_dmabuf_descriptor_validate d m = (-1, set_errno EINVAL m)).
Proof.
  intros Hd. rewrite validate_desc. destruct (descriptor_ok (m_fds m) d) eqn:E.
  - left. split; [by apply descriptor_ok_spec|done].
  - right. split; [|done]. intros Hs%descriptor_ok_spec; [congruence|done].
Qed.

(** Decoding untrusted bytes is safe: for every payload and every list of
    received descriptors, [advc_dmabuf_registration_decode] either fails with
    [EINVAL], or returns a descriptor that satisfies the validated contract and
    declares exactly the received descriptors, each once.  No descriptor is
    opened or closed. *)
Theorem registration_decode_safe m payload payload_size fds d0 :
  let x := advc_dmabuf_registration_decode payload payload_size fds (zlen fds) d0 m in
  (fst (fst x) = -1 /\ snd x = set_errno EINVAL m) \/
  (fst (fst x) = 0 /\ snd x = m /\ payload_size = ADVC_REGISTER_DMABUF_SIZE /\
   descriptor_spec (m_fds m) (snd (fst x)) /\ declared_fds (snd (fst x)) ≡ₚ fds).
Proof.
  cbn zeta. unfold advc_dmabuf_registration_decode. destruct (_ || _) eqn:E; [by left|].
  destruct (read_registration payload fds (zlen fds)) as [bad|d] eqn:Er; [by left|].
  destruct (read_registration_inv _ _ _ _ Er) as [Hd _].
  step. rewrite validate_desc. destruct (descriptor_ok (m_fds m) d) eqn:Eo; [|by left].
  right. cbn. split; [done|]. split; [done|]. split; [lia|].
  apply (descriptor_ok_spec _ _ Hd) in Eo. split; [done|]. by eapply decoded_fds_perm.
Qed.

(** C12. The registry implements its abstract map.  From a well-formed registry
    that represents the map [M], every call (register, unregister, begin,
    finish, with any argument) ends in a well-formed registry that represents
    the map [reg_spec] prescribes, with the prescribed result or [errno]: which
    requests are refused, in which order the checks are made, what the policy
    callback's answer decides, and that the kept copy of a descriptor has all its
    fields and duplicates of its files.  A successful [begin] yields the job of
    that buffer with a duplicate of the fence. *)
Theorem registry_refines allowed m op r M :
  (forall d m', m_fds (snd (allowed d m')) = m_fds m') -> op_typed op ->
  registry_wf r -> refines r M ->
  (exists t0, installed t0 (m_fds m) (owned_fds r)) ->
  let x := run_op (B := B) allowed op r m in
  (fst (fst x) = 0 \/ fst (fst x) = -1 /\ m_errno (snd x) <> 0) /\
  registry_wf (snd (fst x)) /\
  (exists M', refines (snd (fst x)) M' /\ reg_spec allowed m (m_fds (snd x)) M op (outcome x) M') /\
  (forall s, op = OpBegin s -> fst (fst x) = 0 ->
     begun_job m (m_fds (snd x)) M s (snd (snd (fst (advc_dmabuf_registry_begin r s zero_job m))))).
Proof.
  intros Ha Hop Hw HM [t0 Hi]. cbn zeta.
  destruct op as [d|id|s|id]; cbn [run_op].
  - destruct (register_post allowed Ha t0 M r d m Hop Hw HM Hi) as (? & ? & _ & ?). by split_and!.
  - destruct (unregister_post allowed t0 M r id m Hw HM Hi) as (? & ? & _ & ?). by split_and!.
  - step. destruct (begin_post allowed t0 M r s m Hw HM Hi) as [(? & ? & _ & ?) Hjob].
    split_and!; [done|done|done|]. intros s' [= <-]. exact Hjob.
  - destruct (finish_post allowed t0 M r id m Hw HM Hi) as (? & ? & _ & ?). by split_and!.
Qed.

(** C20. No descriptor leaks.  Create a registry, make any history of calls and
    destroy it: the process's descriptor table is what it was before, plus
    exactly the acquire fences that successful [begin] calls handed out. *)
Theorem registry_no_leak allowed m ops :
  (forall d m', m_fds (snd (allowed d m')) = m_fds m') -> Forall op_typed ops ->
  let y := run_ops (B := B) allowed ops empty_registry m in
  installed (m_fds m)
    (m_fds (snd (advc_dmabuf_registry_destroy (Some (snd (fst y))) (snd y)))) (fst (fst y)).
Proof.
  intros Ha Hops. cbn zeta.
  destruct (run_ops_owned allowed Ha ops empty_registry ∅ m (m_fds m) Hops) as [_ Hi].
  - apply registry_create_wf.
  - intros id. rewrite lookup_empty. symmetry. unfold lookup_entry, find_entry. reflexivity.
  - apply installed_nil.
  - apply installed_app_inv in Hi as (t1 & H1 & H2). by rewrite (destroy_fds t1).
Qed.

(** A valid request is served: with a valid descriptor under a fresh
    identifier, an admitting callback, fewer than 16 registrations and room in
    the descriptor table, [advc_dmabuf_registry_register] succeeds and the
    buffer becomes visible, idle, with its own descriptors. *)
Theorem register_succeeds allowed m r d :
  descriptor_typed d -> registry_wf r -> descriptor_ok (m_fds m) d = true ->
  lookup_entry r (d_buffer_id d) = None ->
  reg_registered_count r < ADVC_MAX_REGISTERED_DMABUFS ->
  (exists a, 0 < a /\ allowed d m = (a, m)) ->
  Z.of_nat (size (m_fds m)) + d_object_count d <= m_limit m ->
  let x := advc_dmabuf_registry_register allowed r d m in
  fst (fst x) = 0 /\
  exists dups, length dups = Z.to_nat (d_object_count d) /\
    installed (m_fds m) (m_fds (snd x)) dups /\
    lookup_entry (snd (fst x)) (d_buffer_id d) =
      Some (with_objects (owned_objects d dups) d, false).
Proof.
  intros Hd Hw Hok Hnone Hroom (a & Ha & Hal) Hlim. cbn zeta.
  pose proof (proj1 (descriptor_ok_spec _ _ Hd) Hok) as Hs. destruct (ds_counts _ _ Hs) as [Hoc _].
  unfold advc_dmabuf_registry_register. step. rewrite validate_desc, Hok. cbn [fst snd Z.ltb Z.compare].
  unfold lookup_entry in Hnone. apply fmap_None in Hnone.
  rewrite bool_decide_eq_false_2 by (rewrite Hnone; by intros [? ?]).
  destruct (Z.leb_spec ADVC_MAX_REGISTERED_DMABUFS (reg_registered_count r)); [lia|].
  step. rewrite Hal. cbn [fst snd]. destruct (Z.leb_spec a 0); [lia|].
  destruct (free_entry_exists r Hw Hroom) as (i & e & -> & He & Hu). step.
  destruct (dup_fds_succeeds (m_fds m) (declared_fds d) [] m) as [dups Hdup].
  { eapply Forall_impl; [apply (declared_fds_valid _ _ Hd Hs)|]. by intros ? []. }
  { apply installed_nil. }
  { unfold zlen. rewrite declared_fds_length by (done || lia). lia. }
  pose proof (dup_fds_spec (m_fds m) (declared_fds d) [] m (installed_nil _)) as Hspec.
  rewrite Hdup in *. destruct Hspec as (new & -> & Hlen & Hin & _). cbn [app] in *.
  split; [done|]. exists new. rewrite declared_fds_length in Hlen by (done || lia).
  split; [done|]. split; [exact Hin|]. cbn [mret st_ret fst snd].
  unfold lookup_entry, find_entry, add_registered, set_entry.
  assert (i < length (reg_entries r))%nat as Hlt by (by eapply lookup_lt_Some).
  destruct (find_idx_exists (fun e => e_in_use e && (d_buffer_id (e_descriptor e) =? d_buffer_id d))
    (<[i := Entry (with_objects (owned_objects d new) d) false true]> (reg_entries r)) i
    (Entry (with_objects (owned_objects d new) d) false true)) as [k Hk].
  { by apply list_lookup_insert_eq. }
  { cbn. by rewrite Z.eqb_refl. }
  cbn [reg_entries]. rewrite Hk. cbn. unfold entry_at. cbn [reg_entries].
  apply find_idx_Some in Hk as (e' & He' & Hf & _). rewrite He'. cbn.
  apply list_lookup_insert_Some in He' as [(_ & <- & _)|[_ He']]; [done|].
  exfalso. by rewrite (find_idx_None _ _ Hnone k e' He') in Hf.
Qed.

(** Closing [f 0], [f 1], ... in order, skipping numbers seen before. *)
Definition close_new (f : Z -> Z) (l : list Z) : St (machine B) unit :=
  foldr (fun i k => (if existsb (fun j => f j =? f i) (seqZ 0 i) then mret tt
                     else close_if_open (f i)) ;; k) (mret tt) l.

Lemma close_new_app f l1 l2 m :
  snd (close_new f (l1 ++ l2) m) = snd (close_new f l2 (snd (close_new f l1 m))).
Proof.
  revert m. induction l1 as [|x l1 IH]; intros m; [done|]. cbn. rewrite !bind_seq. apply IH.
Qed.

Lemma close_new_spec f (n : nat) m :
  (forall i, 0 <= i < Z.of_nat n -> 0 <= f i -> is_Some (m_fds m !! f i)) ->
  let m' := snd (close_new f (seqZ 0 (Z.of_nat n)) m) in
  m_errno m' = m_errno m /\
  forall fd, m_fds m' !! fd =
    if decide (0 <= fd /\ fd ∈ f <$> seqZ 0 (Z.of_nat n)) then None else m_fds m !! fd.
Proof.
  induction n as [|n IH]; intros Hopen; cbn zeta.
  { split; [done|]. intros fd. rewrite decide_False; [done|]. cbn. set_solver. }
  destruct IH as [He Ht]; [intros; apply Hopen; lia|].
  rewrite seqZ_S, close_new_app, Z.add_0_l, fmap_app.
  set (m1 := snd (close_new f (seqZ 0 (Z.of_nat n)) m)) in *. set (seen := f <$> seqZ 0 (Z.of_nat n)) in *.
  cbn [close_new foldr]. rewrite bind_seq. cbn [snd mret st_ret fst fmap list_fmap].
  assert (existsb (fun j => f j =? f (Z.of_nat n)) (seqZ 0 (Z.of_nat n)) = true <->
          f (Z.of_nat n) ∈ seen) as Hseen.
  { rewrite existsb_exists. unfold seen. rewrite list_elem_of_fmap. split.
    - intros (j & Hj%list_elem_of_In & Heq%Z.eqb_eq). eauto.
    - intros (j & Heq & Hj). exists j. rewrite <- list_elem_of_In. split; [done|].
      by apply Z.eqb_eq. }
  destruct (existsb _ _).
  { split; [done|]. intros fd. cbn. rewrite Ht. apply decide_ext. set_solver. }
  assert (f (Z.of_nat n) ∉ seen) as Hnew by (intros H; by apply Hseen in H).
  unfold close_if_open. destruct (Z.leb_spec 0 (f (Z.of_nat n))) as [Hnn|Hneg].
  - destruct (Hopen (Z.of_nat n)) as [x Hx]; [lia|done|].
    assert (m_fds m1 !! f (Z.of_nat n) = Some x) as Hx1 by (rewrite Ht, decide_False; [done|tauto]).
    rewrite (close_open_fds _ _ _ Hx1). cbn. split; [done|]. intros fd.
    destruct (decide (fd = f (Z.of_nat n))) as [->|Hne].
    + rewrite lookup_delete_eq, decide_True; [done|]. set_solver.
    + rewrite lookup_delete_ne by done. rewrite Ht. apply decide_ext. set_solver.
  - cbn. split; [done|]. intros fd. rewrite Ht. apply decide_ext.
    split; [set_solver|]. intros [H0 [H1|H1%list_elem_of_singleton]%elem_of_app]; [done|lia].
Qed.

Lemma descriptor_close_spec m d :
  descriptor_typed d ->
  Forall (fun fd => 0 <= fd -> is_Some (m_fds m !! fd)) (declared_fds d) ->
  let x := advc_dmabuf_descriptor_close d m in
  m_errno (snd x) = m_errno m /\
  (forall fd, m_fds (snd x) !! fd =
    if decide (0 <= fd /\ fd ∈ declared_fds d) then None else m_fds m !! fd) /\
  Forall (fun o => o_fd o = -1) (d_objects (fst x)) /\ d_object_count (fst x) = 0.
Proof.
  intros Hd Hopen. cbn zeta. unfold advc_dmabuf_descriptor_close.
  set (n := Z.min (d_object_count d) ADVC_MAX_DMABUF_OBJECTS).
  assert (0 <= n <= 4) as Hn.
  { destruct Hd as (_&_&_&_&_&_&_&_&_&_&Hc&_). unfold n, is_u32 in *. consts. lia. }
  assert ((fun i => o_fd (object_at d i)) <$> seqZ 0 n = declared_fds d) as Hl.
  { destruct Hd as (_&_&_&_&_&_&_&_&_&_&_&_&_&_&_&_&_&_&L&_).
    unfold declared_fds, object_at, n. consts.
    destruct (d_objects d) as [|o0 [|o1 [|o2 [|o3 [|]]]]]; try done.
    assert (take (Z.to_nat (d_object_count d)) [o0; o1; o2; o3] = take (Z.to_nat n) [o0; o1; o2; o3]) as ->.
    { unfold n. consts. destruct (Z.le_gt_cases (d_object_count d) 4).
      - by rewrite Z.min_l by lia.
      - rewrite Z.min_r by lia. by rewrite !take_ge by (cbn; lia). }
    fold n. clearbody n.
    assert (n = 0 \/ n = 1 \/ n = 2 \/ n = 3 \/ n = 4) as Hcase by lia.
    by destruct Hcase as [->|[->|[->|[->| ->]]]]. }
  rewrite bind_seq.
  change (foldr _ _ (seqZ 0 n)) with (close_new (fun i => o_fd (object_at d i)) (seqZ 0 n)).
  rewrite <- (Z2Nat.id n) by lia.
  destruct (close_new_spec (fun i => o_fd (object_at d i)) (Z.to_nat n) m) as [He Ht].
  { intros i Hi. rewrite Forall_forall in Hopen. apply Hopen. rewrite <- Hl.
    apply list_elem_of_fmap. exists i. split; [done|]. apply elem_of_seqZ. lia. }
  rewrite Z2Nat.id in * by lia. rewrite Hl in Ht.
  cbn [mret st_ret fst snd]. split; [done|]. split; [done|]. split; [|done].
  by apply Forall_replicate.
Qed.

End Claims.

(** ** Witnesses *)

Lemma registration_roundtrip_witness :
  exists payload' fds' n',
    advc_dmabuf_registration_encode (replicate 256 255) sample_descriptor [] 0 sample_process =
      ((0, (payload', fds', n')), sample_process) /\
    zlen payload' = zlen (replicate 256 255) /\ n' = d_object_count sample_descriptor /\
    advc_dmabuf_registration_decode payload' ADVC_REGISTER_DMABUF_SIZE fds' n' zero_descriptor sample_process =
      ((0, sample_descriptor), sample_process).
Proof.
  apply (registration_roundtrip sample_process sample_descriptor zero_descriptor (replicate 256 255) [] 0).
  - apply sample_typed.
  - vm_compute. discriminate.
  - reflexivity.
Defined.

Lemma descriptor_validate_exact_witness :
  descriptor_spec sample_table sample_descriptor /\
  advc_dmabuf_descriptor_validate sample_descriptor sample_process = (0, sample_process).
Proof.
  destruct (descriptor_validate_exact sample_process sample_descriptor sample_typed) as [H|[_ H]].
  - exact H.
  - vm_compute in H. discriminate H.
Defined.

Definition admit_all {B} (d : advc_dmabuf_descriptor) : St (machine B) Z := mret 1.
Definition sample_ops : list reg_op :=
  [OpRegister sample_descriptor; OpBegin (Submission 7 40 6); OpUnregister 7; OpFinish 7;
   OpRegister sample_descriptor].

(** A policy that rejects by its own errno. *)
Definition reject {B} (d : advc_dmabuf_descriptor) : St (machine B) Z := errno_is EPERM ;; mret (-1).

Lemma registry_refines_witness :
  let x := run_op reject (OpRegister sample_descriptor) empty_registry sample_process in
  outcome x = EPERM /\
  exists M', refines (snd (fst x)) M' /\
    reg_spec reject sample_process (m_fds (snd x)) ∅ (OpRegister sample_descriptor) (outcome x) M'.
Proof.
  cbn zeta. split; [vm_compute; reflexivity|].
  destruct (registry_refines reject sample_process (OpRegister sample_descriptor) empty_registry ∅)
    as (_ & _ & H & _).
  - reflexivity.
  - apply sample_typed.
  - apply registry_create_wf.
  - intros id. rewrite lookup_empty. reflexivity.
  - exists sample_table. apply installed_nil.
  - exact H.
Defined.

Lemma registry_no_leak_witness :
  installed sample_table
    (m_fds (snd (advc_dmabuf_registry_destroy
       (Some (snd (fst (run_ops admit_all sample_ops empty_registry sample_process))))
       (snd (run_ops admit_all sample_ops empty_registry sample_process))))) [1].
Proof.
  apply (registry_no_leak admit_all sample_process sample_ops).
  - reflexivity.
  - repeat (apply Forall_cons; split); try apply sample_typed; try exact I. apply Forall_nil, I.
Defined.

Lemma register_succeeds_witness :
  fst (fst (advc_dmabuf_registry_register admit_all empty_registry sample_descriptor sample_process)) = 0.
Proof.
  apply (register_succeeds admit_all sample_process empty_registry sample_descriptor).
  - apply sample_typed.
  - apply registry_create_wf.
  - reflexivity.
  - reflexivity.
  - reflexivity.
  - exists 1. split; [lia|reflexivity].
  - vm_compute. discriminate.
Defined.

