(* ===== verification/Engine.v ===== *)
(** * The session engine (src/src/video_bridge/src/session_engine.c)

    Up to four codec sessions behind one connection.  A session keeps eight
    output slots, one pending AHardwareBuffer handshake and, for dma-buf
    sessions, a registry with four completion slots.  Slots are the elements of
    fixed-length lists; a handler takes the session it works on and returns it
    with the status and the reply, and [advc_session_engine_handle] stores it
    back.  The codec backend is the record of callbacks [advc_backend_ops], a
    parameter of every definition that calls it; pointers it hands out (handles,
    native buffers) are integers with 0 for NULL. *)

From stdpp Require Import base list gmap.
From Stdlib Require Import ZArith Lia Bool.
From Stdlib Require Ascii.
From Stdlib Require Import String.
#[local] Notation length := List.length.
From S2P Require Import Prelude Kernel Protocol Dmabuf.

(** ** Constants *)

Definition ADVC_MAX_SESSIONS : Z := 4.
Definition ADVC_MAX_OUTSTANDING_OUTPUTS : Z := 8.
Definition ADVC_MAX_MIME : Z := 64.
Definition ADVC_MAX_ENCODE_BITRATE : Z := 200000000.

Definition ADVC_STATUS_SIZE : Z := 8.
Definition ADVC_CREATE_SIZE : Z := 100.
Definition ADVC_QUEUE_INPUT_SIZE : Z := 48.
Definition ADVC_OUTPUT_READY_SIZE : Z := 112.
Definition ADVC_OUTPUT_BYTES_SIZE : Z := 136.
Definition ADVC_RELEASE_OUTPUT_SIZE : Z := 16.
Definition ADVC_TRANSFER_AHB_SIZE : Z := 8.
Definition ADVC_QUEUE_AHB_SIZE : Z := 48.
Definition ADVC_COMPLETE_AHB_SIZE : Z := 16.
Definition ADVC_COMPLETE_DMABUF_REQUEST_SIZE : Z := 8.
Definition ADVC_TRANSFER_PRIME_SIZE : Z := 8.
Definition ADVC_TRANSFER_PRIME_REPLY_SIZE : Z := ADVC_STATUS_SIZE + ADVC_REGISTER_DMABUF_SIZE.

Definition ADVC_ENCODE_PROFILE_NONE : Z := 0.
Definition ADVC_ENCODE_PROFILE_H264_CONSTRAINED_BASELINE : Z := 1.
Definition ADVC_ENCODE_PROFILE_H264_MAIN : Z := 2.
Definition ADVC_ENCODE_PROFILE_H264_HIGH : Z := 3.
Definition ADVC_ENCODE_PROFILE_HEVC_MAIN : Z := 4.
Definition ADVC_COLOR_FORMAT_YUV420_PLANAR : Z := 19.
Definition ADVC_COLOR_FORMAT_YUV420_SEMIPLANAR : Z := 21.
Definition ADVC_BACKEND_AHB_FATAL_TRANSPORT : Z := UINT32_MAX.

(** ** Data *)

Record advc_backend_config := Config {
  cfg_direction : Z; cfg_mime : list Z; cfg_width : Z; cfg_height : Z; cfg_bitrate : Z;
  cfg_framerate_milli : Z; cfg_color_format : Z; cfg_transport : Z; cfg_encode_profile : Z;
  cfg_flags : Z }.

(** [bo_data = None] is a NULL data pointer. *)
Record advc_backend_output := Output {
  bo_data : option (list Z); bo_size : Z; bo_pts_ns : Z; bo_flags : Z; bo_width : Z;
  bo_height : Z; bo_android_format : Z; bo_stride : Z; bo_layers : Z; bo_usage : Z;
  bo_slice_height : Z; bo_crop_left : Z; bo_crop_top : Z; bo_crop_right : Z;
  bo_crop_bottom : Z; bo_token : Z; bo_native_buffer : Z; bo_acquire_fence_fd : Z;
  bo_transport : Z }.

Record advc_backend_ahb_input := AhbInput {
  ai_pts_ns : Z; ai_width : Z; ai_height : Z; ai_format : Z; ai_layers : Z; ai_usage : Z;
  ai_acquire_fence_fd : Z }.
(** [memset] to zero, then [acquire_fence_fd = -1]. *)
Definition no_ahb_input : advc_backend_ahb_input := AhbInput 0 0 0 0 0 0 (-1).

Record advc_ahb_public_metadata := Metadata {
  am_width : Z; am_height : Z; am_android_format : Z; am_stride : Z; am_layers : Z;
  am_usage : Z; am_crop_left : Z; am_crop_top : Z; am_crop_width : Z; am_crop_height : Z }.
Definition zero_metadata : advc_ahb_public_metadata := Metadata 0 0 0 0 0 0 0 0 0 0.

Record advc_output_slot := OutSlot {
  out_id : Z; out_backend_token : Z; out_native_buffer : Z;
  out_prime_metadata : advc_ahb_public_metadata; out_transport : Z;
  out_transferred : bool; out_prime_transferred : bool; out_in_use : bool }.
Definition zero_output : advc_output_slot := OutSlot 0 0 0 zero_metadata 0 false false false.

Record advc_dmabuf_completion_slot := Completion {
  co_buffer_id : Z; co_status : Z; co_detail : Z; co_release_fence_fd : Z; co_in_use : bool }.
(** [memset] to zero, then [release_fence_fd = -1]. *)
Definition zero_completion : advc_dmabuf_completion_slot := Completion 0 0 0 (-1) false.

Record advc_session_slot := Session {
  s_id : Z;
  s_backend_handle : Z;
  s_outputs : list advc_output_slot;             (* ADVC_MAX_OUTSTANDING_OUTPUTS of them *)
  s_encode_frame_size : Z;
  s_transport : Z;
  s_direction : Z;
  s_pending_ahb : advc_backend_ahb_input;
  s_pending_ahb_status : Z;
  s_pending_ahb_detail : Z;
  s_pending_ahb_release_fence : Z;
  s_pending_ahb_state : Z;                       (* 0 none, 1 await handle, 2 complete *)
  s_dmabufs : option advc_dmabuf_registry;
  s_completions : list advc_dmabuf_completion_slot;  (* ADVC_MAX_INFLIGHT_DMABUFS of them *)
  s_in_use : bool;
}.
(** After [memset]: descriptor fields read 0, not -1. *)
Definition zero_session : advc_session_slot :=
  Session 0 0 (replicate 8 zero_output) 0 0 0 (AhbInput 0 0 0 0 0 0 0) 0 0 0 0 None
    (replicate 4 (Completion 0 0 0 0 false)) false.

Record advc_session_engine := Engine {
  eng_sessions : list advc_session_slot;         (* ADVC_MAX_SESSIONS of them *)
  eng_next_session_id : Z;
  eng_next_output_id : Z;
}.

Definition set_outputs (l : list advc_output_slot) (s : advc_session_slot) : advc_session_slot :=
  Session (s_id s) (s_backend_handle s) l (s_encode_frame_size s) (s_transport s) (s_direction s)
    (s_pending_ahb s) (s_pending_ahb_status s) (s_pending_ahb_detail s)
    (s_pending_ahb_release_fence s) (s_pending_ahb_state s) (s_dmabufs s) (s_completions s)
    (s_in_use s).
Definition set_pending (inp : advc_backend_ahb_input) (status detail fence state : Z)
  (s : advc_session_slot) : advc_session_slot :=
  Session (s_id s) (s_backend_handle s) (s_outputs s) (s_encode_frame_size s) (s_transport s)
    (s_direction s) inp status detail fence state (s_dmabufs s) (s_completions s) (s_in_use s).
Definition set_dmabufs (r : option advc_dmabuf_registry) (l : list advc_dmabuf_completion_slot)
  (s : advc_session_slot) : advc_session_slot :=
  Session (s_id s) (s_backend_handle s) (s_outputs s) (s_encode_frame_size s) (s_transport s)
    (s_direction s) (s_pending_ahb s) (s_pending_ahb_status s) (s_pending_ahb_detail s)
    (s_pending_ahb_release_fence s) (s_pending_ahb_state s) r l (s_in_use s).
Definition set_id (id : Z) (s : advc_session_slot) : advc_session_slot :=
  Session id (s_backend_handle s) (s_outputs s) (s_encode_frame_size s) (s_transport s)
    (s_direction s) (s_pending_ahb s) (s_pending_ahb_status s) (s_pending_ahb_detail s)
    (s_pending_ahb_release_fence s) (s_pending_ahb_state s) (s_dmabufs s) (s_completions s)
    (s_in_use s).
Definition set_sessions (l : list advc_session_slot) (e : advc_session_engine) : advc_session_engine :=
  Engine l (eng_next_session_id e) (eng_next_output_id e).

(** The backend's callbacks.  The six mandatory ones are always there once the
    engine exists; [None] is a NULL optional one. *)
Record advc_backend_ops (B : Type) := Ops {
  ops_create : advc_backend_config -> St (machine B) (Z * Z);
  ops_queue_input : Z -> list Z -> Z -> Z -> Z -> St (machine B) Z;
  ops_dequeue_output : Z -> advc_backend_output -> St (machine B) (Z * advc_backend_output);
  ops_release_output : Z -> Z -> Z -> St (machine B) unit;
  ops_export_decode_prime : option (Z -> Z -> advc_ahb_public_metadata -> Z ->
    advc_dmabuf_descriptor -> St (machine B) (Z * advc_dmabuf_descriptor));
  ops_send_native_buffer : option (Z -> Z -> St (machine B) Z);
  ops_receive_ahb_input : option (Z -> Z -> advc_backend_ahb_input -> St (machine B) (Z * Z));
  ops_dmabuf_format_allowed : option (Z -> advc_dmabuf_descriptor -> St (machine B) Z);
  ops_submit_dmabuf : option (Z -> advc_dmabuf_descriptor -> Z -> Z -> St (machine B) (Z * Z));
  ops_flush : Z -> St (machine B) Z;
  ops_destroy : Z -> St (machine B) unit;
}.
Arguments Ops {B}.
Arguments ops_create {B}.
Arguments ops_queue_input {B}.
Arguments ops_dequeue_output {B}.
Arguments ops_release_output {B}.
Arguments ops_export_decode_prime {B}.
Arguments ops_send_native_buffer {B}.
Arguments ops_receive_ahb_input {B}.
Arguments ops_dmabuf_format_allowed {B}.
Arguments ops_submit_dmabuf {B}.
Arguments ops_flush {B}.
Arguments ops_destroy {B}.

(** ** Pure helpers *)

Definition write_status (reply : advc_message) (status detail : Z) : advc_message :=
  with_header (header_with_payload_size ADVC_STATUS_SIZE (msg_header reply))
    (with_payload (advc_put_u32 (advc_put_u32 (payload_of reply) 0 status) 4 detail) reply).

Definition dmabuf_errno_status (error_number : Z) : Z :=
  if (error_number =? EINVAL) || (error_number =? EBADF) || (error_number =? EEXIST) ||
     (error_number =? ENOENT) || (error_number =? EBUSY) || (error_number =? EALREADY)
  then ADVC_STATUS_BAD_MESSAGE
  else if (error_number =? ENOSPC) || (error_number =? ENOMEM) then ADVC_STATUS_NO_RESOURCE
  else if error_number =? EAGAIN then ADVC_STATUS_WOULD_BLOCK
  else if error_number =? ENOTSUP then ADVC_STATUS_UNSUPPORTED
  else ADVC_STATUS_INTERNAL.

Definition free_dmabuf_completion (s : advc_session_slot) : option nat :=
  find_idx (fun c => negb (co_in_use c)) (s_completions s).
Definition find_dmabuf_completion (s : advc_session_slot) (buffer_id : Z) : option nat :=
  find_idx (fun c => co_in_use c && (co_buffer_id c =? buffer_id)) (s_completions s).
Definition find_session (e : advc_session_engine) (id : Z) : option nat :=
  find_idx (fun s => s_in_use s && (s_id s =? id)) (eng_sessions e).
Definition free_output_slot (s : advc_session_slot) : option nat :=
  find_idx (fun o => negb (out_in_use o)) (s_outputs s).
(** The scan of the output loops: the slot in use with this identifier. *)
Definition find_output (s : advc_session_slot) (id : Z) : option nat :=
  find_idx (fun o => out_in_use o && (out_id o =? id)) (s_outputs s).
Definition output_at (s : advc_session_slot) (i : nat) : advc_output_slot :=
  default zero_output (s_outputs s !! i).
Definition session_at (e : advc_session_engine) (i : nat) : advc_session_slot :=
  default zero_session (eng_sessions e !! i).
Definition completion_at (s : advc_session_slot) (i : nat) : advc_dmabuf_completion_slot :=
  default zero_completion (s_completions s !! i).

(** [for (;;)]: the loop runs at most [fuel] rounds; [None] when they are used
    up.  Six rounds are enough (theorem [allocate_session_id_fresh]). *)
Fixpoint allocate_session_id_loop (fuel : nat) (e : advc_session_engine)
  : option (Z * advc_session_engine) :=
  match fuel with
  | O => None
  | S fuel =>
      let candidate := eng_next_session_id e in
      let e' := Engine (eng_sessions e) (u32 (eng_next_session_id e + 1)) (eng_next_output_id e) in
      if candidate =? 0 then allocate_session_id_loop fuel e'
      else if bool_decide (find_session e' candidate = None) then Some (candidate, e')
      else allocate_session_id_loop fuel e'
  end.
Definition allocate_session_id (e : advc_session_engine) : Z * advc_session_engine :=
  default (0, e) (allocate_session_id_loop 6 e).

Definition allocate_output_id (next : Z) : Z * Z :=
  if next =? 0 then (u64 (next + 1), u64 (u64 (next + 1) + 1)) else (next, u64 (next + 1)).

(** ** Sealed memory files *)

Section Files.
Context {B : Type}.
Implicit Types m : machine B.

(** [write_all_at]: rounds until all bytes are written; [EINTR] retries.  The
    recursion is on fuel; enough of it is the bytes left plus the answers the
    environment still has queued. *)
Fixpoint write_all_loop (fuel : nat) (fd : Z) (data : list Z) (done_ : Z) : St (machine B) Z :=
  match fuel with
  | O => mret (-1)
  | S fuel =>
      if done_ <? zlen data then
        written ← sys_pwrite fd (drop (Z.to_nat done_) data) done_;
        e ← errno;
        if (written <? 0) && (e =? EINTR) then write_all_loop fuel fd data done_
        else if written <=? 0 then mret (-1)
        else write_all_loop fuel fd data (done_ + written)
      else mret 0
  end.
Definition write_all_at (fd : Z) (data : list Z) : St (machine B) Z :=
  io ← gets m_io; write_all_loop (S (length data + length io)) fd data 0.

Definition create_sealed_output (data : list Z) : St (machine B) Z :=
  fd ← sys_memfd_create;
  if fd <? 0 then mret (-1)
  else
    let abandon := saved ← errno; sys_close fd ;; errno_is saved ;; mret (-1) in
    a ← sys_ftruncate fd (zlen data);
    if a <? 0 then abandon
    else
      b ← (if 0 <? zlen data then write_all_at fd data else mret 0);
      if b <? 0 then abandon
      else
        c ← fcntl_add_seals fd
              (Z.lor (Z.lor (Z.lor F_SEAL_SHRINK F_SEAL_GROW) F_SEAL_WRITE) F_SEAL_SEAL);
        if c <? 0 then abandon else mret fd.

Definition input_fd_is_sealed (fd : Z) : St (machine B) bool :=
  seals ← fcntl_get_seals fd;
  let required := Z.lor (Z.lor F_SEAL_SHRINK F_SEAL_GROW) F_SEAL_WRITE in
  mret ((0 <=? seals) && (Z.land seals required =? required)).

(** [read_all_at]: the bytes, or [None] on failure. *)
Fixpoint read_all_loop (fuel : nat) (fd : Z) (got : list Z) (size offset : Z)
  : St (machine B) (option (list Z)) :=
  match fuel with
  | O => mret None
  | S fuel =>
      if zlen got <? size then
        x ← sys_pread fd (size - zlen got) (offset + zlen got);
        e ← errno;
        if (fst x <? 0) && (e =? EINTR) then read_all_loop fuel fd got size offset
        else if fst x <=? 0 then mret None
        else read_all_loop fuel fd (got ++ snd x) size offset
      else mret (Some got)
  end.
Definition read_all_at (fd size offset : Z) : St (machine B) (option (list Z)) :=
  io ← gets m_io; read_all_loop (S (Z.to_nat size + length io)) fd [] size offset.

(** [load_input]: the status and, with [ADVC_STATUS_OK], the input bytes. *)
Definition load_input (request : advc_message) : St (machine B) (Z * list Z) :=
  let h := msg_header request in
  let p := payload_of request in
  if payload_size h <? ADVC_QUEUE_INPUT_SIZE then mret (ADVC_STATUS_BAD_MESSAGE, [])
  else
    let offset := advc_get_u64 p 16 in
    let size64 := advc_get_u64 p 24 in
    let role := advc_get_u32 p 36 in
    if negb (bytes_are_zero p 40 8) then mret (ADVC_STATUS_BAD_MESSAGE, [])
    else if (ADVC_MAX_INPUT_BYTES <? size64) || (SIZE_MAX <? size64)
    then mret (ADVC_STATUS_NO_RESOURCE, [])
    else if fd_count h =? 0 then
      if negb (role =? ADVC_FD_NONE) || negb (offset =? ADVC_QUEUE_INPUT_SIZE) ||
         (UINT32_MAX - ADVC_QUEUE_INPUT_SIZE <? size64) ||
         negb (payload_size h =? u32 (ADVC_QUEUE_INPUT_SIZE + u32 size64))
      then mret (ADVC_STATUS_BAD_MESSAGE, [])
      else mret (ADVC_STATUS_OK, take (Z.to_nat size64) (drop 48 p))
    else if (fd_count h =? 1) && (role =? ADVC_FD_INPUT_DATA) &&
            (payload_size h =? ADVC_QUEUE_INPUT_SIZE) then
      if (INT64_MAX <? offset) || (u64 (offset + size64) <? offset)
      then mret (ADVC_STATUS_BAD_MESSAGE, [])
      else
        st ← sys_fstat (fd_at request 0);
        match st with
        | Some (true, st_size) =>
            sealed ← input_fd_is_sealed (fd_at request 0);
            if negb sealed || (st_size <? u64 (offset + size64))
            then mret (ADVC_STATUS_BAD_MESSAGE, [])
            else
              ok ← sys_alloc;
              if negb ok then mret (ADVC_STATUS_NO_RESOURCE, [])
              else if 0 <? size64 then
                x ← read_all_at (fd_at request 0) size64 offset;
                match x with
                | None => mret (ADVC_STATUS_BAD_MESSAGE, [])
                | Some bytes => mret (ADVC_STATUS_OK, bytes)
                end
              else mret (ADVC_STATUS_OK, [])
        | _ => mret (ADVC_STATUS_BAD_MESSAGE, [])
        end
    else mret (ADVC_STATUS_BAD_MESSAGE, []).

End Files.

(** ** Request handlers *)

(** The bytes of a C string literal, and the C string at the start of a byte
    array ([memchr] found its terminator). *)
Definition bytes_of (s : String.string) : list Z :=
  (fun c => Z.of_nat (Ascii.nat_of_ascii c)) <$> String.list_ascii_of_string s.
Definition MIME_VIDEO : list Z := bytes_of "video/"%string.
Definition MIME_AVC : list Z := bytes_of "video/avc"%string.
Definition MIME_HEVC : list Z := bytes_of "video/hevc"%string.
Fixpoint cstring (p : list Z) : list Z :=
  match p with [] => [] | b :: p => if b =? 0 then [] else b :: cstring p end.
Definition str_eq (p q : list Z) : bool := bool_decide (p = q).

(** Payload bytes [off, off + n) as the engine reads them. *)
Definition bytes_at (p : list Z) (off n : Z) : list Z :=
  (fun i => byte_at p (off + i)) <$> seqZ 0 n.

(** The stores of a completed dequeue into the reply payload. *)
Definition write_output (p : list Z) (id : Z) (o : advc_backend_output) (transport : Z) : list Z :=
  let p := memzero p ADVC_OUTPUT_BYTES_SIZE in
  let p := advc_put_u64 p 0 id in
  let p := advc_put_u64 p 8 (bo_pts_ns o) in
  let p := advc_put_u64 p 16 (bo_size o) in
  let p := advc_put_u32 p 24 (bo_flags o) in
  let p := advc_put_u32 p 28 transport in
  let p := advc_put_u32 p 32 (bo_width o) in
  let p := advc_put_u32 p 36 (bo_height o) in
  let p := advc_put_u32 p 40 (bo_android_format o) in
  let p := advc_put_u32 p 60 (bo_stride o) in
  let p := advc_put_u32 p 56 (bo_layers o) in
  let p := advc_put_u64 p 64 (bo_usage o) in
  let p := advc_put_u32 p 108
             (if 0 <=? bo_acquire_fence_fd o then ADVC_FD_ACQUIRE_FENCE else ADVC_FD_NONE) in
  let p := advc_put_u32 p 112 (bo_slice_height o) in
  let p := advc_put_u32 p 116 (bo_crop_left o) in
  let p := advc_put_u32 p 120 (bo_crop_top o) in
  let p := advc_put_u32 p 124 (bo_crop_right o) in
  advc_put_u32 p 128 (bo_crop_bottom o).

(** The public metadata kept with an AHardwareBuffer output. *)
Definition output_metadata (o : advc_backend_output) : advc_ahb_public_metadata :=
  Metadata (bo_width o) (bo_height o) (bo_android_format o) (bo_stride o) (bo_layers o)
    (bo_usage o) (bo_crop_left o) (bo_crop_top o)
    (if bo_crop_left o <=? bo_crop_right o then u32 (u32 (bo_crop_right o - bo_crop_left o) + 1) else 0)
    (if bo_crop_top o <=? bo_crop_bottom o then u32 (u32 (bo_crop_bottom o - bo_crop_top o) + 1) else 0).

(** Size, data pointer and flags of a dequeued output the engine refuses. *)
Definition output_refused (o : advc_backend_output) : bool :=
  (ADVC_MAX_OUTPUT_BYTES <? bo_size o) || ((0 <? bo_size o) && bool_decide (bo_data o = None)) ||
  negb (Z.land (bo_flags o) (Z.lxor UINT32_MAX (Z.lor (Z.lor ADVC_FLAG_END_OF_STREAM
          ADVC_FLAG_KEY_FRAME) ADVC_FLAG_CODEC_CONFIG)) =? 0).

(** [memset(&output, 0, sizeof(output)); output.acquire_fence_fd = -1;] *)
Definition blank_output : advc_backend_output :=
  Output None 0 0 0 0 0 0 0 0 0 0 0 0 0 0 0 0 (-1) 0.

Section Handlers.
Context {B : Type} (ops : advc_backend_ops B).
Implicit Types m : machine B.

(** The result of a handler on one session. *)
Definition hresult : Type := Z * (advc_session_slot * advc_message).
Definition answer (status : Z) (s : advc_session_slot) (reply : advc_message)
  : St (machine B) hresult := mret (status, (s, reply)).

Definition session_dmabuf_format_allowed (s : advc_session_slot) (d : advc_dmabuf_descriptor)
  : St (machine B) Z :=
  match ops_dmabuf_format_allowed ops with
  | Some f => if s_backend_handle s =? 0 then errno_is ENOTSUP ;; mret 0
              else f (s_backend_handle s) d
  | None => errno_is ENOTSUP ;; mret 0
  end.

(** *** CREATE_SESSION *)

(** The configuration the request asks for; a zero transport means bytes. *)
Definition create_config (p : list Z) : advc_backend_config :=
  let transport := advc_get_u32 p 92 in
  Config (advc_get_u32 p 0) (cstring (bytes_at p 24 ADVC_MAX_MIME)) (advc_get_u32 p 4)
    (advc_get_u32 p 8) (advc_get_u32 p 12) (advc_get_u32 p 16) (advc_get_u32 p 88)
    (if transport =? 0 then ADVC_TRANSPORT_BYTES else transport) (advc_get_u32 p 96)
    (advc_get_u32 p 20).

Definition create_bad (p : list Z) (c : advc_backend_config) : bool :=
  (negb (cfg_direction c =? ADVC_DIRECTION_DECODE) &&
   negb (cfg_direction c =? ADVC_DIRECTION_ENCODE)) ||
  negb (cfg_flags c =? 0) || (cfg_width c <? 16) || (8192 <? cfg_width c) ||
  (cfg_height c <? 16) || (8192 <? cfg_height c) || (240000 <? cfg_framerate_milli c) ||
  negb (existsb (Z.eqb 0) (bytes_at p 24 ADVC_MAX_MIME)) ||
  negb (str_eq (take 6 (cfg_mime c)) MIME_VIDEO).

Definition is_avc (c : advc_backend_config) : bool := str_eq (cfg_mime c) MIME_AVC.
Definition is_hevc (c : advc_backend_config) : bool := str_eq (cfg_mime c) MIME_HEVC.

Definition encode_bad (c : advc_backend_config) : bool :=
  let t := cfg_transport c in
  let f := cfg_color_format c in
  let pr := cfg_encode_profile c in
  (negb (is_avc c) && negb (is_hevc c)) ||
  (cfg_bitrate c =? 0) || (ADVC_MAX_ENCODE_BITRATE <? cfg_bitrate c) ||
  (cfg_framerate_milli c <? 1000) ||
  negb (Z.land (cfg_width c) 1 =? 0) || negb (Z.land (cfg_height c) 1 =? 0) ||
  (negb (t =? ADVC_TRANSPORT_BYTES) && negb (t =? ADVC_TRANSPORT_BROKER_EGL_SURFACE) &&
   negb (t =? ADVC_TRANSPORT_ANDROID_AHB_SURFACE) && negb (t =? ADVC_TRANSPORT_DMABUF)) ||
  ((t =? ADVC_TRANSPORT_BYTES) && negb (f =? ADVC_COLOR_FORMAT_YUV420_PLANAR) &&
   negb (f =? ADVC_COLOR_FORMAT_YUV420_SEMIPLANAR)) ||
  (((t =? ADVC_TRANSPORT_BROKER_EGL_SURFACE) || (t =? ADVC_TRANSPORT_ANDROID_AHB_SURFACE) ||
    (t =? ADVC_TRANSPORT_DMABUF)) && negb (f =? 0)) ||
  (is_avc c && negb (pr =? ADVC_ENCODE_PROFILE_H264_CONSTRAINED_BASELINE) &&
   negb (pr =? ADVC_ENCODE_PROFILE_H264_MAIN) && negb (pr =? ADVC_ENCODE_PROFILE_H264_HIGH)) ||
  (is_hevc c && negb (pr =? ADVC_ENCODE_PROFILE_HEVC_MAIN)).

(** [width * height * 3 / 2] in 64 bits, for byte-transport encoders. *)
Definition encode_frame_bytes (c : advc_backend_config) : Z :=
  let n := u64 (cfg_width c * cfg_height c) in u64 (n + n / 2).

(** Everything [handle_create] decides from the request alone: a refusal, or the
    encoder frame size. *)
Definition create_check (request : advc_message) : Z + Z :=
  let h := msg_header request in
  let p := payload_of request in
  let c := create_config p in
  if negb (session_id h =? 0) || negb (fd_count h =? 0) ||
     negb (payload_size h =? ADVC_CREATE_SIZE) then inl ADVC_STATUS_BAD_MESSAGE
  else if create_bad p c then inl ADVC_STATUS_BAD_MESSAGE
  else if cfg_direction c =? ADVC_DIRECTION_DECODE then
    if negb (cfg_color_format c =? 0) ||
       negb (cfg_encode_profile c =? ADVC_ENCODE_PROFILE_NONE) ||
       (negb (cfg_transport c =? ADVC_TRANSPORT_BYTES) &&
        negb (cfg_transport c =? ADVC_TRANSPORT_AHARDWAREBUFFER))
    then inl ADVC_STATUS_BAD_MESSAGE
    else if (cfg_transport c =? ADVC_TRANSPORT_AHARDWAREBUFFER) && (version_minor h <? 2)
    then inl ADVC_STATUS_UNSUPPORTED
    else inr 0
  else if version_minor h <? 7 then inl ADVC_STATUS_UNSUPPORTED
  else if encode_bad c then inl ADVC_STATUS_BAD_MESSAGE
  else if (cfg_transport c =? ADVC_TRANSPORT_BROKER_EGL_SURFACE) && (version_minor h <? 3)
  then inl ADVC_STATUS_UNSUPPORTED
  else if (cfg_transport c =? ADVC_TRANSPORT_ANDROID_AHB_SURFACE) &&
          ((version_minor h <? 4) || negb (bool_decide (is_Some (ops_receive_ahb_input ops))))
  then inl ADVC_STATUS_UNSUPPORTED
  else if (cfg_transport c =? ADVC_TRANSPORT_DMABUF) &&
          ((version_minor h <? 5) || negb (bool_decide (is_Some (ops_dmabuf_format_allowed ops))) ||
           negb (bool_decide (is_Some (ops_submit_dmabuf ops))))
  then inl ADVC_STATUS_UNSUPPORTED
  else if cfg_transport c =? ADVC_TRANSPORT_BYTES then
    if (ADVC_MAX_INPUT_BYTES <? encode_frame_bytes c) || (SIZE_MAX <? encode_frame_bytes c)
    then inl ADVC_STATUS_NO_RESOURCE else inr (encode_frame_bytes c)
  else inr 0.

(** A fresh session, before its identifier is allocated. *)
Definition new_session (handle frame_size : Z) (c : advc_backend_config)
  (r : option advc_dmabuf_registry) : advc_session_slot :=
  Session 0 handle (replicate 8 zero_output) frame_size (cfg_transport c)
    (u8 (cfg_direction c)) no_ahb_input 0 0 (-1) 0 r (replicate 4 zero_completion) true.

Definition handle_create (e : advc_session_engine) (request reply : advc_message)
  : St (machine B) (Z * (advc_session_engine * advc_message)) :=
  match create_check request with
  | inl status => mret (status, (e, reply))
  | inr frame_size =>
      let c := create_config (payload_of request) in
      match find_idx (fun s => negb (s_in_use s)) (eng_sessions e) with
      | None => mret (ADVC_STATUS_NO_RESOURCE, (e, reply))
      | Some i =>
          x ← ops_create ops c;
          let '(status, handle) := x in
          if negb (status =? ADVC_STATUS_OK) then mret (status, (e, reply))
          else if handle =? 0 then mret (ADVC_STATUS_INTERNAL, (e, reply))
          else
            reg ← (if cfg_transport c =? ADVC_TRANSPORT_DMABUF
                   then advc_dmabuf_registry_create else mret None);
            if (cfg_transport c =? ADVC_TRANSPORT_DMABUF) && bool_decide (reg = None) then
              ops_destroy ops handle ;;
              err ← errno;
              mret (if err =? ENOMEM then ADVC_STATUS_NO_RESOURCE else ADVC_STATUS_INTERNAL,
                    (set_sessions (<[i := zero_session]> (eng_sessions e)) e, reply))
            else
              let s := new_session handle frame_size c reg in
              let '(id, e) := allocate_session_id
                                (set_sessions (<[i := s]> (eng_sessions e)) e) in
              let e := set_sessions (<[i := set_id id s]> (eng_sessions e)) e in
              let reply := with_header (header_with_session_id id (msg_header reply)) reply in
              mret (ADVC_STATUS_OK, (e, write_status reply ADVC_STATUS_OK 0))
      end
  end.

(** *** QUEUE_INPUT *)

(** The exact empty packet surface transports expect. *)
Definition not_empty_packet (request : advc_message) : bool :=
  let h := msg_header request in
  let p := payload_of request in
  negb (fd_count h =? 0) || negb (payload_size h =? ADVC_QUEUE_INPUT_SIZE) ||
  negb (advc_get_u64 p 16 =? ADVC_QUEUE_INPUT_SIZE) || negb (advc_get_u64 p 24 =? 0) ||
  negb (advc_get_u32 p 36 =? ADVC_FD_NONE).

Definition handle_queue (s : advc_session_slot) (request reply : advc_message)
  : St (machine B) hresult :=
  let p := payload_of request in
  let flags := advc_get_u32 p 32 in
  let pts_ns := advc_get_u64 p 8 in
  let allowed := Z.lor (Z.lor ADVC_FLAG_END_OF_STREAM ADVC_FLAG_KEY_FRAME) ADVC_FLAG_CODEC_CONFIG in
  let eos := negb (Z.land flags ADVC_FLAG_END_OF_STREAM =? 0) in
  if ((s_transport s =? ADVC_TRANSPORT_ANDROID_AHB_SURFACE) ||
      (s_transport s =? ADVC_TRANSPORT_DMABUF)) &&
     (not_empty_packet request || negb (flags =? ADVC_FLAG_END_OF_STREAM))
  then answer ADVC_STATUS_UNSUPPORTED s reply
  else if (s_transport s =? ADVC_TRANSPORT_BROKER_EGL_SURFACE) && not_empty_packet request
  then answer ADVC_STATUS_BAD_MESSAGE s reply
  else
    x ← load_input request;
    let '(status, data) := x in
    let size := advc_get_u64 p 24 in
    if negb (status =? ADVC_STATUS_OK) then answer status s reply
    else if negb (Z.land flags (Z.lxor UINT32_MAX allowed) =? 0)
    then answer ADVC_STATUS_BAD_MESSAGE s reply
    else if (s_direction s =? ADVC_DIRECTION_ENCODE) &&
            ((eos && (negb (flags =? ADVC_FLAG_END_OF_STREAM) || negb (size =? 0))) ||
             (negb eos && (negb (flags =? 0) || negb (size =? s_encode_frame_size s))))
    then answer ADVC_STATUS_BAD_MESSAGE s reply
    else
      status ← ops_queue_input ops (s_backend_handle s) data size pts_ns flags;
      answer status s (if status =? ADVC_STATUS_OK then write_status reply status 0 else reply).

(** *** QUEUE_AHB and COMPLETE_AHB *)

Definition handle_queue_ahb (s : advc_session_slot) (request reply : advc_message)
  : St (machine B) hresult :=
  let h := msg_header request in
  let p := payload_of request in
  if (version_minor h <? 4) || negb (s_transport s =? ADVC_TRANSPORT_ANDROID_AHB_SURFACE)
  then answer ADVC_STATUS_UNSUPPORTED s reply
  else if negb (s_pending_ahb_state s =? 0) then answer ADVC_STATUS_WOULD_BLOCK s reply
  else if negb (payload_size h =? ADVC_QUEUE_AHB_SIZE) || (1 <? fd_count h)
  then answer ADVC_STATUS_BAD_MESSAGE s reply
  else if negb (bytes_are_zero p 40 8) then answer ADVC_STATUS_BAD_MESSAGE s reply
  else
    let role := advc_get_u32 p 36 in
    if (advc_get_u32 p 8 =? 0) || (advc_get_u32 p 12 =? 0) || negb (advc_get_u32 p 20 =? 1) ||
       (INT64_MAX <? advc_get_u64 p 0) || negb (advc_get_u32 p 32 =? 0) ||
       negb (Bool.eqb (role =? ADVC_FD_NONE) (fd_count h =? 0)) ||
       ((fd_count h =? 1) && negb (role =? ADVC_FD_ACQUIRE_FENCE))
    then answer ADVC_STATUS_BAD_MESSAGE s reply
    else
      fence ← (if fd_count h =? 1 then fcntl_dupfd_cloexec (fd_at request 0) else mret (-1));
      if (fd_count h =? 1) && (fence <? 0) then answer ADVC_STATUS_INTERNAL s reply
      else
        let input := AhbInput (advc_get_u64 p 0) (advc_get_u32 p 8) (advc_get_u32 p 12)
                       (advc_get_u32 p 16) (advc_get_u32 p 20) (advc_get_u64 p 24) fence in
        let reply := write_status reply ADVC_STATUS_OK 0 in
        answer ADVC_STATUS_OK (set_pending input ADVC_STATUS_INTERNAL 0 (-1) 1 s)
          (with_header (header_with_flags ADVC_FLAG_AHB_FOLLOWS (msg_header reply)) reply).

(** Attach one descriptor to the reply. *)
Definition reply_fd (fd : Z) (reply : advc_message) : advc_message :=
  with_header (header_with_fd_count 1 (msg_header reply))
    (with_fds (<[0%nat := fd]> (msg_fds reply)) reply).

Definition handle_complete_ahb (s : advc_session_slot) (request reply : advc_message)
  : St (machine B) hresult :=
  let h := msg_header request in
  if (version_minor h <? 4) || negb (s_transport s =? ADVC_TRANSPORT_ANDROID_AHB_SURFACE)
  then answer ADVC_STATUS_UNSUPPORTED s reply
  else if negb (payload_size h =? 0) || negb (fd_count h =? 0)
  then answer ADVC_STATUS_BAD_MESSAGE s reply
  else if negb (s_pending_ahb_state s =? 2) then answer ADVC_STATUS_WOULD_BLOCK s reply
  else
    let fence := s_pending_ahb_release_fence s in
    let p := memzero (payload_of reply) ADVC_COMPLETE_AHB_SIZE in
    let p := advc_put_u32 p 0 (s_pending_ahb_status s) in
    let p := advc_put_u32 p 4 (s_pending_ahb_detail s) in
    let p := advc_put_u32 p 8 (if 0 <=? fence then ADVC_FD_RELEASE_FENCE else ADVC_FD_NONE) in
    let reply := with_header (header_with_payload_size ADVC_COMPLETE_AHB_SIZE (msg_header reply))
                   (with_payload p reply) in
    answer ADVC_STATUS_OK
      (set_pending no_ahb_input (s_pending_ahb_status s) (s_pending_ahb_detail s)
         (if 0 <=? fence then -1 else fence) 0 s)
      (if 0 <=? fence then reply_fd fence reply else reply).

(** *** The dma-buf requests *)

Definition not_dmabuf (s : advc_session_slot) (h : advc_header) : bool :=
  (version_minor h <? 5) || negb (s_transport s =? ADVC_TRANSPORT_DMABUF).

Definition handle_register_dmabuf (s : advc_session_slot) (request reply : advc_message)
  : St (machine B) hresult :=
  let h := msg_header request in
  match s_dmabufs s with
  | None => answer ADVC_STATUS_UNSUPPORTED s reply
  | Some r =>
      if not_dmabuf s h then answer ADVC_STATUS_UNSUPPORTED s reply
      else
        x ← advc_dmabuf_registration_decode (payload_of request) (payload_size h)
              (msg_fds request) (fd_count h) zero_descriptor;
        if fst x <? 0 then e ← errno; answer (dmabuf_errno_status e) s reply
        else
          y ← advc_dmabuf_registry_register (session_dmabuf_format_allowed s) r (snd x);
          let s := set_dmabufs (Some (snd y)) (s_completions s) s in
          if fst y <? 0 then e ← errno; answer (dmabuf_errno_status e) s reply
          else answer ADVC_STATUS_OK s (write_status reply ADVC_STATUS_OK 0)
  end.

Definition handle_unregister_dmabuf (s : advc_session_slot) (request reply : advc_message)
  : St (machine B) hresult :=
  let h := msg_header request in
  match s_dmabufs s with
  | None => answer ADVC_STATUS_UNSUPPORTED s reply
  | Some r =>
      if not_dmabuf s h then answer ADVC_STATUS_UNSUPPORTED s reply
      else
        x ← advc_dmabuf_unregister_decode (payload_of request) (payload_size h) (fd_count h);
        if fst x <? 0 then e ← errno; answer (dmabuf_errno_status e) s reply
        else
          y ← advc_dmabuf_registry_unregister r (snd x);
          let s := set_dmabufs (Some (snd y)) (s_completions s) s in
          if fst y <? 0 then e ← errno; answer (dmabuf_errno_status e) s reply
          else answer ADVC_STATUS_OK s (write_status reply ADVC_STATUS_OK 0)
  end.

(** The check of what the backend returned, with the close of a fence it should
    not have returned: the final status and release fence. *)
Definition settle_submit (status release_fence : Z) : St (machine B) (Z * Z) :=
  bad ← (if (ADVC_STATUS_INTERNAL <? status) ||
            (negb (status =? ADVC_STATUS_OK) && (0 <=? release_fence)) then mret true
         else if 0 <=? release_fence then
           v ← advc_dmabuf_sync_file_validate release_fence; mret (v <? 0)
         else mret false);
  if (bad : bool) then close_if_open release_fence ;; mret (ADVC_STATUS_INTERNAL, -1)
  else mret (status, release_fence).

Definition handle_queue_dmabuf (s : advc_session_slot) (request reply : advc_message)
  : St (machine B) hresult :=
  let h := msg_header request in
  match s_dmabufs s, ops_submit_dmabuf ops with
  | Some r, Some submit =>
      if not_dmabuf s h then answer ADVC_STATUS_UNSUPPORTED s reply
      else match free_dmabuf_completion s with
      | None => answer ADVC_STATUS_WOULD_BLOCK s reply
      | Some slot =>
          x ← advc_dmabuf_submission_decode (payload_of request) (payload_size h)
                (msg_fds request) (fd_count h) (Submission 0 0 (-1));
          if fst x <? 0 then e ← errno; answer (dmabuf_errno_status e) s reply
          else
            y ← advc_dmabuf_registry_begin r (snd x) zero_job;
            let '(v, (r, job)) := y in
            let s := set_dmabufs (Some r) (s_completions s) s in
            if v <? 0 then e ← errno; answer (dmabuf_errno_status e) s reply
            else match job_descriptor job with
            | None =>
                z ← advc_dmabuf_registry_finish r (job_buffer_id job);
                advc_dmabuf_job_close job ;;
                answer ADVC_STATUS_INTERNAL (set_dmabufs (Some (snd z)) (s_completions s) s) reply
            | Some d =>
                let id := job_buffer_id job in
                w ← submit (s_backend_handle s) d (job_pts_ns job) (job_acquire_fence_fd job);
                let job := Job (job_buffer_id job) (job_pts_ns job) (-1) (job_descriptor job) in
                w ← settle_submit (fst w) (snd w);
                let '(status, release_fence) := w in
                if negb (status =? ADVC_STATUS_OK) then
                  z ← advc_dmabuf_registry_finish r (job_buffer_id job);
                  advc_dmabuf_job_close job ;;
                  answer status (set_dmabufs (Some (snd z)) (s_completions s) s) reply
                else
                  advc_dmabuf_job_close job ;;
                  answer ADVC_STATUS_OK
                    (set_dmabufs (Some r)
                       (<[slot := Completion id ADVC_STATUS_OK 0 release_fence true]>
                          (s_completions s)) s)
                    (write_status reply ADVC_STATUS_OK 0)
            end
      end
  | _, _ => answer ADVC_STATUS_UNSUPPORTED s reply
  end.

Definition handle_complete_dmabuf (s : advc_session_slot) (request reply : advc_message)
  : St (machine B) hresult :=
  let h := msg_header request in
  match s_dmabufs s with
  | None => answer ADVC_STATUS_UNSUPPORTED s reply
  | Some r =>
      if not_dmabuf s h then answer ADVC_STATUS_UNSUPPORTED s reply
      else if negb (payload_size h =? ADVC_COMPLETE_DMABUF_REQUEST_SIZE) || negb (fd_count h =? 0)
      then answer ADVC_STATUS_BAD_MESSAGE s reply
      else
        let id := advc_get_u64 (payload_of request) 0 in
        if id =? 0 then answer ADVC_STATUS_BAD_MESSAGE s reply
        else match find_dmabuf_completion s id with
        | None => answer ADVC_STATUS_WOULD_BLOCK s reply
        | Some slot =>
            x ← advc_dmabuf_registry_finish r id;
            if fst x <? 0 then
              answer ADVC_STATUS_INTERNAL (set_dmabufs (Some (snd x)) (s_completions s) s) reply
            else
              let c := completion_at s slot in
              let fence := co_release_fence_fd c in
              let p := memzero (payload_of reply) ADVC_COMPLETE_DMABUF_SIZE in
              let p := advc_put_u64 p 0 id in
              let p := advc_put_u32 p 8 (co_status c) in
              let p := advc_put_u32 p 12 (co_detail c) in
              let p := advc_put_u32 p 16
                         (if 0 <=? fence then ADVC_FD_RELEASE_FENCE else ADVC_FD_NONE) in
              let reply := with_header (header_with_payload_size ADVC_COMPLETE_DMABUF_SIZE
                             (msg_header reply)) (with_payload p reply) in
              answer ADVC_STATUS_OK
                (set_dmabufs (Some (snd x)) (<[slot := zero_completion]> (s_completions s)) s)
                (if 0 <=? fence then reply_fd fence reply else reply)
        end
  end.

(** *** DEQUEUE_OUTPUT, RELEASE_OUTPUT and the transfers *)

(** What the transport decides: a refusal, or the descriptor of the sealed copy
    (-1 for an AHardwareBuffer). *)
Definition settle_output (s : advc_session_slot) (o : advc_backend_output) (transport : Z)
  : St (machine B) (Z + Z) :=
  let release := ops_release_output ops (s_backend_handle s) (bo_token o) (-1) in
  if transport =? ADVC_TRANSPORT_BYTES then
    if negb (bo_native_buffer o =? 0) || (0 <=? bo_acquire_fence_fd o) then
      release ;; close_if_open (bo_acquire_fence_fd o) ;; mret (inl ADVC_STATUS_INTERNAL)
    else
      fd ← create_sealed_output (take (Z.to_nat (bo_size o)) (default [] (bo_data o)));
      release ;;
      if fd <? 0 then mret (inl ADVC_STATUS_INTERNAL) else mret (inr fd)
  else if transport =? ADVC_TRANSPORT_AHARDWAREBUFFER then
    if (bo_native_buffer o =? 0) || bool_decide (is_Some (bo_data o)) ||
       negb (bo_size o =? 0) || negb (bool_decide (is_Some (ops_send_native_buffer ops))) then
      release ;; close_if_open (bo_acquire_fence_fd o) ;; mret (inl ADVC_STATUS_UNSUPPORTED)
    else mret (inr (-1))
  else
    release ;; close_if_open (bo_acquire_fence_fd o) ;; mret (inl ADVC_STATUS_UNSUPPORTED).

(** The result carries the engine's next output identifier. *)
Definition handle_dequeue (next : Z) (s : advc_session_slot) (request reply : advc_message)
  : St (machine B) (hresult * Z) :=
  let h := msg_header request in
  if negb (payload_size h =? 0) || negb (fd_count h =? 0)
  then x ← answer ADVC_STATUS_BAD_MESSAGE s reply; mret (x, next)
  else match free_output_slot s with
  | None => x ← answer ADVC_STATUS_NO_RESOURCE s reply; mret (x, next)
  | Some i =>
      x ← ops_dequeue_output ops (s_backend_handle s) blank_output;
      let '(status, o) := x in
      if negb (status =? ADVC_STATUS_OK) then x ← answer status s reply; mret (x, next)
      else if output_refused o then
        ops_release_output ops (s_backend_handle s) (bo_token o) (-1) ;;
        x ← answer ADVC_STATUS_NO_RESOURCE s reply; mret (x, next)
      else
        let transport := if bo_transport o =? 0 then ADVC_TRANSPORT_BYTES else bo_transport o in
        y ← settle_output s o transport;
        match y with
        | inl status => x ← answer status s reply; mret (x, next)
        | inr fd =>
            let '(id, next) := allocate_output_id next in
            let is_bytes := transport =? ADVC_TRANSPORT_BYTES in
            let fence := bo_acquire_fence_fd o in
            let old := output_at s i in
            let slot :=
              if transport =? ADVC_TRANSPORT_AHARDWAREBUFFER then
                OutSlot id (bo_token o) (bo_native_buffer o)
                  (Metadata (bo_width o) (bo_height o) (bo_android_format o) (bo_stride o)
                     (bo_layers o) (bo_usage o) (bo_crop_left o) (bo_crop_top o)
                     (if bo_crop_left o <=? bo_crop_right o
                      then am_crop_width (output_metadata o)
                      else am_crop_width (out_prime_metadata old))
                     (if bo_crop_top o <=? bo_crop_bottom o
                      then am_crop_height (output_metadata o)
                      else am_crop_height (out_prime_metadata old)))
                  transport (out_transferred old) (out_prime_transferred old) true
              else
                OutSlot id (out_backend_token old) (out_native_buffer old)
                  (out_prime_metadata old) (out_transport old) (out_transferred old)
                  (out_prime_transferred old) true in
            let h := header_with_fd_count (if is_bytes then 1 else if 0 <=? fence then 1 else 0)
                       (header_with_payload_size
                          (if is_bytes then ADVC_OUTPUT_BYTES_SIZE else ADVC_OUTPUT_READY_SIZE)
                          (msg_header reply)) in
            let fds := if 0 <=? fd then <[0%nat := fd]> (msg_fds reply)
                       else if 0 <=? fence then <[0%nat := fence]> (msg_fds reply)
                       else msg_fds reply in
            let reply := with_header h (with_fds fds (with_payload
                           (write_output (payload_of reply) id o transport) reply)) in
            x ← answer ADVC_STATUS_OK (set_outputs (<[i := slot]> (s_outputs s)) s) reply;
            mret (x, next)
        end
  end.

Definition handle_release (s : advc_session_slot) (request reply : advc_message)
  : St (machine B) hresult :=
  let h := msg_header request in
  let p := payload_of request in
  if negb (payload_size h =? ADVC_RELEASE_OUTPUT_SIZE) || (1 <? fd_count h)
  then answer ADVC_STATUS_BAD_MESSAGE s reply
  else
    let id := advc_get_u64 p 0 in
    let role := advc_get_u32 p 8 in
    if negb (bytes_are_zero p 12 4) then answer ADVC_STATUS_BAD_MESSAGE s reply
    else match find_output s id with
    | None => answer ADVC_STATUS_BAD_MESSAGE s reply
    | Some i =>
        let s' := set_outputs (<[i := zero_output]> (s_outputs s)) s in
        let done_ := answer ADVC_STATUS_OK s' (write_status reply ADVC_STATUS_OK 0) in
        if out_transport (output_at s i) =? ADVC_TRANSPORT_AHARDWAREBUFFER then
          if ((role =? ADVC_FD_NONE) && negb (fd_count h =? 0)) ||
             ((role =? ADVC_FD_RELEASE_FENCE) && negb (fd_count h =? 1)) ||
             (negb (role =? ADVC_FD_NONE) && negb (role =? ADVC_FD_RELEASE_FENCE))
          then answer ADVC_STATUS_BAD_MESSAGE s reply
          else
            fence ← (if fd_count h =? 1 then fcntl_dupfd_cloexec (fd_at request 0) else mret (-1));
            if (fd_count h =? 1) && (fence <? 0) then answer ADVC_STATUS_INTERNAL s reply
            else
              ops_release_output ops (s_backend_handle s) (out_backend_token (output_at s i)) fence ;;
              done_
        else if negb (role =? ADVC_FD_NONE) || negb (fd_count h =? 0)
        then answer ADVC_STATUS_BAD_MESSAGE s reply
        else done_
    end.

Definition handle_transfer_ahb (s : advc_session_slot) (request reply : advc_message)
  : St (machine B) hresult :=
  let h := msg_header request in
  if negb (payload_size h =? ADVC_TRANSFER_AHB_SIZE) || negb (fd_count h =? 0)
  then answer ADVC_STATUS_BAD_MESSAGE s reply
  else match find_output s (advc_get_u64 (payload_of request) 0) with
  | None => answer ADVC_STATUS_BAD_MESSAGE s reply
  | Some i =>
      let slot := output_at s i in
      if negb (out_transport slot =? ADVC_TRANSPORT_AHARDWAREBUFFER) ||
         (out_native_buffer slot =? 0) || out_transferred slot
      then answer ADVC_STATUS_BAD_MESSAGE s reply
      else
        let reply := write_status reply ADVC_STATUS_OK 0 in
        answer ADVC_STATUS_OK s
          (with_header (header_with_flags ADVC_FLAG_AHB_FOLLOWS (msg_header reply)) reply)
  end.

(** Objects [0, n) lose their descriptor. *)
Definition drop_object_fds (n : Z) (d : advc_dmabuf_descriptor) : advc_dmabuf_descriptor :=
  with_objects (imap (fun i o => if Z.of_nat i <? n then Obj (-1) (o_size o) else o)
                  (d_objects d)) d.

Definition handle_transfer_prime (s : advc_session_slot) (request reply : advc_message)
  : St (machine B) hresult :=
  let h := msg_header request in
  let id := advc_get_u64 (payload_of request) 0 in
  if negb (payload_size h =? ADVC_TRANSFER_PRIME_SIZE) || negb (fd_count h =? 0)
  then answer ADVC_STATUS_BAD_MESSAGE s reply
  else if negb (s_direction s =? ADVC_DIRECTION_DECODE) ||
          negb (s_transport s =? ADVC_TRANSPORT_AHARDWAREBUFFER)
  then answer ADVC_STATUS_UNSUPPORTED s reply
  else match ops_export_decode_prime ops with
  | None => answer ADVC_STATUS_UNSUPPORTED s reply
  | Some export =>
      if payload_capacity reply <? ADVC_TRANSFER_PRIME_REPLY_SIZE
      then answer ADVC_STATUS_INTERNAL s reply
      else if id =? 0 then answer ADVC_STATUS_BAD_MESSAGE s reply
      else match find_output s id with
      | None => answer ADVC_STATUS_BAD_MESSAGE s reply
      | Some i =>
          let slot := output_at s i in
          if negb (out_transport slot =? ADVC_TRANSPORT_AHARDWAREBUFFER) ||
             (out_native_buffer slot =? 0) || out_prime_transferred slot
          then answer ADVC_STATUS_BAD_MESSAGE s reply
          else
            x ← export (s_backend_handle s) (out_native_buffer slot) (out_prime_metadata slot) id
                  (with_objects (replicate 4 (Obj (-1) 0)) zero_descriptor);
            let '(status, d) := x in
            let status := if ADVC_STATUS_INTERNAL <? status then ADVC_STATUS_INTERNAL else status in
            if negb (status =? ADVC_STATUS_OK) then
              advc_dmabuf_descriptor_close d ;; answer status s reply
            else if negb (d_buffer_id d =? id) then
              advc_dmabuf_descriptor_close d ;; answer ADVC_STATUS_INTERNAL s reply
            else
              let p := payload_of reply in
              y ← advc_dmabuf_registration_encode (drop 8 p) d (replicate 4 0) 0;
              let '(v, (q, fds, n)) := y in
              let reply := with_payload (take 8 p ++ q) reply in
              if (v <? 0) || (n =? 0) || (ADVC_MAX_DMABUF_OBJECTS <? n) then
                advc_dmabuf_descriptor_close d ;; answer ADVC_STATUS_INTERNAL s reply
              else
                let p := advc_put_u32 (advc_put_u32 (payload_of reply) 0 ADVC_STATUS_OK) 4 0 in
                let reply := with_header (header_with_fd_count n (header_with_payload_size
                               ADVC_TRANSFER_PRIME_REPLY_SIZE (msg_header reply)))
                               (with_fds (take (Z.to_nat n) fds ++ drop (Z.to_nat n) (msg_fds reply))
                                  (with_payload p reply)) in
                advc_dmabuf_descriptor_close (drop_object_fds n d) ;;
                answer ADVC_STATUS_OK
                  (set_outputs (<[i := OutSlot (out_id slot) (out_backend_token slot)
                     (out_native_buffer slot) (out_prime_metadata slot) (out_transport slot)
                     (out_transferred slot) true (out_in_use slot)]> (s_outputs s)) s) reply
      end
  end.

(** *** FLUSH, CLOSE_SESSION and teardown *)

Definition release_outstanding (s : advc_session_slot) : St (machine B) advc_session_slot :=
  foldr (fun o k =>
           (if out_in_use o && (out_transport o =? ADVC_TRANSPORT_AHARDWAREBUFFER)
            then ops_release_output ops (s_backend_handle s) (out_backend_token o) (-1)
            else mret tt) ;; k) (mret tt) (s_outputs s) ;;
  close_if_open (ai_acquire_fence_fd (s_pending_ahb s)) ;;
  close_if_open (s_pending_ahb_release_fence s) ;;
  mret (set_pending no_ahb_input (s_pending_ahb_status s) (s_pending_ahb_detail s) (-1) 0
          (set_outputs (replicate (length (s_outputs s)) zero_output) s)).

(** The loop over the completion slots: the registry after the [finish] calls. *)
Fixpoint retire_completions (l : list advc_dmabuf_completion_slot)
  (r : option advc_dmabuf_registry) : St (machine B) (option advc_dmabuf_registry) :=
  match l with
  | [] => mret r
  | c :: l =>
      close_if_open (co_release_fence_fd c) ;;
      r ← match r with
          | Some r => if co_in_use c
                      then x ← advc_dmabuf_registry_finish r (co_buffer_id c); mret (Some (snd x))
                      else mret (Some r)
          | None => mret None
          end;
      retire_completions l r
  end.

Definition release_dmabuf_state (s : advc_session_slot) : St (machine B) advc_session_slot :=
  r ← retire_completions (s_completions s) (s_dmabufs s);
  advc_dmabuf_registry_destroy r ;;
  mret (set_dmabufs None (replicate (length (s_completions s)) zero_completion) s).

Definition handle_flush (s : advc_session_slot) (request reply : advc_message)
  : St (machine B) hresult :=
  let h := msg_header request in
  if negb (payload_size h =? 0) || negb (fd_count h =? 0)
  then answer ADVC_STATUS_BAD_MESSAGE s reply
  else if s_transport s =? ADVC_TRANSPORT_DMABUF then answer ADVC_STATUS_UNSUPPORTED s reply
  else
    status ← ops_flush ops (s_backend_handle s);
    if status =? ADVC_STATUS_OK then
      s ← release_outstanding s; answer status s (write_status reply status 0)
    else answer status s reply.

Definition handle_close (s : advc_session_slot) (request reply : advc_message)
  : St (machine B) hresult :=
  let h := msg_header request in
  if negb (payload_size h =? 0) || negb (fd_count h =? 0)
  then answer ADVC_STATUS_BAD_MESSAGE s reply
  else
    s ← release_outstanding s;
    s ← release_dmabuf_state s;
    ops_destroy ops (s_backend_handle s) ;;
    answer ADVC_STATUS_OK zero_session (write_status reply ADVC_STATUS_OK 0).

(** ** The engine *)

(** [None] stands for missing ops or a missing mandatory callback. *)
Definition advc_session_engine_create (ops : option (advc_backend_ops B))
  : St (machine B) (option advc_session_engine) :=
  match ops with
  | None => errno_is EINVAL ;; mret None
  | Some _ =>
      ok ← sys_alloc;
      if (ok : bool) then mret (Some (Engine (replicate 4 zero_session) 1 1)) else mret None
  end.

Definition teardown_session (s : advc_session_slot) : St (machine B) unit :=
  if s_in_use s then
    s ← release_outstanding s;
    s ← release_dmabuf_state s;
    ops_destroy ops (s_backend_handle s)
  else mret tt.

Definition advc_session_engine_destroy (e : option advc_session_engine) : St (machine B) unit :=
  match e with
  | None => mret tt
  | Some e => foldr (fun s k => teardown_session s ;; k) (mret tt) (eng_sessions e)
  end.

(** Store the session a handler worked on. *)
Definition put_session (e : advc_session_engine) (i : nat) (x : hresult)
  : Z * (advc_session_engine * advc_message) :=
  (fst x, (set_sessions (<[i := fst (snd x)]> (eng_sessions e)) e, snd (snd x))).

(** The dispatch on one session; [None] is DEQUEUE_OUTPUT, which also moves the
    engine's output counter. *)
Definition session_handler (s : advc_session_slot) (request reply : advc_message)
  : option (St (machine B) hresult) :=
  let h := msg_header request in
  let op := opcode h in
  if op =? ADVC_OP_QUEUE_INPUT then Some (handle_queue s request reply)
  else if op =? ADVC_OP_DEQUEUE_OUTPUT then None
  else if op =? ADVC_OP_RELEASE_OUTPUT then Some (handle_release s request reply)
  else if op =? ADVC_OP_TRANSFER_AHB then
    Some (if version_minor h <? 2 then answer ADVC_STATUS_UNSUPPORTED s reply
          else handle_transfer_ahb s request reply)
  else if op =? ADVC_OP_TRANSFER_PRIME then
    Some (if version_minor h <? 6 then answer ADVC_STATUS_UNSUPPORTED s reply
          else handle_transfer_prime s request reply)
  else if op =? ADVC_OP_QUEUE_AHB then Some (handle_queue_ahb s request reply)
  else if op =? ADVC_OP_COMPLETE_AHB then Some (handle_complete_ahb s request reply)
  else if op =? ADVC_OP_REGISTER_DMABUF then Some (handle_register_dmabuf s request reply)
  else if op =? ADVC_OP_UNREGISTER_DMABUF then Some (handle_unregister_dmabuf s request reply)
  else if op =? ADVC_OP_QUEUE_DMABUF then Some (handle_queue_dmabuf s request reply)
  else if op =? ADVC_OP_COMPLETE_DMABUF then Some (handle_complete_dmabuf s request reply)
  else if op =? ADVC_OP_FLUSH then Some (handle_flush s request reply)
  else if op =? ADVC_OP_CLOSE_SESSION then Some (handle_close s request reply)
  else Some (answer ADVC_STATUS_UNSUPPORTED s reply).

Definition advc_session_engine_handle (e : advc_session_engine) (request reply : advc_message)
  : St (machine B) (Z * (advc_session_engine * advc_message)) :=
  let h := msg_header request in
  let stop status := mret (status, (e, reply)) in
  if bool_decide (msg_payload reply = None) || (payload_capacity reply <? ADVC_OUTPUT_BYTES_SIZE) ||
     ((0 <? payload_size h) && bool_decide (msg_payload request = None))
  then stop ADVC_STATUS_INTERNAL
  else if version_minor h <? 1 then stop ADVC_STATUS_UNSUPPORTED
  else if negb (h_flags h =? 0) then stop ADVC_STATUS_BAD_MESSAGE
  else if opcode h =? ADVC_OP_CREATE_SESSION then handle_create e request reply
  else match find_session e (session_id h) with
  | None => stop ADVC_STATUS_BAD_MESSAGE
  | Some i =>
      let s := session_at e i in
      if negb (s_pending_ahb_state s =? 0) && negb (opcode h =? ADVC_OP_COMPLETE_AHB)
      then stop ADVC_STATUS_WOULD_BLOCK
      else match session_handler s request reply with
      | Some run => x ← run; mret (put_session e i x)
      | None =>
          x ← handle_dequeue (eng_next_output_id e) s request reply;
          mret (put_session (Engine (eng_sessions e) (eng_next_session_id e) (snd x)) i (fst x))
      end
  end.

(** *** After the reply was sent *)

(** The second half of QUEUE_AHB: the native handle arrives. *)
Definition receive_pending_ahb (client_fd : Z) (s : advc_session_slot)
  : St (machine B) (Z * advc_session_slot) :=
  match ops_receive_ahb_input ops with
  | Some receive =>
      if negb (s_pending_ahb_state s =? 1) then mret (-1, s)
      else
        let input := s_pending_ahb s in
        x ← receive (s_backend_handle s) client_fd input;
        let '(status, release_fence) := x in
        if status =? ADVC_BACKEND_AHB_FATAL_TRANSPORT then
          close_if_open release_fence ;;
          mret (-1, set_pending no_ahb_input (s_pending_ahb_status s) (s_pending_ahb_detail s)
                      (s_pending_ahb_release_fence s) 0 s)
        else
          y ← (if (ADVC_STATUS_INTERNAL <? status) ||
                  (negb (status =? ADVC_STATUS_OK) && (0 <=? release_fence))
               then close_if_open release_fence ;; mret (ADVC_STATUS_INTERNAL, -1)
               else mret (status, release_fence));
          let inp := AhbInput (ai_pts_ns input) (ai_width input) (ai_height input)
                       (ai_format input) (ai_layers input) (ai_usage input) (-1) in
          mret (0, set_pending inp (fst y) 0 (snd y) 2 s)
  | None => mret (-1, s)
  end.

Definition mark_transferred (slot : advc_output_slot) : advc_output_slot :=
  OutSlot (out_id slot) (out_backend_token slot) (out_native_buffer slot)
    (out_prime_metadata slot) (out_transport slot) true (out_prime_transferred slot)
    (out_in_use slot).

(** The second half of TRANSFER_AHB: the native handle is sent. *)
Definition send_output_ahb (client_fd : Z) (request : advc_message) (s : advc_session_slot)
  : St (machine B) (Z * advc_session_slot) :=
  let h := msg_header request in
  if negb (opcode h =? ADVC_OP_TRANSFER_AHB) || negb (payload_size h =? ADVC_TRANSFER_AHB_SIZE)
  then mret (-1, s)
  else match find_output s (advc_get_u64 (payload_of request) 0) with
  | None => mret (-1, s)
  | Some i =>
      let slot := output_at s i in
      match ops_send_native_buffer ops with
      | Some send =>
          if out_transferred slot || (out_native_buffer slot =? 0) then mret (-1, s)
          else
            v ← send client_fd (out_native_buffer slot);
            if v <? 0 then mret (-1, s)
            else mret (0, set_outputs (<[i := mark_transferred slot]> (s_outputs s)) s)
      | None => mret (-1, s)
      end
  end.

Definition advc_session_engine_after_reply (e : advc_session_engine) (client_fd : Z)
  (request reply : advc_message) : St (machine B) (Z * advc_session_engine) :=
  if Z.land (h_flags (msg_header reply)) ADVC_FLAG_AHB_FOLLOWS =? 0 then mret (0, e)
  else match find_session e (session_id (msg_header request)) with
  | None => mret (-1, e)
  | Some i =>
      let s := session_at e i in
      x ← (if opcode (msg_header request) =? ADVC_OP_QUEUE_AHB
           then receive_pending_ahb client_fd s else send_output_ahb client_fd request s);
      mret (fst x, set_sessions (<[i := snd x]> (eng_sessions e)) e)
  end.

End Handlers.
