(* ===== verification/EngineFiles.v ===== *)
(** * Moving bytes through sealed memory files (session_engine.c)

    The retry loops [write_all_at] and [read_all_at] under arbitrary short
    transfers and interruptions, the sealed output file, and the exact set of
    requests [load_input] accepts. *)

From stdpp Require Import base list gmap.
From Stdlib Require Import ZArith Lia Bool.
From S2P Require Import Prelude Kernel Protocol Dmabuf Engine.

(** A possibly absent descriptor: negative numbers stand for none. *)
Definition opt_fd (fd : Z) : list Z := if 0 <=? fd then [fd] else [].

(** An answer of the environment that lets a transfer go on. *)
Definition progresses (v : Z) : bool := (v =? - EINTR) || (0 <? v).

Section Files.
Context {B : Type}.
Implicit Types m : machine B.
Implicit Types t : gmap Z fd_info.

Lemma next_io_cases m :
  (m_io m = [] /\ next_io m = (2 ^ 63 - 1, m)) \/
  (exists v l, m_io m = v :: l /\ v < 0 /\ next_io m = (v, set_errno (- v) (set_io l m))) \/
  (exists v l, m_io m = v :: l /\ 0 <= v /\ next_io m = (v, set_io l m)).
Proof.
  unfold next_io. destruct (m_io m) as [|v l]; [by left|right].
  destruct (Z.ltb_spec v 0); [left|right]; eauto 10.
Qed.

(** Rewriting inside the file: the bytes before [off], the written ones, and the
    rest. *)
Definition memfd t fd data : gmap Z fd_info := <[fd := FdInfo true (KMemFile data 0)]> t.

Lemma memfd_twice t fd a b : <[fd := FdInfo true (KMemFile b 0)]> (memfd t fd a) = memfd t fd b.
Proof. apply insert_insert_eq. Qed.

(** One [pwrite] into an unsealed file: it fails and leaves the table alone, or
    writes a prefix of the bytes. *)
Lemma pwrite_cases t fd cur bytes off m :
  m_fds m = memfd t fd cur -> 0 <= off -> off + zlen bytes <= zlen cur ->
  (exists m', sys_pwrite fd bytes off m = (-1, m') /\ m_fds m' = m_fds m /\
     exists v, m_io m = v :: m_io m' /\ v < 0 /\ m_errno m' = - v) \/
  (exists n m', sys_pwrite fd bytes off m = (n, m') /\ 0 <= n <= zlen bytes /\
     m_fds m' = memfd t fd (take (Z.to_nat off) cur ++ take (Z.to_nat n) bytes ++
                              drop (Z.to_nat (off + n)) cur) /\
     ((m_io m = [] /\ m_io m' = [] /\ Z.min (2 ^ 63 - 1) (zlen bytes) = n) \/
      (exists v, m_io m = v :: m_io m' /\ 0 <= v /\ n = Z.min v (zlen bytes)))).
Proof.
  intros Hm Hoff Hb. unfold sys_pwrite. rewrite bind_seq.
  assert (0 <= zlen bytes) by (unfold zlen; lia).
  destruct (next_io_cases m) as [(Hio & ->)|[(v & l & Hio & Hv & ->)|(v & l & Hio & Hv & ->)]];
    cbn [fst snd].
  - right. destruct (Z.ltb_spec (2 ^ 63 - 1) 0); [lia|]. rewrite bind_seq. cbn [gets fst snd].
    rewrite Hm. unfold memfd at 1. rewrite lookup_insert_eq. cbn [has_seal Z.land negb].
    replace (Z.min (2 ^ 63 - 1) (Z.min (zlen bytes) (zlen cur - off)))
      with (Z.min (2 ^ 63 - 1) (zlen bytes)) by lia.
    do 2 eexists. split; [reflexivity|]. split; [lia|]. cbn. rewrite Hm. split; [apply memfd_twice|].
    left. auto.
  - left. destruct (Z.ltb_spec v 0); [|lia]. eexists. split; [reflexivity|]. cbn. rewrite Hio. eauto.
  - right. destruct (Z.ltb_spec v 0); [lia|]. rewrite bind_seq. cbn [gets fst snd m_fds set_io].
    rewrite Hm. unfold memfd at 1. rewrite lookup_insert_eq. cbn [has_seal Z.land negb].
    replace (Z.min v (Z.min (zlen bytes) (zlen cur - off))) with (Z.min v (zlen bytes)) by lia.
    do 2 eexists. split; [reflexivity|]. split; [lia|]. cbn. rewrite Hm. split; [apply memfd_twice|].
    right. rewrite Hio. eauto.
Qed.

(** Writing [n] more bytes of [data] after the first [done_] extends the correct
    prefix. *)
Lemma prefix_extend (data cur : list Z) (done_ n : Z) :
  zlen cur = zlen data -> 0 <= done_ -> 0 <= n -> done_ + n <= zlen data ->
  take (Z.to_nat done_) cur = take (Z.to_nat done_) data ->
  let cur' := take (Z.to_nat done_) cur ++ take (Z.to_nat n) (drop (Z.to_nat done_) data) ++
              drop (Z.to_nat (done_ + n)) cur in
  zlen cur' = zlen data /\ take (Z.to_nat (done_ + n)) cur' = take (Z.to_nat (done_ + n)) data.
Proof.
  intros Hl Hd Hn Hb Ht. cbn zeta. unfold zlen in *. rewrite Ht.
  assert (take (Z.to_nat done_) data ++ take (Z.to_nat n) (drop (Z.to_nat done_) data) =
          take (Z.to_nat (done_ + n)) data) as Hj.
  { rewrite Z2Nat.inj_add by lia. apply take_take_drop. }
  rewrite app_assoc, Hj. split.
  - rewrite length_app, length_take, length_drop. lia.
  - apply take_app_length'. rewrite length_take. lia.
Qed.

(** The loop: the file keeps its size and the table its other entries; success
    means the file holds the data; with answers that let it progress it ends in
    success. *)
Lemma write_all_loop_spec t fd data fuel done_ cur m :
  m_fds m = memfd t fd cur -> zlen cur = zlen data -> 0 <= done_ <= zlen data ->
  take (Z.to_nat done_) cur = take (Z.to_nat done_) data ->
  let x := write_all_loop fuel fd data done_ m in
  (fst x = 0 \/ fst x = -1) /\
  (exists cur', m_fds (snd x) = memfd t fd cur' /\ (fst x = 0 -> cur' = data)) /\
  (Z.of_nat fuel > zlen data - done_ + zlen (m_io m) ->
   Forall (fun v => progresses v = true) (m_io m) -> zlen data < 2 ^ 62 -> fst x = 0).
Proof.
  revert done_ cur m. induction fuel as [|fuel IH]; intros done_ cur m Hm Hl Hd Ht; cbn zeta.
  { cbn [write_all_loop]. cbn. split; [by right|]. split; [exists cur; by split|].
    unfold zlen in *. lia. }
  cbn [write_all_loop]. destruct (Z.ltb_spec done_ (zlen data)) as [Hlt|Hge].
  2:{ cbn. split; [by left|]. split; [|done]. exists cur. split; [done|]. intros _.
      unfold zlen in *. rewrite !take_ge in Ht by lia. done. }
  rewrite bind_seq.
  destruct (pwrite_cases t fd cur (drop (Z.to_nat done_) data) done_ m)
    as [(m' & -> & Hf & v & Hio & Hv & He)|(n & m' & -> & Hn & Hf & Hio)]; try done.
  { lia. }
  { unfold zlen in *. rewrite length_drop. lia. }
  - rewrite bind_seq. cbn [fst snd errno gets Z.ltb Z.compare andb].
    destruct (Z.eqb_spec (m_errno m') EINTR) as [Hint|Hne].
    + destruct (IH done_ cur m') as (H1 & H2 & H3); try done; [by rewrite Hf|].
      split; [done|]. split; [done|]. intros Hfuel Hall Hsz. apply H3; [|by rewrite Hio in Hall; inv Hall|done].
      rewrite Hio in Hfuel. unfold zlen in *. cbn in Hfuel. lia.
    + cbn. split; [by right|]. split; [exists cur; split; [by rewrite Hf|done]|].
      intros _ Hall _. rewrite Hio in Hall. inv Hall. unfold progresses in *.
      change EINTR with 4 in *. exfalso. lia.
  - assert (zlen (drop (Z.to_nat done_) data) = zlen data - done_) as Hrest
      by (unfold zlen in *; rewrite length_drop; lia).
    rewrite bind_seq. cbn [fst snd errno gets].
    destruct (Z.ltb_spec n 0); [lia|]. cbn [andb]. destruct (Z.leb_spec n 0) as [H0|H0].
    + cbn. split; [by right|]. split; [eexists; split; [exact Hf|done]|].
      intros _ Hall Hsz. exfalso. destruct Hio as [(_ & _ & Hn')|(v & Hio & Hv & Hn')]; [lia|].
      rewrite Hio in Hall. inv Hall. unfold progresses in *. change EINTR with 4 in *. lia.
    + destruct (prefix_extend data cur done_ n) as [Hl' Ht']; try done; try lia.
      destruct (IH (done_ + n) _ m' Hf Hl') as (H1 & H2 & H3); [lia|done|].
      split; [done|]. split; [done|]. intros Hfuel Hall Hsz. apply H3; [| |done].
      * destruct Hio as [(Hio & Hio' & _)|(v & Hio & _)]; rewrite ?Hio, ?Hio' in *; unfold zlen in *; cbn in *; lia.
      * destruct Hio as [(Hio & Hio' & _)|(v & Hio & _)]; [by rewrite Hio'|].
        rewrite Hio in Hall. by inv Hall.
Qed.

(** Closing the new file restores the table. *)
Lemma abandon_spec t fd f m :
  m_fds m = <[fd := f]> t -> t !! fd = None ->
  let x := (saved ← errno; sys_close fd ;; errno_is saved ;; mret (-1)) m in
  fst x = -1 /\ m_fds (snd x) = t.
Proof.
  intros Hm Hn. cbn zeta. rewrite !bind_seq. cbn [errno gets fst snd].
  rewrite (close_open_fds fd m f) by (by rewrite Hm, lookup_insert_eq). cbn.
  split; [done|]. rewrite Hm. by apply delete_insert_id.
Qed.

(** A file call that reports failure with the next answer, or goes through. *)
Lemma memfd_create_cases m :
  (exists m', sys_memfd_create m = (-1, m') /\ m_fds m' = m_fds m /\
     (m_io m = [] -> m_limit m <= lowest_free (m_fds m))) \/
  (exists m', sys_memfd_create m = (lowest_free (m_fds m), m') /\
     m_fds m' = memfd (m_fds m) (lowest_free (m_fds m)) [] /\ (m_io m = [] -> m_io m' = [])).
Proof.
  unfold sys_memfd_create. rewrite bind_seq.
  destruct (next_io_cases m) as [(Hio & ->)|[(v & l & Hio & Hv & ->)|(v & l & Hio & Hv & ->)]];
    cbn [fst snd].
  - destruct (Z.ltb_spec (2 ^ 63 - 1) 0); [lia|]. unfold install_fd.
    destruct (Z.leb_spec (m_limit m) (lowest_free (m_fds m))); [left|right]; eauto 10.
  - destruct (Z.ltb_spec v 0); [|lia]. left. eexists. split; [reflexivity|]. split; [done|].
    by rewrite Hio.
  - destruct (Z.ltb_spec v 0); [lia|]. unfold install_fd. cbn.
    destruct (Z.leb_spec (m_limit m) (lowest_free (m_fds m))); [left|right];
      eexists; (split; [reflexivity|]); cbn; rewrite Hio; done.
Qed.

Lemma ftruncate_cases t fd n m :
  m_fds m = memfd t fd [] -> 0 <= n ->
  (exists m', sys_ftruncate fd n m = (-1, m') /\ m_fds m' = m_fds m /\ m_io m <> []) \/
  (exists m', sys_ftruncate fd n m = (0, m') /\
     m_fds m' = memfd t fd (replicate (Z.to_nat n) 0) /\ (m_io m = [] -> m_io m' = [])).
Proof.
  intros Hm Hn. unfold sys_ftruncate. rewrite bind_seq.
  destruct (next_io_cases m) as [(Hio & ->)|[(v & l & Hio & Hv & ->)|(v & l & Hio & Hv & ->)]];
    cbn [fst snd].
  - right. destruct (Z.ltb_spec (2 ^ 63 - 1) 0); [lia|]. rewrite bind_seq. cbn [gets fst snd].
    rewrite Hm. unfold memfd at 1. rewrite lookup_insert_eq. cbn [has_seal Z.land negb].
    rewrite !andb_false_r. cbn [orb]. eexists. split; [reflexivity|]. cbn. split; [|done].
    rewrite Hm, memfd_twice. by rewrite resize_nil.
  - left. destruct (Z.ltb_spec v 0); [|lia]. eexists. split; [reflexivity|]. by rewrite Hio.
  - right. destruct (Z.ltb_spec v 0); [lia|]. rewrite bind_seq. cbn [gets fst snd m_fds set_io].
    rewrite Hm. unfold memfd at 1. rewrite lookup_insert_eq. cbn [has_seal Z.land negb].
    rewrite !andb_false_r. cbn [orb]. eexists. split; [reflexivity|]. cbn. rewrite Hio. split; [|done].
    rewrite Hm, memfd_twice. by rewrite resize_nil.
Qed.

Definition ALL_SEALS : Z :=
  Z.lor (Z.lor (Z.lor F_SEAL_SHRINK F_SEAL_GROW) F_SEAL_WRITE) F_SEAL_SEAL.

Lemma add_seals_cases t fd data m :
  m_fds m = memfd t fd data ->
  (exists m', fcntl_add_seals fd ALL_SEALS m = (-1, m') /\ m_fds m' = m_fds m /\ m_io m <> []) \/
  (exists m', fcntl_add_seals fd ALL_SEALS m = (0, m') /\
     m_fds m' = <[fd := FdInfo true (KMemFile data ALL_SEALS)]> t).
Proof.
  intros Hm. unfold fcntl_add_seals. rewrite bind_seq.
  destruct (next_io_cases m) as [(Hio & ->)|[(v & l & Hio & Hv & ->)|(v & l & Hio & Hv & ->)]];
    cbn [fst snd].
  - right. destruct (Z.ltb_spec (2 ^ 63 - 1) 0); [lia|]. rewrite bind_seq. cbn [gets fst snd].
    rewrite Hm. unfold memfd at 1. rewrite lookup_insert_eq. cbn [has_seal Z.land negb].
    eexists. split; [reflexivity|]. cbn. rewrite Hm. apply insert_insert_eq.
  - left. destruct (Z.ltb_spec v 0); [|lia]. eexists. split; [reflexivity|]. by rewrite Hio.
  - right. destruct (Z.ltb_spec v 0); [lia|]. rewrite bind_seq. cbn [gets fst snd m_fds set_io].
    rewrite Hm. unfold memfd at 1. rewrite lookup_insert_eq. cbn [has_seal Z.land negb].
    eexists. split; [reflexivity|]. cbn. rewrite Hm. apply insert_insert_eq.
Qed.

Lemma write_all_io fuel fd data done_ m :
  m_io m = [] -> m_io (snd (write_all_loop fuel fd data done_ m)) = [].
Proof.
  revert done_ m. induction fuel as [|fuel IH]; intros done_ m Hio; [done|]. cbn [write_all_loop].
  destruct (done_ <? zlen data); [|done]. rewrite bind_seq.
  assert (m_io (snd (sys_pwrite fd (drop (Z.to_nat done_) data) done_ m)) = []) as Hio'.
  { unfold sys_pwrite. rewrite bind_seq. unfold next_io. rewrite Hio. cbn [fst snd].
    destruct (2 ^ 63 - 1 <? 0); [done|]. rewrite bind_seq. cbn [gets fst snd].
    destruct (m_fds m !! fd) as [[c []]|]; try done. by destruct (has_seal _ _). }
  destruct (sys_pwrite _ _ _ m) as [n m']. cbn [fst snd] in *. rewrite bind_seq. cbn [errno gets fst snd].
  destruct (_ && _); [by apply IH|]. destruct (n <=? 0); [done|by apply IH].
Qed.

Lemma create_sealed_output_spec data m :
  let x := create_sealed_output data m in
  ((fst x = -1 /\ m_fds (snd x) = m_fds m) \/
   (0 <= fst x /\ m_fds m !! fst x = None /\
    m_fds (snd x) = <[fst x := FdInfo true (KMemFile data ALL_SEALS)]> (m_fds m))) /\
  (m_io m = [] -> lowest_free (m_fds m) < m_limit m -> zlen data < 2 ^ 62 -> 0 <= fst x).
Proof.
  cbn zeta. unfold create_sealed_output. rewrite bind_seq.
  destruct (memfd_create_cases m) as [(m1 & -> & Hf1 & Hl1)|(m1 & -> & Hf1 & Hio1)]; cbn [fst snd].
  { cbn. split; [by left|]. intros Hio%Hl1. lia. }
  pose proof (lowest_free_spec (m_fds m)) as [Hnn Hfresh]. set (fd := lowest_free (m_fds m)) in *.
  destruct (Z.ltb_spec fd 0); [lia|]. rewrite bind_seq.
  assert (0 <= zlen data) as Hz by (unfold zlen; lia).
  destruct (ftruncate_cases (m_fds m) fd (zlen data) m1 Hf1 Hz)
    as [(m2 & -> & Hf2 & Hio2)|(m2 & -> & Hf2 & Hio2)]; cbn [fst snd Z.ltb Z.compare].
  { destruct (abandon_spec (m_fds m) fd (FdInfo true (KMemFile [] 0)) m2) as [H1 H2];
      [by rewrite Hf2|done|]. split; [by left|]. intros Hio%Hio1. done. }
  assert (exists b m3, (if 0 <? zlen data then write_all_at fd data else mret 0) m2 = (b, m3) /\
    (b = 0 \/ b = -1) /\ (exists cur, m_fds m3 = memfd (m_fds m) fd cur /\ (b = 0 -> cur = data)) /\
    (m_io m2 = [] -> m_io m3 = []) /\ (m_io m2 = [] -> zlen data < 2 ^ 62 -> b = 0))
    as (b & m3 & Hw & Hb & (cur & Hf3 & Hcur) & Hio3 & Hlive).
  { destruct (Z.ltb_spec 0 (zlen data)) as [Hpos|Hzero].
    - destruct (write_all_at fd data m2) as [b m3] eqn:E. exists b, m3. split; [done|].
      unfold write_all_at in E. rewrite bind_seq in E. cbn [gets fst snd] in E.
      destruct (write_all_loop_spec (m_fds m) fd data (S (length data + length (m_io m2))) 0
        (replicate (Z.to_nat (zlen data)) 0) m2) as (H1 & H2 & H3); try done.
      { unfold zlen. rewrite length_replicate. lia. }
      pose proof (write_all_io (S (length data + length (m_io m2))) fd data 0 m2) as H4.
      rewrite E in *. cbn [fst snd] in *. split; [done|]. split; [done|]. split; [done|].
      intros Hio Hsz. apply H3; [unfold zlen; lia|rewrite Hio; constructor|done].
    - do 2 eexists. split; [reflexivity|]. split; [by left|]. split; [|done].
      exists (replicate (Z.to_nat (zlen data)) 0). split; [done|].
      assert (data = []) as ->; [|done]. destruct data; [done|]. unfold zlen in *. cbn in *. lia. }
  rewrite bind_seq, Hw. cbn [fst snd].
  destruct Hb as [-> | ->]; cbn [Z.ltb Z.compare].
  2:{ destruct (abandon_spec (m_fds m) fd (FdInfo true (KMemFile cur 0)) m3) as [H1 H2]; [done..|].
      split; [by left|]. intros Hio _ Hsz. assert (-1 = 0); [|done]. auto. }
  rewrite Hcur in Hf3 by done. rewrite bind_seq. change (Z.lor (Z.lor (Z.lor _ _) _) _) with ALL_SEALS.
  destruct (add_seals_cases (m_fds m) fd data m3 Hf3) as [(m4 & -> & Hf4 & Hio4)|(m4 & -> & Hf4)];
    cbn [fst snd Z.ltb Z.compare].
  { destruct (abandon_spec (m_fds m) fd (FdInfo true (KMemFile data 0)) m4) as [H1 H2];
      [by rewrite Hf4|done|]. split; [by left|]. intros Hio _ Hsz. exfalso. auto. }
  cbn. split; [|done]. right. split; [done|]. by rewrite Hf4.
Qed.

(** ** Reading *)

Lemma pread_cases fd data seals c n off m :
  m_fds m !! fd = Some (FdInfo c (KMemFile data seals)) ->
  0 <= n -> 0 <= off -> off + n <= zlen data ->
  (exists m', sys_pread fd n off m = ((-1, []), m') /\ m_fds m' = m_fds m /\
     exists v, m_io m = v :: m_io m' /\ v < 0 /\ m_errno m' = - v) \/
  (exists k m', sys_pread fd n off m =
       ((k, take (Z.to_nat k) (drop (Z.to_nat off) data)), m') /\ 0 <= k <= n /\
     m_fds m' = m_fds m /\
     ((m_io m = [] /\ m_io m' = [] /\ Z.min (2 ^ 63 - 1) n = k) \/
      (exists v, m_io m = v :: m_io m' /\ 0 <= v /\ k = Z.min v n))).
Proof.
  intros Hfd Hn Hoff Hb. unfold sys_pread. rewrite bind_seq.
  assert (forall v, 0 <= v ->
    zlen (take (Z.to_nat (Z.min v n)) (drop (Z.to_nat off) data)) = Z.min v n) as Hlen.
  { intros v Hv. unfold zlen in *. rewrite length_take, length_drop. lia. }
  destruct (next_io_cases m) as [(Hio & ->)|[(v & l & Hio & Hv & ->)|(v & l & Hio & Hv & ->)]];
    cbn [fst snd].
  - right. destruct (Z.ltb_spec (2 ^ 63 - 1) 0); [lia|]. rewrite bind_seq. cbn [gets fst snd].
    rewrite Hfd. cbn [mret st_ret]. rewrite Hlen by lia. do 2 eexists.
    split; [reflexivity|]. split; [lia|]. split; [done|]. left. auto.
  - left. destruct (Z.ltb_spec v 0); [|lia]. eexists. split; [reflexivity|]. cbn. rewrite Hio. eauto.
  - right. destruct (Z.ltb_spec v 0); [lia|]. rewrite bind_seq. cbn [gets fst snd m_fds set_io].
    rewrite Hfd. cbn [mret st_ret]. rewrite Hlen by lia. do 2 eexists.
    split; [reflexivity|]. split; [lia|]. split; [done|]. right. cbn. rewrite Hio. eauto.
Qed.

(** The read loop returns exactly the requested range, or fails; with answers
    that let it progress it does not fail. *)
Lemma read_all_loop_spec fd data seals c size offset fuel got m :
  m_fds m !! fd = Some (FdInfo c (KMemFile data seals)) ->
  0 <= offset -> offset + size <= zlen data -> zlen got <= size ->
  got = take (length got) (drop (Z.to_nat offset) data) ->
  let x := read_all_loop fuel fd got size offset m in
  m_fds (snd x) = m_fds m /\
  (fst x = None \/ fst x = Some (take (Z.to_nat size) (drop (Z.to_nat offset) data))) /\
  (Z.of_nat fuel > size - zlen got + zlen (m_io m) ->
   Forall (fun v => progresses v = true) (m_io m) -> zlen data < 2 ^ 62 -> fst x <> None).
Proof.
  intros Hfd Hoff Hb. revert got m Hfd.
  induction fuel as [|fuel IH]; intros got m Hfd Hle Hgot; cbn zeta.
  { cbn. split; [done|]. split; [by left|]. unfold zlen in *. lia. }
  cbn [read_all_loop]. destruct (Z.ltb_spec (zlen got) size) as [Hlt|Hge].
  2:{ cbn. split; [done|]. split; [|done]. right. f_equal. rewrite Hgot. unfold zlen in *. f_equal. lia. }
  rewrite bind_seq.
  destruct (pread_cases fd data seals c (size - zlen got) (offset + zlen got) m Hfd)
    as [(m' & -> & Hf & v & Hio & Hv & He)|(k & m' & -> & Hk & Hf & Hio)].
  { lia. } { unfold zlen in *. lia. } { lia. }
  - rewrite bind_seq. cbn [fst snd errno gets Z.ltb Z.compare andb].
    destruct (Z.eqb_spec (m_errno m') EINTR) as [Hint|Hne].
    + destruct (IH got m') as (H1 & H2 & H3); try done; [by rewrite Hf|].
      split; [by rewrite H1|]. split; [done|]. intros Hfuel Hall Hsz.
      apply H3; [|by rewrite Hio in Hall; inv Hall|done].
      rewrite Hio in Hfuel. unfold zlen in *. cbn in Hfuel. lia.
    + cbn. split; [done|]. split; [by left|].
      intros _ Hall _. rewrite Hio in Hall. inv Hall. unfold progresses in *.
      change EINTR with 4 in *. exfalso. lia.
  - rewrite bind_seq. cbn [fst snd errno gets].
    destruct (Z.ltb_spec k 0); [lia|]. cbn [andb]. destruct (Z.leb_spec k 0) as [H0|H0].
    + cbn. split; [done|]. split; [by left|].
      intros _ Hall Hsz. exfalso. unfold zlen in *.
      destruct Hio as [(_ & _ & Hn')|(v & Hio & Hv & Hn')]; [lia|].
      rewrite Hio in Hall. inv Hall. unfold progresses in *. change EINTR with 4 in *. lia.
    + set (more := take (Z.to_nat k) (drop (Z.to_nat (offset + zlen got)) data)).
      assert (zlen more = k) as Hmore.
      { unfold more, zlen in *. rewrite length_take, length_drop. lia. }
      destruct (IH (got ++ more) m') as (H1 & H2 & H3).
      { by rewrite Hf. }
      { unfold zlen in *. rewrite length_app. lia. }
      { rewrite length_app. replace (length more) with (Z.to_nat k) by (unfold zlen in *; lia).
        rewrite <- take_take_drop, drop_drop, <- Hgot. unfold more. do 3 f_equal.
        unfold zlen. lia. }
      split; [by rewrite H1|]. split; [done|]. intros Hfuel Hall Hsz.
      apply H3; [| |done].
      * assert (zlen (got ++ more) = zlen got + k) as -> by (unfold zlen in *; rewrite length_app; lia).
        destruct Hio as [(Hio & Hio' & _)|(v & Hio & _)]; rewrite ?Hio, ?Hio' in *; unfold zlen in *; cbn in *; lia.
      * destruct Hio as [(Hio & Hio' & _)|(v & Hio & _)]; [by rewrite Hio'|].
        rewrite Hio in Hall. by inv Hall.
Qed.

(** The bytes a QUEUE_INPUT request names: inline after the fixed part, or a
    range of one file that can no longer be written, grown or shrunk. *)
Definition in_size (request : advc_message) : Z := advc_get_u64 (payload_of request) 24.
Definition in_offset (request : advc_message) : Z := advc_get_u64 (payload_of request) 16.
Definition in_role (request : advc_message) : Z := advc_get_u32 (payload_of request) 36.
Definition in_clean (request : advc_message) : Prop :=
  bytes_are_zero (payload_of request) 40 8 = true /\ in_size request <= ADVC_MAX_INPUT_BYTES.

Inductive names_input (t : gmap Z fd_info) (request : advc_message) : list Z -> Prop :=
  | NamesInline :
      fd_count (msg_header request) = 0 -> in_role request = ADVC_FD_NONE ->
      in_offset request = 48 -> in_clean request ->
      payload_size (msg_header request) = 48 + in_size request ->
      names_input t request (take (Z.to_nat (in_size request)) (drop 48 (payload_of request)))
  | NamesFile c data seals :
      fd_count (msg_header request) = 1 -> in_role request = ADVC_FD_INPUT_DATA ->
      payload_size (msg_header request) = 48 -> in_clean request ->
      t !! fd_at request 0 = Some (FdInfo c (KMemFile data seals)) ->
      0 <= seals -> Z.land seals 14 = 14 ->
      in_offset request + in_size request <= zlen data ->
      names_input t request
        (take (Z.to_nat (in_size request)) (drop (Z.to_nat (in_offset request)) data)).

(** Files are smaller than the off_t range. *)
Definition files_bounded (t : gmap Z fd_info) : Prop :=
  forall fd c data seals, t !! fd = Some (FdInfo c (KMemFile data seals)) -> zlen data < 2 ^ 62.

Lemma alloc_cases m :
  m_fds (snd (sys_alloc m)) = m_fds m /\ m_io (snd (sys_alloc m)) = m_io m /\
  (m_alloc m = [] -> fst (sys_alloc m) = true).
Proof. unfold sys_alloc. by destruct (m_alloc m) as [|[] l]. Qed.

Lemma sealed_spec fd m :
  m_fds (snd (input_fd_is_sealed fd m)) = m_fds m /\ m_io (snd (input_fd_is_sealed fd m)) = m_io m /\
  m_alloc (snd (input_fd_is_sealed fd m)) = m_alloc m /\
  (fst (input_fd_is_sealed fd m) = true <->
   exists c data seals, m_fds m !! fd = Some (FdInfo c (KMemFile data seals)) /\
     0 <= seals /\ Z.land seals 14 = 14).
Proof.
  unfold input_fd_is_sealed, fcntl_get_seals. rewrite !bind_seq. cbn [gets fst snd].
  change (Z.lor (Z.lor F_SEAL_SHRINK F_SEAL_GROW) F_SEAL_WRITE) with 14.
  destruct (m_fds m !! fd) as [[c [|data seals| |]]|]; cbn;
    try (split_and!; [done..|]; split; [done|]; intros (? & ? & ? & [=] & _)).
  split_and!; [done..|]. rewrite andb_true_iff, Z.leb_le, Z.eqb_eq. split; [eauto 10|].
  by intros (? & ? & ? & [= <- <- <-] & ?).
Qed.

(** The file branch, once the header and the range arithmetic are in order. *)
Definition load_from_file (fd size64 offset : Z) : St (machine B) (Z * list Z) :=
  st ← sys_fstat fd;
  match st with
  | Some (true, st_size) =>
      sealed ← input_fd_is_sealed fd;
      if negb sealed || (st_size <? u64 (offset + size64))
      then mret (ADVC_STATUS_BAD_MESSAGE, [])
      else
        ok ← sys_alloc;
        if negb ok then mret (ADVC_STATUS_NO_RESOURCE, [])
        else if 0 <? size64 then
          x ← read_all_at fd size64 offset;
          match x with
          | None => mret (ADVC_STATUS_BAD_MESSAGE, [])
          | Some bytes => mret (ADVC_STATUS_OK, bytes)
          end
        else mret (ADVC_STATUS_OK, [])
  | _ => mret (ADVC_STATUS_BAD_MESSAGE, [])
  end.

Definition readable (t : gmap Z fd_info) (fd size offset : Z) (bytes : list Z) : Prop :=
  exists c data seals, t !! fd = Some (FdInfo c (KMemFile data seals)) /\ 0 <= seals /\
    Z.land seals 14 = 14 /\ offset + size <= zlen data /\
    bytes = take (Z.to_nat size) (drop (Z.to_nat offset) data).

Lemma load_from_file_spec fd size offset m :
  0 <= size -> 0 <= offset -> is_u64 (offset + size) -> files_bounded (m_fds m) ->
  let x := load_from_file fd size offset m in
  m_fds (snd x) = m_fds m /\
  (fst (fst x) = ADVC_STATUS_OK -> readable (m_fds m) fd size offset (snd (fst x))) /\
  (forall bytes, readable (m_fds m) fd size offset bytes -> m_alloc m = [] ->
     Forall (fun v => progresses v = true) (m_io m) -> fst x = (ADVC_STATUS_OK, bytes)).
Proof.
  intros Hs Ho Hu Hbd. cbn zeta. unfold load_from_file. rewrite bind_seq.
  unfold sys_fstat. rewrite bind_seq. cbn [gets fst snd].
  destruct (m_fds m !! fd) as [[c [|data seals| |]]|] eqn:Hfd; cbn [mret st_ret fst snd];
    try (split; [done|]; split; [done|]; intros bytes (? & ? & ? & [=] & _); congruence).
  rewrite bind_seq. destruct (sealed_spec fd m) as (Hf & Hio & Hal & Hsl).
  destruct (input_fd_is_sealed fd m) as [sl m1]. cbn [fst snd] in *.
  rewrite (u64_id _ Hu). destruct (negb sl || _) eqn:E.
  { split; [done|]. split; [done|]. intros bytes (c' & data' & seals' & Hfd' & H1 & H2 & H3 & ->).
    rewrite Hfd in Hfd'. injection Hfd' as -> -> ->. exfalso.
    assert (sl = true) by (apply Hsl; eauto 10). subst sl. cbn in E. lia. }
  assert (sl = true /\ offset + size <= zlen data) as [-> Hle] by (destruct sl; cbn in E; [lia|done]).
  destruct (proj1 Hsl eq_refl) as (c' & data' & seals' & Hfd' & H1 & H2).
  rewrite Hfd in Hfd'. injection Hfd' as <- <- <-.
  assert (readable (m_fds m) fd size offset (take (Z.to_nat size) (drop (Z.to_nat offset) data))) as Hrd.
  { do 3 eexists. eauto. }
  assert (forall bytes, readable (m_fds m) fd size offset bytes ->
    bytes = take (Z.to_nat size) (drop (Z.to_nat offset) data)) as Huniq.
  { intros bytes (c' & data' & seals' & Hfd' & _ & _ & _ & ->). rewrite Hfd in Hfd'.
    by injection Hfd' as -> -> ->. }
  rewrite bind_seq. destruct (alloc_cases m1) as (Hf2 & Hio2 & Hok2).
  destruct (sys_alloc m1) as [ok m2]. cbn [fst snd] in *.
  destruct ok; cbn [negb].
  2:{ split; [by rewrite <- Hf|]. split; [done|]. intros bytes _ Ha. rewrite Hal in Hok2.
      discriminate (Hok2 Ha). }
  destruct (Z.ltb_spec 0 size) as [Hpos|Hzero].
  - rewrite bind_seq. unfold read_all_at. rewrite bind_seq. cbn [gets fst snd].
    destruct (read_all_loop_spec fd data seals c size offset
      (S (Z.to_nat size + length (m_io m2))) [] m2) as (H3 & H4 & H5); try done.
    { by rewrite Hf2, Hf. }
    destruct (read_all_loop _ _ _ _ _ _) as [[bs|] m3]; cbn [fst snd] in *.
    + destruct H4 as [H4|[= ->]]; [done|]. cbn. split; [by rewrite H3, Hf2, Hf|]. split; [done|].
      intros bytes ->%Huniq _ _. done.
    + cbn. split; [by rewrite H3, Hf2, Hf|]. split; [done|]. intros bytes _ Ha Hall. exfalso.
      apply H5; [unfold zlen; cbn; lia| |by eapply Hbd|done]. by rewrite Hio2, Hio.
  - assert (size = 0) as -> by lia. cbn. split; [by rewrite Hf2, Hf|]. split; [done|].
    intros bytes ->%Huniq _ _. done.
Qed.

Ltac names Hn := inv Hn; unfold in_clean, in_role, in_offset, in_size in *; destruct_and?.

Lemma load_input_spec request m :
  is_u32 (payload_size (msg_header request)) -> is_u16 (fd_count (msg_header request)) ->
  files_bounded (m_fds m) ->
  let x := load_input request m in
  m_fds (snd x) = m_fds m /\
  (fst (fst x) = ADVC_STATUS_OK -> names_input (m_fds m) request (snd (fst x))) /\
  (forall bytes, names_input (m_fds m) request bytes -> m_alloc m = [] ->
     Forall (fun v => progresses v = true) (m_io m) -> fst x = (ADVC_STATUS_OK, bytes)).
Proof.
  intros Hps Hfc Hbd. cbn zeta. unfold load_input.
  cbn zeta.
  pose proof (get_u64_range (payload_of request) 16) as Ro. pose proof (get_u64_range (payload_of request) 24) as Rs.
  unfold ADVC_QUEUE_INPUT_SIZE, ADVC_MAX_INPUT_BYTES in *.
  destruct (Z.ltb_spec (payload_size (msg_header request)) 48) as [Hshort|Hlong].
  { cbn. split; [done|]. split; [done|]. intros bytes Hn. exfalso.
    names Hn; wunfold; lia. }
  destruct (bytes_are_zero (payload_of request) 40 8) eqn:Ez; cbn [negb].
  2:{ cbn. split; [done|]. split; [done|]. intros bytes Hn. exfalso. names Hn; congruence. }
  destruct ((16 * 1024 * 1024 <? advc_get_u64 (payload_of request) 24) || _) eqn:Esz.
  { cbn. split; [done|]. split; [done|]. intros bytes Hn. exfalso.
    names Hn; unfold ADVC_MAX_INPUT_BYTES, SIZE_MAX, UINT64_MAX in *; wunfold; lia. }
  unfold SIZE_MAX, UINT64_MAX in Esz.
  destruct (Z.eqb_spec (fd_count (msg_header request)) 0) as [E0|E0].
  { match goal with |- context [if ?c then _ else _] => destruct c eqn:E end.
    - cbn. split; [done|]. split; [done|]. intros bytes Hn. exfalso.
      names Hn; unfold ADVC_MAX_INPUT_BYTES, UINT32_MAX in *; [|lia].
      rewrite (u32_id (advc_get_u64 (payload_of request) 24)) in E by (wunfold; lia).
      rewrite (u32_id (48 + advc_get_u64 (payload_of request) 24)) in E by (wunfold; lia). lia.
    - cbn. split; [done|]. unfold UINT32_MAX in E.
      rewrite (u32_id (advc_get_u64 (payload_of request) 24)) in E by (wunfold; lia).
      rewrite (u32_id (48 + advc_get_u64 (payload_of request) 24)) in E by (wunfold; lia). split.
      + intros _. apply NamesInline; unfold in_clean, in_role, in_offset, in_size, ADVC_MAX_INPUT_BYTES; repeat split; lia || done.
      + intros bytes Hn _ _. names Hn; [done|lia]. }
  destruct (_ && _ && _) eqn:E1.
  2:{ cbn. split; [done|]. split; [done|]. intros bytes Hn. exfalso. names Hn; lia. }
  destruct ((INT64_MAX <? _) || _) eqn:E2.
  { cbn. split; [done|]. split; [done|]. intros bytes Hn. exfalso.
    names Hn.
    match goal with H : m_fds m !! _ = _ |- _ => pose proof (Hbd _ _ _ _ H) end.
    unfold INT64_MAX in *. rewrite u64_id in E2 by wsolve. wunfold. lia. }
  assert (is_u64 (advc_get_u64 (payload_of request) 16 + advc_get_u64 (payload_of request) 24)) as Hsum by (unfold INT64_MAX in *; wunfold; lia).
  change (_ ≫= _) with (load_from_file (fd_at request 0) (advc_get_u64 (payload_of request) 24) (advc_get_u64 (payload_of request) 16)).
  destruct (load_from_file_spec (fd_at request 0) (advc_get_u64 (payload_of request) 24) (advc_get_u64 (payload_of request) 16) m)
    as (H1 & H2 & H3); [apply Rs|apply Ro|done..|].
  split; [done|]. split.
  - intros (c & data & seals & Hfd & ? & ? & ? & ->)%H2.
    eapply NamesFile; unfold in_clean, in_role, in_offset, in_size, ADVC_MAX_INPUT_BYTES;
      eauto; repeat split; lia || done.
  - intros bytes Hn. apply H3. names Hn. do 3 eexists. eauto.
Qed.

End Files.

(** ** Properties *)

Section Claims.
Context {B : Type}.
Implicit Types m : machine B.

(** Output bytes leave the engine immutable and complete:
    [create_sealed_output] either fails without leaving a descriptor open, or
    opens exactly one, a close-on-exec memory file that holds the data byte for
    byte and carries all four seals.  When the environment reports no error and
    the descriptor table has room, it succeeds. *)
Theorem sealed_output_exact data m :
  let x := create_sealed_output data m in
  ((fst x = -1 /\ m_fds (snd x) = m_fds m) \/
   (0 <= fst x /\ m_fds m !! fst x = None /\
    m_fds (snd x) = <[fst x := FdInfo true (KMemFile data ALL_SEALS)]> (m_fds m))) /\
  (m_io m = [] -> lowest_free (m_fds m) < m_limit m -> zlen data < 2 ^ 62 -> 0 <= fst x).
Proof. apply create_sealed_output_spec. Qed.

(** [load_input] accepts exactly the requests that name an input, and
    returns exactly the bytes they name, whatever short reads and interruptions
    the kernel answers with: inline bytes must fill the payload, file ranges
    must lie inside one regular file sealed against writing, growing and
    shrinking, and neither may exceed 16 MiB.  It opens and closes nothing. *)
Theorem load_input_exact request m :
  is_u32 (payload_size (msg_header request)) -> is_u16 (fd_count (msg_header request)) ->
  files_bounded (m_fds m) ->
  let x := load_input request m in
  m_fds (snd x) = m_fds m /\
  (fst (fst x) = ADVC_STATUS_OK -> names_input (m_fds m) request (snd (fst x))) /\
  (forall bytes, names_input (m_fds m) request bytes -> m_alloc m = [] ->
     Forall (fun v => progresses v = true) (m_io m) -> fst x = (ADVC_STATUS_OK, bytes)).
Proof. apply load_input_spec. Qed.

End Claims.

(** A request for bytes 1 to 3 of a sealed five-byte file, read one byte at a
    time with an interruption in between. *)
Definition sample_request : advc_message :=
  Message (Header 1 8 ADVC_MSG_REQUEST ADVC_OP_QUEUE_INPUT 1 1 0 48 1 0)
    (Some (advc_put_u32 (advc_put_u64 (advc_put_u64 (replicate 48 0) 16 1) 24 3) 36 ADVC_FD_INPUT_DATA))
    64 [9].
Definition file_process : machine unit :=
  Machine tt {[9 := FdInfo true (KMemFile [10; 11; 12; 13; 14] ALL_SEALS)]} 64 0 [] [] [] []
    [1; -4; 1].

Lemma load_input_exact_witness :
  fst (load_input sample_request file_process) = (ADVC_STATUS_OK, [11; 12; 13]).
Proof.
  destruct (load_input_exact sample_request file_process) as (_ & _ & H).
  - split; reflexivity || discriminate.
  - split; reflexivity || discriminate.
  - intros fd c data seals Hfd. cbn in Hfd. apply lookup_singleton_Some in Hfd as [_ [= <- <- <-]]. reflexivity.
  - apply H.
    + apply (NamesFile _ sample_request true [10; 11; 12; 13; 14] ALL_SEALS); try reflexivity.
      * split; [reflexivity|]. vm_compute. discriminate.
      * vm_compute. discriminate.
      * vm_compute. discriminate.
    + reflexivity.
    + repeat constructor.
Defined.

Lemma sealed_output_exact_witness :
  0 <= fst (create_sealed_output [1; 2; 3] (set_io [] file_process)).
Proof.
  apply (sealed_output_exact [1; 2; 3] (set_io [] file_process)); reflexivity.
Defined.
