(* ===== verification/EngineInv.v ===== *)
(** * The session engine keeps its invariant and leaks no descriptor

    The codec backend is an interface: the class [BackendOk] states what
    session_engine.h documents about each callback, and the theorems hold for
    every backend that meets it.  [engine_wf] is the engine's invariant and
    [engine_fds] the descriptors it owns; each handler preserves the first and
    accounts for every descriptor it opens, closes or hands to the reply. *)

From stdpp Require Import base list gmap.
From Stdlib Require Import ZArith Lia Bool.
From S2P Require Import Prelude Kernel Protocol Dmabuf Engine EngineFiles.

(** ** Ownership *)

Definition completion_fds (c : advc_dmabuf_completion_slot) : list Z :=
  opt_fd (co_release_fence_fd c).
Definition registry_fds (r : option advc_dmabuf_registry) : list Z := from_option owned_fds [] r.
(** Registered dma-bufs, the pending acquire fence, the pending release fence,
    and the release fences of completions not yet collected. *)
Definition session_fds (s : advc_session_slot) : list Z :=
  registry_fds (s_dmabufs s) ++ opt_fd (ai_acquire_fence_fd (s_pending_ahb s)) ++
  opt_fd (s_pending_ahb_release_fence s) ++ concat (completion_fds <$> s_completions s).
Definition slot_fds (s : advc_session_slot) : list Z := if s_in_use s then session_fds s else [].
Definition engine_fds (e : advc_session_engine) : list Z := concat (slot_fds <$> eng_sessions e).
(** The descriptors a reply carries to the client. *)
Definition reply_fds (reply : advc_message) : list Z :=
  take (Z.to_nat (fd_count (msg_header reply))) (msg_fds reply).

(** ** The backend's contract *)

Class BackendOk {B : Type} (ops : advc_backend_ops B) : Prop := {
  ok_create : forall c m, m_fds (snd (ops_create ops c m)) = m_fds m;
  ok_queue : forall h d n p f m, m_fds (snd (ops_queue_input ops h d n p f m)) = m_fds m;
  (** An output may come with a new acquire fence; without an output nothing is
      opened. *)
  ok_dequeue : forall h m, let x := ops_dequeue_output ops h blank_output m in
    if fst (fst x) =? ADVC_STATUS_OK
    then installed (m_fds m) (m_fds (snd x)) (opt_fd (bo_acquire_fence_fd (snd (fst x))))
    else m_fds (snd x) = m_fds m;
  (** The release fence is consumed. *)
  ok_release : forall h tok f t m, installed t (m_fds m) (opt_fd f) ->
    m_fds (snd (ops_release_output ops h tok f m)) = t;
  (** On every return the declared descriptors are owned, unique and contiguous. *)
  ok_export : forall f, ops_export_decode_prime ops = Some f ->
    forall h nb md id d m, let x := f h nb md id d m in
    descriptor_typed (snd (fst x)) /\
    installed (m_fds m) (m_fds (snd x)) (concat (opt_fd <$> declared_fds (snd (fst x))));
  ok_send : forall f, ops_send_native_buffer ops = Some f ->
    forall fd nb m, m_fds (snd (f fd nb m)) = m_fds m;
  (** The acquire fence is consumed on every return; a release fence is new. *)
  ok_receive : forall f, ops_receive_ahb_input ops = Some f ->
    forall h fd i t m, installed t (m_fds m) (opt_fd (ai_acquire_fence_fd i)) ->
    installed t (m_fds (snd (f h fd i m))) (opt_fd (snd (fst (f h fd i m))));
  ok_allowed : forall f, ops_dmabuf_format_allowed ops = Some f ->
    forall h d m, m_fds (snd (f h d m)) = m_fds m;
  ok_submit : forall f, ops_submit_dmabuf ops = Some f ->
    forall h d p a t m, installed t (m_fds m) (opt_fd a) ->
    installed t (m_fds (snd (f h d p a m))) (opt_fd (snd (fst (f h d p a m))));
  ok_flush : forall h m, m_fds (snd (ops_flush ops h m)) = m_fds m;
  ok_destroy : forall h m, m_fds (snd (ops_destroy ops h m)) = m_fds m;
}.

(** The one descriptor the engine loses: a DEQUEUE_OUTPUT request for which the
    backend hands over an output whose size, data pointer or flags the engine
    refuses.  It releases the output and answers NO_RESOURCE, and closes no fence.
    [m] is the state in which the backend is called. *)
Definition fence_lost {B} (ops : advc_backend_ops B) (request : advc_message) (status : Z)
    (m : machine B) (lost : list Z) : Prop :=
  opcode (msg_header request) = ADVC_OP_DEQUEUE_OUTPUT /\ status = ADVC_STATUS_NO_RESOURCE /\
  exists h o m1, ops_dequeue_output ops h blank_output m = ((ADVC_STATUS_OK, o), m1) /\
    output_refused o = true /\ lost = opt_fd (bo_acquire_fence_fd o).

(** ** The invariant *)

(** A completion slot is in use exactly for the buffers in flight. *)
Definition in_flight (r : advc_dmabuf_registry) (id : Z) : Prop :=
  exists d, lookup_entry r id = Some (d, true).
Definition awaits (l : list advc_dmabuf_completion_slot) (id : Z) : Prop :=
  exists i c, l !! i = Some c /\ co_in_use c = true /\ co_buffer_id c = id.

Record completions_wf (r : option advc_dmabuf_registry)
  (l : list advc_dmabuf_completion_slot) : Prop := {
  cw_length : length l = 4%nat;
  cw_idle : forall i c, l !! i = Some c -> co_in_use c = false -> co_release_fence_fd c < 0;
  cw_distinct : forall i j c c', l !! i = Some c -> l !! j = Some c' ->
    co_in_use c = true -> co_in_use c' = true -> co_buffer_id c = co_buffer_id c' -> i = j;
  cw_flight : forall id, awaits l id <-> exists r', r = Some r' /\ in_flight r' id;
}.

(** The AHardwareBuffer handshake: nothing pending, waiting for the handle (the
    session holds the acquire fence), or rendered (it holds the release fence). *)
Definition pending_wf (s : advc_session_slot) : Prop :=
  let acq := ai_acquire_fence_fd (s_pending_ahb s) in
  let rel := s_pending_ahb_release_fence s in
  (s_pending_ahb_state s = 0 /\ acq < 0 /\ rel < 0) \/
  (s_transport s = ADVC_TRANSPORT_ANDROID_AHB_SURFACE /\
   ((s_pending_ahb_state s = 1 /\ rel < 0) \/ (s_pending_ahb_state s = 2 /\ acq < 0))).

Record session_wf (s : advc_session_slot) : Prop := {
  sw_outputs : length (s_outputs s) = 8%nat;
  sw_free : forall i o, s_outputs s !! i = Some o -> out_in_use o = false -> o = zero_output;
  sw_registry : forall r, s_dmabufs s = Some r -> registry_wf r;
  sw_transport : is_Some (s_dmabufs s) <-> s_transport s = ADVC_TRANSPORT_DMABUF;
  sw_completions : completions_wf (s_dmabufs s) (s_completions s);
  sw_pending : pending_wf s;
}.

Record engine_wf (e : advc_session_engine) : Prop := {
  ew_length : length (eng_sessions e) = 4%nat;
  ew_next : is_u32 (eng_next_session_id e);
  ew_session : forall i s, eng_sessions e !! i = Some s -> s_in_use s = true ->
    session_wf s /\ s_id s <> 0;
  ew_distinct : forall i j s s', eng_sessions e !! i = Some s -> eng_sessions e !! j = Some s' ->
    s_in_use s = true -> s_in_use s' = true -> s_id s = s_id s' -> i = j;
}.

(** ** Small facts *)

Section Facts.
Context {B : Type}.
Implicit Types m : machine B.
Implicit Types t : gmap Z fd_info.

Lemma installed_same t t' : installed t t' [] -> t' = t.
Proof. intros (_ & _ & K). apply map_eq. intros k. apply K, not_elem_of_nil. Qed.

Lemma opt_fd_neg fd : fd < 0 -> opt_fd fd = [].
Proof. unfold opt_fd. intros. by destruct (Z.leb_spec 0 fd); [lia|]. Qed.
Lemma opt_fd_pos fd : 0 <= fd -> opt_fd fd = [fd].
Proof. unfold opt_fd. intros. by destruct (Z.leb_spec 0 fd); [|lia]. Qed.

Lemma close_if_open_installed t fd m :
  installed t (m_fds m) (opt_fd fd) -> m_fds (snd (close_if_open fd m)) = t.
Proof.
  unfold opt_fd, close_if_open. destruct (0 <=? fd); intros H.
  - change (sys_close fd m) with (sys_close fd m).
    pose proof (close_all_installed t [fd] m H) as Hc. cbn in Hc. by rewrite bind_seq in Hc.
  - by apply installed_same.
Qed.

(** [dup] into an optional descriptor. *)
Lemma dup_installed fd m :
  (fst (fcntl_dupfd_cloexec fd m) < 0 /\ m_fds (snd (fcntl_dupfd_cloexec fd m)) = m_fds m) \/
  (0 <= fst (fcntl_dupfd_cloexec fd m) /\
   installed (m_fds m) (m_fds (snd (fcntl_dupfd_cloexec fd m)))
     (opt_fd (fst (fcntl_dupfd_cloexec fd m)))).
Proof.
  destruct (dup_cases fd m) as [(e & _ & ->)|(f & _ & ->)]; [left; done|right]. cbn [fst snd].
  pose proof (lowest_free_nonneg (m_fds m)). split; [done|]. rewrite opt_fd_pos by done. apply installed_one.
Qed.

(** The optional duplicate of a request's fence. *)
Lemma opt_dup_installed (b : bool) fd m :
  exists fence m1, (if b then fcntl_dupfd_cloexec fd else mret (-1)) m = (fence, m1) /\
    installed (m_fds m) (m_fds m1) (opt_fd fence).
Proof.
  destruct b.
  - destruct (dup_installed fd m) as [[Hlt Hf]|[Hge Hin]];
      destruct (fcntl_dupfd_cloexec fd m) as [fence m1]; do 2 eexists; (split; [reflexivity|]); [|done].
    cbn in *. rewrite opt_fd_neg, Hf by done. apply installed_nil.
  - do 2 eexists. split; [reflexivity|]. apply installed_nil.
Qed.

(** The end of an owned group can be taken over a smaller base. *)
Lemma installed_split t t' l1 l2 l :
  l ≡ₚ l1 ++ l2 -> installed t t' l -> exists t1, installed t t1 l1 /\ installed t1 t' l2.
Proof. intros Hp Hi. apply installed_app_inv. by eapply installed_Permutation. Qed.

Lemma installed_join t t1 t2 l1 l2 l :
  l ≡ₚ l1 ++ l2 -> installed t t1 l1 -> installed t1 t2 l2 -> installed t t2 l.
Proof. intros Hp H1 H2. eapply installed_Permutation; [symmetry; exact Hp|]. by eapply installed_app. Qed.

(** Closing an exported descriptor releases what it declares. *)
Lemma descriptor_close_installed t d m :
  descriptor_typed d -> installed t (m_fds m) (concat (opt_fd <$> declared_fds d)) ->
  m_fds (snd (advc_dmabuf_descriptor_close d m)) = t.
Proof.
  intros Hd Hi.
  assert (forall fd l, fd ∈ concat (opt_fd <$> l) <-> 0 <= fd /\ fd ∈ l) as Hin.
  { intros fd l. induction l as [|x l IH]; cbn; [split; [intros ?%not_elem_of_nil; done|intros [_ ?%not_elem_of_nil]; done]|].
    rewrite elem_of_app, IH, elem_of_cons. unfold opt_fd. destruct (Z.leb_spec 0 x).
    - rewrite list_elem_of_singleton. naive_solver lia.
    - rewrite elem_of_nil. naive_solver lia. }
  destruct Hi as (_ & Ho & K).
  destruct (descriptor_close_spec m d Hd) as (_ & Ht & _).
  { apply Forall_forall. intros fd Hfd H0. apply Ho. by apply Hin. }
  apply map_eq. intros fd. rewrite Ht. case_decide as Hc.
  - symmetry. apply Ho. by apply Hin.
  - apply K. by rewrite Hin.
Qed.

End Facts.

Lemma reply_fds_none r : fd_count (msg_header r) = 0 -> reply_fds r = [].
Proof. unfold reply_fds. by intros ->. Qed.

(** Attaching one descriptor. *)
Lemma reply_fds_one fd r : (0 < length (msg_fds r))%nat -> reply_fds (reply_fd fd r) = [fd].
Proof. unfold reply_fds, reply_fd. cbn. by destruct (msg_fds r) as [|x l]; [cbn; lia|]. Qed.

(** Reading input opens and closes nothing. *)
Section Reading.
Context {B : Type}.
Implicit Types m : machine B.

Lemma next_io_fds m : m_fds (snd (next_io m)) = m_fds m.
Proof. unfold next_io. destruct (m_io m) as [|v l]; [done|]. by destruct (v <? 0). Qed.

Lemma pread_fds fd n off m : m_fds (snd (sys_pread fd n off m)) = m_fds m.
Proof.
  unfold sys_pread. rewrite bind_seq. pose proof (next_io_fds m) as Hf.
  destruct (next_io m) as [v m1]. cbn [fst snd] in *. destruct (v <? 0); [done|].
  rewrite bind_seq. cbn [gets fst snd]. by destruct (m_fds m1 !! fd) as [[? []]|].
Qed.

Lemma read_all_fds fuel fd got size off m : m_fds (snd (read_all_loop fuel fd got size off m)) = m_fds m.
Proof.
  revert got m. induction fuel as [|fuel IH]; intros got m; [done|]. cbn [read_all_loop].
  destruct (_ <? _); [|done]. rewrite bind_seq. pose proof (pread_fds fd (size - zlen got) (off + zlen got) m) as Hf.
  destruct (sys_pread _ _ _ m) as [x m1]. cbn [fst snd] in *. rewrite bind_seq. cbn [errno gets fst snd].
  destruct (_ && _); [by rewrite IH|]. destruct (_ <=? _); [done|by rewrite IH].
Qed.

Lemma load_from_file_fds fd size off m : m_fds (snd (load_from_file fd size off m)) = m_fds m.
Proof.
  unfold load_from_file. rewrite bind_seq. unfold sys_fstat. rewrite bind_seq. cbn [gets fst snd].
  destruct (m_fds m !! fd) as [[c [|data seals| |]]|]; cbn [mret st_ret fst snd]; try done.
  rewrite bind_seq. destruct (sealed_spec fd m) as (Hf & _).
  destruct (input_fd_is_sealed fd m) as [sl m1]. cbn [fst snd] in *. destruct (_ || _); [done|].
  rewrite bind_seq. destruct (alloc_cases m1) as (Hf2 & _). destruct (sys_alloc m1) as [ok m2].
  cbn [fst snd] in *. destruct ok; cbn [negb]; [|by rewrite <- Hf].
  destruct (0 <? size); [|by cbn; rewrite Hf2].
  rewrite bind_seq. unfold read_all_at. rewrite bind_seq. cbn [gets fst snd].
  pose proof (read_all_fds (S (Z.to_nat size + length (m_io m2))) fd [] size off m2) as Hr.
  destruct (read_all_loop _ _ _ _ _ m2) as [[bs|] m3]; cbn [fst snd mret st_ret] in *; congruence.
Qed.

Lemma load_input_fds request m : m_fds (snd (load_input request m)) = m_fds m.
Proof.
  unfold load_input. cbn zeta. destruct (_ <? _); [done|]. destruct (negb _); [done|].
  destruct (_ || _); [done|]. destruct (_ =? 0); [by destruct (_ || _ || _ || _)|].
  destruct (_ && _ && _); [|done]. destruct (_ || _); [done|].
  apply load_from_file_fds.
Qed.

End Reading.

(** ** The registry under a session *)

Section Registry.
Context {B : Type}.
Implicit Types m : machine B.

(** Every registry represents some map. *)
Lemma refines_exists r : exists M, refines r M.
Proof.
  set (put e (M : gmap Z (advc_dmabuf_descriptor * bool)) := match lookup_entry r (entry_id e) with
     | Some v => <[entry_id e := v]> M | None => M end).
  exists (foldr put ∅ (reg_entries r)). intros id.
  assert (forall l, (forall v, lookup_entry r id = Some v -> exists e, e ∈ l /\ entry_id e = id) ->
    foldr put ∅ l !! id = lookup_entry r id) as Hl.
  { intros l. induction l as [|e l IH]; intros Hv; cbn.
    - rewrite lookup_empty. destruct (lookup_entry r id) as [v|] eqn:E; [|done].
      destruct (Hv v eq_refl) as (e & He & _). by apply not_elem_of_nil in He.
    - unfold put at 1. destruct (decide (entry_id e = id)) as [<-|Hne].
      + destruct (lookup_entry r (entry_id e)) as [v|] eqn:E; [by rewrite lookup_insert_eq|].
        apply IH. intros v [=].
      + assert (foldr put ∅ l !! id = lookup_entry r id) as IH'.
        { apply IH. intros v Hv'. destruct (Hv v Hv') as (e' & [->|He]%elem_of_cons & Hid); [done|eauto]. }
        destruct (lookup_entry r (entry_id e)); [by rewrite lookup_insert_ne|done]. }
  apply Hl. intros v Hv. unfold lookup_entry in Hv.
  destruct (find_entry r id) as [i|] eqn:E; [|done]. apply find_entry_inv in E as (H1 & _ & H2).
  exists (entry_at r i). split; [by eapply list_elem_of_lookup_2|done].
Qed.

Lemma in_flight_iff r M id : refines r M -> in_flight r id <-> exists d, M !! id = Some (d, true).
Proof. intros HM. unfold in_flight. by rewrite HM. Qed.

(** Registering and unregistering leave the buffers in flight alone. *)
Lemma flight_kept allowed m t0 M op extra x r :
  (forall s, op <> OpBegin s) -> (forall id, op <> OpFinish id) -> refines r M ->
  op_post (B := B) allowed m t0 M op extra x ->
  forall id, in_flight (snd (fst x)) id <-> in_flight r id.
Proof.
  intros Hb Hf HM (_ & _ & _ & M' & HM' & Hs) id.
  rewrite (in_flight_iff r M), (in_flight_iff _ M') by done.
  inversion Hs; subst; try done;
    try (exfalso; eapply Hb; done); try (exfalso; eapply Hf; done).
  - destruct (decide (id = d_buffer_id d)) as [->|Hne].
    + rewrite lookup_insert_eq. split; [naive_solver|].
      match goal with H : M !! _ = None |- _ => rewrite H end. naive_solver.
    + by rewrite lookup_insert_ne by done.
  - destruct (decide (id = id0)) as [->|Hne].
    + rewrite lookup_delete_eq. match goal with H : M !! _ = Some _ |- _ => rewrite H end. naive_solver.
    + by rewrite lookup_delete_ne by done.
Qed.

(** A finished buffer is no longer in flight; nothing else changes. *)
Lemma flight_finished allowed m t0 M id extra x r :
  refines r M -> op_post (B := B) allowed m t0 M (OpFinish id) extra x -> in_flight r id -> id <> 0 ->
  fst (fst x) = 0 /\ forall id', in_flight (snd (fst x)) id' <-> in_flight r id' /\ id' <> id.
Proof.
  intros HM (Hres & _ & _ & M' & HM' & Hs) Hfl Hid.
  apply (in_flight_iff r M) in Hfl as [d Hd]; [|done].
  unfold outcome in Hs. inversion Hs; subst; try done; try congruence.
  split.
  - destruct Hres as [|[Hres Herr]]; [done|]. rewrite Hres in *. cbn in *. congruence.
  - intros id'. rewrite (in_flight_iff r M), (in_flight_iff _ (<[id := (d0, false)]> M)) by done.
    destruct (decide (id' = id)) as [->|Hne].
    + rewrite lookup_insert_eq. naive_solver.
    + rewrite lookup_insert_ne by done. naive_solver.
Qed.

Lemma flight_begun allowed m t0 M sub extra x r :
  refines r M -> op_post (B := B) allowed m t0 M (OpBegin sub) extra x ->
  (fst (fst x) = 0 /\ ~ in_flight r (sub_buffer_id sub) /\ sub_buffer_id sub <> 0 /\
   forall id, in_flight (snd (fst x)) id <-> in_flight r id \/ id = sub_buffer_id sub) \/
  (fst (fst x) = -1 /\ forall id, in_flight (snd (fst x)) id <-> in_flight r id).
Proof.
  intros HM (Hres & _ & _ & M' & HM' & Hs). unfold outcome in Hs.
  destruct Hres as [H0|[H1 He]]; [left|right].
  - rewrite H0 in Hs. cbn in Hs. inversion Hs as [| | | | | | | | | |sub' d Hok Hd Hroom Hdup| | | | | | | | |];
      subst; try congruence. split; [done|].
    rewrite (in_flight_iff r M), Hd by done. split; [intros (? & [=])|]. split; [apply Hok|].
    intros id. rewrite (in_flight_iff r M), (in_flight_iff _ _ _ HM') by done.
    destruct (decide (id = sub_buffer_id sub)) as [->|Hne].
    + rewrite lookup_insert_eq. naive_solver.
    + rewrite lookup_insert_ne by done. naive_solver.
  - rewrite H1 in Hs. cbn in Hs. split; [done|]. intros id.
    assert (M' = M) as -> by (inversion Hs; congruence). by rewrite !(in_flight_iff _ M).
Qed.

(** A refused [begin] leaves the job empty. *)
Lemma begin_fail_job r sub m :
  let x := fst (advc_dmabuf_registry_begin (B := B) r sub zero_job m) in
  fst x <> 0 -> snd (snd x) = zero_job.
Proof.
  cbn zeta. unfold advc_dmabuf_registry_begin.
  match goal with |- context [if ?c then _ else _] => destruct c end; [done|]. rewrite bind_seq.
  destruct (_ <? 0); [done|]. destruct (find_entry r _) as [i|]; [|done].
  destruct (e_in_flight _); [done|]. destruct (_ <=? _); [done|]. rewrite bind_seq.
  destruct (_ && _); done.
Qed.

(** Decoding opens nothing, and an accepted descriptor has the struct's widths. *)
Lemma registration_decode_effect payload size fds n d0 m :
  let x := advc_dmabuf_registration_decode payload size fds n d0 m in
  m_fds (snd x) = m_fds m /\ (fst (fst x) <? 0 = false -> descriptor_typed (snd (fst x))).
Proof.
  cbn zeta. unfold advc_dmabuf_registration_decode. destruct (_ || _); [done|].
  destruct (read_registration payload fds n) as [d|d] eqn:E; [done|].
  destruct (read_registration_inv _ _ _ _ E) as [Hd _].
  rewrite bind_seq, validate_desc. by destruct (descriptor_ok _ _).
Qed.

Lemma unregister_decode_effect payload size n m :
  m_fds (snd (advc_dmabuf_unregister_decode payload size n m)) = m_fds m.
Proof.
  unfold advc_dmabuf_unregister_decode. destruct (_ || _); [done|]. by destruct (_ =? 0).
Qed.

Lemma submission_decode_effect payload size fds n sub m :
  m_fds (snd (advc_dmabuf_submission_decode payload size fds n sub m)) = m_fds m.
Proof.
  unfold advc_dmabuf_submission_decode. destruct (_ || _); [done|]. cbn zeta.
  match goal with |- context [if ?c then _ else _] => destruct c end; [done|].
  rewrite bind_seq. set (x := (if n =? 1 then advc_dmabuf_sync_file_validate _ else mret 0) m).
  assert (m_fds (snd x) = m_fds m) as Hx by (unfold x; destruct (n =? 1); [apply sync_validate_fds|done]).
  clearbody x. destruct (fst x <? 0); done.
Qed.

End Registry.

(** ** Completion slots *)

Lemma awaits_insert l i c c' id : l !! i = Some c ->
  awaits (<[i := c']> l) id <->
  (co_in_use c' = true /\ co_buffer_id c' = id) \/
  (exists j x, j <> i /\ l !! j = Some x /\ co_in_use x = true /\ co_buffer_id x = id).
Proof.
  intros Hi. assert (i < length l)%nat as Hlt by (by eapply lookup_lt_Some). unfold awaits. split.
  - intros (j & x & [(-> & <- & _)|[Hne Hj]]%list_lookup_insert_Some & Hu & Hid); [by left|right; eauto 10].
  - intros [[Hu Hid]|(j & x & Hne & Hj & Hu & Hid)].
    + exists i, c'. by rewrite list_lookup_insert_eq.
    + exists j, x. by rewrite list_lookup_insert_ne by done.
Qed.

(** Replacing one slot. *)
Lemma completions_wf_insert r r' l i c c' :
  completions_wf r l -> l !! i = Some c ->
  (co_in_use c' = false -> co_release_fence_fd c' < 0) ->
  (co_in_use c' = true -> ~ exists j x, j <> i /\ l !! j = Some x /\ co_in_use x = true /\
     co_buffer_id x = co_buffer_id c') ->
  (forall id, awaits (<[i := c']> l) id <-> exists r0, r' = Some r0 /\ in_flight r0 id) ->
  completions_wf r' (<[i := c']> l).
Proof.
  intros [Hl Hidle Hdist _] Hi Hf Hnew Haw. constructor.
  - by rewrite length_insert.
  - intros j x [(-> & <- & _)|[Hne Hj]]%list_lookup_insert_Some; [done|by apply (Hidle j)].
  - intros j1 j2 x y [(-> & <- & _)|[Hn1 H1]]%list_lookup_insert_Some
      [(-> & <- & _)|[Hn2 H2]]%list_lookup_insert_Some Hx Hy Hxy; try done.
    + exfalso. apply (Hnew Hx). eauto 10.
    + exfalso. apply (Hnew Hy). eauto 10.
    + by eapply (Hdist j1 j2 x y).
  - exact Haw.
Qed.

(** A free slot takes the buffer that just went in flight. *)
Lemma completions_begin r r' l i c id st dt fence :
  completions_wf (Some r) l -> l !! i = Some c -> co_in_use c = false -> ~ in_flight r id ->
  (forall id', in_flight r' id' <-> in_flight r id' \/ id' = id) ->
  completions_wf (Some r') (<[i := Completion id st dt fence true]> l) /\
  concat (completion_fds <$> <[i := Completion id st dt fence true]> l) ≡ₚ
    concat (completion_fds <$> l) ++ opt_fd fence.
Proof.
  intros Hc Hi Hu Hno Hfl. pose proof (cw_flight _ _ Hc) as Haw. split.
  - eapply completions_wf_insert; try done; cbn.
    + intros _ (j & x & _ & Hj & Hx & Hid). apply Hno.
      destruct (proj1 (Haw id)) as (r0 & [= <-] & H); [by exists j, x|done].
    + intros id'. rewrite (awaits_insert l i c) by done. cbn. split.
      * intros [[_ <-]|(j & x & _ & Hj & Hx & Hid)]; eexists; (split; [done|]); apply Hfl; [by right|left].
        destruct (proj1 (Haw id')) as (r0 & [= <-] & H); [by exists j, x|done].
      * intros (r0 & [= <-] & [H| ->]%Hfl); [right|by left].
        destruct (proj2 (Haw id')) as (j & x & Hj & Hx & Hid); [eauto|].
        exists j, x. split; [|done]. intros ->. congruence.
  - pose proof (concat_insert_perm completion_fds l i c (Completion id st dt fence true) Hi) as Hp.
    change (completion_fds c) with (opt_fd (co_release_fence_fd c)) in Hp.
    rewrite (opt_fd_neg (co_release_fence_fd c)) in Hp by (by eapply (cw_idle _ _ Hc)).
    by rewrite app_nil_r in Hp.
Qed.

(** A collected completion empties its slot. *)
Lemma completions_finish r r' l i c :
  completions_wf (Some r) l -> l !! i = Some c -> co_in_use c = true ->
  (forall id', in_flight r' id' <-> in_flight r id' /\ id' <> co_buffer_id c) ->
  completions_wf (Some r') (<[i := zero_completion]> l) /\
  concat (completion_fds <$> l) ≡ₚ
    concat (completion_fds <$> <[i := zero_completion]> l) ++ opt_fd (co_release_fence_fd c).
Proof.
  intros Hc Hi Hu Hfl. pose proof (cw_flight _ _ Hc) as Haw. split.
  - eapply completions_wf_insert; try done.
    intros id'. rewrite (awaits_insert l i c) by done. cbn. split.
    + intros [[? _]|(j & x & Hne & Hj & Hx & Hid)]; [done|]. eexists. split; [done|]. apply Hfl. split.
      * destruct (proj1 (Haw id')) as (r0 & [= <-] & H); [by exists j, x|done].
      * intros ->. apply Hne. by eapply (cw_distinct _ _ Hc j i x c).
    + intros (r0 & [= <-] & [H Hne]%Hfl). right.
      destruct (proj2 (Haw id')) as (j & x & Hj & Hx & Hid); [eauto|].
      exists j, x. split; [|done]. intros ->. congruence.
  - pose proof (concat_insert_perm completion_fds l i c zero_completion Hi) as Hp.
    change (completion_fds zero_completion) with (@nil Z) in Hp. rewrite app_nil_r in Hp. by symmetry.
Qed.

(** ** Teardown *)

Section Teardown.
Context {B : Type} (ops : advc_backend_ops B) {Hops : BackendOk ops}.
Implicit Types m : machine B.

Lemma release_none h tok m : m_fds (snd (ops_release_output ops h tok (-1) m)) = m_fds m.
Proof. apply ok_release. rewrite opt_fd_neg by lia. apply installed_nil. Qed.

Lemma release_loop_fds h l m :
  m_fds (snd (foldr (fun o k =>
    (if out_in_use o && (out_transport o =? ADVC_TRANSPORT_AHARDWAREBUFFER)
     then ops_release_output ops h (out_backend_token o) (-1) else mret tt) ;; k)
    (mret tt) l m)) = m_fds m.
Proof.
  revert m. induction l as [|o l IH]; intros m; [done|]. cbn [foldr]. rewrite bind_seq, IH.
  destruct (_ && _); [apply release_none|done].
Qed.

(** Flushing: outputs and the handshake are gone, the dma-buf state is kept. *)
Lemma release_outstanding_post t s m :
  session_wf s -> installed t (m_fds m) (session_fds s) ->
  let y := release_outstanding ops s m in
  installed t (m_fds (snd y)) (session_fds (fst y)) /\ session_wf (fst y) /\
  s_id (fst y) = s_id s /\ s_in_use (fst y) = s_in_use s /\
  opt_fd (ai_acquire_fence_fd (s_pending_ahb (fst y))) = [] /\
  opt_fd (s_pending_ahb_release_fence (fst y)) = [].
Proof.
  intros Hwf Hi. cbn zeta. unfold release_outstanding. rewrite !bind_seq. cbn [fst snd mret st_ret].
  pose proof (release_loop_fds (s_backend_handle s) (s_outputs s) m) as Hm1. revert Hm1.
  match goal with |- m_fds ?x = _ -> _ => set (m1 := x) end. intros Hm1.
  clearbody m1. rewrite <- Hm1 in Hi.
  destruct (installed_split t (m_fds m1) (registry_fds (s_dmabufs s) ++
    concat (completion_fds <$> s_completions s) ++ opt_fd (s_pending_ahb_release_fence s))
    (opt_fd (ai_acquire_fence_fd (s_pending_ahb s))) (session_fds s)) as (t1 & H1 & H2); [|done|].
  { unfold session_fds. solve_Permutation. }
  rewrite app_assoc in H1. apply installed_app_inv in H1 as (t2 & H3 & H4).
  assert (m_fds (snd (close_if_open (ai_acquire_fence_fd (s_pending_ahb s)) m1)) = t1) as Hc1
    by (by apply close_if_open_installed).
  split; [|split; [|done]].
  - rewrite (close_if_open_installed t2); [|by rewrite Hc1].
    unfold session_fds. cbn -[completion_fds opt_fd]. by rewrite !(opt_fd_neg (-1)).
  - destruct Hwf as [Hl ? ? ? ? ?]. constructor; try done.
    + cbn. by rewrite length_replicate.
    + cbn. by intros i o [-> _]%lookup_replicate.
    + left. cbn. lia.
Qed.

(** Retiring the completions closes their fences and keeps the registry's. *)
Lemma retire_completions_post t l r m :
  (forall r0, r = Some r0 -> registry_wf r0) ->
  installed t (m_fds m) (registry_fds r ++ concat (completion_fds <$> l)) ->
  let y := retire_completions l r m in installed t (m_fds (snd y)) (registry_fds (fst y)).
Proof.
  revert r m. induction l as [|c l IH]; intros r m Hw Hi; cbn zeta.
  { cbn in *. by rewrite app_nil_r in Hi. }
  cbn [retire_completions]. rewrite !bind_seq.
  destruct (installed_split t (m_fds m) (concat (completion_fds <$> l) ++ registry_fds r)
    (opt_fd (co_release_fence_fd c)) (registry_fds r ++ concat (completion_fds <$> c :: l)))
    as (t1 & H1 & H2); [|exact Hi|].
  { cbn. unfold completion_fds at 1. solve_Permutation. }
  assert (m_fds (snd (close_if_open (co_release_fence_fd c) m)) = t1) as Hm1
    by (by apply close_if_open_installed).
  set (m1 := snd (close_if_open _ m)) in *. clearbody m1. rewrite <- Hm1 in H1.
  destruct r as [r|]; [|apply IH; [done|]; eapply installed_Permutation; [|exact H1]; apply Permutation_app_comm].
  destruct (co_in_use c);
    [|apply IH; [done|]; eapply installed_Permutation; [|exact H1]; apply Permutation_app_comm].
  rewrite bind_seq. apply installed_app_inv in H1 as (t2 & H3 & H4).
  destruct (refines_exists r) as [M HM].
  destruct (finish_post (fun _ => mret 0) t2 M r (co_buffer_id c) m1 (Hw r eq_refl) HM H4) as (_ & Hw' & Hi' & _).
  destruct (advc_dmabuf_registry_finish r (co_buffer_id c) m1) as [[v r'] m2]. cbn [fst snd mret st_ret] in *.
  rewrite app_nil_r in Hi'. apply IH; [by intros r0 [= <-]|].
  eapply installed_Permutation; [apply Permutation_app_comm|]. by eapply installed_app.
Qed.

Lemma release_dmabuf_state_post t s m :
  session_wf s -> installed t (m_fds m) (session_fds s) ->
  opt_fd (ai_acquire_fence_fd (s_pending_ahb s)) = [] -> opt_fd (s_pending_ahb_release_fence s) = [] ->
  m_fds (snd (release_dmabuf_state s m)) = t.
Proof.
  intros Hwf Hi Ha Hr. unfold release_dmabuf_state. rewrite !bind_seq.
  unfold session_fds in Hi. rewrite Ha, Hr in Hi.
  pose proof (retire_completions_post t (s_completions s) (s_dmabufs s) m (sw_registry s Hwf) Hi) as Hp.
  destruct (retire_completions _ _ m) as [[r|] m1]; cbn [fst snd mret st_ret registry_fds from_option] in *.
  - by apply destroy_fds.
  - by apply installed_same.
Qed.

Lemma teardown_post t s m : s_in_use s = true ->
  session_wf s -> installed t (m_fds m) (session_fds s) ->
  m_fds (snd (teardown_session ops s m)) = t.
Proof.
  intros Hu Hwf Hi. unfold teardown_session. rewrite Hu, !bind_seq, ok_destroy.
  destruct (release_outstanding_post t s m Hwf Hi) as (Hi' & Hwf' & _ & _ & Ha & Hr).
  by apply release_dmabuf_state_post.
Qed.

End Teardown.

(** ** The handlers *)

Section Handlers.
Context {B : Type} (ops : advc_backend_ops B) {Hops : BackendOk ops}.
Implicit Types m : machine B.

(** What a handler leaves behind: the invariant, the account of descriptors over
    the base table [t], and an untouched reply header unless it succeeded. *)
Definition hpost (t : gmap Z fd_info) (s : advc_session_slot) (reply : advc_message)
  (x : hresult * machine B) : Prop :=
  let s' := fst (snd (fst x)) in
  let r' := snd (snd (fst x)) in
  (s_in_use s' = true -> session_wf s' /\ s_id s' = s_id s) /\
  installed t (m_fds (snd x)) (slot_fds s' ++ reply_fds r') /\
  length (msg_fds r') = length (msg_fds reply) /\
  (fst (fst x) <> ADVC_STATUS_OK -> msg_header r' = msg_header reply).

Context (t : gmap Z fd_info) (s : advc_session_slot) (request reply : advc_message).
Context (Hwf : session_wf s) (Huse : s_in_use s = true).
Context (Hfd0 : fd_count (msg_header reply) = 0) (Hfds : (4 <= length (msg_fds reply))%nat).

Let owned : list Z := session_fds s.

Lemma slot_fds_used : slot_fds s = session_fds s.
Proof. unfold slot_fds. by rewrite Huse. Qed.

(** A handler that keeps the session and attaches nothing. *)
Lemma hpost_keep st r' m m' :
  installed t (m_fds m) (session_fds s) -> m_fds m' = m_fds m ->
  fd_count (msg_header r') = 0 -> msg_fds r' = msg_fds reply ->
  (st <> ADVC_STATUS_OK -> msg_header r' = msg_header reply) ->
  hpost t s reply ((st, (s, r')), m').
Proof.
  intros Hi Hm Hc Hl Hh. unfold hpost. cbn. rewrite Hm, Hl, (reply_fds_none r' Hc), app_nil_r, slot_fds_used.
  auto.
Qed.

Lemma hpost_refuse st m m' :
  installed t (m_fds m) (session_fds s) -> m_fds m' = m_fds m ->
  hpost t s reply (answer st s reply m').
Proof. intros. by eapply hpost_keep. Qed.

(** The next test of the handler. *)
Ltac test E := match goal with |- hpost _ _ _ ((if ?c then _ else _) _) => destruct c eqn:E end.
Ltac refused := eapply hpost_refuse; [eassumption|]; try done.

Lemma queue_post m : installed t (m_fds m) (session_fds s) ->
  hpost t s reply (handle_queue ops s request reply m).
Proof.
  intros Hi. unfold handle_queue. cbn zeta.
  test E1; [refused|]. test E2; [refused|].
  rewrite bind_seq. pose proof (load_input_fds request m) as Hf.
  destruct (load_input request m) as [[st data] m1]. cbn [fst snd] in *.
  test E3; [refused|]. test E4; [refused|]. test E5; [refused|].
  rewrite bind_seq. set (x := ops_queue_input _ _ _ _ _ _ _).
  assert (m_fds (snd x) = m_fds m) as Hx by (unfold x; by rewrite ok_queue).
  eapply hpost_keep; [eassumption|done|..]; destruct (fst x =? ADVC_STATUS_OK) eqn:E; try done.
  intros Hne. apply Z.eqb_eq in E. done.
Qed.

Lemma pending_idle : s_pending_ahb_state s = 0 ->
  ai_acquire_fence_fd (s_pending_ahb s) < 0 /\ s_pending_ahb_release_fence s < 0.
Proof.
  intros H0. destruct (sw_pending s Hwf) as [(_ & ? & ?)|(_ & [[? _]|[? _]])]; [done|lia..].
Qed.

(** Only the handshake of the session changes. *)
Lemma session_wf_pending inp st dt fence state :
  pending_wf (set_pending inp st dt fence state s) -> session_wf (set_pending inp st dt fence state s).
Proof. intros Hp. destruct Hwf as [? ? ? ? Hc _]. constructor; done. Qed.

Lemma queue_ahb_post m : installed t (m_fds m) (session_fds s) ->
  hpost t s reply (handle_queue_ahb s request reply m).
Proof.
  intros Hi. unfold handle_queue_ahb. cbn zeta.
  test Et; [refused|]. test E0; [refused|]. test E1; [refused|]. test E2; [refused|]. test E3; [refused|].
  apply negb_false_iff, Z.eqb_eq in E0.
  destruct (pending_idle E0) as [Ha Hr].
  destruct (opt_dup_installed (fd_count (msg_header request) =? 1) (fd_at request 0) m)
    as (fence & m1 & Hd & Hin).
  rewrite bind_seq, Hd. cbn [fst snd]. test Ef.
  { assert (fence < 0) as Hneg by lia. rewrite opt_fd_neg in Hin by done.
    apply installed_same in Hin. refused. }
  unfold hpost. cbn -[session_fds slot_fds reply_fds]. split; [|split; [|split; [done|done]]].
  - intros _. split; [|done]. apply session_wf_pending. right. cbn. split; [lia|]. left. lia.
  - rewrite reply_fds_none by done. unfold slot_fds. cbn [s_in_use set_pending]. rewrite Huse, app_nil_r.
    eapply (installed_join _ _ _ (session_fds s)); [|exact Hi|exact Hin].
    unfold session_fds. cbn -[opt_fd]. rewrite (opt_fd_neg (-1)), (opt_fd_neg _ Ha), (opt_fd_neg _ Hr) by lia.
    cbn. solve_Permutation.
Qed.

Lemma complete_ahb_post m : installed t (m_fds m) (session_fds s) ->
  hpost t s reply (handle_complete_ahb s request reply m).
Proof.
  intros Hi. unfold handle_complete_ahb. cbn zeta.
  test E0; [refused|]. test E1; [refused|]. test E2; [refused|].
  apply negb_false_iff, Z.eqb_eq in E2.
  destruct (sw_pending s Hwf) as [(? & _)|(Ht & [[? _]|[_ Ha]])]; [lia..|].
  unfold hpost. cbn -[session_fds slot_fds reply_fds reply_fd opt_fd]. split; [|split; [|split]].
  - intros _. split; [|done]. apply session_wf_pending. left. cbn. split; [done|]. split; [lia|].
    destruct (Z.leb_spec 0 (s_pending_ahb_release_fence s)); lia.
  - eapply installed_Permutation; [|exact Hi]. unfold slot_fds, session_fds. cbn -[opt_fd reply_fds].
    rewrite Huse, (opt_fd_neg _ Ha), (opt_fd_neg (-1)) by lia.
    destruct (Z.leb_spec 0 (s_pending_ahb_release_fence s)) as [Hf|Hf].
    + rewrite reply_fds_one by (cbn; lia). rewrite (opt_fd_pos _ Hf), (opt_fd_neg (-1)) by lia. cbn.
      solve_Permutation.
    + rewrite (opt_fd_neg _ Hf), reply_fds_none by done. cbn. by rewrite app_nil_r.
  - destruct (0 <=? _); [cbn; by rewrite length_insert|done].
  - done.
Qed.

(** *** The dma-buf handlers *)

(** The descriptors of the session besides its registry's and completions'. *)
Let pend : list Z := opt_fd (ai_acquire_fence_fd (s_pending_ahb s)) ++
                     opt_fd (s_pending_ahb_release_fence s).

Lemma session_wf_dmabufs r r' l :
  s_dmabufs s = Some r -> registry_wf r' -> completions_wf (Some r') l ->
  session_wf (set_dmabufs (Some r') l s).
Proof.
  intros Hr Hw Hc. destruct Hwf as [? ? ? Ht _ ?]. constructor; try done.
  - by intros r0 [= <-].
  - cbn. rewrite <- Ht, Hr. split; eauto.
Qed.

Lemma session_fds_dmabufs r r' l : s_dmabufs s = Some r ->
  session_fds s ≡ₚ (pend ++ concat (completion_fds <$> s_completions s)) ++ owned_fds r /\
  session_fds (set_dmabufs (Some r') l s) ≡ₚ (pend ++ concat (completion_fds <$> l)) ++ owned_fds r'.
Proof. intros Hr. unfold session_fds, pend. cbn. rewrite Hr. cbn. split; solve_Permutation. Qed.

(** Completions only depend on which buffers are in flight. *)
Lemma completions_wf_flight r r' :
  s_dmabufs s = Some r -> (forall id, in_flight r' id <-> in_flight r id) ->
  completions_wf (Some r') (s_completions s).
Proof.
  intros Hr Hfl. destruct (sw_completions s Hwf) as [? ? ? Haw]. constructor; try done.
  intros id. rewrite Haw, Hr. split; intros (r0 & [= <-] & H0); eexists; (split; [done|]); by apply Hfl.
Qed.

(** The registry changed, the completions did not: the common case. *)
Lemma hpost_registry r r' st rp m' t1 :
  s_dmabufs s = Some r -> registry_wf r' -> (forall id, in_flight r' id <-> in_flight r id) ->
  installed t t1 (pend ++ concat (completion_fds <$> s_completions s)) ->
  installed t1 (m_fds m') (owned_fds r') ->
  fd_count (msg_header rp) = 0 -> msg_fds rp = msg_fds reply ->
  (st <> ADVC_STATUS_OK -> msg_header rp = msg_header reply) ->
  hpost t s reply ((st, (set_dmabufs (Some r') (s_completions s) s, rp)), m').
Proof.
  intros Hr Hw Hfl H1 H2 Hc Hf Hh. unfold hpost. cbn -[slot_fds reply_fds].
  split; [|split; [|split; [by rewrite Hf|done]]].
  - intros _. split; [|done]. apply (session_wf_dmabufs r); [done..|]. by apply (completions_wf_flight r).
  - rewrite (reply_fds_none rp Hc), app_nil_r. unfold slot_fds. cbn [s_in_use set_dmabufs]. rewrite Huse.
    eapply installed_join; [|exact H1|exact H2]. by apply (session_fds_dmabufs r).
Qed.

Lemma split_registry r m : s_dmabufs s = Some r -> installed t (m_fds m) (session_fds s) ->
  exists t1, installed t t1 (pend ++ concat (completion_fds <$> s_completions s)) /\
    installed t1 (m_fds m) (owned_fds r).
Proof. intros Hr Hi. eapply installed_split; [|exact Hi]. by apply (session_fds_dmabufs r r []). Qed.

Lemma format_allowed_fds d m : m_fds (snd (session_dmabuf_format_allowed ops s d m)) = m_fds m.
Proof.
  unfold session_dmabuf_format_allowed. destruct (ops_dmabuf_format_allowed ops) as [f|] eqn:E; [|done].
  destruct (_ =? 0); [done|]. by apply (ok_allowed f).
Qed.

Ltac errno_refused := rewrite bind_seq; cbn [errno gets fst snd].

Lemma register_dmabuf_post m : installed t (m_fds m) (session_fds s) ->
  hpost t s reply (handle_register_dmabuf ops s request reply m).
Proof.
  intros Hi. unfold handle_register_dmabuf. cbn zeta.
  destruct (s_dmabufs s) as [r|] eqn:Hr; [|refused]. test E0; [refused|].
  rewrite bind_seq.
  destruct (registration_decode_effect (payload_of request) (payload_size (msg_header request))
    (msg_fds request) (fd_count (msg_header request)) zero_descriptor m) as [Hf Hd].
  destruct (advc_dmabuf_registration_decode _ _ _ _ _ m) as [[v d] m1]. cbn [fst snd] in *.
  test E1; [errno_refused; refused|].
  destruct (refines_exists r) as [M HM]. destruct (split_registry r m Hr Hi) as (t1 & H1 & H2).
  pose proof (register_post (session_dmabuf_format_allowed ops s) format_allowed_fds t1 M r d m1
    (Hd eq_refl) (sw_registry s Hwf r Hr) HM) as Hpost. rewrite Hf in Hpost. specialize (Hpost H2).
  rewrite bind_seq.
  destruct (advc_dmabuf_registry_register _ r d m1) as [[v' r'] m2]. cbn [fst snd] in *.
  pose proof (flight_kept _ _ _ M (OpRegister d) [] _ r ltac:(done) ltac:(done) HM Hpost) as Hfl. cbn in Hfl.
  destruct Hpost as (_ & Hw' & Hi' & _). cbn in Hw', Hi'. rewrite app_nil_r in Hi'.
  test E2; [errno_refused|]; eapply hpost_registry; done.
Qed.

Lemma unregister_dmabuf_post m : installed t (m_fds m) (session_fds s) ->
  hpost t s reply (handle_unregister_dmabuf s request reply m).
Proof.
  intros Hi. unfold handle_unregister_dmabuf. cbn zeta.
  destruct (s_dmabufs s) as [r|] eqn:Hr; [|refused]. test E0; [refused|].
  rewrite bind_seq.
  pose proof (unregister_decode_effect (payload_of request) (payload_size (msg_header request))
    (fd_count (msg_header request)) m) as Hf.
  destruct (advc_dmabuf_unregister_decode _ _ _ m) as [[v id] m1]. cbn [fst snd] in *.
  test E1; [errno_refused; refused|].
  destruct (refines_exists r) as [M HM]. destruct (split_registry r m Hr Hi) as (t1 & H1 & H2).
  pose proof (unregister_post (fun _ => mret 0) t1 M r id m1 (sw_registry s Hwf r Hr) HM) as Hpost.
  rewrite Hf in Hpost. specialize (Hpost H2). rewrite bind_seq.
  destruct (advc_dmabuf_registry_unregister r id m1) as [[v' r'] m2]. cbn [fst snd] in *.
  pose proof (flight_kept _ _ _ M (OpUnregister id) [] _ r ltac:(done) ltac:(done) HM Hpost) as Hfl. cbn in Hfl.
  destruct Hpost as (_ & Hw' & Hi' & _). cbn in Hw', Hi'. rewrite app_nil_r in Hi'.
  test E2; [errno_refused|]; eapply hpost_registry; done.
Qed.

(** What the backend returned is settled: on a refusal the table is the base, on
    success a fence that is kept is on top of it. *)
Lemma settle_submit_spec t2 st rel m : installed t2 (m_fds m) (opt_fd rel) ->
  let y := settle_submit st rel m in
  (fst (fst y) = ADVC_STATUS_OK -> installed t2 (m_fds (snd y)) (opt_fd (snd (fst y)))) /\
  (fst (fst y) <> ADVC_STATUS_OK -> m_fds (snd y) = t2).
Proof.
  intros Hi. cbn zeta. unfold settle_submit. rewrite bind_seq.
  match goal with |- context [fst (?c m)] => set (bad := c m) end.
  assert (m_fds (snd bad) = m_fds m) as Hb.
  { unfold bad. destruct (_ || _); [done|]. destruct (0 <=? rel); [|done].
    rewrite bind_seq. apply sync_validate_fds. }
  assert (fst bad = false -> st <> ADVC_STATUS_OK -> rel < 0) as Hneg.
  { unfold bad. destruct (_ || _) eqn:E; [done|]. intros _ Hne. change ADVC_STATUS_OK with 0 in *. lia. }
  clearbody bad. destruct (fst bad).
  - rewrite bind_seq. cbn -[close_if_open]. split; [done|]. intros _.
    apply close_if_open_installed. by rewrite Hb.
  - cbn. rewrite Hb. split; [done|]. intros Hne. rewrite opt_fd_neg in Hi by auto. by apply installed_same.
Qed.

Lemma job_close_none id pts d m :
  advc_dmabuf_job_close (Job id pts (-1) d) m = (zero_job, m).
Proof. done. Qed.

(** The refused submission takes the buffer out of flight again. *)
Lemma queue_dmabuf_undo r r' m t1 id pts d st :
  s_dmabufs s = Some r -> registry_wf r' -> id <> 0 -> ~ in_flight r id ->
  (forall id', in_flight r' id' <-> in_flight r id' \/ id' = id) ->
  installed t t1 (pend ++ concat (completion_fds <$> s_completions s)) ->
  installed t1 (m_fds m) (owned_fds r') -> st <> ADVC_STATUS_OK ->
  hpost t s reply
    ((advc_dmabuf_job_close (Job id pts (-1) d) ;;
      answer st (set_dmabufs (Some (snd (fst (advc_dmabuf_registry_finish r' id m))))
                   (s_completions (set_dmabufs (Some r') (s_completions s) s))
                   (set_dmabufs (Some r') (s_completions s) s)) reply)
     (snd (advc_dmabuf_registry_finish r' id m))).
Proof.
  intros Hr Hw Hid Hno Hfl H1 H2 Hst. destruct (refines_exists r') as [M HM].
  pose proof (finish_post (fun _ => mret 0) t1 M r' id m Hw HM H2) as Hpost.
  assert (in_flight r' id) as Hin by (apply Hfl; by right).
  destruct (flight_finished _ _ _ _ _ _ _ r' HM Hpost Hin Hid) as [_ Hfl'].
  destruct Hpost as (_ & Hw' & Hi' & _). rewrite app_nil_r in Hi'. rewrite bind_seq, job_close_none.
  apply (hpost_registry r _ st reply _ t1); try done.
  intros id'. rewrite Hfl', Hfl. split; [naive_solver|]. intros H. split; [by left|].
  intros ->. done.
Qed.

Lemma queue_dmabuf_post m : installed t (m_fds m) (session_fds s) ->
  hpost t s reply (handle_queue_dmabuf ops s request reply m).
Proof.
  intros Hi. unfold handle_queue_dmabuf. cbn zeta.
  destruct (s_dmabufs s) as [r|] eqn:Hr; [|refused].
  destruct (ops_submit_dmabuf ops) as [submit|] eqn:Hsub; [|refused]. test E0; [refused|].
  destruct (free_dmabuf_completion s) as [slot|] eqn:Hslot; [|refused].
  apply find_idx_Some in Hslot as (c & Hc & Hcu & _). apply negb_true_iff in Hcu.
  rewrite bind_seq.
  pose proof (submission_decode_effect (payload_of request) (payload_size (msg_header request))
    (msg_fds request) (fd_count (msg_header request)) (Submission 0 0 (-1)) m) as Hf.
  destruct (advc_dmabuf_submission_decode _ _ _ _ _ m) as [[v sub] m1]. cbn [fst snd] in *.
  test E1; [errno_refused; refused|].
  destruct (refines_exists r) as [M HM]. destruct (split_registry r m Hr Hi) as (t1 & H1 & H2).
  destruct (begin_post (fun _ => mret 0) t1 M r sub m1 (sw_registry s Hwf r Hr) HM) as [Hpost Hjob]; [by rewrite Hf|].
  rewrite bind_seq.
  destruct (advc_dmabuf_registry_begin r sub zero_job m1) as [[v' [r' job]] m2] eqn:Hbeg. cbn [fst snd] in *.
  pose proof (flight_begun _ _ _ _ _ _ _ r HM Hpost) as Hfl. cbn [fst snd] in Hfl.
  destruct Hpost as (_ & Hw' & Hi' & _). cbn [fst snd] in Hw', Hi'.
  change (job_fds job) with (opt_fd (job_acquire_fence_fd job)) in Hi'.
  destruct Hfl as [(-> & Hno & Hid & Hfl)|(-> & Hfl)]; cbn [Z.ltb Z.compare].
  2:{ errno_refused. pose proof (begin_fail_job r sub m1) as Hz. rewrite Hbeg in Hz. cbn in Hz.
      rewrite Hz in Hi' by done. cbn in Hi'. rewrite app_nil_r in Hi'. by eapply hpost_registry. }
  destruct (Hjob eq_refl) as (d & fence & Hd & Hjeq & _).
  assert (job_buffer_id job = sub_buffer_id sub) as Hjid by (by rewrite Hjeq).
  assert (job_descriptor job = Some d) as -> by (by rewrite Hjeq).
  apply installed_app_inv in Hi' as (t2 & H3 & H4).
  pose proof (ok_submit submit Hsub (s_backend_handle s) d (job_pts_ns job)
    (job_acquire_fence_fd job) t2 m2 H4) as H5. rewrite bind_seq.
  destruct (submit _ _ _ _ m2) as [[st0 rel0] m3]. cbn [fst snd] in *.
  pose proof (settle_submit_spec t2 st0 rel0 m3 H5) as [Hok Hbad]. rewrite bind_seq.
  destruct (settle_submit st0 rel0 m3) as [[st rel] m4]. cbn [fst snd] in *.
  test E2.
  - apply negb_true_iff, Z.eqb_neq in E2. rewrite bind_seq.
    apply (queue_dmabuf_undo r r' m4 t1 (job_buffer_id job)); try done.
    + by rewrite Hjid.
    + by rewrite Hjid.
    + by rewrite Hjid.
    + by rewrite (Hbad E2).
  - apply negb_false_iff, Z.eqb_eq in E2. rewrite bind_seq, job_close_none. cbn [fst snd].
    destruct (completions_begin r r' (s_completions s) slot c (job_buffer_id job) ADVC_STATUS_OK 0 rel)
      as [Hcw Hcp]; try done; [rewrite <- Hr; apply (sw_completions s Hwf)|by rewrite Hjid|by rewrite Hjid|].
    unfold hpost. cbn -[slot_fds reply_fds]. split; [|split; [|split; [done|done]]].
    + intros _. split; [|done]. by apply (session_wf_dmabufs r).
    + rewrite reply_fds_none, app_nil_r by done. unfold slot_fds. cbn [s_in_use set_dmabufs]. rewrite Huse.
      destruct (session_fds_dmabufs r r' (<[slot := Completion (job_buffer_id job) ADVC_STATUS_OK 0 rel true]>
        (s_completions s)) Hr) as [_ Hp].
      eapply (installed_join _ t2 _ ((pend ++ concat (completion_fds <$> s_completions s)) ++ owned_fds r')
        (opt_fd rel)); [|by eapply installed_app|by apply Hok].
      rewrite Hp, Hcp. solve_Permutation.
Qed.

(** Collecting a completion: [finish] cannot fail here, so the handler never
    answers INTERNAL. *)
Lemma complete_dmabuf_post m : installed t (m_fds m) (session_fds s) ->
  hpost t s reply (handle_complete_dmabuf s request reply m) /\
  fst (fst (handle_complete_dmabuf s request reply m)) <> ADVC_STATUS_INTERNAL.
Proof.
  intros Hi. unfold handle_complete_dmabuf. cbn zeta.
  destruct (s_dmabufs s) as [r|] eqn:Hr; [|split; [refused|done]].
  destruct (not_dmabuf s _); [split; [refused|done]|].
  destruct (_ || _); [split; [refused|done]|].
  set (id := advc_get_u64 (payload_of request) 0).
  destruct (Z.eqb_spec id 0) as [|Hid]; [split; [refused|done]|].
  destruct (find_dmabuf_completion s id) as [slot|] eqn:Hslot; [|split; [refused|done]].
  apply find_idx_Some in Hslot as (c & Hc & Hcu & _). apply andb_true_iff in Hcu as [Hcu Hcid%Z.eqb_eq].
  pose proof (sw_completions s Hwf) as Hcw. rewrite Hr in Hcw.
  assert (in_flight r id) as Hfl.
  { destruct (proj1 (cw_flight _ _ Hcw id)) as (r0 & [= <-] & H); [by exists slot, c|done]. }
  destruct (refines_exists r) as [M HM]. destruct (split_registry r m Hr Hi) as (t1 & H1 & H2).
  pose proof (finish_post (fun _ => mret 0) t1 M r id m (sw_registry s Hwf r Hr) HM H2) as Hpost.
  destruct (flight_finished _ _ _ _ _ _ _ r HM Hpost Hfl Hid) as [Hz Hfl'].
  destruct Hpost as (_ & Hw' & Hi' & _). rewrite app_nil_r in Hi'. rewrite bind_seq.
  destruct (advc_dmabuf_registry_finish r id m) as [[v r'] m1]. cbn [fst snd] in *. subst v.
  cbn [Z.ltb Z.compare]. split; [|done].
  assert (completion_at s slot = c) as -> by (unfold completion_at; by rewrite Hc).
  destruct (completions_finish r r' (s_completions s) slot c) as [Hcw' Hcp]; try done; [by rewrite Hcid|].
  unfold hpost. cbn -[slot_fds reply_fds reply_fd]. split; [|split; [|split; [|done]]].
  - intros _. split; [|done]. by apply (session_wf_dmabufs r).
  - unfold slot_fds. cbn [s_in_use set_dmabufs]. rewrite Huse.
    destruct (session_fds_dmabufs r r' (<[slot := zero_completion]> (s_completions s)) Hr) as [_ Hp].
    eapply (installed_join _ t1); [|exact H1|exact Hi']. rewrite Hp, Hcp.
    destruct (Z.leb_spec 0 (co_release_fence_fd c)) as [Hf|Hf].
    + rewrite reply_fds_one by (cbn; lia). rewrite opt_fd_pos by done. solve_Permutation.
    + rewrite reply_fds_none, opt_fd_neg by done. solve_Permutation.
  - destruct (0 <=? _); [cbn; by rewrite length_insert|done].
Qed.

(** *** Outputs *)

(** Only an output slot changes. *)
Lemma session_wf_outputs i o :
  (out_in_use o = false -> o = zero_output) -> session_wf (set_outputs (<[i := o]> (s_outputs s)) s).
Proof.
  intros Ho. destruct Hwf as [? Hfree ? ? ? ?]. constructor; try done.
  - cbn. by rewrite length_insert.
  - cbn. intros j x [(-> & <- & _)|[_ Hj]]%list_lookup_insert_Some; [done|by apply (Hfree j)].
Qed.

Lemma hpost_outputs i o st rp m m' :
  installed t (m_fds m) (session_fds s) -> m_fds m' = m_fds m ->
  (out_in_use o = false -> o = zero_output) ->
  fd_count (msg_header rp) = 0 -> msg_fds rp = msg_fds reply ->
  (st <> ADVC_STATUS_OK -> msg_header rp = msg_header reply) ->
  hpost t s reply ((st, (set_outputs (<[i := o]> (s_outputs s)) s, rp)), m').
Proof.
  intros Hi Hm Ho Hc Hf Hh. unfold hpost. cbn -[slot_fds reply_fds].
  split; [|split; [|split; [by rewrite Hf|done]]].
  - intros _. split; [by apply session_wf_outputs|done].
  - rewrite (reply_fds_none rp Hc), app_nil_r, Hm. unfold slot_fds. cbn [s_in_use set_outputs].
    rewrite Huse. exact Hi.
Qed.

Lemma release_post m : installed t (m_fds m) (session_fds s) ->
  hpost t s reply (handle_release ops s request reply m).
Proof.
  intros Hi. unfold handle_release. cbn zeta. test E0; [refused|]. test E1; [refused|].
  destruct (find_output s _) as [i|]; [|refused]. test E2.
  - test E3; [refused|].
    destruct (opt_dup_installed (fd_count (msg_header request) =? 1) (fd_at request 0) m)
      as (fence & m1 & Hd & Hin).
    rewrite bind_seq, Hd. cbn [fst snd]. test Ef.
    { assert (fence < 0) as Hneg by lia. rewrite opt_fd_neg in Hin by done.
      apply installed_same in Hin. refused. }
    rewrite bind_seq. eapply hpost_outputs; try done. by apply ok_release.
  - test E3; [refused|]. by eapply hpost_outputs.
Qed.

Lemma transfer_ahb_post m : installed t (m_fds m) (session_fds s) ->
  hpost t s reply (handle_transfer_ahb s request reply m).
Proof.
  intros Hi. unfold handle_transfer_ahb. cbn zeta. test E0; [refused|].
  destruct (find_output s _) as [i|]; [|refused]. test E1; [refused|]. by eapply hpost_keep.
Qed.

(** A settled output: refused with the table as it was before the dequeue, or a
    descriptor for the reply. *)
Lemma settle_output_spec o tr t2 m :
  installed t2 (m_fds m) (opt_fd (bo_acquire_fence_fd o)) ->
  let y := settle_output ops s o tr m in
  match fst y with
  | inl _ => m_fds (snd y) = t2
  | inr fd => (tr = ADVC_TRANSPORT_BYTES /\ 0 <= fd /\ installed t2 (m_fds (snd y)) [fd]) \/
              (tr = ADVC_TRANSPORT_AHARDWAREBUFFER /\ fd = -1 /\ m_fds (snd y) = m_fds m)
  end.
Proof.
  intros Hi. cbn zeta. unfold settle_output.
  assert (forall a m', m_fds m' = m_fds m ->
    m_fds (snd (ops_release_output ops (s_backend_handle s) a (-1) m')) = m_fds m') as Hrel.
  { intros a m' _. apply ok_release. rewrite opt_fd_neg by lia. apply installed_nil. }
  assert (forall st, m_fds (snd ((ops_release_output ops (s_backend_handle s) (bo_token o) (-1) ;;
     close_if_open (bo_acquire_fence_fd o) ;; mret (inl st : Z + Z)) m)) = t2) as Hdrop.
  { intros st. rewrite !bind_seq. cbn [snd mret st_ret]. apply close_if_open_installed.
    rewrite (Hrel (bo_token o) m) by done. exact Hi. }
  destruct (Z.eqb_spec tr ADVC_TRANSPORT_BYTES) as [->|].
  - destruct (_ || _) eqn:E.
    { specialize (Hdrop ADVC_STATUS_INTERNAL). by rewrite !bind_seq in *. }
    rewrite (opt_fd_neg (bo_acquire_fence_fd o)) in Hi by lia. apply installed_same in Hi.
    rewrite bind_seq. destruct (create_sealed_output_spec (take (Z.to_nat (bo_size o))
      (default [] (bo_data o))) m) as [Hc _].
    destruct (create_sealed_output _ m) as [fd m1]. cbn [fst snd] in *. rewrite bind_seq.
    assert (m_fds (snd (ops_release_output ops (s_backend_handle s) (bo_token o) (-1) m1)) = m_fds m1) as Hr1.
    { apply ok_release. rewrite opt_fd_neg by lia. apply installed_nil. }
    destruct Hc as [[-> Hf]|(Hge & Hnew & Hf)].
    + cbn. by rewrite Hr1, Hf.
    + destruct (Z.ltb_spec fd 0); [lia|]. cbn. left. split; [done|]. split; [done|].
      rewrite Hr1, Hf, Hi. rewrite Hi in Hnew. split; [apply NoDup_singleton|]. split.
      * intros x ->%list_elem_of_singleton. rewrite lookup_insert_eq. eauto.
      * intros x Hx. rewrite lookup_insert_ne; [done|]. intros ->. apply Hx. by apply list_elem_of_singleton.
  - destruct (Z.eqb_spec tr ADVC_TRANSPORT_AHARDWAREBUFFER) as [->|].
    + destruct (_ || _ || _ || _); [|cbn; by right].
      specialize (Hdrop ADVC_STATUS_UNSUPPORTED). by rewrite !bind_seq in *.
    + specialize (Hdrop ADVC_STATUS_UNSUPPORTED). by rewrite !bind_seq in *.
Qed.

(** Whatever the backend answers, up to the lost fence. *)
Lemma dequeue_post next m : installed t (m_fds m) (session_fds s) ->
  opcode (msg_header request) = ADVC_OP_DEQUEUE_OUTPUT ->
  let x := handle_dequeue ops next s request reply m in
  accounted (fence_lost ops request (fst (fst (fst x))) m) t
    (fun t' => hpost t' s reply (fst (fst x), snd x)).
Proof.
  intros Hi Hop. cbn zeta. unfold handle_dequeue. cbn zeta.
  destruct (_ || _); [left; refused|]. destruct (free_output_slot s) as [i|] eqn:Hfree; [|left; refused].
  apply find_idx_Some in Hfree as (o0 & Ho0 & Hu0 & _). apply negb_true_iff in Hu0.
  assert (output_at s i = zero_output) as Hold.
  { unfold output_at. rewrite Ho0. cbn. by apply (sw_free s Hwf i). }
  rewrite bind_seq. pose proof (ok_dequeue (s_backend_handle s) m) as Hdq.
  destruct (ops_dequeue_output ops _ _ m) as [[st o] m1] eqn:Edq. cbn [fst snd] in *.
  destruct (Z.eqb_spec st ADVC_STATUS_OK) as [->|]; cbn [negb]; [|left; rewrite bind_seq; refused].
  destruct (output_refused o) eqn:Eref.
  { right. rewrite !bind_seq. cbn [fst snd].
    destruct (installed_swap _ _ _ _ _ Hi Hdq) as (t' & H1 & H2).
    exists (opt_fd (bo_acquire_fence_fd o)), t'. split; [|split; [done|]].
    - split; [done|]. split; [done|]. by exists (s_backend_handle s), o, m1.
    - unfold answer, hpost. cbn -[slot_fds reply_fds opt_fd].
      by rewrite release_none, (reply_fds_none reply Hfd0), app_nil_r, slot_fds_used. }
  left. rewrite bind_seq. set (tr := if bo_transport o =? 0 then _ else _).
  pose proof (settle_output_spec o tr (m_fds m) m1 Hdq) as Hset.
  destruct (settle_output ops s o tr m1) as [[st'|fd] m2]; cbn [fst snd] in *.
  { rewrite bind_seq. refused. }
  destruct (allocate_output_id next) as [id next']. rewrite bind_seq. cbn [fst snd answer mret st_ret].
  set (slot := if tr =? ADVC_TRANSPORT_AHARDWAREBUFFER then _ else _).
  assert (out_in_use slot = true) as Hsu by (unfold slot; by destruct (tr =? _)). clearbody slot.
  assert (out_in_use slot = false -> slot = zero_output) as Hsz by (rewrite Hsu; done).
  unfold hpost. cbn -[slot_fds reply_fds]. split; [|split; [|split; [|done]]].
  - intros _. split; [by apply session_wf_outputs|done].
  - unfold slot_fds. cbn [s_in_use set_outputs]. rewrite Huse.
    change (session_fds (set_outputs _ s)) with (session_fds s).
    eapply (installed_join _ (m_fds m) _ (session_fds s)); [reflexivity|exact Hi|].
    unfold reply_fds. cbn -[Z.to_nat].
    destruct (msg_fds reply) as [|x0 l0]; [cbn in Hfds; lia|].
    destruct Hset as [(-> & Hge & Hin)|(-> & -> & Hf)]; cbn [Z.eqb Z.leb Pos.eqb Z.compare].
    + change (ADVC_TRANSPORT_BYTES =? ADVC_TRANSPORT_BYTES) with true. cbn iota.
      destruct (Z.leb_spec 0 fd); [|lia]. exact Hin.
    + change (ADVC_TRANSPORT_AHARDWAREBUFFER =? ADVC_TRANSPORT_BYTES) with false. cbn iota.
      rewrite Hf. change (0 <=? -1) with false. cbn iota. unfold opt_fd in Hdq.
      destruct (0 <=? bo_acquire_fence_fd o); exact Hdq.
  - destruct (0 <=? fd); [by rewrite length_insert|].
    destruct (0 <=? bo_acquire_fence_fd o); [by rewrite length_insert|done].
Qed.

(** *** PRIME export, flush and close *)

Lemma encode_result p d f n m :
  advc_dmabuf_registration_encode p d f n m =
    if descriptor_ok (m_fds m) d
    then ((0, (write_registration p d, encoded_fds d, u16 (d_object_count d))), m)
    else ((-1, (p, f, n)), set_errno EINVAL m).
Proof.
  unfold advc_dmabuf_registration_encode. rewrite bind_seq, validate_desc.
  by destruct (descriptor_ok (m_fds m) d).
Qed.

Lemma encoded_fds_take d : descriptor_typed d -> 0 < d_object_count d <= 4 ->
  take (Z.to_nat (d_object_count d)) (encoded_fds d) = declared_fds d.
Proof.
  intros (_&_&_&_&_&_&_&_&_&_&_&_&_&_&_&_&_&_&L&_) Hc. unfold encoded_fds, declared_fds, object_at.
  destruct (d_objects d) as [|o0 [|o1 [|o2 [|o3 [|]]]]]; try done.
  assert (d_object_count d = 1 \/ d_object_count d = 2 \/ d_object_count d = 3 \/
          d_object_count d = 4) as H by lia.
  by destruct H as [->|[->|[->| ->]]].
Qed.

Lemma concat_opt_fd l : Forall (fun fd => 0 <= fd) l -> concat (opt_fd <$> l) = l.
Proof.
  induction 1 as [|fd l Hfd _ IH]; [done|]. cbn. rewrite IH. by rewrite opt_fd_pos.
Qed.

Lemma drop_object_fds_spec d : descriptor_typed d -> 0 < d_object_count d <= 4 ->
  descriptor_typed (drop_object_fds (d_object_count d) d) /\
  concat (opt_fd <$> declared_fds (drop_object_fds (d_object_count d) d)) = [].
Proof.
  intros Hd Hc. split.
  - destruct Hd as (?&?&?&?&?&?&?&?&?&?&?&?&?&?&?&?&?&?&L&?&F&?).
    unfold descriptor_typed, drop_object_fds. cbn. split_and!; try done; [by rewrite length_imap|].
    apply Forall_lookup. intros i o Hi. rewrite list_lookup_imap in Hi.
    destruct (d_objects d !! i) as [o0|] eqn:E; [|done]. injection Hi as <-.
    rewrite Forall_lookup in F. specialize (F i o0 E). by destruct (_ <? _).
  - destruct Hd as (_&_&_&_&_&_&_&_&_&_&_&_&_&_&_&_&_&_&L&_).
    unfold declared_fds, drop_object_fds. cbn.
    destruct (d_objects d) as [|o0 [|o1 [|o2 [|o3 [|]]]]]; try done.
    assert (d_object_count d = 1 \/ d_object_count d = 2 \/ d_object_count d = 3 \/
            d_object_count d = 4) as H by lia.
    by destruct H as [->|[->|[->| ->]]].
Qed.

Lemma transfer_prime_post m : installed t (m_fds m) (session_fds s) ->
  hpost t s reply (handle_transfer_prime ops s request reply m).
Proof.
  intros Hi. unfold handle_transfer_prime. cbn zeta. test E0; [refused|]. test E1; [refused|].
  destruct (ops_export_decode_prime ops) as [export|] eqn:Hex; [|refused].
  test E2; [refused|]. test E3; [refused|].
  destruct (find_output s _) as [i|] eqn:Hfind; [|refused]. test E4; [refused|].
  apply find_idx_Some in Hfind as (o & Ho & Hou & _). apply andb_true_iff in Hou as [Hou _].
  assert (output_at s i = o) as Hat by (unfold output_at; by rewrite Ho).
  rewrite bind_seq.
  destruct (ok_export export Hex (s_backend_handle s) (out_native_buffer (output_at s i))
    (out_prime_metadata (output_at s i)) (advc_get_u64 (payload_of request) 0)
    (with_objects (replicate 4 (Obj (-1) 0)) zero_descriptor) m) as [Hd Hin].
  destruct (export _ _ _ _ _ m) as [[st d] m1]. cbn [fst snd] in *.
  assert (m_fds (snd (advc_dmabuf_descriptor_close d m1)) = m_fds m) as Hclose
    by (by apply descriptor_close_installed).
  test E5; [rewrite bind_seq; refused|]. test E6; [rewrite bind_seq; refused|].
  rewrite bind_seq, encode_result. destruct (descriptor_ok (m_fds m1) d) eqn:Eok; cbn [fst snd].
  2:{ cbn [Z.ltb Z.compare orb]. rewrite bind_seq. eapply hpost_keep; [exact Hi| |done..].
      assert (m_fds (snd (advc_dmabuf_descriptor_close d (set_errno EINVAL m1))) = m_fds m) as ->; [|done].
      by apply descriptor_close_installed. }
  apply (descriptor_ok_spec _ _ Hd) in Eok. destruct (ds_counts _ _ Eok) as [Hc _].
  rewrite u16_id by wsolve. test E7; [consts; exfalso; lia|]. rewrite bind_seq.
  destruct (drop_object_fds_spec d Hd Hc) as [Hd' Hnil].
  assert (m_fds (snd (advc_dmabuf_descriptor_close (drop_object_fds (d_object_count d) d) m1)) =
    m_fds m1) as Hkeep.
  { apply descriptor_close_installed; [done|]. rewrite Hnil. apply installed_nil. }
  destruct (declared_fds_valid _ _ Hd Eok) as [_ Hval].
  rewrite concat_opt_fd in Hin by (eapply Forall_impl; [exact Hval|]; by intros ? []).
  pose proof (declared_fds_length d Hd ltac:(lia)) as Hlen.
  unfold hpost. cbn -[slot_fds reply_fds]. split; [|split; [|split; [|done]]].
  - intros _. split; [|done]. apply session_wf_outputs. cbn. rewrite Hat, Hou. done.
  - unfold slot_fds. cbn [s_in_use set_outputs]. rewrite Huse.
    change (session_fds (set_outputs _ s)) with (session_fds s). rewrite Hkeep.
    eapply (installed_join _ (m_fds m) _ (session_fds s)); [reflexivity|exact Hi|].
    unfold reply_fds. cbn. rewrite encoded_fds_take by done.
    rewrite take_app_length' by done. exact Hin.
  - rewrite encoded_fds_take by done. rewrite length_app, length_drop, Hlen.
    cbn. assert (Z.to_nat (d_object_count d) <= 4)%nat by lia. lia.
Qed.

Lemma flush_post m : installed t (m_fds m) (session_fds s) ->
  hpost t s reply (handle_flush ops s request reply m).
Proof.
  intros Hi. unfold handle_flush. cbn zeta. test E0; [refused|]. test E1; [refused|].
  rewrite bind_seq. pose proof (ok_flush (s_backend_handle s) m) as Hf.
  destruct (ops_flush ops _ m) as [st m1]. cbn [fst snd] in *. test E2; [|refused].
  rewrite bind_seq. rewrite <- Hf in Hi.
  destruct (release_outstanding_post ops t s m1 Hwf Hi) as (Hi' & Hwf' & Hid & Hu & _).
  unfold hpost. cbn -[slot_fds reply_fds]. split; [done|]. split; [|split; [done|]].
  - rewrite reply_fds_none, app_nil_r by done. unfold slot_fds. by rewrite Hu, Huse.
  - intros Hne. apply Z.eqb_eq in E2. done.
Qed.

Lemma close_post m : installed t (m_fds m) (session_fds s) ->
  hpost t s reply (handle_close ops s request reply m).
Proof.
  intros Hi. unfold handle_close. cbn zeta. test E0; [refused|]. rewrite !bind_seq.
  destruct (release_outstanding_post ops t s m Hwf Hi) as (Hi' & Hwf' & _ & _ & Ha & Hr).
  pose proof (release_dmabuf_state_post t _ _ Hwf' Hi' Ha Hr) as Hm.
  unfold hpost. cbn -[slot_fds reply_fds]. split; [done|]. split; [|split; [done|done]].
  rewrite reply_fds_none by done. cbn. rewrite ok_destroy, Hm. apply installed_nil.
Qed.

End Handlers.
