(* ===== verification/EngineSafe.v ===== *)
(** * Safety of the whole engine

    Identifier allocation, the dispatch of every request, the work after the
    reply, and teardown, over the per-session lemmas of EngineInv.v. *)

From stdpp Require Import base list gmap.
From Stdlib Require Import ZArith Lia Bool.
From S2P Require Import Prelude Kernel Protocol Dmabuf Engine EngineFiles EngineInv.

(** ** Session identifiers *)

Definition used_ids (e : advc_session_engine) : list Z := 0 :: (s_id <$> eng_sessions e).

Lemma find_session_in e id i : find_session e id = Some i -> id ∈ s_id <$> eng_sessions e.
Proof.
  intros (s & Hs & Hf & _)%find_idx_Some. apply andb_true_iff in Hf as [_ Hid%Z.eqb_eq].
  apply list_elem_of_fmap. exists s. split; [done|]. by eapply list_elem_of_lookup_2.
Qed.

(** A round that does not return has met 0 or the identifier of a session; a
    return is a fresh non-zero identifier. *)
Lemma allocate_loop_spec fuel e : is_u32 (eng_next_session_id e) ->
  match allocate_session_id_loop fuel e with
  | Some (id, e') => id <> 0 /\ find_session e id = None /\
      eng_sessions e' = eng_sessions e /\ eng_next_output_id e' = eng_next_output_id e /\
      is_u32 (eng_next_session_id e') /\ is_u32 id
  | None => forall k, (k < fuel)%nat -> u32 (eng_next_session_id e + Z.of_nat k) ∈ used_ids e
  end.
Proof.
  revert e. induction fuel as [|fuel IH]; intros e Hn; [intros k Hk; lia|].
  cbn [allocate_session_id_loop].
  set (e1 := Engine (eng_sessions e) (u32 (eng_next_session_id e + 1)) (eng_next_output_id e)).
  pose proof (IH e1 (u32_range _)) as IH1.
  assert (eng_next_session_id e ∈ used_ids e ->
    (forall k, (k < fuel)%nat -> u32 (eng_next_session_id e1 + Z.of_nat k) ∈ used_ids e) ->
    forall k, (k < S fuel)%nat -> u32 (eng_next_session_id e + Z.of_nat k) ∈ used_ids e) as Hnone.
  { intros H0 Hk [|k] Hlt.
    - rewrite Z.add_0_r, u32_id by done. done.
    - specialize (Hk k ltac:(lia)). cbn in Hk.
      replace (u32 (eng_next_session_id e + Z.of_nat (S k)))
        with (u32 (u32 (eng_next_session_id e + 1) + Z.of_nat k)); [done|].
      unfold u32. rewrite Zplus_mod_idemp_l. f_equal. lia. }
  destruct (Z.eqb_spec (eng_next_session_id e) 0) as [E0|E0].
  - destruct (allocate_session_id_loop fuel e1) as [[id e']|]; [exact IH1|].
    apply Hnone; [rewrite E0; constructor|exact IH1].
  - case_bool_decide as Hf.
    + cbn. split; [done|]. split; [exact Hf|]. auto using u32_range.
    + destruct (allocate_session_id_loop fuel e1) as [[id e']|]; [exact IH1|].
      apply Hnone; [|exact IH1]. apply elem_of_cons. right.
      destruct (find_session e1 (eng_next_session_id e)) as [i|] eqn:Ef; [|done].
      by apply (find_session_in e1 _ i).
Qed.

(** Six consecutive candidates are distinct and at most five are taken. *)
Lemma allocate_session_id_spec e :
  is_u32 (eng_next_session_id e) -> length (eng_sessions e) = 4%nat ->
  exists id e', allocate_session_id_loop 6 e = Some (id, e') /\ id <> 0 /\ is_u32 id /\
    find_session e id = None /\ eng_sessions e' = eng_sessions e /\
    eng_next_output_id e' = eng_next_output_id e /\ is_u32 (eng_next_session_id e').
Proof.
  intros Hn Hl. pose proof (allocate_loop_spec 6 e Hn) as Hs.
  destruct (allocate_session_id_loop 6 e) as [[id e']|]; [naive_solver|]. exfalso.
  set (cands := (fun k => u32 (eng_next_session_id e + Z.of_nat k)) <$> seq 0 6).
  assert (NoDup cands) as Hnd.
  { apply NoDup_fmap_2_strong; [|apply NoDup_seq]. intros a b Ha Hb Heq.
    apply elem_of_seq in Ha, Hb. unfold u32 in Heq. wunfold.
    Z.to_euclidean_division_equations. lia. }
  assert (cands ⊆ used_ids e) as Hsub.
  { intros x (k & -> & Hk%elem_of_seq)%list_elem_of_fmap. apply Hs. lia. }
  pose proof (submseteq_length _ _ (NoDup_submseteq _ _ Hnd Hsub)) as Hle.
  unfold cands, used_ids in Hle. cbn [length] in Hle. rewrite !length_fmap, length_seq, Hl in Hle. lia.
Qed.

(** ** From one session to the engine *)

Lemma engine_fds_split e i s : eng_sessions e !! i = Some s ->
  exists rest, engine_fds e ≡ₚ rest ++ slot_fds s /\
    forall s' n k, engine_fds (Engine (<[i := s']> (eng_sessions e)) n k) ≡ₚ rest ++ slot_fds s'.
Proof.
  intros Hi. exists (concat (slot_fds <$> <[i := zero_session]> (eng_sessions e))). split.
  - pose proof (concat_insert_perm slot_fds _ i s zero_session Hi) as Hp.
    change (slot_fds zero_session) with (@nil Z) in Hp. rewrite app_nil_r in Hp. by symmetry.
  - intros s' n k. assert (i < length (eng_sessions e))%nat as Hlt by (by eapply lookup_lt_Some).
    pose proof (concat_insert_perm slot_fds (<[i := zero_session]> (eng_sessions e)) i zero_session s') as Hp.
    rewrite list_insert_insert_eq in Hp. change (slot_fds zero_session) with (@nil Z) in Hp.
    rewrite app_nil_r in Hp. apply Hp. by apply list_lookup_insert_eq.
Qed.

Lemma engine_wf_update e i s s' n k :
  engine_wf e -> eng_sessions e !! i = Some s -> is_u32 n ->
  (s_in_use s' = true -> session_wf s' /\ s_id s' <> 0 /\
     forall j x, j <> i -> eng_sessions e !! j = Some x -> s_in_use x = true -> s_id x <> s_id s') ->
  engine_wf (Engine (<[i := s']> (eng_sessions e)) n k).
Proof.
  intros [Hl _ Hs Hd] Hi Hn Hs'. constructor; cbn.
  - by rewrite length_insert.
  - done.
  - intros j x [(-> & <- & _)|[_ Hj]]%list_lookup_insert_Some; [|by apply (Hs j)].
    intros Hu. by destruct (Hs' Hu) as (? & ? & _).
  - intros j1 j2 x y [(-> & <- & _)|[Hn1 H1]]%list_lookup_insert_Some
      [(-> & <- & _)|[Hn2 H2]]%list_lookup_insert_Some Hx Hy Hxy; try done.
    + exfalso. destruct (Hs' Hx) as (_ & _ & H). by apply (H j2 y).
    + exfalso. destruct (Hs' Hy) as (_ & _ & H). by apply (H j1 x).
    + by eapply (Hd j1 j2 x y).
Qed.

(** A handled session keeps its identifier, so the engine keeps its invariant. *)
Lemma engine_wf_handled e i s s' n k :
  engine_wf e -> eng_sessions e !! i = Some s -> s_in_use s = true -> is_u32 n ->
  (s_in_use s' = true -> session_wf s' /\ s_id s' = s_id s) ->
  engine_wf (Engine (<[i := s']> (eng_sessions e)) n k).
Proof.
  intros Hw Hi Hu Hn Hs'. eapply engine_wf_update; try done. intros Hu'.
  destruct (Hs' Hu') as [Hsw Hid]. split; [done|]. rewrite Hid. split; [by apply (ew_session e Hw i s)|].
  intros j x Hne Hj Hx Heq. apply Hne. by eapply (ew_distinct e Hw j i x s).
Qed.

Section Engine.
Context {B : Type} (ops : advc_backend_ops B) {Hops : BackendOk ops}.
Implicit Types m : machine B.

(** What one request leaves behind. *)
Definition epost (t : gmap Z fd_info) (reply : advc_message)
  (x : Z * (advc_session_engine * advc_message) * machine B) : Prop :=
  let e' := fst (snd (fst x)) in
  let r' := snd (snd (fst x)) in
  engine_wf e' /\
  installed t (m_fds (snd x)) (engine_fds e' ++ reply_fds r') /\
  length (msg_fds r') = length (msg_fds reply) /\
  (fst (fst x) <> ADVC_STATUS_OK -> msg_header r' = msg_header reply).

Context (t : gmap Z fd_info) (e : advc_session_engine) (request reply : advc_message).
Context (Hw : engine_wf e).
Context (Hfd0 : fd_count (msg_header reply) = 0) (Hfds : (4 <= length (msg_fds reply))%nat).

Lemma epost_stop st m m' : installed t (m_fds m) (engine_fds e) -> m_fds m' = m_fds m ->
  epost t reply ((st, (e, reply)), m').
Proof.
  intros Hi Hm. unfold epost. cbn. rewrite Hm, (reply_fds_none reply Hfd0), app_nil_r. done.
Qed.

(** Putting a handled session back. *)
Lemma epost_put t0 t1 rest i s n k x :
  eng_sessions e !! i = Some s -> s_in_use s = true -> is_u32 n ->
  (forall s' n k, engine_fds (Engine (<[i := s']> (eng_sessions e)) n k) ≡ₚ rest ++ slot_fds s') ->
  installed t0 t1 rest -> hpost t1 s reply x ->
  epost t0 reply (put_session (Engine (eng_sessions e) n k) i (fst x), snd x).
Proof.
  intros Hs Hu Hn Hp H1 (Ha & Hb & Hc & Hd).
  unfold epost, put_session. cbn -[reply_fds engine_fds]. split; [|split; [|done]].
  - by eapply engine_wf_handled.
  - eapply installed_join; [|exact H1|exact Hb]. unfold set_sessions. cbn [eng_sessions].
    rewrite Hp. solve_Permutation.
Qed.

(** The account of a request: nothing is lost, or the fence of a refused output. *)
Definition handled (x : Z * (advc_session_engine * advc_message) * machine B) m : Prop :=
  accounted (fence_lost ops request (fst (fst x)) m) t (fun t' => epost t' reply x).

Lemma handled_session i s n k m x :
  eng_sessions e !! i = Some s -> s_in_use s = true -> is_u32 n ->
  installed t (m_fds m) (engine_fds e) ->
  (forall t1, installed t1 (m_fds m) (session_fds s) ->
     accounted (fence_lost ops request (fst (fst x)) m) t1 (fun t2 => hpost t2 s reply x)) ->
  handled (put_session (Engine (eng_sessions e) n k) i (fst x), snd x) m.
Proof.
  intros Hs Hu Hn Hi Hx. destruct (engine_fds_split e i s Hs) as (rest & Hp & Hp').
  destruct (installed_split t (m_fds m) rest (slot_fds s) (engine_fds e) Hp Hi) as (t1 & H1 & H2).
  unfold slot_fds in H2. rewrite Hu in H2. eapply accounted_below; [exact H1|by apply Hx|].
  intros t0 t' H0 H. by eapply epost_put.
Qed.

Lemma new_session_wf handle n c r : 
  (is_Some r <-> cfg_transport c = ADVC_TRANSPORT_DMABUF) ->
  (forall r0, r = Some r0 -> r0 = Registry (replicate 16 zero_entry) 0 0) ->
  forall id, session_wf (set_id id (new_session handle n c r)) /\
    session_fds (set_id id (new_session handle n c r)) = [].
Proof.
  intros Ht Hr id.
  assert (forall id, ~ awaits (replicate 4 zero_completion) id) as Hno.
  { intros id' (i & c0 & Hc & Hu & _). apply lookup_replicate in Hc as [-> _]. done. }
  split.
  - constructor; cbn [set_id new_session s_outputs s_dmabufs s_transport s_completions].
    + done.
    + by intros i o [-> _]%lookup_replicate.
    + intros r0 ->%Hr. apply registry_create_wf.
    + done.
    + constructor; [done| | |].
      * by intros i c0 [-> _]%lookup_replicate.
      * by intros i j c0 c1 [-> _]%lookup_replicate [-> _]%lookup_replicate.
      * intros id'. split; [intros H; by apply Hno in H|].
        intros (r0 & ->%Hr & d & Hd). exfalso. revert Hd. unfold lookup_entry, find_entry. cbn. done.
    + left. cbn. lia.
  - unfold session_fds. cbn. destruct r as [r|]; [|done]. cbn. rewrite (Hr r eq_refl). done.
Qed.

Lemma registry_create_cases m :
  m_fds (snd (advc_dmabuf_registry_create m)) = m_fds m /\
  forall r, fst (advc_dmabuf_registry_create m) = Some r -> r = Registry (replicate 16 zero_entry) 0 0.
Proof.
  unfold advc_dmabuf_registry_create. rewrite bind_seq. destruct (alloc_cases m) as (Hf & _).
  destruct (sys_alloc m) as [[] m1]; cbn in *; (split; [done|]); [by intros r [= <-]|done].
Qed.

Lemma create_post m : installed t (m_fds m) (engine_fds e) ->
  epost t reply (handle_create ops e request reply m).
Proof.
  intros Hi. unfold handle_create. destruct (create_check ops request) as [st|n]; [by eapply epost_stop|].
  cbn zeta. set (c := create_config (payload_of request)).
  destruct (find_idx _ (eng_sessions e)) as [i|] eqn:Hfree; [|by eapply epost_stop].
  apply find_idx_Some in Hfree as (s0 & Hs0 & Hu0 & _). apply negb_true_iff in Hu0.
  rewrite bind_seq. pose proof (ok_create c m) as Hc.
  destruct (ops_create ops c m) as [[st handle] m1]. cbn [fst snd] in *.
  destruct (negb (st =? ADVC_STATUS_OK)); [by eapply epost_stop|].
  destruct (handle =? 0); [by eapply epost_stop|].
  destruct (engine_fds_split e i s0 Hs0) as (rest & Hp & Hp').
  unfold slot_fds in Hp. rewrite Hu0, app_nil_r in Hp.
  assert (exists reg m2, (if cfg_transport c =? ADVC_TRANSPORT_DMABUF
     then advc_dmabuf_registry_create else mret None) m1 = (reg, m2) /\ m_fds m2 = m_fds m /\
     (forall r, reg = Some r -> r = Registry (replicate 16 zero_entry) 0 0) /\
     (is_Some reg -> cfg_transport c = ADVC_TRANSPORT_DMABUF)) as (reg & m2 & Hreg & Hm2 & Hempty & Htr).
  { destruct (Z.eqb_spec (cfg_transport c) ADVC_TRANSPORT_DMABUF).
    - destruct (registry_create_cases m1) as [Hf Hr]. destruct (advc_dmabuf_registry_create m1) as [reg m2].
      cbn in *. exists reg, m2. split; [done|]. split; [congruence|]. done.
    - exists None, m1. split; [done|]. split; [done|]. split; [done|]. by intros [? ?]. }
  rewrite bind_seq, Hreg. cbn [fst snd].
  destruct ((cfg_transport c =? ADVC_TRANSPORT_DMABUF) && bool_decide (reg = None)) eqn:Efail.
  - rewrite !bind_seq. unfold epost. cbn -[reply_fds engine_fds]. split; [|split; [|done]].
    + eapply engine_wf_update; [done..|apply (ew_next e Hw)|done].
    + rewrite (reply_fds_none reply Hfd0), app_nil_r. unfold set_sessions. cbn [errno gets fst snd].
      rewrite ok_destroy, Hm2. eapply installed_Permutation; [|exact Hi].
      rewrite Hp'. change (slot_fds zero_session) with (@nil Z). by rewrite app_nil_r.
  - assert (is_Some reg <-> cfg_transport c = ADVC_TRANSPORT_DMABUF) as Hiff.
    { split; [done|]. intros Ht. rewrite Ht, Z.eqb_refl in Efail. cbn in Efail.
      apply bool_decide_eq_false in Efail. destruct reg; [eauto|done]. }
    set (s := new_session handle n c reg). set (e1 := set_sessions (<[i := s]> (eng_sessions e)) e).
    destruct (allocate_session_id_spec e1) as (id & e2 & Ha & Hid & _ & Hfind & Hss & Hno & Hnn).
    { apply (ew_next e Hw). } { cbn. rewrite length_insert. apply (ew_length e Hw). }
    unfold allocate_session_id. rewrite Ha. cbn [default option_map fst snd].
    destruct (new_session_wf handle n c reg Hiff Hempty id) as [Hsw Hsf].
    assert (i < length (eng_sessions e))%nat as Hlt by (by eapply lookup_lt_Some).
    unfold epost. cbn -[reply_fds engine_fds]. unfold set_sessions. rewrite Hss. cbn [e1 set_sessions eng_sessions].
    rewrite list_insert_insert_eq. split; [|split; [|done]].
    + eapply engine_wf_update; [done..|]. intros _. split; [done|]. split; [done|].
      intros j x Hne Hj Hx Heq. cbn in Heq.
      assert (eng_sessions e1 !! j = Some x) as Hj1 by (cbn; by rewrite list_lookup_insert_ne by done).
      pose proof (find_idx_None _ _ Hfind j x Hj1) as Hf. cbn in Hf. rewrite Hx, Heq, Z.eqb_refl in Hf. done.
    + rewrite reply_fds_none by done. rewrite app_nil_r, Hm2. eapply installed_Permutation; [|exact Hi].
      rewrite Hp'. change (slot_fds (set_id id s)) with (session_fds (set_id id s)).
      unfold s. rewrite Hsf, app_nil_r. done.
Qed.

Lemma session_handler_post t1 s run m : session_wf s -> s_in_use s = true ->
  session_handler ops s request reply = Some run ->
  installed t1 (m_fds m) (session_fds s) -> hpost t1 s reply (run m).
Proof.
  intros Hsw Hu Hrun Hi. unfold session_handler in Hrun. cbn zeta in Hrun.
  repeat match type of Hrun with (if ?c then _ else _) = _ => destruct c end; try discriminate Hrun; injection Hrun as <-;
    first [ by apply queue_post | by apply release_post | by apply queue_ahb_post
          | by apply complete_ahb_post | by apply register_dmabuf_post | by apply unregister_dmabuf_post
          | by apply queue_dmabuf_post | by apply complete_dmabuf_post | by apply flush_post
          | by apply close_post
          | destruct (_ <? _); first [by eapply hpost_refuse | by apply transfer_ahb_post
                                     | by apply transfer_prime_post]
          | by eapply hpost_refuse ].
Qed.

Lemma find_session_inv id i : find_session e id = Some i ->
  eng_sessions e !! i = Some (session_at e i) /\ s_in_use (session_at e i) = true /\
  s_id (session_at e i) = id.
Proof.
  intros (s & Hs & Hf & _)%find_idx_Some. apply andb_true_iff in Hf as [Hu Hid%Z.eqb_eq].
  unfold session_at. rewrite Hs. done.
Qed.

(** The work of [session_handler] and of the dequeue, under the session's part of
    the table. *)
Lemma session_handler_none s : session_handler ops s request reply = None ->
  opcode (msg_header request) = ADVC_OP_DEQUEUE_OUTPUT.
Proof.
  unfold session_handler. cbn zeta. intros H.
  repeat match type of H with (if ?c then _ else _) = _ => destruct c eqn:?; try discriminate H end; lia.
Qed.

Lemma handle_post m : installed t (m_fds m) (engine_fds e) ->
  handled (advc_session_engine_handle ops e request reply m) m.
Proof.
  intros Hi. unfold advc_session_engine_handle. cbn zeta.
  repeat (match goal with |- handled ((if ?c then mret _ else _) _) _ => destruct c end;
          [left; by eapply epost_stop|]).
  match goal with |- handled ((if ?c then _ else _) _) _ => destruct c end; [left; by apply create_post|].
  destruct (find_session e _) as [i|] eqn:Hf; [|left; by eapply epost_stop].
  apply find_session_inv in Hf as (Hs & Hu & _). destruct (ew_session e Hw i _ Hs Hu) as [Hsw _].
  match goal with |- handled ((if ?c then _ else _) _) _ => destruct c end; [left; by eapply epost_stop|].
  destruct (session_handler ops (session_at e i) request reply) as [run|] eqn:Hrun; rewrite bind_seq.
  - cbn [mret st_ret].
    replace (put_session e i (fst (run m))) with
      (put_session (Engine (eng_sessions e) (eng_next_session_id e) (eng_next_output_id e)) i (fst (run m)))
      by (by destruct e).
    eapply (handled_session i (session_at e i)); [done..|apply (ew_next e Hw)|exact Hi|].
    intros t1 H1. left. by eapply session_handler_post.
  - cbn [mret st_ret]. set (x := handle_dequeue _ _ _ _ _ m).
    apply (handled_session i (session_at e i) _ _ m (fst (fst x), snd x)); [done..|apply (ew_next e Hw)|exact Hi|].
    intros t1 H1. apply dequeue_post; try done. by eapply session_handler_none.
Qed.

End Engine.

(** ** After the reply *)

Section AfterReply.
Context {B : Type} (ops : advc_backend_ops B) {Hops : BackendOk ops}.
Implicit Types m : machine B.
Context (t : gmap Z fd_info) (e : advc_session_engine) (request reply : advc_message).
Context (Hw : engine_wf e).

Lemma receive_pending_post t1 s cfd m : session_wf s -> s_in_use s = true ->
  installed t1 (m_fds m) (session_fds s) ->
  let x := receive_pending_ahb ops cfd s m in
  session_wf (snd (fst x)) /\ s_id (snd (fst x)) = s_id s /\ s_in_use (snd (fst x)) = true /\
  installed t1 (m_fds (snd x)) (session_fds (snd (fst x))).
Proof.
  intros Hsw Hu Hi. cbn zeta. unfold receive_pending_ahb.
  destruct (ops_receive_ahb_input ops) as [receive|] eqn:Hr; [|done].
  destruct (Z.eqb_spec (s_pending_ahb_state s) 1) as [E1|E1]; cbn [negb]; [|done].
  destruct (sw_pending s Hsw) as [(? & _)|(Htr & [[_ Hrel]|[? _]])]; [lia| |lia].
  set (rest := registry_fds (s_dmabufs s) ++ concat (completion_fds <$> s_completions s)).
  destruct (installed_split t1 (m_fds m) rest (opt_fd (ai_acquire_fence_fd (s_pending_ahb s)))
    (session_fds s)) as (t2 & H1 & H2); [|done|].
  { unfold session_fds, rest. rewrite (opt_fd_neg _ Hrel). cbn. solve_Permutation. }
  rewrite bind_seq.
  pose proof (ok_receive receive Hr (s_backend_handle s) cfd (s_pending_ahb s) t2 m H2) as H3.
  destruct (receive _ _ _ m) as [[st rel] m1]. cbn [fst snd] in *.
  assert (forall m', m_fds m' = t2 ->
    forall inp a b c d, ai_acquire_fence_fd inp < 0 -> c < 0 ->
    installed t1 (m_fds m') (session_fds (set_pending inp a b c d s))) as Hclosed.
  { intros m' -> inp a b c d Hinp Hc. eapply installed_Permutation; [|exact H1].
    unfold session_fds, rest. cbn. rewrite (opt_fd_neg _ Hinp), (opt_fd_neg _ Hc). done. }
  destruct (st =? ADVC_BACKEND_AHB_FATAL_TRANSPORT).
  { rewrite bind_seq. cbn -[close_if_open session_fds]. split; [|split; [done|split; [done|]]].
    - apply session_wf_pending; [done|]. left. cbn. lia.
    - apply Hclosed; cbn; [by apply close_if_open_installed|lia|done]. }
  rewrite bind_seq. destruct ((ADVC_STATUS_INTERNAL <? st) || _).
  - rewrite bind_seq. cbn -[close_if_open session_fds]. split; [|split; [done|split; [done|]]].
    + apply session_wf_pending; [done|]. right. cbn. split; [done|]. right. lia.
    + apply Hclosed; cbn; [by apply close_if_open_installed|lia|lia].
  - cbn -[session_fds]. split; [|split; [done|split; [done|]]].
    + apply session_wf_pending; [done|]. right. cbn. split; [done|]. right. lia.
    + eapply installed_join; [|exact H1|exact H3]. unfold session_fds, rest. cbn -[opt_fd].
      rewrite (opt_fd_neg (-1)) by lia. cbn. solve_Permutation.
Qed.

Lemma send_output_post t1 s cfd m : session_wf s -> s_in_use s = true ->
  installed t1 (m_fds m) (session_fds s) ->
  let x := send_output_ahb ops cfd request s m in
  session_wf (snd (fst x)) /\ s_id (snd (fst x)) = s_id s /\ s_in_use (snd (fst x)) = true /\
  installed t1 (m_fds (snd x)) (session_fds (snd (fst x))).
Proof.
  intros Hsw Hu Hi. cbn zeta. unfold send_output_ahb. cbn zeta. destruct (_ || _); [done|].
  destruct (find_output s _) as [i|] eqn:Hf; [|done].
  destruct (ops_send_native_buffer ops) as [send|] eqn:Hs; [|done]. destruct (_ || _); [done|].
  rewrite bind_seq. pose proof (ok_send send Hs cfd (out_native_buffer (output_at s i)) m) as Hm.
  destruct (send _ _ m) as [v m1]. cbn [fst snd] in *.
  destruct (v <? 0); cbn -[session_fds]; rewrite Hm; [done|].
  apply find_idx_Some in Hf as (o & Ho & Hou & _). apply andb_true_iff in Hou as [Hou _].
  split; [|done]. apply session_wf_outputs; [done|]. unfold output_at. rewrite Ho. cbn. by rewrite Hou.
Qed.

Lemma after_reply_post cfd m : installed t (m_fds m) (engine_fds e) ->
  let x := advc_session_engine_after_reply ops e cfd request reply m in
  engine_wf (snd (fst x)) /\ installed t (m_fds (snd x)) (engine_fds (snd (fst x))).
Proof.
  intros Hi. cbn zeta. unfold advc_session_engine_after_reply. destruct (_ =? 0); [done|].
  destruct (find_session e _) as [i|] eqn:Hf; [|done].
  apply find_session_inv in Hf as (Hs & Hu & _). destruct (ew_session e Hw i _ Hs Hu) as [Hsw _].
  destruct (engine_fds_split e i _ Hs) as (rest & Hp & Hp').
  destruct (installed_split t (m_fds m) rest (slot_fds (session_at e i)) (engine_fds e) Hp Hi)
    as (t1 & H1 & H2). unfold slot_fds in H2. rewrite Hu in H2. rewrite bind_seq.
  set (x := (if opcode (msg_header request) =? ADVC_OP_QUEUE_AHB
             then receive_pending_ahb ops cfd (session_at e i)
             else send_output_ahb ops cfd request (session_at e i)) m).
  assert (session_wf (snd (fst x)) /\ s_id (snd (fst x)) = s_id (session_at e i) /\
    s_in_use (snd (fst x)) = true /\ installed t1 (m_fds (snd x)) (session_fds (snd (fst x))))
    as (Hsw' & Hid & Hu' & Hx).
  { unfold x. destruct (_ =? _); [by apply receive_pending_post|by apply send_output_post]. }
  clearbody x. cbn -[engine_fds]. split.
  - eapply engine_wf_handled; [done..|apply (ew_next e Hw)|done].
  - eapply installed_join; [|exact H1|exact Hx]. unfold set_sessions. rewrite Hp'.
    unfold slot_fds. by rewrite Hu'.
Qed.

Lemma destroy_post m : installed t (m_fds m) (engine_fds e) ->
  m_fds (snd (advc_session_engine_destroy ops (Some e) m)) = t.
Proof.
  intros Hi. cbn [advc_session_engine_destroy].
  assert (forall s, s ∈ eng_sessions e -> s_in_use s = true -> session_wf s) as Hall.
  { intros s [i Hs]%list_elem_of_lookup Hu. by apply (ew_session e Hw i). }
  revert m Hi Hall. unfold engine_fds.
  induction (eng_sessions e) as [|s l IH]; intros m Hi Hall; [by apply installed_same|].
  cbn [foldr]. rewrite bind_seq. apply IH; [|intros; apply Hall; [by constructor|done]].
  cbn [fmap list_fmap concat] in Hi.
  destruct (installed_split t (m_fds m) (concat (slot_fds <$> l)) (slot_fds s)
    (slot_fds s ++ concat (slot_fds <$> l))) as (t1 & H1 & H2); [apply Permutation_app_comm|done|].
  unfold slot_fds in H2. destruct (s_in_use s) eqn:Hu.
  - rewrite (teardown_post ops t1); [done|done|apply Hall; [by constructor|done]|done].
  - unfold teardown_session. rewrite Hu. apply installed_same in H2. cbn. by rewrite H2.
Qed.

End AfterReply.

(** ** Properties *)

Section Claims.
Context {B : Type} (ops : advc_backend_ops B).
Implicit Types m : machine B.

(** C11. Every request is handled safely.  For every backend that keeps its
    documented contract, every engine state that satisfies the invariant and
    every request, whatever its bytes: the invariant holds afterwards (distinct
    non-zero session identifiers, one completion slot per buffer in flight, a
    consistent handshake), and the descriptors opened are exactly those the
    engine owns and those attached to the reply.  One descriptor may be lost: the
    acquire fence of an output that the backend hands over and DEQUEUE_OUTPUT
    refuses ([fence_lost]).  An answer other than OK leaves the reply header alone,
    so nothing is attached to it. *)
Theorem engine_handle_safe t e request reply m :
  BackendOk ops -> engine_wf e -> fd_count (msg_header reply) = 0 -> (4 <= length (msg_fds reply))%nat ->
  installed t (m_fds m) (engine_fds e) ->
  handled ops t request reply (advc_session_engine_handle ops e request reply m) m.
Proof. intros. by apply handle_post. Qed.

(** [allocate_session_id] returns: whatever the counter, wrap-around
    included, its loop ends after at most six rounds with a non-zero identifier
    that no live session has. *)
Theorem allocate_session_id_fresh e :
  is_u32 (eng_next_session_id e) -> length (eng_sessions e) = 4%nat ->
  let '(id, e') := allocate_session_id e in
  allocate_session_id_loop 6 e = Some (id, e') /\ id <> 0 /\ is_u32 id /\
  find_session e id = None /\ eng_sessions e' = eng_sessions e.
Proof.
  intros Hn Hl. unfold allocate_session_id.
  destruct (allocate_session_id_spec e Hn Hl) as (id & e' & -> & ? & ? & ? & ? & _). done.
Qed.

(** A recorded completion can always be collected: on a session that
    satisfies the invariant, COMPLETE_DMABUF never answers INTERNAL, because a
    completion slot in use always belongs to a buffer the registry has in
    flight. *)
Theorem complete_dmabuf_not_internal s request reply m :
  session_wf s -> s_in_use s = true ->
  fd_count (msg_header reply) = 0 -> (4 <= length (msg_fds reply))%nat ->
  (exists t, installed t (m_fds m) (session_fds s)) ->
  fst (fst (handle_complete_dmabuf (B := B) s request reply m)) <> ADVC_STATUS_INTERNAL.
Proof. intros Hsw Hu H0 H4 [t Hi]. apply (proj2 (complete_dmabuf_post t s request reply Hsw Hu H0 H4 m Hi)). Qed.

(** A dequeued output that is refused for its size, data pointer or flags
    leaks its acquire fence: the engine gives the buffer back to the backend and
    answers NO_RESOURCE, but the fence the backend handed over stays open and
    neither the session nor the reply refers to it.  The branches for a wrong
    transport do close it. *)
Theorem dequeue_refused_leaks s request reply m o m1 i next :
  BackendOk ops ->
  payload_size (msg_header request) = 0 -> fd_count (msg_header request) = 0 ->
  free_output_slot s = Some i ->
  ops_dequeue_output ops (s_backend_handle s) blank_output m = ((ADVC_STATUS_OK, o), m1) ->
  output_refused o = true -> 0 <= bo_acquire_fence_fd o ->
  let x := handle_dequeue ops next s request reply m in
  fst x = ((ADVC_STATUS_NO_RESOURCE, (s, reply)), next) /\
  installed (m_fds m) (m_fds (snd x)) [bo_acquire_fence_fd o].
Proof.
  intros Hops Hp Hf Hi Hdq Href Hfe. cbn zeta. unfold handle_dequeue. rewrite Hp, Hf, Hi. cbn [Z.eqb negb orb].
  rewrite bind_seq, Hdq. cbn [fst snd]. change (negb (ADVC_STATUS_OK =? ADVC_STATUS_OK)) with false.
  cbn iota. rewrite Href, !bind_seq. cbn [fst snd].
  pose proof (ok_dequeue (s_backend_handle s) m) as Hin. rewrite Hdq in Hin. cbn in Hin.
  rewrite opt_fd_pos in Hin by done. cbn. split; [done|]. by rewrite release_none.
Qed.

(** The AHardwareBuffer handshake delivers its result once.  When
    QUEUE_AHB is accepted and the backend then takes the buffer and answers with
    a status and a release fence, COMPLETE_AHB reports that status, hands that
    fence (and no other) to the client, and closes the handshake: a second
    COMPLETE_AHB is told to wait. *)
Theorem ahb_handshake s request reply m s1 reply1 m1 cfd receive st rel m2 creq crep :
  handle_queue_ahb s request reply m = ((ADVC_STATUS_OK, (s1, reply1)), m1) ->
  ops_receive_ahb_input ops = Some receive ->
  receive (s_backend_handle s) cfd (s_pending_ahb s1) m1 = ((st, rel), m2) ->
  0 <= st <= ADVC_STATUS_INTERNAL -> (st <> ADVC_STATUS_OK -> rel < 0) ->
  version_minor (msg_header creq) = 8 -> payload_size (msg_header creq) = 0 ->
  fd_count (msg_header creq) = 0 -> fd_count (msg_header crep) = 0 ->
  16 <= zlen (payload_of crep) -> (0 < length (msg_fds crep))%nat ->
  exists s2 s3 crep',
    receive_pending_ahb ops cfd s1 m1 = ((0, s2), m2) /\
    handle_complete_ahb s2 creq crep m2 = ((ADVC_STATUS_OK, (s3, crep')), m2) /\
    advc_get_u32 (payload_of crep') 0 = st /\ reply_fds crep' = opt_fd rel /\
    s_pending_ahb_state s3 = 0 /\
    fst (fst (handle_complete_ahb s3 creq crep m2)) = ADVC_STATUS_WOULD_BLOCK.
Proof.
  intros Hq Hrec Hans Hst Hrel Hv Hps Hfc Hfc' Hcap Hlen.
  assert (s_pending_ahb_state s1 = 1 /\ s_transport s1 = ADVC_TRANSPORT_ANDROID_AHB_SURFACE /\
    s_backend_handle s1 = s_backend_handle s) as (Hs1 & Ht1 & Hh1).
  { revert Hq. unfold handle_queue_ahb. cbn zeta.
    match goal with |- (if ?c then _ else _) _ = _ -> _ => destruct c eqn:Et end; [done|].
    do 4 (match goal with |- (if ?c then _ else _) _ = _ -> _ => destruct c end; [done|]).
    rewrite bind_seq. match goal with |- (if ?c then _ else _) _ = _ -> _ => destruct c end; [done|].
    intros [= <- _ _]. cbn. split; [done|]. split; [lia|done]. }
  unfold receive_pending_ahb. rewrite Hrec, Hs1.
  change (negb (1 =? 1)) with false. cbn iota zeta. rewrite bind_seq, Hh1, Hans. cbn [fst snd].
  change ADVC_BACKEND_AHB_FATAL_TRANSPORT with 4294967295. change ADVC_STATUS_INTERNAL with 7 in *.
  change ADVC_STATUS_OK with 0 in *.
  destruct (Z.eqb_spec st 4294967295); [lia|]. destruct ((7 <? st) || _) eqn:E; [lia|].
  rewrite bind_seq. cbn [fst snd mret st_ret]. do 3 eexists. split; [reflexivity|].
  unfold handle_complete_ahb. rewrite Hv, Hps, Hfc. cbn -[advc_put_u32 memzero reply_fds opt_fd reply_fd].
  rewrite Ht1. cbn -[advc_put_u32 memzero reply_fds opt_fd reply_fd]. split; [reflexivity|].
  split; [|split; [|split; [done|cbn; by rewrite Ht1]]].
  - transitivity (advc_get_u32 (advc_put_u32 (advc_put_u32 (advc_put_u32 (memzero (payload_of crep)
      ADVC_COMPLETE_AHB_SIZE) 0 st) 4 0) 8 (if 0 <=? rel then ADVC_FD_RELEASE_FENCE else ADVC_FD_NONE)) 0).
    { destruct (0 <=? rel); unfold payload_of; cbn -[advc_put_u32 memzero]; done. }
    fields. apply u32_id. wsolve.
  - destruct (Z.leb_spec 0 rel).
    + rewrite reply_fds_one by done. by rewrite opt_fd_pos.
    + rewrite opt_fd_neg by done. by rewrite reply_fds_none.
Qed.

(** What an accepted CREATE_SESSION guarantees, in unbounded arithmetic:
    dimensions between 16 and 8192, and for a byte-transport encoder even
    dimensions and a frame size of exactly [width * height * 3 / 2] bytes, at
    most 16 MiB.  Every other session has frame size 0. *)
Theorem create_check_sound request n :
  create_check ops request = inr n ->
  let c := create_config (payload_of request) in
  16 <= cfg_width c <= 8192 /\ 16 <= cfg_height c <= 8192 /\
  (cfg_direction c = ADVC_DIRECTION_DECODE \/ cfg_direction c = ADVC_DIRECTION_ENCODE) /\
  take 6 (cfg_mime c) = MIME_VIDEO /\
  (if (cfg_direction c =? ADVC_DIRECTION_ENCODE) && (cfg_transport c =? ADVC_TRANSPORT_BYTES)
   then 2 * n = 3 * (cfg_width c * cfg_height c) /\ n <= ADVC_MAX_INPUT_BYTES else n = 0).
Proof.
  unfold create_check. cbn zeta. set (c := create_config (payload_of request)).
  repeat (match goal with |- (if ?c then inl _ else _) = _ -> _ => destruct c eqn:?E end; [done|]).
  intros H. unfold create_bad in E0.
  assert (take 6 (cfg_mime c) = MIME_VIDEO) as Hmime.
  { destruct (str_eq (take 6 (cfg_mime c)) MIME_VIDEO) eqn:Em; [by apply bool_decide_eq_true in Em|].
    by rewrite orb_true_r in E0. }
  change ADVC_DIRECTION_DECODE with 1 in *. change ADVC_DIRECTION_ENCODE with 2 in *.
  assert (16 <= cfg_width c <= 8192 /\ 16 <= cfg_height c <= 8192 /\
    (cfg_direction c = 1 \/ cfg_direction c = 2)) as (Hwd & Hht & Hdir) by lia.
  split; [done|]. split; [done|]. split; [done|]. split; [done|].
  destruct (Z.eqb_spec (cfg_direction c) 1) as [Hd|Hd].
  { rewrite Hd. cbn. repeat (match goal with H : (if ?c then inl _ else _) = _ |- _ => destruct c; [done|] end).
    by injection H as <-. }
  assert (cfg_direction c = 2) as -> by lia. cbn [Z.eqb Pos.eqb andb].
  match goal with H : (if ?c then inl _ else _) = _ |- _ => destruct c; [done|] end.
  match goal with H : (if ?c then inl _ else _) = _ |- _ => destruct c eqn:Eb; [done|] end.
  do 3 (match goal with H : (if ?c then inl _ else _) = _ |- _ => destruct c; [done|] end).
  destruct (cfg_transport c =? ADVC_TRANSPORT_BYTES); [|by injection H as <-].
  match goal with H : (if ?c then inl _ else _) = _ |- _ => destruct c eqn:Esz; [done|] end.
  injection H as <-.
  assert (Z.land (cfg_width c) 1 = 0) as Hev.
  { unfold encode_bad in Eb. cbn zeta in Eb.
    destruct (Z.eqb_spec (Z.land (cfg_width c) 1) 0); [done|].
    cbn [negb] in Eb. by rewrite !orb_true_r in Eb. }
  rewrite (Z.land_ones _ 1) in Hev by lia. change (2 ^ 1) with 2 in Hev.
  unfold encode_frame_bytes in *. cbn zeta in *. set (a := cfg_width c * cfg_height c) in *.
  assert (0 <= a <= 67108864) as Ha by nia.
  assert (a mod 2 = 0) as Ham by (unfold a; rewrite Zmult_mod, Hev; done).
  rewrite (u64_id a) in * by wsolve. rewrite (u64_id (a + a / 2)) in * by wsolve.
  split; [|lia]. Z.to_euclidean_division_equations. lia.
Qed.

End Claims.

(** ** A concrete backend

    It accepts sessions, input and dma-bufs, consumes acquire fences, and has no
    output yet. *)
Definition idle_ops : advc_backend_ops unit := {|
  ops_create c := mret (ADVC_STATUS_OK, 1);
  ops_queue_input h data n pts flags := mret ADVC_STATUS_OK;
  ops_dequeue_output h o := mret (ADVC_STATUS_WOULD_BLOCK, o);
  ops_release_output h token fence := close_if_open fence;
  ops_export_decode_prime := None;
  ops_send_native_buffer := None;
  ops_receive_ahb_input := Some (fun h fd i =>
    close_if_open (ai_acquire_fence_fd i) ;; mret (ADVC_STATUS_OK, -1));
  ops_dmabuf_format_allowed := Some (fun h d => mret 1);
  ops_submit_dmabuf := Some (fun h d pts fence =>
    close_if_open fence ;; mret (ADVC_STATUS_OK, -1));
  ops_flush h := mret ADVC_STATUS_OK;
  ops_destroy h := mret tt;
|}.

#[export] Instance idle_ok : BackendOk idle_ops.
Proof.
  constructor; try done.
  - intros h tok f t m. apply close_if_open_installed.
  - intros f [= <-] h fd i t m Hi. rewrite bind_seq. cbn -[close_if_open].
    rewrite (close_if_open_installed t) by done. apply installed_nil.
  - intros f [= <-] h d m. done.
  - intros f [= <-] h d p a t m Hi. rewrite bind_seq. cbn -[close_if_open].
    rewrite (close_if_open_installed t) by done. apply installed_nil.
Qed.

Definition empty_engine : advc_session_engine := Engine (replicate 4 zero_session) 1 1.

Lemma empty_engine_wf : engine_wf empty_engine.
Proof.
  constructor; cbn [eng_sessions eng_next_session_id empty_engine].
  - done.
  - wsolve.
  - by intros i s [-> _]%lookup_replicate.
  - by intros i j s s' [-> _]%lookup_replicate.
Qed.

Lemma empty_engine_fds t : installed t t (engine_fds empty_engine).
Proof. apply installed_nil. Qed.

Definition blank_reply : advc_message :=
  Message (Header 1 8 ADVC_MSG_REPLY 0 0 0 0 0 0 0) (Some (replicate 300 0)) 300 (replicate 8 (-1)).
(** CREATE_SESSION for a 64x64 dma-buf H.264 encoder. *)
Definition create_request : advc_message :=
  let p := replicate 100 0 in
  let p := advc_put_u32 p 0 ADVC_DIRECTION_ENCODE in
  let p := advc_put_u32 (advc_put_u32 p 4 64) 8 64 in
  let p := advc_put_u32 (advc_put_u32 p 12 1000000) 16 30000 in
  let p := take 24 p ++ MIME_AVC ++ drop 33 p in
  let p := advc_put_u32 (advc_put_u32 p 92 ADVC_TRANSPORT_DMABUF) 96 ADVC_ENCODE_PROFILE_H264_MAIN in
  Message (Header 1 8 ADVC_MSG_REQUEST ADVC_OP_CREATE_SESSION 1 0 0 100 0 0) (Some p) 100 (replicate 8 (-1)).

Lemma engine_handle_safe_witness :
  fst (fst (advc_session_engine_handle idle_ops empty_engine create_request blank_reply sample_process)) =
    ADVC_STATUS_OK /\
  handled idle_ops sample_table create_request blank_reply
    (advc_session_engine_handle idle_ops empty_engine create_request blank_reply sample_process)
    sample_process.
Proof.
  split; [vm_compute; reflexivity|].
  apply (engine_handle_safe idle_ops sample_table empty_engine create_request blank_reply sample_process).
  - apply idle_ok.
  - apply empty_engine_wf.
  - reflexivity.
  - cbn. lia.
  - apply empty_engine_fds.
Defined.

(** The counter is about to wrap and the next identifiers are taken. *)
Definition wrapping_engine : advc_session_engine :=
  Engine ((fun id => set_id id (new_session 1 0 (create_config []) None)) <$> [UINT32_MAX; 1; 2; 3])
    UINT32_MAX 1.

Lemma allocate_session_id_fresh_witness :
  fst (allocate_session_id wrapping_engine) = 4 /\ find_session wrapping_engine 4 = None.
Proof.
  assert (is_u32 (eng_next_session_id wrapping_engine)) as H1 by (split; vm_compute; congruence).
  assert (length (eng_sessions wrapping_engine) = 4%nat) as H2 by reflexivity.
  pose proof (allocate_session_id_fresh wrapping_engine H1 H2) as H. revert H.
  destruct (allocate_session_id wrapping_engine) as [id e'] eqn:E. intros (_ & _ & _ & H & _).
  assert (id = 4) as -> by (vm_compute in E; injection E as <- _; reflexivity).
  split; [reflexivity|exact H].
Defined.

(** A session with one buffer registered and rendered, its completion waiting. *)
Definition busy_session : advc_session_slot :=
  set_dmabufs
    (Some (Registry (Entry sample_descriptor true true :: replicate 15 zero_entry) 1 1))
    (Completion 7 0 0 (-1) true :: replicate 3 zero_completion)
    (new_session 1 0 (create_config (payload_of create_request)) None).

Lemma busy_registry_wf :
  registry_wf (Registry (Entry sample_descriptor true true :: replicate 15 zero_entry) 1 1).
Proof.
  apply (registry_wf_update (Registry (replicate 16 zero_entry) 0 0) 0 zero_entry
    (Entry sample_descriptor true true) 1 1); try done; [apply registry_create_wf|].
  intros _. split; [done|]. by intros j e _ [-> _]%lookup_replicate.
Qed.

Lemma busy_session_wf : session_wf busy_session.
Proof.
  constructor.
  - done.
  - by intros i o [-> _]%lookup_replicate.
  - intros r [= <-]. apply busy_registry_wf.
  - split; [done|]. intros _. eauto.
  - constructor.
    + done.
    + intros [|i] c; [by intros [= <-]|]. by intros [-> _]%lookup_replicate.
    + intros [|i] [|j] c c' Hc Hc'; try done; cbn -[replicate] in Hc, Hc';
        try (apply lookup_replicate in Hc as [-> _]); try (apply lookup_replicate in Hc' as [-> _]); done.
    + intros id. split.
      * intros ([|i] & c & Hc & Hu & <-).
        -- injection Hc as <-. eexists. split; [done|]. exists sample_descriptor. done.
        -- apply (lookup_replicate 3) in Hc as [-> _]. done.
      * intros (r & [= <-] & d & Hd).
        apply lookup_entry_iff in Hd as (i & en & Hi & Hu & Hid & _); [|apply busy_registry_wf].
        destruct i as [|i]; [|by apply (lookup_replicate 15) in Hi as [-> _]].
        injection Hi as <-. exists 0%nat. eexists. split; [reflexivity|]. split; [done|]. exact Hid.
  - left. cbn. lia.
Qed.

Lemma complete_dmabuf_not_internal_witness :
  fst (fst (handle_complete_dmabuf busy_session
    (Message (Header 1 8 ADVC_MSG_REQUEST ADVC_OP_COMPLETE_DMABUF 1 1 0 8 0 0)
       (Some (advc_put_u64 (replicate 8 0) 0 7)) 8 []) blank_reply sample_process))
  <> ADVC_STATUS_INTERNAL.
Proof.
  apply (complete_dmabuf_not_internal busy_session).
  - apply busy_session_wf.
  - reflexivity.
  - reflexivity.
  - cbn. lia.
  - exists (delete 5 sample_table).
    assert (session_fds busy_session = [5]) as -> by reflexivity. split; [apply NoDup_singleton|]. split.
    + intros fd ->%list_elem_of_singleton. split; [lia|]. split; [reflexivity|vm_compute; eauto].
    + intros fd Hfd. rewrite lookup_delete_ne; [done|]. intros <-. apply Hfd. by apply list_elem_of_singleton.
Defined.

(** A backend whose only output carries a fence and an undefined flag. *)
Definition odd_output : advc_backend_output :=
  Output None 0 0 64 16 16 0 0 1 0 0 0 0 0 0 1 2 0 ADVC_TRANSPORT_AHARDWAREBUFFER.
Definition odd_ops : advc_backend_ops unit := {|
  ops_create := ops_create idle_ops;
  ops_queue_input := ops_queue_input idle_ops;
  ops_dequeue_output h o :=
    fd ← install_fd (FdInfo true KSyncFile);
    if fd <? 0 then mret (ADVC_STATUS_WOULD_BLOCK, o)
    else mret (ADVC_STATUS_OK, Output None 0 0 64 16 16 0 0 1 0 0 0 0 0 0 1 2 fd
                                 ADVC_TRANSPORT_AHARDWAREBUFFER);
  ops_release_output := ops_release_output idle_ops;
  ops_export_decode_prime := None;
  ops_send_native_buffer := None;
  ops_receive_ahb_input := None;
  ops_dmabuf_format_allowed := None;
  ops_submit_dmabuf := None;
  ops_flush := ops_flush idle_ops;
  ops_destroy := ops_destroy idle_ops;
|}.

#[export] Instance odd_ok : BackendOk odd_ops.
Proof.
  constructor; try done.
  - intros h m. cbn -[install_fd]. rewrite !bind_seq.
    destruct (install_fd_spec (FdInfo true KSyncFile) m) as [(m' & -> & Hf)|[_ ->]]; cbn.
    + by rewrite Hf.
    + pose proof (lowest_free_nonneg (m_fds m)) as Hn.
      destruct (Z.ltb_spec (lowest_free (m_fds m)) 0); [lia|]. cbn. rewrite opt_fd_pos by done.
      apply installed_one.
  - intros h tok f t m. apply close_if_open_installed.
Qed.

Lemma dequeue_refused_leaks_witness :
  installed sample_table (m_fds (snd (handle_dequeue odd_ops 1 (new_session 1 0 (create_config []) None)
    (Message (Header 1 8 ADVC_MSG_REQUEST ADVC_OP_DEQUEUE_OUTPUT 1 1 0 0 0 0) None 0 [])
    blank_reply sample_process))) [0].
Proof.
  apply (dequeue_refused_leaks odd_ops (new_session 1 0 (create_config []) None)
    (Message (Header 1 8 ADVC_MSG_REQUEST ADVC_OP_DEQUEUE_OUTPUT 1 1 0 0 0 0) None 0 [])
    blank_reply sample_process odd_output
    (snd (install_fd (FdInfo true KSyncFile) sample_process)) 0 1).
  - apply odd_ok.
  - reflexivity.
  - reflexivity.
  - reflexivity.
  - reflexivity.
  - reflexivity.
  - cbn. lia.
Defined.

(** A complete handshake with the idle backend. *)
Definition ahb_session : advc_session_slot :=
  Session 1 1 (replicate 8 zero_output) 0 ADVC_TRANSPORT_ANDROID_AHB_SURFACE ADVC_DIRECTION_ENCODE
    no_ahb_input 0 0 (-1) 0 None (replicate 4 zero_completion) true.
Definition ahb_request : advc_message :=
  Message (Header 1 8 ADVC_MSG_REQUEST ADVC_OP_QUEUE_AHB 1 1 0 48 1 0)
    (Some (advc_put_u32 (advc_put_u32 (advc_put_u32 (advc_put_u32 (replicate 48 0) 8 64) 12 64) 20 1)
             36 ADVC_FD_ACQUIRE_FENCE)) 48 [6].
Definition ahb_complete : advc_message :=
  Message (Header 1 8 ADVC_MSG_REQUEST ADVC_OP_COMPLETE_AHB 2 1 0 0 0 0) None 0 [].

Lemma ahb_handshake_witness :
  let x := handle_queue_ahb ahb_session ahb_request blank_reply sample_process in
  exists s2 s3 crep', fst (fst x) = ADVC_STATUS_OK /\
    fst (receive_pending_ahb idle_ops 5 (fst (snd (fst x))) (snd x)) = (0, s2) /\
    handle_complete_ahb s2 ahb_complete blank_reply sample_process =
      ((ADVC_STATUS_OK, (s3, crep')), sample_process) /\
    reply_fds crep' = [] /\ s_pending_ahb_state s3 = 0.
Proof.
  cbn zeta.
  destruct (ahb_handshake idle_ops ahb_session ahb_request blank_reply sample_process
    (fst (snd (fst (handle_queue_ahb ahb_session ahb_request blank_reply sample_process))))
    (snd (snd (fst (handle_queue_ahb ahb_session ahb_request blank_reply sample_process))))
    (snd (handle_queue_ahb ahb_session ahb_request blank_reply sample_process)) 5
    (fun h fd i => close_if_open (ai_acquire_fence_fd i) ;; mret (ADVC_STATUS_OK, -1))
    ADVC_STATUS_OK (-1) sample_process ahb_complete blank_reply)
    as (s2 & s3 & crep' & H1 & H2 & _ & H3 & H4 & _).
  - vm_compute. reflexivity.
  - reflexivity.
  - vm_compute. reflexivity.
  - split; vm_compute; congruence.
  - lia.
  - reflexivity.
  - reflexivity.
  - reflexivity.
  - reflexivity.
  - vm_compute. discriminate.
  - cbn. lia.
  - exists s2, s3, crep'. split; [vm_compute; reflexivity|]. rewrite H1.
    split; [reflexivity|]. split; [exact H2|]. split; [exact H3|exact H4].
Defined.

Lemma create_check_sound_witness :
  take 6 (cfg_mime (create_config (payload_of create_request))) = MIME_VIDEO.
Proof.
  destruct (create_check_sound idle_ops create_request 0) as (_ & _ & _ & H & _).
  - vm_compute. reflexivity.
  - exact H.
Defined.
