(* ===== verification/Broker.v ===== *)
(** * The broker's request loop (src/src/video_bridge/src/broker.c)

    One round of the broker: receive a record, answer HELLO, PING and
    QUERY_CAPABILITIES itself, pass every other opcode to the provider, send the
    reply, run the provider's step after it and close what both messages still
    carry.  The provider's callbacks are a record; its userdata is a state the
    callbacks thread.  [rq0] and [rp0] are the contents of the two buffers
    [malloc] returns.  The theorems instantiate the provider with the session
    engine, for every codec backend that keeps its contract. *)

From stdpp Require Import base list gmap.
From Stdlib Require Import ZArith Lia Bool.
From Stdlib Require Import String.
#[local] Notation length := List.length.
From S2P Require Import Prelude Kernel Protocol Dmabuf Engine EngineFiles EngineInv EngineSafe.

(** ** Constants *)

Definition ADVC_MAX_CODEC_NAME : Z := 128.
Definition ADVC_MAX_CAPABILITIES : Z := 32.
Definition ADVC_HELLO_SIZE : Z := 16.
Definition ADVC_CAPS_PREFIX_SIZE : Z := 24.
Definition ADVC_CAPS_ENTRY_SIZE : Z := 224.

Definition ADVC_FEATURE_DMABUF : Z := Z.shiftl 1 1.
Definition ADVC_FEATURE_BROKER_EGL_SURFACE : Z := Z.shiftl 1 6.
Definition ADVC_FEATURE_ANDROID_AHB_SURFACE : Z := Z.shiftl 1 7.
Definition ADVC_FEATURE_DMABUF_EGL : Z := Z.shiftl 1 8.
Definition ADVC_FEATURE_DMABUF_VULKAN : Z := Z.shiftl 1 9.
Definition ADVC_FEATURE_DECODE_PRIME : Z := Z.shiftl 1 10.
Definition ADVC_FEATURE_ASYNC_DECODE_PRIME : Z := Z.shiftl 1 11.
Definition ADVC_FEATURE_DECODE_QCOM_MODIFIER : Z := Z.shiftl 1 12.
Definition ADVC_FEATURE_ENCODE_QCOM_MODIFIER : Z := Z.shiftl 1 13.

(** ** Data *)

Record advc_codec_capability := Capability {
  cap_mime : list Z; cap_codec_name : list Z; cap_direction : Z; cap_acceleration : Z;
  cap_low_latency : Z; cap_secure_playback : Z; cap_max_width : Z; cap_max_height : Z;
  cap_max_fps_milli : Z; cap_flags : Z }.

Record advc_capability_set := Capabilities {
  caps_api_level : Z; caps_count : Z; caps_transport_features : Z;
  caps_codecs : list advc_codec_capability }.      (* ADVC_MAX_CAPABILITIES of them *)

(** [None] is a NULL callback. *)
Record advc_broker_provider (U B : Type) := Provider {
  pv_feature_bits : Z;
  pv_query_capabilities : option (U -> St (machine B) (Z * advc_capability_set));
  pv_handle_codec_request :
    option (U -> advc_message -> advc_message -> St (machine B) (Z * (U * advc_message)));
  pv_after_reply : option (U -> Z -> advc_message -> advc_message -> St (machine B) (Z * U)) }.
Arguments Provider {U B}.
Arguments pv_feature_bits {U B}.
Arguments pv_query_capabilities {U B}.
Arguments pv_handle_codec_request {U B}.
Arguments pv_after_reply {U B}.

(** ** Replies *)

Definition init_reply (request : advc_message) (payload : list Z) (capacity : Z) : advc_message :=
  let h := msg_header request in
  Message
    (Header ADVC_VERSION_MAJOR
       (if version_minor h <=? ADVC_VERSION_MINOR then version_minor h else ADVC_VERSION_MINOR)
       ADVC_MSG_REPLY (opcode h) (request_id h) (session_id h) 0 0 0 0)
    (Some payload) capacity (replicate 8 (-1)).

Definition status_reply (reply : advc_message) (status detail : Z) : advc_message :=
  with_header (header_with_payload_size ADVC_STATUS_SIZE (msg_header reply))
    (with_payload (advc_put_u32 (advc_put_u32 (payload_of reply) 0 status) 4 detail) reply).

(** [strncpy(p + off, s, n)]: the string cut at [n], padded with zeros to [n]. *)
Definition strncpy (p : list Z) (off : Z) (s : list Z) (n : Z) : list Z :=
  list_inserts (Z.to_nat off) (resize (Z.to_nat n) 0 (cstring s)) p.

(** The stores of one capability entry at [off]. *)
Definition write_capability (p : list Z) (off : Z) (c : advc_codec_capability) : list Z :=
  let p := strncpy p off (cap_mime c) (ADVC_MAX_MIME - 1) in
  let p := strncpy p (off + 64) (cap_codec_name c) (ADVC_MAX_CODEC_NAME - 1) in
  let p := set_byte p (off + 192) (cap_direction c) in
  let p := set_byte p (off + 193) (cap_acceleration c) in
  let p := set_byte p (off + 194) (cap_low_latency c) in
  let p := set_byte p (off + 195) (cap_secure_playback c) in
  let p := advc_put_u32 p (off + 196) (cap_max_width c) in
  let p := advc_put_u32 p (off + 200) (cap_max_height c) in
  let p := advc_put_u32 p (off + 204) (cap_max_fps_milli c) in
  advc_put_u32 p (off + 208) (cap_flags c).

(** The entry loop from index [i] on. *)
Fixpoint write_capabilities (p : list Z) (i : Z) (l : list advc_codec_capability) : list Z :=
  match l with
  | [] => p
  | c :: l =>
      write_capabilities
        (write_capability p (ADVC_CAPS_PREFIX_SIZE + i * ADVC_CAPS_ENTRY_SIZE) c) (i + 1) l
  end.

Definition write_capability_reply (reply : advc_message) (caps : advc_capability_set)
  : Z * advc_message :=
  let required := ADVC_CAPS_PREFIX_SIZE + caps_count caps * ADVC_CAPS_ENTRY_SIZE in
  if (ADVC_MAX_CAPABILITIES <? caps_count caps) || (payload_capacity reply <? required)
  then (-1, reply)
  else
    let p := memzero (payload_of reply) required in
    let p := advc_put_u32 p 0 ADVC_STATUS_OK in
    let p := advc_put_u32 p 4 (caps_count caps) in
    let p := advc_put_u32 p 8 (caps_api_level caps) in
    let p := advc_put_u32 p 12 0 in
    let p := advc_put_u64 p 16 (caps_transport_features caps) in
    let p := write_capabilities p 0 (take (Z.to_nat (caps_count caps)) (caps_codecs caps)) in
    (0, with_header (header_with_payload_size required (msg_header reply)) (with_payload p reply)).

(** [x &= ~m] on 64 bits. *)
Definition clear_bits (x m : Z) : Z := Z.land x (Z.lxor UINT64_MAX m).

(** The features a client of minor version [minor] is shown. *)
Definition mask_features (minor features : Z) : Z :=
  let f := features in
  let f := if minor <? 3 then clear_bits f ADVC_FEATURE_BROKER_EGL_SURFACE else f in
  let f := if minor <? 4 then clear_bits f ADVC_FEATURE_ANDROID_AHB_SURFACE else f in
  let f := if minor <? 5
           then clear_bits f (Z.lor (Z.lor ADVC_FEATURE_DMABUF ADVC_FEATURE_DMABUF_EGL)
                                    ADVC_FEATURE_DMABUF_VULKAN) else f in
  let f := if minor <? 6 then clear_bits f ADVC_FEATURE_DECODE_PRIME else f in
  if minor <? 8
  then clear_bits f (Z.lor (Z.lor ADVC_FEATURE_ASYNC_DECODE_PRIME ADVC_FEATURE_DECODE_QCOM_MODIFIER)
                           ADVC_FEATURE_ENCODE_QCOM_MODIFIER) else f.

Definition mask_caps (minor bits : Z) (caps : advc_capability_set) : advc_capability_set :=
  Capabilities (caps_api_level caps) (caps_count caps)
    (mask_features minor (Z.land (caps_transport_features caps) bits)) (caps_codecs caps).

(** The HELLO branch. *)
Definition hello_reply (feature_bits : Z) (request reply : advc_message) : advc_message :=
  let h := msg_header request in
  if negb (payload_size h =? 0) && negb (payload_size h =? ADVC_HELLO_SIZE)
  then status_reply reply ADVC_STATUS_BAD_MESSAGE 0
  else
    let given := payload_size h =? ADVC_HELLO_SIZE in
    let client_features := if given then advc_get_u64 (payload_of request) 0 else UINT64_MAX in
    let client_max_payload :=
      if given then advc_get_u32 (payload_of request) 8 else ADVC_MAX_PAYLOAD in
    let p := memzero (payload_of reply) ADVC_HELLO_SIZE in
    let server_features := mask_features (version_minor h) feature_bits in
    let p := advc_put_u64 p 0 (Z.land server_features client_features) in
    let p := advc_put_u32 p 8 (if client_max_payload <? ADVC_MAX_PAYLOAD
                               then client_max_payload else ADVC_MAX_PAYLOAD) in
    with_header (header_with_payload_size ADVC_HELLO_SIZE (msg_header reply)) (with_payload p reply).

Section Broker.
Context {U B : Type}.
Implicit Types provider : option (advc_broker_provider U B).

(** The QUERY_CAPABILITIES branch. *)
Definition query_reply provider (u : U) (request reply : advc_message)
  : St (machine B) advc_message :=
  match provider with
  | Some pv =>
      match pv_query_capabilities pv with
      | Some query =>
          '(r, caps) ← query u;
          if r <? 0 then mret (status_reply reply ADVC_STATUS_CODEC_ERROR 0)
          else
            let caps := mask_caps (version_minor (msg_header request)) (pv_feature_bits pv) caps in
            let '(w, reply') := write_capability_reply reply caps in
            if w <? 0 then mret (status_reply reply' ADVC_STATUS_CODEC_ERROR 0) else mret reply'
      | None => mret (status_reply reply ADVC_STATUS_UNSUPPORTED 0)
      end
  | None => mret (status_reply reply ADVC_STATUS_UNSUPPORTED 0)
  end.

(** The default branch: the provider's codec engine. *)
Definition codec_reply provider (u : U) (request reply : advc_message)
  : St (machine B) (U * advc_message) :=
  match provider ≫= pv_handle_codec_request with
  | Some handle =>
      '(status, (u, reply)) ← handle u request reply;
      if negb (status =? ADVC_STATUS_OK) && (payload_size (msg_header reply) =? 0)
      then mret (u, status_reply reply status 0) else mret (u, reply)
  | None => mret (u, status_reply reply ADVC_STATUS_UNSUPPORTED 0)
  end.

(** From the version check to [send_reply:]. *)
Definition build_reply provider (u : U) (request reply : advc_message)
  : St (machine B) (U * advc_message) :=
  let h := msg_header request in
  if ADVC_VERSION_MINOR <? version_minor h
  then mret (u, status_reply reply ADVC_STATUS_UNSUPPORTED ADVC_VERSION_MINOR)
  else if opcode h =? ADVC_OP_HELLO
  then mret (u, hello_reply (from_option pv_feature_bits 0 provider) request reply)
  else if opcode h =? ADVC_OP_PING then mret (u, status_reply reply ADVC_STATUS_OK 0)
  else if opcode h =? ADVC_OP_QUERY_CAPABILITIES
  then reply' ← query_reply provider u request reply; mret (u, reply')
  else codec_reply provider u request reply.

(** [send_reply:] to [close_reply_fds:]: result and userdata. *)
Definition send_reply (client_fd : Z) provider (u : U) (request reply : advc_message)
  : St (machine B) (Z * U) :=
  sent ← advc_send_message reply;
  if sent <? 0 then mret (-1, u)
  else
    match provider ≫= pv_after_reply with
    | Some after =>
        '(r, u) ← after u client_fd request reply;
        mret (if r <? 0 then -1 else 0, u)
    | None => mret (0, u)
    end.

Definition request_slot (payload : list Z) : advc_message :=
  Message no_header (Some payload) ADVC_MAX_PAYLOAD (replicate 8 (-1)).

Definition advc_broker_handle_once (rq0 rp0 : list Z) (client_fd : Z) provider (u : U)
  : St (machine B) (Z * U) :=
  a ← sys_alloc;
  b ← sys_alloc;
  if negb (a && b) then errno_is ENOMEM ;; mret (-1, u)
  else
    '(r, request) ← advc_receive_message (request_slot rq0);
    if r <? 0 then mret (-1, u)
    else if negb (message_type (msg_header request) =? ADVC_MSG_REQUEST) then
      errno_is EPROTO ;; advc_close_message_fds request ;; mret (-1, u)
    else
      '(u, reply) ← build_reply provider u request (init_reply request rp0 ADVC_MAX_PAYLOAD);
      '(result, u) ← send_reply client_fd provider u request reply;
      advc_close_message_fds reply ;;
      advc_close_message_fds request ;;
      mret (result, u).

End Broker.

(** The provider of the Android broker: the session engine with its own copy
    of the backend's callbacks. *)
Definition engine_provider {B} (ops : advc_backend_ops B) (bits : Z)
  (query : option (advc_session_engine -> St (machine B) (Z * advc_capability_set)))
  : advc_broker_provider advc_session_engine B :=
  Provider bits query (Some (advc_session_engine_handle ops))
    (Some (advc_session_engine_after_reply ops)).

(** ** Ownership over one round *)

Section Round.
Context {B : Type} (ops : advc_backend_ops B) (bits : Z).
Context (query : option (advc_session_engine -> St (machine B) (Z * advc_capability_set))).
Context `{Hops : BackendOk B ops}.
Context (Hquery : forall q, query = Some q -> forall e m, m_fds (snd (q e m)) = m_fds m).
Implicit Types m : machine B.
Implicit Types t : gmap Z fd_info.

Lemma close_message_installed t (msg : advc_message) m : zlen (msg_fds msg) = ADVC_MAX_FDS ->
  installed t (m_fds m) (reply_fds msg) ->
  m_fds (snd (advc_close_message_fds msg m)) = t.
Proof.
  intros Hl Hi. unfold advc_close_message_fds. cbn zeta. rewrite bind_seq. cbn [snd fst mret st_ret].
  apply close_each_installed.
  replace (take _ (msg_fds msg)) with (reply_fds msg); [done|].
  unfold reply_fds, zlen, ADVC_MAX_FDS in *.
  destruct (Z.leb_spec (fd_count (msg_header msg)) 8); [by rewrite Z.min_l by lia|].
  rewrite Z.min_r by lia. rewrite !take_ge by lia. done.
Qed.

(** What a reply under construction satisfies. *)
Definition rpost t (x : advc_session_engine * advc_message * machine B) : Prop :=
  engine_wf (fst (fst x)) /\
  installed t (m_fds (snd x)) (engine_fds (fst (fst x)) ++ reply_fds (snd (fst x))) /\
  zlen (msg_fds (snd (fst x))) = ADVC_MAX_FDS.

Lemma rpost_stop t e r m : engine_wf e -> fd_count (msg_header r) = 0 ->
  zlen (msg_fds r) = ADVC_MAX_FDS ->
  installed t (m_fds m) (engine_fds e) -> rpost t ((e, r), m).
Proof.
  intros Hw H0 Hl Hi. split; [done|]. split; [|done]. cbn [fst snd].
  by rewrite (reply_fds_none r H0), app_nil_r.
Qed.

Lemma hello_reply_fds f rq r : reply_fds (hello_reply f rq r) = reply_fds r /\
  msg_fds (hello_reply f rq r) = msg_fds r /\ fd_count (msg_header (hello_reply f rq r)) = fd_count (msg_header r).
Proof. unfold hello_reply. cbn zeta. by destruct (_ && _). Qed.

Lemma capability_reply_fds r c : msg_fds (snd (write_capability_reply r c)) = msg_fds r /\
  fd_count (msg_header (snd (write_capability_reply r c))) = fd_count (msg_header r).
Proof. unfold write_capability_reply. cbn zeta. by destruct (_ || _). Qed.

Lemma query_reply_post e rq r m :
  let x := query_reply (Some (engine_provider ops bits query)) e rq r m in
  m_fds (snd x) = m_fds m /\ msg_fds (fst x) = msg_fds r /\
  fd_count (msg_header (fst x)) = fd_count (msg_header r).
Proof.
  cbn zeta. unfold query_reply. cbn [engine_provider pv_query_capabilities pv_feature_bits].
  destruct query as [q|]; [|done]. rewrite bind_seq.
  pose proof (Hquery q eq_refl e m) as Hm. destruct (q e m) as [[rc caps] m1]. cbn [fst snd] in *.
  destruct (rc <? 0); [done|]. cbn zeta.
  pose proof (capability_reply_fds r (mask_caps (version_minor (msg_header rq)) bits caps)) as [H1 H2].
  destruct (write_capability_reply _ _) as [w r']. cbn [fst snd] in *. by destruct (w <? 0).
Qed.

Lemma codec_reply_post t e rq r m :
  engine_wf e -> fd_count (msg_header r) = 0 -> zlen (msg_fds r) = ADVC_MAX_FDS ->
  installed t (m_fds m) (engine_fds e) ->
  accounted (fun lost => exists status, fence_lost ops rq status m lost) t
    (fun t' => rpost t' (codec_reply (Some (engine_provider ops bits query)) e rq r m)).
Proof.
  intros Hw H0 Hl Hi. unfold codec_reply. cbn [mbind option_bind engine_provider pv_handle_codec_request].
  rewrite bind_seq. eapply accounted_mono;
    [exact (handle_post ops t e rq r Hw H0 ltac:(unfold zlen, ADVC_MAX_FDS in Hl; lia) m Hi)|eauto|].
  intros t' (Ha & Hb & Hc & _).
  destruct (advc_session_engine_handle ops e rq r m) as [[st [e' r']] m']. cbn [fst snd] in *.
  destruct (_ && _); (split; [done|]; split; [done|]); cbn; unfold zlen in *; by rewrite Hc.
Qed.

Lemma build_reply_post t e rq r m :
  engine_wf e -> fd_count (msg_header r) = 0 -> zlen (msg_fds r) = ADVC_MAX_FDS ->
  installed t (m_fds m) (engine_fds e) ->
  accounted (fun lost => exists status, fence_lost ops rq status m lost) t
    (fun t' => rpost t' (build_reply (Some (engine_provider ops bits query)) e rq r m)).
Proof.
  intros Hw H0 Hl Hi. unfold build_reply. cbn zeta. destruct (_ <? _); [left; by apply rpost_stop|].
  destruct (_ =? _).
  { left. destruct (hello_reply_fds bits rq r) as (_ & H1 & H2). apply rpost_stop; [done|..|done].
    - cbn. by rewrite H2.
    - cbn. unfold zlen in *. by rewrite H1. }
  destruct (_ =? _); [left; by apply rpost_stop|]. destruct (_ =? _); [|by apply codec_reply_post].
  left. rewrite bind_seq. destruct (query_reply_post e rq r m) as (H1 & H2 & H3).
  apply rpost_stop; [done|by rewrite H3|unfold zlen in *; by rewrite H2|by rewrite H1].
Qed.

Lemma send_message_fds r m : m_fds (snd (advc_send_message r m)) = m_fds m.
Proof.
  unfold advc_send_message. cbn zeta. destruct (_ && _); [done|]. rewrite bind_seq.
  unfold advc_header_encode. rewrite bind_seq. unfold advc_header_validate.
  destruct (header_invalid _); cbn -[sys_sendmsg]; [done|].
  rewrite bind_seq.
  assert (forall pk m, m_fds (snd (sys_sendmsg pk m)) = m_fds m) as Hs.
  { intros pk m0. unfold sys_sendmsg. destruct (send_retry _ _) as [v rs]. by destruct (v <? 0). }
  specialize (Hs (Packet (header_store (replicate 32 0) (msg_header r) ++
    take (Z.to_nat (payload_size (msg_header r))) (payload_of r))
    (take (Z.to_nat (fd_count (msg_header r))) (msg_fds r))) m).
  destruct (sys_sendmsg _ m) as [v m1]. cbn [fst snd] in *.
  destruct (v <? 0); [done|]. by destruct (negb _).
Qed.

Lemma send_reply_post t cfd e rq r m :
  engine_wf e -> installed t (m_fds m) (engine_fds e) ->
  let x := send_reply cfd (Some (engine_provider ops bits query)) e rq r m in
  engine_wf (snd (fst x)) /\ installed t (m_fds (snd x)) (engine_fds (snd (fst x))).
Proof.
  intros Hw Hi. cbn zeta. unfold send_reply. rewrite bind_seq. pose proof (send_message_fds r m) as Hs.
  destruct (advc_send_message r m) as [v m1]. cbn [fst snd] in *. rewrite <- Hs in Hi.
  destruct (v <? 0); [done|].
  cbn [mbind option_bind engine_provider pv_after_reply]. rewrite bind_seq.
  destruct (after_reply_post ops t e rq r Hw cfd m1 Hi) as [Ha Hb].
  destruct (advc_session_engine_after_reply ops e cfd rq r m1) as [[rc e'] m2]. done.
Qed.

Lemma alloc_fds m : m_fds (snd (sys_alloc m)) = m_fds m /\ m_rx (snd (sys_alloc m)) = m_rx m.
Proof. unfold sys_alloc. by destruct (m_alloc m) as [|[] ?]. Qed.

(** Both messages are closed after the provider has run. *)
Lemma finish_round t t1 e rq reply cfd m :
  engine_wf e -> zlen (msg_fds rq) = ADVC_MAX_FDS -> zlen (msg_fds reply) = ADVC_MAX_FDS ->
  installed t t1 (reply_fds rq) ->
  installed t1 (m_fds m) (engine_fds e ++ reply_fds reply) ->
  let x := ('(result, u) ← send_reply cfd (Some (engine_provider ops bits query)) e rq reply;
            advc_close_message_fds reply ;; advc_close_message_fds rq ;; mret (result, u)) m in
  engine_wf (snd (fst x)) /\ installed t (m_fds (snd x)) (engine_fds (snd (fst x))).
Proof.
  intros Hw Hlq Hlr Hq Hr. cbn zeta. rewrite bind_seq.
  apply installed_app_inv in Hr as (ta & Ha & Hb).
  destruct (installed_swap _ _ _ _ _ Ha Hb) as (tb & Hc & Hd).
  destruct (send_reply_post tb cfd e rq reply m Hw Hd) as [Hw' Hi].
  destruct (send_reply _ _ _ _ _ m) as [[result u] m1]. cbn [fst snd] in *. rewrite !bind_seq.
  cbn [fst snd mret st_ret]. split; [done|].
  destruct (installed_swap _ _ _ _ _ Hc Hi) as (tc & He & Hf).
  rewrite <- (close_message_installed tc reply m1 Hlr Hf) in He.
  destruct (installed_swap _ _ _ _ _ Hq He) as (td & Hg & Hh).
  by rewrite (close_message_installed td rq _ Hlq Hh).
Qed.

Lemma gather_fds_length l fds n m :
  match fst (gather_fds (B := B) l fds n m) with Some (fds', _) => length fds' = length fds | None => True end.
Proof.
  revert fds n m. induction l as [|[inc|] l IH]; intros fds n m; cbn [gather_fds]; [done| |apply IH].
  destruct (_ <? _); [by rewrite !bind_seq|]. specialize (IH (store_fds fds n inc) (n + zlen inc) m).
  destruct (fst (gather_fds l _ _ m)) as [[fds' k]|]; [|done]. rewrite IH. unfold store_fds. apply length_inserts.
Qed.

Lemma receive_shape msg m :
  zlen (msg_fds (snd (fst (advc_receive_message (B := B) msg m)))) = zlen (msg_fds msg).
Proof.
  unfold advc_receive_message. destruct (_ && _); [done|]. rewrite bind_seq.
  destruct (sys_recvmsg m) as [[e|bytes tr ctl] m1]; [done|]. cbn [fst snd]. rewrite bind_seq. cbn zeta.
  destruct (install_control ctl m1) as [d m2]. cbn [fst snd].
  set (msg1 := match msg_payload msg with Some _ => _ | None => _ end).
  assert (msg_fds msg1 = msg_fds msg) as Hf by (unfold msg1; by destruct (msg_payload msg)).
  rewrite <- Hf. clearbody msg1. destruct (_ =? 0); [done|]. rewrite bind_seq.
  pose proof (gather_fds_length d (msg_fds msg1) 0 m2) as Hg.
  destruct (gather_fds d _ 0 m2) as [[[fds n]|] m3]; cbn [fst snd] in *; [|done]. rewrite bind_seq.
  match goal with |- context [record_check ?a ?b ?c ?d ?e m3] =>
    destruct (record_check a b c d e m3) as [[[] h] m4] end; cbn [fst snd];
    rewrite ?bind_seq; cbn; unfold zlen; by rewrite Hg.
Qed.

(** The kernel delivers no more descriptors than the control buffer has room for:
    [CMSG_SPACE] of eight of them. *)
Definition control_fits (ev : rx_event) : Prop :=
  match ev with
  | RxError _ => True
  | RxRecord _ _ control => (control_files control <= 8)%nat
  end.

(** The descriptors [advc_receive_message] loses: those the kernel delivers with a
    record that has no bytes, which the code takes for the peer's shutdown. *)
Definition record_lost (m : machine B) (lost : list Z) : Prop :=
  exists truncated control rest, recv_retry (m_rx m) = (RxRecord [] truncated control, rest) /\
    lost = all_fds (fst (install_control control (set_rx rest m))).

Lemma receive_empty s msg tr ctl :
  fst (recv_retry (m_rx s)) = RxRecord [] tr ctl ->
  let x := advc_receive_message (B := B) msg s in
  fst (fst x) = -1 /\
  accounted (record_lost s) (m_fds s) (fun t' => m_fds (snd x) = t').
Proof.
  intros He. cbn zeta. unfold advc_receive_message. destruct (_ && _); [split; [done|by left]|].
  rewrite bind_seq. unfold sys_recvmsg. destruct (recv_retry (m_rx s)) as [ev rest] eqn:Hrx.
  cbn [fst snd] in *. subst ev. rewrite bind_seq. cbn zeta.
  destruct (install_control_installed ctl (set_rx rest s)) as [Hi _].
  assert (record_lost s (all_fds (fst (install_control ctl (set_rx rest s))))) as Hlost
    by (exists tr, ctl, rest; by rewrite Hrx).
  destruct (install_control ctl _) as [d s1]. cbn [fst snd] in *. rewrite take_nil. cbn.
  split; [done|]. right. by exists (all_fds d), (m_fds s1).
Qed.

(** Receiving, whatever the record: it fails with the table as it was up to the
    lost descriptors, or stores what it opened in the message. *)
Lemma receive_accounts s msg :
  control_fits (fst (recv_retry (m_rx s))) -> zlen (msg_fds msg) = ADVC_MAX_FDS ->
  let x := advc_receive_message (B := B) msg s in
  (fst (fst x) = -1 /\ accounted (record_lost s) (m_fds s) (fun t' => m_fds (snd x) = t')) \/
  (fst (fst x) = 0 /\ header_invalid (msg_header (snd (fst x))) = false /\
   header_typed (msg_header (snd (fst x))) /\
   installed (m_fds s) (m_fds (snd x)) (reply_fds (snd (fst x)))).
Proof.
  intros Hev Hl. cbn zeta. destruct (fst (recv_retry (m_rx s))) as [e|[|b bytes] tr ctl] eqn:He.
  - destruct (receive_cases s msg) as [[? ?]|(? & ? & ? & ? & ?)]; [by rewrite He|done|left|by right].
    split; [done|by left].
  - left. by apply (receive_empty s msg tr ctl).
  - destruct (receive_cases s msg) as [[? ?]|(? & ? & ? & ? & ?)]; [by rewrite He|done|left|by right].
    split; [done|by left].
Qed.

(** Records without lost descriptors: none comes with the zero-length record. *)
Definition event_clean (ev : rx_event) : Prop :=
  match ev with
  | RxError _ => True
  | RxRecord bytes _ control =>
      (bytes = [] -> control_files control = 0%nat) /\ (control_files control <= 8)%nat
  end.

Lemma receive_clean s msg :
  event_clean (fst (recv_retry (m_rx s))) -> zlen (msg_fds msg) = ADVC_MAX_FDS ->
  let x := advc_receive_message (B := B) msg s in
  (fst (fst x) = -1 /\ m_fds (snd x) = m_fds s) \/
  (fst (fst x) = 0 /\ header_invalid (msg_header (snd (fst x))) = false /\
   header_typed (msg_header (snd (fst x))) /\
   installed (m_fds s) (m_fds (snd x)) (reply_fds (snd (fst x)))).
Proof.
  intros Hev Hl. cbn zeta.
  destruct (receive_accounts s msg) as [[Hr [Ha|(lost & t' & (tr & ctl & rest & He & ->) & Hi & <-)]]|H];
    [by destruct (fst (recv_retry (m_rx s))); [|apply Hev]|done|by left|left|by right].
  split; [done|]. rewrite He in Hev. destruct Hev as [H0 _].
  destruct (install_control_installed ctl (set_rx rest s)) as [_ Hlen]. rewrite H0 in Hlen by done.
  destruct (all_fds _); [by apply installed_same|cbn in Hlen; lia].
Qed.

(** The request a round receives, and the state it leaves. *)
Definition at_receive m : machine B := snd (sys_alloc (snd (sys_alloc m))).
Definition received (rq0 : list Z) m : Z * advc_message * machine B :=
  advc_receive_message (request_slot rq0) (at_receive m).

(** What a round loses: the descriptors of an empty record, or the fence of a
    refused output. *)
Definition round_lost (rq0 : list Z) m (lost : list Z) : Prop :=
  record_lost (at_receive m) lost \/
  exists status, fence_lost ops (snd (fst (received rq0 m))) status (snd (received rq0 m)) lost.

Lemma handle_once_post t rq0 rp0 cfd e m :
  engine_wf e -> control_fits (fst (recv_retry (m_rx m))) ->
  installed t (m_fds m) (engine_fds e) ->
  let x := advc_broker_handle_once rq0 rp0 cfd (Some (engine_provider ops bits query)) e m in
  accounted (round_lost rq0 m) t (fun t' =>
    engine_wf (snd (fst x)) /\ installed t' (m_fds (snd x)) (engine_fds (snd (fst x)))).
Proof.
  intros Hw Hev Hi. cbn zeta. unfold advc_broker_handle_once. rewrite !bind_seq.
  assert (m_fds (at_receive m) = m_fds m /\ m_rx (at_receive m) = m_rx m) as [Hm Hrx].
  { unfold at_receive. destruct (alloc_fds m) as [Ha Hra], (alloc_fds (snd (sys_alloc m))) as [Hb Hrb].
    split; congruence. }
  rewrite <- Hm in Hi. rewrite <- Hrx in Hev.
  pose proof (receive_accounts (at_receive m) (request_slot rq0) Hev eq_refl) as Hrc. cbn zeta in Hrc.
  pose proof (receive_shape (request_slot rq0) (at_receive m)) as Hl.
  fold (received rq0 m) in Hrc, Hl.
  assert (forall t', accounted (record_lost (at_receive m)) (m_fds (at_receive m)) (fun t1 => t' = t1) ->
    accounted (round_lost rq0 m) t (fun t0 => engine_wf e /\ installed t0 t' (engine_fds e))) as Hfail.
  { intros t' [->|(lost & t1 & Hlost & Hin & ->)]; [by left|right].
    destruct (installed_swap _ _ _ _ _ Hi Hin) as (t0 & H1 & H2).
    exists lost, t0. split; [by left|done]. }
  change (snd (sys_alloc (snd (sys_alloc m)))) with (at_receive m).
  destruct (negb _); [by left|]. rewrite bind_seq. fold (received rq0 m).
  unfold round_lost in *. destruct (received rq0 m) as [[r rq] mc]. cbn [fst snd] in *.
  destruct Hrc as [[-> Hacc]|(-> & _ & _ & Hin)]; [by apply Hfail|]. clear Hfail.
  change (0 <? 0) with false. cbn iota.
  destruct (installed_swap _ _ _ _ _ Hi Hin) as (t1 & H1 & H2).
  destruct (negb _).
  - left. rewrite !bind_seq. cbn [fst snd mret st_ret]. split; [done|].
    destruct (installed_swap _ _ _ _ _ H1 H2) as (t2 & H3 & H4).
    by rewrite (close_message_installed t2 rq (snd (errno_is EPROTO mc)) Hl H4).
  - rewrite bind_seq.
    eapply accounted_mono; [|intros lost Hlost; right; exact Hlost|intros t' Ht'; exact Ht'].
    eapply accounted_below; [exact H1|by apply (build_reply_post t1 e rq (init_reply rq rp0 ADVC_MAX_PAYLOAD) mc)|].
    intros t0 t' H0 (Hw' & Hr & Hlr).
    destruct (build_reply _ _ _ _ mc) as [[e' reply] md]. cbn [fst snd] in *.
    by apply (finish_round t0 t').
Qed.

End Round.

(** ** The Android broker's client (src/src/video_bridge/android/broker_main.c)

    The device probes and the two environment variables are parameters; so are
    the peer's credentials ([None] when [getsockopt] fails). *)

Definition PRIME_TOKEN : list Z :=
  bytes_of "validated-qcom-prime-repack-linear-fence-eos-v1"%string.
Definition ENCODE_TOKEN : list Z := bytes_of "validated-turnip-qcom-nv12-surface-v1"%string.

Definition getenv_is (v : option (list Z)) (token : list Z) : bool :=
  match v with Some v => str_eq v token | None => false end.

Definition ADVC_FEATURE_MEMFD : Z := Z.shiftl 1 0.
Definition ADVC_FEATURE_NATIVE_FENCE : Z := Z.shiftl 1 2.
Definition ADVC_FEATURE_AHARDWAREBUFFER : Z := Z.shiftl 1 3.
Definition ADVC_FEATURE_DECODE : Z := Z.shiftl 1 4.
Definition ADVC_FEATURE_ENCODE : Z := Z.shiftl 1 5.

(** What the device probes answer and the environment holds. *)
Record broker_probes := Probes {
  probe_egl : bool; probe_ahb : bool; probe_dmabuf_vulkan : bool; probe_dmabuf_egl : bool;
  env_prime : option (list Z); env_encode : option (list Z) }.

Definition broker_feature_bits (pr : broker_probes) : Z :=
  let f := Z.lor (Z.lor (Z.lor (Z.lor ADVC_FEATURE_MEMFD ADVC_FEATURE_DECODE) ADVC_FEATURE_ENCODE)
             ADVC_FEATURE_AHARDWAREBUFFER) ADVC_FEATURE_NATIVE_FENCE in
  let f := if probe_egl pr then Z.lor f ADVC_FEATURE_BROKER_EGL_SURFACE else f in
  let f := if probe_ahb pr then Z.lor f ADVC_FEATURE_ANDROID_AHB_SURFACE else f in
  let f := if probe_dmabuf_vulkan pr
           then Z.lor f (Z.lor ADVC_FEATURE_DMABUF_VULKAN ADVC_FEATURE_DMABUF) else f in
  let f := if probe_dmabuf_egl pr
           then Z.lor f (Z.lor ADVC_FEATURE_DMABUF_EGL ADVC_FEATURE_DMABUF) else f in
  let f := clear_bits f ADVC_FEATURE_DECODE_PRIME in
  let f := if getenv_is (env_prime pr) PRIME_TOKEN
           then Z.lor f (Z.lor ADVC_FEATURE_DECODE_PRIME ADVC_FEATURE_DECODE_QCOM_MODIFIER)
           else f in
  let f := clear_bits f ADVC_FEATURE_ENCODE_QCOM_MODIFIER in
  if negb (Z.land f ADVC_FEATURE_DMABUF_VULKAN =? 0) && getenv_is (env_encode pr) ENCODE_TOKEN
  then Z.lor f ADVC_FEATURE_ENCODE_QCOM_MODIFIER else f.

Definition peer_is_root (credentials : option Z) : bool :=
  match credentials with Some uid => uid =? 0 | None => false end.

Section Client.
Context {B : Type} (ops : advc_backend_ops B).
Context (query : option (advc_session_engine -> St (machine B) (Z * advc_capability_set))).
(** The two buffers of each round. *)
Context (buffers : nat -> list Z * list Z).

(** [while (advc_broker_handle_once(client, &provider) == 0) {}]: at most [fuel]
    rounds, [None] when they are used up. *)
Fixpoint serve (fuel : nat) (bits client_fd : Z) (e : advc_session_engine)
  : St (machine B) (option advc_session_engine) :=
  match fuel with
  | O => mret None
  | S fuel =>
      '(r, e) ← advc_broker_handle_once (fst (buffers fuel)) (snd (buffers fuel)) client_fd
                  (Some (engine_provider ops bits query)) e;
      if r =? 0 then serve fuel bits client_fd e else mret (Some e)
  end.

(** [None] when the fuel is used up. *)
Definition handle_client (fuel : nat) (pr : broker_probes) (client : Z) (verify_peer : bool)
  (credentials : option Z) : St (machine B) (option unit) :=
  if verify_peer && negb (peer_is_root credentials) then mret (Some tt)
  else
    engine ← advc_session_engine_create (Some ops);
    match engine with
    | None => mret (Some tt)
    | Some e =>
        r ← serve fuel (broker_feature_bits pr) client e;
        match r with
        | None => mret None
        | Some e => advc_session_engine_destroy ops (Some e) ;; mret (Some tt)
        end
    end.

End Client.

(** ** Feature negotiation *)

Lemma feature_bit n i : 0 <= n -> Z.testbit (Z.shiftl 1 n) i = (i =? n).
Proof.
  intros Hn. rewrite Z.shiftl_1_l, Z.pow2_bits_eqb by done. apply Z.eqb_sym.
Qed.

Lemma clear_bits_spec x m i : 0 <= i < 64 ->
  Z.testbit (clear_bits x m) i = Z.testbit x i && negb (Z.testbit m i).
Proof.
  intros Hi. unfold clear_bits, UINT64_MAX. rewrite Z.land_spec, Z.lxor_spec.
  change (2 ^ 64 - 1) with (Z.ones 64).
  rewrite Z.ones_spec_low by lia. by destruct (Z.testbit m i).
Qed.

(** The minor version that introduced a feature bit. *)
Definition feature_since (i : Z) : Z :=
  if i =? 6 then 3 else if i =? 7 then 4
  else if (i =? 1) || (i =? 8) || (i =? 9) then 5 else if i =? 10 then 6
  else if (i =? 11) || (i =? 12) || (i =? 13) then 8 else 0.

Lemma clear_when_spec (c : bool) x m i : 0 <= i < 64 ->
  Z.testbit (if c then clear_bits x m else x) i = Z.testbit x i && negb (c && Z.testbit m i).
Proof. intros Hi. destruct c; cbn; [by apply clear_bits_spec|by rewrite andb_true_r]. Qed.

Lemma mask_features_spec minor x i : 0 <= i < 64 -> 0 <= minor ->
  Z.testbit (mask_features minor x) i = Z.testbit x i && (feature_since i <=? minor).
Proof.
  intros Hi Hm. unfold mask_features. cbn zeta. rewrite !clear_when_spec by done.
  rewrite !Z.lor_spec. unfold ADVC_FEATURE_BROKER_EGL_SURFACE, ADVC_FEATURE_ANDROID_AHB_SURFACE,
    ADVC_FEATURE_DMABUF, ADVC_FEATURE_DMABUF_EGL, ADVC_FEATURE_DMABUF_VULKAN, ADVC_FEATURE_DECODE_PRIME,
    ADVC_FEATURE_ASYNC_DECODE_PRIME, ADVC_FEATURE_DECODE_QCOM_MODIFIER, ADVC_FEATURE_ENCODE_QCOM_MODIFIER.
  rewrite !feature_bit by lia. unfold feature_since. rewrite <- !andb_assoc. f_equal.
  repeat match goal with |- context [i =? ?k] =>
    destruct (Z.eqb_spec i k) as [->|_]; [cbn; lia|] end.
  cbn. rewrite !andb_false_r. cbn. lia.
Qed.

(** What HELLO grants: the reply's feature word has a bit exactly when the
    broker offers it, the client asked for it, and the client's minor version
    knows it; the payload limit is the smaller of both sides. *)
Theorem hello_negotiation bits request reply i :
  0 <= i < 64 -> 0 <= version_minor (msg_header request) -> is_u64 bits ->
  payload_size (msg_header request) = ADVC_HELLO_SIZE ->
  ADVC_HELLO_SIZE <= zlen (payload_of reply) ->
  let p := payload_of (hello_reply bits request reply) in
  let wanted := advc_get_u64 (payload_of request) 0 in
  Z.testbit (advc_get_u64 p 0) i =
    Z.testbit bits i && Z.testbit wanted i && (feature_since i <=? version_minor (msg_header request)) /\
  advc_get_u32 p 8 = Z.min (advc_get_u32 (payload_of request) 8) ADVC_MAX_PAYLOAD.
Proof.
  intros Hi Hm Hb Hps Hl. cbn zeta. unfold hello_reply. rewrite Hps. unfold ADVC_HELLO_SIZE in *.
  change (16 =? 0) with false. change (16 =? 16) with true. cbn [negb andb].
  match goal with |- context [payload_of (with_header ?h (with_payload ?p ?r))] =>
    change (payload_of (with_header h (with_payload p r))) with p end.
  set (f := Z.land _ _). set (n := if _ <? _ then _ else _). split.
  - rewrite get_u64_put_u32_ne, get_put_u64 by side. unfold u64. rewrite Z.mod_pow2_bits_low by lia.
    unfold f. rewrite Z.land_spec, mask_features_spec by done.
    by destruct (Z.testbit bits i), (Z.testbit _ i), (_ <=? _).
  - rewrite get_put_u32 by side. unfold n.
    pose proof (get_u32_range (payload_of request) 8) as Hr.
    destruct (Z.ltb_spec (advc_get_u32 (payload_of request) 8) ADVC_MAX_PAYLOAD) as [H|H].
    + rewrite Z.min_l by lia. by apply u32_id.
    + rewrite Z.min_r by lia. reflexivity.
Qed.

(** The two validated paths are never advertised by accident: DECODE_PRIME
    and the decode modifier need the exact release token in the environment, the
    encode modifier needs its token and the Vulkan import probe, and the
    asynchronous decode path is never offered by this broker. *)
Theorem broker_feature_gate pr :
  Z.testbit (broker_feature_bits pr) 10 = getenv_is (env_prime pr) PRIME_TOKEN /\
  Z.testbit (broker_feature_bits pr) 12 = getenv_is (env_prime pr) PRIME_TOKEN /\
  Z.testbit (broker_feature_bits pr) 13 =
    probe_dmabuf_vulkan pr && getenv_is (env_encode pr) ENCODE_TOKEN /\
  Z.testbit (broker_feature_bits pr) 11 = false /\
  Z.testbit (broker_feature_bits pr) 1 = probe_dmabuf_vulkan pr || probe_dmabuf_egl pr /\
  is_u64 (broker_feature_bits pr).
Proof.
  unfold broker_feature_bits. cbn zeta.
  destruct (getenv_is (env_prime pr) _), (getenv_is (env_encode pr) _), (probe_egl pr), (probe_ahb pr),
    (probe_dmabuf_vulkan pr), (probe_dmabuf_egl pr); vm_compute; repeat split; congruence.
Qed.

(** A minor-4 client that asks for every feature. *)
Definition old_hello : advc_message :=
  Message (Header 1 4 ADVC_MSG_REQUEST ADVC_OP_HELLO 7 0 0 16 0 0)
    (Some (replicate 8 255 ++ [0; 16; 0; 0; 0; 0; 0; 0])) 16 (replicate 8 (-1)).

Lemma hello_negotiation_witness :
  let p := payload_of (hello_reply UINT64_MAX old_hello blank_reply) in
  Z.testbit (advc_get_u64 p 0) 10 = false /\ advc_get_u32 p 8 = 4096.
Proof.
  apply (hello_negotiation UINT64_MAX old_hello blank_reply 10).
  - lia.
  - cbn. lia.
  - wsolve.
  - reflexivity.
  - vm_compute. discriminate.
Defined.
