(* ===== verification/BrokerLive.v ===== *)
(** * The broker answers every request once and stops when the peer leaves

    A frame argument over the whole call tree: nothing but the broker's own
    receive and send touches the client's record queue.  With it, one round
    sends at most one reply, which carries the identifiers of its request, and
    serving a client ends when the records are used up, with the descriptor
    table as it was before. *)

From stdpp Require Import base list gmap.
From Stdlib Require Import ZArith Lia Bool.
From S2P Require Import Prelude Kernel Protocol Dmabuf Engine EngineFiles EngineInv EngineSafe Broker.

(** ** Computations that leave the record queue alone *)

(** [c] sends no record and at most drops records that wait to be received. *)
Definition quiet {B A} (c : St (machine B) A) : Prop :=
  forall m, m_tx (snd (c m)) = m_tx m /\ m_txres (snd (c m)) = m_txres m /\
    m_rx (snd (c m)) `suffix_of` m_rx m.

Create HintDb quiet.

Section QuietRules.
Context {B : Type}.

Lemma quiet_ret {A} (a : A) : quiet (B := B) (mret a).
Proof. by intros m. Qed.
Lemma quiet_bind {A C} (c : St (machine B) A) (k : A -> St (machine B) C) :
  quiet c -> (forall a, quiet (k a)) -> quiet (c ≫= k).
Proof.
  intros Hc Hk m. rewrite bind_seq. destruct (Hc m) as (Ht & Hs & Hr), (Hk (fst (c m)) (snd (c m))) as (Ht' & Hs' & Hr').
  split; [congruence|]. split; [congruence|by etrans].
Qed.
Lemma quiet_gets {A} (f : machine B -> A) : quiet (gets f).
Proof. by intros m. Qed.
Lemma quiet_set_errno e : quiet (B := B) (modify (set_errno e)).
Proof. by intros m. Qed.
Lemma quiet_set_fds f : quiet (B := B) (modify (fun m => set_fds (f m) m)).
Proof. by intros m. Qed.
Lemma quiet_next_io : quiet (B := B) next_io.
Proof. intros m. unfold next_io. destruct (m_io m) as [|v l]; [done|]. by destruct (v <? 0). Qed.
Lemma quiet_install f : quiet (B := B) (install_fd f).
Proof. intros m. unfold install_fd. by destruct (_ <=? _). Qed.
Lemma quiet_close fd : quiet (B := B) (sys_close fd).
Proof. intros m. unfold sys_close. by destruct (_ !! _). Qed.
Lemma quiet_getfd fd : quiet (B := B) (fcntl_getfd fd).
Proof. intros m. unfold fcntl_getfd. by destruct (_ !! _). Qed.
Lemma quiet_dup fd : quiet (B := B) (fcntl_dupfd_cloexec fd).
Proof. intros m. unfold fcntl_dupfd_cloexec. destruct (_ !! _); [apply quiet_install|done]. Qed.
Lemma quiet_sync fd : quiet (B := B) (ioctl_sync_file_info fd).
Proof. intros m. unfold ioctl_sync_file_info. by destruct (_ !! _) as [[? []]|]. Qed.
Lemma quiet_alloc : quiet (B := B) sys_alloc.
Proof. intros m. unfold sys_alloc. by destruct (m_alloc m) as [|[] ?]. Qed.

(** A [for] loop over an array. *)
Lemma quiet_foldr {A} (f : A -> St (machine B) unit) (l : list A) :
  (forall x, quiet (f x)) -> quiet (foldr (fun x k => f x ;; k) (mret tt) l).
Proof. intros Hf. induction l; cbn [foldr]; [apply quiet_ret|by apply quiet_bind]. Qed.

End QuietRules.

#[export] Hint Resolve quiet_ret quiet_gets quiet_set_errno quiet_set_fds quiet_next_io quiet_install
  quiet_close quiet_getfd quiet_dup quiet_sync quiet_alloc : quiet.

(** Walks a computation: binds, case analyses, and calls with a known frame. *)
Ltac hush :=
  cbn zeta;
  repeat first
    [ progress cbn beta iota zeta
    | solve [auto with quiet]
    | apply quiet_foldr; intros ?
    | apply quiet_bind; [|intros ?]
    | match goal with |- quiet (match ?x with _ => _ end) => destruct x eqn:? end ].

Section QuietLibrary.
Context {B : Type}.

Lemma quiet_close_if fd : quiet (B := B) (close_if_open fd).
Proof. unfold close_if_open. hush. Qed.
Lemma quiet_close_each l : quiet (B := B) (close_each l).
Proof. pose proof quiet_close_if. unfold close_each. hush. Qed.
Lemma quiet_close_all l : quiet (B := B) (close_all l).
Proof. unfold close_all. hush. Qed.
#[local] Hint Resolve quiet_close_if quiet_close_each quiet_close_all : quiet.

Lemma quiet_fail e : quiet (B := B) (fail_with e).
Proof. unfold fail_with, errno_is. hush. Qed.
Lemma quiet_errno_is e : quiet (B := B) (errno_is e).
Proof. unfold errno_is. hush. Qed.
Lemma quiet_errno : quiet (B := B) errno.
Proof. unfold errno. hush. Qed.
#[local] Hint Resolve quiet_fail quiet_errno_is quiet_errno : quiet.

Lemma quiet_memfd : quiet (B := B) sys_memfd_create.
Proof. unfold sys_memfd_create. hush. Qed.
Lemma quiet_set_file fd f : quiet (B := B) (set_file fd f).
Proof. unfold set_file. apply (quiet_set_fds (fun m => <[fd := f]> (m_fds m))). Qed.
#[local] Hint Resolve quiet_set_file : quiet.
Lemma quiet_ftruncate fd n : quiet (B := B) (sys_ftruncate fd n).
Proof. unfold sys_ftruncate. hush. Qed.
Lemma quiet_pwrite fd l off : quiet (B := B) (sys_pwrite fd l off).
Proof. unfold sys_pwrite. hush. Qed.
Lemma quiet_pread fd n off : quiet (B := B) (sys_pread fd n off).
Proof. unfold sys_pread. hush. Qed.
Lemma quiet_fstat fd : quiet (B := B) (sys_fstat fd).
Proof. unfold sys_fstat. hush. Qed.
Lemma quiet_get_seals fd : quiet (B := B) (fcntl_get_seals fd).
Proof. unfold fcntl_get_seals. hush. Qed.
Lemma quiet_add_seals fd n : quiet (B := B) (fcntl_add_seals fd n).
Proof. unfold fcntl_add_seals. hush. Qed.

End QuietLibrary.

#[export] Hint Resolve quiet_close_if quiet_close_each quiet_close_all quiet_fail quiet_errno_is
  quiet_errno quiet_memfd quiet_set_file quiet_ftruncate quiet_pwrite quiet_pread quiet_fstat
  quiet_get_seals quiet_add_seals : quiet.

(** *** The dma-buf registry *)

Section QuietDmabuf.
Context {B : Type}.

Lemma quiet_sync_validate fd : quiet (B := B) (advc_dmabuf_sync_file_validate fd).
Proof. unfold advc_dmabuf_sync_file_validate. hush. Qed.
Lemma quiet_descriptor_validate d : quiet (B := B) (advc_dmabuf_descriptor_validate d).
Proof. unfold advc_dmabuf_descriptor_validate. hush. Qed.
Lemma quiet_descriptor_close d : quiet (B := B) (advc_dmabuf_descriptor_close d).
Proof. unfold advc_dmabuf_descriptor_close. hush. Qed.
#[local] Hint Resolve quiet_sync_validate quiet_descriptor_validate quiet_descriptor_close : quiet.
Lemma quiet_registration_encode p d fds n : quiet (B := B) (advc_dmabuf_registration_encode p d fds n).
Proof. unfold advc_dmabuf_registration_encode. hush. Qed.
Lemma quiet_registration_decode p n fds k d : quiet (B := B) (advc_dmabuf_registration_decode p n fds k d).
Proof. unfold advc_dmabuf_registration_decode. hush. Qed.
Lemma quiet_submission_decode p n fds k s : quiet (B := B) (advc_dmabuf_submission_decode p n fds k s).
Proof. unfold advc_dmabuf_submission_decode. hush. Qed.
Lemma quiet_unregister_decode p n k : quiet (B := B) (advc_dmabuf_unregister_decode p n k).
Proof. unfold advc_dmabuf_unregister_decode. hush. Qed.
Lemma quiet_dup_fds todo done_ : quiet (B := B) (dup_fds todo done_).
Proof. revert done_. induction todo; intros done_; cbn; hush. Qed.
Lemma quiet_registry_create : quiet (B := B) advc_dmabuf_registry_create.
Proof. unfold advc_dmabuf_registry_create. hush. Qed.
Lemma quiet_close_descriptor d : quiet (B := B) (close_descriptor d).
Proof. unfold close_descriptor. hush. Qed.
#[local] Hint Resolve quiet_dup_fds quiet_close_descriptor : quiet.
Lemma quiet_registry_destroy r : quiet (B := B) (advc_dmabuf_registry_destroy r).
Proof. unfold advc_dmabuf_registry_destroy. hush. Qed.
Lemma quiet_registry_register allowed r d : (forall d, quiet (allowed d)) ->
  quiet (B := B) (advc_dmabuf_registry_register allowed r d).
Proof. intros. unfold advc_dmabuf_registry_register. hush. Qed.
Lemma quiet_registry_unregister r id : quiet (B := B) (advc_dmabuf_registry_unregister r id).
Proof. unfold advc_dmabuf_registry_unregister. hush. Qed.
Lemma quiet_registry_begin r s j : quiet (B := B) (advc_dmabuf_registry_begin r s j).
Proof. unfold advc_dmabuf_registry_begin. hush. Qed.
Lemma quiet_registry_finish r id : quiet (B := B) (advc_dmabuf_registry_finish r id).
Proof. unfold advc_dmabuf_registry_finish. hush. Qed.
Lemma quiet_job_close j : quiet (B := B) (advc_dmabuf_job_close j).
Proof. unfold advc_dmabuf_job_close. hush. Qed.

End QuietDmabuf.

#[export] Hint Resolve quiet_sync_validate quiet_descriptor_close quiet_registration_encode
  quiet_registration_decode quiet_submission_decode quiet_unregister_decode quiet_registry_create
  quiet_registry_destroy quiet_registry_register quiet_registry_unregister quiet_registry_begin
  quiet_registry_finish quiet_job_close : quiet.

(** *** The engine *)

(** The backend's callbacks exchange native handles and pixels, not records. *)
Class BackendQuiet {B : Type} (ops : advc_backend_ops B) : Prop := {
  quiet_op_create : forall c, quiet (ops_create ops c);
  quiet_op_queue : forall h d n p f, quiet (ops_queue_input ops h d n p f);
  quiet_op_dequeue : forall h o, quiet (ops_dequeue_output ops h o);
  quiet_op_release : forall h tok f, quiet (ops_release_output ops h tok f);
  quiet_op_export : forall f, ops_export_decode_prime ops = Some f ->
    forall h nb md id d, quiet (f h nb md id d);
  quiet_op_send : forall f, ops_send_native_buffer ops = Some f -> forall fd nb, quiet (f fd nb);
  quiet_op_receive : forall f, ops_receive_ahb_input ops = Some f -> forall h fd i, quiet (f h fd i);
  quiet_op_allowed : forall f, ops_dmabuf_format_allowed ops = Some f -> forall h d, quiet (f h d);
  quiet_op_submit : forall f, ops_submit_dmabuf ops = Some f -> forall h d p a, quiet (f h d p a);
  quiet_op_flush : forall h, quiet (ops_flush ops h);
  quiet_op_destroy : forall h, quiet (ops_destroy ops h);
}.

Section QuietEngine.
Context {B : Type} (ops : advc_backend_ops B) `{!BackendQuiet ops}.
Implicit Types s : advc_session_slot.

#[local] Hint Resolve quiet_op_create quiet_op_queue quiet_op_dequeue quiet_op_release quiet_op_flush
  quiet_op_destroy : quiet.
#[local] Hint Extern 1 (quiet _) => (eapply quiet_op_export; eassumption) : quiet.
#[local] Hint Extern 1 (quiet _) => (eapply quiet_op_send; eassumption) : quiet.
#[local] Hint Extern 1 (quiet _) => (eapply quiet_op_receive; eassumption) : quiet.
#[local] Hint Extern 1 (quiet _) => (eapply quiet_op_allowed; eassumption) : quiet.
#[local] Hint Extern 1 (quiet _) => (eapply quiet_op_submit; eassumption) : quiet.

Lemma quiet_write_all_at fd l : quiet (B := B) (write_all_at fd l).
Proof.
  unfold write_all_at. apply quiet_bind; [hush|]. intros io. generalize (S (length l + length io)), 0.
  intros fuel. induction fuel; intros z; cbn [write_all_loop]; hush.
Qed.
Lemma quiet_read_all_at fd n off : quiet (B := B) (read_all_at fd n off).
Proof.
  unfold read_all_at. apply quiet_bind; [hush|]. intros io.
  generalize (S (Z.to_nat n + length io)), (@nil Z).
  intros fuel. induction fuel; intros z; cbn [read_all_loop]; hush.
Qed.
#[local] Hint Resolve quiet_write_all_at quiet_read_all_at : quiet.
Lemma quiet_sealed_output l : quiet (B := B) (create_sealed_output l).
Proof. unfold create_sealed_output. hush. Qed.
Lemma quiet_is_sealed fd : quiet (B := B) (input_fd_is_sealed fd).
Proof. unfold input_fd_is_sealed. hush. Qed.
#[local] Hint Resolve quiet_is_sealed quiet_sealed_output : quiet.
Lemma quiet_load_input r : quiet (B := B) (load_input r).
Proof. unfold load_input. hush. Qed.
Lemma quiet_format_allowed s d : quiet (session_dmabuf_format_allowed ops s d).
Proof. unfold session_dmabuf_format_allowed. hush. Qed.
Lemma quiet_answer st s r : quiet (B := B) (answer st s r).
Proof. unfold answer. hush. Qed.
#[local] Hint Resolve quiet_load_input quiet_format_allowed quiet_answer : quiet.
Lemma quiet_create e rq r : quiet (handle_create ops e rq r).
Proof. unfold handle_create. hush. Qed.
Lemma quiet_queue s rq r : quiet (handle_queue ops s rq r).
Proof. unfold handle_queue. hush. Qed.
Lemma quiet_queue_ahb s rq r : quiet (B := B) (handle_queue_ahb s rq r).
Proof. unfold handle_queue_ahb. hush. Qed.
Lemma quiet_complete_ahb s rq r : quiet (B := B) (handle_complete_ahb s rq r).
Proof. unfold handle_complete_ahb. hush. Qed.
Lemma quiet_register s rq r : quiet (handle_register_dmabuf ops s rq r).
Proof. unfold handle_register_dmabuf. hush. Qed.
Lemma quiet_unregister s rq r : quiet (B := B) (handle_unregister_dmabuf s rq r).
Proof. unfold handle_unregister_dmabuf. hush. Qed.
Lemma quiet_settle_submit st f : quiet (B := B) (settle_submit st f).
Proof. unfold settle_submit. hush. Qed.
#[local] Hint Resolve quiet_settle_submit : quiet.
Lemma quiet_queue_dmabuf s rq r : quiet (handle_queue_dmabuf ops s rq r).
Proof. unfold handle_queue_dmabuf. hush. Qed.
Lemma quiet_complete_dmabuf s rq r : quiet (B := B) (handle_complete_dmabuf s rq r).
Proof. unfold handle_complete_dmabuf. hush. Qed.
Lemma quiet_settle_output s o tr : quiet (settle_output ops s o tr).
Proof. unfold settle_output. hush. Qed.
#[local] Hint Resolve quiet_settle_output : quiet.
Lemma quiet_dequeue n s rq r : quiet (handle_dequeue ops n s rq r).
Proof. unfold handle_dequeue. hush. Qed.
Lemma quiet_release s rq r : quiet (handle_release ops s rq r).
Proof. unfold handle_release. hush. Qed.
Lemma quiet_transfer_ahb s rq r : quiet (B := B) (handle_transfer_ahb s rq r).
Proof. unfold handle_transfer_ahb. hush. Qed.
Lemma quiet_transfer_prime s rq r : quiet (handle_transfer_prime ops s rq r).
Proof. unfold handle_transfer_prime. hush. Qed.
Lemma quiet_release_outstanding s : quiet (release_outstanding ops s).
Proof. unfold release_outstanding. hush. Qed.
Lemma quiet_retire l r : quiet (B := B) (retire_completions l r).
Proof. revert r. induction l; intros r; cbn [retire_completions]; hush. Qed.
#[local] Hint Resolve quiet_release_outstanding quiet_retire : quiet.
Lemma quiet_release_dmabuf s : quiet (B := B) (release_dmabuf_state s).
Proof. unfold release_dmabuf_state. hush. Qed.
#[local] Hint Resolve quiet_release_dmabuf : quiet.
Lemma quiet_flush s rq r : quiet (handle_flush ops s rq r).
Proof. unfold handle_flush. hush. Qed.
Lemma quiet_close_session s rq r : quiet (handle_close ops s rq r).
Proof. unfold handle_close. hush. Qed.
Lemma quiet_teardown s : quiet (teardown_session ops s).
Proof. unfold teardown_session. hush. Qed.
#[local] Hint Resolve quiet_create quiet_queue quiet_queue_ahb quiet_complete_ahb quiet_register
  quiet_unregister quiet_queue_dmabuf quiet_complete_dmabuf quiet_dequeue quiet_release
  quiet_transfer_ahb quiet_transfer_prime quiet_flush quiet_close_session quiet_teardown : quiet.
Lemma quiet_destroy e : quiet (advc_session_engine_destroy ops e).
Proof. unfold advc_session_engine_destroy. hush. Qed.
Lemma quiet_session_handler s rq r run : session_handler ops s rq r = Some run -> quiet run.
Proof.
  unfold session_handler. intros H.
  repeat match type of H with (if ?c then _ else _) = _ => destruct c end;
    try discriminate; injection H as <-; hush.
Qed.
#[local] Hint Extern 1 (quiet _) => (eapply quiet_session_handler; eassumption) : quiet.
Lemma quiet_handle e rq r : quiet (advc_session_engine_handle ops e rq r).
Proof. unfold advc_session_engine_handle. hush. Qed.
Lemma quiet_after_reply e fd rq r : quiet (advc_session_engine_after_reply ops e fd rq r).
Proof. unfold advc_session_engine_after_reply, receive_pending_ahb, send_output_ahb. hush. Qed.

End QuietEngine.

#[export] Hint Resolve quiet_destroy quiet_handle quiet_after_reply : quiet.

(** ** Replies carry the identifiers of their request *)

(** Every result of [c] satisfies [P]. *)
Definition always {B A} (P : A -> Prop) (c : St (machine B) A) : Prop := forall m, P (fst (c m)).

Lemma always_bind {B A C} (P : C -> Prop) (c : St (machine B) A) (k : A -> St (machine B) C) :
  (forall a, always P (k a)) -> always P (c ≫= k).
Proof. intros H m. rewrite bind_seq. apply H. Qed.

(** What a handler keeps of a reply: the identifiers, and that it can be sent. *)
Definition same_ids (r r' : advc_message) : Prop :=
  version_major (msg_header r') = version_major (msg_header r) /\
  version_minor (msg_header r') = version_minor (msg_header r) /\
  message_type (msg_header r') = message_type (msg_header r) /\
  opcode (msg_header r') = opcode (msg_header r) /\
  request_id (msg_header r') = request_id (msg_header r) /\
  reserved (msg_header r') = reserved (msg_header r) /\
  (payload_size (msg_header r) <= ADVC_MAX_PAYLOAD -> payload_size (msg_header r') <= ADVC_MAX_PAYLOAD) /\
  (fd_count (msg_header r) <= ADVC_MAX_FDS -> fd_count (msg_header r') <= ADVC_MAX_FDS) /\
  (is_Some (msg_payload r) -> is_Some (msg_payload r')).

Ltac sizes :=
  unfold ADVC_MAX_PAYLOAD, ADVC_MAX_FDS, ADVC_STATUS_SIZE, ADVC_OUTPUT_BYTES_SIZE, ADVC_OUTPUT_READY_SIZE,
    ADVC_COMPLETE_AHB_SIZE, ADVC_COMPLETE_DMABUF_SIZE, ADVC_TRANSFER_PRIME_REPLY_SIZE, ADVC_STATUS_SIZE,
    ADVC_REGISTER_DMABUF_SIZE, ADVC_MAX_DMABUF_OBJECTS in *; cbn;
  repeat match goal with |- context [if ?c then _ else _] => destruct c end; lia.
Ltac same := intros ?; rewrite ?bind_seq; unfold same_ids; cbn; repeat split;
  first [ reflexivity | done | by eexists | intros; sizes; fail ].

Ltac trace :=
  cbn zeta;
  repeat first
    [ progress cbn beta iota zeta
    | match goal with |- always _ (match ?x with _ => _ end) => destruct x eqn:? end
    | match goal with
      | |- always _ (mret _) => solve [same]
      | |- always _ (answer _ _ _) => solve [same]
      | |- always _ (answer _ _ _ ≫= _) => solve [same]
      end
    | match goal with |- always _ (mret (_, (_, if ?c then _ else _))) => destruct c end
    | lazymatch goal with |- always _ (answer _ _ _ ≫= _) => fail | _ => apply always_bind; intros ? end ].

Section Ids.
Context {B : Type} (ops : advc_backend_ops B).
Implicit Types s : advc_session_slot.

Definition handler_ids (r : advc_message) (c : St (machine B) hresult) : Prop :=
  always (fun x => same_ids r (snd (snd x))) c.

Lemma create_ids e rq r : always (fun x => same_ids r (snd (snd x))) (handle_create ops e rq r).
Proof. unfold handle_create. trace. Qed.
Lemma dequeue_ids n s rq r : always (fun x => same_ids r (snd (snd (fst x)))) (handle_dequeue ops n s rq r).
Proof. unfold handle_dequeue. trace. Qed.
Lemma session_handler_ids s rq r run : session_handler ops s rq r = Some run -> handler_ids r run.
Proof.
  unfold session_handler, handler_ids. intros H.
  repeat match type of H with (if ?c then _ else _) = _ => destruct c end;
    try discriminate; injection H as <-;
    unfold handle_queue, handle_release, handle_transfer_ahb, handle_transfer_prime, handle_queue_ahb,
      handle_complete_ahb, handle_register_dmabuf, handle_unregister_dmabuf, handle_queue_dmabuf,
      handle_complete_dmabuf, handle_flush, handle_close, answer, reply_fd; trace.
Qed.
Lemma handle_ids e rq r m :
  same_ids r (snd (snd (fst (advc_session_engine_handle ops e rq r m)))).
Proof.
  revert m. change (always (fun x => same_ids r (snd (snd x))) (advc_session_engine_handle ops e rq r)).
  unfold advc_session_engine_handle. cbn zeta.
  repeat match goal with |- always _ (if ?c then mret _ else _) => destruct c; [by intros m|] end.
  match goal with |- always _ (if ?c then _ else _) => destruct c end; [apply create_ids|].
  destruct (find_session e _) as [i|]; [|by intros m].
  match goal with |- always _ (if ?c then _ else _) => destruct c end; [by intros m|].
  destruct (session_handler ops _ rq r) as [run|] eqn:Hs; intros m; rewrite bind_seq.
  - by apply (session_handler_ids _ _ _ _ Hs).
  - apply dequeue_ids.
Qed.

End Ids.

(** ** One round *)

Section Rounds.
Context {B : Type} (ops : advc_backend_ops B) `{!BackendQuiet ops} (bits : Z).
Context (query : option (advc_session_engine -> St (machine B) (Z * advc_capability_set))).
Context (Hquery : forall q, query = Some q -> forall e, quiet (q e)).
Implicit Types m : machine B.

#[local] Notation provider := (Some (engine_provider ops bits query)).
#[local] Hint Extern 1 (quiet _) => (eapply Hquery; eassumption) : quiet.

Lemma quiet_build_reply e rq r : quiet (build_reply provider e rq r).
Proof.
  unfold build_reply, query_reply, codec_reply. cbn [engine_provider pv_query_capabilities mbind option_bind
    pv_handle_codec_request]. hush.
Qed.
Lemma quiet_close_message r : quiet (B := B) (advc_close_message_fds r).
Proof. unfold advc_close_message_fds. hush. Qed.
Lemma quiet_install_files l : quiet (B := B) (install_files l).
Proof. induction l; cbn [install_files]; hush. Qed.
#[local] Hint Resolve quiet_build_reply quiet_close_message quiet_install_files : quiet.
Lemma quiet_install_control l : quiet (B := B) (install_control l).
Proof. induction l as [|[] l]; cbn [install_control]; hush. Qed.
Lemma quiet_gather l fds n : quiet (B := B) (gather_fds l fds n).
Proof. revert fds n. induction l as [|[] l IH]; intros; cbn [gather_fds]; hush. Qed.
Lemma quiet_record_check a b c d e : quiet (B := B) (record_check a b c d e).
Proof. unfold record_check, advc_header_decode, advc_header_validate. hush. Qed.
#[local] Hint Resolve quiet_install_control quiet_gather quiet_record_check : quiet.

(** Receiving takes the records up to the first that is not an interruption. *)
Lemma receive_queue msg m : is_Some (msg_payload msg) ->
  let x := advc_receive_message msg m in
  m_tx (snd x) = m_tx m /\ m_txres (snd x) = m_txres m /\
  m_rx (snd x) `suffix_of` snd (recv_retry (m_rx m)) /\
  (m_rx m = [] -> fst (fst x) = -1).
Proof.
  intros [p Hp]. cbn zeta. unfold advc_receive_message. rewrite Hp. rewrite bool_decide_eq_false_2 by done.
  rewrite andb_false_r, bind_seq. unfold sys_recvmsg.
  assert (m_rx m = [] -> fst (recv_retry (m_rx m)) = RxRecord [] false []) as Hnil by (by intros ->).
  destruct (recv_retry (m_rx m)) as [ev rest]. cbn [fst snd] in *.
  match goal with |- context [fst (fst (?c ?s))] => assert (quiet c) as Hq end.
  { destruct ev; hush. }
  destruct (Hq (set_rx rest m)) as (H1 & H2 & H3). split; [done|]. split; [done|]. split; [done|].
  intros Hm. rewrite (Hnil Hm), bind_seq, take_nil. done.
Qed.

Lemma recv_retry_suffix l : snd (recv_retry l) `suffix_of` l /\
  (l <> [] -> (length (snd (recv_retry l)) < length l)%nat).
Proof.
  induction l as [|ev l [IH1 IH2]]; cbn; [done|]. destruct ev as [e|]; cbn.
  - destruct (e =? EINTR); cbn.
    + split; [by apply suffix_cons_r|]. intros _. apply suffix_length in IH1. lia.
    + split; [by apply suffix_cons_r|lia].
  - split; [by apply suffix_cons_r|lia].
Qed.

Lemma build_reply_ids e rq r m : same_ids r (snd (fst (build_reply provider e rq r m))).
Proof.
  revert m. change (always (fun x => same_ids r (snd x)) (build_reply provider e rq r)).
  unfold build_reply. cbn zeta. cbn [from_option engine_provider pv_feature_bits].
  destruct (_ <? _); [by trace|]. destruct (_ =? _).
  { intros m. cbn. unfold hello_reply. cbn zeta. destruct (_ && _); revert m; same. }
  destruct (_ =? _); [by trace|]. destruct (_ =? _).
  - unfold query_reply. cbn [engine_provider pv_query_capabilities pv_feature_bits].
    destruct query as [q|]; [|same]. intros m. rewrite !bind_seq. destruct (q e m) as [[rc caps] m1].
    cbn [fst snd]. destruct (rc <? 0); [revert m1; same|]. cbn zeta.
    unfold write_capability_reply. cbn zeta.
    match goal with |- context [if ?c then (-1, _) else _] => destruct c eqn:Hc end; [revert m1; same|].
    apply orb_false_iff in Hc as [Hc%Z.ltb_ge _]. cbn in Hc |- *.
    unfold same_ids, ADVC_MAX_CAPABILITIES, ADVC_CAPS_PREFIX_SIZE, ADVC_CAPS_ENTRY_SIZE in *. cbn [fst snd msg_header].
    cbn -[Z.mul Z.add]. repeat split; try done; intros; unfold ADVC_MAX_PAYLOAD; lia.
  - intros m. unfold codec_reply. cbn [mbind option_bind engine_provider pv_handle_codec_request].
    rewrite bind_seq. pose proof (handle_ids ops e rq r m) as Hh.
    destruct (advc_session_engine_handle ops e rq r m) as [[st [e' r']] m']. cbn [fst snd] in *.
    destruct (_ && _); [|done]. revert Hh. clear. unfold same_ids. cbn. intros H. destruct_and! H.
    repeat split; try done.
Qed.

(** [h] answers a request with header [rqh]. *)
Definition answers (rqh h : advc_header) : Prop :=
  message_type h = ADVC_MSG_REPLY /\ opcode h = opcode rqh /\ request_id h = request_id rqh /\
  version_major h = ADVC_VERSION_MAJOR /\ version_minor h = Z.min (version_minor rqh) ADVC_VERSION_MINOR.

(** A record as it is put on the socket. *)
Definition wire (h : advc_header) (payload : list Z) (fds : list Z) : packet :=
  Packet (header_store (replicate 32 0) h ++ payload) fds.

Lemma send_message_queue r m :
  let x := advc_send_message r m in
  m_rx (snd x) = m_rx m /\
  ((m_tx (snd x) = m_tx m /\ fst x = -1) \/
   (exists payload fds, m_tx (snd x) = wire (msg_header r) payload fds :: m_tx m)).
Proof.
  cbn zeta. unfold advc_send_message. cbn zeta. destruct (_ && _); [split; [done|by left]|].
  unfold advc_header_encode, advc_header_validate. rewrite !bind_seq.
  destruct (header_invalid _); cbn -[sys_sendmsg header_store]; [split; [done|by left]|].
  rewrite bind_seq. unfold sys_sendmsg. destruct (send_retry _ _) as [v rs]. cbn [fst snd].
  destruct (v <? 0) eqn:Hv; cbn [fst snd]; [split; [done|by left]|]. rewrite Hv.
  assert (exists payload fds, Packet (header_store (replicate 32 0) (msg_header r) ++
    take (Z.to_nat (payload_size (msg_header r))) (payload_of r))
    (take (Z.to_nat (fd_count (msg_header r))) (msg_fds r)) :: m_tx m =
    wire (msg_header r) payload fds :: m_tx m) by (unfold wire; eauto).
  destruct (negb _); split; try done; by right.
Qed.

Lemma send_message_sent r m : header_invalid (msg_header r) = false -> is_Some (msg_payload r) ->
  m_txres m = [] ->
  exists payload fds, m_tx (snd (advc_send_message r m)) = wire (msg_header r) payload fds :: m_tx m.
Proof.
  intros Hv [p Hp] Ht. unfold advc_send_message. cbn zeta. rewrite Hp, bool_decide_eq_false_2 by done.
  rewrite andb_false_r. unfold advc_header_encode, advc_header_validate. rewrite !bind_seq, Hv.
  cbn -[sys_sendmsg header_store]. rewrite bind_seq. unfold sys_sendmsg. rewrite Ht. cbn [send_retry fst snd].
  assert (forall l : list Z, (zlen l <? 0) = false) as Hz by (intros; apply Z.ltb_ge; unfold zlen; lia).
  rewrite Hz. cbn [fst snd]. rewrite Hz. unfold wire. destruct (negb _); eauto.
Qed.

Lemma init_reply_answers rq rp0 r : same_ids (init_reply rq rp0 ADVC_MAX_PAYLOAD) r ->
  answers (msg_header rq) (msg_header r).
Proof.
  unfold same_ids, answers, init_reply. cbn. intros (-> & -> & -> & -> & -> & _).
  repeat split. destruct (Z.leb_spec (version_minor (msg_header rq)) ADVC_VERSION_MINOR); lia.
Qed.

(** A reply to a valid request can be sent. *)
Lemma init_reply_valid rq rp0 r : header_invalid (msg_header rq) = false ->
  same_ids (init_reply rq rp0 ADVC_MAX_PAYLOAD) r ->
  header_invalid (msg_header r) = false /\ is_Some (msg_payload r).
Proof.
  unfold same_ids, init_reply, header_invalid. cbn [msg_header version_major version_minor message_type
    opcode request_id reserved payload_size fd_count msg_payload].
  intros Hv (-> & _ & -> & -> & _ & -> & Hp & Hf & Hs).
  specialize (Hp ltac:(unfold ADVC_MAX_PAYLOAD; lia)). specialize (Hf ltac:(unfold ADVC_MAX_FDS; lia)).
  split; [|by apply Hs]. rewrite !orb_false_iff in *. destruct_and! Hv. repeat split; try done; lia.
Qed.

(** From the reply to the end of the round. *)
Lemma finish_queue cfd e rq reply m :
  let x := ('(result, u) ← send_reply cfd provider e rq reply;
            advc_close_message_fds reply ;; advc_close_message_fds rq ;; mret (result, u)) m in
  m_rx (snd x) `suffix_of` m_rx m /\
  m_tx (snd x) = m_tx (snd (advc_send_message reply m)) /\
  (fst (advc_send_message reply m) = -1 -> fst (fst x) = -1).
Proof.
  cbn zeta. unfold send_reply. rewrite !bind_seq.
  destruct (send_message_queue reply m) as [Hrx _].
  destruct (advc_send_message reply m) as [v m1]. cbn [fst snd] in *. rewrite <- Hrx.
  change (provider ≫= pv_after_reply) with (Some (advc_session_engine_after_reply ops)). cbn iota.
  match goal with |- context [(if v <? 0 then ?c else ?d) m1] => set (after := if v <? 0 then c else d) end.
  assert (quiet after) as Hq by (unfold after; hush).
  destruct (Hq m1) as (H1 & _ & H2).
  assert (v = -1 -> fst (fst (after m1)) = -1) as H3 by (by unfold after; intros ->).
  destruct (after m1) as [[result u] m2]. cbn [fst snd] in *.
  match goal with |- context [fst (fst (?c m2))] => assert (quiet c) as Hq2 by hush end.
  destruct (Hq2 m2) as (H4 & _ & H5). split; [by etrans|]. split; [congruence|].
  intros Hv. rewrite !bind_seq. by apply H3.
Qed.

Lemma round_queue rq0 rp0 cfd e m :
  let x := advc_broker_handle_once rq0 rp0 cfd provider e m in
  (m_rx m = [] -> fst (fst x) <> 0) /\
  (m_rx (snd x) `suffix_of` m_rx m /\ (m_rx m <> [] -> fst (fst x) = 0 ->
     (length (m_rx (snd x)) < length (m_rx m))%nat)) /\
  ((m_tx (snd x) = m_tx m /\ fst (fst x) = -1) \/
   (exists h payload fds, m_tx (snd x) = wire h payload fds :: m_tx m /\
      answers (msg_header (snd (fst (received rq0 m)))) h)).
Proof.
  cbn zeta. unfold received, at_receive, advc_broker_handle_once. rewrite !bind_seq.
  destruct (quiet_alloc m) as (Ht1 & _ & _). destruct (alloc_fds m) as [_ Hr1].
  destruct (sys_alloc m) as [a ma]. cbn [fst snd] in *.
  destruct (quiet_alloc ma) as (Ht2 & _ & _). destruct (alloc_fds ma) as [_ Hr2].
  destruct (sys_alloc ma) as [b mb]. cbn [fst snd] in *. rewrite <- Hr1, <- Hr2, <- Ht1, <- Ht2. clear Hr1 Hr2 Ht1 Ht2.
  destruct (negb _).
  { cbn. split; [done|]. split; [done|by left]. }
  rewrite bind_seq. destruct (receive_queue (request_slot rq0) mb) as (H1 & _ & H2 & H3); [by eexists|].
  destruct (recv_retry_suffix (m_rx mb)) as [H4 H5].
  destruct (advc_receive_message _ mb) as [[r rq] mc]. cbn [fst snd] in *.
  assert (m_rx mc `suffix_of` m_rx mb) as H24 by (by etrans).
  destruct (Z.ltb_spec r 0) as [Hr|Hr].
  { cbn. split; [done|]. split; [done|left; done]. }
  assert (m_rx mb <> []) as Hne by (intros Hn%H3; lia).
  assert (length (m_rx mc) < length (m_rx mb))%nat as Hlt.
  { specialize (H5 Hne). apply suffix_length in H2. lia. }
  split; [done|]. destruct (negb _).
  - rewrite !bind_seq. destruct (quiet_close_message rq (snd (errno_is EPROTO mc))) as (H6 & _ & H7).
    cbn [fst snd mret st_ret]. split; [split; [by etrans|done]|]. left. by rewrite H6.
  - rewrite bind_seq. pose proof (build_reply_ids e rq (init_reply rq rp0 ADVC_MAX_PAYLOAD) mc) as Hid.
    destruct (quiet_build_reply e rq (init_reply rq rp0 ADVC_MAX_PAYLOAD) mc) as (H6 & _ & H7).
    destruct (build_reply _ _ _ _ mc) as [[e' reply] md]. cbn [fst snd] in *.
    destruct (finish_queue cfd e' rq reply md) as (H8 & H9 & H10).
    destruct (send_message_queue reply md) as [_ Hs].
    split; [split|].
    + etrans; [exact H8|]. by etrans.
    + intros _ _. apply suffix_length in H8, H7. lia.
    + rewrite H9. destruct Hs as [[Hs Hv]|(payload & fds & Hs)].
      * left. split; [congruence|by apply H10].
      * right. exists (msg_header reply), payload, fds. split; [congruence|by eapply init_reply_answers].
Qed.

End Rounds.

(** ** Serving a client *)

Section Serve.
Context {B : Type} (ops : advc_backend_ops B) `{!BackendOk ops, !BackendQuiet ops}.
Context (query : option (advc_session_engine -> St (machine B) (Z * advc_capability_set))).
Context (Hquery : forall q, query = Some q -> forall e, quiet (q e) /\ forall m, m_fds (snd (q e m)) = m_fds m).
Context (buffers : nat -> list Z * list Z).
Implicit Types m : machine B.

Lemma recv_retry_fits l : Forall control_fits l -> control_fits (fst (recv_retry l)).
Proof.
  induction 1 as [|ev l Hev Hl IH]; cbn; [lia|]. destruct ev as [e|]; [|done].
  by destruct (e =? EINTR).
Qed.

(** The rounds of [serve]: the receive buffer and the state each starts with. *)
Fixpoint rounds (fuel : nat) (bits cfd : Z) (e : advc_session_engine) m : list (list Z * machine B) :=
  match fuel with
  | O => []
  | S fuel =>
      (fst (buffers fuel), m) ::
      let x := advc_broker_handle_once (fst (buffers fuel)) (snd (buffers fuel)) cfd
                 (Some (engine_provider ops bits query)) e m in
      if fst (fst x) =? 0 then rounds fuel bits cfd (snd (fst x)) (snd x) else []
  end.

(** One account for each round. *)
Definition losses_of (l : list (list Z * machine B)) (losses : list (list Z)) : Prop :=
  Forall2 (fun round lost => lost = [] \/ round_lost ops (fst round) (snd round) lost) l losses.

Lemma serve_post t fuel bits cfd e m :
  engine_wf e -> installed t (m_fds m) (engine_fds e) -> Forall control_fits (m_rx m) ->
  (length (m_rx m) < fuel)%nat ->
  exists e' m' losses t', serve ops query buffers fuel bits cfd e m = (Some e', m') /\ engine_wf e' /\
    losses_of (rounds fuel bits cfd e m) losses /\ installed t t' (concat losses) /\
    installed t' (m_fds m') (engine_fds e').
Proof.
  revert t e m. induction fuel as [|fuel IH]; intros t e m Hw Hi Hcl Hlt; [lia|]. cbn [serve rounds].
  rewrite bind_seq.
  assert (exists lost t1, (lost = [] \/ round_lost ops (fst (buffers fuel)) m lost) /\ installed t t1 lost /\
    let x := advc_broker_handle_once (fst (buffers fuel)) (snd (buffers fuel)) cfd
               (Some (engine_provider ops bits query)) e m in
    engine_wf (snd (fst x)) /\ installed t1 (m_fds (snd x)) (engine_fds (snd (fst x))))
    as (lost & t1 & Hlost & Ht & Hw' & Hi').
  { destruct (handle_once_post ops bits query ltac:(intros q Hq e0 m0; by apply Hquery)
      t (fst (buffers fuel)) (snd (buffers fuel)) cfd e m Hw) as [H|(lost & t1 & H)];
      [by apply recv_retry_fits|done| |].
    - exists [], t. split; [by left|]. split; [apply installed_nil|done].
    - exists lost, t1. destruct H as (? & ? & ?). eauto. }
  destruct (round_queue ops bits query ltac:(intros q Hq e0; by apply Hquery)
    (fst (buffers fuel)) (snd (buffers fuel)) cfd e m) as (Hnil & [Hs Hdec] & _).
  destruct (advc_broker_handle_once _ _ _ _ e m) as [[r e'] m']. cbn [fst snd] in *.
  destruct (Z.eqb_spec r 0) as [Hr|Hr].
  - destruct (IH t1 e' m') as (e2 & m2 & losses & t2 & H1 & H2 & H3 & H4 & H5); [done|done| | |].
    + destruct Hs as [l Hl]. rewrite Hl in Hcl. by apply Forall_app in Hcl as [_ ?].
    + destruct (decide (m_rx m = [])) as [Hn|Hn]; [by apply Hnil in Hn|]. specialize (Hdec Hn Hr). lia.
    + exists e2, m2, (lost :: losses), t2. split; [done|]. split; [done|]. split; [by constructor|].
      split; [by eapply installed_app|done].
  - exists e', m', [lost], t1. split; [done|]. split; [done|].
    split; [by constructor; [|constructor]|]. cbn [concat]. by rewrite app_nil_r.
Qed.

Lemma handle_client_post fuel pr client verify cred m :
  Forall control_fits (m_rx m) -> (length (m_rx m) < fuel)%nat ->
  let x := handle_client ops query buffers fuel pr client verify cred m in
  fst x = Some tt /\
  (m_fds (snd x) = m_fds m \/
   exists losses,
     losses_of (rounds fuel (broker_feature_bits pr) client empty_engine (snd (sys_alloc m))) losses /\
     installed (m_fds m) (m_fds (snd x)) (concat losses)).
Proof.
  intros Hcl Hlt. cbn zeta. unfold handle_client. destruct (_ && _); [split; [done|by left]|].
  rewrite bind_seq. unfold advc_session_engine_create. rewrite bind_seq.
  destruct (alloc_fds m) as [Hf Hr]. destruct (sys_alloc m) as [[] ma]; cbn [fst snd mret st_ret] in *;
    [|split; [done|by left]].
  rewrite bind_seq.
  destruct (serve_post (m_fds m) fuel (broker_feature_bits pr) client empty_engine ma)
    as (e' & m' & losses & t' & Hs & Hw & Hlo & Ht & Hi);
    [apply empty_engine_wf|rewrite Hf; apply empty_engine_fds|by rewrite Hr|by rewrite Hr|].
  unfold empty_engine in Hs. rewrite Hs. cbn [fst snd]. rewrite bind_seq. cbn [fst snd mret st_ret].
  split; [done|right]. exists losses. split; [done|].
  by rewrite (destroy_post ops t' e').
Qed.

End Serve.

(** ** Properties *)

Section Claims.
Context {B : Type} (ops : advc_backend_ops B).
Context (query : option (advc_session_engine -> St (machine B) (Z * advc_capability_set))).
Implicit Types m : machine B.

(** C9. Serving a client ends and accounts for every descriptor.  For every codec
    backend that keeps its documented contract, every sequence of records the
    client's socket can deliver (any bytes, any opcode, as many descriptors as the
    control buffer has room for), every answer of the device probes and every
    allocation outcome, [handle_client] returns.  The descriptor table is then the
    one it started with, except for what each round may lose: every other
    descriptor received from the client, duplicated for a session, produced by the
    backend or attached to a reply has been closed.  A round loses nothing but the
    descriptors that come with a record without bytes, and the acquire fence of an
    output the engine refuses. *)
Theorem broker_client_clean (buffers : nat -> list Z * list Z) fuel pr client verify cred m :
  BackendOk ops -> BackendQuiet ops ->
  (forall q, query = Some q -> forall e, quiet (q e) /\ forall m, m_fds (snd (q e m)) = m_fds m) ->
  Forall control_fits (m_rx m) -> (length (m_rx m) < fuel)%nat ->
  let x := handle_client ops query buffers fuel pr client verify cred m in
  fst x = Some tt /\
  (m_fds (snd x) = m_fds m \/
   exists losses,
     losses_of ops (rounds ops query buffers fuel (broker_feature_bits pr) client empty_engine
                      (snd (sys_alloc m))) losses /\
     installed (m_fds m) (m_fds (snd x)) (concat losses)).
Proof. intros ? ? Hq Hcl Hlt. by apply handle_client_post. Qed.

(** C10. One round of the broker keeps the engine's invariant and accounts for
    every descriptor, whichever way the round ends: out of memory, transport
    error, record that is no request, refused or served request, failed send,
    failed hand-over after the reply.  What is open afterwards belongs to the
    engine or was open before the round, except for what [round_lost] names: the
    descriptors of a record without bytes, or the acquire fence of a refused
    output. *)
Theorem broker_round_safe t rq0 rp0 bits cfd e m :
  BackendOk ops ->
  (forall q, query = Some q -> forall e m, m_fds (snd (q e m)) = m_fds m) ->
  engine_wf e -> control_fits (fst (recv_retry (m_rx m))) -> installed t (m_fds m) (engine_fds e) ->
  let x := advc_broker_handle_once rq0 rp0 cfd (Some (engine_provider ops bits query)) e m in
  accounted (round_lost ops rq0 m) t (fun t' =>
    engine_wf (snd (fst x)) /\ installed t' (m_fds (snd x)) (engine_fds (snd (fst x)))).
Proof. intros Hops Hq. by apply handle_once_post. Qed.

(** A round sends at most one record.  Either none is sent and the round
    fails, or exactly one is, and it is a reply with the opcode and the request
    identifier of the record received and a minor version neither side exceeds. *)
Theorem broker_one_reply rq0 rp0 bits cfd e m :
  BackendQuiet ops -> (forall q, query = Some q -> forall e, quiet (q e)) ->
  let x := advc_broker_handle_once rq0 rp0 cfd (Some (engine_provider ops bits query)) e m in
  (m_tx (snd x) = m_tx m /\ fst (fst x) = -1) \/
  (exists h payload fds, m_tx (snd x) = wire h payload fds :: m_tx m /\
     answers (msg_header (snd (fst (received rq0 m)))) h).
Proof. intros Hb Hq. by apply round_queue. Qed.

(** C37. Every request is answered: when memory and the socket allow it, a
    received request record, whatever its opcode, version and payload, gets its
    reply. *)
Theorem broker_request_answered rq0 rp0 bits cfd e m rq m1 :
  BackendQuiet ops -> (forall q, query = Some q -> forall e, quiet (q e)) ->
  m_alloc m = [] -> m_txres m = [] -> control_fits (fst (recv_retry (m_rx m))) ->
  received rq0 m = ((0, rq), m1) -> message_type (msg_header rq) = ADVC_MSG_REQUEST ->
  exists h payload fds,
    m_tx (snd (advc_broker_handle_once rq0 rp0 cfd (Some (engine_provider ops bits query)) e m)) =
      wire h payload fds :: m_tx m /\ answers (msg_header rq) h.
Proof.
  intros Hb Hq Ha Ht Hev Hrec Hty. unfold received, at_receive in Hrec. unfold advc_broker_handle_once.
  assert (sys_alloc m = (true, m)) as Hal by (unfold sys_alloc; by rewrite Ha).
  rewrite Hal in Hrec. cbn [snd] in Hrec. rewrite Hal in Hrec. cbn [snd] in Hrec.
  rewrite bind_seq, Hal. cbn [fst snd]. rewrite bind_seq, Hal. cbn [fst snd andb negb].
  rewrite bind_seq, Hrec. cbn [fst snd]. change (0 <? 0) with false. rewrite Hty.
  change (negb (ADVC_MSG_REQUEST =? ADVC_MSG_REQUEST)) with false. cbn iota. rewrite bind_seq.
  destruct (receive_accounts m (request_slot rq0) Hev eq_refl) as [[Hr _]|(_ & Hv & _ & _)];
    rewrite Hrec in *; cbn [fst snd] in *; [lia|].
  destruct (receive_queue (request_slot rq0) m) as (Htx & Htr & _); [by eexists|].
  rewrite Hrec in Htx, Htr. cbn [snd] in Htx, Htr.
  pose proof (build_reply_ids ops bits query Hq e rq (init_reply rq rp0 ADVC_MAX_PAYLOAD) m1) as Hid.
  destruct (quiet_build_reply ops bits query Hq e rq (init_reply rq rp0 ADVC_MAX_PAYLOAD) m1) as (H6 & H7 & _).
  destruct (build_reply _ _ _ _ m1) as [[e' reply] m2]. cbn [fst snd] in *.
  destruct (init_reply_valid _ _ _ Hv Hid) as [Hv' Hp].
  destruct (finish_queue ops bits query cfd e' rq reply m2) as (_ & Hfin & _).
  destruct (send_message_sent reply m2) as (payload & fds & Hs); [done|done|congruence|].
  exists (msg_header reply), payload, fds. split; [rewrite Hfin, Hs; congruence|by eapply init_reply_answers].
Qed.

End Claims.

(** ** Instances *)

#[export] Instance idle_quiet : BackendQuiet idle_ops.
Proof.
  constructor; intros; cbn [idle_ops ops_create ops_queue_input ops_dequeue_output ops_release_output
    ops_export_decode_prime ops_send_native_buffer ops_receive_ahb_input ops_dmabuf_format_allowed
    ops_submit_dmabuf ops_flush ops_destroy] in *; simplify_eq; hush.
Qed.

(** A client that says HELLO, creates a session, sends a descriptor with a
    malformed record, and leaves. *)
Definition hello_bytes : list Z :=
  header_store (replicate 32 0) (Header 1 8 ADVC_MSG_REQUEST ADVC_OP_HELLO 7 0 0 0 0 0).
Definition create_bytes : list Z :=
  header_store (replicate 32 0) (msg_header create_request) ++ payload_of create_request.
Definition client_events : list rx_event :=
  [RxRecord hello_bytes false []; RxError EINTR; RxRecord create_bytes false [];
   RxRecord [1; 2; 3] false [ScmRights [KOther]]].
Definition client_process : machine unit :=
  Machine tt sample_table 64 0 [] client_events [] [] [].
Definition small_buffers (_ : nat) : list Z * list Z := (replicate 256 0, replicate 256 0).
Definition no_probes : broker_probes := Probes false false true false None None.

Lemma client_events_fit : Forall control_fits client_events.
Proof. repeat constructor; cbn; lia. Qed.

(** The same client, with a record without bytes that carries a descriptor. *)
Definition leaky_process : machine unit :=
  set_rx (take 3 client_events ++ [RxRecord [] false [ScmRights [KOther]]]) client_process.

Lemma leaky_events_fit : Forall control_fits (m_rx leaky_process).
Proof. repeat constructor; cbn; lia. Qed.

Lemma broker_client_clean_witness :
  let x := handle_client idle_ops None small_buffers 5 no_probes 9 true (Some 0) leaky_process in
  length (m_tx (snd x)) = 2%nat /\ m_fds (snd x) !! 0 = Some (FdInfo true KOther) /\
  fst x = Some tt /\
  (m_fds (snd x) = sample_table \/
   exists losses,
     losses_of idle_ops (rounds idle_ops None small_buffers 5 (broker_feature_bits no_probes) 9
                           empty_engine (snd (sys_alloc leaky_process))) losses /\
     installed sample_table (m_fds (snd x)) (concat losses)).
Proof.
  cbn zeta. split; [vm_compute; reflexivity|]. split; [vm_compute; reflexivity|].
  apply (broker_client_clean idle_ops None small_buffers 5 no_probes 9 true (Some 0) leaky_process).
  - apply idle_ok.
  - apply idle_quiet.
  - discriminate.
  - apply leaky_events_fit.
  - cbn. lia.
Defined.

Lemma broker_round_safe_witness :
  let x := advc_broker_handle_once (replicate 256 0) (replicate 256 0) 9
    (Some (engine_provider idle_ops 0 None)) empty_engine client_process in
  accounted (round_lost idle_ops (replicate 256 0) client_process) sample_table (fun t' =>
    engine_wf (snd (fst x)) /\ installed t' (m_fds (snd x)) (engine_fds (snd (fst x)))).
Proof.
  apply (broker_round_safe idle_ops None sample_table (replicate 256 0) (replicate 256 0) 0 9 empty_engine client_process).
  - apply idle_ok.
  - discriminate.
  - apply empty_engine_wf.
  - cbn. lia.
  - apply empty_engine_fds.
Defined.

Lemma broker_one_reply_witness :
  let x := advc_broker_handle_once (replicate 256 0) (replicate 256 0) 9
    (Some (engine_provider idle_ops 0 None)) empty_engine client_process in
  fst (fst x) = 0 /\ exists h payload fds, m_tx (snd x) = [wire h payload fds] /\ request_id h = 7.
Proof.
  cbn zeta. split; [vm_compute; reflexivity|].
  destruct (broker_one_reply idle_ops None (replicate 256 0) (replicate 256 0) 0 9 empty_engine client_process)
    as [[_ H]|(h & payload & fds & Hm & Ha)].
  - apply idle_quiet.
  - discriminate.
  - exfalso. vm_compute in H. discriminate.
  - exists h, payload, fds. split; [exact Hm|]. destruct Ha as (_ & _ & Ha & _). rewrite Ha. vm_compute. reflexivity.
Defined.

Lemma broker_request_answered_witness :
  exists h payload fds,
    m_tx (snd (advc_broker_handle_once (replicate 256 0) (replicate 256 0) 9
      (Some (engine_provider idle_ops 0 None)) empty_engine client_process)) = [wire h payload fds] /\
    opcode h = ADVC_OP_HELLO.
Proof.
  destruct (broker_request_answered idle_ops None (replicate 256 0) (replicate 256 0) 0 9 empty_engine client_process
    (snd (fst (received (replicate 256 0) client_process))) (snd (received (replicate 256 0) client_process)))
    as (h & payload & fds & Hm & Ha).
  - apply idle_quiet.
  - discriminate.
  - reflexivity.
  - reflexivity.
  - cbn. lia.
  - vm_compute. reflexivity.
  - vm_compute. reflexivity.
  - exists h, payload, fds. split; [exact Hm|]. destruct Ha as (_ & Ha & _). rewrite Ha. vm_compute. reflexivity.
Defined.
