(* ===== verification/PrimeMapper.v ===== *)
(** * The PRIME mapper boundary (src/src/video_bridge/src/ahb_prime_mapper.c)

    Exporting an AHardwareBuffer as PRIME descriptors and retiring it.  The
    gralloc implementation is a record of callbacks with the contract
    ahb_prime_mapper.h documents; the boundary owns what an export returns until
    it succeeds and consumes every release fence. *)

From stdpp Require Import base list gmap.
From Stdlib Require Import ZArith Lia Bool.
From S2P Require Import Prelude Kernel Protocol Dmabuf Engine EngineFiles EngineInv.

(** The callbacks; userdata is their closure.  [release] and [destroy] as in the
    header, [destroy] optional. *)
Record advc_ahb_prime_mapper_ops (B : Type) := MapperOps {
  mo_export_prime : Z -> advc_ahb_public_metadata -> advc_dmabuf_descriptor ->
    St (machine B) (Z * advc_dmabuf_descriptor);
  mo_release : Z -> Z -> St (machine B) Z;
  mo_destroy : option (St (machine B) unit) }.
Arguments MapperOps {B}.
Arguments mo_export_prime {B}.
Arguments mo_release {B}.
Arguments mo_destroy {B}.

Record advc_ahb_prime_export := Export {
  ex_descriptor : advc_dmabuf_descriptor;
  ex_acquire_fence_fd : Z }.

Definition initialize_export : advc_ahb_prime_export :=
  Export (with_objects (replicate 4 (Obj (-1) 0)) zero_descriptor) (-1).

Definition with_buffer_id (id : Z) (d : advc_dmabuf_descriptor) : advc_dmabuf_descriptor :=
  Desc id (d_width d) (d_height d) (d_drm_fourcc d) (d_explicit_flags d) (d_drm_modifier d)
    (d_crop_left d) (d_crop_top d) (d_crop_width d) (d_crop_height d) (d_object_count d)
    (d_plane_count d) (d_color_primaries d) (d_color_transfer d) (d_color_matrix d)
    (d_color_range d) (d_chroma_horizontal d) (d_chroma_vertical d) (d_objects d) (d_planes d).

(** The metadata part of the first guard. *)
Definition metadata_bad (md : advc_ahb_public_metadata) : bool :=
  (am_width md =? 0) || (am_height md =? 0) || negb (am_layers md =? 1) || (am_stride md =? 0) ||
  (am_crop_width md =? 0) || (am_crop_height md =? 0) ||
  (am_width md <? u64 (am_crop_left md + am_crop_width md)) ||
  (am_height md <? u64 (am_crop_top md + am_crop_height md)).

Section Mapper.
Context {B : Type}.
Implicit Types mapper : option (advc_ahb_prime_mapper_ops B).
Implicit Types m : machine B.

Definition advc_ahb_prime_export_close (x : advc_ahb_prime_export)
  : St (machine B) advc_ahb_prime_export :=
  close_each (o_fd <$> d_objects (ex_descriptor x)) ;;
  close_if_open (ex_acquire_fence_fd x) ;;
  mret initialize_export.

(** The mapper is its copy of the callbacks. *)
Definition advc_ahb_prime_mapper_create (ops : option (advc_ahb_prime_mapper_ops B))
  : St (machine B) (option (advc_ahb_prime_mapper_ops B)) :=
  match ops with
  | None => errno_is EINVAL ;; mret None
  | Some ops => ok ← sys_alloc; if (ok : bool) then mret (Some ops) else mret None
  end.

Definition advc_ahb_prime_mapper_destroy mapper : St (machine B) unit :=
  match mapper ≫= mo_destroy with Some destroy => destroy | None => mret tt end.

Definition fence_bad (fd : Z) : St (machine B) bool :=
  if fd <? -1 then mret true
  else if 0 <=? fd then r ← advc_dmabuf_sync_file_validate fd; mret (r <? 0) else mret false.

Definition advc_ahb_prime_mapper_export mapper (hardware_buffer : Z)
  (md : advc_ahb_public_metadata) (buffer_id acquire_fence_fd : Z)
  : St (machine B) (Z * advc_ahb_prime_export) :=
  let invalid := errno_is EINVAL ;; mret (-1, initialize_export) in
  match mapper with
  | None => invalid
  | Some ops =>
      if (hardware_buffer =? 0) || (buffer_id =? 0) || metadata_bad md then invalid
      else
        bad ← fence_bad acquire_fence_fd;
        if (bad : bool) then invalid
        else
          '(r, d) ← mo_export_prime ops hardware_buffer md (ex_descriptor initialize_export);
          let fail d := x ← advc_ahb_prime_export_close (Export d (-1)); mret (-1, x) in
          if r <? 0 then fail d
          else
            let d := with_buffer_id buffer_id d in
            v ← advc_dmabuf_descriptor_validate d;
            if (v <? 0) || negb (d_width d =? am_width md) || negb (d_height d =? am_height md)
            then fail d
            else if 0 <=? acquire_fence_fd then
              duplicate ← fcntl_dupfd_cloexec acquire_fence_fd;
              if duplicate <? 0 then fail d else mret (0, Export d duplicate)
            else mret (0, Export d (-1))
  end.

Definition advc_ahb_prime_mapper_release mapper (lifetime_token release_fence_fd : Z)
  : St (machine B) Z :=
  let invalid := close_if_open release_fence_fd ;; fail_with EINVAL in
  match mapper with
  | None => invalid
  | Some ops =>
      if lifetime_token =? 0 then invalid
      else
        bad ← fence_bad release_fence_fd;
        if (bad : bool) then invalid else mo_release ops lifetime_token release_fence_fd
  end.

End Mapper.

(** ** Contract and ownership *)

(** The descriptors an export owns. *)
Definition object_fds (d : advc_dmabuf_descriptor) : list Z := concat (opt_fd <$> (o_fd <$> d_objects d)).
Definition export_fds (x : advc_ahb_prime_export) : list Z :=
  object_fds (ex_descriptor x) ++ opt_fd (ex_acquire_fence_fd x).

(** What the header asks of the implementation: called with an empty descriptor,
    [export_prime] opens what the descriptor then holds; [release] consumes the
    fence on every return. *)
Class MapperOk {B : Type} (ops : advc_ahb_prime_mapper_ops B) : Prop := {
  mapper_export : forall hb md m,
    let x := mo_export_prime ops hb md (ex_descriptor initialize_export) m in
    installed (m_fds m) (m_fds (snd x)) (object_fds (snd (fst x)));
  mapper_release : forall token fence t m, installed t (m_fds m) (opt_fd fence) ->
    m_fds (snd (mo_release ops token fence m)) = t;
}.

Section Ownership.
Context {B : Type}.
Implicit Types m : machine B.

Lemma fence_bad_fds fd m : m_fds (snd (fence_bad fd m)) = m_fds m.
Proof.
  unfold fence_bad. destruct (_ <? _); [done|]. destruct (_ <=? _); [|done].
  rewrite bind_seq. apply sync_validate_fds.
Qed.

Lemma fence_bad_false fd m : fst (fence_bad fd m) = false ->
  fd = -1 \/ (0 <= fd /\ m_fds m !! fd = Some (FdInfo true KSyncFile)).
Proof.
  unfold fence_bad. destruct (Z.ltb_spec fd (-1)); [done|]. destruct (Z.leb_spec 0 fd).
  - rewrite bind_seq. cbn. intros Hv. right. by apply sync_validate_result.
  - intros _. left. lia.
Qed.

(** [close] on every descriptor of an array, the negative ones skipped. *)
Lemma close_each_opt t l m : installed t (m_fds m) (concat (opt_fd <$> l)) ->
  m_fds (snd (close_each l m)) = t.
Proof.
  intros H. rewrite <- (close_each_installed t (concat (opt_fd <$> l)) m H). f_equal. clear H.
  revert m. induction l as [|fd l IH]; intros m; [done|]. cbn. unfold opt_fd at 1, close_if_open.
  destruct (Z.leb_spec 0 fd) as [Hf|Hf].
  - rewrite !bind_seq. cbn [app foldr]. rewrite bind_seq. unfold close_if_open.
    apply Z.leb_le in Hf. rewrite Hf. apply IH.
  - rewrite bind_seq. cbn [fst snd mret st_ret app]. apply IH.
Qed.

Lemma export_close_installed t d m : installed t (m_fds m) (object_fds d) ->
  m_fds (snd (advc_ahb_prime_export_close (Export d (-1)) m)) = t /\
  fst (advc_ahb_prime_export_close (Export d (-1)) m) = initialize_export.
Proof.
  intros H. unfold advc_ahb_prime_export_close. rewrite !bind_seq. cbn [ex_descriptor ex_acquire_fence_fd].
  cbn. split; [|done]. by apply close_each_opt.
Qed.

Lemma descriptor_validate_fds d m : m_fds (snd (advc_dmabuf_descriptor_validate d m)) = m_fds m /\
  ((fst (advc_dmabuf_descriptor_validate d m) <? 0) = false -> descriptor_ok (m_fds m) d = true).
Proof.
  unfold advc_dmabuf_descriptor_validate. rewrite bind_seq. cbn [gets fst snd].
  by destruct (descriptor_ok (m_fds m) d).
Qed.

End Ownership.

(** ** Properties *)

Section Claims.
Context {B : Type} (ops : advc_ahb_prime_mapper_ops B).
Implicit Types m : machine B.

(** The descriptor of a successful export is the one the callback returned, with
    the identifier stored. *)
Lemma prime_export_descriptor hb md id fence m (P : advc_dmabuf_descriptor -> Prop) :
  (forall m', let y := mo_export_prime ops hb md (ex_descriptor initialize_export) m' in
     0 <= fst (fst y) -> P (snd (fst y))) ->
  let x := advc_ahb_prime_mapper_export (Some ops) hb md id fence m in
  fst (fst x) = 0 -> exists d, P d /\ ex_descriptor (snd (fst x)) = with_buffer_id id d.
Proof.
  intros HP. cbn zeta. unfold advc_ahb_prime_mapper_export. cbn zeta.
  destruct (_ || metadata_bad md); [done|]. rewrite bind_seq.
  destruct (fence_bad fence m) as [[] m0]; cbn [fst snd]; [done|]. rewrite bind_seq. specialize (HP m0).
  destruct (mo_export_prime ops hb md _ m0) as [[r d] m1]. cbn [fst snd] in *.
  destruct (Z.ltb_spec r 0); [rewrite bind_seq; done|]. rewrite bind_seq.
  match goal with |- context [if ?b then _ else _] => destruct b end; [rewrite bind_seq; done|].
  destruct (0 <=? fence); [|intros _; exists d; by split; [apply HP|]].
  rewrite bind_seq. destruct (_ <? 0); [rewrite bind_seq; done|]. intros _. exists d. by split; [apply HP|].
Qed.

(** An export either succeeds with a complete, owned buffer or leaves no
    trace.  On success the descriptor is valid for the registration record,
    carries the requested identifier and the buffer's public size, and the new
    descriptors in the table are exactly its objects and one duplicate of the
    decoder's acquire fence, which stays the caller's.  On failure the table is
    unchanged and the result is safe to close. *)
Theorem prime_export_owned hb md id fence m :
  MapperOk ops ->
  let x := advc_ahb_prime_mapper_export (Some ops) hb md id fence m in
  let ex := snd (fst x) in
  (fst (fst x) = -1 /\ m_fds (snd x) = m_fds m /\ ex = initialize_export) \/
  (fst (fst x) = 0 /\ installed (m_fds m) (m_fds (snd x)) (export_fds ex) /\
   d_buffer_id (ex_descriptor ex) = id /\ id <> 0 /\
   d_width (ex_descriptor ex) = am_width md /\ d_height (ex_descriptor ex) = am_height md /\
   (0 <= ex_acquire_fence_fd ex <-> 0 <= fence) /\
   exists t1, installed (m_fds m) t1 (object_fds (ex_descriptor ex)) /\
     descriptor_ok t1 (ex_descriptor ex) = true).
Proof.
  intros Hops. cbn zeta. unfold advc_ahb_prime_mapper_export. cbn zeta.
  destruct (_ || metadata_bad md) eqn:Hg; [by left|]. rewrite bind_seq.
  pose proof (fence_bad_fds fence m) as Hm. pose proof (fence_bad_false fence m) as Hfb.
  destruct (fence_bad fence m) as [[] m0]; cbn [fst snd] in *; [by left|]. specialize (Hfb eq_refl).
  rewrite bind_seq. pose proof (mapper_export hb md m0) as Hi.
  cbn zeta in Hi. rewrite Hm in Hi. clear Hm.
  destruct (mo_export_prime ops hb md _ m0) as [[r d] m1]. cbn [fst snd] in *.
  assert (forall m2, m_fds m2 = m_fds m1 -> forall y,
    y = (x ← advc_ahb_prime_export_close (Export d (-1)); mret (-1, x)) m2 ->
    fst (fst y) = -1 /\ m_fds (snd y) = m_fds m /\ snd (fst y) = initialize_export) as Hfail.
  { intros m2 H2 y ->. rewrite bind_seq. cbn [fst snd mret st_ret].
    destruct (export_close_installed (m_fds m) d m2) as [H3 H4]; [by rewrite H2|done]. }
  destruct (r <? 0); [left; by apply (Hfail m1 eq_refl)|]. cbn zeta. rewrite bind_seq.
  destruct (descriptor_validate_fds (with_buffer_id id d) m1) as [H2 Hok].
  destruct (advc_dmabuf_descriptor_validate _ m1) as [v m2]. cbn [fst snd] in *.
  destruct (v <? 0) eqn:Hv; cbn [orb]; [left; by apply (Hfail m2 H2)|]. specialize (Hok eq_refl).
  destruct (negb _ || negb _) eqn:Hwh; [left; by apply (Hfail m2 H2)|].
  apply orb_false_iff in Hwh as [Hw%negb_false_iff%Z.eqb_eq Hh%negb_false_iff%Z.eqb_eq].
  apply orb_false_iff in Hg as [Hg _]. apply orb_false_iff in Hg as [_ Hid%Z.eqb_neq].
  assert (exists t1, installed (m_fds m) t1 (object_fds (with_buffer_id id d)) /\
    descriptor_ok t1 (with_buffer_id id d) = true) as Hex by (by exists (m_fds m1)).
  destruct (Z.leb_spec 0 fence) as [Hf|Hf].
  - rewrite bind_seq. destruct (dup_installed fence m2) as [[Hd Hm]|[Hd Hm]];
      destruct (fcntl_dupfd_cloexec fence m2) as [dup m3]; cbn [fst snd] in *.
    + apply Z.ltb_lt in Hd. rewrite Hd. left. apply (Hfail m3); [congruence|done].
    + destruct (Z.ltb_spec dup 0); [lia|]. right. cbn [fst snd mret st_ret ex_descriptor ex_acquire_fence_fd].
      split; [done|]. split; [|done]. unfold export_fds. cbn [ex_descriptor ex_acquire_fence_fd].
      rewrite H2 in Hm. by eapply installed_app.
  - right. cbn [fst snd mret st_ret ex_descriptor ex_acquire_fence_fd]. split; [done|].
    split; [|split; [done|]; split; [done|]; split; [done|]; split; [done|]; split; [lia|done]].
    unfold export_fds. cbn. rewrite app_nil_r, H2. exact Hi.
Qed.

(** Releasing consumes the release fence on every return, the refusals of a
    missing buffer or of a descriptor that is no sync file included. *)
Theorem prime_release_consumes (mapper : option (advc_ahb_prime_mapper_ops B)) token fence t m :
  (forall ops, mapper = Some ops -> MapperOk ops) ->
  installed t (m_fds m) (opt_fd fence) ->
  m_fds (snd (advc_ahb_prime_mapper_release mapper token fence m)) = t.
Proof.
  intros Hops Hi. unfold advc_ahb_prime_mapper_release. cbn zeta.
  assert (forall m0, m_fds m0 = m_fds m ->
    m_fds (snd ((close_if_open fence ;; fail_with EINVAL) m0)) = t) as Hbad.
  { intros m0 H0. rewrite bind_seq. cbn. apply close_if_open_installed. by rewrite H0. }
  destruct mapper as [o|]; [|by apply Hbad]. destruct (_ =? 0); [by apply Hbad|]. rewrite bind_seq.
  pose proof (fence_bad_fds fence m) as Hm. destruct (fence_bad fence m) as [[] m0]; cbn [fst snd] in *.
  - by apply Hbad.
  - destruct (Hops o eq_refl) as [_ Hr]. apply Hr. by rewrite Hm.
Qed.

End Claims.

(** ** Instances *)

(** A mapper that opens one file and describes it as a 128x64 NV12 buffer. *)
Definition linear_descriptor (fd : Z) : advc_dmabuf_descriptor :=
  with_objects (Obj fd 65536 :: replicate 3 (Obj (-1) 0)) sample_descriptor.
Definition linear_ops : advc_ahb_prime_mapper_ops unit := {|
  mo_export_prime hb md d0 :=
    fd ← install_fd (FdInfo true KOther);
    if fd <? 0 then mret (-1, d0) else mret (0, linear_descriptor fd);
  mo_release token fence := close_if_open fence ;; mret 0;
  mo_destroy := None |}.

#[export] Instance linear_ok : MapperOk linear_ops.
Proof.
  constructor.
  - intros hb md m. cbn zeta. cbn [linear_ops mo_export_prime]. rewrite bind_seq.
    destruct (install_fd_spec (FdInfo true KOther) m) as [(m' & -> & Hm)|[_ ->]]; cbn [fst snd].
    + cbn. rewrite Hm. apply installed_nil.
    + pose proof (lowest_free_nonneg (m_fds m)) as Hn. destruct (Z.ltb_spec (lowest_free (m_fds m)) 0); [lia|].
      cbn [fst snd mret st_ret set_fds m_fds]. unfold object_fds. cbn [linear_descriptor with_objects d_objects
        fmap list_fmap replicate concat o_fd]. rewrite opt_fd_pos by done. apply installed_one.
  - intros token fence t m H. cbn [linear_ops mo_release]. rewrite bind_seq. by apply close_if_open_installed.
Qed.

Definition sample_metadata : advc_ahb_public_metadata := Metadata 128 64 35 128 1 0 0 0 128 64.

Lemma prime_export_owned_witness :
  let x := advc_ahb_prime_mapper_export (Some linear_ops) 1 sample_metadata 9 6 sample_process in
  fst (fst x) = 0 /\ d_buffer_id (ex_descriptor (snd (fst x))) = 9.
Proof.
  destruct (prime_export_owned linear_ops 1 sample_metadata 9 6 sample_process linear_ok)
    as [(H & _)|(H & _ & Hid & _)].
  - exfalso. vm_compute in H. discriminate.
  - split; [exact H|exact Hid].
Defined.

Lemma prime_release_consumes_witness :
  m_fds (snd (advc_ahb_prime_mapper_release (Some linear_ops) 3 6 sample_process)) =
    <[5 := FdInfo true KOther]> ∅.
Proof.
  apply (prime_release_consumes (Some linear_ops) 3 6 (<[5 := FdInfo true KOther]> ∅) sample_process).
  - intros o [= <-]. apply linear_ok.
  - split; [apply NoDup_singleton|]. split.
    + intros fd Hfd. apply list_elem_of_singleton in Hfd. subst fd. split; [lia|]. split; [reflexivity|].
      exists (FdInfo true KSyncFile). reflexivity.
    + intros fd Hfd. cbn [sample_process m_fds]. unfold sample_table.
      destruct (decide (fd = 5)) as [->|H5]; [reflexivity|]. rewrite !lookup_insert_ne; [reflexivity|congruence| |congruence].
      intros <-. apply Hfd. constructor.
Defined.
