(* ===== verification/AnnexB.v ===== *)
(** * H.264 Annex-B bitstreams (src/src/vaapi_advc/advc_h264_annexb.c)

    The bit writer and reader, Exp-Golomb codes, emulation prevention, the
    reconstructed SPS/PPS pair and the normalised access unit.  Every function
    is pure up to [errno]: [inl e] is the return of -1 with [errno = e].  A
    failing writer or reader is abandoned by every caller, so it is not part of
    the failing result. *)

From stdpp Require Import base list.
From Stdlib Require Import ZArith Lia Bool.
From S2P Require Import Prelude Kernel Protocol.

(** ** Results with errno *)

#[export] Instance res_ret : MRet (sum Z) := fun A a => inr a.
#[export] Instance res_bind : MBind (sum Z) :=
  fun A C k x => match x with inl e => inl e | inr a => k a end.

Definition guard_errno (c : bool) (e : Z) : Z + unit := if c then inl e else inr tt.

Definition ADVC_H264_MAX_CONFIG_BYTES : Z := 1024.
Definition ADVC_H264_MAX_SLICES : Z := 256.

(** ** Writing bits *)

(** [data] has the [ADVC_H264_MAX_CONFIG_BYTES] cells of [new_writer]; its size is
    the capacity [sizeof(writer->data)]. *)
Record bit_writer := Writer { bw_data : list Z; bw_bit_count : Z }.
Definition new_writer : bit_writer := Writer (replicate 1024 0) 0.

Definition put_bit (w : bit_writer) (value : Z) : Z + bit_writer :=
  if zlen (bw_data w) * 8 <=? bw_bit_count w then inl EOVERFLOW
  else
    let byte_offset := bw_bit_count w / 8 in
    let shift := 7 - bw_bit_count w mod 8 in
    let data := if bw_bit_count w mod 8 =? 0 then set_byte (bw_data w) byte_offset 0 else bw_data w in
    let data := set_byte data byte_offset
      (Z.lor (byte_at data byte_offset) (u8 (Z.shiftl (Z.land value 1) shift))) in
    inr (Writer data (bw_bit_count w + 1)).

(** The loop of [put_bits]: the [n] low bits of [value], highest first. *)
Fixpoint put_bits_loop (w : bit_writer) (value : Z) (n : nat) : Z + bit_writer :=
  match n with
  | O => inr w
  | S n => w ← put_bit w (Z.land (Z.shiftr value (Z.of_nat n)) 1); put_bits_loop w value n
  end.
Definition put_bits (w : bit_writer) (value count : Z) : Z + bit_writer :=
  if 32 <? count then inl EINVAL else put_bits_loop w value (Z.to_nat count).

(** [while ((code_num >> bits) != 0) ++bits;] on 64 bits. *)
Fixpoint code_bits (fuel : nat) (code_num bits : Z) : Z :=
  match fuel with
  | O => bits
  | S fuel => if Z.shiftr code_num bits =? 0 then bits else code_bits fuel code_num (bits + 1)
  end.

Fixpoint put_zeros (w : bit_writer) (n : nat) : Z + bit_writer :=
  match n with O => inr w | S n => w ← put_bit w 0; put_zeros w n end.

Definition put_ue (w : bit_writer) (value : Z) : Z + bit_writer :=
  let code_num := u64 (value + 1) in
  let bits := code_bits 64 code_num 0 in
  w ← put_zeros w (Z.to_nat (bits - 1));
  put_bits w (u32 code_num) bits.

Definition put_se (w : bit_writer) (value : Z) : Z + bit_writer :=
  let magnitude := if value <? 0 then u64 (- value) else u64 value in
  let code_num := if value <=? 0 then u64 (magnitude * 2) else u64 (magnitude * 2 - 1) in
  if UINT32_MAX <? code_num then inl EOVERFLOW else put_ue w (u32 code_num).

(** The loop of [finish_rbsp]; at most seven rounds. *)
Fixpoint align_zero (fuel : nat) (w : bit_writer) : Z + bit_writer :=
  match fuel with
  | O => inr w
  | S fuel =>
      if bw_bit_count w mod 8 =? 0 then inr w else w ← put_bit w 0; align_zero fuel w
  end.
Definition finish_rbsp (w : bit_writer) : Z + bit_writer :=
  w ← put_bit w 1; align_zero 8 w.

(** ** NAL units *)

(** The bytes [output[0 .. *output_size)] are [out]. *)
Definition emit (capacity : Z) (out : list Z) (b : Z) : Z + list Z :=
  if capacity <=? zlen out then inl EOVERFLOW else inr (out ++ [b]).

(** The loop of [append_annexb_nal]. *)
Fixpoint escape_loop (capacity : Z) (rbsp : list Z) (zero_count : Z) (out : list Z) : Z + list Z :=
  match rbsp with
  | [] => inr out
  | byte :: rbsp =>
      let esc := (2 <=? zero_count) && (byte <=? 3) in
      out ← (if esc then emit capacity out 3 else inr out);
      let zero_count := if esc then 0 else zero_count in
      out ← emit capacity out byte;
      escape_loop capacity rbsp (if byte =? 0 then zero_count + 1 else 0) out
  end.

Definition append_annexb_nal (capacity : Z) (out : list Z) (nal_header : Z) (rbsp : bit_writer)
  : Z + list Z :=
  if negb (bw_bit_count rbsp mod 8 =? 0) then inl EINVAL
  else if (capacity <? zlen out) || (capacity - zlen out <? 5) then inl EOVERFLOW
  else escape_loop capacity (take (Z.to_nat (bw_bit_count rbsp / 8)) (bw_data rbsp)) 0
         (out ++ [0; 0; 0; 1; nal_header]).

Definition annexb_prefix_size (data : list Z) : Z :=
  if (4 <=? zlen data) && (byte_at data 0 =? 0) && (byte_at data 1 =? 0) && (byte_at data 2 =? 0) &&
     (byte_at data 3 =? 1) then 4
  else if (3 <=? zlen data) && (byte_at data 0 =? 0) && (byte_at data 1 =? 0) &&
          (byte_at data 2 =? 1) then 3
  else 0.

(** ** Reading bits *)

(** The first [size] bytes of the reader's array, and the position. *)
Record bit_reader := Reader { br_data : list Z; br_bit_offset : Z }.

(** The loop of [init_slice_reader]: emulation prevention bytes are dropped, at
    most 128 bytes are kept. *)
Fixpoint unescape_loop (input : list Z) (zero_count : Z) (out : list Z) : list Z :=
  match input with
  | [] => out
  | byte :: input =>
      if zlen out <? 128 then
        if (2 <=? zero_count) && (byte =? 3) then unescape_loop input 0 out
        else unescape_loop input (if byte =? 0 then zero_count + 1 else 0) (out ++ [byte])
      else out
  end.

(** Reader and NAL header; [None] is a NULL [data]. *)
Definition init_slice_reader (data : option (list Z)) : Z + (bit_reader * Z) :=
  match data with
  | None => inl EINVAL
  | Some data =>
      let prefix := annexb_prefix_size data in
      if zlen data <=? prefix then inl EINVAL
      else
        let nal_header := byte_at data prefix in
        if negb (Z.land nal_header 0x80 =? 0) ||
           (negb (Z.land nal_header 0x1f =? 1) && negb (Z.land nal_header 0x1f =? 5))
        then inl ENOTSUP
        else
          let bytes := unescape_loop (drop (Z.to_nat (prefix + 1)) data) 0 [] in
          if zlen bytes =? 0 then inl EINVAL else inr (Reader bytes 0, nal_header)
  end.

Definition read_bit (r : bit_reader) : Z + (Z * bit_reader) :=
  if zlen (br_data r) * 8 <=? br_bit_offset r then inl EPROTO
  else
    let shift := 7 - br_bit_offset r mod 8 in
    inr (Z.land (Z.shiftr (byte_at (br_data r) (br_bit_offset r / 8)) shift) 1,
         Reader (br_data r) (br_bit_offset r + 1)).

(** The [for (;;)] of [read_ue]: at most 32 rounds. *)
Fixpoint count_zeroes (fuel : nat) (r : bit_reader) (zeroes : Z) : Z + (Z * bit_reader) :=
  match fuel with
  | O => inl EOVERFLOW
  | S fuel =>
      '(bit, r) ← read_bit r;
      if negb (bit =? 0) then inr (zeroes, r)
      else if 31 <? zeroes + 1 then inl EOVERFLOW
      else count_zeroes fuel r (zeroes + 1)
  end.

(** [for (i = 0; i < n; ++i) { read_bit; x = (x << 1) | bit; }] on 32 bits. *)
Fixpoint read_loop (n : nat) (r : bit_reader) (x : Z) : Z + (Z * bit_reader) :=
  match n with
  | O => inr (x, r)
  | S n => '(bit, r) ← read_bit r; read_loop n r (Z.lor (u32 (Z.shiftl x 1)) bit)
  end.

Definition read_ue (r : bit_reader) : Z + (Z * bit_reader) :=
  '(zeroes, r) ← count_zeroes 32 r 0;
  '(suffix, r) ← read_loop (Z.to_nat zeroes) r 0;
  inr (u32 (u32 (u32 (Z.shiftl 1 zeroes) - 1) + suffix), r).

Definition read_bits (r : bit_reader) (count : Z) : Z + (Z * bit_reader) :=
  if 32 <? count then inl EINVAL else read_loop (Z.to_nat count) r 0.

Definition INT32_MAX : Z := 2 ^ 31 - 1.

Definition read_se (r : bit_reader) : Z + (Z * bit_reader) :=
  '(code_num, r) ← read_ue r;
  if u32 (INT32_MAX * 2) <? code_num then inl EOVERFLOW
  else inr (if negb (Z.land code_num 1 =? 0) then u32 (code_num + 1) / 2 else - (code_num / 2), r).

(** ** Slice headers *)

(** First macroblock, slice type, PPS and whether the slice is an IDR slice. *)
Record slice_identity := Identity {
  id_first_mb : Z; id_slice_type : Z; id_pps : Z; id_is_idr : bool }.

Definition advc_h264_parse_slice_identity (data : option (list Z)) : Z + slice_identity :=
  '(r, nal_header) ← init_slice_reader data;
  '(first_mb, r) ← read_ue r;
  '(slice_type, r) ← read_ue r;
  '(pps_id, r) ← read_ue r;
  if (9 <? slice_type) || (255 <? pps_id) then inl ENOTSUP
  else inr (Identity first_mb slice_type pps_id (Z.land nal_header 0x1f =? 5)).

Record advc_h264_parameter_input := Params {
  profile_idc : Z; visible_width : Z; visible_height : Z;
  picture_width_in_mbs_minus1 : Z; picture_height_in_mbs_minus1 : Z;
  bit_depth_luma_minus8 : Z; bit_depth_chroma_minus8 : Z; chroma_format_idc : Z;
  separate_colour_plane_flag : Z; gaps_in_frame_num_value_allowed_flag : Z;
  frame_mbs_only_flag : Z; mb_adaptive_frame_field_flag : Z; direct_8x8_inference_flag : Z;
  log2_max_frame_num_minus4 : Z; pic_order_cnt_type : Z; log2_max_pic_order_cnt_lsb_minus4 : Z;
  delta_pic_order_always_zero_flag : Z; num_ref_frames : Z; vui_bitstream_restriction_flag : Z;
  max_num_reorder_frames : Z; max_dec_frame_buffering : Z; pic_init_qp_minus26 : Z;
  pic_init_qs_minus26 : Z; chroma_qp_index_offset : Z; second_chroma_qp_index_offset : Z;
  entropy_coding_mode_flag : Z; weighted_pred_flag : Z; weighted_bipred_idc : Z;
  transform_8x8_mode_flag : Z; field_pic_flag : Z; constrained_intra_pred_flag : Z;
  bottom_field_pic_order_in_frame_present_flag : Z; deblocking_filter_control_present_flag : Z;
  redundant_pic_cnt_present_flag : Z; num_ref_idx_l0_default_active_minus1 : Z;
  num_ref_idx_l1_default_active_minus1 : Z }.

Record advc_h264_reference_override := Override {
  uses_reference_lists : bool; uses_list1 : bool; override_present : Z }.

(** The fields between the PPS identifier and the override flag. *)
Definition skip_fields (ps : advc_h264_parameter_input) (is_idr : bool) (normalized_type : Z)
  (r : bit_reader) : Z + bit_reader :=
  '(_, r) ← read_bits r (log2_max_frame_num_minus4 ps + 4);
  r ← (if is_idr then '(_, r) ← read_ue r; inr r else inr r);
  r ← (if pic_order_cnt_type ps =? 0 then
         '(_, r) ← read_bits r (log2_max_pic_order_cnt_lsb_minus4 ps + 4);
         if negb (bottom_field_pic_order_in_frame_present_flag ps =? 0)
         then '(_, r) ← read_se r; inr r else inr r
       else inr r);
  r ← (if negb (redundant_pic_cnt_present_flag ps =? 0) then '(_, r) ← read_ue r; inr r else inr r);
  if normalized_type =? 1 then '(_, r) ← read_bit r; inr r else inr r.

Definition override_unsupported (ps : advc_h264_parameter_input) : bool :=
  negb (frame_mbs_only_flag ps =? 1) || negb (field_pic_flag ps =? 0) ||
  (negb (pic_order_cnt_type ps =? 0) && negb (pic_order_cnt_type ps =? 2)) ||
  (12 <? log2_max_frame_num_minus4 ps) || (12 <? log2_max_pic_order_cnt_lsb_minus4 ps).

Definition advc_h264_parse_reference_override (data : list Z) (ps : advc_h264_parameter_input)
  : Z + advc_h264_reference_override :=
  if override_unsupported ps then inl ENOTSUP
  else
    '(r, nal_header) ← init_slice_reader (Some data);
    '(_, r) ← read_ue r;
    '(slice_type, r) ← read_ue r;
    '(_, r) ← read_ue r;
    if 9 <? slice_type then inl ENOTSUP
    else
      let normalized_type := slice_type mod 5 in
      r ← skip_fields ps (Z.land nal_header 0x1f =? 5) normalized_type r;
      if (normalized_type =? 0) || (normalized_type =? 1) || (normalized_type =? 3) then
        '(flag, _) ← read_bit r; inr (Override true (normalized_type =? 1) (u8 flag))
      else inr (Override false false 0).

(** ** Codec configuration *)

Record advc_h264_codec_config := CodecConfig { cc_data : list Z; cc_pps_id : Z }.

Definition coded_width (ps : advc_h264_parameter_input) : Z :=
  u32 (u32 (picture_width_in_mbs_minus1 ps + 1) * 16).
Definition coded_height (ps : advc_h264_parameter_input) : Z :=
  u32 (u32 (picture_height_in_mbs_minus1 ps + 1) * 16).

(** The second guard of [validate_parameters]. *)
Definition unsupported (ps : advc_h264_parameter_input) : bool :=
  (negb (profile_idc ps =? 66) && negb (profile_idc ps =? 77)) ||
  negb (bit_depth_luma_minus8 ps =? 0) || negb (bit_depth_chroma_minus8 ps =? 0) ||
  negb (chroma_format_idc ps =? 1) || negb (separate_colour_plane_flag ps =? 0) ||
  negb (frame_mbs_only_flag ps =? 1) || negb (mb_adaptive_frame_field_flag ps =? 0) ||
  negb (field_pic_flag ps =? 0) ||
  (negb (pic_order_cnt_type ps =? 0) && negb (pic_order_cnt_type ps =? 2)) ||
  negb (transform_8x8_mode_flag ps =? 0) ||
  negb (second_chroma_qp_index_offset ps =? chroma_qp_index_offset ps) ||
  (2 <? weighted_bipred_idc ps) || (12 <? log2_max_frame_num_minus4 ps) ||
  (12 <? log2_max_pic_order_cnt_lsb_minus4 ps) || (16 <? num_ref_frames ps) ||
  (negb (vui_bitstream_restriction_flag ps =? 0) &&
   ((16 <? max_dec_frame_buffering ps) ||
    (max_dec_frame_buffering ps <? max_num_reorder_frames ps) ||
    (max_dec_frame_buffering ps <? num_ref_frames ps))) ||
  ((vui_bitstream_restriction_flag ps =? 0) &&
   (negb (max_num_reorder_frames ps =? 0) || negb (max_dec_frame_buffering ps =? 0))).

Definition validate_parameters (ps : advc_h264_parameter_input) : Z + unit :=
  if (visible_width ps =? 0) || (visible_height ps =? 0) || (8192 <? visible_width ps) ||
     (8192 <? visible_height ps) then inl EINVAL
  else if unsupported ps then inl ENOTSUP
  else guard_errno
    ((coded_width ps <? visible_width ps) || (coded_height ps <? visible_height ps) ||
     negb (u32 (coded_width ps - visible_width ps) mod 2 =? 0) ||
     negb (u32 (coded_height ps - visible_height ps) mod 2 =? 0)) ENOTSUP.

Definition crop_right (ps : advc_h264_parameter_input) : Z :=
  u32 (coded_width ps - visible_width ps) / 2.
Definition crop_bottom (ps : advc_h264_parameter_input) : Z :=
  u32 (coded_height ps - visible_height ps) / 2.
Definition cropped (ps : advc_h264_parameter_input) : bool :=
  negb (crop_right ps =? 0) || negb (crop_bottom ps =? 0).

(** The bounded VUI subset. *)
Definition write_vui (w : bit_writer) (ps : advc_h264_parameter_input) : Z + bit_writer :=
  w ← put_bit w 0; w ← put_bit w 0; w ← put_bit w 0; w ← put_bit w 0;
  w ← put_bit w 0; w ← put_bit w 0; w ← put_bit w 0; w ← put_bit w 0;
  w ← put_bit w 1; w ← put_bit w 1;
  w ← put_ue w 2; w ← put_ue w 1; w ← put_ue w 16; w ← put_ue w 16;
  w ← put_ue w (max_num_reorder_frames ps);
  put_ue w (max_dec_frame_buffering ps).

(** The sequence parameter set, up to [finish_rbsp]. *)
Definition sps_fields (w : bit_writer) (ps : advc_h264_parameter_input) : Z + bit_writer :=
  let constraint_flags := if profile_idc ps =? 66 then 0xc0 else 0 in
  w ← put_bits w (profile_idc ps) 8;
  w ← put_bits w constraint_flags 8;
  w ← put_bits w 51 8;
  w ← put_ue w 0;
  w ← put_ue w (log2_max_frame_num_minus4 ps);
  w ← put_ue w (pic_order_cnt_type ps);
  w ← (if pic_order_cnt_type ps =? 0 then put_ue w (log2_max_pic_order_cnt_lsb_minus4 ps) else inr w);
  w ← put_ue w (num_ref_frames ps);
  w ← put_bit w (gaps_in_frame_num_value_allowed_flag ps);
  w ← put_ue w (picture_width_in_mbs_minus1 ps);
  w ← put_ue w (picture_height_in_mbs_minus1 ps);
  w ← put_bit w (frame_mbs_only_flag ps);
  w ← put_bit w (direct_8x8_inference_flag ps);
  w ← put_bit w (Z.b2z (cropped ps));
  w ← (if cropped ps then
         w ← put_ue w 0; w ← put_ue w (crop_right ps); w ← put_ue w 0; put_ue w (crop_bottom ps)
       else inr w);
  w ← put_bit w (vui_bitstream_restriction_flag ps);
  if negb (vui_bitstream_restriction_flag ps =? 0) then write_vui w ps else inr w.
Definition write_sps (ps : advc_h264_parameter_input) : Z + bit_writer :=
  w ← sps_fields new_writer ps; finish_rbsp w.

(** The picture parameter set, up to [finish_rbsp]. *)
Definition pps_fields (w : bit_writer) (ps : advc_h264_parameter_input) (pps_id : Z) : Z + bit_writer :=
  w ← put_ue w pps_id;
  w ← put_ue w 0;
  w ← put_bit w (entropy_coding_mode_flag ps);
  w ← put_bit w (bottom_field_pic_order_in_frame_present_flag ps);
  w ← put_ue w 0;
  w ← put_ue w (num_ref_idx_l0_default_active_minus1 ps);
  w ← put_ue w (num_ref_idx_l1_default_active_minus1 ps);
  w ← put_bit w (weighted_pred_flag ps);
  w ← put_bits w (weighted_bipred_idc ps) 2;
  w ← put_se w (pic_init_qp_minus26 ps);
  w ← put_se w (pic_init_qs_minus26 ps);
  w ← put_se w (chroma_qp_index_offset ps);
  w ← put_bit w (deblocking_filter_control_present_flag ps);
  w ← put_bit w (constrained_intra_pred_flag ps);
  put_bit w (redundant_pic_cnt_present_flag ps).
Definition write_pps (ps : advc_h264_parameter_input) (pps_id : Z) : Z + bit_writer :=
  w ← pps_fields new_writer ps pps_id; finish_rbsp w.

(** [errno0] is the caller's errno, which the first test leaves alone. *)
Definition advc_h264_build_codec_config (errno0 : Z) (ps : advc_h264_parameter_input) (pps_id : Z)
  : Z + advc_h264_codec_config :=
  guard_errno (255 <? pps_id) errno0 ≫= fun _ =>
  validate_parameters ps ≫= fun _ =>
  sps ← write_sps ps;
  pps ← write_pps ps pps_id;
  out ← append_annexb_nal ADVC_H264_MAX_CONFIG_BYTES [] 0x67 sps;
  out ← append_annexb_nal ADVC_H264_MAX_CONFIG_BYTES out 0x68 pps;
  inr (CodecConfig out pps_id).

(** ** Access units *)

Record advc_h264_slice_input := SliceInput {
  sl_data : option (list Z); sl_expected_first_mb : Z; sl_expected_type : Z }.
Definition slice_bytes (s : advc_h264_slice_input) : list Z := default [] (sl_data s).

(** The first loop of [advc_h264_build_access_unit] from slice [i] on: total
    size, common PPS and whether any slice is IDR.  [errno0] is the caller's
    errno, which a mismatch keeps when it is set. *)
Fixpoint check_slices (errno0 : Z) (l : list advc_h264_slice_input) (first : bool)
  (output_size common_pps : Z) (any_idr : bool) : Z + (Z * Z * bool) :=
  match l with
  | [] => inr (output_size, common_pps, any_idr)
  | s :: l =>
      id ← advc_h264_parse_slice_identity (sl_data s);
      if negb (id_first_mb id =? sl_expected_first_mb s) ||
         negb (id_slice_type id mod 5 =? sl_expected_type s mod 5)
      then inl (if errno0 =? 0 then EPROTO else errno0)
      else if negb first && negb (id_pps id =? common_pps) then inl ENOTSUP
      else
        let body := zlen (slice_bytes s) - annexb_prefix_size (slice_bytes s) in
        if (ADVC_MAX_INPUT_BYTES - 4 <? output_size) ||
           (ADVC_MAX_INPUT_BYTES - output_size - 4 <? body) then inl EOVERFLOW
        else check_slices errno0 l false (output_size + 4 + body)
               (if first then id_pps id else common_pps) (any_idr || id_is_idr id)
  end.

(** The second loop. *)
Definition join_slices (l : list advc_h264_slice_input) : list Z :=
  concat ((fun s => [0; 0; 0; 1] ++
    drop (Z.to_nat (annexb_prefix_size (slice_bytes s))) (slice_bytes s)) <$> l).

(** [alloc_ok]: whether [malloc] succeeds ([ENOMEM] otherwise).  Access unit,
    PPS and IDR flag. *)
Definition advc_h264_build_access_unit (errno0 : Z) (alloc_ok : bool)
  (slices : list advc_h264_slice_input) : Z + (list Z * Z * bool) :=
  if (zlen slices =? 0) || (ADVC_H264_MAX_SLICES <? zlen slices) then inl EINVAL
  else
    '(output_size, pps, idr) ← check_slices errno0 slices true 0 0 false;
    if alloc_ok then inr (join_slices slices, pps, idr) else inl ENOMEM.

Definition advc_h264_prepend_codec_config (alloc_ok : bool) (config : advc_h264_codec_config)
  (data : option (list Z)) : Z + list Z :=
  match data with
  | None => inl EINVAL
  | Some data =>
      if (zlen (cc_data config) =? 0) || (ADVC_H264_MAX_CONFIG_BYTES <? zlen (cc_data config)) ||
         (zlen data =? 0) then inl EINVAL
      else if (ADVC_MAX_INPUT_BYTES <? zlen (cc_data config)) ||
              (ADVC_MAX_INPUT_BYTES - zlen (cc_data config) <? zlen data) then inl EOVERFLOW
      else if alloc_ok then inr (cc_data config ++ data) else inl ENOMEM
  end.
