(* ===== verification/AnnexBSpec.v ===== *)
(** * Correctness of the Annex-B code

    Bit strings are lists of booleans, first bit first.  The writer and the
    reader of AnnexB.v are related to them, Exp-Golomb codes and emulation
    prevention are stated as in the H.264 syntax, and the parser, the SPS/PPS
    generator and the access-unit builder are proved against those. *)

From stdpp Require Import base list.
From Stdlib Require Import ZArith Lia Bool.
From S2P Require Import Prelude Kernel Protocol AnnexB.

(** ** Bits of a byte string *)

Definition bit_at (p : list Z) (i : Z) : bool := Z.testbit (byte_at p (i / 8)) (7 - i mod 8).
Definition bits_of_bytes (p : list Z) : list bool :=
  (fun i => bit_at p (Z.of_nat i)) <$> seq 0 (8 * length p).
(** The bits of [p] from position [off] on start with [l]. *)
Definition holds (p : list Z) (off : Z) (l : list bool) : Prop :=
  forall k b, l !! k = Some b -> bit_at p (off + Z.of_nat k) = b.

Lemma holds_app p off l1 l2 :
  holds p off (l1 ++ l2) <-> holds p off l1 /\ holds p (off + Z.of_nat (length l1)) l2.
Proof.
  unfold holds. split.
  - intros H. split; intros k b Hk.
    + apply H. by apply lookup_app_l_Some.
    + rewrite <- Z.add_assoc, <- Nat2Z.inj_add. apply H.
      rewrite lookup_app_r by lia. by replace (length l1 + k - length l1)%nat with k by lia.
  - intros [H1 H2] k b [Hk|[Hle Hk]]%lookup_app_Some; [by apply H1|].
    apply H2 in Hk. rewrite <- Hk. f_equal. lia.
Qed.

Lemma holds_cons p off b l : holds p off (b :: l) <-> bit_at p off = b /\ holds p (off + 1) l.
Proof.
  change (b :: l) with ([b] ++ l). rewrite holds_app. cbn [length]. split; intros [H1 H2]; (split; [|done]).
  - rewrite <- (H1 0%nat b eq_refl). f_equal. lia.
  - intros [|k] c Hc; [|done]. injection Hc as <-. rewrite <- H1. f_equal. lia.
Qed.

Lemma bits_of_bytes_length p : length (bits_of_bytes p) = (8 * length p)%nat.
Proof. unfold bits_of_bytes. by rewrite length_fmap, length_seq. Qed.

Lemma bits_of_bytes_lookup p i : (i < 8 * length p)%nat ->
  bits_of_bytes p !! i = Some (bit_at p (Z.of_nat i)).
Proof.
  intros Hi. unfold bits_of_bytes. rewrite list_lookup_fmap, lookup_seq_lt by done. done.
Qed.

(** ** The writer *)

(** A writer of [cap] bytes that holds the bits [l]. *)
Record wrep {cap : nat} (w : bit_writer) (l : list bool) : Prop := {
  wr_length : length (bw_data w) = cap;
  wr_count : bw_bit_count w = Z.of_nat (length l);
  wr_room : Z.of_nat (length l) <= 8 * Z.of_nat cap;
  wr_bits : holds (bw_data w) 0 l;
  wr_tail : forall i, Z.of_nat (length l) <= i < 8 * ((Z.of_nat (length l) + 7) / 8) ->
    bit_at (bw_data w) i = false;
  wr_u8 : Forall is_u8 (bw_data w);
}.

Lemma land_1_odd v : Z.land v 1 = Z.b2z (Z.odd v).
Proof.
  change 1 with (Z.ones 1) at 1. rewrite Z.land_ones by lia. change (2 ^ 1) with 2.
  rewrite Zmod_odd. by destruct (Z.odd v).
Qed.

Lemma set_byte_u8 p i v : Forall is_u8 p -> Forall is_u8 (set_byte p i v).
Proof. intros H. unfold set_byte. apply Forall_insert; [done|apply u8_range]. Qed.

Lemma testbit_u8 x j : 0 <= j < 8 -> Z.testbit (u8 x) j = Z.testbit x j.
Proof. intros. unfold u8. by rewrite Z.mod_pow2_bits_low by lia. Qed.

(** One byte updated by or-ing in a single bit. *)
Lemma bit_at_or p c b i : 0 <= c -> c / 8 < zlen p -> 0 <= i ->
  bit_at (set_byte p (c / 8) (Z.lor (byte_at p (c / 8)) (u8 (Z.shiftl (Z.b2z b) (7 - c mod 8))))) i =
  bit_at p i || ((i =? c) && b).
Proof.
  intros Hc Hlen Hi. unfold bit_at. pose proof (Z.mod_pos_bound c 8) as Hcm. pose proof (Z.mod_pos_bound i 8) as Him.
  destruct (Z.eq_dec (i / 8) (c / 8)) as [E|E].
  - rewrite E, byte_at_set_eq by (split; [apply Z.div_pos; lia|done]).
    rewrite testbit_u8, Z.lor_spec, testbit_u8, Z.shiftl_spec by lia. f_equal.
    destruct (Z.eqb_spec i c) as [->|Hne].
    + rewrite Z.sub_diag. by destruct b.
    + cbn [andb]. assert (i mod 8 <> c mod 8) by (pose proof (Z.div_mod i 8); pose proof (Z.div_mod c 8); lia).
      destruct b; cbn [Z.b2z]; [|apply Z.bits_0].
      destruct (Z.lt_ge_cases (7 - i mod 8 - (7 - c mod 8)) 0); [by apply Z.testbit_neg_r|].
      apply (Z.bits_above_log2 1); cbn; lia.
  - rewrite byte_at_set_ne by (try apply Z.div_pos; lia).
    destruct (Z.eqb_spec i c) as [->|Hne]; [done|]. cbn. by rewrite orb_false_r.
Qed.

Lemma bit_at_zero_byte p k i : 0 <= k < zlen p -> 0 <= i ->
  bit_at (set_byte p k 0) i = if i / 8 =? k then false else bit_at p i.
Proof.
  intros Hk Hi. unfold bit_at. destruct (Z.eqb_spec (i / 8) k) as [->|E].
  - rewrite byte_at_set_eq by done. apply Z.bits_0.
  - by rewrite byte_at_set_ne by (try apply Z.div_pos; lia).
Qed.

Lemma new_writer_rep : @wrep 1024 new_writer [].
Proof.
  constructor; unfold new_writer; cbn [bw_data bw_bit_count length].
  - apply length_replicate.
  - done.
  - lia.
  - by intros [|k] b Hk.
  - intros i Hi. change (8 * ((Z.of_nat 0 + 7) / 8)) with 0 in Hi. lia.
  - apply Forall_replicate. wsolve.
Qed.

Lemma put_bit_rep {cap} w l v : @wrep cap w l -> Z.of_nat (length l) < 8 * Z.of_nat cap ->
  exists w', put_bit w v = inr w' /\ @wrep cap w' (l ++ [Z.odd v]).
Proof.
  intros [Hlen Hcnt Hroom Hbits Htail Hu8] Hlt. unfold put_bit. rewrite Hcnt.
  unfold zlen at 1. rewrite Hlen.
  destruct (Z.leb_spec (Z.of_nat cap * 8) (Z.of_nat (length l))); [lia|]. eexists. split; [reflexivity|].
  set (c := Z.of_nat (length l)) in *. cbn zeta.
  set (data1 := if c mod 8 =? 0 then set_byte (bw_data w) (c / 8) 0 else bw_data w).
  assert (0 <= c < 8 * Z.of_nat cap) as Hc by lia.
  assert (0 <= c / 8 < Z.of_nat cap) as Hk by (split; [apply Z.div_pos; lia|apply Z.div_lt_upper_bound; lia]).
  assert (length data1 = cap) as Hl1.
  { unfold data1. destruct (_ =? 0); [unfold set_byte; by rewrite length_insert|done]. }
  assert (Forall is_u8 data1) as Hu1 by (unfold data1; destruct (_ =? 0); auto using set_byte_u8).
  assert (forall i, 0 <= i < c -> bit_at data1 i = bit_at (bw_data w) i) as Hold.
  { intros i Hi. unfold data1. destruct (Z.eqb_spec (c mod 8) 0) as [E|E]; [|done].
    rewrite bit_at_zero_byte by (unfold zlen; lia). destruct (Z.eqb_spec (i / 8) (c / 8)); [|done].
    exfalso. pose proof (Z.div_mod c 8). pose proof (Z.div_mod i 8). pose proof (Z.mod_pos_bound i 8). lia. }
  assert (forall i, c <= i < 8 * (c / 8) + 8 -> bit_at data1 i = false) as Hnew.
  { intros i Hi. unfold data1. destruct (Z.eqb_spec (c mod 8) 0) as [E|E].
    - rewrite bit_at_zero_byte by (unfold zlen; lia).
      replace (i / 8) with (c / 8); [by rewrite Z.eqb_refl|].
      apply (Z.div_unique _ _ _ (i - 8 * (c / 8))); pose proof (Z.div_mod c 8); lia.
    - apply Htail. split; [lia|]. pose proof (Z.div_mod c 8). pose proof (Z.mod_pos_bound c 8).
      replace ((c + 7) / 8) with (c / 8 + 1); [lia|].
      apply (Z.div_unique _ _ _ (c mod 8 - 1)); lia. }
  rewrite land_1_odd.
  assert (forall i, 0 <= i -> bit_at (set_byte data1 (c / 8) (Z.lor (byte_at data1 (c / 8))
    (u8 (Z.shiftl (Z.b2z (Z.odd v)) (7 - c mod 8))))) i = bit_at data1 i || ((i =? c) && Z.odd v)) as Hat.
  { intros i Hi. apply bit_at_or; unfold zlen; lia. }
  assert (0 <= c mod 8 < 8) as Hm by (apply Z.mod_pos_bound; lia). pose proof (Z.div_mod c 8) as Hdm.
  constructor; cbn [bw_data bw_bit_count]; rewrite ?length_app; cbn [length].
  - unfold set_byte. by rewrite length_insert.
  - lia.
  - lia.
  - apply holds_app. split.
    + intros k b Hk'. rewrite Hat by lia. pose proof (lookup_lt_Some _ _ _ Hk').
      rewrite Hold by lia. rewrite (Hbits k b Hk').
      destruct (Z.eqb_spec (0 + Z.of_nat k) c); [lia|]. by rewrite orb_false_r.
    + intros [|k] b Hk'; [|done]. injection Hk' as <-. rewrite Hat by lia. fold c.
      replace (0 + c + Z.of_nat 0) with c by lia. rewrite Hnew, Z.eqb_refl by lia. done.
  - intros i Hi. rewrite Hat by lia.
    destruct (Z.eqb_spec i c); [lia|]. cbn [andb]. rewrite orb_false_r. apply Hnew.
    assert ((c + 1 + 7) / 8 = c / 8 + 1) by (rewrite <- Z.div_add by lia; f_equal; lia).
    replace (Z.of_nat (length l + 1)) with (c + 1) in Hi by lia. lia.
  - by apply set_byte_u8.
Qed.

(** [f] appends the bits [l], whatever was written before, as long as they fit. *)
Definition writes {cap : nat} (f : bit_writer -> Z + bit_writer) (l : list bool) : Prop :=
  forall w l0, @wrep cap w l0 -> Z.of_nat (length l0 + length l) <= 8 * Z.of_nat cap ->
  exists w', f w = inr w' /\ @wrep cap w' (l0 ++ l).

Lemma writes_bind {cap} f g l1 l2 : @writes cap f l1 -> @writes cap g l2 -> @writes cap (fun w => f w ≫= g) (l1 ++ l2).
Proof.
  intros Hf Hg w l0 Hw Hr. rewrite length_app in Hr.
  destruct (Hf w l0 Hw) as (w1 & E1 & Hw1); [lia|].
  destruct (Hg w1 (l0 ++ l1) Hw1) as (w2 & E2 & Hw2); [rewrite length_app; lia|].
  exists w2. rewrite E1. split; [done|]. by rewrite app_assoc.
Qed.
Lemma writes_nil {cap} : @writes cap inr [].
Proof. intros w l0 Hw _. exists w. by rewrite app_nil_r. Qed.
Lemma writes_bit {cap} v : @writes cap (fun w => put_bit w v) [Z.odd v].
Proof. intros w l0 Hw Hr. apply put_bit_rep; [done|]. cbn [length] in Hr. lia. Qed.
Lemma writes_ext {cap} f g l : (forall w, f w = g w) -> @writes cap f l -> @writes cap g l.
Proof. intros E H w l0 Hw Hr. rewrite <- E. by apply H. Qed.

(** The [n] low bits of [v], highest first. *)
Fixpoint digits (v : Z) (n : nat) : list bool :=
  match n with O => [] | S n => Z.testbit v (Z.of_nat n) :: digits v n end.

Lemma digits_length v n : length (digits v n) = n.
Proof. induction n; cbn; congruence. Qed.

Lemma digits_mod v w n : (forall i, 0 <= i < Z.of_nat n -> Z.testbit v i = Z.testbit w i) ->
  digits v n = digits w n.
Proof.
  induction n as [|n IH]; intros H; cbn; [done|]. rewrite H by lia. f_equal. apply IH. intros. apply H. lia.
Qed.

Lemma writes_bits_loop {cap} v n : @writes cap (fun w => put_bits_loop w v n) (digits v n).
Proof.
  induction n as [|n IH]; cbn [put_bits_loop digits]; [apply writes_nil|].
  change (Z.testbit v (Z.of_nat n) :: digits v n) with ([Z.testbit v (Z.of_nat n)] ++ digits v n).
  apply writes_bind; [|done].
  replace (Z.testbit v (Z.of_nat n)) with (Z.odd (Z.land (Z.shiftr v (Z.of_nat n)) 1)); [apply writes_bit|].
  rewrite <- !Z.bit0_odd, Z.land_spec, Z.shiftr_spec by lia. by rewrite andb_true_r.
Qed.

Lemma writes_bits {cap} v n : 0 <= n <= 32 -> @writes cap (fun w => put_bits w v n) (digits v (Z.to_nat n)).
Proof.
  intros Hn. eapply writes_ext; [|apply writes_bits_loop]. intros w. unfold put_bits.
  by destruct (Z.ltb_spec 32 n); [lia|].
Qed.

Lemma writes_zeros {cap} n : @writes cap (fun w => put_zeros w n) (replicate n false).
Proof.
  induction n as [|n IH]; cbn [put_zeros replicate]; [apply writes_nil|].
  change (false :: replicate n false) with ([Z.odd 0] ++ replicate n false).
  apply writes_bind; [apply writes_bit|done].
Qed.

(** ** Exp-Golomb codes *)

(** ue(v) of the H.264 syntax: as many zeros as there are bits after the leading
    one of [v + 1], then [v + 1] in binary. *)
Definition ue_code (v : Z) : list bool :=
  let n := Z.to_nat (Z.log2 (v + 1)) in replicate n false ++ digits (v + 1) (S n).

(** se(v): the signed values in the order 0, 1, -1, 2, -2, ... *)
Definition se_num (v : Z) : Z := if v <=? 0 then - v * 2 else v * 2 - 1.
Definition se_code (v : Z) : list bool := ue_code (se_num v).

Lemma ue_code_length v : 0 <= v -> Z.of_nat (length (ue_code v)) = 2 * Z.log2 (v + 1) + 1.
Proof.
  intros Hv. unfold ue_code. cbn zeta. rewrite length_app, length_replicate, digits_length.
  pose proof (Z.log2_nonneg (v + 1)). lia.
Qed.

Lemma code_bits_log2 fuel c b : 0 < c -> 0 <= b <= Z.log2 c + 1 -> Z.log2 c + 1 - b <= Z.of_nat fuel ->
  code_bits fuel c b = Z.log2 c + 1.
Proof.
  intros Hc. revert b. induction fuel as [|fuel IH]; intros b Hb Hf; cbn [code_bits]; [lia|].
  destruct (Z.eqb_spec (Z.shiftr c b) 0) as [E|E].
  - apply Z.shiftr_eq_0_iff in E as [?|[_ ?]]; lia.
  - apply IH; [|lia]. assert (~ Z.log2 c < b) by (intros H; apply E, Z.shiftr_eq_0_iff; by right). lia.
Qed.

Lemma log2_u32 v : 0 <= v < UINT32_MAX -> 0 <= Z.log2 (v + 1) <= 31.
Proof.
  intros Hv. split; [apply Z.log2_nonneg|]. change 31 with (Z.log2 (2 ^ 32 - 1)).
  apply Z.log2_le_mono. unfold UINT32_MAX in Hv. lia.
Qed.

Lemma writes_ue {cap} v : 0 <= v < UINT32_MAX -> @writes cap (fun w => put_ue w v) (ue_code v).
Proof.
  intros Hv. pose proof (log2_u32 v Hv) as Hl. unfold put_ue, ue_code. cbn zeta.
  rewrite (u64_id (v + 1)) by wsolve. rewrite (u32_id (v + 1)) by wsolve.
  rewrite code_bits_log2 by lia. apply writes_bind.
  - replace (Z.log2 (v + 1) + 1 - 1) with (Z.log2 (v + 1)) by lia. apply writes_zeros.
  - replace (S (Z.to_nat (Z.log2 (v + 1)))) with (Z.to_nat (Z.log2 (v + 1) + 1)) by lia.
    apply writes_bits. lia.
Qed.

Lemma writes_se {cap} v : - INT32_MAX <= v <= INT32_MAX -> @writes cap (fun w => put_se w v) (se_code v).
Proof.
  intros Hv. unfold INT32_MAX in Hv. change (2 ^ 31 - 1) with 2147483647 in Hv.
  eapply writes_ext; [|apply (writes_ue (se_num v)); unfold se_num; destruct (Z.leb_spec v 0); wsolve].
  intros w. unfold put_se. cbn zeta.
  assert ((if v <=? 0 then u64 ((if v <? 0 then u64 (- v) else u64 v) * 2)
           else u64 ((if v <? 0 then u64 (- v) else u64 v) * 2 - 1)) = se_num v) as ->.
  { unfold se_num. destruct (Z.leb_spec v 0), (Z.ltb_spec v 0); try lia.
    - rewrite (u64_id (- v)) by wsolve. apply u64_id. wsolve.
    - assert (v = 0) as -> by lia. reflexivity.
    - rewrite (u64_id v) by wsolve. apply u64_id. wsolve. }
  assert (0 <= se_num v < UINT32_MAX) as Hs.
  { unfold se_num, UINT32_MAX. destruct (Z.leb_spec v 0); lia. }
  destruct (Z.ltb_spec UINT32_MAX (se_num v)); [lia|]. rewrite u32_id; [done|]. unfold UINT32_MAX in Hs. wsolve.
Qed.

(** ** The reader *)

Lemma read_bit_spec p off : 0 <= off < 8 * zlen p ->
  read_bit (Reader p off) = inr (Z.b2z (bit_at p off), Reader p (off + 1)).
Proof.
  intros Ho. unfold read_bit. cbn [br_data br_bit_offset]. destruct (Z.leb_spec (zlen p * 8) off); [lia|].
  do 2 f_equal. rewrite land_1_odd. unfold bit_at. f_equal.
  rewrite <- Z.bit0_odd, Z.shiftr_spec by lia. f_equal.
Qed.

Lemma count_zeroes_spec p k : forall fuel off z,
  holds p off (replicate k false ++ [true]) -> 0 <= off -> off + Z.of_nat k < 8 * zlen p ->
  0 <= z -> z + Z.of_nat k <= 31 -> (k < fuel)%nat ->
  count_zeroes fuel (Reader p off) z = inr (z + Z.of_nat k, Reader p (off + Z.of_nat k + 1)).
Proof.
  induction k as [|k IH]; intros [|fuel] off z Hh Ho Hlt Hz Hk Hf; try lia; cbn [count_zeroes].
  - cbn in Hh. apply holds_cons in Hh as [Hb _]. rewrite read_bit_spec, Hb by lia. cbn.
    do 2 f_equal; [lia|f_equal; lia].
  - cbn in Hh. apply holds_cons in Hh as [Hb Hh]. rewrite read_bit_spec, Hb by lia. cbn.
    destruct (Z.ltb_spec 31 (z + 1)); [lia|]. rewrite (IH fuel (off + 1) (z + 1)); try lia; [|done].
    do 2 f_equal; [lia|f_equal; lia].
Qed.

Lemma mod_digit v n : v mod 2 ^ Z.of_nat (S n) =
  Z.b2z (Z.testbit v (Z.of_nat n)) * 2 ^ Z.of_nat n + v mod 2 ^ Z.of_nat n.
Proof.
  rewrite Nat2Z.inj_succ, Z.pow_succ_r, Z.mul_comm by lia.
  rewrite Z.rem_mul_r by (try apply Z.pow_nonzero; lia). rewrite Z.testbit_spec' by lia. lia.
Qed.

Lemma read_loop_spec p v n : forall off x,
  holds p off (digits v n) -> 0 <= off -> off + Z.of_nat n <= 8 * zlen p ->
  0 <= x -> (x + 1) * 2 ^ Z.of_nat n <= 2 ^ 32 ->
  read_loop n (Reader p off) x =
    inr (x * 2 ^ Z.of_nat n + v mod 2 ^ Z.of_nat n, Reader p (off + Z.of_nat n)).
Proof.
  induction n as [|n IH]; intros off x Hh Ho Hlt Hx Hb; cbn [read_loop].
  - cbn. rewrite Z.mod_1_r. do 2 f_equal; [lia|f_equal; lia].
  - cbn in Hh. apply holds_cons in Hh as [H0 Hh]. rewrite read_bit_spec, H0 by lia. cbn.
    rewrite Nat2Z.inj_succ, Z.pow_succ_r in Hb by lia.
    assert (0 < 2 ^ Z.of_nat n) as Hp by (apply Z.pow_pos_nonneg; lia).
    set (b := Z.b2z (Z.testbit v (Z.of_nat n))). assert (0 <= b <= 1) as Hb01 by (unfold b; destruct (Z.testbit v _); cbn; lia).
    assert (Z.lor (u32 (Z.shiftl x 1)) b = 2 * x + b) as ->.
    { rewrite u32_id by (rewrite Z.shiftl_mul_pow2 by lia; unfold is_u32; nia).
      rewrite Z.lor_comm, lor_low_shiftl by (try lia; change (2 ^ 1) with 2; lia). lia. }
    rewrite IH; try lia; [|done|nia]. rewrite mod_digit. fold b.
    rewrite Nat2Z.inj_succ, Z.pow_succ_r by lia. do 2 f_equal; [lia|f_equal; lia].
Qed.

Lemma read_ue_spec p off v : 0 <= v < UINT32_MAX -> holds p off (ue_code v) -> 0 <= off ->
  off + Z.of_nat (length (ue_code v)) <= 8 * zlen p ->
  read_ue (Reader p off) = inr (v, Reader p (off + Z.of_nat (length (ue_code v)))).
Proof.
  intros Hv Hh Ho Hlt. pose proof (log2_u32 v Hv) as Hl. rewrite (ue_code_length v) in * by lia.
  unfold ue_code in Hh. cbn zeta in Hh. cbn [digits] in Hh.
  rewrite Z2Nat.id, Z.bit_log2 in Hh by lia. set (n := Z.to_nat (Z.log2 (v + 1))) in *.
  rewrite (cons_middle true), app_assoc in Hh. apply holds_app in Hh as [Hz Hd].
  rewrite length_app, length_replicate in Hd. cbn [length] in Hd.
  unfold read_ue. rewrite (count_zeroes_spec p n 32 off 0) by (try done; lia). cbn.
  rewrite Z.add_0_l, Nat2Z.id, (read_loop_spec p (v + 1) n (off + Z.of_nat n + 1) 0); try lia.
  - cbn. replace (Z.of_nat n) with (Z.log2 (v + 1)) by lia.
    assert (2 ^ Z.log2 (v + 1) <= v + 1 < 2 ^ Z.succ (Z.log2 (v + 1))) as Hpow by (apply Z.log2_spec; lia).
    rewrite Z.pow_succ_r in Hpow by lia.
    rewrite Z.shiftl_1_l, (Z.mod_eq (v + 1)) by lia.
    replace ((v + 1) / 2 ^ Z.log2 (v + 1)) with 1 by (apply (Z.div_unique _ _ _ (v + 1 - 2 ^ Z.log2 (v + 1))); lia).
    unfold UINT32_MAX in Hv. change (2 ^ 32 - 1) with 4294967295 in Hv.
    assert (0 < 2 ^ Z.log2 (v + 1)) by (apply Z.pow_pos_nonneg; lia).
    set (q := 2 ^ Z.log2 (v + 1)) in *. do 2 f_equal; [|f_equal; lia].
    rewrite (u32_id q), (u32_id (q - 1)), u32_id by wsolve. lia.
  - replace (off + Z.of_nat n + 1) with (off + Z.of_nat (n + 1)) by lia. done.
  - rewrite Z.mul_1_l. apply Z.pow_le_mono_r; lia.
Qed.

Lemma read_se_spec p off v : - INT32_MAX <= v <= INT32_MAX -> holds p off (se_code v) -> 0 <= off ->
  off + Z.of_nat (length (se_code v)) <= 8 * zlen p ->
  read_se (Reader p off) = inr (v, Reader p (off + Z.of_nat (length (se_code v)))).
Proof.
  intros Hv Hh Ho Hlt. unfold INT32_MAX in Hv. change (2 ^ 31 - 1) with 2147483647 in Hv.
  assert (0 <= se_num v <= 4294967294) as Hs by (unfold se_num; destruct (Z.leb_spec v 0); lia).
  unfold read_se. rewrite (read_ue_spec p off (se_num v)); [|unfold UINT32_MAX; lia|done|done|done]. cbn [mbind res_bind].
  change (u32 (INT32_MAX * 2)) with 4294967294. destruct (Z.ltb_spec 4294967294 (se_num v)); [lia|].
  do 2 f_equal. rewrite land_1_odd. unfold se_num in *. destruct (Z.leb_spec v 0).
  - replace (Z.odd (- v * 2)) with false by (by rewrite Z.mul_comm, Z.odd_mul). cbn.
    rewrite Z.div_mul by lia. lia.
  - replace (Z.odd (v * 2 - 1)) with true.
    + cbn. rewrite u32_id by wsolve. replace (v * 2 - 1 + 1) with (v * 2) by lia. by rewrite Z.div_mul.
    + symmetry. replace (v * 2 - 1) with (1 + 2 * (v - 1)) by lia. by rewrite Z.odd_add_mul_2.
Qed.

(** ** Emulation prevention *)

(** The escaped form of an RBSP when [z] zero bytes precede it. *)
Fixpoint escape (z : Z) (rbsp : list Z) : list Z :=
  match rbsp with
  | [] => []
  | b :: rbsp =>
      if (2 <=? z) && (b <=? 3)
      then 3 :: b :: escape (if b =? 0 then 1 else 0) rbsp
      else b :: escape (if b =? 0 then z + 1 else 0) rbsp
  end.

Lemma escape_loop_spec cap rbsp : forall z out,
  zlen out + zlen (escape z rbsp) <= cap ->
  escape_loop cap rbsp z out = inr (out ++ escape z rbsp).
Proof.
  unfold zlen. induction rbsp as [|b rbsp IH]; intros z out Hc; cbn [escape_loop escape] in *.
  - by rewrite app_nil_r.
  - cbn zeta. assert (forall out b, Z.of_nat (length out) < cap -> emit cap out b = inr (out ++ [b])) as He.
    { intros o x Ho. unfold emit, zlen. destruct (Z.leb_spec cap (Z.of_nat (length o))); [lia|done]. }
    destruct ((2 <=? z) && (b <=? 3)); cbn [length] in Hc.
    + rewrite He by lia. cbn [mbind res_bind]. rewrite He by (rewrite length_app; cbn; lia). cbn [mbind res_bind].
      rewrite Z.add_0_l, IH by (rewrite !length_app; cbn [length]; lia). by rewrite <- !app_assoc.
    + cbn [mbind res_bind]. rewrite He by lia. cbn [mbind res_bind].
      rewrite IH by (rewrite !length_app; cbn [length]; lia). by rewrite <- !app_assoc.
Qed.

(** At most one byte in three is inserted; twice the size is a safe bound. *)
Lemma escape_length z rbsp : (length (escape z rbsp) <= 2 * length rbsp)%nat.
Proof.
  revert z. induction rbsp as [|b rbsp IH]; intros z; cbn [escape length]; [lia|].
  destruct (_ && _); cbn [length]; match goal with |- context [escape ?x rbsp] => specialize (IH x) end; lia.
Qed.

(** Removing the inserted bytes gives the RBSP back, up to the reader's size. *)
Lemma unescape_spec rbsp : forall z out, 0 <= z -> (length out <= 128)%nat ->
  unescape_loop (escape z rbsp) z out = take 128 (out ++ rbsp).
Proof.
  assert (forall input z out, length out = 128%nat -> unescape_loop input z out = out) as Hfull.
  { intros input z out Hl. destruct input; cbn [unescape_loop]; [done|].
    destruct (Z.ltb_spec (zlen out) 128); [unfold zlen in *; lia|done]. }
  induction rbsp as [|b rbsp IH]; intros z out Hz Hl; cbn [escape].
  - rewrite app_nil_r, take_ge by lia. done.
  - destruct (Nat.eq_dec (length out) 128) as [E|E].
    { rewrite take_app_le, take_ge by lia. destruct (_ && _); by apply Hfull. }
    assert (zlen out < 128) as Hlt by (unfold zlen; lia). apply Z.ltb_lt in Hlt.
    destruct (Z.leb_spec 2 z) as [H2|H2]; [destruct (Z.leb_spec b 3) as [H3|H3]|]; cbn [andb unescape_loop].
    + rewrite Hlt. apply Z.leb_le in H2. rewrite H2. change (3 =? 3) with true. cbn [andb unescape_loop]. rewrite ?Hlt.
      change (2 <=? 0) with false. cbn [andb]. rewrite Z.add_0_l, IH by (try destruct (b =? 0); try lia; rewrite length_app; cbn; lia).
      by rewrite <- app_assoc.
    + rewrite Hlt. destruct (Z.eqb_spec b 3); [lia|]. rewrite andb_false_r.
      rewrite IH by (try destruct (b =? 0); try lia; rewrite length_app; cbn; lia). by rewrite <- app_assoc.
    + rewrite Hlt. destruct (Z.leb_spec 2 z); [lia|]. cbn [andb].
      rewrite IH by (try destruct (b =? 0); try lia; rewrite length_app; cbn; lia). by rewrite <- app_assoc.
Qed.

(** No three bytes of an escaped RBSP look like a start code prefix: after two
    zeros the next byte is at least 3. *)
Lemma escape_clean rbsp : forall z a x b, 0 <= z -> Forall is_u8 rbsp ->
  (forall y c, escape z rbsp = y :: c -> 2 <= z -> 3 <= y) /\
  (1 <= z -> forall y c, escape z rbsp = 0 :: y :: c -> 3 <= y) /\
  (escape z rbsp = a ++ 0 :: 0 :: x :: b -> 3 <= x).
Proof.
  induction rbsp as [|v rbsp IH]; intros z a x b Hz Hu; cbn [escape].
  - repeat split; try done. by destruct a.
  - apply Forall_cons in Hu as [Hv Hu]. unfold is_u8 in Hv.
    destruct (Z.leb_spec 2 z) as [H2|H2]; [destruct (Z.leb_spec v 3) as [H3|H3]|]; cbn [andb].
    + set (z' := if v =? 0 then 1 else 0). assert (0 <= z') as Hz' by (unfold z'; destruct (v =? 0); lia).
      split; [intros y c [= <- _]; lia|]. split; [intros _ y c [= ? _]|].
      intros E. destruct a as [|a1 [|a2 a]]; cbn in E; [injection E; lia| |].
      * injection E as _ -> E. destruct (IH z' [] x b Hz' Hu) as (_ & H & _).
        apply (H ltac:(unfold z'; cbn; lia) x b E).
      * injection E as _ _ E. by apply (IH z' a x b Hz' Hu).
    + destruct (Z.eqb_spec v 0); [lia|]. split; [intros y c [= <- _]; lia|].
      split; [intros _ y c [= ? _]; lia|]. intros E. destruct a as [|a1 a]; cbn in E; [injection E; lia|].
      injection E as _ E. by apply (IH 0 a x b ltac:(lia) Hu).
    + set (z' := if v =? 0 then z + 1 else 0). assert (0 <= z') as Hz' by (unfold z'; destruct (v =? 0); lia).
      split; [intros; lia|]. split.
      * intros H1 y c [= -> E]. destruct (IH z' [] x b Hz' Hu) as (H & _).
        apply (H y c E). unfold z'. cbn. lia.
      * intros E. destruct a as [|a1 a]; cbn in E.
        -- injection E as -> E. destruct (IH z' [] x b Hz' Hu) as (_ & H & _).
           apply (H ltac:(unfold z'; cbn; lia) x b E).
        -- injection E as _ E. by apply (IH z' a x b Hz' Hu).
Qed.

(** ** Slice headers *)

Lemma bit_at_take p n i : 0 <= i < 8 * Z.of_nat n -> bit_at (take n p) i = bit_at p i.
Proof.
  intros Hi. unfold bit_at, byte_at. rewrite lookup_take_lt; [done|].
  assert (i / 8 < Z.of_nat n) by (apply Z.div_lt_upper_bound; lia).
  assert (0 <= i / 8) by (apply Z.div_pos; lia). lia.
Qed.

(** A prefix of the bits of [p] can be read from the reader's copy of [p]. *)
Lemma holds_reader p l rest : bits_of_bytes p = l ++ rest -> Z.of_nat (length l) <= 1024 ->
  holds (take 128 p) 0 l /\ Z.of_nat (length l) <= 8 * zlen (take 128 p).
Proof.
  intros E Hl. assert (length l <= 8 * length p)%nat as Hle.
  { rewrite <- (bits_of_bytes_length p), E, length_app. lia. }
  split.
  - intros k b Hk. pose proof (lookup_lt_Some _ _ _ Hk). rewrite bit_at_take by lia.
    pose proof (bits_of_bytes_lookup p k ltac:(lia)) as Hb. rewrite E, (lookup_app_l_Some _ _ _ _ Hk) in Hb.
    rewrite Z.add_0_l. congruence.
  - unfold zlen. rewrite length_take. lia.
Qed.

(** The three forms a NAL unit comes in: bare, or behind a start code. *)
Definition start_code (sc : list Z) : Prop := sc = [] \/ sc = [0; 0; 1] \/ sc = [0; 0; 0; 1].
(** The header byte of a coded slice. *)
Definition slice_nal (hdr : Z) : Prop :=
  is_u8 hdr /\ Z.land hdr 0x80 = 0 /\ (Z.land hdr 0x1f = 1 \/ Z.land hdr 0x1f = 5).

Lemma prefix_size_spec sc hdr tail : start_code sc -> slice_nal hdr ->
  annexb_prefix_size (sc ++ hdr :: tail) = zlen sc.
Proof.
  intros Hsc (Hu & _ & Ht). assert (hdr <> 0) as Hne by (intros ->; by destruct Ht).
  unfold annexb_prefix_size. destruct Hsc as [->|[->| ->]]; cbn [app].
  - assert (byte_at (hdr :: tail) 0 = hdr) as -> by (by apply u8_id).
    destruct (Z.eqb_spec hdr 0); [lia|]. by rewrite !andb_false_r.
  - change (byte_at (0 :: 0 :: 1 :: hdr :: tail) 2) with 1. rewrite andb_false_r. cbn [andb].
    destruct (Z.leb_spec 3 (zlen (0 :: 0 :: 1 :: hdr :: tail))) as [_|H]; [done|].
    unfold zlen in H. cbn [length] in H. lia.
  - destruct (Z.leb_spec 4 (zlen (0 :: 0 :: 0 :: 1 :: hdr :: tail))) as [_|H]; [done|].
    unfold zlen in H. cbn [length] in H. lia.
Qed.

Lemma init_reader_spec sc hdr rbsp : start_code sc -> slice_nal hdr -> rbsp <> [] ->
  init_slice_reader (Some (sc ++ hdr :: escape 0 rbsp)) = inr (Reader (take 128 rbsp) 0, hdr).
Proof.
  intros Hsc Hn Hr. unfold init_slice_reader. cbn zeta. rewrite prefix_size_spec by done.
  destruct (Z.leb_spec (zlen (sc ++ hdr :: escape 0 rbsp)) (zlen sc)) as [H|_].
  { unfold zlen in H. rewrite length_app in H. cbn [length] in H. lia. }
  assert (byte_at (sc ++ hdr :: escape 0 rbsp) (zlen sc) = hdr) as Hb.
  { unfold byte_at, zlen. rewrite Nat2Z.id, lookup_app_r, Nat.sub_diag by lia. apply u8_id, Hn. }
  rewrite Hb. destruct Hn as (_ & -> & Ht). change (0 =? 0) with true. cbn [negb orb].
  assert (negb (Z.land hdr 31 =? 1) && negb (Z.land hdr 31 =? 5) = false) as ->.
  { by destruct Ht as [->| ->]. }
  assert (drop (Z.to_nat (zlen sc + 1)) (sc ++ hdr :: escape 0 rbsp) = escape 0 rbsp) as ->.
  { replace (Z.to_nat (zlen sc + 1)) with (length sc + 1)%nat by (unfold zlen; lia).
    by rewrite <- drop_drop, drop_app_length. }
  rewrite unescape_spec by (cbn; lia). cbn [app].
  destruct (Z.eqb_spec (zlen (take 128 rbsp)) 0) as [H|_]; [|done].
  unfold zlen in H. rewrite length_take in H. destruct rbsp; [done|]. cbn [length] in H. lia.
Qed.

Lemma ue_length_63 v : 0 <= v < UINT32_MAX -> (length (ue_code v) <= 63)%nat.
Proof. intros Hv. pose proof (log2_u32 v Hv). pose proof (ue_code_length v ltac:(lia)). lia. Qed.

(** The slice-header parser reads what the bitstream says.  For every coded
    slice, with either start code or none, whose RBSP begins with the codes
    of [a], [b] and [c], whatever emulation prevention inserted: exactly these
    values come back, with the IDR flag of the header byte, or [ENOTSUP] when
    the slice type or the PPS identifier is out of range. *)
Theorem parse_identity_exact sc hdr rbsp a b c rest :
  start_code sc -> slice_nal hdr ->
  0 <= a < UINT32_MAX -> 0 <= b < UINT32_MAX -> 0 <= c < UINT32_MAX ->
  bits_of_bytes rbsp = ue_code a ++ ue_code b ++ ue_code c ++ rest ->
  advc_h264_parse_slice_identity (Some (sc ++ hdr :: escape 0 rbsp)) =
    if (9 <? b) || (255 <? c) then inl ENOTSUP
    else inr (Identity a b c (Z.land hdr 0x1f =? 5)).
Proof.
  intros Hsc Hn Ha Hb Hc Hbits.
  pose proof (ue_length_63 a Ha). pose proof (ue_length_63 b Hb). pose proof (ue_length_63 c Hc).
  destruct (holds_reader rbsp (ue_code a ++ ue_code b ++ ue_code c) rest) as [Hh Hlen].
  { by rewrite Hbits, <- !app_assoc. }
  { rewrite !length_app. lia. }
  apply holds_app in Hh as [Hha Hh]. apply holds_app in Hh as [Hhb Hhc]. rewrite !length_app in Hlen.
  unfold advc_h264_parse_slice_identity. rewrite init_reader_spec by
    (try done; intros ->; cbn in Hbits; symmetry in Hbits; apply app_nil in Hbits as [Hbits _];
     pose proof (ue_code_length a ltac:(lia)) as Hl0; rewrite Hbits in Hl0; pose proof (log2_u32 a Ha); cbn in Hl0; lia).
  cbn [mbind res_bind].
  rewrite (read_ue_spec _ 0 a) by (try done; lia). cbn [mbind res_bind].
  rewrite (read_ue_spec _ _ b) by (try done; lia). cbn [mbind res_bind].
  rewrite (read_ue_spec _ _ c) by (try done; lia). cbn [mbind res_bind]. done.
Qed.

(** ** Parameter sets *)

(** rbsp_trailing_bits after [n] bits: a one, then zeros to the byte boundary. *)
Definition trailing (n : nat) : list bool :=
  true :: replicate (Z.to_nat ((- (Z.of_nat n + 1)) mod 8)) false.
Definition close_rbsp (l : list bool) : list bool := l ++ trailing (length l).

Lemma align_zero_rep {cap} k : forall fuel w l, @wrep cap w l -> (k < fuel)%nat -> (k < 8)%nat ->
  (Z.of_nat (length l + k)) mod 8 = 0 -> Z.of_nat (length l + k) <= 8 * Z.of_nat cap ->
  exists w', align_zero fuel w = inr w' /\ @wrep cap w' (l ++ replicate k false).
Proof.
  induction k as [|k IH]; intros [|fuel] w l Hw Hf Hk Hm Hr; try lia; cbn [align_zero]; rewrite (wr_count _ _ Hw).
  - rewrite Nat.add_0_r in Hm. rewrite Hm. exists w. by rewrite app_nil_r.
  - destruct (Z.eqb_spec (Z.of_nat (length l) mod 8) 0) as [E|E].
    { exfalso. rewrite Nat2Z.inj_add, Z.add_mod, E, Z.add_0_l, Z.mod_mod, Z.mod_small in Hm by lia. lia. }
    destruct (put_bit_rep w l 0 Hw ltac:(lia)) as (w1 & -> & Hw1). cbn [mbind res_bind].
    destruct (IH fuel w1 (l ++ [Z.odd 0]) Hw1) as (w2 & E2 & Hw2);
      [lia|lia|rewrite length_app; cbn [length]; by replace (length l + 1 + k)%nat with (length l + S k)%nat by lia
      |rewrite length_app; cbn [length]; lia|].
    exists w2. split; [done|]. by rewrite <- app_assoc in Hw2.
Qed.

Lemma finish_rbsp_rep {cap} w l : @wrep cap w l -> Z.of_nat (length l) + 8 <= 8 * Z.of_nat cap ->
  exists w', finish_rbsp w = inr w' /\ @wrep cap w' (close_rbsp l) /\ Z.of_nat (length (close_rbsp l)) mod 8 = 0.
Proof.
  intros Hw Hr. unfold finish_rbsp, close_rbsp, trailing.
  destruct (put_bit_rep w l 1 Hw ltac:(lia)) as (w1 & -> & Hw1). cbn [mbind res_bind].
  set (k := Z.to_nat ((- (Z.of_nat (length l) + 1)) mod 8)).
  pose proof (Z.mod_pos_bound (- (Z.of_nat (length l) + 1)) 8 ltac:(lia)) as Hk.
  assert (Z.of_nat (length (l ++ [Z.odd 1]) + k) mod 8 = 0) as Hm.
  { rewrite length_app. cbn [length]. rewrite Nat2Z.inj_add, Nat2Z.inj_add. unfold k. rewrite Z2Nat.id by lia.
    rewrite Z.add_mod_idemp_r by lia. change (Z.of_nat 1) with 1. by rewrite Z.add_opp_diag_r. }
  destruct (align_zero_rep k 8 w1 (l ++ [Z.odd 1]) Hw1) as (w2 & E2 & Hw2);
    [lia|lia|done|rewrite length_app; cbn [length]; lia|].
  exists w2. split; [done|]. rewrite <- app_assoc in Hw2. split; [done|].
  rewrite <- Hm, !length_app. cbn [length]. rewrite length_replicate. fold k. f_equal. lia.
Qed.

(** The bytes of a finished writer. *)
Definition rbsp_bytes (w : bit_writer) : list Z := take (Z.to_nat (bw_bit_count w / 8)) (bw_data w).

Lemma rbsp_bytes_spec {cap} w l : @wrep cap w l -> Z.of_nat (length l) mod 8 = 0 ->
  bits_of_bytes (rbsp_bytes w) = l /\ Forall is_u8 (rbsp_bytes w) /\
  8 * zlen (rbsp_bytes w) = Z.of_nat (length l).
Proof.
  intros Hw Hm. pose proof (wr_length _ _ Hw) as Hlen. pose proof (wr_room _ _ Hw) as Hroom.
  pose proof (Z.div_mod (Z.of_nat (length l)) 8 ltac:(lia)) as Hdm.
  assert (length (rbsp_bytes w) = Z.to_nat (Z.of_nat (length l) / 8)) as Hb.
  { unfold rbsp_bytes. rewrite length_take, (wr_count _ _ Hw), Hlen. lia. }
  assert (0 <= Z.of_nat (length l) / 8) by (apply Z.div_pos; lia).
  split; [|split].
  - apply list_eq. intros i. destruct (Nat.lt_ge_cases i (length l)) as [Hi|Hi].
    + rewrite bits_of_bytes_lookup by lia. destruct (l !! i) as [b|] eqn:E; [|apply lookup_ge_None in E; lia].
      f_equal. rewrite <- (wr_bits _ _ Hw i b E), Z.add_0_l. unfold rbsp_bytes. rewrite (wr_count _ _ Hw).
      apply bit_at_take. lia.
    + rewrite !lookup_ge_None_2; [done|lia|rewrite bits_of_bytes_length; lia].
  - unfold rbsp_bytes. apply Forall_take, Hw.
  - unfold zlen. lia.
Qed.

Lemma append_nal_spec {wcap} cap out hdr w l : @wrep wcap w l -> Z.of_nat (length l) mod 8 = 0 ->
  zlen out + 5 + 2 * zlen (rbsp_bytes w) <= cap ->
  append_annexb_nal cap out hdr w = inr (out ++ [0; 0; 0; 1; hdr] ++ escape 0 (rbsp_bytes w)).
Proof.
  intros Hw Hm Hc. unfold append_annexb_nal. rewrite (wr_count _ _ Hw), Hm. change (negb (0 =? 0)) with false. cbn iota.
  pose proof (escape_length 0 (rbsp_bytes w)) as He. unfold zlen in *.
  destruct (Z.ltb_spec cap (Z.of_nat (length out))); [lia|].
  destruct (Z.ltb_spec (cap - Z.of_nat (length out)) 5); [lia|]. cbn [orb].
  rewrite <- (wr_count _ _ Hw). fold (rbsp_bytes w). rewrite escape_loop_spec.
  - by rewrite <- app_assoc.
  - unfold zlen. rewrite length_app. cbn [length]. lia.
Qed.

(** seq_parameter_set_data of the supported subset. *)
Definition vui_bits (ps : advc_h264_parameter_input) : list bool :=
  replicate 8 false ++ [true; true] ++ ue_code 2 ++ ue_code 1 ++ ue_code 16 ++ ue_code 16 ++
  ue_code (max_num_reorder_frames ps) ++ ue_code (max_dec_frame_buffering ps).
Definition sps_bits (ps : advc_h264_parameter_input) : list bool :=
  digits (profile_idc ps) 8 ++ digits (if profile_idc ps =? 66 then 0xc0 else 0) 8 ++ digits 51 8 ++
  ue_code 0 ++ ue_code (log2_max_frame_num_minus4 ps) ++ ue_code (pic_order_cnt_type ps) ++
  (if pic_order_cnt_type ps =? 0 then ue_code (log2_max_pic_order_cnt_lsb_minus4 ps) else []) ++
  ue_code (num_ref_frames ps) ++ [Z.odd (gaps_in_frame_num_value_allowed_flag ps)] ++
  ue_code (picture_width_in_mbs_minus1 ps) ++ ue_code (picture_height_in_mbs_minus1 ps) ++
  [Z.odd (frame_mbs_only_flag ps)] ++ [Z.odd (direct_8x8_inference_flag ps)] ++ [cropped ps] ++
  (if cropped ps then ue_code 0 ++ ue_code (crop_right ps) ++ ue_code 0 ++ ue_code (crop_bottom ps) else []) ++
  [Z.odd (vui_bitstream_restriction_flag ps)] ++
  (if vui_bitstream_restriction_flag ps =? 0 then [] else vui_bits ps).
(** pic_parameter_set_rbsp without slice groups. *)
Definition pps_bits (ps : advc_h264_parameter_input) (pps_id : Z) : list bool :=
  ue_code pps_id ++ ue_code 0 ++ [Z.odd (entropy_coding_mode_flag ps)] ++
  [Z.odd (bottom_field_pic_order_in_frame_present_flag ps)] ++ ue_code 0 ++
  ue_code (num_ref_idx_l0_default_active_minus1 ps) ++ ue_code (num_ref_idx_l1_default_active_minus1 ps) ++
  [Z.odd (weighted_pred_flag ps)] ++ digits (weighted_bipred_idc ps) 2 ++
  se_code (pic_init_qp_minus26 ps) ++ se_code (pic_init_qs_minus26 ps) ++ se_code (chroma_qp_index_offset ps) ++
  [Z.odd (deblocking_filter_control_present_flag ps)] ++ [Z.odd (constrained_intra_pred_flag ps)] ++
  [Z.odd (redundant_pic_cnt_present_flag ps)].

(** The widths of the C struct's fields that reach the bitstream. *)
Definition is_i8 (x : Z) : Prop := -128 <= x < 128.
Record params_typed (ps : advc_h264_parameter_input) : Prop := {
  pt_width : is_u16 (picture_width_in_mbs_minus1 ps);
  pt_height : is_u16 (picture_height_in_mbs_minus1 ps);
  pt_visible_w : is_u32 (visible_width ps);
  pt_visible_h : is_u32 (visible_height ps);
  pt_frame_num : is_u8 (log2_max_frame_num_minus4 ps);
  pt_poc : is_u8 (pic_order_cnt_type ps);
  pt_poc_lsb : is_u8 (log2_max_pic_order_cnt_lsb_minus4 ps);
  pt_refs : is_u8 (num_ref_frames ps);
  pt_reorder : is_u8 (max_num_reorder_frames ps);
  pt_buffering : is_u8 (max_dec_frame_buffering ps);
  pt_l0 : is_u8 (num_ref_idx_l0_default_active_minus1 ps);
  pt_l1 : is_u8 (num_ref_idx_l1_default_active_minus1 ps);
  pt_qp : is_i8 (pic_init_qp_minus26 ps);
  pt_qs : is_i8 (pic_init_qs_minus26 ps);
  pt_cqp : is_i8 (chroma_qp_index_offset ps);
}.

(** Discharges one step of a writer program. *)
Ltac emits :=
  first [ apply writes_bit | apply writes_bits; lia | apply writes_ue; unfold UINT32_MAX in *; wsolve
        | apply writes_se; unfold is_i8, INT32_MAX in *; lia | apply writes_nil ].
Ltac emit_all := repeat (apply writes_bind; [emits|]); try emits.

Section Sets.
Context (ps : advc_h264_parameter_input) (Ht : params_typed ps).

Lemma crop_range : 0 <= crop_right ps < 2 ^ 31 /\ 0 <= crop_bottom ps < 2 ^ 31.
Proof. unfold crop_right, crop_bottom. wsolve. Qed.

Lemma writes_vui {cap} : @writes cap (fun w => write_vui w ps) (vui_bits ps).
Proof.
  destruct Ht. unfold write_vui, vui_bits.
  change (replicate 8 false) with ([Z.odd 0] ++ [Z.odd 0] ++ [Z.odd 0] ++ [Z.odd 0] ++
    [Z.odd 0] ++ [Z.odd 0] ++ [Z.odd 0] ++ [Z.odd 0]).
  change [true; true] with ([Z.odd 1] ++ [Z.odd 1]). rewrite <- !app_assoc. emit_all.
Qed.

Lemma writes_sps {cap} : @writes cap (fun w => sps_fields w ps) (sps_bits ps).
Proof.
  pose proof crop_range as [Hcr Hcb]. change (2 ^ 31) with 2147483648 in *. destruct Ht. unfold sps_fields, sps_bits.
  cbn zeta.
  do 6 (apply writes_bind; [emits|]).
  apply writes_bind; [destruct (_ =? 0); emits|]. emit_all.
  apply writes_bind; [by destruct (cropped ps); [apply (writes_bit 1)|apply (writes_bit 0)]|].
  apply writes_bind; [destruct (cropped ps); emit_all|].
  apply writes_bind; [emits|]. destruct (_ =? 0); cbn [negb]; [emits|apply writes_vui].
Qed.

Lemma writes_pps {cap} pps_id : 0 <= pps_id <= 255 -> weighted_bipred_idc ps <= 2 ->
  @writes cap (fun w => pps_fields w ps pps_id) (pps_bits ps pps_id).
Proof. intros Hid Hw. destruct Ht. unfold pps_fields, pps_bits. emit_all. Qed.

Lemma sps_length : (length (sps_bits ps) <= 1200)%nat.
Proof.
  pose proof crop_range as [Hcr Hcb]. change (2 ^ 31) with 2147483648 in *. destruct Ht.
  unfold sps_bits, vui_bits.
  repeat (rewrite length_app || rewrite digits_length || rewrite length_replicate).
  assert (forall v, 0 <= v < UINT32_MAX -> (length (ue_code v) <= 63)%nat) as Hue by apply ue_length_63.
  pose proof (Hue 0 ltac:(wsolve)). pose proof (Hue 2 ltac:(wsolve)). pose proof (Hue 1 ltac:(wsolve)).
  pose proof (Hue 16 ltac:(wsolve)).
  pose proof (Hue (log2_max_frame_num_minus4 ps) ltac:(wsolve)).
  pose proof (Hue (pic_order_cnt_type ps) ltac:(wsolve)).
  pose proof (Hue (log2_max_pic_order_cnt_lsb_minus4 ps) ltac:(wsolve)).
  pose proof (Hue (num_ref_frames ps) ltac:(wsolve)).
  pose proof (Hue (picture_width_in_mbs_minus1 ps) ltac:(wsolve)).
  pose proof (Hue (picture_height_in_mbs_minus1 ps) ltac:(wsolve)).
  pose proof (Hue (crop_right ps) ltac:(wsolve)). pose proof (Hue (crop_bottom ps) ltac:(wsolve)).
  pose proof (Hue (max_num_reorder_frames ps) ltac:(wsolve)).
  pose proof (Hue (max_dec_frame_buffering ps) ltac:(wsolve)).
  destruct (_ =? 0), (cropped ps), (vui_bitstream_restriction_flag ps =? 0);
    repeat (rewrite length_app || rewrite length_replicate); cbn [length]; lia.
Qed.

Lemma pps_length pps_id : 0 <= pps_id <= 255 -> (length (pps_bits ps pps_id) <= 600)%nat.
Proof.
  intros Hid. destruct Ht. unfold pps_bits. repeat (rewrite length_app || rewrite digits_length).
  assert (forall v, 0 <= v < UINT32_MAX -> (length (ue_code v) <= 63)%nat) as Hue by apply ue_length_63.
  assert (forall v, is_i8 v -> (length (se_code v) <= 63)%nat) as Hse.
  { intros v Hv. apply Hue. unfold se_num, is_i8 in *. destruct (Z.leb_spec v 0); wsolve. }
  pose proof (Hue 0 ltac:(wsolve)). pose proof (Hue pps_id ltac:(wsolve)).
  pose proof (Hue (num_ref_idx_l0_default_active_minus1 ps) ltac:(wsolve)).
  pose proof (Hue (num_ref_idx_l1_default_active_minus1 ps) ltac:(wsolve)).
  pose proof (Hse _ pt_qp0). pose proof (Hse _ pt_qs0). pose proof (Hse _ pt_cqp0). cbn [length]. lia.
Qed.

(** A parameter set is written, finished and fits its writer. *)
Lemma set_written f l : @writes 1024 f l -> (length l <= 1200)%nat ->
  exists w, f new_writer ≫= finish_rbsp = inr w /\ @wrep 1024 w (close_rbsp l) /\
    Z.of_nat (length (close_rbsp l)) mod 8 = 0 /\ (length (close_rbsp l) <= length l + 8)%nat.
Proof.
  intros Hf Hl. destruct (Hf new_writer [] new_writer_rep) as (w1 & E1 & Hw1); [cbn; lia|].
  destruct (finish_rbsp_rep w1 l Hw1) as (w2 & E2 & Hw2 & Hm); [lia|].
  exists w2. rewrite E1. split; [done|]. split; [done|]. split; [done|].
  unfold close_rbsp, trailing. rewrite length_app. cbn [length]. rewrite length_replicate.
  pose proof (Z.mod_pos_bound (- (Z.of_nat (length l) + 1)) 8). lia.
Qed.

End Sets.

(** The generated codec configuration is the SPS/PPS pair of the stream.
    For every parameter set in the supported subset the call succeeds (no
    buffer can overflow), and the result is one NAL unit for each set: start
    code, header byte 0x67 or 0x68, and the escaped bytes whose bits are the
    H.264 syntax of that set with its trailing bits.  The cropping it declares
    gives back the visible size. *)
Theorem codec_config_exact errno0 ps pps_id :
  params_typed ps -> 0 <= pps_id <= 255 -> validate_parameters ps = inr tt ->
  exists sps pps,
    advc_h264_build_codec_config errno0 ps pps_id =
      inr (CodecConfig ([0; 0; 0; 1; 0x67] ++ escape 0 sps ++ [0; 0; 0; 1; 0x68] ++ escape 0 pps) pps_id) /\
    bits_of_bytes sps = close_rbsp (sps_bits ps) /\
    bits_of_bytes pps = close_rbsp (pps_bits ps pps_id) /\
    coded_width ps - 2 * crop_right ps = visible_width ps /\
    coded_height ps - 2 * crop_bottom ps = visible_height ps.
Proof.
  intros Ht Hid Hv. pose proof Hv as Hv'. unfold validate_parameters in Hv'.
  match type of Hv' with (if ?c then _ else _) = _ => destruct c; [done|] end.
  destruct (unsupported ps) eqn:Hun; [done|]. unfold guard_errno in Hv'.
  match type of Hv' with (if ?c then _ else _) = _ => destruct c eqn:Hcrop; [done|] end.
  assert (weighted_bipred_idc ps <= 2) as Hwb.
  { unfold unsupported in Hun. rewrite !orb_false_iff in Hun. destruct_and! Hun. lia. }
  destruct (set_written (fun w => sps_fields w ps) _ (writes_sps ps Ht)) as (ws & Es & Hws & Hms & Hls);
    [by apply sps_length|].
  destruct (set_written (fun w => pps_fields w ps pps_id) _ (writes_pps ps Ht pps_id Hid Hwb)) as (wp & Ep & Hwp & Hmp & Hlp);
    [pose proof (pps_length ps Ht pps_id Hid); lia|].
  destruct (rbsp_bytes_spec ws _ Hws Hms) as (Hbs & _ & Hns).
  destruct (rbsp_bytes_spec wp _ Hwp Hmp) as (Hbp & _ & Hnp).
  pose proof (sps_length ps Ht). pose proof (pps_length ps Ht pps_id Hid).
  exists (rbsp_bytes ws), (rbsp_bytes wp). split; [|split; [done|split; [done|]]].
  - unfold advc_h264_build_codec_config, guard_errno. destruct (Z.ltb_spec 255 pps_id); [lia|].
    assert (write_sps ps = inr ws) as -> by (unfold write_sps; exact Es).
    assert (write_pps ps pps_id = inr wp) as -> by (unfold write_pps; exact Ep).
    rewrite Hv. cbn [mbind res_bind].
    rewrite (append_nal_spec _ [] 103 ws _ Hws Hms) by (unfold zlen, ADVC_H264_MAX_CONFIG_BYTES in *; cbn [length]; lia).
    cbn [mbind res_bind]. rewrite (append_nal_spec _ _ 104 wp _ Hwp Hmp).
    + cbn [app mbind res_bind]. done.
    + pose proof (escape_length 0 (rbsp_bytes ws)). unfold zlen, ADVC_H264_MAX_CONFIG_BYTES in *.
      rewrite !length_app. cbn [length]. lia.
  - rewrite !orb_false_iff in Hcrop. destruct Hcrop as (((Hw%Z.ltb_ge & Hh%Z.ltb_ge) & Hmw%negb_false_iff%Z.eqb_eq) & Hmh%negb_false_iff%Z.eqb_eq).
    destruct Ht. unfold crop_right, crop_bottom in *.
    assert (is_u32 (coded_width ps) /\ is_u32 (coded_height ps)) as [Hcw Hch]
      by (unfold coded_width, coded_height; auto with width).
    rewrite u32_id in Hmw by (unfold is_u32 in *; lia). rewrite u32_id in Hmh by (unfold is_u32 in *; lia).
    rewrite !u32_id by (unfold is_u32 in *; lia).
    pose proof (Z.div_mod (coded_width ps - visible_width ps) 2). pose proof (Z.div_mod (coded_height ps - visible_height ps) 2). lia.
Qed.

(** ** Access units *)

(** What the checks establish about one slice. *)
Definition slice_checked (pps : Z) (s : advc_h264_slice_input) (idr : bool) : Prop :=
  exists id, advc_h264_parse_slice_identity (sl_data s) = inr id /\
    id_first_mb id = sl_expected_first_mb s /\
    id_slice_type id mod 5 = sl_expected_type s mod 5 /\ id_pps id = pps /\ id_is_idr id = idr.

Lemma check_slices_spec errno0 l : forall first size pps idr size' pps' idr',
  check_slices errno0 l first size pps idr = inr (size', pps', idr') ->
  (first = true -> l <> []) ->
  size' = size + zlen (join_slices l) /\ (l <> [] -> size' <= ADVC_MAX_INPUT_BYTES) /\
  (first = false -> pps' = pps) /\
  exists flags, length flags = length l /\ idr' = (idr || existsb id flags) /\
    Forall2 (slice_checked pps') l flags.
Proof.
  induction l as [|s l IH]; intros first size pps idr size' pps' idr' H Hf; cbn [check_slices] in H.
  - injection H as <- <- <-. destruct first; [by specialize (Hf eq_refl)|]. cbn.
    split; [unfold zlen; cbn; lia|]. split; [done|]. split; [done|]. exists []. by rewrite orb_false_r.
  - destruct (advc_h264_parse_slice_identity (sl_data s)) as [e|id] eqn:Hid; [done|]. cbn [mbind res_bind] in H.
    destruct (_ || _) eqn:Hm in H; [done|]. apply orb_false_iff in Hm as [Hm1%negb_false_iff%Z.eqb_eq Hm2%negb_false_iff%Z.eqb_eq].
    destruct (negb first && _) eqn:Hp in H; [done|]. cbn zeta in H.
    destruct (_ || _) eqn:Hb in H; [done|]. apply orb_false_iff in Hb as [Hb1%Z.ltb_ge Hb2%Z.ltb_ge].
    apply IH in H as (Hsz & Hmax & Hpps & flags & Hfl & Hidr & Hall); [|done]. specialize (Hpps eq_refl).
    set (body := drop (Z.to_nat (annexb_prefix_size (slice_bytes s))) (slice_bytes s)) in *.
    assert (zlen (slice_bytes s) - annexb_prefix_size (slice_bytes s) = zlen body) as Hbody.
    { unfold body, zlen. rewrite length_drop. unfold annexb_prefix_size, zlen.
      destruct (Z.leb_spec 4 (Z.of_nat (length (slice_bytes s)))), (Z.leb_spec 3 (Z.of_nat (length (slice_bytes s))));
        cbn [andb]; repeat match goal with |- context [if ?c then _ else _] => destruct c end; lia. }
    assert (zlen (join_slices (s :: l)) = 4 + zlen body + zlen (join_slices l)) as Hjoin.
    { unfold join_slices. cbn [fmap list_fmap concat]. unfold zlen. rewrite !length_app. cbn [length]. fold body. lia. }
    rewrite Hbody in *. split; [lia|]. split.
    { intros _. destruct l as [|s' l]; [|by apply Hmax]. unfold join_slices, zlen in Hsz. cbn in Hsz.
      rewrite Hsz. unfold zlen in *. lia. }
    split; [intros ->; done|]. exists (id_is_idr id :: flags). split; [cbn; lia|]. split.
    { rewrite Hidr. cbn. by rewrite orb_assoc. }
    constructor; [|done]. exists id. split; [done|]. split; [done|]. split; [done|]. split; [|done].
    destruct first; [done|]. cbn in Hp. apply negb_false_iff, Z.eqb_eq in Hp. congruence.
Qed.

(** An accepted access unit is exactly its slices.  The output is every
    slice, its own start code replaced by the four-byte one, in order; it fits
    the input limit of the codec session; every slice was parsed, agrees with
    the macroblock address and slice type the caller expected, and refers to
    the one PPS returned; the unit is IDR exactly when some slice is. *)
Theorem access_unit_exact errno0 alloc slices data pps idr :
  advc_h264_build_access_unit errno0 alloc slices = inr (data, pps, idr) ->
  data = join_slices slices /\ 0 < zlen data <= ADVC_MAX_INPUT_BYTES /\ 0 < zlen slices <= ADVC_H264_MAX_SLICES /\
  exists flags, length flags = length slices /\ idr = existsb id flags /\
    Forall2 (slice_checked pps) slices flags.
Proof.
  intros H. unfold advc_h264_build_access_unit in H. destruct (_ || _) eqn:Hn in H; [done|].
  apply orb_false_iff in Hn as [Hn1%Z.eqb_neq Hn2%Z.ltb_ge].
  destruct (check_slices errno0 slices true 0 0 false) as [e|[[size pps'] idr']] eqn:Hc; [done|].
  cbn [mbind res_bind] in H. destruct alloc; [|done]. injection H as <- <- <-.
  assert (slices <> []) as Hne by (by intros ->).
  destruct (check_slices_spec _ _ _ _ _ _ _ _ _ Hc) as (Hs & Hmax & _ & flags & Hfl & Hidr & Hall); [done|].
  specialize (Hmax Hne). split; [done|]. split.
  - split; [|lia]. destruct slices; [done|]. unfold join_slices, zlen. cbn. lia.
  - split; [unfold zlen in *; lia|]. exists flags. split; [done|]. split; [by rewrite Hidr|done].
Qed.

(** ** Codes and NAL units round trip *)

Lemma escape_loop_overflow cap rbsp : forall z out,
  zlen out <= cap -> cap < zlen out + zlen (escape z rbsp) -> escape_loop cap rbsp z out = inl EOVERFLOW.
Proof.
  unfold zlen. induction rbsp as [|b rbsp IH]; intros z out Ho Hc; cbn [escape_loop escape] in *; [cbn in Hc; lia|].
  cbn zeta. unfold emit, zlen. destruct ((2 <=? z) && (b <=? 3)); cbn [length] in Hc.
  - destruct (Z.leb_spec cap (Z.of_nat (length out))); [done|]. cbn [mbind res_bind].
    destruct (Z.leb_spec cap (Z.of_nat (length (out ++ [3])))); [done|]. cbn [mbind res_bind]. rewrite Z.add_0_l.
    apply IH; rewrite !length_app in *; cbn [length] in *; lia.
  - cbn [mbind res_bind]. destruct (Z.leb_spec cap (Z.of_nat (length out))); [done|]. cbn [mbind res_bind].
    apply IH; rewrite !length_app in *; cbn [length] in *; lia.
Qed.

(** C19. Appending a NAL unit is exact and reversible.  A finished parameter set
    is appended as start code, header byte and escaped bytes, or refused with
    [EOVERFLOW] precisely when these do not fit.  The escaped bytes contain no
    start code prefix, and the slice reader, which drops the inserted bytes,
    recovers the original ones up to its 128-byte window. *)
Theorem annexb_nal_exact {wcap} cap out hdr w l :
  @wrep wcap w l -> Z.of_nat (length l) mod 8 = 0 -> zlen out <= cap ->
  exists rbsp,
    bits_of_bytes rbsp = l /\
    append_annexb_nal cap out hdr w =
      (if zlen out + 5 + zlen (escape 0 rbsp) <=? cap
       then inr (out ++ [0; 0; 0; 1; hdr] ++ escape 0 rbsp) else inl EOVERFLOW) /\
    (forall a x b, escape 0 rbsp = a ++ 0 :: 0 :: x :: b -> 3 <= x) /\
    unescape_loop (escape 0 rbsp) 0 [] = take 128 rbsp.
Proof.
  intros Hw Hm Ho. exists (rbsp_bytes w). destruct (rbsp_bytes_spec w l Hw Hm) as (Hb & Hu & _).
  split; [done|]. split; [|split].
  - unfold append_annexb_nal. rewrite (wr_count _ _ Hw), Hm. change (negb (0 =? 0)) with false. cbn iota.
    rewrite <- (wr_count _ _ Hw). fold (rbsp_bytes w).
    assert (zlen (out ++ [0; 0; 0; 1; hdr]) = zlen out + 5) as Hl5.
    { unfold zlen. rewrite length_app. cbn [length]. lia. }
    assert (0 <= zlen (escape 0 (rbsp_bytes w))) as H0 by (unfold zlen; lia).
    destruct (Z.ltb_spec cap (zlen out)); [lia|]. destruct (Z.ltb_spec (cap - zlen out) 5); cbn [orb].
    { destruct (Z.leb_spec (zlen out + 5 + zlen (escape 0 (rbsp_bytes w))) cap); [lia|done]. }
    destruct (Z.leb_spec (zlen out + 5 + zlen (escape 0 (rbsp_bytes w))) cap).
    + rewrite escape_loop_spec by lia. by rewrite <- app_assoc.
    + apply escape_loop_overflow; lia.
  - intros a x b E. by apply (escape_clean (rbsp_bytes w) 0 a x b).
  - apply unescape_spec; [lia|cbn; lia].
Qed.

(** The bits a writer appended can be read back at the position they were
    written to. *)
Lemma written_holds {cap} w l0 l : @wrep cap w (l0 ++ l) ->
  holds (bw_data w) (Z.of_nat (length l0)) l /\ Z.of_nat (length l0) + Z.of_nat (length l) <= 8 * zlen (bw_data w).
Proof.
  intros Hw. pose proof (wr_bits _ _ Hw) as Hb. apply holds_app in Hb as [_ Hb]. split; [exact Hb|].
  pose proof (wr_room _ _ Hw) as Hr. rewrite length_app in Hr. unfold zlen. rewrite (wr_length _ _ Hw). lia.
Qed.

(** Exp-Golomb codes round trip: an unsigned and a signed value written one
    after the other, at any bit position, are read back as they were, and the
    reader ends where the writer did. *)
Theorem exp_golomb_roundtrip {cap} w l u v :
  @wrep cap w l -> 0 <= u < UINT32_MAX -> - INT32_MAX <= v <= INT32_MAX ->
  Z.of_nat (length l) + 126 <= 8 * Z.of_nat cap ->
  exists w1 w2 r,
    put_ue w u = inr w1 /\ put_se w1 v = inr w2 /\
    read_ue (Reader (bw_data w2) (bw_bit_count w)) = inr (u, r) /\
    read_se r = inr (v, Reader (bw_data w2) (bw_bit_count w2)).
Proof.
  intros Hw Hu Hv Hr. pose proof (ue_length_63 u Hu) as Hlu.
  assert (length (se_code v) <= 63)%nat as Hlv.
  { apply ue_length_63. unfold se_num, INT32_MAX, UINT32_MAX in *. destruct (Z.leb_spec v 0); lia. }
  destruct (writes_ue u Hu w l Hw ltac:(lia)) as (w1 & E1 & Hw1).
  destruct (writes_se v Hv w1 _ Hw1) as (w2 & E2 & Hw2); [rewrite length_app; lia|].
  destruct (written_holds w2 _ _ Hw2) as [Hhv Hrv].
  pose proof Hw2 as Hw2'. rewrite <- app_assoc in Hw2'.
  destruct (written_holds w2 _ _ Hw2') as [Hh _]. apply holds_app in Hh as [Hhu _].
  rewrite length_app in Hhv, Hrv. exists w1, w2. eexists. split; [done|]. split; [done|].
  rewrite (wr_count _ _ Hw), (wr_count _ _ Hw2), !length_app. split.
  - apply read_ue_spec; [done|exact Hhu|lia|lia].
  - rewrite <- Nat2Z.inj_add. rewrite (read_se_spec _ _ v Hv Hhv) by lia. do 3 f_equal. lia.
Qed.

(** ** The override flag *)

(** slice_header of the supported subset up to num_ref_idx_active_override_flag:
    [a], [t], [p] the first three codes, [fn] frame_num, [ip] idr_pic_id, [lsb]
    pic_order_cnt_lsb, [dp] delta_pic_order_cnt_bottom, [rp] redundant_pic_cnt,
    [dir] direct_spatial_mv_pred_flag. *)
Definition header_bits (ps : advc_h264_parameter_input) (idr : bool) (a t p fn ip lsb dp rp : Z)
  (dir : bool) : list bool :=
  ue_code a ++ ue_code t ++ ue_code p ++
  digits fn (Z.to_nat (log2_max_frame_num_minus4 ps + 4)) ++
  (if idr then ue_code ip else []) ++
  (if pic_order_cnt_type ps =? 0 then
     digits lsb (Z.to_nat (log2_max_pic_order_cnt_lsb_minus4 ps + 4)) ++
     (if bottom_field_pic_order_in_frame_present_flag ps =? 0 then [] else se_code dp)
   else []) ++
  (if redundant_pic_cnt_present_flag ps =? 0 then [] else ue_code rp) ++
  (if t mod 5 =? 1 then [dir] else []).

(** A read step on the reader's copy: the list read is consumed. *)
Definition reads {A} (p : list Z) (f : bit_reader -> Z + (A * bit_reader)) (l : list bool) (v : A) : Prop :=
  forall off, holds p off l -> 0 <= off -> off + Z.of_nat (length l) <= 8 * zlen p ->
  f (Reader p off) = inr (v, Reader p (off + Z.of_nat (length l))).

Lemma reads_ue p v : 0 <= v < UINT32_MAX -> reads p read_ue (ue_code v) v.
Proof. intros Hv off Hh Ho Hl. by apply read_ue_spec. Qed.
Lemma reads_se p v : - INT32_MAX <= v <= INT32_MAX -> reads p read_se (se_code v) v.
Proof. intros Hv off Hh Ho Hl. by apply read_se_spec. Qed.
Lemma reads_bits p v n : 0 <= n <= 32 ->
  reads p (fun r => read_bits r n) (digits v (Z.to_nat n)) (v mod 2 ^ n).
Proof.
  intros Hn off Hh Ho Hl. rewrite digits_length in *. unfold read_bits. destruct (Z.ltb_spec 32 n); [lia|].
  rewrite (read_loop_spec p v) by (try done; try lia; rewrite Z2Nat.id, Z.mul_1_l by lia; apply Z.pow_le_mono_r; lia).
  rewrite Z2Nat.id by lia. done.
Qed.
Lemma reads_bit p b : reads p read_bit [b] (Z.b2z b).
Proof.
  intros off Hh Ho Hl. apply holds_cons in Hh as [Hb _]. cbn [length] in *. rewrite read_bit_spec by lia. by rewrite Hb.
Qed.

(** A step that only moves the reader. *)
Definition skips (p : list Z) (g : bit_reader -> Z + bit_reader) (l : list bool) : Prop :=
  forall off, holds p off l -> 0 <= off -> off + Z.of_nat (length l) <= 8 * zlen p ->
  g (Reader p off) = inr (Reader p (off + Z.of_nat (length l))).

Lemma skips_nil p : skips p inr [].
Proof. intros off _ _ _. cbn. do 2 f_equal. lia. Qed.
Lemma skips_reads {A} p (f : bit_reader -> Z + (A * bit_reader)) l v :
  reads p f l v -> skips p (fun r => '(_, r) ← f r; inr r) l.
Proof. intros Hf off Hh Ho Hl. cbn. by rewrite Hf. Qed.
Lemma skips_bind p f g l1 l2 : skips p f l1 -> skips p g l2 -> skips p (fun r => f r ≫= g) (l1 ++ l2).
Proof.
  intros Hf Hg off Hh Ho Hl. apply holds_app in Hh as [H1 H2]. rewrite length_app in Hl.
  rewrite Hf by (try done; lia). cbn [mbind res_bind]. rewrite Hg by (try done; lia).
  rewrite length_app. do 2 f_equal. lia.
Qed.
Lemma skips_reads_bind {A} p (f : bit_reader -> Z + (A * bit_reader)) g l1 l2 v :
  reads p f l1 v -> skips p g l2 -> skips p (fun r => '(_, r) ← f r; g r) (l1 ++ l2).
Proof.
  intros Hf Hg off Hh Ho Hl. apply holds_app in Hh as [H1 H2]. rewrite length_app in Hl.
  rewrite Hf by (try done; lia). cbn [mbind res_bind]. rewrite Hg by (try done; lia).
  rewrite length_app. do 2 f_equal. lia.
Qed.

Lemma skip_fields_spec p ps idr t fn ip lsb dp rp dir :
  0 <= log2_max_frame_num_minus4 ps <= 12 -> 0 <= log2_max_pic_order_cnt_lsb_minus4 ps <= 12 ->
  0 <= ip < UINT32_MAX -> 0 <= rp < UINT32_MAX -> - INT32_MAX <= dp <= INT32_MAX ->
  skips p (skip_fields ps idr (t mod 5))
    (digits fn (Z.to_nat (log2_max_frame_num_minus4 ps + 4)) ++ (if idr then ue_code ip else []) ++
     (if pic_order_cnt_type ps =? 0 then
        digits lsb (Z.to_nat (log2_max_pic_order_cnt_lsb_minus4 ps + 4)) ++
        (if bottom_field_pic_order_in_frame_present_flag ps =? 0 then [] else se_code dp)
      else []) ++
     (if redundant_pic_cnt_present_flag ps =? 0 then [] else ue_code rp) ++
     (if t mod 5 =? 1 then [dir] else [])).
Proof.
  intros Hf Hl Hip Hrp Hdp. unfold skip_fields.
  apply (skips_reads_bind _ (fun r => read_bits r _) _ _ _ _ (reads_bits p fn (log2_max_frame_num_minus4 ps + 4) ltac:(lia))).
  apply skips_bind.
  { destruct idr; [by apply (skips_reads _ _ _ ip), reads_ue|apply skips_nil]. }
  apply skips_bind.
  { destruct (pic_order_cnt_type ps =? 0); [|apply skips_nil].
    apply (skips_reads_bind _ (fun r => read_bits r _) _ _ _ _ (reads_bits p lsb (log2_max_pic_order_cnt_lsb_minus4 ps + 4) ltac:(lia))).
    destruct (_ =? 0); cbn [negb]; [apply skips_nil|by apply (skips_reads _ _ _ dp), reads_se]. }
  apply skips_bind.
  { destruct (_ =? 0); cbn [negb]; [apply skips_nil|by apply (skips_reads _ _ _ rp), reads_ue]. }
  destruct (_ =? 1); [apply (skips_reads _ _ _ (Z.b2z dir)), reads_bit|apply skips_nil].
Qed.

Definition has_ref_lists (t : Z) : bool := (t mod 5 =? 0) || (t mod 5 =? 1) || (t mod 5 =? 3).

Lemma header_bits_length ps idr a t p fn ip lsb dp rp dir :
  0 <= a < UINT32_MAX -> 0 <= t < UINT32_MAX -> 0 <= p < UINT32_MAX ->
  0 <= ip < UINT32_MAX -> 0 <= rp < UINT32_MAX -> - INT32_MAX <= dp <= INT32_MAX ->
  0 <= log2_max_frame_num_minus4 ps <= 12 -> 0 <= log2_max_pic_order_cnt_lsb_minus4 ps <= 12 ->
  (length (header_bits ps idr a t p fn ip lsb dp rp dir) <= 500)%nat.
Proof.
  intros Ha Ht Hp Hip Hrp Hdp Hf Hl. unfold header_bits. rewrite !length_app, digits_length.
  pose proof (ue_length_63 a Ha). pose proof (ue_length_63 t Ht). pose proof (ue_length_63 p Hp).
  pose proof (ue_length_63 ip Hip). pose proof (ue_length_63 rp Hrp).
  assert (length (se_code dp) <= 63)%nat.
  { apply ue_length_63. unfold se_num, INT32_MAX, UINT32_MAX in *. destruct (Z.leb_spec dp 0); lia. }
  destruct idr, (pic_order_cnt_type ps =? 0), (bottom_field_pic_order_in_frame_present_flag ps =? 0),
    (redundant_pic_cnt_present_flag ps =? 0), (t mod 5 =? 1); rewrite ?length_app, ?digits_length; cbn [length]; lia.
Qed.

(** The override flag is found where the slice syntax puts it.  For every
    slice header of the supported subset, whatever its frame number, picture
    order count and optional fields: the parser reports whether the slice uses
    reference lists and, if it does, the value of
    num_ref_idx_active_override_flag. *)
Theorem reference_override_exact sc hdr rbsp ps a t p fn ip lsb dp rp dir flag rest :
  start_code sc -> slice_nal hdr -> override_unsupported ps = false ->
  0 <= log2_max_frame_num_minus4 ps -> 0 <= log2_max_pic_order_cnt_lsb_minus4 ps ->
  0 <= a < UINT32_MAX -> 0 <= t <= 9 -> 0 <= p < UINT32_MAX ->
  0 <= ip < UINT32_MAX -> 0 <= rp < UINT32_MAX -> - INT32_MAX <= dp <= INT32_MAX ->
  bits_of_bytes rbsp =
    header_bits ps (Z.land hdr 0x1f =? 5) a t p fn ip lsb dp rp dir ++
    (if has_ref_lists t then [flag] else []) ++ rest ->
  advc_h264_parse_reference_override (sc ++ hdr :: escape 0 rbsp) ps =
    inr (if has_ref_lists t then Override true (t mod 5 =? 1) (Z.b2z flag) else Override false false 0).
Proof.
  intros Hsc Hn Hun Hf0 Hl0 Ha Ht Hp Hip Hrp Hdp Hbits.
  assert (log2_max_frame_num_minus4 ps <= 12 /\ log2_max_pic_order_cnt_lsb_minus4 ps <= 12) as [Hf Hl].
  { unfold override_unsupported in Hun. rewrite !orb_false_iff in Hun. destruct_and! Hun. lia. }
  assert (0 <= t < UINT32_MAX) as Ht' by (unfold UINT32_MAX; lia).
  set (idr := Z.land hdr 31 =? 5) in *. rewrite app_assoc in Hbits.
  pose proof (header_bits_length ps idr a t p fn ip lsb dp rp dir Ha Ht' Hp Hip Hrp Hdp ltac:(lia) ltac:(lia)) as Hlen.
  set (fl := if has_ref_lists t then [flag] else []) in *.
  assert (length fl <= 1)%nat as Hfl by (unfold fl; destruct (has_ref_lists t); cbn; lia).
  destruct (holds_reader rbsp _ _ Hbits) as [Hh Hroom]; [rewrite length_app; lia|].
  assert (rbsp <> []) as Hne.
  { intros ->. pose proof (ue_code_length a ltac:(lia)). pose proof (log2_u32 a Ha).
    apply (f_equal length) in Hbits. rewrite bits_of_bytes_length, !length_app in Hbits. unfold header_bits in Hbits.
    rewrite length_app in Hbits. cbn [length] in Hbits. lia. }
  clear Hbits. pose proof (skip_fields_spec (take 128 rbsp) ps idr t fn ip lsb dp rp dir
    ltac:(lia) ltac:(lia) Hip Hrp Hdp) as Hskip.
  unfold header_bits in Hh, Hroom.
  match type of Hskip with skips _ _ ?s => set (seg := s) in *; clearbody seg end.
  rewrite <- !app_assoc in Hh. rewrite !length_app in Hroom.
  apply holds_app in Hh as [Hha Hh]. apply holds_app in Hh as [Hht Hh]. apply holds_app in Hh as [Hhp Hh].
  apply holds_app in Hh as [Hhs Hhf].
  unfold advc_h264_parse_reference_override. rewrite Hun, init_reader_spec by done. cbn [mbind res_bind].
  rewrite (read_ue_spec _ 0 a) by (try done; lia). cbn [mbind res_bind].
  rewrite (read_ue_spec _ _ t) by (try done; lia). cbn [mbind res_bind].
  rewrite (read_ue_spec _ _ p) by (try done; lia). cbn [mbind res_bind].
  destruct (Z.ltb_spec 9 t); [lia|]. cbn zeta. fold idr. rewrite (Hskip _ Hhs) by lia.
  cbn [mbind res_bind]. fold (has_ref_lists t). unfold fl in *. destruct (has_ref_lists t); [|done].
  cbn [length] in Hroom. rewrite (reads_bit _ flag _ Hhf) by (cbn [length]; lia).
  cbn [mbind res_bind]. by destruct flag.
Qed.

(** ** Instances *)

(** 1920x1080 Main profile with four bits of frame_num and POC type 2. *)
Definition hd_params : advc_h264_parameter_input :=
  Params 77 1920 1080 119 67 0 0 1 0 0 1 0 1 0 2 0 0 2 1 0 4 0 0 0 0 1 0 0 0 0 0 0 1 0 0 0.

Lemma hd_typed : params_typed hd_params.
Proof. constructor; cbn; first [wsolve | unfold is_i8; lia]. Qed.

Lemma parse_identity_exact_witness :
  advc_h264_parse_slice_identity (Some [0; 0; 1; 0x65; 136; 128]) = inr (Identity 0 7 0 true).
Proof.
  apply (parse_identity_exact [0; 0; 1] 0x65 [136; 128] 0 7 0 (replicate 7 false)).
  - right. left. reflexivity.
  - split; [wsolve|]. split; [reflexivity|]. right. reflexivity.
  - wsolve.
  - wsolve.
  - wsolve.
  - vm_compute. reflexivity.
Defined.

Lemma codec_config_exact_witness :
  exists sps pps,
    advc_h264_build_codec_config 0 hd_params 3 =
      inr (CodecConfig ([0; 0; 0; 1; 0x67] ++ escape 0 sps ++ [0; 0; 0; 1; 0x68] ++ escape 0 pps) 3) /\
    coded_height hd_params - 2 * crop_bottom hd_params = 1080.
Proof.
  destruct (codec_config_exact 0 hd_params 3) as (sps & pps & H & _ & _ & _ & Hh).
  - apply hd_typed.
  - lia.
  - vm_compute. reflexivity.
  - exists sps, pps. split; [exact H|exact Hh].
Defined.

Definition sample_slices : list advc_h264_slice_input :=
  [SliceInput (Some [0; 0; 1; 0x65; 136; 128]) 0 2; SliceInput (Some [0; 0; 0; 1; 0x65; 136; 128]) 0 7].

Lemma access_unit_exact_witness :
  zlen (join_slices sample_slices) = 14 /\ zlen (join_slices sample_slices) <= ADVC_MAX_INPUT_BYTES.
Proof.
  split; [reflexivity|].
  apply (access_unit_exact 0 true sample_slices (join_slices sample_slices) 0 true).
  vm_compute. reflexivity.
Defined.

Lemma annexb_nal_exact_witness :
  exists w rbsp, put_bits new_writer 3 8 = inr w /\ bits_of_bytes rbsp = digits 3 8 /\
    append_annexb_nal 1024 [] 0x67 w =
      (if 5 + zlen (escape 0 rbsp) <=? 1024 then inr ([0; 0; 0; 1; 0x67] ++ escape 0 rbsp) else inl EOVERFLOW).
Proof.
  destruct (writes_bits 3 8 ltac:(lia) new_writer [] new_writer_rep) as (w & E & Hw); [vm_compute; discriminate|].
  destruct (annexb_nal_exact (wcap := 1024) 1024 [] 0x67 w (digits 3 8)) as (rbsp & Hb & Ha & _).
  - exact Hw.
  - reflexivity.
  - vm_compute. discriminate.
  - exists w, rbsp. split; [exact E|]. split; [exact Hb|exact Ha].
Defined.

Lemma exp_golomb_roundtrip_witness :
  exists w1 w2 r, put_ue new_writer 5 = inr w1 /\ put_se w1 (-3) = inr w2 /\
    read_ue (Reader (bw_data w2) 0) = inr (5, r) /\ read_se r = inr (-3, Reader (bw_data w2) (bw_bit_count w2)).
Proof.
  apply (exp_golomb_roundtrip (cap := 1024) new_writer [] 5 (-3)).
  - apply new_writer_rep.
  - wsolve.
  - unfold INT32_MAX. lia.
  - cbn. lia.
Defined.

Lemma reference_override_exact_witness :
  advc_h264_parse_reference_override [0x41; 0x9a; 0x30] hd_params = inr (Override true false 1).
Proof.
  apply (reference_override_exact [] 0x41 [0x9a; 0x30] hd_params 0 5 0 1 0 0 0 0 false true (replicate 4 false)).
  - left. reflexivity.
  - split; [wsolve|]. split; [reflexivity|]. left. reflexivity.
  - reflexivity.
  - cbn. lia.
  - cbn. lia.
  - wsolve.
  - lia.
  - wsolve.
  - wsolve.
  - wsolve.
  - unfold INT32_MAX. lia.
  - vm_compute. reflexivity.
Defined.
