(* ===== verification/DrmBlob.v ===== *)
(** * The IN_FORMATS blob rewrite (src/src/bridge/android_drm_blob.c)

    The DRM bridge adds one entry to a plane's IN_FORMATS blob: XB24 with the
    QCOM compressed modifier.  A blob is a byte string in the layout of
    drm_mode.h: a 24-byte header, the format array, the array of 24-byte
    modifier records, little-endian.  [alloc_ok] is whether [malloc] succeeds;
    [None] is the return of 0 with both outputs cleared. *)

From stdpp Require Import base list.
From Stdlib Require Import ZArith Lia Bool.
From S2P Require Import Prelude Kernel Protocol.

Definition DRM_FORMAT_XBGR8888 : Z := 0x34324258.
Definition DRM_FORMAT_MOD_LINEAR : Z := 0.
Definition DRM_FORMAT_MOD_QCOM_COMPRESSED : Z := Z.lor (Z.shiftl 5 56) 1.

Record drm_format_modifier_blob := BlobHeader {
  bh_version : Z; bh_flags : Z; bh_count_formats : Z; bh_formats_offset : Z;
  bh_count_modifiers : Z; bh_modifiers_offset : Z }.
Record drm_format_modifier := FormatModifier { fm_formats : Z; fm_offset : Z; fm_modifier : Z }.

Definition read_blob_header (p : list Z) : drm_format_modifier_blob :=
  BlobHeader (advc_get_u32 p 0) (advc_get_u32 p 4) (advc_get_u32 p 8) (advc_get_u32 p 12)
    (advc_get_u32 p 16) (advc_get_u32 p 20).
Definition format_at (p : list Z) (h : drm_format_modifier_blob) (i : Z) : Z :=
  advc_get_u32 p (bh_formats_offset h + 4 * i).
Definition modifier_at (p : list Z) (h : drm_format_modifier_blob) (i : Z) : drm_format_modifier :=
  let off := bh_modifiers_offset h + 24 * i in
  FormatModifier (advc_get_u64 p off) (advc_get_u32 p (off + 8)) (advc_get_u64 p (off + 16)).

(** The end of the region, or [None]. *)
Definition checked_region (offset count element_size length_ : Z) : option Z :=
  if negb (element_size =? 0) && (SIZE_MAX / element_size <? count) then None
  else
    let bytes := u64 (count * element_size) in
    if (length_ <? offset) || (length_ - offset <? bytes) then None else Some (u64 (offset + bytes)).

Definition modifier_covers_format (entry : drm_format_modifier) (format_index : Z) : bool :=
  if format_index <? fm_offset entry then false
  else
    let relative := format_index - fm_offset entry in
    (relative <? 64) && negb (Z.land (fm_formats entry) (u64 (Z.shiftl 1 relative)) =? 0).

(** The structural checks. *)
Definition blob_layout_ok (p : list Z) : bool :=
  (24 <=? zlen p) &&
  let h := read_blob_header p in
  negb (negb (bh_version h =? 1) || negb (bh_flags h =? 0) || (bh_count_formats h =? 0) ||
        (bh_count_modifiers h =? UINT32_MAX) || negb (bh_formats_offset h mod 4 =? 0) ||
        negb (bh_modifiers_offset h mod 8 =? 0)) &&
  match checked_region (bh_formats_offset h) (bh_count_formats h) 4 (zlen p),
        checked_region (bh_modifiers_offset h) (bh_count_modifiers h) 24 (zlen p) with
  | Some formats_end, Some modifiers_end =>
      negb ((bh_formats_offset h <? 24) || (bh_modifiers_offset h <? formats_end) ||
            negb (modifiers_end =? zlen p))
  | _, _ => false
  end.

(** The format loop: last index holding XB24 and how many there are. *)
Definition find_target (p : list Z) (h : drm_format_modifier_blob) : Z * Z :=
  foldl (fun acc i => if format_at p h i =? DRM_FORMAT_XBGR8888 then (i, snd acc + 1) else acc)
    (0, 0) (seqZ 0 (bh_count_formats h)).

(** An entry that names formats outside the array. *)
Definition entry_bad (h : drm_format_modifier_blob) (e : drm_format_modifier) : bool :=
  (bh_count_formats h <=? fm_offset e) ||
  ((bh_count_formats h - fm_offset e <? 64) &&
   (let valid_count := bh_count_formats h - fm_offset e in
    let mask := u64 (u64 (Z.shiftl 1 valid_count) - 1) in
    negb (Z.land (fm_formats e) (Z.lxor UINT64_MAX mask) =? 0))).

(** The modifier loop: [None] on a bad entry, else whether LINEAR and QCOM cover
    the target. *)
Fixpoint scan_modifiers (h : drm_format_modifier_blob) (target : Z) (l : list drm_format_modifier)
  (has_linear has_qcom : bool) : option (bool * bool) :=
  match l with
  | [] => Some (has_linear, has_qcom)
  | e :: l =>
      if entry_bad h e then None
      else if negb (modifier_covers_format e target) then scan_modifiers h target l has_linear has_qcom
      else if fm_modifier e =? DRM_FORMAT_MOD_LINEAR then scan_modifiers h target l true has_qcom
      else if fm_modifier e =? DRM_FORMAT_MOD_QCOM_COMPRESSED then scan_modifiers h target l has_linear true
      else scan_modifiers h target l has_linear has_qcom
  end.

Definition modifiers_of (p : list Z) (h : drm_format_modifier_blob) : list drm_format_modifier :=
  modifier_at p h <$> seqZ 0 (bh_count_modifiers h).

(** [target_index & ~63] *)
Definition block_of (target : Z) : Z := Z.land target (Z.lxor UINT32_MAX 63).

Definition new_entry (target : Z) : drm_format_modifier :=
  FormatModifier (u64 (Z.shiftl 1 (u32 (target - block_of target)))) (block_of target)
    DRM_FORMAT_MOD_QCOM_COMPRESSED.

(** [memset] and the three stores at offset [off]. *)
Definition write_entry (p : list Z) (off : Z) (e : drm_format_modifier) : list Z :=
  advc_put_u64 (advc_put_u32 (advc_put_u64 p off (fm_formats e)) (off + 8) (fm_offset e))
    (off + 16) (fm_modifier e).

Definition android_drm_blob_append_xb24_qcom (alloc_ok : bool) (source : option (list Z))
  : option (list Z) :=
  match source with
  | None => None
  | Some p =>
      if negb (blob_layout_ok p) then None
      else
        let h := read_blob_header p in
        let '(target_index, target_count) := find_target p h in
        if negb (target_count =? 1) then None
        else match scan_modifiers h target_index (modifiers_of p h) false false with
             | None => None
             | Some (has_linear, has_qcom) =>
                 if negb has_linear || has_qcom || (SIZE_MAX - 24 <? zlen p) then None
                 else if negb alloc_ok then None
                 else
                   let data := p ++ replicate 24 0 in
                   let data := advc_put_u32 data 16 (u32 (bh_count_modifiers h + 1)) in
                   Some (write_entry data (zlen p) (new_entry target_index))
             end
  end.

(** ** What a blob says *)

(** Format number [i] may be scanned out with [modifier]. *)
Definition supports (p : list Z) (i modifier : Z) : Prop :=
  exists e, e ∈ modifiers_of p (read_blob_header p) /\
    modifier_covers_format e i = true /\ fm_modifier e = modifier.

(** *** Bytes *)

Definition same_bytes (p q : list Z) (off n : Z) : Prop :=
  forall i, off <= i < off + n -> byte_at p i = byte_at q i.

Lemma get_u32_same p q off : same_bytes p q off 4 -> advc_get_u32 p off = advc_get_u32 q off.
Proof. intros H. unfold advc_get_u32. rewrite !H by lia. done. Qed.
Lemma get_u64_same p q off : same_bytes p q off 8 -> advc_get_u64 p off = advc_get_u64 q off.
Proof.
  intros H. unfold advc_get_u64. rewrite (get_u32_same p q off), (get_u32_same p q (off + 4)); [done|..];
    intros i Hi; apply H; lia.
Qed.

Lemma byte_at_app_l p r i : 0 <= i < zlen p -> byte_at (p ++ r) i = byte_at p i.
Proof. intros Hi. unfold byte_at, zlen in *. by rewrite lookup_app_l by lia. Qed.

(** *** The block of 64 formats *)

Lemma block_of_spec t : is_u32 t -> block_of t = t - t mod 64.
Proof.
  intros Ht. unfold block_of. assert (Z.land t (Z.lxor UINT32_MAX 63) = Z.ldiff t (Z.ones 6)) as ->.
  { apply Z.bits_inj'. intros n Hn. rewrite Z.land_spec, Z.ldiff_spec, Z.lxor_spec.
    change UINT32_MAX with (Z.ones 32). change 63 with (Z.ones 6). rewrite !Z.testbit_ones_nonneg by lia.
    destruct (Z.ltb_spec n 32), (Z.ltb_spec n 6); cbn; try done; try lia.
    rewrite andb_false_r. destruct (Z.eq_dec t 0) as [->|]; [by rewrite Z.bits_0|].
    rewrite Z.bits_above_log2; [done|unfold is_u32 in Ht; lia|]. apply Z.log2_lt_pow2; unfold is_u32 in Ht; [lia|].
    eapply Z.lt_le_trans; [apply Ht|]. apply Z.pow_le_mono_r; lia. }
  rewrite Z.ldiff_ones_r, Z.shiftl_mul_pow2, Z.shiftr_div_pow2 by lia. change (2 ^ 6) with 64.
  pose proof (Z.div_mod t 64). lia.
Qed.

Lemma new_entry_covers t i : is_u32 t -> 0 <= i -> modifier_covers_format (new_entry t) i = (i =? t).
Proof.
  intros Ht Hi. unfold modifier_covers_format, new_entry. cbn [fm_formats fm_offset].
  rewrite block_of_spec by done. pose proof (Z.mod_pos_bound t 64) as Hm. unfold is_u32 in Ht.
  assert (u32 (t - (t - t mod 64)) = t mod 64) as -> by (rewrite u32_id; [lia|unfold is_u32; lia]).
  assert (forall k, 0 <= k < 64 -> u64 (Z.shiftl 1 k) = Z.shiftl 1 k) as Hsh.
  { intros k Hk. rewrite Z.shiftl_1_l. apply u64_id. unfold is_u64. split; [apply Z.pow_nonneg; lia|].
    apply Z.pow_lt_mono_r; lia. }
  destruct (Z.ltb_spec i (t - t mod 64)); [destruct (Z.eqb_spec i t); lia|].
  destruct (Z.ltb_spec (i - (t - t mod 64)) 64); cbn [andb]; [|destruct (Z.eqb_spec i t); lia].
  rewrite !Hsh, land_pow2_testbit, negb_involutive by lia. rewrite Z.shiftl_1_l, Z.pow2_bits_eqb by lia.
  destruct (Z.eqb_spec (t mod 64) (i - (t - t mod 64))), (Z.eqb_spec i t); lia.
Qed.

(** *** The format loop *)

Lemma find_target_fold (f : Z -> bool) l : forall t0 c0, NoDup l ->
  let x := foldl (fun acc i => if f i then (i, snd acc + 1) else acc) (t0, c0) l in
  c0 <= snd x /\ (snd x = c0 -> fst x = t0 /\ forall i, i ∈ l -> f i = false) /\
  (snd x = c0 + 1 -> fst x ∈ l /\ f (fst x) = true /\ forall i, i ∈ l -> f i = true -> i = fst x).
Proof.
  induction l as [|a l IH]; intros t0 c0 Hnd; cbn [foldl].
  - cbn. split; [lia|]. split; [|lia]. intros _. split; [done|]. intros i Hi. by apply not_elem_of_nil in Hi.
  - apply NoDup_cons in Hnd as [Ha Hnd]. destruct (f a) eqn:Hf; cbn [snd].
    + destruct (IH a (c0 + 1) Hnd) as (H1 & H2 & H3). cbn zeta. split; [lia|]. split; [lia|].
      intros E. destruct (H2 E) as [-> Hno]. split; [by left|]. split; [done|].
      intros i [->|Hi]%elem_of_cons Hfi; [done|]. rewrite Hno in Hfi by done. done.
    + destruct (IH t0 c0 Hnd) as (H1 & H2 & H3). cbn zeta. split; [done|]. split.
      * intros E. destruct (H2 E) as [-> Hno]. split; [done|]. intros i [->|Hi]%elem_of_cons; [done|by apply Hno].
      * intros E. destruct (H3 E) as (Hin & Hft & Hu). split; [by right|]. split; [done|].
        intros i [->|Hi]%elem_of_cons Hfi; [congruence|by apply Hu].
Qed.

Lemma find_target_spec p h t : find_target p h = (t, 1) ->
  0 <= t < bh_count_formats h /\ format_at p h t = DRM_FORMAT_XBGR8888 /\
  forall i, 0 <= i < bh_count_formats h -> format_at p h i = DRM_FORMAT_XBGR8888 -> i = t.
Proof.
  intros E. unfold find_target in E.
  destruct (find_target_fold (fun i => format_at p h i =? DRM_FORMAT_XBGR8888) (seqZ 0 (bh_count_formats h)) 0 0)
    as (_ & _ & H); [apply NoDup_seqZ|].
  rewrite E in H. cbn in H. destruct (H eq_refl) as (Hin & Hf & Hu).
  apply elem_of_seqZ in Hin. apply Z.eqb_eq in Hf. split; [lia|]. split; [done|].
  intros i Hi Hfi. apply Hu; [apply elem_of_seqZ; lia|by apply Z.eqb_eq].
Qed.

(** *** The modifier loop *)

Lemma scan_modifiers_spec h t l : forall a b a' b', scan_modifiers h t l a b = Some (a', b') ->
  b' = b || existsb (fun e => modifier_covers_format e t && (fm_modifier e =? DRM_FORMAT_MOD_QCOM_COMPRESSED)) l /\
  a' = a || existsb (fun e => modifier_covers_format e t && (fm_modifier e =? DRM_FORMAT_MOD_LINEAR)) l.
Proof.
  induction l as [|e l IH]; intros a b a' b' H; cbn [scan_modifiers existsb] in *.
  - injection H as <- <-. by rewrite !orb_false_r.
  - destruct (entry_bad h e); [done|]. destruct (modifier_covers_format e t); cbn [negb andb orb] in *; [|by apply IH].
    destruct (Z.eqb_spec (fm_modifier e) DRM_FORMAT_MOD_LINEAR) as [->|].
    + apply IH in H as [-> ->]. change (DRM_FORMAT_MOD_LINEAR =? DRM_FORMAT_MOD_QCOM_COMPRESSED) with false.
      cbn. by rewrite orb_true_r.
    + destruct (_ =? DRM_FORMAT_MOD_QCOM_COMPRESSED); apply IH in H as [-> ->]; cbn; by rewrite ?orb_true_r.
Qed.

(** ** The rewritten blob *)

Definition rewritten (p : list Z) (t : Z) : list Z :=
  write_entry (advc_put_u32 (p ++ replicate 24 0) 16 (u32 (bh_count_modifiers (read_blob_header p) + 1)))
    (zlen p) (new_entry t).

(** The layout checks as facts, for blobs of less than 4 GiB. *)
Record blob_layout (p : list Z) (h : drm_format_modifier_blob) : Prop := {
  bl_header : h = read_blob_header p;
  bl_version : bh_version h = 1;
  bl_flags : bh_flags h = 0;
  bl_formats : 0 < bh_count_formats h < 2 ^ 32;
  bl_modifiers : 0 <= bh_count_modifiers h < UINT32_MAX;
  bl_aligned : bh_formats_offset h mod 4 = 0 /\ bh_modifiers_offset h mod 8 = 0;
  bl_order : 24 <= bh_formats_offset h /\
    bh_formats_offset h + 4 * bh_count_formats h <= bh_modifiers_offset h /\
    bh_modifiers_offset h + 24 * bh_count_modifiers h = zlen p;
}.

Lemma checked_region_spec off count es len : 0 <= off -> 0 <= count < 2 ^ 32 -> 0 < es <= 24 -> len < 2 ^ 33 ->
  checked_region off count es len =
    if (off <=? len) && (off + es * count <=? len) then Some (off + es * count) else None.
Proof.
  intros Ho Hc He Hl. unfold checked_region. unfold SIZE_MAX.
  assert ((SIZE_MAX / es <? count) = false) as Hd.
  { apply Z.ltb_ge. apply Z.div_le_lower_bound; unfold SIZE_MAX; [lia|]. wunfold. nia. }
  unfold SIZE_MAX in Hd. rewrite Hd, andb_false_r. cbn zeta. rewrite u64_id by (wunfold; nia).
  destruct (Z.ltb_spec len off), (Z.leb_spec off len); try lia; cbn [orb andb]; [done|].
  destruct (Z.ltb_spec (len - off) (count * es)), (Z.leb_spec (off + es * count) len); try nia; [done|].
  rewrite u64_id by (wunfold; nia). f_equal. lia.
Qed.

Lemma blob_layout_iff p : zlen p < 2 ^ 33 ->
  blob_layout_ok p = true <-> 24 <= zlen p /\ blob_layout p (read_blob_header p).
Proof.
  intros Hl. unfold blob_layout_ok. cbn zeta. set (h := read_blob_header p).
  assert (is_u32 (bh_count_formats h) /\ is_u32 (bh_formats_offset h) /\ is_u32 (bh_count_modifiers h) /\
    is_u32 (bh_modifiers_offset h)) as (H1 & H2 & H3 & H4) by (unfold h; cbn; auto using get_u32_range).
  unfold is_u32 in *. rewrite !checked_region_spec by lia.
  split.
  - intros H. apply andb_true_iff in H as [Hlen H]. apply andb_true_iff in H as [Hh Hr].
    apply negb_true_iff in Hh. rewrite !orb_false_iff, !negb_false_iff in Hh. destruct_and! Hh.
    destruct (_ && _) eqn:E1 in Hr; [|done]. destruct (_ && _) eqn:E2 in Hr; [|done].
    apply andb_true_iff in E1 as [E1 E1']. apply andb_true_iff in E2 as [E2 E2'].
    apply negb_true_iff in Hr. rewrite !orb_false_iff, negb_false_iff in Hr. destruct_and! Hr.
    unfold UINT32_MAX in *. split; [lia|]. constructor; unfold UINT32_MAX; try done; try lia.
  - intros [Hlen [_ ? ? ? ? [? ?] (? & ? & ?)]]. unfold UINT32_MAX in *.
    assert (forall b, b = false -> negb b = true) as Hn by (by intros b ->).
    destruct (Z.leb_spec (bh_formats_offset h) (zlen p)); [|lia].
    destruct (Z.leb_spec (bh_formats_offset h + 4 * bh_count_formats h) (zlen p)); [|lia].
    destruct (Z.leb_spec (bh_modifiers_offset h) (zlen p)); [|lia].
    destruct (Z.leb_spec (bh_modifiers_offset h + 24 * bh_count_modifiers h) (zlen p)); [|lia].
    cbn [andb]. rewrite !andb_true_iff. split; [lia|]. split; apply Hn.
    + rewrite !orb_false_iff, !negb_false_iff. unfold UINT32_MAX. lia.
    + rewrite !orb_false_iff, !negb_false_iff. lia.
Qed.

Section Rewrite.
Context (p : list Z) (t : Z).
#[local] Notation h := (read_blob_header p).
#[local] Notation q := (rewritten p t).
Context (Hb : blob_layout p h) (Hsmall : zlen p < 2 ^ 32) (Ht : is_u32 t).

Lemma rewritten_length : zlen q = zlen p + 24.
Proof.
  unfold rewritten, write_entry. rewrite !zlen_put_u64, !zlen_put_u32, !zlen_put_u64, !zlen_put_u32.
  unfold zlen. rewrite length_app, length_replicate. lia.
Qed.

Lemma rewritten_bytes i : 0 <= i < zlen p -> i < 16 \/ 20 <= i -> byte_at q i = byte_at p i.
Proof.
  intros Hi Ho. unfold rewritten, write_entry.
  rewrite byte_put_u64_out, byte_put_u32_out, byte_put_u64_out, byte_put_u32_out by lia. by apply byte_at_app_l.
Qed.

Lemma rewritten_header : read_blob_header q =
  BlobHeader (bh_version h) (bh_flags h) (bh_count_formats h) (bh_formats_offset h)
    (bh_count_modifiers h + 1) (bh_modifiers_offset h).
Proof.
  destruct Hb as [_ _ _ Hcf Hm _ (Ho1 & Ho2 & Ho3)].
  assert (24 <= zlen p) as Hlen by (pose proof (bl_formats _ _ Hb); lia).
  unfold read_blob_header at 1.
  rewrite (get_u32_same q p 0), (get_u32_same q p 4), (get_u32_same q p 8), (get_u32_same q p 12), (get_u32_same q p 20)
    by (intros i Hi; apply rewritten_bytes; lia).
  assert (advc_get_u32 q 16 = bh_count_modifiers h + 1) as ->; [|done].
  unfold rewritten, write_entry.
  rewrite get_u32_put_u64_ne, get_u32_put_u32_ne, get_u32_put_u64_ne, get_put_u32
    by (rewrite ?zlen_put_u64, ?zlen_put_u32; unfold zlen in *; rewrite ?length_app, ?length_replicate; lia).
  unfold UINT32_MAX in Hm. rewrite (u32_id (_ + 1)) by (unfold is_u32; lia). apply u32_id. unfold is_u32. lia.
Qed.

Lemma rewritten_format i : 0 <= i < bh_count_formats h -> format_at q (read_blob_header q) i = format_at p h i.
Proof.
  intros Hi. destruct Hb as [_ _ _ Hcf Hm _ (Ho1 & Ho2 & Ho3)]. rewrite rewritten_header. unfold format_at.
  cbn [bh_formats_offset]. apply get_u32_same. intros j Hj. apply rewritten_bytes; lia.
Qed.

Lemma rewritten_modifiers : modifiers_of q (read_blob_header q) = modifiers_of p h ++ [new_entry t].
Proof.
  destruct Hb as [_ _ _ Hcf Hm _ (Ho1 & Ho2 & Ho3)]. rewrite rewritten_header. unfold modifiers_of.
  cbn [bh_count_modifiers]. rewrite seqZ_app by lia. rewrite fmap_app. cbn [seqZ]. f_equal.
  - apply list_fmap_ext. intros j k Hk. apply lookup_seqZ in Hk as [-> Hk].
    unfold modifier_at. cbn [bh_modifiers_offset]. cbn zeta.
    rewrite (get_u64_same q p), (get_u32_same q p), (get_u64_same q p);
      [done|intros i Hi; apply rewritten_bytes; lia..].
  - rewrite seqZ_cons, (seqZ_nil _ (Z.pred 1)) by lia. cbn [fmap list_fmap].
    f_equal. unfold modifier_at. cbn [bh_modifiers_offset]. cbn zeta.
    replace (bh_modifiers_offset h + 24 * (0 + bh_count_modifiers h)) with (zlen p) by lia.
    assert (0 <= zlen p) as H0 by (unfold zlen; lia).
    assert (zlen (p ++ replicate 24 0) = zlen p + 24) as Hz by (unfold zlen; rewrite length_app, length_replicate; lia).
    unfold rewritten, write_entry.
    rewrite get_u64_put_u64_ne, get_u64_put_u32_ne, get_put_u64 by (rewrite ?zlen_put_u64, ?zlen_put_u32, ?Hz; lia).
    rewrite get_u32_put_u64_ne, get_put_u32 by (rewrite ?zlen_put_u64, ?zlen_put_u32, ?Hz; lia).
    rewrite get_put_u64 by (rewrite ?zlen_put_u64, ?zlen_put_u32, ?zlen_put_u64, ?zlen_put_u32, ?Hz; lia).
    unfold new_entry. cbn [fm_formats fm_offset fm_modifier].
    rewrite (u64_id (u64 _)) by apply u64_range. rewrite block_of_spec by done.
    rewrite (u32_id (t - t mod 64)); [done|]. pose proof (Z.mod_pos_bound t 64). pose proof (Z.mod_le t 64).
    unfold is_u32 in *. lia.
Qed.

Lemma rewritten_supports i modifier : 0 <= i ->
  supports q i modifier <-> supports p i modifier \/ (i = t /\ modifier = DRM_FORMAT_MOD_QCOM_COMPRESSED).
Proof.
  intros Hi. unfold supports. rewrite rewritten_modifiers. split.
  - intros (e & [He| ->%list_elem_of_singleton]%elem_of_app & Hc & Hm).
    + left. eauto.
    + right. rewrite new_entry_covers in Hc by done. by apply Z.eqb_eq in Hc.
  - intros [(e & He & Hc & Hm)|[-> ->]].
    + exists e. rewrite elem_of_app. eauto.
    + exists (new_entry t). rewrite elem_of_app, list_elem_of_singleton, new_entry_covers, Z.eqb_refl by done. eauto.
Qed.

Lemma rewritten_layout : bh_count_modifiers h + 1 < UINT32_MAX -> blob_layout_ok q = true.
Proof.
  intros Hc. apply blob_layout_iff; [rewrite rewritten_length; lia|].
  destruct Hb as [_ ? ? ? Hm ? (Ho1 & Ho2 & Ho3)]. rewrite rewritten_length. split; [lia|].
  rewrite rewritten_header. constructor; cbn [bh_version bh_flags bh_count_formats bh_formats_offset
    bh_count_modifiers bh_modifiers_offset]; rewrite ?rewritten_header, ?rewritten_length; try done; lia.
Qed.

Lemma rewritten_target : find_target q (read_blob_header q) = find_target p h.
Proof.
  unfold find_target. assert (bh_count_formats (read_blob_header q) = bh_count_formats h) as ->
    by (by rewrite rewritten_header).
  assert (forall l acc, (forall i, i ∈ l -> 0 <= i < bh_count_formats h) ->
    foldl (fun acc i => if format_at q (read_blob_header q) i =? DRM_FORMAT_XBGR8888 then (i, snd acc + 1) else acc) acc l =
    foldl (fun acc i => if format_at p h i =? DRM_FORMAT_XBGR8888 then (i, snd acc + 1) else acc) acc l) as H.
  { induction l as [|a l IH]; intros acc Hl; cbn [foldl]; [done|].
    rewrite rewritten_format by (apply Hl; by left). apply IH. intros i Hi. apply Hl. by right. }
  apply H. intros i Hi%elem_of_seqZ. lia.
Qed.

End Rewrite.

(** What a successful rewrite has checked, and what it returns. *)
Lemma blob_append_inv alloc p q :
  zlen p < 2 ^ 32 -> android_drm_blob_append_xb24_qcom alloc (Some p) = Some q ->
  exists t, let h := read_blob_header p in
    q = rewritten p t /\ blob_layout p h /\ find_target p h = (t, 1) /\ is_u32 t /\
    0 <= t < bh_count_formats h /\ format_at p h t = DRM_FORMAT_XBGR8888 /\
    (forall i, 0 <= i < bh_count_formats h -> format_at p h i = DRM_FORMAT_XBGR8888 -> i = t) /\
    supports p t DRM_FORMAT_MOD_LINEAR /\ ~ supports p t DRM_FORMAT_MOD_QCOM_COMPRESSED.
Proof.
  intros Hsmall H. unfold android_drm_blob_append_xb24_qcom in H.
  destruct (negb (blob_layout_ok p)) eqn:Hlay in H; [done|]. apply negb_false_iff in Hlay. cbn zeta in H.
  destruct (find_target p (read_blob_header p)) as [t c] eqn:Hft.
  destruct (negb (c =? 1)) eqn:Hc in H; [done|]. apply negb_false_iff, Z.eqb_eq in Hc. subst c.
  destruct (scan_modifiers _ t _ false false) as [[lin qc]|] eqn:Hscan; [|done].
  destruct (_ || _) eqn:Hg in H; [done|]. rewrite !orb_false_iff in Hg. destruct Hg as [[Hlin Hqc] _].
  destruct (negb alloc); [done|]. injection H as Hq. symmetry in Hq.
  change (q = rewritten p t) in Hq. subst q. apply negb_false_iff in Hlin. subst lin qc.
  apply blob_layout_iff in Hlay as [_ Hb]; [|lia]. destruct (find_target_spec p _ t Hft) as (Htr & Htf & Hu).
  assert (is_u32 t) as Ht by (pose proof (bl_formats _ _ Hb); unfold is_u32; lia).
  apply scan_modifiers_spec in Hscan as [Hs1 Hs2]. cbn [orb] in Hs1, Hs2. symmetry in Hs1, Hs2.
  assert (forall modifier, supports p t modifier <->
    existsb (fun e => modifier_covers_format e t && (fm_modifier e =? modifier)) (modifiers_of p (read_blob_header p)) = true) as Hsup.
  { intros modifier. unfold supports. rewrite existsb_exists. split.
    - intros (e & He & Hcov & Hm). exists e. rewrite <- list_elem_of_In, Hcov, Hm, Z.eqb_refl. done.
    - intros (e & He%list_elem_of_In & [Hcov Hm%Z.eqb_eq]%andb_true_iff). eauto. }
  exists t. cbn zeta. split_and!; try done; try lia; [by apply Hsup|rewrite Hsup; congruence].
Qed.

(** The rewrite adds exactly one capability.  When a blob is rewritten, the
    result is a well-formed blob with the same formats in the same places; a
    format and modifier pair is supported by the new blob exactly when it was
    supported before, or is XB24 with the QCOM compressed modifier.  XB24 was
    there exactly once, with LINEAR and without that modifier, and rewriting
    the result again is refused. *)
Theorem blob_append_exact alloc p q :
  zlen p < 2 ^ 32 -> bh_count_modifiers (read_blob_header p) < UINT32_MAX - 1 ->
  android_drm_blob_append_xb24_qcom alloc (Some p) = Some q ->
  exists t, let h := read_blob_header p in
    0 <= t < bh_count_formats h /\ format_at p h t = DRM_FORMAT_XBGR8888 /\
    (forall i, 0 <= i < bh_count_formats h -> format_at p h i = DRM_FORMAT_XBGR8888 -> i = t) /\
    blob_layout_ok q = true /\ bh_count_formats (read_blob_header q) = bh_count_formats h /\
    (forall i, 0 <= i < bh_count_formats h -> format_at q (read_blob_header q) i = format_at p h i) /\
    (forall i modifier, 0 <= i ->
       supports q i modifier <-> supports p i modifier \/ (i = t /\ modifier = DRM_FORMAT_MOD_QCOM_COMPRESSED)) /\
    supports p t DRM_FORMAT_MOD_LINEAR /\ ~ supports p t DRM_FORMAT_MOD_QCOM_COMPRESSED /\
    forall alloc', android_drm_blob_append_xb24_qcom alloc' (Some q) = None.
Proof.
  intros Hsmall Hcm H. destruct (blob_append_inv alloc p q Hsmall H) as (t & Hq & Hb & Hft & Ht & Htr & Htf & Hu & Hl & Hn).
  subst q. exists t. cbn zeta. split; [done|]. split; [done|]. split; [done|]. split; [by apply rewritten_layout; try lia|].
  split; [by rewrite rewritten_header|]. split; [intros; by apply rewritten_format|].
  split; [intros; by apply rewritten_supports|]. split; [done|]. split; [done|].
  intros alloc'. unfold android_drm_blob_append_xb24_qcom. destruct (negb _); [done|]. cbn zeta.
  rewrite rewritten_target, Hft by done. cbn [negb Z.eqb Pos.eqb].
  destruct (scan_modifiers _ t _ false false) as [[lin qc]|] eqn:Hscan; [|done].
  apply scan_modifiers_spec in Hscan as [Hq _]. rewrite rewritten_modifiers, existsb_app in Hq by done.
  cbn [existsb] in Hq. rewrite new_entry_covers, Z.eqb_refl in Hq by (try done; lia).
  change (fm_modifier (new_entry t) =? DRM_FORMAT_MOD_QCOM_COMPRESSED) with true in Hq.
  cbn in Hq. rewrite orb_true_r in Hq. subst qc. by rewrite orb_true_r.
Qed.

(** A blob with XR24 and XB24, both LINEAR. *)
Definition sample_blob : list Z :=
  let p := replicate 56 0 in
  let p := advc_put_u32 (advc_put_u32 p 0 1) 8 2 in
  let p := advc_put_u32 (advc_put_u32 (advc_put_u32 p 12 24) 16 1) 20 32 in
  let p := advc_put_u32 (advc_put_u32 p 24 0x34325258) 28 DRM_FORMAT_XBGR8888 in
  advc_put_u64 p 32 3.

Lemma blob_append_exact_witness :
  exists q, android_drm_blob_append_xb24_qcom true (Some sample_blob) = Some q /\ blob_layout_ok q = true.
Proof.
  exists (rewritten sample_blob 1). split; [vm_compute; reflexivity|].
  destruct (blob_append_exact true sample_blob (rewritten sample_blob 1)) as (t & _ & _ & _ & H & _).
  - vm_compute. reflexivity.
  - vm_compute. reflexivity.
  - vm_compute. reflexivity.
  - exact H.
Defined.
