(* ===== verification/DrmFormats.v ===== *)
(** * The plane formats of the DRM bridge (src/src/bridge/android_drm_bridge.c)

    The pure part of the bridge: the sets of leased objects, the table of format
    and modifier pairs, the IN_FORMATS blob and the vendor's capability text that
    fill it, and the check of an imported buffer's description.  The table is
    proved to be a finite map from pairs to source flags, and the two parsers to
    add exactly the pairs the blobs state.  The blob written by
    android_drm_blob.c (DrmBlob) is shown to parse to the old table and one more
    pair. *)

From stdpp Require Import base list gmap.
From Stdlib Require Import ZArith Lia Bool.
From S2P Require Import Prelude Kernel Protocol DrmBlob.

Definition E2BIG : Z := 7.
Definition ENODATA : Z := 61.
Definition EBADMSG : Z := 74.
Definition EPROTONOSUPPORT : Z := 93.

Definition ADBR_ABI_VERSION_1 : Z := 0x00010000.
Definition ADBR_MAX_PLANES : Z := 4.
Definition ADBR_MAX_LEASE_OBJECTS : Z := 256.
Definition ADBR_MAX_FORMAT_MODIFIERS : Z := 1024.
Definition ADBR_FORMAT_SOURCE_IN_FORMATS : Z := 1.
Definition ADBR_FORMAT_SOURCE_QCOM_CANDIDATE : Z := 2.
Definition ADBR_MODIFIER_INVALID : Z := 0x00ffffffffffffff.
Definition ADBR_MODIFIER_LINEAR : Z := 0.
Definition ADBR_MODIFIER_QCOM_COMPRESSED : Z := 0x0500000000000001.

(** A loop that stops at the first negative status. *)
Fixpoint fold_status {A T} (f : T -> A -> Z + T) (l : list A) (s : T) : Z + T :=
  match l with
  | [] => inr s
  | x :: l => match f s x with inl e => inl e | inr s => fold_status f l s end
  end.

Definition validate_output_header (struct_size abi_version required_size : Z) : Z :=
  if negb (abi_version =? ADBR_ABI_VERSION_1) then - EPROTONOSUPPORT
  else if struct_size <? required_size then - EINVAL
  else 0.

(** ** Object sets *)

(** Also true for a zero. *)
Fixpoint has_duplicates (values : list Z) : bool :=
  match values with
  | [] => false
  | v :: l => (v =? 0) || existsb (Z.eqb v) l || has_duplicates l
  end.

Definition object_set_contains (objects : list Z) (object_id : Z) : bool :=
  existsb (fun o => o =? object_id) objects.

Definition equal_object_sets (left right : list Z) : bool :=
  if negb (zlen left =? zlen right) || has_duplicates left || has_duplicates right then false
  else forallb (fun x => existsb (Z.eqb x) right) left.

(** ** The format table *)

Record adbr_format_modifier_v1 := Format {
  f_fourcc : Z;
  f_source_flags : Z;
  f_modifier : Z }.
#[local] Notation table := (list adbr_format_modifier_v1).

(** The loop over the table; [None] when the pair is not in it. *)
Fixpoint merge_entry (entries : table) (fourcc modifier source : Z) : option table :=
  match entries with
  | [] => None
  | e :: l =>
      if (f_fourcc e =? fourcc) && (f_modifier e =? modifier)
      then Some (Format (f_fourcc e) (Z.lor (f_source_flags e) source) (f_modifier e) :: l)
      else cons e <$> merge_entry l fourcc modifier source
  end.

Definition add_format_entry (entries : table) (fourcc modifier source : Z) : Z + table :=
  match merge_entry entries fourcc modifier source with
  | Some entries => inr entries
  | None =>
      if ADBR_MAX_FORMAT_MODIFIERS <=? zlen entries then inl (- E2BIG)
      else inr (entries ++ [Format fourcc source modifier])
  end.

(** ** The IN_FORMATS blob *)

Definition modifier_pad (p : list Z) (h : drm_format_modifier_blob) (i : Z) : Z :=
  advc_get_u32 p (bh_modifiers_offset h + 24 * i + 12).

(** The body of the first loop. *)
Definition add_format (p : list Z) (h : drm_format_modifier_blob) (entries : table) (i : Z) : Z + table :=
  let fourcc := format_at p h i in
  if fourcc =? 0 then inl (- EBADMSG)
  else add_format_entry entries fourcc ADBR_MODIFIER_INVALID ADBR_FORMAT_SOURCE_IN_FORMATS.

(** The body of the loop over the bits of a modifier record. *)
Definition add_bit (p : list Z) (h : drm_format_modifier_blob) (e : drm_format_modifier)
    (entries : table) (bit : Z) : Z + table :=
  if Z.land (fm_formats e) (Z.shiftl 1 bit) =? 0 then inr entries
  else
    let format_index := fm_offset e + bit in
    if bh_count_formats h <=? format_index then inl (- EBADMSG)
    else
      let fourcc := format_at p h format_index in
      if fourcc =? 0 then inl (- EBADMSG)
      else add_format_entry entries fourcc (fm_modifier e) ADBR_FORMAT_SOURCE_IN_FORMATS.

(** The body of the second loop. *)
Definition add_modifier (p : list Z) (h : drm_format_modifier_blob) (entries : table) (i : Z) : Z + table :=
  if negb (modifier_pad p h i =? 0) then inl (- EBADMSG)
  else fold_status (add_bit p h (modifier_at p h i)) (seqZ 0 64) entries.

Definition parse_in_formats_blob (p : list Z) (entries : table) : Z + table :=
  if zlen p <? 24 then inl (- EBADMSG)
  else
    let h := read_blob_header p in
    if negb (bh_version h =? 1) || negb (bh_flags h =? 0) then inl (- EPROTONOSUPPORT)
    else if (zlen p <? bh_formats_offset h) || (zlen p - bh_formats_offset h <? bh_count_formats h * 4) ||
            (zlen p <? bh_modifiers_offset h) || (zlen p - bh_modifiers_offset h <? bh_count_modifiers h * 24)
    then inl (- EBADMSG)
    else
      match fold_status (add_format p h) (seqZ 0 (bh_count_formats h)) entries with
      | inl e => inl e
      | inr entries =>
          match fold_status (add_modifier p h) (seqZ 0 (bh_count_modifiers h)) entries with
          | inl e => inl e
          | inr [] => inl (- ENODATA)
          | inr entries => inr entries
          end
      end.

(** ** The vendor text *)

Definition qcom_separator (v : Z) : bool :=
  (v =? 0) || (v =? 32) || (v =? 9) || (v =? 13) || (v =? 10) || (v =? 61).

Definition fourcc_token_valid (data : list Z) (offset : Z) : bool :=
  forallb (fun i => let b := byte_at data (offset + i) in
    negb ((b <? 0x20) || (0x7e <? b) || (b =? 47))) (seqZ 0 4).

Definition has_standard_linear (entries : table) (fourcc : Z) : bool :=
  existsb (fun e => (f_fourcc e =? fourcc) && (f_modifier e =? ADBR_MODIFIER_LINEAR) &&
    negb (Z.land (f_source_flags e) ADBR_FORMAT_SOURCE_IN_FORMATS =? 0)) entries.

(** The test of the loop: four token bytes, then /5/1, between separators. *)
Definition qcom_token_at (data : list Z) (offset : Z) : bool :=
  negb ((negb (offset =? 0) && negb (qcom_separator (byte_at data (offset - 1)))) ||
        negb (byte_at data (offset + 4) =? 47) || negb (byte_at data (offset + 5) =? 53) ||
        negb (byte_at data (offset + 6) =? 47) || negb (byte_at data (offset + 7) =? 49) ||
        (negb (offset + 8 =? zlen data) && negb (qcom_separator (byte_at data (offset + 8)))) ||
        negb (fourcc_token_valid data offset)).

Definition token_fourcc (data : list Z) (offset : Z) : Z :=
  Z.lor (Z.lor (Z.lor (byte_at data offset) (Z.shiftl (byte_at data (offset + 1)) 8))
    (Z.shiftl (byte_at data (offset + 2)) 16)) (Z.shiftl (byte_at data (offset + 3)) 24).

(** [standard] is the table before the loop. *)
Definition add_candidate (data : list Z) (standard_count : nat) (entries : table) (offset : Z) : Z + table :=
  if negb (qcom_token_at data offset) then inr entries
  else
    let fourcc := token_fourcc data offset in
    if negb (has_standard_linear (firstn standard_count entries) fourcc) then inr entries
    else add_format_entry entries fourcc ADBR_MODIFIER_QCOM_COMPRESSED ADBR_FORMAT_SOURCE_QCOM_CANDIDATE.

Definition parse_qcom_candidates (data : list Z) (entries : table) : Z + table :=
  fold_status (add_candidate data (length entries)) (seqZ 0 (zlen data - 7)) entries.

(** The two searches of the preload gate. *)
Definition found_linear (entries : table) (fourcc : Z) : bool := has_standard_linear entries fourcc.
Definition found_candidate (entries : table) (fourcc modifier : Z) : bool :=
  existsb (fun e => (f_fourcc e =? fourcc) && (f_modifier e =? modifier) &&
    negb (Z.land (f_source_flags e) ADBR_FORMAT_SOURCE_QCOM_CANDIDATE =? 0)) entries.

(** ** The table as a map *)

#[local] Notation pair := (Z * Z)%type.
Definition entry_key (e : adbr_format_modifier_v1) : pair := (f_fourcc e, f_modifier e).
Definition sources (es : table) : gmap pair Z :=
  list_to_map ((fun e => (entry_key e, f_source_flags e)) <$> es).

(** No pair twice, and the table within its capacity. *)
Definition table_wf (es : table) : Prop :=
  NoDup (entry_key <$> es) /\ zlen es <= ADBR_MAX_FORMAT_MODIFIERS.

Definition flags_of (es : table) (k : pair) : Z := default 0 (sources es !! k).

Lemma sources_cons e es : sources (e :: es) = <[entry_key e := f_source_flags e]> (sources es).
Proof. done. Qed.

Lemma sources_None es k : sources es !! k = None <-> k ∉ entry_key <$> es.
Proof.
  unfold sources. rewrite <- not_elem_of_list_to_map. rewrite <- list_fmap_compose. done.
Qed.

Lemma sources_elem es k fl : NoDup (entry_key <$> es) ->
  sources es !! k = Some fl <-> exists e, e ∈ es /\ entry_key e = k /\ f_source_flags e = fl.
Proof.
  intros Hnd. unfold sources. rewrite <- elem_of_list_to_map
    by (rewrite <- list_fmap_compose; exact Hnd).
  rewrite list_elem_of_fmap. naive_solver.
Qed.

Lemma merge_entry_spec es f m s : NoDup (entry_key <$> es) ->
  match merge_entry es f m s with
  | Some es' => (f, m) ∈ entry_key <$> es /\ entry_key <$> es' = entry_key <$> es /\
      sources es' = <[(f, m) := Z.lor (flags_of es (f, m)) s]> (sources es)
  | None => (f, m) ∉ entry_key <$> es
  end.
Proof.
  induction es as [|e es IH]; intros Hnd; cbn [merge_entry].
  - apply not_elem_of_nil.
  - rewrite fmap_cons in Hnd. apply NoDup_cons in Hnd as [Hni Hnd].
    destruct (_ && _) eqn:E.
    + apply andb_true_iff in E as [E1%Z.eqb_eq E2%Z.eqb_eq]. split; [rewrite fmap_cons; unfold entry_key; rewrite E1, E2; by left|].
      split; [done|]. unfold flags_of. rewrite !sources_cons. unfold entry_key. cbn [f_fourcc f_modifier f_source_flags].
      rewrite E1, E2, lookup_insert_eq, insert_insert_eq. done.
    + assert (entry_key e <> (f, m)) as Hne.
      { intros [= E1 E2]. rewrite E1, E2, !Z.eqb_refl in E. done. }
      specialize (IH Hnd). destruct (merge_entry es f m s) as [es'|]; cbn [fmap option_fmap option_map].
      * destruct IH as (Hin & Hk & Hs). rewrite !fmap_cons, Hk. split; [by right|]. split; [done|].
        unfold flags_of. rewrite !sources_cons, lookup_insert_ne, Hs by done.
        rewrite insert_insert_ne by done. done.
      * rewrite fmap_cons, not_elem_of_cons. done.
Qed.

Lemma sources_snoc es f m s : (f, m) ∉ entry_key <$> es ->
  sources (es ++ [Format f s m]) = <[(f, m) := s]> (sources es).
Proof.
  intros Hni. unfold sources. rewrite fmap_app, list_to_map_app. cbn.
  rewrite <- insert_union_r; [by rewrite map_union_empty|]. by apply sources_None.
Qed.

(** Adding an entry is an update of the map; only a full table refuses. *)
Lemma add_format_entry_spec es f m s : table_wf es ->
  match add_format_entry es f m s with
  | inr es' => table_wf es' /\ sources es' = <[(f, m) := Z.lor (flags_of es (f, m)) s]> (sources es) /\
      (forall n, (n <= length es)%nat -> entry_key <$> firstn n es' = entry_key <$> firstn n es)
  | inl e => e = - E2BIG /\ (f, m) ∉ entry_key <$> es /\ zlen es = ADBR_MAX_FORMAT_MODIFIERS
  end.
Proof.
  intros [Hnd Hlen]. unfold add_format_entry. pose proof (merge_entry_spec es f m s Hnd) as Hm.
  destruct (merge_entry es f m s) as [es'|].
  - destruct Hm as (_ & Hk & Hs). split; [split|].
    + by rewrite Hk.
    + assert (length es' = length es) as E by (rewrite <- (length_fmap entry_key), Hk; apply length_fmap).
      unfold zlen in *. lia.
    + split; [done|]. intros n _. by rewrite !fmap_take, Hk.
  - destruct (Z.leb_spec ADBR_MAX_FORMAT_MODIFIERS (zlen es)); [split_and!; [done|done|lia]|].
    split; [split|split].
    + rewrite fmap_app. apply NoDup_app. split; [done|]. split; [|apply NoDup_singleton].
      intros x Hx ->%list_elem_of_singleton. done.
    + unfold zlen in *. rewrite length_app. cbn. unfold ADBR_MAX_FORMAT_MODIFIERS in *. lia.
    + rewrite sources_snoc by done. unfold flags_of. apply sources_None in Hm. by rewrite Hm.
    + intros n Hn. by rewrite take_app_le.
Qed.

(** ** Loops that add *)

(** [es'] is [es] with [source] added to the pairs of [P]. *)
Definition adds (source : Z) (P : pair -> bool) (es es' : table) : Prop :=
  forall k, sources es' !! k = if P k then Some (Z.lor (flags_of es k) source) else sources es !! k.

Lemma adds_refl s es : adds s (fun _ => false) es es.
Proof. done. Qed.

Lemma adds_ext s P Q es es' : (forall k, P k = Q k) -> adds s P es es' -> adds s Q es es'.
Proof. intros H Ha k. rewrite Ha, H. done. Qed.

Lemma adds_trans s P Q es1 es2 es3 :
  adds s P es1 es2 -> adds s Q es2 es3 -> adds s (fun k => P k || Q k) es1 es3.
Proof.
  intros H1 H2 k. rewrite H2. unfold flags_of. rewrite H1. destruct (P k), (Q k); cbn; try done.
  by rewrite <- Z.lor_assoc, Z.lor_diag.
Qed.

Lemma fold_adds {A} (I : table -> Prop) (f : table -> A -> Z + table) s (P : A -> pair -> bool) l es es' :
  (forall x es es', x ∈ l -> I es -> f es x = inr es' -> I es' /\ adds s (P x) es es') ->
  I es -> fold_status f l es = inr es' -> I es' /\ adds s (fun k => existsb (fun x => P x k) l) es es'.
Proof.
  intros Hf. revert es. induction l as [|x l IH]; intros es Hi; cbn [fold_status existsb].
  - intros [= <-]. split; [done|apply adds_refl].
  - destruct (f es x) as [e|es1] eqn:E; [done|]. intros H.
    destruct (Hf x es es1) as [Hi1 Ha1]; [by left|done|done|].
    destruct (IH ltac:(intros y e1 e2 Hy; apply Hf; by right) es1 Hi1 H) as [Hi2 Ha2].
    split; [done|]. by eapply adds_trans.
Qed.

Lemma add_entry_adds es f m s es' : table_wf es -> add_format_entry es f m s = inr es' ->
  table_wf es' /\ adds s (fun k => bool_decide (k = (f, m))) es es'.
Proof.
  intros Hwf H. pose proof (add_format_entry_spec es f m s Hwf) as Hs. rewrite H in Hs.
  destruct Hs as (Hwf' & Hsrc & _). split; [done|]. intros k. rewrite Hsrc. case_bool_decide as E.
  - subst k. by rewrite lookup_insert_eq.
  - by rewrite lookup_insert_ne.
Qed.

(** *** What the two loops of the blob parser state *)

Definition stated_format (p : list Z) (h : drm_format_modifier_blob) (i : Z) (k : pair) : bool :=
  bool_decide (k = (format_at p h i, ADBR_MODIFIER_INVALID)).
Definition stated_bit (p : list Z) (h : drm_format_modifier_blob) (e : drm_format_modifier) (bit : Z) (k : pair) : bool :=
  Z.testbit (fm_formats e) bit && bool_decide (k = (format_at p h (fm_offset e + bit), fm_modifier e)).
Definition stated_modifier (p : list Z) (h : drm_format_modifier_blob) (i : Z) (k : pair) : bool :=
  existsb (fun bit => stated_bit p h (modifier_at p h i) bit k) (seqZ 0 64).
Definition stated (p : list Z) (k : pair) : bool :=
  let h := read_blob_header p in
  existsb (fun i => stated_format p h i k) (seqZ 0 (bh_count_formats h)) ||
  existsb (fun i => stated_modifier p h i k) (seqZ 0 (bh_count_modifiers h)).

Lemma add_bit_adds p h e es bit es' : 0 <= bit -> table_wf es -> add_bit p h e es bit = inr es' ->
  table_wf es' /\ adds ADBR_FORMAT_SOURCE_IN_FORMATS (stated_bit p h e bit) es es'.
Proof.
  intros Hbit Hwf. unfold add_bit, stated_bit. rewrite land_pow2_testbit by done.
  destruct (Z.testbit (fm_formats e) bit); cbn [negb andb].
  - cbn zeta. destruct (_ <=? _); [done|]. destruct (_ =? 0); [done|]. by apply add_entry_adds.
  - intros [= <-]. split; [done|apply adds_refl].
Qed.

Lemma add_modifier_adds p h es i es' : table_wf es -> add_modifier p h es i = inr es' ->
  table_wf es' /\ adds ADBR_FORMAT_SOURCE_IN_FORMATS (stated_modifier p h i) es es'.
Proof.
  intros Hwf. unfold add_modifier. destruct (negb _); [done|]. apply fold_adds; [|done].
  intros bit es1 es2 Hbit%elem_of_seqZ Hwf1. apply add_bit_adds; [lia|done].
Qed.

Lemma add_format_adds p h es i es' : table_wf es -> add_format p h es i = inr es' ->
  table_wf es' /\ adds ADBR_FORMAT_SOURCE_IN_FORMATS (stated_format p h i) es es'.
Proof. intros Hwf. unfold add_format. cbn zeta. destruct (_ =? 0); [done|]. by apply add_entry_adds. Qed.

Lemma parse_blob_adds p es es' : table_wf es -> parse_in_formats_blob p es = inr es' ->
  table_wf es' /\ adds ADBR_FORMAT_SOURCE_IN_FORMATS (stated p) es es' /\ es' <> [].
Proof.
  intros Hwf. unfold parse_in_formats_blob. destruct (_ <? 24); [done|]. cbn zeta.
  destruct (_ || _); [done|]. destruct (_ || _ || _ || _); [done|].
  destruct (fold_status (add_format p _) _ es) as [e|es1] eqn:E1; [done|].
  destruct (fold_status (add_modifier p _) _ es1) as [e|es2] eqn:E2; [done|]. intros H.
  assert (es2 = es' /\ es' <> []) as [-> Hne] by (destruct es2; [done|by injection H as <-]).
  apply (fold_adds table_wf _ ADBR_FORMAT_SOURCE_IN_FORMATS (stated_format p (read_blob_header p))) in E1 as [Hw1 H1];
    [|intros i e1 e2 _; apply add_format_adds|done].
  apply (fold_adds table_wf _ ADBR_FORMAT_SOURCE_IN_FORMATS (stated_modifier p (read_blob_header p))) in E2 as [Hw2 H2];
    [|intros i e1 e2 _; apply add_modifier_adds|done].
  split; [done|]. split; [|done]. by eapply adds_trans.
Qed.

(** The pairs stated, in the words of the blob: a format without a modifier, or a
    format a modifier record covers. *)
Lemma stated_iff p f m : stated p (f, m) = true <->
  exists i, format_at p (read_blob_header p) i = f /\
    ((0 <= i < bh_count_formats (read_blob_header p) /\ m = ADBR_MODIFIER_INVALID) \/ (0 <= i /\ supports p i m)).
Proof.
  unfold stated. cbn zeta. rewrite orb_true_iff, !existsb_exists.
  assert (forall i, is_u32 (fm_offset (modifier_at p (read_blob_header p) i))) as Hoff by (intros; apply get_u32_range).
  split.
  - intros [(i & Hi & Hs)|(i & Hi & Hs)].
    + apply list_elem_of_In, elem_of_seqZ in Hi. unfold stated_format in Hs.
      apply bool_decide_eq_true in Hs as [= -> ->]. exists i. split; [done|]. left. lia.
    + apply existsb_exists in Hs as (bit & Hbit & Hs). apply list_elem_of_In, elem_of_seqZ in Hbit.
      unfold stated_bit in Hs. apply andb_true_iff in Hs as [Ht Hk]. apply bool_decide_eq_true in Hk as [= -> ->].
      specialize (Hoff i). unfold is_u32 in Hoff.
      exists (fm_offset (modifier_at p (read_blob_header p) i) + bit). split; [done|]. right. split; [lia|].
      exists (modifier_at p (read_blob_header p) i).
      split; [|split; [|done]].
      * unfold modifiers_of. apply list_elem_of_fmap. exists i. split; [done|by apply list_elem_of_In].
      * unfold modifier_covers_format. destruct (Z.ltb_spec (fm_offset (modifier_at p (read_blob_header p) i) + bit)
          (fm_offset (modifier_at p (read_blob_header p) i))); [lia|].
        rewrite Z.add_simpl_l. destruct (Z.ltb_spec bit 64); [|lia]. cbn [andb].
        rewrite u64_id, land_pow2_testbit, negb_involutive; [done|lia|].
        rewrite Z.shiftl_1_l. unfold is_u64. split; [apply Z.pow_nonneg; lia|]. apply Z.pow_lt_mono_r; lia.
  - intros (i & <- & [[Hi ->]|[Hi (e & He & Hc & <-)]]).
    + left. exists i. split; [apply list_elem_of_In, elem_of_seqZ; lia|]. by apply bool_decide_eq_true.
    + right. unfold modifiers_of in He. apply list_elem_of_fmap in He as (j & -> & Hj). exists j.
      split; [by apply list_elem_of_In|]. apply existsb_exists.
      unfold modifier_covers_format in Hc.
      destruct (Z.ltb_spec i (fm_offset (modifier_at p (read_blob_header p) j))); [done|].
      apply andb_true_iff in Hc as [Hlt%Z.ltb_lt Hc].
      exists (i - fm_offset (modifier_at p (read_blob_header p) j)).
      split; [apply list_elem_of_In, elem_of_seqZ; lia|]. unfold stated_bit.
      rewrite Zplus_minus. rewrite bool_decide_eq_true_2, andb_true_r by done.
      rewrite u64_id, land_pow2_testbit, negb_involutive in Hc; [done|lia|].
      rewrite Z.shiftl_1_l. unfold is_u64. split; [apply Z.pow_nonneg; lia|]. apply Z.pow_lt_mono_r; lia.
Qed.

(** ** The candidate loop *)

Lemma standard_linear_iff es f : NoDup (entry_key <$> es) ->
  has_standard_linear es f = true <->
  exists fl, sources es !! (f, ADBR_MODIFIER_LINEAR) = Some fl /\ Z.land fl ADBR_FORMAT_SOURCE_IN_FORMATS <> 0.
Proof.
  intros Hnd. unfold has_standard_linear. rewrite existsb_exists. split.
  - intros (e & He%list_elem_of_In & H). rewrite !andb_true_iff, !Z.eqb_eq, negb_true_iff, Z.eqb_neq in H.
    destruct H as [[<- Hm] Hl]. exists (f_source_flags e). split; [|done].
    apply sources_elem; [done|]. exists e. unfold entry_key. by rewrite Hm.
  - intros (fl & Hs & Hl). apply sources_elem in Hs as (e & He & [= <- Hm] & <-); [|done].
    exists e. rewrite <- list_elem_of_In, Hm, !Z.eqb_refl. split; [done|]. apply negb_true_iff. by apply Z.eqb_neq.
Qed.

Lemma sources_prefix es n k : NoDup (entry_key <$> es) ->
  sources (firstn n es) !! k = if decide (k ∈ entry_key <$> firstn n es) then sources es !! k else None.
Proof.
  intros Hnd. case_decide as Hin; [|by apply sources_None].
  apply list_elem_of_fmap in Hin as (e & -> & He).
  assert (e ∈ es) as He' by (rewrite <- (take_drop n es); apply elem_of_app; by left).
  transitivity (Some (f_source_flags e)); [|symmetry]; apply sources_elem; eauto.
  rewrite fmap_take. eapply sublist_NoDup; [exact Hnd|apply sublist_take].
Qed.

(** Through the loop the table in front of the candidates keeps its pairs and the
    flags of every pair whose modifier is not the QCOM one. *)
Definition candidate_inv (es0 es : table) : Prop :=
  table_wf es /\ (length es0 <= length es)%nat /\
  entry_key <$> firstn (length es0) es = entry_key <$> es0 /\
  forall f m, m <> ADBR_MODIFIER_QCOM_COMPRESSED -> sources es !! (f, m) = sources es0 !! (f, m).

Lemma candidate_linear es0 es f : NoDup (entry_key <$> es0) -> candidate_inv es0 es ->
  has_standard_linear (firstn (length es0) es) f = has_standard_linear es0 f.
Proof.
  intros Hnd ([Hnd' _] & _ & Hk & Hs). apply eq_true_iff_eq. rewrite !standard_linear_iff; try done.
  - rewrite sources_prefix, Hk, Hs by done. case_decide as E; [done|]. apply sources_None in E.
    split; intros (fl & ? & ?); congruence.
  - by rewrite Hk.
Qed.

Definition stated_candidate (data : list Z) (es0 : table) (offset : Z) (k : pair) : bool :=
  qcom_token_at data offset && has_standard_linear es0 (token_fourcc data offset) &&
  bool_decide (k = (token_fourcc data offset, ADBR_MODIFIER_QCOM_COMPRESSED)).

Lemma add_candidate_adds data es0 es offset es' : NoDup (entry_key <$> es0) -> candidate_inv es0 es ->
  add_candidate data (length es0) es offset = inr es' ->
  candidate_inv es0 es' /\ adds ADBR_FORMAT_SOURCE_QCOM_CANDIDATE (stated_candidate data es0 offset) es es'.
Proof.
  intros Hnd Hi. unfold add_candidate, stated_candidate. cbn zeta. rewrite (candidate_linear es0 es) by done.
  destruct (qcom_token_at data offset); cbn [negb andb]; [|intros [= <-]; split; [done|apply adds_refl]].
  destruct (has_standard_linear es0 _); cbn [negb andb]; [|intros [= <-]; split; [done|apply adds_refl]].
  intros H. destruct Hi as (Hwf & Hlen & Hk & Hs). destruct (add_entry_adds _ _ _ _ _ Hwf H) as [Hwf' Ha].
  split; [|done]. pose proof (add_format_entry_spec es (token_fourcc data offset) ADBR_MODIFIER_QCOM_COMPRESSED
    ADBR_FORMAT_SOURCE_QCOM_CANDIDATE Hwf) as Hspec. rewrite H in Hspec. destruct Hspec as (_ & Hsrc & Hpre).
  split; [done|]. split; [|split].
  - assert (length (entry_key <$> firstn (length es0) es') = length es0) as E by (rewrite Hpre, Hk by done; apply length_fmap).
    rewrite length_fmap, length_take in E. lia.
  - by rewrite Hpre.
  - intros f m Hm. rewrite Hsrc, lookup_insert_ne by congruence. by apply Hs.
Qed.

Lemma parse_candidates_adds data es es' : table_wf es -> parse_qcom_candidates data es = inr es' ->
  table_wf es' /\ adds ADBR_FORMAT_SOURCE_QCOM_CANDIDATE
    (fun k => existsb (fun offset => stated_candidate data es offset k) (seqZ 0 (zlen data - 7))) es es'.
Proof.
  intros Hwf H. pose proof Hwf as [Hnd _].
  apply (fold_adds (candidate_inv es) _ ADBR_FORMAT_SOURCE_QCOM_CANDIDATE (stated_candidate data es)) in H as [[Hw _] Ha].
  - done.
  - intros offset es1 es2 _ Hi. by apply add_candidate_adds.
  - split; [done|]. split; [done|]. split; [by rewrite firstn_all|done].
Qed.

(** ** Properties *)

(** C29. The format table a plane query builds is exact.  From the IN_FORMATS blob
    it holds each pair once, marked as standard: a format with the invalid
    modifier, and a format with a modifier exactly when a modifier record of the
    blob covers it.  The vendor text then marks as candidates exactly the QCOM
    pairs of its delimited tokens whose format is standard with LINEAR; it never
    marks anything as standard, so a candidate is not upgraded to proof, and it
    removes nothing.  The table never exceeds its capacity. *)
Theorem format_table_exact (p data : list Z) (es es' : list adbr_format_modifier_v1) :
  parse_in_formats_blob p [] = inr es -> parse_qcom_candidates data es = inr es' ->
  table_wf es /\ es <> [] /\
  (forall f m fl, sources es !! (f, m) = Some fl <->
     fl = ADBR_FORMAT_SOURCE_IN_FORMATS /\ exists i, format_at p (read_blob_header p) i = f /\
       ((0 <= i < bh_count_formats (read_blob_header p) /\ m = ADBR_MODIFIER_INVALID) \/ (0 <= i /\ supports p i m))) /\
  table_wf es' /\
  (forall f m, (exists fl, sources es' !! (f, m) = Some fl /\ Z.testbit fl 0 = true) <-> is_Some (sources es !! (f, m))) /\
  (forall f m, (exists fl, sources es' !! (f, m) = Some fl /\ Z.testbit fl 1 = true) <->
     m = ADBR_MODIFIER_QCOM_COMPRESSED /\ is_Some (sources es !! (f, ADBR_MODIFIER_LINEAR)) /\
     exists offset, 0 <= offset <= zlen data - 8 /\ qcom_token_at data offset = true /\ token_fourcc data offset = f).
Proof.
  intros H1 H2. assert (table_wf []) as H0 by (split; [apply NoDup_nil_2|unfold zlen, ADBR_MAX_FORMAT_MODIFIERS; cbn; lia]).
  destruct (parse_blob_adds p [] es H0 H1) as (Hwf & Ha & Hne).
  destruct (parse_candidates_adds data es es' Hwf H2) as (Hwf' & Ha').
  assert (forall f m fl, sources es !! (f, m) = Some fl <-> fl = ADBR_FORMAT_SOURCE_IN_FORMATS /\ stated p (f, m) = true) as Hs.
  { intros f m fl. rewrite Ha. unfold flags_of. change (sources [] !! (f, m)) with (@None Z). cbn.
    destruct (stated p (f, m)); unfold ADBR_FORMAT_SOURCE_IN_FORMATS; naive_solver. }
  split; [done|]. split; [done|]. split; [intros f m fl; by rewrite Hs, stated_iff|]. split; [done|].
  assert (forall k, sources es !! k = None \/ sources es !! k = Some 1) as Hone.
  { intros [f m]. destruct (sources es !! (f, m)) as [fl|] eqn:E; [right|by left]. apply Hs in E as [-> _]. done. }
  set (P := fun k => existsb (fun offset => stated_candidate data es offset k) (seqZ 0 (zlen data - 7))) in *.
  assert (forall f m, P (f, m) = true <-> m = ADBR_MODIFIER_QCOM_COMPRESSED /\
    is_Some (sources es !! (f, ADBR_MODIFIER_LINEAR)) /\
    exists offset, 0 <= offset <= zlen data - 8 /\ qcom_token_at data offset = true /\ token_fourcc data offset = f) as HP.
  { intros f m. subst P. cbn beta. rewrite existsb_exists. unfold stated_candidate. destruct Hwf as [Hnd _]. split.
    - intros (o & Ho%list_elem_of_In%elem_of_seqZ & H). rewrite !andb_true_iff, bool_decide_eq_true in H.
      destruct H as [[Ht Hl] [= -> ->]]. apply standard_linear_iff in Hl as (fl & Hl & _); [|done].
      split; [done|]. split; [eauto|]. exists o. split; [lia|done].
    - intros (-> & [fl Hl] & o & Ho & Ht & <-). exists o. rewrite <- list_elem_of_In, elem_of_seqZ. split; [lia|].
      rewrite !andb_true_iff, bool_decide_eq_true, standard_linear_iff by done. split_and!; try done.
      exists fl. split; [done|]. apply Hs in Hl as [-> _]. done. }
  split; intros f m; [|rewrite <- HP]; rewrite Ha'; unfold flags_of;
    destruct (Hone (f, m)) as [E|E]; rewrite E; destruct (P (f, m)); cbn [default from_option id];
    split; try (by intros (? & [= <-] & ?)); try (by intros [? ?]); try done;
    (intros _; eexists; split; [reflexivity|done]).
Qed.

(** What the two searches of the preload gate prove about the blobs behind a table. *)
Lemma gate_table_sound p es entries f (T : list Z -> Prop) :
  parse_in_formats_blob p [] = inr es ->
  (entries = es \/ exists text, T text /\ parse_qcom_candidates text es = inr entries) ->
  found_linear entries f = true -> found_candidate entries f ADBR_MODIFIER_QCOM_COMPRESSED = true ->
  (exists i, 0 <= i /\ format_at p (read_blob_header p) i = f /\ supports p i ADBR_MODIFIER_LINEAR) /\
  exists text offset, T text /\ 0 <= offset <= zlen text - 8 /\
    qcom_token_at text offset = true /\ token_fourcc text offset = f.
Proof.
  intros Hp Hsrc Hl Hc. assert (table_wf []) as H0 by (split; [apply NoDup_nil_2|unfold zlen, ADBR_MAX_FORMAT_MODIFIERS; cbn; lia]).
  destruct (parse_blob_adds p [] es H0 Hp) as (Hwf & Ha & _).
  assert (forall k fl, sources es !! k = Some fl -> fl = 1 /\ stated p k = true) as Hes.
  { intros k fl. rewrite Ha. destruct (stated p k); [|done]. by intros [= <-]. }
  assert (forall k fl, sources es !! k = Some fl -> Z.land fl 2 = 0) as Hno by (by intros k fl [-> _]%Hes).
  assert (table_wf entries -> exists fl,
    sources entries !! (f, ADBR_MODIFIER_QCOM_COMPRESSED) = Some fl /\ Z.land fl 2 <> 0) as Hcand.
  { intros [Hnd _]. apply existsb_exists in Hc as (e & He%list_elem_of_In & H).
    rewrite !andb_true_iff, !Z.eqb_eq, negb_true_iff, Z.eqb_neq in H. destruct H as [[<- Hm] Hfl].
    exists (f_source_flags e). split; [|done]. apply sources_elem; [done|]. exists e. unfold entry_key. by rewrite Hm. }
  destruct Hsrc as [->|(text & HT & Ht)].
  { destruct (Hcand Hwf) as (fl & Hfl & Hne). by apply Hno in Hfl. }
  destruct (parse_candidates_adds text es entries Hwf Ht) as [Hwf' Ha']. split.
  - apply standard_linear_iff in Hl as (fl & Hfl & _); [|apply Hwf']. rewrite Ha' in Hfl.
    destruct (existsb _ _) eqn:E in Hfl.
    + apply existsb_exists in E as (o & _ & H). unfold stated_candidate in H.
      apply andb_true_iff in H as [_ H%bool_decide_eq_true]. done.
    + apply Hes in Hfl as [_ Hst]. apply stated_iff in Hst as (i & Hf & [[_ [=]]|[Hi Hs]]). eauto.
  - destruct (Hcand Hwf') as (fl & Hfl & Hne). rewrite Ha' in Hfl. destruct (existsb _ _) eqn:E in Hfl.
    + apply existsb_exists in E as (o & Ho%list_elem_of_In%elem_of_seqZ & H). unfold stated_candidate in H.
      rewrite !andb_true_iff, bool_decide_eq_true in H. destruct H as [[H1 _] [= H2]].
      exists text, o. split; [done|]. split; [lia|done].
    + by apply Hno in Hfl.
Qed.

(** The text of a plane that lists XB24 and one other candidate. *)
Definition sample_text : list Z := [88; 66; 50; 52; 47; 53; 47; 49; 32; 78; 86; 49; 50; 47; 53; 47; 49].

Lemma format_table_exact_witness :
  exists es es', parse_in_formats_blob sample_blob [] = inr es /\ parse_qcom_candidates sample_text es = inr es' /\
    exists fl, sources es' !! (DRM_FORMAT_XBGR8888, ADBR_MODIFIER_QCOM_COMPRESSED) = Some fl /\ Z.testbit fl 1 = true.
Proof.
  eexists _, _. split; [vm_compute; reflexivity|]. split; [vm_compute; reflexivity|].
  edestruct (format_table_exact sample_blob sample_text) as (_ & _ & _ & _ & _ & H);
    [vm_compute; reflexivity..|].
  apply H. split; [vm_compute; reflexivity|]. split.
  - exists 1. vm_compute. reflexivity.
  - exists 0. split; [vm_compute; split; intros; discriminate|]. split; vm_compute; reflexivity.
Defined.

(** ** The rewritten blob *)

Lemma fold_status_ext {A T} (f g : T -> A -> Z + T) l s :
  (forall x, x ∈ l -> forall s, f s x = g s x) -> fold_status f l s = fold_status g l s.
Proof.
  revert s. induction l as [|x l IH]; intros s H; cbn [fold_status]; [done|].
  rewrite (H x) by (by left). destruct (g s x); [done|]. apply IH. intros y Hy. apply H. by right.
Qed.

Lemma fold_status_app {A T} (f : T -> A -> Z + T) l1 l2 s :
  fold_status f (l1 ++ l2) s = match fold_status f l1 s with inl e => inl e | inr s => fold_status f l2 s end.
Proof. revert s. induction l1 as [|x l IH]; intros s; cbn [fold_status app]; [done|]. destruct (f s x); [done|apply IH]. Qed.

Lemma fold_status_all {A T} (f : T -> A -> Z + T) l s s' : fold_status f l s = inr s' ->
  forall x, x ∈ l -> exists s1 s2, f s1 x = inr s2.
Proof.
  revert s. induction l as [|x l IH]; intros s; cbn [fold_status]; [by intros _ x Hx%elem_of_nil|].
  destruct (f s x) as [e|s1] eqn:E; [done|]. intros H y [->|Hy]%elem_of_cons; [eauto|]. by eapply IH.
Qed.

Lemma fold_status_skip {A T} (f : T -> A -> Z + T) l s : (forall x, x ∈ l -> forall s, f s x = inr s) ->
  fold_status f l s = inr s.
Proof.
  induction l as [|x l IH]; intros H; cbn [fold_status]; [done|]. rewrite H by (by left).
  apply IH. intros y Hy. apply H. by right.
Qed.

(** A record with one bit adds one pair. *)
Lemma fold_one_bit p h e b es : 0 <= b < 64 -> fm_formats e = Z.shiftl 1 b -> fm_offset e + b < bh_count_formats h ->
  format_at p h (fm_offset e + b) <> 0 ->
  fold_status (add_bit p h e) (seqZ 0 64) es =
    add_format_entry es (format_at p h (fm_offset e + b)) (fm_modifier e) ADBR_FORMAT_SOURCE_IN_FORMATS.
Proof.
  intros Hb Hf Hlt Hne. assert (seqZ 0 64 = seqZ 0 b ++ b :: seqZ (b + 1) (63 - b)) as ->.
  { replace 64 with (b + (64 - b)) at 1 by lia. rewrite seqZ_app by lia. f_equal. rewrite Z.add_0_l.
    rewrite seqZ_cons by lia. f_equal. f_equal; lia. }
  assert (forall bit, 0 <= bit -> bit <> b -> forall s, add_bit p h e s bit = inr s) as Hskip.
  { intros bit Hbit Hn s. unfold add_bit. rewrite land_pow2_testbit, Hf, Z.shiftl_1_l, Z.pow2_bits_eqb by lia.
    destruct (Z.eqb_spec b bit); [lia|done]. }
  rewrite fold_status_app, fold_status_skip by (intros x Hx%elem_of_seqZ; apply Hskip; lia).
  cbn [fold_status]. assert (add_bit p h e es b =
    add_format_entry es (format_at p h (fm_offset e + b)) (fm_modifier e) ADBR_FORMAT_SOURCE_IN_FORMATS) as ->.
  { unfold add_bit. rewrite land_pow2_testbit, Hf, Z.shiftl_1_l, Z.pow2_bits_true by lia. cbn [negb]. cbn zeta.
    destruct (Z.leb_spec (bh_count_formats h) (fm_offset e + b)); [lia|]. by destruct (Z.eqb_spec (format_at p h (fm_offset e + b)) 0). }
  destruct (add_format_entry _ _ _ _) as [?|es1]; [done|].
  apply fold_status_skip. intros x Hx%elem_of_seqZ. apply Hskip; lia.
Qed.

Section Rewritten.
Context (p : list Z) (t : Z).
#[local] Notation h := (read_blob_header p).
#[local] Notation q := (rewritten p t).
Context (Hb : blob_layout p h) (Hsmall : zlen p < 2 ^ 32) (Ht : 0 <= t < bh_count_formats h).

Lemma t_u32 : is_u32 t.
Proof. pose proof (bl_formats _ _ Hb). unfold is_u32. lia. Qed.

Lemma rewritten_format_loop es :
  fold_status (add_format q (read_blob_header q)) (seqZ 0 (bh_count_formats (read_blob_header q))) es =
  fold_status (add_format p h) (seqZ 0 (bh_count_formats h)) es.
Proof.
  assert (bh_count_formats (read_blob_header q) = bh_count_formats h) as -> by (rewrite rewritten_header; done || apply t_u32).
  apply fold_status_ext. intros i Hi%elem_of_seqZ s. unfold add_format.
  rewrite rewritten_format by (done || apply t_u32 || lia). done.
Qed.

Lemma rewritten_bits e es : 0 <= fm_offset e ->
  fold_status (add_bit q (read_blob_header q) e) (seqZ 0 64) es = fold_status (add_bit p h e) (seqZ 0 64) es.
Proof.
  intros He. apply fold_status_ext. intros bit Hbit%elem_of_seqZ s. unfold add_bit. cbn zeta.
  assert (bh_count_formats (read_blob_header q) = bh_count_formats h) as -> by (rewrite rewritten_header; done || apply t_u32).
  destruct (_ =? 0); [done|]. destruct (Z.leb_spec (bh_count_formats h) (fm_offset e + bit)); [done|].
  rewrite rewritten_format by (done || apply t_u32 || lia). done.
Qed.

Lemma rewritten_modifier_at i : 0 <= i < bh_count_modifiers h ->
  modifier_at q (read_blob_header q) i = modifier_at p h i /\ modifier_pad q (read_blob_header q) i = modifier_pad p h i.
Proof.
  intros Hi. pose proof (bl_order _ _ Hb) as (H1 & H2 & H3). rewrite rewritten_header by (done || apply t_u32).
  pose proof (bl_formats _ _ Hb).
  unfold modifier_at, modifier_pad. cbn [bh_modifiers_offset]. cbn zeta.
  rewrite (get_u64_same q p), !(get_u32_same q p), (get_u64_same q p); [done|intros j Hj; apply rewritten_bytes; lia..].
Qed.

Lemma rewritten_last : modifier_at q (read_blob_header q) (bh_count_modifiers h) = new_entry t /\
  modifier_pad q (read_blob_header q) (bh_count_modifiers h) = 0.
Proof.
  pose proof (rewritten_modifiers p t Hb t_u32) as Hm. pose proof (bl_order _ _ Hb) as (H1 & H2 & H3).
  pose proof (bl_modifiers _ _ Hb) as Hcm. rewrite rewritten_header in * by (done || apply t_u32).
  unfold modifiers_of in Hm. cbn [bh_count_modifiers] in Hm. rewrite seqZ_app, fmap_app in Hm by lia.
  apply app_inj_2 in Hm as [_ Hm]; [|done]. rewrite seqZ_cons, (seqZ_nil _ (Z.pred 1)) in Hm by lia.
  apply (f_equal (hd (new_entry t))) in Hm. cbn [hd fmap list_fmap] in Hm. split.
  - rewrite <- Hm. done.
  - unfold modifier_pad. cbn [bh_modifiers_offset]. rewrite H3. unfold rewritten, write_entry.
    assert (zlen (p ++ replicate 24 0) = zlen p + 24) as Hz by (unfold zlen; rewrite length_app, length_replicate; lia).
    assert (0 <= zlen p) by (unfold zlen; lia). pose proof (bl_formats _ _ Hb).
    rewrite get_u32_put_u64_ne, get_u32_put_u32_ne, get_u32_put_u64_ne, get_u32_put_u32_ne
      by (rewrite ?zlen_put_u64, ?zlen_put_u32, ?Hz; lia).
    unfold advc_get_u32. assert (forall j, 12 <= j < 16 -> byte_at (p ++ replicate 24 0) (zlen p + j) = 0) as Hzero.
    { intros j Hj. unfold byte_at, zlen. rewrite lookup_app_r by lia.
      rewrite lookup_replicate_2 by lia. done. }
    replace (zlen p + 12 + 1) with (zlen p + 13) by lia. replace (zlen p + 12 + 2) with (zlen p + 14) by lia.
    replace (zlen p + 12 + 3) with (zlen p + 15) by lia. rewrite !Hzero by lia. done.
Qed.

(** Every bit of a blob that was parsed names a format of its array. *)
Lemma parsed_in_range es0 es i m : parse_in_formats_blob p es0 = inr es -> 0 <= i -> supports p i m ->
  0 <= i < bh_count_formats h.
Proof.
  unfold parse_in_formats_blob. destruct (_ <? 24); [done|]. cbn zeta. destruct (_ || _); [done|].
  destruct (_ || _ || _ || _); [done|]. destruct (fold_status (add_format p h) _ es0) as [?|es1]; [done|].
  destruct (fold_status (add_modifier p h) _ es1) as [?|es2] eqn:E; [done|]. intros _ Hi (e & He & Hc & _).
  unfold modifiers_of in He. apply list_elem_of_fmap in He as (j & -> & Hj).
  destruct (fold_status_all _ _ _ _ E j Hj) as (s1 & s2 & Hm). unfold add_modifier in Hm. destruct (negb _); [done|].
  unfold modifier_covers_format in Hc.
  destruct (Z.ltb_spec i (fm_offset (modifier_at p h j))); [done|]. apply andb_true_iff in Hc as [Hlt%Z.ltb_lt Hc].
  destruct (fold_status_all _ _ _ _ Hm (i - fm_offset (modifier_at p h j))) as (s3 & s4 & Hbit); [apply elem_of_seqZ; lia|].
  rewrite u64_id, negb_true_iff in Hc.
  - unfold add_bit in Hbit. rewrite Hc in Hbit. cbn zeta in Hbit. rewrite Zplus_minus in Hbit.
    destruct (Z.leb_spec (bh_count_formats h) i); [done|lia].
  - rewrite Z.shiftl_1_l. unfold is_u64. split; [apply Z.pow_nonneg; lia|]. apply Z.pow_lt_mono_r; lia.
Qed.

Context (Htf : format_at p h t = DRM_FORMAT_XBGR8888)
  (Hu : forall i, 0 <= i < bh_count_formats h -> format_at p h i = DRM_FORMAT_XBGR8888 -> i = t)
  (Hno : ~ supports p t DRM_FORMAT_MOD_QCOM_COMPRESSED).

#[local] Notation added := (Format DRM_FORMAT_XBGR8888 ADBR_FORMAT_SOURCE_IN_FORMATS ADBR_MODIFIER_QCOM_COMPRESSED).

Lemma rewritten_new_modifier es : NoDup (entry_key <$> es) -> zlen es < ADBR_MAX_FORMAT_MODIFIERS ->
  (DRM_FORMAT_XBGR8888, ADBR_MODIFIER_QCOM_COMPRESSED) ∉ entry_key <$> es ->
  add_modifier q (read_blob_header q) es (bh_count_modifiers h) = inr (es ++ [added]).
Proof.
  intros Hnd Hfull Hni.
  unfold add_modifier. destruct rewritten_last as [-> ->]. cbn [negb Z.eqb].
  pose proof (block_of_spec t t_u32) as Hblk. pose proof (Z.mod_pos_bound t 64) as Hmod.
  rewrite rewritten_bits by (cbn [new_entry fm_offset]; rewrite Hblk; pose proof (Z.mod_le t 64); lia).
  rewrite (fold_one_bit p h (new_entry t) (t mod 64)).
  - cbn [new_entry fm_offset fm_modifier]. rewrite Hblk. replace (t - t mod 64 + t mod 64) with t by lia. rewrite Htf.
    unfold add_format_entry. pose proof (merge_entry_spec es DRM_FORMAT_XBGR8888 ADBR_MODIFIER_QCOM_COMPRESSED
      ADBR_FORMAT_SOURCE_IN_FORMATS Hnd) as Hm.
    change DRM_FORMAT_MOD_QCOM_COMPRESSED with ADBR_MODIFIER_QCOM_COMPRESSED.
    destruct (merge_entry es _ _ _); [by destruct Hm|]. destruct (Z.leb_spec ADBR_MAX_FORMAT_MODIFIERS (zlen es)); [lia|done].
  - lia.
  - cbn [new_entry fm_formats]. rewrite Hblk. replace (t - (t - t mod 64)) with (t mod 64) by lia.
    rewrite (u32_id (t mod 64)) by (unfold is_u32; lia). apply u64_id. rewrite Z.shiftl_1_l. unfold is_u64.
    split; [apply Z.pow_nonneg; lia|]. apply Z.pow_lt_mono_r; lia.
  - cbn [new_entry fm_offset]. rewrite Hblk. lia.
  - cbn [new_entry fm_offset]. rewrite Hblk. replace (t - t mod 64 + t mod 64) with t by lia. by rewrite Htf.
Qed.

Lemma rewritten_parse es : parse_in_formats_blob p [] = inr es -> zlen es < ADBR_MAX_FORMAT_MODIFIERS ->
  parse_in_formats_blob q [] =
    inr (es ++ [added]).
Proof.
  intros Hp Hfull. assert (table_wf []) as H0 by (split; [apply NoDup_nil_2|unfold zlen, ADBR_MAX_FORMAT_MODIFIERS; cbn; lia]).
  destruct (parse_blob_adds p [] es H0 Hp) as ([Hnd Hcap] & Ha & Hne). pose proof (fun i m => parsed_in_range [] es i m Hp) as Hr.
  assert ((DRM_FORMAT_XBGR8888, ADBR_MODIFIER_QCOM_COMPRESSED) ∉ entry_key <$> es) as Hni.
  { apply sources_None. rewrite Ha. destruct (stated p _) eqn:E; [|done]. exfalso.
    apply stated_iff in E as (i & Hf & [[_ [=]]|[Hi Hs]]). rewrite (Hu i) in Hs; [done|by eapply Hr|done]. }
  pose proof (bl_order _ _ Hb) as (H1 & H2 & H3). pose proof (bl_modifiers _ _ Hb) as Hcm. pose proof (bl_formats _ _ Hb) as Hcf.
  revert Hp. unfold parse_in_formats_blob. rewrite rewritten_format_loop, rewritten_length.
  pose proof (rewritten_header p t Hb) as Hh. cbn zeta.
  destruct (Z.ltb_spec (zlen p) 24); [done|]. destruct (Z.ltb_spec (zlen p + 24) 24); [lia|].
  rewrite (bl_version _ _ Hb), (bl_flags _ _ Hb). rewrite Hh at 1 2. cbn [bh_version bh_flags].
  rewrite (bl_version _ _ Hb), (bl_flags _ _ Hb). cbn [negb orb Z.eqb Pos.eqb].
  destruct (_ || _ || _ || _) eqn:G; [done|]. rewrite !orb_false_iff, !Z.ltb_ge in G.
  match goal with |- context [if ?b then inl (- EBADMSG) else match fold_status (add_format p h) _ [] with inl _ => _ | inr _ => match fold_status (add_modifier q _) _ _ with _ => _ end end] =>
    assert (b = false) as -> end.
  { rewrite Hh. cbn [bh_formats_offset bh_count_formats bh_modifiers_offset bh_count_modifiers].
    rewrite !orb_false_iff, !Z.ltb_ge. lia. }
  destruct (fold_status (add_format p h) _ []) as [?|es1]; [done|].
  assert (bh_count_modifiers (read_blob_header q) = bh_count_modifiers h + 1) as -> by (by rewrite Hh).
  rewrite seqZ_app, fold_status_app by lia.
  rewrite (fold_status_ext (add_modifier q (read_blob_header q)) (add_modifier p h)).
  2: { intros i Hi%elem_of_seqZ s. unfold add_modifier. destruct (rewritten_modifier_at i) as [-> ->]; [lia|].
    destruct (negb _); [done|]. apply rewritten_bits. apply get_u32_range. }
  destruct (fold_status (add_modifier p h) _ es1) as [?|es2]; [done|]. intros Hres.
  assert (es2 = es) as -> by (destruct es2; [done|by injection Hres as <-]).
  rewrite seqZ_cons, (seqZ_nil _ (Z.pred 1)) by lia. cbn [fold_status]. rewrite Z.add_0_l.
  assert (add_modifier q (read_blob_header q) es (bh_count_modifiers h) =
    inr (es ++ [added])) as ->.
  2: { by destruct es. }
  by apply rewritten_new_modifier.
Qed.

End Rewritten.

(** The rewritten blob is read back as intended.  When the bridge has parsed a
    plane's IN_FORMATS blob into a table that is not full and the preload library
    has rewritten that blob, parsing the result gives the same table followed by
    one entry: XB24 with the QCOM compressed modifier, marked as standard. *)
Theorem rewritten_blob_parses (alloc : bool) (p q : list Z) (es : list adbr_format_modifier_v1) :
  zlen p < 2 ^ 32 -> parse_in_formats_blob p [] = inr es -> zlen es < ADBR_MAX_FORMAT_MODIFIERS ->
  android_drm_blob_append_xb24_qcom alloc (Some p) = Some q ->
  parse_in_formats_blob q [] =
    inr (es ++ [Format DRM_FORMAT_XBGR8888 ADBR_FORMAT_SOURCE_IN_FORMATS ADBR_MODIFIER_QCOM_COMPRESSED]).
Proof.
  intros Hs Hp Hf Hq. destruct (blob_append_inv alloc p q Hs Hq) as (t & -> & Hb & _ & _ & Ht & Htf & Hu & _ & Hn).
  by apply rewritten_parse.
Qed.

Lemma rewritten_blob_parses_witness :
  exists q es, android_drm_blob_append_xb24_qcom true (Some sample_blob) = Some q /\
    parse_in_formats_blob sample_blob [] = inr es /\ length es = 4%nat /\
    parse_in_formats_blob q [] =
      inr (es ++ [Format DRM_FORMAT_XBGR8888 ADBR_FORMAT_SOURCE_IN_FORMATS ADBR_MODIFIER_QCOM_COMPRESSED]).
Proof.
  eexists _, _. split; [vm_compute; reflexivity|]. split; [vm_compute; reflexivity|]. split; [reflexivity|].
  eapply (rewritten_blob_parses true sample_blob); vm_compute; reflexivity.
Defined.
