(* ===== verification/DrmBridge.v ===== *)
(** * The DRM bridge on a leased device (src/src/bridge/android_drm_bridge.c)

    The calls of the bridge that talk to the display device: validating and
    duplicating a lease, querying the formats of a plane, the gate of the preload
    library, and importing, destroying and observing framebuffers.  The kernel
    side is a model of what the DRM ioctls document: GEM handles belong to the
    open file, which a duplicated descriptor shares; a PRIME import returns the
    handle the file already has for the buffer. *)

From stdpp Require Import base list gmap strings.
From Stdlib Require Import ZArith Lia Bool.
From S2P Require Import Prelude Kernel Protocol Engine EngineFiles EngineInv DrmBlob DrmFormats.

(** ** The device *)

(** [struct drm_mode_fb_cmd2] *)
Record drm_mode_fb_cmd2 := FbCmd {
  fb_id : Z; fb_width : Z; fb_height : Z; fb_pixel_format : Z; fb_flags : Z;
  fb_handles : list Z; fb_pitches : list Z; fb_offsets : list Z; fb_modifier : list Z }.

(** The state of the open file: outcomes of the next ioctls (negative for an
    errno), how many have run, GEM handles and their objects, the handles PRIME
    import knows by object, and the framebuffers: what ADDFB2 was told, with the
    objects of the planes in [fb_handles]. *)
Record drm_state := Drm {
  d_results : list Z;
  d_tick : nat;
  d_gem : gmap Z Z;
  d_prime : gmap Z Z;
  d_fbs : gmap Z drm_mode_fb_cmd2 }.

(** What the kernel answers.  Answers that can change between two calls depend on
    the tick; property names and blobs are fixed.  A framebuffer is described
    with the objects of its planes in [fb_handles], 0 for an unused one. *)
Record kms_env := Env {
  e_is_chr : Z -> bool;
  e_lease : nat -> list Z;
  e_props : nat -> Z -> list (Z * Z);
  e_prop : Z -> option (list Z * Z);
  e_blob : Z -> option (list Z);
  e_object : Z -> option Z;
  e_new_handle : gmap Z Z -> Z;
  e_new_fb : gmap Z drm_mode_fb_cmd2 -> Z;
  e_getfb : nat -> Z -> option drm_mode_fb_cmd2 }.

#[local] Abbreviation M := (machine drm_state).

Definition set_drm (f : drm_state -> drm_state) : St M unit := modify (fun m => set_be (f (m_be m)) m).
Definition drm : St M drm_state := gets m_be.

Section Device.
Context (env : kms_env).

(** An ioctl that fails with [e]. *)
Definition refuse {A} (e : Z) : St M (option A) := errno_is e ;; mret None.

(** One ioctl: the descriptor must be open; the script may fail it; else it runs. *)
Definition sys_ioctl {A} (fd : Z) (act : St M (option A)) : St M (option A) :=
  t ← gets m_fds;
  match t !! fd with
  | None => refuse EBADF
  | Some _ =>
      s ← drm;
      let proceed := set_drm (fun s => Drm (d_results s) (S (d_tick s)) (d_gem s) (d_prime s) (d_fbs s)) ;; act in
      match d_results s with
      | [] => proceed
      | v :: l =>
          set_drm (fun s => Drm l (d_tick s) (d_gem s) (d_prime s) (d_fbs s)) ;;
          if v <? 0 then refuse (- v) else proceed
      end
  end.

(** The loop on EINTR; one round per scripted outcome and one more. *)
Fixpoint ioctl_loop {A} (n : nat) (fd : Z) (act : St M (option A)) : St M (option A) :=
  r ← sys_ioctl fd act;
  match r with
  | Some a => mret (Some a)
  | None =>
      e ← errno;
      match n with
      | S n => if e =? EINTR then ioctl_loop n fd act else mret None
      | O => mret None
      end
  end.
Definition ioctl_retry {A} (fd : Z) (act : St M (option A)) : St M (option A) :=
  s ← drm; ioctl_loop (length (d_results s)) fd act.

(** *** The ioctls *)

Definition ioctl_ok : St M (option unit) := mret (Some tt).

(** GET_LEASE and OBJ_GETPROPERTIES report all entries and store as many as the
    array has room for; the first call passes no array. *)
Definition ioctl_get_lease (capacity : Z) : St M (option (Z * list Z)) :=
  s ← drm;
  let objects := e_lease env (d_tick s) in
  mret (Some (zlen objects, firstn (Z.to_nat capacity) objects)).
Definition ioctl_get_properties (object capacity : Z) : St M (option (Z * list (Z * Z))) :=
  s ← drm;
  let props := e_props env (d_tick s) object in
  mret (Some (zlen props, firstn (Z.to_nat capacity) props)).
Definition ioctl_get_property (id : Z) : St M (option (list Z * Z)) :=
  match e_prop env id with Some p => mret (Some p) | None => refuse ENOENT end.
Definition ioctl_get_blob (id : Z) : St M (option (list Z)) :=
  match e_blob env id with Some b => mret (Some b) | None => refuse ENOENT end.

(** PRIME_FD_TO_HANDLE *)
Definition ioctl_prime (fd : Z) : St M (option Z) :=
  match e_object env fd with
  | None => refuse EINVAL
  | Some o =>
      s ← drm;
      match d_prime s !! o with
      | Some h => mret (Some h)
      | None =>
          let h := e_new_handle env (d_gem s) in
          set_drm (fun s => Drm (d_results s) (d_tick s) (<[h := o]> (d_gem s)) (<[o := h]> (d_prime s)) (d_fbs s)) ;;
          mret (Some h)
      end
  end.

(** GEM_CLOSE fails only for a handle that is not open; the callers ignore it. *)
Definition ioctl_gem_close (h : Z) : St M unit :=
  s ← drm;
  match d_gem s !! h with
  | None => errno_is EINVAL
  | Some o =>
      set_drm (fun s => Drm (d_results s) (d_tick s) (delete h (d_gem s))
        (if bool_decide (d_prime s !! o = Some h) then delete o (d_prime s) else d_prime s) (d_fbs s))
  end.

(** ADDFB2 looks the handles up, 0 for an unused plane, and keeps their objects with
    the rest of the command. *)
Definition ioctl_addfb2 (c : drm_mode_fb_cmd2) : St M (option Z) :=
  s ← drm;
  match mapM (fun h => if h =? 0 then Some 0 else d_gem s !! h) (fb_handles c) with
  | None => refuse ENOENT
  | Some objects =>
      let id := e_new_fb env (d_fbs s) in
      let fb := FbCmd id (fb_width c) (fb_height c) (fb_pixel_format c) (fb_flags c) objects
                  (fb_pitches c) (fb_offsets c) (fb_modifier c) in
      set_drm (fun s => Drm (d_results s) (d_tick s) (d_gem s) (d_prime s) (<[id := fb]> (d_fbs s))) ;;
      mret (Some id)
  end.
Definition ioctl_rmfb (id : Z) : St M (option unit) :=
  s ← drm;
  match d_fbs s !! id with
  | None => refuse ENOENT
  | Some _ =>
      set_drm (fun s => Drm (d_results s) (d_tick s) (d_gem s) (d_prime s) (delete id (d_fbs s))) ;;
      mret (Some tt)
  end.

(** GETFB2 makes a new handle for each object of the framebuffer, one for planes
    that share an object. *)
Fixpoint new_handles (objects : list Z) (made : list (Z * Z)) : St M (list Z) :=
  match objects with
  | [] => mret []
  | o :: l =>
      if o =? 0 then hs ← new_handles l made; mret (0 :: hs)
      else
        match list_find (fun p => fst p = o) made with
        | Some (_, (_, h)) => hs ← new_handles l made; mret (h :: hs)
        | None =>
            s ← drm;
            let h := e_new_handle env (d_gem s) in
            set_drm (fun s => Drm (d_results s) (d_tick s) (<[h := o]> (d_gem s)) (d_prime s) (d_fbs s)) ;;
            hs ← new_handles l ((o, h) :: made); mret (h :: hs)
        end
  end.
Definition ioctl_getfb2 (id : Z) : St M (option drm_mode_fb_cmd2) :=
  s ← drm;
  match e_getfb env (d_tick s) id with
  | None => refuse ENOENT
  | Some c =>
      hs ← new_handles (fb_handles c) [];
      mret (Some (FbCmd (fb_id c) (fb_width c) (fb_height c) (fb_pixel_format c) (fb_flags c) hs
        (fb_pitches c) (fb_offsets c) (fb_modifier c)))
  end.

(** ** Helpers *)

Definition neg_errno : St M Z := e ← errno; mret (if 0 <? e then - e else - EIO).

(** [return neg_errno();] for a call whose result is a value. *)
Definition fail_errno {A} : St M (Z + A) := e ← neg_errno; mret (inl e).

Definition fd_is_open (fd : Z) : St M Z :=
  if fd <? 0 then mret (- EBADF)
  else r ← fcntl_getfd fd; if r <? 0 then neg_errno else mret 0.

(** F_DUPFD_CLOEXEC; Linux never refuses the command with EINVAL, so the fallback
    for kernels without it is not reached. *)
Definition dup_cloexec (fd : Z) : St M Z := fcntl_dupfd_cloexec fd.

Fixpoint lease_attempts (n : nat) (fd : Z) : St M (Z + list Z) :=
  match n with
  | O => mret (inl (- EAGAIN))
  | S n =>
      q ← ioctl_retry fd (ioctl_get_lease 0);
      match q with
      | None => fail_errno
      | Some (capacity, _) =>
          if capacity =? 0 then mret (inl (- ENODATA))
          else if ADBR_MAX_LEASE_OBJECTS <? capacity then mret (inl (- E2BIG))
          else
            ok ← sys_alloc;
            if negb ok then mret (inl (- ENOMEM))
            else
              q ← ioctl_retry fd (ioctl_get_lease capacity);
              match q with
              | None => fail_errno
              | Some (count, objects) =>
                  if count <=? capacity then
                    if (count =? 0) || has_duplicates objects then mret (inl (- EBADMSG))
                    else mret (inr objects)
                  else lease_attempts n fd
              end
      end
  end.

Definition get_lease_objects_alloc (fd : Z) : St M (Z + list Z) :=
  status ← fd_is_open fd;
  if status <? 0 then mret (inl status) else lease_attempts 3 fd.

Definition kms_fd_validate (fd : Z) : St M Z :=
  result ← fd_is_open fd;
  if result <? 0 then mret result
  else if negb (e_is_chr env fd) then mret (- ENOTTY)
  else
    v ← ioctl_retry fd ioctl_ok;
    match v with
    | None => neg_errno
    | Some _ => r ← ioctl_retry fd ioctl_ok; match r with None => neg_errno | Some _ => mret 0 end
    end.

(** ** Leases *)

Definition adbr_get_capabilities : Z := fold_right Z.lor 0 [1; 2; 4; 8; 16; 32].

(** [objects] is whether the caller passes an array, of [inout_count] entries; the
    result is the status, the count stored and the objects copied. *)
Definition adbr_lease_get_objects_v1 (borrowed_fd : Z) (objects : bool) (inout_count : Z)
  : St M (Z * Z * list Z) :=
  r ← get_lease_objects_alloc borrowed_fd;
  match r with
  | inl status => mret (status, inout_count, [])
  | inr actual =>
      let count := zlen actual in
      if negb objects then mret (0, count, [])
      else if inout_count <? count then mret (- ENOSPC, count, [])
      else mret (0, count, actual)
  end.

(** The status, the duplicate (-1 on failure) and the object count. *)
Definition adbr_lease_dup_validate_v1 (borrowed_fd : Z) (expected : list Z) (flags struct_size abi_version : Z)
  : St M (Z * Z * Z) :=
  let fail status := mret (status, -1, 0) in
  if negb (flags =? 0) then fail (- EINVAL)
  else
    let status := validate_output_header struct_size abi_version 16 in
    if status <? 0 then fail status
    else if ADBR_MAX_LEASE_OBJECTS <? zlen expected then fail (- EINVAL)
    else if has_duplicates expected then fail (- EINVAL)
    else
      status ← kms_fd_validate borrowed_fd;
      if status <? 0 then fail status
      else
        r ← get_lease_objects_alloc borrowed_fd;
        match r with
        | inl status => fail status
        | inr actual =>
            if negb (zlen expected =? 0) && negb (equal_object_sets actual expected) then fail (- EPERM)
            else
              duplicate ← dup_cloexec borrowed_fd;
              if duplicate <? 0 then e ← neg_errno; fail e
              else mret (0, duplicate, u32 (zlen actual))
        end.

(** ** Plane formats *)

Definition ADBR_MAX_OBJECT_PROPERTIES : Z := 128.
Definition ADBR_MAX_PROPERTY_BLOB : Z := 1024 * 1024.
Definition ADBR_MAX_QCOM_BLOB : Z := 64 * 1024.
Definition ADBR_PLANE_QUERY_QCOM_CANDIDATES : Z := 1.
Definition DRM_MODE_PROP_ENUM : Z := 8.
Definition DRM_MODE_PROP_BLOB : Z := 16.

Definition get_object_properties (fd object_id : Z) : St M (Z + list (Z * Z)) :=
  if object_id =? 0 then mret (inl (- EINVAL))
  else
    q ← ioctl_retry fd (ioctl_get_properties object_id 0);
    match q with
    | None => fail_errno
    | Some (count, _) =>
        if ADBR_MAX_OBJECT_PROPERTIES <? count then mret (inl (- E2BIG))
        else if count =? 0 then mret (inl (- ENODATA))
        else
          q ← ioctl_retry fd (ioctl_get_properties object_id count);
          match q with
          | None => fail_errno
          | Some (count', props) => if count <? count' then mret (inl (- EAGAIN)) else mret (inr props)
          end
    end.

(** The name as a C string in 32 bytes, and the flags. *)
Definition get_property_metadata (fd property_id : Z) : St M (Z + (list Z * Z)) :=
  q ← ioctl_retry fd (ioctl_get_property property_id);
  match q with
  | None => fail_errno
  | Some (name, flags) => mret (inr (cstring (firstn 31 name), flags))
  end.

Definition get_blob_alloc (fd blob_id maximum : Z) : St M (Z + list Z) :=
  if blob_id =? 0 then mret (inl (- EINVAL))
  else
    q ← ioctl_retry fd (ioctl_get_blob blob_id);
    match q with
    | None => fail_errno
    | Some blob =>
        let length := zlen blob in
        if length =? 0 then mret (inl (- ENODATA))
        else if maximum <? length then mret (inl (- E2BIG))
        else
          ok ← sys_alloc;
          if negb ok then mret (inl (- ENOMEM))
          else
            q ← ioctl_retry fd (ioctl_get_blob blob_id);
            match q with
            | None => fail_errno
            | Some blob => if length <? zlen blob then mret (inl (- EAGAIN)) else mret (inr blob)
            end
    end.

Definition name_is (name : list Z) (s : string) : bool := str_eq name (bytes_of s).

(** A blob property that may occur once and whose value is an identifier. *)
Definition blob_property_bad (seen : bool) (flags value : Z) : bool :=
  seen || (Z.land flags DRM_MODE_PROP_BLOB =? 0) || (value =? 0) || (UINT32_MAX <? value).

(** The property loop: the identifiers of the two blobs, 0 for none.  A property
    was seen exactly when its identifier is not 0, because 0 is refused. *)
Fixpoint plane_blobs (fd : Z) (props : list (Z * Z)) (in_formats qcom : Z) : St M (Z + (Z * Z)) :=
  match props with
  | [] => mret (inr (in_formats, qcom))
  | (id, value) :: props =>
      r ← get_property_metadata fd id;
      match r with
      | inl status => mret (inl status)
      | inr (name, flags) =>
          if name_is name "IN_FORMATS" then
            if blob_property_bad (negb (in_formats =? 0)) flags value then mret (inl (- EBADMSG))
            else plane_blobs fd props value qcom
          else if name_is name "capabilities" then
            if blob_property_bad (negb (qcom =? 0)) flags value then mret (inl (- EBADMSG))
            else plane_blobs fd props in_formats value
          else plane_blobs fd props in_formats qcom
      end
  end.

(** The table before it is copied out. *)
Definition plane_formats (fd plane_id query_flags : Z) : St M (Z + list adbr_format_modifier_v1) :=
  status ← fd_is_open fd;
  if status <? 0 then mret (inl status)
  else
    r ← get_object_properties fd plane_id;
    match r with
    | inl status => mret (inl status)
    | inr props =>
        r ← plane_blobs fd props 0 0;
        match r with
        | inl status => mret (inl status)
        | inr (in_formats, qcom) =>
            if in_formats =? 0 then mret (inl (- ENODATA))
            else
              r ← get_blob_alloc fd in_formats ADBR_MAX_PROPERTY_BLOB;
              match r with
              | inl status => mret (inl status)
              | inr blob =>
                  match parse_in_formats_blob blob [] with
                  | inl status => mret (inl status)
                  | inr entries =>
                      if negb (Z.land query_flags ADBR_PLANE_QUERY_QCOM_CANDIDATES =? 0) && negb (qcom =? 0) then
                        r ← get_blob_alloc fd qcom ADBR_MAX_QCOM_BLOB;
                        match r with
                        | inl status => mret (inl status)
                        | inr text => mret (parse_qcom_candidates text entries)
                        end
                      else mret (inr entries)
                  end
              end
        end
    end.

(** The status, the count stored and the entries copied to [output]. *)
Definition adbr_plane_query_formats_v1 (borrowed_fd plane_id query_flags : Z) (output : bool) (inout_count : Z)
  : St M (Z * Z * list adbr_format_modifier_v1) :=
  if (plane_id =? 0) || negb (Z.land query_flags (Z.lxor UINT32_MAX ADBR_PLANE_QUERY_QCOM_CANDIDATES) =? 0)
  then mret (- EINVAL, inout_count, [])
  else
    r ← plane_formats borrowed_fd plane_id query_flags;
    match r with
    | inl status => mret (status, inout_count, [])
    | inr entries =>
        let count := zlen entries in
        if negb output then mret (0, count, [])
        else if inout_count <? count then mret (- ENOSPC, count, [])
        else mret (0, count, entries)
    end.

(** The property loop of the gate: whether type, IN_FORMATS and capabilities were
    seen. *)
Fixpoint gate_properties (fd blob_id : Z) (props : list (Z * Z)) (saw_type saw_in_formats saw_capabilities : bool)
  : St M (Z + (bool * bool * bool)) :=
  match props with
  | [] => mret (inr (saw_type, saw_in_formats, saw_capabilities))
  | (id, value) :: props =>
      r ← get_property_metadata fd id;
      match r with
      | inl status => mret (inl status)
      | inr (name, flags) =>
          if name_is name "type" then
            if saw_type || (Z.land flags DRM_MODE_PROP_ENUM =? 0) || negb (value =? 1) then mret (inl (- EBADMSG))
            else gate_properties fd blob_id props true saw_in_formats saw_capabilities
          else if name_is name "IN_FORMATS" then
            if saw_in_formats || (Z.land flags DRM_MODE_PROP_BLOB =? 0) || negb (value =? blob_id)
            then mret (inl (- EBADMSG))
            else gate_properties fd blob_id props saw_type true saw_capabilities
          else if name_is name "capabilities" then
            if blob_property_bad saw_capabilities flags value then mret (inl (- EBADMSG))
            else gate_properties fd blob_id props saw_type saw_in_formats true
          else gate_properties fd blob_id props saw_type saw_in_formats saw_capabilities
      end
  end.

Definition adbr_preload_validate_plane_blob_v1 (borrowed_fd plane_id in_formats_blob_id fourcc modifier : Z)
  : St M Z :=
  if (borrowed_fd <? 0) || (plane_id =? 0) || (in_formats_blob_id =? 0) ||
     negb (fourcc =? DRM_FORMAT_XBGR8888) || negb (modifier =? ADBR_MODIFIER_QCOM_COMPRESSED)
  then mret (- EINVAL)
  else
    status ← kms_fd_validate borrowed_fd;
    if status <? 0 then mret status
    else
      r ← get_lease_objects_alloc borrowed_fd;
      match r with
      | inl status => mret status
      | inr lease =>
          if negb (object_set_contains lease plane_id) then mret (- EPERM)
          else
            r ← get_object_properties borrowed_fd plane_id;
            match r with
            | inl status => mret status
            | inr props =>
                r ← gate_properties borrowed_fd in_formats_blob_id props false false false;
                match r with
                | inl status => mret status
                | inr (saw_type, saw_in_formats, saw_capabilities) =>
                    if negb saw_type || negb saw_in_formats || negb saw_capabilities then mret (- ENODATA)
                    else
                      '(status, _, entries) ← adbr_plane_query_formats_v1 borrowed_fd plane_id
                        ADBR_PLANE_QUERY_QCOM_CANDIDATES true ADBR_MAX_FORMAT_MODIFIERS;
                      if status <? 0 then mret status
                      else mret (if found_linear entries fourcc && found_candidate entries fourcc modifier
                                 then 0 else - ENOTSUP)
                end
            end
      end.

(** ** Framebuffers *)

Record adbr_dmabuf_plane_v1 := DmabufPlane {
  pl_fd : Z; pl_stride : Z; pl_offset : Z; pl_reserved : Z; pl_modifier : Z }.
Record adbr_dmabuf_v1 := Dmabuf {
  db_struct_size : Z; db_abi_version : Z; db_width : Z; db_height : Z; db_fourcc : Z;
  db_plane_count : Z; db_flags : Z; db_reserved : Z;
  db_planes : list adbr_dmabuf_plane_v1   (* ADBR_MAX_PLANES of them *) }.

Record adbr_fb := Fb { fb_kms_fd : Z; fb_fb_id : Z; fb_fb_handles : list Z }.

Definition DMABUF_SIZE : Z := 128.
Definition OBSERVATION_SIZE : Z := 96.
Definition DRM_MODE_FB_MODIFIERS : Z := 2.

(** The plane loop: [used] planes remain to be checked as used ones. *)
Fixpoint planes_valid (modifier : Z) (used : nat) (planes : list adbr_dmabuf_plane_v1) : St M Z :=
  match planes with
  | [] => mret 0
  | p :: planes =>
      match used with
      | S used =>
          if (pl_stride p =? 0) || negb (pl_reserved p =? 0) || negb (pl_modifier p =? modifier)
          then mret (- EINVAL)
          else
            status ← fd_is_open (pl_fd p);
            if status <? 0 then mret status else planes_valid modifier used planes
      | O =>
          if negb (pl_fd p =? 0) || negb (pl_stride p =? 0) || negb (pl_offset p =? 0) ||
             negb (pl_reserved p =? 0) || negb (pl_modifier p =? 0)
          then mret (- EINVAL)
          else planes_valid modifier O planes
      end
  end.

Definition first_modifier (d : adbr_dmabuf_v1) : Z :=
  match db_planes d with p :: _ => pl_modifier p | [] => 0 end.

Definition adbr_dmabuf_validate_v1 (dmabuf : option adbr_dmabuf_v1) : St M Z :=
  match dmabuf with
  | None => mret (- EINVAL)
  | Some d =>
      if validate_output_header (db_struct_size d) (db_abi_version d) DMABUF_SIZE <? 0
      then mret (if db_abi_version d =? ADBR_ABI_VERSION_1 then - EINVAL else - EPROTONOSUPPORT)
      else if (db_width d =? 0) || (db_height d =? 0) || (db_fourcc d =? 0) || (db_plane_count d =? 0) ||
              (ADBR_MAX_PLANES <? db_plane_count d) || negb (db_flags d =? 0) || negb (db_reserved d =? 0)
      then mret (- EINVAL)
      else if first_modifier d =? ADBR_MODIFIER_INVALID then mret (- EINVAL)
      else planes_valid (first_modifier d) (Z.to_nat (db_plane_count d)) (db_planes d)
  end.

(** The loop with its search in the entries before: each handle once, no zero.
    [seen] are the handles before. *)
Fixpoint close_gem_loop (seen handles : list Z) : St M unit :=
  match handles with
  | [] => mret tt
  | h :: l =>
      (if (h =? 0) || existsb (Z.eqb h) seen then mret tt else ioctl_gem_close h) ;;
      close_gem_loop (seen ++ [h]) l
  end.

(** Every call passes a descriptor that is open. *)
Definition close_gem_handles (handles : list Z) : St M unit := close_gem_loop [] handles.

(** The import loop: the handles of the planes, or the status after the cleanup
    of the handles so far and of [kms_fd]. *)
Fixpoint import_planes (kms_fd : Z) (planes : list adbr_dmabuf_plane_v1) (handles : list Z) : St M (Z + list Z) :=
  match planes with
  | [] => mret (inr handles)
  | p :: planes =>
      r ← ioctl_retry kms_fd (ioctl_prime (pl_fd p));
      match r with
      | None => status ← neg_errno; close_gem_handles handles ;; sys_close kms_fd ;; mret (inl status)
      | Some h =>
          if h =? 0 then close_gem_handles handles ;; sys_close kms_fd ;; mret (inl (- EBADMSG))
          else import_planes kms_fd planes (handles ++ [h])
      end
  end.

(** An array of [ADBR_MAX_PLANES] entries, cleared and then filled from the front. *)
Definition plane_array (l : list Z) : list Z := l ++ replicate (4 - length l) 0.

Definition used_of (d : adbr_dmabuf_v1) : list adbr_dmabuf_plane_v1 := firstn (Z.to_nat (db_plane_count d)) (db_planes d).

(** The command as the import leaves it, with [handles] in the planes. *)
Definition fb_command (id : Z) (d : adbr_dmabuf_v1) (handles : list Z) : drm_mode_fb_cmd2 :=
  FbCmd id (db_width d) (db_height d) (db_fourcc d) DRM_MODE_FB_MODIFIERS (plane_array handles)
    (plane_array (pl_stride <$> used_of d)) (plane_array (pl_offset <$> used_of d))
    (plane_array (pl_modifier <$> used_of d)).

(** From the duplicated descriptor on: import the planes, allocate, register. *)
Definition fb_register (kms_fd : Z) (d : adbr_dmabuf_v1) : St M (Z + adbr_fb) :=
  r ← import_planes kms_fd (used_of d) [];
  match r with
  | inl status => mret (inl status)
  | inr handles =>
      let undo status := close_gem_handles handles ;; sys_close kms_fd ;; mret (inl status) in
      ok ← sys_alloc;
      if negb ok then undo (- ENOMEM)
      else
        r ← ioctl_retry kms_fd (ioctl_addfb2 (fb_command 0 d handles));
        match r with
        | None => status ← neg_errno; undo status
        | Some id => if id =? 0 then undo (- EBADMSG) else mret (inr (Fb kms_fd id handles))
        end
  end.

Definition adbr_fb_import_v1 (borrowed_kms_fd : Z) (dmabuf : option adbr_dmabuf_v1) (flags : Z)
  : St M (Z + adbr_fb) :=
  if negb (flags =? 0) then mret (inl (- EINVAL))
  else
    status ← adbr_dmabuf_validate_v1 dmabuf;
    if status <? 0 then mret (inl status)
    else
      match dmabuf with
      | None => mret (inl (- EINVAL))   (* refused by the validation *)
      | Some d =>
          status ← kms_fd_validate borrowed_kms_fd;
          if status <? 0 then mret (inl status)
          else
            kms_fd ← dup_cloexec borrowed_kms_fd;
            if kms_fd <? 0 then fail_errno else fb_register kms_fd d
      end.

Definition adbr_fb_get_id_v1 (fb : option adbr_fb) : Z := match fb with Some fb => fb_fb_id fb | None => 0 end.

(** The status; on failure the caller keeps [fb]. *)
Definition adbr_fb_destroy_v1 (fb : option adbr_fb) : St M Z :=
  match fb with
  | None => mret (- EINVAL)
  | Some fb =>
      let finish := close_gem_handles (fb_fb_handles fb) ;; sys_close (fb_kms_fd fb) ;; mret 0 in
      if fb_fb_id fb =? 0 then finish
      else
        r ← ioctl_retry (fb_kms_fd fb) (ioctl_rmfb (fb_fb_id fb));
        match r with None => neg_errno | Some _ => finish end
  end.

Record adbr_fb_observation_v1 := Observation {
  ob_fb_id : Z; ob_width : Z; ob_height : Z; ob_fourcc : Z; ob_plane_count : Z; ob_flags : Z;
  ob_strides : list Z; ob_offsets : list Z; ob_modifiers : list Z }.

(** The first loop on the four planes: the plane count, [None] for EBADMSG. *)
Fixpoint used_planes (i : Z) (c : list (Z * (Z * (Z * Z)))) (plane_count : Z) (saw_unused : bool) : option Z :=
  match c with
  | [] => Some plane_count
  | (h, (pitch, (offset, modifier))) :: c =>
      if negb (h =? 0) then
        if saw_unused then None else used_planes (i + 1) c (i + 1) saw_unused
      else if negb (pitch =? 0) || negb (offset =? 0) || negb (modifier =? 0) then None
      else used_planes (i + 1) c plane_count true
  end.

(** What the command says, or [None] for EBADMSG. *)
Definition observed (fb_id_ : Z) (c : drm_mode_fb_cmd2) : option adbr_fb_observation_v1 :=
  match used_planes 0 (zip (fb_handles c) (zip (fb_pitches c) (zip (fb_offsets c) (fb_modifier c)))) 0 false with
  | None => None
  | Some plane_count =>
      if (plane_count =? 0) || negb (fb_id c =? fb_id_) || (fb_width c =? 0) || (fb_height c =? 0) ||
         (fb_pixel_format c =? 0) then None
      else
        let explicit := negb (Z.land (fb_flags c) DRM_MODE_FB_MODIFIERS =? 0) in
        if explicit && existsb (fun m => negb (m =? nth 0 (fb_modifier c) 0))
             (firstn (Z.to_nat plane_count) (fb_modifier c)) then None
        else Some (Observation (fb_id c) (fb_width c) (fb_height c) (fb_pixel_format c) plane_count (fb_flags c)
               (fb_pitches c) (fb_offsets c)
               ((fun i => if (i <? plane_count) && explicit then nth (Z.to_nat i) (fb_modifier c) 0
                          else ADBR_MODIFIER_INVALID) <$> seqZ 0 ADBR_MAX_PLANES))
  end.

Definition adbr_fb_observe_v1 (borrowed_kms_fd fb_id_ struct_size abi_version : Z)
  : St M (Z + adbr_fb_observation_v1) :=
  if fb_id_ =? 0 then mret (inl (- EINVAL))
  else
    let status := validate_output_header struct_size abi_version OBSERVATION_SIZE in
    if status <? 0 then mret (inl status)
    else
      status ← kms_fd_validate borrowed_kms_fd;
      if status <? 0 then mret (inl status)
      else
        r ← ioctl_retry borrowed_kms_fd (ioctl_getfb2 fb_id_);
        match r with
        | None => fail_errno
        | Some c =>
            close_gem_handles (fb_handles c) ;;
            mret (match observed fb_id_ c with None => inl (- EBADMSG) | Some o => inr o end)
        end.

End Device.

(** ** The kernel's promises *)

(** New handles and framebuffers are new and not 0. *)
Class KmsOk (env : kms_env) : Prop := {
  kms_handle g : g !! e_new_handle env g = None /\ e_new_handle env g <> 0;
  kms_fb g : g !! e_new_fb env g = None /\ e_new_fb env g <> 0;
}.

(** Handles are not 0, and PRIME knows an open handle of the object. *)
Definition drm_wf (s : drm_state) : Prop :=
  d_gem s !! 0 = None /\ forall o h, d_prime s !! o = Some h -> d_gem s !! h = Some o.

(** The same handles and framebuffers. *)
Definition same_dev (s s' : drm_state) : Prop :=
  d_gem s' = d_gem s /\ d_prime s' = d_prime s /\ d_fbs s' = d_fbs s.
#[export] Instance same_dev_equiv : Equivalence same_dev.
Proof. split; unfold same_dev; [done|intros ? ? (? & ? & ?)|intros ? ? ? (? & ? & ?) (? & ? & ?)]; split_and!; congruence. Qed.

(** A step that opens and closes nothing. *)
Definition agree (m m' : M) : Prop := m_fds m' = m_fds m /\ same_dev (m_be m) (m_be m').
#[export] Instance agree_equiv : Equivalence agree.
Proof.
  split; unfold agree.
  - done.
  - intros m m' [H1 H2]. split; [done|by symmetry].
  - intros m m' m'' [H1 H2] [H3 H4]. split; [congruence|by etransitivity].
Qed.

Lemma agree_wf m m' : agree m m' -> drm_wf (m_be m) -> drm_wf (m_be m').
Proof. intros [_ (Hg & Hp & _)]. unfold drm_wf. by rewrite Hg, Hp. Qed.

(** [still c]: [c] opens and closes nothing. *)
Definition still {A} (c : St M A) : Prop := forall m, agree m (snd (c m)).

Create HintDb still.
Lemma still_ret {A} (a : A) : still (mret (M := St M) a).
Proof. done. Qed.
Lemma still_bind {A C} (c : St M A) (k : A -> St M C) : still c -> (forall a, still (k a)) -> still (c ≫= k).
Proof. intros Hc Hk m. rewrite bind_seq. etransitivity; [apply Hc|apply Hk]. Qed.
Lemma still_errno_is e : still (errno_is e).
Proof. done. Qed.
Lemma still_gets {A} (f : M -> A) : still (gets f).
Proof. done. Qed.
Lemma still_alloc : still sys_alloc.
Proof. intros m. unfold sys_alloc. by destruct (m_alloc m) as [|[] ?]. Qed.
Lemma still_getfd fd : still (fcntl_getfd fd).
Proof. intros m. unfold fcntl_getfd. by destruct (m_fds m !! fd). Qed.
Lemma still_set_drm f : (forall s, same_dev s (f s)) -> still (set_drm f).
Proof. intros Hf m. split; [done|apply Hf]. Qed.
#[export] Hint Resolve still_ret still_errno_is still_gets still_alloc still_getfd : still.

Ltac still_steps :=
  repeat first
    [ solve [eauto with still]
    | apply still_bind; [|intros ?]
    | apply still_set_drm; intros ?; done
    | match goal with
      | |- still (if ?b then _ else _) => destruct b
      | |- still (match ?x with _ => _ end) => destruct x
      end ].

Lemma still_sys_ioctl {A} fd (act : St M (option A)) : still act -> still (sys_ioctl fd act).
Proof. intros H. unfold sys_ioctl, refuse, drm. cbn zeta. still_steps. Qed.

Lemma still_ioctl_loop {A} n fd (act : St M (option A)) : still act -> still (ioctl_loop n fd act).
Proof. intros H. induction n as [|n IH]; cbn [ioctl_loop]; pose proof (still_sys_ioctl fd act H); unfold errno; still_steps. Qed.

(** An ioctl that may change the device: it failed and changed nothing, or [act]
    ran once and succeeded. *)
Lemma ioctl_rule {A} fd (act : St M (option A)) (Q : option A -> M -> Prop) m0 :
  (forall m1, agree m0 m1 -> Q None m1) ->
  (forall m1, agree m0 m1 ->
     match fst (act m1) with None => agree m0 (snd (act m1)) | Some a => Q (Some a) (snd (act m1)) end) ->
  forall m, agree m0 m -> Q (fst (ioctl_retry fd act m)) (snd (ioctl_retry fd act m)).
Proof.
  intros HN HA. unfold ioctl_retry. intros m Hm. rewrite bind_seq. cbn [drm gets fst snd].
  generalize (length (d_results (m_be m))). intros n.
  assert (forall m, agree m0 m -> (exists a, fst (sys_ioctl fd act m) = Some a /\ Q (Some a) (snd (sys_ioctl fd act m))) \/
    (fst (sys_ioctl fd act m) = None /\ agree m0 (snd (sys_ioctl fd act m)))) as Hone.
  { clear m Hm. intros m Hm. unfold sys_ioctl. rewrite bind_seq. cbn [gets fst snd].
    destruct (m_fds m !! fd); [|right; split; [done|exact Hm]]. rewrite bind_seq. cbn [drm gets fst snd]. cbn zeta.
    assert (forall m1, agree m0 m1 -> forall x,
      x = (set_drm (fun s => Drm (d_results s) (S (d_tick s)) (d_gem s) (d_prime s) (d_fbs s)) ;; act) m1 ->
      (exists a, fst x = Some a /\ Q (Some a) (snd x)) \/ (fst x = None /\ agree m0 (snd x))) as Hrun.
    { intros m1 Hm1 x ->. rewrite bind_seq. cbn [set_drm modify fst snd].
      match goal with |- context [act ?m2] => assert (agree m0 m2) as H2; [|specialize (HA m2 H2); destruct (act m2) as [[a|] m3]] end.
      - destruct Hm1 as [H1 H2]. split; [done|]. exact H2.
      - left. eauto.
      - right. split; [done|exact HA]. }
    destruct (d_results (m_be m)) as [|v l]; [by apply (Hrun m)|]. rewrite bind_seq. cbn [set_drm modify fst snd].
    destruct (v <? 0); [right; split; [done|exact Hm]|]. eapply Hrun; [|reflexivity]. exact Hm. }
  revert m Hm. induction n as [|n IH]; intros m Hm; cbn [ioctl_loop]; rewrite bind_seq;
    destruct (Hone m Hm) as [(a & Ea & HQ)|[En Hag]]; rewrite ?Ea, ?En; try exact HQ; rewrite bind_seq; cbn [errno gets fst snd].
  - by apply HN.
  - destruct (_ =? EINTR); [by apply IH|by apply HN].
Qed.

Lemma still_ioctl_retry {A} fd (act : St M (option A)) : still act -> still (ioctl_retry fd act).
Proof. intros H. unfold ioctl_retry, drm. apply still_bind; [apply still_gets|]. intros s. by apply still_ioctl_loop. Qed.

Section Still.
Context (env : kms_env).

Lemma still_neg_errno : still neg_errno.
Proof. done. Qed.
Lemma still_fail_errno {A} : still (@fail_errno A).
Proof. done. Qed.
Lemma still_fd_is_open fd : still (fd_is_open fd).
Proof. unfold fd_is_open, neg_errno, errno. still_steps. Qed.
Lemma still_get_lease n : still (ioctl_get_lease env n).
Proof. done. Qed.
Lemma still_get_properties o n : still (ioctl_get_properties env o n).
Proof. done. Qed.
Lemma still_get_property i : still (ioctl_get_property env i).
Proof. unfold ioctl_get_property, refuse. still_steps. Qed.
Lemma still_get_blob i : still (ioctl_get_blob env i).
Proof. unfold ioctl_get_blob, refuse. still_steps. Qed.
Lemma still_ok : still ioctl_ok.
Proof. done. Qed.
#[local] Hint Resolve still_neg_errno still_fail_errno still_fd_is_open still_get_lease still_get_properties
  still_get_property still_get_blob still_ok still_ioctl_retry : still.

Lemma still_kms_validate fd : still (kms_fd_validate env fd).
Proof. unfold kms_fd_validate. still_steps. Qed.

Lemma still_lease_objects fd : still (get_lease_objects_alloc env fd).
Proof.
  assert (forall n, still (lease_attempts env n fd)) as H.
  { intros n. induction n as [|n IH]; cbn [lease_attempts]; still_steps. }
  unfold get_lease_objects_alloc. still_steps.
Qed.

Lemma still_dmabuf_validate d : still (adbr_dmabuf_validate_v1 d).
Proof.
  assert (forall x l n, still (planes_valid x n l)) as H.
  { intros x l. induction l as [|p l IH]; intros [|n]; cbn [planes_valid]; still_steps. }
  unfold adbr_dmabuf_validate_v1. still_steps.
Qed.

Lemma still_properties fd o : still (get_object_properties env fd o).
Proof. unfold get_object_properties. still_steps. Qed.
Lemma still_metadata fd i : still (get_property_metadata env fd i).
Proof. unfold get_property_metadata. still_steps. Qed.
Lemma still_blob fd i n : still (get_blob_alloc env fd i n).
Proof. unfold get_blob_alloc. still_steps. Qed.

End Still.
#[export] Hint Resolve still_neg_errno still_fail_errno still_fd_is_open still_kms_validate still_lease_objects
  still_dmabuf_validate still_properties still_metadata still_blob : still.

(** ** Closing handles *)

Definition gem_without (hs : list Z) (s : drm_state) : gmap Z Z := filter (fun kv => kv.1 ∉ hs) (d_gem s).
Definition prime_without (hs : list Z) (s : drm_state) : gmap Z Z := filter (fun kv => kv.2 ∉ hs) (d_prime s).

Lemma filter_all {V} (P : Z * V -> Prop) {HP : forall x, Decision (P x)} (g : gmap Z V) :
  (forall k v, g !! k = Some v -> P (k, v)) -> filter P g = g.
Proof. intros H. apply map_filter_id. exact H. Qed.

Lemma without_cons h l s s' :
  d_gem s' = delete h (d_gem s) -> d_prime s' = filter (fun kv => kv.2 <> h) (d_prime s) ->
  gem_without l s' = gem_without (h :: l) s /\ prime_without l s' = prime_without (h :: l) s.
Proof.
  intros Hg Hp. unfold gem_without, prime_without. rewrite Hg, Hp. split.
  - apply map_eq. intros k. apply option_eq. intros v. rewrite !map_lookup_filter_Some, lookup_delete_Some.
    cbn. rewrite not_elem_of_cons. naive_solver.
  - apply map_eq. intros k. apply option_eq. intros v. rewrite !map_lookup_filter_Some. cbn.
    rewrite not_elem_of_cons. naive_solver.
Qed.

(** One GEM_CLOSE: the handle is gone from both tables. *)
Definition closed_one (h : Z) (m m' : M) : Prop :=
  m_fds m' = m_fds m /\ d_fbs (m_be m') = d_fbs (m_be m) /\ d_gem (m_be m') = delete h (d_gem (m_be m)) /\
  d_prime (m_be m') = filter (fun kv => kv.2 <> h) (d_prime (m_be m)).

Lemma not_open_closed h m : drm_wf (m_be m) -> d_gem (m_be m) !! h = None -> closed_one h m m.
Proof.
  intros [_ Hw] Hn. split; [done|]. split; [done|]. split; [symmetry; by apply delete_id|].
  symmetry. apply filter_all. intros o h' Hp. cbn. intros ->. apply Hw in Hp. congruence.
Qed.

Lemma gem_close_one h m : drm_wf (m_be m) -> closed_one h m (snd (ioctl_gem_close h m)).
Proof.
  intros Hwf. unfold ioctl_gem_close. rewrite bind_seq. cbn [drm gets fst snd].
  destruct (d_gem (m_be m) !! h) as [o|] eqn:E; [|by apply (not_open_closed h m)].
  split; [done|]. split; [done|]. split; [done|]. cbn [set_drm modify snd set_be m_be d_prime].
  apply map_eq. intros k. apply option_eq. intros v. rewrite map_lookup_filter_Some. cbn.
  destruct Hwf as [_ Hw]. case_bool_decide as Hp.
  - rewrite lookup_delete_Some. split.
    + intros [Hk Hv]. split; [done|]. intros ->. apply Hw in Hv as Hv'. rewrite E in Hv'. congruence.
    + intros [Hv Hne]. split; [congruence|done].
  - split; [|naive_solver]. intros Hv. split; [done|]. intros ->. apply Hw in Hv as Hv'. rewrite E in Hv'. congruence.
Qed.

Lemma closed_one_wf h m m' : closed_one h m m' -> drm_wf (m_be m) -> drm_wf (m_be m').
Proof.
  intros (_ & _ & Hg & Hp) [H0 Hw]. split.
  - rewrite Hg. apply lookup_delete_None. by right.
  - intros o k. rewrite Hp, map_lookup_filter_Some, Hg. cbn. intros [Ho Hne]. rewrite lookup_delete_ne by done. by apply Hw.
Qed.

(** The loop closes exactly the handles of its array. *)
Lemma close_loop_effect handles seen m : drm_wf (m_be m) -> (forall h, h ∈ seen -> d_gem (m_be m) !! h = None) ->
  let m' := snd (close_gem_loop seen handles m) in
  m_fds m' = m_fds m /\ d_fbs (m_be m') = d_fbs (m_be m) /\ drm_wf (m_be m') /\
  d_gem (m_be m') = gem_without handles (m_be m) /\ d_prime (m_be m') = prime_without handles (m_be m).
Proof.
  revert seen m. induction handles as [|h l IH]; intros seen m Hwf Hseen; cbn zeta; cbn [close_gem_loop].
  - unfold gem_without, prime_without. cbn. rewrite !filter_all by (intros; apply not_elem_of_nil). done.
  - rewrite bind_seq. match goal with |- context [close_gem_loop _ l ?x] => set (m1 := x) end.
    assert (closed_one h m m1) as Hc.
    { subst m1. destruct (_ || _) eqn:E; [|by apply gem_close_one]. apply not_open_closed; [done|].
      apply orb_true_iff in E as [->%Z.eqb_eq|E]; [apply Hwf|]. apply existsb_exists in E as (x & Hx%list_elem_of_In & ->%Z.eqb_eq).
      by apply Hseen. }
    destruct (IH (seen ++ [h]) m1) as (H1 & H2 & H3 & H4 & H5); [by eapply closed_one_wf| |].
    { destruct Hc as (_ & _ & Hg & _). intros x [Hx| ->%list_elem_of_singleton]%elem_of_app; rewrite Hg.
      - apply lookup_delete_None. right. by apply Hseen.
      - apply lookup_delete_eq. }
    destruct Hc as (C1 & C2 & C3 & C4). destruct (without_cons h l (m_be m) (m_be m1) C3 C4) as [W1 W2].
    split_and!; congruence.
Qed.

(** Handles that were added to [s] are taken away again. *)
Definition added_to (s : drm_state) (hs : list Z) (s' : drm_state) : Prop :=
  drm_wf s' /\ gem_without hs s' = d_gem s /\ prime_without hs s' = d_prime s.

Lemma close_restores s hs m : added_to s hs (m_be m) ->
  let m' := snd (close_gem_handles hs m) in
  m_fds m' = m_fds m /\ d_gem (m_be m') = d_gem s /\ d_prime (m_be m') = d_prime s /\ d_fbs (m_be m') = d_fbs (m_be m).
Proof.
  intros (Hw & Hg & Hp). cbn zeta. unfold close_gem_handles.
  destruct (close_loop_effect hs [] m Hw) as (H1 & H2 & _ & H4 & H5); [by intros h Hh%elem_of_nil|].
  rewrite H4, H5, Hg, Hp. done.
Qed.

Lemma added_nil s : drm_wf s -> added_to s [] s.
Proof.
  intros Hw. unfold added_to, gem_without, prime_without.
  rewrite !filter_all by (intros; apply not_elem_of_nil). done.
Qed.

(** ** Importing *)

Lemma without_same_set hs hs' s : (forall h, h ∈ hs <-> h ∈ hs') ->
  gem_without hs s = gem_without hs' s /\ prime_without hs s = prime_without hs' s.
Proof.
  intros H. unfold gem_without, prime_without.
  split; apply map_filter_ext; intros k v _; cbn; rewrite H; done.
Qed.

Lemma neg_errno_neg m : fst (neg_errno m) < 0.
Proof.
  unfold neg_errno. rewrite bind_seq. cbn. destruct (Z.ltb_spec 0 (m_errno m)); [lia|]. unfold EIO. lia.
Qed.

(** The handles of an observation: 0 for an unused plane. *)
Section Observing.
Context (s0 : drm_state).

(** The state of a call that began in [s0]: [hs] are the handles it has. *)
Definition importing (hs : list Z) (m : M) : Prop :=
  added_to s0 hs (m_be m) /\ d_fbs (m_be m) = d_fbs s0.

Lemma importing_agree hs m m' : agree m m' -> importing hs m -> importing hs m'.
Proof.
  intros [_ (Hg & Hp & Hf)] [(Hw & H1 & H2) H3]. unfold importing, added_to, drm_wf, gem_without, prime_without in *.
  by rewrite Hg, Hp, Hf.
Qed.
End Observing.

(** *** What an import adds and an undo takes away *)

Section ImportProof.
Context (env : kms_env) {Hk : KmsOk env} (s0 : drm_state) (Hs0 : drm_wf s0).
Implicit Types planes : list adbr_dmabuf_plane_v1.

(** [h] is the handle the file already had for the object of one of the planes. *)
Definition had_handle planes (h : Z) : Prop :=
  exists p o, p ∈ planes /\ e_object env (pl_fd p) = Some o /\ d_prime s0 !! o = Some h.
(** The file had none. *)
Definition unshared planes : Prop := forall p o, p ∈ planes -> e_object env (pl_fd p) = Some o -> d_prime s0 !! o = None.

(** [hs] are the handles of the planes so far; apart from them nothing changed. *)
Record brought planes (hs : list Z) (m : M) : Prop := {
  br_wf : drm_wf (m_be m);
  br_gem : gem_without hs (m_be m) = gem_without hs s0;
  br_prime : prime_without hs (m_be m) = prime_without hs s0;
  br_fbs : d_fbs (m_be m) = d_fbs s0;
  br_objects : Forall2 (fun p h => exists o, e_object env (pl_fd p) = Some o /\ d_gem (m_be m) !! h = Some o) planes hs;
  br_new : forall h, h ∈ hs -> d_gem s0 !! h = None \/ had_handle planes h }.

Lemma brought_agree planes hs m m' : agree m m' -> brought planes hs m -> brought planes hs m'.
Proof.
  intros [_ (Hg & Hp & Hf)] [H1 H2 H3 H4 H5 H6]. unfold drm_wf, gem_without, prime_without in *.
  split; unfold drm_wf, gem_without, prime_without; by rewrite ?Hg, ?Hp, ?Hf.
Qed.

Lemma brought_nil m : same_dev s0 (m_be m) -> brought [] [] m.
Proof.
  intros (Hg & Hp & Hf). unfold gem_without, prime_without, drm_wf in *.
  split; unfold drm_wf, gem_without, prime_without; rewrite ?Hg, ?Hp; try done. by intros h Hh%elem_of_nil.
Qed.

(** What is left when the handles [hs] of [planes] are given up. *)
Definition given_up planes (hs : list Z) (s' : drm_state) : Prop :=
  d_fbs s' = d_fbs s0 /\ d_gem s' = gem_without hs s0 /\ d_prime s' = prime_without hs s0 /\
  forall h, h ∈ hs -> d_gem s0 !! h = None \/ had_handle planes h.

(** Without shared handles that is what was there before. *)
Lemma given_up_unshared planes hs s' : given_up planes hs s' -> unshared planes -> same_dev s0 s'.
Proof.
  intros (H1 & H2 & H3 & H4) Hun. assert (forall h, h ∈ hs -> d_gem s0 !! h = None) as Hnone.
  { intros h [?|(p & o & Hp & Ho & Hh)]%H4; [done|]. by rewrite (Hun p o Hp Ho) in Hh. }
  unfold gem_without, prime_without in *. split_and!; [rewrite H2|rewrite H3|done]; apply filter_all.
  - intros k v Hv. cbn. intros Hin%Hnone. congruence.
  - intros k v Hv. cbn. intros Hin%Hnone. apply Hs0 in Hv. congruence.
Qed.

Lemma prime_step planes hs p m : brought planes hs m ->
  match fst (ioctl_prime env (pl_fd p) m) with
  | None => agree m (snd (ioctl_prime env (pl_fd p) m))
  | Some h => h <> 0 /\ m_fds (snd (ioctl_prime env (pl_fd p) m)) = m_fds m /\
              brought (planes ++ [p]) (hs ++ [h]) (snd (ioctl_prime env (pl_fd p) m))
  end.
Proof.
  intros [[H0 Hwp] Hg Hp Hf Hobj Hnew]. unfold ioctl_prime.
  destruct (e_object env (pl_fd p)) as [o|] eqn:Eo; [|done]. rewrite bind_seq. cbn [drm gets fst snd].
  assert (forall h, had_handle planes h -> had_handle (planes ++ [p]) h) as Hmore.
  { intros h (q & o' & Hq & ?). exists q, o'. split; [|done]. apply elem_of_app. by left. }
  destruct (d_prime (m_be m) !! o) as [h|] eqn:Eh.
  - cbn [mret st_ret fst snd]. split; [intros ->; apply Hwp in Eh; congruence|]. split; [done|].
    assert (h ∈ hs \/ d_prime s0 !! o = Some h) as Hin.
    { destruct (decide (h ∈ hs)) as [|Hni]; [by left|right].
      assert (prime_without hs (m_be m) !! o = Some h) as Hx by (by apply map_lookup_filter_Some).
      rewrite Hp in Hx. by apply map_lookup_filter_Some in Hx as [? _]. }
    assert (forall s, gem_without (hs ++ [h]) s = filter (fun kv => kv.1 <> h) (gem_without hs s) /\
      prime_without (hs ++ [h]) s = filter (fun kv => kv.2 <> h) (prime_without hs s)) as Hsplit.
    { intros s. unfold gem_without, prime_without. rewrite !map_filter_filter. split; apply map_filter_ext;
        intros k v _; cbn; rewrite not_elem_of_app, list_elem_of_singleton; tauto. }
    split; try done.
    + destruct (Hsplit (m_be m)) as [-> _], (Hsplit s0) as [-> _]. by rewrite Hg.
    + destruct (Hsplit (m_be m)) as [_ ->], (Hsplit s0) as [_ ->]. by rewrite Hp.
    + apply Forall2_app; [done|]. constructor; [|constructor]. exists o. split; [done|]. by apply Hwp.
    + intros k [Hk'| ->%list_elem_of_singleton]%elem_of_app; [destruct (Hnew k Hk'); auto|].
      destruct Hin as [Hin|Hin]; [destruct (Hnew h Hin); auto|]. right. exists p, o. split; [|done]. apply elem_of_app. right. by left.
  - rewrite bind_seq. cbn [set_drm modify fst snd mret st_ret]. cbn zeta.
    destruct (kms_handle (d_gem (m_be m))) as [Hfresh Hnz]. set (h := e_new_handle env (d_gem (m_be m))) in *.
    assert (forall k v, d_prime (m_be m) !! k = Some v -> v <> h) as Hvals.
    { intros k v Hv ->. apply Hwp in Hv. congruence. }
    assert (h ∉ hs) as Hnin.
    { intros Hin. apply list_elem_of_lookup in Hin as [i Hi]. destruct (Forall2_lookup_r _ _ _ _ _ Hobj Hi) as (q & _ & o' & _ & Hq). congruence. }
    assert (d_gem s0 !! h = None) as Hfresh0.
    { destruct (d_gem s0 !! h) as [v|] eqn:Ev; [|done].
      assert (gem_without hs s0 !! h = Some v) as Hx by (by apply map_lookup_filter_Some).
      rewrite <- Hg in Hx. apply map_lookup_filter_Some in Hx as [Hx _]. congruence. }
    split; [done|]. split; [done|]. split; cbn [m_be set_be d_fbs].
    + split; cbn [d_gem d_prime].
      * rewrite lookup_insert_ne by done. done.
      * intros k v. rewrite lookup_insert_Some. intros [[<- <-]|[Hne Hv]]; [apply lookup_insert_eq|].
        rewrite lookup_insert_ne by (symmetry; by eapply Hvals). by apply Hwp.
    + assert (gem_without (hs ++ [h]) s0 = gem_without hs s0) as ->.
      { apply map_filter_ext. intros k v Hv. cbn. rewrite not_elem_of_app, list_elem_of_singleton.
        split; [tauto|]. intros ?. split; [done|]. intros ->. congruence. }
      rewrite <- Hg. unfold gem_without. cbn [d_gem]. apply map_eq. intros k. apply option_eq. intros v.
      rewrite !map_lookup_filter_Some, lookup_insert_Some. cbn. rewrite not_elem_of_app, not_elem_of_cons.
      destruct (decide (k = h)) as [->|]; [|set_solver]. split; [naive_solver|]. intros [Hv _]. congruence.
    + assert (prime_without (hs ++ [h]) s0 = prime_without hs s0) as ->.
      { apply map_filter_ext. intros k v Hv. cbn. rewrite not_elem_of_app, list_elem_of_singleton.
        split; [tauto|]. intros ?. split; [done|]. intros ->. apply Hs0 in Hv. congruence. }
      rewrite <- Hp. unfold prime_without. cbn [d_prime]. apply map_eq. intros k. apply option_eq. intros v.
      rewrite !map_lookup_filter_Some, lookup_insert_Some. cbn. rewrite not_elem_of_app, list_elem_of_singleton.
      destruct (decide (k = o)) as [->|].
      * rewrite Eh. split; [naive_solver|]. intros [[=] _].
      * split; [naive_solver|]. intros [Hv Hni]. split; [by right|]. split; [done|]. by eapply Hvals.
    + done.
    + apply Forall2_app.
      * eapply Forall2_impl; [exact Hobj|]. intros q k (o' & Ho' & Hk'). exists o'. split; [done|]. cbn [d_gem].
        rewrite lookup_insert_ne; [done|]. intros <-. congruence.
      * constructor; [|constructor]. exists o. split; [done|]. apply lookup_insert_eq.
    + intros k [Hk'| ->%list_elem_of_singleton]%elem_of_app; [destruct (Hnew k Hk'); auto|by left].
Qed.

(** Undoing: the handles and the duplicated descriptor. *)
Definition undone (t : gmap Z fd_info) planes (m : M) : Prop := m_fds m = t /\ exists hs, given_up planes hs (m_be m).

Lemma close_sys kms_fd (m : M) t : installed t (m_fds m) [kms_fd] ->
  m_fds (snd (sys_close kms_fd m)) = t /\ m_be (snd (sys_close kms_fd m)) = m_be m.
Proof.
  intros Hi. pose proof (close_all_installed t [kms_fd] m Hi) as Hc. cbn in Hc. rewrite bind_seq in Hc.
  split; [exact Hc|]. unfold sys_close. by destruct (_ !! _).
Qed.

Lemma undo_effect {A} t kms_fd planes all hs (r : A) m : installed t (m_fds m) [kms_fd] -> brought planes hs m ->
  (forall p, p ∈ planes -> p ∈ all) ->
  let x := (close_gem_handles hs ;; sys_close kms_fd ;; mret r) m in fst x = r /\ undone t all (snd x).
Proof.
  intros Hi [Hw Hg Hp Hf _ Hnew] Hsub. cbn zeta. rewrite !bind_seq. unfold close_gem_handles.
  destruct (close_loop_effect hs [] m Hw) as (H1 & H2 & _ & H4 & H5); [by intros h Hh%elem_of_nil|].
  set (m1 := snd (close_gem_loop [] hs m)) in *. split; [done|]. cbn [mret st_ret snd]. rewrite <- H1 in Hi.
  destruct (close_sys kms_fd m1 t Hi) as [C1 C2]. split; [exact C1|]. exists hs. rewrite C2. split_and!; try congruence.
  intros h [?|(p & o & Hin & ?)]%Hnew; [by left|right]. exists p, o. auto.
Qed.

Lemma import_planes_effect t kms_fd all planes before hs m : all = before ++ planes ->
  installed t (m_fds m) [kms_fd] -> brought before hs m ->
  let x := import_planes env kms_fd planes hs m in
  match fst x with
  | inl status => status < 0 /\ undone t all (snd x)
  | inr handles => m_fds (snd x) = m_fds m /\ brought all handles (snd x)
  end.
Proof.
  revert before hs m. induction planes as [|p planes IH]; intros before hs m Hall Hi Him; cbn zeta; cbn [import_planes].
  { rewrite app_nil_r in Hall. by subst all. }
  rewrite bind_seq.
  assert (forall m1, agree m m1 -> match fst (ioctl_prime env (pl_fd p) m1) with
    | None => agree m (snd (ioctl_prime env (pl_fd p) m1))
    | Some a => a <> 0 /\ m_fds (snd (ioctl_prime env (pl_fd p) m1)) = m_fds m /\
                brought (before ++ [p]) (hs ++ [a]) (snd (ioctl_prime env (pl_fd p) m1)) end) as Hstep.
  { intros m1 Hm1. pose proof (prime_step before hs p m1 (brought_agree _ _ _ _ Hm1 Him)) as Hs.
    destruct (fst (ioctl_prime env (pl_fd p) m1)) as [h|]; [|by etransitivity].
    destruct Hs as (? & Hfd & ?). destruct Hm1 as [Hfd1 _]. split_and!; congruence. }
  pose proof (ioctl_rule kms_fd (ioctl_prime env (pl_fd p)) (fun r m1 => match r with
    | None => agree m m1
    | Some h => h <> 0 /\ m_fds m1 = m_fds m /\ brought (before ++ [p]) (hs ++ [h]) m1 end) m
    (fun m1 H => H) Hstep m ltac:(done)) as Hr. clear Hstep.
  destruct (ioctl_retry kms_fd (ioctl_prime env (pl_fd p)) m) as [[h|] m1]; cbn [fst snd] in *.
  - destruct Hr as (Hnz & Hfd & Him1). destruct (Z.eqb_spec h 0); [done|].
    specialize (IH (before ++ [p]) (hs ++ [h]) m1). cbn zeta in IH. rewrite Hfd in IH. apply IH; [|done..].
    by rewrite <- app_assoc.
  - rewrite bind_seq. pose proof (neg_errno_neg m1) as Hneg.
    destruct (undo_effect t kms_fd before all hs (@inl Z (list Z) (fst (neg_errno m1))) (snd (neg_errno m1))) as [E Hun'].
    + destruct Hr as [Hfd _]. change (installed t (m_fds m1) [kms_fd]). by rewrite Hfd.
    + by apply (brought_agree before hs m m1).
    + intros q Hq. subst all. apply elem_of_app. by left.
    + rewrite E. done.
Qed.

(** ADDFB2 on an import: nothing, or the framebuffer the buffer describes. *)
Definition registered (d : adbr_dmabuf_v1) (hs : list Z) (id : Z) (m : M) : Prop :=
  id <> 0 /\ d_fbs s0 !! id = None /\
  gem_without hs (m_be m) = gem_without hs s0 /\ prime_without hs (m_be m) = prime_without hs s0 /\
  Forall2 (fun p h => exists o, e_object env (pl_fd p) = Some o /\ d_gem (m_be m) !! h = Some o) (used_of d) hs /\
  exists objects, mapM (fun p => e_object env (pl_fd p)) (used_of d) = Some objects /\
    d_fbs (m_be m) = <[id := fb_command id d objects]> (d_fbs s0).

(** The command names the objects of the planes. *)
Lemma command_objects d hs m objects : brought (used_of d) hs m ->
  mapM (fun h => if h =? 0 then Some 0 else d_gem (m_be m) !! h) (plane_array hs) = Some objects ->
  exists l, mapM (fun p => e_object env (pl_fd p)) (used_of d) = Some l /\ objects = plane_array l.
Proof.
  intros [[H0 _] _ _ _ Hobj _] Hm. unfold plane_array in *. apply mapM_Some in Hm. apply Forall2_app_inv_l in Hm as (l & z & Hl & Hz & ->).
  assert (Forall2 (fun p o => e_object env (pl_fd p) = Some o) (used_of d) l) as Hp.
  { clear Hz. revert l Hl. induction Hobj as [|p h ps hs' (o & Ho & Hh) _ IH]; intros l Hl.
    - by apply Forall2_nil_inv_l in Hl as ->.
    - apply Forall2_cons_inv_l in Hl as (o' & l' & Ho' & Hl & ->). constructor; [|by apply IH].
      destruct (Z.eqb_spec h 0); [congruence|congruence]. }
  exists l. split; [by apply mapM_Some|]. f_equal. rewrite (Forall2_length _ _ _ Hl) in Hz. revert z Hz.
  generalize (4 - length l)%nat. intros n. induction n as [|n IH]; intros z Hz; cbn in Hz.
  - by apply Forall2_nil_inv_l in Hz as ->.
  - apply Forall2_cons_inv_l in Hz as (o & z' & [= <-] & Hz & ->). cbn. f_equal. by apply IH.
Qed.

Lemma addfb_effect d hs fd m : brought (used_of d) hs m ->
  let x := ioctl_retry fd (ioctl_addfb2 env (fb_command 0 d hs)) m in
  match fst x with
  | None => agree m (snd x)
  | Some id => m_fds (snd x) = m_fds m /\ registered d hs id (snd x)
  end.
Proof.
  intros Him. cbn zeta. apply (ioctl_rule fd (ioctl_addfb2 env (fb_command 0 d hs)) (fun r m1 => match r with
    | None => agree m m1 | Some id => m_fds m1 = m_fds m /\ registered d hs id m1 end) m); [done| |done].
  intros m1 Hm1. pose proof (brought_agree _ _ _ _ Hm1 Him) as Hb. unfold ioctl_addfb2. rewrite bind_seq.
  cbn [drm gets fst snd fb_command fb_handles]. destruct (mapM _ (plane_array hs)) as [objects|] eqn:E; [|exact Hm1]. cbn zeta.
  destruct (command_objects d hs m1 objects Hb E) as (l & Hl & ->). destruct Hb as [_ Hg Hp Hf Hobj _].
  rewrite bind_seq. cbn [set_drm modify fst snd mret st_ret].
  destruct (kms_fb (d_fbs (m_be m1))) as [Hfresh Hnz]. destruct Hm1 as [Hfd _].
  split; [exact Hfd|]. split; [done|]. split; [by rewrite <- Hf|]. split; [exact Hg|]. split; [exact Hp|]. split; [exact Hobj|].
  exists l. split; [exact Hl|]. cbn [m_be set_be d_fbs]. by rewrite Hf.
Qed.

Lemma fb_register_effect t kms_fd d m : installed t (m_fds m) [kms_fd] -> same_dev s0 (m_be m) ->
  let x := fb_register env kms_fd d m in
  match fst x with
  | inl status => status < 0 /\ undone t (used_of d) (snd x)
  | inr fb => fb_kms_fd fb = kms_fd /\ m_fds (snd x) = m_fds m /\
      registered d (fb_fb_handles fb) (fb_fb_id fb) (snd x) /\
      (forall h, h ∈ fb_fb_handles fb -> d_gem s0 !! h = None \/ had_handle (used_of d) h)
  end.
Proof.
  intros Hi Hsame. cbn zeta. unfold fb_register. rewrite bind_seq.
  pose proof (import_planes_effect t kms_fd (used_of d) (used_of d) [] [] m eq_refl Hi (brought_nil m Hsame)) as Himp. cbn zeta in Himp.
  destruct (import_planes env kms_fd (used_of d) [] m) as [[st4|hs] m4]; cbn [fst snd] in *; [exact Himp|].
  destruct Himp as [Hfd4 Him4]. cbn zeta.
  assert (forall status m', status < 0 -> m_fds m' = m_fds m -> brought (used_of d) hs m' ->
    forall x, x = (close_gem_handles hs ;; sys_close kms_fd ;; mret (@inl Z adbr_fb status)) m' ->
    match fst x with
    | inl st => st < 0 /\ undone t (used_of d) (snd x)
    | inr fb => fb_kms_fd fb = kms_fd /\ m_fds (snd x) = m_fds m /\ registered d (fb_fb_handles fb) (fb_fb_id fb) (snd x) /\
        (forall h, h ∈ fb_fb_handles fb -> d_gem s0 !! h = None \/ had_handle (used_of d) h)
    end) as Hundo.
  { intros status m' Hneg H1 H2 x ->. destruct (undo_effect t kms_fd (used_of d) (used_of d) hs (@inl Z adbr_fb status) m') as [-> Hu];
      [by rewrite H1|done|done|done]. }
  rewrite bind_seq. pose proof (still_alloc m4) as Q5. destruct (sys_alloc m4) as [ok m5]. cbn [fst snd] in *.
  pose proof (brought_agree _ _ _ _ Q5 Him4) as Him5. assert (m_fds m5 = m_fds m) as Hfd5 by (destruct Q5; congruence).
  destruct (negb ok); [by apply (Hundo (- ENOMEM) m5)|].
  rewrite bind_seq. pose proof (addfb_effect d hs kms_fd m5 Him5) as Hadd. cbn zeta in Hadd.
  destruct (ioctl_retry kms_fd (ioctl_addfb2 env (fb_command 0 d hs)) m5) as [[id|] m6]; cbn [fst snd] in *.
  - destruct Hadd as [Hfd6 Hreg]. destruct (Z.eqb_spec id 0); [by destruct Hreg|]. cbn. split; [done|]. split; [congruence|].
    split; [exact Hreg|]. apply (br_new _ _ _ Him5).
  - rewrite bind_seq. apply (Hundo (fst (neg_errno m6)) m6); [apply neg_errno_neg|destruct Hadd; congruence| |done].
    by apply (brought_agree (used_of d) hs m5).
Qed.
End ImportProof.

(** *** Destroying *)

(** RMFB removes the framebuffer, then each handle and the descriptor go. *)
Definition removed (fb : adbr_fb) (m m' : M) : Prop :=
  m_fds m' = delete (fb_kms_fd fb) (m_fds m) /\ d_fbs (m_be m') = delete (fb_fb_id fb) (d_fbs (m_be m)) /\
  d_gem (m_be m') = gem_without (fb_fb_handles fb) (m_be m) /\
  d_prime (m_be m') = prime_without (fb_fb_handles fb) (m_be m).

Lemma destroy_effect fb m : drm_wf (m_be m) -> fb_fb_id fb <> 0 ->
  let y := adbr_fb_destroy_v1 (Some fb) m in
  (fst y = 0 /\ removed fb m (snd y)) \/ (fst y < 0 /\ agree m (snd y)).
Proof.
  intros Hw Hid. cbn zeta. unfold adbr_fb_destroy_v1. cbn zeta.
  destruct (Z.eqb_spec (fb_fb_id fb) 0) as [E|_]; [done|]. rewrite bind_seq.
  pose proof (ioctl_rule (fb_kms_fd fb) (ioctl_rmfb (fb_fb_id fb)) (fun r m1 => match r with
    | None => agree m m1
    | Some _ => m_fds m1 = m_fds m /\ d_gem (m_be m1) = d_gem (m_be m) /\ d_prime (m_be m1) = d_prime (m_be m) /\
        d_fbs (m_be m1) = delete (fb_fb_id fb) (d_fbs (m_be m)) end) m (fun m1 H => H)) as Hr.
  lapply Hr; clear Hr; [intros Hr; specialize (Hr m ltac:(done))|].
  - destruct (ioctl_retry _ _ m) as [[[]|] m1]; cbn [fst snd] in *; [left|right; split; [apply neg_errno_neg|exact Hr]].
    destruct Hr as (Hfd & Hg & Hp & Hf). rewrite !bind_seq. cbn [mret st_ret fst snd]. split; [done|].
    assert (drm_wf (m_be m1)) as Hw1 by (unfold drm_wf in *; by rewrite Hg, Hp). unfold close_gem_handles.
    destruct (close_loop_effect (fb_fb_handles fb) [] m1 Hw1) as (H1 & H2 & _ & H4 & H5); [by intros h Hh%elem_of_nil|].
    set (m2 := snd (close_gem_loop [] (fb_fb_handles fb) m1)) in *. unfold gem_without, prime_without in *.
    unfold removed, gem_without, prime_without, sys_close.
    destruct (m_fds m2 !! fb_kms_fd fb) as [f|] eqn:Ef; cbn; (split_and!; [|congruence|congruence|congruence]); [congruence|].
    rewrite <- Hfd, <- H1. symmetry. by apply delete_id.
  - intros m1 Hm1. unfold ioctl_rmfb. rewrite bind_seq. cbn [drm gets fst snd].
    destruct Hm1 as [Hfd (Hg & Hp & Hfb)]. destruct (d_fbs (m_be m1) !! _) as [l|]; [|done].
    rewrite bind_seq. cbn [set_drm modify fst snd mret st_ret m_be set_be d_gem d_prime d_fbs m_fds]. split_and!; congruence.
Qed.

(** ** Properties *)

(** C28. The life of a framebuffer.  An import fails with a negative status, or it
    returns a framebuffer that owns one new descriptor and a handle for the object of
    each plane, under a new nonzero identifier; the device then shows under it exactly
    what the buffer describes, its size, format and modifiers flag and each plane's
    object, pitch, offset and modifier, and apart from the handles nothing else
    changed.  A failed import leaves descriptors and framebuffers as they were, and of
    the handles it gives up each was new or the one the file already had for one of
    the buffer's own objects; when the file had none, everything is as before.  In any
    later state, destroying the framebuffer removes it, its handles and its descriptor
    and nothing else, or fails with a negative status and changes nothing, so that the
    call can be repeated; right after the import of a buffer the file had no handles
    for, it restores exactly the state before. *)
Theorem fb_lifecycle (env : kms_env) (fd flags : Z) (d : adbr_dmabuf_v1) (m : M) :
  KmsOk env -> drm_wf (m_be m) ->
  let s := m_be m in
  let planes := used_of d in
  let x := adbr_fb_import_v1 env fd (Some d) flags m in
  match fst x with
  | inl status => status < 0 /\ m_fds (snd x) = m_fds m /\
      (exists hs, given_up env s planes hs (m_be (snd x))) /\ (unshared env s planes -> agree m (snd x))
  | inr fb =>
      installed (m_fds m) (m_fds (snd x)) [fb_kms_fd fb] /\
      registered env s d (fb_fb_handles fb) (adbr_fb_get_id_v1 (Some fb)) (snd x) /\
      (forall h, h ∈ fb_fb_handles fb -> d_gem s !! h = None \/ had_handle env s planes h) /\
      forall m2, drm_wf (m_be m2) ->
        let y := adbr_fb_destroy_v1 (Some fb) m2 in
        ((fst y = 0 /\ removed fb m2 (snd y)) \/ (fst y < 0 /\ agree m2 (snd y))) /\
        (unshared env s planes -> agree (snd x) m2 -> fst y = 0 -> agree m (snd y))
  end.
Proof.
  intros Hk Hw. cbn zeta. unfold adbr_fb_import_v1.
  assert (forall status m', status < 0 -> agree m m' ->
    status < 0 /\ m_fds m' = m_fds m /\ (exists hs, given_up env (m_be m) (used_of d) hs (m_be m')) /\
    (unshared env (m_be m) (used_of d) -> agree m m')) as Hearly.
  { intros status m' Hst Ha. split_and!; [done|by destruct Ha| |done]. exists []. destruct Ha as [_ (Hg & Hp & Hf)].
    unfold given_up, gem_without, prime_without. rewrite !filter_all by (intros; apply not_elem_of_nil).
    split_and!; try done. by intros h Hh%elem_of_nil. }
  destruct (negb _); [by apply Hearly|]. rewrite bind_seq.
  pose proof (still_dmabuf_validate (Some d) m) as Q1. destruct (adbr_dmabuf_validate_v1 (Some d) m) as [st1 m1].
  cbn [fst snd] in *. destruct (Z.ltb_spec st1 0); [by apply Hearly|]. rewrite bind_seq.
  pose proof (still_kms_validate env fd m1) as Q2. destruct (kms_fd_validate env fd m1) as [st2 m2]. cbn [fst snd] in *.
  assert (agree m m2) as Q by (by etransitivity). destruct (Z.ltb_spec st2 0); [by apply Hearly|]. rewrite bind_seq. unfold dup_cloexec.
  assert (m_be (snd (fcntl_dupfd_cloexec fd m2)) = m_be m2) as Hbe
    by (destruct (dup_cases fd m2) as [(e & _ & ->)|(f & _ & ->)]; done).
  destruct (dup_installed fd m2) as [[Hlt Hf]|[Hge Hi]];
    destruct (fcntl_dupfd_cloexec fd m2) as [kfd m3]; cbn [fst snd] in *.
  { destruct (Z.ltb_spec kfd 0); [|lia]. unfold fail_errno. rewrite bind_seq. apply Hearly; [apply neg_errno_neg|].
    etransitivity; [exact Q|]. split; [exact Hf|]. change (same_dev (m_be m2) (m_be m3)). by rewrite Hbe. }
  destruct (Z.ltb_spec kfd 0); [lia|]. rewrite opt_fd_pos in Hi by done.
  assert (same_dev (m_be m) (m_be m3)) as Hsd by (rewrite Hbe; apply Q). assert (m_fds m2 = m_fds m) as Hfd2 by apply Q.
  pose proof (fb_register_effect env (m_be m) Hw (m_fds m2) kfd d m3 Hi Hsd) as Hr. cbn zeta in Hr.
  destruct (fb_register env kfd d m3) as [[st4|fb] m4]; cbn [fst snd] in *.
  - destruct Hr as (Hst & Hu1 & hs & Hu2). split_and!; [done|congruence|by exists hs|].
    intros Hun. split; [congruence|]. by apply (given_up_unshared env (m_be m) Hw (used_of d) hs).
  - destruct Hr as (Hr1 & Hfd4 & Hreg & Hnew).
    assert (installed (m_fds m) (m_fds m4) [fb_kms_fd fb]) as Hi4 by (rewrite Hr1, Hfd4, <- Hfd2; exact Hi).
    split; [exact Hi4|]. split; [exact Hreg|]. split; [exact Hnew|].
    destruct Hreg as (Hid & Hfresh & Hgw & Hpw & _ & objects & _ & Hfbs). intros m7 Hw7.
    pose proof (destroy_effect fb m7 Hw7 Hid) as Hd. cbn zeta in Hd. split; [exact Hd|]. intros Hun [A1 (A2 & A3 & A4)] Hz.
    destruct Hd as [[_ (R1 & R2 & R3 & R4)]|[Hneg _]]; [|lia]. split.
    + rewrite R1, A1. destruct (close_sys (fb_kms_fd fb) m4 (m_fds m) Hi4) as [Hc _]. unfold sys_close in Hc.
      destruct (m_fds m4 !! fb_kms_fd fb) as [f|] eqn:Ef; cbn in Hc; [done|]. by rewrite delete_id.
    + apply (given_up_unshared env (m_be m) Hw (used_of d) (fb_fb_handles fb)); [|done]. split_and!.
      * rewrite R2, A4, Hfbs. by apply delete_insert_id.
      * rewrite R3. unfold gem_without in *. by rewrite A2.
      * rewrite R4. unfold prime_without in *. by rewrite A3.
      * exact Hnew.
Qed.

(** ** Observation *)

Section Observe.
Context (env : kms_env) {Hk : KmsOk env} (s0 : drm_state).

Lemma importing_more hs h m : h ∈ hs \/ h = 0 -> importing s0 hs m -> importing s0 (hs ++ [h]) m.
Proof.
  intros Hh [([H0 Hwp] & Hg & Hp) Hf]. split; [|done]. split; [done|]. rewrite <- Hg, <- Hp.
  unfold gem_without, prime_without. split; apply map_filter_ext; intros k v Hkv; cbn;
    rewrite not_elem_of_app, list_elem_of_singleton.
  - split; [tauto|]. intros Hni. split; [done|]. intros ->. destruct Hh as [| ->]; [done|congruence].
  - split; [tauto|]. intros Hni. split; [done|]. intros ->. destruct Hh as [| ->]; [done|].
    apply Hwp in Hkv. congruence.
Qed.

Lemma new_handle_step hs o m : importing s0 hs m ->
  let h := e_new_handle env (d_gem (m_be m)) in
  importing s0 (hs ++ [h])
    (snd (set_drm (fun s => Drm (d_results s) (d_tick s) (<[h := o]> (d_gem s)) (d_prime s) (d_fbs s)) m)).
Proof.
  intros [([H0 Hwp] & Hg & Hp) Hf]. cbn zeta. destruct (kms_handle (d_gem (m_be m))) as [Hfresh Hnz].
  set (h := e_new_handle env (d_gem (m_be m))) in *. cbn [set_drm modify snd].
  assert (forall k v, d_prime (m_be m) !! k = Some v -> v <> h) as Hvals.
  { intros k v Hv ->. apply Hwp in Hv. congruence. }
  split; [|done]. cbn [m_be set_be]. split; [|split].
  - split; cbn [d_gem d_prime]; [by rewrite lookup_insert_ne|]. intros k v Hv.
    rewrite lookup_insert_ne by (symmetry; by eapply Hvals). by apply Hwp.
  - rewrite <- Hg. unfold gem_without. cbn [d_gem]. apply map_eq. intros k. apply option_eq. intros v.
    rewrite !map_lookup_filter_Some, lookup_insert_Some. cbn. rewrite not_elem_of_app, not_elem_of_cons.
    destruct (decide (k = h)) as [->|]; [|set_solver]. split; [naive_solver|]. intros [Hv _]. congruence.
  - rewrite <- Hp. unfold prime_without. cbn [d_prime]. apply map_filter_ext. intros k v Hv. cbn.
    rewrite not_elem_of_app, list_elem_of_singleton. apply Hvals in Hv. tauto.
Qed.

Lemma new_handles_effect objects made hs m : importing s0 hs m -> (forall o h, (o, h) ∈ made -> h ∈ hs) ->
  let x := new_handles env objects made m in
  m_fds (snd x) = m_fds m /\ importing s0 (hs ++ fst x) (snd x).
Proof.
  revert made hs m. induction objects as [|o l IH]; intros made hs m Him Hmade; cbn zeta; cbn [new_handles].
  { cbn. by rewrite app_nil_r. }
  assert (forall h made' m', m_fds m' = m_fds m -> importing s0 (hs ++ [h]) m' ->
    (forall o h', (o, h') ∈ made' -> h' ∈ hs ++ [h]) ->
    forall x, x = (hs' ← new_handles env l made'; mret (h :: hs')) m' ->
    m_fds (snd x) = m_fds m /\ importing s0 (hs ++ fst x) (snd x)) as Hrest.
  { intros h made' m' Hfd Him' Hmade' x ->. rewrite bind_seq. cbn [mret st_ret fst snd].
    destruct (IH made' (hs ++ [h]) m' Him' Hmade') as [H1 H2]. rewrite <- app_assoc in H2. split; [congruence|exact H2]. }
  destruct (o =? 0).
  { apply (Hrest 0 made m); [done|by apply importing_more; [right|]| |done].
    intros o' h' Hin. apply elem_of_app. left. by eapply Hmade. }
  destruct (list_find _ made) as [[i [o' h]]|] eqn:E.
  - apply list_find_Some in E as (Hi & _ & _). apply list_elem_of_lookup_2 in Hi.
    apply (Hrest h made m); [done|apply importing_more; [left; by eapply Hmade|done]| |done].
    intros o'' h' Hin. apply elem_of_app. left. by eapply Hmade.
  - rewrite bind_seq. cbn [drm gets fst snd]. cbn zeta. rewrite bind_seq.
    eapply Hrest; [|by apply new_handle_step| |reflexivity]; [done|].
    intros o' h' [[= -> ->]|Hin]%elem_of_cons; apply elem_of_app; [right; by left|left; by eapply Hmade].
Qed.

End Observe.

Lemma used_planes_range c i n b k : 0 <= n <= i -> used_planes i c n b = Some k -> 0 <= k <= i + zlen c.
Proof.
  unfold zlen. revert i n b. induction c as [|[h [pt [off md]]] c IH]; intros i n b Hn; cbn [used_planes length].
  - intros [= <-]. lia.
  - destruct (negb (h =? 0)); [destruct b; [done|]|destruct (_ || _ || _); [done|]];
      (intros H; apply IH in H; lia).
Qed.

(** What an accepted observation says. *)
Definition observation_ok (id : Z) (o : adbr_fb_observation_v1) : Prop :=
  ob_fb_id o = id /\ ob_width o <> 0 /\ ob_height o <> 0 /\ ob_fourcc o <> 0 /\
  1 <= ob_plane_count o <= 4 /\ length (ob_modifiers o) = 4%nat /\
  (Z.land (ob_flags o) DRM_MODE_FB_MODIFIERS <> 0 ->
   forall i, 0 <= i < ob_plane_count o -> nth (Z.to_nat i) (ob_modifiers o) 0 = nth 0 (ob_modifiers o) 0).

Lemma observed_ok id c o : length (fb_handles c) = 4%nat -> length (fb_pitches c) = 4%nat ->
  length (fb_offsets c) = 4%nat -> length (fb_modifier c) = 4%nat ->
  observed id c = Some o -> observation_ok id o.
Proof.
  intros L1 L2 L3 L4. unfold observed.
  destruct (used_planes 0 _ 0 false) as [k|] eqn:E; [|done].
  apply used_planes_range in E; [|lia].
  assert (zlen (zip (fb_handles c) (zip (fb_pitches c) (zip (fb_offsets c) (fb_modifier c)))) = 4) as Hz
    by (unfold zlen; rewrite !length_zip_with, L1, L2, L3, L4; done).
  rewrite Hz in E.
  match goal with |- (if ?b then _ else _) = _ -> _ => destruct b eqn:G end; [done|].
  rewrite !orb_false_iff, negb_false_iff, Z.eqb_eq, !Z.eqb_neq in G. cbn zeta.
  destruct (_ && _) eqn:X; [done|]. intros [= <-]. unfold observation_ok.
  cbn [ob_fb_id ob_width ob_height ob_fourcc ob_plane_count ob_modifiers ob_flags].
  do 4 (split; [tauto|]). split; [lia|]. split; [done|]. intros Hx i Hi.
  apply Z.eqb_neq in Hx. rewrite Hx in *. cbn [negb andb] in X.
  change (seqZ 0 ADBR_MAX_PLANES) with [0; 1; 2; 3]. cbn [fmap list_fmap].
  assert (forall j, 0 <= j < k -> nth (Z.to_nat j) (fb_modifier c) 0 = nth 0 (fb_modifier c) 0) as Hall.
  { intros j Hj. destruct (Z.eq_dec (nth (Z.to_nat j) (fb_modifier c) 0) (nth 0 (fb_modifier c) 0)); [done|]. exfalso.
    assert (existsb (fun m => negb (m =? nth 0 (fb_modifier c) 0)) (firstn (Z.to_nat k) (fb_modifier c)) = true) as Hc; [|congruence].
    apply existsb_exists. exists (nth (Z.to_nat j) (fb_modifier c) 0). split; [|by apply negb_true_iff, Z.eqb_neq].
    destruct (lookup_lt_is_Some_2 (fb_modifier c) (Z.to_nat j)) as [x Hxl]; [lia|].
    rewrite (nth_lookup_Some _ _ _ _ Hxl). apply list_elem_of_In, (list_elem_of_lookup_2 _ (Z.to_nat j)).
    rewrite lookup_take_lt by lia. exact Hxl. }
  assert (i = 0 \/ i = 1 \/ i = 2 \/ i = 3) as [->|[->|[->| ->]]] by lia; cbn [Z.to_nat Pos.to_nat Pos.iter_op Nat.add nth];
    repeat match goal with |- context [?a <? k] => destruct (Z.ltb_spec a k); [|lia] end; cbn [andb negb];
    repeat match goal with |- context [Z.to_nat ?z] => lazymatch z with 0 => fail | _ => rewrite (Hall z) by lia end end; done.
Qed.

(** Observing a framebuffer has no effect.  Whatever GETFB2 reports and
    whether the observation is accepted or refused, the handles the kernel made
    for the call have been closed: descriptors, GEM handles, PRIME table and
    framebuffers are as before.  An accepted observation is of the framebuffer
    asked for, with a nonzero size and format, one to four planes in front of the
    unused ones, and one modifier when modifiers are explicit. *)
Theorem fb_observe_clean (env : kms_env) (fd id size abi : Z) (m : M) :
  KmsOk env -> drm_wf (m_be m) ->
  (forall t i c, e_getfb env t i = Some c -> length (fb_handles c) = 4%nat /\ length (fb_pitches c) = 4%nat /\
     length (fb_offsets c) = 4%nat /\ length (fb_modifier c) = 4%nat) ->
  let x := adbr_fb_observe_v1 env fd id size abi m in
  agree m (snd x) /\
  match fst x with
  | inl status => status < 0
  | inr o => observation_ok id o
  end.
Proof.
  intros Hk Hw Hlen. cbn zeta. unfold adbr_fb_observe_v1. destruct (id =? 0); [done|]. cbn zeta.
  destruct (Z.ltb_spec (validate_output_header size abi OBSERVATION_SIZE) 0); [done|]. rewrite bind_seq.
  pose proof (still_kms_validate env fd m) as Q. destruct (kms_fd_validate env fd m) as [st m1]. cbn [fst snd] in *.
  destruct (Z.ltb_spec st 0); [done|]. rewrite bind_seq.
  pose proof (ioctl_rule fd (ioctl_getfb2 env id) (fun r m2 => match r with
    | None => agree m m2
    | Some c => m_fds m2 = m_fds m /\ importing (m_be m) (fb_handles c) m2 /\
        length (fb_handles c) = 4%nat /\ length (fb_pitches c) = 4%nat /\
        length (fb_offsets c) = 4%nat /\ length (fb_modifier c) = 4%nat end) m) as Hr.
  specialize (Hr (fun m2 H => H)). lapply Hr; clear Hr; [intros Hr; specialize (Hr m1 Q)|].
  - destruct (ioctl_retry fd (ioctl_getfb2 env id) m1) as [[c|] m2]; cbn [fst snd] in *.
    + rewrite bind_seq. cbn [mret st_ret fst snd]. destruct Hr as (Hfd & [Ha Hf] & L1 & L2 & L3 & L4).
      destruct (close_restores (m_be m) (fb_handles c) m2 Ha) as (H1 & H2 & H3 & H4).
      split; [split; [congruence|split_and!; congruence]|].
      destruct (observed id c) as [o|] eqn:E; [by eapply observed_ok|done].
    + split; [exact Hr|]. apply neg_errno_neg.
  - intros m2 Hm2. unfold ioctl_getfb2. rewrite bind_seq. cbn [drm gets fst snd].
    destruct (e_getfb env (d_tick (m_be m2)) id) as [c|] eqn:E; [|exact Hm2]. rewrite bind_seq. cbn [mret st_ret fst snd].
    assert (importing (m_be m) [] m2) as Him.
    { apply (importing_agree (m_be m) [] m m2 Hm2). split; [by apply added_nil|done]. }
    destruct (new_handles_effect env (m_be m) (fb_handles c) [] [] m2 Him) as [H1 H2]; [by intros o h Hin%elem_of_nil|].
    destruct (Hlen _ _ _ E) as (L1 & L2 & L3 & L4). cbn [fb_handles fb_pitches fb_offsets fb_modifier].
    split; [destruct Hm2; congruence|]. split; [exact H2|]. split; [|done].
    rewrite <- L1. clear. generalize (@nil (Z * Z)). generalize m2. induction (fb_handles c) as [|o l IH]; intros m3 made; cbn [new_handles]; [done|].
    destruct (o =? 0); [rewrite bind_seq; cbn; by rewrite IH|].
    destruct (list_find _ made) as [[i [o' h]]|]; rewrite !bind_seq; cbn [fst snd mret st_ret length]; by rewrite IH.
Qed.

(** ** Leases *)

Lemma has_duplicates_false l : has_duplicates l = false <-> NoDup l /\ 0 ∉ l.
Proof.
  induction l as [|v l IH]; cbn [has_duplicates].
  - split; [intros _; split; [apply NoDup_nil_2|apply not_elem_of_nil]|done].
  - rewrite !orb_false_iff, IH, Z.eqb_neq, NoDup_cons, not_elem_of_cons.
    assert (existsb (Z.eqb v) l = false <-> v ∉ l) as ->; [|naive_solver].
    rewrite <- not_true_iff_false, existsb_exists, list_elem_of_In. split; intros H Hin; apply H.
    + exists v. by rewrite Z.eqb_refl.
    + by destruct Hin as (x & Hx & ->%Z.eqb_eq).
Qed.

(** The comparison of two object sets is equality up to order. *)
Lemma equal_object_sets_iff l r : equal_object_sets l r = true <->
  (NoDup l /\ 0 ∉ l) /\ (NoDup r /\ 0 ∉ r) /\ l ≡ₚ r.
Proof.
  unfold equal_object_sets. destruct (_ || _ || _) eqn:G.
  - split; [done|]. intros (Hl & Hr & Hp). apply has_duplicates_false in Hl, Hr.
    rewrite Hl, Hr, !orb_false_r, negb_true_iff, Z.eqb_neq in G. unfold zlen in G. by rewrite Hp in G.
  - rewrite !orb_false_iff, negb_false_iff, Z.eqb_eq, !has_duplicates_false in G. destruct G as [[Hz Hl] Hr].
    rewrite forallb_forall. split.
    + intros H. split; [done|]. split; [done|]. apply submseteq_length_Permutation; [|unfold zlen in Hz; lia].
      apply NoDup_submseteq; [apply Hl|]. intros x Hx%list_elem_of_In%H.
      apply existsb_exists in Hx as (y & Hy%list_elem_of_In & ->%Z.eqb_eq). done.
    + intros (_ & _ & Hp) x Hx%list_elem_of_In. apply existsb_exists. exists x. rewrite Z.eqb_refl.
      split; [|done]. apply list_elem_of_In. by rewrite <- Hp.
Qed.

(** What the device reported as the lease at some moment, checked. *)
Definition lease_reported (env : kms_env) (objects : list Z) : Prop :=
  (exists t, e_lease env t = objects) /\ 1 <= zlen objects <= ADBR_MAX_LEASE_OBJECTS /\ NoDup objects /\ 0 ∉ objects.

Lemma get_lease_value env fd n m count objects : 0 <= n ->
  fst (ioctl_retry fd (ioctl_get_lease env n) m) = Some (count, objects) ->
  exists t, count = zlen (e_lease env t) /\ objects = firstn (Z.to_nat n) (e_lease env t).
Proof.
  intros Hn. apply (ioctl_rule fd (ioctl_get_lease env n) (fun r _ => r = Some (count, objects) ->
    exists t, count = zlen (e_lease env t) /\ objects = firstn (Z.to_nat n) (e_lease env t)) m); [done| |done].
  intros m1 _. cbn. intros [= <- <-]. eauto.
Qed.

Lemma lease_objects_value env fd m objects :
  fst (get_lease_objects_alloc env fd m) = inr objects -> lease_reported env objects.
Proof.
  unfold get_lease_objects_alloc. rewrite bind_seq. destruct (_ <? 0); [done|].
  generalize (snd (fd_is_open fd m)). clear m. generalize 3%nat. intros n.
  induction n as [|n IH]; intros m; cbn [lease_attempts]; [done|]. rewrite bind_seq.
  destruct (fst (ioctl_retry fd (ioctl_get_lease env 0) m)) as [[capacity l0]|] eqn:E0.
  2: { unfold fail_errno. rewrite bind_seq. done. }
  apply get_lease_value in E0 as (t0 & Hcap & _); [|lia]. pose proof (Zle_0_nat (length (e_lease env t0))).
  destruct (capacity =? 0); [done|]. destruct (Z.ltb_spec ADBR_MAX_LEASE_OBJECTS capacity); [done|].
  rewrite bind_seq. destruct (negb _); [done|]. rewrite bind_seq.
  match goal with |- context [ioctl_retry fd (ioctl_get_lease env capacity) ?m1] =>
    destruct (fst (ioctl_retry fd (ioctl_get_lease env capacity) m1)) as [[count l]|] eqn:E1 end.
  2: { unfold fail_errno. rewrite bind_seq. done. }
  apply get_lease_value in E1 as (t1 & -> & ->); [|unfold zlen in Hcap; lia].
  destruct (Z.leb_spec (zlen (e_lease env t1)) capacity) as [Hle|]; [|apply IH].
  rewrite firstn_all2 by (unfold zlen in *; lia).
  destruct (_ || _) eqn:G; [done|]. rewrite orb_false_iff, Z.eqb_neq, has_duplicates_false in G. intros [= <-].
  destruct G as [Hnz Hd]. split; [eauto|]. split; [unfold zlen in *; lia|done].
Qed.

(** [fails_negative c]: every failure of [c] has a negative status. *)
Definition fails_negative {A} (c : St M (Z + A)) : Prop := forall m st, fst (c m) = inl st -> st < 0.

Lemma negative_ret {A} (a : A) : fails_negative (mret (inr a)).
Proof. done. Qed.
Lemma negative_status {A} (e : Z) : 0 < e -> fails_negative (mret (inl (A := Z) (B := A) (- e))).
Proof. intros He m st [= <-]. lia. Qed.
Lemma negative_errno {A} : fails_negative (@fail_errno A).
Proof. intros m st. unfold fail_errno. rewrite bind_seq. intros [= <-]. apply neg_errno_neg. Qed.
Lemma negative_bind {A C} (c : St M C) (k : C -> St M (Z + A)) : (forall a, fails_negative (k a)) -> fails_negative (c ≫= k).
Proof. intros Hk m st. rewrite bind_seq. apply Hk. Qed.
Lemma negative_bind_sum {A C} (c : St M (Z + C)) (k : C -> St M (Z + A)) :
  fails_negative c -> (forall a, fails_negative (k a)) ->
  fails_negative (r ← c; match r with inl st => mret (inl st) | inr a => k a end).
Proof.
  intros Hc Hk m st. rewrite bind_seq. specialize (Hc m).
  destruct (fst (c m)) as [s|a]; [|apply Hk]. intros [= <-]. by apply Hc.
Qed.

Ltac negative_steps :=
  repeat first
    [ apply negative_ret | apply negative_status; done | apply negative_errno | assumption
    | apply negative_bind_sum; [|intros ?]
    | apply negative_bind; intros ?
    | match goal with
      | |- fails_negative (if ?b then _ else _) => destruct b
      | |- fails_negative (match ?x with _ => _ end) => destruct x
      end ].

Lemma lease_objects_neg env fd : fails_negative (get_lease_objects_alloc env fd).
Proof.
  assert (forall n, fails_negative (lease_attempts env n fd)) as H.
  { intros n. induction n as [|n IH]; cbn [lease_attempts]; negative_steps. }
  intros m st. unfold get_lease_objects_alloc. rewrite bind_seq.
  destruct (Z.ltb_spec (fst (fd_is_open fd m)) 0); [by intros [= <-]|]. apply H.
Qed.

Lemma properties_neg env fd o : fails_negative (get_object_properties env fd o).
Proof. unfold get_object_properties. negative_steps. Qed.

Lemma gate_properties_neg env fd blob props a b c : fails_negative (gate_properties env fd blob props a b c).
Proof.
  revert a b c. induction props as [|[id v] props IH]; intros a b c; cbn [gate_properties]; [apply negative_ret|].
  apply negative_bind_sum; [unfold get_property_metadata; negative_steps|].
  intros [name flags]. repeat match goal with |- fails_negative (if ?x then _ else _) => destruct x end;
    first [apply negative_status; done|apply IH].
Qed.

(** Validating a lease is exact and owns what it returns.  The call never
    changes the device.  When it succeeds, the table has gained the one duplicate
    it returns, the device has reported a lease of 1 to 256 distinct objects, the
    count is theirs, and if objects were expected they are the same up to order;
    when it fails the table is as it was and no descriptor is returned. *)
Theorem lease_dup_exact (env : kms_env) (fd : Z) (expected : list Z) (flags size abi : Z) (m : M) :
  let x := adbr_lease_dup_validate_v1 env fd expected flags size abi m in
  let '(status, duplicate, count) := fst x in
  same_dev (m_be m) (m_be (snd x)) /\
  ((status < 0 /\ duplicate = -1 /\ m_fds (snd x) = m_fds m) \/
   (status = 0 /\ installed (m_fds m) (m_fds (snd x)) [duplicate] /\
    exists objects, lease_reported env objects /\ count = zlen objects /\ (expected = [] \/ expected ≡ₚ objects))).
Proof.
  cbn zeta. unfold adbr_lease_dup_validate_v1. cbn zeta.
  assert (forall st (m1 : M), st < 0 -> agree m m1 ->
    same_dev (m_be m) (m_be m1) /\ ((st < 0 /\ -1 = -1 /\ m_fds m1 = m_fds m) \/
     (st = 0 /\ installed (m_fds m) (m_fds m1) [-1] /\
      exists objects, lease_reported env objects /\ 0 = zlen objects /\ (expected = [] \/ expected ≡ₚ objects)))) as Hfail.
  { intros st m1 Hneg [H1 H2]. split; [done|]. left. done. }
  destruct (negb (flags =? 0)); [by apply Hfail|].
  destruct (Z.ltb_spec (validate_output_header size abi 16) 0); [by apply Hfail|].
  destruct (_ <? zlen expected); [by apply Hfail|]. destruct (has_duplicates expected) eqn:Hd; [by apply Hfail|].
  rewrite bind_seq. pose proof (still_kms_validate env fd m) as Q1.
  destruct (kms_fd_validate env fd m) as [st1 m1]. cbn [fst snd] in *. destruct (Z.ltb_spec st1 0); [by apply Hfail|].
  rewrite bind_seq. pose proof (still_lease_objects env fd m1) as Q2. pose proof (lease_objects_value env fd m1) as V2.
  pose proof (fun st => lease_objects_neg env fd m1 st) as N2.
  destruct (get_lease_objects_alloc env fd m1) as [[st2|actual] m2]; cbn [fst snd] in *.
  { apply Hfail; [by apply N2|by etransitivity]. }
  specialize (V2 actual eq_refl). assert (agree m m2) as Q by (by etransitivity).
  destruct (_ && _) eqn:G; [by apply Hfail|]. rewrite bind_seq. unfold dup_cloexec.
  assert (m_be (snd (fcntl_dupfd_cloexec fd m2)) = m_be m2) as Hbe
    by (destruct (dup_cases fd m2) as [(e & _ & ->)|(f & _ & ->)]; done).
  destruct (dup_installed fd m2) as [[Hlt Hf]|[Hge Hi]];
    destruct (fcntl_dupfd_cloexec fd m2) as [dup m3]; cbn [fst snd] in *.
  { destruct (Z.ltb_spec dup 0); [|lia]. rewrite bind_seq. apply Hfail; [apply neg_errno_neg|].
    etransitivity; [exact Q|]. split; [exact Hf|]. change (same_dev (m_be m2) (m_be m3)). by rewrite Hbe. }
  destruct (Z.ltb_spec dup 0); [lia|]. rewrite opt_fd_pos in Hi by done. destruct Q as [Q3 Q4]. cbn [mret st_ret fst snd].
  split; [by rewrite Hbe|]. right. split; [done|]. split; [by rewrite <- Q3|]. exists actual. split; [done|].
  pose proof V2 as (_ & Hz & _). unfold ADBR_MAX_LEASE_OBJECTS in Hz.
  split; [apply u32_id; unfold is_u32; lia|]. apply andb_false_iff in G as [G|G].
  - left. apply negb_false_iff, Z.eqb_eq in G. by destruct expected.
  - right. apply negb_false_iff, equal_object_sets_iff in G. symmetry. apply G.
Qed.

(** ** The preload gate *)

Lemma blob_value env fd id n m b : fst (get_blob_alloc env fd id n m) = inr b -> e_blob env id = Some b.
Proof.
  unfold get_blob_alloc. destruct (id =? 0); [done|]. rewrite bind_seq.
  assert (forall m b, fst (ioctl_retry fd (ioctl_get_blob env id) m) = Some b -> e_blob env id = Some b) as Hv.
  { intros m0 b0. apply (ioctl_rule fd (ioctl_get_blob env id) (fun r _ => r = Some b0 -> e_blob env id = Some b0) m0);
      [done| |done]. intros m1 Hm1. unfold ioctl_get_blob. destruct (e_blob env id); [|exact Hm1]. cbn. by intros [= <-]. }
  destruct (fst (ioctl_retry _ _ m)) as [b0|]; [|unfold fail_errno; rewrite bind_seq; done].
  cbn zeta. destruct (_ =? 0); [done|]. destruct (_ <? _); [done|]. rewrite bind_seq. destruct (negb _); [done|].
  rewrite bind_seq. match goal with |- context [ioctl_retry fd (ioctl_get_blob env id) ?m1] =>
    specialize (Hv m1); destruct (fst (ioctl_retry fd (ioctl_get_blob env id) m1)) as [b1|] end;
    [|unfold fail_errno; rewrite bind_seq; done].
  destruct (_ <? _); [done|]. intros [= <-]. by apply Hv.
Qed.

Lemma plane_formats_value env fd plane flags m entries :
  fst (plane_formats env fd plane flags m) = inr entries ->
  exists id p es, e_blob env id = Some p /\ parse_in_formats_blob p [] = inr es /\
    (entries = es \/ exists id' text, e_blob env id' = Some text /\ parse_qcom_candidates text es = inr entries).
Proof.
  unfold plane_formats. rewrite bind_seq. destruct (_ <? 0); [done|]. rewrite bind_seq.
  destruct (fst (get_object_properties _ _ _ _)) as [?|props]; [done|]. rewrite bind_seq.
  destruct (fst (plane_blobs _ _ _ _ _ _)) as [?|[in_formats qcom]]; [done|].
  destruct (in_formats =? 0); [done|]. rewrite bind_seq.
  match goal with |- context [get_blob_alloc env fd in_formats ?n ?m1] =>
    pose proof (blob_value env fd in_formats n m1) as Hb; destruct (fst (get_blob_alloc env fd in_formats n m1)) as [?|p] end; [done|].
  destruct (parse_in_formats_blob p []) as [?|es] eqn:Hp; [done|].
  match goal with |- context [if ?b then _ else _] => destruct b end.
  - rewrite bind_seq. match goal with |- context [get_blob_alloc env fd qcom ?n ?m1] =>
      pose proof (blob_value env fd qcom n m1) as Hq; destruct (fst (get_blob_alloc env fd qcom n m1)) as [?|text] end; [done|].
    cbn [mret st_ret fst]. intros Ht. exists in_formats, p, es. split; [by apply Hb|]. split; [done|]. right.
    exists qcom, text. split; [by apply Hq|done].
  - intros [= <-]. exists in_formats, p, es. split; [by apply Hb|]. split; [done|by left].
Qed.

(** The preload gate opens only on evidence.  It returns 0 only for XB24 with
    the QCOM compressed modifier, on a plane that is one of the distinct objects
    of the lease the device reported, when an IN_FORMATS blob of the device states
    XB24 with LINEAR and a capability blob of the device holds a delimited
    XB24/5/1 token. *)
Theorem preload_gate_sound (env : kms_env) (fd plane blob fourcc modifier : Z) (m : M) :
  fst (adbr_preload_validate_plane_blob_v1 env fd plane blob fourcc modifier m) = 0 ->
  fourcc = DRM_FORMAT_XBGR8888 /\ modifier = ADBR_MODIFIER_QCOM_COMPRESSED /\
  (exists objects, lease_reported env objects /\ plane ∈ objects) /\
  exists id p id' text i offset, e_blob env id = Some p /\ e_blob env id' = Some text /\
    0 <= i /\ format_at p (read_blob_header p) i = fourcc /\ supports p i ADBR_MODIFIER_LINEAR /\
    0 <= offset <= zlen text - 8 /\ qcom_token_at text offset = true /\ token_fourcc text offset = fourcc.
Proof.
  unfold adbr_preload_validate_plane_blob_v1. destruct (_ || _) eqn:G; [done|].
  rewrite !orb_false_iff, !negb_false_iff, !Z.eqb_eq in G. destruct G as [[_ ->] ->]. rewrite bind_seq.
  destruct (Z.ltb_spec (fst (kms_fd_validate env fd m)) 0); [cbn; lia|]. rewrite bind_seq.
  match goal with |- context [get_lease_objects_alloc env fd ?m1] =>
    pose proof (lease_objects_value env fd m1) as Hv; pose proof (lease_objects_neg env fd m1) as Hneg;
    destruct (fst (get_lease_objects_alloc env fd m1)) as [st|lease] end.
  { cbn. intros ->. specialize (Hneg 0 eq_refl). lia. }
  destruct (object_set_contains lease plane) eqn:Hin; cbn [negb]; [|done]. rewrite bind_seq.
  destruct (fst (get_object_properties _ _ _ _)) as [st|props] eqn:Ep.
  { cbn. intros ->. apply properties_neg in Ep. lia. }
  rewrite bind_seq. destruct (fst (gate_properties _ _ _ _ _ _ _ _)) as [st|[[a b] c]] eqn:Eg.
  { cbn. intros ->. apply gate_properties_neg in Eg. lia. }
  destruct (_ || _ || _); [done|]. rewrite bind_seq. unfold adbr_plane_query_formats_v1.
  destruct (_ || _); [done|]. rewrite bind_seq.
  match goal with |- context [plane_formats env fd plane ?q ?m1] =>
    pose proof (plane_formats_value env fd plane q m1) as Hpf; destruct (fst (plane_formats env fd plane q m1)) as [st|entries] end.
  { cbn. destruct (Z.ltb_spec st 0); cbn; [lia|]. done. }
  cbn zeta. cbn [negb]. destruct (_ <? _); [done|]. cbn [mret st_ret fst snd].
  destruct (found_linear entries _) eqn:Hl; [|done]. destruct (found_candidate entries _ _) eqn:Hc; [|done]. intros _.
  destruct (Hpf entries eq_refl) as (id & p & es & Hb & Hp & Hsrc).
  destruct (gate_table_sound p es entries DRM_FORMAT_XBGR8888 (fun text => exists id', e_blob env id' = Some text) Hp)
    as [(i & Hi & Hf & Hs) (text & o & [id' Ht] & Ho & Htok & Hfc)]; [|done|done|].
  { destruct Hsrc as [->|(id' & text & Hb' & Ht)]; [by left|right]. exists text. eauto. }
  split; [done|]. split; [done|]. split.
  - exists lease. split; [by apply Hv|]. apply existsb_exists in Hin as (x & Hx%list_elem_of_In & ->%Z.eqb_eq). done.
  - exists id, p, id', text, i, o. done.
Qed.

(** ** A device *)

Definition next_key {V} (g : gmap Z V) : Z := 1 + foldr Z.max 0 ((map_to_list g).*1).

Lemma next_key_fresh {V} (g : gmap Z V) : g !! next_key g = None /\ next_key g <> 0.
Proof.
  assert (forall l, 0 <= foldr Z.max 0 l /\ forall k, k ∈ l -> k <= foldr Z.max 0 l) as H.
  { induction l as [|x l [IH1 IH2]]; cbn.
    - split; [lia|]. intros k Hk%elem_of_nil. done.
    - split; [lia|]. intros k [->|Hk]%elem_of_cons; [lia|]. specialize (IH2 k Hk). lia. }
  destruct (H (map_to_list g).*1) as [H1 H2]. unfold next_key. split; [|lia].
  destruct (g !! _) as [v|] eqn:E; [|done]. apply elem_of_map_to_list in E.
  apply (list_elem_of_fmap_2 fst) in E. apply H2 in E. cbn in E. lia.
Qed.

(** A lease of three objects; plane 31 is primary with XR24 and XB24 and the QCOM
    text; descriptor 5 is a buffer; framebuffer 7 has one plane. *)
Definition sample_env : kms_env := {|
  e_is_chr _ := true;
  e_lease _ := [31; 41; 51];
  e_props _ _ := [(1, 1); (2, 100); (3, 200)];
  e_prop id :=
    if id =? 1 then Some (bytes_of "type", 8)
    else if id =? 2 then Some (bytes_of "IN_FORMATS", 20)
    else if id =? 3 then Some (bytes_of "capabilities", 20) else None;
  e_blob id := if id =? 100 then Some sample_blob else if id =? 200 then Some sample_text else None;
  e_object fd := if fd =? 5 then Some 900 else None;
  e_new_handle := next_key;
  e_new_fb := next_key;
  e_getfb _ id :=
    if id =? 7 then Some (FbCmd 7 64 64 DRM_FORMAT_XBGR8888 2 [900; 0; 0; 0] [256; 0; 0; 0] [0; 0; 0; 0] [0; 0; 0; 0])
    else None |}.

#[export] Instance sample_env_ok : KmsOk sample_env.
Proof. split; intros g; apply next_key_fresh. Qed.

Definition sample_device : M :=
  Machine (Drm [] 0 ∅ ∅ ∅) (<[3 := FdInfo true KOther]> (<[5 := FdInfo true KOther]> ∅)) 64 0 [] [] [] [] [].

Definition sample_dmabuf : adbr_dmabuf_v1 :=
  Dmabuf 128 ADBR_ABI_VERSION_1 64 64 DRM_FORMAT_XBGR8888 1 0 0
    (DmabufPlane 5 256 0 0 0 :: replicate 3 (DmabufPlane 0 0 0 0 0)).

Lemma sample_wf : drm_wf (m_be sample_device).
Proof. split; [reflexivity|]. intros o h H. vm_compute in H. discriminate H. Qed.

Lemma fb_lifecycle_witness :
  let x := adbr_fb_import_v1 sample_env 3 (Some sample_dmabuf) 0 sample_device in
  exists fb, fst x = inr fb /\ installed (m_fds sample_device) (m_fds (snd x)) [fb_kms_fd fb] /\
    (exists objects, mapM (fun p => e_object sample_env (pl_fd p)) (used_of sample_dmabuf) = Some objects /\
       d_fbs (m_be (snd x)) = {[ fb_fb_id fb := fb_command (fb_fb_id fb) sample_dmabuf objects ]}) /\
    fst (adbr_fb_destroy_v1 (Some fb) (snd x)) = 0 /\ agree sample_device (snd (adbr_fb_destroy_v1 (Some fb) (snd x))).
Proof.
  cbn zeta. pose proof (fb_lifecycle sample_env 3 0 sample_dmabuf sample_device sample_env_ok sample_wf) as H. cbn zeta in H.
  assert (match fst (adbr_fb_import_v1 sample_env 3 (Some sample_dmabuf) 0 sample_device) with
    | inr fb => fst (adbr_fb_destroy_v1 (Some fb) (snd (adbr_fb_import_v1 sample_env 3 (Some sample_dmabuf) 0 sample_device))) = 0
    | inl _ => False end) as H0 by (vm_compute; reflexivity).
  assert (drm_wf (m_be (snd (adbr_fb_import_v1 sample_env 3 (Some sample_dmabuf) 0 sample_device)))) as Hw.
  { split; [vm_compute; reflexivity|]. intros o h Ho. vm_compute in Ho. destruct (decide (o = 900)) as [->|Hne].
    - vm_compute in Ho. injection Ho as <-. vm_compute. reflexivity.
    - exfalso. revert Ho. change (({[900 := 1]} : gmap Z Z) !! o = Some h -> False). by rewrite lookup_singleton_ne by congruence. }
  destruct (adbr_fb_import_v1 sample_env 3 (Some sample_dmabuf) 0 sample_device) as [[st|fb] m'] eqn:E; cbn [fst snd] in *; [done|].
  destruct H as (H1 & H2 & _ & H3). exists fb. split; [reflexivity|]. split; [exact H1|]. split.
  - destruct H2 as (_ & _ & _ & _ & _ & H2). exact H2.
  - split; [exact H0|]. apply (H3 m' Hw); [|reflexivity|exact H0]. intros p o _ _. reflexivity.
Defined.

Lemma fb_observe_clean_witness :
  agree sample_device (snd (adbr_fb_observe_v1 sample_env 3 7 96 ADBR_ABI_VERSION_1 sample_device)) /\
  exists o, fst (adbr_fb_observe_v1 sample_env 3 7 96 ADBR_ABI_VERSION_1 sample_device) = inr o /\ ob_plane_count o = 1.
Proof.
  split.
  - apply (fb_observe_clean sample_env 3 7 96 ADBR_ABI_VERSION_1 sample_device sample_env_ok sample_wf).
    intros t i c. cbn [sample_env e_getfb]. destruct (i =? 7); [|discriminate]. intros [= <-]. done.
  - eexists. split; [vm_compute; reflexivity|reflexivity].
Defined.

Lemma preload_gate_sound_witness :
  fst (adbr_preload_validate_plane_blob_v1 sample_env 3 31 100 DRM_FORMAT_XBGR8888 ADBR_MODIFIER_QCOM_COMPRESSED sample_device) = 0 /\
  exists objects, lease_reported sample_env objects /\ 31 ∈ objects.
Proof.
  assert (fst (adbr_preload_validate_plane_blob_v1 sample_env 3 31 100 DRM_FORMAT_XBGR8888
    ADBR_MODIFIER_QCOM_COMPRESSED sample_device) = 0) as E by (vm_compute; reflexivity).
  split; [exact E|]. exact (proj1 (proj2 (proj2 (preload_gate_sound _ _ _ _ _ _ _ E)))).
Defined.

(** GEM handles are counted by nobody: the duplicated descriptor shares the file,
    and a second import of the same buffer returns the handle of the first.
    Destroying one framebuffer closes the handle the other still holds. *)
Definition import_twice : St M (Z + adbr_fb) :=
  adbr_fb_import_v1 sample_env 3 (Some sample_dmabuf) 0 ;; adbr_fb_import_v1 sample_env 3 (Some sample_dmabuf) 0.

Lemma shared_handle_closed : exists fb1 fb2,
  fst (adbr_fb_import_v1 sample_env 3 (Some sample_dmabuf) 0 sample_device) = inr fb1 /\
  fst (import_twice sample_device) = inr fb2 /\ fb_fb_handles fb2 = [1] /\
  d_gem (m_be (snd (import_twice sample_device))) !! 1 = Some 900 /\
  let y := adbr_fb_destroy_v1 (Some fb1) (snd (import_twice sample_device)) in
  fst y = 0 /\ d_gem (m_be (snd y)) !! 1 = None /\ is_Some (d_fbs (m_be (snd y)) !! fb_fb_id fb2).
Proof.
  eexists (Fb _ _ _), (Fb _ _ _). split; [vm_compute; reflexivity|]. split; [vm_compute; reflexivity|].
  split; [reflexivity|]. split; [vm_compute; reflexivity|]. cbn zeta. split; [vm_compute; reflexivity|].
  split; [vm_compute; reflexivity|]. eexists. vm_compute. reflexivity.
Qed.
