(* ===== verification/DecodeEos.v ===== *)
(** * End of stream of a decode session
    (src/src/vaapi_advc/advc_vaapi_decode_eos.c)

    The nonblocking state machine behind the private decode-EOS interface: it
    signals end of stream to the broker, drains the outputs that remain and
    reports the terminal one.  The runtime adapter is a record of callbacks over
    an arbitrary adapter state; the specification is a transition system over
    the calls the machine makes through it. *)

From stdpp Require Import base list strings.
From Stdlib Require Import ZArith Lia Bool.
From S2P Require Import Prelude.

(** ** Constants of the interface *)

Definition OPT_IN_VALUE : string := "validated-signal-progress-v1".
Definition ABI_VERSION : Z := Z.lor (Z.shiftl 1 16) 0.
Definition MAX_PROGRESS_OUTPUTS : Z := 8.
Definition OUTPUT_FLAG_EOS : Z := Z.shiftl 1 0.

Definition OPEN : Z := 0.
Definition SIGNAL_PENDING : Z := 1.
Definition DRAINING : Z := 2.
Definition COMPLETE : Z := 3.
Definition FAILED : Z := 4.

Definition RESULT_OK : Z := 0.
Definition RESULT_WOULD_BLOCK : Z := 1.
Definition RESULT_NEED_OUTPUT_RELEASE : Z := 2.
Definition RESULT_COMPLETE : Z := 3.
Definition RESULT_NOT_SIGNALED : Z := 4.
Definition RESULT_INVALID_ARGUMENT : Z := -1.
Definition RESULT_FAILED : Z := -2.

Definition STATUS_SIGNAL_REQUESTED : Z := Z.shiftl 1 0.
Definition STATUS_SIGNAL_QUEUED : Z := Z.shiftl 1 1.
Definition STATUS_BROKER_EMPTY : Z := Z.shiftl 1 2.
Definition STATUS_OUTPUT_WINDOW_FULL : Z := Z.shiftl 1 3.
Definition STATUS_BUDGET_EXHAUSTED : Z := Z.shiftl 1 4.
Definition STATUS_OUTPUT_EOS_SEEN : Z := Z.shiftl 1 5.
Definition STATUS_FAILED : Z := Z.shiftl 1 6.

Definition IO_OK : Z := 0.
Definition IO_RETRY : Z := 1.
Definition IO_OUTPUT_WINDOW_FULL : Z := 2.
Definition IO_FATAL : Z := -1.

Definition OUTPUT_FRAME : Z := 1.
Definition OUTPUT_CONTROL : Z := 2.

(** ** Data *)

Record decode_eos_status := Status {
  es_struct_size : Z;
  es_abi_version : Z;
  es_phase : Z;
  es_flags : Z;
  es_last_result : Z;
  es_outputs_processed : Z;
  es_frames_processed : Z;
  es_controls_released : Z;
  es_outputs_processed_total : Z;
  es_frames_processed_total : Z;
  es_controls_released_total : Z;
  es_reserved : list Z }.

(** [sizeof(struct advc_vaapi_decode_eos_status_v1)]: eight 32-bit words, three
    64-bit counters, eight reserved words. *)
Definition status_size : Z := 8 * 4 + 3 * 8 + 8 * 4.

Record decode_eos_output := Output {
  eo_buffer_id : Z;
  eo_pts_ns : Z;
  eo_flags : Z;
  eo_kind : Z;
  eo_private_data : Z }.
Definition zero_output : decode_eos_output := Output 0 0 0 0 0.

Record decode_eos_state := State {
  st_phase : Z;
  st_signal_requested : Z;
  st_signal_queued : Z;
  st_output_eos_seen : Z;
  st_outputs_processed_total : Z;
  st_frames_processed_total : Z;
  st_controls_released_total : Z }.

(** The adapter; [W] is what its [opaque] pointer reaches and a field that is
    NULL in C is [None].  [try_dequeue] may fill the output it is given. *)
Record decode_eos_ops (W : Type) := Ops {
  op_try_signal : option (W -> Z * W);
  op_try_dequeue : option (decode_eos_output -> W -> Z * decode_eos_output * W);
  op_handle_frame : option (decode_eos_output -> W -> Z * W);
  op_release_output : option (decode_eos_output -> W -> Z * W);
  op_mark_remaining_pending_failed : option (W -> W) }.
Arguments Ops {W}.
Arguments op_try_signal {W}.
Arguments op_try_dequeue {W}.
Arguments op_handle_frame {W}.
Arguments op_release_output {W}.
Arguments op_mark_remaining_pending_failed {W}.

(** Field updates. *)
Definition with_phase (p : Z) (s : decode_eos_state) : decode_eos_state :=
  State p (st_signal_requested s) (st_signal_queued s) (st_output_eos_seen s)
    (st_outputs_processed_total s) (st_frames_processed_total s) (st_controls_released_total s).
Definition with_signal_requested (v : Z) (s : decode_eos_state) : decode_eos_state :=
  State (st_phase s) v (st_signal_queued s) (st_output_eos_seen s)
    (st_outputs_processed_total s) (st_frames_processed_total s) (st_controls_released_total s).
Definition with_signal_queued (v : Z) (s : decode_eos_state) : decode_eos_state :=
  State (st_phase s) (st_signal_requested s) v (st_output_eos_seen s)
    (st_outputs_processed_total s) (st_frames_processed_total s) (st_controls_released_total s).
Definition with_output_eos_seen (v : Z) (s : decode_eos_state) : decode_eos_state :=
  State (st_phase s) (st_signal_requested s) (st_signal_queued s) v
    (st_outputs_processed_total s) (st_frames_processed_total s) (st_controls_released_total s).
Definition count_output (s : decode_eos_state) : decode_eos_state :=
  State (st_phase s) (st_signal_requested s) (st_signal_queued s) (st_output_eos_seen s)
    (u64 (st_outputs_processed_total s + 1)) (st_frames_processed_total s)
    (st_controls_released_total s).
Definition count_frame (s : decode_eos_state) : decode_eos_state :=
  State (st_phase s) (st_signal_requested s) (st_signal_queued s) (st_output_eos_seen s)
    (st_outputs_processed_total s) (u64 (st_frames_processed_total s + 1))
    (st_controls_released_total s).
Definition count_control (s : decode_eos_state) : decode_eos_state :=
  State (st_phase s) (st_signal_requested s) (st_signal_queued s) (st_output_eos_seen s)
    (st_outputs_processed_total s) (st_frames_processed_total s)
    (u64 (st_controls_released_total s + 1)).

(** ** Operations *)

Definition persistent_status_flags (s : decode_eos_state) : Z :=
  let flags := 0 in
  let flags := if negb (st_signal_requested s =? 0)
    then Z.lor flags STATUS_SIGNAL_REQUESTED else flags in
  let flags := if negb (st_signal_queued s =? 0)
    then Z.lor flags STATUS_SIGNAL_QUEUED else flags in
  let flags := if negb (st_output_eos_seen s =? 0)
    then Z.lor flags STATUS_OUTPUT_EOS_SEEN else flags in
  if st_phase s =? FAILED then Z.lor flags STATUS_FAILED else flags.

Definition write_status (state : option decode_eos_state) (status : option decode_eos_status)
    (result transient_flags outputs frames controls : Z) : option decode_eos_status :=
  match status with
  | None => None
  | Some status =>
      let total f := match state with None => 0 | Some s => f s end in
      Some (Status (es_struct_size status) ABI_VERSION
        (match state with None => FAILED | Some s => st_phase s end)
        (match state with
         | None => transient_flags
         | Some s => Z.lor transient_flags (persistent_status_flags s)
         end)
        result outputs frames controls
        (total st_outputs_processed_total) (total st_frames_processed_total)
        (total st_controls_released_total) (replicate 8 0))
  end.

Definition status_is_valid (status : option decode_eos_status) : bool :=
  match status with None => false | Some st => status_size <=? es_struct_size st end.

Definition advc_vaapi_decode_eos_gate_value_enabled (value : option string) : bool :=
  match value with None => false | Some v => bool_decide (v = OPT_IN_VALUE) end.

Definition OPT_IN_ENV : string := "ADVC_VAAPI_ENABLE_PRIVATE_DECODE_EOS".
Definition advc_vaapi_decode_eos_gate_enabled (getenv : string -> option string) : bool :=
  advc_vaapi_decode_eos_gate_value_enabled (getenv OPT_IN_ENV).

Definition advc_vaapi_decode_eos_state_init : decode_eos_state :=
  with_phase OPEN (State 0 0 0 0 0 0 0).

Section Machine.
Context {W : Type}.
Implicit Types ops : decode_eos_ops W.
Implicit Types w : W.

Definition ops_are_valid (ops : option (decode_eos_ops W)) : bool :=
  match ops with
  | None => false
  | Some ops =>
      bool_decide (is_Some (op_try_signal ops)) && bool_decide (is_Some (op_try_dequeue ops)) &&
      bool_decide (is_Some (op_handle_frame ops)) && bool_decide (is_Some (op_release_output ops)) &&
      bool_decide (is_Some (op_mark_remaining_pending_failed ops))
  end.

(** Calls through the adapter.  [ops_are_valid] guards every call site, so the
    [None] branches are unreachable. *)
Definition try_signal ops w : Z * W :=
  match op_try_signal ops with Some f => f w | None => (IO_FATAL, w) end.
Definition try_dequeue ops (o : decode_eos_output) w : Z * decode_eos_output * W :=
  match op_try_dequeue ops with Some f => f o w | None => (IO_FATAL, o, w) end.
Definition handle_frame ops (o : decode_eos_output) w : Z * W :=
  match op_handle_frame ops with Some f => f o w | None => (IO_FATAL, w) end.
Definition release_output ops (o : decode_eos_output) w : Z * W :=
  match op_release_output ops with Some f => f o w | None => (IO_FATAL, w) end.
Definition mark_remaining_pending_failed ops w : W :=
  match op_mark_remaining_pending_failed ops with Some f => f w | None => w end.

(** What a call leaves: its result, [*state], [*status] and the adapter. *)
Definition outcome (S : Type) : Type := Z * S * option decode_eos_status * W.

Definition fail_state (state : decode_eos_state) (status : option decode_eos_status)
    (outputs frames controls : Z) w : outcome decode_eos_state :=
  let state := with_phase FAILED state in
  (RESULT_FAILED, state,
   write_status (Some state) status RESULT_FAILED 0 outputs frames controls, w).

Definition discard_and_fail (state : decode_eos_state) ops (output : decode_eos_output)
    (status : option decode_eos_status) (outputs frames controls : Z) w
    : outcome decode_eos_state :=
  let w := if negb (eo_buffer_id output =? 0) then snd (release_output ops output w) else w in
  fail_state state status outputs frames controls w.

(** [write_status] followed by the return of the same result. *)
Definition report (state : decode_eos_state) (status : option decode_eos_status)
    (result transient_flags outputs frames controls : Z) w : outcome decode_eos_state :=
  (result, state,
   write_status (Some state) status result transient_flags outputs frames controls, w).

Definition on_state (r : outcome decode_eos_state) : outcome (option decode_eos_state) :=
  let '(result, state, status, w) := r in (result, Some state, status, w).

(** The signal past the argument check. *)
Definition signal_body (state : decode_eos_state) ops (status : option decode_eos_status) w
    : outcome decode_eos_state :=
  if st_phase state =? FAILED then report state status RESULT_FAILED 0 0 0 0 w
  else if st_phase state =? COMPLETE then report state status RESULT_COMPLETE 0 0 0 0 w
  else if st_phase state =? DRAINING then report state status RESULT_OK 0 0 0 0 w
  else
    let state := with_phase SIGNAL_PENDING (with_signal_requested 1 state) in
    let '(io_result, w) := try_signal ops w in
    if io_result =? IO_OK then
      let state := with_phase DRAINING (with_signal_queued 1 state) in
      report state status RESULT_OK 0 0 0 0 w
    else if (io_result =? IO_RETRY) || (io_result =? IO_OUTPUT_WINDOW_FULL) then
      let flag := if io_result =? IO_OUTPUT_WINDOW_FULL then STATUS_OUTPUT_WINDOW_FULL else 0 in
      let result := if io_result =? IO_OUTPUT_WINDOW_FULL
        then RESULT_NEED_OUTPUT_RELEASE else RESULT_WOULD_BLOCK in
      report state status result flag 0 0 0 w
    else fail_state state status 0 0 0 w.

Definition advc_vaapi_decode_eos_state_signal (state : option decode_eos_state)
    (ops : option (decode_eos_ops W)) (status : option decode_eos_status) w
    : outcome (option decode_eos_state) :=
  let invalid :=
    (RESULT_INVALID_ARGUMENT, state,
     write_status state status RESULT_INVALID_ARGUMENT 0 0 0 0, w) in
  match state, ops with
  | Some s, Some o =>
      if negb (ops_are_valid ops) || negb (status_is_valid status) then invalid
      else on_state (signal_body s o status w)
  | _, _ => invalid
  end.

(** The terminal output: fail what is still pending, record it, complete. *)
Definition finish (state : decode_eos_state) ops (status : option decode_eos_status)
    (outputs frames controls : Z) w : outcome decode_eos_state :=
  let w := mark_remaining_pending_failed ops w in
  let state := with_phase COMPLETE (with_output_eos_seen 1 state) in
  report state status RESULT_COMPLETE 0 outputs frames controls w.

(** A dequeued control output. *)
Definition control_output (state : decode_eos_state) ops (output : decode_eos_output)
    (status : option decode_eos_status) (outputs frames controls : Z) w
    : outcome decode_eos_state :=
  if negb (eo_flags output =? OUTPUT_FLAG_EOS)
  then discard_and_fail state ops output status outputs frames controls w
  else
    let '(r, w) := release_output ops output w in
    if negb (r =? IO_OK) then fail_state state status outputs frames controls w
    else
      let controls := u32 (controls + 1) in
      let state := count_control state in
      if negb (st_phase state =? DRAINING)
      then fail_state state status outputs frames controls w
      else finish state ops status outputs frames controls w.

(** [while (outputs < max_outputs)]: every iteration that continues has counted
    one output, so [room] is [max_outputs - outputs]. *)
Fixpoint progress_loop ops (room : nat) (state : decode_eos_state)
    (status : option decode_eos_status) (outputs frames controls : Z) w
    : outcome decode_eos_state :=
  match room with
  | O => report state status RESULT_OK STATUS_BUDGET_EXHAUSTED outputs frames controls w
  | S room =>
      let '(io_result, output, w) := try_dequeue ops zero_output w in
      if io_result =? IO_RETRY then
        report state status RESULT_WOULD_BLOCK STATUS_BROKER_EMPTY outputs frames controls w
      else if io_result =? IO_OUTPUT_WINDOW_FULL then
        report state status RESULT_NEED_OUTPUT_RELEASE STATUS_OUTPUT_WINDOW_FULL
          outputs frames controls w
      else if negb (io_result =? IO_OK) then
        fail_state state status outputs frames controls w
      else
        let outputs := u32 (outputs + 1) in
        let state := count_output state in
        if eo_buffer_id output =? 0 then fail_state state status outputs frames controls w
        else if eo_kind output =? OUTPUT_CONTROL then
          control_output state ops output status outputs frames controls w
        else if negb (eo_kind output =? OUTPUT_FRAME) then
          discard_and_fail state ops output status outputs frames controls w
        else if negb (Z.land (eo_flags output) OUTPUT_FLAG_EOS =? 0) &&
                negb (st_phase state =? DRAINING) then
          discard_and_fail state ops output status outputs frames controls w
        else
          let '(r, w) := handle_frame ops output w in
          if negb (r =? IO_OK) then
            discard_and_fail state ops output status outputs frames controls w
          else
            let frames := u32 (frames + 1) in
            let state := count_frame state in
            if negb (Z.land (eo_flags output) OUTPUT_FLAG_EOS =? 0) then
              finish state ops status outputs frames controls w
            else progress_loop ops room state status outputs frames controls w
  end.

Definition progress_body (state : decode_eos_state) ops (max_outputs : Z)
    (status : option decode_eos_status) w : outcome decode_eos_state :=
  if st_phase state =? OPEN then report state status RESULT_NOT_SIGNALED 0 0 0 0 w
  else if st_phase state =? FAILED then report state status RESULT_FAILED 0 0 0 0 w
  else if st_phase state =? COMPLETE then report state status RESULT_COMPLETE 0 0 0 0 w
  else progress_loop ops (Z.to_nat max_outputs) state status 0 0 0 w.

Definition advc_vaapi_decode_eos_state_progress (state : option decode_eos_state)
    (ops : option (decode_eos_ops W)) (max_outputs : Z)
    (status : option decode_eos_status) w : outcome (option decode_eos_state) :=
  let invalid :=
    (RESULT_INVALID_ARGUMENT, state,
     write_status state status RESULT_INVALID_ARGUMENT 0 0 0 0, w) in
  match state, ops with
  | Some s, Some o =>
      if negb (ops_are_valid ops) || negb (status_is_valid status) ||
         (max_outputs =? 0) || (MAX_PROGRESS_OUTPUTS <? max_outputs)
      then invalid
      else on_state (progress_body s o max_outputs status w)
  | _, _ => invalid
  end.

End Machine.
Arguments outcome : clear implicits.

(** ** The calls made through the adapter

    [logged ops] behaves as [ops] and records every call with its answer. *)

Inductive event :=
  | ESignal (r : Z)
  | EDequeue (r : Z) (o : decode_eos_output)
  | EFrame (o : decode_eos_output) (r : Z)
  | ERelease (o : decode_eos_output) (r : Z)
  | EMark.

Section Logged.
Context {W : Type}.

Definition logged (ops : decode_eos_ops W) : decode_eos_ops (W * list event) :=
  Ops
    ((fun f '(w, log) => let '(r, w) := f w in (r, (w, log ++ [ESignal r])))
       <$> op_try_signal ops)
    ((fun f o '(w, log) => let '(r, o, w) := f o w in (r, o, (w, log ++ [EDequeue r o])))
       <$> op_try_dequeue ops)
    ((fun f o '(w, log) => let '(r, w) := f o w in (r, (w, log ++ [EFrame o r])))
       <$> op_handle_frame ops)
    ((fun f o '(w, log) => let '(r, w) := f o w in (r, (w, log ++ [ERelease o r])))
       <$> op_release_output ops)
    ((fun f '(w, log) => (f w, log ++ [EMark])) <$> op_mark_remaining_pending_failed ops).

(** A client's calls on one state, each with the status block it passes. *)
Inductive eos_call :=
  | CallSignal (status : option decode_eos_status)
  | CallProgress (max_outputs : Z) (status : option decode_eos_status).

Definition eos_run_call (ops : decode_eos_ops W) (c : eos_call) (s : decode_eos_state)
    (w : W * list event) : outcome (W * list event) (option decode_eos_state) :=
  match c with
  | CallSignal st => advc_vaapi_decode_eos_state_signal (Some s) (Some (logged ops)) st w
  | CallProgress n st =>
      advc_vaapi_decode_eos_state_progress (Some s) (Some (logged ops)) n st w
  end.

Fixpoint eos_run (ops : decode_eos_ops W) (cs : list eos_call) (s : decode_eos_state)
    (w : W * list event) : decode_eos_state * (W * list event) :=
  match cs with
  | [] => (s, w)
  | c :: cs =>
      let '(_, s', _, w) := eos_run_call ops c s w in
      eos_run ops cs (default s s') w
  end.

End Logged.

(** ** Specification: the life cycle of a drained session *)

Definition eos_active (p : Z) : Prop := p = SIGNAL_PENDING \/ p = DRAINING.
Definition eos_terminal (o : decode_eos_output) : Prop :=
  Z.land (eo_flags o) OUTPUT_FLAG_EOS <> 0.

(** One transition and the adapter calls it consists of. *)
Inductive eos_step : Z -> list event -> Z -> Prop :=
  | step_signal_ok p : p = OPEN \/ p = SIGNAL_PENDING ->
      eos_step p [ESignal IO_OK] DRAINING
  | step_signal_again p r : p = OPEN \/ p = SIGNAL_PENDING ->
      r = IO_RETRY \/ r = IO_OUTPUT_WINDOW_FULL -> eos_step p [ESignal r] SIGNAL_PENDING
  | step_signal_failed p r : p = OPEN \/ p = SIGNAL_PENDING ->
      r <> IO_OK -> r <> IO_RETRY -> r <> IO_OUTPUT_WINDOW_FULL ->
      eos_step p [ESignal r] FAILED
  | step_no_output p r o : eos_active p ->
      r = IO_RETRY \/ r = IO_OUTPUT_WINDOW_FULL -> eos_step p [EDequeue r o] p
  | step_dequeue_failed p r o : eos_active p ->
      r <> IO_OK -> r <> IO_RETRY -> r <> IO_OUTPUT_WINDOW_FULL ->
      eos_step p [EDequeue r o] FAILED
  | step_no_lease p o : eos_active p -> eo_buffer_id o = 0 ->
      eos_step p [EDequeue IO_OK o] FAILED
  | step_frame p o : eos_active p -> eo_buffer_id o <> 0 ->
      eo_kind o = OUTPUT_FRAME -> ~ eos_terminal o ->
      eos_step p [EDequeue IO_OK o; EFrame o IO_OK] p
  | step_last_frame o : eo_buffer_id o <> 0 ->
      eo_kind o = OUTPUT_FRAME -> eos_terminal o ->
      eos_step DRAINING [EDequeue IO_OK o; EFrame o IO_OK; EMark] COMPLETE
  | step_last_control o : eo_buffer_id o <> 0 ->
      eo_kind o = OUTPUT_CONTROL -> eo_flags o = OUTPUT_FLAG_EOS ->
      eos_step DRAINING [EDequeue IO_OK o; ERelease o IO_OK; EMark] COMPLETE
  | step_early_control o : eo_buffer_id o <> 0 ->
      eo_kind o = OUTPUT_CONTROL -> eo_flags o = OUTPUT_FLAG_EOS ->
      eos_step SIGNAL_PENDING [EDequeue IO_OK o; ERelease o IO_OK] FAILED
  | step_control_stuck p o r : eos_active p -> eo_buffer_id o <> 0 ->
      eo_kind o = OUTPUT_CONTROL -> eo_flags o = OUTPUT_FLAG_EOS -> r <> IO_OK ->
      eos_step p [EDequeue IO_OK o; ERelease o r] FAILED
  | step_malformed p o r : eos_active p -> eo_buffer_id o <> 0 ->
      (eo_kind o = OUTPUT_CONTROL /\ eo_flags o <> OUTPUT_FLAG_EOS) \/
      (eo_kind o <> OUTPUT_CONTROL /\ eo_kind o <> OUTPUT_FRAME) \/
      (eo_kind o = OUTPUT_FRAME /\ eos_terminal o /\ p = SIGNAL_PENDING) ->
      eos_step p [EDequeue IO_OK o; ERelease o r] FAILED
  | step_frame_refused p o r r' : eos_active p -> eo_buffer_id o <> 0 ->
      eo_kind o = OUTPUT_FRAME -> r <> IO_OK ->
      eos_step p [EDequeue IO_OK o; EFrame o r; ERelease o r'] FAILED.

(** Runs of the specification.  No step leaves COMPLETE or FAILED. *)
Inductive eos_path : Z -> list event -> Z -> Prop :=
  | path_nil p : eos_path p [] p
  | path_cons p q r l l' : eos_step p l q -> eos_path q l' r -> eos_path p (l ++ l') r.

(** The lease discipline of the interface as a scanner: [held] is the lease
    dequeued and not yet consumed.  A lease is consumed by one successful
    [handle_frame] or by one [release_output]; nothing else may be called while
    a lease is held, and nothing may be consumed twice. *)
Fixpoint leases_settled (held : option decode_eos_output) (l : list event) : Prop :=
  match l with
  | [] => held = None
  | ESignal _ :: l | EMark :: l => held = None /\ leases_settled None l
  | EDequeue r o :: l =>
      held = None /\
      leases_settled (if (r =? IO_OK) && negb (eo_buffer_id o =? 0) then Some o else None) l
  | EFrame o r :: l =>
      held = Some o /\ leases_settled (if r =? IO_OK then None else held) l
  | ERelease o _ :: l => held = Some o /\ leases_settled None l
  end.

(** Event tests behind the counters. *)
Definition is_dequeued (e : event) : bool :=
  match e with EDequeue r _ => r =? IO_OK | _ => false end.
Definition is_dequeue (e : event) : bool :=
  match e with EDequeue _ _ => true | _ => false end.
Definition is_frame_done (e : event) : bool :=
  match e with EFrame _ r => r =? IO_OK | _ => false end.
Definition is_control_done (e : event) : bool :=
  match e with
  | ERelease o r =>
      (r =? IO_OK) && (eo_kind o =? OUTPUT_CONTROL) && (eo_flags o =? OUTPUT_FLAG_EOS)
  | _ => false
  end.
Definition is_signaled (e : event) : bool :=
  match e with ESignal r => r =? IO_OK | _ => false end.
Definition is_mark (e : event) : bool := match e with EMark => true | _ => false end.

(** The counters and flags of the state, read off the calls made so far. *)
Record eos_accounts (log : list event) (s : decode_eos_state) : Prop := {
  ea_phase : OPEN <= st_phase s <= FAILED;
  ea_outputs : st_outputs_processed_total s = u64 (count is_dequeued log);
  ea_frames : st_frames_processed_total s = u64 (count is_frame_done log);
  ea_controls : st_controls_released_total s = u64 (count is_control_done log);
  ea_signaled : st_signal_queued s = count is_signaled log;
  ea_marked : st_output_eos_seen s = count is_mark log;
  ea_complete : count is_mark log = Z.b2z (st_phase s =? COMPLETE);
  ea_draining : st_phase s = DRAINING \/ st_phase s = COMPLETE -> count is_signaled log = 1;
  ea_pending : st_phase s = OPEN \/ st_phase s = SIGNAL_PENDING -> count is_signaled log = 0 }.

(** ** Lemmas *)

Lemma count_app {A} (f : A -> bool) l l' : count f (l ++ l') = count f l + count f l'.
Proof. unfold count. rewrite List.filter_app, length_app. lia. Qed.

Lemma u64_succ x : u64 (u64 x + 1) = u64 (x + 1).
Proof. unfold u64. apply Zplus_mod_idemp_l. Qed.

Lemma eos_path_one p l q : eos_step p l q -> eos_path p l q.
Proof. intros H. rewrite <- (app_nil_r l). eapply path_cons, path_nil. exact H. Qed.

Lemma eos_path_app p q r l l' : eos_path p l q -> eos_path q l' r -> eos_path p (l ++ l') r.
Proof.
  induction 1 as [|p q' q l l0 Hs Hp IH]; intros H'; [exact H'|].
  rewrite <- app_assoc. eapply path_cons; eauto.
Qed.

(** Every transition returns the leases it takes. *)
Lemma step_settled p l q : eos_step p l q ->
  forall l', leases_settled None l' -> leases_settled None (l ++ l').
Proof.
  intros H l' Hl.
  destruct H; cbn [app leases_settled];
    repeat match goal with
    | H : _ \/ _ |- _ => destruct H
    | H : eo_buffer_id _ <> 0 |- _ => apply Z.eqb_neq in H; rewrite H
    | H : eo_buffer_id _ = 0 |- _ => rewrite H
    | H : ?r <> IO_OK |- context [?r =? IO_OK] => apply Z.eqb_neq in H; rewrite H
    end; subst; cbn; auto.
Qed.

Lemma path_settled p l q : eos_path p l q -> leases_settled None l.
Proof. induction 1; [done|]. eapply step_settled; eauto. Qed.

(** COMPLETE and FAILED are absorbing. *)
Lemma path_absorbing p l q : eos_path p l q -> p = COMPLETE \/ p = FAILED -> l = [] /\ q = p.
Proof.
  intros [|? ? ? ? ? Hs _] [-> | ->]; [done..| |];
    inversion Hs; subst; unfold eos_active in *;
    repeat match goal with H : _ \/ _ |- _ => destruct H end; discriminate.
Qed.

(** What one call does to a session in state [s] with call log [log]: it appends
    a run of the specification, keeps the accounts and dequeues at most [n]. *)
Definition call_good {W} (n : Z) (s : decode_eos_state) (log : list event)
    (x : outcome (W * list event) decode_eos_state) : Prop :=
  let '(_, s', _, (_, log')) := x in
  exists ev, log' = log ++ ev /\ eos_path (st_phase s) ev (st_phase s') /\
    eos_accounts log' s' /\ count is_dequeue ev <= n.

#[global] Arguments call_good : simpl never.

(** What it reports. *)
Definition reports {W} (status : option decode_eos_status)
    (x : outcome W decode_eos_state) : Prop :=
  let '(r, s', status', _) := x in
  forall st, status = Some st -> exists st', status' = Some st' /\
    es_last_result st' = r /\ es_phase st' = st_phase s' /\
    es_struct_size st' = es_struct_size st /\
    es_outputs_processed_total st' = st_outputs_processed_total s'.

Create HintDb eos.
Ltac reported := unfold reports, report, fail_state; intros ? ->; eexists; split_and!; done.

Lemma reports_report {W} s st r fl a b c (w : W) : reports st (report s st r fl a b c w).
Proof. reported. Qed.
Lemma reports_fail {W} s st a b c (w : W) : reports st (fail_state s st a b c w).
Proof. reported. Qed.
#[export] Hint Resolve reports_report reports_fail : eos.

Lemma reports_loop {W} (ops : decode_eos_ops W) n s st a b c w :
  reports st (progress_loop ops n s st a b c w).
Proof.
  revert s a b c w. induction n as [|n IH]; intros; cbn [progress_loop]; [auto with eos|].
  unfold discard_and_fail, control_output, finish, discard_and_fail.
  repeat match goal with |- reports _ (match ?x with _ => _ end) => destruct x end;
  auto with eos.
Qed.
#[export] Hint Resolve reports_loop : eos.

Lemma reports_signal {W} (ops : decode_eos_ops W) s st w :
  reports st (signal_body s ops st w).
Proof.
  unfold signal_body. destruct (try_signal ops w) as [r w'].
  repeat match goal with |- reports _ (if ?b then _ else _) => destruct b end; auto with eos.
Qed.

Lemma reports_progress {W} (ops : decode_eos_ops W) s n st w :
  reports st (progress_body s ops n st w).
Proof.
  unfold progress_body.
  repeat match goal with |- reports _ (if ?b then _ else _) => destruct b end; auto with eos.
Qed.

Lemma count_nil {A} (f : A -> bool) : count f [] = 0.
Proof. done. Qed.
Lemma count_cons {A} (f : A -> bool) x l : count f (x :: l) = Z.b2z (f x) + count f l.
Proof. unfold count. cbn. destruct (f x); cbn; lia. Qed.

(** [accounts] re-establishes the accounts after a known sequence of calls: it
    counts the appended events, evaluates the tests the branch has decided and
    compares with the updated fields. *)
Ltac decided :=
  repeat match goal with
  | H : (?a =? ?b) = _ |- context [?a =? ?b] => rewrite H
  end.
Ltac accounts :=
  match goal with H : eos_accounts _ _ |- _ => destruct H as [? ? ? ? ? ? ? ? ?] end;
  constructor; cbn [with_phase with_signal_requested with_signal_queued with_output_eos_seen
    count_output count_frame count_control st_phase st_signal_requested st_signal_queued
    st_output_eos_seen st_outputs_processed_total st_frames_processed_total
    st_controls_released_total] in *;
  rewrite ?count_app, ?count_cons, ?count_nil;
  repeat match goal with H : is_control_done _ = _ |- _ => rewrite H end;
  cbn [is_dequeued is_frame_done is_control_done is_signaled is_mark]; decided;
  repeat match goal with H : st_phase _ = _ |- _ => rewrite H in * end;
  cbn -[count u64] in *;
  repeat match goal with
  | H : st_outputs_processed_total _ = _ |- _ => rewrite H; clear H
  | H : st_frames_processed_total _ = _ |- _ => rewrite H; clear H
  | H : st_controls_released_total _ = _ |- _ => rewrite H; clear H
  | H : st_signal_queued _ = _ |- _ => rewrite H; clear H
  | H : st_output_eos_seen _ = _ |- _ => rewrite H; clear H
  end;
  rewrite ?u64_succ, ?Z.add_0_r;
  first [reflexivity | unfold OPEN, SIGNAL_PENDING, DRAINING, COMPLETE, FAILED in *; lia].

Section CallGood.
Context {W : Type}.
Variables (f1 : W -> Z * W) (f2 : decode_eos_output -> W -> Z * decode_eos_output * W).
Variables (f3 f4 : decode_eos_output -> W -> Z * W) (f5 : W -> W).
Let ops : decode_eos_ops W := Ops (Some f1) (Some f2) (Some f3) (Some f4) (Some f5).

(** A call that makes no adapter call. *)
Lemma good_report s st r fl a b c (w : W) log :
  eos_accounts log s -> call_good 0 s log (report s st r fl a b c (w, log)).
Proof. intros H. exists []. rewrite app_nil_r. split_and!; auto using path_nil. done. Qed.

(** A call whose adapter calls are the events of one transition. *)
Lemma good_step n s log ev s' r (st : option decode_eos_status) (w : W) :
  eos_step (st_phase s) ev (st_phase s') -> eos_accounts (log ++ ev) s' ->
  count is_dequeue ev <= n -> call_good n s log (r, s', st, (w, log ++ ev)).
Proof. intros. exists ev. split_and!; auto using eos_path_one. Qed.

Ltac counted := rewrite ?count_app, ?count_cons, ?count_nil; cbn [is_dequeue Z.b2z]; lia.

(** The tests of a branch as facts on the integers. *)
Ltac tests :=
  repeat match goal with
  | H : negb _ = true |- _ => apply negb_true_iff in H
  | H : negb _ = false |- _ => apply negb_false_iff in H
  | H : (_ =? _) = true |- _ => apply Z.eqb_eq in H
  | H : (_ =? _) = false |- _ => apply Z.eqb_neq in H
  end.

Lemma signal_good s st w log :
  eos_accounts log s -> call_good 0 s log (signal_body s (logged ops) st (w, log)).
Proof.
  intros H. unfold signal_body.
  destruct (st_phase s =? FAILED) eqn:E4; [by apply good_report|].
  destruct (st_phase s =? COMPLETE) eqn:E3; [by apply good_report|].
  destruct (st_phase s =? DRAINING) eqn:E2; [by apply good_report|].
  assert (st_phase s = OPEN \/ st_phase s = SIGNAL_PENDING) as Hp.
  { pose proof (ea_phase _ _ H). tests. unfold OPEN, SIGNAL_PENDING, DRAINING, COMPLETE, FAILED in *. lia. }
  cbn. destruct (f1 w) as [r w'].
  destruct (r =? IO_OK) eqn:R0; [|destruct (r =? IO_RETRY) eqn:R1;
    [|destruct (r =? IO_OUTPUT_WINDOW_FULL) eqn:R2]]; cbn [orb]; tests; subst.
  - apply good_step; [by constructor| |done]. destruct Hp; accounts.
  - apply good_step; [constructor; auto| |done]. destruct Hp; accounts.
  - apply good_step; [constructor; auto| |done]. destruct Hp; accounts.
  - apply good_step; [constructor; auto| |done]. apply Z.eqb_neq in R0. destruct Hp; accounts.
Qed.

(** [branch] closes a branch of [progress_loop] that ends the call: the calls
    made are one transition, found by its constructor. *)
Ltac branch :=
  rewrite <- ?app_assoc; cbn [app];
  apply good_step;
  [ tests; cbn [st_phase with_phase with_output_eos_seen count_output count_frame count_control] in *;
    subst; first [constructor; solve [eauto] | eapply step_control_stuck; solve [eauto]
      | eapply step_malformed; solve [eauto]]
  | match goal with H : eos_active _ |- _ => destruct H end; accounts
  | counted ].

Lemma discard_good n s o st a b c w log :
  eos_active (st_phase s) -> eos_accounts log s -> eo_buffer_id o <> 0 -> 1 <= n ->
  (eo_kind o = OUTPUT_CONTROL /\ eo_flags o <> OUTPUT_FLAG_EOS) \/
  (eo_kind o <> OUTPUT_CONTROL /\ eo_kind o <> OUTPUT_FRAME) \/
  (eo_kind o = OUTPUT_FRAME /\ eos_terminal o /\ st_phase s = SIGNAL_PENDING) ->
  call_good n s log
    (discard_and_fail (count_output s) (logged ops) o st a b c (w, log ++ [EDequeue IO_OK o])).
Proof.
  intros Hp H Hid Hn Hbad. unfold discard_and_fail, fail_state.
  destruct (eo_buffer_id o =? 0) eqn:E0; [tests; done|]. cbn. destruct (f4 o w) as [r w'].
  cbn [snd]. assert (is_control_done (ERelease o r) = false) as Hc.
  { cbn. destruct (eo_kind o =? OUTPUT_CONTROL) eqn:Ek, (eo_flags o =? OUTPUT_FLAG_EOS) eqn:Ef;
      rewrite ?andb_false_r; try done. tests. unfold OUTPUT_CONTROL, OUTPUT_FRAME in *.
    destruct Hbad as [[? ?]|[[? ?]|[? ?]]]; congruence. }
  rewrite <- app_assoc. apply good_step; [by eapply step_malformed| |counted].
  destruct Hp; accounts.
Qed.

Lemma control_good n s o st a b c w log :
  eos_active (st_phase s) -> eos_accounts log s -> eo_buffer_id o <> 0 -> 1 <= n ->
  eo_kind o = OUTPUT_CONTROL ->
  call_good n s log
    (control_output (count_output s) (logged ops) o st a b c (w, log ++ [EDequeue IO_OK o])).
Proof.
  intros Hp H Hid Hn Hk. unfold control_output.
  destruct (eo_flags o =? OUTPUT_FLAG_EOS) eqn:Ef; cbn [negb].
  2: { apply discard_good; auto. tests. auto. }
  cbn. destruct (f4 o w) as [r w'].
  assert (is_control_done (ERelease o r) = (r =? IO_OK)) as Hc.
  { cbn. rewrite Hk, Ef. by rewrite !andb_true_r. }
  destruct (r =? IO_OK) eqn:Er; cbn [negb].
  2: { unfold fail_state. branch. }
  apply Z.eqb_eq in Er. subst r. unfold finish, fail_state, report. cbn.
  destruct (st_phase s =? DRAINING) eqn:Ed; cbn [negb].
  - apply Z.eqb_eq in Ef, Ed. rewrite <- !app_assoc. cbn [app]. apply good_step; [|accounts|counted].
    rewrite Ed. by constructor.
  - apply Z.eqb_eq in Ef. apply Z.eqb_neq in Ed. destruct Hp as [Hp|Hp]; [|done].
    rewrite <- !app_assoc. cbn [app]. apply good_step; [|accounts|counted].
    rewrite Hp. by constructor.
Qed.

(** A frame [handle_frame] refused is released once. *)
Lemma refused_good n s o r st a b c w log :
  eos_active (st_phase s) -> eos_accounts log s -> eo_buffer_id o <> 0 -> 1 <= n ->
  eo_kind o = OUTPUT_FRAME -> (r =? IO_OK) = false ->
  call_good n s log (discard_and_fail (count_output s) (logged ops) o st a b c
    (w, log ++ [EDequeue IO_OK o; EFrame o r])).
Proof.
  intros Hp H Hid Hn Hk Hr. unfold discard_and_fail, fail_state.
  destruct (eo_buffer_id o =? 0) eqn:E0; [tests; done|]. cbn. destruct (f4 o w) as [r' w'].
  cbn [snd]. assert (is_control_done (ERelease o r') = false) as Hc.
  { cbn. rewrite Hk. by rewrite andb_false_r. }
  branch.
Qed.

(** A consumed frame extends the calls of the rest of the loop. *)
Lemma good_after_frame n s o log (x : outcome (W * list event) decode_eos_state) :
  eos_step (st_phase s) [EDequeue IO_OK o; EFrame o IO_OK] (st_phase s) ->
  call_good (Z.of_nat n) (count_frame (count_output s))
    (log ++ [EDequeue IO_OK o; EFrame o IO_OK]) x ->
  call_good (Z.of_nat (S n)) s log x.
Proof.
  destruct x as [[[r s'] st'] [w' log']]. intros Hs (ev & -> & Hpath & Hacc & Hn).
  exists ([EDequeue IO_OK o; EFrame o IO_OK] ++ ev). rewrite app_assoc. split_and!; auto.
  - eapply path_cons; eauto.
  - revert Hn. counted.
Qed.

Lemma loop_good n s st a b c w log :
  eos_active (st_phase s) -> eos_accounts log s ->
  call_good (Z.of_nat n) s log (progress_loop (logged ops) n s st a b c (w, log)).
Proof.
  revert s a b c w log. induction n as [|n IH]; intros s a b c w log Hp H.
  { by apply good_report. }
  cbn [progress_loop]. unfold try_dequeue. cbn. destruct (f2 zero_output w) as [[r o] w'].
  destruct (r =? IO_RETRY) eqn:R1; [unfold report; apply Z.eqb_eq in R1; subst r; branch|].
  destruct (r =? IO_OUTPUT_WINDOW_FULL) eqn:R2; [unfold report; apply Z.eqb_eq in R2; subst r; branch|].
  destruct (r =? IO_OK) eqn:R0; cbn [negb]; [|unfold fail_state; branch].
  apply Z.eqb_eq in R0. subst r.
  destruct (eo_buffer_id o =? 0) eqn:E0; [unfold fail_state; branch|].
  destruct (eo_kind o =? OUTPUT_CONTROL) eqn:Ek; [apply control_good; tests; auto; lia|].
  destruct (eo_kind o =? OUTPUT_FRAME) eqn:Ekf; cbn [negb];
    [|apply discard_good; tests; auto; lia].
  destruct (negb (Z.land (eo_flags o) OUTPUT_FLAG_EOS =? 0) && _) eqn:Et.
  { apply andb_true_iff in Et as [Et Ed]. apply discard_good; tests; auto; [lia|].
    destruct Hp; [auto|done]. }
  unfold handle_frame. cbn. destruct (f3 o w') as [r w'']. rewrite <- app_assoc. cbn [app].
  destruct (r =? IO_OK) eqn:Er; cbn [negb]; [|apply refused_good; tests; auto; lia].
  apply Z.eqb_eq in Er. subst r.
  destruct (negb (Z.land (eo_flags o) OUTPUT_FLAG_EOS =? 0)) eqn:Et'.
  - cbn in Et. unfold finish, report, mark_remaining_pending_failed. cbn. tests.
    rewrite <- app_assoc. cbn [app]. apply good_step; [|accounts|counted].
    cbn in *. rewrite Et. constructor; auto.
  - tests. apply (good_after_frame n s o).
    + by constructor; auto.
    + apply IH; [done|]. destruct Hp; accounts.
Qed.

Lemma progress_good s m st w log : eos_accounts log s -> m <= MAX_PROGRESS_OUTPUTS ->
  call_good (Z.max 0 m) s log (progress_body s (logged ops) m st (w, log)).
Proof.
  intros H Hm. unfold progress_body.
  assert (forall x : outcome (W * list event) decode_eos_state,
    call_good 0 s log x -> call_good (Z.max 0 m) s log x) as Hw.
  { intros [[[r s'] st'] [w' log']] (ev & ? & ? & ? & ?). exists ev. split_and!; auto. lia. }
  destruct (st_phase s =? OPEN) eqn:E0; [by apply Hw, good_report|].
  destruct (st_phase s =? FAILED) eqn:E4; [by apply Hw, good_report|].
  destruct (st_phase s =? COMPLETE) eqn:E3; [by apply Hw, good_report|].
  replace (Z.max 0 m) with (Z.of_nat (Z.to_nat m)) by lia.
  apply loop_good; [|done]. pose proof (ea_phase _ _ H). tests.
  unfold eos_active, OPEN, SIGNAL_PENDING, DRAINING, COMPLETE, FAILED in *. lia.
Qed.
End CallGood.

Lemma logged_valid {W} (ops : decode_eos_ops W) : ops_are_valid (Some (logged ops)) = true ->
  exists f1 f2 f3 f4 f5, ops = Ops (Some f1) (Some f2) (Some f3) (Some f4) (Some f5).
Proof.
  destruct ops as [[] [] [] [] []]; cbn; rewrite ?andb_true_r, ?andb_false_r; try done. eauto 6.
Qed.

(** The outputs a call may dequeue. *)
Definition call_budget (c : eos_call) : Z :=
  match c with
  | CallSignal _ => 0
  | CallProgress m _ => Z.min (Z.max 0 m) MAX_PROGRESS_OUTPUTS
  end.
Definition call_status (c : eos_call) : option decode_eos_status :=
  match c with CallSignal st | CallProgress _ st => st end.

(** Every call is a good call with its report; a refused one changes nothing. *)
Lemma call_correct {W} (ops : decode_eos_ops W) c s w log : eos_accounts log s ->
  exists x, eos_run_call ops c s (w, log) = on_state x /\
    call_good (call_budget c) s log x /\ reports (call_status c) x.
Proof.
  intros H. assert (forall st n, 0 <= n -> exists x : outcome (W * list event) _,
    (RESULT_INVALID_ARGUMENT, Some s,
     write_status (Some s) st RESULT_INVALID_ARGUMENT 0 0 0 0, (w, log)) = on_state x /\
    call_good n s log x /\ reports st x) as Hinv.
  { intros st n Hn. exists (report s st RESULT_INVALID_ARGUMENT 0 0 0 0 (w, log)).
    split_and!; auto with eos. destruct (good_report s st RESULT_INVALID_ARGUMENT 0 0 0 0 w log H)
      as (ev & ? & ? & ? & ?). exists ev. split_and!; auto; lia. }
  destruct c as [st|m st]; cbn [eos_run_call call_budget call_status].
  - unfold advc_vaapi_decode_eos_state_signal.
    destruct (ops_are_valid _) eqn:Ev; cbn [negb orb]; [|by apply Hinv].
    destruct (status_is_valid st); cbn [negb orb]; [|by apply Hinv].
    apply logged_valid in Ev as (f1 & f2 & f3 & f4 & f5 & ->).
    eexists. split_and!; [done|by apply signal_good|apply reports_signal].
  - unfold advc_vaapi_decode_eos_state_progress, MAX_PROGRESS_OUTPUTS in *.
    destruct (ops_are_valid _) eqn:Ev; cbn [negb orb]; [|apply Hinv; lia].
    destruct (status_is_valid st); cbn [negb orb]; [|apply Hinv; lia].
    destruct (m =? 0) eqn:E0; cbn [negb orb]; [apply Hinv; lia|].
    destruct (Z.ltb_spec 8 m) as [E8|E8]; [apply Hinv; lia|].
    apply logged_valid in Ev as (f1 & f2 & f3 & f4 & f5 & ->). rewrite Z.min_l by lia.
    eexists. split_and!; [done|by apply progress_good|apply reports_progress].
Qed.

Lemma run_correct {W} (ops : decode_eos_ops W) cs s w log : eos_accounts log s ->
  let '(s', (_, log')) := eos_run ops cs s (w, log) in
  exists ev, log' = log ++ ev /\ eos_path (st_phase s) ev (st_phase s') /\ eos_accounts log' s'.
Proof.
  revert s w log. induction cs as [|c cs IH]; intros s w log H; cbn [eos_run].
  { exists []. rewrite app_nil_r. auto using path_nil. }
  destruct (call_correct ops c s w log H) as ([[[r s1] st'] [w1 log1]] & -> & Hg & _).
  destruct Hg as (ev & -> & Hp & Ha & _). cbn [on_state from_option id]. specialize (IH s1 w1 _ Ha).
  destruct (eos_run ops cs s1 (w1, log ++ ev)) as [s2 [w2 log2]].
  destruct IH as (ev' & -> & Hp' & Ha'). exists (ev ++ ev').
  rewrite app_assoc. eauto using eos_path_app.
Qed.

Lemma init_accounts : eos_accounts [] advc_vaapi_decode_eos_state_init.
Proof. constructor; cbn; rewrite ?count_nil;
  unfold OPEN, SIGNAL_PENDING, DRAINING, COMPLETE, FAILED; first [done | lia]. Qed.

(** C25. For every adapter, every sequence of signal and progress calls on a fresh
    state makes its adapter calls according to the life cycle [eos_path]: end of
    stream is signalled until it is queued and never again; every dequeued
    lease is consumed exactly once, by one successful handle_frame or one
    release_output, before anything else is called; the terminal output is
    followed by exactly one mark_remaining_pending_failed; the state's flags and
    its 64-bit counters are the calls made.  Each further call dequeues at most
    [min max_outputs 8] outputs, makes no adapter call and changes nothing once
    the session is COMPLETE or FAILED, and reports its result, the phase and the
    totals in the status block. *)
Theorem eos_lifecycle {W} (ops : decode_eos_ops W) (cs : list eos_call) (w : W) (c : eos_call) :
  let '(s, (w1, log)) := eos_run ops cs advc_vaapi_decode_eos_state_init (w, []) in
  let '(r, s', status', (w2, log')) := eos_run_call ops c s (w1, log) in
  eos_path OPEN log (st_phase s) /\ leases_settled None log /\ eos_accounts log s /\
  exists s2 ev, s' = Some s2 /\ log' = log ++ ev /\
    eos_path (st_phase s) ev (st_phase s2) /\ eos_accounts log' s2 /\
    count is_dequeue ev <= call_budget c /\
    (st_phase s = COMPLETE \/ st_phase s = FAILED -> ev = [] /\ st_phase s2 = st_phase s) /\
    forall st, call_status c = Some st -> exists st', status' = Some st' /\
      es_last_result st' = r /\ es_phase st' = st_phase s2 /\
      es_struct_size st' = es_struct_size st /\
      es_outputs_processed_total st' = st_outputs_processed_total s2.
Proof.
  pose proof (run_correct ops cs _ w [] init_accounts) as Hr.
  destruct (eos_run ops cs _ (w, [])) as [s [w1 log]]. destruct Hr as (ev0 & -> & Hp & Ha).
  cbn [app] in *.
  destruct (call_correct ops c s w1 ev0 Ha) as ([[[r s2] st2] [w2 log2]] & -> & Hg & Hrep).
  destruct Hg as (ev & -> & Hp' & Ha' & Hn). cbn [on_state].
  split_and!; eauto using path_settled. exists s2, ev. split_and!; auto.
  intros Hend. by apply (path_absorbing _ _ _ Hp').
Qed.

(** A session with one frame and a control token drains to COMPLETE. *)
Definition sample_ops : decode_eos_ops (list decode_eos_output) :=
  Ops (Some (fun q => (IO_OK, q)))
    (Some (fun _ q => match q with [] => (IO_RETRY, zero_output, []) | o :: q => (IO_OK, o, q) end))
    (Some (fun _ q => (IO_OK, q))) (Some (fun _ q => (IO_OK, q))) (Some (fun q => q)).
Definition sample_status : option decode_eos_status :=
  Some (Status status_size 0 0 0 0 0 0 0 0 0 0 []).
Definition sample_frame : decode_eos_output := Output 7 100 0 OUTPUT_FRAME 0.
Definition sample_token : decode_eos_output := Output 8 200 OUTPUT_FLAG_EOS OUTPUT_CONTROL 0.

Example eos_sample_run :
  eos_run sample_ops [CallProgress 8 sample_status; CallSignal sample_status;
      CallProgress 8 sample_status]
    advc_vaapi_decode_eos_state_init ([sample_frame; sample_token], []) =
  (State COMPLETE 1 1 1 2 1 1,
   ([], [ESignal IO_OK; EDequeue IO_OK sample_frame; EFrame sample_frame IO_OK;
         EDequeue IO_OK sample_token; ERelease sample_token IO_OK; EMark])).
Proof. vm_compute. reflexivity. Qed.
