(* ===== verification/EncodeEos.v ===== *)
(** * End of stream of an encode session (src/src/vaapi_advc/advc_vaapi_encode_eos.c)

    [advc_vaapi_encode_eos_finish] signals the end of the input once and drains the
    encoder within one time budget.  The adapter's callbacks are functions on its own
    state [W]; [errno] and the calls made are kept beside it. *)

From stdpp Require Import base list.
From Stdlib Require Import ZArith Lia Bool.
From S2P Require Import Prelude Kernel.

Definition ETIMEDOUT : Z := 110.

(** ** Data *)

Record encode_eos_state := EosState {
  es_signal_attempted : bool; es_signal_succeeded : bool; es_eos_received : bool;
  es_failed_closed : bool; es_failure_errno : Z }.

(** The calls on the adapter that have an effect. *)
Inductive eos_call := Signal (pts_ns : Z) | Drain (wait_ms : Z) | FailClosed.

(** The adapter's state, [errno], and the calls so far, oldest first. *)
Record world (W : Type) := World { wd : W; werrno : Z; wcalls : list eos_call }.
Arguments World {W}.
Arguments wd {W}.
Arguments werrno {W}.
Arguments wcalls {W}.

(** Each callback returns its result, the adapter's new state and [errno]. *)
Record encode_eos_ops (W : Type) := EosOps {
  op_now_ms : W -> Z * (W * Z);
  op_signal_eos : Z -> W -> Z * (W * Z);
  op_drain_once : Z -> W -> (Z * bool) * (W * Z);
  op_fail_closed : option (W -> W * Z) }.
Arguments EosOps {W}.
Arguments op_now_ms {W}.
Arguments op_signal_eos {W}.
Arguments op_drain_once {W}.
Arguments op_fail_closed {W}.

Section EncodeEos.
Context {W : Type} (ops : encode_eos_ops W).
Implicit Types (s : encode_eos_state) (w : world W).

Definition now_ms w : Z * world W :=
  let '(r, (d, e)) := op_now_ms ops (wd w) in (r, World d e (wcalls w)).
Definition signal_eos (pts_ns : Z) w : Z * world W :=
  let '(r, (d, e)) := op_signal_eos ops pts_ns (wd w) in (r, World d e (wcalls w ++ [Signal pts_ns])).
Definition drain_once (wait_ms : Z) w : (Z * bool) * world W :=
  let '(r, (d, e)) := op_drain_once ops wait_ms (wd w) in (r, World d e (wcalls w ++ [Drain wait_ms])).

Definition with_errno (e : Z) w : world W := World (wd w) e (wcalls w).

Definition fail_once s w (error : Z) : Z * (encode_eos_state * world W) :=
  let error := if error =? 0 then EIO else error in
  let '(s, w) :=
    if negb (es_failed_closed s) then
      (EosState (es_signal_attempted s) (es_signal_succeeded s) (es_eos_received s) true error,
       match op_fail_closed ops with
       | None => w
       | Some f => let '(d, e) := f (wd w) in World d e (wcalls w ++ [FailClosed])
       end)
    else (s, w) in
  (-1, (s, with_errno (es_failure_errno s) w)).

Definition receive_eos s : encode_eos_state :=
  EosState (es_signal_attempted s) (es_signal_succeeded s) true (es_failed_closed s) (es_failure_errno s).

(** The drain loop; [None] when [fuel] rounds were not enough. *)
Fixpoint drain_loop (fuel : nat) (deadline : Z) s w : option (Z * (encode_eos_state * world W)) :=
  if es_eos_received s then Some (0, (s, w))
  else
    match fuel with
    | O => None
    | S fuel =>
        let '(now, w) := now_ms w in
        if now =? UINT64_MAX then Some (fail_once s w (if werrno w =? 0 then EIO else werrno w))
        else if deadline <=? now then Some (fail_once s w ETIMEDOUT)
        else
          let remaining := deadline - now in
          let wait_ms := if UINT32_MAX <? remaining then UINT32_MAX else remaining in
          let wait_ms := if wait_ms =? 0 then 1 else wait_ms in
          let '((r, received), w) := drain_once wait_ms w in
          if r <? 0 then Some (fail_once s w (werrno w))
          else drain_loop fuel deadline (if (received : bool) then receive_eos s else s) w
    end.

(** From the deadline on. *)
Definition drain_phase (fuel : nat) (timeout_ms : Z) s w : option (Z * (encode_eos_state * world W)) :=
  let '(now, w) := now_ms w in
  if (now =? UINT64_MAX) || (UINT64_MAX - now <? timeout_ms) then Some (fail_once s w EOVERFLOW)
  else drain_loop fuel (now + timeout_ms) s w.

Definition advc_vaapi_encode_eos_finish (fuel : nat) (pts_ns timeout_ms : Z) s w
    : option (Z * (encode_eos_state * world W)) :=
  if es_failed_closed s then Some (fail_once s w (es_failure_errno s))
  else if es_eos_received s then Some (0, (s, w))
  else if negb (es_signal_attempted s) then
    let s := EosState true (es_signal_succeeded s) (es_eos_received s) (es_failed_closed s)
               (es_failure_errno s) in
    let '(r, w) := signal_eos pts_ns w in
    if r <? 0 then Some (fail_once s w (werrno w))
    else
      drain_phase fuel timeout_ms
        (EosState true true (es_eos_received s) (es_failed_closed s) (es_failure_errno s)) w
  else if negb (es_signal_succeeded s) then Some (fail_once s w EIO)
  else drain_phase fuel timeout_ms s w.

(** A session: one call after the other, as long as they return. *)
Fixpoint finish_all (fuel : nat) (calls : list (Z * Z)) s w
    : option (list Z * (encode_eos_state * world W)) :=
  match calls with
  | [] => Some ([], (s, w))
  | (pts, timeout) :: calls =>
      match advc_vaapi_encode_eos_finish fuel pts timeout s w with
      | None => None
      | Some (r, (s, w)) =>
          match finish_all fuel calls s w with
          | None => None
          | Some (rs, x) => Some (r :: rs, x)
          end
      end
  end.

Definition fresh_state : encode_eos_state := EosState false false false false 0.

(** ** The life cycle *)

Definition is_drain (c : eos_call) : Prop := match c with Drain wait => 1 <= wait <= UINT32_MAX | _ => False end.

(** The calls a session may have made: nothing; or one signal, drains, and once it
    has failed the one [fail_closed]. *)
Definition lifecycle s (calls : list eos_call) : Prop :=
  if es_signal_attempted s then
    exists pts drains, Forall is_drain drains /\
      calls = Signal pts :: drains ++
        (if es_failed_closed s && bool_decide (is_Some (op_fail_closed ops)) then [FailClosed] else [])
  else calls = [] /\ es_failed_closed s = false /\ es_eos_received s = false.

Definition consistent s : Prop :=
  (es_failed_closed s = true -> es_failure_errno s <> 0 /\ es_eos_received s = false) /\
  (es_eos_received s = true -> es_signal_succeeded s = true).

(** What a call leaves: a good state, and a result that says which. *)
Definition good (x : Z * (encode_eos_state * world W)) : Prop :=
  let '(r, (s, w)) := x in
  lifecycle s (wcalls w) /\ consistent s /\
  ((r = 0 /\ es_eos_received s = true) \/
   (r = -1 /\ es_failed_closed s = true /\ werrno w = es_failure_errno s)).

Lemma fail_once_good s w e :
  lifecycle s (wcalls w) -> consistent s -> es_signal_attempted s = true -> es_eos_received s = false ->
  good (fail_once s w e).
Proof.
  intros Hl Hc Ha He. unfold fail_once. destruct (es_failed_closed s) eqn:Hf; cbn [negb].
  - split; [done|]. split; [done|]. right. done.
  - unfold lifecycle in *. rewrite Ha, Hf in Hl. cbn in Hl. destruct Hl as (pts & drains & Hd & Hw).
    assert (consistent (EosState (es_signal_attempted s) (es_signal_succeeded s) (es_eos_received s) true
      (if e =? 0 then EIO else e))) as Hc2.
    { split; cbn; [|by rewrite He]. intros _. split; [|done]. by destruct (Z.eqb_spec e 0). }
    destruct (op_fail_closed ops) as [f|] eqn:Hop; [destruct (f (wd w)) as [d e']|].
    all: split; [|split; [done|by right]]; unfold lifecycle; cbn; rewrite Ha, Hop; exists pts, drains.
    all: split; [done|]; rewrite Hw, app_nil_r; cbn; by rewrite ?app_nil_r.
Qed.

(** A session in its drain phase. *)
Definition draining s w : Prop :=
  lifecycle s (wcalls w) /\ consistent s /\ es_signal_attempted s = true /\
  es_signal_succeeded s = true /\ es_failed_closed s = false.

Lemma drain_loop_good fuel deadline s w x : draining s w ->
  drain_loop fuel deadline s w = Some x -> good x.
Proof.
  revert s w. induction fuel as [|fuel IH]; intros s w (Hl & Hc & Ha & Hs & Hf); cbn [drain_loop];
    (destruct (es_eos_received s) eqn:He; [intros [= <-]; split; [done|split; [done|by left]]|]); [done|].
  unfold now_ms. destruct (op_now_ms ops (wd w)) as [now [d1 e1]].
  destruct (now =? UINT64_MAX); [intros [= <-]; by apply fail_once_good|].
  destruct (Z.leb_spec deadline now); [intros [= <-]; by apply fail_once_good|]. cbn zeta.
  set (wait := if _ =? 0 then 1 else _).
  assert (1 <= wait <= UINT32_MAX) as Hw.
  { unfold wait, UINT32_MAX. destruct (Z.ltb_spec (2 ^ 32 - 1) (deadline - now)).
    - destruct (Z.eqb_spec (2 ^ 32 - 1) 0); lia.
    - destruct (Z.eqb_spec (deadline - now) 0); lia. }
  unfold drain_once. cbn [wd wcalls]. destruct (op_drain_once ops wait d1) as [[r received] [d2 e2]].
  assert (lifecycle s (wcalls w ++ [Drain wait])) as Hl2.
  { unfold lifecycle in *. rewrite Ha, Hf in *. cbn in *. destruct Hl as (pts & drains & Hd & ->).
    exists pts, (drains ++ [Drain wait]). rewrite !app_nil_r. split; [|done].
    apply Forall_app. split; [done|]. by constructor. }
  destruct (r <? 0); [intros [= <-]; by apply fail_once_good|].
  apply IH. destruct received; [|by split_and!].
  refine (conj _ (conj _ (conj Ha (conj Hs Hf)))).
  - unfold lifecycle in *. cbn. by rewrite Ha in *.
  - split; cbn; [by rewrite Hf|done].
Qed.

Lemma finish_good fuel pts timeout s w x : lifecycle s (wcalls w) -> consistent s ->
  advc_vaapi_encode_eos_finish fuel pts timeout s w = Some x -> good x.
Proof.
  intros Hl Hc. unfold advc_vaapi_encode_eos_finish.
  destruct (es_failed_closed s) eqn:Hf.
  { intros [= <-]. assert (es_signal_attempted s = true) as Ha.
    { unfold lifecycle in Hl. destruct (es_signal_attempted s); [done|]. destruct Hl as (_ & ? & _). congruence. }
    apply fail_once_good; try done. by apply Hc. }
  destruct (es_eos_received s) eqn:He; [intros [= <-]; split; [done|split; [done|by left]]|].
  assert (forall s' w', draining s' w' -> es_eos_received s' = false -> drain_phase fuel timeout s' w' = Some x -> good x) as Hdp.
  { intros s' w' Hd He'. unfold drain_phase, now_ms. destruct (op_now_ms ops (wd w')) as [now [d1 e1]].
    destruct Hd as (? & ? & ? & ? & ?).
    destruct (_ || _); [intros [= <-]; by apply fail_once_good|]. apply drain_loop_good. by split_and!. }
  destruct (es_signal_attempted s) eqn:Ha; cbn [negb].
  - destruct (es_signal_succeeded s) eqn:Hs; cbn [negb]; [|intros [= <-]; by apply fail_once_good].
    apply Hdp; [by split_and!|done].
  - unfold signal_eos. unfold lifecycle in Hl. rewrite Ha in Hl. destruct Hl as [Hw _].
    destruct (op_signal_eos ops pts (wd w)) as [r [d e]]. rewrite Hw. cbn zeta.
    assert (lifecycle (EosState true (es_signal_succeeded s) false false (es_failure_errno s)) [Signal pts]) as Hl2.
    { unfold lifecycle. cbn. by exists pts, []. }
    destruct (r <? 0).
    + intros [= <-]. apply fail_once_good; try done.
    + apply Hdp; [|done]. split_and!; try done.
Qed.
End EncodeEos.

(** ** Termination *)

(** What the drain relies on: a monotonic clock, and a drain that takes one of
    finitely many outputs or lets time pass. *)
Class EncoderClock {W : Type} (ops : encode_eos_ops W) : Type := {
  ec_clock : W -> Z;
  ec_pending : W -> nat;        (* outputs still to come *)
  ec_now : forall d, let '(r, (d', _)) := op_now_ms ops d in
    (r = UINT64_MAX \/ r = ec_clock d) /\ ec_clock d <= ec_clock d' /\ (ec_pending d' <= ec_pending d)%nat;
  ec_signal : forall pts d, let '(_, (d', _)) := op_signal_eos ops pts d in
    ec_clock d <= ec_clock d' /\ (ec_pending d' <= ec_pending d)%nat;
  ec_drain : forall wait d, 1 <= wait -> let '((r, received), (d', _)) := op_drain_once ops wait d in
    r < 0 \/ received = true \/ (ec_clock d <= ec_clock d' /\ (ec_pending d' < ec_pending d)%nat) \/
    (ec_clock d + 1 <= ec_clock d' /\ (ec_pending d' <= ec_pending d)%nat) }.

Section Terminates.
Context {W : Type} (ops : encode_eos_ops W) `{!EncoderClock ops}.

Lemma drain_loop_returns fuel deadline s (w : world W) :
  (Z.to_nat (deadline - ec_clock (wd w)) + ec_pending (wd w) < fuel)%nat ->
  is_Some (drain_loop ops fuel deadline s w).
Proof.
  revert s w. induction fuel as [|fuel IH]; intros s w Hf; [lia|]. cbn [drain_loop].
  destruct (es_eos_received s) eqn:He; [by eexists|]. unfold now_ms.
  pose proof (ec_now (wd w)) as Hn. destruct (op_now_ms ops (wd w)) as [now [d1 e1]].
  destruct Hn as (Hnow & Hc1 & Hp1).
  destruct (Z.eqb_spec now UINT64_MAX); [by eexists|]. destruct Hnow as [?| ->]; [done|].
  destruct (Z.leb_spec deadline (ec_clock (wd w))); [by eexists|]. cbn zeta.
  set (wait := if _ =? 0 then 1 else _).
  assert (1 <= wait) as Hw.
  { unfold wait, UINT32_MAX. destruct (Z.ltb_spec (2 ^ 32 - 1) (deadline - ec_clock (wd w)));
      [destruct (Z.eqb_spec (2 ^ 32 - 1) 0)|destruct (Z.eqb_spec (deadline - ec_clock (wd w)) 0)]; lia. }
  unfold drain_once. cbn [wd wcalls]. pose proof (ec_drain wait d1 Hw) as Hd.
  destruct (op_drain_once ops wait d1) as [[r received] [d2 e2]].
  destruct (Z.ltb_spec r 0); [by eexists|].
  destruct Hd as [?|[->|Hd]]; [lia|by destruct fuel; eexists|].
  destruct received; [by destruct fuel; eexists|]. apply IH. cbn [wd]. destruct Hd as [[? ?]|[? ?]]; lia.
Qed.

Lemma finish_returns fuel pts timeout s (w : world W) : 0 <= timeout ->
  (Z.to_nat timeout + ec_pending (wd w) < fuel)%nat ->
  is_Some (advc_vaapi_encode_eos_finish ops fuel pts timeout s w).
Proof.
  intros Ht Hf. unfold advc_vaapi_encode_eos_finish.
  assert (forall s' (w' : world W), (ec_pending (wd w') <= ec_pending (wd w))%nat ->
    is_Some (drain_phase ops fuel timeout s' w')) as Hp.
  { intros s' w' Hp. unfold drain_phase, now_ms. pose proof (ec_now (wd w')) as Hn.
    destruct (op_now_ms ops (wd w')) as [now [d1 e1]]. destruct Hn as (Hnow & Hc1 & Hp1).
    destruct (Z.eqb_spec now UINT64_MAX); [by eexists|]. destruct Hnow as [?| ->]; [done|].
    cbn [orb]. destruct (_ <? _); [by eexists|]. apply drain_loop_returns. cbn [wd]. lia. }
  destruct (es_failed_closed s); [by eexists|]. destruct (es_eos_received s); [by eexists|].
  destruct (negb _).
  - unfold signal_eos. pose proof (ec_signal pts (wd w)) as Hs.
    destruct (op_signal_eos ops pts (wd w)) as [r [d e]]. cbn zeta. destruct (r <? 0); [by eexists|].
    apply Hp. cbn [wd]. lia.
  - destruct (negb _); [by eexists|]. apply Hp. lia.
Qed.

(** After a call has returned, the session is settled. *)
Lemma settled r s (w : world W) calls fuel : good ops (r, (s, w)) ->
  exists w', finish_all ops fuel calls s w = Some (replicate (length calls) r, (s, w')) /\ wcalls w' = wcalls w.
Proof.
  revert w. induction calls as [|[pts timeout] calls IH]; intros w Hg; [by exists w|].
  cbn [finish_all length replicate]. destruct Hg as (Hl & Hc & Hr). unfold advc_vaapi_encode_eos_finish.
  destruct Hr as [[-> He]|(-> & Hf & Hw)].
  - destruct (es_failed_closed s) eqn:Hf; [destruct Hc as [Hc _]; destruct (Hc Hf); congruence|]. rewrite He.
    destruct (IH w) as (w' & -> & Hw'); [split; [done|split; [done|by left]]|]. by exists w'.
  - rewrite Hf. unfold fail_once. rewrite Hf. cbn [negb].
    destruct (IH (with_errno (es_failure_errno s) w)) as (w' & -> & Hw'); [split; [done|split; [done|by right]]|].
    by exists w'.
Qed.
End Terminates.

(** C26. The end of an encode session happens once.  For every adapter whose drain takes
    one of finitely many outputs or lets its clock advance, and every sequence of
    calls of [advc_vaapi_encode_eos_finish], every call returns; the calls made on the
    adapter are one signal, then drains with a wait between 1 and 2^32 - 1 ms, then,
    if the session failed, exactly one [fail_closed]; and all calls report the same
    result, 0 when the end of stream was received and -1 with the first failure's
    errno otherwise. *)
Theorem encode_eos_once {W : Type} (ops : encode_eos_ops W) (clock : EncoderClock ops)
    fuel pts timeout calls (w : world W) :
  wcalls w = [] -> 0 <= timeout -> (Z.to_nat timeout + ec_pending (wd w) < fuel)%nat ->
  exists r s w', finish_all ops fuel ((pts, timeout) :: calls) fresh_state w =
      Some (replicate (S (length calls)) r, (s, w')) /\
    lifecycle ops s (wcalls w') /\ es_signal_attempted s = true /\
    ((r = 0 /\ es_eos_received s = true /\ es_failed_closed s = false) \/
     (r = -1 /\ es_failed_closed s = true /\ es_eos_received s = false /\ es_failure_errno s <> 0)).
Proof.
  intros Hw Ht Hf. destruct (finish_returns ops fuel pts timeout fresh_state w Ht Hf) as [[r [s w1]] Hx].
  assert (good ops (r, (s, w1))) as Hg.
  { eapply finish_good; [| |exact Hx]; [by rewrite Hw|]. split; discriminate. }
  destruct (settled ops r s w1 calls fuel Hg) as (w' & Hrest & Hcalls).
  exists r, s, w'. cbn [finish_all]. rewrite Hx, Hrest. split; [done|]. rewrite Hcalls.
  destruct Hg as (Hl & [Hc1 Hc2] & Hr). split; [done|].
  assert (es_signal_attempted s = true) as Ha.
  { unfold lifecycle in Hl. destruct (es_signal_attempted s); [done|]. destruct Hl as (_ & ? & ?).
    destruct Hr as [[_ ?]|(_ & ? & _)]; congruence. }
  split; [done|]. destruct Hr as [[-> He]|(-> & Hfc & _)].
  - left. split_and!; [done|done|]. destruct (es_failed_closed s) eqn:E; [|done]. destruct (Hc1 eq_refl). congruence.
  - right. destruct (Hc1 Hfc). done.
Qed.

(** ** Instance *)

(** An encoder with [n] outputs before its end-of-stream output; each drain takes
    one of them, or 1 ms of its clock. *)
Definition sample_ops : encode_eos_ops (Z * nat) :=
  EosOps (fun d => (fst d, (d, 0))) (fun _ d => (0, (d, 0)))
    (fun _ d => match snd d with
                | O => ((0, true), (d, 0))
                | S n => ((0, false), ((fst d + 2, n), 0))
                end)
    (Some (fun d => (d, 0))).

#[export] Instance sample_clock : EncoderClock sample_ops.
Proof.
  refine {| ec_clock := fst; ec_pending := snd |}.
  - intros [t n]. cbn. split; [by right|]. lia.
  - intros pts [t n]. cbn. lia.
  - intros wait [t n] _. cbn. destruct n; cbn; [by right; left|]. right. right. left. lia.
Defined.

Lemma encode_eos_once_witness :
  exists r s w', finish_all sample_ops 10 [(7, 5); (7, 5)] fresh_state (World (100, 4%nat) 0 []) =
      Some ([r; r], (s, w')) /\ r = -1 /\ es_failure_errno s = ETIMEDOUT /\
    wcalls w' = [Signal 7; Drain 5; Drain 3; Drain 1; FailClosed].
Proof.
  destruct (encode_eos_once sample_ops sample_clock 10 7 5 [(7, 5)] (World (100, 4%nat) 0 []))
    as (r & s & w' & H & _ & _ & _).
  - reflexivity.
  - lia.
  - cbn. lia.
  - exists r, s, w'. split; [exact H|]. vm_compute in H. injection H as <- _ <- <-. repeat split.
Defined.
