(* ===== verification/VaapiRoutes.v ===== *)
(** * How decoded pictures and slices are routed (src/src/vaapi_advc)

    advc_vaapi_surface_policy.c decides how a decoded dma-buf reaches a VA
    surface, advc_vaapi_modifier_policy.c reads the modifier override and routes
    by modifier, advc_vaapi_slice_layout.c rebases slice offsets when several
    slice-data buffers are joined. *)

From stdpp Require Import base list gmap strings.
From Stdlib Require Import ZArith Lia Bool.
From S2P Require Import Prelude Kernel Dmabuf.

(** ** The surface route *)

Module Surface.

Definition ADVC_DRM_FORMAT_NV12 : Z := 0x3231564e.
Definition ADVC_QCOM_COMPRESSED : Z := 0x0500000000000001.

Inductive route :=
  | UNSUPPORTED | DIRECT_LINEAR | DIRECT_QCOM | GPU_REPACK_LINEAR | CPU_COPY_LINEAR.
#[export] Instance route_eq_dec : EqDecision route.
Proof. solve_decision. Defined.

Record consumer_policy := Consumer {
  accepts_linear_nv12 : bool;
  accepts_qcom_compressed_nv12 : bool;
  gpu_repack_available : bool;
  cpu_copy_allowed : bool }.

Definition exact_nv12_planes (d : advc_dmabuf_descriptor) : bool :=
  (d_plane_count d =? 2) && (d_object_count d <=? 2) &&
  (Z.land (d_width d) 1 =? 0) && (Z.land (d_height d) 1 =? 0) &&
  (d_width d <=? p_pitch (plane_at d 0)) && (d_width d <=? p_pitch (plane_at d 1)).

Definition linear_nv12_compatible (d : advc_dmabuf_descriptor) : bool :=
  let luma := plane_at d 0 in
  let chroma := plane_at d 1 in
  if negb (exact_nv12_planes d) ||
     (UINT64_MAX / d_height d <? p_pitch luma) ||
     (UINT64_MAX / (d_height d / 2) <? p_pitch chroma) then false
  else
    let luma_end := u64 (p_offset luma + u64 (p_pitch luma * d_height d)) in
    let chroma_end := u64 (p_offset chroma + u64 (p_pitch chroma * (d_height d / 2))) in
    if (luma_end <? p_offset luma) || (chroma_end <? p_offset chroma) ||
       (o_size (object_at d (p_object_index luma)) <? luma_end) ||
       (o_size (object_at d (p_object_index chroma)) <? chroma_end) then false
    else if (p_object_index luma =? p_object_index chroma) && (p_offset chroma <? luma_end)
    then false
    else true.

Definition qcom_nv12_compatible (d : advc_dmabuf_descriptor) : bool :=
  exact_nv12_planes d && (d_object_count d =? 1) &&
  (p_object_index (plane_at d 0) =? 0) && (p_object_index (plane_at d 1) =? 0).

(** [t] is the descriptor table [advc_dmabuf_descriptor_validate] reads; NULL
    arguments are [None]. *)
Definition advc_vaapi_select_surface_route (t : gmap Z fd_info)
    (descriptor : option advc_dmabuf_descriptor) (consumer : option consumer_policy) : route :=
  match descriptor, consumer with
  | Some d, Some c =>
      if negb (descriptor_ok t d) || negb (d_drm_fourcc d =? ADVC_DRM_FORMAT_NV12)
      then UNSUPPORTED
      else if (d_drm_modifier d =? 0) && linear_nv12_compatible d && accepts_linear_nv12 c
      then DIRECT_LINEAR
      else if (d_drm_modifier d =? ADVC_QCOM_COMPRESSED) && qcom_nv12_compatible d then
        if accepts_qcom_compressed_nv12 c then DIRECT_QCOM
        else if accepts_linear_nv12 c && gpu_repack_available c then GPU_REPACK_LINEAR
        else if accepts_linear_nv12 c && cpu_copy_allowed c then CPU_COPY_LINEAR
        else UNSUPPORTED
      else UNSUPPORTED
  | _, _ => UNSUPPORTED
  end.

(** The two NV12 planes of a picture, in unbounded arithmetic. *)
Record nv12_planes (d : advc_dmabuf_descriptor) : Prop := {
  nv_planes : d_plane_count d = 2;
  nv_objects : d_object_count d <= 2;
  nv_even : Z.even (d_width d) = true /\ Z.even (d_height d) = true;
  nv_luma_pitch : d_width d <= p_pitch (plane_at d 0);
  nv_chroma_pitch : d_width d <= p_pitch (plane_at d 1) }.

(** The byte interval plane [i] takes when it has [rows] rows. *)
Definition plane_end (d : advc_dmabuf_descriptor) (i rows : Z) : Z :=
  p_offset (plane_at d i) + p_pitch (plane_at d i) * rows.
Definition plane_object (d : advc_dmabuf_descriptor) (i : Z) : Z := p_object_index (plane_at d i).

(** Both planes lie inside their objects, and in a shared object the chroma rows
    follow the luma rows. *)
Record linear_layout (d : advc_dmabuf_descriptor) : Prop := {
  ll_planes : nv12_planes d;
  ll_luma : plane_end d 0 (d_height d) <= o_size (object_at d (plane_object d 0));
  ll_chroma : plane_end d 1 (d_height d / 2) <= o_size (object_at d (plane_object d 1));
  ll_disjoint : plane_object d 0 = plane_object d 1 ->
    plane_end d 0 (d_height d) <= p_offset (plane_at d 1) }.

(** One object holds both compressed planes. *)
Record qcom_layout (d : advc_dmabuf_descriptor) : Prop := {
  ql_planes : nv12_planes d;
  ql_single : d_object_count d = 1 }.

Lemma land_1_even x : (Z.land x 1 =? 0) = Z.even x.
Proof.
  rewrite <- Z.negb_odd, <- Z.bit0_odd. change 1 with (Z.shiftl 1 0).
  by apply land_pow2_testbit.
Qed.

Lemma exact_nv12_planes_spec d : exact_nv12_planes d = true <-> nv12_planes d.
Proof.
  unfold exact_nv12_planes. rewrite !andb_true_iff, !land_1_even. split.
  - intros (((((? & ?) & ?) & ?) & ?) & ?). constructor; auto; lia.
  - intros [? ? [? ?] ? ?]. repeat split; auto; lia.
Qed.

(** A validated NV12 picture has a positive number of chroma rows, so neither
    division of the overflow tests is by zero. *)
Lemma chroma_rows_positive t d : descriptor_typed d -> descriptor_ok t d = true ->
  0 < d_height d /\ 0 < d_height d / 2.
Proof.
  intros Ht Hok. apply descriptor_ok_spec in Hok; [|done]. pose proof (ds_size _ _ Hok).
  split; [lia|]. apply Z.div_str_pos. lia.
Qed.

(** The plane facts the two layouts use. *)
Lemma plane_facts t d i : descriptor_typed d -> descriptor_ok t d = true ->
  0 <= i < d_plane_count d ->
  0 <= p_offset (plane_at d i) <= 2 ^ 30 /\ 0 < p_pitch (plane_at d i) <= 2 ^ 20 /\
  0 <= plane_object d i < d_object_count d.
Proof.
  intros Ht Hok Hi. pose proof (plane_typed d Ht i) as (_ & Ho & _).
  apply descriptor_ok_spec in Hok; [|done].
  destruct (ds_plane _ _ Hok i Hi) as (Hidx & Hpitch & Hend).
  pose proof (ds_object _ _ Hok _ Hidx) as (_ & _ & Hsz).
  unfold is_u64, plane_object in *. lia.
Qed.

Lemma rows_no_overflow pitch rows : 0 < pitch <= 2 ^ 20 -> 0 < rows <= 8192 ->
  (UINT64_MAX / rows <? pitch) = false /\ u64 (pitch * rows) = pitch * rows /\
  0 < pitch * rows <= 2 ^ 33.
Proof.
  intros Hp Hr. assert (0 < pitch * rows <= 2 ^ 20 * 8192) by nia. split_and!; try lia.
  - apply Z.ltb_ge. apply Z.div_le_lower_bound; [lia|]. wunfold. lia.
  - apply u64_id. wunfold. lia.
Qed.

Lemma linear_compatible_spec t d : descriptor_typed d -> descriptor_ok t d = true ->
  linear_nv12_compatible d = true <-> linear_layout d.
Proof.
  intros Ht Hok. destruct (chroma_rows_positive t d Ht Hok) as [Hh Hc].
  assert (d_height d <= 8192) as Hmax.
  { apply descriptor_ok_spec in Hok; [|done]. apply (ds_size _ _ Hok). }
  assert (d_height d / 2 <= 8192) as Hmax2 by (apply Z.div_le_upper_bound; lia).
  unfold linear_nv12_compatible. destruct (exact_nv12_planes d) eqn:Ee; cbn [negb orb].
  2: { split; [done|]. intros [Hp _ _ _]. apply exact_nv12_planes_spec in Hp. congruence. }
  apply exact_nv12_planes_spec in Ee. pose proof (nv_planes _ Ee) as Hn.
  destruct (plane_facts t d 0 Ht Hok ltac:(lia)) as (Ho0 & Hp0 & Hi0).
  destruct (plane_facts t d 1 Ht Hok ltac:(lia)) as (Ho1 & Hp1 & Hi1).
  destruct (rows_no_overflow _ (d_height d) Hp0 ltac:(lia)) as (-> & -> & Hb0).
  destruct (rows_no_overflow _ (d_height d / 2) Hp1 ltac:(lia)) as (-> & -> & Hb1).
  rewrite !(u64_id (_ + _)) by (wunfold; lia). cbn [orb].
  fold (plane_end d 0 (d_height d)) (plane_end d 1 (d_height d / 2)).
  fold (plane_object d 0) (plane_object d 1).
  assert (p_offset (plane_at d 0) < plane_end d 0 (d_height d)) by (unfold plane_end; lia).
  assert (p_offset (plane_at d 1) < plane_end d 1 (d_height d / 2)) by (unfold plane_end; lia).
  split.
  - intros H1. constructor; [done| | |].
    all: repeat match type of H1 with (if ?b then _ else _) = _ => destruct b eqn:?; [done|] end; lia.
  - intros [_ Hl Hch Hd].
    repeat match goal with |- context [if ?b then _ else _] => destruct b eqn:? end; try done; lia.
Qed.

Lemma qcom_compatible_spec t d : descriptor_typed d -> descriptor_ok t d = true ->
  qcom_nv12_compatible d = true <-> qcom_layout d.
Proof.
  intros Ht Hok. unfold qcom_nv12_compatible. rewrite !andb_true_iff, exact_nv12_planes_spec. split.
  - intros (((Hn & ?) & _) & _). constructor; [done|lia].
  - intros [Hn H1]. pose proof (nv_planes _ Hn).
    destruct (plane_facts t d 0 Ht Hok ltac:(lia)) as (_ & _ & ?).
    destruct (plane_facts t d 1 Ht Hok ltac:(lia)) as (_ & _ & ?).
    unfold plane_object in *. split_and!; [done|lia..].
Qed.

(** The route of a decoded picture is decided by its layout and the consumer
    alone.  A picture goes out directly as LINEAR exactly when it is a valid
    linear NV12 descriptor whose two planes lie inside their objects without
    overlap; directly as QCOM exactly when both compressed planes are in one
    object and the consumer takes them; otherwise the GPU repack is preferred,
    and pixels are copied by the CPU only when the consumer allows it and
    nothing better exists.  The 64-bit overflow tests divide by positive row
    counts. *)
Theorem surface_route_exact (t : gmap Z fd_info) (d : advc_dmabuf_descriptor)
    (c : consumer_policy) (Ht : descriptor_typed d) :
  let r := advc_vaapi_select_surface_route t (Some d) (Some c) in
  let nv12 := descriptor_ok t d = true /\ d_drm_fourcc d = ADVC_DRM_FORMAT_NV12 in
  let linear := nv12 /\ d_drm_modifier d = 0 /\ linear_layout d in
  let qcom := nv12 /\ d_drm_modifier d = ADVC_QCOM_COMPRESSED /\ qcom_layout d in
  (r = DIRECT_LINEAR <-> linear /\ accepts_linear_nv12 c = true) /\
  (r = DIRECT_QCOM <-> qcom /\ accepts_qcom_compressed_nv12 c = true) /\
  (r = GPU_REPACK_LINEAR <-> qcom /\ accepts_qcom_compressed_nv12 c = false /\
     accepts_linear_nv12 c = true /\ gpu_repack_available c = true) /\
  (r = CPU_COPY_LINEAR <-> qcom /\ accepts_qcom_compressed_nv12 c = false /\
     accepts_linear_nv12 c = true /\ gpu_repack_available c = false /\
     cpu_copy_allowed c = true) /\
  (nv12 -> 0 < d_height d /\ 0 < d_height d / 2).
Proof.
  cbn zeta. unfold advc_vaapi_select_surface_route.
  destruct (descriptor_ok t d) eqn:Hok; [|cbn; intuition discriminate].
  pose proof (chroma_rows_positive t d Ht Hok) as Hrows.
  rewrite <- (linear_compatible_spec t d Ht Hok), <- (qcom_compatible_spec t d Ht Hok).
  destruct (Z.eqb_spec (d_drm_fourcc d) ADVC_DRM_FORMAT_NV12) as [Hf|Hf];
    [|cbn; intuition discriminate].
  destruct (Z.eqb_spec (d_drm_modifier d) 0) as [Hm|Hm];
    [assert (d_drm_modifier d <> ADVC_QCOM_COMPRESSED) by (rewrite Hm; discriminate)|];
    destruct (Z.eqb_spec (d_drm_modifier d) ADVC_QCOM_COMPRESSED); try done; cbn [negb orb andb];
    destruct (linear_nv12_compatible d), (qcom_nv12_compatible d), c as [[] [] [] []];
    cbn; intuition (discriminate || done).
Qed.

(** A 64x64 linear NV12 picture in one object. *)
Definition sample_picture : advc_dmabuf_descriptor :=
  Desc 1 64 64 ADVC_DRM_FORMAT_NV12 ADVC_DMABUF_EXPLICIT_ALL 0 0 0 64 64 1 2 0 0 0 0 0 0
    [Obj 5 6144; Obj (-1) 0; Obj (-1) 0; Obj (-1) 0]
    [Plane 0 0 64; Plane 0 4096 64; zero_plane; zero_plane].
Definition picture_table : gmap Z fd_info := {[ 5 := FdInfo true KOther ]}.

Lemma surface_route_exact_witness :
  descriptor_typed sample_picture /\ linear_layout sample_picture.
Proof.
  assert (descriptor_typed sample_picture) as Ht
    by (unfold descriptor_typed; split_and!; try done;
        repeat (apply Forall_cons; split); try apply Forall_nil; done).
  split; [exact Ht|].
  pose proof (proj1 (surface_route_exact picture_table sample_picture
    (Consumer true false false false) Ht)) as [H _].
  apply H. vm_compute. reflexivity.
Defined.

End Surface.

(** ** The modifier override *)

Module Modifier.

Definition QCOM_MODIFIER : Z := 0x0500000000000001.

Inductive modifier_mode := AUTO | LINEAR | QCOM.
Inductive modifier_source := DEFAULT | PRIMARY_ENV | LEGACY_ENV.
Record modifier_policy := Policy { mp_mode : modifier_mode; mp_source : modifier_source }.
Inductive modifier_route :=
  | ROUTE_UNSUPPORTED | ROUTE_DIRECT_LINEAR | ROUTE_DIRECT_QCOM | ROUTE_GPU_REPACK_LINEAR.

(** [a == b] on the enumeration. *)
Definition mode_eqb (a b : modifier_mode) : bool :=
  match a, b with AUTO, AUTO | LINEAR, LINEAR | QCOM, QCOM => true | _, _ => false end.

(** [inl e] is the return of -1 with [errno = e] and [*mode] unchanged. *)
Definition parse_mode (value : string) : Z + modifier_mode :=
  if bool_decide (value = "auto") then inr AUTO
  else if bool_decide (value = "linear") then inr LINEAR
  else if bool_decide (value = "qcom") then inr QCOM
  else inl EINVAL.

(** [value != NULL && value[0] != '\0'] *)
Definition is_set (value : option string) : bool :=
  match value with Some v => negb (bool_decide (v = "")) | None => false end.

(** The result and [*out]. *)
Definition advc_vaapi_modifier_policy_parse (primary_value legacy_value : option string)
    : (Z + unit) * modifier_policy :=
  let from value source :=
    match parse_mode value with
    | inl e => (inl e, Policy AUTO DEFAULT)
    | inr mode => (inr tt, Policy mode source)
    end in
  if is_set primary_value then from (default "" primary_value) PRIMARY_ENV
  else if is_set legacy_value then from (default "" legacy_value) LEGACY_ENV
  else (inr tt, Policy AUTO DEFAULT).

Definition qcom_direct_ready (broker_capable importer_validated : bool) : bool :=
  broker_capable && importer_validated.

Definition advc_vaapi_modifier_route_decode (policy : option modifier_policy) (modifier : Z)
    (descriptor_valid broker_qcom_capable consumer_qcom_validated gpu_repack_available
     async_linear_reservation : bool) : modifier_route :=
  match policy with
  | None => ROUTE_UNSUPPORTED
  | Some policy =>
      if negb descriptor_valid then ROUTE_UNSUPPORTED
      else if modifier =? 0 then
        if mode_eqb (mp_mode policy) QCOM then ROUTE_UNSUPPORTED else ROUTE_DIRECT_LINEAR
      else if negb (modifier =? QCOM_MODIFIER) || mode_eqb (mp_mode policy) LINEAR
      then ROUTE_UNSUPPORTED
      else if negb async_linear_reservation &&
              qcom_direct_ready broker_qcom_capable consumer_qcom_validated
      then ROUTE_DIRECT_QCOM
      else if mode_eqb (mp_mode policy) QCOM then ROUTE_UNSUPPORTED
      else if gpu_repack_available then ROUTE_GPU_REPACK_LINEAR
      else ROUTE_UNSUPPORTED
  end.

Definition advc_vaapi_modifier_route_encode (policy : option modifier_policy) (modifier : Z)
    (descriptor_valid broker_qcom_capable broker_import_validated gpu_repack_available : bool)
    : modifier_route :=
  match policy with
  | None => ROUTE_UNSUPPORTED
  | Some policy =>
      if negb descriptor_valid then ROUTE_UNSUPPORTED
      else if modifier =? 0 then
        if mode_eqb (mp_mode policy) QCOM then ROUTE_UNSUPPORTED else ROUTE_DIRECT_LINEAR
      else if negb (modifier =? QCOM_MODIFIER) || mode_eqb (mp_mode policy) LINEAR
      then ROUTE_UNSUPPORTED
      else if qcom_direct_ready broker_qcom_capable broker_import_validated
      then ROUTE_DIRECT_QCOM
      else if mode_eqb (mp_mode policy) QCOM then ROUTE_UNSUPPORTED
      else if gpu_repack_available then ROUTE_GPU_REPACK_LINEAR
      else ROUTE_UNSUPPORTED
  end.

Definition advc_vaapi_modifier_mode_name (mode : modifier_mode) : string :=
  match mode with LINEAR => "linear" | QCOM => "qcom" | AUTO => "auto" end.

Lemma parse_mode_name mode : parse_mode (advc_vaapi_modifier_mode_name mode) = inr mode.
Proof. by destruct mode. Qed.

Lemma parse_mode_sound v mode :
  parse_mode v = inr mode -> v = advc_vaapi_modifier_mode_name mode.
Proof. unfold parse_mode. repeat case_bool_decide; by intros [= <-]. Qed.

Ltac routes m :=
  unfold advc_vaapi_modifier_route_decode;
  let E := fresh in
  destruct (Z.eqb_spec m 0) as [E|E];
    [assert (m <> QCOM_MODIFIER) by (rewrite E; discriminate)|];
  destruct (Z.eqb_spec m QCOM_MODIFIER); try done.

(** The modifier override is read and applied fail-closed.  A mode is accepted
    exactly under its own name, the primary variable hides the legacy one even
    when it is malformed, and a malformed value leaves the default policy.  QCOM
    buffers are passed on directly exactly when the descriptor is valid, broker
    and importer are both validated, no linear reservation is pending and the
    mode is not linear; a QCOM policy never yields a linear picture, a linear
    policy never a QCOM or repacked one; and the encoder's routing is the
    decoder's without reservations. *)
Theorem modifier_policy_fail_closed (primary legacy : option string) (p : modifier_policy)
    (modifier : Z) (valid capable validated repack async : bool) :
  let decode := advc_vaapi_modifier_route_decode (Some p) modifier valid capable validated repack in
  (forall out, advc_vaapi_modifier_policy_parse primary legacy = (inr tt, out) ->
     (mp_source out = DEFAULT <-> is_set primary = false /\ is_set legacy = false) /\
     (mp_source out = PRIMARY_ENV <->
        primary = Some (advc_vaapi_modifier_mode_name (mp_mode out))) /\
     (mp_source out = LEGACY_ENV <-> is_set primary = false /\
        legacy = Some (advc_vaapi_modifier_mode_name (mp_mode out)))) /\
  (forall e out, advc_vaapi_modifier_policy_parse primary legacy = (inl e, out) ->
     e = EINVAL /\ out = Policy AUTO DEFAULT) /\
  (decode async = ROUTE_DIRECT_QCOM <->
     valid = true /\ modifier = QCOM_MODIFIER /\ mp_mode p <> LINEAR /\ async = false /\
     capable = true /\ validated = true) /\
  (decode async = ROUTE_DIRECT_LINEAR <->
     valid = true /\ modifier = 0 /\ mp_mode p <> QCOM) /\
  (decode async = ROUTE_GPU_REPACK_LINEAR <->
     valid = true /\ modifier = QCOM_MODIFIER /\ mp_mode p = AUTO /\ repack = true /\
     (async = true \/ capable = false \/ validated = false)) /\
  advc_vaapi_modifier_route_encode (Some p) modifier valid capable validated repack = decode false.
Proof.
  cbn zeta. split_and!.
  - intros out. unfold advc_vaapi_modifier_policy_parse.
    destruct primary as [v|], legacy as [l|]; cbn [is_set default from_option id];
      repeat case_bool_decide; subst; cbn [negb];
      repeat match goal with |- context [parse_mode ?x] => destruct (parse_mode x) eqn:? end;
      try (intros [=]; fail); intros [= <-];
      repeat match goal with H : parse_mode _ = inr _ |- _ => apply parse_mode_sound in H; subst end;
      cbn; try destruct m; intuition congruence.
  - intros e out. unfold advc_vaapi_modifier_policy_parse, parse_mode.
    repeat case_match; intros [= <- <-]; try done; simplify_eq; done.
  - routes modifier; destruct valid, capable, validated, async, p as [[] ?]; cbn;
      try destruct repack; intuition congruence.
  - routes modifier; destruct valid, capable, validated, async, p as [[] ?]; cbn;
      try destruct repack; intuition congruence.
  - routes modifier; destruct valid, capable, validated, async, p as [[] ?]; cbn;
      try destruct repack; intuition congruence.
  - reflexivity.
Qed.

End Modifier.

(** ** Joining slice data *)

Module Slices.

Definition at_ (l : list Z) (i : Z) : Z := default 0 (l !! Z.to_nat i).

(** One span: inside the local buffer and representable once rebased. *)
Definition span_bad (aggregate_size local_data_size offset size : Z) : bool :=
  (local_data_size <? offset) || (size =? 0) || (u64 (local_data_size - offset) <? size) ||
  (UINT32_MAX <? u64 (aggregate_size + offset)).

(** [inl e]: -1 with [errno = e] and the offsets unchanged; [inr l]: 0 with the
    offsets [l].  [offsets] and [sizes] hold at least [span_count] elements; NULL
    is [None]. *)
Definition advc_vaapi_rebase_slice_offsets (offsets sizes : option (list Z))
    (span_count aggregate_size local_data_size maximum_size : Z) : Z + list Z :=
  match offsets, sizes with
  | Some offsets, Some sizes =>
      if (span_count =? 0) || (local_data_size =? 0) || (maximum_size <? aggregate_size) ||
         (u64 (maximum_size - aggregate_size) <? local_data_size) ||
         (UINT32_MAX <? u64 (aggregate_size + local_data_size))
      then inl EINVAL
      else if existsb (fun i => span_bad aggregate_size local_data_size (at_ offsets i) (at_ sizes i))
                (seqZ 0 span_count)
      then inl EINVAL
      else inr (((fun o => u32 (aggregate_size + o)) <$> take (Z.to_nat span_count) offsets)
                ++ drop (Z.to_nat span_count) offsets)
  | _, _ => inl EINVAL
  end.

(** What the caller promises of its arguments and types. *)
Record rebase_typed (offsets sizes : list Z) (n aggregate local maximum : Z) : Prop := {
  rt_offsets : Forall is_u32 offsets;
  rt_sizes : Forall is_u32 sizes;
  rt_count : 0 <= n <= zlen offsets /\ n <= zlen sizes;
  rt_aggregate : is_u64 aggregate;
  rt_local : is_u64 local;
  rt_maximum : is_u64 maximum }.

(** Every span lies in the local buffer. *)
Definition spans_inside (offsets sizes : list Z) (n local : Z) : Prop :=
  forall i, 0 <= i < n -> 0 < at_ sizes i /\ at_ offsets i + at_ sizes i <= local.

Lemma at_typed l i : Forall is_u32 l -> is_u32 (at_ l i).
Proof.
  intros H. unfold at_. destruct (l !! Z.to_nat i) eqn:E; [|by unfold is_u32].
  by apply (Forall_lookup_1 _ _ _ _ H E).
Qed.

Lemma span_ok aggregate local offset size :
  is_u64 aggregate -> is_u64 local -> is_u32 offset -> is_u32 size ->
  aggregate + local <= UINT32_MAX ->
  span_bad aggregate local offset size = false <-> 0 < size /\ offset + size <= local.
Proof.
  intros. unfold span_bad. wunfold. rewrite !orb_false_iff. split.
  - intros (((? & ?) & Hs) & _). rewrite Z.mod_small in Hs by lia. lia.
  - intros [? ?]. rewrite !Z.mod_small by lia. repeat split; lia.
Qed.

Lemma existsb_seqZ_false f n :
  existsb f (seqZ 0 n) = false <-> forall i, 0 <= i < n -> f i = false.
Proof.
  rewrite <- not_true_iff_false, existsb_exists. split.
  - intros H i Hi. apply not_true_iff_false. intros Hf. apply H. exists i. split; [|done].
    apply list_elem_of_In, elem_of_seqZ. lia.
  - intros H (i & Hin%list_elem_of_In%elem_of_seqZ & Hf). rewrite H in Hf by lia. done.
Qed.

(** The rebased array, element by element. *)
Lemma rebased_at offsets n aggregate i : 0 <= n <= zlen offsets -> 0 <= i ->
  at_ (((fun o => u32 (aggregate + o)) <$> take (Z.to_nat n) offsets) ++ drop (Z.to_nat n) offsets) i =
  if i <? n then u32 (aggregate + at_ offsets i) else at_ offsets i.
Proof.
  unfold zlen, at_. intros Hn Hi. destruct (Z.ltb_spec i n).
  - rewrite lookup_app_l by (rewrite length_fmap, length_take; lia).
    rewrite list_lookup_fmap, lookup_take_lt by lia.
    destruct (offsets !! Z.to_nat i) eqn:E; [done|]. apply lookup_ge_None in E. lia.
  - rewrite lookup_app_r by (rewrite length_fmap, length_take; lia).
    rewrite length_fmap, length_take, lookup_drop. do 2 f_equal. lia.
Qed.

(** Rebasing slice offsets is transactional and exact: it succeeds exactly
    when there is a span, the joined data fits the limit and 32 bits, and every
    span is non-empty and inside its local buffer; then each offset has moved by
    the aggregate size without truncation, so that the span lies inside the
    appended data, and offsets beyond the spans are untouched.  Otherwise it
    fails with EINVAL. *)
Theorem rebase_slices_exact (offsets sizes : list Z) (n aggregate local maximum : Z)
    (Ht : rebase_typed offsets sizes n aggregate local maximum) :
  let fits := 0 < n /\ 0 < local /\ aggregate + local <= maximum /\
    aggregate + local <= UINT32_MAX /\ spans_inside offsets sizes n local in
  match advc_vaapi_rebase_slice_offsets (Some offsets) (Some sizes) n aggregate local maximum with
  | inl e => ~ fits /\ e = EINVAL
  | inr offsets' =>
      fits /\ length offsets' = length offsets /\
      (forall i, 0 <= i < n -> at_ offsets' i = aggregate + at_ offsets i /\
         aggregate <= at_ offsets' i /\ at_ offsets' i + at_ sizes i <= aggregate + local) /\
      (forall i, n <= i -> at_ offsets' i = at_ offsets i)
  end.
Proof.
  destruct Ht as [To Ts [Hn Hn'] Ha Hl Hm]. cbn zeta. unfold advc_vaapi_rebase_slice_offsets.
  destruct (_ || _) eqn:E.
  { split; [|done]. intros (? & ? & ? & ? & _). wunfold. rewrite !Z.mod_small in E by lia. lia. }
  assert (0 < n /\ 0 < local /\ aggregate + local <= maximum /\ aggregate + local <= UINT32_MAX) as Hfit.
  { rewrite !orb_false_iff in E. destruct E as ((((E1 & E2) & E3) & E4) & E5). wunfold.
    rewrite Z.mod_small in E4 by lia. rewrite Z.mod_small in E5; lia. }
  assert (forall i, span_bad aggregate local (at_ offsets i) (at_ sizes i) = false <->
    0 < at_ sizes i /\ at_ offsets i + at_ sizes i <= local) as Hspan.
  { intros i. apply span_ok; auto using at_typed. tauto. }
  destruct (existsb _ _) eqn:Ex.
  { split; [|done]. intros (_ & _ & _ & _ & Hs). apply not_false_iff_true in Ex. apply Ex.
    apply existsb_seqZ_false. intros i Hi. by apply Hspan, Hs. }
  rewrite existsb_seqZ_false in Ex. split_and!; try tauto.
  - intros i Hi. by apply Hspan, Ex.
  - rewrite length_app, length_fmap, length_take, length_drop. lia.
  - intros i Hi. rewrite rebased_at by lia. destruct (Z.ltb_spec i n); [|lia].
    pose proof (proj1 (Hspan i) (Ex i Hi)). pose proof (at_typed offsets i To).
    rewrite u32_id by (wunfold; lia). wunfold. lia.
  - intros i Hi. rewrite rebased_at by lia. destruct (Z.ltb_spec i n); [lia|done].
Qed.

Lemma rebase_slices_exact_witness :
  rebase_typed [0; 100] [100; 50] 2 1000 150 4096 /\
  advc_vaapi_rebase_slice_offsets (Some [0; 100]) (Some [100; 50]) 2 1000 150 4096 =
    inr [1000; 1100] /\
  spans_inside [0; 100] [100; 50] 2 150.
Proof.
  assert (rebase_typed [0; 100] [100; 50] 2 1000 150 4096) as Ht
    by (constructor; try done; repeat (apply Forall_cons; split); try apply Forall_nil; done).
  split_and!; [exact Ht|reflexivity|].
  pose proof (rebase_slices_exact _ _ _ _ _ _ Ht) as H.
  change (advc_vaapi_rebase_slice_offsets _ _ _ _ _ _) with (inr (A:=Z) [1000; 1100]) in H.
  apply H.
Defined.

End Slices.
