(* ===== verification/Client.v ===== *)
(** * The broker client (src/src/video_bridge/src/client.c)

    One request record out, one reply record in, for every operation of the
    protocol, with the checks that decide which replies are believed.  A client
    is a process of its own: a [machine] whose socket scripts are the other end
    of the connection.  [m_be] holds the static request counter and the state of
    the caller's native-buffer callbacks.  Reply payloads are received into stack
    buffers; their contents before the call are an argument of each operation, so
    that reading bytes that were never received is visible.  An operation returns
    its result with its out-parameters; a [detail] that is not written is
    [None]. *)

From stdpp Require Import base list gmap.
From Stdlib Require Import ZArith Lia Bool.
From S2P Require Import Prelude Kernel Protocol Dmabuf Engine Broker.

(** ** Data *)

Record client_statics (U : Type) := Statics { next_value : Z; cl_user : U }.
Arguments Statics {U}.
Arguments next_value {U}.
Arguments cl_user {U}.

(** [sc_mime = None] is a NULL pointer; a C string is its bytes without the
    terminator. *)
Record advc_client_session_config := SessionConfig {
  sc_mime : option (list Z);
  sc_direction : Z; sc_width : Z; sc_height : Z; sc_bitrate : Z; sc_framerate_milli : Z;
  sc_color_format : Z; sc_transport : Z; sc_encode_profile : Z; sc_flags : Z }.

Record advc_client_input := Input {
  in_data : option (list Z); in_size : Z; in_data_fd : Z; in_data_offset : Z;
  in_buffer_id : Z; in_pts_ns : Z; in_flags : Z }.

Record advc_client_output := COutput {
  cout_buffer_id : Z; cout_pts_ns : Z; cout_size : Z; cout_flags : Z; cout_width : Z; cout_height : Z;
  cout_android_format : Z; cout_stride : Z; cout_layers : Z; cout_usage : Z; cout_slice_height : Z;
  cout_crop_left : Z; cout_crop_top : Z; cout_crop_right : Z; cout_crop_bottom : Z;
  cout_data_fd : Z; cout_transport : Z; cout_acquire_fence_fd : Z }.
Definition blank_client_output (transport : Z) : advc_client_output :=
  COutput 0 0 0 0 0 0 0 0 0 0 0 0 0 0 0 (-1) transport (-1).

Record advc_client_ahb_input := ClientAhb {
  ca_native_buffer : Z; ca_pts_ns : Z; ca_width : Z; ca_height : Z; ca_format : Z;
  ca_layers : Z; ca_usage : Z; ca_acquire_fence_fd : Z }.

Definition blank_descriptor : advc_dmabuf_descriptor :=
  with_objects (replicate 4 (Obj (-1) 0)) zero_descriptor.

Definition ADVC_RESERVE_LINEAR_SIZE : Z := 24.
Definition ADVC_RESERVE_LINEAR_REPLY_SIZE : Z := ADVC_TRANSFER_PRIME_REPLY_SIZE.
Definition DRM_FORMAT_NV12 : Z := 0x3231564e.

Definition bits_any : Z :=
  Z.lor (Z.lor ADVC_FLAG_END_OF_STREAM ADVC_FLAG_KEY_FRAME) ADVC_FLAG_CODEC_CONFIG.
Definition required_seals : Z := Z.lor (Z.lor F_SEAL_SHRINK F_SEAL_GROW) F_SEAL_WRITE.

(** [(int)x] of a 32-bit value. *)
Definition to_int (x : Z) : Z := if x <? 2 ^ 31 then x else x - 2 ^ 32.

(** [uint8_t a[n] = {0}] *)
Definition zeros (n : Z) : list Z := replicate (Z.to_nat n) 0.

Section Client.
Context {U : Type}.
Notation M := (machine (client_statics U)).

(** ** One exchange *)

Definition next_request_id : St M Z := fun m =>
  let s := m_be m in
  (next_value s, set_be (Statics (u32 (next_value s + 1)) (cl_user s)) m).

(** The header of a request. *)
Definition request_header (opc sid rid size count : Z) : advc_header :=
  Header ADVC_VERSION_MAJOR ADVC_VERSION_MINOR ADVC_MSG_REQUEST opc rid sid 0 size count 0.

(** The reply slot before [advc_receive_message]. *)
Definition reply_slot (payload : list Z) (capacity : Z) : advc_message :=
  Message no_header (Some payload) capacity (replicate 8 (-1)).

(** The reply does not answer the request. *)
Definition reply_mismatch (opc sid rid : Z) (require_v11 : bool) (h : advc_header) : bool :=
  negb (message_type h =? ADVC_MSG_REPLY) || negb (opcode h =? opc) ||
  negb (request_id h =? rid) ||
  (if (opc =? ADVC_OP_TRANSFER_AHB) || (opc =? ADVC_OP_QUEUE_AHB)
   then negb (h_flags h =? 0) && negb (h_flags h =? ADVC_FLAG_AHB_FOLLOWS)
   else negb (h_flags h =? 0)) ||
  (require_v11 && negb (version_minor h =? ADVC_VERSION_MINOR)) ||
  (negb (opc =? ADVC_OP_CREATE_SESSION) && negb (session_id h =? sid)).

(** Result and reply.  [request_payload = None] and [request_fds = None] are
    NULL; [payload] is the caller's reply buffer of [capacity] bytes. *)
Definition transaction_ex (opc sid : Z) (request_payload : option (list Z))
    (request_payload_size : Z) (request_fds : option (list Z)) (request_fd_count : Z)
    (payload : list Z) (capacity : Z) (require_v11 : bool) : St M (Z * advc_message) :=
  let slot := reply_slot payload capacity in
  if (ADVC_MAX_FDS <? request_fd_count) ||
     ((0 <? request_fd_count) && bool_decide (request_fds = None))
  then errno_is EINVAL ;; mret (-1, slot)
  else
    rid ← next_request_id;
    let fds := take (Z.to_nat request_fd_count) (default [] request_fds) in
    if existsb (fun fd => fd <? 0) fds then errno_is EINVAL ;; mret (-1, slot)
    else
      let request := Message (request_header opc sid rid request_payload_size request_fd_count)
                       request_payload 0 (list_inserts 0 fds (replicate 8 0)) in
      sent ← advc_send_message request;
      if sent <? 0 then mret (-1, slot)
      else
        '(received, reply) ← advc_receive_message slot;
        if received <? 0 then mret (-1, reply)
        else if reply_mismatch opc sid rid require_v11 (msg_header reply) then
          reply ← advc_close_message_fds reply;
          errno_is EPROTO ;; mret (-1, reply)
        else mret (0, reply).

Definition transaction (opc : Z) (request_payload : option (list Z)) (request_payload_size : Z)
    (payload : list Z) (capacity : Z) : St M (Z * advc_message) :=
  transaction_ex opc 0 request_payload request_payload_size None 0 payload capacity false.

(** [advc_close_message_fds(reply); errno = EPROTO; return -1;] *)
Definition refuse_reply (reply : advc_message) : St M unit :=
  advc_close_message_fds reply ;; errno_is EPROTO.

(** The status, and the detail when it is written. *)
Definition parse_status_reply (reply : advc_message) : St M (Z * option Z) :=
  let payload := payload_of reply in
  if negb (payload_size (msg_header reply) =? ADVC_STATUS_SIZE) ||
     negb (fd_count (msg_header reply) =? 0)
  then refuse_reply reply ;; mret (-1, None)
  else
    let status := advc_get_u32 payload 0 in
    if ADVC_STATUS_INTERNAL <? status then errno_is EPROTO ;; mret (-1, None)
    else mret (status, Some (advc_get_u32 payload 4)).

Definition session_status_transaction (opc sid : Z) (request_payload : option (list Z))
    (request_payload_size : Z) (request_fds : option (list Z)) (request_fd_count : Z)
    (payload : list Z) : St M (Z * option Z) :=
  if sid =? 0 then errno_is EINVAL ;; mret (-1, None)
  else
    '(r, reply) ← transaction_ex opc sid request_payload request_payload_size request_fds
                    request_fd_count payload ADVC_STATUS_SIZE true;
    if r <? 0 then mret (-1, None) else parse_status_reply reply.

(** [shutdown(fd, SHUT_RDWR)]: nothing more arrives. *)
Definition sys_shutdown : St M unit := modify (set_rx []).

(** ** Connection *)

Definition advc_client_hello (payload : list Z) (client_features : Z)
    : St M (Z * option (Z * Z)) :=
  let request := advc_put_u32 (advc_put_u64 (zeros ADVC_HELLO_SIZE) 0 client_features)
                   8 ADVC_MAX_PAYLOAD in
  '(r, reply) ← transaction ADVC_OP_HELLO (Some request) ADVC_HELLO_SIZE payload ADVC_HELLO_SIZE;
  if r <? 0 then mret (-1, None)
  else if negb (payload_size (msg_header reply) =? ADVC_HELLO_SIZE) ||
          negb (fd_count (msg_header reply) =? 0)
  then refuse_reply reply ;; mret (-1, None)
  else mret (0, Some (advc_get_u64 (payload_of reply) 0, advc_get_u32 (payload_of reply) 8)).

(** One entry: two fixed arrays whose last cell is forced to NUL, then fields. *)
Definition read_capability (p : list Z) (off : Z) : advc_codec_capability :=
  let text o n := <[Z.to_nat (n - 1) := 0]> (bytes_at p (off + o) n) in
  Capability (text 0 ADVC_MAX_MIME) (text 64 ADVC_MAX_CODEC_NAME)
    (byte_at p (off + 192)) (byte_at p (off + 193)) (byte_at p (off + 194))
    (byte_at p (off + 195)) (advc_get_u32 p (off + 196)) (advc_get_u32 p (off + 200))
    (advc_get_u32 p (off + 204)) (advc_get_u32 p (off + 208)).

Definition zero_capability : advc_codec_capability :=
  Capability (zeros ADVC_MAX_MIME) (zeros ADVC_MAX_CODEC_NAME) 0 0 0 0 0 0 0 0.

Definition read_capabilities (p : list Z) (count : Z) : advc_capability_set :=
  Capabilities (advc_get_u32 p 8) count (advc_get_u64 p 16)
    (((fun i => read_capability p (ADVC_CAPS_PREFIX_SIZE + i * ADVC_CAPS_ENTRY_SIZE))
        <$> seqZ 0 count) ++
     replicate (Z.to_nat (ADVC_MAX_CAPABILITIES - count)) zero_capability).

Definition caps_capacity : Z :=
  ADVC_CAPS_PREFIX_SIZE + ADVC_MAX_CAPABILITIES * ADVC_CAPS_ENTRY_SIZE.

Definition advc_client_query_capabilities (payload : list Z)
    : St M (Z * option advc_capability_set) :=
  '(r, reply) ← transaction ADVC_OP_QUERY_CAPABILITIES None 0 payload caps_capacity;
  let h := msg_header reply in
  let p := payload_of reply in
  if r <? 0 then mret (-1, None)
  else if negb (fd_count h =? 0) then refuse_reply reply ;; mret (-1, None)
  else if (payload_size h =? ADVC_STATUS_SIZE) && negb (advc_get_u32 p 0 =? ADVC_STATUS_OK) then
    '(status, _) ← parse_status_reply reply;
    if status <? 0 then mret (-1, None) else errno_is ENOTSUP ;; mret (-1, None)
  else if payload_size h <? ADVC_CAPS_PREFIX_SIZE then errno_is EPROTO ;; mret (-1, None)
  else
    let count := advc_get_u32 p 4 in
    if (ADVC_MAX_CAPABILITIES <? count) ||
       negb (payload_size h =? u32 (ADVC_CAPS_PREFIX_SIZE + u32 (count * ADVC_CAPS_ENTRY_SIZE)))
    then errno_is EPROTO ;; mret (-1, None)
    else mret (0, Some (read_capabilities p count)).

(** ** Sessions *)

(** [strnlen(mime, ADVC_MAX_MIME)] *)
Definition mime_length (mime : list Z) : Z := Z.min (zlen mime) ADVC_MAX_MIME.

Definition surface_transport (t : Z) : bool :=
  (t =? ADVC_TRANSPORT_BROKER_EGL_SURFACE) || (t =? ADVC_TRANSPORT_ANDROID_AHB_SURFACE) ||
  (t =? ADVC_TRANSPORT_DMABUF).

(** The frame size, or the errno. *)
Definition advc_client_encode_frame_size (c : advc_client_session_config) : Z + Z :=
  match sc_mime c with
  | None => inl EINVAL
  | Some mime =>
      if negb (sc_direction c =? ADVC_DIRECTION_ENCODE) ||
         (negb (str_eq mime MIME_AVC) && negb (str_eq mime MIME_HEVC)) ||
         negb (sc_flags c =? 0) || (sc_width c <? 16) || (8192 <? sc_width c) ||
         (sc_height c <? 16) || (8192 <? sc_height c) ||
         negb (Z.land (sc_width c) 1 =? 0) || negb (Z.land (sc_height c) 1 =? 0) ||
         (sc_bitrate c =? 0) || (ADVC_MAX_ENCODE_BITRATE <? sc_bitrate c) ||
         (sc_framerate_milli c <? 1000) || (240000 <? sc_framerate_milli c) ||
         (negb (sc_color_format c =? ADVC_COLOR_FORMAT_YUV420_PLANAR) &&
          negb (sc_color_format c =? ADVC_COLOR_FORMAT_YUV420_SEMIPLANAR))
      then inl EINVAL
      else
        let pixels := u64 (sc_width c * sc_height c) in
        let bytes := u64 (pixels + pixels / 2) in
        if (ADVC_MAX_INPUT_BYTES <? bytes) || (SIZE_MAX <? bytes) then inl 7 (* E2BIG *)
        else inr bytes
  end.

(** The checks of an encoder configuration. *)
Definition encode_config_check (mime : list Z) (c : advc_client_session_config) : Z + unit :=
  let transport := if sc_transport c =? 0 then ADVC_TRANSPORT_BYTES else sc_transport c in
  let pr := sc_encode_profile c in
  if (str_eq mime MIME_AVC && negb (pr =? ADVC_ENCODE_PROFILE_H264_CONSTRAINED_BASELINE) &&
      negb (pr =? ADVC_ENCODE_PROFILE_H264_MAIN) && negb (pr =? ADVC_ENCODE_PROFILE_H264_HIGH)) ||
     (str_eq mime MIME_HEVC && negb (pr =? ADVC_ENCODE_PROFILE_HEVC_MAIN)) ||
     (negb (str_eq mime MIME_AVC) && negb (str_eq mime MIME_HEVC))
  then inl ENOTSUP
  else if negb (transport =? ADVC_TRANSPORT_BYTES) && negb (surface_transport transport)
  then inl ENOTSUP
  else if surface_transport transport then
    if negb (sc_color_format c =? 0) || negb (sc_flags c =? 0) ||
       (sc_width c <? 16) || (8192 <? sc_width c) || (sc_height c <? 16) ||
       (8192 <? sc_height c) || negb (Z.land (sc_width c) 1 =? 0) ||
       negb (Z.land (sc_height c) 1 =? 0) || (sc_bitrate c =? 0) ||
       (ADVC_MAX_ENCODE_BITRATE <? sc_bitrate c) || (sc_framerate_milli c <? 1000) ||
       (240000 <? sc_framerate_milli c) ||
       (negb (str_eq mime MIME_AVC) && negb (str_eq mime MIME_HEVC))
    then inl EINVAL else inr tt
  else match advc_client_encode_frame_size c with inl e => inl e | inr _ => inr tt end.

(** The checks before anything is sent. *)
Definition config_check (c : advc_client_session_config) : Z + list Z :=
  match sc_mime c with
  | None => inl EINVAL
  | Some mime =>
      let n := mime_length mime in
      if (n =? 0) || (ADVC_MAX_MIME <=? n) || negb (str_eq (take 6 mime) MIME_VIDEO)
      then inl EINVAL
      else if sc_direction c =? ADVC_DIRECTION_DECODE then
        if negb (sc_color_format c =? 0) ||
           negb (sc_encode_profile c =? ADVC_ENCODE_PROFILE_NONE) ||
           (negb (sc_transport c =? 0) && negb (sc_transport c =? ADVC_TRANSPORT_BYTES) &&
            negb (sc_transport c =? ADVC_TRANSPORT_AHARDWAREBUFFER))
        then inl EINVAL else inr mime
      else if sc_direction c =? ADVC_DIRECTION_ENCODE then
        match encode_config_check mime c with inl e => inl e | inr _ => inr mime end
      else inl EINVAL
  end.

Definition create_request (mime : list Z) (c : advc_client_session_config) : list Z :=
  let p := zeros ADVC_CREATE_SIZE in
  let p := advc_put_u32 p 0 (sc_direction c) in
  let p := advc_put_u32 p 4 (sc_width c) in
  let p := advc_put_u32 p 8 (sc_height c) in
  let p := advc_put_u32 p 12 (sc_bitrate c) in
  let p := advc_put_u32 p 16 (sc_framerate_milli c) in
  let p := advc_put_u32 p 20 (sc_flags c) in
  let p := list_inserts 24 (take (Z.to_nat (mime_length mime)) mime) p in
  let p := advc_put_u32 p 88 (sc_color_format c) in
  let p := advc_put_u32 p 92
             (if sc_transport c =? 0 then ADVC_TRANSPORT_BYTES else sc_transport c) in
  advc_put_u32 p 96 (sc_encode_profile c).

(** Status, session identifier when written, detail when written. *)
Definition advc_client_create_session (payload : list Z) (c : advc_client_session_config)
    : St M (Z * option Z * option Z) :=
  match config_check c with
  | inl e => errno_is e ;; mret (-1, None, None)
  | inr mime =>
      '(r, reply) ← transaction_ex ADVC_OP_CREATE_SESSION 0 (Some (create_request mime c))
                      ADVC_CREATE_SIZE None 0 payload ADVC_STATUS_SIZE true;
      if r <? 0 then mret (-1, None, None)
      else
        '(status, detail) ← parse_status_reply reply;
        let sid := session_id (msg_header reply) in
        if status <? 0 then mret (-1, None, detail)
        else if status =? ADVC_STATUS_OK then
          if sid =? 0 then errno_is EPROTO ;; mret (-1, None, detail)
          else mret (status, Some sid, detail)
        else if negb (sid =? 0) then errno_is EPROTO ;; mret (-1, None, detail)
        else mret (status, None, detail)
  end.

Definition advc_client_flush (payload : list Z) (sid : Z) : St M (Z * option Z) :=
  session_status_transaction ADVC_OP_FLUSH sid None 0 None 0 payload.
Definition advc_client_close_session (payload : list Z) (sid : Z) : St M (Z * option Z) :=
  session_status_transaction ADVC_OP_CLOSE_SESSION sid None 0 None 0 payload.

(** ** Byte input and output *)

(** The argument checks of [advc_client_queue_input]: the errno, or the payload
    size and the descriptor to attach. *)
Definition input_check (i : advc_client_input) : St M (option (Z * option Z)) :=
  if (ADVC_MAX_INPUT_BYTES <? in_size i) ||
     negb (Z.land (in_flags i) (Z.lxor UINT32_MAX bits_any) =? 0)
  then errno_is EINVAL ;; mret None
  else if in_data_fd i <? 0 then
    if ((0 <? in_size i) && bool_decide (in_data i = None)) || negb (in_data_offset i =? 0) ||
       (ADVC_MAX_PAYLOAD - ADVC_QUEUE_INPUT_SIZE <? in_size i)
    then errno_is EINVAL ;; mret None
    else mret (Some (ADVC_QUEUE_INPUT_SIZE + u32 (in_size i), None))
  else
    seals ← fcntl_get_seals (in_data_fd i);
    if bool_decide (is_Some (in_data i)) || (seals <? 0) ||
       negb (Z.land seals required_seals =? required_seals)
    then errno_is EINVAL ;; mret None
    else
      st ← sys_fstat (in_data_fd i);
      match st with
      | Some (true, size) =>
          if (size <? in_data_offset i) || (u64 (size - in_data_offset i) <? in_size i)
          then errno_is EINVAL ;; mret None
          else mret (Some (ADVC_QUEUE_INPUT_SIZE, Some (in_data_fd i)))
      | _ => errno_is EINVAL ;; mret None
      end.

Definition input_request (i : advc_client_input) (size : Z) : list Z :=
  let inline := in_data_fd i <? 0 in
  let p := zeros size in
  let p := advc_put_u64 p 0 (in_buffer_id i) in
  let p := advc_put_u64 p 8 (in_pts_ns i) in
  let p := advc_put_u64 p 16 (if inline then ADVC_QUEUE_INPUT_SIZE else in_data_offset i) in
  let p := advc_put_u64 p 24 (in_size i) in
  let p := advc_put_u32 p 32 (in_flags i) in
  let p := advc_put_u32 p 36 (if inline then ADVC_FD_NONE else ADVC_FD_INPUT_DATA) in
  if inline && (0 <? in_size i)
  then list_inserts 48 (take (Z.to_nat (in_size i)) (default [] (in_data i))) p else p.

Definition advc_client_queue_input (payload : list Z) (sid : Z) (i : advc_client_input)
    : St M (Z * option Z) :=
  chk ← input_check i;
  match chk with
  | None => mret (-1, None)
  | Some (size, fd) =>
      ok ← sys_alloc;
      if negb ok then mret (-1, None)
      else
        session_status_transaction ADVC_OP_QUEUE_INPUT sid (Some (input_request i size)) size
          (match fd with Some fd => Some [fd] | None => None end)
          (match fd with Some _ => 1 | None => 0 end) payload
  end.

(** The structural checks of a reply to DEQUEUE_OUTPUT. *)
Definition output_malformed (p : list Z) (h : advc_header) : bool :=
  let t := advc_get_u32 p 28 in
  let role := advc_get_u32 p 108 in
  let bytes := t =? ADVC_TRANSPORT_BYTES in
  let ahb := t =? ADVC_TRANSPORT_AHARDWAREBUFFER in
  (bytes && (negb (payload_size h =? ADVC_OUTPUT_BYTES_SIZE) || negb (fd_count h =? 1))) ||
  (ahb && (negb (payload_size h =? ADVC_OUTPUT_READY_SIZE) || (1 <? fd_count h))) ||
  (negb bytes && negb ahb) ||
  negb (advc_get_u32 p 72 =? 0) ||
  (negb (role =? ADVC_FD_NONE) && negb (role =? ADVC_FD_ACQUIRE_FENCE)) ||
  negb (Bool.eqb (role =? ADVC_FD_ACQUIRE_FENCE) ((fd_count h =? 1) && ahb)) ||
  negb (advc_get_u32 p 44 =? 0) || negb (advc_get_u64 p 48 =? 0) ||
  (bytes && (negb (advc_get_u32 p 56 =? 0) || negb (advc_get_u64 p 64 =? 0))) ||
  (bytes && negb (advc_get_u32 p 132 =? 0)).

(** The checks of the output's content, with the file it comes in. *)
Definition output_unsound (p : list Z) (reply : advc_message) : St M bool :=
  let bytes := advc_get_u32 p 28 =? ADVC_TRANSPORT_BYTES in
  let size := advc_get_u64 p 16 in
  seals ← (if bytes then fcntl_get_seals (fd_at reply 0) else mret required_seals);
  if (advc_get_u64 p 0 =? 0) || (ADVC_MAX_OUTPUT_BYTES <? size) ||
     negb (Z.land (advc_get_u32 p 24) (Z.lxor UINT32_MAX bits_any) =? 0) ||
     (seals <? 0) || negb (Z.land seals required_seals =? required_seals)
  then mret true
  else if bytes then
    st ← sys_fstat (fd_at reply 0);
    match st with
    | Some (true, n) => mret (negb (size =? n))
    | _ => mret true
    end
  else mret (negb (size =? 0)).

(** The output a well-formed reply describes. *)
Definition read_output (p : list Z) (reply : advc_message) : advc_client_output :=
  let bytes := advc_get_u32 p 28 =? ADVC_TRANSPORT_BYTES in
  let w := advc_get_u32 p 32 in
  let h := advc_get_u32 p 36 in
  COutput (advc_get_u64 p 0) (advc_get_u64 p 8) (advc_get_u64 p 16) (advc_get_u32 p 24) w h
    (advc_get_u32 p 40) (advc_get_u32 p 60) (advc_get_u32 p 56) (advc_get_u64 p 64)
    (if bytes then advc_get_u32 p 112 else h)
    (if bytes then advc_get_u32 p 116 else 0) (if bytes then advc_get_u32 p 120 else 0)
    (if bytes then advc_get_u32 p 124 else if 0 <? w then w - 1 else 0)
    (if bytes then advc_get_u32 p 128 else if 0 <? h then h - 1 else 0)
    (if bytes then fd_at reply 0 else -1) (advc_get_u32 p 28)
    (if negb bytes && (fd_count (msg_header reply) =? 1) then fd_at reply 0 else -1).

(** Status, output and detail. *)
Definition advc_client_dequeue_output (payload : list Z) (sid : Z)
    : St M (Z * advc_client_output * option Z) :=
  let blank := blank_client_output 0 in
  if sid =? 0 then errno_is EINVAL ;; mret (-1, blank, None)
  else
    '(r, reply) ← transaction_ex ADVC_OP_DEQUEUE_OUTPUT sid None 0 None 0 payload
                    ADVC_OUTPUT_BYTES_SIZE true;
    let p := payload_of reply in
    if r <? 0 then mret (-1, blank, None)
    else if payload_size (msg_header reply) =? ADVC_STATUS_SIZE then
      '(status, detail) ← parse_status_reply reply; mret (status, blank, detail)
    else
      let seen := blank_client_output (advc_get_u32 p 28) in
      if output_malformed p (msg_header reply) then refuse_reply reply ;; mret (-1, seen, None)
      else
        bad ← output_unsound p reply;
        if (bad : bool) then refuse_reply reply ;; mret (-1, seen, None)
        else mret (ADVC_STATUS_OK, read_output p reply, Some 0).

Definition advc_client_release_output_fenced (payload : list Z) (sid buffer_id fence : Z)
    : St M (Z * option Z) :=
  if buffer_id =? 0 then errno_is EINVAL ;; mret (-1, None)
  else
    let p := advc_put_u32 (advc_put_u64 (zeros ADVC_RELEASE_OUTPUT_SIZE) 0 buffer_id) 8
               (if 0 <=? fence then ADVC_FD_RELEASE_FENCE else ADVC_FD_NONE) in
    session_status_transaction ADVC_OP_RELEASE_OUTPUT sid (Some p) ADVC_RELEASE_OUTPUT_SIZE
      (if 0 <=? fence then Some [fence] else None) (if 0 <=? fence then 1 else 0) payload.

Definition advc_client_release_output (payload : list Z) (sid buffer_id : Z)
    : St M (Z * option Z) :=
  advc_client_release_output_fenced payload sid buffer_id (-1).

Definition advc_client_output_close (o : option advc_client_output)
    : St M (option advc_client_output) :=
  match o with
  | None => mret None
  | Some o =>
      close_if_open (cout_data_fd o) ;;
      close_if_open (cout_acquire_fence_fd o) ;;
      mret (Some (COutput (cout_buffer_id o) (cout_pts_ns o) (cout_size o) (cout_flags o) (cout_width o)
        (cout_height o) (cout_android_format o) (cout_stride o) (cout_layers o) (cout_usage o)
        (cout_slice_height o) (cout_crop_left o) (cout_crop_top o) (cout_crop_right o)
        (cout_crop_bottom o) (-1) (cout_transport o) (-1)))
  end.
(** ** Hardware buffers *)

(** The caller's callbacks: [send_buffer(fd, buffer, userdata)] and
    [receive_buffer(fd, &buffer, userdata)] with the buffer it stores. *)
Definition ahb_request (i : advc_client_ahb_input) : list Z :=
  let p := zeros ADVC_QUEUE_AHB_SIZE in
  let p := advc_put_u64 p 0 (ca_pts_ns i) in
  let p := advc_put_u32 p 8 (ca_width i) in
  let p := advc_put_u32 p 12 (ca_height i) in
  let p := advc_put_u32 p 16 (ca_format i) in
  let p := advc_put_u32 p 20 (ca_layers i) in
  let p := advc_put_u64 p 24 (ca_usage i) in
  advc_put_u32 p 36 (if 0 <=? ca_acquire_fence_fd i then ADVC_FD_ACQUIRE_FENCE else ADVC_FD_NONE).

Definition ahb_input_bad (sid : Z) (i : advc_client_ahb_input) : bool :=
  (sid =? 0) || (ca_native_buffer i =? 0) || (ca_width i =? 0) || (ca_height i =? 0) ||
  negb (ca_layers i =? 1) || (INT64_MAX <? ca_pts_ns i) || (ca_acquire_fence_fd i <? -1).

(** Role and descriptor count of a COMPLETE_AHB reply disagree. *)
Definition ahb_fence_mismatch (role count status : Z) : bool :=
  ((role =? ADVC_FD_NONE) && negb (count =? 0)) ||
  ((role =? ADVC_FD_RELEASE_FENCE) && negb (count =? 1)) ||
  (negb (role =? ADVC_FD_NONE) && negb (role =? ADVC_FD_RELEASE_FENCE)) ||
  (negb (status =? ADVC_STATUS_OK) && negb (count =? 0)).

(** The reply to COMPLETE_AHB: status, release fence, detail. *)
Definition complete_ahb_reply (reply : advc_message) (detail : option Z)
    : St M (Z * Z * option Z) :=
  let h := msg_header reply in
  let p := payload_of reply in
  let disconnect d := refuse_reply reply ;; sys_shutdown ;; mret (-1, -1, d) in
  if negb (payload_size h =? ADVC_COMPLETE_AHB_SIZE) || (1 <? fd_count h) then disconnect detail
  else
    let status := to_int (advc_get_u32 p 0) in
    if ADVC_STATUS_INTERNAL <? status then disconnect detail
    else
      let detail := Some (advc_get_u32 p 4) in
      if ahb_fence_mismatch (advc_get_u32 p 8) (fd_count h) status then disconnect detail
      else
        let fence := if fd_count h =? 1 then fd_at reply 0 else -1 in
        let reply := if fd_count h =? 1 then with_fds (<[0%nat := -1]> (msg_fds reply)) reply
                     else reply in
        advc_close_message_fds reply ;; mret (status, fence, detail).

(** Status, release fence, detail.  [payload] is the reply buffer of the two
    exchanges. *)
Definition advc_client_submit_ahb (payload : list Z) (sid : Z) (input : advc_client_ahb_input)
    (send_buffer : Z -> St M Z) : St M (Z * Z * option Z) :=
  if ahb_input_bad sid input then errno_is EINVAL ;; mret (-1, -1, None)
  else
    let fence := ca_acquire_fence_fd input in
    '(r, reply) ← transaction_ex ADVC_OP_QUEUE_AHB sid (Some (ahb_request input))
                    ADVC_QUEUE_AHB_SIZE (if 0 <=? fence then Some [fence] else None)
                    (if 0 <=? fence then 1 else 0) payload ADVC_COMPLETE_AHB_SIZE true;
    if r <? 0 then mret (-1, -1, None)
    else
      '(status, detail) ← parse_status_reply reply;
      if negb (status =? ADVC_STATUS_OK) then mret (status, -1, detail)
      else
        sent ← (if negb (h_flags (msg_header reply) =? ADVC_FLAG_AHB_FOLLOWS) then mret (-1)
                else send_buffer (ca_native_buffer input));
        if negb (sent =? 0) then
          sys_shutdown ;; errno_is EPROTO ;; mret (-1, -1, detail)
        else
          '(r, reply) ← transaction_ex ADVC_OP_COMPLETE_AHB sid None 0 None 0
                          (payload_of reply) ADVC_COMPLETE_AHB_SIZE true;
          if r <? 0 then sys_shutdown ;; mret (-1, -1, detail)
          else complete_ahb_reply reply detail.

(** Status, native buffer (0 is NULL), detail. *)
Definition advc_client_transfer_ahb (payload : list Z) (sid buffer_id : Z)
    (receive_buffer : St M (Z * Z)) : St M (Z * Z * option Z) :=
  if (sid =? 0) || (buffer_id =? 0) then errno_is EINVAL ;; mret (-1, 0, None)
  else
    '(r, reply) ← transaction_ex ADVC_OP_TRANSFER_AHB sid
                    (Some (advc_put_u64 (zeros ADVC_TRANSFER_AHB_SIZE) 0 buffer_id))
                    ADVC_TRANSFER_AHB_SIZE None 0 payload ADVC_STATUS_SIZE true;
    if r <? 0 then mret (-1, 0, None)
    else
      '(status, detail) ← parse_status_reply reply;
      if negb (status =? ADVC_STATUS_OK) then mret (status, 0, detail)
      else if Z.land (h_flags (msg_header reply)) ADVC_FLAG_AHB_FOLLOWS =? 0
      then errno_is EPROTO ;; mret (-1, 0, detail)
      else
        '(got, buffer) ← receive_buffer;
        if (got <? 0) || (buffer =? 0) then errno_is EPROTO ;; mret (-1, buffer, detail)
        else mret (ADVC_STATUS_OK, buffer, detail).

(** ** dma-bufs *)

(** A zero session or a NULL descriptor returns -1 and leaves [errno]. *)
Definition advc_client_register_dmabuf (payload : list Z) (sid : Z)
    (descriptor : option advc_dmabuf_descriptor) : St M (Z * option Z) :=
  match descriptor with
  | None => mret (-1, None)
  | Some d =>
      if sid =? 0 then mret (-1, None)
      else
        '(r, (p, fds, n)) ← advc_dmabuf_registration_encode (zeros ADVC_REGISTER_DMABUF_SIZE) d
                              (replicate 4 0) 0;
        if r <? 0 then mret (-1, None)
        else session_status_transaction ADVC_OP_REGISTER_DMABUF sid (Some p)
               ADVC_REGISTER_DMABUF_SIZE (Some fds) n payload
  end.

Definition advc_client_unregister_dmabuf (payload : list Z) (sid buffer_id : Z)
    : St M (Z * option Z) :=
  if buffer_id =? 0 then errno_is EINVAL ;; mret (-1, None)
  else session_status_transaction ADVC_OP_UNREGISTER_DMABUF sid
         (Some (advc_put_u64 (zeros ADVC_UNREGISTER_DMABUF_SIZE) 0 buffer_id))
         ADVC_UNREGISTER_DMABUF_SIZE None 0 payload.

Definition advc_client_queue_dmabuf (payload : list Z) (sid : Z)
    (submission : option advc_dmabuf_submission) : St M (Z * option Z) :=
  match submission with
  | None => errno_is EINVAL ;; mret (-1, None)
  | Some s =>
      let fence := sub_acquire_fence_fd s in
      if (sub_buffer_id s =? 0) || (INT64_MAX <? sub_pts_ns s) || (fence <? -1)
      then errno_is EINVAL ;; mret (-1, None)
      else
        v ← (if 0 <=? fence then advc_dmabuf_sync_file_validate fence else mret 0);
        if v <? 0 then errno_is EINVAL ;; mret (-1, None)
        else
          let p := zeros ADVC_QUEUE_DMABUF_SIZE in
          let p := advc_put_u64 p 0 (sub_buffer_id s) in
          let p := advc_put_u64 p 8 (sub_pts_ns s) in
          let p := advc_put_u32 p 20
                     (if 0 <=? fence then ADVC_FD_ACQUIRE_FENCE else ADVC_FD_NONE) in
          session_status_transaction ADVC_OP_QUEUE_DMABUF sid (Some p) ADVC_QUEUE_DMABUF_SIZE
            (if 0 <=? fence then Some [fence] else None) (if 0 <=? fence then 1 else 0) payload
  end.

(** Status, release fence, detail. *)
Definition advc_client_complete_dmabuf (payload : list Z) (sid buffer_id : Z)
    : St M (Z * Z * option Z) :=
  if (sid =? 0) || (buffer_id =? 0) then errno_is EINVAL ;; mret (-1, -1, None)
  else
    '(r, reply) ← transaction_ex ADVC_OP_COMPLETE_DMABUF sid
                    (Some (advc_put_u64 (zeros ADVC_COMPLETE_DMABUF_REQUEST_SIZE) 0 buffer_id))
                    ADVC_COMPLETE_DMABUF_REQUEST_SIZE None 0 payload ADVC_COMPLETE_DMABUF_SIZE true;
    let h := msg_header reply in
    let p := payload_of reply in
    if r <? 0 then mret (-1, -1, None)
    else if payload_size h =? ADVC_STATUS_SIZE then
      '(status, detail) ← parse_status_reply reply; mret (status, -1, detail)
    else
      v ← advc_dmabuf_completion_validate p (payload_size h) (msg_fds reply) (fd_count h);
      if (v <? 0) || negb (advc_get_u64 p 0 =? buffer_id) then
        refuse_reply reply ;; mret (-1, -1, None)
      else
        let fence := if fd_count h =? 1 then fd_at reply 0 else -1 in
        let reply := if fd_count h =? 1 then with_fds (<[0%nat := -1]> (msg_fds reply)) reply
                     else reply in
        advc_close_message_fds reply ;;
        mret (to_int (advc_get_u32 p 8), fence, Some (advc_get_u32 p 12)).

(** The descriptors of the first [n] slots now belong to the caller. *)
Definition disown_fds (n : Z) (reply : advc_message) : advc_message :=
  with_fds (replicate (Nat.min (Z.to_nat n) (length (msg_fds reply))) (-1) ++
            drop (Z.to_nat n) (msg_fds reply)) reply.

(** Status, descriptor, detail. *)
Definition advc_client_transfer_prime (payload : list Z) (sid buffer_id : Z)
    (descriptor : advc_dmabuf_descriptor) : St M (Z * advc_dmabuf_descriptor * option Z) :=
  if (sid =? 0) || (buffer_id =? 0) then errno_is EINVAL ;; mret (-1, descriptor, None)
  else
    '(r, reply) ← transaction_ex ADVC_OP_TRANSFER_PRIME sid
                    (Some (advc_put_u64 (zeros ADVC_TRANSFER_PRIME_SIZE) 0 buffer_id))
                    ADVC_TRANSFER_PRIME_SIZE None 0 payload ADVC_TRANSFER_PRIME_REPLY_SIZE true;
    let h := msg_header reply in
    let p := payload_of reply in
    if r <? 0 then mret (-1, blank_descriptor, None)
    else if payload_size h =? ADVC_STATUS_SIZE then
      '(status, detail) ← parse_status_reply reply; mret (status, blank_descriptor, detail)
    else if negb (payload_size h =? ADVC_TRANSFER_PRIME_REPLY_SIZE) || negb (h_flags h =? 0) ||
            negb (advc_get_u32 p 0 =? ADVC_STATUS_OK) || negb (advc_get_u32 p 4 =? 0)
    then refuse_reply reply ;; mret (-1, blank_descriptor, None)
    else
      let object_count := advc_get_u32 p (8 + 48) in
      if (object_count =? 0) || (ADVC_MAX_DMABUF_OBJECTS <? object_count) ||
         negb (fd_count h =? object_count)
      then refuse_reply reply ;; mret (-1, blank_descriptor, None)
      else
        '(v, d) ← advc_dmabuf_registration_decode (drop 8 p) ADVC_REGISTER_DMABUF_SIZE
                    (msg_fds reply) (fd_count h) blank_descriptor;
        if (v <? 0) || negb (d_buffer_id d =? buffer_id) then
          refuse_reply reply ;; mret (-1, blank_descriptor, None)
        else
          advc_close_message_fds (disown_fds (d_object_count d) reply) ;;
          mret (ADVC_STATUS_OK, d, Some 0).

(** The failure return of [advc_client_reserve_linear] past the size check. *)
Definition reserve_abandon (reply : advc_message) (d : advc_dmabuf_descriptor)
    : St M (Z * advc_dmabuf_descriptor * option Z) :=
  advc_close_message_fds reply ;;
  d ← advc_dmabuf_descriptor_close d;
  errno_is EPROTO ;; mret (-1, d, None).

Definition advc_client_reserve_linear (payload : list Z) (sid pts_ns width height : Z)
    (descriptor : advc_dmabuf_descriptor) : St M (Z * advc_dmabuf_descriptor * option Z) :=
  if (sid =? 0) || (INT64_MAX <? pts_ns) || (width =? 0) || (height =? 0) ||
     negb (Z.land width 1 =? 0) || negb (Z.land height 1 =? 0)
  then errno_is EINVAL ;; mret (-1, descriptor, None)
  else
    let request := zeros ADVC_RESERVE_LINEAR_SIZE in
    let request := advc_put_u64 request 0 pts_ns in
    let request := advc_put_u32 request 8 width in
    let request := advc_put_u32 request 12 height in
    let request := advc_put_u32 request 16 DRM_FORMAT_NV12 in
    '(r, reply) ← transaction_ex ADVC_OP_RESERVE_LINEAR sid (Some request)
                    ADVC_RESERVE_LINEAR_SIZE None 0 payload ADVC_RESERVE_LINEAR_REPLY_SIZE true;
    let h := msg_header reply in
    let p := payload_of reply in
    if r <? 0 then mret (-1, blank_descriptor, None)
    else if payload_size h =? ADVC_STATUS_SIZE then
      '(status, detail) ← parse_status_reply reply; mret (status, blank_descriptor, detail)
    else if negb (payload_size h =? ADVC_RESERVE_LINEAR_REPLY_SIZE) || negb (h_flags h =? 0)
    then refuse_reply reply ;; mret (-1, blank_descriptor, None)
    else
      let object_count := advc_get_u32 p (8 + 48) in
      if negb (advc_get_u32 p 0 =? ADVC_STATUS_OK) || negb (advc_get_u32 p 4 =? 0) ||
         (object_count =? 0) || (ADVC_MAX_DMABUF_OBJECTS <? object_count) ||
         negb (fd_count h =? object_count)
      then reserve_abandon reply blank_descriptor
      else
        '(v, d) ← advc_dmabuf_registration_decode (drop 8 p) ADVC_REGISTER_DMABUF_SIZE
                    (msg_fds reply) (fd_count h) blank_descriptor;
        if (v <? 0) || (d_buffer_id d =? 0) || negb (d_width d =? width) ||
           negb (d_height d =? height) || negb (d_drm_fourcc d =? DRM_FORMAT_NV12) ||
           negb (d_drm_modifier d =? 0)
        then reserve_abandon reply d
        else
          advc_close_message_fds (disown_fds (d_object_count d) reply) ;;
          mret (ADVC_STATUS_OK, d, Some 0).

End Client.
