(* ===== verification/ClientSafe.v ===== *)
(** * The client owns exactly the descriptors it returns

    A triple [hands l c F]: started with the descriptors [l] open on top of some
    table, [c] ends with the descriptors [F a] of its result open on top of the
    same table, whatever the peer sends, up to descriptors that come with a record
    without bytes.  Each operation of Client.v is one such triple, composed from the
    triple of an exchange and the triples of closing a reply. *)

From stdpp Require Import base list gmap.
From Stdlib Require Import ZArith Lia Bool.
From S2P Require Import Prelude Kernel Protocol Dmabuf Engine EngineFiles EngineInv EngineSafe Broker BrokerLive Client.

(** Every record still to come is one the control buffer has room for. *)
Definition fits {B} (m : machine B) : Prop := Forall control_fits (m_rx m).

(** No record still to come has descriptors and no bytes. *)
Definition clean {B} (m : machine B) : Prop := Forall event_clean (m_rx m).

(** The descriptors that come with records without bytes. *)
Definition hidden (l : list rx_event) : nat :=
  sum_list_with (fun ev => match ev with RxRecord [] _ ctl => control_files ctl | _ => 0%nat end) l.

Lemma hidden_app l k : hidden (l ++ k) = (hidden l + hidden k)%nat.
Proof. unfold hidden. induction l as [|ev l IH]; cbn; [done|]. destruct ev as [|[] ]; lia. Qed.

Lemma hidden_clean l : Forall event_clean l -> hidden l = 0%nat.
Proof.
  unfold hidden. induction 1 as [|ev l Hev Hl IH]; cbn; [done|]. destruct ev as [e|[|b bytes] tr ctl]; [done| |done].
  destruct Hev as [H0 _]. by rewrite H0.
Qed.

Lemma clean_fits {B} (m : machine B) : clean m -> fits m.
Proof. intros H. eapply Forall_impl; [exact H|]. by intros [e|bytes tr ctl]; [|intros [_ ?]]. Qed.

(** What the head of the socket yields has been taken from it. *)
Lemma recv_retry_split l : exists got, l = got ++ snd (recv_retry l) /\
  forall tr ctl, fst (recv_retry l) = RxRecord [] tr ctl -> (control_files ctl <= hidden got)%nat.
Proof.
  induction l as [|ev l (got & IH & Hh)]; cbn.
  - exists []. split; [done|]. by intros tr ctl [= _ <-].
  - destruct ev as [e|bytes tr' ctl']; [destruct (e =? EINTR)|]; cbn.
    + exists (RxError e :: got). split; [cbn; congruence|done].
    + by exists [RxError e].
    + exists [RxRecord bytes tr' ctl']. split; [done|]. intros tr ctl [= -> -> ->]. cbn. lia.
Qed.

(** ** The triple *)

Section Triple.
Context {B : Type}.

(** [got] is what the computation took from the socket; no more descriptors are
    lost than records without bytes carried. *)
Definition hands {A} (l : list Z) (c : St (machine B) A) (F : A -> list Z) (Q : A -> Prop) : Prop :=
  forall t m, fits m -> installed t (m_fds m) l ->
    exists got lost t', m_rx m = got ++ m_rx (snd (c m)) /\ (length lost <= hidden got)%nat /\
      installed t t' lost /\ installed t' (m_fds (snd (c m))) (F (fst (c m))) /\ Q (fst (c m)).

(** A computation that leaves what it receives with its callers. *)
Lemma hands_keeps {A} l (c : St (machine B) A) F Q :
  (forall t m, installed t (m_fds m) l ->
     m_rx (snd (c m)) `suffix_of` m_rx m /\ installed t (m_fds (snd (c m))) (F (fst (c m))) /\
     Q (fst (c m))) -> hands l c F Q.
Proof.
  intros Hc t m _ Hi. destruct (Hc t m Hi) as ([got Hg] & Hi' & Hq).
  exists got, [], t. split_and!; [done|cbn; lia|apply installed_nil|done|done].
Qed.

Lemma hands_ret {A} (a : A) l (F : A -> list Z) (Q : A -> Prop) :
  l ≡ₚ F a -> Q a -> hands l (mret a) F Q.
Proof.
  intros Hp Hq. apply hands_keeps. intros t m Hi. split_and!; [done|by eapply installed_Permutation|done].
Qed.

Lemma hands_bind {A C} (c : St (machine B) A) (k : A -> St (machine B) C) l F Q G R :
  hands l c F Q -> (forall a, Q a -> hands (F a) (k a) G R) -> hands l (c ≫= k) G R.
Proof.
  intros Hc Hk t m Hm Hi. rewrite bind_seq.
  destruct (Hc t m Hm Hi) as (got & lost & t1 & Hg & Hl & H1 & H2 & Hq).
  destruct (Hk _ Hq t1 (snd (c m))) as (got' & lost' & t2 & Hg' & Hl' & H3 & H4 & Hr); [|done|].
  - unfold fits in *. rewrite Hg in Hm. by apply Forall_app in Hm as [_ ?].
  - exists (got ++ got'), (lost ++ lost'), t2. split_and!; try done.
    + by rewrite Hg, Hg', app_assoc.
    + rewrite length_app, hidden_app. lia.
    + by eapply installed_app.
Qed.

Lemma hands_weaken {A} l (c : St (machine B) A) F Q (G : A -> list Z) (R : A -> Prop) :
  hands l c F Q -> (forall a, Q a -> F a ≡ₚ G a /\ R a) -> hands l c G R.
Proof.
  intros Hc Hw t m Hm Hi. destruct (Hc t m Hm Hi) as (got & lost & t' & ? & ? & ? & ? & Hq).
  destruct (Hw _ Hq). exists got, lost, t'. split_and!; try done. by eapply installed_Permutation.
Qed.

Lemma hands_perm {A} l l' (c : St (machine B) A) F Q (G : A -> list Z) :
  l' ≡ₚ l -> hands l c F Q -> (forall a, Q a -> F a ≡ₚ G a) -> hands l' c G Q.
Proof.
  intros Hp Hc HF t m Hm Hi. eapply (hands_weaken l c F Q G Q Hc); [by eauto|done|].
  by eapply installed_Permutation.
Qed.

Lemma hands_also {A} l (c : St (machine B) A) F (Q R : A -> Prop) :
  hands l c F Q -> (forall m, R (fst (c m))) -> hands l c F (fun a => Q a /\ R a).
Proof.
  intros Hc Hr t m Hm Hi. destruct (Hc t m Hm Hi) as (got & lost & t' & ? & ? & ? & ? & ?).
  exists got, lost, t'. by split_and!.
Qed.

(** Descriptors already held are kept. *)
Lemma hands_under {A} X l (c : St (machine B) A) F Q :
  hands l c F Q -> hands (X ++ l) c (fun a => X ++ F a) Q.
Proof.
  intros Hc t m Hm Hi. apply installed_app_inv in Hi as (t1 & H1 & H2).
  destruct (Hc t1 m Hm H2) as (got & lost & t2 & Hg & Hl & H3 & H4 & Hq).
  destruct (installed_swap _ _ _ _ _ H1 H3) as (t3 & H5 & H6).
  exists got, lost, t3. split_and!; try done. by eapply installed_app.
Qed.

Lemma suffix_clean (m m' : machine B) : m_rx m' `suffix_of` m_rx m -> clean m -> clean m'.
Proof. unfold clean. intros [k Hk] H. rewrite Hk in H. by apply Forall_app in H as [_ ?]. Qed.

(** From clean records nothing is lost. *)
Lemma hands_clean {A} l (c : St (machine B) A) F Q t m :
  hands l c F Q -> clean m -> installed t (m_fds m) l ->
  clean (snd (c m)) /\ installed t (m_fds (snd (c m))) (F (fst (c m))) /\ Q (fst (c m)).
Proof.
  intros Hc Hm Hi.
  destruct (Hc t m (clean_fits m Hm) Hi) as (got & lost & t' & Hg & Hl & H1 & H2 & Hq).
  unfold clean in *. rewrite Hg in Hm. apply Forall_app in Hm as [Hgot Hm].
  rewrite hidden_clean in Hl by done. destruct lost; [|cbn in Hl; lia].
  apply installed_same in H1. subst t'. done.
Qed.

(** A quiet computation that leaves the table alone. *)
Definition inert {A} (c : St (machine B) A) : Prop :=
  quiet c /\ forall m, m_fds (snd (c m)) = m_fds m.

Lemma hands_inert {A} l (c : St (machine B) A) : inert c -> hands l c (fun _ => l) (fun _ => True).
Proof.
  intros [Hq Hf]. apply hands_keeps. intros t m Hi. destruct (Hq m) as (_ & _ & Hs). rewrite Hf.
  split_and!; done.
Qed.

End Triple.

Create HintDb inert.

Section Inert.
Context {B : Type}.

Lemma inert_ret {A} (a : A) : inert (B := B) (mret a).
Proof. by split; [apply quiet_ret|]. Qed.
Lemma inert_bind {A C} (c : St (machine B) A) (k : A -> St (machine B) C) :
  inert c -> (forall a, inert (k a)) -> inert (c ≫= k).
Proof.
  intros [Hq Hf] Hk. split; [apply quiet_bind; [done|by apply Hk]|].
  intros m. rewrite bind_seq. destruct (Hk (fst (c m))) as [_ ->]. done.
Qed.
Lemma inert_errno_is e : inert (B := B) (errno_is e).
Proof. by split; [auto with quiet|]. Qed.
Lemma inert_errno : inert (B := B) errno.
Proof. by split; [apply quiet_gets|]. Qed.
Lemma inert_gets {A} (f : machine B -> A) : inert (gets f).
Proof. by split; [apply quiet_gets|]. Qed.
Lemma inert_alloc : inert (B := B) sys_alloc.
Proof. split; [apply quiet_alloc|]. intros m. unfold sys_alloc. by destruct (m_alloc m) as [|[] ?]. Qed.
Lemma inert_sync_info fd : inert (B := B) (ioctl_sync_file_info fd).
Proof.
  split; [apply quiet_sync|]. intros m. unfold ioctl_sync_file_info. by destruct (_ !! _) as [[? []]|].
Qed.
Lemma inert_fail e : inert (B := B) (fail_with e).
Proof. apply inert_bind; [apply inert_errno_is|intros; apply inert_ret]. Qed.
End Inert.

#[export] Hint Resolve inert_ret inert_errno_is inert_errno inert_gets inert_alloc inert_sync_info
  inert_fail : inert.

(** Walks a computation that only reads. *)
Ltac rest :=
  cbn zeta;
  repeat first
    [ progress cbn beta iota zeta
    | solve [auto with inert]
    | apply inert_bind; [|intros ?]
    | match goal with |- inert (match ?x with _ => _ end) => destruct x end ].

Section InertLibrary.
Context {B : Type}.
Lemma inert_get_seals fd : inert (B := B) (fcntl_get_seals fd).
Proof. unfold fcntl_get_seals. rest. Qed.
Lemma inert_fstat fd : inert (B := B) (sys_fstat fd).
Proof. unfold sys_fstat. rest. Qed.
Lemma inert_sync_validate fd : inert (B := B) (advc_dmabuf_sync_file_validate fd).
Proof. unfold advc_dmabuf_sync_file_validate. rest. Qed.
Lemma inert_descriptor_validate d : inert (B := B) (advc_dmabuf_descriptor_validate d).
Proof. unfold advc_dmabuf_descriptor_validate. rest. Qed.
End InertLibrary.
#[export] Hint Resolve inert_get_seals inert_fstat inert_sync_validate inert_descriptor_validate : inert.

Section InertCodecs.
Context {B : Type}.
Lemma inert_registration_encode p d fds n :
  inert (B := B) (advc_dmabuf_registration_encode p d fds n).
Proof. unfold advc_dmabuf_registration_encode. rest. Qed.
Lemma inert_registration_decode p n fds k d :
  inert (B := B) (advc_dmabuf_registration_decode p n fds k d).
Proof. unfold advc_dmabuf_registration_decode. rest. Qed.
Lemma inert_completion_validate p n fds k :
  inert (B := B) (advc_dmabuf_completion_validate p n fds k).
Proof. unfold advc_dmabuf_completion_validate. rest. Qed.
End InertCodecs.
#[export] Hint Resolve inert_registration_encode inert_registration_decode
  inert_completion_validate : inert.

(** ** An exchange *)

(** The descriptors of a result that carries a reply. *)
Definition answer_fds (x : Z * advc_message) : list Z :=
  if fst x <? 0 then [] else reply_fds (snd x).

(** What a received reply is. *)
Definition answer_ok (x : Z * advc_message) : Prop :=
  fst x = -1 \/
  (fst x = 0 /\ header_typed (msg_header (snd x)) /\
   0 <= fd_count (msg_header (snd x)) <= ADVC_MAX_FDS /\ zlen (msg_fds (snd x)) = ADVC_MAX_FDS).

Section Exchange.
Context {U : Type}.
Notation M := (machine (client_statics U)).

Lemma send_frame (msg : advc_message) (m : M) :
  m_fds (snd (advc_send_message msg m)) = m_fds m /\ m_rx (snd (advc_send_message msg m)) = m_rx m.
Proof.
  unfold advc_send_message. cbn zeta. destruct (_ && _); [done|]. rewrite bind_seq.
  unfold advc_header_encode. rewrite bind_seq. unfold advc_header_validate.
  destruct (header_invalid (msg_header msg)); [done|]. cbn -[sys_sendmsg]. rewrite bind_seq.
  unfold sys_sendmsg.
  match goal with |- context [send_retry ?a ?b] => destruct (send_retry a b) as [r rs] end.
  destruct (r <? 0) eqn:E; [done|]. cbn [fst snd]. rewrite E.
  by destruct (negb _).
Qed.

Lemma hands_send l (msg : advc_message) :
  hands (B := client_statics U) l (advc_send_message msg) (fun _ => l) (fun _ => True).
Proof.
  apply hands_keeps. intros t m Hi. destruct (send_frame msg m) as [Hf Hr]. rewrite Hf, Hr. done.
Qed.

Lemma hands_next_id l :
  hands (B := client_statics U) l next_request_id (fun _ => l) (fun _ => True).
Proof. by apply hands_keeps. Qed.

Lemma hands_shutdown l :
  hands (B := client_statics U) l sys_shutdown (fun _ => l) (fun _ => True).
Proof. apply hands_keeps. intros t m Hi. split_and!; [apply suffix_nil|done|done]. Qed.

Lemma hands_receive (slot : advc_message) : is_Some (msg_payload slot) ->
  zlen (msg_fds slot) = ADVC_MAX_FDS ->
  hands (B := client_statics U) [] (advc_receive_message slot) answer_fds answer_ok.
Proof.
  intros Hp Hl t m Hm Hi. destruct (receive_queue slot m Hp) as (_ & _ & [k Hk] & _).
  destruct (recv_retry_split (m_rx m)) as (got & Hg & Hhid). rewrite Hk, app_assoc in Hg.
  pose proof (receive_shape slot m) as Hsh. unfold answer_fds, answer_ok.
  destruct (receive_accounts m slot (recv_retry_fits _ Hm) Hl)
    as [[Hr [Hf|(lost & t' & (tr & ctl & rest & He & ->) & H1 & Hf)]]|(Hr & Hv & Ht & Hf)];
    rewrite Hr; cbn [Z.ltb Z.compare].
  - exists (got ++ k), [], t. rewrite Hf. split_and!; [done|cbn; lia|apply installed_nil|done|by left].
  - exists (got ++ k), (all_fds (fst (install_control ctl (set_rx rest m)))), t'. rewrite Hf.
    apply installed_same in Hi. subst t. split_and!; [done| |done|apply installed_nil|by left].
    specialize (Hhid tr ctl ltac:(by rewrite He)). rewrite hidden_app.
    destruct (install_control_installed ctl (set_rx rest m)) as [_ Hlen]. lia.
  - exists (got ++ k), [], t. split_and!; [done|cbn; lia|apply installed_nil| |].
    + eapply (installed_app _ _ _ []); [exact Hi|exact Hf].
    + right. split_and!; [done|done| | |congruence].
      * destruct Ht as (_&_&_&_&_&_&_&_&?&_). unfold is_u16 in *. lia.
      * unfold header_invalid in Hv. rewrite !orb_false_iff in Hv. lia.
Qed.

Lemma hands_close (msg : advc_message) : zlen (msg_fds msg) = ADVC_MAX_FDS ->
  hands (B := client_statics U) (reply_fds msg) (advc_close_message_fds msg) (fun _ => [])
    (fun _ => True).
Proof.
  intros Hl. apply hands_keeps. intros t m Hi. rewrite (close_message_installed t msg m Hl Hi).
  destruct (quiet_close_message msg m) as (_ & _ & Hs). split_and!; [done|apply installed_nil|done].
Qed.
End Exchange.

Create HintDb hands.

(** Takes the first step of a bind whose triple is known. *)
Ltac hstep := cbn zeta beta iota; eapply hands_bind; [solve [eauto with hands]|].
(** Splits on the test a computation begins with. *)
Ltac hcase E := match goal with |- hands _ (if ?b then _ else _) _ _ => destruct b eqn:E end.
(** A return whose result holds nothing. *)
Ltac hret := apply hands_ret; [reflexivity|try done].

#[export] Hint Resolve hands_send hands_next_id hands_shutdown : hands.
#[export] Hint Extern 2 (hands _ _ _ _) => (apply hands_inert; solve [auto with inert]) : hands.

Section Replies.
Context {U : Type}.
Notation B := (client_statics U).

Lemma hands_refuse (reply : advc_message) : zlen (msg_fds reply) = ADVC_MAX_FDS ->
  hands (B := B) (reply_fds reply) (refuse_reply reply) (fun _ => []) (fun _ => True).
Proof.
  intros Hl. unfold refuse_reply. eapply hands_bind; [by apply hands_close|].
  intros ? _. apply hands_inert. auto with inert.
Qed.

Lemma hands_transaction_ex opc sid rp n fds k p cap v :
  hands (B := B) [] (transaction_ex opc sid rp n fds k p cap v) answer_fds answer_ok.
Proof.
  unfold transaction_ex. cbn zeta.
  assert (forall e (s : advc_message), hands (B := B) [] (errno_is e ;; mret (-1, s)) answer_fds answer_ok)
    as Hfail.
  { intros e s. hstep. intros ? _. apply hands_ret; [done|by left]. }
  destruct (_ || _); [apply Hfail|]. hstep. intros rid _.
  destruct (existsb _ _); [apply Hfail|]. hstep. intros sent _.
  destruct (sent <? 0); [apply hands_ret; [done|by left]|].
  eapply hands_bind; [by apply hands_receive; [eexists|]|].
  intros [r reply] Hok. unfold answer_fds at 1. cbn [fst snd].
  destruct (r <? 0) eqn:Er; [apply hands_ret; [done|by left]|].
  destruct Hok as [Hr|(Hr & Ht & Hc & Hl)]; cbn [fst snd] in *; [lia|]. subst r.
  destruct (reply_mismatch _ _ _ _ _).
  - eapply hands_bind; [by apply hands_close|]. intros ? _. hstep. intros ? _.
    apply hands_ret; [done|by left].
  - apply hands_ret; [done|]. right. split_and!; try done; apply Hc.
Qed.

(** Continues after an exchange: nothing is owned when it failed. *)
Lemma hands_reply {A} (c : St (machine B) (Z * advc_message)) (k : Z * advc_message -> St (machine B) A)
    (F : A -> list Z) (Q : A -> Prop) :
  hands [] c answer_fds answer_ok ->
  (forall r reply, r < 0 -> hands [] (k (r, reply)) F Q) ->
  (forall reply, header_typed (msg_header reply) ->
     0 <= fd_count (msg_header reply) <= ADVC_MAX_FDS -> zlen (msg_fds reply) = ADVC_MAX_FDS ->
     hands (reply_fds reply) (k (0, reply)) F Q) ->
  hands [] (c ≫= k) F Q.
Proof.
  intros Hc Hf Hk. eapply hands_bind; [exact Hc|]. intros [r reply] Hok.
  unfold answer_fds. cbn [fst snd].
  destruct Hok as [Hr|(Hr & Ht & Hn & Hl)]; cbn [fst snd] in *; subst r; cbn [Z.ltb Z.compare].
  - apply Hf. lia.
  - by apply Hk.
Qed.

Lemma hands_parse_status (reply : advc_message) : zlen (msg_fds reply) = ADVC_MAX_FDS ->
  hands (B := B) (reply_fds reply) (parse_status_reply reply) (fun _ => [])
    (fun x => -1 <= fst x <= ADVC_STATUS_INTERNAL).
Proof.
  intros Hl. unfold parse_status_reply. cbn zeta. destruct (_ || _) eqn:E.
  - eapply hands_bind; [by apply hands_refuse|]. intros ? _. hret.
  - rewrite reply_fds_none by lia. pose proof (get_u32_range (payload_of reply) 0).
    destruct (ADVC_STATUS_INTERNAL <? advc_get_u32 (payload_of reply) 0) eqn:Es.
    + hstep. intros ? _. hret.
    + hret. cbn. unfold is_u32 in *. lia.
Qed.
End Replies.

#[export] Hint Resolve hands_refuse hands_transaction_ex hands_parse_status : hands.

Section Operations.
Context {U : Type}.
Notation B := (client_statics U).

Lemma hands_session_status opc sid rp n fds k p :
  hands (B := B) [] (session_status_transaction opc sid rp n fds k p) (fun _ => []) (fun _ => True).
Proof.
  unfold session_status_transaction. destruct (sid =? 0); [hstep; intros ? _; hret|].
  eapply hands_reply; [eauto with hands|intros r reply Hr|intros reply Ht Hn Hl].
  - replace (r <? 0) with true by lia. hret.
  - cbn. eapply hands_weaken; [eauto with hands|]. done.
Qed.
End Operations.
#[export] Hint Resolve hands_session_status : hands.

Section Simple.
Context {U : Type}.
Notation B := (client_statics U).

(** Ends an exchange that failed. *)
Ltac failed := let r := fresh in let reply := fresh in let H := fresh in
  intros r reply H; replace (r <? 0) with true by lia; hret.

Lemma hands_hello p f :
  hands (B := B) [] (advc_client_hello p f) (fun _ => []) (fun _ => True).
Proof.
  unfold advc_client_hello, transaction. cbn zeta.
  eapply hands_reply; [eauto with hands|failed|intros reply Ht Hn Hl]. cbn -[advc_get_u64 advc_get_u32].
  destruct (_ || _) eqn:E; [hstep; intros ? _; hret|]. rewrite reply_fds_none by lia. hret.
Qed.

Lemma hands_query p :
  hands (B := B) [] (advc_client_query_capabilities p) (fun _ => []) (fun _ => True).
Proof.
  unfold advc_client_query_capabilities, transaction. cbn zeta.
  eapply hands_reply; [eauto with hands|failed|intros reply Ht Hn Hl].
  cbn -[advc_get_u64 advc_get_u32 read_capabilities u32].
  destruct (negb (fd_count _ =? 0)) eqn:E; [hstep; intros ? _; hret|].
  destruct (_ && _).
  - hstep. intros [st d] _. cbn. destruct (st <? 0); [hret|hstep; intros ? _; hret].
  - rewrite reply_fds_none by lia. destruct (_ <? _); [hstep; intros ? _; hret|].
    destruct (_ || _); [hstep; intros ? _; hret|hret].
Qed.

Lemma hands_create p c :
  hands (B := B) [] (advc_client_create_session p c) (fun _ => []) (fun _ => True).
Proof.
  unfold advc_client_create_session. destruct (config_check c); [hstep; intros ? _; hret|].
  eapply hands_reply; [eauto with hands|failed|intros reply Ht Hn Hl]. cbn -[parse_status_reply].
  hstep. intros [st d] _. cbn.
  repeat match goal with |- hands _ (if ?b then _ else _) _ _ => destruct b end;
    first [hret | hstep; intros ? _; hret].
Qed.

Lemma inert_input_check i : inert (B := B) (input_check i).
Proof. unfold input_check. rest. Qed.
#[local] Hint Resolve inert_input_check : inert.

Lemma hands_queue_input p sid i :
  hands (B := B) [] (advc_client_queue_input p sid i) (fun _ => []) (fun _ => True).
Proof.
  unfold advc_client_queue_input. hstep. intros [[n fd]|] _; [|hret].
  hstep. intros [] _; cbn [negb]; [|hret]. eauto with hands.
Qed.

Lemma hands_release_fenced p sid id f :
  hands (B := B) [] (advc_client_release_output_fenced p sid id f) (fun _ => []) (fun _ => True).
Proof.
  unfold advc_client_release_output_fenced. destruct (id =? 0); [hstep; intros ? _; hret|].
  eauto with hands.
Qed.

Lemma hands_register p sid d :
  hands (B := B) [] (advc_client_register_dmabuf p sid d) (fun _ => []) (fun _ => True).
Proof.
  unfold advc_client_register_dmabuf. destruct d as [d|]; [|hret]. destruct (sid =? 0); [hret|].
  hstep. intros [r [[q fds] n]] _. cbn. destruct (r <? 0); [hret|]. eauto with hands.
Qed.

Lemma hands_unregister p sid id :
  hands (B := B) [] (advc_client_unregister_dmabuf p sid id) (fun _ => []) (fun _ => True).
Proof.
  unfold advc_client_unregister_dmabuf. destruct (id =? 0); [hstep; intros ? _; hret|].
  eauto with hands.
Qed.

Lemma hands_queue_dmabuf p sid s :
  hands (B := B) [] (advc_client_queue_dmabuf p sid s) (fun _ => []) (fun _ => True).
Proof.
  unfold advc_client_queue_dmabuf. destruct s as [s|]; [|hstep; intros ? _; hret].
  cbn zeta. destruct (_ || _); [hstep; intros ? _; hret|].
  eapply hands_bind; [apply (hands_inert []); rest|]. intros v _. cbn beta.
  destruct (v <? 0); [hstep; intros ? _; hret|]. eauto with hands.
Qed.
End Simple.

(** ** Replies that carry descriptors *)

Section Carried.
Context {U : Type}.
Notation B := (client_statics U).

Lemma hands_nonneg {A} l (c : St (machine B) A) F Q :
  (Forall (fun fd => 0 <= fd) l -> hands l c F Q) -> hands l c F Q.
Proof. intros H t m Hm Hi. apply H; [by eapply installed_nonneg|done|done]. Qed.

Lemma client_reply_one (reply : advc_message) :
  fd_count (msg_header reply) = 1 -> zlen (msg_fds reply) = ADVC_MAX_FDS ->
  reply_fds reply = [fd_at reply 0].
Proof.
  unfold reply_fds, fd_at. intros -> Hl. by destruct (msg_fds reply) as [|x l].
Qed.

(** A message whose descriptors have been taken out closes nothing. *)
Lemma inert_close_taken (msg : advc_message) : zlen (msg_fds msg) = ADVC_MAX_FDS ->
  Forall (fun fd => fd = -1) (reply_fds msg) -> inert (B := B) (advc_close_message_fds msg).
Proof.
  intros Hl Hf. split; [apply quiet_close_message|]. intros m.
  unfold advc_close_message_fds. cbn zeta. rewrite bind_seq. cbn [snd mret st_ret].
  assert (Forall (fun fd => fd = -1)
    (take (Z.to_nat (Z.min (fd_count (msg_header msg)) ADVC_MAX_FDS)) (msg_fds msg))) as H.
  { unfold reply_fds in Hf. destruct (Z.le_gt_cases (fd_count (msg_header msg)) ADVC_MAX_FDS).
    - by rewrite Z.min_l by lia.
    - rewrite Z.min_r by lia. unfold zlen in Hl. rewrite take_ge in Hf |- * by lia. done. }
  induction H as [|fd l -> Hfs IH]; [done|]. exact IH.
Qed.

(** Handing one descriptor to the caller and closing the rest. *)
Lemma hands_take_one {A} (reply : advc_message) (a : A) (F : A -> list Z) (Q : A -> Prop) :
  0 <= fd_count (msg_header reply) <= 1 -> zlen (msg_fds reply) = ADVC_MAX_FDS ->
  F a = opt_fd (if fd_count (msg_header reply) =? 1 then fd_at reply 0 else -1) -> Q a ->
  hands (B := B) (reply_fds reply)
    (advc_close_message_fds
       (if fd_count (msg_header reply) =? 1 then with_fds (<[0%nat := -1]> (msg_fds reply)) reply
        else reply) ;; mret a) F Q.
Proof.
  intros Hc Hl HF HQ. apply hands_nonneg. intros Hnn.
  eapply hands_bind; [apply hands_inert, inert_close_taken|].
  - destruct (_ =? 1); cbn; [|done]. unfold zlen in *. by rewrite length_insert.
  - destruct (Z.eqb_spec (fd_count (msg_header reply)) 1) as [H1|H1].
    + unfold reply_fds. cbn. rewrite H1. destruct (msg_fds reply); [done|]. cbn. by constructor.
    + rewrite reply_fds_none by lia. constructor.
  - intros ? _. apply hands_ret; [|done]. rewrite HF. unfold opt_fd.
    destruct (Z.eqb_spec (fd_count (msg_header reply)) 1) as [H1|H1].
    + rewrite client_reply_one in Hnn |- * by done. apply Forall_cons in Hnn as [Hnn _].
      by destruct (Z.leb_spec 0 (fd_at reply 0)); [|lia].
    + by rewrite reply_fds_none by lia.
Qed.

Lemma hands_inert_post {A} l (c : St (machine B) A) (Q : A -> Prop) :
  inert c -> (forall m, Q (fst (c m))) -> hands l c (fun _ => l) Q.
Proof.
  intros Hc HQ. eapply hands_weaken; [apply (hands_also l c (fun _ => l) (fun _ => True) Q)|].
  - by apply hands_inert.
  - done.
  - by intros a [_ ?].
Qed.

Lemma completion_count q n fds k (m : machine B) :
  fst (advc_dmabuf_completion_validate q n fds k m) < 0 \/ k <= 1.
Proof.
  unfold advc_dmabuf_completion_validate. destruct (_ || _) eqn:E; [by left|right; lia].
Qed.

(** Status and release fence. *)
Definition fence_fds (x : Z * Z * option Z) : list Z := opt_fd (snd (fst x)).

Lemma hands_complete_dmabuf p sid id :
  hands (B := B) [] (advc_client_complete_dmabuf p sid id) fence_fds (fun _ => True).
Proof.
  unfold advc_client_complete_dmabuf. cbn zeta.
  destruct (_ || _); [hstep; intros ? _; hret|].
  eapply hands_reply; [eauto with hands| |intros reply Ht Hn Hl].
  { intros r reply Hr. replace (r <? 0) with true by lia. hret. }
  cbn -[advc_get_u64 advc_get_u32 parse_status_reply advc_dmabuf_completion_validate].
  destruct (payload_size _ =? _).
  { hstep. intros [st d] _. hret. }
  eapply (hands_bind _ _ _ _ (fun v => v < 0 \/ fd_count (msg_header reply) <= 1)).
  { apply hands_inert_post; [auto with inert|intros m; apply completion_count]. }
  intros v Hv. destruct (_ || _) eqn:E; [hstep; intros ? _; hret|].
  apply hands_take_one; [lia|done|done|done].
Qed.

Lemma hands_complete_ahb_reply reply d :
  0 <= fd_count (msg_header reply) -> zlen (msg_fds reply) = ADVC_MAX_FDS ->
  hands (B := B) (reply_fds reply) (complete_ahb_reply reply d) fence_fds (fun _ => True).
Proof.
  intros Hn Hl. unfold complete_ahb_reply. cbn zeta.
  assert (forall d, hands (B := B) (reply_fds reply)
    (refuse_reply reply ;; sys_shutdown ;; mret (-1, -1, d)) fence_fds (fun _ => True)) as Hgive.
  { intros d'. hstep. intros ? _. hstep. intros ? _. hret. }
  hcase E; [apply Hgive|]. hcase E1; [apply Hgive|]. hcase E2; [apply Hgive|].
  apply hands_take_one; [lia|done|done|done].
Qed.

Context (send_buffer : Z -> St (machine B) Z) (receive_buffer : St (machine B) (Z * Z)).
Context (Hsend : forall nb l, hands l (send_buffer nb) (fun _ => l) (fun _ => True)).
Context (Hrecv : forall l, hands l receive_buffer (fun _ => l) (fun _ => True)).

Lemma hands_submit_ahb p sid i :
  hands [] (advc_client_submit_ahb p sid i send_buffer) fence_fds (fun _ => True).
Proof.
  unfold advc_client_submit_ahb. cbn zeta. destruct (ahb_input_bad sid i); [hstep; intros ? _; hret|].
  eapply hands_reply; [eauto with hands| |intros reply Ht Hn Hl].
  { intros r reply Hr. replace (r <? 0) with true by lia. hret. }
  cbn beta iota zeta. hcase E0; [done|]. hstep. intros [st d] Hst. cbn beta iota zeta.
  hcase E; [hret|].
  eapply (hands_bind _ _ _ (fun _ => []) (fun _ => True)); [hcase E1; [hret|apply Hsend]|].
  intros sent _. cbn beta. hcase E1; [hstep; intros ? _; hstep; intros ? _; hret|].
  eapply hands_reply; [eauto with hands| |intros reply' Ht' Hn' Hl'].
  { intros r reply' Hr. replace (r <? 0) with true by lia. hstep. intros ? _. hret. }
  cbn -[complete_ahb_reply]. apply hands_complete_ahb_reply; [apply Hn'|done].
Qed.

Lemma hands_transfer_ahb p sid id :
  hands [] (advc_client_transfer_ahb p sid id receive_buffer) (fun _ => []) (fun _ => True).
Proof.
  unfold advc_client_transfer_ahb. cbn zeta. destruct (_ || _); [hstep; intros ? _; hret|].
  eapply hands_reply; [eauto with hands| |intros reply Ht Hn Hl].
  { intros r reply Hr. replace (r <? 0) with true by lia. hret. }
  cbn -[parse_status_reply]. hstep. intros [st d] Hst. cbn.
  hcase E1; [hret|]. hcase E2; [hstep; intros ? _; hret|].
  eapply hands_bind; [apply Hrecv|]. intros [got buf] _. cbn.
  hcase E3; [hstep; intros ? _; hret|hret].
Qed.

(** The file or the fence of a dequeued output. *)
Definition output_fds (x : Z * advc_client_output * option Z) : list Z :=
  opt_fd (cout_data_fd (snd (fst x))) ++ opt_fd (cout_acquire_fence_fd (snd (fst x))).

Lemma inert_output_unsound q (reply : advc_message) : inert (B := B) (output_unsound q reply).
Proof. unfold output_unsound. rest. Qed.
#[local] Hint Resolve inert_output_unsound : inert.

Lemma output_count q h : output_malformed q h = false -> fd_count h <= 1 /\
  (advc_get_u32 q 28 = ADVC_TRANSPORT_BYTES -> fd_count h = 1).
Proof.
  unfold output_malformed. cbn zeta. rewrite !orb_false_iff.
  intros (((((((((H1 & H2) & H3) & _) & _) & _) & _) & _) & _) & _).
  destruct (advc_get_u32 q 28 =? ADVC_TRANSPORT_BYTES) eqn:Eb; cbn [andb negb] in *; [lia|].
  destruct (advc_get_u32 q 28 =? ADVC_TRANSPORT_AHARDWAREBUFFER) eqn:Ea; cbn [andb negb] in *; lia.
Qed.

Lemma hands_dequeue p sid :
  hands [] (advc_client_dequeue_output (U := U) p sid) output_fds
    (fun x => fst (fst x) = ADVC_STATUS_OK \/ output_fds x = []).
Proof.
  unfold advc_client_dequeue_output. cbn zeta. destruct (sid =? 0); [hstep; intros ? _; hret; by right|].
  eapply hands_reply; [eauto with hands| |intros reply Ht Hn Hl].
  { intros r reply Hr. replace (r <? 0) with true by lia. hret. by right. }
  cbn -[parse_status_reply output_malformed output_unsound read_output].
  destruct (_ =? ADVC_STATUS_SIZE); [hstep; intros [st d] _; hret; by right|].
  destruct (output_malformed _ _) eqn:Em; [hstep; intros ? _; hret; by right|].
  hstep. intros [] _; [hstep; intros ? _; hret; by right|].
  apply hands_nonneg. intros Hnn. apply hands_ret; [|by left]. apply output_count in Em as [H1 Hb].
  unfold output_fds, read_output. cbn -[advc_get_u32 advc_get_u64].
  destruct (Z.eqb_spec (advc_get_u32 (payload_of reply) 28) ADVC_TRANSPORT_BYTES) as [E|E]; cbn [negb andb].
  - rewrite client_reply_one in Hnn |- * by auto. apply Forall_cons in Hnn as [Hnn _].
    unfold opt_fd. by destruct (Z.leb_spec 0 (fd_at reply 0)); [|lia].
  - destruct (Z.eqb_spec (fd_count (msg_header reply)) 1) as [E1|E1].
    + rewrite client_reply_one in Hnn |- * by auto. apply Forall_cons in Hnn as [Hnn _].
      unfold opt_fd. by destruct (Z.leb_spec 0 (fd_at reply 0)); [|lia].
    + rewrite reply_fds_none by lia. done.
Qed.
End Carried.

(** ** Replies that carry a dma-buf descriptor *)

(** Where the descriptors of a decoded record come from, decoded fully or not. *)
Definition objects_from (fds : list Z) (objs : list advc_dmabuf_object) : Prop :=
  length objs = 4%nat /\ Forall (fun o => o_fd o = -1 \/ o_fd o ∈ fds) objs.

Lemma read_object_from p fds n c acc i :
  match acc with inl objs | inr (_, objs) => objects_from fds objs end ->
  match read_object p fds n c acc i with inl objs | inr (_, objs) => objects_from fds objs end.
Proof.
  destruct acc as [objs|[mask objs]]; [done|]. intros [Hl Hf]. cbn -[advc_get_u32 advc_get_u64 bytes_are_zero].
  repeat match goal with |- context [if ?b then _ else _] => destruct b end; try done.
  split; [by rewrite length_insert|]. apply Forall_insert; [done|]. cbn.
  destruct (fds !! _) eqn:E; cbn; [right; by eapply list_elem_of_lookup_2|by left].
Qed.

Lemma read_objects_from p fds n c l acc :
  match acc with inl objs | inr (_, objs) => objects_from fds objs end ->
  match foldl (read_object p fds n c) acc l with
  | inl objs | inr (_, objs) => objects_from fds objs end.
Proof.
  revert acc. induction l as [|i l IH]; intros acc H; [done|]. cbn [foldl].
  apply IH. by apply read_object_from.
Qed.

Lemma read_registration_from p fds n :
  match read_registration p fds n with inl d | inr d => objects_from fds (d_objects d) end.
Proof.
  assert (objects_from fds (replicate 4 (Obj (-1) 0))) as H0.
  { split; [done|]. apply Forall_replicate. by left. }
  unfold read_registration. cbn zeta. destruct (_ || _); [exact H0|].
  pose proof (read_objects_from p fds n (d_object_count (read_fixed p))
    (seqZ 0 ADVC_MAX_DMABUF_OBJECTS) (inr (0, d_objects (read_fixed p))) H0) as Ho.
  destruct (foldl (read_object _ _ _ _) _ _) as [objs|[mask objs]]; [exact Ho|].
  by destruct (foldl (read_plane _ _) _ _).
Qed.

(** The loop looks only at the descriptors that were received. *)
Lemma read_object_take p fds n c acc i : 0 <= n ->
  read_object p fds n c acc i = read_object p (take (Z.to_nat n) fds) n c acc i.
Proof.
  intros Hn. destruct acc as [objs|[mask objs]]; [done|]. unfold read_object. cbn zeta.
  destruct (i <? c); [|done]. destruct (_ || _) eqn:E; [done|].
  rewrite !orb_false_iff in E. destruct E as [[_ E] _].
  match goal with H : (n <=? ?x) = false |- _ => pose proof (get_u32_range p (96 + i * 16 + 0)) end.
  rewrite lookup_take_lt; [done|]. unfold is_u32 in *. apply Z.leb_gt in E.
  apply Z2Nat.inj_lt; unfold ADVC_REGISTER_DMABUF_OBJECTS_OFFSET, ADVC_REGISTER_DMABUF_OBJECT_STRIDE in *; lia.
Qed.

Lemma read_registration_take p fds n : 0 <= n ->
  read_registration p fds n = read_registration p (take (Z.to_nat n) fds) n.
Proof.
  intros Hn. unfold read_registration. cbn zeta. destruct (_ || _); [done|].
  assert (forall l acc, foldl (read_object p fds n (d_object_count (read_fixed p))) acc l =
    foldl (read_object p (take (Z.to_nat n) fds) n (d_object_count (read_fixed p))) acc l) as ->; [|done].
  induction l as [|i l IH]; intros acc; cbn [foldl]; [done|]. by rewrite IH, <- read_object_take.
Qed.

Section Prime.
Context {U : Type}.
Notation B := (client_statics U).

(** What decoding the descriptor of a reply gives. *)
Definition decoded (reply : advc_message) (x : Z * advc_dmabuf_descriptor) : Prop :=
  objects_from (reply_fds reply) (d_objects (snd x)) /\
  (fst x < 0 \/ (fst x = 0 /\ declared_fds (snd x) ≡ₚ reply_fds reply /\
     d_object_count (snd x) = fd_count (msg_header reply) /\ descriptor_typed (snd x))).

(** What a descriptor handed to the caller is. *)
Definition typed_result (x : Z * advc_dmabuf_descriptor * option Z) : Prop :=
  fst (fst x) = ADVC_STATUS_OK -> descriptor_typed (snd (fst x)).

Lemma blank_typed : descriptor_typed blank_descriptor.
Proof.
  repeat split; try (by unfold is_u64, is_u32; cbn; lia); cbn;
    repeat (apply Forall_cons; split; [by unfold is_u64, is_u32; cbn; lia|]); done.
Qed.

Lemma blank_from fds : objects_from fds (d_objects blank_descriptor).
Proof. split; [done|]. apply (Forall_replicate _ 4 (Obj (-1) 0)). by left. Qed.

Lemma decode_reply reply q n (m : machine B) :
  0 <= fd_count (msg_header reply) <= ADVC_MAX_FDS -> zlen (msg_fds reply) = ADVC_MAX_FDS ->
  decoded reply (fst (advc_dmabuf_registration_decode q n (msg_fds reply)
    (fd_count (msg_header reply)) blank_descriptor m)).
Proof.
  intros Hc Hl. unfold decoded, advc_dmabuf_registration_decode.
  destruct (_ || _); [split; [apply blank_from|by left]|].
  rewrite read_registration_take by apply Hc. fold (reply_fds reply).
  assert (zlen (reply_fds reply) = fd_count (msg_header reply)) as Hz.
  { unfold reply_fds, zlen, ADVC_MAX_FDS in *. rewrite length_take. lia. }
  pose proof (read_registration_from q (reply_fds reply) (fd_count (msg_header reply))) as Hfrom.
  destruct (read_registration q (reply_fds reply) _) as [d|d] eqn:Er; [split; [done|by left]|].
  destruct (read_registration_inv _ _ _ _ Er) as (Hd & Hcount & _).
  unfold advc_dmabuf_descriptor_validate. rewrite !bind_seq. cbn [fst snd gets].
  destruct (descriptor_ok (m_fds m) d) eqn:Eok; [|split; [done|by left]]. cbn [fst snd mret st_ret].
  split; [done|]. right. split; [done|]. apply (descriptor_ok_spec _ _ Hd) in Eok.
  split; [|done]. eapply decoded_fds_perm; [exact Eok|]. by rewrite Hz.
Qed.

(** Closing a descriptor whose files are closed already changes no file. *)
Lemma descriptor_close_closed (d : advc_dmabuf_descriptor) l t (m : machine B) :
  objects_from l (d_objects d) -> (forall fd, fd ∈ l -> t !! fd = None) -> m_fds m = t ->
  m_fds (snd (advc_dmabuf_descriptor_close d m)) = t.
Proof.
  intros [Hlen Hf] Hl Hm. unfold advc_dmabuf_descriptor_close. cbn zeta. rewrite bind_seq.
  cbn [snd mret st_ret].
  assert (forall i, 0 <= i < 4 -> o_fd (object_at d i) = -1 \/ o_fd (object_at d i) ∈ l) as Hobj.
  { intros i Hi. unfold object_at. destruct (lookup_lt_is_Some_2 (d_objects d) (Z.to_nat i)) as [o Ho]; [lia|].
    rewrite Ho. cbn. by apply (Forall_lookup_1 _ _ _ _ Hf Ho). }
  assert (forall is_, Forall (fun i => 0 <= i < 4) is_ -> forall m : machine B, m_fds m = t ->
    m_fds (snd (foldr (fun i k => (if existsb (fun j => o_fd (object_at d j) =? o_fd (object_at d i)) (seqZ 0 i)
      then mret tt else close_if_open (o_fd (object_at d i))) ;; k) (mret tt) is_ m)) = t) as H.
  { induction 1 as [|i is_ Hi His IH]; intros m' Hm'; cbn [foldr]; [done|]. rewrite bind_seq. apply IH.
    destruct (existsb _ _); [done|]. unfold close_if_open.
    destruct (Hobj i Hi) as [-> | Hin]; [done|]. destruct (0 <=? _); [|done].
    unfold sys_close. rewrite Hm', (Hl _ Hin). done. }
  apply H; [|done]. apply Forall_forall. intros i Hi%elem_of_seqZ.
  unfold ADVC_MAX_DMABUF_OBJECTS in *. lia.
Qed.

(** The caller's part of the result. *)
Definition descriptor_fds (x : Z * advc_dmabuf_descriptor * option Z) : list Z :=
  if fst (fst x) =? ADVC_STATUS_OK then declared_fds (snd (fst x)) else [].

Lemma hands_reserve_abandon reply d : zlen (msg_fds reply) = ADVC_MAX_FDS ->
  objects_from (reply_fds reply) (d_objects d) ->
  hands (B := B) (reply_fds reply) (reserve_abandon reply d) descriptor_fds typed_result.
Proof.
  intros Hl Hd. apply hands_keeps. intros t m Hi. unfold reserve_abandon. rewrite !bind_seq. cbn [fst snd mret st_ret].
  pose proof (close_message_installed t reply m Hl Hi) as Hc.
  destruct (quiet_close_message reply m) as (_ & _ & Hs1).
  set (m1 := snd (advc_close_message_fds reply m)) in *.
  destruct (quiet_descriptor_close d m1) as (_ & _ & Hs2).
  assert (m_fds (snd (advc_dmabuf_descriptor_close d m1)) = t) as Hc2.
  { eapply descriptor_close_closed; [exact Hd| |done]. intros fd Hfd. by apply Hi. }
  unfold errno_is, modify. cbn [fst snd set_errno m_fds m_rx].
  split_and!; [by etrans|rewrite Hc2; apply installed_nil|done].
Qed.

(** The last step of both operations: the caller takes the descriptors. *)
Lemma hands_take_descriptor reply d : zlen (msg_fds reply) = ADVC_MAX_FDS ->
  declared_fds d ≡ₚ reply_fds reply -> d_object_count d = fd_count (msg_header reply) ->
  descriptor_typed d ->
  hands (B := B) (reply_fds reply)
    (advc_close_message_fds (disown_fds (d_object_count d) reply) ;;
     mret (ADVC_STATUS_OK, d, Some 0)) descriptor_fds typed_result.
Proof.
  intros Hl Hp Hc Hd. eapply hands_bind; [apply hands_inert, inert_close_taken|].
  - unfold disown_fds, zlen in *. cbn. rewrite length_app, length_replicate, length_drop. lia.
  - unfold reply_fds, disown_fds. cbn. rewrite Hc.
    destruct (Nat.le_gt_cases (Z.to_nat (fd_count (msg_header reply))) (length (msg_fds reply))).
    + rewrite Nat.min_l by done. rewrite take_app_length'; [|by rewrite length_replicate].
      by apply Forall_replicate.
    + rewrite Nat.min_r, drop_ge, app_nil_r by lia. apply Forall_take. by apply Forall_replicate.
  - intros ? _. apply hands_ret; [|by intros _]. unfold descriptor_fds. cbn. by symmetry.
Qed.

Lemma hands_blank (st : Z) (o : option Z) :
  hands (B := B) [] (mret (st, blank_descriptor, o)) descriptor_fds typed_result.
Proof. apply hands_ret; [|intros _; apply blank_typed]. unfold descriptor_fds. by destruct (_ =? _). Qed.

Lemma hands_refused_blank reply : zlen (msg_fds reply) = ADVC_MAX_FDS ->
  hands (B := B) (reply_fds reply) (refuse_reply reply ;; mret (-1, blank_descriptor, None))
    descriptor_fds typed_result.
Proof. intros Hl. hstep. intros ? _. apply hands_blank. Qed.

Lemma hands_transfer_prime p sid id d0 :
  hands (B := B) [] (advc_client_transfer_prime p sid id d0) descriptor_fds typed_result.
Proof.
  unfold advc_client_transfer_prime. cbn zeta. hcase E; [hstep; intros ? _; hret|].
  eapply hands_reply; [eauto with hands| |intros reply Ht Hn Hl].
  { intros r reply Hr. cbn beta iota. replace (r <? 0) with true by lia. apply hands_blank. }
  cbn beta iota zeta. hcase E0; [done|].
  hcase E1; [hstep; intros [st o] _; apply hands_blank|].
  hcase E2; [by apply hands_refused_blank|]. hcase E3; [by apply hands_refused_blank|].
  eapply (hands_bind _ _ _ _ (decoded reply)).
  { apply hands_inert_post; [auto with inert|]. intros m. by apply decode_reply. }
  intros [v d] [_ Hd]. cbn beta iota zeta. hcase E4; [by apply hands_refused_blank|].
  cbn [fst snd] in Hd. destruct Hd as [Hv|(Hv & Hp & Hc & Ht')]; [lia|]. by apply hands_take_descriptor.
Qed.

Lemma hands_reserve_linear p sid pts w h d0 :
  hands (B := B) [] (advc_client_reserve_linear p sid pts w h d0) descriptor_fds typed_result.
Proof.
  unfold advc_client_reserve_linear. cbn zeta. hcase E; [hstep; intros ? _; hret|].
  eapply hands_reply; [eauto with hands| |intros reply Ht Hn Hl].
  { intros r reply Hr. cbn beta iota. replace (r <? 0) with true by lia. apply hands_blank. }
  cbn beta iota zeta. hcase E0; [done|].
  hcase E1; [hstep; intros [st o] _; apply hands_blank|].
  hcase E2; [by apply hands_refused_blank|].
  hcase E3; [apply hands_reserve_abandon; [done|apply blank_from]|].
  eapply (hands_bind _ _ _ _ (decoded reply)).
  { apply hands_inert_post; [auto with inert|]. intros m. by apply decode_reply. }
  intros [v d] [Hf Hd]. cbn beta iota zeta. hcase E4; [by apply hands_reserve_abandon|].
  cbn [fst snd] in Hd. destruct Hd as [Hv|(Hv & Hp & Hc & Ht')]; [lia|]. by apply hands_take_descriptor.
Qed.
End Prime.

(** ** All operations *)

Section AllCalls.
Context {U : Type}.
Notation B := (client_statics U).
Context (send_buffer : Z -> St (machine B) Z) (receive_buffer : St (machine B) (Z * Z)).

(** The calls of client.h on a connected socket. *)
Inductive client_call :=
  | CHello (features : Z)
  | CQuery
  | CCreate (c : advc_client_session_config)
  | CFlush (sid : Z)
  | CClose (sid : Z)
  | CQueueInput (sid : Z) (i : advc_client_input)
  | CDequeue (sid : Z)
  | CRelease (sid id fence : Z)
  | CSubmitAhb (sid : Z) (i : advc_client_ahb_input)
  | CTransferAhb (sid id : Z)
  | CRegister (sid : Z) (d : option advc_dmabuf_descriptor)
  | CUnregister (sid id : Z)
  | CQueueDmabuf (sid : Z) (s : option advc_dmabuf_submission)
  | CCompleteDmabuf (sid id : Z)
  | CTransferPrime (sid id : Z) (d : advc_dmabuf_descriptor)
  | CReserveLinear (sid pts w h : Z) (d : advc_dmabuf_descriptor).

(** A call with the stack buffer [p]: its result and the descriptors it returns
    to its caller. *)
Definition client_run (p : list Z) (c : client_call) : St (machine B) (Z * list Z) :=
  let none {A} (x : Z * A) : St (machine B) (Z * list Z) := mret (fst x, []) in
  match c with
  | CHello f => x ← advc_client_hello p f; none x
  | CQuery => x ← advc_client_query_capabilities p; none x
  | CCreate c => x ← advc_client_create_session p c; none (fst x)
  | CFlush sid => x ← advc_client_flush p sid; none x
  | CClose sid => x ← advc_client_close_session p sid; none x
  | CQueueInput sid i => x ← advc_client_queue_input p sid i; none x
  | CDequeue sid => x ← advc_client_dequeue_output p sid; mret (fst (fst x), output_fds x)
  | CRelease sid id f => x ← advc_client_release_output_fenced p sid id f; none x
  | CSubmitAhb sid i =>
      x ← advc_client_submit_ahb p sid i send_buffer; mret (fst (fst x), fence_fds x)
  | CTransferAhb sid id => x ← advc_client_transfer_ahb p sid id receive_buffer; none (fst x)
  | CRegister sid d => x ← advc_client_register_dmabuf p sid d; none x
  | CUnregister sid id => x ← advc_client_unregister_dmabuf p sid id; none x
  | CQueueDmabuf sid s => x ← advc_client_queue_dmabuf p sid s; none x
  | CCompleteDmabuf sid id =>
      x ← advc_client_complete_dmabuf p sid id; mret (fst (fst x), fence_fds x)
  | CTransferPrime sid id d =>
      x ← advc_client_transfer_prime p sid id d; mret (fst (fst x), descriptor_fds x)
  | CReserveLinear sid pts w h d =>
      x ← advc_client_reserve_linear p sid pts w h d; mret (fst (fst x), descriptor_fds x)
  end.

(** A client program: calls with the buffer contents each of them finds. *)
Fixpoint client_program (cs : list (list Z * client_call)) : St (machine B) (list Z) :=
  match cs with
  | [] => mret []
  | (p, c) :: cs => x ← client_run p c; rest ← client_program cs; mret (snd x ++ rest)
  end.

Context (Hsend : forall nb l, hands l (send_buffer nb) (fun _ => l) (fun _ => True)).
Context (Hrecv : forall l, hands l receive_buffer (fun _ => l) (fun _ => True)).

Lemma hands_result {A} (c : St (machine B) A) (F : A -> list Z) (Q : A -> Prop) (k : A -> Z * list Z) :
  hands [] c F Q -> (forall a, snd (k a) = F a) ->
  hands [] (x ← c; mret (k x)) snd (fun _ => True).
Proof.
  intros Hc Hk. eapply hands_bind; [exact Hc|]. intros a _. apply hands_ret; [by rewrite Hk|done].
Qed.

Lemma hands_client_run p c : hands [] (client_run p c) snd (fun _ => True).
Proof.
  destruct c; cbn [client_run]; eapply hands_result; try done;
    eauto using hands_hello, hands_query, hands_create, hands_queue_input, hands_dequeue,
      hands_release_fenced, hands_submit_ahb, hands_transfer_ahb, hands_register,
      hands_unregister, hands_queue_dmabuf, hands_complete_dmabuf, hands_transfer_prime,
      hands_reserve_linear, hands_session_status.
Qed.

Lemma hands_frame {A} l (c : St (machine B) A) F Q :
  hands [] c F Q -> hands l c (fun a => l ++ F a) Q.
Proof. intros Hc. rewrite <- (app_nil_r l) at 1. by apply hands_under. Qed.

Lemma hands_client_program cs l :
  hands l (client_program cs) (fun fds => l ++ fds) (fun _ => True).
Proof.
  revert l. induction cs as [|[p c] cs IH]; intros l; cbn [client_program].
  - apply hands_ret; [by rewrite app_nil_r|done].
  - eapply hands_bind; [apply hands_frame, hands_client_run|]. intros x _.
    eapply hands_bind; [apply IH|]. intros rest _. apply hands_ret; [by rewrite app_assoc|done].
Qed.
End AllCalls.

(** ** Properties *)

(** C16. The client owns exactly the descriptors it is given.  For every sequence of
    calls of client.h, whatever bytes and descriptors the peer answers with and
    whatever the stack buffers held, the descriptor table at the end is the one at
    the start with exactly the descriptors the calls returned added, and those the
    receiver loses because they come with a record without bytes: no more than the
    records taken from the socket carry that way, none if there is no such record.
    An error, a refused reply and a malformed payload leave nothing open, and a
    result closes nothing else.  The two functions that pass a native buffer over
    the socket are parameters, assumed to leave the descriptors alone, and a record
    carries at most the eight descriptors the control buffer has room for. *)
Theorem client_owns_results {U : Type} (send_buffer : Z -> St (machine (client_statics U)) Z)
    (receive_buffer : St (machine (client_statics U)) (Z * Z)) cs m :
  (forall nb l, hands l (send_buffer nb) (fun _ => l) (fun _ => True)) ->
  (forall l, hands l receive_buffer (fun _ => l) (fun _ => True)) ->
  fits m ->
  let x := client_program send_buffer receive_buffer cs m in
  exists got lost t', m_rx m = got ++ m_rx (snd x) /\ (length lost <= hidden got)%nat /\
    installed (m_fds m) t' lost /\ installed t' (m_fds (snd x)) (fst x).
Proof.
  intros Hs Hr Hm. cbn zeta.
  destruct (hands_client_program send_buffer receive_buffer Hs Hr cs [] (m_fds m) m Hm (installed_nil _))
    as (got & lost & t' & ? & ? & ? & ? & _). by exists got, lost, t'.
Qed.

(** A client that dequeues a hardware buffer with its fence, then gets a reply of
    the wrong size with a descriptor, which is closed. *)
Definition ready_payload : list Z :=
  advc_put_u32 (advc_put_u32 (advc_put_u32 (advc_put_u32 (advc_put_u64 (zeros ADVC_OUTPUT_READY_SIZE)
    0 77) 28 ADVC_TRANSPORT_AHARDWAREBUFFER) 32 64) 36 64) 108 ADVC_FD_ACQUIRE_FENCE.
Definition ready_record (rid : Z) : rx_event :=
  RxRecord (header_store (replicate 32 0)
    (Header ADVC_VERSION_MAJOR ADVC_VERSION_MINOR ADVC_MSG_REPLY ADVC_OP_DEQUEUE_OUTPUT rid 3 0
       ADVC_OUTPUT_READY_SIZE 1 0) ++ ready_payload) false [ScmRights [KSyncFile]].
Definition odd_record (rid : Z) : rx_event :=
  RxRecord (header_store (replicate 32 0)
    (Header ADVC_VERSION_MAJOR ADVC_VERSION_MINOR ADVC_MSG_REPLY ADVC_OP_FLUSH rid 3 0 4 1 0)
    ++ [1; 0; 0; 0]) false [ScmRights [KOther]].
Definition dequeue_process : machine (client_statics unit) :=
  Machine (Statics 5 tt) {[ 0 := FdInfo true KOther ]} 64 0 [] [ready_record 5; odd_record 6] [] [] [].
Definition no_send (_ : Z) : St (machine (client_statics unit)) Z := mret 0.
Definition no_receive : St (machine (client_statics unit)) (Z * Z) := mret (0, 0).
Definition dequeue_calls : list (list Z * client_call) :=
  [(replicate 136 9, CDequeue 3); (replicate 8 9, CFlush 3)].

(** After the wrong reply a record comes that has a descriptor and no bytes. *)
Definition losing_process : machine (client_statics unit) :=
  set_rx [ready_record 5; odd_record 6; RxRecord [] false [ScmRights [KDmaBuf 8]]] dequeue_process.
Definition losing_calls : list (list Z * client_call) := dequeue_calls ++ [(replicate 8 9, CFlush 3)].

Lemma client_owns_results_witness :
  let x := client_program no_send no_receive losing_calls losing_process in
  fst x = [1] /\ m_fds (snd x) !! 2 = Some (FdInfo true (KDmaBuf 8)) /\
  exists got lost t', m_rx losing_process = got ++ m_rx (snd x) /\ (length lost <= hidden got)%nat /\
    installed (m_fds losing_process) t' lost /\ installed t' (m_fds (snd x)) (fst x).
Proof.
  cbn zeta. split; [vm_compute; reflexivity|]. split; [vm_compute; reflexivity|].
  apply (client_owns_results no_send no_receive losing_calls losing_process).
  - intros nb l. by apply hands_ret.
  - intros l. by apply hands_ret.
  - repeat constructor; cbn; lia.
Defined.

(** ** A descriptor closed twice *)

(** [advc_client_reserve_linear] closes a refused reply's descriptors and then the
    same numbers again as those of the decoded descriptor.  A number another thread
    got in between is closed under it. *)
Definition abandoned_reply : advc_message :=
  Message (Header ADVC_VERSION_MAJOR ADVC_VERSION_MINOR ADVC_MSG_REPLY ADVC_OP_RESERVE_LINEAR 5 3 0
    ADVC_RESERVE_LINEAR_REPLY_SIZE 1 0) (Some []) 0 (5 :: replicate 7 (-1)).
Definition abandoned_descriptor : advc_dmabuf_descriptor :=
  Desc 1 64 64 DRM_FORMAT_NV12 0 0 0 0 64 64 1 2 0 0 0 0 0 0
    (Obj 5 6144 :: replicate 3 (Obj (-1) 0)) (replicate 4 zero_plane).
Definition abandon_table : gmap Z fd_info :=
  list_to_map ((fun fd => (fd, FdInfo true KOther)) <$> [0; 1; 2; 3; 4; 5]).

Lemma reserve_abandon_closes_twice :
  let m : machine (client_statics unit) := Machine (Statics 5 tt) abandon_table 64 0 [] [] [] [] [] in
  let m1 := snd (advc_close_message_fds abandoned_reply m) in
  let '(fd, m2) := install_fd (FdInfo true KSyncFile) m1 in
  fd = 5 /\ m_fds m2 !! fd = Some (FdInfo true KSyncFile) /\
  m_fds (snd (advc_dmabuf_descriptor_close abandoned_descriptor m2)) !! fd = None.
Proof. vm_compute. repeat split. Qed.
