(* ===== verification/VaapiPolicy.v ===== *)
(** * Which profiles the VA-API driver offers

    The policy that turns the broker's capabilities into advertised profiles
    (src/src/vaapi_advc/advc_vaapi_policy.c) and the preflight check a session runs
    before it enables a profile (advc_vaapi_preflight.c). *)

From stdpp Require Import base list.
From Stdlib Require Import ZArith Lia Bool Ascii String.
#[local] Notation length := List.length.
From S2P Require Import Prelude Kernel Protocol Policy Dmabuf Engine Broker Client.

(** ** Data *)

Definition ADVC_VAAPI_CODEC_H264 : Z := Z.shiftl 1 0.
Definition ADVC_VAAPI_CODEC_HEVC_MAIN : Z := Z.shiftl 1 1.
Definition ADVC_VAAPI_CODEC_VP9_PROFILE0 : Z := Z.shiftl 1 2.

Definition AVC_TOKEN : string := "validated-v1".
Definition HEVC_TOKEN : string := "validated-main-inter-prime-eos-120of120-v1".
Definition VP9_TOKEN : string := "validated-profile0-inter-prime-eos-120of120-v1".

Definition MIME_VP9 : list Z := bytes_of "video/x-vnd.on2.vp9"%string.

(** The size limits and the component name kept for one codec. *)
Record codec_limits := Limits { cl_max_width : Z; cl_max_height : Z; cl_name : list Z }.
Definition no_limits : codec_limits := Limits 0 0 (zeros ADVC_MAX_CODEC_NAME).

Record advc_vaapi_policy := VaPolicy {
  vp_broker_codecs : Z; vp_advertised_codecs : Z;
  vp_h264 : codec_limits; vp_hevc : codec_limits; vp_vp9 : codec_limits }.

(** The profiles the code distinguishes; every other VAProfile is [VAProfileOther]. *)
Inductive va_profile :=
  | VAProfileH264ConstrainedBaseline | VAProfileH264Main | VAProfileHEVCMain
  | VAProfileVP9Profile0 | VAProfileOther.

(** ** The policy *)

Definition merge_dimensions (c : advc_codec_capability) (l : codec_limits) : codec_limits :=
  Limits (if cl_max_width l <? cap_max_width c then cap_max_width c else cl_max_width l)
    (if cl_max_height l <? cap_max_height c then cap_max_height c else cl_max_height l) (cl_name l).

(** [token = None] is NULL. *)
Definition advc_vaapi_validation_token_matches (codec_bit : Z) (token : option string) : bool :=
  let expected :=
    if codec_bit =? ADVC_VAAPI_CODEC_H264 then Some AVC_TOKEN
    else if codec_bit =? ADVC_VAAPI_CODEC_HEVC_MAIN then Some HEVC_TOKEN
    else if codec_bit =? ADVC_VAAPI_CODEC_VP9_PROFILE0 then Some VP9_TOKEN
    else None in
  match expected, token with Some e, Some t => String.eqb t e | _, _ => false end.

Definition advc_vaapi_validation_mask (avc hevc vp9 : option string) : Z :=
  let mask := 0 in
  let mask := if advc_vaapi_validation_token_matches ADVC_VAAPI_CODEC_H264 avc
              then Z.lor mask ADVC_VAAPI_CODEC_H264 else mask in
  let mask := if advc_vaapi_validation_token_matches ADVC_VAAPI_CODEC_HEVC_MAIN hevc
              then Z.lor mask ADVC_VAAPI_CODEC_HEVC_MAIN else mask in
  if advc_vaapi_validation_token_matches ADVC_VAAPI_CODEC_VP9_PROFILE0 vp9
  then Z.lor mask ADVC_VAAPI_CODEC_VP9_PROFILE0 else mask.

(** A C string in an array, as a string. *)
Definition text (p : list Z) : string :=
  string_of_list_ascii ((fun b => ascii_of_nat (Z.to_nat b)) <$> cstring p).

Definition hardware_component_is_exact (c : advc_codec_capability) : bool :=
  negb (default 0 (cap_codec_name c !! 0%nat) =? 0) &&
  existsb (fun b => b =? 0) (cap_codec_name c) &&
  (CodecDiscovery.advc_classify_codec_component (Some (text (cap_codec_name c))) =?
   CodecDiscovery.ADVC_ACCELERATION_HARDWARE).

Definition retain_selected_name (source : list Z) (l : codec_limits) : codec_limits :=
  if negb (default 0 (cl_name l !! 0%nat) =? 0) then l
  else Limits (cl_max_width l) (cl_max_height l)
         (resize (Z.to_nat (ADVC_MAX_CODEC_NAME - 1)) 0 (cstring source) ++ [0]).

(** One matching entry. *)
Definition take_codec (c : advc_codec_capability) (l : codec_limits) : codec_limits :=
  retain_selected_name (cap_codec_name c) (merge_dimensions c l).

Definition policy_step (p : advc_vaapi_policy) (c : advc_codec_capability) : advc_vaapi_policy :=
  if negb (cap_direction c =? ADVC_DIRECTION_DECODE) ||
     negb (cap_acceleration c =? CodecDiscovery.ADVC_ACCELERATION_HARDWARE) ||
     negb (cap_secure_playback c =? 0) || negb (hardware_component_is_exact c)
  then p
  else if str_eq (cstring (cap_mime c)) MIME_AVC then
    VaPolicy (Z.lor (vp_broker_codecs p) ADVC_VAAPI_CODEC_H264) (vp_advertised_codecs p)
      (take_codec c (vp_h264 p)) (vp_hevc p) (vp_vp9 p)
  else if str_eq (cstring (cap_mime c)) MIME_HEVC then
    VaPolicy (Z.lor (vp_broker_codecs p) ADVC_VAAPI_CODEC_HEVC_MAIN) (vp_advertised_codecs p)
      (vp_h264 p) (take_codec c (vp_hevc p)) (vp_vp9 p)
  else if str_eq (cstring (cap_mime c)) MIME_VP9 then
    VaPolicy (Z.lor (vp_broker_codecs p) ADVC_VAAPI_CODEC_VP9_PROFILE0) (vp_advertised_codecs p)
      (vp_h264 p) (vp_hevc p) (take_codec c (vp_vp9 p))
  else p.

(** The bounded default for a decoder without size metadata. *)
Definition bound_missing (codecs bit : Z) (l : codec_limits) : codec_limits :=
  if negb (Z.land codecs bit =? 0) && ((cl_max_width l =? 0) || (cl_max_height l =? 0))
  then Limits 8192 8192 (cl_name l) else l.

Definition empty_policy : advc_vaapi_policy := VaPolicy 0 0 no_limits no_limits no_limits.

(** The errno, or the policy. *)
Definition advc_vaapi_policy_from_capabilities (caps : option advc_capability_set) (ready : Z)
    : Z + advc_vaapi_policy :=
  match caps with
  | None => inl EINVAL
  | Some caps =>
      if ADVC_MAX_CAPABILITIES <? caps_count caps then inl EINVAL
      else if (Z.land (caps_transport_features caps) ADVC_FEATURE_DECODE =? 0) ||
              (Z.land (caps_transport_features caps) ADVC_FEATURE_DECODE_PRIME =? 0)
      then inr empty_policy
      else
        let p := fold_left policy_step (take (Z.to_nat (caps_count caps)) (caps_codecs caps)) empty_policy in
        let b := vp_broker_codecs p in
        inr (VaPolicy b (Z.land b ready)
               (bound_missing b ADVC_VAAPI_CODEC_H264 (vp_h264 p))
               (bound_missing b ADVC_VAAPI_CODEC_HEVC_MAIN (vp_hevc p))
               (bound_missing b ADVC_VAAPI_CODEC_VP9_PROFILE0 (vp_vp9 p)))
  end.

Definition advc_vaapi_policy_profile_advertised (p : option advc_vaapi_policy) (profile : va_profile) : bool :=
  match p with
  | None => false
  | Some p =>
      match profile with
      | VAProfileH264ConstrainedBaseline | VAProfileH264Main =>
          negb (Z.land (vp_advertised_codecs p) ADVC_VAAPI_CODEC_H264 =? 0)
      | VAProfileHEVCMain => negb (Z.land (vp_advertised_codecs p) ADVC_VAAPI_CODEC_HEVC_MAIN =? 0)
      | VAProfileVP9Profile0 => negb (Z.land (vp_advertised_codecs p) ADVC_VAAPI_CODEC_VP9_PROFILE0 =? 0)
      | VAProfileOther => false
      end
  end.

(** ** Preflight *)

Record advc_vaapi_preflight_result := Preflight {
  pf_codec_bit : Z; pf_max_width : Z; pf_max_height : Z; pf_codec_name : list Z }.

Definition EACCES : Z := 13.

Definition profile_codec_bit (profile_name : option string) : option Z :=
  match profile_name with
  | None => None
  | Some n =>
      if String.eqb n "hevc-main" then Some ADVC_VAAPI_CODEC_HEVC_MAIN
      else if String.eqb n "vp9-profile0" then Some ADVC_VAAPI_CODEC_VP9_PROFILE0
      else None
  end.

Definition advc_vaapi_preflight_evaluate (caps : option advc_capability_set) (hello_features : Z)
    (profile_name token : option string) : Z + advc_vaapi_preflight_result :=
  match caps, profile_codec_bit profile_name with
  | Some caps, Some bit =>
      if ADVC_MAX_CAPABILITIES <? caps_count caps then inl EINVAL
      else if negb (advc_vaapi_validation_token_matches bit token) then inl EACCES
      else
        let authoritative :=
          Capabilities (caps_api_level caps) (caps_count caps) hello_features (caps_codecs caps) in
        match advc_vaapi_policy_from_capabilities (Some authoritative) bit with
        | inl e => inl e
        | inr policy =>
            if Z.land (vp_advertised_codecs policy) bit =? 0 then inl ENOTSUP
            else
              let l := if bit =? ADVC_VAAPI_CODEC_HEVC_MAIN then vp_hevc policy else vp_vp9 policy in
              let n := zlen (cstring (cl_name l)) in
              if (n =? 0) || (ADVC_MAX_CODEC_NAME <=? n) then inl ENOTSUP
              else inr (Preflight bit (cl_max_width l) (cl_max_height l)
                          (resize (Z.to_nat ADVC_MAX_CODEC_NAME) 0 (take (Z.to_nat n) (cl_name l))))
        end
  | _, _ => inl EINVAL
  end.

(** ** The reference: what the capabilities say *)

(** [c] is a plain hardware decoder for [mime] with a vendor component name. *)
Definition decoder (mime : list Z) (c : advc_codec_capability) : bool :=
  (cap_direction c =? ADVC_DIRECTION_DECODE) &&
  (cap_acceleration c =? CodecDiscovery.ADVC_ACCELERATION_HARDWARE) &&
  (cap_secure_playback c =? 0) && hardware_component_is_exact c && str_eq (cstring (cap_mime c)) mime.

Definition decoders (mime : list Z) (caps : advc_capability_set) : list advc_codec_capability :=
  if (Z.land (caps_transport_features caps) ADVC_FEATURE_DECODE =? 0) ||
     (Z.land (caps_transport_features caps) ADVC_FEATURE_DECODE_PRIME =? 0)
  then [] else filter (fun c => decoder mime c = true) (take (Z.to_nat (caps_count caps)) (caps_codecs caps)).

(** The largest width and the largest height of the decoders, 8192 by 8192 when
    one of them is missing, and the name of the first. *)
Definition limits_of (ds : list advc_codec_capability) : codec_limits :=
  match ds with
  | [] => no_limits
  | d :: _ =>
      let w := foldr Z.max 0 (cap_max_width <$> ds) in
      let h := foldr Z.max 0 (cap_max_height <$> ds) in
      let name := resize 127 0 (cstring (cap_codec_name d)) ++ [0] in
      if (w =? 0) || (h =? 0) then Limits 8192 8192 name else Limits w h name
  end.

Definition bit_if (bit : Z) (ds : list advc_codec_capability) : Z :=
  match ds with [] => 0 | _ => bit end.

Definition policy_spec (caps : advc_capability_set) (ready : Z) : advc_vaapi_policy :=
  let avc := decoders MIME_AVC caps in
  let hevc := decoders MIME_HEVC caps in
  let vp9 := decoders MIME_VP9 caps in
  let codecs := bit_if 1 avc + bit_if 2 hevc + bit_if 4 vp9 in
  VaPolicy codecs (Z.land codecs ready) (limits_of avc) (limits_of hevc) (limits_of vp9).

(** ** The scan computes the reference *)

Definition mask_of (l : list advc_codec_capability) : Z :=
  bit_if 1 (filter (fun c => decoder MIME_AVC c = true) l) +
  bit_if 2 (filter (fun c => decoder MIME_HEVC c = true) l) +
  bit_if 4 (filter (fun c => decoder MIME_VP9 c = true) l).

(** An entry has one MIME type. *)
Lemma decoder_disjoint m1 m2 c : m1 <> m2 -> decoder m1 c = true -> decoder m2 c = false.
Proof.
  intros Hne. unfold decoder, str_eq. intros [_ H1%bool_decide_eq_true]%andb_true_iff.
  rewrite bool_decide_eq_false_2 by congruence. by rewrite andb_false_r.
Qed.
Lemma decoder_avc c : decoder MIME_AVC c = true -> decoder MIME_HEVC c = false /\ decoder MIME_VP9 c = false.
Proof. intros H. split; (eapply decoder_disjoint; [|exact H]); discriminate. Qed.
Lemma decoder_hevc c : decoder MIME_HEVC c = true -> decoder MIME_VP9 c = false.
Proof. intros H. eapply decoder_disjoint; [|exact H]. discriminate. Qed.

Lemma mask_of_cons c l :
  mask_of (c :: l) =
    Z.lor (if decoder MIME_AVC c then 1 else if decoder MIME_HEVC c then 2 else
           if decoder MIME_VP9 c then 4 else 0) (mask_of l).
Proof.
  assert (forall m b l, bit_if b (filter (fun c => decoder m c = true) (c :: l)) =
    if decoder m c then b else bit_if b (filter (fun c => decoder m c = true) l)) as Hc.
  { intros m b l'. rewrite filter_cons. by destruct (decoder m c) eqn:E; [rewrite decide_True|rewrite decide_False]. }
  unfold mask_of. rewrite !Hc.
  assert (forall b l, bit_if b l = 0 \/ bit_if b l = b) as Hb by (by intros b [|? ?]; [left|right]).
  destruct (Hb 1 (filter (fun c => decoder MIME_AVC c = true) l)) as [-> | ->],
    (Hb 2 (filter (fun c => decoder MIME_HEVC c = true) l)) as [-> | ->],
    (Hb 4 (filter (fun c => decoder MIME_VP9 c = true) l)) as [-> | ->];
  (destruct (decoder MIME_AVC c) eqn:Ea; [rewrite (proj1 (decoder_avc c Ea)), (proj2 (decoder_avc c Ea))|
   destruct (decoder MIME_HEVC c) eqn:Eh; [rewrite (decoder_hevc c Eh)|destruct (decoder MIME_VP9 c)]]);
  reflexivity.
Qed.

Definition fold_codec (ds : list advc_codec_capability) (l : codec_limits) : codec_limits :=
  fold_left (fun l c => take_codec c l) ds l.

Lemma policy_step_eq p c :
  policy_step p c =
    if decoder MIME_AVC c then VaPolicy (Z.lor (vp_broker_codecs p) 1) (vp_advertised_codecs p)
      (take_codec c (vp_h264 p)) (vp_hevc p) (vp_vp9 p)
    else if decoder MIME_HEVC c then VaPolicy (Z.lor (vp_broker_codecs p) 2) (vp_advertised_codecs p)
      (vp_h264 p) (take_codec c (vp_hevc p)) (vp_vp9 p)
    else if decoder MIME_VP9 c then VaPolicy (Z.lor (vp_broker_codecs p) 4) (vp_advertised_codecs p)
      (vp_h264 p) (vp_hevc p) (take_codec c (vp_vp9 p))
    else p.
Proof.
  unfold policy_step, decoder. rewrite <- !negb_andb. by destruct (_ && _ && _ && _).
Qed.

Lemma fold_policy l p :
  fold_left policy_step l p =
    VaPolicy (Z.lor (vp_broker_codecs p) (mask_of l)) (vp_advertised_codecs p)
      (fold_codec (filter (fun c => decoder MIME_AVC c = true) l) (vp_h264 p))
      (fold_codec (filter (fun c => decoder MIME_HEVC c = true) l) (vp_hevc p))
      (fold_codec (filter (fun c => decoder MIME_VP9 c = true) l) (vp_vp9 p)).
Proof.
  revert p. induction l as [|c l IH]; intros p; cbn [fold_left].
  { rewrite Z.lor_0_r. by destruct p. }
  rewrite IH, mask_of_cons, Z.lor_assoc, policy_step_eq, !filter_cons.
  destruct (decoder MIME_AVC c) eqn:Ea; [rewrite (proj1 (decoder_avc c Ea)), (proj2 (decoder_avc c Ea)); done|].
  destruct (decoder MIME_HEVC c) eqn:Eh; [rewrite (decoder_hevc c Eh); done|].
  destruct (decoder MIME_VP9 c); [done|]. by rewrite Z.lor_0_r.
Qed.

Lemma foldr_max_base (l : list Z) w x : foldr Z.max (Z.max w x) l = Z.max x (foldr Z.max w l).
Proof. induction l as [|y l IH]; cbn; [lia|]. rewrite IH. lia. Qed.

Lemma take_codec_kept c w h name : default 0 (name !! 0%nat) <> 0 ->
  take_codec c (Limits w h name) = Limits (Z.max w (cap_max_width c)) (Z.max h (cap_max_height c)) name.
Proof.
  intros Hn. unfold take_codec, retain_selected_name, merge_dimensions. cbn [cl_name cl_max_width cl_max_height].
  destruct (Z.eqb_spec (default 0 (name !! 0%nat)) 0); [done|]. cbn [negb].
  destruct (Z.ltb_spec w (cap_max_width c)), (Z.ltb_spec h (cap_max_height c)); f_equal; lia.
Qed.

Lemma fold_codec_kept ds w h name : default 0 (name !! 0%nat) <> 0 ->
  fold_codec ds (Limits w h name) =
    Limits (foldr Z.max w (cap_max_width <$> ds)) (foldr Z.max h (cap_max_height <$> ds)) name.
Proof.
  intros Hn. revert w h. induction ds as [|c ds IH]; intros w h; [done|]. unfold fold_codec. cbn [fold_left].
  rewrite take_codec_kept by done. fold (fold_codec ds (Limits (Z.max w (cap_max_width c)) (Z.max h (cap_max_height c)) name)).
  rewrite IH. cbn. by rewrite !foldr_max_base.
Qed.

(** The name of a decoder is kept and is not empty. *)
Lemma decoder_name mime c : decoder mime c = true ->
  exists b rest, b <> 0 /\ resize (Z.to_nat (ADVC_MAX_CODEC_NAME - 1)) 0 (cstring (cap_codec_name c)) = b :: rest.
Proof.
  unfold decoder, hardware_component_is_exact. rewrite !andb_true_iff, negb_true_iff, Z.eqb_neq.
  intros [[_ [[Hn _] _]] _]. destruct (cap_codec_name c) as [|b l]; [done|]. cbn in Hn |- *.
  destruct (Z.eqb_spec b 0); [done|]. exists b. by eexists.
Qed.

Lemma fold_codec_spec mime ds : Forall (fun c => decoder mime c = true) ds ->
  Forall (fun c => 0 <= cap_max_width c /\ 0 <= cap_max_height c) ds ->
  fold_codec ds no_limits =
    match ds with
    | [] => no_limits
    | d :: _ => Limits (foldr Z.max 0 (cap_max_width <$> ds)) (foldr Z.max 0 (cap_max_height <$> ds))
                  (resize 127 0 (cstring (cap_codec_name d)) ++ [0])
    end.
Proof.
  intros Hd Hn. destruct ds as [|d ds]; [done|]. inversion Hd as [|?? Hdd _]; inversion Hn as [|?? [Hw Hh] _]; subst.
  destruct (decoder_name mime d Hdd) as (b & rest & Hb & Hr).
  unfold fold_codec. cbn [fold_left]. unfold take_codec at 2, retain_selected_name.
  change (default 0 (cl_name (merge_dimensions d no_limits) !! 0%nat)) with 0. cbn [Z.eqb negb].
  rewrite Hr. match goal with |- fold_left _ ds ?l = _ => change (fold_codec ds l = Limits (Z.max (cap_max_width d) (foldr Z.max 0 (cap_max_width <$> ds))) (Z.max (cap_max_height d) (foldr Z.max 0 (cap_max_height <$> ds))) ((resize 127 0 (cstring (cap_codec_name d))) ++ [0])) end.
  change 127%nat with (Z.to_nat (ADVC_MAX_CODEC_NAME - 1)). rewrite Hr.
  rewrite fold_codec_kept by done. cbn [merge_dimensions no_limits cl_max_width cl_max_height].
  replace (if 0 <? cap_max_width d then cap_max_width d else 0) with (Z.max 0 (cap_max_width d))
    by (destruct (Z.ltb_spec 0 (cap_max_width d)); lia).
  replace (if 0 <? cap_max_height d then cap_max_height d else 0) with (Z.max 0 (cap_max_height d))
    by (destruct (Z.ltb_spec 0 (cap_max_height d)); lia).
  by rewrite !foldr_max_base.
Qed.

(** The limits of one codec, with the default for missing metadata. *)
Lemma limits_spec mime bit codecs ds : Forall (fun c => decoder mime c = true) ds ->
  Forall (fun c => 0 <= cap_max_width c /\ 0 <= cap_max_height c) ds ->
  (Z.land codecs bit =? 0) = bool_decide (ds = []) ->
  bound_missing codecs bit (fold_codec ds no_limits) = limits_of ds.
Proof.
  intros Hd Hn Hb. rewrite (fold_codec_spec mime) by done. unfold bound_missing, limits_of. rewrite Hb.
  destruct ds as [|d ds]; [done|]. rewrite bool_decide_eq_false_2 by done. cbn [negb andb cl_max_width cl_max_height cl_name].
  by destruct (_ || _).
Qed.

Lemma filter_decoder mime l : Forall (fun c => decoder mime c = true) (filter (fun c => decoder mime c = true) l).
Proof. apply Forall_forall. by intros c [? _]%list_elem_of_filter. Qed.

Lemma mask_bits l :
  (Z.land (mask_of l) 1 =? 0) = bool_decide (filter (fun c => decoder MIME_AVC c = true) l = []) /\
  (Z.land (mask_of l) 2 =? 0) = bool_decide (filter (fun c => decoder MIME_HEVC c = true) l = []) /\
  (Z.land (mask_of l) 4 =? 0) = bool_decide (filter (fun c => decoder MIME_VP9 c = true) l = []).
Proof.
  unfold mask_of. destruct (filter _ l), (filter _ l), (filter _ l); cbn; by split_and!.
Qed.

Definition caps_sized (caps : advc_capability_set) : Prop :=
  Forall (fun c => 0 <= cap_max_width c /\ 0 <= cap_max_height c) (caps_codecs caps).

Lemma policy_reference caps ready : caps_count caps <= ADVC_MAX_CAPABILITIES -> caps_sized caps ->
  advc_vaapi_policy_from_capabilities (Some caps) ready = inr (policy_spec caps ready).
Proof.
  intros Hc Hs. unfold advc_vaapi_policy_from_capabilities, policy_spec, decoders.
  destruct (Z.ltb_spec ADVC_MAX_CAPABILITIES (caps_count caps)); [lia|].
  destruct (_ || _); [reflexivity|]. cbn zeta. f_equal. rewrite fold_policy.
  set (l := take _ (caps_codecs caps)). cbn [vp_broker_codecs vp_h264 vp_hevc vp_vp9 empty_policy].
  change (Z.lor 0 (mask_of l)) with (mask_of l). destruct (mask_bits l) as (H1 & H2 & H3).
  assert (forall m, Forall (fun c => 0 <= cap_max_width c /\ 0 <= cap_max_height c)
    (filter (fun c => decoder m c = true) l)) as Hz.
  { intros m. apply Forall_forall. intros c [_ Hin]%list_elem_of_filter.
    apply (Forall_take _ (Z.to_nat (caps_count caps))) in Hs. fold l in Hs. rewrite Forall_forall in Hs. by apply Hs. }
  f_equal; (eapply limits_spec; [apply filter_decoder|apply Hz|done]).
Qed.

(** *** The bits of the policy *)

Lemma policy_bit caps ready : let p := policy_spec caps ready in
  (Z.land (vp_advertised_codecs p) 1 =? 0) =
    bool_decide (decoders MIME_AVC caps = []) || (Z.land ready 1 =? 0) /\
  (Z.land (vp_advertised_codecs p) 2 =? 0) =
    bool_decide (decoders MIME_HEVC caps = []) || (Z.land ready 2 =? 0) /\
  (Z.land (vp_advertised_codecs p) 4 =? 0) =
    bool_decide (decoders MIME_VP9 caps = []) || (Z.land ready 4 =? 0).
Proof.
  cbn zeta. unfold policy_spec. cbn [vp_advertised_codecs]. set (codecs := bit_if 1 _ + _ + _).
  assert (forall b, Z.land (Z.land codecs ready) b = Z.land (Z.land codecs b) ready) as Hs.
  { intros b. by rewrite <- !Z.land_assoc, (Z.land_comm ready b). }
  rewrite !Hs.
  assert (forall m b, (Z.land codecs b = 0 \/ Z.land codecs b = b) ->
    (Z.land codecs b =? 0) = bool_decide (decoders m caps = []) ->
    (Z.land (Z.land codecs b) ready =? 0) = bool_decide (decoders m caps = []) || (Z.land ready b =? 0)) as H.
  { intros m b [-> | ->] <-; [done|]. destruct (Z.eqb_spec b 0) as [->|]; [done|]. cbn. by rewrite Z.land_comm. }
  split_and!; apply H; unfold codecs;
    destruct (decoders MIME_AVC caps), (decoders MIME_HEVC caps), (decoders MIME_VP9 caps); cbn; auto.
Qed.

(** C35. The policy computes its reference.  For every capability set, the one pass of
    [advc_vaapi_policy_from_capabilities] is the declarative policy: a codec is
    offered exactly when the broker has the decode and PRIME features and lists a
    plain hardware decoder with a vendor component name, and the profile is
    advertised exactly when, besides, its validation bit is set; the size limits are
    the largest the decoders report, 8192 when they report none, and the name is the
    first decoder's. *)
Theorem vaapi_policy_exact caps ready : caps_count caps <= ADVC_MAX_CAPABILITIES -> caps_sized caps ->
  exists p, advc_vaapi_policy_from_capabilities (Some caps) ready = inr p /\ p = policy_spec caps ready /\
  forall profile, advc_vaapi_policy_profile_advertised (Some p) profile =
    match profile with
    | VAProfileH264ConstrainedBaseline | VAProfileH264Main =>
        negb (bool_decide (decoders MIME_AVC caps = [])) && negb (Z.land ready 1 =? 0)
    | VAProfileHEVCMain => negb (bool_decide (decoders MIME_HEVC caps = [])) && negb (Z.land ready 2 =? 0)
    | VAProfileVP9Profile0 => negb (bool_decide (decoders MIME_VP9 caps = [])) && negb (Z.land ready 4 =? 0)
    | VAProfileOther => false
    end.
Proof.
  intros Hc Hs. exists (policy_spec caps ready). split_and!; [by apply policy_reference|done|].
  destruct (policy_bit caps ready) as (H1 & H2 & H3).
  unfold advc_vaapi_policy_profile_advertised. change ADVC_VAAPI_CODEC_H264 with 1.
  change ADVC_VAAPI_CODEC_HEVC_MAIN with 2. change ADVC_VAAPI_CODEC_VP9_PROFILE0 with 4.
  rewrite H1, H2, H3, !negb_orb. done.
Qed.

(** Reading a name back from its array. *)
Lemma cstring_nonzero p : Forall (fun b => b <> 0) (cstring p).
Proof. induction p as [|b p IH]; cbn; [done|]. destruct (Z.eqb_spec b 0); by constructor. Qed.
Lemma cstring_stop l r : Forall (fun b => b <> 0) l -> cstring (l ++ 0 :: r) = l.
Proof. induction 1 as [|b l Hb Hl IH]; cbn; [done|]. destruct (Z.eqb_spec b 0); [done|]. by rewrite IH. Qed.
Lemma cstring_resize n p : cstring (resize n 0 (cstring p) ++ [0]) = take n (cstring p).
Proof.
  destruct (Nat.le_gt_cases n (length (cstring p))) as [Hle|Hgt].
  - rewrite resize_le by done. apply cstring_stop, Forall_take, cstring_nonzero.
  - rewrite resize_ge by lia. rewrite take_ge by lia. rewrite <- app_assoc.
    destruct (n - length (cstring p))%nat eqn:E; [lia|]. cbn [replicate app]. apply cstring_stop, cstring_nonzero.
Qed.

(** Preflight passes exactly the validated profiles the broker can decode.  For
    the profiles hevc-main and vp9-profile0 it succeeds if and only if the token is the
    exact one of the profile, the HELLO features include decode and PRIME and a plain
    vendor decoder is listed; the result then carries that decoder's name and limits.
    A wrong token is EACCES and a missing decoder ENOTSUP. *)
Theorem preflight_exact caps features profile token bit mime :
  caps_count caps <= ADVC_MAX_CAPABILITIES -> caps_sized caps ->
  profile_codec_bit profile = Some bit ->
  mime = (if bit =? ADVC_VAAPI_CODEC_HEVC_MAIN then MIME_HEVC else MIME_VP9) ->
  let ds := decoders mime (Capabilities (caps_api_level caps) (caps_count caps) features (caps_codecs caps)) in
  advc_vaapi_preflight_evaluate (Some caps) features profile token =
    if negb (advc_vaapi_validation_token_matches bit token) then inl EACCES
    else match ds with
         | [] => inl ENOTSUP
         | d :: _ => inr (Preflight bit (cl_max_width (limits_of ds)) (cl_max_height (limits_of ds))
                       (resize 128 0 (take 127 (cstring (cap_codec_name d)))))
         end.
Proof.
  intros Hc Hs Hbit -> ds. unfold advc_vaapi_preflight_evaluate. rewrite Hbit.
  destruct (Z.ltb_spec ADVC_MAX_CAPABILITIES (caps_count caps)); [lia|].
  destruct (negb _); [done|]. cbn zeta.
  set (caps' := Capabilities _ _ _ _) in *. rewrite policy_reference by done.
  destruct (policy_bit caps' bit) as (_ & H2 & H3).
  assert (exists m, ds = decoders m caps' /\
    (Z.land (vp_advertised_codecs (policy_spec caps' bit)) bit =? 0) = bool_decide (ds = []) /\
    (if bit =? ADVC_VAAPI_CODEC_HEVC_MAIN then vp_hevc (policy_spec caps' bit) else vp_vp9 (policy_spec caps' bit))
      = limits_of ds) as (m & Hm & Hb & Hl).
  { unfold profile_codec_bit in Hbit. destruct profile as [n|]; [|done].
    destruct (String.eqb n _); [injection Hbit as <-|destruct (String.eqb n _); [injection Hbit as <-|done]].
    - exists MIME_HEVC. split; [done|]. split; [|done]. change ADVC_VAAPI_CODEC_HEVC_MAIN with 2 in *.
      rewrite H2. change (Z.land 2 2 =? 0) with false. by rewrite orb_false_r.
    - exists MIME_VP9. split; [done|]. split; [|done]. change ADVC_VAAPI_CODEC_VP9_PROFILE0 with 4 in *.
      rewrite H3. change (Z.land 4 4 =? 0) with false. by rewrite orb_false_r. }
  rewrite Hb, Hl. destruct ds as [|d rest] eqn:Hds; [done|]. rewrite bool_decide_eq_false_2 by done.
  assert (cl_name (limits_of (d :: rest)) = resize 127 0 (cstring (cap_codec_name d)) ++ [0]) as Hn
    by (unfold limits_of; cbn zeta; match goal with |- context [if ?b then _ else _] => by destruct b end).
  assert (decoder m d = true) as Hd.
  { assert (d ∈ decoders m caps') as Hin by (rewrite <- Hm; left). unfold decoders in Hin.
    match type of Hin with context [if ?b then _ else _] => destruct b end; [by apply not_elem_of_nil in Hin|]. by apply list_elem_of_filter in Hin as [? _]. }
  destruct (decoder_name m d Hd) as (b & tl & Hb0 & Hr).
  change (Z.to_nat (ADVC_MAX_CODEC_NAME - 1)) with 127%nat in Hr.
  set (name := cl_name _) in *. pose proof (cstring_resize 127 (cap_codec_name d)) as Hcr. rewrite <- Hn in Hcr.
  rewrite Hcr. set (str := take 127 (cstring (cap_codec_name d))) in *.
  assert (0 < zlen str < 128) as Hz.
  { split; [|unfold str, zlen; rewrite length_take; lia]. rewrite <- Hcr, Hn, Hr. cbn.
    destruct (Z.eqb_spec b 0); [done|]. unfold zlen. cbn. lia. }
  destruct (Z.eqb_spec (zlen str) 0); [lia|]. unfold ADVC_MAX_CODEC_NAME.
  destruct (Z.leb_spec 128 (zlen str)); [lia|]. cbn [orb]. do 3 f_equal.
  assert (forall l, take (length (cstring l)) l = cstring l) as Htake.
  { induction l as [|x l IH]; [done|]. cbn. destruct (x =? 0); [done|]. cbn. by rewrite IH. }
  unfold zlen. rewrite Nat2Z.id, <- Hcr. apply Htake.
Qed.

(** ** Instances *)

Definition hevc_decoder : advc_codec_capability :=
  Capability (resize 64 0 MIME_HEVC) (resize 128 0 (bytes_of "c2.qti.hevc.decoder"%string))
    ADVC_DIRECTION_DECODE CodecDiscovery.ADVC_ACCELERATION_HARDWARE 0 0 0 0 0 0.
Definition hevc_caps : advc_capability_set :=
  Capabilities 34 1 (Z.lor ADVC_FEATURE_DECODE ADVC_FEATURE_DECODE_PRIME)
    (hevc_decoder :: replicate 31 zero_capability).

Lemma hevc_caps_sized : caps_sized hevc_caps.
Proof. constructor; [cbn; lia|]. apply Forall_replicate. cbn. lia. Qed.

Lemma vaapi_policy_exact_witness :
  exists p, advc_vaapi_policy_from_capabilities (Some hevc_caps) 2 = inr p /\
    advc_vaapi_policy_profile_advertised (Some p) VAProfileHEVCMain = true /\
    advc_vaapi_policy_profile_advertised (Some p) VAProfileH264Main = false.
Proof.
  destruct (vaapi_policy_exact hevc_caps 2) as (p & Hp & _ & Hadv).
  - vm_compute. discriminate.
  - apply hevc_caps_sized.
  - exists p. split; [exact Hp|]. rewrite !Hadv. split; vm_compute; reflexivity.
Defined.

Lemma preflight_exact_witness :
  advc_vaapi_preflight_evaluate (Some hevc_caps) (caps_transport_features hevc_caps)
    (Some "hevc-main"%string) (Some HEVC_TOKEN) =
  inr (Preflight 2 8192 8192 (resize 128 0 (bytes_of "c2.qti.hevc.decoder"%string))).
Proof.
  etransitivity.
  - apply (preflight_exact hevc_caps (caps_transport_features hevc_caps) (Some "hevc-main"%string)
      (Some HEVC_TOKEN) ADVC_VAAPI_CODEC_HEVC_MAIN MIME_HEVC).
    + vm_compute. discriminate.
    + apply hevc_caps_sized.
    + reflexivity.
    + reflexivity.
  - vm_compute. reflexivity.
Defined.
