(* ===== verification/ClientBroker.v ===== *)
(** * The client and the broker together

    The client of Client.v and the round of Broker.v at the two ends of one
    connection: the record the client sends is the one the broker receives, and
    the broker's reply is the one the client receives.  HELLO and
    QUERY_CAPABILITIES are followed through both, and what the client reports is
    stated in terms of what the broker offers. *)

From stdpp Require Import base list gmap.
From Stdlib Require Import ZArith Lia Bool.
From S2P Require Import Prelude Kernel Protocol Dmabuf Engine EngineFiles EngineInv EngineSafe Broker BrokerLive Client ClientSafe.

(** ** Records without descriptors *)

(** [take n (list_inserts 0 pl buf)] is [pl] when it fits. *)
Lemma get_u32_inserts pl buf off : 0 <= off -> off + 4 <= zlen pl -> zlen pl <= zlen buf ->
  advc_get_u32 (list_inserts 0 pl buf) off = advc_get_u32 pl off.
Proof.
  intros H0 H4 Hl. apply get_u32_ext. intros i Hi. unfold byte_at, zlen in *.
  rewrite list_lookup_inserts by lia. do 3 f_equal. lia.
Qed.
Lemma get_u64_inserts pl buf off : 0 <= off -> off + 8 <= zlen pl -> zlen pl <= zlen buf ->
  advc_get_u64 (list_inserts 0 pl buf) off = advc_get_u64 pl off.
Proof.
  intros H0 H4 Hl. unfold advc_get_u64. rewrite !get_u32_inserts by lia. done.
Qed.

Lemma land_u64 x y : is_u64 x -> is_u64 (Z.land x y).
Proof.
  unfold is_u64. intros H. split; [apply Z.land_nonneg; lia|].
  rewrite <- (Z.mod_small x (2 ^ 64)) by done. rewrite <- Z.land_ones by lia.
  rewrite <- Z.land_assoc, (Z.land_comm (Z.ones 64)), Z.land_assoc, Z.land_ones by lia.
  by apply Z.mod_pos_bound.
Qed.

Section Ends.
Context {B : Type}.

(** A plain record: header and payload, no descriptors. *)
Definition plain (h : advc_header) (pl : list Z) : rx_event :=
  RxRecord (header_store (replicate 32 0) h ++ pl) false [].

Lemma receive_plain (m : machine B) h pl rest buf cap :
  recv_retry (m_rx m) = (plain h pl, rest) -> header_typed h -> header_invalid h = false ->
  payload_size h = zlen pl -> fd_count h = 0 -> zlen pl <= cap ->
  exists fds, advc_receive_message (Message no_header (Some buf) cap (replicate 8 (-1))) m =
    ((0, Message h (Some (list_inserts 0 pl buf)) cap fds), set_rx rest m) /\
    zlen fds = ADVC_MAX_FDS.
Proof.
  intros Hrx Ht Hv Hps Hfc Hcap.
  assert (header_load (header_store (replicate 32 0) h) = h) as Hls
    by (apply header_load_store; [done|done|by apply invalid_reserved]).
  pose proof (zlen_header_store (replicate 32 0) h) as Hz.
  destruct (receive_ok m (Message no_header (Some buf) cap (replicate 8 (-1))) buf
    (header_store (replicate 32 0) h) pl [] rest) as (fds & Hr & _); rewrite ?Hls; try done.
  exists fds. rewrite Hls in Hr. cbn [install_control mret st_ret snd payload_capacity] in Hr.
  split; [exact Hr|]. pose proof (receive_shape (Message no_header (Some buf) cap (replicate 8 (-1))) m) as Hs.
  rewrite Hr in Hs. exact Hs.
Qed.
End Ends.

(** ** The client's side *)

Section ClientEnd.
Context {U : Type}.
Notation M := (machine (client_statics U)).

(** An exchange without descriptors, when the peer's reply is on the socket. *)
Lemma exchange_plain (m : M) opc rp n p cap v rh rpl rest :
  1 <= opc <= ADVC_OP_RESERVE_LINEAR -> is_u32 (next_value (m_be m)) ->
  0 <= n <= ADVC_MAX_PAYLOAD -> n <= zlen (default [] rp) ->
  m_txres m = [] -> recv_retry (m_rx m) = (plain rh rpl, rest) ->
  header_typed rh -> header_invalid rh = false -> payload_size rh = zlen rpl -> fd_count rh = 0 ->
  zlen rpl <= cap ->
  reply_mismatch opc 0 (next_value (m_be m)) v rh = false ->
  exists fds m',
    transaction_ex opc 0 rp n None 0 p cap v m =
      ((0, Message rh (Some (list_inserts 0 rpl p)) cap fds), m') /\
    zlen fds = ADVC_MAX_FDS /\
    m_tx m' = wire (request_header opc 0 (next_value (m_be m)) n 0)
                (take (Z.to_nat n) (default [] rp)) [] :: m_tx m.
Proof.
  intros Hop Hid Hn Hrp Htx Hrx Ht Hv Hps Hfc Hcap Hmm.
  unfold transaction_ex. cbn zeta. cbn [Z.ltb Z.compare ADVC_MAX_FDS orb andb default from_option]. rewrite bind_seq.
  set (m1 := snd (next_request_id m)).
  change (fst (next_request_id m)) with (next_value (m_be m)). rewrite take_nil. cbn [existsb]. rewrite bind_seq.
  rewrite send_ok; cbn [msg_header payload_of msg_payload request_header payload_size fd_count].
  2: { unfold header_invalid. cbn -[ADVC_MAX_PAYLOAD ADVC_OP_RESERVE_LINEAR].
       unfold ADVC_OP_HELLO, ADVC_MAX_FDS. lia. }
  2: { by split; [apply Hn|]. }
  2: { exact Htx. }
  cbn [fst snd Z.ltb Z.compare]. rewrite bind_seq.
  match goal with |- context [advc_receive_message ?s ?mm] =>
    destruct (receive_plain mm rh rpl rest p cap) as (fds & Hr & Hl); [exact Hrx|done..|] end.
  unfold reply_slot. rewrite Hr. cbn [fst snd Z.ltb Z.compare msg_header]. rewrite Hmm.
  eexists fds, _. split; [reflexivity|]. split; [done|]. done.
Qed.

Lemma quiet_receive msg : is_Some (msg_payload msg) -> quiet (B := client_statics U) (advc_receive_message msg).
Proof.
  intros Hp m. destruct (receive_queue msg m Hp) as (H1 & H2 & H3 & _).
  destruct (recv_retry_suffix (m_rx m)) as [H4 _]. split; [done|]. split; [done|]. by etrans.
Qed.
#[local] Hint Resolve quiet_receive quiet_close_message : quiet.

(** What an exchange sends does not depend on the answer. *)
Lemma exchange_sends (m : M) opc rp n p cap v :
  1 <= opc <= ADVC_OP_RESERVE_LINEAR -> 0 <= n <= ADVC_MAX_PAYLOAD -> n <= zlen (default [] rp) ->
  m_txres m = [] ->
  m_tx (snd (transaction_ex opc 0 rp n None 0 p cap v m)) =
    wire (request_header opc 0 (next_value (m_be m)) n 0) (take (Z.to_nat n) (default [] rp)) [] :: m_tx m.
Proof.
  intros Hop Hn Hrp Htx.
  unfold transaction_ex. cbn zeta. cbn [Z.ltb Z.compare ADVC_MAX_FDS orb andb default from_option]. rewrite bind_seq.
  change (fst (next_request_id m)) with (next_value (m_be m)). rewrite take_nil. cbn [existsb]. rewrite bind_seq.
  rewrite send_ok; cbn [msg_header payload_of msg_payload request_header payload_size fd_count].
  2: { unfold header_invalid. cbn -[ADVC_MAX_PAYLOAD ADVC_OP_RESERVE_LINEAR].
       unfold ADVC_OP_HELLO, ADVC_MAX_FDS. lia. }
  2: { by split; [apply Hn|]. }
  2: { exact Htx. }
  cbn [fst snd Z.ltb Z.compare].
  match goal with |- m_tx (snd (?c ?s)) = _ => assert (quiet c) as Hq; [|exact (proj1 (Hq s))] end.
  assert (is_Some (msg_payload (reply_slot p cap))) by (by eexists). hush.
Qed.
End ClientEnd.

(** ** Capabilities over the wire *)

(** A C string in an array of [n] cells: cut or padded, NUL in the last. *)
Definition fixed_string (n : nat) (str : list Z) : list Z := resize n 0 (cstring str) ++ [0].

(** A capability as the client holds it. *)
Definition cap_view (c : advc_codec_capability) : advc_codec_capability :=
  Capability (fixed_string 63 (cap_mime c)) (fixed_string 127 (cap_codec_name c))
    (cap_direction c) (cap_acceleration c) (cap_low_latency c) (cap_secure_playback c)
    (cap_max_width c) (cap_max_height c) (cap_max_fps_milli c) (cap_flags c).

Definition cap_typed (c : advc_codec_capability) : Prop :=
  Forall is_u8 (cap_mime c) /\ Forall is_u8 (cap_codec_name c) /\
  is_u8 (cap_direction c) /\ is_u8 (cap_acceleration c) /\ is_u8 (cap_low_latency c) /\
  is_u8 (cap_secure_playback c) /\ is_u32 (cap_max_width c) /\ is_u32 (cap_max_height c) /\
  is_u32 (cap_max_fps_milli c) /\ is_u32 (cap_flags c).

Lemma cstring_forall (P : Z -> Prop) str : Forall P str -> Forall P (cstring str).
Proof. induction 1; cbn; [done|]. destruct (_ =? 0); by constructor. Qed.

Lemma resize_forall n str : Forall is_u8 str -> Forall is_u8 (resize n 0 (cstring str)).
Proof. intros. apply Forall_resize; [wsolve|by apply cstring_forall]. Qed.

Lemma zlen_strncpy p off str n : zlen (strncpy p off str n) = zlen p.
Proof. unfold zlen, strncpy. by rewrite length_inserts. Qed.
Hint Rewrite zlen_strncpy : zlen.

Lemma byte_strncpy_out p off str n i : 0 <= off -> 0 <= n -> 0 <= i -> i < off \/ off + n <= i ->
  byte_at (strncpy p off str n) i = byte_at p i.
Proof.
  intros. unfold byte_at, strncpy. do 2 f_equal.
  destruct (decide (i < off)); [rewrite list_lookup_inserts_lt by lia; done|].
  rewrite list_lookup_inserts_ge; [done|]. rewrite length_resize. lia.
Qed.
Lemma byte_strncpy_in p off str n k : 0 <= off -> off + n <= zlen p -> 0 <= k < n -> Forall is_u8 str ->
  resize (Z.to_nat n) 0 (cstring str) !! Z.to_nat k = Some (byte_at (strncpy p off str n) (off + k)).
Proof.
  intros Ho Hl Hk Hu. unfold byte_at, strncpy, zlen in *.
  destruct (lookup_lt_is_Some_2 (resize (Z.to_nat n) 0 (cstring str)) (Z.to_nat k)) as [x Hx];
    [rewrite length_resize; lia|].
  rewrite list_lookup_inserts by (rewrite ?length_resize; lia).
  replace (Z.to_nat (off + k) - Z.to_nat off)%nat with (Z.to_nat k) by lia. rewrite Hx. cbn.
  f_equal. symmetry. apply u8_id. by apply (Forall_lookup_1 _ _ _ _ (resize_forall _ _ Hu) Hx).
Qed.

Ltac outside := repeat first
  [ rewrite byte_put_u32_out by lia | rewrite byte_at_set_ne by lia | rewrite byte_strncpy_out by (unfold ADVC_MAX_MIME, ADVC_MAX_CODEC_NAME; lia) ].

(** An entry is written in its own 224 bytes. *)
Lemma write_capability_out p off c i : 0 <= off -> 0 <= i -> i < off \/ off + 212 <= i ->
  byte_at (write_capability p off c) i = byte_at p i.
Proof. intros. unfold write_capability. cbn zeta. by outside. Qed.

Lemma zlen_write_capability p off c : zlen (write_capability p off c) = zlen p.
Proof. unfold write_capability. cbn zeta. by autorewrite with zlen. Qed.

Lemma lookup_bytes_at p off n i : (i < Z.to_nat n)%nat ->
  bytes_at p off n !! i = Some (byte_at p (off + Z.of_nat i)).
Proof. intros. unfold bytes_at. rewrite list_lookup_fmap, lookup_seqZ_lt by lia. done. Qed.
Lemma length_bytes_at p off n : length (bytes_at p off n) = Z.to_nat n.
Proof. unfold bytes_at. by rewrite length_fmap, length_seqZ. Qed.

Lemma read_text p off n str : 0 < n ->
  (forall k, 0 <= k < n - 1 ->
     resize (Z.to_nat (n - 1)) 0 (cstring str) !! Z.to_nat k = Some (byte_at p (off + k))) ->
  <[Z.to_nat (n - 1) := 0]> (bytes_at p off n) = fixed_string (Z.to_nat (n - 1)) str.
Proof.
  intros Hn H. unfold fixed_string. apply list_eq. intros i.
  destruct (decide (i < Z.to_nat (n - 1))%nat) as [Hi|Hi].
  - rewrite list_lookup_insert_ne by lia. rewrite lookup_bytes_at by lia.
    rewrite lookup_app_l by (rewrite ?length_resize; lia).
    specialize (H (Z.of_nat i)). rewrite Nat2Z.id in H. rewrite H by lia. done.
  - destruct (decide (i = Z.to_nat (n - 1))) as [->|Hne].
    + rewrite list_lookup_insert_eq by (rewrite length_bytes_at; lia).
      rewrite lookup_app_r by (rewrite ?length_resize; lia). by rewrite length_resize, Nat.sub_diag.
    + rewrite !lookup_ge_None_2; [done|..].
      * rewrite length_app, length_resize. cbn. lia.
      * rewrite length_insert, length_bytes_at. lia.
Qed.

Lemma read_write_capability p off c : 0 <= off -> off + 224 <= zlen p -> cap_typed c ->
  read_capability (write_capability p off c) off = cap_view c.
Proof.
  intros Ho Hl (Hm & Hn & H1 & H2 & H3 & H4 & H5 & H6 & H7 & H8).
  unfold read_capability, cap_view. cbn zeta. unfold ADVC_MAX_MIME, ADVC_MAX_CODEC_NAME.
  f_equal.
  - apply read_text; [lia|]. intros k Hk. unfold write_capability. cbn zeta. outside.
    rewrite Z.add_0_r. apply (byte_strncpy_in _ _ _ (64 - 1)); [lia..|done].
  - apply read_text; [lia|]. intros k Hk. unfold write_capability. cbn zeta. outside.
    apply (byte_strncpy_in _ _ _ (128 - 1)); [lia|side|lia|done].
  - unfold write_capability. cbn zeta. outside. rewrite byte_at_set_eq by side. by apply u8_id.
  - unfold write_capability. cbn zeta. outside. rewrite byte_at_set_eq by side. by apply u8_id.
  - unfold write_capability. cbn zeta. outside. rewrite byte_at_set_eq by side. by apply u8_id.
  - unfold write_capability. cbn zeta. outside. rewrite byte_at_set_eq by side. by apply u8_id.
  - unfold write_capability. cbn zeta. fields. by apply u32_id.
  - unfold write_capability. cbn zeta. fields. by apply u32_id.
  - unfold write_capability. cbn zeta. fields. by apply u32_id.
  - unfold write_capability. cbn zeta. fields. by apply u32_id.
Qed.

Lemma read_capability_ext p q off : (forall i, off <= i < off + 224 -> byte_at p i = byte_at q i) ->
  read_capability p off = read_capability q off.
Proof.
  intros H. unfold read_capability. cbn zeta.
  assert (forall o n, 0 <= o -> o + n <= 224 -> bytes_at p (off + o) n = bytes_at q (off + o) n) as Hb.
  { intros o n Ho Hn. unfold bytes_at. apply list_fmap_ext. intros i x [-> Hx]%lookup_seqZ. apply H. lia. }
  rewrite !Hb by (unfold ADVC_MAX_MIME, ADVC_MAX_CODEC_NAME; lia).
  rewrite !H by lia. f_equal; apply get_u32_ext; intros; apply H; lia.
Qed.

Lemma zlen_write_capabilities l p i : zlen (write_capabilities p i l) = zlen p.
Proof. revert p i. induction l; intros; cbn [write_capabilities]; [done|]. by rewrite IHl, zlen_write_capability. Qed.

Lemma write_capabilities_below l p i j : 0 <= i -> 0 <= j < ADVC_CAPS_PREFIX_SIZE + i * ADVC_CAPS_ENTRY_SIZE ->
  byte_at (write_capabilities p i l) j = byte_at p j.
Proof.
  unfold ADVC_CAPS_PREFIX_SIZE, ADVC_CAPS_ENTRY_SIZE.
  revert p i. induction l as [|c l IH]; intros p i Hi Hj; cbn [write_capabilities]; [done|].
  rewrite IH by lia. unfold ADVC_CAPS_PREFIX_SIZE, ADVC_CAPS_ENTRY_SIZE. by rewrite write_capability_out by lia.
Qed.

(** Every entry reads back as it was offered. *)
Lemma read_write_capabilities l p i k c : 0 <= i -> Forall cap_typed l -> l !! k = Some c ->
  ADVC_CAPS_PREFIX_SIZE + (i + zlen l) * ADVC_CAPS_ENTRY_SIZE <= zlen p ->
  read_capability (write_capabilities p i l)
    (ADVC_CAPS_PREFIX_SIZE + (i + Z.of_nat k) * ADVC_CAPS_ENTRY_SIZE) = cap_view c.
Proof.
  unfold zlen, ADVC_CAPS_PREFIX_SIZE, ADVC_CAPS_ENTRY_SIZE.
  revert p i k. induction l as [|c0 l IH]; intros p i k Hi Hty Hk Hl; [done|].
  inversion Hty as [|?? Hc Hty']; subst. cbn [length] in Hl. cbn [write_capabilities].
  destruct k as [|k]; cbn in Hk.
  - injection Hk as ->. etrans; [|apply (read_write_capability p (24 + i * 224) c); unfold zlen; lia || done].
    rewrite Z.add_0_r. apply read_capability_ext. intros j Hj.
    rewrite write_capabilities_below by (unfold ADVC_CAPS_PREFIX_SIZE, ADVC_CAPS_ENTRY_SIZE; lia). done.
  - replace (i + Z.of_nat (S k)) with (i + 1 + Z.of_nat k) by lia. apply IH; [lia|done|done|].
    pose proof (zlen_write_capability p (24 + i * 224) c0) as Hz. unfold zlen in Hz.
    unfold ADVC_CAPS_PREFIX_SIZE, ADVC_CAPS_ENTRY_SIZE. lia.
Qed.

(** ** One call over the connection *)

(** A packet without descriptors as the other end receives it. *)
Definition delivered (pk : packet) : rx_event := RxRecord (pk_bytes pk) false [].

(** The client's call [c] from [mc] with the broker's round [serve] from [mb] at
    the other end: the record [c] sends is delivered, the round's reply is
    delivered, and [c] goes on with it. *)
Definition call_over {U A B R : Type} (c : St (machine (client_statics U)) A)
    (serve : St (machine B) R) (mc : machine (client_statics U)) (mb : machine B) : option A :=
  match m_tx (snd (c (set_rx [] mc))) with
  | [] => None
  | request :: _ =>
      match m_tx (snd (serve (set_rx [delivered request] mb))) with
      | [] => None
      | reply :: _ => Some (fst (c (set_rx [delivered reply] mc)))
      end
  end.

Section Calls.
Context {U B : Type} (ops : advc_backend_ops B) `{!BackendQuiet ops}.
Context (query : option (advc_session_engine -> St (machine B) (Z * advc_capability_set))).
Context (Hquery : forall q, query = Some q -> forall e, quiet (q e)).
Notation M := (machine (client_statics U)).
Notation provider bits := (Some (engine_provider ops bits query)).

Lemma round_plain (mb : machine B) bits rq0 rp0 cfd e rqh rqp :
  m_alloc mb = [] -> m_txres mb = [] ->
  header_typed rqh -> header_invalid rqh = false -> message_type rqh = ADVC_MSG_REQUEST ->
  payload_size rqh = zlen rqp -> fd_count rqh = 0 -> zlen rqp <= ADVC_MAX_PAYLOAD ->
  exists fds, let rq := Message rqh (Some (list_inserts 0 rqp rq0)) ADVC_MAX_PAYLOAD fds in
    forall r, snd (fst (build_reply (provider bits) e rq (init_reply rq rp0 ADVC_MAX_PAYLOAD)
                          (set_rx [] mb))) = r ->
    header_invalid (msg_header r) = false -> 0 <= payload_size (msg_header r) <= zlen (payload_of r) ->
    fd_count (msg_header r) = 0 ->
    m_tx (snd (advc_broker_handle_once rq0 rp0 cfd (provider bits) e (set_rx [plain rqh rqp] mb))) =
      wire (msg_header r) (take (Z.to_nat (payload_size (msg_header r))) (payload_of r)) [] :: m_tx mb.
Proof.
  intros Hal Htx Ht Hv Hmt Hps Hfc Hcap.
  destruct (receive_plain (set_rx [plain rqh rqp] mb) rqh rqp [] rq0 ADVC_MAX_PAYLOAD)
    as (fds & Hr & _); [done..|].
  exists fds. cbn zeta. intros r Hb Hrv Hrp Hrf. unfold advc_broker_handle_once. rewrite bind_seq.
  assert (sys_alloc (set_rx [plain rqh rqp] mb) = (true, set_rx [plain rqh rqp] mb)) as Ha
    by (unfold sys_alloc; cbn; by rewrite Hal).
  rewrite Ha. cbn [fst snd]. rewrite bind_seq, Ha. cbn [fst snd andb negb].
  rewrite bind_seq. unfold request_slot. rewrite Hr. cbn [fst snd Z.ltb Z.compare msg_header].
  rewrite Hmt, Z.eqb_refl. cbn [negb]. change (set_rx [] (set_rx [plain rqh rqp] mb)) with (set_rx [] mb).
  rewrite bind_seq.
  match goal with |- context [build_reply ?p ?e ?rq ?r ?m] =>
    pose proof (quiet_build_reply ops bits query Hquery e rq r m) as (H1 & H2 & _);
    destruct (build_reply p e rq r m) as [[e' r'] md] end.
  cbn [fst snd] in *. subst r'.
  destruct (finish_queue ops bits query cfd e'
    (Message rqh (Some (list_inserts 0 rqp rq0)) ADVC_MAX_PAYLOAD fds) r md) as (_ & H3 & _).
  rewrite H3, send_ok; [|done|done|by rewrite H2]. cbn. rewrite H1, Hrf. done.
Qed.

(** A request of the client: the packet, and that the broker can receive it. *)
Lemma request_header_ok opc rid n : 1 <= opc <= ADVC_OP_RESERVE_LINEAR -> is_u32 rid ->
  0 <= n <= ADVC_MAX_PAYLOAD ->
  header_typed (request_header opc 0 rid n 0) /\ header_invalid (request_header opc 0 rid n 0) = false.
Proof.
  intros Hop Hr Hn. split.
  - unfold header_typed, request_header, ADVC_MAX_PAYLOAD, ADVC_OP_RESERVE_LINEAR in *. cbn.
    repeat split; unfold ADVC_VERSION_MAJOR, ADVC_VERSION_MINOR, ADVC_MSG_REQUEST in *; wsolve.
  - unfold header_invalid. cbn -[ADVC_MAX_PAYLOAD ADVC_OP_RESERVE_LINEAR].
    unfold ADVC_OP_HELLO, ADVC_MAX_FDS. lia.
Qed.

(** The reply of a round to a client of this version. *)
Definition reply_header (opc rid n : Z) : advc_header :=
  Header ADVC_VERSION_MAJOR ADVC_VERSION_MINOR ADVC_MSG_REPLY opc rid 0 0 n 0 0.

Lemma reply_header_ok opc rid n : 1 <= opc <= ADVC_OP_RESERVE_LINEAR -> is_u32 rid ->
  0 <= n <= ADVC_MAX_PAYLOAD ->
  header_typed (reply_header opc rid n) /\ header_invalid (reply_header opc rid n) = false /\
  reply_mismatch opc 0 rid false (reply_header opc rid n) = false.
Proof.
  intros Hop Hr Hn. split; [|split].
  - unfold header_typed, reply_header, ADVC_MAX_PAYLOAD, ADVC_OP_RESERVE_LINEAR in *. cbn.
    repeat split; unfold ADVC_VERSION_MAJOR, ADVC_VERSION_MINOR, ADVC_MSG_REPLY in *; wsolve.
  - unfold header_invalid. cbn -[ADVC_MAX_PAYLOAD ADVC_OP_RESERVE_LINEAR].
    unfold ADVC_OP_HELLO, ADVC_MAX_FDS. lia.
  - unfold reply_mismatch. cbn -[ADVC_OP_TRANSFER_AHB ADVC_OP_QUEUE_AHB ADVC_OP_CREATE_SESSION].
    rewrite !Z.eqb_refl.
    by destruct (opc =? ADVC_OP_TRANSFER_AHB), (opc =? ADVC_OP_QUEUE_AHB), (opc =? ADVC_OP_CREATE_SESSION).
Qed.

(** A call without descriptors, when the round's reply is the same for every
    content of the request's unused descriptor array. *)
Lemma call_plain {A} (k : Z * advc_message -> St M A) opc rp n p cap bits rq0 rp0 cfd e
    (mc : M) (mb : machine B) r ps :
  let rid := next_value (m_be mc) in
  let rqh := request_header opc 0 rid n 0 in
  (forall x, quiet (k x)) ->
  1 <= opc <= ADVC_OP_RESERVE_LINEAR -> is_u32 rid -> 0 <= n <= ADVC_MAX_PAYLOAD ->
  n <= zlen (default [] rp) ->
  m_txres mc = [] -> m_alloc mb = [] -> m_txres mb = [] ->
  (forall fds, let rq := Message rqh (Some (list_inserts 0 (take (Z.to_nat n) (default [] rp)) rq0))
                           ADVC_MAX_PAYLOAD fds in
     snd (fst (build_reply (provider bits) e rq (init_reply rq rp0 ADVC_MAX_PAYLOAD)
                 (set_rx [] mb))) = r) ->
  msg_header r = reply_header opc rid ps ->
  0 <= ps <= zlen (payload_of r) -> ps <= ADVC_MAX_PAYLOAD -> ps <= cap ->
  exists fds mc', zlen fds = ADVC_MAX_FDS /\
    call_over (transaction opc rp n p cap ≫= k)
      (advc_broker_handle_once rq0 rp0 cfd (provider bits) e) mc mb =
    Some (fst (k (0, Message (reply_header opc rid ps)
      (Some (list_inserts 0 (take (Z.to_nat ps) (payload_of r)) p)) cap fds) mc')).
Proof.
  cbn zeta. intros Hk Hop Hid Hn Hrp Hct Hal Hbt Hb Hrh Hrs Hrm Hrc.
  destruct (reply_header_ok opc (next_value (m_be mc)) ps) as (Hrt & Hrv & Hmm); [lia || done..|].
  destruct (request_header_ok opc (next_value (m_be mc)) n) as [Hqt Hqv]; [done..|].
  assert (zlen (take (Z.to_nat n) (default [] rp)) = n) as Hz by (unfold zlen in *; rewrite length_take; lia).
  destruct (round_plain mb bits rq0 rp0 cfd e _ (take (Z.to_nat n) (default [] rp)) Hal Hbt Hqt Hqv)
    as (qfds & Hround); [done|by rewrite Hz|done|by rewrite Hz; apply Hn|].
  cbn zeta in Hround. specialize (Hround r (Hb qfds)). rewrite Hrh in Hround. specialize (Hround Hrv Hrs eq_refl).
  unfold call_over, transaction. rewrite bind_seq.
  assert (forall mm x, m_tx (snd (k x mm)) = m_tx mm) as Hkt by (intros mm x; apply Hk).
  rewrite Hkt, exchange_sends by done. cbn [set_rx m_tx m_be].
  match goal with |- context [set_rx ?l mb] =>
    change l with [plain (request_header opc 0 (next_value (m_be mc)) n 0)
                     (take (Z.to_nat n) (default [] rp))] end.
  rewrite Hround.
  cbn [payload_size reply_header]. set (rpl := take (Z.to_nat ps) (payload_of r)) in *.
  assert (zlen rpl = ps) as Hzr by (unfold rpl, zlen in *; rewrite length_take; lia).
  destruct (exchange_plain (set_rx [plain (reply_header opc (next_value (m_be mc)) ps) rpl] mc)
    opc rp n p cap false (reply_header opc (next_value (m_be mc)) ps) rpl [])
    as (fds & mc' & He & Hl & _); [done..|by rewrite Hzr|done|].
  exists fds, mc'. split; [done|]. rewrite bind_seq.
  match goal with |- context [set_rx ?l mc] =>
    change l with [plain (reply_header opc (next_value (m_be mc)) ps) rpl] end. by rewrite He.
Qed.

(** The features of a client of this version are not masked. *)
Lemma mask_features_current f : mask_features ADVC_VERSION_MINOR f = f.
Proof. reflexivity. Qed.

Lemma zlen_zeros n : 0 <= n -> zlen (zeros n) = n.
Proof. intros. unfold zlen, zeros. rewrite length_replicate. lia. Qed.

(** Loads from a received payload. *)
Lemma get_u32_received pl n buf off : 0 <= off -> off + 4 <= n -> n <= zlen pl -> n <= zlen buf ->
  advc_get_u32 (list_inserts 0 (take (Z.to_nat n) pl) buf) off = advc_get_u32 pl off.
Proof.
  intros H0 H4 Hl Hb. unfold zlen in *.
  rewrite get_u32_inserts by (unfold zlen; rewrite ?length_take; lia).
  apply get_u32_ext. intros i Hi. unfold byte_at. by rewrite lookup_take_lt by lia.
Qed.
Lemma get_u64_received pl n buf off : 0 <= off -> off + 8 <= n -> n <= zlen pl -> n <= zlen buf ->
  advc_get_u64 (list_inserts 0 (take (Z.to_nat n) pl) buf) off = advc_get_u64 pl off.
Proof. intros. unfold advc_get_u64. by rewrite !get_u32_received by lia. Qed.

Lemma hello_call bits features p rq0 rp0 cfd e (mc : M) (mb : machine B) :
  is_u64 bits -> is_u64 features -> is_u32 (next_value (m_be mc)) ->
  zlen p = ADVC_HELLO_SIZE -> zlen rq0 = ADVC_MAX_PAYLOAD -> zlen rp0 = ADVC_MAX_PAYLOAD ->
  m_txres mc = [] -> m_alloc mb = [] -> m_txres mb = [] ->
  call_over (advc_client_hello p features)
    (advc_broker_handle_once rq0 rp0 cfd (provider bits) e) mc mb =
  Some (0, Some (Z.land bits features, ADVC_MAX_PAYLOAD)).
Proof.
  intros Hbits Hf Hid Hp Hq0 Hp0 Hct Hal Hbt. unfold advc_client_hello. cbn zeta.
  set (request := advc_put_u32 _ _ _).
  assert (zlen request = ADVC_HELLO_SIZE) as Hrz
    by (unfold request; autorewrite with zlen; by rewrite zlen_zeros).
  set (rqh := request_header ADVC_OP_HELLO 0 (next_value (m_be mc)) ADVC_HELLO_SIZE 0).
  set (pay := Some (list_inserts 0 (take (Z.to_nat ADVC_HELLO_SIZE) request) rq0)).
  set (rq := Message rqh pay ADVC_MAX_PAYLOAD []).
  match goal with |- call_over (_ ≫= ?k) _ _ _ = _ =>
    destruct (call_plain k ADVC_OP_HELLO (Some request) ADVC_HELLO_SIZE p ADVC_HELLO_SIZE bits rq0 rp0 cfd e mc mb
      (hello_reply bits rq (init_reply rq rp0 ADVC_MAX_PAYLOAD)) ADVC_HELLO_SIZE) as (fds & mc' & _ & Hc) end.
  1: { intros [r reply]. unfold refuse_reply. hush. }
  all: try done.
  { unfold payload_of. cbn. autorewrite with zlen. rewrite Hp0. done. }
  rewrite Hc. clear Hc. unfold ADVC_MAX_PAYLOAD in Hp0, Hq0.
  set (rp := payload_of (hello_reply _ _ _)).
  assert (zlen rp = 1048576) as Hrp by (unfold rp, payload_of; cbn; autorewrite with zlen; done).
  cbn -[rp advc_get_u32 advc_get_u64 list_inserts take Z.land].
  rewrite get_u32_received, get_u64_received by (unfold ADVC_HELLO_SIZE in *; lia).
  unfold rp, payload_of. cbn -[advc_get_u32 advc_get_u64 advc_put_u32 advc_put_u64 list_inserts take Z.land].
  rewrite !get_u32_received, !get_u64_received by (unfold ADVC_HELLO_SIZE in *; lia).
  assert (zlen (zeros ADVC_HELLO_SIZE) = 16) as Hz0 by done. unfold request. fields.
  rewrite (u64_id features) by done. rewrite u64_id by (by apply land_u64). done.
Qed.

(** A capability set as the backend fills it in. *)
Definition caps_typed (c : advc_capability_set) : Prop :=
  is_u32 (caps_api_level c) /\ 0 <= caps_count c <= ADVC_MAX_CAPABILITIES /\
  is_u64 (caps_transport_features c) /\ zlen (caps_codecs c) = ADVC_MAX_CAPABILITIES /\
  Forall cap_typed (caps_codecs c).

(** What the client holds after the exchange. *)
Definition caps_view (bits : Z) (c : advc_capability_set) : advc_capability_set :=
  let n := Z.to_nat (caps_count c) in
  Capabilities (caps_api_level c) (caps_count c) (Z.land (caps_transport_features c) bits)
    ((cap_view <$> take n (caps_codecs c)) ++
     replicate (Z.to_nat (ADVC_MAX_CAPABILITIES - caps_count c)) zero_capability).

Lemma byte_at_received pl n buf i : 0 <= i < n -> n <= zlen pl -> n <= zlen buf ->
  byte_at (list_inserts 0 (take (Z.to_nat n) pl) buf) i = byte_at pl i.
Proof.
  intros Hi Hl Hb. unfold byte_at, zlen in *.
  rewrite list_lookup_inserts by (rewrite ?length_take; lia).
  rewrite lookup_take_lt by lia. do 3 f_equal. lia.
Qed.

(** The buffer a capability reply is written in. *)
Definition caps_payload (p : list Z) (c : advc_capability_set) : list Z :=
  payload_of (snd (write_capability_reply (Message no_header (Some p) ADVC_MAX_PAYLOAD []) c)).

Lemma caps_payload_eq p c : caps_typed c ->
  caps_payload p c =
    write_capabilities
      (advc_put_u64 (advc_put_u32 (advc_put_u32 (advc_put_u32 (advc_put_u32
         (memzero p (ADVC_CAPS_PREFIX_SIZE + caps_count c * ADVC_CAPS_ENTRY_SIZE)) 0 ADVC_STATUS_OK)
         4 (caps_count c)) 8 (caps_api_level c)) 12 0) 16 (caps_transport_features c))
      0 (take (Z.to_nat (caps_count c)) (caps_codecs c)).
Proof.
  intros (_ & Hn & _). unfold caps_payload, write_capability_reply. cbn zeta.
  match goal with |- context [if ?b then _ else _] => destruct b eqn:Hb end; [|done].
  unfold ADVC_MAX_CAPABILITIES, ADVC_MAX_PAYLOAD, ADVC_CAPS_PREFIX_SIZE, ADVC_CAPS_ENTRY_SIZE in *.
  cbn [payload_capacity] in Hb. lia.
Qed.

Lemma zlen_caps_payload p c : caps_typed c -> zlen (caps_payload p c) = zlen p.
Proof. intros Hc. rewrite caps_payload_eq by done. rewrite zlen_write_capabilities. by autorewrite with zlen. Qed.

(** The prefix fields. *)
Lemma caps_prefix_read p c : caps_typed c -> zlen p = ADVC_MAX_PAYLOAD ->
  advc_get_u32 (caps_payload p c) 0 = ADVC_STATUS_OK /\
  advc_get_u32 (caps_payload p c) 4 = caps_count c /\
  advc_get_u32 (caps_payload p c) 8 = caps_api_level c /\
  advc_get_u64 (caps_payload p c) 16 = caps_transport_features c.
Proof.
  intros Hc Hz. pose proof Hc as (Ha & Hn & Hf & _). rewrite caps_payload_eq by done.
  set (base := advc_put_u64 _ _ _).
  assert (forall i, 0 <= i < 24 ->
    byte_at (write_capabilities base 0 (take (Z.to_nat (caps_count c)) (caps_codecs c))) i = byte_at base i) as Hb.
  { intros. apply write_capabilities_below; [lia|]. unfold ADVC_CAPS_PREFIX_SIZE, ADVC_CAPS_ENTRY_SIZE. lia. }
  rewrite (get_u32_ext _ base 0), (get_u32_ext _ base 4), (get_u32_ext _ base 8), (get_u64_ext _ base 16)
    by (intros; apply Hb; lia).
  unfold base. unfold ADVC_MAX_PAYLOAD in Hz. fields.
  unfold ADVC_MAX_CAPABILITIES in *. rewrite !u32_id, u64_id by (done || wsolve). done.
Qed.

(** The reply's payload, loaded by the client. *)
Lemma caps_payload_read p c buf :
  caps_typed c -> zlen p = ADVC_MAX_PAYLOAD -> caps_capacity <= zlen buf ->
  let n := ADVC_CAPS_PREFIX_SIZE + caps_count c * ADVC_CAPS_ENTRY_SIZE in
  let q := list_inserts 0 (take (Z.to_nat n) (caps_payload p c)) buf in
  advc_get_u32 q 0 = ADVC_STATUS_OK /\ advc_get_u32 q 4 = caps_count c /\
  read_capabilities q (caps_count c) = caps_view UINT64_MAX c.
Proof.
  intros Hc Hz Hbuf. cbn zeta. set (n := ADVC_CAPS_PREFIX_SIZE + _). set (q := list_inserts _ _ _).
  pose proof Hc as (Ha & Hn & Hf & Hl & Hty). pose proof (zlen_caps_payload p c Hc) as Hpz.
  destruct (caps_prefix_read p c Hc Hz) as (H0 & H4 & H8 & H16).
  assert (24 <= n <= zlen (caps_payload p c) /\ n <= zlen buf) as [Hnl Hnb].
  { unfold n, caps_capacity, ADVC_MAX_CAPABILITIES, ADVC_CAPS_PREFIX_SIZE, ADVC_CAPS_ENTRY_SIZE, ADVC_MAX_PAYLOAD in *. lia. }
  split; [|split].
  - unfold q. rewrite get_u32_received by lia. done.
  - unfold q. rewrite get_u32_received by lia. done.
  - unfold read_capabilities, caps_view, q. rewrite get_u32_received, get_u64_received by lia.
    rewrite H8, H16. f_equal.
    { symmetry. unfold UINT64_MAX.
      change (2 ^ 64 - 1) with (Z.ones 64). rewrite Z.land_ones by lia. by apply Z.mod_small. }
    f_equal. apply list_eq. intros i. rewrite !list_lookup_fmap.
    destruct (decide (Z.of_nat i < caps_count c)) as [Hi|Hi].
    + rewrite lookup_seqZ_lt by lia. rewrite lookup_take_lt by lia. cbn [fmap option_fmap option_map].
      destruct (lookup_lt_is_Some_2 (caps_codecs c) i) as [x Hx]; [unfold zlen, ADVC_MAX_CAPABILITIES in *; lia|].
      rewrite Hx. cbn. f_equal. rewrite <- (read_write_capabilities (take (Z.to_nat (caps_count c)) (caps_codecs c))
        (advc_put_u64 (advc_put_u32 (advc_put_u32 (advc_put_u32 (advc_put_u32
         (memzero p (ADVC_CAPS_PREFIX_SIZE + caps_count c * ADVC_CAPS_ENTRY_SIZE)) 0 ADVC_STATUS_OK)
         4 (caps_count c)) 8 (caps_api_level c)) 12 0) 16 (caps_transport_features c)) 0 i x); [|done|..].
      * rewrite <- caps_payload_eq by done. apply read_capability_ext. intros j Hj.
        apply byte_at_received; unfold n, ADVC_CAPS_PREFIX_SIZE, ADVC_CAPS_ENTRY_SIZE in *; lia.
      * by apply Forall_take.
      * by rewrite lookup_take_lt by lia.
      * autorewrite with zlen. rewrite Hz. unfold zlen. rewrite length_take.
        unfold ADVC_MAX_CAPABILITIES, ADVC_CAPS_PREFIX_SIZE, ADVC_CAPS_ENTRY_SIZE, ADVC_MAX_PAYLOAD in *. lia.
    + rewrite lookup_seqZ_ge by lia. rewrite lookup_take_ge by lia. done.
Qed.

Lemma write_capability_reply_ok h p fds c : caps_typed c ->
  write_capability_reply (Message h (Some p) ADVC_MAX_PAYLOAD fds) c =
    (0, Message (header_with_payload_size (ADVC_CAPS_PREFIX_SIZE + caps_count c * ADVC_CAPS_ENTRY_SIZE) h)
          (Some (caps_payload p c)) ADVC_MAX_PAYLOAD fds).
Proof.
  intros Hc. rewrite caps_payload_eq by done. destruct Hc as (_ & Hn & _).
  unfold write_capability_reply. cbn zeta.
  match goal with |- context [if ?b then _ else _] => destruct b eqn:Hb end; [|done].
  unfold ADVC_MAX_CAPABILITIES, ADVC_MAX_PAYLOAD, ADVC_CAPS_PREFIX_SIZE, ADVC_CAPS_ENTRY_SIZE in *.
  cbn [payload_capacity] in Hb. lia.
Qed.

Lemma mask_caps_typed bits c : caps_typed c -> caps_typed (mask_caps ADVC_VERSION_MINOR bits c).
Proof. intros (? & ? & ? & ? & ?). refine (conj _ (conj _ (conj _ (conj _ _)))); try done. by apply land_u64. Qed.

Lemma caps_view_masked bits c : caps_typed c ->
  caps_view UINT64_MAX (mask_caps ADVC_VERSION_MINOR bits c) = caps_view bits c.
Proof.
  intros (_ & _ & Hf & _). unfold caps_view, mask_caps. cbn -[Z.land replicate ADVC_MAX_CAPABILITIES zero_capability].
  f_equal. unfold UINT64_MAX. change (2 ^ 64 - 1) with (Z.ones 64). rewrite Z.land_ones by lia.
  apply Z.mod_small. by apply (land_u64 _ bits).
Qed.

Lemma query_call bits caps q p rq0 rp0 cfd e (mc : M) (mb : machine B) :
  query = Some q -> (forall m, fst (q e m) = (0, caps)) -> caps_typed caps ->
  is_u32 (next_value (m_be mc)) ->
  zlen p = caps_capacity -> zlen rq0 = ADVC_MAX_PAYLOAD -> zlen rp0 = ADVC_MAX_PAYLOAD ->
  m_txres mc = [] -> m_alloc mb = [] -> m_txres mb = [] ->
  call_over (advc_client_query_capabilities p)
    (advc_broker_handle_once rq0 rp0 cfd (provider bits) e) mc mb =
  Some (0, Some (caps_view bits caps)).
Proof.
  intros Hq Hans Hcaps Hid Hp Hq0 Hp0 Hct Hal Hbt. unfold advc_client_query_capabilities. cbn zeta.
  set (rid := next_value (m_be mc)) in *.
  pose proof (mask_caps_typed bits caps Hcaps) as Hmc. set (c := mask_caps _ bits caps) in Hmc.
  set (ps := ADVC_CAPS_PREFIX_SIZE + caps_count c * ADVC_CAPS_ENTRY_SIZE).
  assert (24 <= ps <= caps_capacity) as Hps.
  { destruct Hmc as (_ & Hn & _). unfold ps, caps_capacity, ADVC_MAX_CAPABILITIES, ADVC_CAPS_PREFIX_SIZE,
      ADVC_CAPS_ENTRY_SIZE in *. lia. }
  assert (caps_capacity = 7192) as Hcc by done.
  match goal with |- call_over (_ ≫= ?k) _ _ _ = _ =>
    destruct (call_plain k ADVC_OP_QUERY_CAPABILITIES None 0 p caps_capacity bits rq0 rp0 cfd e mc mb
      (Message (reply_header ADVC_OP_QUERY_CAPABILITIES rid ps) (Some (caps_payload rp0 c)) ADVC_MAX_PAYLOAD
         (replicate 8 (-1))) ps) as (fds & mc' & _ & Hc) end; try done.
  { intros [r reply]. unfold refuse_reply, parse_status_reply. hush. }
  { intros qfds. cbn zeta. unfold build_reply. cbn -[query_reply init_reply]. rewrite bind_seq.
    unfold query_reply. cbn [engine_provider pv_query_capabilities]. rewrite Hq. rewrite bind_seq, Hans.
    cbn -[write_capability_reply mask_caps]. unfold init_reply.
    change (mask_caps _ bits caps) with c. rewrite write_capability_reply_ok by done. done. }
  { cbn [payload_of msg_payload default from_option id]. rewrite zlen_caps_payload, Hp0 by done.
    unfold ADVC_MAX_PAYLOAD. lia. }
  { unfold ADVC_MAX_PAYLOAD. lia. }
  { apply Hps. }
  rewrite Hc. clear Hc. cbn [msg_header reply_header payload_size fd_count Z.ltb Z.compare Z.eqb negb].
  unfold payload_of. cbn [msg_payload default from_option id].
  destruct (caps_payload_read rp0 c p Hmc Hp0 ltac:(by rewrite Hp)) as (H0 & H4 & Hread). fold ps in H0, H4, Hread.
  rewrite H0, H4, Hread. rewrite Z.eqb_refl, andb_false_r.
  destruct (Z.ltb_spec ps ADVC_CAPS_PREFIX_SIZE) as [?|_]; [unfold ADVC_CAPS_PREFIX_SIZE in *; lia|].
  destruct Hmc as (_ & Hn & _).
  match goal with |- context [if ?b then _ else _] => destruct b eqn:Hb end.
  { exfalso. unfold ps, ADVC_MAX_CAPABILITIES, ADVC_CAPS_PREFIX_SIZE, ADVC_CAPS_ENTRY_SIZE in *.
    rewrite !u32_id in Hb by (rewrite ?u32_id; wsolve). lia. }
  unfold c. by rewrite caps_view_masked.
Qed.

End Calls.

(** ** Two runs that differ in the stack *)

Definition agree (n : Z) (p q : list Z) : Prop := forall i, 0 <= i < n -> byte_at p i = byte_at q i.

Lemma agree_u32 n p q o : agree n p q -> 0 <= o -> o + 4 <= n -> advc_get_u32 p o = advc_get_u32 q o.
Proof. intros H ??. apply get_u32_ext. intros. apply H. lia. Qed.
Lemma agree_u64 n p q o : agree n p q -> 0 <= o -> o + 8 <= n -> advc_get_u64 p o = advc_get_u64 q o.
Proof. intros H ??. apply get_u64_ext. intros. apply H. lia. Qed.

Section Stack.
Context {U : Type}.
Notation M := (machine (client_statics U)).

(** Two outcomes of an exchange that differ at most beyond the received bytes. *)
Definition same_reply (x y : Z * advc_message * M) : Prop :=
  snd x = snd y /\ fst (fst x) = fst (fst y) /\
  (0 <= fst (fst x) -> msg_header (snd (fst x)) = msg_header (snd (fst y)) /\
   msg_fds (snd (fst x)) = msg_fds (snd (fst y)) /\
   agree (payload_size (msg_header (snd (fst x)))) (payload_of (snd (fst x))) (payload_of (snd (fst y)))).

Lemma agree_inserts l p q : length p = length q ->
  agree (zlen l) (list_inserts 0 l p) (list_inserts 0 l q).
Proof.
  intros Hl i Hi. unfold byte_at, zlen in *. do 2 f_equal.
  destruct (decide (Z.to_nat i < length p)%nat) as [Hp|Hp].
  - by rewrite !list_lookup_inserts by lia.
  - rewrite !lookup_ge_None_2; [done|rewrite length_inserts; lia..].
Qed.

(** A negative result says nothing about the reply. *)
Ltac failed := unfold same_reply; rewrite ?bind_seq; split; [done|split; [done|intros Hneg; exfalso; rewrite ?bind_seq in Hneg; cbn [fst snd mret st_ret] in Hneg; lia]].

(** An accepted record has exactly the bytes its header announces. *)
Lemma record_check_size fl n hb k cap (m : M) :
  fst (fst (record_check fl n hb k cap m)) = false ->
  n = ADVC_HEADER_SIZE + payload_size (snd (fst (record_check fl n hb k cap m))) /\ ADVC_HEADER_SIZE <= n.
Proof.
  unfold record_check. destruct (fl || _) eqn:E; [done|]. rewrite bind_seq.
  destruct (advc_header_decode no_header hb m) as [[r h] m']. cbn. intros H.
  apply orb_false_iff in E as [_ E%Z.ltb_ge]. rewrite !orb_false_iff in H. destruct H as [[[_ H] _] _]. apply negb_false_iff, Z.eqb_eq in H. lia.
Qed.

Lemma receive_two p q cap (m : M) : length p = length q ->
  same_reply (advc_receive_message (reply_slot p cap) m) (advc_receive_message (reply_slot q cap) m).
Proof.
  intros Hl. unfold advc_receive_message, reply_slot. cbn [payload_capacity msg_payload msg_fds with_payload].
  rewrite !bool_decide_eq_false_2, andb_false_r, !bind_seq by done.
  destruct (sys_recvmsg m) as [[e|sent tr ctl] m1]; cbn [fst snd]; [failed|].
  rewrite !bind_seq. destruct (install_control ctl m1) as [dl m2]. cbn [fst snd].
  set (bytes := take _ sent).
  destruct (zlen bytes =? 0); [failed|]. rewrite !bind_seq.
  destruct (gather_fds dl _ 0 m2) as [[[fds n]|] m3]; cbn [fst snd]; [|failed].
  rewrite !bind_seq.
  pose proof (record_check_size (tr || (ADVC_HEADER_SIZE + Z.max 0 cap <? zlen sent)) (zlen bytes)
    (take 32 bytes) n cap m3) as Hc.
  destruct (record_check _ _ _ _ _ m3) as [[bad h] m4]. cbn [fst snd] in *.
  destruct bad; [failed|].
  split; [done|]. split; [done|]. intros _. split; [done|]. split; [done|].
  cbn [with_header with_fds with_payload snd fst msg_header payload_of msg_payload default from_option id mret st_ret].
  replace (payload_size h) with (zlen (drop 32 bytes)); [by apply agree_inserts|].
  specialize (Hc eq_refl). unfold zlen, ADVC_HEADER_SIZE in *. rewrite length_drop. lia.
Qed.

Lemma exchange_two opc sid p q cap v (m : M) : length p = length q ->
  same_reply (transaction_ex opc sid None 0 None 0 p cap v m)
             (transaction_ex opc sid None 0 None 0 q cap v m).
Proof.
  intros Hl. unfold transaction_ex. cbn zeta. cbn [Z.ltb Z.compare ADVC_MAX_FDS orb andb].
  rewrite !bind_seq. destruct (next_request_id m) as [rid m1]. cbn [fst snd default from_option].
  rewrite take_nil. cbn [existsb]. rewrite !bind_seq.
  destruct (advc_send_message _ m1) as [sent m2]. cbn [fst snd].
  destruct (sent <? 0); [failed|]. rewrite !bind_seq.
  destruct (receive_two p q cap m2 Hl) as (Hm & Hr & Hp).
  destruct (advc_receive_message (reply_slot p cap) m2) as [[r1 y1] n1].
  destruct (advc_receive_message (reply_slot q cap) m2) as [[r2 y2] n2]. cbn [fst snd] in *. subst r2 n2.
  destruct (Z.ltb_spec r1 0) as [Hr|Hr]; [failed|].
  destruct (Hp Hr) as (Hh & Hf & Ha). rewrite <- Hh.
  destruct (reply_mismatch _ _ _ _ _); [|by split; [done|split; [done|done]]].
  unfold advc_close_message_fds. cbn zeta. rewrite Hh, Hf, !bind_seq.
  failed.
Qed.

Lemma output_malformed_agree p q h : agree (payload_size h) p q ->
  output_malformed p h = output_malformed q h.
Proof.
  intros Ha. unfold output_malformed. cbn zeta.
  destruct (Z.eqb_spec (payload_size h) ADVC_OUTPUT_BYTES_SIZE) as [Hb|Hb].
  { rewrite Hb in Ha. unfold ADVC_OUTPUT_BYTES_SIZE in Ha.
    rewrite !(agree_u32 _ p q _ Ha), !(agree_u64 _ p q _ Ha) by lia. done. }
  destruct (Z.eqb_spec (payload_size h) ADVC_OUTPUT_READY_SIZE) as [Hr|Hr].
  - rewrite Hr in Ha. unfold ADVC_OUTPUT_READY_SIZE in Ha.
    rewrite (agree_u32 _ p q 28 Ha), (agree_u32 _ p q 72 Ha), (agree_u32 _ p q 108 Ha),
      (agree_u32 _ p q 44 Ha), (agree_u32 _ p q 56 Ha), !(agree_u64 _ p q _ Ha) by lia.
    by destruct (advc_get_u32 q 28 =? ADVC_TRANSPORT_BYTES).
  - cbn [negb orb]. rewrite !andb_true_r.
    by destruct (advc_get_u32 p 28 =? ADVC_TRANSPORT_BYTES), (advc_get_u32 p 28 =? ADVC_TRANSPORT_AHARDWAREBUFFER),
      (advc_get_u32 q 28 =? ADVC_TRANSPORT_BYTES), (advc_get_u32 q 28 =? ADVC_TRANSPORT_AHARDWAREBUFFER).
Qed.

(** A reply that is not malformed has one of the two sizes of its transport. *)
Lemma output_sized p h : output_malformed p h = false ->
  payload_size h = ADVC_OUTPUT_BYTES_SIZE \/
  (payload_size h = ADVC_OUTPUT_READY_SIZE /\ (advc_get_u32 p 28 =? ADVC_TRANSPORT_BYTES) = false).
Proof.
  unfold output_malformed. cbn zeta. rewrite !orb_false_iff.
  intros H. destruct_and! H. destruct (advc_get_u32 p 28 =? ADVC_TRANSPORT_BYTES).
  - left. lia.
  - right. split; [|done]. destruct (advc_get_u32 p 28 =? ADVC_TRANSPORT_AHARDWAREBUFFER); cbn in *; lia.
Qed.

Lemma output_agree p q reply1 reply2 (m : M) :
  agree (payload_size (msg_header reply1)) p q -> msg_header reply1 = msg_header reply2 ->
  msg_fds reply1 = msg_fds reply2 -> output_malformed p (msg_header reply1) = false ->
  output_unsound p reply1 m = output_unsound q reply2 m /\ read_output p reply1 = read_output q reply2.
Proof.
  intros Ha Hh Hf Hm. unfold output_unsound, read_output, fd_at. cbn zeta. rewrite <- Hh, <- Hf.
  destruct (output_sized _ _ Hm) as [Hs|[Hs Ht]]; rewrite Hs in Ha;
    unfold ADVC_OUTPUT_BYTES_SIZE, ADVC_OUTPUT_READY_SIZE in Ha.
  - rewrite !(agree_u32 _ p q _ Ha), !(agree_u64 _ p q _ Ha) by lia. done.
  - rewrite (agree_u32 _ p q 28 Ha) in Ht |- * by lia. rewrite Ht.
    rewrite (agree_u32 _ p q 24 Ha), (agree_u32 _ p q 32 Ha), (agree_u32 _ p q 36 Ha), (agree_u32 _ p q 40 Ha),
      (agree_u32 _ p q 60 Ha), (agree_u32 _ p q 56 Ha), !(agree_u64 _ p q _ Ha) by lia. done.
Qed.

Lemma dequeue_two p q sid (m : M) : length p = length q ->
  let x := advc_client_dequeue_output p sid m in
  let y := advc_client_dequeue_output q sid m in
  snd x = snd y /\ fst (fst (fst x)) = fst (fst (fst y)) /\ snd (fst x) = snd (fst y) /\
  (0 <= fst (fst (fst x)) -> fst x = fst y).
Proof.
  intros Hl. cbn zeta. unfold advc_client_dequeue_output. cbn zeta. destruct (sid =? 0); [done|].
  rewrite !bind_seq. destruct (exchange_two ADVC_OP_DEQUEUE_OUTPUT sid p q ADVC_OUTPUT_BYTES_SIZE true m Hl)
    as (Hm & Hr & Hp).
  destruct (transaction_ex _ _ _ _ _ _ p _ _ m) as [[r1 y1] n1].
  destruct (transaction_ex _ _ _ _ _ _ q _ _ m) as [[r2 y2] n2]. cbn [fst snd] in *. subst r2 n2.
  destruct (Z.ltb_spec r1 0) as [Hr|Hr]; [done|]. destruct (Hp Hr) as (Hh & Hf & Ha).
  rewrite <- Hh. destruct (Z.eqb_spec (payload_size (msg_header y1)) ADVC_STATUS_SIZE) as [Hs|Hs].
  { rewrite Hs in Ha. unfold ADVC_STATUS_SIZE in Ha. unfold parse_status_reply, refuse_reply, advc_close_message_fds.
    cbn zeta. rewrite <- Hh, <- Hf. rewrite !(agree_u32 _ _ _ _ Ha) by lia. rewrite !bind_seq.
    by destruct (_ || _); [|destruct (_ <? _)]; rewrite ?bind_seq. }
  rewrite <- (output_malformed_agree _ _ _ Ha).
  destruct (output_malformed _ _) eqn:Hbad.
  { unfold refuse_reply, advc_close_message_fds. cbn zeta. rewrite <- Hh, <- Hf, !bind_seq. cbn. refine (conj eq_refl (conj eq_refl (conj eq_refl _))). lia. }
  destruct (output_agree _ _ y1 y2 n1 Ha Hh Hf Hbad) as [Hu Hro]. rewrite Hro, !bind_seq, Hu.
  generalize (output_unsound (payload_of y2) y2 n1). intros [[] n2]; cbn [fst snd]; [|done].
  unfold refuse_reply, advc_close_message_fds. cbn zeta. rewrite <- Hh, <- Hf, !bind_seq. cbn. refine (conj eq_refl (conj eq_refl (conj eq_refl _))). lia.
Qed.
End Stack.

(** ** Properties *)

Section Claims.
Context {U B : Type} (ops : advc_backend_ops B).
Context (query : option (advc_session_engine -> St (machine B) (Z * advc_capability_set))).
Notation M := (machine (client_statics U)).

(** C17. HELLO from end to end.  A client's [advc_client_hello] against one round of
    the broker succeeds whatever the contents of the buffers on both sides, and
    reports exactly the features both offer and the 1 MiB payload limit. *)
Theorem hello_end_to_end bits features p rq0 rp0 cfd e (mc : M) (mb : machine B) :
  BackendQuiet ops -> (forall q, query = Some q -> forall e, quiet (q e)) ->
  is_u64 bits -> is_u64 features -> is_u32 (next_value (m_be mc)) ->
  zlen p = ADVC_HELLO_SIZE -> zlen rq0 = ADVC_MAX_PAYLOAD -> zlen rp0 = ADVC_MAX_PAYLOAD ->
  m_txres mc = [] -> m_alloc mb = [] -> m_txres mb = [] ->
  call_over (advc_client_hello p features)
    (advc_broker_handle_once rq0 rp0 cfd (Some (engine_provider ops bits query)) e) mc mb =
  Some (0, Some (Z.land bits features, ADVC_MAX_PAYLOAD)).
Proof. intros. by apply hello_call. Qed.

(** C18. Capabilities from end to end.  For every capability set the device query
    returns, [advc_client_query_capabilities] against one round of the broker
    returns the same set: every entry field for field, the two strings cut to
    their arrays and always terminated, unused entries zero, and the transport
    features restricted to those of the broker. *)
Theorem capabilities_end_to_end bits caps q p rq0 rp0 cfd e (mc : M) (mb : machine B) :
  BackendQuiet ops -> (forall e, quiet (q e)) ->
  query = Some q -> (forall m, fst (q e m) = (0, caps)) -> caps_typed caps ->
  is_u32 (next_value (m_be mc)) ->
  zlen p = caps_capacity -> zlen rq0 = ADVC_MAX_PAYLOAD -> zlen rp0 = ADVC_MAX_PAYLOAD ->
  m_txres mc = [] -> m_alloc mb = [] -> m_txres mb = [] ->
  call_over (advc_client_query_capabilities p)
    (advc_broker_handle_once rq0 rp0 cfd (Some (engine_provider ops bits query)) e) mc mb =
  Some (0, Some (caps_view bits caps)).
Proof.
  intros ? Hq Hs. intros. apply (query_call ops query) with (q := q); try done. by intros ? [= <-]%(eq_trans (eq_sym Hs)).
Qed.

(** What the stack held does not matter.  Two calls of
    [advc_client_dequeue_output] that differ only in the bytes of the reply buffer
    before the record arrives end in the same state with the same status and
    detail, and when they succeed with the same output: no field is ever taken from
    bytes the peer did not send. *)
Theorem dequeue_ignores_stack p q sid (m : M) : length p = length q ->
  let x := advc_client_dequeue_output p sid m in
  let y := advc_client_dequeue_output q sid m in
  snd x = snd y /\ fst (fst (fst x)) = fst (fst (fst y)) /\ snd (fst x) = snd (fst y) /\
  (0 <= fst (fst (fst x)) -> fst x = fst y).
Proof. apply dequeue_two. Qed.

End Claims.

(** ** Instances *)

Definition blank_buffer : list Z := replicate (Z.to_nat ADVC_MAX_PAYLOAD) 0.
Definition client_process0 : machine (client_statics unit) :=
  Machine (Statics 41 tt) ∅ 64 0 [] [] [] [] [].
Definition broker_process0 : machine unit := Machine tt ∅ 64 0 [] [] [] [] [].

Lemma zlen_blank_buffer : zlen blank_buffer = ADVC_MAX_PAYLOAD.
Proof. unfold zlen, blank_buffer. rewrite length_replicate. by apply Z2Nat.id. Qed.

Lemma hello_end_to_end_witness :
  call_over (advc_client_hello (replicate 16 255) 0x46)
    (advc_broker_handle_once blank_buffer blank_buffer 9 (Some (engine_provider idle_ops 0x1c2 None)) empty_engine)
    client_process0 broker_process0 = Some (0, Some (0x42, ADVC_MAX_PAYLOAD)).
Proof.
  change 0x42 with (Z.land 0x1c2 0x46).
  apply (hello_end_to_end idle_ops None 0x1c2 0x46); try apply zlen_blank_buffer.
  - apply idle_quiet.
  - discriminate.
  - wsolve.
  - wsolve.
  - cbn. wsolve.
  - reflexivity.
  - reflexivity.
  - reflexivity.
  - reflexivity.
Defined.

(** One H.264 decoder. *)
Definition sample_capability : advc_codec_capability :=
  Capability (resize 64 0 MIME_AVC) (resize 128 0 [99; 50]) 1 2 1 0 4096 2304 60000 3.
Definition sample_caps : advc_capability_set :=
  Capabilities 34 1 0x1ff (sample_capability :: replicate 31 zero_capability).
Definition sample_query (_ : advc_session_engine) : St (machine unit) (Z * advc_capability_set) :=
  mret (0, sample_caps).

Lemma sample_caps_typed : caps_typed sample_caps.
Proof.
  assert (forall n, Forall is_u8 (replicate n 0)) as H0 by (intros; apply Forall_replicate; wsolve).
  refine (conj _ (conj _ (conj _ (conj _ _)))); try (cbn; unfold ADVC_MAX_CAPABILITIES; wsolve).
  - reflexivity.
  - constructor.
    + refine (conj _ (conj _ _)).
      * cbn. repeat constructor; wsolve.
      * cbn. repeat constructor; wsolve.
      * cbn. repeat split; wsolve.
    + apply Forall_replicate. refine (conj _ (conj _ _)); [apply H0|apply H0|]. cbn. repeat split; wsolve.
Qed.

Lemma capabilities_end_to_end_witness :
  call_over (advc_client_query_capabilities (replicate (Z.to_nat caps_capacity) 7))
    (advc_broker_handle_once blank_buffer blank_buffer 9
       (Some (engine_provider idle_ops 0x2 (Some sample_query))) empty_engine)
    client_process0 broker_process0 = Some (0, Some (caps_view 0x2 sample_caps)) /\
  caps_transport_features (caps_view 0x2 sample_caps) = 2.
Proof.
  split; [|reflexivity].
  apply (capabilities_end_to_end idle_ops (Some sample_query) 0x2 sample_caps sample_query);
    try apply zlen_blank_buffer.
  - apply idle_quiet.
  - intros e. apply quiet_ret.
  - reflexivity.
  - reflexivity.
  - apply sample_caps_typed.
  - cbn. wsolve.
  - unfold zlen. rewrite length_replicate. reflexivity.
  - reflexivity.
  - reflexivity.
  - reflexivity.
Defined.

Lemma dequeue_ignores_stack_witness :
  fst (fst (fst (advc_client_dequeue_output (replicate 136 9) 3 dequeue_process))) = ADVC_STATUS_OK /\
  fst (advc_client_dequeue_output (replicate 136 9) 3 dequeue_process) =
    fst (advc_client_dequeue_output (replicate 136 200) 3 dequeue_process).
Proof.
  split; [vm_compute; reflexivity|].
  apply (dequeue_ignores_stack (replicate 136 9) (replicate 136 200) 3 dequeue_process).
  - reflexivity.
  - vm_compute. discriminate.
Defined.
