(* ===== verification/ClientConnect.v ===== *)
(** * Connecting to the broker (src/src/video_bridge/src/client.c)

    [advc_client_connect] and [advc_client_connect_bounded]: the path checks, the
    optional handoff of a socket by a preload library, the nonblocking connect
    with its deadline, and the retry loop.  [m_be] is the environment of these
    calls: the monotonic clock in nanoseconds, what the next polls and connects
    report, and the status flags of open sockets. *)

From stdpp Require Import base list gmap.
From Stdlib Require Import ZArith Lia Bool.
From Stdlib Require Import String.
#[local] Notation length := List.length.
From S2P Require Import Prelude Kernel Engine EngineFiles EngineInv EngineSafe.

Definition EINPROGRESS : Z := 115.
Definition ETIMEDOUT : Z := 110.
Definition ENOSYS : Z := 38.
Definition INT_MAX : Z := 2 ^ 31 - 1.
Definition INT64_MAX : Z := 2 ^ 63 - 1.
Definition SUN_PATH_SIZE : Z := 108.
Definition O_NONBLOCK : Z := 2048.
Definition O_RDWR : Z := 2.

(** ** The environment *)

(** What a poll reports.  [PReady] carries the outcome of the [getsockopt] that
    follows: its own errno, or the pending socket error. *)
Inductive poll_event :=
  | PTimeout (late : N)
  | PInterrupted (after : N)
  | PFailed (e : Z) (after : N)
  | PReady (after : N) (sockopt : Z + Z).

Record connect_env := CEnv {
  ce_now : Z;                       (* CLOCK_MONOTONIC, nanoseconds *)
  ce_clock : list bool;             (* outcomes of the next clock_gettime calls; [] = success *)
  ce_polls : list poll_event;       (* the next polls; [] = their timeout passes *)
  ce_connect : nat -> Z * N;        (* the i-th connect: 0 or an errno, and its duration *)
  ce_attempts : nat;                (* connects so far *)
  ce_fcntl : list Z;                (* errnos of the next F_GETFL/F_SETFL calls; 0, [] = success *)
  ce_flags : gmap Z Z }.            (* file status flags *)

Notation M := (machine connect_env).

Definition with_now (f : Z -> Z) (c : connect_env) : connect_env :=
  CEnv (f (ce_now c)) (ce_clock c) (ce_polls c) (ce_connect c) (ce_attempts c) (ce_fcntl c) (ce_flags c).
Definition with_clock l (c : connect_env) : connect_env :=
  CEnv (ce_now c) l (ce_polls c) (ce_connect c) (ce_attempts c) (ce_fcntl c) (ce_flags c).
Definition with_polls l (c : connect_env) : connect_env :=
  CEnv (ce_now c) (ce_clock c) l (ce_connect c) (ce_attempts c) (ce_fcntl c) (ce_flags c).
Definition with_attempts n (c : connect_env) : connect_env :=
  CEnv (ce_now c) (ce_clock c) (ce_polls c) (ce_connect c) n (ce_fcntl c) (ce_flags c).
Definition with_fcntl l (c : connect_env) : connect_env :=
  CEnv (ce_now c) (ce_clock c) (ce_polls c) (ce_connect c) (ce_attempts c) l (ce_flags c).
Definition with_flags f (c : connect_env) : connect_env :=
  CEnv (ce_now c) (ce_clock c) (ce_polls c) (ce_connect c) (ce_attempts c) (ce_fcntl c) f.
Definition on_env (f : connect_env -> connect_env) (m : M) : M := set_be (f (m_be m)) m.

(** [clock_gettime(CLOCK_MONOTONIC, &now)]: seconds and nanoseconds. *)
Definition sys_clock : St M (option (Z * Z)) := fun m =>
  let now := (ce_now (m_be m) / 10 ^ 9, ce_now (m_be m) mod 10 ^ 9) in
  match ce_clock (m_be m) with
  | [] => (Some now, m)
  | true :: l => (Some now, on_env (with_clock l) m)
  | false :: l => (None, set_errno EINVAL (on_env (with_clock l) m))
  end.

(** [poll(items, n, timeout)]: the result, and the outcome of a [getsockopt] on
    the ready socket.  A poll of no items reports no readiness. *)
Definition sys_poll (items : bool) (timeout : Z) : St M (Z * (Z + Z)) := fun m =>
  let expire late := with_now (fun t => t + timeout * 10 ^ 6 + Z.of_N late) in
  match ce_polls (m_be m) with
  | [] => ((0, inr 0), on_env (expire 0%N) m)
  | PTimeout late :: l => ((0, inr 0), on_env (fun c => expire late (with_polls l c)) m)
  | PInterrupted dt :: l =>
      ((-1, inr 0), set_errno EINTR (on_env (fun c => with_now (Z.add (Z.of_N dt)) (with_polls l c)) m))
  | PFailed e dt :: l =>
      ((-1, inr 0), set_errno e (on_env (fun c => with_now (Z.add (Z.of_N dt)) (with_polls l c)) m))
  | PReady dt o :: l =>
      if items
      then ((1, o), on_env (fun c => with_now (Z.add (Z.of_N dt)) (with_polls l c)) m)
      else ((0, inr 0), on_env (fun c => expire dt (with_polls l c)) m)
  end.

(** [socket(AF_UNIX, SOCK_SEQPACKET | SOCK_CLOEXEC | flags, 0)] *)
Definition sys_socket (flags : Z) : St M Z :=
  v ← next_io;
  if v <? 0 then mret (-1)
  else
    fd ← install_fd (FdInfo true KOther);
    if fd <? 0 then mret (-1)
    else modify (on_env (fun c => with_flags (<[fd := Z.lor O_RDWR flags]> (ce_flags c)) c)) ;; mret fd.

(** [connect(fd, &address, sizeof(address))] *)
Definition sys_connect : St M Z := fun m =>
  let c := m_be m in
  let '(e, dt) := ce_connect c (ce_attempts c) in
  let m' := on_env (fun c => with_now (Z.add (Z.of_N dt)) (with_attempts (S (ce_attempts c)) c)) m in
  if e =? 0 then (0, m') else (-1, set_errno e m').

Definition next_fcntl : St M Z := fun m =>
  match ce_fcntl (m_be m) with
  | [] => (0, m)
  | e :: l => if e =? 0 then (0, on_env (with_fcntl l) m)
              else (-1, set_errno e (on_env (with_fcntl l) m))
  end.
(** [fcntl(fd, F_GETFL)] *)
Definition fcntl_getfl (fd : Z) : St M Z :=
  r ← next_fcntl; if r <? 0 then mret (-1) else gets (fun m => default 0 (ce_flags (m_be m) !! fd)).
(** [fcntl(fd, F_SETFL, flags)] *)
Definition fcntl_setfl (fd flags : Z) : St M Z :=
  r ← next_fcntl;
  if r <? 0 then mret (-1)
  else modify (on_env (fun c => with_flags (<[fd := flags]> (ce_flags c)) c)) ;; mret 0.

(** ** The code *)

Definition client_monotonic_ms : St M Z :=
  now ← sys_clock;
  match now with
  | None => mret (-1)
  | Some (sec, nsec) =>
      if INT64_MAX / 1000 <? sec then mret (-1) else mret (sec * 1000 + nsec / 1000000)
  end.

Definition restore_blocking_socket (fd : Z) : St M Z :=
  flags ← fcntl_getfl fd;
  if flags <? 0 then mret (-1)
  else r ← fcntl_setfl fd (Z.ldiff flags O_NONBLOCK); if r <? 0 then mret (-1) else mret 0.

Definition remaining_connect_ms (deadline : Z) : St M Z :=
  now ← client_monotonic_ms;
  if now <? 0 then mret (-1)
  else if deadline <=? now then fail_with ETIMEDOUT
  else
    let remaining := deadline - now in
    mret (if INT_MAX <? remaining then INT_MAX else remaining).

(** The loops go round again only after an interrupted poll, so the polls still
    to come bound them. *)
Fixpoint wait_connect_loop (fuel : nat) (deadline : Z) : St M Z :=
  match fuel with
  | O => mret (-1)
  | S fuel =>
      timeout ← remaining_connect_ms deadline;
      if timeout <? 0 then mret (-1)
      else
        '(result, sockopt) ← sys_poll true timeout;
        if result =? 0 then fail_with ETIMEDOUT
        else if result <? 0 then
          e ← errno;
          if e =? EINTR then wait_connect_loop fuel deadline else mret (-1)
        else
          match sockopt with
          | inl e => fail_with e
          | inr socket_error => if negb (socket_error =? 0) then fail_with socket_error else mret 0
          end
  end.
Definition wait_for_nonblocking_connect (fd deadline : Z) : St M Z :=
  polls ← gets (fun m => ce_polls (m_be m));
  wait_connect_loop (S (length polls)) deadline.

Fixpoint wait_retry_loop (fuel : nat) (deadline : Z) : St M Z :=
  match fuel with
  | O => mret (-1)
  | S fuel =>
      remaining ← remaining_connect_ms deadline;
      if remaining <? 0 then mret (-1)
      else
        let delay := if 10 <? remaining then 10 else remaining in
        '(result, _) ← sys_poll false delay;
        if result =? 0 then mret 0
        else
          e ← errno;
          if (result <? 0) && (e =? EINTR) then wait_retry_loop fuel deadline
          else if result <? 0 then mret (-1)
          else wait_retry_loop fuel deadline
  end.
Definition wait_before_connect_retry (deadline : Z) : St M Z :=
  polls ← gets (fun m => ce_polls (m_be m));
  wait_retry_loop (S (length polls)) deadline.

(** [saved = errno; close(fd); errno = saved; return -1;] *)
Definition abandon_socket (fd : Z) : St M Z :=
  saved ← errno; sys_close fd ;; fail_with saved.

(** [None] when [fuel] attempts were not enough. *)
Fixpoint connect_with_deadline (fuel : nat) (deadline : Z) : St M (option Z) :=
  match fuel with
  | O => mret None
  | S fuel =>
      fd ← sys_socket O_NONBLOCK;
      if fd <? 0 then mret (Some (-1))
      else
        let settle : St M (option Z) :=
          r ← restore_blocking_socket fd;
          if r =? 0 then mret (Some fd) else (r ← abandon_socket fd; mret (Some r)) in
        r ← sys_connect;
        if r =? 0 then settle
        else
          saved ← errno;
          let retry saved : St M (option Z) :=
            sys_close fd ;;
            if negb (saved =? EAGAIN) then (r ← fail_with saved; mret (Some r))
            else
              w ← wait_before_connect_retry deadline;
              if w <? 0 then mret (Some (-1)) else connect_with_deadline fuel deadline in
          if (saved =? EINPROGRESS) || (saved =? EALREADY) then
            w ← wait_for_nonblocking_connect fd deadline;
            if w =? 0 then settle else saved ← errno; retry saved
          else retry saved
  end.

(** The unbounded branch: one blocking connect. *)
Definition connect_blocking : St M (option Z) :=
  fd ← sys_socket 0;
  if fd <? 0 then mret (Some (-1))
  else
    r ← sys_connect;
    if r <? 0 then (r ← abandon_socket fd; mret (Some r)) else mret (Some fd).

(** A function found as a weak symbol or, failing that, through [dlsym]. *)
Definition firefox_symbol {A} (weak found : option A) : option A :=
  match weak with Some f => Some f | None => found end.

Definition advc_client_recycle_broker_socket (recycle : option (Z -> St M Z)) (fd : Z) : St M Z :=
  match recycle with
  | None => fail_with ENOSYS
  | Some f => if fd <? 0 then fail_with ENOSYS else f fd
  end.

(** The two entry points of the preload library that a connect may use. *)
Record firefox_hooks := Hooks {
  take_broker_socket : option (string -> St M Z);
  broker_path : option (option string) }.

(** The path the preload library substitutes, if it names one. *)
Definition effective_path (hooks : firefox_hooks) (path : string) : string :=
  match broker_path hooks with
  | Some (Some p) => if String.eqb p EmptyString then path else p
  | _ => path
  end.

(** [path = None] is NULL.  The trace output is left out. *)
Definition advc_client_connect_internal (fuel : nat) (hooks : firefox_hooks) (path : option string)
    (bounded : bool) (timeout_ms : Z) : St M (option Z) :=
  let fail e : St M (option Z) := r ← fail_with e; mret (Some r) in
  match path with
  | None => fail EINVAL
  | Some path =>
      if (SUN_PATH_SIZE <=? Z.of_nat (String.length path)) || (bounded && (timeout_ms =? 0))
      then fail EINVAL
      else
        now ← (if bounded then client_monotonic_ms else mret 0);
        if bounded && ((now <? 0) || (INT64_MAX - timeout_ms <? now)) then fail EOVERFLOW
        else
          let deadline := if bounded then now + timeout_ms else 0 in
          let effective_path := effective_path hooks path in
          if SUN_PATH_SIZE <=? Z.of_nat (String.length effective_path) then fail EINVAL
          else
            taken ← (match take_broker_socket hooks with
                     | Some take => fd ← take effective_path; mret (Some fd)
                     | None => mret None
                     end);
            e ← errno;
            match taken with
            | Some fd =>
                if 0 <=? fd then mret (Some fd)
                else if negb (e =? ENOSYS) then mret (Some (-1))
                else if bounded then connect_with_deadline fuel deadline
                else connect_blocking
            | None =>
                if bounded then connect_with_deadline fuel deadline
                else connect_blocking
            end
  end.

Definition advc_client_connect (hooks : firefox_hooks) (path : option string) : St M (option Z) :=
  advc_client_connect_internal 0 hooks path false 0.
Definition advc_client_connect_bounded (fuel : nat) (hooks : firefox_hooks) (path : option string)
    (timeout_ms : Z) : St M (option Z) :=
  advc_client_connect_internal fuel hooks path true timeout_ms.

(** ** Calls that open and close nothing *)

(** The clock in the unit of the code. *)
Definition ms (m : M) : Z := ce_now (m_be m) / 10 ^ 6.

(** Between [m] and [m'] time passes and nothing else the callers rely on changes. *)
Definition calm (m m' : M) : Prop :=
  m_fds m' = m_fds m /\ ce_attempts (m_be m') = ce_attempts (m_be m) /\
  ce_flags (m_be m') = ce_flags (m_be m) /\ ce_now (m_be m) <= ce_now (m_be m').

#[export] Instance calm_preorder : PreOrder calm.
Proof.
  split; [intros m; repeat split; lia|]. intros a b c (? & ? & ? & ?) (? & ? & ? & ?).
  repeat split; try congruence. lia.
Qed.

Lemma calm_ms m m' : calm m m' -> ms m <= ms m'.
Proof. intros (_ & _ & _ & H). unfold ms. apply Z.div_le_mono; lia. Qed.

(** Every run of [c] is calm and its result satisfies [Q] of both states. *)
Definition calmly {A} (c : St M A) (Q : M -> A -> M -> Prop) : Prop :=
  forall m, calm m (snd (c m)) /\ Q m (fst (c m)) (snd (c m)).

Lemma sys_clock_spec : calmly sys_clock (fun m r m' =>
  ce_now (m_be m') = ce_now (m_be m) /\ ce_polls (m_be m') = ce_polls (m_be m) /\
  (r = None \/ r = Some (ce_now (m_be m) / 10 ^ 9, ce_now (m_be m) mod 10 ^ 9))).
Proof.
  intros m. unfold sys_clock. destruct (ce_clock (m_be m)) as [|[] l]; cbn.
  all: split; [repeat split; cbn; lia|]; auto.
Qed.

Lemma monotonic_spec : calmly client_monotonic_ms (fun m r m' =>
  ce_now (m_be m') = ce_now (m_be m) /\ ce_polls (m_be m') = ce_polls (m_be m) /\ (r < 0 \/ r = ms m)).
Proof.
  intros m. unfold client_monotonic_ms. rewrite bind_seq. destruct (sys_clock_spec m) as (Hc & Hn & Hp & Hr).
  destruct (sys_clock m) as [o m1]. cbn [fst snd] in *.
  destruct Hr as [-> | ->]; [cbn; split_and!; try done; left; lia|].
  destruct (_ <? _); cbn; split_and!; try done; [left; lia|right]. unfold ms.
  Z.to_euclidean_division_equations. lia.
Qed.

Lemma remaining_spec deadline : calmly (remaining_connect_ms deadline) (fun m r m' =>
  ce_now (m_be m') = ce_now (m_be m) /\ ce_polls (m_be m') = ce_polls (m_be m) /\
  (r = -1 \/ (ms m < deadline /\ r = Z.min INT_MAX (deadline - ms m)))).
Proof.
  intros m. unfold remaining_connect_ms. rewrite bind_seq. destruct (monotonic_spec m) as (Hc & Hn & Hp & Hr).
  destruct (client_monotonic_ms m) as [now m1]. cbn [fst snd] in *.
  destruct (Z.ltb_spec now 0); [cbn; split_and!; auto|]. destruct Hr as [?| ->]; [lia|].
  destruct (Z.leb_spec deadline (ms m)); [cbn; split_and!; auto|]. cbn. split_and!; auto. right.
  split; [done|]. destruct (Z.ltb_spec INT_MAX (deadline - ms m)); lia.
Qed.

(** A poll takes its time, and its whole timeout when nothing happens. *)
Lemma sys_poll_spec items timeout : 0 <= timeout -> calmly (sys_poll items timeout) (fun m r m' =>
  (fst r = 0 -> ms m + timeout <= ms m') /\
  (fst r <> 0 -> (length (ce_polls (m_be m')) < length (ce_polls (m_be m)))%nat) /\
  (items = false -> fst r = 0 \/ fst r = -1)).
Proof.
  intros Ht m. unfold sys_poll, calm, ms. destruct (ce_polls (m_be m)) as [|[] l]; [|..|destruct items]; cbn.
  all: split; [repeat split; cbn; try lia|].
  all: split_and!; try done; try lia; auto; intros.
  all: Z.to_euclidean_division_equations; lia.
Qed.

(** The wait before a retry ends, and when it lets the retry go ahead the clock
    has moved 10 ms or to the deadline. *)
Lemma wait_retry_spec deadline fuel m : (length (ce_polls (m_be m)) < fuel)%nat ->
  calm m (snd (wait_retry_loop fuel deadline m)) /\
  (fst (wait_retry_loop fuel deadline m) = -1 \/
   (fst (wait_retry_loop fuel deadline m) = 0 /\ ms m < deadline /\
    Z.min (ms m + 10) deadline <= ms (snd (wait_retry_loop fuel deadline m)))).
Proof.
  revert m. induction fuel as [|fuel IH]; intros m Hf; [lia|]. cbn [wait_retry_loop]. rewrite bind_seq.
  destruct (remaining_spec deadline m) as (Hc & Hn & Hp & Hr).
  destruct (remaining_connect_ms deadline m) as [rem m1]. cbn [fst snd] in *.
  destruct Hr as [-> | [Hlt ->]]; [cbn; auto|].
  destruct (Z.ltb_spec (Z.min INT_MAX (deadline - ms m)) 0) as [?|_]; [unfold INT_MAX in *; lia|]. cbn zeta.
  set (delay := if 10 <? _ then 10 else _).
  assert (delay = Z.min 10 (deadline - ms m)) as Hd.
  { unfold delay, INT_MAX. destruct (Z.ltb_spec 10 (Z.min (2 ^ 31 - 1) (deadline - ms m))); lia. }
  rewrite bind_seq. destruct (sys_poll_spec false delay ltac:(lia) m1) as (Hc2 & H0 & Hlen & Hres).
  destruct (sys_poll false delay m1) as [[r o] m2]. cbn [fst snd] in *.
  assert (calm m m2) as Hc12 by (by etrans).
  assert (ms m1 = ms m) as Hms by (unfold ms; by rewrite Hn).
  destruct (Z.eqb_spec r 0) as [Hr0|Hr0]; [cbn; split; [done|right; specialize (H0 Hr0); lia]|].
  rewrite bind_seq. specialize (Hlen Hr0). rewrite Hp in Hlen. destruct Hres as [?|Hr1]; [done|lia|]. subst r.
  cbn [errno gets fst snd Z.ltb Z.compare andb].
  destruct (m_errno m2 =? EINTR); [|cbn; auto].
  destruct (IH m2 ltac:(lia)) as [Hc3 H3]. pose proof (calm_ms _ _ Hc12). split; [by etrans|].
  destruct H3 as [?|(? & ? & ?)]; [by left|right]. split_and!; [done|lia|lia].
Qed.

(** The wait for a connect in progress ends. *)
Lemma wait_connect_spec deadline fuel m : (length (ce_polls (m_be m)) < fuel)%nat ->
  calm m (snd (wait_connect_loop fuel deadline m)).
Proof.
  revert m. induction fuel as [|fuel IH]; intros m Hf; [lia|]. cbn [wait_connect_loop]. rewrite bind_seq.
  destruct (remaining_spec deadline m) as (Hc & Hn & Hp & Hr).
  destruct (remaining_connect_ms deadline m) as [rem m1]. cbn [fst snd] in *.
  destruct (Z.ltb_spec rem 0); [done|]. rewrite bind_seq.
  destruct (sys_poll_spec true rem ltac:(lia) m1) as (Hc2 & _ & Hlen & _).
  destruct (sys_poll true rem m1) as [[r o] m2]. cbn [fst snd] in *.
  assert (calm m m2) as Hc12 by (by etrans).
  destruct (Z.eqb_spec r 0) as [Hr0|Hr0]; [done|]. specialize (Hlen Hr0). rewrite Hp in Hlen.
  destruct (r <? 0).
  - rewrite bind_seq. cbn [errno gets fst snd]. destruct (m_errno m2 =? EINTR); [|done].
    etrans; [exact Hc12|]. apply IH. lia.
  - destruct o as [e|e]; [done|]. by destruct (negb _).
Qed.

(** ** The connect loop *)

(** The result is -1 with the table as it was, or one new socket in blocking mode. *)
Definition connected (t : gmap Z fd_info) (r : Z) (m : M) : Prop :=
  (r = -1 /\ m_fds m = t) \/
  (0 <= r /\ installed t (m_fds m) [r] /\ Z.land (default 0 (ce_flags (m_be m) !! r)) O_NONBLOCK = 0).

(** Attempts that fit before the deadline. *)
Definition attempts_left (deadline : Z) (m : M) : nat := S (Z.to_nat ((deadline - ms m + 9) / 10)).

Lemma next_fcntl_spec : calmly next_fcntl (fun m r m' => r = 0 \/ r = -1).
Proof.
  intros m. unfold next_fcntl. destruct (ce_fcntl (m_be m)) as [|e l]; [by split; auto|].
  destruct (e =? 0); cbn; split; auto; repeat split; cbn; lia.
Qed.

Lemma restore_spec fd m : m_fds (snd (restore_blocking_socket fd m)) = m_fds m /\
  ce_attempts (m_be (snd (restore_blocking_socket fd m))) = ce_attempts (m_be m) /\
  ce_now (m_be m) <= ce_now (m_be (snd (restore_blocking_socket fd m))) /\
  (fst (restore_blocking_socket fd m) = 0 ->
   Z.land (default 0 (ce_flags (m_be (snd (restore_blocking_socket fd m))) !! fd)) O_NONBLOCK = 0).
Proof.
  unfold restore_blocking_socket, fcntl_getfl, fcntl_setfl. rewrite !bind_seq.
  destruct (next_fcntl_spec m) as [(Ha & Hb & Hd & He) Hr]. destruct (next_fcntl m) as [r m1]. cbn [fst snd] in *.
  destruct Hr as [-> | ->]; [|cbn; split_and!; done]. cbn [Z.ltb Z.compare gets fst snd].
  destruct (_ <? 0); [cbn; split_and!; done|]. rewrite !bind_seq.
  destruct (next_fcntl_spec m1) as [(Ha1 & Hb1 & Hd1 & He1) Hr1]. destruct (next_fcntl m1) as [r1 m2]. cbn [fst snd] in *.
  destruct Hr1 as [-> | ->]; [|cbn; split_and!; try congruence; lia].
  cbn [Z.ltb Z.compare]. rewrite !bind_seq. cbn -[Z.land Z.ldiff].
  split_and!; [congruence|congruence|lia|]. intros _. rewrite lookup_insert_eq. cbn -[Z.land Z.ldiff].
  apply Z.bits_inj'. intros n Hn. rewrite Z.land_spec, Z.ldiff_spec, Z.bits_0.
  by destruct (Z.testbit _ n), (Z.testbit O_NONBLOCK n).
Qed.

Lemma socket_spec flags m :
  ce_attempts (m_be (snd (sys_socket flags m))) = ce_attempts (m_be m) /\
  ce_now (m_be (snd (sys_socket flags m))) = ce_now (m_be m) /\
  ((fst (sys_socket flags m) = -1 /\ m_fds (snd (sys_socket flags m)) = m_fds m) \/
   (0 <= fst (sys_socket flags m) /\
    installed (m_fds m) (m_fds (snd (sys_socket flags m))) [fst (sys_socket flags m)] /\
    ce_flags (m_be (snd (sys_socket flags m))) !! fst (sys_socket flags m) = Some (Z.lor O_RDWR flags))).
Proof.
  unfold sys_socket. rewrite bind_seq.
  assert (m_fds (snd (next_io m)) = m_fds m /\ m_be (snd (next_io m)) = m_be m) as [Hf Hb].
  { unfold next_io. destruct (m_io m) as [|v l]; [done|]. by destruct (v <? 0). }
  destruct (next_io m) as [v m1]. cbn [fst snd] in *. destruct (v <? 0).
  { cbn. rewrite Hf, Hb. auto. }
  rewrite bind_seq. unfold install_fd. destruct (_ <=? _); cbn [fst snd].
  { cbn. rewrite Hf, Hb. auto. }
  pose proof (lowest_free_nonneg (m_fds m1)). destruct (Z.ltb_spec (lowest_free (m_fds m1)) 0); [lia|].
  rewrite bind_seq. cbn -[Z.lor]. rewrite Hb, Hf. split_and!; [done|done|right].
  rewrite Hf in H. split_and!; [done|apply installed_one|by rewrite lookup_insert_eq].
Qed.

Lemma close_one t fd (m : M) : installed t (m_fds m) [fd] ->
  m_fds (snd (sys_close fd m)) = t /\ m_be (snd (sys_close fd m)) = m_be m.
Proof.
  intros H. split.
  - pose proof (close_all_installed t [fd] m H) as Hc. cbn in Hc. by rewrite bind_seq in Hc.
  - unfold sys_close. by destruct (_ !! _).
Qed.

(** What a run from [m] ends in: a result, and at most [n] more attempts. *)
Definition ends (t : gmap Z fd_info) (n : nat) (m : M) (x : option Z * M) : Prop :=
  exists r m', x = (Some r, m') /\ connected t r m' /\
    (ce_attempts (m_be m') <= ce_attempts (m_be m) + n)%nat /\ ce_now (m_be m) <= ce_now (m_be m').

Lemma ends_fail t n (m m' : M) :
  m_fds m' = t -> ce_attempts (m_be m') = ce_attempts (m_be m) -> ce_now (m_be m) <= ce_now (m_be m') ->
  ends t n m (Some (-1), m').
Proof. intros. eexists _, _. split_and!; [done|by left|lia|done]. Qed.

Lemma ends_weaken t n k (m m1 : M) x :
  (ce_attempts (m_be m1) + k <= ce_attempts (m_be m) + n)%nat -> ce_now (m_be m) <= ce_now (m_be m1) ->
  ends t k m1 x -> ends t n m x.
Proof. intros Ha Hn (r & m' & -> & Hc & Ha' & Hn'). exists r, m'. split_and!; [done|done|lia|lia]. Qed.

Lemma abandon_ends t n fd (m : M) : installed t (m_fds m) [fd] ->
  ends t n m ((r ← abandon_socket fd; mret (Some r)) m).
Proof.
  intros Hi. unfold abandon_socket, fail_with, errno_is. rewrite !bind_seq. cbn [errno gets fst snd modify].
  destruct (close_one t fd m Hi) as [Hf Hb].
  apply ends_fail; cbn; [done|by rewrite Hb|by rewrite Hb].
Qed.

Lemma settle_ends t n fd (m : M) : 0 <= fd -> installed t (m_fds m) [fd] ->
  ends t n m ((r ← restore_blocking_socket fd;
    if r =? 0 then mret (Some fd) else (r ← abandon_socket fd; mret (Some r))) m).
Proof.
  intros Hfd Hi. rewrite bind_seq. destruct (restore_spec fd m) as (Hf & Ha & Hn & Hb).
  destruct (restore_blocking_socket fd m) as [r m1]. cbn [fst snd] in *. rewrite <- Hf in Hi.
  destruct (Z.eqb_spec r 0) as [Hr|Hr].
  - exists fd, m1. split_and!; [done| |lia|done]. right. auto.
  - eapply (ends_weaken t n 0); [|exact Hn|by apply abandon_ends]. lia.
Qed.

Lemma connect_spec m : m_fds (snd (sys_connect m)) = m_fds m /\
  ce_attempts (m_be (snd (sys_connect m))) = S (ce_attempts (m_be m)) /\
  ce_now (m_be m) <= ce_now (m_be (snd (sys_connect m))).
Proof.
  unfold sys_connect. cbn zeta. destruct (ce_connect _ _) as [e dt]. destruct (e =? 0); cbn; split_and!; lia || done.
Qed.

Lemma attempts_left_later deadline (m m1 : M) : ms m < deadline -> Z.min (ms m + 10) deadline <= ms m1 ->
  (S (attempts_left deadline m1) <= attempts_left deadline m)%nat.
Proof. unfold attempts_left. intros H1 H2. Z.to_euclidean_division_equations. lia. Qed.

Lemma connect_loop_ends fuel deadline m : (attempts_left deadline m <= fuel)%nat ->
  ends (m_fds m) (attempts_left deadline m) m (connect_with_deadline fuel deadline m).
Proof.
  revert m. induction fuel as [|fuel IH]; intros m Hf; [unfold attempts_left in Hf; lia|].
  cbn [connect_with_deadline]. rewrite bind_seq.
  destruct (socket_spec O_NONBLOCK m) as (Ha & Hn & Hs).
  destruct (sys_socket O_NONBLOCK m) as [fd m1]. cbn [fst snd] in *.
  destruct Hs as [[-> Hfd]|(Hfd & Hi & _)]; [cbn; apply ends_fail; [done|done|lia]|].
  destruct (Z.ltb_spec fd 0); [lia|]. rewrite bind_seq. cbn zeta.
  destruct (connect_spec m1) as (Hf1 & Ha1 & Hn1). destruct (sys_connect m1) as [r m2]. cbn [fst snd] in *.
  rewrite <- Hf1 in Hi. set (left_ := attempts_left deadline m) in *.
  assert (1 <= left_)%nat as Hleft by (unfold left_, attempts_left; lia).
  destruct (r =? 0).
  { eapply (ends_weaken _ _ 0); [| |by apply settle_ends]; lia. }
  rewrite bind_seq. cbn [errno gets fst snd].
  set (retry := fun saved : Z => sys_close fd ≫= _).
  assert (forall saved (m3 : M), m_fds m3 = m_fds m2 -> ce_attempts (m_be m3) = ce_attempts (m_be m2) ->
    ce_now (m_be m2) <= ce_now (m_be m3) -> ends (m_fds m) left_ m (retry saved m3)) as Hretry.
  { intros saved m3 Hf3 Ha3 Hn3. unfold retry. rewrite bind_seq. rewrite <- Hf3 in Hi.
    destruct (close_one _ fd m3 Hi) as [Hf4 Hb4].
    destruct (sys_close fd m3) as [u m4]. cbn [fst snd] in *. rewrite <- Hb4 in *. destruct (negb _).
    { unfold fail_with, errno_is. rewrite !bind_seq. eapply (ends_weaken _ _ 0 m m4); [lia|lia|].
      apply ends_fail; cbn; [done|done|lia]. }
    unfold wait_before_connect_retry. rewrite !bind_seq. cbn [gets fst snd].
    destruct (wait_retry_spec deadline (S (length (ce_polls (m_be m4)))) m4 ltac:(lia)) as [(Hf5 & Ha5 & _ & Hn5) Hw].
    destruct (wait_retry_loop _ deadline m4) as [w m5]. cbn [fst snd] in *.
    assert (ms m <= ms m4) as Hms by (unfold ms; apply Z.div_le_mono; lia).
    destruct Hw as [-> | (-> & Hlt & Hadv)]; cbn [Z.ltb Z.compare].
    { eapply (ends_weaken _ _ 0 m m5); [lia|lia|]. apply ends_fail; [congruence|done|lia]. }
    pose proof (attempts_left_later deadline m m5 ltac:(lia) ltac:(lia)) as Hdec. fold left_ in Hdec.
    eapply (ends_weaken _ _ (attempts_left deadline m5) m m5); [lia|lia|].
    rewrite <- Hf4, <- Hf5. apply IH. lia. }
  destruct (_ || _); [|by apply Hretry].
  unfold wait_for_nonblocking_connect. rewrite !bind_seq. cbn [gets fst snd].
  pose proof (wait_connect_spec deadline (S (length (ce_polls (m_be m2)))) m2 ltac:(lia)) as (Hf3 & Ha3 & _ & Hn3).
  destruct (wait_connect_loop _ deadline m2) as [w m3]. cbn [fst snd] in *.
  destruct (w =? 0).
  - eapply (ends_weaken _ _ 0 m m3); [lia|lia|]. apply settle_ends; [done|by rewrite Hf3].
  - rewrite bind_seq. by apply Hretry.
Qed.

(** The attempts a timeout leaves room for. *)
Definition attempts_bound (timeout_ms : Z) : nat := S (Z.to_nat ((timeout_ms + 9) / 10)).

Lemma connect_loop_bound fuel timeout deadline (m m1 : M) :
  (attempts_bound timeout <= fuel)%nat -> deadline <= ms m + timeout -> m_fds m1 = m_fds m ->
  ce_attempts (m_be m1) = ce_attempts (m_be m) -> ce_now (m_be m) <= ce_now (m_be m1) ->
  ends (m_fds m) (attempts_bound timeout) m (connect_with_deadline fuel deadline m1).
Proof.
  intros Hf Hd Hfd Ha Hn. assert (ms m <= ms m1) as Hms by (unfold ms; apply Z.div_le_mono; lia).
  assert (attempts_left deadline m1 <= attempts_bound timeout)%nat as Hle.
  { unfold attempts_left, attempts_bound.
    assert ((deadline - ms m1 + 9) / 10 <= (timeout + 9) / 10) by (apply Z.div_le_mono; lia). lia. }
  eapply (ends_weaken _ _ (attempts_left deadline m1) m m1); [lia|done|].
  rewrite <- Hfd. apply connect_loop_ends. lia.
Qed.

(** The arguments and clock readings that are refused, with their errno. *)
Definition connect_refusal (hooks : firefox_hooks) (path : option string) (timeout_ms now : Z) : option Z :=
  match path with
  | None => Some EINVAL
  | Some p =>
      if (SUN_PATH_SIZE <=? Z.of_nat (String.length p)) || (timeout_ms =? 0) then Some EINVAL
      else if (now <? 0) || (INT64_MAX - timeout_ms <? now) then Some EOVERFLOW
      else if SUN_PATH_SIZE <=? Z.of_nat (String.length (effective_path hooks p)) then Some EINVAL
      else None
  end.

(** The client's own attempts, from [m]: at most as many as the timeout allows. *)
Definition dialled (timeout_ms : Z) (m : M) (r : Z) (m' : M) : Prop :=
  connected (m_fds m) r m' /\
  (ce_attempts (m_be m') <= ce_attempts (m_be m) + attempts_bound timeout_ms)%nat /\
  ce_now (m_be m) <= ce_now (m_be m').

(** The handoff from [m], whatever the hook does: what it answers is returned, and
    only without a hook or when it answers ENOSYS does the client dial. *)
Definition handed_over (hooks : firefox_hooks) (path : string) (timeout_ms : Z) (m : M) (r : Z) (m' : M) : Prop :=
  match take_broker_socket hooks with
  | None => dialled timeout_ms m r m'
  | Some take =>
      let '(fd, m2) := take (effective_path hooks path) m in
      if 0 <=? fd then r = fd /\ m' = m2
      else if negb (m_errno m2 =? ENOSYS) then r = -1 /\ m' = m2
      else dialled timeout_ms m2 r m'
  end.

(** The hook does not turn the monotonic clock back. *)
Definition hooks_monotonic (hooks : firefox_hooks) (m : M) : Prop :=
  forall take p, take_broker_socket hooks = Some take ->
    ce_now (m_be m) <= ce_now (m_be (snd (take p m))).

Lemma connect_loop_dialled fuel timeout deadline (m : M) :
  (attempts_bound timeout <= fuel)%nat -> deadline <= ms m + timeout ->
  exists r m', connect_with_deadline fuel deadline m = (Some r, m') /\ dialled timeout m r m'.
Proof.
  intros Hf Hd. destruct (connect_loop_bound fuel timeout deadline m m) as (r & m' & H); try done.
  exists r, m'. destruct H as (? & ? & ? & ?). by split_and!.
Qed.

Lemma connect_bounded_outcome fuel hooks path timeout_ms (m : M) :
  0 <= timeout_ms -> (attempts_bound timeout_ms <= fuel)%nat ->
  hooks_monotonic hooks (snd (client_monotonic_ms m)) ->
  exists r m', advc_client_connect_bounded fuel hooks path timeout_ms m = (Some r, m') /\
    match connect_refusal hooks path timeout_ms (fst (client_monotonic_ms m)), path with
    | Some e, _ => r = -1 /\ m_errno m' = e /\ calm m m'
    | None, Some p => handed_over hooks p timeout_ms (snd (client_monotonic_ms m)) r m'
    | None, None => False
    end.
Proof.
  intros Ht Hfuel Hclock. unfold advc_client_connect_bounded, advc_client_connect_internal, connect_refusal. cbn zeta.
  assert (forall e m1, calm m m1 -> exists r m', (r ← fail_with e; mret (Some r)) m1 = (Some r, m') /\
    (r = -1 /\ m_errno m' = e /\ calm m m')) as Hfail.
  { intros e m1 Hm. do 2 eexists. split; [reflexivity|]. split; [done|]. split; [done|]. by etrans. }
  destruct path as [path|]; [|by apply Hfail]. cbn [andb].
  destruct (_ || (timeout_ms =? 0)); [by apply Hfail|]. rewrite bind_seq.
  destruct (monotonic_spec m) as (Hcalm & Hn & _ & Hr).
  destruct (client_monotonic_ms m) as [now m1]. cbn [fst snd] in *.
  destruct ((now <? 0) || _) eqn:Hnow; [by apply Hfail|].
  destruct (SUN_PATH_SIZE <=? _); [by apply Hfail|]. clear Hfail. rewrite bind_seq.
  assert (now + timeout_ms <= ms m1 + timeout_ms) as Hd by (unfold ms in *; rewrite Hn; destruct Hr; lia).
  unfold handed_over. destruct (take_broker_socket hooks) as [take|] eqn:Htake.
  - rewrite !bind_seq. specialize (Hclock take (effective_path hooks path) Htake).
    destruct (take (effective_path hooks path) m1) as [fd m2]. cbn [fst snd mret st_ret errno gets] in *.
    destruct (0 <=? fd); [by do 2 eexists|]. destruct (negb _); [by do 2 eexists|].
    apply connect_loop_dialled; [done|]. assert (ms m1 <= ms m2) by (unfold ms; apply Z.div_le_mono; lia). lia.
  - cbn [fst snd mret st_ret]. rewrite bind_seq. cbn [errno gets fst snd]. by apply connect_loop_dialled.
Qed.

(** C36. A bounded connect comes back, whatever the sockets, the polls, the clock and
    the preload library's handoff report.  Refused arguments and clock readings give
    -1 with their errno and leave the descriptor table alone.  A socket the handoff
    answers is returned as it is, and an error other than ENOSYS is passed on, with
    nothing done after the handoff.  Otherwise the client dials: with a timeout of
    [t] milliseconds it makes at most [ceil(t / 10) + 1] attempts and returns -1 with
    the table as it was before the first, or one new socket, in blocking mode.  The
    hook may do what it likes to the table, such as handing out and closing pooled
    sockets; it only cannot turn the monotonic clock back. *)
Theorem connect_bounded_returns fuel hooks path timeout_ms (m : M) :
  0 <= timeout_ms -> (attempts_bound timeout_ms <= fuel)%nat ->
  hooks_monotonic hooks (snd (client_monotonic_ms m)) ->
  exists r m', advc_client_connect_bounded fuel hooks path timeout_ms m = (Some r, m') /\
    match connect_refusal hooks path timeout_ms (fst (client_monotonic_ms m)), path with
    | Some e, _ => r = -1 /\ m_errno m' = e /\ calm m m'
    | None, Some p => handed_over hooks p timeout_ms (snd (client_monotonic_ms m)) r m'
    | None, None => False
    end.
Proof. apply connect_bounded_outcome. Qed.

(** *** Connecting without a pool

    A handoff that opens what it answers.  The socket pool of the preload library
    (firefox_advc_rdd_socket.c) is no such handoff: its sockets are open already. *)
Definition hooks_ok (hooks : firefox_hooks) : Prop :=
  forall take path m, take_broker_socket hooks = Some take ->
    let x := take path m in
    ce_attempts (m_be (snd x)) = ce_attempts (m_be m) /\ ce_now (m_be m) <= ce_now (m_be (snd x)) /\
    (fst x < 0 -> m_fds (snd x) = m_fds m) /\ (0 <= fst x -> connected (m_fds m) (fst x) (snd x)).

Lemma connect_bounded_ends fuel hooks path timeout_ms (m : M) :
  hooks_ok hooks -> 0 <= timeout_ms -> (attempts_bound timeout_ms <= fuel)%nat ->
  ends (m_fds m) (attempts_bound timeout_ms) m
    (advc_client_connect_bounded fuel hooks path timeout_ms m).
Proof.
  intros Hh Ht Hfuel. destruct (monotonic_spec m) as ((Hf & Ha & _ & Hle) & Hn & _ & _).
  destruct (connect_bounded_outcome fuel hooks path timeout_ms m Ht Hfuel) as (r & m' & Hx & Hout).
  { intros take p Htake. by apply (Hh take p). }
  rewrite Hx. destruct (connect_refusal _ _ _ _) as [e|].
  { destruct Hout as (-> & _ & Hf' & Ha' & _ & Hn'). by apply ends_fail. }
  destruct path as [path|]; [|done]. destruct (client_monotonic_ms m) as [now m1]. cbn [fst snd] in *.
  assert (forall m2 : M, m_fds m2 = m_fds m -> ce_attempts (m_be m2) = ce_attempts (m_be m) ->
    ce_now (m_be m) <= ce_now (m_be m2) -> dialled timeout_ms m2 r m' ->
    ends (m_fds m) (attempts_bound timeout_ms) m (Some r, m')) as Hdial.
  { intros m2 H1 H2 H3 (Hc & H4 & H5). exists r, m'. rewrite H1 in Hc. split_and!; [done|done|lia|lia]. }
  unfold handed_over in Hout. destruct (take_broker_socket hooks) as [take|] eqn:Htake; [|by eapply Hdial].
  destruct (Hh take (effective_path hooks path) m1 Htake) as (Hta & Htn & Htneg & Htpos).
  destruct (take (effective_path hooks path) m1) as [fd m2]. cbn [fst snd] in *.
  destruct (Z.leb_spec 0 fd) as [Hfd|Hfd].
  { destruct Hout as [-> ->]. rewrite <- Hf. exists fd, m2. split_and!; [done|by apply Htpos|lia|lia]. }
  specialize (Htneg Hfd). destruct (negb _).
  - destruct Hout as [-> ->]. apply ends_fail; [congruence|congruence|lia].
  - apply (Hdial m2); [congruence|congruence|lia|done].
Qed.

(** ** Instance *)

(** Every connect answers EAGAIN after 1 ms; one poll is interrupted. *)
Definition busy_env : connect_env :=
  CEnv (5 * 10 ^ 9) [] [PInterrupted 1000000%N] (fun _ => (EAGAIN, 1000000%N)) 0 [] ∅.
Definition busy_process : M := Machine busy_env ∅ 64 0 [] [] [] [] [].
Definition no_hooks : firefox_hooks := Hooks None None.

(** A pool whose socket 3 has died: it is closed, and the client is left to dial. *)
Definition dead_pool (_ : string) : St M Z := sys_close 3 ;; fail_with ENOSYS.
Definition pooled_hooks : firefox_hooks := Hooks (Some dead_pool) (Some (Some "/run/pool"%string)).
Definition pooled_process : M := set_fds {[3 := FdInfo true KOther]} busy_process.

Lemma connect_bounded_returns_witness :
  m_errno (snd (advc_client_connect_bounded 6 pooled_hooks (Some "/run/advc"%string) 35 pooled_process)) = ETIMEDOUT /\
  exists r m', advc_client_connect_bounded 6 pooled_hooks (Some "/run/advc"%string) 35 pooled_process = (Some r, m') /\
    connected ∅ r m' /\ (ce_attempts (m_be m') <= 5)%nat.
Proof.
  split; [vm_compute; reflexivity|].
  destruct (connect_bounded_returns 6 pooled_hooks (Some "/run/advc"%string) 35 pooled_process)
    as (r & m' & H1 & H2).
  - lia.
  - vm_compute. lia.
  - intros take p H. injection H as <-. reflexivity.
  - exists r, m'. split; [exact H1|].
    assert (dialled 35 (snd (dead_pool EmptyString (snd (client_monotonic_ms pooled_process)))) r m')
      as (H3 & H4 & _) by exact H2.
    split; [exact H3|exact H4].
Defined.
