(* ===== verification/RepackCache.v ===== *)
(** * The bookkeeping of the repack gateway (src/src/video_bridge/tools/turnip_repack_cache.c)

    Which cached import a decoded buffer may reuse, and the leases of exported
    destination slots.  A [size_t] result of SIZE_MAX is [None]. *)

From stdpp Require Import base list.
From Stdlib Require Import ZArith Lia Bool Sorted.
From S2P Require Import Prelude Kernel Protocol Dmabuf.

(** ** Source imports *)

Record advc_repack_fd_identity := Identity { id_device : Z; id_inode : Z; id_rdevice : Z }.

Record advc_repack_descriptor_signature := Signature {
  sg_width : Z; sg_height : Z; sg_drm_fourcc : Z; sg_explicit_flags : Z; sg_drm_modifier : Z;
  sg_crop_left : Z; sg_crop_top : Z; sg_crop_width : Z; sg_crop_height : Z;
  sg_object_count : Z; sg_plane_count : Z; sg_color_primaries : Z; sg_color_transfer : Z;
  sg_color_matrix : Z; sg_color_range : Z; sg_chroma_horizontal : Z; sg_chroma_vertical : Z;
  sg_object_sizes : list Z; sg_planes : list advc_dmabuf_plane }.

Record advc_repack_source_key := SourceKey {
  sk_occupied : bool; sk_identity : advc_repack_fd_identity;
  sk_signature : advc_repack_descriptor_signature; sk_last_use : Z }.

#[export] Instance plane_eq_dec : EqDecision advc_dmabuf_plane.
Proof. solve_decision. Defined.
#[export] Instance identity_eq_dec : EqDecision advc_repack_fd_identity.
Proof. solve_decision. Defined.
#[export] Instance signature_eq_dec : EqDecision advc_repack_descriptor_signature.
Proof. solve_decision. Defined.

(** [stat] is what [fstat(fd, &status)] reports: its errno, or device, inode and
    device number.  The result is an errno or the identity. *)
Definition advc_repack_fd_identity_from_fd (stat : Z -> Z + (Z * Z * Z)) (fd : Z)
    : Z + advc_repack_fd_identity :=
  if fd <? 0 then inl EINVAL
  else match stat fd with
       | inl e => inl e
       | inr (dev, ino, rdev) => inr (Identity dev ino rdev)
       end.

(** The first [n] cells of [l], the rest left as [memset] made them. *)
Definition prefix_of {A} (n : Z) (zero : A) (l : list A) : list A :=
  let n := Z.to_nat (Z.min n 4) in take n l ++ replicate (4 - n) zero.

Definition advc_repack_descriptor_signature_make (d : option advc_dmabuf_descriptor)
    : advc_repack_descriptor_signature :=
  match d with
  | None => Signature 0 0 0 0 0 0 0 0 0 0 0 0 0 0 0 0 0 (replicate 4 0) (replicate 4 zero_plane)
  | Some d =>
      Signature (d_width d) (d_height d) (d_drm_fourcc d) (d_explicit_flags d) (d_drm_modifier d)
        (d_crop_left d) (d_crop_top d) (d_crop_width d) (d_crop_height d)
        (d_object_count d) (d_plane_count d) (d_color_primaries d) (d_color_transfer d)
        (d_color_matrix d) (d_color_range d) (d_chroma_horizontal d) (d_chroma_vertical d)
        (prefix_of (d_object_count d) 0 (o_size <$> d_objects d))
        (prefix_of (d_plane_count d) zero_plane (d_planes d))
  end.

(** [memcmp] of two structures that were cleared before they were filled in. *)
Definition advc_repack_descriptor_signature_equal
    (left right : option advc_repack_descriptor_signature) : bool :=
  match left, right with Some l, Some r => bool_decide (l = r) | _, _ => false end.

Definition identity_equal (l r : advc_repack_fd_identity) : bool :=
  (id_device l =? id_device r) && (id_inode l =? id_inode r) && (id_rdevice l =? id_rdevice r).

(** The candidates of the scan: index of a same-object entry, of an empty entry,
    and of the least recently used one with its time. *)
Record scan := Scan { sc_same : option nat; sc_empty : option nat; sc_lru : option nat; sc_oldest : Z }.

Fixpoint scan_keys (i : nat) (keys : list advc_repack_source_key)
    (identity : advc_repack_fd_identity) (signature : advc_repack_descriptor_signature) (s : scan)
    : option nat * bool :=
  match keys with
  | [] => (match sc_same s with
           | Some k => Some k
           | None => match sc_empty s with Some k => Some k | None => sc_lru s end
           end, false)
  | k :: keys =>
      if negb (sk_occupied k) then
        scan_keys (S i) keys identity signature
          (Scan (sc_same s) (match sc_empty s with None => Some i | e => e end) (sc_lru s) (sc_oldest s))
      else
        let same := identity_equal (sk_identity k) identity in
        if same && advc_repack_descriptor_signature_equal (Some (sk_signature k)) (Some signature)
        then (Some i, true)
        else
          let s := if same
                   then Scan (match sc_same s with None => Some i | e => e end)
                          (sc_empty s) (sc_lru s) (sc_oldest s)
                   else s in
          let s := if bool_decide (sc_lru s = None) || (sk_last_use k <? sc_oldest s)
                   then Scan (sc_same s) (sc_empty s) (Some i) (sk_last_use k) else s in
          scan_keys (S i) keys identity signature s
  end.

(** The index and whether it is an exact match; [keys] holds [count] entries. *)
Definition advc_repack_source_key_select (keys : option (list advc_repack_source_key))
    (identity : option advc_repack_fd_identity) (signature : option advc_repack_descriptor_signature)
    : option nat * bool :=
  match keys, identity, signature with
  | Some keys, Some id, Some sg =>
      if bool_decide (keys = []) then (None, false)
      else scan_keys 0 keys id sg (Scan None None None UINT64_MAX)
  | _, _, _ => (None, false)
  end.

(** ** Leases *)

Record advc_repack_lease_key := Lease { lk_leased : bool; lk_token : Z }.

Definition token_collides (candidate : Z) (keys : list advc_repack_lease_key) : bool :=
  existsb (fun k => lk_leased k && (lk_token k =? candidate)) keys.

(** [attempts] rounds are left; the token and the counter afterwards. *)
Fixpoint allocate_loop (attempts : nat) (next_token : Z) (keys : list advc_repack_lease_key) : Z * Z :=
  match attempts with
  | O => (0, next_token)
  | S attempts =>
      let candidate := u64 (next_token + 1) in
      let candidate := if candidate =? 0 then u64 (candidate + 1) else candidate in
      if token_collides candidate keys then allocate_loop attempts candidate keys
      else (candidate, candidate)
  end.
Definition allocate_token (next_token : Z) (keys : list advc_repack_lease_key) : Z * Z :=
  allocate_loop (S (length keys)) next_token keys.

(** The first slot that is free. *)
Fixpoint free_slot (i : nat) (keys : list advc_repack_lease_key) : option nat :=
  match keys with
  | [] => None
  | k :: keys => if lk_leased k then free_slot (S i) keys else Some i
  end.

(** The errno, or slot and token; then the table and the counter. *)
Definition advc_repack_lease_acquire (keys : list advc_repack_lease_key) (next_token : Z)
    : (Z + (nat * Z)) * (list advc_repack_lease_key * Z) :=
  if bool_decide (keys = []) then (inl EINVAL, (keys, next_token))
  else
    match free_slot 0 keys with
    | None => (inl ENOSPC, (keys, next_token))
    | Some i =>
        let '(allocated, next_token) := allocate_token next_token keys in
        if allocated =? 0 then (inl EOVERFLOW, (keys, next_token))
        else (inr (i, allocated), (<[i := Lease true allocated]> keys, next_token))
    end.

Fixpoint find_loop (i : nat) (keys : list advc_repack_lease_key) (token : Z) : option nat :=
  match keys with
  | [] => None
  | k :: keys => if lk_leased k && (lk_token k =? token) then Some i else find_loop (S i) keys token
  end.
Definition advc_repack_lease_find (keys : list advc_repack_lease_key) (token : Z) : Z + nat :=
  if token =? 0 then inl EINVAL
  else match find_loop 0 keys token with Some i => inr i | None => inl ENOENT end.

Definition advc_repack_lease_clear (key : option advc_repack_lease_key) : option advc_repack_lease_key :=
  match key with None => None | Some _ => Some (Lease false 0) end.

(** ** Choosing an import *)

(** Position of the first element that satisfies [f]. *)
Fixpoint first_index {A} (f : A -> bool) (l : list A) : option nat :=
  match l with [] => None | x :: l => if f x then Some O else S <$> first_index f l end.

Lemma first_index_snoc {A} (f : A -> bool) l x :
  first_index f (l ++ [x]) =
    match first_index f l with Some i => Some i | None => if f x then Some (length l) else None end.
Proof.
  induction l as [|y l IH]; cbn; [by destruct (f x)|]. destruct (f y); [done|]. rewrite IH.
  destruct (first_index f l); [done|]. by destruct (f x).
Qed.

Lemma first_index_app_Some {A} (f : A -> bool) l l' i :
  first_index f l = Some i -> first_index f (l ++ l') = Some i.
Proof.
  revert i. induction l as [|x l IH]; intros i; cbn; [done|]. destruct (f x); [done|].
  destruct (first_index f l); [|done]. by rewrite (IH n).
Qed.

Lemma first_index_Some {A} (f : A -> bool) l i : first_index f l = Some i ->
  exists x, l !! i = Some x /\ f x = true /\ forall j y, (j < i)%nat -> l !! j = Some y -> f y = false.
Proof.
  revert i. induction l as [|x l IH]; intros i; cbn; [done|]. destruct (f x) eqn:Hx.
  - intros [= <-]. exists x. split_and!; [done|done|]. intros j y Hj. lia.
  - destruct (first_index f l) as [k|] eqn:Hk; [|done]. intros [= <-].
    destruct (IH k eq_refl) as (y & Hy & Hf & Hlt). exists y. split_and!; [done|done|].
    intros [|j] z Hj; cbn; [by intros [= <-]|apply Hlt; lia].
Qed.

Lemma first_index_None {A} (f : A -> bool) l : first_index f l = None ->
  forall x, x ∈ l -> f x = false.
Proof.
  induction l as [|x l IH]; cbn; [intros _ y Hy; by apply not_elem_of_nil in Hy|].
  destruct (f x) eqn:Hx; [done|].
  destruct (first_index f l); [done|]. intros _ y [->|Hy]%elem_of_cons; [done|by apply IH].
Qed.

Section Select.
Context (id : advc_repack_fd_identity) (sg : advc_repack_descriptor_signature).
Implicit Types keys pre : list advc_repack_source_key.

Definition same_object (k : advc_repack_source_key) : bool := sk_occupied k && identity_equal (sk_identity k) id.
Definition exact_import (k : advc_repack_source_key) : bool :=
  same_object k && bool_decide (sk_signature k = sg).
Definition vacant (k : advc_repack_source_key) : bool := negb (sk_occupied k).

(** [i] holds the least recently used entry of [l], the first of them. *)
Definition oldest_at (l : list advc_repack_source_key) (i : nat) (k : advc_repack_source_key) : Prop :=
  l !! i = Some k /\ sk_occupied k = true /\
  forall j k', l !! j = Some k' -> sk_occupied k' = true ->
    sk_last_use k <= sk_last_use k' /\ ((j < i)%nat -> sk_last_use k < sk_last_use k').

(** The candidates after the entries [pre]. *)
Definition scanned pre (s : scan) : Prop :=
  sc_same s = first_index same_object pre /\ sc_empty s = first_index vacant pre /\
  match sc_lru s with
  | None => forall k, k ∈ pre -> sk_occupied k = false
  | Some i => exists k, oldest_at pre i k /\ sc_oldest s = sk_last_use k
  end.

Lemma identity_equal_true a b : identity_equal a b = true <-> a = b.
Proof. destruct a, b. unfold identity_equal. cbn. rewrite !andb_true_iff, !Z.eqb_eq. split; [intros [[-> ->] ->]; done|by intros [= -> -> ->]]. Qed.

(** Taking one more occupied entry into account. *)
Lemma oldest_snoc pre k (lru : option nat) oldest :
  sk_occupied k = true ->
  match lru with
  | None => forall k, k ∈ pre -> sk_occupied k = false
  | Some i => exists k, oldest_at pre i k /\ oldest = sk_last_use k
  end ->
  if bool_decide (lru = None) || (sk_last_use k <? oldest)
  then oldest_at (pre ++ [k]) (length pre) k
  else exists i k', lru = Some i /\ oldest_at (pre ++ [k]) i k' /\ oldest = sk_last_use k'.
Proof.
  intros Hk Hlru.
  assert (forall j k', (pre ++ [k]) !! j = Some k' -> (j < length pre)%nat /\ pre !! j = Some k' \/ j = length pre /\ k' = k) as Hat.
  { intros j k' [Hj|[Hj Hj2]]%lookup_app_Some; [left; split; [by eapply lookup_lt_Some|done]|].
    apply list_lookup_singleton_Some in Hj2 as [? ->]. right. split; [lia|done]. }
  assert ((forall j k', (j < length pre)%nat -> pre !! j = Some k' -> sk_occupied k' = true -> sk_last_use k < sk_last_use k') ->
    oldest_at (pre ++ [k]) (length pre) k) as Hnew.
  { intros H. split_and!; [by apply list_lookup_middle|done|]. intros j k' Hj Ho.
    destruct (Hat j k' Hj) as [[Hl Hp]|[-> ->]]; [|lia]. specialize (H j k' Hl Hp Ho). lia. }
  destruct lru as [i|].
  - destruct Hlru as (k0 & (Hi & Ho0 & Hmin) & ->). rewrite bool_decide_eq_false_2 by done. cbn [orb].
    destruct (Z.ltb_spec (sk_last_use k) (sk_last_use k0)).
    + apply Hnew. intros j k' _ Hj Ho. destruct (Hmin j k' Hj Ho). lia.
    + exists i, k0. split_and!; [done| |done]. split_and!; [by apply lookup_app_l_Some|done|].
      intros j k' Hj Ho. destruct (Hat j k' Hj) as [[Hl Hp]|[-> ->]]; [by apply Hmin|].
      split; [lia|]. apply lookup_lt_Some in Hi. lia.
  - rewrite bool_decide_eq_true_2 by done. cbn [orb]. apply Hnew. intros j k' _ Hj Ho.
    apply list_elem_of_lookup_2 in Hj. by rewrite (Hlru _ Hj) in Ho.
Qed.

(** The promised choice: an exact import, else an entry of the same object, else a
    vacant one, else the least recently used. *)
Definition chosen keys (x : option nat * bool) : Prop :=
  match first_index exact_import keys with
  | Some i => x = (Some i, true)
  | None =>
      snd x = false /\
      match first_index same_object keys with
      | Some i => fst x = Some i
      | None =>
          match first_index vacant keys with
          | Some i => fst x = Some i
          | None => exists i k, fst x = Some i /\ oldest_at keys i k
          end
      end
  end.

(** The candidates after an occupied entry, as the loop updates them. *)
Definition see_occupied (i : nat) (k : advc_repack_source_key) (s : scan) : scan :=
  let s := if identity_equal (sk_identity k) id
           then Scan (match sc_same s with None => Some i | e => e end)
                  (sc_empty s) (sc_lru s) (sc_oldest s) else s in
  if bool_decide (sc_lru s = None) || (sk_last_use k <? sc_oldest s)
  then Scan (sc_same s) (sc_empty s) (Some i) (sk_last_use k) else s.

Lemma scanned_occupied pre k s : sk_occupied k = true -> scanned pre s ->
  scanned (pre ++ [k]) (see_occupied (length pre) k s).
Proof.
  intros Ho (Hs & He & Hl). pose proof (oldest_snoc pre k (sc_lru s) (sc_oldest s) Ho Hl) as Hold.
  set (s1 := if identity_equal (sk_identity k) id
             then Scan (match sc_same s with None => Some (length pre) | e => e end)
                    (sc_empty s) (sc_lru s) (sc_oldest s) else s).
  assert (sc_lru s1 = sc_lru s /\ sc_oldest s1 = sc_oldest s /\ sc_empty s1 = first_index vacant (pre ++ [k]) /\
    sc_same s1 = first_index same_object (pre ++ [k])) as (H1 & H2 & H3 & H4).
  { unfold s1. rewrite !first_index_snoc, <- Hs, <- He. unfold same_object, vacant. rewrite Ho. cbn [negb andb].
    destruct (identity_equal _ id); cbn [sc_lru sc_oldest sc_empty sc_same];
      (split; [done|split; [done|]]); by destruct (sc_empty s), (sc_same s). }
  unfold see_occupied. fold s1. cbn zeta. rewrite H1, H2.
  destruct (bool_decide _ || _); (split; [done|split; [done|]]).
  - cbn. eauto.
  - destruct Hold as (i & k' & Hi & ? & ?). rewrite H1, Hi, H2. eauto.
Qed.

Lemma scanned_vacant pre k s : sk_occupied k = false -> scanned pre s ->
  scanned (pre ++ [k])
    (Scan (sc_same s) (match sc_empty s with None => Some (length pre) | e => e end) (sc_lru s) (sc_oldest s)).
Proof.
  intros Ho (Hs & He & Hl). split; [|split]; cbn [sc_same sc_empty sc_lru sc_oldest].
  - rewrite first_index_snoc, <- Hs. unfold same_object. rewrite Ho. by destruct (sc_same s).
  - rewrite first_index_snoc, <- He. unfold vacant. rewrite Ho. by destruct (sc_empty s).
  - destruct (sc_lru s) as [i|].
    + destruct Hl as (k0 & (Hi & Ho0 & Hmin) & Hold). exists k0. split; [|done].
      split_and!; [by apply lookup_app_l_Some|done|]. intros j k' Hj Ho'.
      apply lookup_app_Some in Hj as [Hj|[_ Hj]]; [by apply Hmin|].
      apply list_lookup_singleton_Some in Hj as [_ ->]. congruence.
    + intros k0 [Hk0|Hk0]%elem_of_app; [by apply Hl|]. by apply list_elem_of_singleton in Hk0 as ->.
Qed.

Lemma scan_chosen keys pre s : pre ++ keys <> [] ->
  scanned pre s -> first_index exact_import pre = None ->
  chosen (pre ++ keys) (scan_keys (length pre) keys id sg s).
Proof.
  revert pre s. induction keys as [|k keys IH]; intros pre s Hne Hsc Hx.
  - destruct Hsc as (Hs & He & Hl).
    rewrite app_nil_r in *. cbn [scan_keys]. unfold chosen. rewrite Hx, <- Hs, <- He. cbn [fst snd].
    split; [done|]. destruct (sc_same s); [done|]. destruct (sc_empty s) eqn:Hem; [done|].
    destruct (sc_lru s) as [i|]; [destruct Hl as (k & Hk & _); eauto|].
    destruct pre as [|k0 pre]; [done|]. exfalso. symmetry in He.
    pose proof (first_index_None _ _ He k0 ltac:(left)) as Hv. unfold vacant in Hv.
    by rewrite (Hl k0 ltac:(left)) in Hv.
  - cbn [scan_keys]. rewrite cons_middle, app_assoc in Hne |- *.
    replace (S (length pre)) with (length (pre ++ [k])) by (rewrite length_app; cbn; lia).
    pose proof (first_index_snoc exact_import pre k) as Hn. rewrite Hx in Hn.
    destruct (sk_occupied k) eqn:Ho; cbn [negb].
    + destruct (identity_equal (sk_identity k) id && _) eqn:Hek.
      * unfold chosen. replace (exact_import k) with true in Hn
          by (unfold exact_import, same_object; by rewrite Ho).
        by rewrite (first_index_app_Some _ _ _ _ Hn).
      * apply (IH (pre ++ [k]) (see_occupied (length pre) k s)); [done|by apply scanned_occupied|].
        rewrite Hn. unfold exact_import, same_object. rewrite Ho. cbn [andb].
        cbn [advc_repack_descriptor_signature_equal] in Hek. by rewrite Hek.
    + apply IH; [done|by apply scanned_vacant|]. rewrite Hn. unfold exact_import, same_object. by rewrite Ho.
Qed.
End Select.

(** The choice of a cached import.  Over a table of any size, the search returns
    the first entry for the same kernel object with the same layout when there is
    one and says so; otherwise the first stale entry of that object, otherwise the
    first vacant entry, otherwise the least recently used entry; it never fails on a
    nonempty table. *)
Theorem source_select_exact keys id sg : keys <> [] ->
  chosen id sg keys (advc_repack_source_key_select (Some keys) (Some id) (Some sg)).
Proof.
  intros Hne. unfold advc_repack_source_key_select. rewrite bool_decide_eq_false_2 by done.
  apply (scan_chosen id sg keys []); [done| |done]. split_and!; [done|done|]. cbn. intros k Hk. by apply not_elem_of_nil in Hk.
Qed.

(** ** Tokens *)

Definition CYCLE : Z := 2 ^ 64 - 1.

(** The [k]-th candidate after [x]: the nonzero 64-bit values in order, round and round. *)
Definition nth_token (k : nat) (x : Z) : Z := (x + Z.of_nat k) mod CYCLE + 1.

Lemma candidate_eq x : is_u64 x ->
  (if u64 (x + 1) =? 0 then u64 (u64 (x + 1) + 1) else u64 (x + 1)) = nth_token 0 x.
Proof.
  unfold is_u64, nth_token, CYCLE, u64. intros Hx. rewrite Z.add_0_r.
  destruct (Z.eq_dec x (2 ^ 64 - 1)) as [->|Hne]; [reflexivity|].
  rewrite (Z.mod_small (x + 1)), (Z.mod_small x) by lia. destruct (Z.eqb_spec (x + 1) 0); lia.
Qed.

Lemma nth_token_range k x : 1 <= nth_token k x < 2 ^ 64.
Proof. unfold nth_token, CYCLE. pose proof (Z.mod_pos_bound (x + Z.of_nat k) (2 ^ 64 - 1)). lia. Qed.

Lemma nth_token_next k x : nth_token k (nth_token 0 x) = nth_token (S k) x.
Proof.
  unfold nth_token. rewrite Z.add_0_r. f_equal.
  replace (x mod CYCLE + 1 + Z.of_nat k) with (x mod CYCLE + Z.of_nat (S k)) by lia.
  by rewrite Zplus_mod_idemp_l.
Qed.

Lemma nth_token_inj x i j : Z.of_nat i < CYCLE -> Z.of_nat j < CYCLE ->
  nth_token i x = nth_token j x -> i = j.
Proof.
  unfold nth_token, CYCLE. intros Hi Hj H.
  assert ((x + Z.of_nat i) mod (2 ^ 64 - 1) = (x + Z.of_nat j) mod (2 ^ 64 - 1)) as He by lia.
  Z.to_euclidean_division_equations. nia.
Qed.

Definition tokens (keys : list advc_repack_lease_key) : list Z :=
  lk_token <$> filter (fun k => lk_leased k = true) keys.

Lemma token_collides_spec c keys : token_collides c keys = true <-> c ∈ tokens keys.
Proof.
  unfold token_collides, tokens. rewrite existsb_exists, list_elem_of_fmap. split.
  - intros (k & Hk & [Hl Ht%Z.eqb_eq]%andb_true_iff). exists k. split; [done|].
    apply list_elem_of_filter. split; [done|by apply list_elem_of_In].
  - intros (k & -> & [Hl Hk]%list_elem_of_filter). exists k. split; [by apply list_elem_of_In|].
    by rewrite Hl, Z.eqb_refl.
Qed.

Lemma allocate_tokens_spec n x keys : is_u64 x ->
  (fst (allocate_loop n x keys) = 0 /\ forall k, (k < n)%nat -> nth_token k x ∈ tokens keys) \/
  (exists k, (k < n)%nat /\ allocate_loop n x keys = (nth_token k x, nth_token k x) /\
     nth_token k x ∉ tokens keys).
Proof.
  revert x. induction n as [|n IH]; intros x Hx; cbn [allocate_loop]; [left; split; [done|lia]|].
  cbn zeta. rewrite candidate_eq by done. pose proof (nth_token_range 0 x) as Hr.
  destruct (token_collides (nth_token 0 x) keys) eqn:Hc.
  - apply token_collides_spec in Hc.
    destruct (IH (nth_token 0 x)) as [[H0 Hall]|(k & Hk & Heq & Hn)]; [unfold is_u64; lia|left|right].
    + split; [done|]. intros [|k] Hk; [done|]. rewrite <- nth_token_next. apply Hall. lia.
    + exists (S k). rewrite <- nth_token_next. split_and!; [lia|done|done].
  - right. exists O. split_and!; [lia|done|]. intros Hin%token_collides_spec. congruence.
Qed.

(** There are more candidates than slots, so one of them is free. *)
Lemma allocate_token_fresh x keys : is_u64 x -> zlen keys < CYCLE - 1 ->
  exists k, (k <= length keys)%nat /\ allocate_token x keys = (nth_token k x, nth_token k x) /\
    nth_token k x ∉ tokens keys.
Proof.
  intros Hx Hl. unfold allocate_token.
  destruct (allocate_tokens_spec (S (length keys)) x keys Hx) as [[_ Hall]|(k & Hk & Heq & Hn)];
    [|exists k; split_and!; [lia|done|done]].
  exfalso. assert (length (map (fun k => nth_token k x) (seq 0 (S (length keys)))) <= length (tokens keys))%nat as Hle.
  { apply submseteq_length, NoDup_submseteq.
    - apply NoDup_fmap_2_strong; [|apply NoDup_ListNoDup, seq_NoDup].
      intros i j Hi%elem_of_seq Hj%elem_of_seq. apply nth_token_inj; unfold zlen in Hl; lia.
    - intros c Hc%list_elem_of_fmap. destruct Hc as (k & -> & Hk%elem_of_seq). apply Hall. lia. }
  rewrite length_map, length_seq in Hle. unfold tokens in Hle. rewrite length_fmap in Hle.
  pose proof (length_filter (fun k => lk_leased k = true) keys). lia.
Qed.

(** ** The lease table as a machine *)

Inductive lease_op := LAcquire | LClear (slot : nat).

(** The table, the counter and the tokens handed out, newest first. *)
Record lease_state := LeaseState { ls_keys : list advc_repack_lease_key; ls_next : Z; ls_issued : list Z }.

Definition lease_step (s : lease_state) (op : lease_op) : lease_state :=
  match op with
  | LAcquire =>
      let '(r, (keys, next)) := advc_repack_lease_acquire (ls_keys s) (ls_next s) in
      LeaseState keys next (match r with inr (_, t) => t :: ls_issued s | inl _ => ls_issued s end)
  | LClear i =>
      LeaseState (match advc_repack_lease_clear (ls_keys s !! i) with
                  | Some k => <[i := k]> (ls_keys s) | None => ls_keys s end) (ls_next s) (ls_issued s)
  end.
Definition lease_run (ops : list lease_op) (s : lease_state) : lease_state := fold_left lease_step ops s.
Definition fresh_leases (n : nat) : lease_state := LeaseState (replicate n (Lease false 0)) 0 [].

(** Leased slots hold distinct nonzero tokens. *)
Record lease_ok (n : nat) (s : lease_state) : Prop := {
  lo_length : length (ls_keys s) = n;
  lo_distinct : NoDup (tokens (ls_keys s));
  lo_nonzero : Forall (fun t => 1 <= t < 2 ^ 64) (tokens (ls_keys s));
  lo_next : is_u64 (ls_next s) }.

Lemma free_slot_spec keys i : free_slot i keys = (Nat.add i) <$> first_index (fun k => negb (lk_leased k)) keys.
Proof.
  revert i. induction keys as [|k keys IH]; intros i; cbn; [done|]. destruct (lk_leased k); cbn; [|by rewrite Nat.add_0_r].
  rewrite IH. destruct (first_index _ keys); cbn; [f_equal; lia|done].
Qed.

Lemma find_loop_spec keys t i :
  find_loop i keys t = (Nat.add i) <$> first_index (fun k => lk_leased k && (lk_token k =? t)) keys.
Proof.
  revert i. induction keys as [|k keys IH]; intros i; cbn; [done|]. destruct (_ && _); cbn; [by rewrite Nat.add_0_r|].
  rewrite IH. destruct (first_index _ keys); cbn; [f_equal; lia|done].
Qed.

Lemma tokens_insert keys i k k0 : keys !! i = Some k0 ->
  exists l1 l2, tokens keys = l1 ++ tokens [k0] ++ l2 /\ tokens (<[i := k]> keys) = l1 ++ tokens [k] ++ l2.
Proof.
  intros Hi. exists (tokens (take i keys)), (tokens (drop (S i) keys)).
  assert (forall a b : list advc_repack_lease_key, tokens (a ++ b) = tokens a ++ tokens b) as Happ.
  { intros a b. unfold tokens. by rewrite filter_app, fmap_app. }
  split.
  - rewrite <- (take_drop_middle keys i k0 Hi) at 1. rewrite cons_middle, !Happ. done.
  - rewrite insert_take_drop by (by eapply lookup_lt_Some). rewrite cons_middle, !Happ. done.
Qed.

(** A lease that is granted: the first free slot, with a token no leased slot holds. *)
Lemma acquire_grants n s i : lease_ok n s -> Z.of_nat n < CYCLE - 1 ->
  first_index (fun k => negb (lk_leased k)) (ls_keys s) = Some i ->
  exists k, (k <= n)%nat /\ let t := nth_token k (ls_next s) in
    advc_repack_lease_acquire (ls_keys s) (ls_next s) =
      (inr (i, t), (<[i := Lease true t]> (ls_keys s), t)) /\ t ∉ tokens (ls_keys s).
Proof.
  intros [Hl _ _ Hn] Hb Hi. unfold advc_repack_lease_acquire.
  rewrite bool_decide_eq_false_2 by (intros H0; by rewrite H0 in Hi).
  rewrite free_slot_spec, Hi. cbn [fmap option_fmap option_map Nat.add].
  destruct (allocate_token_fresh (ls_next s) (ls_keys s) Hn) as (k & Hk & Ha & Hf); [unfold zlen; lia|].
  exists k. split; [lia|]. cbn zeta. rewrite Ha. pose proof (nth_token_range k (ls_next s)).
  by destruct (Z.eqb_spec (nth_token k (ls_next s)) 0); [lia|].
Qed.

Lemma lease_step_ok n s op : Z.of_nat n < CYCLE - 1 -> lease_ok n s -> lease_ok n (lease_step s op).
Proof.
  intros Hb Hok. destruct op as [|i]; cbn [lease_step].
  - destruct (first_index (fun k => negb (lk_leased k)) (ls_keys s)) as [i|] eqn:Hi.
    + destruct (acquire_grants n s i Hok Hb Hi) as (k & _ & Ha & Hf). rewrite Ha.
      destruct Hok as [Hl Hd Hz Hn]. pose proof (nth_token_range k (ls_next s)) as Hr.
      destruct (first_index_Some _ _ _ Hi) as (k0 & Hk0 & Hfree & _).
      destruct (tokens_insert (ls_keys s) i (Lease true (nth_token k (ls_next s))) k0 Hk0) as (l1 & l2 & Ht & Ht').
      assert (tokens [k0] = []) as H0 by (destruct k0 as [[] ?]; [done|reflexivity]).
      rewrite H0 in Ht. cbn [app] in Ht. rewrite Ht in *.
      constructor; cbn [ls_keys ls_next]; [by rewrite length_insert| | |unfold is_u64; lia]; rewrite Ht';
        change (tokens [Lease true (nth_token k (ls_next s))]) with [nth_token k (ls_next s)]; cbn [app].
      * rewrite <- Permutation_middle. by constructor.
      * rewrite <- Permutation_middle. by constructor.
    + unfold advc_repack_lease_acquire. rewrite free_slot_spec, Hi. cbn.
      destruct (bool_decide _); by destruct Hok; constructor.
  - destruct Hok as [Hl Hd Hz Hn]. destruct (ls_keys s !! i) as [k0|] eqn:Hk0; cbn [advc_repack_lease_clear]; [|by constructor].
    destruct (tokens_insert (ls_keys s) i (Lease false 0) k0 Hk0) as (l1 & l2 & Ht & Ht'). rewrite Ht in *.
    change (tokens [Lease false 0]) with (@nil Z) in Ht'. cbn [app] in Ht'.
    constructor; cbn [ls_keys ls_next]; [by rewrite length_insert| | |done]; rewrite Ht'.
    + rewrite Permutation_app_swap_app in Hd. by apply NoDup_app in Hd as (_ & _ & ?).
    + rewrite !Forall_app in Hz. rewrite Forall_app. tauto.
Qed.

Lemma lease_run_ok n ops s : Z.of_nat n < CYCLE - 1 -> lease_ok n s -> lease_ok n (lease_run ops s).
Proof.
  intros Hb. revert s. induction ops as [|op ops IH]; intros s Hs; [done|]. cbn. by apply IH, lease_step_ok.
Qed.

Lemma fresh_leases_ok n : lease_ok n (fresh_leases n).
Proof.
  assert (tokens (replicate n (Lease false 0)) = []) as Ht by (induction n; [done|by cbn]).
  constructor; cbn [fresh_leases ls_keys ls_next]; rewrite ?Ht, ?length_replicate;
    [done|constructor|constructor|unfold is_u64; lia].
Qed.

(** Two leased slots do not hold the same token. *)
Lemma tokens_slots keys i j k k' : NoDup (tokens keys) -> keys !! i = Some k -> keys !! j = Some k' ->
  lk_leased k = true -> lk_leased k' = true -> lk_token k' = lk_token k -> j = i.
Proof.
  intros Hd Hi Hj Hk Hk' He. destruct (Nat.eq_dec j i) as [?|Hne]; [done|exfalso].
  rewrite <- (take_drop_middle keys i k Hi) in Hd. unfold tokens in Hd. rewrite filter_app, filter_cons_True in Hd by done.
  rewrite fmap_app, fmap_cons, <- Permutation_middle in Hd. apply NoDup_cons in Hd as [Hd _]. apply Hd.
  rewrite <- fmap_app, <- filter_app, <- He. apply list_elem_of_fmap. exists k'. split; [done|].
  apply list_elem_of_filter. split; [done|]. apply elem_of_app.
  destruct (Nat.lt_ge_cases j i); [left|right].
  - apply (list_elem_of_lookup_2 _ j). by rewrite lookup_take_lt.
  - apply (list_elem_of_lookup_2 _ (j - S i)). rewrite lookup_drop. by replace (S i + (j - S i))%nat with j by lia.
Qed.

(** The slot of a token that is leased, and no slot for one that is not. *)
Lemma find_leased n s i k : lease_ok n s -> ls_keys s !! i = Some k -> lk_leased k = true ->
  advc_repack_lease_find (ls_keys s) (lk_token k) = inr i.
Proof.
  intros [Hl Hd Hz _] Hk Hleased. unfold advc_repack_lease_find.
  assert (lk_token k ∈ tokens (ls_keys s)) as Hin.
  { unfold tokens. apply list_elem_of_fmap. exists k. split; [done|]. apply list_elem_of_filter.
    split; [done|]. by eapply list_elem_of_lookup_2. }
  rewrite Forall_forall in Hz. specialize (Hz _ Hin). destruct (Z.eqb_spec (lk_token k) 0); [lia|].
  rewrite find_loop_spec. destruct (first_index _ (ls_keys s)) as [j|] eqn:Hj; cbn.
  - destruct (first_index_Some _ _ _ Hj) as (k' & Hk' & [Hl' Ht'%Z.eqb_eq]%andb_true_iff & _).
    do 2 f_equal. by eapply (tokens_slots (ls_keys s) i j k k').
  - pose proof (first_index_None _ _ Hj k ltac:(by eapply list_elem_of_lookup_2)) as Hf. cbn in Hf.
    by rewrite Hleased, Z.eqb_refl in Hf.
Qed.

Lemma find_stale keys t : t <> 0 -> t ∉ tokens keys -> advc_repack_lease_find keys t = inl ENOENT.
Proof.
  intros H0 Hn. unfold advc_repack_lease_find. destruct (Z.eqb_spec t 0); [done|]. rewrite find_loop_spec.
  destruct (first_index _ keys) as [j|] eqn:Hj; [|done]. exfalso. apply Hn.
  destruct (first_index_Some _ _ _ Hj) as (k' & Hk' & [Hl' Ht'%Z.eqb_eq]%andb_true_iff & _).
  apply list_elem_of_fmap. exists k'. split; [done|]. apply list_elem_of_filter. split; [done|].
  by eapply list_elem_of_lookup_2.
Qed.

(** As long as the counter does not wrap, a step raises it by at most [n + 1] and
    issues only a greater token. *)
Lemma lease_step_issued n s op : lease_ok n s -> Z.of_nat n < CYCLE - 1 -> ls_next s + Z.of_nat n < CYCLE ->
  ls_next s <= ls_next (lease_step s op) <= ls_next s + Z.of_nat n + 1 /\
  (ls_issued (lease_step s op) = ls_issued s \/
   exists t, ls_issued (lease_step s op) = t :: ls_issued s /\ ls_next s < t <= ls_next (lease_step s op)).
Proof.
  intros Hok Hb Hn. destruct op as [|i]; cbn [lease_step]; [|cbn; split; [lia|by left]].
  destruct (first_index (fun k => negb (lk_leased k)) (ls_keys s)) as [i|] eqn:Hi.
  - destruct (acquire_grants n s i Hok Hb Hi) as (k & Hk & Ha & _). cbn zeta in Ha. rewrite Ha. cbn [ls_next ls_issued].
    destruct Hok as [_ _ _ Hu]. unfold is_u64 in Hu.
    assert (nth_token k (ls_next s) = ls_next s + Z.of_nat k + 1) as -> by (unfold nth_token; rewrite Z.mod_small; lia).
    split; [lia|]. right. eexists. split; [done|lia].
  - unfold advc_repack_lease_acquire. rewrite free_slot_spec, Hi.
    destruct (bool_decide _); cbn; (split; [lia|by left]).
Qed.

Lemma lease_run_issued n ops s : lease_ok n s -> Z.of_nat n < CYCLE - 1 ->
  StronglySorted Z.gt (ls_issued s) -> Forall (fun t => 0 < t <= ls_next s) (ls_issued s) ->
  ls_next s + Z.of_nat (length ops) * (Z.of_nat n + 1) < CYCLE ->
  StronglySorted Z.gt (ls_issued (lease_run ops s)) /\ Forall (fun t => 0 < t) (ls_issued (lease_run ops s)).
Proof.
  revert s. induction ops as [|op ops IH]; intros s Hok Hbn Hs Hf Hb.
  { split; [done|eapply Forall_impl; [exact Hf|cbn; lia]]. }
  cbn [length] in Hb. destruct (lease_step_issued n s op Hok Hbn) as [Hn Hi]; [lia|].
  pose proof (lo_next _ _ Hok) as Hu. unfold is_u64 in Hu.
  cbn. apply IH; [by apply lease_step_ok|done| | |lia].
  - destruct Hi as [->|(t & -> & Ht)]; [done|]. constructor; [done|]. eapply Forall_impl; [exact Hf|cbn; lia].
  - destruct Hi as [->|(t & -> & Ht)]; [|constructor; [lia|]]; (eapply Forall_impl; [exact Hf|cbn; lia]).
Qed.

(** C27. The lease table is never ambiguous.  After any sequence of acquisitions and
    releases on a table of [n] slots, leased slots hold distinct nonzero tokens, a
    token finds exactly the slot it was issued for, an acquisition succeeds whenever
    a slot is free (the 64-bit counter wraps and skips the tokens in use) and takes
    the first free slot with a token no other lease holds, and it fails with ENOSPC
    otherwise. *)
Theorem lease_table_invariant n ops : (0 < n)%nat -> Z.of_nat n < CYCLE - 1 ->
  let s := lease_run ops (fresh_leases n) in
  lease_ok n s /\
  (forall i k, ls_keys s !! i = Some k -> lk_leased k = true ->
     advc_repack_lease_find (ls_keys s) (lk_token k) = inr i) /\
  match first_index (fun k => negb (lk_leased k)) (ls_keys s) with
  | Some i =>
      exists t, fst (advc_repack_lease_acquire (ls_keys s) (ls_next s)) = inr (i, t) /\
        t ∉ tokens (ls_keys s) /\ ls_keys (lease_step s LAcquire) = <[i := Lease true t]> (ls_keys s)
  | None => fst (advc_repack_lease_acquire (ls_keys s) (ls_next s)) = inl ENOSPC
  end.
Proof.
  intros Hn Hb. cbn zeta. pose proof (lease_run_ok n ops _ Hb (fresh_leases_ok n)) as Hok.
  set (s := lease_run ops (fresh_leases n)) in *. split_and!; [done| |].
  - intros i k Hk Hleased. by apply (find_leased n).
  - destruct (first_index _ (ls_keys s)) as [i|] eqn:Hi.
    + destruct (acquire_grants n s i Hok Hb Hi) as (k & _ & Ha & Hf). cbn zeta in *.
      exists (nth_token k (ls_next s)). cbn [lease_step]. by rewrite Ha.
    + unfold advc_repack_lease_acquire. rewrite free_slot_spec, Hi.
      rewrite bool_decide_eq_false_2; [done|]. intros H0. destruct Hok as [Hl _ _ _]. rewrite H0 in Hl. cbn in Hl. lia.
Qed.

(** A token is not reused.  As long as the counter has not gone round its 64 bits
    (at most [n + 1] steps per acquisition), the tokens handed out from the start are
    strictly increasing, so a token kept after its release finds nothing, not
    another client's slot. *)
Theorem lease_tokens_unique n ops : (0 < n)%nat -> Z.of_nat (length ops) * (Z.of_nat n + 1) < CYCLE ->
  let s := lease_run ops (fresh_leases n) in
  StronglySorted Z.gt (ls_issued s) /\
  (forall t, t ∈ ls_issued s -> t ∉ tokens (ls_keys s) -> advc_repack_lease_find (ls_keys s) t = inl ENOENT).
Proof.
  intros Hn Hb. cbn zeta.
  assert (Z.of_nat n < CYCLE - 1 \/ ops = []) as [Hbn|Hnil].
  { destruct ops; [by right|left]. cbn [length] in Hb. nia. }
  - destruct (lease_run_issued n ops (fresh_leases n)) as [Hs Hlt]; [apply fresh_leases_ok|done|constructor|constructor|done|].
    split; [done|]. intros t Ht Hnot. apply find_stale; [|done]. rewrite Forall_forall in Hlt. specialize (Hlt _ Ht). lia.
  - rewrite Hnil. cbn. split; [constructor|]. intros t Ht. by apply not_elem_of_nil in Ht.
Qed.

Lemma source_select_exact_witness :
  let keys := [SourceKey true (Identity 1 2 0) (advc_repack_descriptor_signature_make None) 9;
               SourceKey false (Identity 0 0 0) (advc_repack_descriptor_signature_make None) 0] in
  advc_repack_source_key_select (Some keys) (Some (Identity 1 3 0)) (Some (advc_repack_descriptor_signature_make None))
    = (Some 1%nat, false) /\
  chosen (Identity 1 3 0) (advc_repack_descriptor_signature_make None) keys (Some 1%nat, false).
Proof.
  cbn zeta. split; [vm_compute; reflexivity|].
  apply (source_select_exact [SourceKey true (Identity 1 2 0) (advc_repack_descriptor_signature_make None) 9;
               SourceKey false (Identity 0 0 0) (advc_repack_descriptor_signature_make None) 0]
    (Identity 1 3 0) (advc_repack_descriptor_signature_make None)). discriminate.
Defined.

Lemma lease_table_invariant_witness :
  ls_keys (lease_run [LAcquire; LAcquire; LClear 0; LAcquire] (fresh_leases 2)) = [Lease true 3; Lease true 2] /\
  lease_ok 2 (lease_run [LAcquire; LAcquire; LClear 0; LAcquire] (fresh_leases 2)).
Proof.
  split; [vm_compute; reflexivity|].
  refine (proj1 (lease_table_invariant 2 [LAcquire; LAcquire; LClear 0; LAcquire] _ _)).
  - lia.
  - reflexivity.
Defined.

Lemma lease_tokens_unique_witness :
  advc_repack_lease_find (ls_keys (lease_run [LAcquire; LAcquire; LClear 0; LAcquire] (fresh_leases 2))) 1 = inl ENOENT.
Proof.
  refine (proj2 (lease_tokens_unique 2 [LAcquire; LAcquire; LClear 0; LAcquire] _ _) 1 _ _).
  - lia.
  - reflexivity.
  - vm_compute. repeat constructor.
  - vm_compute. intros H. repeat (apply elem_of_cons in H as [?|H]; [discriminate|]). by apply not_elem_of_nil in H.
Defined.
