(* ===== verification/MapperMetadata.v ===== *)
(** * Gralloc metadata (src/src/video_bridge/android/stable_mapper_metadata.c)

    The vendor's IMapper returns the metadata of a buffer as a byte stream in the
    encoding of AOSP's IMapperMetadataTypes.h.  This file models the decoders of
    the stream, the gate on the plane layouts and the recognition of the QTI NV12
    layouts.  The encoding is written as functions from values to bytes, and the
    decoders are proved to accept exactly their images; the recogniser is proved
    equal to a statement about the set of layouts without any wrap-around. *)

From stdpp Require Import base list gmap strings.
From Stdlib Require Import ZArith Lia Bool.
From S2P Require Import Prelude Kernel Dmabuf Engine.

(** ** Little-endian integers *)

(** The unsigned value of bytes copied into an integer, and its inverse. *)
Fixpoint le (bs : list Z) : Z :=
  match bs with [] => 0 | b :: bs => b + 256 * le bs end.
Fixpoint le_enc (n : nat) (z : Z) : list Z :=
  match n with O => [] | S n => z mod 256 :: le_enc n (z / 256) end.

(** The signed reading of a [w]-bit value. *)
Definition signed (w x : Z) : Z := if x <? 2 ^ (w - 1) then x else x - 2 ^ w.
Definition is_i64 (z : Z) : Prop := - 2 ^ 63 <= z < 2 ^ 63.
Definition is_i32 (z : Z) : Prop := - 2 ^ 31 <= z < 2 ^ 31.

(** ** The reader *)

Definition ADVC_STANDARD_METADATA_PLANE_LAYOUTS : Z := 15.
Definition ADVC_STANDARD_METADATA_CROP : Z := 16.
Definition ADVC_MAX_MAPPER_PLANE_COMPONENTS : Z := 16.
Definition ADVC_MAX_MAPPER_COMPONENT_NAME : Z := 256.

(** A [metadata_reader] is the rest of the stream, [cursor] and [remaining] in
    one.  Every failure of a reader has errno EPROTO, so it is [None]. *)
Definition metadata_reader : Type := list Z.
Definition Rd (A : Type) : Type := metadata_reader -> option (A * metadata_reader).
#[export] Instance rd_ret : MRet Rd := fun A a r => Some (a, r).
#[export] Instance rd_bind : MBind Rd :=
  fun A B k p r => match p r with Some (a, r') => k a r' | None => None end.
Definition rd_guard (b : bool) : Rd unit := fun r => if b then Some (tt, r) else None.

(** [take] with a destination; with a NULL destination the result is ignored. *)
Definition rd_take (size : Z) : Rd (list Z) := fun r =>
  if zlen r <? size then None
  else Some (firstn (Z.to_nat size) r, skipn (Z.to_nat size) r).

Definition take_i64 : Rd Z := v ← rd_take 8; mret (signed 64 (le v)).
Definition take_i32 : Rd Z := v ← rd_take 4; mret (signed 32 (le v)).

Definition standard_metadata_name : list Z :=
  bytes_of "android.hardware.graphics.common.StandardMetadataType"%string.

Definition rd_remaining : Rd Z := fun r => Some (zlen r, r).
Definition rd_cursor : Rd (list Z) := fun r => Some (r, r).

Definition skip_string (require_standard : bool) : Rd unit :=
  length ← take_i64; rest ← rd_remaining;
  rd_guard (negb ((length <? 0) || (SIZE_MAX <? length) || (rest <? length))) ;;
  text ← rd_cursor;
  rd_guard (negb (require_standard &&
    (negb (length =? zlen standard_metadata_name) ||
     negb (str_eq (firstn (Z.to_nat length) text) standard_metadata_name)))) ;;
  rd_take length ;; mret tt.

(** The bytes stored before the terminating NUL of a [value_size] array. *)
Definition read_string (value_size : Z) : Rd (list Z) :=
  length ← take_i64; rest ← rd_remaining;
  rd_guard (negb ((value_size =? 0) || (length <? 0) || (SIZE_MAX <? length) ||
    (rest <? length) || (value_size <=? length))) ;;
  rd_take length.

(** [data] is [None] for NULL; [inl] is the errno of a failure. *)
Definition read_header (data : option (list Z)) (expected_type : Z) : Z + metadata_reader :=
  match data with
  | None | Some [] => inl EINVAL
  | Some bytes =>
      match (skip_string true ;; actual_type ← take_i64; rd_guard (actual_type =? expected_type)) bytes with
      | None => inl EPROTO
      | Some (_, r) => inr r
      end
  end.

(** ** The decoders *)

(** [errno0] is the errno at the call: trailing bytes set EPROTO only over 0. *)
Definition decode_scalar (width : Z) (errno0 : Z) (data : option (list Z)) (metadata_type : Z) : Z + Z :=
  match read_header data metadata_type with
  | inl e => inl e
  | inr r =>
      match rd_take width r with
      | None => inl EPROTO
      | Some (v, []) => inr (le v)
      | Some (_, _ :: _) => inl (if errno0 =? 0 then EPROTO else errno0)
      end
  end.
Definition advc_mapper_metadata_decode_u32 := decode_scalar 4.
Definition advc_mapper_metadata_decode_u64 := decode_scalar 8.

Record advc_mapper_plane_component := Component {
  type_name : list Z;         (* without the terminating NUL *)
  type_value : Z;
  offset_bits : Z;
  size_bits : Z }.

(** [components] holds the [component_count] entries in use; the others are zero
    and never read. *)
Record advc_mapper_plane_layout := Layout {
  components : list advc_mapper_plane_component;
  offset_bytes : Z;
  sample_increment_bits : Z;
  stride_bytes : Z;
  width_samples : Z;
  height_samples : Z;
  total_size_bytes : Z;
  horizontal_subsampling : Z;
  vertical_subsampling : Z }.
Definition component_count (l : advc_mapper_plane_layout) : Z := zlen (components l).

Record advc_mapper_crop := Crop { c_left : Z; c_top : Z; c_right : Z; c_bottom : Z }.

(** [for (i = 0; i < n; ++i) p] collecting the results. *)
Fixpoint rd_times {A} (n : nat) (p : Rd A) : Rd (list A) :=
  match n with
  | O => mret []
  | S n => a ← p; l ← rd_times n p; mret (a :: l)
  end.

Definition read_component : Rd advc_mapper_plane_component :=
  name ← read_string ADVC_MAX_MAPPER_COMPONENT_NAME;
  value ← take_i64; offset ← take_i64; size ← take_i64;
  mret (Component name value offset size).

Definition read_field : Rd Z :=
  f ← take_i64; rd_guard (0 <=? f) ;; mret f.

(** The eight fields in their order on the wire. *)
Definition plane_of (cs : list advc_mapper_plane_component) (fields : list Z) : advc_mapper_plane_layout :=
  let field i := nth i fields 0 in
  Layout cs (field 0%nat) (field 1%nat) (field 2%nat) (field 3%nat) (field 4%nat) (field 5%nat)
    (field 6%nat) (field 7%nat).

Definition read_plane : Rd advc_mapper_plane_layout :=
  count ← take_i64;
  rd_guard (negb ((count <? 0) || (ADVC_MAX_MAPPER_PLANE_COMPONENTS <? count))) ;;
  cs ← rd_times (Z.to_nat count) read_component;
  fields ← rd_times 8 read_field;
  let plane := plane_of cs fields in
  rd_guard (negb ((stride_bytes plane =? 0) || (UINT32_MAX <? stride_bytes plane) ||
    (total_size_bytes plane =? 0))) ;;
  mret plane.

Definition read_crop : Rd advc_mapper_crop :=
  l ← take_i32; t ← take_i32; r ← take_i32; b ← take_i32;
  rd_guard (negb ((l <? 0) || (t <? 0) || (r <=? l) || (b <=? t))) ;;
  mret (Crop l t r b).

(** A count of one to four, that many entries, nothing after them.  The failures
    of the header are overwritten with EPROTO. *)
Definition decode_array {A} (entry : Rd A) (metadata_type : Z) (data : option (list Z)) : Z + list A :=
  match read_header data metadata_type with
  | inl _ => inl EPROTO
  | inr r =>
      match (count ← take_i64;
             rd_guard (negb ((count <=? 0) || (ADVC_MAX_DMABUF_PLANES <? count))) ;;
             rd_times (Z.to_nat count) entry) r with
      | Some (l, []) => inr l
      | _ => inl EPROTO
      end
  end.
Definition advc_mapper_metadata_decode_plane_layouts :=
  decode_array read_plane ADVC_STANDARD_METADATA_PLANE_LAYOUTS.
Definition advc_mapper_metadata_decode_crops :=
  decode_array read_crop ADVC_STANDARD_METADATA_CROP.

(** ** The layout gate and the QTI NV12 recogniser *)

Inductive advc_prime_layout_gate_status :=
  | ADVC_PRIME_LAYOUT_GATE_PASS
  | ADVC_PRIME_LAYOUT_GATE_CROP_PLANE_COUNT_MISMATCH
  | ADVC_PRIME_LAYOUT_GATE_AMBIGUOUS_MULTI_FD.

Definition advc_mapper_prime_layout_gate (transport_fds plane_count crop_count : Z)
  : advc_prime_layout_gate_status :=
  if negb (crop_count =? plane_count) then ADVC_PRIME_LAYOUT_GATE_CROP_PLANE_COUNT_MISMATCH
  else if negb (transport_fds =? 1) then ADVC_PRIME_LAYOUT_GATE_AMBIGUOUS_MULTI_FD
  else ADVC_PRIME_LAYOUT_GATE_PASS.

Definition ADVC_DRM_FORMAT_NV12 : Z := 0x3231564e.
Definition ADVC_DRM_FORMAT_MOD_LINEAR : Z := 0.
Definition ADVC_DRM_FORMAT_MOD_QCOM_COMPRESSED : Z := 0x0500000000000001.
Definition ADVC_STANDARD_COMPONENT_Y : Z := 1.
Definition ADVC_STANDARD_COMPONENT_CB : Z := 2.
Definition ADVC_STANDARD_COMPONENT_CR : Z := 4.
Definition ADVC_QTI_COMPONENT_METADATA : Z := -2147483648.

Definition standard_component_name : list Z :=
  bytes_of "android.hardware.graphics.common.PlaneLayoutComponentType"%string.
Definition qti_name : list Z := bytes_of "QTI"%string.

Definition component_is (name : list Z) (value offset size : Z) (c : advc_mapper_plane_component) : bool :=
  str_eq (cstring (type_name c)) name && (type_value c =? value) &&
  (offset_bits c =? offset) && (size_bits c =? size).

(** How many of the components in use are the given one. *)
Definition matching (l : advc_mapper_plane_layout) (name : list Z) (value offset size : Z) : Z :=
  count (component_is name value offset size) (components l).

Definition layout_is_y_data (l : advc_mapper_plane_layout) : bool :=
  (component_count l =? 1) &&
  match components l with
  | c :: _ => component_is standard_component_name ADVC_STANDARD_COMPONENT_Y 0 8 c
  | [] => false
  end.

Definition layout_is_uv_data (l : advc_mapper_plane_layout) : bool :=
  (component_count l =? 2) &&
  (matching l standard_component_name ADVC_STANDARD_COMPONENT_CB 0 8 =? 1) &&
  (matching l standard_component_name ADVC_STANDARD_COMPONENT_CR 8 8 =? 1).

Definition layout_has_qti_metadata (l : advc_mapper_plane_layout) : bool :=
  matching l qti_name ADVC_QTI_COMPONENT_METADATA 0 0 =? 1.

Definition layout_is_y_metadata (l : advc_mapper_plane_layout) : bool :=
  (component_count l =? 2) && layout_has_qti_metadata l &&
  (matching l standard_component_name ADVC_STANDARD_COMPONENT_Y 0 0 =? 1).

Definition layout_is_uv_metadata (l : advc_mapper_plane_layout) : bool :=
  (component_count l =? 3) && layout_has_qti_metadata l &&
  (matching l standard_component_name ADVC_STANDARD_COMPONENT_CB 0 0 =? 1) &&
  (matching l standard_component_name ADVC_STANDARD_COMPONENT_CR 0 0 =? 1).

Definition layout_extent_valid (allocation_size : Z) (l : advc_mapper_plane_layout) : bool :=
  (0 <? stride_bytes l) && (stride_bytes l <=? UINT32_MAX) && (offset_bytes l <? allocation_size) &&
  (0 <? total_size_bytes l) && (total_size_bytes l <=? u64 (allocation_size - offset_bytes l)).

Definition crop_covers_image (c : advc_mapper_crop) (width height stride : Z)
    (y_data : advc_mapper_plane_layout) : bool :=
  if negb (c_left c =? 0) || negb (c_top c =? 0) || (c_right c <? 0) || (c_bottom c <? 0) ||
     (u64 (c_right c) <? width) || (u64 (c_bottom c) <? height) || (stride <? u64 (c_right c)) then false
  else u64 (c_bottom c) <=? total_size_bytes y_data / stride_bytes y_data.

Inductive advc_mapper_qti_nv12_layout_kind := ADVC_MAPPER_QTI_NV12_LINEAR | ADVC_MAPPER_QTI_NV12_UBWC.

Record advc_mapper_qti_nv12_layout := Nv12 {
  kind : advc_mapper_qti_nv12_layout_kind;
  image_transport_index : Z;
  plane_count : Z;
  plane_offsets : Z * Z;
  plane_strides : Z * Z }.

(** What the call is given besides the layouts. *)
Record nv12_query := Query {
  q_fourcc : Z;
  q_modifier : Z;
  q_allocation_size : Z;
  q_width : Z;
  q_height : Z;
  q_stride : Z;
  q_transport_fds : Z;
  q_transport_fd_sizes : list Z;   (* ADVC_MAX_DMABUF_OBJECTS of them *)
  q_qti_data_fd_transport_index : Z;
  q_qti_data_fd_valid : bool;
  q_qti_data_fd_size : Z }.

(** The four pointers the loop fills. *)
Record nv12_slots := Slots {
  y_data : option advc_mapper_plane_layout;
  uv_data : option advc_mapper_plane_layout;
  y_metadata : option advc_mapper_plane_layout;
  uv_metadata : option advc_mapper_plane_layout }.
Definition no_slots : nv12_slots := Slots None None None None.

(** One round of the loop; [None] for both of its EPROTO exits. *)
Definition nv12_slot (allocation_size : Z) (s : nv12_slots) (l : advc_mapper_plane_layout) : option nv12_slots :=
  if negb (layout_extent_valid allocation_size l) then None
  else if layout_is_y_data l then
    match y_data s with
    | Some _ => None
    | None => Some (Slots (Some l) (uv_data s) (y_metadata s) (uv_metadata s))
    end
  else if layout_is_uv_data l then
    match uv_data s with
    | Some _ => None
    | None => Some (Slots (y_data s) (Some l) (y_metadata s) (uv_metadata s))
    end
  else if layout_is_y_metadata l then
    match y_metadata s with
    | Some _ => None
    | None => Some (Slots (y_data s) (uv_data s) (Some l) (uv_metadata s))
    end
  else if layout_is_uv_metadata l then
    match uv_metadata s with
    | Some _ => None
    | None => Some (Slots (y_data s) (uv_data s) (y_metadata s) (Some l))
    end
  else None.

Fixpoint nv12_collect (allocation_size : Z) (s : nv12_slots) (ls : list advc_mapper_plane_layout)
  : option nv12_slots :=
  match ls with
  | [] => Some s
  | l :: ls =>
      match nv12_slot allocation_size s l with
      | Some s => nv12_collect allocation_size s ls
      | None => None
      end
  end.

(** The guard with errno ENOTSUP; the index of [transport_fd_sizes] is in range
    when it is read. *)
Definition nv12_unsupported (q : nv12_query) (crop_count : Z) : bool :=
  negb (q_fourcc q =? ADVC_DRM_FORMAT_NV12) ||
  (negb (q_modifier q =? ADVC_DRM_FORMAT_MOD_LINEAR) &&
   negb (q_modifier q =? ADVC_DRM_FORMAT_MOD_QCOM_COMPRESSED)) ||
  (q_allocation_size q =? 0) || (q_width q =? 0) || (q_height q =? 0) ||
  (q_stride q <? q_width q) ||
  (q_transport_fds q =? 0) || (ADVC_MAX_DMABUF_OBJECTS <? q_transport_fds q) ||
  negb (q_qti_data_fd_valid q) || (q_qti_data_fd_transport_index q <? 0) ||
  (q_transport_fds q <=? u32 (q_qti_data_fd_transport_index q)) ||
  negb (q_qti_data_fd_size q =? q_allocation_size q) ||
  negb (nth (Z.to_nat (q_qti_data_fd_transport_index q)) (q_transport_fd_sizes q) 0 =? q_allocation_size q) ||
  negb (crop_count =? 1).

Definition nv12_geometry_bad (q : nv12_query) (crop : advc_mapper_crop)
    (y uv : advc_mapper_plane_layout) : bool :=
  negb (stride_bytes y =? q_stride q) || negb (stride_bytes uv =? q_stride q) ||
  negb (width_samples y =? q_width q) || negb (height_samples y =? q_height q) ||
  negb (horizontal_subsampling y =? 1) || negb (vertical_subsampling y =? 1) ||
  negb (width_samples uv =? u32 (q_width q + 1) / 2) ||
  negb (height_samples uv =? u32 (q_height q + 1) / 2) ||
  negb (horizontal_subsampling uv =? 2) || negb (vertical_subsampling uv =? 2) ||
  negb (crop_covers_image crop (q_width q) (q_height q) (q_stride q) y).

(** The end of a layout as the code adds it. *)
Definition layout_end (l : advc_mapper_plane_layout) : Z := u64 (offset_bytes l + total_size_bytes l).

Definition advc_mapper_qti_nv12_normalize (q : nv12_query) (layouts : list advc_mapper_plane_layout)
    (crops : list advc_mapper_crop) : Z + advc_mapper_qti_nv12_layout :=
  let ambiguous := inl EPROTO in
  if nv12_unsupported q (zlen crops) then inl ENOTSUP
  else
    match nv12_collect (q_allocation_size q) no_slots layouts with
    | None => ambiguous
    | Some s =>
        match y_data s, uv_data s with
        | Some y, Some uv =>
            if nv12_geometry_bad q (default (Crop 0 0 0 0) (head crops)) y uv then ambiguous
            else
              let normalized k offsets :=
                Nv12 k (u32 (q_qti_data_fd_transport_index q)) 2 offsets
                  (u32 (stride_bytes y), u32 (stride_bytes uv)) in
              if q_modifier q =? ADVC_DRM_FORMAT_MOD_LINEAR then
                match y_metadata s, uv_metadata s with
                | None, None =>
                    if negb (zlen layouts =? 2) || (offset_bytes uv <? layout_end y) then ambiguous
                    else inr (normalized ADVC_MAPPER_QTI_NV12_LINEAR (offset_bytes y, offset_bytes uv))
                | _, _ => ambiguous
                end
              else
                match y_metadata s, uv_metadata s with
                | Some ym, Some uvm =>
                    if negb (zlen layouts =? 4) ||
                       negb (layout_end ym =? offset_bytes y) ||
                       negb (layout_end y =? offset_bytes uvm) ||
                       negb (layout_end uvm =? offset_bytes uv) ||
                       (stride_bytes y <=? stride_bytes ym) || (stride_bytes uv <=? stride_bytes uvm)
                    then ambiguous
                    else inr (normalized ADVC_MAPPER_QTI_NV12_UBWC (offset_bytes ym, offset_bytes uvm))
                | _, _ => ambiguous
                end
        | _, _ => ambiguous
        end
    end.

(** ** The encoding *)

Definition enc_i64 (z : Z) : list Z := le_enc 8 z.
Definition enc_i32 (z : Z) : list Z := le_enc 4 z.
Definition enc_string (t : list Z) : list Z := enc_i64 (zlen t) ++ t.
Definition enc_header (ty : Z) : list Z := enc_string standard_metadata_name ++ enc_i64 ty.
Definition enc_component (c : advc_mapper_plane_component) : list Z :=
  enc_string (type_name c) ++ enc_i64 (type_value c) ++ enc_i64 (offset_bits c) ++ enc_i64 (size_bits c).
Definition fields_of (l : advc_mapper_plane_layout) : list Z :=
  [offset_bytes l; sample_increment_bits l; stride_bytes l; width_samples l; height_samples l;
   total_size_bytes l; horizontal_subsampling l; vertical_subsampling l].
Definition enc_plane (l : advc_mapper_plane_layout) : list Z :=
  enc_i64 (zlen (components l)) ++ concat (enc_component <$> components l) ++
  concat (enc_i64 <$> fields_of l).
Definition enc_crop (c : advc_mapper_crop) : list Z :=
  enc_i32 (c_left c) ++ enc_i32 (c_top c) ++ enc_i32 (c_right c) ++ enc_i32 (c_bottom c).
Definition enc_array {A} (enc : A -> list Z) (ty : Z) (l : list A) : list Z :=
  enc_header ty ++ enc_i64 (zlen l) ++ concat (enc <$> l).

(** The values the wire can carry and the decoder admits. *)
Definition component_ok (c : advc_mapper_plane_component) : Prop :=
  Forall is_u8 (type_name c) /\ zlen (type_name c) < 256 /\
  is_i64 (type_value c) /\ is_i64 (offset_bits c) /\ is_i64 (size_bits c).
Definition plane_ok (l : advc_mapper_plane_layout) : Prop :=
  Forall component_ok (components l) /\ zlen (components l) <= 16 /\
  Forall (fun f => 0 <= f < 2 ^ 63) (fields_of l) /\
  0 < stride_bytes l <= UINT32_MAX /\ 0 < total_size_bytes l.
Definition crop_ok (c : advc_mapper_crop) : Prop :=
  0 <= c_left c < c_right c /\ 0 <= c_top c < c_bottom c /\ c_right c < 2 ^ 31 /\ c_bottom c < 2 ^ 31.

(** ** Little-endian codes *)

Lemma length_le_enc n z : length (le_enc n z) = n.
Proof. revert z. induction n as [|n IH]; intros z; cbn; [done|]. by rewrite IH. Qed.

Lemma le_enc_bytes n z : Forall is_u8 (le_enc n z).
Proof. revert z. induction n as [|n IH]; intros z; cbn; constructor; [wsolve|done]. Qed.

Lemma le_le_enc n z : le (le_enc n z) = z mod 256 ^ Z.of_nat n.
Proof.
  revert z. induction n as [|n IH]; intros z; cbn [le_enc le].
  - rewrite Z.mod_1_r. done.
  - rewrite IH, Nat2Z.inj_succ, Z.pow_succ_r by lia.
    rewrite (Z.rem_mul_r z 256 (256 ^ Z.of_nat n)) by lia. done.
Qed.

Lemma le_range bs : Forall is_u8 bs -> 0 <= le bs < 256 ^ zlen bs.
Proof.
  induction 1 as [|b bs Hb _ IH]; cbn [le]; [done|]. unfold zlen in *. cbn [length].
  rewrite Nat2Z.inj_succ, Z.pow_succ_r by lia. unfold is_u8 in Hb. lia.
Qed.

Lemma le_enc_le bs : Forall is_u8 bs -> le_enc (length bs) (le bs) = bs.
Proof.
  induction 1 as [|b bs Hb _ IH]; cbn [le le_enc length]; [done|].
  unfold is_u8 in Hb. f_equal.
  - rewrite (Z.mul_comm 256), Z.mod_add, Z.mod_small by lia. done.
  - rewrite (Z.mul_comm 256), Z.div_add, Z.div_small, Z.add_0_l by lia. done.
Qed.

Lemma le_enc_congr n x y : x mod 256 ^ Z.of_nat n = y mod 256 ^ Z.of_nat n -> le_enc n x = le_enc n y.
Proof.
  intros H. rewrite <- !le_le_enc in H.
  pose proof (le_enc_le _ (le_enc_bytes n x)) as Hx. pose proof (le_enc_le _ (le_enc_bytes n y)) as Hy.
  rewrite length_le_enc in Hx, Hy. rewrite <- Hx, <- Hy, H. done.
Qed.

(** Two's complement: the signed reading and its inverse. *)
Lemma signed_mod w x : 0 < w -> - 2 ^ (w - 1) <= x < 2 ^ (w - 1) -> signed w (x mod 2 ^ w) = x.
Proof.
  intros Hw Hx. assert (2 ^ w = 2 * 2 ^ (w - 1)) as E by (rewrite <- Z.pow_succ_r by lia; f_equal; lia).
  unfold signed. destruct (Z.lt_ge_cases x 0).
  - assert (x mod 2 ^ w = x + 2 ^ w) as -> by (rewrite <- (Z_mod_plus_full x 1), Z.mul_1_l; apply Z.mod_small; lia).
    destruct (Z.ltb_spec (x + 2 ^ w) (2 ^ (w - 1))); lia.
  - rewrite Z.mod_small by lia. destruct (Z.ltb_spec x (2 ^ (w - 1))); lia.
Qed.

Lemma signed_range w x : 0 < w -> 0 <= x < 2 ^ w ->
  - 2 ^ (w - 1) <= signed w x < 2 ^ (w - 1) /\ (signed w x) mod 2 ^ w = x.
Proof.
  intros Hw Hx. assert (2 ^ w = 2 * 2 ^ (w - 1)) as E by (rewrite <- Z.pow_succ_r by lia; f_equal; lia).
  unfold signed. destruct (Z.ltb_spec x (2 ^ (w - 1))).
  - rewrite Z.mod_small by lia. lia.
  - split; [lia|]. rewrite <- (Z_mod_plus_full _ 1), Z.mul_1_l. rewrite Z.mod_small; lia.
Qed.

(** ** Readers and their encodings

    [reads p W e]: the reader [p] accepts exactly the encodings [e a] of values
    [a] in [W], and leaves what follows. *)

Record reads {A} (p : Rd A) (W : A -> Prop) (e : A -> list Z) : Prop := {
  reads_sound : forall bs a r, Forall is_u8 bs -> p bs = Some (a, r) -> W a /\ bs = e a ++ r;
  reads_complete : forall a r, W a -> p (e a ++ r) = Some (a, r) }.

Lemma rd_bind_Some {A B} (p : Rd A) (k : A -> Rd B) bs b r :
  (p ≫= k) bs = Some (b, r) <-> exists a r', p bs = Some (a, r') /\ k a r' = Some (b, r).
Proof.
  unfold mbind, rd_bind. destruct (p bs) as [[a r']|]; split; try done.
  - eauto.
  - by intros (? & ? & [= -> ->] & ?).
  - by intros (? & ? & ? & ?).
Qed.

Lemma rd_bind_complete {A B} (p : Rd A) W e (k : A -> Rd B) a r :
  reads p W e -> W a -> (p ≫= k) (e a ++ r) = k a r.
Proof. intros H Ha. unfold mbind, rd_bind. by rewrite (reads_complete _ _ _ H). Qed.

Lemma rd_guard_Some b r u r' : rd_guard b r = Some (u, r') <-> b = true /\ r' = r.
Proof. unfold rd_guard. destruct b, u; split; intros H; destruct_and?; simplify_eq; done. Qed.

Lemma rd_guard_true {B} b (k : unit -> Rd B) r : b = true -> (rd_guard b ≫= k) r = k tt r.
Proof. by intros ->. Qed.

(** One step of a reader that succeeded: [H] is its equation, [S] the lemma of
    the reader that ran, [Hb] that the stream is bytes. *)
Ltac rd_guard_step H :=
  let G := fresh "G" in
  apply rd_bind_Some in H; destruct H as ([] & ? & [G%negb_true_iff ->]%rd_guard_Some & H); cbn beta in H.
Ltac rd_step H Hb S a Wa :=
  apply rd_bind_Some in H; destruct H as (a & ? & Wa & H);
  apply (reads_sound _ _ _ S) in Wa; [|exact Hb]; destruct Wa as [Wa ->];
  apply Forall_app in Hb; destruct Hb as [_ Hb]; cbn beta in H.

Lemma rd_take_spec n bs r : 0 <= n -> zlen bs = n -> rd_take n (bs ++ r) = Some (bs, r).
Proof.
  unfold rd_take, zlen. intros Hn Hl. rewrite length_app.
  destruct (Z.ltb_spec (Z.of_nat (length bs + length r)) n); [lia|].
  rewrite take_app_length', drop_app_length' by lia. done.
Qed.

Lemma rd_take_Some n bs v r : 0 <= n -> rd_take n bs = Some (v, r) -> zlen v = n /\ bs = v ++ r.
Proof.
  unfold rd_take, zlen. intros Hn. destruct (Z.ltb_spec (Z.of_nat (length bs)) n); [done|].
  intros [= <- <-]. by rewrite length_take, take_drop, Nat.min_l, Z2Nat.id by lia.
Qed.

(** Any fixed-width signed integer. *)
Lemma take_signed_reads (n : nat) : (0 < n)%nat ->
  reads (v ← rd_take (Z.of_nat n); mret (signed (8 * Z.of_nat n) (le v)))
    (fun z => - 2 ^ (8 * Z.of_nat n - 1) <= z < 2 ^ (8 * Z.of_nat n - 1)) (le_enc n).
Proof.
  intros Hn. assert (256 ^ Z.of_nat n = 2 ^ (8 * Z.of_nat n)) as E by (rewrite Z.pow_mul_r by lia; done).
  split.
  - intros bs a r Hb H. apply rd_bind_Some in H. destruct H as (v & r' & [Hv ->]%rd_take_Some & [= <- <-]); [|lia].
    apply Forall_app in Hb as [Hb _]. pose proof (le_range v Hb) as Hr. rewrite Hv, E in Hr.
    destruct (signed_range (8 * Z.of_nat n) (le v) ltac:(lia) Hr) as [Hs Hm]. split; [done|]. f_equal.
    rewrite (le_enc_congr n _ (le v)) by (rewrite E, Hm, Z.mod_small; done).
    replace n with (length v) by (unfold zlen in Hv; lia). by rewrite le_enc_le.
  - intros a r Ha. unfold mbind, rd_bind.
    rewrite rd_take_spec by (unfold zlen; rewrite ?length_le_enc; lia).
    rewrite le_le_enc, E, signed_mod by lia. done.
Qed.

Lemma take_i64_reads : reads take_i64 is_i64 enc_i64.
Proof. exact (take_signed_reads 8 ltac:(lia)). Qed.
Lemma take_i32_reads : reads take_i32 is_i32 enc_i32.
Proof. exact (take_signed_reads 4 ltac:(lia)). Qed.

Lemma rd_times_reads {A} n (p : Rd A) W e : reads p W e ->
  reads (rd_times n p) (fun l => length l = n /\ Forall W l) (fun l => concat (e <$> l)).
Proof.
  intros Hp. induction n as [|n IH]; cbn [rd_times]; split.
  - intros bs a r _ [= <- <-]. done.
  - intros [|a l] r [Hl _]; done.
  - intros bs a r Hb H. rd_step H Hb Hp x Wx. rd_step H Hb IH l Wl. injection H as <- <-.
    destruct Wl as [Hl Wl]. cbn. rewrite <- app_assoc. split; [|done]. split; [lia|by constructor].
  - intros [|a l] r [Hl Hw]; [done|]. apply Forall_cons in Hw as [Ha Hw]. cbn [fmap list_fmap concat].
    rewrite <- app_assoc, (rd_bind_complete p W e) by done.
    rewrite (rd_bind_complete _ _ _ _ _ _ IH) by (cbn in Hl; split; [lia|done]). done.
Qed.

Lemma read_string_reads n : 0 < n < 2 ^ 63 ->
  reads (read_string n) (fun t => Forall is_u8 t /\ zlen t < n) enc_string.
Proof.
  intros Hn. unfold read_string, enc_string. split.
  - intros bs a r Hb H. rd_step H Hb take_i64_reads len Wl.
    apply rd_bind_Some in H as (? & ? & [= <- <-] & H). rd_guard_step H.
    rewrite !orb_false_iff in *. destruct_and!. rewrite Z.ltb_ge, Z.leb_gt in *.
    apply rd_take_Some in H as [Hl ->]; [|lia]. apply Forall_app in Hb as [Hb _].
    subst len. rewrite <- app_assoc. split; [split; [done|lia]|done].
  - intros a r [Hb Ha]. rewrite <- app_assoc.
    rewrite (rd_bind_complete _ _ _ _ _ _ take_i64_reads) by (unfold is_i64, zlen in *; lia).
    unfold mbind at 1, rd_bind at 1. cbn [rd_remaining]. rewrite rd_guard_true.
    + apply rd_take_spec; unfold zlen; lia.
    + rewrite negb_true_iff, !orb_false_iff, !Z.ltb_ge, Z.eqb_neq, Z.leb_gt.
      unfold zlen in *. rewrite length_app. unfold SIZE_MAX, UINT64_MAX. lia.
Qed.

Lemma read_component_reads : reads read_component component_ok enc_component.
Proof.
  unfold read_component, enc_component, component_ok. pose proof take_i64_reads as R.
  pose proof (read_string_reads 256 ltac:(lia)) as RS. split.
  - intros bs a r Hb H. rd_step H Hb RS name Wn. rd_step H Hb R v Wv. rd_step H Hb R o Wo.
    rd_step H Hb R z Wz. injection H as <- <-. cbn [type_name type_value offset_bits size_bits].
    rewrite <- !app_assoc. naive_solver.
  - intros [name v o z] r (W1 & W2 & W3 & W4 & W5). cbn [type_name type_value offset_bits size_bits] in *.
    rewrite <- !app_assoc, (rd_bind_complete _ _ _ _ _ _ RS) by done.
    rewrite !(rd_bind_complete _ _ _ _ _ _ R) by done. done.
Qed.

Lemma read_field_reads : reads read_field (fun f => 0 <= f < 2 ^ 63) enc_i64.
Proof.
  unfold read_field. pose proof take_i64_reads as R. split.
  - intros bs a r Hb H. rd_step H Hb R f Wf.
    apply rd_bind_Some in H as ([] & ? & [?%Z.leb_le ->]%rd_guard_Some & [= <- <-]).
    unfold is_i64 in Wf. split; [lia|done].
  - intros f r Hf. rewrite (rd_bind_complete _ _ _ _ _ _ R) by (unfold is_i64; lia).
    rewrite rd_guard_true by (apply Z.leb_le; lia). done.
Qed.

Lemma fields_of_plane_of cs fields : length fields = 8%nat -> fields_of (plane_of cs fields) = fields.
Proof. do 9 (destruct fields as [|? fields]; try done). Qed.

Lemma read_plane_reads : reads read_plane plane_ok enc_plane.
Proof.
  unfold read_plane, enc_plane, plane_ok. pose proof take_i64_reads as R.
  pose proof (fun n => rd_times_reads n _ _ _ read_component_reads) as RC.
  pose proof (rd_times_reads 8 _ _ _ read_field_reads) as RF. split.
  - intros bs a r Hb H. rd_step H Hb R n Wn. rd_guard_step H.
    rd_step H Hb (RC (Z.to_nat n)) cs Wc. rd_step H Hb RF fs Wf. cbn zeta in H. rd_guard_step H.
    injection H as <- <-. destruct Wc as [Hlc Wc], Wf as [Hlf Wf].
    rewrite !orb_false_iff in *. destruct_and!. rewrite Z.ltb_ge, Z.eqb_neq in *.
    assert (zlen cs = n) as Hz by (unfold zlen; lia).
    rewrite fields_of_plane_of by done. cbn [plane_of components]. rewrite Hz, <- !app_assoc.
    assert (forall i, 0 <= nth i fs 0) as Hnn.
    { intros i. destruct (nth_in_or_default i fs 0) as [Hin| ->]; [|done].
      rewrite List.Forall_forall in Wf. apply Wf in Hin. lia. }
    split; [|done]. split; [done|]. split; [unfold ADVC_MAX_MAPPER_PLANE_COMPONENTS in *; lia|].
    split; [done|]. cbn [plane_of stride_bytes total_size_bytes] in *.
    pose proof (Hnn 2%nat). pose proof (Hnn 5%nat). lia.
  - intros l r (Wc & Hlc & Wf & Hst & Hts). rewrite <- !app_assoc.
    rewrite (rd_bind_complete _ _ _ _ _ _ R) by (unfold is_i64, zlen in *; lia).
    rewrite rd_guard_true by (rewrite negb_true_iff, orb_false_iff, !Z.ltb_ge;
      unfold ADVC_MAX_MAPPER_PLANE_COMPONENTS, zlen in *; lia).
    rewrite (rd_bind_complete _ _ _ _ _ _ (RC _)) by (unfold zlen; split; [lia|done]).
    rewrite (rd_bind_complete _ _ _ _ _ _ RF) by done. cbn zeta.
    assert (plane_of (components l) (fields_of l) = l) as -> by by destruct l.
    rewrite rd_guard_true by (rewrite negb_true_iff, !orb_false_iff, Z.ltb_ge, !Z.eqb_neq; lia). done.
Qed.

Lemma read_crop_reads : reads read_crop crop_ok enc_crop.
Proof.
  unfold read_crop, enc_crop, crop_ok. pose proof take_i32_reads as R. split.
  - intros bs a r Hb H. rd_step H Hb R l Wl. rd_step H Hb R t Wt. rd_step H Hb R x Wx. rd_step H Hb R b Wb.
    rd_guard_step H. injection H as <- <-. rewrite !orb_false_iff in *. destruct_and!.
    rewrite Z.ltb_ge, Z.leb_gt in *. cbn [c_left c_top c_right c_bottom]. unfold is_i32 in *.
    rewrite <- !app_assoc. split; [lia|done].
  - intros [l t x b] r W. cbn [c_left c_top c_right c_bottom] in *. rewrite <- !app_assoc.
    rewrite !(rd_bind_complete _ _ _ _ _ _ R) by (unfold is_i32; lia).
    rewrite rd_guard_true by (rewrite negb_true_iff, !orb_false_iff, !Z.ltb_ge, !Z.leb_gt; lia). done.
Qed.

(** ** Whole streams *)

Lemma skip_standard_reads :
  reads (skip_string true) (fun _ => True) (fun _ => enc_string standard_metadata_name).
Proof.
  unfold skip_string. split.
  - intros bs [] r Hb H. rd_step H Hb take_i64_reads len Wl.
    apply rd_bind_Some in H as (? & ? & [= <- <-] & H). rd_guard_step H.
    apply rd_bind_Some in H as (? & ? & [= <- <-] & H). rd_guard_step H.
    rewrite !orb_false_iff in *. destruct_and!. rewrite Z.ltb_ge in *.
    cbn [andb] in G0. rewrite orb_false_iff, !negb_false_iff in G0. destruct G0 as [->%Z.eqb_eq Ht].
    apply bool_decide_eq_true in Ht. apply rd_bind_Some in H as (v & r' & Hv & [= <-]).
    unfold rd_take in Hv. destruct (_ <? _); [done|]. injection Hv as <- <-. split; [done|].
    unfold enc_string. rewrite <- app_assoc. f_equal. rewrite <- Ht at 1. by rewrite take_drop.
  - intros [] r _. unfold enc_string. rewrite <- app_assoc.
    rewrite (rd_bind_complete _ _ _ _ _ _ take_i64_reads) by done.
    unfold mbind at 1, rd_bind at 1. cbn [rd_remaining]. rewrite rd_guard_true.
    + unfold mbind at 1, rd_bind at 1. cbn [rd_cursor]. rewrite rd_guard_true.
      * unfold mbind, rd_bind. rewrite rd_take_spec by done. done.
      * rewrite take_app_length' by done. unfold str_eq. rewrite bool_decide_eq_true_2, Z.eqb_refl by done. done.
    + rewrite negb_true_iff, !orb_false_iff, !Z.ltb_ge. unfold zlen. rewrite length_app.
      split; [split|]; [lia|done|lia].
Qed.

Lemma read_header_app ty r : is_i64 ty -> read_header (Some (enc_header ty ++ r)) ty = inr r.
Proof.
  intros Ht. unfold read_header, enc_header. rewrite <- app_assoc.
  destruct (_ ++ _) as [|b bytes] eqn:E; [done|]. rewrite <- E.
  rewrite (rd_bind_complete _ _ _ _ tt _ skip_standard_reads) by done.
  rewrite (rd_bind_complete _ _ _ _ _ _ take_i64_reads) by done. by rewrite Z.eqb_refl.
Qed.

Lemma read_header_exact bytes ty r : is_i64 ty -> Forall is_u8 bytes ->
  read_header (Some bytes) ty = inr r <-> bytes = enc_header ty ++ r.
Proof.
  intros Ht Hb. unfold read_header, enc_header. rewrite <- app_assoc. split.
  - destruct bytes as [|b bytes]; [done|]. set (bs := b :: bytes) in *.
    destruct ((skip_string true ≫= _) bs) as [[[] r']|] eqn:H; [|done]. intros [= <-].
    rd_step H Hb skip_standard_reads u Wu. rd_step H Hb take_i64_reads t Wt.
    apply rd_guard_Some in H as [->%Z.eqb_eq ->]. done.
  - intros ->. rewrite app_assoc. by apply read_header_app.
Qed.

Lemma decode_array_exact {A} (p : Rd A) W e ty bytes l : reads p W e -> is_i64 ty -> Forall is_u8 bytes ->
  decode_array p ty (Some bytes) = inr l <->
  Forall W l /\ 1 <= zlen l <= 4 /\ bytes = enc_array e ty l.
Proof.
  intros Hp Ht Hb. unfold decode_array, enc_array. pose proof (fun n => rd_times_reads n _ _ _ Hp) as RT. split.
  - destruct (read_header (Some bytes) ty) as [?|r0] eqn:Hh; [done|].
    apply read_header_exact in Hh as ->; [|done..]. apply Forall_app in Hb as [_ Hb].
    destruct ((take_i64 ≫= _) r0) as [[l' [|? ?]]|] eqn:H; try done. intros [= <-].
    rd_step H Hb take_i64_reads n Wn. rd_guard_step H.
    apply (reads_sound _ _ _ (RT (Z.to_nat n))) in H as [[Hl Hw] ->]; [|done].
    rewrite orb_false_iff, Z.leb_gt, Z.ltb_ge in G. unfold ADVC_MAX_DMABUF_PLANES in G.
    rewrite app_nil_r. assert (zlen l' = n) as -> by (unfold zlen; lia). split; [done|]. split; [lia|done].
  - intros (Hw & Hl & ->). rewrite read_header_app by done.
    rewrite (rd_bind_complete _ _ _ _ _ _ take_i64_reads) by (unfold is_i64; lia).
    rewrite rd_guard_true by (rewrite negb_true_iff, orb_false_iff, Z.leb_gt, Z.ltb_ge;
      unfold ADVC_MAX_DMABUF_PLANES; lia).
    rewrite <- (app_nil_r (concat _)), (reads_complete _ _ _ (RT _)) by (unfold zlen; split; [lia|done]). done.
Qed.

Lemma decode_scalar_exact (n : nat) errno0 ty bytes v : is_i64 ty -> Forall is_u8 bytes ->
  decode_scalar (Z.of_nat n) errno0 (Some bytes) ty = inr v <->
  0 <= v < 256 ^ Z.of_nat n /\ bytes = enc_header ty ++ le_enc n v.
Proof.
  intros Ht Hb. unfold decode_scalar. split.
  - destruct (read_header (Some bytes) ty) as [?|r0] eqn:Hh; [done|].
    apply read_header_exact in Hh as ->; [|done..]. apply Forall_app in Hb as [_ Hb].
    destruct (rd_take _ r0) as [[x [|? ?]]|] eqn:H; try done. intros [= <-].
    apply rd_take_Some in H as [Hl ->]; [|lia]. rewrite app_nil_r in *. pose proof (le_range x Hb) as Hr.
    rewrite Hl in Hr. split; [done|]. replace n with (length x) by (unfold zlen in Hl; lia).
    by rewrite le_enc_le.
  - intros [Hv ->]. rewrite read_header_app by done.
    rewrite <- (app_nil_r (le_enc n v)), rd_take_spec by (unfold zlen; rewrite ?length_le_enc; lia).
    by rewrite le_le_enc, Z.mod_small by done.
Qed.

(** ** Decoding is the inverse of the encoding *)

(** C34. The metadata decoders accept a byte stream exactly when it is the AOSP
    encoding of a value they admit, and return that value: a u32 or u64 with its
    type tag, one to four plane layouts of at most sixteen components whose names
    fit the array, whose fields are not negative and whose stride and size are
    not zero, and one to four crops that are not empty.  A stream that is too
    short, too long, or tagged differently is refused; the array decoders then
    set EPROTO. *)
Theorem metadata_decode_exact (bytes : list Z) : Forall is_u8 bytes ->
  (forall errno0 ty v, is_i64 ty ->
    advc_mapper_metadata_decode_u32 errno0 (Some bytes) ty = inr v <->
    is_u32 v /\ bytes = enc_header ty ++ le_enc 4 v) /\
  (forall errno0 ty v, is_i64 ty ->
    advc_mapper_metadata_decode_u64 errno0 (Some bytes) ty = inr v <->
    is_u64 v /\ bytes = enc_header ty ++ le_enc 8 v) /\
  (forall ls, advc_mapper_metadata_decode_plane_layouts (Some bytes) = inr ls <->
    Forall plane_ok ls /\ 1 <= zlen ls <= 4 /\ bytes = enc_array enc_plane 15 ls) /\
  (forall cs, advc_mapper_metadata_decode_crops (Some bytes) = inr cs <->
    Forall crop_ok cs /\ 1 <= zlen cs <= 4 /\ bytes = enc_array enc_crop 16 cs) /\
  (forall e, advc_mapper_metadata_decode_plane_layouts (Some bytes) = inl e \/
    advc_mapper_metadata_decode_crops (Some bytes) = inl e -> e = EPROTO).
Proof.
  intros Hb. split_and!.
  - intros errno0 ty v Ht. apply (decode_scalar_exact 4); done.
  - intros errno0 ty v Ht. apply (decode_scalar_exact 8); done.
  - intros ls. apply decode_array_exact; [apply read_plane_reads|done..].
  - intros cs. apply decode_array_exact; [apply read_crop_reads|done..].
  - intros e. unfold advc_mapper_metadata_decode_plane_layouts, advc_mapper_metadata_decode_crops, decode_array.
    intros [H|H]; destruct (read_header _ _); try congruence;
      destruct ((take_i64 ≫= _) _) as [[? [|? ?]]|]; congruence.
Qed.

Definition sample_crop : advc_mapper_crop := Crop 0 0 1920 1088.
Definition sample_y : advc_mapper_plane_layout :=
  Layout [Component standard_component_name 1 0 8] 0 8 2048 1920 1080 2228224 1 1.
Definition sample_uv : advc_mapper_plane_layout :=
  Layout [Component standard_component_name 4 8 8; Component standard_component_name 2 0 8]
    2228224 16 2048 960 540 1114112 2 2.

Lemma metadata_decode_exact_witness :
  advc_mapper_metadata_decode_plane_layouts (Some (enc_array enc_plane 15 [sample_y; sample_uv])) =
    inr [sample_y; sample_uv] /\
  ~ (Forall plane_ok [sample_y] /\ 1 <= zlen [sample_y] <= 4 /\
     enc_array enc_plane 15 [sample_y; sample_uv] = enc_array enc_plane 15 [sample_y]).
Proof.
  assert (Forall is_u8 (enc_array enc_plane 15 [sample_y; sample_uv])) as Hb.
  { apply List.Forall_forall. intros x Hx. unfold is_u8.
    assert (forallb (fun x => (0 <=? x) && (x <? 2 ^ 8)) (enc_array enc_plane 15 [sample_y; sample_uv]) = true)
      as H by (vm_compute; reflexivity).
    rewrite forallb_forall in H. apply H in Hx. lia. }
  destruct (metadata_decode_exact _ Hb) as (_ & _ & Hp & _). split.
  - vm_compute. reflexivity.
  - rewrite <- (Hp [sample_y]). vm_compute. intros [=].
Defined.

(** ** The roles of layouts *)

Inductive role := Y_DATA | UV_DATA | Y_METADATA | UV_METADATA.
#[export] Instance role_eq_dec : EqDecision role.
Proof. solve_decision. Defined.

Definition role_of (l : advc_mapper_plane_layout) : option role :=
  if layout_is_y_data l then Some Y_DATA
  else if layout_is_uv_data l then Some UV_DATA
  else if layout_is_y_metadata l then Some Y_METADATA
  else if layout_is_uv_metadata l then Some UV_METADATA
  else None.

Definition slot (s : nv12_slots) (k : role) : option advc_mapper_plane_layout :=
  match k with
  | Y_DATA => y_data s | UV_DATA => uv_data s | Y_METADATA => y_metadata s | UV_METADATA => uv_metadata s
  end.
Definition set_slot (k : role) (l : advc_mapper_plane_layout) (s : nv12_slots) : nv12_slots :=
  match k with
  | Y_DATA => Slots (Some l) (uv_data s) (y_metadata s) (uv_metadata s)
  | UV_DATA => Slots (y_data s) (Some l) (y_metadata s) (uv_metadata s)
  | Y_METADATA => Slots (y_data s) (uv_data s) (Some l) (uv_metadata s)
  | UV_METADATA => Slots (y_data s) (uv_data s) (y_metadata s) (Some l)
  end.

(** The layouts in use, in the order of the UBWC allocation. *)
Definition slot_list (s : nv12_slots) : list advc_mapper_plane_layout :=
  option_list (y_metadata s) ++ option_list (y_data s) ++
  option_list (uv_metadata s) ++ option_list (uv_data s).

Definition slots_typed (s : nv12_slots) : Prop :=
  forall k l, slot s k = Some l -> role_of l = Some k.

Lemma nv12_slot_role a s l : nv12_slot a s l =
  if negb (layout_extent_valid a l) then None
  else match role_of l with
       | Some k => match slot s k with Some _ => None | None => Some (set_slot k l s) end
       | None => None
       end.
Proof.
  unfold nv12_slot, role_of. destruct (layout_extent_valid a l); cbn [negb]; [|done].
  destruct (layout_is_y_data l); [done|]. destruct (layout_is_uv_data l); [done|].
  destruct (layout_is_y_metadata l); [done|]. by destruct (layout_is_uv_metadata l).
Qed.

Lemma slot_set k l s k' : slot (set_slot k l s) k' = if decide (k' = k) then Some l else slot s k'.
Proof. destruct k, k'; done. Qed.

Lemma slots_typed_set k l s : role_of l = Some k -> slots_typed s -> slots_typed (set_slot k l s).
Proof. intros Hl Hs k' l'. rewrite slot_set. case_decide; [by intros [= <-]; subst|apply Hs]. Qed.

Lemma slot_list_set k l s : slot s k = None -> slot_list (set_slot k l s) ≡ₚ l :: slot_list s.
Proof.
  destruct s as [y uv ym uvm], k; cbn; intros ->; cbn; unfold slot_list;
    cbn [y_data uv_data y_metadata uv_metadata option_list app]; solve_Permutation.
Qed.

Lemma in_option_list {A} (x : A) o : x ∈ option_list o <-> o = Some x.
Proof. destruct o; cbn; [rewrite list_elem_of_singleton; naive_solver|rewrite elem_of_nil; done]. Qed.

(** In typed slots a role has at most one layout, the one in its slot. *)
Lemma elem_of_slots s l : slots_typed s ->
  l ∈ slot_list s <-> exists k, role_of l = Some k /\ slot s k = Some l.
Proof.
  intros Ht. unfold slot_list. rewrite !elem_of_app, !in_option_list. split.
  - intros [H|[H|[H|H]]]; [exists Y_METADATA|exists Y_DATA|exists UV_METADATA|exists UV_DATA];
      (split; [apply Ht|]; exact H).
  - intros (k & _ & H). destruct k; cbn in H; eauto.
Qed.

Lemma slots_ext s s' : slots_typed s -> slots_typed s' -> slot_list s ≡ₚ slot_list s' -> s = s'.
Proof.
  intros H H' Hp.
  assert (forall t t' k l, slots_typed t -> slots_typed t' -> slot_list t ≡ₚ slot_list t' ->
    slot t k = Some l -> slot t' k = Some l) as Hsub.
  { intros t t' k l Ht Ht' Htt Hl. assert (l ∈ slot_list t') as Hin.
    { rewrite <- Htt. apply elem_of_slots; [done|]. exists k. split; [by apply Ht|done]. }
    apply elem_of_slots in Hin as (k' & Hk & Hs); [|done]. rewrite (Ht k l Hl) in Hk. congruence. }
  assert (forall k, slot s k = slot s' k) as E.
  { intros k. apply option_eq. intros l. split; apply Hsub; by try symmetry. }
  destruct s, s'. f_equal; [apply (E Y_DATA)|apply (E UV_DATA)|apply (E Y_METADATA)|apply (E UV_METADATA)].
Qed.

Lemma role_unique s k : slots_typed s ->
  (length (filter (fun x => role_of x = Some k) (slot_list s)) <= 1)%nat.
Proof.
  intros Ht. unfold slot_list. rewrite !filter_app, !length_app.
  assert (forall k', length (filter (fun x => role_of x = Some k) (option_list (slot s k'))) <=
    if decide (k' = k) then 1 else 0)%nat as H.
  { intros k'. destruct (slot s k') eqn:E; cbn; [|lia]. apply Ht in E. rewrite E.
    case_decide; cbn; [|lia]. rewrite decide_True by congruence. lia. }
  pose proof (H Y_DATA). pose proof (H UV_DATA). pose proof (H Y_METADATA). pose proof (H UV_METADATA).
  cbn [slot] in *. destruct k; repeat (case_decide; try congruence); lia.
Qed.

Lemma nv12_collect_sound a ls s s' : nv12_collect a s ls = Some s' -> slots_typed s ->
  slots_typed s' /\ slot_list s' ≡ₚ slot_list s ++ ls /\ Forall (fun l => layout_extent_valid a l = true) ls.
Proof.
  revert s. induction ls as [|l ls IH]; intros s; cbn [nv12_collect].
  - intros [= <-] Hs. rewrite app_nil_r. done.
  - rewrite nv12_slot_role. destruct (layout_extent_valid a l) eqn:Ha; cbn [negb]; [|done].
    destruct (role_of l) as [k|] eqn:Hk; [|done]. destruct (slot s k) eqn:Hs; [done|].
    intros H Ht. destruct (IH _ H) as (Ht' & Hp & Hf); [by apply slots_typed_set|].
    split; [done|]. split; [|by constructor].
    rewrite Hp, (slot_list_set k l s Hs). cbn. by rewrite Permutation_middle.
Qed.

Lemma nv12_collect_complete a ls s s' : slots_typed s -> slots_typed s' ->
  slot_list s' ≡ₚ slot_list s ++ ls -> Forall (fun l => layout_extent_valid a l = true) ls ->
  nv12_collect a s ls = Some s'.
Proof.
  intros Ht Ht' Hp Hf. revert s Ht Hp. induction Hf as [|l ls Hl Hf IH]; intros s Ht Hp; cbn [nv12_collect].
  - rewrite app_nil_r in Hp. f_equal. by apply slots_ext.
  - rewrite nv12_slot_role, Hl. cbn [negb].
    assert (l ∈ slot_list s') as Hin by (rewrite Hp; set_solver).
    apply elem_of_slots in Hin as (k & Hk & Hs'); [|done].
    rewrite Hk. destruct (slot s k) as [z|] eqn:Hz.
    + exfalso. assert (z ∈ slot_list s) as Hin by (apply elem_of_slots; [done|]; exists k; split; [by apply Ht|done]).
      apply list_elem_of_In, in_split in Hin as (l1 & l2 & E).
      pose proof (role_unique s' k Ht') as Hle. rewrite Hp, E, !filter_app, !length_app in Hle. cbn in Hle.
      rewrite Hk, (Ht k z Hz), !decide_True in Hle by done. cbn in Hle. lia.
    + apply IH; [by apply slots_typed_set|].
      rewrite Hp, (slot_list_set k l s Hz). cbn. by rewrite Permutation_middle.
Qed.

(** ** What the recogniser accepts

    Stated on unbounded integers: none of the additions of the code can wrap when
    the statement holds. *)

Definition nv12_query_ok (q : nv12_query) : Prop :=
  is_u32 (q_fourcc q) /\ is_u64 (q_modifier q) /\ is_u64 (q_allocation_size q) /\ is_u32 (q_width q) /\
  is_u32 (q_height q) /\ is_u32 (q_stride q) /\ is_u32 (q_transport_fds q) /\
  is_i32 (q_qti_data_fd_transport_index q).

(** The query names one image object whose size is the allocation. *)
Definition nv12_supported (q : nv12_query) : Prop :=
  q_fourcc q = ADVC_DRM_FORMAT_NV12 /\
  (q_modifier q = ADVC_DRM_FORMAT_MOD_LINEAR \/ q_modifier q = ADVC_DRM_FORMAT_MOD_QCOM_COMPRESSED) /\
  0 < q_allocation_size q /\ 0 < q_width q <= q_stride q /\ 0 < q_height q /\
  q_qti_data_fd_valid q = true /\
  0 <= q_qti_data_fd_transport_index q < q_transport_fds q /\ q_transport_fds q <= 4 /\
  q_qti_data_fd_size q = q_allocation_size q /\
  nth (Z.to_nat (q_qti_data_fd_transport_index q)) (q_transport_fd_sizes q) 0 = q_allocation_size q.

Definition extent_ok (a : Z) (l : advc_mapper_plane_layout) : Prop :=
  0 < stride_bytes l <= UINT32_MAX /\ 0 < total_size_bytes l /\
  offset_bytes l + total_size_bytes l <= a.

Definition nv12_geometry (q : nv12_query) (c : advc_mapper_crop) (y uv : advc_mapper_plane_layout) : Prop :=
  stride_bytes y = q_stride q /\ stride_bytes uv = q_stride q /\
  width_samples y = q_width q /\ height_samples y = q_height q /\
  horizontal_subsampling y = 1 /\ vertical_subsampling y = 1 /\
  width_samples uv = (q_width q + 1) / 2 /\ height_samples uv = (q_height q + 1) / 2 /\
  horizontal_subsampling uv = 2 /\ vertical_subsampling uv = 2 /\
  c_left c = 0 /\ c_top c = 0 /\ q_width q <= c_right c <= q_stride q /\ q_height q <= c_bottom c /\
  c_bottom c * q_stride q <= total_size_bytes y.

Definition nv12_linear (q : nv12_query) (ls : list advc_mapper_plane_layout)
    (y uv : advc_mapper_plane_layout) (n : advc_mapper_qti_nv12_layout) : Prop :=
  q_modifier q = ADVC_DRM_FORMAT_MOD_LINEAR /\ ls ≡ₚ [y; uv] /\
  offset_bytes y + total_size_bytes y <= offset_bytes uv /\
  n = Nv12 ADVC_MAPPER_QTI_NV12_LINEAR (q_qti_data_fd_transport_index q) 2
        (offset_bytes y, offset_bytes uv) (q_stride q, q_stride q).

Definition nv12_ubwc (q : nv12_query) (ls : list advc_mapper_plane_layout)
    (y uv : advc_mapper_plane_layout) (n : advc_mapper_qti_nv12_layout) : Prop :=
  q_modifier q = ADVC_DRM_FORMAT_MOD_QCOM_COMPRESSED /\
  exists ym uvm, role_of ym = Some Y_METADATA /\ role_of uvm = Some UV_METADATA /\
    ls ≡ₚ [ym; y; uvm; uv] /\
    offset_bytes ym + total_size_bytes ym = offset_bytes y /\
    offset_bytes y + total_size_bytes y = offset_bytes uvm /\
    offset_bytes uvm + total_size_bytes uvm = offset_bytes uv /\
    stride_bytes ym < q_stride q /\ stride_bytes uvm < q_stride q /\
    n = Nv12 ADVC_MAPPER_QTI_NV12_UBWC (q_qti_data_fd_transport_index q) 2
          (offset_bytes ym, offset_bytes uvm) (q_stride q, q_stride q).

Definition nv12_spec (q : nv12_query) (ls : list advc_mapper_plane_layout) (crops : list advc_mapper_crop)
    (n : advc_mapper_qti_nv12_layout) : Prop :=
  nv12_supported q /\ Forall (extent_ok (q_allocation_size q)) ls /\
  exists c y uv, crops = [c] /\ role_of y = Some Y_DATA /\ role_of uv = Some UV_DATA /\
    nv12_geometry q c y uv /\ (nv12_linear q ls y uv n \/ nv12_ubwc q ls y uv n).

Lemma plane_ok_fields l : plane_ok l ->
  0 <= offset_bytes l < 2 ^ 63 /\ 0 < stride_bytes l <= UINT32_MAX /\ 0 < total_size_bytes l < 2 ^ 63 /\
  0 <= width_samples l < 2 ^ 63 /\ 0 <= height_samples l < 2 ^ 63.
Proof.
  intros (_ & _ & Hf & Hs & Ht). unfold fields_of in Hf. rewrite !Forall_cons in Hf. lia.
Qed.

Lemma extent_exact a l : is_u64 a -> plane_ok l -> layout_extent_valid a l = true <-> extent_ok a l.
Proof.
  intros Ha (Ho & Hs & Ht & _)%plane_ok_fields. unfold layout_extent_valid, extent_ok.
  rewrite !andb_true_iff, !Z.ltb_lt, !Z.leb_le. unfold is_u64, u64 in *. split.
  - intros H. rewrite Z.mod_small in H by lia. lia.
  - intros H. rewrite Z.mod_small by lia. lia.
Qed.

Lemma extents_exact a ls : is_u64 a -> Forall plane_ok ls ->
  Forall (fun l => layout_extent_valid a l = true) ls <-> Forall (extent_ok a) ls.
Proof.
  intros Ha Hls. rewrite !Forall_forall in *. split; intros H x Hx; apply (extent_exact a x); auto.
Qed.

Lemma unsupported_exact q (crops : list advc_mapper_crop) : nv12_query_ok q ->
  nv12_unsupported q (zlen crops) = false <-> nv12_supported q /\ zlen crops = 1.
Proof.
  intros (H1 & H2 & H3 & H4 & H5 & H6 & H7 & H8). unfold nv12_unsupported, nv12_supported.
  rewrite !orb_false_iff, andb_false_iff, !negb_false_iff, !Z.eqb_eq, !Z.eqb_neq, !Z.ltb_ge, !Z.leb_gt.
  unfold is_u32, is_u64, is_i32, ADVC_MAX_DMABUF_OBJECTS in *. split.
  - intros H. destruct_and!. rewrite u32_id in * by (unfold is_u32; lia). split_and!; try done; lia.
  - intros H. destruct_and!. rewrite u32_id by (unfold is_u32; lia). split_and!; try done; lia.
Qed.

Lemma crop_covers_exact c w h st y : is_u32 w -> is_u32 h -> is_u32 st -> crop_ok c -> plane_ok y ->
  crop_covers_image c w h st y = true <->
  c_left c = 0 /\ c_top c = 0 /\ w <= c_right c <= st /\ h <= c_bottom c /\
  c_bottom c * stride_bytes y <= total_size_bytes y.
Proof.
  intros Hw Hh Hst Hc (_ & Hs & Ht & _)%plane_ok_fields. unfold crop_ok in Hc. unfold crop_covers_image.
  rewrite !u64_id by (unfold is_u64; lia).
  assert (c_bottom c <= total_size_bytes y / stride_bytes y <->
          c_bottom c * stride_bytes y <= total_size_bytes y) as E.
  { split; intros H.
    - pose proof (Z.mul_div_le (total_size_bytes y) (stride_bytes y)). nia.
    - apply Z.div_le_lower_bound; lia. }
  destruct (_ || _) eqn:G.
  - rewrite !orb_true_iff, !negb_true_iff, !Z.eqb_neq, !Z.ltb_lt in G. split; [done|]. lia.
  - rewrite !orb_false_iff, !negb_false_iff, !Z.eqb_eq, !Z.ltb_ge in G. rewrite Z.leb_le, E. lia.
Qed.

Lemma geometry_exact q c y uv : nv12_query_ok q -> crop_ok c -> plane_ok y ->
  nv12_geometry_bad q c y uv = false <-> nv12_geometry q c y uv.
Proof.
  intros (_ & _ & _ & Hw & Hh & Hst & _) Hc Hy. unfold nv12_geometry_bad, nv12_geometry.
  rewrite !orb_false_iff, !negb_false_iff, !Z.eqb_eq, crop_covers_exact by done.
  unfold crop_ok in Hc. unfold is_u32 in *. split.
  - intros H. destruct_and!. rewrite !u32_id in * by (unfold is_u32; lia).
    repeat match goal with H : stride_bytes y = _ |- _ => rewrite H in * end. split_and!; lia.
  - intros H. destruct_and!. rewrite !u32_id by (unfold is_u32; lia).
    repeat match goal with H : stride_bytes y = _ |- _ => rewrite H in * end. split_and!; lia.
Qed.

Lemma layout_end_id a l : is_u64 a -> plane_ok l -> extent_ok a l ->
  layout_end l = offset_bytes l + total_size_bytes l.
Proof.
  intros Ha (Ho & _ & Ht & _)%plane_ok_fields (_ & _ & He). unfold layout_end. apply u64_id.
  unfold is_u64 in *. lia.
Qed.

Lemma no_slots_typed : slots_typed no_slots.
Proof. intros [] l; done. Qed.

Lemma nv12_sound q ls crops n : nv12_query_ok q -> Forall plane_ok ls -> Forall crop_ok crops ->
  advc_mapper_qti_nv12_normalize q ls crops = inr n -> nv12_spec q ls crops n.
Proof.
  intros Hq Hls Hcr. unfold advc_mapper_qti_nv12_normalize. cbn zeta.
  destruct (nv12_unsupported q (zlen crops)) eqn:Hu; [done|]. apply unsupported_exact in Hu as [Hs Hz]; [|done].
  destruct crops as [|c [|? ?]]; [done| |exfalso; unfold zlen in Hz; cbn in Hz; lia].
  apply Forall_cons in Hcr as [Hc _]. cbn [head default id].
  pose proof Hq as (_ & _ & Ha & _ & _ & _ & _ & Hi).
  destruct (nv12_collect _ _ _) as [s|] eqn:Hcol; [|done].
  apply nv12_collect_sound in Hcol as (Ht & Hp & Hf); [|apply no_slots_typed].
  cbn in Hp. destruct s as [[y|] [uv|] ym uvm]; try done. cbn [y_data uv_data y_metadata uv_metadata].
  rewrite extents_exact in Hf by done.
  assert (forall l, l ∈ ls -> plane_ok l /\ extent_ok (q_allocation_size q) l) as Hl
    by (rewrite Forall_forall in Hls, Hf; auto).
  assert (y ∈ ls /\ uv ∈ ls) as [Iy Iuv] by (rewrite <- Hp; set_solver).
  destruct (Hl _ Iy) as [Oy Ey], (Hl _ Iuv) as [Ouv Euv].
  destruct (nv12_geometry_bad q c y uv) eqn:Hg; [done|]. rewrite geometry_exact in Hg by done.
  assert (u32 (stride_bytes y) = q_stride q /\ u32 (stride_bytes uv) = q_stride q) as [-> ->].
  { destruct Hg as (-> & -> & _). destruct Hq as (_ & _ & _ & _ & _ & Hst & _). by rewrite u32_id. }
  assert (u32 (q_qti_data_fd_transport_index q) = q_qti_data_fd_transport_index q) as ->.
  { apply u32_id. unfold is_i32 in Hi. unfold nv12_supported in Hs. unfold is_u32. lia. }
  pose proof (Ht Y_DATA y eq_refl) as Ry. pose proof (Ht UV_DATA uv eq_refl) as Ruv.
  intros H. split; [done|]. split; [done|]. exists c, y, uv. split_and!; try done.
  destruct (Z.eqb_spec (q_modifier q) ADVC_DRM_FORMAT_MOD_LINEAR) as [Hm|Hm].
  - left. destruct ym, uvm; try done. rewrite (layout_end_id _ y Ha Oy Ey) in H.
    destruct (_ || _) eqn:G; [done|]. injection H as <-. rewrite orb_false_iff, Z.ltb_ge in G.
    split_and!; first [done|by symmetry|lia].
  - right. split; [destruct Hs as (_ & [] & _); done|]. destruct ym as [ym|], uvm as [uvm|]; try done.
    assert (ym ∈ ls /\ uvm ∈ ls) as [Iym Iuvm] by (rewrite <- Hp; set_solver).
    destruct (Hl _ Iym) as [Oym Eym], (Hl _ Iuvm) as [Ouvm Euvm].
    rewrite (layout_end_id _ y Ha Oy Ey), (layout_end_id _ ym Ha Oym Eym),
      (layout_end_id _ uvm Ha Ouvm Euvm) in H.
    destruct (_ || _) eqn:G; [done|]. injection H as <-.
    rewrite !orb_false_iff, !negb_false_iff, !Z.eqb_eq, !Z.leb_gt in G. destruct_and!.
    destruct Hg as (Hgy & Hguv & _). exists ym, uvm.
    split_and!; first [done|lia|by apply (Ht Y_METADATA)|by apply (Ht UV_METADATA)|by symmetry].
Qed.

Lemma nv12_complete q ls crops n : nv12_query_ok q -> Forall plane_ok ls -> Forall crop_ok crops ->
  nv12_spec q ls crops n -> advc_mapper_qti_nv12_normalize q ls crops = inr n.
Proof.
  intros Hq Hls Hcr (Hs & Hf & c & y & uv & -> & Ry & Ruv & Hg & Hcase).
  apply Forall_cons in Hcr as [Hc _]. pose proof Hq as (_ & _ & Ha & _ & _ & Hst & _ & Hi).
  unfold advc_mapper_qti_nv12_normalize. cbn zeta.
  assert (nv12_unsupported q (zlen [c]) = false) as -> by (by apply unsupported_exact).
  assert (forall l, l ∈ ls -> plane_ok l /\ extent_ok (q_allocation_size q) l) as Hl
    by (rewrite Forall_forall in Hls, Hf; auto).
  assert (y ∈ ls /\ uv ∈ ls) as [Iy Iuv].
  { destruct Hcase as [(_ & -> & _)|(_ & ym & uvm & _ & _ & -> & _)]; set_solver. }
  destruct (Hl _ Iy) as [Oy Ey], (Hl _ Iuv) as [Ouv Euv].
  assert (forall s, slots_typed s -> slot_list s ≡ₚ ls ->
    nv12_collect (q_allocation_size q) no_slots ls = Some s) as Hcol.
  { intros s Hts Hps. apply nv12_collect_complete; [apply no_slots_typed|done|done|by apply extents_exact]. }
  assert (u32 (q_qti_data_fd_transport_index q) = q_qti_data_fd_transport_index q) as Hidx.
  { apply u32_id. unfold is_i32 in Hi. unfold nv12_supported in Hs. unfold is_u32. lia. }
  pose proof Hg as (Hgy & Hguv & _). apply (geometry_exact q c y uv Hq Hc Oy) in Hg.
  destruct Hcase as [(Hm & Hp & Hend & ->)|(Hm & ym & uvm & Rym & Ruvm & Hp & E1 & E2 & E3 & S1 & S2 & ->)].
  - rewrite (Hcol (Slots (Some y) (Some uv) None None));
      [|intros [] l; cbn; try done; by intros [= <-]|by rewrite Hp].
    cbn [y_data uv_data y_metadata uv_metadata head default id]. rewrite Hg, Hm, Hidx, Hgy, Hguv, u32_id by done.
    cbn [Z.eqb ADVC_DRM_FORMAT_MOD_LINEAR]. rewrite (layout_end_id _ y Ha Oy Ey).
    unfold zlen. rewrite (Permutation_length Hp). destruct (Z.ltb_spec (offset_bytes uv) (offset_bytes y + total_size_bytes y)); [lia|done].
  - assert (ym ∈ ls /\ uvm ∈ ls) as [Iym Iuvm] by (rewrite Hp; set_solver).
    destruct (Hl _ Iym) as [Oym Eym], (Hl _ Iuvm) as [Ouvm Euvm].
    rewrite (Hcol (Slots (Some y) (Some uv) (Some ym) (Some uvm)));
      [|intros [] l; cbn; try done; by intros [= <-]|by rewrite Hp].
    cbn [y_data uv_data y_metadata uv_metadata head default id]. rewrite Hg, Hm, Hidx, Hgy, Hguv, u32_id by done.
    cbn [Z.eqb ADVC_DRM_FORMAT_MOD_LINEAR ADVC_DRM_FORMAT_MOD_QCOM_COMPRESSED].
    rewrite (layout_end_id _ y Ha Oy Ey), (layout_end_id _ ym Ha Oym Eym), (layout_end_id _ uvm Ha Ouvm Euvm).
    unfold zlen. rewrite (Permutation_length Hp), E1, E2, E3, !Z.eqb_refl. cbn [length negb orb].
    destruct (Z.leb_spec (q_stride q) (stride_bytes ym)); [lia|].
    destruct (Z.leb_spec (q_stride q) (stride_bytes uvm)); [lia|done].
Qed.

(** C32. The QTI NV12 recogniser is exact.  It accepts a query and decoded layouts
    exactly when the query names one transport object whose size is the
    allocation, there is one crop covering the picture inside the luma rows, and
    the layouts are, in any order, a luma and a chroma plane of the queried
    geometry with the chroma after the luma (linear), or the four adjacent
    compression-metadata and data planes (UBWC), all inside the allocation.  The
    statement is on unbounded integers, so no addition of the code wraps; the
    offsets returned are the ones stated; other inputs have ENOTSUP or EPROTO. *)
Theorem nv12_normalize_exact (q : nv12_query) (ls : list advc_mapper_plane_layout)
    (crops : list advc_mapper_crop) :
  nv12_query_ok q -> Forall plane_ok ls -> Forall crop_ok crops ->
  (forall n, advc_mapper_qti_nv12_normalize q ls crops = inr n <-> nv12_spec q ls crops n) /\
  (forall e, advc_mapper_qti_nv12_normalize q ls crops = inl e ->
     (e = ENOTSUP /\ ~ (nv12_supported q /\ zlen crops = 1)) \/
     (e = EPROTO /\ nv12_supported q /\ zlen crops = 1)).
Proof.
  intros Hq Hls Hcr. split; [intros n; split; [by apply nv12_sound|by apply nv12_complete]|].
  intros e. unfold advc_mapper_qti_nv12_normalize. cbn zeta.
  destruct (nv12_unsupported q (zlen crops)) eqn:Hu.
  - intros [= <-]. left. split; [done|]. intros H. apply unsupported_exact in H; [congruence|done].
  - apply unsupported_exact in Hu; [|done]. intros H. right. split; [|done].
    repeat match type of H with
    | match ?o with Some _ => _ | None => _ end = _ => destruct o
    | (if ?b then _ else _) = _ => destruct b
    end; congruence.
Qed.

Definition sample_query : nv12_query :=
  Query ADVC_DRM_FORMAT_NV12 0 3342336 1920 1080 2048 2 [4096; 3342336; 0; 0] 1 true 3342336.

Lemma nv12_normalize_exact_witness :
  nv12_spec sample_query [sample_uv; sample_y] [sample_crop]
    (Nv12 ADVC_MAPPER_QTI_NV12_LINEAR 1 2 (0, 2228224) (2048, 2048)).
Proof.
  apply (nv12_normalize_exact sample_query [sample_uv; sample_y] [sample_crop]).
  - unfold nv12_query_ok, sample_query. cbn. unfold is_u32, is_u64, is_i32, ADVC_DRM_FORMAT_NV12. lia.
  - assert (Forall is_u8 standard_component_name) as Hb.
    { apply List.Forall_forall. intros x Hx.
      assert (forallb (fun x => (0 <=? x) && (x <? 2 ^ 8)) standard_component_name = true) as H
        by (vm_compute; reflexivity). rewrite forallb_forall in H. apply H in Hx. unfold is_u8. lia. }
    assert (forall v o z, is_i64 v -> is_i64 o -> is_i64 z ->
      component_ok (Component standard_component_name v o z)) as Hco by (by intros; split_and!).
    repeat constructor; try apply Hco; unfold is_i64, UINT32_MAX, zlen; cbn; try lia.
  - repeat constructor; cbn; lia.
  - vm_compute. reflexivity.
Defined.

(** The extent of the chroma plane is not compared with its rows: a layout whose
    chroma size is one byte at the end of the allocation is recognised. *)
Lemma chroma_rows_unchecked :
  let uv := Layout (components sample_uv) 2228224 16 2048 960 540 1 2 2 in
  let q := Query ADVC_DRM_FORMAT_NV12 0 2228225 1920 1080 2048 1 [2228225; 0; 0; 0] 0 true 2228225 in
  advc_mapper_qti_nv12_normalize q [sample_y; uv] [sample_crop] =
    inr (Nv12 ADVC_MAPPER_QTI_NV12_LINEAR 0 2 (0, 2228224) (2048, 2048)) /\
  q_allocation_size q < 2228224 + 2048 * 540.
Proof. split; [vm_compute; reflexivity|cbn; lia]. Qed.
