(* ===== verification/AndroidMapper.v ===== *)
(** * The gralloc mapper (src/src/video_bridge/android/android_prime_mapper.c)

    The implementation of the PRIME mapper boundary on Android: it imports the
    native handle of a hardware buffer, reads the vendor's metadata, and describes
    the buffer by one duplicated descriptor.  The vendor's IMapper and the system
    libraries are a record of functions with the contract of AOSP's IMapper.h
    ([AiMapperOk]); the implementation is proved to meet the contract the boundary
    asks of it ([MapperOk]). *)

From stdpp Require Import base list gmap strings.
From Stdlib Require Import ZArith Lia Bool.
From S2P Require Import Prelude Kernel Protocol Dmabuf Engine EngineFiles EngineInv PrimeMapper MapperMetadata.

(** ** The vendor library *)

(** [data] holds the descriptors, then the integers. *)
Record advc_native_handle := NativeHandle {
  num_fds : Z;
  num_ints : Z;
  nh_data : list Z }.
(** [handle->data[i]]; [None]: past the end, which is undefined behaviour. *)
Definition handle_data (h : advc_native_handle) (i : nat) : option Z := nh_data h !! i.
Definition handle_fds (h : advc_native_handle) : list Z := firstn (Z.to_nat (num_fds h)) (nh_data h).

Record file_stat := Stat { st_size : Z; st_dev : Z; st_ino : Z }.

(** AHardwareBuffer_getNativeHandle, the table of IMapper version 5, fstat on a
    buffer object and AImage_deleteAsync.  A handle is [None] for NULL, a raw
    pointer 0.  The metadata calls take the size of the destination (0 with a
    NULL destination) and return their result and the bytes they wrote. *)
Record advc_ai_mapper (B : Type) := AiMapper {
  get_native_handle : Z -> St (machine B) Z;
  import_buffer : Z -> St (machine B) (Z * option advc_native_handle);
  free_buffer : advc_native_handle -> St (machine B) unit;
  get_transport_size : advc_native_handle -> St (machine B) (Z * (Z * Z));
  get_metadata : advc_native_handle -> list Z -> Z -> Z -> St (machine B) (Z * list Z);
  get_standard_metadata : advc_native_handle -> Z -> Z -> St (machine B) (Z * list Z);
  ai_fstat : Z -> St (machine B) (option file_stat);
  image_delete_async : Z -> Z -> St (machine B) unit;
  ai_dlclose : St (machine B) unit }.
Arguments get_native_handle {B}.
Arguments import_buffer {B}.
Arguments free_buffer {B}.
Arguments get_transport_size {B}.
Arguments get_metadata {B}.
Arguments get_standard_metadata {B}.
Arguments ai_fstat {B}.
Arguments image_delete_async {B}.
Arguments ai_dlclose {B}.

Definition ADVC_AIMAPPER_ERROR_NONE : Z := 0.
Definition ADVC_STANDARD_METADATA_WIDTH : Z := 3.
Definition ADVC_STANDARD_METADATA_HEIGHT : Z := 4.
Definition ADVC_STANDARD_METADATA_LAYER_COUNT : Z := 5.
Definition ADVC_STANDARD_METADATA_PIXEL_FORMAT_FOURCC : Z := 7.
Definition ADVC_STANDARD_METADATA_PIXEL_FORMAT_MODIFIER : Z := 8.
Definition ADVC_STANDARD_METADATA_ALLOCATION_SIZE : Z := 10.
Definition ADVC_STANDARD_METADATA_STRIDE : Z := 23.
Definition QTI_DATA_FD : Z := 10012.
Definition MAX_METADATA : Z := 1024 * 1024.

Section Mapper.
Context {B : Type} (mapper : advc_ai_mapper B).

(** [errno = e; return -1;] for a call whose result is a value. *)
Definition none_with {A} (e : Z) : St (machine B) (option A) := errno_is e ;; mret None.

(** A value that a read past the end of a handle may have left undefined. *)
Definition reading {A C} (v : option A) (k : A -> St (machine B) (option C)) : St (machine B) (option C) :=
  match v with Some a => k a | None => mret None end.

(** *** Queries *)

(** The size query, the allocation and the fetch of [query_metadata]: the bytes
    of the stream.  [query_vendor_i32] repeats it with its own errno for a fetch
    of another size. *)
Definition query_bytes (fetch : Z -> St (machine B) (Z * list Z)) (mismatch : Z -> Z)
  : St (machine B) (option (list Z)) :=
  '(required, _) ← fetch 0;
  if (required <=? 0) || (MAX_METADATA <? required)
  then none_with (if required <? 0 then ENOTSUP else EOVERFLOW)
  else
    ok ← sys_alloc;
    if negb ok then mret None
    else
      '(written, bytes) ← fetch required;
      if negb (written =? required) then none_with (mismatch written) else mret (Some bytes).

Definition query_metadata (handle : advc_native_handle) (type : Z) : St (machine B) (option (list Z)) :=
  query_bytes (get_standard_metadata mapper handle type) (fun written => if written <? 0 then ENOTSUP else EPROTO).

(** Decoding what was queried; the decoder is given errno. *)
Definition query_with {A} (handle : advc_native_handle) (type : Z)
    (decode : Z -> option (list Z) -> Z + A) : St (machine B) (option A) :=
  data ← query_metadata handle type;
  match data with
  | None => mret None
  | Some bytes =>
      errno0 ← errno;
      match decode errno0 (Some bytes) with inl e => none_with e | inr v => mret (Some v) end
  end.
Definition query_u32 h type := query_with h type (fun e d => advc_mapper_metadata_decode_u32 e d type).
Definition query_u64 h type := query_with h type (fun e d => advc_mapper_metadata_decode_u64 e d type).
Definition query_layouts h :=
  query_with h ADVC_STANDARD_METADATA_PLANE_LAYOUTS (fun _ => advc_mapper_metadata_decode_plane_layouts).
Definition query_crop h :=
  query_with h ADVC_STANDARD_METADATA_CROP (fun _ => advc_mapper_metadata_decode_crops).

(** The two encodings of a vendor integer: raw, or tagged with name and type. *)
Definition decode_vendor_i32 (name : list Z) (type : Z) (data : list Z) : option Z :=
  let size := zlen data in
  if size =? 4 then Some (signed 32 (le data))
  else if size <? 8 + 8 + 4 then None
  else
    let encoded_name_size := signed 64 (le (firstn 8 data)) in
    let name_size := zlen name in
    if (encoded_name_size <? 0) || (SIZE_MAX <? encoded_name_size) ||
       negb (encoded_name_size =? name_size) || negb (8 + name_size + 8 + 4 =? size) ||
       negb (str_eq (firstn (length name) (skipn 8 data)) name) then None
    else
      let rest := skipn (8 + length name) data in
      if negb (signed 64 (le (firstn 8 rest)) =? type) then None
      else Some (signed 32 (le (firstn 4 (skipn 8 rest)))).

Definition query_vendor_i32 (handle : advc_native_handle) (name : list Z) (type : Z)
  : St (machine B) (option Z) :=
  data ← query_bytes (get_metadata mapper handle name type) (fun _ => EPROTO);
  match data with
  | None => mret None
  | Some bytes =>
      match decode_vendor_i32 name type bytes with Some v => mret (Some v) | None => none_with EPROTO end
  end.

(** *** The data descriptor among the transport descriptors *)

(** The first [i] in [i, i + n) whose descriptor is [fd] or the same file; -1
    when there is none. *)
Fixpoint transport_index (h : advc_native_handle) (fd : Z) (info : option file_stat) (n i : nat)
  : St (machine B) (option Z) :=
  match n with
  | O => mret (Some (-1))
  | S n =>
      reading (handle_data h i) (fun data =>
      if data =? fd then mret (Some (Z.of_nat i))
      else
        match info with
        | None => transport_index h fd info n (S i)
        | Some q =>
            t ← ai_fstat mapper data;
            match t with
            | Some t =>
                if (st_dev t =? st_dev q) && (st_ino t =? st_ino q) then mret (Some (Z.of_nat i))
                else transport_index h fd info n (S i)
            | None => transport_index h fd info n (S i)
            end
        end)
  end.

Record qti_diagnostics := Qti { qti_valid : bool; qti_size : Z; qti_index : Z }.

(** The stat of the data descriptor when it is open. *)
Definition qti_stat (fd : Z) : St (machine B) (option file_stat) :=
  if fd <? 0 then mret None
  else f ← fcntl_getfd fd; if f <? 0 then mret None else ai_fstat mapper fd.

(** The block that saves and restores errno. *)
Definition qti_query (h : advc_native_handle) (transport_fds : Z) : St (machine B) (option qti_diagnostics) :=
  saved_errno ← errno;
  v ← query_vendor_i32 h qti_name QTI_DATA_FD;
  r ← match v with
      | None => mret (Some (Qti false 0 (-1)))
      | Some fd =>
          info ← qti_stat fd;
          i ← transport_index h fd info (Z.to_nat transport_fds) 0;
          mret (Qti (match info with Some _ => true | None => false end)
                    (match info with Some q => if 0 <? st_size q then st_size q else 0 | None => 0 end) <$> i)
      end;
  errno_is saved_errno ;; mret r.

Fixpoint transport_sizes (h : advc_native_handle) (n i : nat) : St (machine B) (option (list Z)) :=
  match n with
  | O => mret (Some [])
  | S n =>
      reading (handle_data h i) (fun data =>
      t ← ai_fstat mapper data;
      l ← transport_sizes h n (S i);
      mret (cons (match t with Some t => if 0 <? st_size t then st_size t else 0 | None => 0 end) <$> l))
  end.

(** [transport_fd_sizes], zero past the transport. *)
Definition transport_fd_sizes (h : advc_native_handle) (transport_fds : Z) : St (machine B) (option (list Z)) :=
  let n := Z.to_nat (Z.min transport_fds ADVC_MAX_DMABUF_OBJECTS) in
  l ← transport_sizes h n 0; mret ((fun l => l ++ replicate (4 - n) 0) <$> l).

(** *** The metadata of a buffer *)

Record buffer_metadata := Buffer {
  mapper_width : Z;
  mapper_height : Z;
  mapper_layers : Z;
  bm_fourcc : Z;
  bm_modifier : Z;
  bm_allocation_size : Z;
  mapper_stride : Z;
  bm_layouts : list advc_mapper_plane_layout;
  bm_crops : list advc_mapper_crop }.

(** [QUERY_OR_FAIL]: the query or the status it fails with. *)
Definition or_fail {A C} (q : St (machine B) (option A)) (status : string)
    (k : A -> St (machine B) (string + C)) : St (machine B) (string + C) :=
  v ← q; match v with Some a => k a | None => mret (inl status) end.

Definition query_buffer (h : advc_native_handle) : St (machine B) (string + buffer_metadata) :=
  or_fail (query_u64 h ADVC_STANDARD_METADATA_WIDTH) "width-metadata-unavailable" (fun width =>
  or_fail (query_u64 h ADVC_STANDARD_METADATA_HEIGHT) "height-metadata-unavailable" (fun height =>
  or_fail (query_u64 h ADVC_STANDARD_METADATA_LAYER_COUNT) "layer-count-metadata-unavailable" (fun layers =>
  or_fail (query_u32 h ADVC_STANDARD_METADATA_PIXEL_FORMAT_FOURCC) "fourcc-metadata-unavailable" (fun fourcc =>
  or_fail (query_u64 h ADVC_STANDARD_METADATA_PIXEL_FORMAT_MODIFIER) "modifier-metadata-unavailable" (fun modifier =>
  or_fail (query_u64 h ADVC_STANDARD_METADATA_ALLOCATION_SIZE) "allocation-size-metadata-unavailable" (fun size =>
  or_fail (query_u32 h ADVC_STANDARD_METADATA_STRIDE) "stride-metadata-unavailable" (fun stride =>
  or_fail (query_layouts h) "plane-layout-metadata-unavailable" (fun layouts =>
  or_fail (query_crop h) "crop-metadata-unavailable" (fun crops =>
  mret (inr (Buffer width height layers fourcc modifier size stride layouts crops))))))))))).

(** The comparisons with the public metadata, in the order of the code; all of
    them fail with EPROTO. *)
Definition metadata_mismatch (b : buffer_metadata) (md : advc_ahb_public_metadata) : option string :=
  let crop := default (Crop 0 0 0 0) (head (bm_crops b)) in
  if negb (mapper_width b =? am_width md) then Some "mapper-width-public-mismatch"%string
  else if negb (mapper_height b =? am_height md) then Some "mapper-height-public-mismatch"%string
  else if negb (mapper_layers b =? 1) || negb (mapper_layers b =? am_layers md)
  then Some "mapper-layers-public-mismatch"%string
  else if negb (mapper_stride b =? am_stride md) then Some "mapper-stride-public-mismatch"%string
  else if (bm_fourcc b =? 0) || (bm_modifier b =? UINT64_MAX) || (bm_allocation_size b =? 0) ||
          (ADVC_MAX_DMABUF_OBJECT_BYTES <? bm_allocation_size b)
  then Some "invalid-standard-metadata"%string
  else if (mapper_width b <? u64 (am_crop_left md + am_crop_width md)) ||
          (mapper_height b <? u64 (am_crop_top md + am_crop_height md)) ||
          (am_crop_left md <? u32 (c_left crop)) || (am_crop_top md <? u32 (c_top crop)) ||
          (u32 (c_right crop) <? u64 (am_crop_left md + am_crop_width md)) ||
          (u32 (c_bottom crop) <? u64 (am_crop_top md + am_crop_height md))
  then Some "logical-crop-mapper-mismatch"%string
  else None.

(** The extent check of the standard path: layout [i] against crop [i]. *)
Definition plane_extent_bad (allocation_size : Z) (lc : advc_mapper_plane_layout * advc_mapper_crop) : bool :=
  let '(l, c) := lc in
  (allocation_size <=? offset_bytes l) ||
  (u64 (allocation_size - offset_bytes l) <? total_size_bytes l) || (UINT32_MAX <? stride_bytes l) ||
  (width_samples l <? u64 (c_right c)) || (height_samples l <? u64 (c_bottom c)).

(** The stores into the caller's descriptor. *)
Definition filled_descriptor (d : advc_dmabuf_descriptor) (md : advc_ahb_public_metadata)
    (b : buffer_metadata) (fd : Z) (planes : list (Z * Z)) : advc_dmabuf_descriptor :=
  Desc (d_buffer_id d) (u32 (mapper_width b)) (u32 (mapper_height b)) (bm_fourcc b)
    ADVC_DMABUF_EXPLICIT_ALL (bm_modifier b) (am_crop_left md) (am_crop_top md) (am_crop_width md)
    (am_crop_height md) 1 (zlen planes) (d_color_primaries d) (d_color_transfer d) (d_color_matrix d)
    (d_color_range d) (d_chroma_horizontal d) (d_chroma_vertical d)
    (<[0%nat := Obj fd (bm_allocation_size b)]> (d_objects d))
    (((fun op => Plane 0 (fst op) (snd op)) <$> planes) ++ skipn (length planes) (d_planes d)).

(** *** The export *)

(** What the code jumps to [fail] with: [result], the descriptor, [duplicate] and
    [last_status]. *)
Record outcome := Outcome {
  oc_result : Z;
  oc_descriptor : advc_dmabuf_descriptor;
  oc_duplicate : Z;
  oc_status : string }.

(** The duplicate of transport descriptor [i], described by [planes]. *)
Definition export_planes (h : advc_native_handle) (i : nat) (md : advc_ahb_public_metadata)
    (d : advc_dmabuf_descriptor) (b : buffer_metadata) (planes : list (Z * Z)) (failed passed : string)
  : St (machine B) (option outcome) :=
  reading (handle_data h i) (fun data =>
  duplicate ← fcntl_dupfd_cloexec data;
  if duplicate <? 0 then mret (Some (Outcome (-1) d duplicate failed))
  else mret (Some (Outcome 0 (filled_descriptor d md b duplicate planes) (-1) passed))).

(** The choice of the layout, once the metadata is consistent. *)
Definition export_layout (h : advc_native_handle) (md : advc_ahb_public_metadata)
    (d : advc_dmabuf_descriptor) (b : buffer_metadata) (transport_fds : Z) (sizes : list Z)
    (qti : qti_diagnostics) : St (machine B) (option outcome) :=
  let query := Query (bm_fourcc b) (bm_modifier b) (bm_allocation_size b) (u32 (mapper_width b))
    (u32 (mapper_height b)) (mapper_stride b) transport_fds sizes (qti_index qti) (qti_valid qti) (qti_size qti) in
  match advc_mapper_qti_nv12_normalize query (bm_layouts b) (bm_crops b) with
  | inr n =>
      export_planes h (Z.to_nat (image_transport_index n)) md d b
        [(fst (plane_offsets n), fst (plane_strides n)); (snd (plane_offsets n), snd (plane_strides n))]
        "qti-image-fd-duplicate-failed"
        (match kind n with
         | ADVC_MAPPER_QTI_NV12_UBWC => "qti-nv12-ubwc-prime-export-pass"
         | ADVC_MAPPER_QTI_NV12_LINEAR => "qti-nv12-linear-prime-export-pass"
         end)
  | inl e =>
      errno_is e ;;
      if (bm_fourcc b =? ADVC_DRM_FORMAT_NV12) && (bm_modifier b =? ADVC_DRM_FORMAT_MOD_QCOM_COMPRESSED) then
        mret (Some (Outcome (-1) d (-1) "qti-nv12-ubwc-normalization-rejected"))
      else
        match advc_mapper_prime_layout_gate transport_fds (zlen (bm_layouts b)) (zlen (bm_crops b)) with
        | ADVC_PRIME_LAYOUT_GATE_CROP_PLANE_COUNT_MISMATCH =>
            errno_is EPROTO ;; mret (Some (Outcome (-1) d (-1) "crop-plane-count-mismatch"))
        | ADVC_PRIME_LAYOUT_GATE_AMBIGUOUS_MULTI_FD =>
            errno_is ENOTSUP ;; mret (Some (Outcome (-1) d (-1) "ambiguous-multi-fd-layout"))
        | ADVC_PRIME_LAYOUT_GATE_PASS =>
            if existsb (plane_extent_bad (bm_allocation_size b)) (zip (bm_layouts b) (bm_crops b)) then
              errno_is EPROTO ;; mret (Some (Outcome (-1) d (-1) "invalid-plane-extent"))
            else
              export_planes h 0 md d b
                ((fun l => (offset_bytes l, u32 (stride_bytes l))) <$> bm_layouts b)
                "prime-fd-duplicate-failed" "exact-standard-prime-export-pass"
        end
  end.

(** From the transport size to the jump to [fail]. *)
Definition export_imported (h : advc_native_handle) (md : advc_ahb_public_metadata)
    (d : advc_dmabuf_descriptor) : St (machine B) (option outcome) :=
  let failed status := mret (Some (Outcome (-1) d (-1) status)) in
  '(e, (transport_fds, transport_ints)) ← get_transport_size mapper h;
  if negb (e =? ADVC_AIMAPPER_ERROR_NONE) then failed "transport-size-query-failed"%string
  else
    qti ← qti_query h transport_fds;
    reading qti (fun qti =>
    sizes ← transport_fd_sizes h transport_fds;
    reading sizes (fun sizes =>
    if (transport_fds =? 0) || (ADVC_MAX_DMABUF_OBJECTS <? transport_fds) || (num_fds h <? 1) ||
       (u32 (num_fds h) <? transport_fds) || (num_ints h <? 0) || (u32 (num_ints h) <? transport_ints) then
      errno_is ENOTSUP ;; failed "invalid-transport-size"%string
    else
      metadata ← query_buffer h;
      match metadata with
      | inl status => failed status
      | inr b =>
          match metadata_mismatch b md with
          | Some status => errno_is EPROTO ;; failed status
          | None => export_layout h md d b transport_fds sizes qti
          end
      end)).

(** The label [fail]. *)
Definition export_fail (imported : option advc_native_handle) (o : outcome) : St (machine B) outcome :=
  close_if_open (oc_duplicate o) ;;
  match imported with Some h => free_buffer mapper h | None => mret tt end ;;
  e ← errno;
  (if (oc_result o <? 0) && (e =? 0) then errno_is ENOTSUP else mret tt) ;;
  mret o.

(** The whole call, with the status it leaves for diagnostics. *)
Definition android_export (hardware_buffer : Z) (md : advc_ahb_public_metadata)
    (d : advc_dmabuf_descriptor) : St (machine B) (option outcome) :=
  let failed status := Outcome (-1) d (-1) status in
  if hardware_buffer =? 0 then errno_is EINVAL ;; mret (Some (failed "invalid-arguments"%string))
  else
    raw_handle ← get_native_handle mapper hardware_buffer;
    if raw_handle =? 0 then o ← export_fail None (failed "native-handle-unavailable"%string); mret (Some o)
    else
      '(e, imported) ← import_buffer mapper raw_handle;
      match imported with
      | Some h =>
          if negb (e =? ADVC_AIMAPPER_ERROR_NONE)
          then o ← export_fail imported (failed "import-buffer-failed"%string); mret (Some o)
          else
            o ← export_imported h md d;
            reading o (fun o => o ← export_fail imported o; mret (Some o))
      | None => o ← export_fail None (failed "import-buffer-failed"%string); mret (Some o)
      end.

(** The call as the boundary sees it.  An undefined one has no result; the value
    here is never returned under the contract of the vendor library below. *)
Definition android_export_prime (hardware_buffer : Z) (md : advc_ahb_public_metadata)
    (d : advc_dmabuf_descriptor) : St (machine B) (Z * advc_dmabuf_descriptor) :=
  o ← android_export hardware_buffer md d;
  mret (match o with Some o => (oc_result o, oc_descriptor o) | None => (-1, d) end).

Definition android_release_image (lifetime_token release_fence_fd : Z) : St (machine B) Z :=
  image_delete_async mapper lifetime_token release_fence_fd ;; mret 0.

(** The callbacks [advc_android_prime_mapper_create] registers, once the library
    is loaded. *)
Definition android_ops : advc_ahb_prime_mapper_ops B :=
  MapperOps android_export_prime android_release_image (Some (ai_dlclose mapper)).

End Mapper.

(** ** The contract of the libraries

    Of IMapper.h: an imported handle owns clones of the descriptors, freeBuffer
    closes them, the transport count is within the handle, the queries open and close
    nothing and return bytes.  AImage_deleteAsync takes the fence. *)

Definition imported_fds (o : option advc_native_handle) : list Z :=
  match o with Some h => handle_fds h | None => [] end.

(** A call that leaves the descriptor table alone. *)
Definition keeps {B A} (c : St (machine B) A) : Prop := forall m, m_fds (snd (c m)) = m_fds m.

Class AiMapperOk {B : Type} (mapper : advc_ai_mapper B) : Prop := {
  ai_native_keeps hb : keeps (get_native_handle mapper hb);
  ai_import raw m : let x := import_buffer mapper raw m in
    installed (m_fds m) (m_fds (snd x)) (imported_fds (snd (fst x)));
  ai_free h t m : installed t (m_fds m) (handle_fds h) -> m_fds (snd (free_buffer mapper h m)) = t;
  ai_transport_keeps h : keeps (get_transport_size mapper h);
  ai_transport_within raw m h m' : snd (fst (import_buffer mapper raw m)) = Some h ->
    fst (snd (fst (get_transport_size mapper h m'))) <= zlen (nh_data h);
  ai_transport_range h m : is_u32 (fst (snd (fst (get_transport_size mapper h m))));
  ai_metadata_keeps h name type size : keeps (get_metadata mapper h name type size);
  ai_standard_keeps h type size : keeps (get_standard_metadata mapper h type size);
  ai_standard_bytes h type size m : Forall is_u8 (snd (fst (get_standard_metadata mapper h type size m)));
  ai_fstat_keeps fd : keeps (ai_fstat mapper fd);
  ai_delete token fence t m : installed t (m_fds m) (opt_fd fence) ->
    m_fds (snd (image_delete_async mapper token fence m)) = t;
}.

(** ** What the queries leave alone *)

Create HintDb keep.
Section Keeps.
Context {B : Type} (mapper : advc_ai_mapper B).
Implicit Types m : machine B.

Lemma keeps_ret {A} (a : A) : keeps (mret (M := St (machine B)) a).
Proof. done. Qed.
Lemma keeps_bind {A C} (c : St (machine B) A) (k : A -> St (machine B) C) :
  keeps c -> (forall a, keeps (k a)) -> keeps (c ≫= k).
Proof. intros Hc Hk m. rewrite bind_seq, Hk. apply Hc. Qed.
Lemma keeps_errno_is e : keeps (errno_is (B := B) e).
Proof. done. Qed.
Lemma keeps_errno : keeps (errno (B := B)).
Proof. done. Qed.
Lemma keeps_alloc : keeps (sys_alloc (B := B)).
Proof. intros m. unfold sys_alloc. by destruct (m_alloc m) as [|[] ?]. Qed.
Lemma keeps_getfd fd : keeps (fcntl_getfd (B := B) fd).
Proof. intros m. unfold fcntl_getfd. by destruct (m_fds m !! fd). Qed.
Lemma keeps_none_with {A} e : keeps (none_with (B := B) (A := A) e).
Proof. done. Qed.

End Keeps.
#[export] Hint Resolve keeps_ret keeps_errno_is keeps_errno keeps_alloc keeps_getfd keeps_none_with : keep.
#[export] Hint Resolve ai_native_keeps ai_transport_keeps ai_metadata_keeps ai_standard_keeps ai_fstat_keeps : keep.

(** Goes through binds, conditionals and matches to the calls. *)
Ltac keeps_steps :=
  repeat first
    [ solve [eauto with keep]
    | apply keeps_bind; [|intros ?]
    | match goal with
      | |- keeps (if ?b then _ else _) => destruct b
      | |- keeps (match ?x with _ => _ end) => destruct x
      end ].

Section Queries.
Context {B : Type} (mapper : advc_ai_mapper B) {Hok : AiMapperOk mapper}.
Implicit Types m : machine B.

Lemma keeps_query_bytes fetch mis : (forall n, keeps (fetch n)) -> keeps (query_bytes (B := B) fetch mis).
Proof. intros Hf. unfold query_bytes. keeps_steps. Qed.

Lemma keeps_query_with {A} h type (decode : Z -> option (list Z) -> Z + A) :
  keeps (query_with mapper h type decode).
Proof.
  unfold query_with, query_metadata. apply keeps_bind; [|intros ?; keeps_steps].
  apply keeps_query_bytes. intros n. apply ai_standard_keeps.
Qed.

Lemma keeps_vendor h name type : keeps (query_vendor_i32 mapper h name type).
Proof.
  unfold query_vendor_i32. apply keeps_bind; [|intros ?; keeps_steps].
  apply keeps_query_bytes. intros n. apply ai_metadata_keeps.
Qed.

Lemma keeps_transport_index h fd info n i : keeps (transport_index mapper h fd info n i).
Proof.
  revert i. induction n as [|n IH]; intros i; cbn [transport_index]; unfold reading; keeps_steps; apply IH.
Qed.

Lemma keeps_qti_query h n : keeps (qti_query mapper h n).
Proof.
  unfold qti_query, qti_stat. keeps_steps; first [apply keeps_vendor|apply keeps_transport_index].
Qed.

Lemma keeps_transport_sizes h n : keeps (transport_fd_sizes mapper h n).
Proof.
  unfold transport_fd_sizes. cbn zeta. apply keeps_bind; [|intros ?; keeps_steps].
  generalize (Z.to_nat (Z.min n ADVC_MAX_DMABUF_OBJECTS)) 0%nat. intros k.
  induction k as [|k IH]; intros i; cbn [transport_sizes]; unfold reading; keeps_steps; apply IH.
Qed.

End Queries.

(** ** What the queries return *)

Record buffer_ok (b : buffer_metadata) : Prop := {
  bo_width : is_u64 (mapper_width b);
  bo_height : is_u64 (mapper_height b);
  bo_fourcc : is_u32 (bm_fourcc b);
  bo_modifier : is_u64 (bm_modifier b);
  bo_size : is_u64 (bm_allocation_size b);
  bo_stride : is_u32 (mapper_stride b);
  bo_layouts : Forall plane_ok (bm_layouts b) /\ 1 <= zlen (bm_layouts b) <= 4;
  bo_crops : Forall crop_ok (bm_crops b) /\ 1 <= zlen (bm_crops b) <= 4 }.

Section Values.
Context {B : Type} (mapper : advc_ai_mapper B) {Hok : AiMapperOk mapper}.
Implicit Types m : machine B.

(** A query that succeeds returns a value in [V]. *)
Definition yields {A} (q : St (machine B) (option A)) (V : A -> Prop) : Prop :=
  forall m a, fst (q m) = Some a -> V a.
Definition inr_yields {C} (c : St (machine B) (string + C)) (V : C -> Prop) : Prop :=
  keeps c /\ forall m b, fst (c m) = inr b -> V b.

Lemma query_with_yields {A} h type (decode : Z -> option (list Z) -> Z + A) (V : A -> Prop) :
  (forall e bytes a, Forall is_u8 bytes -> decode e (Some bytes) = inr a -> V a) ->
  yields (query_with mapper h type decode) V.
Proof.
  intros HV m a. unfold query_with. rewrite bind_seq.
  assert (forall bytes, fst (query_metadata mapper h type m) = Some bytes -> Forall is_u8 bytes) as Hb.
  { unfold query_metadata, query_bytes. intros bytes. rewrite bind_seq.
    destruct (fst (get_standard_metadata mapper h type 0 m)) as [req b0]. destruct (_ || _); [done|].
    rewrite bind_seq. destruct (negb _); [done|]. rewrite bind_seq.
    match goal with |- context [get_standard_metadata mapper h type req ?m'] =>
      pose proof (ai_standard_bytes h type req m') as Hs;
      destruct (fst (get_standard_metadata mapper h type req m')) as [w b] end.
    destruct (negb _); [done|]. by intros [= <-]. }
  destruct (fst (query_metadata mapper h type m)) as [bytes|]; [|done]. rewrite bind_seq.
  match goal with |- context [decode ?e (Some bytes)] => destruct (decode e (Some bytes)) as [e'|v] eqn:E end; [done|].
  intros [= <-]. apply (HV _ _ _ (Hb bytes eq_refl) E).
Qed.

Lemma or_fail_yields {A C} (q : St (machine B) (option A)) V s (k : A -> St (machine B) (string + C)) W :
  keeps q -> yields q V -> (forall a, V a -> inr_yields (k a) W) -> (forall a, keeps (k a)) ->
  inr_yields (or_fail q s k) W.
Proof.
  intros Hq HV Hk Hkk. unfold or_fail. split.
  - apply keeps_bind; [done|]. intros [a|]; [apply Hkk|done].
  - intros m b. rewrite bind_seq. specialize (HV m). destruct (fst (q m)) as [a|]; [|done]. by apply Hk, HV.
Qed.

Lemma keeps_or_fail {A C} (q : St (machine B) (option A)) s (k : A -> St (machine B) (string + C)) :
  keeps q -> (forall a, keeps (k a)) -> keeps (or_fail q s k).
Proof. intros Hq Hk. apply keeps_bind; [done|]. intros [a|]; [apply Hk|done]. Qed.

Lemma query_u32_yields h type : is_i64 type -> yields (query_u32 mapper h type) is_u32.
Proof.
  intros Ht. apply query_with_yields. intros e bytes a Hb H.
  apply (decode_scalar_exact 4 e type bytes a) in H; [|done..]. apply H.
Qed.
Lemma query_u64_yields h type : is_i64 type -> yields (query_u64 mapper h type) is_u64.
Proof.
  intros Ht. apply query_with_yields. intros e bytes a Hb H.
  apply (decode_scalar_exact 8 e type bytes a) in H; [|done..]. apply H.
Qed.

Lemma query_buffer_yields h : inr_yields (query_buffer mapper h) buffer_ok.
Proof.
  unfold query_buffer.
  do 7 (eapply or_fail_yields;
    [ apply (keeps_query_with mapper)
    | first [apply query_u32_yields; done|apply query_u64_yields; done]
    | intros ? ?
    | intros ?; repeat (apply keeps_or_fail; [apply (keeps_query_with mapper)|intros ?]); done ]).
  apply or_fail_yields with (V := fun ls => Forall plane_ok ls /\ 1 <= zlen ls <= 4); [apply (keeps_query_with mapper)| |intros ? ?|].
  { apply query_with_yields. intros e bytes ls Hb E.
    apply (decode_array_exact _ _ _ _ _ _ read_plane_reads) in E; [|done..]. tauto. }
  2: { intros ?. apply keeps_or_fail; [apply (keeps_query_with mapper)|done]. }
  apply or_fail_yields with (V := fun cs => Forall crop_ok cs /\ 1 <= zlen cs <= 4); [apply (keeps_query_with mapper)| |intros ? ?|done].
  { apply query_with_yields. intros e bytes cs Hb E.
    apply (decode_array_exact _ _ _ _ _ _ read_crop_reads) in E; [|done..]. tauto. }
  split; [done|]. intros m b [= <-]. by constructor.
Qed.

End Values.

(** ** The outcome of an export *)

(** The planes described lie inside the allocation. *)
Definition planes_inside (b : buffer_metadata) (planes : list (Z * Z)) : Prop :=
  1 <= zlen planes <= 4 /\
  Forall (fun op => 0 <= fst op < bm_allocation_size b /\ 0 < snd op <= UINT32_MAX) planes.

(** Nothing happened, or one new descriptor is described by consistent metadata. *)
Definition export_post (md : advc_ahb_public_metadata) (d0 : advc_dmabuf_descriptor)
    (t t' : gmap Z fd_info) (o : outcome) : Prop :=
  (oc_result o = -1 /\ oc_descriptor o = d0 /\ oc_duplicate o < 0 /\ t' = t) \/
  (oc_result o = 0 /\ oc_duplicate o = -1 /\ exists fd b planes,
     0 <= fd /\ installed t t' [fd] /\ oc_descriptor o = filled_descriptor d0 md b fd planes /\
     buffer_ok b /\ metadata_mismatch b md = None /\ planes_inside b planes).

(** ... and the call is defined. *)
Definition exported (md : advc_ahb_public_metadata) (d0 : advc_dmabuf_descriptor)
    (t t' : gmap Z fd_info) (x : option outcome) : Prop :=
  exists o, x = Some o /\ export_post md d0 t t' o.

Section Outcomes.
Context {B : Type} (mapper : advc_ai_mapper B) {Hok : AiMapperOk mapper}.
Context (md : advc_ahb_public_metadata) (d0 : advc_dmabuf_descriptor).
Implicit Types m : machine B.

Lemma post_failed t m status : t = m_fds m -> export_post md d0 t (m_fds m) (Outcome (-1) d0 (-1) status).
Proof. intros ->. left. done. Qed.
Lemma exported_failed t m status : t = m_fds m -> exported md d0 t (m_fds m) (Some (Outcome (-1) d0 (-1) status)).
Proof. intros H. eexists. split; [done|]. by apply post_failed. Qed.

Lemma handle_data_within h i : (i < length (nh_data h))%nat -> exists data, handle_data h i = Some data.
Proof. apply lookup_lt_is_Some. Qed.

Lemma export_planes_post h i b planes failed passed m : (i < length (nh_data h))%nat ->
  buffer_ok b -> metadata_mismatch b md = None -> planes_inside b planes ->
  let x := export_planes h i md d0 b planes failed passed m in
  exported md d0 (m_fds m) (m_fds (snd x)) (fst x).
Proof.
  intros Hin Hb Hm Hp. cbn zeta. unfold export_planes. destruct (handle_data_within h i Hin) as [data ->].
  cbn [reading]. rewrite bind_seq.
  destruct (dup_installed data m) as [[Hlt Hf]|[Hge Hi]];
    destruct (fcntl_dupfd_cloexec data m) as [fd m1]; cbn [fst snd] in *.
  - destruct (Z.ltb_spec fd 0); [|lia]. eexists. split; [done|]. left. done.
  - destruct (Z.ltb_spec fd 0); [lia|]. eexists. split; [done|]. right. split; [done|]. split; [done|]. exists fd, b, planes.
    rewrite opt_fd_pos in Hi by done. done.
Qed.

Lemma transport_index_range h fd info n i m : (i + n <= length (nh_data h))%nat ->
  exists x, fst (transport_index mapper h fd info n i m) = Some x /\ (x = -1 \/ Z.of_nat i <= x < Z.of_nat (i + n)).
Proof.
  revert i m. induction n as [|n IH]; intros i m Hin; cbn [transport_index]; [eexists; split; [done|by left]|].
  destruct (handle_data_within h i ltac:(lia)) as [data ->]. cbn [reading].
  assert (forall m, exists x, fst (transport_index mapper h fd info n (S i) m) = Some x /\
    (x = -1 \/ Z.of_nat i <= x < Z.of_nat (i + S n))) as IH'.
  { intros m0. destruct (IH (S i) m0 ltac:(lia)) as (x & E & H). exists x. split; [done|lia]. }
  assert (exists x, Some (Z.of_nat i) = Some x /\ (x = -1 \/ Z.of_nat i <= x < Z.of_nat (i + S n))) as Hhere
    by (eexists; split; [done|lia]).
  destruct (_ =? _); [exact Hhere|]. destruct info as [q|]; [|apply IH'].
  rewrite bind_seq. destruct (ai_fstat mapper data m) as [[t|] m1]; cbn [fst snd]; [|apply IH'].
  destruct (_ && _); [exact Hhere|apply IH'].
Qed.

Lemma qti_index_range h n m : 0 <= n <= zlen (nh_data h) ->
  exists q, fst (qti_query mapper h n m) = Some q /\ (qti_index q = -1 \/ 0 <= qti_index q < n).
Proof.
  intros Hn. unfold zlen in Hn. unfold qti_query. rewrite !bind_seq.
  match goal with |- context [query_vendor_i32 mapper h ?a ?b ?c] =>
    destruct (query_vendor_i32 mapper h a b c) as [[v|] m1] end; cbn [fst snd]; [|eexists; split; [done|by left]].
  rewrite !bind_seq. cbn [fst snd mret st_ret].
  match goal with |- context [transport_index mapper h v ?a ?b ?c ?d] =>
    destruct (transport_index_range h v a b c d ltac:(lia)) as (x & E & H); destruct (transport_index mapper h v a b c d) end.
  cbn [fst snd] in *. subst. eexists. split; [done|]. cbn. lia.
Qed.

Lemma transport_sizes_defined h n m : 0 <= n <= zlen (nh_data h) -> exists l, fst (transport_fd_sizes mapper h n m) = Some l.
Proof.
  intros Hn. unfold zlen in Hn. unfold transport_fd_sizes. cbn zeta. rewrite bind_seq.
  assert (Z.to_nat (Z.min n ADVC_MAX_DMABUF_OBJECTS) <= length (nh_data h) - 0)%nat as Hk by lia.
  assert (forall k i m, (k <= length (nh_data h) - i)%nat -> exists l, fst (transport_sizes mapper h k i m) = Some l) as Hl.
  { induction k as [|k IH]; intros i m0 Hi; cbn [transport_sizes]; [by eexists|].
    destruct (handle_data_within h i ltac:(lia)) as [data ->]. cbn [reading]. rewrite !bind_seq.
    destruct (IH (S i) (snd (ai_fstat mapper data m0)) ltac:(lia)) as [l ->]. by eexists. }
  destruct (Hl _ 0%nat m Hk) as [l ->]. by eexists.
Qed.

Lemma mismatch_sizes b : metadata_mismatch b md = None ->
  mapper_width b = am_width md /\ mapper_height b = am_height md /\ am_layers md = 1 /\
  bm_fourcc b <> 0 /\ bm_modifier b <> UINT64_MAX /\ bm_allocation_size b <> 0 /\
  bm_allocation_size b <= ADVC_MAX_DMABUF_OBJECT_BYTES.
Proof.
  unfold metadata_mismatch. cbn zeta.
  destruct (Z.eqb_spec (mapper_width b) (am_width md)); cbn [negb]; [|done].
  destruct (Z.eqb_spec (mapper_height b) (am_height md)); cbn [negb]; [|done].
  destruct (negb (mapper_layers b =? 1) || _) eqn:El; [done|].
  rewrite orb_false_iff, !negb_false_iff, !Z.eqb_eq in El.
  destruct (negb (mapper_stride b =? _)); [done|].
  destruct ((bm_fourcc b =? 0) || _ || _ || _) eqn:Em; [done|].
  rewrite !orb_false_iff, !Z.eqb_neq, Z.ltb_ge in Em. intros _. lia.
Qed.

Lemma standard_planes_inside b crops : buffer_ok b -> length (bm_layouts b) = length crops ->
  existsb (plane_extent_bad (bm_allocation_size b)) (zip (bm_layouts b) crops) = false ->
  planes_inside b ((fun l => (offset_bytes l, u32 (stride_bytes l))) <$> bm_layouts b).
Proof.
  intros Hb Hlen He. destruct (bo_layouts _ Hb) as [Hl Hz]. split; [unfold zlen in *; by rewrite length_fmap|].
  apply Forall_fmap, Forall_lookup_2. intros i l Hi.
  destruct (lookup_lt_is_Some_2 crops i) as [c Hc]; [rewrite <- Hlen; by eapply lookup_lt_Some|].
  assert (plane_extent_bad (bm_allocation_size b) (l, c) = false) as Hbad.
  { destruct (plane_extent_bad _ _) eqn:E; [|done]. rewrite <- He. symmetry. apply existsb_exists.
    exists (l, c). split; [|done]. apply list_elem_of_In, list_elem_of_lookup. exists i.
    apply lookup_zip_with_Some. eauto. }
  pose proof (plane_ok_fields l (Forall_lookup_1 _ _ _ _ Hl Hi)) as Hf. cbn [plane_extent_bad] in Hbad.
  rewrite !orb_false_iff, Z.leb_gt, !Z.ltb_ge in Hbad. unfold compose. cbn [fst snd].
  rewrite u32_id by (unfold is_u32, UINT32_MAX in *; lia). lia.
Qed.

Lemma nv12_planes_inside b q n : buffer_ok b -> nv12_query_ok q -> q_allocation_size q = bm_allocation_size b ->
  advc_mapper_qti_nv12_normalize q (bm_layouts b) (bm_crops b) = inr n ->
  0 <= image_transport_index n < q_transport_fds q /\
  planes_inside b [(fst (plane_offsets n), fst (plane_strides n)); (snd (plane_offsets n), snd (plane_strides n))].
Proof.
  intros Hb Hq Ha Hn. destruct (bo_layouts _ Hb) as [Hl _], (bo_crops _ Hb) as [Hc _].
  apply nv12_sound in Hn as (Hs & He & c & y & uv & _ & _ & _ & Hg & Hcase); [|done..]. rewrite Ha in He.
  assert (forall l, l ∈ bm_layouts b -> 0 <= offset_bytes l < bm_allocation_size b) as Hin.
  { intros l Hin. rewrite Forall_forall in Hl, He. specialize (He l Hin).
    destruct (plane_ok_fields l (Hl l Hin)) as (Ho & _ & Ht & _). unfold extent_ok in He. lia. }
  assert (0 < q_stride q <= UINT32_MAX) as Hst.
  { unfold nv12_query_ok, nv12_supported, is_u32, UINT32_MAX in *. lia. }
  split.
  { unfold nv12_supported in Hs. destruct Hcase as [(_ & _ & _ & ->)|(_ & ym & uvm & _ & _ & _ & _ & _ & _ & _ & _ & ->)]; cbn; lia. }
  split; [unfold zlen; cbn; lia|].
  destruct Hcase as [(_ & Hp & _ & ->)|(_ & ym & uvm & _ & _ & Hp & _ & _ & _ & _ & _ & ->)];
    cbn [plane_offsets plane_strides fst snd];
    (repeat constructor; cbn [fst snd]; try lia; apply Hin; rewrite Hp; set_solver).
Qed.

Lemma export_layout_post h b transport_fds sizes qti m :
  buffer_ok b -> metadata_mismatch b md = None -> 0 < transport_fds <= 4 -> transport_fds <= zlen (nh_data h) ->
  (qti_index qti = -1 \/ 0 <= qti_index qti < transport_fds) ->
  let x := export_layout h md d0 b transport_fds sizes qti m in
  exported md d0 (m_fds m) (m_fds (snd x)) (fst x).
Proof.
  intros Hb Hm Ht Hlen Hi. unfold zlen in Hlen. cbn zeta. unfold export_layout. cbn zeta.
  match goal with |- context [advc_mapper_qti_nv12_normalize ?q _ _] =>
    assert (nv12_query_ok q) as Hq; [|destruct (advc_mapper_qti_nv12_normalize q _ _) as [e|n] eqn:Hn] end.
  { destruct Hb. unfold nv12_query_ok. cbn. split_and!; try done; try apply u32_range; unfold is_u32, is_i32; lia. }
  - rewrite bind_seq. destruct (_ && _); [by apply exported_failed|].
    unfold advc_mapper_prime_layout_gate. destruct (Z.eqb_spec (zlen (bm_crops b)) (zlen (bm_layouts b))) as [Hz|];
      cbn [negb]; [|rewrite bind_seq; by apply exported_failed].
    destruct (transport_fds =? 1); cbn [negb]; [|rewrite bind_seq; by apply exported_failed].
    destruct (existsb _ _) eqn:He; [rewrite bind_seq; by apply exported_failed|].
    apply (export_planes_post h 0 b _ _ _ (snd (errno_is e m))); [lia|done..|].
    eapply standard_planes_inside; [done| |done]. unfold zlen in Hz. lia.
  - destruct (nv12_planes_inside _ _ _ Hb Hq eq_refl Hn) as [Hidx Hin]. cbn in Hidx.
    apply export_planes_post; [lia|done..].
Qed.

Lemma export_imported_post h m :
  (forall m', fst (snd (fst (get_transport_size mapper h m'))) <= zlen (nh_data h)) ->
  let x := export_imported mapper h md d0 m in
  exported md d0 (m_fds m) (m_fds (snd x)) (fst x).
Proof.
  intros Hwithin. specialize (Hwithin m). cbn zeta. unfold export_imported. cbn zeta. rewrite bind_seq.
  pose proof (ai_transport_keeps h m) as K0. pose proof (ai_transport_range h m) as R0.
  destruct (get_transport_size mapper h m) as [[e [tf ti]] m0]. cbn [fst snd] in *.
  destruct (negb _); [by apply exported_failed|]. rewrite bind_seq.
  unfold is_u32 in R0. pose proof (keeps_qti_query mapper h tf m0) as K1. destruct (qti_index_range h tf m0 ltac:(lia)) as (q & E1 & R1).
  destruct (qti_query mapper h tf m0) as [qti m1]. cbn [fst snd] in *. subst qti. cbn [reading]. rewrite bind_seq.
  pose proof (keeps_transport_sizes mapper h tf m1) as K2. destruct (transport_sizes_defined h tf m1 ltac:(lia)) as (l & E2).
  destruct (transport_fd_sizes mapper h tf m1) as [sizes m2]. cbn [fst snd] in *. subst sizes. cbn [reading].
  rewrite <- K0, <- K1, <- K2.
  match goal with |- context [if ?b then _ else _] => destruct b eqn:G end; [rewrite bind_seq; by apply exported_failed|].
  rewrite !orb_false_iff, Z.eqb_neq, Z.ltb_ge in G. unfold ADVC_MAX_DMABUF_OBJECTS, is_u32 in *.
  rewrite bind_seq. destruct (query_buffer_yields mapper h) as [K3 V3]. specialize (K3 m2). specialize (V3 m2).
  destruct (query_buffer mapper h m2) as [[status|b] m3]; cbn [fst snd] in *; [by apply exported_failed|].
  destruct (metadata_mismatch b md) as [status|] eqn:Hm; [rewrite bind_seq; by apply exported_failed|].
  rewrite <- K3. apply export_layout_post; [by apply V3|done|lia|lia|exact R1].
Qed.

(** The table after the label [fail]. *)
Lemma export_fail_post t h o m0 m :
  installed t (m_fds m0) (imported_fds h) -> export_post md d0 (m_fds m0) (m_fds m) o ->
  let x := export_fail mapper h o m in
  fst x = o /\ export_post md d0 t (m_fds (snd x)) o.
Proof.
  intros Hi Hp. cbn zeta. unfold export_fail. rewrite !bind_seq.
  assert (oc_duplicate o < 0) as Hd by (destruct Hp as [(_ & _ & ? & _)|(_ & -> & _)]; lia).
  unfold close_if_open. destruct (Z.leb_spec 0 (oc_duplicate o)); [lia|]. cbn [mret st_ret fst snd].
  set (m1 := snd ((match h with Some h => free_buffer mapper h | None => mret tt end) m)).
  cbn [errno gets fst snd mret st_ret].
  match goal with |- _ /\ export_post _ _ _ (m_fds (snd (?c m1))) _ =>
    assert (m_fds (snd (c m1)) = m_fds m1) as -> end.
  { match goal with |- context [if ?b then _ else _] => by destruct b end. }
  split; [done|]. assert (forall l, installed t (m_fds m) (l ++ imported_fds h) -> installed t (m_fds m1) l) as Hfree.
  { intros l Hl. apply installed_app_inv in Hl as (t1 & H1 & H2). subst m1. destruct h as [h|].
    - by rewrite (ai_free h t1 m H2).
    - cbn. by rewrite (installed_same _ _ H2). }
  destruct Hp as [(H1 & H2 & H3 & H4)|(H1 & H2 & fd & b & planes & Hfd & Hin & Hrest)].
  - left. split_and!; try done. apply installed_same, (Hfree []). cbn. by rewrite H4.
  - right. split; [done|]. split; [done|]. exists fd, b, planes. split; [done|]. split; [|done].
    apply Hfree. eapply installed_join; [|exact Hi|exact Hin]. apply Permutation_app_comm.
Qed.

Lemma android_export_post hb m :
  let x := android_export mapper hb md d0 m in
  exported md d0 (m_fds m) (m_fds (snd x)) (fst x).
Proof.
  cbn zeta. unfold android_export. cbn zeta. destruct (hb =? 0); [rewrite bind_seq; by apply exported_failed|].
  rewrite bind_seq. pose proof (ai_native_keeps hb m) as K. destruct (get_native_handle mapper hb m) as [raw m0].
  cbn [fst snd] in *. rewrite <- K.
  assert (forall h o m1 m2, installed (m_fds m0) (m_fds m1) (imported_fds h) ->
    export_post md d0 (m_fds m1) (m_fds m2) o ->
    let x := (o ← export_fail mapper h o; mret (Some o)) m2 in exported md d0 (m_fds m0) (m_fds (snd x)) (fst x)) as Hend.
  { intros h o m1 m2 H1 H2. cbn zeta. rewrite bind_seq. destruct (export_fail_post _ _ _ _ _ H1 H2) as [-> H]. by exists o. }
  destruct (raw =? 0).
  { apply (Hend None _ m0); [apply installed_nil|by apply post_failed]. }
  rewrite bind_seq. pose proof (ai_import raw m0) as Hi. pose proof (ai_transport_within raw m0) as Hwithin. cbn zeta in Hi.
  destruct (import_buffer mapper raw m0) as [[e h] m1]. cbn [fst snd] in Hi, Hwithin |- *. destruct h as [h|].
  - destruct (negb _); [by apply (Hend _ _ m1); [|apply post_failed]|].
    rewrite bind_seq. destruct (export_imported_post h m1) as (o & Ho & Hp); [intros m'; by apply Hwithin|].
    rewrite Ho. cbn [reading]. by apply (Hend (Some h) _ m1).
  - apply (Hend None _ m1); [done|by apply post_failed].
Qed.

End Outcomes.

(** ** The implementation meets the boundary's contract *)

Section Boundary.
Context {B : Type} (mapper : advc_ai_mapper B) {Hok : AiMapperOk mapper}.
Implicit Types m : machine B.

Lemma initial_objects : d_objects (ex_descriptor initialize_export) = replicate 4 (Obj (-1) 0).
Proof. done. Qed.

Lemma filled_object_fds md b fd planes : 0 <= fd ->
  object_fds (filled_descriptor (ex_descriptor initialize_export) md b fd planes) = [fd].
Proof.
  intros Hfd. unfold object_fds, filled_descriptor. cbn [d_objects]. rewrite initial_objects. cbn.
  by rewrite opt_fd_pos.
Qed.

#[export] Instance android_ops_ok : MapperOk (android_ops mapper).
Proof.
  constructor.
  - intros hb md m. cbn zeta. cbn [android_ops mo_export_prime]. unfold android_export_prime. rewrite bind_seq.
    cbn [mret st_ret fst snd].
    destruct (android_export_post mapper md (ex_descriptor initialize_export) hb m)
      as (o & -> & [(_ & Hd & _ & Ht)|(_ & _ & fd & b & planes & Hfd & Hi & Hd & _)]);
      cbn [fst snd]; rewrite Hd.
    + rewrite Ht. apply installed_nil.
    + by rewrite filled_object_fds.
  - intros token fence t m Hi. cbn [android_ops mo_release]. unfold android_release_image. rewrite bind_seq.
    by apply ai_delete.
Qed.

Lemma plane_at_filled d0 md b fd planes i : 0 <= i < zlen planes -> exists op, op ∈ planes /\
  plane_at (filled_descriptor d0 md b fd planes) i = Plane 0 (fst op) (snd op).
Proof.
  intros Hi. unfold zlen in Hi. destruct (lookup_lt_is_Some_2 planes (Z.to_nat i)) as [op Hop]; [lia|].
  exists op. split; [by eapply list_elem_of_lookup_2|]. unfold plane_at, filled_descriptor. cbn [d_planes].
  rewrite lookup_app_l by (rewrite length_fmap; lia). by rewrite list_lookup_fmap, Hop.
Qed.

(** C33. Exporting a decoded buffer through the boundary on the gralloc
    implementation, for every vendor library that keeps the contract [AiMapperOk]
    (its transport count is within the handle it imported) and whatever metadata it
    reports: the call reads nothing past the handle, and either it fails and the
    descriptor table is as it was, so the imported handle has been freed, or it
    succeeds and the table has gained the one descriptor of the single object and the
    duplicate of the acquire fence.  The object's size is the reported allocation, at
    most the broker's limit; the picture size is the public one; there are one to four
    planes, each in the object, starting below its size with a nonzero pitch. *)
Theorem android_export_owned (hb : Z) (md : advc_ahb_public_metadata) (id fence : Z) m :
  let x := advc_ahb_prime_mapper_export (Some (android_ops mapper)) hb md id fence m in
  let d := ex_descriptor (snd (fst x)) in
  (forall d m', is_Some (fst (android_export mapper hb md d m'))) /\
  ((fst (fst x) = -1 /\ m_fds (snd x) = m_fds m) \/
   (fst (fst x) = 0 /\ exists fd size,
     installed (m_fds m) (m_fds (snd x)) (fd :: opt_fd (ex_acquire_fence_fd (snd (fst x)))) /\
     d_buffer_id d = id /\ d_object_count d = 1 /\ object_at d 0 = Obj fd size /\ 0 < size <= 2 ^ 30 /\
     d_width d = am_width md /\ d_height d = am_height md /\ 1 <= d_plane_count d <= 4 /\
     forall i, 0 <= i < d_plane_count d ->
       p_object_index (plane_at d i) = 0 /\ 0 <= p_offset (plane_at d i) < size /\ 0 < p_pitch (plane_at d i))).
Proof.
  cbn zeta. split.
  { intros d m'. destruct (android_export_post mapper md d hb m') as (o & -> & _). by eexists. }
  destruct (prime_export_owned (android_ops mapper) hb md id fence m android_ops_ok)
    as [(Hr & Ht & _)|(Hr & Hi & Hid & _ & Hw & Hh & _)]; [by left|right]. split; [done|].
  destruct (prime_export_descriptor (android_ops mapper) hb md id fence m
    (fun d => exists fd b planes, 0 <= fd /\
       d = filled_descriptor (ex_descriptor initialize_export) md b fd planes /\
       buffer_ok b /\ metadata_mismatch b md = None /\ planes_inside b planes))
    as (d & (fd & b & planes & Hfd & -> & Hb & Hm & Hp) & Hd); [|done|].
  { intros m'. cbn zeta. cbn [android_ops mo_export_prime]. unfold android_export_prime. rewrite bind_seq.
    cbn [mret st_ret fst snd]. intros Hge.
    destruct (android_export_post mapper md (ex_descriptor initialize_export) hb m')
      as (o & Eo & [(Hneg & _)|(_ & _ & fd & b & planes & ? & _ & Hrest)]); 
      rewrite Eo in Hge |- *; cbn [fst snd] in Hge |- *; [lia|]. exists fd, b, planes. tauto. }
  exists fd, (bm_allocation_size b). unfold export_fds in Hi. rewrite Hd in *.
  replace (object_fds (with_buffer_id id _)) with [fd] in Hi by (symmetry; exact (filled_object_fds md b fd planes Hfd)).
  destruct (mismatch_sizes md b Hm) as (_ & _ & _ & _ & _ & Hs1 & Hs2). destruct Hp as [Hpc Hpf].
  pose proof (bo_size _ Hb) as Hs3. unfold is_u64, ADVC_MAX_DMABUF_OBJECT_BYTES in *. change (Z.shiftl 1 30) with (2 ^ 30) in Hs2.
  split; [done|]. split; [done|]. split; [done|]. split; [done|]. split; [lia|]. split; [done|]. split; [done|].
  split; [done|]. intros i Hlt. destruct (plane_at_filled (ex_descriptor initialize_export) md b fd planes i Hlt) as (op & Hop & E).
  change (plane_at (with_buffer_id id ?d) i) with (plane_at d i). rewrite E. cbn [p_object_index p_offset p_pitch].
  rewrite Forall_forall in Hpf. specialize (Hpf op Hop). lia.
Qed.

End Boundary.

(** ** A vendor mapper that keeps the contract

    One descriptor, a 128x64 linear RGBA buffer, no vendor metadata. *)

Definition rgba_layout : advc_mapper_plane_layout :=
  Layout [Component standard_component_name 1024 0 8] 0 32 512 128 64 32768 1 1.

Definition rgba_stream (type : Z) : list Z :=
  if type =? 3 then enc_header 3 ++ le_enc 8 128
  else if type =? 4 then enc_header 4 ++ le_enc 8 64
  else if type =? 5 then enc_header 5 ++ le_enc 8 1
  else if type =? 7 then enc_header 7 ++ le_enc 4 0x34324241
  else if type =? 8 then enc_header 8 ++ le_enc 8 0
  else if type =? 10 then enc_header 10 ++ le_enc 8 32768
  else if type =? 23 then enc_header 23 ++ le_enc 4 128
  else if type =? 15 then enc_array enc_plane 15 [rgba_layout]
  else enc_array enc_crop 16 [Crop 0 0 128 64].

Definition rgba_mapper : advc_ai_mapper unit := {|
  get_native_handle hb := mret hb;
  import_buffer raw :=
    fd ← install_fd (FdInfo true KOther);
    mret (if fd <? 0 then (5, None) else (0, Some (NativeHandle 1 0 [fd])));
  free_buffer h := close_all (handle_fds h);
  get_transport_size h := mret (0, (1, 0));
  get_metadata h name type size := mret (-1, []);
  get_standard_metadata h type size :=
    mret (zlen (rgba_stream type), if size =? 0 then [] else rgba_stream type);
  ai_fstat fd := mret (Some (Stat 32768 1 2));
  image_delete_async token fence := close_if_open fence;
  ai_dlclose := mret tt |}.

Lemma rgba_stream_bytes type : Forall is_u8 (rgba_stream type).
Proof.
  assert (forall l, forallb (fun x => (0 <=? x) && (x <? 256)) l = true -> Forall is_u8 l) as H.
  { intros l Hl. apply List.Forall_forall. intros x Hx. rewrite forallb_forall in Hl. apply Hl in Hx. unfold is_u8. lia. }
  unfold rgba_stream. repeat (destruct (type =? _); [apply H; vm_compute; reflexivity|]).
  apply H. vm_compute. reflexivity.
Qed.

#[export] Instance rgba_ok : AiMapperOk rgba_mapper.
Proof.
  constructor; try done.
  - intros raw m. cbn zeta. cbn [rgba_mapper import_buffer]. rewrite bind_seq.
    destruct (install_fd_spec (FdInfo true KOther) m) as [(m' & -> & Hm)|[_ ->]]; cbn [fst snd].
    + cbn. rewrite Hm. apply installed_nil.
    + pose proof (lowest_free_nonneg (m_fds m)) as Hn. destruct (Z.ltb_spec (lowest_free (m_fds m)) 0); [lia|].
      apply installed_one.
  - intros h t m Hi. by apply close_all_installed.
  - intros raw m h m'. cbn [rgba_mapper import_buffer get_transport_size]. rewrite bind_seq.
    destruct (fst (install_fd _ m) <? 0); cbn; [done|]. by intros [= <-].
  - intros h type size m. cbn [rgba_mapper get_standard_metadata mret st_ret fst snd].
    destruct (size =? 0); [constructor|apply rgba_stream_bytes].
  - intros token fence t m Hi. by apply close_if_open_installed.
Qed.

Lemma android_export_owned_witness :
  let x := advc_ahb_prime_mapper_export (Some (android_ops rgba_mapper)) 1
    (Metadata 128 64 1 128 1 0 0 0 128 64) 9 (-1) sample_process in
  fst (fst x) = 0 /\ exists fd, installed (m_fds sample_process) (m_fds (snd x)) [fd] /\
    object_at (ex_descriptor (snd (fst x))) 0 = Obj fd 32768.
Proof.
  cbn zeta. destruct (android_export_owned rgba_mapper 1 (Metadata 128 64 1 128 1 0 0 0 128 64) 9 (-1) sample_process)
    as [_ [[H _]|[H (fd & size & Hi & _ & _ & Ho & _)]]].
  - exfalso. vm_compute in H. discriminate H.
  - split; [exact H|]. exists fd. split.
    + match type of Hi with installed _ _ (_ :: opt_fd ?e) =>
        assert (e = -1) as E by (vm_compute; reflexivity); rewrite E in Hi end. exact Hi.
    + rewrite Ho. f_equal. vm_compute in Ho. congruence.
Defined.

(** A vendor library that reports more descriptors than the handle has: the code reads
    past the handle before it compares the two. *)
Definition overcounting_mapper : advc_ai_mapper unit := {|
  get_native_handle := get_native_handle rgba_mapper; import_buffer := import_buffer rgba_mapper;
  free_buffer := free_buffer rgba_mapper; get_transport_size h := mret (0, (3, 0));
  get_metadata := get_metadata rgba_mapper; get_standard_metadata := get_standard_metadata rgba_mapper;
  ai_fstat := ai_fstat rgba_mapper; image_delete_async := image_delete_async rgba_mapper;
  ai_dlclose := ai_dlclose rgba_mapper |}.
Lemma overcount_is_overread :
  fst (android_export overcounting_mapper 1 (Metadata 128 64 1 128 1 0 0 0 128 64) (ex_descriptor initialize_export) sample_process) = None.
Proof. vm_compute. reflexivity. Qed.
