(* ===== verification/StreamSplit.v ===== *)
(** * Splitting Annex-B streams (src/src/video_bridge/tools/advc_annexb.c)

    The start-code search, the splitter of one IDR sample into codec
    configuration and access unit, and the splitter of a stream with one slice
    per picture.  The bodies of the two loops are [split_nal] and [stream_nal];
    the walk over the NAL units they share is [nal_walk], which also carries
    the loop of advc_bitstream.c (StreamInspect).

    The specification cuts the bytes at their start codes ([units]) and says
    which sequences of NAL types are accepted and where the cuts fall. *)

From stdpp Require Import base list.
From Stdlib Require Import ZArith Lia Bool.
From S2P Require Import Prelude Kernel.

(** ** The start-code search *)

(** [position] and [length] are the result; [n] iterations are left. *)
Fixpoint find_start_loop (data : list Z) (n : nat) (i : Z) : option (Z * Z) :=
  match n with
  | O => None
  | S n =>
      if (i + 2 <? zlen data) && (byte_at data i =? 0) && (byte_at data (i + 1) =? 0) then
        if byte_at data (i + 2) =? 1 then Some (i, 3)
        else if (i + 3 <? zlen data) && (byte_at data (i + 2) =? 0) && (byte_at data (i + 3) =? 1)
        then Some (i, 4)
        else find_start_loop data n (i + 1)
      else find_start_loop data n (i + 1)
  end.
Definition find_start_code (data : list Z) (from : Z) : option (Z * Z) :=
  find_start_loop data (Z.to_nat (zlen data - from)) from.

(** ** The walk over the NAL units

    [skip] is where the search for the next start code resumes, [body] what the
    loop does with a unit: its start code, its first byte and its end.  [fuel]
    bounds the units; every unit takes at least the three bytes of its start code. *)
Section Walk.
Context {A : Type} (find : list Z -> Z -> option (Z * Z)) (skip : Z).
Context (body : Z -> Z -> Z -> A -> option A).

Fixpoint nal_walk (data : list Z) (fuel : nat) (start start_length : Z) (st : A) : option A :=
  match fuel with
  | O => None
  | S fuel =>
      let header := start + start_length in
      if zlen data <=? header then None
      else
        let next := find data (header + skip) in
        let end_ := match next with Some (n, _) => n | None => zlen data end in
        match body start header end_ st with
        | None => None
        | Some st =>
            match next with
            | None => Some st
            | Some (n, nl) => nal_walk data fuel n nl st
            end
        end
  end.
End Walk.

(** ** One sample: configuration and IDR access unit *)

Record advc_avc_annexb_parts := Parts {
  config_offset : Z; config_size : Z; frame_offset : Z; frame_size : Z }.

(** The locals of the loop; [ss_frame_offset] is [SIZE_MAX] until a frame begins. *)
Record split_state := SplitState {
  ss_frame_offset : Z; ss_sps : bool; ss_pps : bool; ss_idr : bool }.

Definition nal_type_of (data : list Z) (header : Z) : Z := Z.land (byte_at data header) 31.

(** The checks both loops make before they look at the type. *)
Definition nal_malformed (data : list Z) (header end_ : Z) : bool :=
  (end_ <=? header + 1) || negb (Z.land (byte_at data header) 128 =? 0) ||
  (nal_type_of data header =? 0) || (23 <? nal_type_of data header).

Definition non_vcl_type (nal_type : Z) : bool :=
  (nal_type =? 6) || (nal_type =? 9) || (nal_type =? 10) || (nal_type =? 11) || (nal_type =? 12).

(** What a unit of this type does to the locals. *)
Definition split_type (nal_type start : Z) (s : split_state) : option split_state :=
  let '(SplitState fo sps pps idr) := s in
  if fo =? SIZE_MAX then
    if nal_type =? 7 then Some (SplitState fo true pps idr)
    else if nal_type =? 8 then Some (SplitState fo sps true idr)
    else if nal_type =? 5 then
      if negb sps || negb pps then None else Some (SplitState start sps pps true)
    else if non_vcl_type nal_type then
      if negb sps || negb pps then None else Some (SplitState start sps pps idr)
    else None
  else if (1 <=? nal_type) && (nal_type <=? 4) then None
  else if nal_type =? 5 then Some (SplitState fo sps pps true)
  else if negb (non_vcl_type nal_type) then None
  else Some s.

Definition split_nal (data : list Z) (start header end_ : Z) (s : split_state)
  : option split_state :=
  if nal_malformed data header end_ then None
  else split_type (nal_type_of data header) start s.

(** The opening of both splitters: the first start code, after zeros only. *)
Definition stream_start (data : list Z) : option (Z * Z) :=
  if zlen data <? 4 then None
  else
    match find_start_code data 0 with
    | None => None
    | Some (start, l) => if bytes_are_zero data 0 start then Some (start, l) else None
    end.

(** [None] is a NULL pointer. *)
Definition advc_avc_annexb_split (data : option (list Z)) : Z + advc_avc_annexb_parts :=
  match data with
  | None => inl EINVAL
  | Some data =>
      match stream_start data with
      | None => inl EINVAL
      | Some (start, l) =>
          match nal_walk find_start_code 1 (split_nal data) data (S (length data)) start l
                  (SplitState SIZE_MAX false false false) with
          | None => inl EINVAL
          | Some (SplitState fo _ _ idr) =>
              if (fo =? SIZE_MAX) || negb idr || (fo =? 0) || (zlen data <=? fo) then inl EINVAL
              else inr (Parts 0 fo fo (zlen data - fo))
          end
      end
  end.

(** ** A stream with one slice per picture *)

Definition ADVC_AVC_MAX_SMOKE_FRAMES : Z := 256.

Record advc_avc_annexb_frame := Frame { f_offset : Z; f_size : Z; f_key_frame : bool }.
(** [frames] holds the entries below [frame_count]. *)
Record advc_avc_annexb_stream := Stream {
  st_config_offset : Z; st_config_size : Z; st_frames : list advc_avc_annexb_frame }.

Record stream_state := StreamState {
  sm_stream : advc_avc_annexb_stream;
  sm_frame_start : Z;
  sm_sps : bool; sm_pps : bool; sm_vcl : bool; sm_first_vcl : bool; sm_key : bool }.

(** The first unit that is neither SPS nor PPS opens the frames. *)
Definition stream_prefix (nal_type start : Z) (s : stream_state) : option stream_state :=
  let '(StreamState m fs sps pps vcl first key) := s in
  if fs =? SIZE_MAX then
    if nal_type =? 7 then Some (StreamState m fs true pps vcl first key)
    else if nal_type =? 8 then Some (StreamState m fs sps true vcl first key)
    else if negb sps || negb pps then None
    else Some (StreamState (Stream 0 start (st_frames m)) start sps pps vcl first key)
  else Some s.

(** A slice ends the frame before it. *)
Definition stream_slice (nal_type start : Z) (s : stream_state) : option stream_state :=
  let '(StreamState m fs sps pps vcl first key) := s in
  if (1 <=? nal_type) && (nal_type <=? 5) then
    if first && negb (nal_type =? 5) then None
    else if vcl then
      if ADVC_AVC_MAX_SMOKE_FRAMES <=? zlen (st_frames m) then None
      else Some (StreamState
             (Stream (st_config_offset m) (st_config_size m)
                (st_frames m ++ [Frame fs (start - fs) key]))
             start sps pps true false (nal_type =? 5))
    else Some (StreamState m fs sps pps true false (if nal_type =? 5 then true else key))
  else Some s.

Definition stream_type (nal_type start : Z) (s : stream_state) : option stream_state :=
  match stream_prefix nal_type start s with
  | None => None
  | Some s => stream_slice nal_type start s
  end.

Definition stream_nal (data : list Z) (start header end_ : Z) (s : stream_state)
  : option stream_state :=
  if nal_malformed data header end_ then None
  else stream_type (nal_type_of data header) start s.

Definition advc_avc_annexb_split_single_slice_stream (data : option (list Z))
  : Z + advc_avc_annexb_stream :=
  match data with
  | None => inl EINVAL
  | Some data =>
      match stream_start data with
      | None => inl EINVAL
      | Some (start, l) =>
          match nal_walk find_start_code 1 (stream_nal data) data (S (length data)) start l
                  (StreamState (Stream 0 0 []) SIZE_MAX false false false true false) with
          | None => inl EINVAL
          | Some (StreamState m fs _ _ vcl _ key) =>
              if negb vcl || (fs =? SIZE_MAX) || (zlen data <=? fs) ||
                 (ADVC_AVC_MAX_SMOKE_FRAMES <=? zlen (st_frames m)) then inl EINVAL
              else inr (Stream (st_config_offset m) (st_config_size m)
                          (st_frames m ++ [Frame fs (zlen data - fs) key]))
          end
      end
  end.

(** ** Start codes, as a specification *)

(** A start code of [l] bytes lies at [i]: 00 00 01 or 00 00 00 01. *)
Definition code_at (data : list Z) (i l : Z) : Prop :=
  0 <= i /\ i + l <= zlen data /\ (l = 3 \/ l = 4) /\
  (forall j, 0 <= j < l - 1 -> byte_at data (i + j) = 0) /\ byte_at data (i + l - 1) = 1.

Definition no_code (data : list Z) (from : Z) : Prop :=
  forall j l, from <= j -> ~ code_at data j l.
Definition first_code (data : list Z) (from p l : Z) : Prop :=
  from <= p /\ code_at data p l /\ forall j l', from <= j < p -> ~ code_at data j l'.

(** What a search for a start code promises. *)
Definition search_ok (find : list Z -> Z -> option (Z * Z)) : Prop :=
  forall data from, 0 <= from ->
  match find data from with
  | Some (p, l) => first_code data from p l
  | None => no_code data from
  end.

Lemma code_at_3 data i : 0 <= i -> i + 2 < zlen data ->
  byte_at data i = 0 -> byte_at data (i + 1) = 0 -> byte_at data (i + 2) = 1 -> code_at data i 3.
Proof.
  intros H0 Hl B0 B1 B2. split; [done|]. split; [lia|]. split; [by left|]. split.
  - intros j Hj. assert (j = 0 \/ j = 1) as [-> | ->] by lia; [by rewrite Z.add_0_r|done].
  - by replace (i + 3 - 1) with (i + 2) by lia.
Qed.
Lemma code_at_4 data i : 0 <= i -> i + 3 < zlen data ->
  byte_at data i = 0 -> byte_at data (i + 1) = 0 -> byte_at data (i + 2) = 0 ->
  byte_at data (i + 3) = 1 -> code_at data i 4.
Proof.
  intros H0 Hl B0 B1 B2 B3. split; [done|]. split; [lia|]. split; [by right|]. split.
  - intros j Hj. assert (j = 0 \/ j = 1 \/ j = 2) as [-> | [-> | ->]] by lia;
      [by rewrite Z.add_0_r|done|done].
  - by replace (i + 4 - 1) with (i + 3) by lia.
Qed.

(** The bytes of a start code, read forward. *)
Lemma code_at_bytes data i l : code_at data i l ->
  i + 2 < zlen data /\ byte_at data i = 0 /\ byte_at data (i + 1) = 0 /\
  ((l = 3 /\ byte_at data (i + 2) = 1) \/
   (l = 4 /\ i + 3 < zlen data /\ byte_at data (i + 2) = 0 /\ byte_at data (i + 3) = 1)).
Proof.
  intros (H0 & Hl & H34 & Hz & Hb). split; [lia|].
  split; [rewrite <- (Z.add_0_r i) at 1; apply Hz; lia|]. split; [apply Hz; lia|].
  destruct H34 as [-> | ->].
  - left. split; [done|]. by replace (i + 2) with (i + 3 - 1) by lia.
  - right. split; [done|]. split; [lia|]. split; [apply Hz; lia|].
    by replace (i + 3) with (i + 4 - 1) by lia.
Qed.

Lemma code_at_length data i l l' : code_at data i l -> code_at data i l' -> l = l'.
Proof. intros H H'. apply code_at_bytes in H, H'. lia. Qed.

Lemma first_code_unique data from p l p' l' :
  first_code data from p l -> first_code data from p' l' -> p = p' /\ l = l'.
Proof.
  intros (H1 & H2 & H3) (H1' & H2' & H3'). destruct (Z.lt_trichotomy p p') as [Hlt | [<- | Hlt]].
  - destruct (H3' p l); [lia|done].
  - split; [done|]. by eapply code_at_length.
  - destruct (H3 p' l'); [lia|done].
Qed.

Lemma first_code_no_code data from p l : first_code data from p l -> ~ no_code data from.
Proof. intros (? & Hc & _) Hn. by apply (Hn p l). Qed.

Lemma first_code_step data from : (forall l, ~ code_at data from l) ->
  (forall p l, first_code data (from + 1) p l -> first_code data from p l) /\
  (no_code data (from + 1) -> no_code data from).
Proof.
  intros Hn. split.
  - intros p l (H1 & H2 & H3). split; [lia|]. split; [done|]. intros j l' Hj.
    destruct (decide (j = from)) as [-> |]; [apply Hn|apply H3; lia].
  - intros Hno j l Hj. destruct (decide (j = from)) as [-> |]; [apply Hn|apply Hno; lia].
Qed.

Lemma find_start_loop_ok data n i : 0 <= i -> zlen data - i <= Z.of_nat n ->
  match find_start_loop data n i with
  | Some (p, l) => first_code data i p l
  | None => no_code data i
  end.
Proof.
  revert i. induction n as [|n IH]; intros i Hi Hn; cbn [find_start_loop].
  { intros j l Hj Hc. apply code_at_bytes in Hc. lia. }
  assert ((forall l, ~ code_at data i l) ->
    match find_start_loop data n (i + 1) with
    | Some (p, l) => first_code data i p l | None => no_code data i end) as Hnext.
  { intros Hno. destruct (first_code_step data i Hno) as [Hf Hnc].
    specialize (IH (i + 1) ltac:(lia) ltac:(lia)).
    destruct (find_start_loop data n (i + 1)) as [[p l]|]; auto. }
  assert (forall l, code_at data i l -> first_code data i i l) as Hhere.
  { intros l Hc. split; [lia|]. split; [done|]. intros; lia. }
  destruct ((i + 2 <? zlen data) && (byte_at data i =? 0) && (byte_at data (i + 1) =? 0)) eqn:E1.
  - destruct (byte_at data (i + 2) =? 1) eqn:E2.
    { apply Hhere, code_at_3; lia. }
    destruct ((i + 3 <? zlen data) && (byte_at data (i + 2) =? 0) && (byte_at data (i + 3) =? 1)) eqn:E3.
    { apply Hhere, code_at_4; lia. }
    apply Hnext. intros l Hc. apply code_at_bytes in Hc. lia.
  - apply Hnext. intros l Hc. apply code_at_bytes in Hc. lia.
Qed.

Lemma find_start_code_ok : search_ok find_start_code.
Proof. intros data from Hf. apply find_start_loop_ok; lia. Qed.

(** ** The units of a stream *)

Record nal_unit := Unit { nu_start : Z; nu_payload : Z; nu_end : Z }.

(** From the start code of [l] bytes at [s] on, the stream falls into these
    units: each ends where the next start code begins, the last at the end. *)
Inductive units (skip : Z) (data : list Z) : Z -> Z -> list nal_unit -> Prop :=
  | units_last s l :
      no_code data (s + l + skip) -> units skip data s l [Unit s (s + l) (zlen data)]
  | units_next s l n nl us :
      first_code data (s + l + skip) n nl -> units skip data n nl us ->
      units skip data s l (Unit s (s + l) n :: us).

Lemma units_det skip data s l us us' :
  units skip data s l us -> units skip data s l us' -> us = us'.
Proof.
  intros H. revert us'. induction H as [s l Hn|s l n nl us Hf _ IH]; intros us' H'; inversion H' as [? ? Hn'|? ? n' nl' us2 Hf' Hu']; subst.
  - done.
  - by destruct (first_code_no_code _ _ _ _ Hf').
  - by destruct (first_code_no_code _ _ _ _ Hf).
  - destruct (first_code_unique _ _ _ _ _ _ Hf Hf') as [-> ->]. f_equal. by apply IH.
Qed.

(** Units begin at start codes, in order. *)
Lemma units_bounds skip data s l us : 0 <= skip -> code_at data s l -> units skip data s l us ->
  Forall (fun u => s <= nu_start u < zlen data) us.
Proof.
  intros Hk Hc H. induction H as [s l Hn|s l n nl us Hf _ IH].
  - destruct Hc as (? & ? & ? & _). constructor; [cbn; lia|done].
  - destruct Hf as (Hle & Hc' & _). destruct Hc as (? & ? & ? & _). constructor; [cbn; lia|].
    eapply Forall_impl; [by apply IH|]. cbn. intros u Hu. lia.
Qed.

Section WalkSpec.
Context {A : Type} (find : list Z -> Z -> option (Z * Z)) (skip : Z).
Context (body : Z -> Z -> Z -> A -> option A) (data : list Z).
Hypothesis Hfind : search_ok find.
Hypothesis Hskip : 0 <= skip.

(** The loop bodies, one unit after the other. *)
Fixpoint run_units (us : list nal_unit) (st : A) : option A :=
  match us with
  | [] => Some st
  | u :: us =>
      if zlen data <=? nu_payload u then None
      else st ← body (nu_start u) (nu_payload u) (nu_end u) st; run_units us st
  end.

(** The loop has fuel for every unit, so it visits exactly the units. *)
Lemma nal_walk_units fuel s l st : code_at data s l -> zlen data - s < Z.of_nat fuel ->
  exists us, units skip data s l us /\ nal_walk find skip body data fuel s l st = run_units us st.
Proof.
  revert s l st. induction fuel as [|fuel IH]; intros s l st Hc Hf.
  { destruct Hc as (? & ? & ? & _). lia. }
  cbn [nal_walk]. pose proof Hc as (H0 & H1 & H2 & _).
  pose proof (Hfind data (s + l + skip) ltac:(lia)) as Hs.
  destruct (find data (s + l + skip)) as [[n nl]|].
  - destruct Hs as (Hle & Hcn & Hmin). destruct (IH n nl st Hcn ltac:(lia)) as (us & Hu & _).
    exists (Unit s (s + l) n :: us). split; [by econstructor|]. cbn [run_units nu_start nu_payload nu_end].
    destruct (zlen data <=? s + l); [done|].
    destruct (body s (s + l) n st) as [st'|]; [|done]. cbn [mbind option_bind].
    destruct (IH n nl st' Hcn ltac:(lia)) as (us' & Hu' & E). rewrite E.
    by rewrite (units_det _ _ _ _ _ _ Hu' Hu).
  - exists [Unit s (s + l) (zlen data)]. split; [by constructor|].
    cbn [run_units nu_start nu_payload nu_end].
    destruct (zlen data <=? s + l); [done|]. by destruct (body s (s + l) (zlen data) st).
Qed.
End WalkSpec.

(** The units of a whole sample: its first start code comes after zeros only. *)
Definition stream_units (skip : Z) (data : list Z) (us : list nal_unit) : Prop :=
  exists s l, first_code data 0 s l /\ (forall i, 0 <= i < s -> byte_at data i = 0) /\
    units skip data s l us.

Lemma stream_units_det skip data us us' :
  stream_units skip data us -> stream_units skip data us' -> us = us'.
Proof.
  intros (s & l & Hf & _ & Hu) (s' & l' & Hf' & _ & Hu').
  destruct (first_code_unique _ _ _ _ _ _ Hf Hf') as [-> ->]. by eapply units_det.
Qed.

Definition nal_type (data : list Z) (u : nal_unit) : Z := nal_type_of data (nu_payload u).

(** A unit both splitters accept: at least two bytes, the forbidden bit clear, a
    type of a single NAL unit. *)
Definition unit_ok (data : list Z) (u : nal_unit) : Prop :=
  nu_payload u + 1 < nu_end u /\ nu_payload u < zlen data /\
  Z.testbit (byte_at data (nu_payload u)) 7 = false /\ 1 <= nal_type data u <= 23.

Lemma nal_type_nonneg data h : 0 <= nal_type_of data h.
Proof. apply Z.land_nonneg. right. lia. Qed.

Lemma nal_malformed_spec data u :
  (zlen data <=? nu_payload u) || nal_malformed data (nu_payload u) (nu_end u) = false <->
  unit_ok data u.
Proof.
  unfold nal_malformed, unit_ok, nal_type. pose proof (nal_type_nonneg data (nu_payload u)).
  change 128 with (Z.shiftl 1 7). rewrite land_pow2_testbit by lia.
  rewrite negb_involutive, !orb_false_iff. split.
  - intros (? & ((? & ?) & ?) & ?). repeat split; auto; lia.
  - intros (? & ? & ? & ?). repeat split; auto; lia.
Qed.

(** ** From units to their types *)

Section Types.
Context {A : Type} (step : Z -> Z -> A -> option A) (data : list Z).

Fixpoint run_types (l : list (Z * Z)) (st : A) : option A :=
  match l with
  | [] => Some st
  | (t, s) :: l => st ← step t s st; run_types l st
  end.

Definition unit_key (u : nal_unit) : Z * Z := (nal_type data u, nu_start u).

(** A body that tests the unit and then looks at its type only. *)
Lemma run_units_types us st st' :
  run_units (fun start h e st =>
    if nal_malformed data h e then None else step (nal_type_of data h) start st) data us st
    = Some st' <->
  Forall (unit_ok data) us /\ run_types (unit_key <$> us) st = Some st'.
Proof.
  revert st. induction us as [|u us IH]; intros st; cbn [run_units].
  { by split; [intros H|intros [_ H]]. }
  pose proof (nal_malformed_spec data u) as Hu.
  rewrite fmap_cons. change (unit_key u) with (nal_type_of data (nu_payload u), nu_start u).
  cbn [run_types].
  destruct (zlen data <=? nu_payload u) eqn:E1; cbn [orb] in Hu.
  { split; [done|]. intros [Hf _]. apply Forall_cons in Hf as [Hf _]. by apply Hu in Hf. }
  destruct (nal_malformed data (nu_payload u) (nu_end u)) eqn:E2; cbn [mbind option_bind].
  { split; [done|]. intros [Hf _]. apply Forall_cons in Hf as [Hf _]. by apply Hu in Hf. }
  rewrite Forall_cons.
  destruct (step (nal_type_of data (nu_payload u)) (nu_start u) st) as [st1|]; cbn [mbind option_bind].
  - rewrite IH. pose proof (proj1 Hu eq_refl). tauto.
  - split; [done|]. by intros [_ ?].
Qed.

Lemma run_types_app l1 l2 st : run_types (l1 ++ l2) st = run_types l1 st ≫= run_types l2.
Proof.
  revert st. induction l1 as [|[t s] l1 IH]; intros st; cbn [app run_types]; [done|].
  destruct (step t s st); cbn [mbind option_bind]; [apply IH|done].
Qed.
End Types.

(** Both splitters walk the units of the sample. *)
Lemma stream_start_walk {A} (body : Z -> Z -> Z -> A -> option A) data st :
  match stream_start data with
  | Some (s, l) => exists us, stream_units 1 data us /\
      Forall (fun u => 0 <= nu_start u < zlen data) us /\
      nal_walk find_start_code 1 body data (S (length data)) s l st = run_units body data us st
  | None => forall us, stream_units 1 data us -> zlen data < 4
  end.
Proof.
  unfold stream_start. destruct (Z.ltb_spec (zlen data) 4); [done|].
  pose proof (find_start_code_ok data 0 ltac:(lia)) as Hs.
  destruct (find_start_code data 0) as [[s l]|].
  - destruct (bytes_are_zero data 0 s) eqn:Ez.
    + destruct Hs as (H0 & Hc & Hm).
      destruct (nal_walk_units find_start_code 1 body data find_start_code_ok ltac:(lia)
                  (S (length data)) s l st Hc) as (us & Hu & E).
      { unfold zlen. lia. }
      exists us. split; [|split; [|done]].
      * exists s, l. split; [done|]. split; [|done]. intros i Hi.
        by apply (proj1 (bytes_are_zero_spec data 0 s) Ez i).
      * eapply Forall_impl; [by eapply (units_bounds 1 data s l); [lia|..]|]. cbn. intros; lia.
    + intros us (s' & l' & Hf & Hz & _).
      destruct (first_code_unique _ _ _ _ _ _ Hs Hf) as [<- <-].
      rewrite (proj2 (bytes_are_zero_spec data 0 s)) in Ez; [done|]. intros i Hi. by apply Hz.
  - intros us (s & l & Hf & _). by destruct (first_code_no_code _ _ _ _ Hf).
Qed.

(** ** Which samples are split, and where *)

Definition is_type (n : Z) (x : Z * Z) : bool := fst x =? n.
Definition config_type (x : Z * Z) : bool := is_type 7 x || is_type 8 x.
Definition frame_type (x : Z * Z) : bool := is_type 5 x || non_vcl_type (fst x).

Lemma span_list {X} (f : X -> bool) (l : list X) : exists a b,
  l = a ++ b /\ forallb f a = true /\ match b with [] => True | x :: _ => f x = false end.
Proof.
  induction l as [|x l (a & b & -> & Ha & Hb)]; [by exists [], []|].
  destruct (f x) eqn:E.
  - exists (x :: a), b. split; [done|]. split; [by cbn; rewrite E|done].
  - by exists [], (x :: a ++ b).
Qed.

Lemma split_inside t s fo sps pps idr : fo <> SIZE_MAX ->
  split_type t s (SplitState fo sps pps idr) =
  if frame_type (t, s) then Some (SplitState fo sps pps (idr || is_type 5 (t, s))) else None.
Proof.
  intros Hfo. unfold split_type, frame_type, is_type. cbn [fst].
  rewrite (proj2 (Z.eqb_neq fo SIZE_MAX)) by done.
  destruct ((1 <=? t) && (t <=? 4)) eqn:E1.
  { replace (t =? 5) with false by lia. unfold non_vcl_type.
    replace (t =? 6) with false by lia. replace (t =? 9) with false by lia.
    replace (t =? 10) with false by lia. replace (t =? 11) with false by lia.
    by replace (t =? 12) with false by lia. }
  destruct (t =? 5), (non_vcl_type t), idr; done.
Qed.

Lemma split_frames l fo sps pps idr : fo <> SIZE_MAX ->
  run_types split_type l (SplitState fo sps pps idr) =
  if forallb frame_type l then Some (SplitState fo sps pps (idr || existsb (is_type 5) l)) else None.
Proof.
  intros Hfo. revert idr. induction l as [|[t s] l IH]; intros idr; cbn [run_types forallb existsb].
  { by rewrite orb_false_r. }
  rewrite split_inside by done. destruct (frame_type (t, s)); cbn [mbind option_bind andb]; [|done].
  by rewrite IH, orb_assoc.
Qed.

Lemma split_param t s sps pps idr : config_type (t, s) = true ->
  split_type t s (SplitState SIZE_MAX sps pps idr) =
  Some (SplitState SIZE_MAX (sps || is_type 7 (t, s)) (pps || is_type 8 (t, s)) idr).
Proof.
  unfold split_type, config_type, is_type. cbn [fst]. rewrite Z.eqb_refl. intros Ht.
  destruct (t =? 7) eqn:E7; cbn [orb] in Ht; [|rewrite Ht].
  - replace (t =? 8) with false by lia. by rewrite orb_true_r, orb_false_r.
  - by rewrite orb_true_r, orb_false_r.
Qed.

Lemma split_config l sps pps idr : forallb config_type l = true ->
  run_types split_type l (SplitState SIZE_MAX sps pps idr) =
  Some (SplitState SIZE_MAX (sps || existsb (is_type 7) l) (pps || existsb (is_type 8) l) idr).
Proof.
  revert sps pps. induction l as [|[t s] l IH]; intros sps pps; cbn [run_types forallb existsb].
  { by rewrite !orb_false_r. }
  intros [Ht Hl]%andb_true_iff. rewrite split_param by done. cbn [mbind option_bind].
  by rewrite IH, !orb_assoc.
Qed.

(** The unit that opens the frame. *)
Lemma split_open t s sps pps : config_type (t, s) = false ->
  split_type t s (SplitState SIZE_MAX sps pps false) =
  if sps && pps && frame_type (t, s) then Some (SplitState s sps pps (is_type 5 (t, s))) else None.
Proof.
  unfold config_type, frame_type, is_type. cbn [fst]. intros [H7 H8]%orb_false_iff.
  unfold split_type. rewrite Z.eqb_refl, H7, H8.
  destruct (t =? 5), (non_vcl_type t), sps, pps; done.
Qed.

(** What the loop makes of a sequence of types: accepted with a frame exactly
    when SPS and PPS come first and everything after them belongs to one IDR
    access unit. *)
Lemma split_run l fo sps pps : Forall (fun x => snd x <> SIZE_MAX) l ->
  (run_types split_type l (SplitState SIZE_MAX false false false) =
     Some (SplitState fo sps pps true) /\ fo <> SIZE_MAX <->
   exists cfg x frm, l = cfg ++ x :: frm /\ forallb config_type cfg = true /\
     existsb (is_type 7) cfg = true /\ existsb (is_type 8) cfg = true /\
     forallb frame_type (x :: frm) = true /\ existsb (is_type 5) (x :: frm) = true /\
     fo = snd x /\ sps = true /\ pps = true).
Proof.
  intros Hl. split.
  - intros [E Hfo]. destruct (span_list config_type l) as (cfg & b & -> & Hc & Hb).
    rewrite run_types_app, split_config in E by done. cbn [mbind option_bind orb] in E.
    destruct b as [|[t s] frm]; cbn [run_types] in E; [congruence|].
    rewrite split_open in E by done.
    destruct (existsb (is_type 7) cfg) eqn:E7; [|done].
    destruct (existsb (is_type 8) cfg) eqn:E8; [|done].
    destruct (frame_type (t, s)) eqn:Ef; [|done]. cbn [andb mbind option_bind] in E.
    apply Forall_app in Hl as [_ [Hs _]%Forall_cons]. rewrite split_frames in E by done.
    destruct (forallb frame_type frm) eqn:Eff; [|done]. injection E as <- <- <- E5.
    exists cfg, (t, s), frm. cbn [forallb existsb]. rewrite Ef, Eff. done.
  - intros (cfg & [t s] & frm & -> & Hc & E7 & E8 & Hf & H5 & -> & -> & ->).
    apply Forall_app in Hl as [_ [Hs _]%Forall_cons]. split; [|done].
    rewrite run_types_app, split_config by done. cbn [mbind option_bind orb run_types].
    cbn [forallb existsb] in Hf, H5. apply andb_true_iff in Hf as [Hf Hff].
    rewrite split_open, E7, E8, Hf; cbn [andb mbind option_bind].
    + by rewrite split_frames, Hff, H5 by done.
    + revert Hf. unfold config_type, frame_type, is_type, non_vcl_type. cbn [fst].
      destruct (Z.eqb_spec t 7) as [-> |]; [done|]. by destruct (Z.eqb_spec t 8) as [-> |].
Qed.

Lemma forallb_map_Forall {X Y} (f : Y -> bool) (g : X -> Y) (P : X -> Prop) l :
  (forall x, f (g x) = true <-> P x) -> forallb f (g <$> l) = true <-> Forall P l.
Proof.
  intros H. induction l as [|x l IH]; cbn [fmap list_fmap forallb]; [by split|].
  by rewrite andb_true_iff, Forall_cons, H, IH.
Qed.
Lemma existsb_map_Exists {X Y} (f : Y -> bool) (g : X -> Y) (P : X -> Prop) l :
  (forall x, f (g x) = true <-> P x) -> existsb f (g <$> l) = true <-> Exists P l.
Proof.
  intros H. induction l as [|x l IH]; cbn [fmap list_fmap existsb].
  - split; [done|]. intros HE. inversion HE.
  - by rewrite orb_true_iff, Exists_cons, H, IH.
Qed.

Lemma is_type_key data n u : is_type n (unit_key data u) = true <-> nal_type data u = n.
Proof. unfold is_type, unit_key. cbn [fst]. lia. Qed.
Lemma config_type_key data u :
  config_type (unit_key data u) = true <-> nal_type data u = 7 \/ nal_type data u = 8.
Proof. unfold config_type. by rewrite orb_true_iff, !is_type_key. Qed.
Lemma frame_type_key data u : frame_type (unit_key data u) = true <->
  nal_type data u = 5 \/ nal_type data u = 6 \/ 9 <= nal_type data u <= 12.
Proof.
  unfold frame_type. rewrite orb_true_iff, is_type_key. unfold non_vcl_type, unit_key. cbn [fst]. lia.
Qed.

(** SPS and PPS units, then the units of one IDR access unit. *)
Record idr_sample (data : list Z) (cfg frm : list nal_unit) : Prop := {
  sample_units : stream_units 1 data (cfg ++ frm);
  sample_ok : Forall (unit_ok data) (cfg ++ frm);
  sample_config : Forall (fun u => nal_type data u = 7 \/ nal_type data u = 8) cfg;
  sample_sps : Exists (fun u => nal_type data u = 7) cfg;
  sample_pps : Exists (fun u => nal_type data u = 8) cfg;
  sample_frame : Forall (fun u =>
    nal_type data u = 5 \/ nal_type data u = 6 \/ 9 <= nal_type data u <= 12) frm;
  sample_idr : Exists (fun u => nal_type data u = 5) frm }.

Lemma stream_units_order skip data u us : 0 <= skip -> stream_units skip data (u :: us) ->
  Forall (fun v => nu_start u < nu_start v) us.
Proof.
  intros Hk (s & l & (_ & Hc & _) & _ & Hu). destruct Hc as (H0 & H1 & H2 & _).
  inversion Hu as [|? ? n nl ? Hf Hu']; subst; [done|]. destruct Hf as (Hle & Hc & _).
  eapply Forall_impl; [by eapply (units_bounds skip data n nl)|]. cbn. lia.
Qed.

Lemma sample_frame_positive data cfg u frm : Forall (fun u => 0 <= nu_start u < zlen data) (cfg ++ u :: frm) ->
  idr_sample data cfg (u :: frm) -> 0 < nu_start u < zlen data.
Proof.
  intros Hb [Hu _ _ Hs _ _ _]. destruct cfg as [|c cfg]; [by inversion Hs|]. cbn [app] in Hu, Hb.
  apply stream_units_order in Hu; [|lia]. apply Forall_app in Hu as [_ [Hu _]%Forall_cons].
  apply Forall_cons in Hb as [Hb1 [_ [Hb _]%Forall_cons]%Forall_app]. lia.
Qed.

(** A sample has more than four bytes: a start code and a unit of two. *)
Lemma units_size data us : stream_units 1 data us -> Forall (unit_ok data) us -> 4 <= zlen data.
Proof.
  intros (s & l & (_ & (H0 & H1 & H2 & _) & _) & _ & Hu) Hok.
  inversion Hu; subst; apply Forall_cons in Hok as [(_ & Hp & _) _]; cbn [nu_payload] in Hp; lia.
Qed.

(** The loop over the units of a sample ends with a frame exactly when the
    sample is configuration and one IDR access unit. *)
Lemma split_units data us fo sps pps : zlen data <= SIZE_MAX -> stream_units 1 data us ->
  Forall (fun u => 0 <= nu_start u < zlen data) us ->
  (run_units (split_nal data) data us (SplitState SIZE_MAX false false false) =
     Some (SplitState fo sps pps true) /\ fo <> SIZE_MAX <->
   exists cfg u frm, us = cfg ++ u :: frm /\ idr_sample data cfg (u :: frm) /\
     fo = nu_start u /\ sps = true /\ pps = true).
Proof.
  intros Hsz Hu Hb. unfold split_nal. rewrite (run_units_types split_type data).
  assert (Forall (fun x => snd x <> SIZE_MAX) (unit_key data <$> us)) as Hk.
  { apply Forall_fmap. eapply Forall_impl; [exact Hb|]. unfold unit_key. cbn. lia. }
  rewrite Logic.and_assoc, (split_run _ fo sps pps Hk). split.
  - intros (Hok & cfg & x & frm & E & Hc & H7 & H8 & Hf & H5 & -> & -> & ->).
    apply fmap_app_inv in E as (c & r & -> & E & ->).
    symmetry in E. apply fmap_cons_inv in E as (u & f & -> & -> & ->).
    exists c, u, f. split; [done|]. split; [|done].
    change (unit_key data u :: _) with (unit_key data <$> (u :: f)) in Hf, H5.
    constructor; [done|done|..].
    + by apply (forallb_map_Forall config_type (unit_key data)); [apply config_type_key|].
    + by apply (existsb_map_Exists (is_type 7) (unit_key data)); [apply is_type_key|].
    + by apply (existsb_map_Exists (is_type 8) (unit_key data)); [apply is_type_key|].
    + by apply (forallb_map_Forall frame_type (unit_key data)); [apply frame_type_key|].
    + by apply (existsb_map_Exists (is_type 5) (unit_key data)); [apply is_type_key|].
  - intros (c & u & f & -> & [? Hok Hc H7 H8 Hf H5] & -> & -> & ->). split; [done|].
    exists (unit_key data <$> c), (unit_key data u), (unit_key data <$> f).
    change (unit_key data u :: _) with (unit_key data <$> (u :: f)).
    split; [by rewrite fmap_app|].
    split; [by apply (forallb_map_Forall config_type _ _ _ (config_type_key data))|].
    split; [by apply (existsb_map_Exists (is_type 7) _ _ _ (is_type_key data 7))|].
    split; [by apply (existsb_map_Exists (is_type 8) _ _ _ (is_type_key data 8))|].
    split; [by apply (forallb_map_Forall frame_type _ _ _ (frame_type_key data))|].
    split; [by apply (existsb_map_Exists (is_type 5) _ _ _ (is_type_key data 5))|]. done.
Qed.

(** [advc_avc_annexb_split] accepts a sample exactly when its bytes, cut at
    their start codes, are SPS and PPS units (at least one of each, in any order)
    followed by the units of one IDR access unit, all well formed, with zeros only before the
    first start code; the configuration is then everything before the first unit of the
    access unit and the frame everything from it to the end.  Every other input is EINVAL. *)
Theorem annexb_split_exact data : zlen data <= SIZE_MAX ->
  (forall p, advc_avc_annexb_split (Some data) = inr p <->
     exists cfg u frm, idr_sample data cfg (u :: frm) /\
       p = Parts 0 (nu_start u) (nu_start u) (zlen data - nu_start u)) /\
  (forall e, advc_avc_annexb_split (Some data) = inl e -> e = EINVAL).
Proof.
  intros Hsz. unfold advc_avc_annexb_split.
  pose proof (stream_start_walk (split_nal data) data (SplitState SIZE_MAX false false false)) as Hw.
  destruct (stream_start data) as [[s l]|].
  2:{ split; [|congruence]. intros p. split; [done|]. intros (cfg & u & frm & Hi & _).
      pose proof (Hw _ (sample_units _ _ _ Hi)). pose proof (units_size _ _ (sample_units _ _ _ Hi) (sample_ok _ _ _ Hi)). lia. }
  destruct Hw as (us & Hu & Hb & ->).
  pose proof (fun fo sps pps => split_units data us fo sps pps Hsz Hu Hb) as Hs.
  destruct (run_units _ _ _ _) as [[fo sps pps idr]|].
  2:{ split; [|congruence]. intros p. split; [done|]. intros (cfg & u & frm & Hi & _).
      destruct (proj2 (Hs (nu_start u) true true)); [|done].
      exists cfg, u, frm. split; [|done]. by eapply stream_units_det; [|apply Hi]. }
  split; [|intros e; destruct (_ || _); congruence]. intros p. split.
  - destruct (_ || _) eqn:E; [done|]. intros [= <-].
    destruct idr; [|by rewrite orb_true_r in E].
    destruct (proj1 (Hs fo sps pps)) as (cfg & u & frm & -> & Hi & -> & _ & _).
    { split; [done|]. lia. }
    by exists cfg, u, frm.
  - intros (cfg & u & frm & Hi & ->).
    assert (us = cfg ++ u :: frm) as Eus by (by eapply stream_units_det; [|apply Hi]).
    destruct (proj2 (Hs (nu_start u) true true)) as [E Hne]; [by exists cfg, u, frm|].
    injection E as -> -> -> ->. rewrite Eus in Hb.
    pose proof (sample_frame_positive _ _ _ _ Hb Hi).
    rewrite (proj2 (Z.eqb_neq _ _) Hne), (proj2 (Z.eqb_neq (nu_start u) 0)), (proj2 (Z.leb_gt _ _)) by lia.
    done.
Qed.

(** ** The frames of a stream *)

Definition vcl_type (x : Z * Z) : bool := (1 <=? fst x) && (fst x <=? 5).

(** The frames cut at the slices [vs] (type and start), the current one begun at
    [fs]; the last runs to the end. *)
Fixpoint frames_from (size fs : Z) (key : bool) (vs : list (Z * Z)) : list advc_avc_annexb_frame :=
  match vs with
  | [] => [Frame fs (size - fs) key]
  | (t, s) :: vs => Frame fs (s - fs) key :: frames_from size s (t =? 5) vs
  end.

(** The end of [advc_avc_annexb_split_single_slice_stream]. *)
Definition stream_finish (size : Z) (s : stream_state) : option advc_avc_annexb_stream :=
  let '(StreamState m fs _ _ vcl _ key) := s in
  if negb vcl || (fs =? SIZE_MAX) || (size <=? fs) ||
     (ADVC_AVC_MAX_SMOKE_FRAMES <=? zlen (st_frames m)) then None
  else Some (Stream (st_config_offset m) (st_config_size m)
               (st_frames m ++ [Frame fs (size - fs) key])).

Definition inside (size : Z) (x : Z) : Prop := x <> SIZE_MAX /\ x < size.

Lemma stream_type_inside t s m fs sps pps vcl first key : fs <> SIZE_MAX ->
  stream_type t s (StreamState m fs sps pps vcl first key) =
  stream_slice t s (StreamState m fs sps pps vcl first key).
Proof.
  intros H. unfold stream_type, stream_prefix. by rewrite (proj2 (Z.eqb_neq _ _) H).
Qed.

(** After the first slice every slice ends a frame; more than 256 are refused. *)
Lemma stream_rest size l m fs sps pps key : inside size fs ->
  Forall (fun x => inside size (snd x)) l ->
  run_types stream_type l (StreamState m fs sps pps true false key) ≫= stream_finish size =
  if zlen (st_frames m) + zlen (List.filter vcl_type l) <? ADVC_AVC_MAX_SMOKE_FRAMES
  then Some (Stream (st_config_offset m) (st_config_size m)
              (st_frames m ++ frames_from size fs key (List.filter vcl_type l)))
  else None.
Proof.
  intros Hfs Hl. revert m fs key Hfs. induction Hl as [|[t s] l Hs _ IH]; intros m fs key Hfs.
  { cbn [run_types mbind option_bind List.filter frames_from stream_finish]. destruct Hfs.
    rewrite (proj2 (Z.eqb_neq fs SIZE_MAX)), (proj2 (Z.leb_gt size fs)) by done.
    cbn [negb orb]. change (zlen []) with 0. rewrite Z.add_0_r, Z.leb_antisym.
    by destruct (zlen (st_frames m) <? ADVC_AVC_MAX_SMOKE_FRAMES). }
  cbn [run_types List.filter]. rewrite stream_type_inside by apply Hfs.
  unfold stream_slice. change ((1 <=? t) && (t <=? 5)) with (vcl_type (t, s)).
  destruct (vcl_type (t, s)); [|by cbn [mbind option_bind]; apply IH].
  cbn [andb]. change (zlen ((t, s) :: ?k)) with (Z.of_nat (S (length k))).
  rewrite Nat2Z.inj_succ. change (Z.of_nat (length ?k)) with (zlen k).
  destruct (Z.leb_spec ADVC_AVC_MAX_SMOKE_FRAMES (zlen (st_frames m))) as [Hge|Hlt].
  { cbn [mbind option_bind]. rewrite (proj2 (Z.ltb_ge _ _)); [done|]. unfold zlen in *. lia. }
  cbn [mbind option_bind]. rewrite IH by done. cbn [st_frames st_config_offset st_config_size frames_from].
  unfold zlen. rewrite length_app. cbn [length]. rewrite <- (assoc_L (++)). cbn [app].
  replace (Z.of_nat (length (st_frames m) + 1) + Z.of_nat (length (List.filter vcl_type l)))
    with (Z.of_nat (length (st_frames m)) + Z.succ (Z.of_nat (length (List.filter vcl_type l)))) by lia.
  done.
Qed.

(** Before the first slice: it has to be an IDR slice. *)
Lemma stream_first size l m fs sps pps : st_frames m = [] -> inside size fs ->
  Forall (fun x => inside size (snd x)) l ->
  run_types stream_type l (StreamState m fs sps pps false true false) ≫= stream_finish size =
  match List.filter vcl_type l with
  | (t, _) :: vs =>
      if (t =? 5) && (zlen vs <? ADVC_AVC_MAX_SMOKE_FRAMES)
      then Some (Stream (st_config_offset m) (st_config_size m) (frames_from size fs true vs))
      else None
  | [] => None
  end.
Proof.
  intros Hm Hfs Hl. induction Hl as [|[t s] l Hs Hl IH]; [done|].
  cbn [run_types List.filter]. rewrite stream_type_inside by apply Hfs.
  unfold stream_slice. change ((1 <=? t) && (t <=? 5)) with (vcl_type (t, s)).
  destruct (vcl_type (t, s)); [|by cbn [mbind option_bind]].
  destruct (t =? 5) eqn:E5; cbn [andb negb mbind option_bind]; [|done].
  rewrite stream_rest by done. by rewrite Hm.
Qed.

Lemma stream_config l m sps pps vcl first key : forallb config_type l = true ->
  run_types stream_type l (StreamState m SIZE_MAX sps pps vcl first key) =
  Some (StreamState m SIZE_MAX (sps || existsb (is_type 7) l) (pps || existsb (is_type 8) l)
          vcl first key).
Proof.
  revert sps pps. induction l as [|[t s] l IH]; intros sps pps; cbn [run_types forallb existsb].
  { by rewrite !orb_false_r. }
  intros [Ht Hl]%andb_true_iff.
  assert (stream_type t s (StreamState m SIZE_MAX sps pps vcl first key) =
    Some (StreamState m SIZE_MAX (sps || is_type 7 (t, s)) (pps || is_type 8 (t, s)) vcl first key)) as ->.
  { revert Ht. unfold stream_type, stream_prefix, stream_slice, config_type, is_type. cbn [fst].
    rewrite Z.eqb_refl. intros Ht.
    destruct (Z.eqb_spec t 7) as [-> |]; [by rewrite orb_true_r, orb_false_r|].
    destruct (Z.eqb_spec t 8) as [-> |]; [by rewrite orb_true_r, orb_false_r|done]. }
  cbn [mbind option_bind]. by rewrite IH, !orb_assoc.
Qed.

(** The first unit that is neither SPS nor PPS. *)
Lemma stream_open t s l m sps pps : s <> SIZE_MAX -> config_type (t, s) = false ->
  run_types stream_type ((t, s) :: l) (StreamState m SIZE_MAX sps pps false true false) =
  if sps && pps
  then run_types stream_type ((t, s) :: l)
         (StreamState (Stream 0 s (st_frames m)) s sps pps false true false)
  else None.
Proof.
  intros Hs Hc. cbn [run_types]. rewrite (stream_type_inside t s _ s) by done.
  revert Hc. unfold stream_type, stream_prefix, config_type, is_type. cbn [fst].
  rewrite Z.eqb_refl. intros [-> ->]%orb_false_iff. by destruct sps, pps.
Qed.

(** What the loop and the final test make of a sequence of types. *)
Lemma stream_run size l r : Forall (fun x => inside size (snd x)) l ->
  (run_types stream_type l (StreamState (Stream 0 0 []) SIZE_MAX false false false true false)
     ≫= stream_finish size = Some r <->
   exists cfg x rest v vs, l = cfg ++ x :: rest /\ forallb config_type cfg = true /\
     existsb (is_type 7) cfg = true /\ existsb (is_type 8) cfg = true /\ config_type x = false /\
     List.filter vcl_type (x :: rest) = v :: vs /\ is_type 5 v = true /\
     zlen vs < ADVC_AVC_MAX_SMOKE_FRAMES /\
     r = Stream 0 (snd x) (frames_from size (snd x) true vs)).
Proof.
  intros Hl. split.
  - intros E. destruct (span_list config_type l) as (cfg & b & -> & Hc & Hb).
    rewrite run_types_app, stream_config in E by done. cbn [mbind option_bind orb] in E.
    destruct b as [|[t s] rest]; [done|]. apply Forall_app in Hl as [_ Hl].
    assert (inside size s) as Hs by by apply Forall_cons in Hl as [Hs _].
    rewrite stream_open in E by (apply Hs || done).
    destruct (existsb (is_type 7) cfg) eqn:E7; [|done].
    destruct (existsb (is_type 8) cfg) eqn:E8; [|done]. cbn [andb] in E.
    rewrite stream_first in E by done.
    destruct (List.filter vcl_type ((t, s) :: rest)) as [|[tv sv] vs] eqn:Ev; [done|].
    destruct (tv =? 5) eqn:E5; [|done]. cbn [andb] in E.
    destruct (Z.ltb_spec (zlen vs) ADVC_AVC_MAX_SMOKE_FRAMES); [|done].
    injection E as <-. by exists cfg, (t, s), rest, (tv, sv), vs.
  - intros (cfg & [t s] & rest & [tv sv] & vs & -> & Hc & E7 & E8 & Hx & Ev & E5 & Hn & ->).
    rewrite run_types_app, stream_config, E7, E8 by done. cbn [mbind option_bind orb].
    apply Forall_app in Hl as [_ Hl].
    assert (inside size s) as Hs by by apply Forall_cons in Hl as [Hs _].
    rewrite stream_open by (apply Hs || done). cbn [andb].
    rewrite stream_first, Ev by done. unfold is_type in E5. cbn [fst] in E5.
    rewrite E5, (proj2 (Z.ltb_lt _ _)) by done. done.
Qed.

(** The slices among the units. *)
Definition is_vcl (data : list Z) (u : nal_unit) : bool := vcl_type (unit_key data u).
Definition slices (data : list Z) (us : list nal_unit) : list nal_unit :=
  List.filter (is_vcl data) us.

Lemma filter_map_key {X Y} (f : Y -> bool) (g : X -> Y) l :
  List.filter f (g <$> l) = g <$> List.filter (fun x => f (g x)) l.
Proof.
  induction l as [|x l IH]; [done|]. cbn. destruct (f (g x)); cbn; by rewrite <- IH.
Qed.

(** SPS and PPS units, then from [u] on units of which the slices are [v :: vs],
    the first an IDR slice. *)
Record slice_stream (data : list Z) (cfg : list nal_unit) (u : nal_unit) (rest : list nal_unit)
    (v : nal_unit) (vs : list nal_unit) : Prop := {
  sl_units : stream_units 1 data (cfg ++ u :: rest);
  sl_ok : Forall (unit_ok data) (cfg ++ u :: rest);
  sl_config : Forall (fun u => nal_type data u = 7 \/ nal_type data u = 8) cfg;
  sl_sps : Exists (fun u => nal_type data u = 7) cfg;
  sl_pps : Exists (fun u => nal_type data u = 8) cfg;
  sl_open : nal_type data u <> 7 /\ nal_type data u <> 8;
  sl_slices : slices data (u :: rest) = v :: vs;
  sl_idr : nal_type data v = 5;
  sl_count : zlen vs < ADVC_AVC_MAX_SMOKE_FRAMES }.

(** The frames of the stream: the first begins at [u], each next one at its slice. *)
Definition stream_frames (data : list Z) (u : nal_unit) (vs : list nal_unit)
  : list advc_avc_annexb_frame :=
  frames_from (zlen data) (nu_start u) true (unit_key data <$> vs).

Lemma config_type_false data u :
  config_type (unit_key data u) = false <-> nal_type data u <> 7 /\ nal_type data u <> 8.
Proof. rewrite <- not_true_iff_false, config_type_key. tauto. Qed.

Lemma stream_units_split data us r : zlen data <= SIZE_MAX -> stream_units 1 data us ->
  Forall (fun u => 0 <= nu_start u < zlen data) us ->
  (run_units (stream_nal data) data us
     (StreamState (Stream 0 0 []) SIZE_MAX false false false true false) ≫= stream_finish (zlen data)
     = Some r <->
   exists cfg u rest v vs, us = cfg ++ u :: rest /\ slice_stream data cfg u rest v vs /\
     r = Stream 0 (nu_start u) (stream_frames data u vs)).
Proof.
  intros Hsz Hu Hb.
  assert (Forall (fun x => inside (zlen data) (snd x)) (unit_key data <$> us)) as Hk.
  { apply Forall_fmap. eapply Forall_impl; [exact Hb|]. unfold unit_key, inside. cbn. lia. }
  pose proof (stream_run (zlen data) _ r Hk) as Hr. unfold stream_nal.
  pose proof (fun st' => run_units_types stream_type data us
    (StreamState (Stream 0 0 []) SIZE_MAX false false false true false) st') as Ht.
  split.
  - destruct (run_units _ _ _ _) as [st'|]; [|done]. intros E.
    destruct (proj1 (Ht st') eq_refl) as [Hok Et]. rewrite Et in Hr.
    apply (proj1 Hr) in E as (cfg & x & rest & v & vs & E & Hc & H7 & H8 & Hx & Ev & H5 & Hn & ->).
    apply fmap_app_inv in E as (c & k & -> & E & ->).
    symmetry in E. apply fmap_cons_inv in E as (u & f & -> & -> & ->).
    change (unit_key data u :: _) with (unit_key data <$> (u :: f)) in Ev.
    rewrite filter_map_key in Ev. apply fmap_cons_inv in Ev as (w & ws & -> & -> & Ev).
    exists c, u, f, w, ws. split; [done|]. split; [|done]. constructor; [done|done|..].
    + by apply (forallb_map_Forall config_type (unit_key data)); [apply config_type_key|].
    + by apply (existsb_map_Exists (is_type 7) (unit_key data)); [apply is_type_key|].
    + by apply (existsb_map_Exists (is_type 8) (unit_key data)); [apply is_type_key|].
    + by apply config_type_false.
    + exact Ev.
    + by apply is_type_key.
    + unfold zlen in *. by rewrite length_fmap in Hn.
  - intros (c & u & f & w & ws & -> & [? Hok Hc H7 H8 Ho Ev H5 Hn] & ->).
    lapply (proj2 Hr); [intros E|].
    { destruct (run_types _ _ _) as [st'|] eqn:Et; [|done].
      by rewrite (proj2 (Ht st') (conj Hok eq_refl)). }
    { exists (unit_key data <$> c), (unit_key data u), (unit_key data <$> f),
        (unit_key data w), (unit_key data <$> ws).
      change (unit_key data u :: _) with (unit_key data <$> (u :: f)).
      split; [by rewrite fmap_app|].
      split; [by apply (forallb_map_Forall config_type _ _ _ (config_type_key data))|].
      split; [by apply (existsb_map_Exists (is_type 7) _ _ _ (is_type_key data 7))|].
      split; [by apply (existsb_map_Exists (is_type 8) _ _ _ (is_type_key data 8))|].
      split; [by apply config_type_false|]. rewrite filter_map_key.
      split; [by change (List.filter _ (u :: f)) with (slices data (u :: f)); rewrite Ev|].
      split; [by apply is_type_key|]. split; [|done]. unfold zlen in *. by rewrite length_fmap. }
Qed.

(** Consecutive frames from [offset] to [size]. *)
Fixpoint frames_tile (offset size : Z) (fs : list advc_avc_annexb_frame) : Prop :=
  match fs with
  | [] => offset = size
  | f :: fs => f_offset f = offset /\ frames_tile (offset + f_size f) size fs
  end.

Lemma frames_from_tile size fs key vs : frames_tile fs size (frames_from size fs key vs).
Proof.
  revert fs key. induction vs as [|[t s] vs IH]; intros fs key; cbn.
  - split; [done|lia].
  - split; [done|]. replace (fs + (s - fs)) with s by lia. apply IH.
Qed.

Lemma frames_from_length size fs key vs : zlen (frames_from size fs key vs) = zlen vs + 1.
Proof.
  revert fs key. induction vs as [|[t s] vs IH]; intros fs key; [done|]. cbn [frames_from].
  unfold zlen in *. cbn [length]. specialize (IH s (t =? 5)). lia.
Qed.

Lemma stream_split_unfold data : exists r,
  advc_avc_annexb_split_single_slice_stream (Some data) =
    match r with Some m => inr m | None => inl EINVAL end /\
  (zlen data <= SIZE_MAX -> forall m, r = Some m <->
     exists cfg u rest v vs, slice_stream data cfg u rest v vs /\
       m = Stream 0 (nu_start u) (stream_frames data u vs)).
Proof.
  unfold advc_avc_annexb_split_single_slice_stream.
  pose proof (stream_start_walk (stream_nal data) data
    (StreamState (Stream 0 0 []) SIZE_MAX false false false true false)) as Hw.
  destruct (stream_start data) as [[s l]|].
  - destruct Hw as (us & Hu & Hb & ->). 
    exists (run_units (stream_nal data) data us
      (StreamState (Stream 0 0 []) SIZE_MAX false false false true false) ≫= stream_finish (zlen data)).
    split.
    + destruct (run_units _ _ _ _) as [[m fs sps pps vcl first key]|]; cbn; [|done].
      by destruct (_ || _).
    + intros Hsz m. rewrite (stream_units_split data us m Hsz Hu Hb). split.
      * intros (cfg & u & rest & v & vs & _ & ?). by exists cfg, u, rest, v, vs.
      * intros (cfg & u & rest & v & vs & Hs & ->). exists cfg, u, rest, v, vs.
        split; [|done]. by eapply stream_units_det; [|apply Hs].
  - exists None. split; [done|]. intros _ m. split; [done|].
    intros (cfg & u & rest & v & vs & [Hu Hok _ _ _ _ _ _ _] & _). exfalso.
    pose proof (Hw _ Hu). pose proof (units_size _ _ Hu Hok). lia.
Qed.

(** [advc_avc_annexb_split_single_slice_stream] accepts a stream exactly
    when its units are SPS and PPS units followed by units whose first slice is an
    IDR slice and which hold at most 256 slices; there is then one frame per
    slice, a key frame where the slice is an IDR slice.  The configuration and the
    frames tile the input: the first frame begins with the first unit after the
    configuration, every other one at its slice, and the last ends with the stream.
    Every other input is EINVAL. *)
Theorem stream_split_exact data : zlen data <= SIZE_MAX ->
  (forall m, advc_avc_annexb_split_single_slice_stream (Some data) = inr m <->
     exists cfg u rest v vs, slice_stream data cfg u rest v vs /\
       m = Stream 0 (nu_start u) (stream_frames data u vs)) /\
  (forall m, advc_avc_annexb_split_single_slice_stream (Some data) = inr m ->
     frames_tile (st_config_offset m + st_config_size m) (zlen data) (st_frames m) /\
     0 < zlen (st_frames m) <= ADVC_AVC_MAX_SMOKE_FRAMES) /\
  (forall e, advc_avc_annexb_split_single_slice_stream (Some data) = inl e -> e = EINVAL).
Proof.
  intros Hsz. destruct (stream_split_unfold data) as (r & -> & Hr). specialize (Hr Hsz).
  split; [|split].
  - intros m. rewrite <- Hr. destruct r; split; congruence.
  - intros m E. destruct r as [m'|]; [|done]. injection E as ->.
    destruct (proj1 (Hr m) eq_refl) as (cfg & u & rest & v & vs & Hs & ->).
    split; [apply frames_from_tile|]. cbn [st_frames]. unfold stream_frames.
    rewrite frames_from_length. pose proof (sl_count _ _ _ _ _ _ Hs).
    unfold zlen in *. rewrite length_fmap. lia.
  - destruct r; congruence.
Qed.

(** ** Examples *)

(** SPS, PPS, an IDR slice. *)
Definition example_sample : list Z :=
  [0;0;0;1;0x67;0x42; 0;0;1;0x68;0xce; 0;0;1;0x65;0x88].
(** The same with a delimiter and a second, non-IDR slice. *)
Definition example_stream : list Z := example_sample ++ [0;0;1;0x09;0xf0; 0;0;1;0x41;0x9a].

Lemma annexb_split_exact_witness : exists cfg u frm,
  idr_sample example_sample cfg (u :: frm) /\
  Parts 0 11 11 5 = Parts 0 (nu_start u) (nu_start u) (zlen example_sample - nu_start u).
Proof.
  apply (proj1 (annexb_split_exact example_sample ltac:(vm_compute; discriminate))).
  vm_compute. reflexivity.
Defined.

Lemma stream_split_exact_witness :
  frames_tile 11 26 [Frame 11 10 true; Frame 21 5 false] /\
  0 < zlen [Frame 11 10 true; Frame 21 5 false] <= ADVC_AVC_MAX_SMOKE_FRAMES.
Proof.
  apply (proj1 (proj2 (stream_split_exact example_stream ltac:(vm_compute; discriminate)))
           (Stream 0 11 [Frame 11 10 true; Frame 21 5 false])).
  vm_compute. reflexivity.
Defined.
