(* ===== verification/StreamInspect.v ===== *)
(** * Inspecting encoder output (src/src/video_bridge/tools/advc_bitstream.c)

    [advc_bitstream_inspect] recognises a packet as Annex-B, as NAL units with
    four-byte lengths or as a codec configuration record, in this order, and
    counts its units.  A [const uint8_t *] with its size is the list of the bytes
    it points to; [data + offset] is a part of it ([sub]).  [None] is a return of
    -1; the candidate statistics of a failed attempt are discarded by every
    caller.  A subtraction [size - offset] is kept at 64 bits.

    The specification describes each framing by its bytes ([framed]): what the
    packet looks like when it carries a given list of units. *)

From stdpp Require Import base list strings.
From Stdlib Require Import ZArith Lia Bool.
From S2P Require Import Prelude Kernel StreamSplit.

Inductive codec_kind := CODEC_AVC | CODEC_HEVC.

Inductive advc_bitstream_format :=
  | UNKNOWN | ANNEX_B | LENGTH_PREFIXED | CODEC_CONFIG_RECORD.
#[export] Instance format_eq_dec : EqDecision advc_bitstream_format.
Proof. solve_decision. Defined.

Record advc_bitstream_stats := Stats {
  format : advc_bitstream_format;
  nal_units : Z;
  parameter_sets : Z;
  parameter_set_mask : Z;
  vcl_units : Z;
  key_vcl_units : Z }.

Definition zero_stats (f : advc_bitstream_format) : advc_bitstream_stats := Stats f 0 0 0 0 0.

Definition sub (data : list Z) (offset n : Z) : list Z :=
  take (Z.to_nat n) (drop (Z.to_nat offset) data).

Definition get_be16 (data : list Z) (offset : Z) : Z :=
  u16 (Z.lor (Z.shiftl (byte_at data offset) 8) (byte_at data (offset + 1))).
Definition get_be32 (data : list Z) (offset : Z) : Z :=
  Z.lor (Z.lor (Z.lor (u32 (Z.shiftl (byte_at data offset) 24))
                      (u32 (Z.shiftl (byte_at data (offset + 1)) 16)))
               (u32 (Z.shiftl (byte_at data (offset + 2)) 8)))
        (byte_at data (offset + 3)).

Definition bump (c : bool) (n : Z) : Z := if c then u32 (n + 1) else n.

(** [nal] is the unit [add_nal] is called on. *)
Definition add_nal (codec : codec_kind) (nal : list Z) (s : advc_bitstream_stats)
  : option advc_bitstream_stats :=
  if zlen nal =? 0 then None
  else
    match codec with
    | CODEC_AVC =>
        if negb (Z.land (byte_at nal 0) 0x80 =? 0) then None
        else
          let type := Z.land (byte_at nal 0) 0x1f in
          if (type =? 0) || (24 <=? type) then None
          else
            let param := (type =? 7) || (type =? 8) in
            let vcl := (1 <=? type) && (type <=? 5) in
            Some (Stats (format s) (bump true (nal_units s)) (bump param (parameter_sets s))
              (if param then Z.lor (parameter_set_mask s) (if type =? 7 then 1 else 2)
               else parameter_set_mask s)
              (bump vcl (vcl_units s)) (bump (vcl && (type =? 5)) (key_vcl_units s)))
    | CODEC_HEVC =>
        if (zlen nal <? 2) || negb (Z.land (byte_at nal 0) 0x80 =? 0) ||
           (Z.land (byte_at nal 1) 0x07 =? 0) then None
        else
          let type := Z.land (Z.shiftr (byte_at nal 0) 1) 0x3f in
          if 40 <? type then None
          else
            let param := (type =? 32) || (type =? 33) || (type =? 34) in
            let vcl := type <=? 31 in
            Some (Stats (format s) (bump true (nal_units s)) (bump param (parameter_sets s))
              (if param then Z.lor (parameter_set_mask s) (Z.shiftl 1 (type - 32))
               else parameter_set_mask s)
              (bump vcl (vcl_units s))
              (bump (vcl && (16 <=? type) && (type <=? 23)) (key_vcl_units s)))
    end.

(** ** Annex-B *)

(** [find_start_code] of this file: the loop stops two bytes before the end. *)
Fixpoint find_code_loop (data : list Z) (n : nat) (i : Z) : option (Z * Z) :=
  match n with
  | O => None
  | S n =>
      if i + 2 <? zlen data then
        if negb (byte_at data i =? 0) || negb (byte_at data (i + 1) =? 0)
        then find_code_loop data n (i + 1)
        else if byte_at data (i + 2) =? 1 then Some (i, 3)
        else if (i + 3 <? zlen data) && (byte_at data (i + 2) =? 0) && (byte_at data (i + 3) =? 1)
        then Some (i, 4)
        else find_code_loop data n (i + 1)
      else None
  end.
Definition find_code (data : list Z) (from : Z) : option (Z * Z) :=
  find_code_loop data (Z.to_nat (zlen data - from)) from.

(** [while (end > payload && data[end - 1] == 0) --end;] *)
Fixpoint trim_zeros (data : list Z) (payload : Z) (n : nat) (end_ : Z) : Z :=
  match n with
  | O => end_
  | S n =>
      if (payload <? end_) && (byte_at data (end_ - 1) =? 0)
      then trim_zeros data payload n (end_ - 1) else end_
  end.

Definition inspect_nal (codec : codec_kind) (data : list Z) (start payload end_ : Z)
    (s : advc_bitstream_stats) : option advc_bitstream_stats :=
  let end_ := trim_zeros data payload (Z.to_nat (end_ - payload)) end_ in
  if end_ =? payload then None else add_nal codec (sub data payload (end_ - payload)) s.

(** [stats->nal_units > 0 ? 0 : -1] *)
Definition some_units (s : advc_bitstream_stats) : option advc_bitstream_stats :=
  if 0 <? nal_units s then Some s else None.

Definition inspect_annex_b (codec : codec_kind) (data : list Z) (s : advc_bitstream_stats)
  : option advc_bitstream_stats :=
  '(start, l) ← find_code data 0;
  if negb (bytes_are_zero data 0 start) then None
  else
    s ← nal_walk find_code 0 (inspect_nal codec data) data (S (length data)) start l s;
    some_units s.

(** ** Four-byte lengths *)

Fixpoint length_loop (codec : codec_kind) (data : list Z) (fuel : nat) (offset : Z)
    (s : advc_bitstream_stats) : option advc_bitstream_stats :=
  match fuel with
  | O => None
  | S fuel =>
      if offset <? zlen data then
        if u64 (zlen data - offset) <? 4 then None
        else
          let nal_size := get_be32 data offset in
          let offset := offset + 4 in
          if (nal_size =? 0) || (u64 (zlen data - offset) <? nal_size) then None
          else
            s ← add_nal codec (sub data offset nal_size) s;
            length_loop codec data fuel (offset + nal_size) s
      else Some s
  end.

Definition inspect_length_prefixed (codec : codec_kind) (data : list Z) (s : advc_bitstream_stats)
  : option advc_bitstream_stats :=
  s ← length_loop codec data (S (length data)) 0 s; some_units s.

(** ** Codec configuration records *)

(** One of the loops of [inspect_avcc]: [n] units of type [expected] with
    two-byte lengths; the offset behind them. *)
Fixpoint avcc_nals (data : list Z) (expected : Z) (n : nat) (offset : Z)
    (s : advc_bitstream_stats) : option (Z * advc_bitstream_stats) :=
  match n with
  | O => Some (offset, s)
  | S n =>
      if u64 (zlen data - offset) <? 2 then None
      else
        let nal_size := get_be16 data offset in
        let offset := offset + 2 in
        if (nal_size =? 0) || (u64 (zlen data - offset) <? nal_size) then None
        else
          s ← add_nal CODEC_AVC (sub data offset nal_size) s;
          if negb (Z.land (byte_at data offset) 0x1f =? expected) then None
          else avcc_nals data expected n (offset + nal_size) s
  end.

Definition extension_profile (b : Z) : bool :=
  (b =? 100) || (b =? 110) || (b =? 122) || (b =? 144) || (b =? 83) || (b =? 86) ||
  (b =? 118) || (b =? 128) || (b =? 138) || (b =? 139) || (b =? 134) || (b =? 135).

(** The optional tail with the SPS extensions. *)
Definition avcc_extensions (data : list Z) (offset : Z) (s : advc_bitstream_stats)
  : option (Z * advc_bitstream_stats) :=
  if offset <? zlen data then
    if negb (extension_profile (byte_at data 1)) || (u64 (zlen data - offset) <? 4) ||
       negb (Z.land (byte_at data offset) 0xfc =? 0xfc) ||
       negb (Z.land (byte_at data (offset + 1)) 0xf8 =? 0xf8) ||
       negb (Z.land (byte_at data (offset + 2)) 0xf8 =? 0xf8) then None
    else avcc_nals data 13 (Z.to_nat (byte_at data (offset + 3))) (offset + 4) s
  else Some (offset, s).

Definition inspect_avcc (data : list Z) (s : advc_bitstream_stats) : option advc_bitstream_stats :=
  if (zlen data <? 7) || negb (byte_at data 0 =? 1) ||
     negb (Z.land (byte_at data 4) 0xfc =? 0xfc) || negb (Z.land (byte_at data 5) 0xe0 =? 0xe0)
  then None
  else
    let count := Z.land (byte_at data 5) 0x1f in
    if count =? 0 then None
    else
      '(offset, s) ← avcc_nals data 7 (Z.to_nat count) 6 s;
      if zlen data <=? offset then None
      else
        let count := byte_at data offset in
        if count =? 0 then None
        else
          '(offset, s) ← avcc_nals data 8 (Z.to_nat count) (offset + 1) s;
          '(offset, s) ← avcc_extensions data offset s;
          if (offset =? zlen data) && (Z.land (parameter_set_mask s) 3 =? 3)
          then Some s else None.

(** The inner loop of [inspect_hvcc]. *)
Fixpoint hvcc_nals (data : list Z) (expected : Z) (n : nat) (offset : Z)
    (s : advc_bitstream_stats) : option (Z * advc_bitstream_stats) :=
  match n with
  | O => Some (offset, s)
  | S n =>
      if u64 (zlen data - offset) <? 2 then None
      else
        let nal_size := get_be16 data offset in
        let offset := offset + 2 in
        if (nal_size <? 2) || (u64 (zlen data - offset) <? nal_size) ||
           negb (Z.land (Z.shiftr (byte_at data offset) 1) 0x3f =? expected) then None
        else
          s ← add_nal CODEC_HEVC (sub data offset nal_size) s;
          hvcc_nals data expected n (offset + nal_size) s
  end.

(** The outer loop: [n] arrays. *)
Fixpoint hvcc_arrays (data : list Z) (n : nat) (offset : Z) (s : advc_bitstream_stats)
  : option (Z * advc_bitstream_stats) :=
  match n with
  | O => Some (offset, s)
  | S n =>
      if u64 (zlen data - offset) <? 3 then None
      else
        let expected_type := Z.land (byte_at data offset) 0x3f in
        let count := get_be16 data (offset + 1) in
        let offset := offset + 3 in
        if count =? 0 then None
        else
          '(offset, s) ← hvcc_nals data expected_type (Z.to_nat count) offset s;
          hvcc_arrays data n offset s
  end.

Definition inspect_hvcc (data : list Z) (s : advc_bitstream_stats) : option advc_bitstream_stats :=
  if (zlen data <? 23) || negb (byte_at data 0 =? 1) then None
  else
    let arrays := byte_at data 22 in
    if arrays =? 0 then None
    else
      '(offset, s) ← hvcc_arrays data (Z.to_nat arrays) 23 s;
      if (offset =? zlen data) && (Z.land (parameter_set_mask s) 7 =? 7) then Some s else None.

(** ** The packet *)

Definition codec_of_mime (mime : string) : option codec_kind :=
  if (mime =? "video/avc")%string then Some CODEC_AVC
  else if (mime =? "video/hevc")%string then Some CODEC_HEVC
  else None.

(** The Annex-B attempt is made when a start code lies in the first bytes. *)
Definition try_annex_b (codec : codec_kind) (data : list Z) : option advc_bitstream_stats :=
  '(start, _) ← find_code data 0;
  if start <=? 3 then inspect_annex_b codec data (zero_stats ANNEX_B) else None.

(** NULL is [None]. *)
Definition advc_bitstream_inspect (mime : option string) (data : option (list Z))
  : Z + advc_bitstream_stats :=
  match mime, data with
  | Some mime, Some data =>
      if zlen data =? 0 then inl EINVAL
      else
        match codec_of_mime mime with
        | None => inl EINVAL
        | Some codec =>
            match try_annex_b codec data with
            | Some s => inr s
            | None =>
                match inspect_length_prefixed codec data (zero_stats LENGTH_PREFIXED) with
                | Some s => inr s
                | None =>
                    match (match codec with
                           | CODEC_AVC => inspect_avcc data (zero_stats CODEC_CONFIG_RECORD)
                           | CODEC_HEVC => inspect_hvcc data (zero_stats CODEC_CONFIG_RECORD)
                           end) with
                    | Some s => inr s
                    | None => inl EPROTO
                    end
                end
            end
        end
  | _, _ => inl EINVAL
  end.

Definition advc_bitstream_format_name (f : advc_bitstream_format) : string :=
  match f with
  | ANNEX_B => "annex-b"
  | LENGTH_PREFIXED => "length-prefixed-4"
  | CODEC_CONFIG_RECORD => "codec-config-record"
  | UNKNOWN => "unknown"
  end.

(** ** Units and their statistics, as a specification *)

Definition type_of (codec : codec_kind) (nal : list Z) : Z :=
  match codec with
  | CODEC_AVC => Z.land (byte_at nal 0) 0x1f
  | CODEC_HEVC => Z.land (Z.shiftr (byte_at nal 0) 1) 0x3f
  end.

(** A unit with its header, the forbidden bit clear, of a known type; an HEVC unit
    has a non-zero temporal identifier. *)
Definition valid (codec : codec_kind) (nal : list Z) : bool :=
  match codec with
  | CODEC_AVC =>
      (1 <=? zlen nal) && negb (Z.testbit (byte_at nal 0) 7) &&
      (1 <=? type_of codec nal) && (type_of codec nal <=? 23)
  | CODEC_HEVC =>
      (2 <=? zlen nal) && negb (Z.testbit (byte_at nal 0) 7) &&
      negb (Z.land (byte_at nal 1) 7 =? 0) && (type_of codec nal <=? 40)
  end.

Definition has_type (codec : codec_kind) (t : Z) (nal : list Z) : bool := type_of codec nal =? t.
Definition is_param (codec : codec_kind) (nal : list Z) : bool :=
  match codec with
  | CODEC_AVC => has_type codec 7 nal || has_type codec 8 nal
  | CODEC_HEVC => has_type codec 32 nal || has_type codec 33 nal || has_type codec 34 nal
  end.
Definition is_slice (codec : codec_kind) (nal : list Z) : bool :=
  match codec with
  | CODEC_AVC => (1 <=? type_of codec nal) && (type_of codec nal <=? 5)
  | CODEC_HEVC => type_of codec nal <=? 31
  end.
Definition is_key (codec : codec_kind) (nal : list Z) : bool :=
  match codec with
  | CODEC_AVC => has_type codec 5 nal
  | CODEC_HEVC => (16 <=? type_of codec nal) && (type_of codec nal <=? 23)
  end.

(** One bit per kind of parameter set that occurs. *)
Definition param_mask (codec : codec_kind) (nals : list (list Z)) : Z :=
  let occurs t := Z.b2z (existsb (has_type codec t) nals) in
  match codec with
  | CODEC_AVC => occurs 7 + 2 * occurs 8
  | CODEC_HEVC => occurs 32 + 2 * occurs 33 + 4 * occurs 34
  end.

Definition stats_of (f : advc_bitstream_format) (codec : codec_kind) (nals : list (list Z))
  : advc_bitstream_stats :=
  Stats f (zlen nals) (count (is_param codec) nals) (param_mask codec nals)
    (count (is_slice codec) nals) (count (is_key codec) nals).

Lemma count_snoc {X} (f : X -> bool) l x : count f (l ++ [x]) = count f l + Z.b2z (f x).
Proof. unfold count. rewrite List.filter_app, length_app. cbn. destruct (f x); cbn; lia. Qed.
Lemma existsb_snoc {X} (f : X -> bool) l x : existsb f (l ++ [x]) = existsb f l || f x.
Proof. rewrite existsb_app. cbn. by rewrite orb_false_r. Qed.

Lemma bump_count {X} (f : X -> bool) l x : zlen l + 1 < 2 ^ 32 ->
  bump (f x) (count f l) = count f (l ++ [x]).
Proof.
  intros H. rewrite count_snoc. pose proof (count_le_length f l). pose proof (count_nonneg f l).
  unfold bump. destruct (f x); cbn [Z.b2z]; [|lia]. apply u32_id. unfold is_u32. lia.
Qed.

(** When [add_nal] accepts. *)
Lemma add_nal_valid codec nal s :
  add_nal codec nal s =
  if valid codec nal then
    Some (Stats (format s) (bump true (nal_units s)) (bump (is_param codec nal) (parameter_sets s))
      (if is_param codec nal then
         Z.lor (parameter_set_mask s)
           match codec with
           | CODEC_AVC => if has_type codec 7 nal then 1 else 2
           | CODEC_HEVC => Z.shiftl 1 (type_of codec nal - 32)
           end
       else parameter_set_mask s)
      (bump (is_slice codec nal) (vcl_units s)) (bump (is_key codec nal) (key_vcl_units s)))
  else None.
Proof.
  unfold add_nal, valid, is_param, is_slice, is_key, has_type, type_of, zlen.
  change 0x80 with (Z.shiftl 1 7). rewrite !land_pow2_testbit, !negb_involutive by lia.
  destruct codec, (Z.testbit (byte_at nal 0) 7); cbn [negb orb].
  - rewrite andb_false_r. by destruct (_ =? 0).
  - pose proof (nal_type_nonneg nal 0) as Hn. unfold nal_type_of in Hn.
    destruct (Z.eqb_spec (Z.of_nat (length nal)) 0); [by replace (1 <=? _) with false by lia|].
    replace (1 <=? Z.of_nat (length nal)) with true by lia. cbn [andb].
    set (t := Z.land (byte_at nal 0) 31) in *.
    replace ((t =? 0) || (24 <=? t)) with (negb ((1 <=? t) && (t <=? 23))) by lia.
    destruct ((1 <=? t) && (t <=? 23)); cbn [negb]; [|done].
    by replace ((1 <=? t) && (t <=? 5) && (t =? 5)) with (t =? 5) by lia.
  - rewrite orb_true_r, andb_false_r. by destruct (_ =? 0).
  - rewrite orb_false_r, andb_true_r.
    destruct (Z.eqb_spec (Z.of_nat (length nal)) 0); [by replace (2 <=? _) with false by lia|].
    rewrite Z.ltb_antisym. destruct (2 <=? Z.of_nat (length nal)); cbn [negb orb andb]; [|done].
    destruct (Z.land (byte_at nal 1) 7 =? 0); cbn [negb andb]; [done|].
    set (t := Z.land (Z.shiftr (byte_at nal 0) 1) 63) in *. rewrite Z.ltb_antisym.
    destruct (t <=? 40); cbn [negb]; [|done].
    by replace ((t <=? 31) && (16 <=? t) && (t <=? 23)) with ((16 <=? t) && (t <=? 23)) by lia.
Qed.

Lemma mask_snoc codec nals nal :
  (if is_param codec nal then
     Z.lor (param_mask codec nals)
       match codec with
       | CODEC_AVC => if has_type codec 7 nal then 1 else 2
       | CODEC_HEVC => Z.shiftl 1 (type_of codec nal - 32)
       end
   else param_mask codec nals) = param_mask codec (nals ++ [nal]).
Proof.
  unfold param_mask, is_param. destruct codec; rewrite !existsb_snoc.
  - destruct (existsb (has_type CODEC_AVC 7) nals), (existsb (has_type CODEC_AVC 8) nals);
      unfold has_type; destruct (Z.eqb_spec (type_of CODEC_AVC nal) 7) as [-> |];
      try done; destruct (type_of CODEC_AVC nal =? 8); done.
  - destruct (existsb (has_type CODEC_HEVC 32) nals), (existsb (has_type CODEC_HEVC 33) nals),
      (existsb (has_type CODEC_HEVC 34) nals); unfold has_type;
      destruct (Z.eqb_spec (type_of CODEC_HEVC nal) 32) as [-> |]; try done;
      destruct (Z.eqb_spec (type_of CODEC_HEVC nal) 33) as [-> |]; try done;
      destruct (Z.eqb_spec (type_of CODEC_HEVC nal) 34) as [-> |]; done.
Qed.

(** Adding a unit extends the counted list by it. *)
Lemma add_nal_snoc f codec nals nal : zlen nals + 1 < 2 ^ 32 ->
  add_nal codec nal (stats_of f codec nals) =
  if valid codec nal then Some (stats_of f codec (nals ++ [nal])) else None.
Proof.
  intros H. rewrite add_nal_valid. destruct (valid codec nal); [|done].
  unfold stats_of. cbn [format nal_units parameter_sets parameter_set_mask vcl_units key_vcl_units].
  rewrite mask_snoc, !bump_count, zlen_app by done. do 2 f_equal.
  pose proof (zlen_nonneg nals). change (zlen [nal]) with 1. apply u32_id. unfold is_u32. lia.
Qed.

(** ** Reading forward in a buffer *)

(** The bytes of [data] from [offset] on. *)
Definition from (data : list Z) (offset : Z) : list Z := drop (Z.to_nat offset) data.

Lemma from_0 data : from data 0 = data.
Proof. done. Qed.
Lemma from_end data : from data (zlen data) = [].
Proof. unfold from, zlen. apply drop_ge. lia. Qed.
Lemma zlen_from data off : 0 <= off <= zlen data -> zlen (from data off) = zlen data - off.
Proof. unfold from, zlen. rewrite length_drop. lia. Qed.
Lemma from_nil data off : 0 <= off <= zlen data -> from data off = [] -> off = zlen data.
Proof. intros H E. pose proof (zlen_from data off H) as L. rewrite E in L. change (zlen (@nil Z)) with 0 in L. lia. Qed.

Lemma from_app data off x r : 0 <= off -> from data off = x ++ r ->
  from data (off + zlen x) = r /\ sub data off (zlen x) = x.
Proof.
  unfold from, sub, zlen. intros H E. rewrite Z2Nat.inj_add, Nat2Z.id by lia.
  rewrite <- drop_drop, E.
  by rewrite drop_app_length, take_app_length.
Qed.
Lemma from_cons data off x r : 0 <= off -> from data off = x :: r ->
  byte_at data off = u8 x /\ from data (off + 1) = r.
Proof.
  intros H E. split; [|by apply (from_app data off [x] r)].
  unfold byte_at. rewrite <- (Nat.add_0_r (Z.to_nat off)), <- lookup_drop.
  unfold from in E. by rewrite E.
Qed.
Lemma from_step data off : Forall is_u8 data -> 0 <= off < zlen data ->
  from data off = byte_at data off :: from data (off + 1).
Proof.
  unfold zlen. intros Hb H. destruct (lookup_lt_is_Some_2 data (Z.to_nat off)) as [x Hx]; [lia|].
  unfold from, byte_at. rewrite Hx. cbn [default from_option id].
  rewrite (drop_S _ _ _ Hx). replace (Z.to_nat (off + 1)) with (S (Z.to_nat off)) by lia.
  f_equal. symmetry. apply u8_id. by apply (Forall_lookup_1 _ _ _ _ Hb Hx).
Qed.
Lemma from_sub data off n : 0 <= off -> 0 <= n -> off + n <= zlen data ->
  from data off = sub data off n ++ from data (off + n) /\ zlen (sub data off n) = n.
Proof.
  unfold from, sub, zlen. intros H0 H1 H2. split.
  - rewrite Z2Nat.inj_add by lia. rewrite <- drop_drop. symmetry. apply take_drop.
  - rewrite length_take, length_drop. lia.
Qed.
Lemma from_bytes data off : Forall is_u8 data -> Forall is_u8 (from data off).
Proof. intros H. by apply Forall_drop. Qed.

(** ** Units behind their lengths *)

Definition be16 (n : Z) : list Z := [n / 2 ^ 8; n mod 2 ^ 8].
Definition be32 (n : Z) : list Z :=
  [n / 2 ^ 24; n / 2 ^ 16 mod 2 ^ 8; n / 2 ^ 8 mod 2 ^ 8; n mod 2 ^ 8].

(** Every unit behind its length. *)
Definition pack (enc : Z -> list Z) (nals : list (list Z)) : list Z :=
  concat ((fun nal => enc (zlen nal) ++ nal) <$> nals).

Lemma pack_cons enc nal nals : pack enc (nal :: nals) = enc (zlen nal) ++ nal ++ pack enc nals.
Proof. unfold pack. cbn. by rewrite <- (assoc_L (++)). Qed.
Lemma pack_app enc k l : pack enc (k ++ l) = pack enc k ++ pack enc l.
Proof. unfold pack. by rewrite fmap_app, concat_app. Qed.

(** A big-endian number of [w] bytes, written and read. *)
Class BigEndian (w : Z) (enc : Z -> list Z) (get : list Z -> Z -> Z) : Prop := {
  be_width : 0 < w;
  be_length n : zlen (enc n) = w;
  be_range data off : 0 <= get data off < 2 ^ (8 * w);
  be_write data off : Forall is_u8 data -> 0 <= off -> off + w <= zlen data ->
    from data off = enc (get data off) ++ from data (off + w);
  be_read data off n r : 0 <= off -> 0 <= n < 2 ^ (8 * w) -> from data off = enc n ++ r ->
    get data off = n }.

Lemma get_be16_sum data off : get_be16 data off = byte_at data off * 2 ^ 8 + byte_at data (off + 1).
Proof.
  unfold get_be16. pose proof (byte_at_range data off) as H0.
  pose proof (byte_at_range data (off + 1)) as H1.
  rewrite Z.lor_comm, lor_low_shiftl, Z.add_comm by (unfold is_u8 in *; lia). apply u16_id. wsolve.
Qed.

Lemma get_be32_sum data off : get_be32 data off =
  byte_at data off * 2 ^ 24 + byte_at data (off + 1) * 2 ^ 16 + byte_at data (off + 2) * 2 ^ 8 +
  byte_at data (off + 3).
Proof.
  unfold get_be32. pose proof (byte_at_range data off) as H0.
  pose proof (byte_at_range data (off + 1)) as H1. pose proof (byte_at_range data (off + 2)) as H2.
  pose proof (byte_at_range data (off + 3)) as H3. unfold is_u8 in *.
  assert (forall b n, 0 <= b < 2 ^ 8 -> 0 <= n <= 24 -> u32 (Z.shiftl b n) = Z.shiftl b n) as Hs.
  { intros b n Hb Hn. apply u32_id. rewrite Z.shiftl_mul_pow2 by lia. unfold is_u32.
    pose proof (Z.pow_le_mono_r 2 n 24 ltac:(lia) ltac:(lia)).
    pose proof (Z.pow_pos_nonneg 2 n ltac:(lia) ltac:(lia)). split; nia. }
  rewrite !Hs by lia.
  assert (forall a b c d, Z.lor (Z.lor (Z.lor a b) c) d = Z.lor (Z.lor (Z.lor d c) b) a) as ->.
  { intros a b c d. apply Z.bits_inj'. intros n _. rewrite !Z.lor_spec.
    by destruct (Z.testbit a n), (Z.testbit b n), (Z.testbit c n), (Z.testbit d n). }
  rewrite (lor_low_shiftl (byte_at data (off + 3)) _ 8) by lia.
  rewrite (lor_low_shiftl (_ + _) _ 16) by lia. rewrite (lor_low_shiftl (_ + _) _ 24) by lia. lia.
Qed.

#[export] Instance be16_ok : BigEndian 2 be16 get_be16.
Proof.
  constructor; [lia|done|..].
  - intros data off. pose proof (byte_at_range data off). pose proof (byte_at_range data (off + 1)).
    rewrite get_be16_sum. unfold is_u8 in *. lia.
  - intros data off Hb H0 H. rewrite get_be16_sum, from_step, (from_step data (off + 1)) by (done || lia).
    pose proof (byte_at_range data off). pose proof (byte_at_range data (off + 1)).
    unfold be16. replace (off + 1 + 1) with (off + 2) by lia. cbn [app]. f_equal; [|f_equal]; wsolve.
  - intros data off n r H0 Hn E. unfold be16 in E. cbn [app] in E.
    apply from_cons in E as [B0 E]; [|done]. apply from_cons in E as [B1 _]; [|lia].
    rewrite get_be16_sum, B0, B1. change (2 ^ (8 * 2)) with 65536 in Hn. wsolve.
Qed.

#[export] Instance be32_ok : BigEndian 4 be32 get_be32.
Proof.
  constructor; [lia|done|..].
  - intros data off. pose proof (byte_at_range data off). pose proof (byte_at_range data (off + 1)).
    pose proof (byte_at_range data (off + 2)). pose proof (byte_at_range data (off + 3)).
    rewrite get_be32_sum. unfold is_u8 in *. lia.
  - intros data off Hb H0 H. rewrite get_be32_sum.
    rewrite from_step, (from_step data (off + 1)), (from_step data (off + 1 + 1)),
      (from_step data (off + 1 + 1 + 1)) by (done || lia).
    pose proof (byte_at_range data off). pose proof (byte_at_range data (off + 1)).
    pose proof (byte_at_range data (off + 2)). pose proof (byte_at_range data (off + 3)).
    replace (off + 1 + 1 + 1 + 1) with (off + 4) by lia.
    replace (off + 1 + 1 + 1) with (off + 3) by lia. replace (off + 1 + 1) with (off + 2) by lia.
    unfold be32. cbn [app]. change (2 ^ 24) with 16777216.
    f_equal; [|f_equal; [|f_equal; [|f_equal]]]; wsolve.
  - intros data off n r H0 Hn E. unfold be32 in E. cbn [app] in E.
    apply from_cons in E as [B0 E]; [|lia]. apply from_cons in E as [B1 E]; [|lia].
    apply from_cons in E as [B2 E]; [|lia]. apply from_cons in E as [B3 _]; [|lia].
    replace (off + 1 + 1 + 1) with (off + 3) in B3 by lia. replace (off + 1 + 1) with (off + 2) in B2 by lia.
    rewrite get_be32_sum, B0, B1, B2, B3. change (2 ^ (8 * 4)) with 4294967296 in Hn.
    change (2 ^ 24) with 16777216. wsolve.
Qed.

Section Prefixed.
Context {w : Z} {enc : Z -> list Z} {get : list Z -> Z -> Z} {Hbe : BigEndian w enc get}.
Context (data : list Z) (off : Z).
Hypothesis Hbytes : Forall is_u8 data.
Hypothesis Hoff : 0 <= off <= zlen data.

(** Reading a length and that many bytes. *)
Lemma prefixed_read : w <= zlen data - off -> get data off <= zlen data - (off + w) ->
  let nal := sub data (off + w) (get data off) in
  from data off = enc (zlen nal) ++ nal ++ from data (off + w + get data off) /\
  zlen nal = get data off.
Proof.
  intros Hw Hn nal. pose proof be_width. pose proof (be_range data off).
  destruct (from_sub data (off + w) (get data off)) as [E L]; [lia..|].
  unfold nal. split; [|done]. rewrite L, <- E. apply be_write; [done|lia|lia].
Qed.

(** Bytes that begin with a length and that many bytes. *)
Lemma prefixed_write nal r : zlen nal < 2 ^ (8 * w) ->
  from data off = enc (zlen nal) ++ nal ++ r ->
  get data off = zlen nal /\ w <= zlen data - off /\ zlen nal <= zlen data - (off + w) /\
  sub data (off + w) (zlen nal) = nal /\ from data (off + w + zlen nal) = r.
Proof.
  intros Hn E. pose proof be_width. pose proof (zlen_nonneg nal). pose proof (zlen_nonneg r).
  pose proof (zlen_from data off Hoff) as L. rewrite E, !zlen_app, be_length in L.
  split; [by apply (be_read data off (zlen nal) (nal ++ r)); [lia| |]|].
  split; [lia|]. split; [lia|].
  apply from_app in E as [E _]; [|lia]. rewrite be_length in E.
  apply from_app in E as [E1 E2]; [|lia]. done.
Qed.
End Prefixed.

Lemma valid_nonempty codec nal : valid codec nal = true -> 0 < zlen nal.
Proof. unfold valid. destruct codec; lia. Qed.

Lemma room (data : list Z) off : zlen data < 2 ^ 32 -> 0 <= off <= zlen data ->
  u64 (zlen data - off) = zlen data - off.
Proof. intros. apply u64_id. unfold is_u64. lia. Qed.

Lemma length_loop_exact f codec data fuel off (pre : list (list Z)) s' :
  Forall is_u8 data -> zlen data < 2 ^ 32 -> 0 <= off <= zlen data ->
  zlen data - off < Z.of_nat fuel -> zlen pre <= off ->
  length_loop codec data fuel off (stats_of f codec pre) = Some s' <->
  exists nals, from data off = pack be32 nals /\ forallb (valid codec) nals = true /\
    s' = stats_of f codec (pre ++ nals).
Proof.
  intros Hb Hs. revert off pre. induction fuel as [|fuel IH]; intros off pre Ho Hf Hp; [lia|].
  cbn [length_loop]. destruct (Z.ltb_spec off (zlen data)) as [Hlt|Hge].
  2:{ assert (off = zlen data) as -> by lia. rewrite from_end. split.
      - intros [= <-]. exists []. by rewrite app_nil_r.
      - intros ([|nal nals] & E & _ & ->); [by rewrite app_nil_r|].
        by rewrite pack_cons in E. }
  rewrite room by done. split.
  - destruct (Z.ltb_spec (zlen data - off) 4) as [|H4]; [done|]. rewrite room by lia.
    destruct (_ || _) eqn:E; [done|]. apply orb_false_iff in E as [E1 E2].
    destruct (prefixed_read data off Hb Ho) as [Ef El]; [lia..|].
    set (nal := sub data (off + 4) (get_be32 data off)) in *. pose proof (be_range data off).
    rewrite add_nal_snoc by lia. destruct (valid codec nal) eqn:Ev; [|done].
    intros Hl. apply IH in Hl as (nals & En & Hv & ->); [|lia|lia|].
    + exists (nal :: nals). rewrite pack_cons, <- En. split; [done|].
      split; [by cbn; rewrite Ev|]. by rewrite <- (assoc_L (++)).
    + rewrite zlen_app. change (zlen [nal]) with 1. lia.
  - intros ([|nal nals] & E & Hv & ->). { apply from_nil in E; [lia|done]. }
    rewrite pack_cons in E. cbn [forallb] in Hv. apply andb_true_iff in Hv as [Hv Hvs].
    pose proof (valid_nonempty _ _ Hv). pose proof (zlen_from data off Ho) as L.
    rewrite E, !zlen_app in L. pose proof (zlen_nonneg (be32 (zlen nal))).
    pose proof (zlen_nonneg (pack be32 nals)).
    destruct (prefixed_write data off Ho nal (pack be32 nals)) as (Eg & H4 & Hn & Es & Er);
      [change (8 * 4) with 32; lia|done|].
    rewrite Eg, Es, (proj2 (Z.ltb_ge _ 4)), (proj2 (Z.eqb_neq (zlen nal) 0)) by lia.
    rewrite room, (proj2 (Z.ltb_ge _ (zlen nal))) by lia. cbn [orb].
    rewrite add_nal_snoc, Hv by lia. cbn [mbind option_bind]. apply IH; [lia|lia| |].
    + rewrite zlen_app. change (zlen [nal]) with 1. lia.
    + exists nals. by rewrite <- (assoc_L (++)).
Qed.

Lemma some_units_of f codec nals :
  some_units (stats_of f codec nals) = if decide (nals = []) then None else Some (stats_of f codec nals).
Proof. unfold some_units. destruct nals as [|nal nals]; [done|]. by rewrite decide_False. Qed.

Lemma inspect_length_exact f codec data s : Forall is_u8 data -> zlen data < 2 ^ 32 ->
  inspect_length_prefixed codec data (zero_stats f) = Some s <->
  exists nals, nals <> [] /\ data = pack be32 nals /\ forallb (valid codec) nals = true /\
    s = stats_of f codec nals.
Proof.
  intros Hb Hs. unfold inspect_length_prefixed. pose proof (zlen_nonneg data).
  assert (zero_stats f = stats_of f codec []) as -> by by destruct codec.
  pose proof (fun s => length_loop_exact f codec data (S (length data)) 0 [] s Hb Hs
    ltac:(lia) ltac:(unfold zlen; lia) ltac:(done)) as Hl.
  destruct (length_loop _ _ _ _ _) as [s1|]; cbn [mbind option_bind].
  - destruct (proj1 (Hl s1) eq_refl) as (nals & E & Hv & ->). rewrite from_0 in E. cbn [app].
    rewrite some_units_of. split.
    + case_decide; [done|]. intros [= <-]. by exists nals.
    + intros (nals' & Hne & E' & Hv' & ->).
      assert (Some (stats_of f codec nals) = Some (stats_of f codec nals')) as EE.
      { apply Hl. by exists nals'. }
      case_decide as Hd; [|done]. subst nals. apply (f_equal (fmap nal_units)) in EE.
      by destruct nals'.
  - split; [done|]. intros (nals & _ & E & Hv & ->).
    assert (None = Some (stats_of f codec nals)); [|done]. apply Hl. by exists nals.
Qed.

(** ** Configuration records

    The two loops over units with two-byte lengths differ in the order of their
    tests only; both read [n] units of one type. *)

Fixpoint nals16 (codec : codec_kind) (data : list Z) (t : Z) (n : nat) (off : Z)
    (s : advc_bitstream_stats) : option (Z * advc_bitstream_stats) :=
  match n with
  | O => Some (off, s)
  | S n =>
      let nal := sub data (off + 2) (get_be16 data off) in
      if (2 <=? zlen data - off) && (get_be16 data off <=? zlen data - (off + 2)) &&
         valid codec nal && has_type codec t nal
      then s ← add_nal codec nal s; nals16 codec data t n (off + 2 + get_be16 data off) s
      else None
  end.

Lemma sub_head data off n : 0 <= off -> 0 < n -> byte_at (sub data off n) 0 = byte_at data off.
Proof.
  intros H0 Hn. unfold byte_at, sub. rewrite lookup_take_lt by lia.
  rewrite lookup_drop. do 3 f_equal. lia.
Qed.
Lemma sub_zlen data off n : 0 <= off -> 0 <= n <= zlen data - off -> zlen (sub data off n) = n.
Proof. unfold sub, zlen. intros. rewrite length_take, length_drop. lia. Qed.

Section Nals16.
Context (data : list Z).
Hypothesis Hbytes : Forall is_u8 data.
Hypothesis Hsize : zlen data < 2 ^ 32.

Lemma avcc_nals_16 t n off s : 0 <= off <= zlen data ->
  avcc_nals data t n off s = nals16 CODEC_AVC data t n off s.
Proof.
  revert off s. induction n as [|n IH]; intros off s Ho; [done|]. cbn [avcc_nals nals16].
  rewrite room, Z.ltb_antisym by done.
  destruct (Z.leb_spec 2 (zlen data - off)); cbn [negb andb]; [|done].
  rewrite room, (Z.ltb_antisym _ (zlen data - (off + 2))) by lia.
  pose proof (be_range (BigEndian := be16_ok) data off) as Hr.
  destruct (Z.leb_spec (get_be16 data off) (zlen data - (off + 2))); cbn [negb andb];
    [|by rewrite orb_true_r]. rewrite orb_false_r.
  rewrite add_nal_valid. unfold has_type, type_of.
  destruct (Z.eqb_spec (get_be16 data off) 0) as [E0|].
  - assert (valid CODEC_AVC (sub data (off + 2) (get_be16 data off)) = false) as ->; [|done].
    unfold valid. rewrite sub_zlen by lia. by rewrite E0.
  - rewrite sub_head by lia. destruct (valid _ _); cbn [andb mbind option_bind]; [|done].
    destruct (Z.land (byte_at data (off + 2)) 31 =? t); cbn [negb]; [|done]. apply IH. lia.
Qed.

Lemma hvcc_nals_16 t n off s : 0 <= off <= zlen data ->
  hvcc_nals data t n off s = nals16 CODEC_HEVC data t n off s.
Proof.
  revert off s. induction n as [|n IH]; intros off s Ho; [done|]. cbn [hvcc_nals nals16].
  rewrite room, Z.ltb_antisym by done.
  destruct (Z.leb_spec 2 (zlen data - off)); cbn [negb andb]; [|done].
  rewrite room, (Z.ltb_antisym _ (zlen data - (off + 2))) by lia.
  pose proof (be_range (BigEndian := be16_ok) data off) as Hr.
  destruct (Z.leb_spec (get_be16 data off) (zlen data - (off + 2))); cbn [negb andb];
    [|by rewrite orb_true_r]. rewrite orb_false_r.
  rewrite add_nal_valid. unfold has_type, type_of.
  destruct (Z.ltb_spec (get_be16 data off) 2) as [E0|].
  - assert (valid CODEC_HEVC (sub data (off + 2) (get_be16 data off)) = false) as ->; [|done].
    unfold valid. rewrite sub_zlen by lia. by rewrite (proj2 (Z.leb_gt 2 _)).
  - rewrite sub_head by lia. cbn [orb].
    destruct (Z.land (Z.shiftr (byte_at data (off + 2)) 1) 63 =? t); cbn [negb];
      rewrite ?andb_true_r, ?andb_false_r; [|done].
    destruct (valid _ _); cbn [mbind option_bind]; [|done]. apply IH. lia.
Qed.

(** The list of units of one type a loop reads. *)
Definition nals_ok (codec : codec_kind) (t : Z) (nals : list (list Z)) : Prop :=
  forallb (valid codec) nals = true /\ forallb (has_type codec t) nals = true /\
  Forall (fun nal => zlen nal < 2 ^ 16) nals.

Lemma nals16_exact f codec t n off (pre : list (list Z)) off' s' :
  0 <= off <= zlen data -> zlen pre <= off ->
  nals16 codec data t n off (stats_of f codec pre) = Some (off', s') <->
  exists nals, length nals = n /\ from data off = pack be16 nals ++ from data off' /\
    off' = off + zlen (pack be16 nals) /\ nals_ok codec t nals /\
    s' = stats_of f codec (pre ++ nals).
Proof.
  revert off pre off' s'. induction n as [|n IH]; intros off pre off' s' Ho Hp; cbn [nals16].
  { split.
    - intros [= <- <-]. exists []. rewrite app_nil_r. by rewrite Z.add_0_r.
    - intros ([|] & ? & _ & -> & _ & ->); [|done]. by rewrite app_nil_r, Z.add_0_r. }
  split.
  - destruct (_ && _) eqn:E; [|done]. apply andb_true_iff in E as [[[E1 E2]%andb_true_iff Ev]%andb_true_iff Et].
    destruct (prefixed_read (get := get_be16) data off Hbytes Ho) as [Ef El]; [lia..|].
    set (nal := sub data (off + 2) (get_be16 data off)) in *.
    pose proof (be_range (BigEndian := be16_ok) data off).
    rewrite add_nal_snoc, Ev by lia. cbn [mbind option_bind]. pose proof (valid_nonempty _ _ Ev).
    intros Hl. apply IH in Hl as (nals & <- & En & -> & (Hv & Ht & Hz) & ->);
      [|lia|rewrite zlen_app; change (zlen [nal]) with 1; lia].
    assert (off + 2 + get_be16 data off + zlen (pack be16 nals) =
            off + zlen (pack be16 (nal :: nals))) as Eo.
    { rewrite pack_cons, !zlen_app, be_length, El. lia. }
    exists (nal :: nals). split; [done|]. rewrite <- Eo.
    split; [by rewrite Ef, En, pack_cons, <- !(assoc_L (++))|]. split; [done|].
    split; [|by rewrite <- (assoc_L (++))]. split; [by cbn [forallb]; rewrite Ev|].
    split; [by cbn [forallb]; rewrite Et|]. constructor; [|done].
    rewrite El. change (2 ^ 16) with (2 ^ (8 * 2)). lia.
  - intros ([|nal nals] & Hlen & E & -> & (Hv & Ht & Hz) & ->); [done|].
    assert (off + zlen (pack be16 (nal :: nals)) =
            off + 2 + zlen nal + zlen (pack be16 nals)) as Eo.
    { rewrite pack_cons, !zlen_app, be_length. lia. }
    rewrite Eo in E |- *. rewrite pack_cons, <- !(assoc_L (++)) in E. cbn [forallb] in Hv, Ht.
    apply andb_true_iff in Hv as [Hv Hvs], Ht as [Ht Hts]. apply Forall_cons in Hz as [Hz Hzs].
    pose proof (valid_nonempty _ _ Hv). pose proof (zlen_nonneg (pack be16 nals)).
    destruct (prefixed_write (w := 2) (get := get_be16) data off Ho nal _ Hz E) as (Eg & H2 & Hn & Es & Er).
    rewrite Eg, Es, Hv, Ht, (proj2 (Z.leb_le 2 _)), (proj2 (Z.leb_le (zlen nal) _)) by lia. cbn [andb].
    rewrite add_nal_snoc, Hv by lia. cbn [mbind option_bind].
    apply IH; [lia|rewrite zlen_app; change (zlen [nal]) with 1; lia|].
    exists nals. split; [by injection Hlen|]. rewrite <- (assoc_L (++)).
    by split; [rewrite Er|].
Qed.
End Nals16.

(** The tail of an AVC record: nothing, or the chroma and depth bytes and the SPS
    extensions of a profile that has them. *)
Definition avcc_tail (profile : Z) (exts : list (list Z)) (tail : list Z) : Prop :=
  (tail = [] /\ exts = []) \/
  (extension_profile profile = true /\ zlen exts <= 255 /\ nals_ok CODEC_AVC 13 exts /\
   exists c d e, tail = [c; d; e; zlen exts] ++ pack be16 exts /\
     Z.land c 0xfc = 0xfc /\ Z.land d 0xf8 = 0xf8 /\ Z.land e 0xf8 = 0xf8).

(** AVCDecoderConfigurationRecord, with four-byte or shorter unit lengths. *)
Definition avcc_record (data : list Z) (nals : list (list Z)) : Prop :=
  exists profile compat level lengths spss ppss exts tail,
  data = [1; profile; compat; level; lengths; 0xe0 + zlen spss] ++ pack be16 spss ++
         [zlen ppss] ++ pack be16 ppss ++ tail /\
  Z.land lengths 0xfc = 0xfc /\ 1 <= zlen spss <= 31 /\ 1 <= zlen ppss <= 255 /\
  nals_ok CODEC_AVC 7 spss /\ nals_ok CODEC_AVC 8 ppss /\ avcc_tail profile exts tail /\
  nals = spss ++ ppss ++ exts.

Lemma count_byte x : is_u8 x -> Z.land x 0xe0 = 0xe0 -> x = 0xe0 + Z.land x 0x1f.
Proof.
  intros Hx E. apply Z.eqb_eq.
  pose proof (byte_cases (fun x => negb (Z.land x 0xe0 =? 0xe0) || (x =? 0xe0 + Z.land x 0x1f))
    ltac:(by vm_compute) x Hx) as H. cbn beta in H. rewrite E in H. done.
Qed.
Lemma byte_count n : 0 <= n <= 31 -> Z.land (0xe0 + n) 0xe0 = 0xe0 /\ Z.land (0xe0 + n) 0x1f = n.
Proof.
  intros Hn. assert (is_u8 n) as Hb by (unfold is_u8; lia).
  pose proof (byte_cases (fun n => (31 <? n) || ((Z.land (0xe0 + n) 0xe0 =? 0xe0) && (Z.land (0xe0 + n) 0x1f =? n)))
    ltac:(by vm_compute) n Hb) as H. cbn beta in H. lia.
Qed.

Lemma has_type_nonempty codec t nals : nals <> [] -> forallb (has_type codec t) nals = true ->
  existsb (has_type codec t) nals = true.
Proof. destruct nals as [|x l]; [done|]. cbn. by intros _ [-> _]%andb_true_iff. Qed.

Lemma avcc_mask spss ppss exts : 1 <= zlen spss -> 1 <= zlen ppss ->
  nals_ok CODEC_AVC 7 spss -> nals_ok CODEC_AVC 8 ppss ->
  param_mask CODEC_AVC (spss ++ ppss ++ exts) = 3.
Proof.
  intros H1 H2 (_ & H7 & _) (_ & H8 & _). unfold param_mask. rewrite !existsb_app.
  rewrite (has_type_nonempty _ 7 spss), (has_type_nonempty _ 8 ppss) by (done || by intros ->).
  by rewrite orb_true_r.
Qed.

(** One array of an HEVC record: the byte with the type, the number of units, the
    units. *)
Definition pack_array (a : Z * list (list Z)) : list Z :=
  [a.1] ++ be16 (zlen a.2) ++ pack be16 a.2.
Definition pack_arrays (l : list (Z * list (list Z))) : list Z := concat (pack_array <$> l).
Definition array_nals (l : list (Z * list (list Z))) : list (list Z) := concat (snd <$> l).
Definition array_ok (a : Z * list (list Z)) : Prop :=
  1 <= zlen a.2 < 2 ^ 16 /\ nals_ok CODEC_HEVC (Z.land a.1 0x3f) a.2.

(** HEVCDecoderConfigurationRecord: a header of 22 bytes that begins with the
    version, the number of arrays and the arrays, with VPS, SPS and PPS among them. *)
Definition hvcc_record (data : list Z) (nals : list (list Z)) : Prop :=
  exists header arrays,
  data = [1] ++ header ++ [zlen arrays] ++ pack_arrays arrays /\ zlen header = 21 /\
  1 <= zlen arrays <= 255 /\ Forall array_ok arrays /\ nals = array_nals arrays /\
  existsb (has_type CODEC_HEVC 32) nals = true /\ existsb (has_type CODEC_HEVC 33) nals = true /\
  existsb (has_type CODEC_HEVC 34) nals = true.

Lemma hvcc_mask nals : Z.land (param_mask CODEC_HEVC nals) 7 = 7 <->
  existsb (has_type CODEC_HEVC 32) nals = true /\ existsb (has_type CODEC_HEVC 33) nals = true /\
  existsb (has_type CODEC_HEVC 34) nals = true.
Proof.
  unfold param_mask. destruct (existsb (has_type CODEC_HEVC 32) nals),
    (existsb (has_type CODEC_HEVC 33) nals), (existsb (has_type CODEC_HEVC 34) nals);
    (split; [try done|by intros (? & ? & ?)]).
Qed.

Section Records.
Context (data : list Z) (f : advc_bitstream_format).
Hypothesis Hbytes : Forall is_u8 data.
Hypothesis Hsize : zlen data < 2 ^ 32.

Lemma avcc_nals_exact t n off (pre : list (list Z)) off' s' :
  0 <= off <= zlen data -> zlen pre <= off ->
  avcc_nals data t n off (stats_of f CODEC_AVC pre) = Some (off', s') <->
  exists nals, length nals = n /\ from data off = pack be16 nals ++ from data off' /\
    off' = off + zlen (pack be16 nals) /\ nals_ok CODEC_AVC t nals /\
    s' = stats_of f CODEC_AVC (pre ++ nals).
Proof. intros Ho Hp. rewrite avcc_nals_16 by done. by apply nals16_exact. Qed.

(** The bytes a successful loop has passed over. *)
Lemma passed off nals off' : 0 <= off <= zlen data ->
  from data off = pack be16 nals ++ from data off' -> off' = off + zlen (pack be16 nals) ->
  0 <= off' <= zlen data /\ zlen nals <= zlen (pack be16 nals).
Proof.
  intros Ho E ->. pose proof (zlen_nonneg (pack be16 nals)). split.
  - pose proof (zlen_from data off Ho) as L. rewrite E, zlen_app in L.
    pose proof (zlen_nonneg (from data (off + zlen (pack be16 nals)))). lia.
  - clear. induction nals as [|x l IH]; [done|]. rewrite pack_cons, !zlen_app, be_length.
    pose proof (zlen_nonneg x). unfold zlen in *. cbn [length]. lia.
Qed.

(** The loop on units it accepts. *)
Lemma nals16_pack codec t off (pre nals : list (list Z)) r : 0 <= off <= zlen data ->
  zlen pre <= off -> from data off = pack be16 nals ++ r -> nals_ok codec t nals ->
  nals16 codec data t (Z.to_nat (zlen nals)) off (stats_of f codec pre) =
    Some (off + zlen (pack be16 nals), stats_of f codec (pre ++ nals)) /\
  from data (off + zlen (pack be16 nals)) = r /\
  off <= off + zlen (pack be16 nals) <= zlen data /\ zlen nals <= zlen (pack be16 nals).
Proof.
  intros Ho Hp E Hok. destruct (from_app data off _ _ (proj1 Ho) E) as [Er _].
  pose proof (zlen_nonneg (pack be16 nals)).
  destruct (passed off nals (off + zlen (pack be16 nals))) as [R Z1]; [done|by rewrite E, Er|done|].
  split; [|split; [done|lia]]. apply nals16_exact; [done..|]. exists nals.
  unfold zlen at 1. rewrite Nat2Z.id. by rewrite E, Er.
Qed.

Lemma avcc_extensions_exact off (pre : list (list Z)) s : 0 <= off <= zlen data -> zlen pre <= off ->
  avcc_extensions data off (stats_of f CODEC_AVC pre) = Some (zlen data, s) <->
  exists exts, avcc_tail (byte_at data 1) exts (from data off) /\ s = stats_of f CODEC_AVC (pre ++ exts).
Proof.
  intros Ho Hp. unfold avcc_extensions. destruct (Z.ltb_spec off (zlen data)) as [Hlt|Hge].
  2:{ assert (off = zlen data) as -> by lia. rewrite from_end. split.
      - intros [= <-]. exists []. rewrite app_nil_r. split; [by left|done].
      - intros (exts & [[_ ->]|(_ & _ & _ & c & d & e & E & _)] & ->); [by rewrite app_nil_r|done]. }
  rewrite room by done. split.
  - destruct (_ || _) eqn:E; [done|]. rewrite !orb_false_iff, !negb_false_iff in E.
    destruct E as ((((Hx & H4) & Hc) & Hd) & He). intros Hl.
    apply avcc_nals_exact in Hl as (exts & Hn & Ef & Eo & Hok & ->); [|lia|lia].
    exists exts. split; [|done]. right. pose proof (byte_at_range data (off + 3)) as B3.
    unfold is_u8 in B3.
    assert (byte_at data (off + 3) = zlen exts) as En by (unfold zlen; lia).
    split; [done|]. split; [lia|]. split; [done|].
    exists (byte_at data off), (byte_at data (off + 1)), (byte_at data (off + 2)).
    split; [|lia]. rewrite from_end, app_nil_r in Ef.
    rewrite from_step, (from_step data (off + 1)), (from_step data (off + 1 + 1)),
      (from_step data (off + 1 + 1 + 1)) by (done || lia).
    replace (off + 1 + 1 + 1 + 1) with (off + 4) by lia.
    replace (off + 1 + 1 + 1) with (off + 3) by lia. replace (off + 1 + 1) with (off + 2) by lia.
    by rewrite Ef, En.
  - intros (exts & [[E _]|(Hx & Hn & Hok & c & d & e & E & Hc & Hd & He)] & ->).
    { apply from_nil in E; [lia|done]. }
    pose proof (zlen_from data off Ho) as L. rewrite E, zlen_app in L.
    change (zlen [c; d; e; zlen exts]) with 4 in L. pose proof (zlen_nonneg (pack be16 exts)).
    pose proof (from_bytes data off Hbytes) as Hb. rewrite E in Hb. cbn [app] in Hb, E.
    apply Forall_cons in Hb as [Bc [Bd [Be [Bn _]%Forall_cons]%Forall_cons]%Forall_cons].
    apply from_cons in E as [B0 E]; [|lia]. apply from_cons in E as [B1 E]; [|lia].
    apply from_cons in E as [B2 E]; [|lia]. apply from_cons in E as [B3 E]; [|lia].
    replace (off + 1 + 1 + 1 + 1) with (off + 4) in E by lia.
    replace (off + 1 + 1 + 1) with (off + 3) in B3 by lia. replace (off + 1 + 1) with (off + 2) in B2 by lia.
    rewrite u8_id in B0, B1, B2, B3 by done. rewrite B0, B1, B2, B3, Hx, Hc, Hd, He.
    rewrite (proj2 (Z.ltb_ge _ 4)) by lia. cbn [negb orb]. rewrite !Z.eqb_refl. cbn [negb orb].
    apply avcc_nals_exact; [lia|lia|]. exists exts. unfold zlen at 1. rewrite Nat2Z.id.
    split; [done|]. rewrite from_end, app_nil_r. split; [done|]. split; [lia|done].
Qed.

(** The six header bytes of an AVC record. *)
Lemma avcc_header b1 b2 b3 b4 b5 r : data = [1; b1; b2; b3; b4; b5] ++ r ->
  (byte_at data 0 = 1 /\ byte_at data 1 = b1 /\ byte_at data 4 = b4 /\ byte_at data 5 = b5) /\
  from data 6 = r.
Proof.
  intros E. assert (Forall is_u8 [1; b1; b2; b3; b4; b5]) as Hb.
  { rewrite E in Hbytes. by apply Forall_app in Hbytes as [? _]. }
  repeat match goal with H : Forall is_u8 (_ :: _) |- _ => apply Forall_cons in H as [? H] end.
  assert (forall x, is_u8 x -> u8 x = x) as Hid by (intros; by apply u8_id).
  rewrite E. split; [|done]. unfold byte_at. cbn. by rewrite !Hid.
Qed.

Lemma avcc_header_read : 6 <= zlen data -> byte_at data 0 = 1 ->
  data = [1; byte_at data 1; byte_at data 2; byte_at data 3; byte_at data 4; byte_at data 5] ++
         from data 6.
Proof.
  intros H E. rewrite <- (from_0 data) at 1. rewrite (from_step data 0), E by (done || lia).
  do 5 (rewrite from_step by (done || lia); cbn [Z.add Pos.add Pos.succ app]). done.
Qed.

Lemma inspect_avcc_sound s : inspect_avcc data (zero_stats f) = Some s ->
  exists nals, avcc_record data nals /\ s = stats_of f CODEC_AVC nals.
Proof.
  unfold inspect_avcc. change (zero_stats f) with (stats_of f CODEC_AVC []).
  destruct (_ || _) eqn:E; [done|]. rewrite !orb_false_iff, !negb_false_iff in E.
  destruct E as (((H7 & E0) & E4) & E5). apply Z.ltb_ge in H7. apply Z.eqb_eq in E0, E4, E5.
  destruct (Z.eqb_spec (Z.land (byte_at data 5) 31) 0); [done|].
  destruct (avcc_nals data 7 _ 6 _) as [[off1 s1]|] eqn:L1; [|done]. cbn [mbind option_bind].
  apply avcc_nals_exact in L1 as (spss & N1 & F1 & O1 & K1 & ->); [|lia|done].
  destruct (passed 6 spss off1) as [R1 Z1]; [lia|done|done|].
  destruct (Z.leb_spec (zlen data) off1); [done|].
  destruct (Z.eqb_spec (byte_at data off1) 0); [done|].
  destruct (avcc_nals data 8 _ _ _) as [[off2 s2]|] eqn:L2; [|done]. cbn [mbind option_bind].
  apply avcc_nals_exact in L2 as (ppss & N2 & F2 & O2 & K2 & ->); [|lia|cbn [app]; lia].
  destruct (passed (off1 + 1) ppss off2) as [R2 Z2]; [lia|done|done|].
  destruct (avcc_extensions _ _ _) as [[off3 s3]|] eqn:L3; [|done]. cbn [mbind option_bind].
  destruct (Z.eqb_spec off3 (zlen data)) as [-> |]; [|done]. cbn [andb].
  apply avcc_extensions_exact in L3 as (exts & T & ->);
    [|lia|rewrite zlen_app; cbn [app]; lia].
  destruct (_ =? 3); [|done]. intros [= <-].
  pose proof (byte_at_range data 5) as B5. pose proof (byte_at_range data off1) as B6.
  pose proof (nal_type_nonneg data 5) as Hn. unfold nal_type_of in Hn.
  assert (Z.land (byte_at data 5) 31 <= 31) as Hm.
  { pose proof (Z.land_ones (byte_at data 5) 5 ltac:(lia)) as Hl. change (Z.ones 5) with 31 in Hl.
    rewrite Hl. pose proof (Z.mod_pos_bound (byte_at data 5) (2 ^ 5)). lia. }
  assert (zlen spss = Z.land (byte_at data 5) 31) as S1 by (unfold zlen; lia).
  assert (zlen ppss = byte_at data off1) as S2 by (unfold zlen, is_u8 in *; lia).
  exists (spss ++ ppss ++ exts). split; [|by cbn [app]; rewrite <- (assoc_L (++))].
  exists (byte_at data 1), (byte_at data 2), (byte_at data 3), (byte_at data 4), spss, ppss, exts,
    (from data off2).
  unfold is_u8 in B6. split; [|split; [done|]; split; [lia|]; split; [lia|]; done].
  rewrite S1, S2, <- count_byte by done. cbn [app]. rewrite <- F2.
  change (?x :: from data (off1 + 1)) with ([x] ++ from data (off1 + 1)).
  rewrite avcc_header_read at 1 by (done || lia). rewrite F1, (from_step data off1) by (done || lia).
  done.
Qed.

Lemma avcc_nals_pack t off (pre nals : list (list Z)) r : 0 <= off <= zlen data -> zlen pre <= off ->
  from data off = pack be16 nals ++ r -> nals_ok CODEC_AVC t nals ->
  avcc_nals data t (Z.to_nat (zlen nals)) off (stats_of f CODEC_AVC pre) =
    Some (off + zlen (pack be16 nals), stats_of f CODEC_AVC (pre ++ nals)) /\
  from data (off + zlen (pack be16 nals)) = r /\
  off <= off + zlen (pack be16 nals) <= zlen data /\ zlen nals <= zlen (pack be16 nals).
Proof. intros Ho. rewrite avcc_nals_16 by done. by apply nals16_pack. Qed.

Lemma inspect_avcc_complete nals : avcc_record data nals ->
  inspect_avcc data (zero_stats f) = Some (stats_of f CODEC_AVC nals).
Proof.
  intros (b1 & b2 & b3 & b4 & spss & ppss & exts & tail & E & H4 & N1 & N2 & K1 & K2 & T & ->).
  unfold inspect_avcc. change (zero_stats f) with (stats_of f CODEC_AVC []).
  destruct (avcc_header _ _ _ _ _ _ E) as [(-> & P1 & -> & ->) F1].
  destruct (byte_count (zlen spss)) as [-> ->]; [lia|].
  assert (7 <= zlen data) as H7.
  { rewrite E, !zlen_app. change (zlen [1; b1; b2; b3; b4; 0xe0 + zlen spss]) with 6.
    change (zlen [zlen ppss]) with 1. pose proof (zlen_nonneg (pack be16 spss)).
    pose proof (zlen_nonneg (pack be16 ppss)). pose proof (zlen_nonneg tail). lia. }
  rewrite H4, (proj2 (Z.ltb_ge _ 7)), (proj2 (Z.eqb_neq (zlen spss) 0)) by lia.
  cbn [negb orb Z.eqb Pos.eqb].
  destruct (avcc_nals_pack 7 6 [] spss _ ltac:(lia) ltac:(done) F1 K1) as (-> & F1' & R1 & Z1).
  cbn [mbind option_bind app]. set (off1 := 6 + zlen (pack be16 spss)) in *.
  pose proof (zlen_from data off1 ltac:(lia)) as L1. rewrite F1', !zlen_app in L1.
  change (zlen [zlen ppss]) with 1 in L1. pose proof (zlen_nonneg (pack be16 ppss)).
  pose proof (zlen_nonneg tail). rewrite (proj2 (Z.leb_gt _ off1)) by lia.
  apply from_cons in F1' as [B1 F2]; [|lia]. rewrite B1, u8_id by (unfold is_u8; lia).
  rewrite (proj2 (Z.eqb_neq (zlen ppss) 0)) by lia.
  destruct (avcc_nals_pack 8 (off1 + 1) spss ppss _ ltac:(lia) ltac:(lia) F2 K2) as (-> & F2' & R2 & Z2).
  cbn [mbind option_bind].
  rewrite (proj2 (avcc_extensions_exact (off1 + 1 + zlen (pack be16 ppss)) (spss ++ ppss)
    (stats_of f CODEC_AVC (spss ++ ppss ++ exts)) ltac:(lia) ltac:(rewrite zlen_app; lia))).
  2:{ exists exts. rewrite F2', P1. by rewrite <- (assoc_L (++)). }
  cbn [mbind option_bind]. rewrite Z.eqb_refl. cbn [andb stats_of parameter_set_mask].
  by rewrite avcc_mask by (done || lia).
Qed.

Lemma hvcc_nals_exact t n off (pre : list (list Z)) off' s' :
  0 <= off <= zlen data -> zlen pre <= off ->
  hvcc_nals data t n off (stats_of f CODEC_HEVC pre) = Some (off', s') <->
  exists nals, length nals = n /\ from data off = pack be16 nals ++ from data off' /\
    off' = off + zlen (pack be16 nals) /\ nals_ok CODEC_HEVC t nals /\
    s' = stats_of f CODEC_HEVC (pre ++ nals).
Proof. intros Ho Hp. rewrite hvcc_nals_16 by done. by apply nals16_exact. Qed.

Lemma hvcc_nals_pack t off (pre nals : list (list Z)) r : 0 <= off <= zlen data -> zlen pre <= off ->
  from data off = pack be16 nals ++ r -> nals_ok CODEC_HEVC t nals ->
  hvcc_nals data t (Z.to_nat (zlen nals)) off (stats_of f CODEC_HEVC pre) =
    Some (off + zlen (pack be16 nals), stats_of f CODEC_HEVC (pre ++ nals)) /\
  from data (off + zlen (pack be16 nals)) = r /\
  off <= off + zlen (pack be16 nals) <= zlen data /\ zlen nals <= zlen (pack be16 nals).
Proof. intros Ho. rewrite hvcc_nals_16 by done. by apply nals16_pack. Qed.

Lemma hvcc_arrays_sound n off (pre : list (list Z)) off' s' :
  0 <= off <= zlen data -> zlen pre <= off ->
  hvcc_arrays data n off (stats_of f CODEC_HEVC pre) = Some (off', s') ->
  exists arrays, length arrays = n /\ from data off = pack_arrays arrays ++ from data off' /\
    Forall array_ok arrays /\ s' = stats_of f CODEC_HEVC (pre ++ array_nals arrays).
Proof.
  revert off pre. induction n as [|n IH]; intros off pre Ho Hp; cbn [hvcc_arrays].
  { intros [= <- <-]. exists []. by rewrite app_nil_r. }
  rewrite room by done. destruct (Z.ltb_spec (zlen data - off) 3); [done|].
  destruct (Z.eqb_spec (get_be16 data (off + 1)) 0); [done|].
  pose proof (be_range (BigEndian := be16_ok) data (off + 1)) as Hr.
  destruct (hvcc_nals _ _ _ _ _) as [[off1 s1]|] eqn:L1; [|done]. cbn [mbind option_bind].
  apply hvcc_nals_exact in L1 as (nals & N1 & F1 & O1 & K1 & ->); [|lia|lia].
  destruct (passed (off + 3) nals off1) as [R1 Z1]; [lia|done|done|].
  intros Hl. apply IH in Hl as (arrays & <- & E & Hok & ->); [|done|rewrite zlen_app; lia].
  assert (zlen nals = get_be16 data (off + 1)) as Hn by (unfold zlen; lia).
  exists ((byte_at data off, nals) :: arrays). split; [done|].
  split; [|split; [constructor; [|done]; split; [cbn [snd]; change (2 ^ 16) with (2 ^ (8 * 2)); lia|done]|]].
  - unfold pack_arrays. cbn [fmap list_fmap concat]. unfold pack_array at 1. cbn [fst snd].
    rewrite from_step, (be_write (get := get_be16)), Hn by (done || lia).
    replace (off + 1 + 2) with (off + 3) by lia. rewrite F1, E, <- !(assoc_L (++)). done.
  - unfold array_nals. cbn [fmap list_fmap concat snd]. by rewrite <- (assoc_L (++)).
Qed.

Lemma hvcc_arrays_complete arrays off (pre : list (list Z)) r :
  0 <= off <= zlen data -> zlen pre <= off -> Forall array_ok arrays ->
  from data off = pack_arrays arrays ++ r ->
  hvcc_arrays data (length arrays) off (stats_of f CODEC_HEVC pre) =
    Some (off + zlen (pack_arrays arrays), stats_of f CODEC_HEVC (pre ++ array_nals arrays)).
Proof.
  intros Ho Hp Hok. revert off pre Ho Hp.
  induction Hok as [|[t nals] arrays [Hn Hk] Hok IH]; intros off pre Ho Hp E; cbn [length hvcc_arrays].
  { rewrite app_nil_r. by rewrite Z.add_0_r. }
  cbn [fst snd] in Hn, Hk. unfold pack_arrays in E |- *. cbn [fmap list_fmap concat] in E |- *.
  unfold pack_array at 1 in E. cbn [fst snd] in E. fold (pack_arrays arrays) in E |- *.
  pose proof (from_bytes data off Hbytes) as Hb. rewrite E in Hb. cbn [app] in Hb.
  apply Forall_cons in Hb as [Ht _].
  pose proof (zlen_from data off Ho) as L. rewrite E, <- !(assoc_L (++)), !zlen_app in L.
  rewrite (be_length (BigEndian := be16_ok)) in L. change (zlen [t]) with 1 in L.
  pose proof (zlen_nonneg (pack be16 nals)). pose proof (zlen_nonneg (pack_arrays arrays)).
  pose proof (zlen_nonneg r). rewrite <- !(assoc_L (++)) in E.
  apply (from_cons data off t) in E as [Et E]; [|lia]. rewrite u8_id in Et by done.
  pose proof (be_read (BigEndian := be16_ok) data (off + 1) (zlen nals) _ ltac:(lia)
    ltac:(change (8 * 2) with 16; lia) E) as Eg.
  apply from_app in E as [E _]; [|lia]. rewrite (be_length (BigEndian := be16_ok)) in E.
  replace (off + 1 + 2) with (off + 3) in E by lia.
  rewrite room, (proj2 (Z.ltb_ge _ 3)), Eg, (proj2 (Z.eqb_neq (zlen nals) 0)), Et by (done || lia).
  destruct (hvcc_nals_pack _ (off + 3) pre nals _ ltac:(lia) ltac:(lia) E Hk) as (-> & E' & R & Z1).
  cbn [mbind option_bind]. rewrite IH; [|lia|rewrite zlen_app; lia|done].
  unfold pack_array, array_nals. cbn [fmap list_fmap concat fst snd].
  rewrite <- !(assoc_L (++)), !zlen_app, (be_length (BigEndian := be16_ok)).
  change (zlen [t]) with 1. do 2 f_equal. lia.
Qed.

Lemma inspect_hvcc_exact s :
  inspect_hvcc data (zero_stats f) = Some s <->
  exists nals, hvcc_record data nals /\ s = stats_of f CODEC_HEVC nals.
Proof.
  unfold inspect_hvcc. change (zero_stats f) with (stats_of f CODEC_HEVC []). split.
  - destruct (Z.ltb_spec (zlen data) 23); cbn [orb]; [done|].
    destruct (Z.eqb_spec (byte_at data 0) 1) as [E0|]; cbn [negb]; [|done].
    destruct (Z.eqb_spec (byte_at data 22) 0); [done|].
    destruct (hvcc_arrays _ _ _ _) as [[off s1]|] eqn:L; [|done]. cbn [mbind option_bind].
    apply hvcc_arrays_sound in L as (arrays & Hn & E & Hok & ->); [|lia|done].
    destruct (Z.eqb_spec off (zlen data)) as [-> |]; [|done]. cbn [andb app].
    destruct (Z.eqb_spec (Z.land (parameter_set_mask (stats_of f CODEC_HEVC (array_nals arrays))) 7) 7)
      as [Hm|]; [|done].
    intros [= <-]. exists (array_nals arrays). split; [|done]. apply hvcc_mask in Hm.
    exists (sub data 1 21), arrays. pose proof (byte_at_range data 22) as B. unfold is_u8 in B.
    assert (zlen arrays = byte_at data 22) as Hz by (unfold zlen; lia).
    destruct (from_sub data 1 21) as [E1 E2]; [lia..|].
    split; [|split; [done|]; split; [lia|]; done].
    rewrite <- (from_0 data) at 1. rewrite (from_step data 0), E0 by (done || lia).
    change (0 + 1) with 1. rewrite E1.
    change (1 + 21) with 22. rewrite (from_step data 22), Hz by (done || lia).
    change (22 + 1) with 23. by rewrite E, from_end, app_nil_r.
  - intros (nals & (header & arrays & E & Hh & Hn & Hok & -> & Hm) & ->).
    assert (zlen data = 23 + zlen (pack_arrays arrays)) as L.
    { rewrite E, !zlen_app, Hh. change (zlen [1]) with 1. change (zlen [zlen arrays]) with 1. lia. }
    pose proof (zlen_nonneg (pack_arrays arrays)). rewrite <- (from_0 data) in E.
    apply (from_cons data 0 1) in E as [E0 E]; [|lia]. change (u8 1) with 1 in E0.
    apply from_app in E as [E _]; [|lia]. rewrite Hh in E.
    apply (from_cons data (0 + 1 + 21) (zlen arrays)) in E as [En E]; [|lia].
    change (0 + 1 + 21 + 1) with 23 in E. change (0 + 1 + 21) with 22 in En.
    rewrite u8_id in En by (unfold is_u8; lia).
    rewrite E0, En, (proj2 (Z.ltb_ge _ 23)), (proj2 (Z.eqb_neq (zlen arrays) 0)) by lia.
    cbn [orb negb Z.eqb Pos.eqb].
    replace (Z.to_nat (zlen arrays)) with (length arrays) by (unfold zlen; lia).
    rewrite (hvcc_arrays_complete arrays 23 [] []); [|lia|done|done|by rewrite app_nil_r].
    cbn [mbind option_bind app]. rewrite (proj2 (Z.eqb_eq _ (zlen data))) by lia. cbn [andb].
    apply hvcc_mask in Hm. cbn [stats_of parameter_set_mask]. by rewrite Hm.
Qed.
End Records.

(** ** Annex-B packets *)

Lemma find_code_same data n i : find_code_loop data n i = find_start_loop data n i.
Proof.
  revert i. induction n as [|n IH]; intros i; [done|]. cbn [find_code_loop find_start_loop].
  rewrite IH. destruct (Z.ltb_spec (i + 2) (zlen data)); cbn [andb].
  - by destruct (byte_at data i =? 0), (byte_at data (i + 1) =? 0).
  - clear IH. symmetry. assert (zlen data <= i + 1 + 2) as Hi by lia. clear -Hi.
    assert (forall j, i + 1 <= j -> find_start_loop data n j = None) as Hj; [|by apply Hj].
    induction n as [|n IH]; intros j Hj; [done|]. cbn [find_start_loop].
    rewrite (proj2 (Z.ltb_ge _ _)) by lia. cbn [andb]. apply IH. lia.
Qed.

(** The two searches of the tools find the same start codes. *)
Lemma find_code_start_code data off : find_code data off = find_start_code data off.
Proof. apply find_code_same. Qed.

Lemma find_code_ok : search_ok find_code.
Proof. intros data off Ho. rewrite find_code_start_code. by apply find_start_code_ok. Qed.

(** Trailing zeros are not part of a unit. *)
Fixpoint strip_zeros (l : list Z) : list Z :=
  match l with
  | [] => []
  | x :: l => match strip_zeros l with [] => if x =? 0 then [] else [x] | l' => x :: l' end
  end.

Lemma strip_zeros_snoc l x : strip_zeros (l ++ [x]) = if x =? 0 then strip_zeros l else l ++ [x].
Proof.
  induction l as [|y l IH]; cbn [app strip_zeros]; [done|]. rewrite IH.
  destruct (x =? 0); [done|]. by destruct l.
Qed.

Lemma sub_snoc data p n : Forall is_u8 data -> 0 <= p -> 0 <= n -> p + n < zlen data ->
  sub data p (n + 1) = sub data p n ++ [byte_at data (p + n)].
Proof.
  intros Hb Hp Hn Hl. unfold sub, zlen in *.
  replace (Z.to_nat (n + 1)) with (S (Z.to_nat n)) by lia.
  destruct (lookup_lt_is_Some_2 data (Z.to_nat (p + n))) as [x Hx]; [lia|].
  rewrite (take_S_r _ _ x).
  - f_equal. unfold byte_at. rewrite Hx. cbn. f_equal. symmetry. apply u8_id.
    by apply (Forall_lookup_1 _ _ _ _ Hb Hx).
  - rewrite lookup_drop. by replace (Z.to_nat p + Z.to_nat n)%nat with (Z.to_nat (p + n)) by lia.
Qed.

Lemma trim_zeros_exact data p n : Forall is_u8 data -> 0 <= p -> p + Z.of_nat n <= zlen data ->
  let e := trim_zeros data p n (p + Z.of_nat n) in
  p <= e <= p + Z.of_nat n /\ sub data p (e - p) = strip_zeros (sub data p (Z.of_nat n)).
Proof.
  intros Hb Hp. induction n as [|n IH]; intros Hl; cbn [trim_zeros].
  { split; [lia|]. by rewrite Z.add_0_r, Z.sub_diag. }
  rewrite (proj2 (Z.ltb_lt p _)) by lia. cbn [andb].
  replace (p + Z.of_nat (S n) - 1) with (p + Z.of_nat n) by lia.
  assert (sub data p (Z.of_nat (S n)) = sub data p (Z.of_nat n) ++ [byte_at data (p + Z.of_nat n)]) as Hs.
  { rewrite Nat2Z.inj_succ. apply sub_snoc; [done|lia..]. }
  rewrite Hs, strip_zeros_snoc.
  destruct (byte_at data (p + Z.of_nat n) =? 0).
  - destruct IH as [H1 H2]; [lia|]. split; [lia|done].
  - split; [lia|]. rewrite <- Hs. f_equal. lia.
Qed.

(** The bytes of a unit of the stream. *)
Definition unit_bytes (data : list Z) (u : nal_unit) : list Z :=
  strip_zeros (sub data (nu_payload u) (nu_end u - nu_payload u)).

Lemma units_ranges data s l us : code_at data s l -> units 0 data s l us ->
  Forall (fun u => 0 <= nu_payload u <= nu_end u /\ nu_end u <= zlen data) us /\
  zlen us <= zlen data - s.
Proof.
  intros Hc H. induction H as [s l Hn|s l n nl us Hf _ IH]; pose proof Hc as (H0 & H1 & H2 & _).
  - split; [constructor; [cbn|done]; lia|]. change (zlen [_]) with 1. lia.
  - destruct Hf as (Hle & Hc' & _). destruct (IH Hc') as [IH1 IH2].
    pose proof Hc' as (? & ? & ? & _). split; [constructor; [cbn; lia|done]|].
    unfold zlen in *. cbn [length]. lia.
Qed.

(** The loop over the units adds their bytes. *)
Lemma inspect_units f codec data us (pre : list (list Z)) : Forall is_u8 data ->
  Forall (fun u => 0 <= nu_payload u <= nu_end u /\ nu_end u <= zlen data) us ->
  zlen pre + zlen us < 2 ^ 32 ->
  run_units (inspect_nal codec data) data us (stats_of f codec pre) =
  if forallb (valid codec) (unit_bytes data <$> us)
  then Some (stats_of f codec (pre ++ (unit_bytes data <$> us))) else None.
Proof.
  intros Hb Hu. revert pre. induction Hu as [|u us [Hr He] _ IH]; intros pre Hz; cbn [run_units].
  { cbn. by rewrite app_nil_r. }
  rewrite fmap_cons. cbn [forallb]. unfold zlen in Hz. cbn [length] in Hz.
  pose proof (trim_zeros_exact data (nu_payload u) (Z.to_nat (nu_end u - nu_payload u)) Hb
    ltac:(lia) ltac:(lia)) as Ht. cbv zeta in Ht. rewrite Z2Nat.id in Ht by lia.
  replace (nu_payload u + (nu_end u - nu_payload u)) with (nu_end u) in Ht by lia.
  destruct Ht as [Ht Hs]. fold (unit_bytes data u) in Hs. unfold inspect_nal at 2.
  set (e := trim_zeros data (nu_payload u) _ (nu_end u)) in *.
  assert (e = nu_payload u -> valid codec (unit_bytes data u) = false) as Hemp.
  { intros Ee. rewrite <- Hs, Ee, Z.sub_diag. by destruct codec. }
  destruct (Z.leb_spec (zlen data) (nu_payload u)) as [Hle|].
  { rewrite Hemp by lia. done. }
  destruct (Z.eqb_spec e (nu_payload u)) as [Ee|]; [by rewrite Hemp|].
  rewrite Hs, add_nal_snoc by (unfold zlen; lia).
  destruct (valid codec (unit_bytes data u)); cbn [andb mbind option_bind]; [|done].
  rewrite IH by (unfold zlen; rewrite length_app; cbn [length]; lia).
  by rewrite <- (assoc_L (++)).
Qed.

(** An Annex-B packet: the units of the stream, the first start code among the
    first bytes. *)
Definition annexb_packet (data : list Z) (nals : list (list Z)) : Prop :=
  exists us, stream_units 0 data us /\ Forall (fun u => nu_start u <= 3) (take 1 us) /\
    nals = unit_bytes data <$> us.

Lemma try_annex_b_exact codec data s : Forall is_u8 data -> zlen data < 2 ^ 32 ->
  try_annex_b codec data = Some s <->
  exists nals, annexb_packet data nals /\ forallb (valid codec) nals = true /\
    s = stats_of ANNEX_B codec nals.
Proof.
  intros Hb Hsz. unfold try_annex_b, inspect_annex_b.
  pose proof (find_code_ok data 0 ltac:(lia)) as Hf.
  assert (zero_stats ANNEX_B = stats_of ANNEX_B codec []) as -> by by destruct codec.
  destruct (find_code data 0) as [[st l]|]; cbn [mbind option_bind].
  2:{ split; [done|]. intros (nals & (us & (st & l & Hf' & _) & _) & _).
      by destruct (first_code_no_code _ _ _ _ Hf'). }
  assert (forall us, stream_units 0 data us -> units 0 data st l us /\ (exists e us', us = Unit st (st + l) e :: us') /\
    bytes_are_zero data 0 st = true) as Hinv.
  { intros us (st' & l' & Hf' & Hz & Hu). destruct (first_code_unique _ _ _ _ _ _ Hf Hf') as [<- <-].
    split; [done|]. split; [inversion Hu; eauto|]. by apply bytes_are_zero_spec. }
  pose proof Hf as (Hst & Hc & _).
  destruct (nal_walk_units find_code 0 (inspect_nal codec data) data find_code_ok ltac:(lia)
    (S (length data)) st l (stats_of ANNEX_B codec []) Hc ltac:(unfold zlen; lia)) as (us & Hu & ->).
  destruct (units_ranges data st l us Hc Hu) as [Hr Hn].
  rewrite (inspect_units ANNEX_B codec data us [] Hb Hr) by (change (zlen []) with 0; lia).
  split.
  - destruct (Z.leb_spec st 3); [|done].
    destruct (bytes_are_zero data 0 st) eqn:Ez; cbn [negb]; [|done].
    destruct (forallb _ _) eqn:Ev; [|done]. cbn [mbind option_bind app]. rewrite some_units_of.
    case_decide; [done|]. intros [= <-]. exists (unit_bytes data <$> us). split; [|done].
    exists us. split; [|split; [|done]].
    + exists st, l. split; [done|]. split; [|done]. intros i Hi.
      by apply (proj1 (bytes_are_zero_spec data 0 st) Ez i).
    + inversion Hu; subst; repeat constructor; done.
  - intros (nals & (us' & Hs & H3 & ->) & Ev & ->).
    destruct (Hinv us' Hs) as (Hu' & (e & us2 & ->) & ->).
    rewrite (units_det _ _ _ _ _ _ Hu Hu'). apply Forall_cons in H3 as [H3 _]. cbn [nu_start] in H3.
    rewrite (proj2 (Z.leb_le _ 3)), Ev by done. cbn [negb mbind option_bind app].
    rewrite some_units_of. by rewrite decide_False.
Qed.

(** ** The packet *)

(** [data] carries the units [nals] in framing [f]. *)
Definition framed (codec : codec_kind) (f : advc_bitstream_format) (data : list Z)
    (nals : list (list Z)) : Prop :=
  match f with
  | UNKNOWN => False
  | ANNEX_B => annexb_packet data nals /\ forallb (valid codec) nals = true
  | LENGTH_PREFIXED => nals <> [] /\ data = pack be32 nals /\ forallb (valid codec) nals = true
  | CODEC_CONFIG_RECORD =>
      match codec with
      | CODEC_AVC => avcc_record data nals
      | CODEC_HEVC => hvcc_record data nals
      end
  end.

(** The order in which the framings are tried. *)
Definition rank (f : advc_bitstream_format) : Z :=
  match f with UNKNOWN => 0 | ANNEX_B => 1 | LENGTH_PREFIXED => 2 | CODEC_CONFIG_RECORD => 3 end.

(** One attempt. *)
Definition attempt (codec : codec_kind) (f : advc_bitstream_format) (data : list Z)
  : option advc_bitstream_stats :=
  match f with
  | UNKNOWN => None
  | ANNEX_B => try_annex_b codec data
  | LENGTH_PREFIXED => inspect_length_prefixed codec data (zero_stats LENGTH_PREFIXED)
  | CODEC_CONFIG_RECORD =>
      match codec with
      | CODEC_AVC => inspect_avcc data (zero_stats CODEC_CONFIG_RECORD)
      | CODEC_HEVC => inspect_hvcc data (zero_stats CODEC_CONFIG_RECORD)
      end
  end.

Lemma attempt_exact codec f data s : Forall is_u8 data -> zlen data < 2 ^ 32 ->
  attempt codec f data = Some s <->
  exists nals, framed codec f data nals /\ s = stats_of f codec nals.
Proof.
  intros Hb Hs. destruct f; cbn [attempt framed].
  - split; [done|]. by intros (? & [] & _).
  - rewrite try_annex_b_exact by done. split; intros (nals & H); exists nals; tauto.
  - rewrite inspect_length_exact by done. split; intros (nals & H); exists nals; tauto.
  - destruct codec; [|by apply inspect_hvcc_exact]. split; [by apply inspect_avcc_sound|].
    intros (nals & Hr & ->). by apply inspect_avcc_complete.
Qed.

Lemma inspect_attempts mime codec data : codec_of_mime mime = Some codec -> zlen data <> 0 ->
  advc_bitstream_inspect (Some mime) (Some data) =
  match attempt codec ANNEX_B data with
  | Some s => inr s
  | None =>
      match attempt codec LENGTH_PREFIXED data with
      | Some s => inr s
      | None =>
          match attempt codec CODEC_CONFIG_RECORD data with
          | Some s => inr s
          | None => inl EPROTO
          end
      end
  end.
Proof.
  intros Hm Hz. unfold advc_bitstream_inspect. rewrite (proj2 (Z.eqb_neq _ 0) Hz), Hm.
  by destruct codec.
Qed.

(** The first attempt that succeeds decides the result. *)
Lemma first_framing codec data f s1 :
  (forall f s, attempt codec f data = Some s <->
     exists nals, framed codec f data nals /\ s = stats_of f codec nals) ->
  attempt codec f data = Some s1 ->
  (forall f', rank f' < rank f -> attempt codec f' data = None) ->
  (forall s, inr s1 = inr s :> Z + _ <->
     exists f nals, framed codec f data nals /\ s = stats_of f codec nals /\
       forall f' nals', rank f' < rank f -> ~ framed codec f' data nals') /\
  (forall e, inr s1 = inl e :> _ + advc_bitstream_stats <->
     e = EPROTO /\ forall f nals, ~ framed codec f data nals).
Proof.
  intros HS Ef Hlow. destruct (proj1 (HS f s1) Ef) as (nals & Hf & Es1).
  assert (forall f' nals', rank f' < rank f -> ~ framed codec f' data nals') as Hno.
  { intros f' nals' Hr Hf'. pose proof (proj2 (HS f' (stats_of f' codec nals'))) as H.
    rewrite Hlow in H by done. discriminate H. eauto. }
  split.
  - intros s. split.
    + intros [= <-]. by exists f, nals.
    + intros (f' & nals' & Hf' & -> & Hmin). f_equal.
      destruct (Z.lt_trichotomy (rank f') (rank f)) as [Hlt | [Heq | Hgt]].
      * by destruct (Hno f' nals').
      * assert (f' = f) as -> by by destruct f', f.
        assert (Some s1 = Some (stats_of f codec nals')); [|congruence].
        rewrite <- Ef. apply HS. eauto.
      * by destruct (Hmin f nals).
  - intros e. split; [done|]. intros [_ Hn]. by destruct (Hn f nals).
Qed.

(** C39. [advc_bitstream_inspect] on a packet of a supported codec returns the
    statistics of the units of the first framing that describes the packet, tried in
    the order Annex-B, four-byte lengths, configuration record: the number of
    units, of parameter sets, of slices and of key slices, and which parameter
    sets occur.  It fails with EPROTO exactly when no framing describes the packet. *)
Theorem inspect_exact mime codec data :
  codec_of_mime mime = Some codec -> Forall is_u8 data -> 0 < zlen data < 2 ^ 32 ->
  (forall s, advc_bitstream_inspect (Some mime) (Some data) = inr s <->
     exists f nals, framed codec f data nals /\ s = stats_of f codec nals /\
       forall f' nals', rank f' < rank f -> ~ framed codec f' data nals') /\
  (forall e, advc_bitstream_inspect (Some mime) (Some data) = inl e <->
     e = EPROTO /\ forall f nals, ~ framed codec f data nals).
Proof.
  intros Hm Hb Hz. rewrite (inspect_attempts _ codec) by (done || lia).
  pose proof (fun f s => attempt_exact codec f data s Hb ltac:(lia)) as HS.
  destruct (attempt codec ANNEX_B data) as [s1|] eqn:E1;
    [|destruct (attempt codec LENGTH_PREFIXED data) as [s2|] eqn:E2;
      [|destruct (attempt codec CODEC_CONFIG_RECORD data) as [s3|] eqn:E3]].
  - apply (first_framing codec data ANNEX_B s1 HS E1). intros []; cbn [rank]; try lia; done.
  - apply (first_framing codec data LENGTH_PREFIXED s2 HS E2). intros []; cbn [rank]; try lia; done.
  - apply (first_framing codec data CODEC_CONFIG_RECORD s3 HS E3).
    intros []; cbn [rank]; try lia; done.
  - assert (forall f nals, ~ framed codec f data nals) as Hno.
    { intros f nals Hf. pose proof (proj2 (HS f (stats_of f codec nals))) as H.
      destruct f; rewrite ?E1, ?E2, ?E3 in H; [done|discriminate H; eauto..]. }
    split; [|intros e; split; [intros [= <-]; done|by intros [-> _]]].
    intros s. split; [done|]. intros (f & nals & Hf & _). by destruct (Hno f nals).
Qed.

(** ** Examples *)

(** An IDR access unit with its parameter sets, in two framings. *)
Definition example_nals : list (list Z) := [[0x67; 0x42]; [0x68; 0xce]; [0x65; 0x88]].

Lemma inspect_exact_witness : exists f nals,
  framed CODEC_AVC f (pack be32 example_nals) nals /\
  Stats LENGTH_PREFIXED 3 2 3 1 1 = stats_of f CODEC_AVC nals /\
  forall f' nals', rank f' < rank f -> ~ framed CODEC_AVC f' (pack be32 example_nals) nals'.
Proof.
  apply (proj1 (inspect_exact "video/avc" CODEC_AVC (pack be32 example_nals) eq_refl
    ltac:(repeat constructor; vm_compute; discriminate) ltac:(vm_compute; split; reflexivity))).
  vm_compute. reflexivity.
Defined.
