(* ===== verification/Vp9.v ===== *)
(** * VP9 access units (src/src/vaapi_advc/advc_vaapi_decode_vp9.c)

    The prefix of the uncompressed header is parsed as an independent check of
    the picture parameters; the access unit is the slice data itself.  [inl e] is
    a return of -1 with [errno = e].  The VA structures hold the fields the code
    reads. *)

From stdpp Require Import base list.
From Stdlib Require Import ZArith Lia Bool.
From S2P Require Import Prelude Kernel Protocol AnnexB.

Definition ADVC_VP9_FRAME_MARKER : Z := 2.
Definition VA_SLICE_DATA_FLAG_ALL : Z := 0.

Record advc_vp9_frame_info := FrameInfo {
  fi_profile : Z; fi_key_frame : Z; fi_show_frame : Z; fi_error_resilient_mode : Z }.

(** [data] is [None] for NULL; its size is its length. *)
Definition advc_vp9_parse_frame_prefix (data : option (list Z)) : Z + advc_vp9_frame_info :=
  match data with
  | None => inl EINVAL
  | Some data =>
      if zlen data =? 0 then inl EINVAL
      else
        let first := byte_at data 0 in
        if negb (Z.land (Z.shiftr first 6) 3 =? ADVC_VP9_FRAME_MARKER) then inl EPROTO
        else
          let profile := u8 (Z.lor (Z.land (Z.shiftr first 5) 1)
                                   (Z.shiftl (Z.land (Z.shiftr first 4) 1) 1)) in
          if negb (profile =? 0) then inl ENOTSUP
          else if negb (u8 (Z.land (Z.shiftr first 3) 1) =? 0) then inl ENOTSUP
          else
            let key_frame := Z.b2z (Z.land (Z.shiftr first 2) 1 =? 0) in
            if negb (key_frame =? 0) &&
               ((zlen data <? 4) || negb (byte_at data 1 =? 0x49) ||
                negb (byte_at data 2 =? 0x83) || negb (byte_at data 3 =? 0x42)) then inl EPROTO
            else inr (FrameInfo profile key_frame (u8 (Z.land (Z.shiftr first 1) 1))
                                (u8 (Z.land first 1)))
  end.

(** VADecPictureParameterBufferVP9 and VASliceParameterBufferVP9. *)
Record vp9_picture := Vp9Picture {
  vp_frame_width : Z; vp_frame_height : Z; vp_profile : Z; vp_bit_depth : Z;
  vp_subsampling_x : Z; vp_subsampling_y : Z;
  vp_frame_type : Z; vp_show_frame : Z; vp_error_resilient_mode : Z }.
Record vp9_slice := Vp9Slice {
  vs_slice_data_size : Z; vs_slice_data_offset : Z; vs_slice_data_flag : Z }.

(** The result is the copy and [*key_frame]. *)
Definition advc_vp9_build_access_unit (alloc_ok : bool) (picture : option vp9_picture)
    (slice : option vp9_slice) (slice_data : option (list Z))
    (expected_width expected_height : Z) : Z + (list Z * Z) :=
  match picture, slice, slice_data with
  | Some picture, Some slice, Some slice_data =>
      if (expected_width =? 0) || (expected_height =? 0) ||
         (65535 <? expected_width) || (65535 <? expected_height) then inl EINVAL
      else if negb (vp_profile picture =? 0) || negb (vp_bit_depth picture =? 8) ||
              negb (vp_subsampling_x picture =? 1) || negb (vp_subsampling_y picture =? 1)
      then inl ENOTSUP
      else if negb (vp_frame_width picture =? expected_width) ||
              negb (vp_frame_height picture =? expected_height) then inl EINVAL
      else if negb (vs_slice_data_flag slice =? VA_SLICE_DATA_FLAG_ALL) ||
              negb (vs_slice_data_offset slice =? 0) then inl ENOTSUP
      else if (vs_slice_data_size slice =? 0) ||
              negb (vs_slice_data_size slice =? zlen slice_data) then inl EINVAL
      else if ADVC_MAX_INPUT_BYTES <? zlen slice_data then inl 7 (* E2BIG *)
      else
        parsed ← advc_vp9_parse_frame_prefix (Some slice_data);
        if negb (fi_profile parsed =? vp_profile picture) ||
           negb (fi_key_frame parsed =? Z.b2z (vp_frame_type picture =? 0)) ||
           negb (fi_show_frame parsed =? vp_show_frame picture) ||
           negb (fi_error_resilient_mode parsed =? vp_error_resilient_mode picture) then inl EPROTO
        else if alloc_ok then inr (slice_data, fi_key_frame parsed) else inl ENOMEM
  | _, _, _ => inl EINVAL
  end.

(** ** Specification *)

(** The first byte of a Profile 0 frame that is coded and not a repeat: the
    marker 10, two profile bits, the repeat bit, then frame type (0 for a key
    frame), show_frame and error_resilient_mode. *)
Definition first_byte (frame_type show resilient : bool) : Z :=
  128 + 4 * Z.b2z frame_type + 2 * Z.b2z show + Z.b2z resilient.

(** A key frame continues with the sync code. *)
Definition sync_code (data : list Z) : Prop :=
  4 <= zlen data /\ byte_at data 1 = 0x49 /\ byte_at data 2 = 0x83 /\ byte_at data 3 = 0x42.

Record frame_prefix (data : list Z) (frame_type show resilient : bool) : Prop := {
  fp_first : 1 <= zlen data /\ byte_at data 0 = first_byte frame_type show resilient;
  fp_sync : frame_type = false -> sync_code data }.

Definition info_of (frame_type show resilient : bool) : advc_vp9_frame_info :=
  FrameInfo 0 (Z.b2z (negb frame_type)) (Z.b2z show) (Z.b2z resilient).

(** The bit tests of the parser on the first byte. *)
Definition accepts_first (b : Z) : bool :=
  (Z.land (Z.shiftr b 6) 3 =? ADVC_VP9_FRAME_MARKER) &&
  (u8 (Z.lor (Z.land (Z.shiftr b 5) 1) (Z.shiftl (Z.land (Z.shiftr b 4) 1) 1)) =? 0) &&
  (u8 (Z.land (Z.shiftr b 3) 1) =? 0).

Definition first_fields (b : Z) : bool * bool * bool :=
  (Z.testbit b 2, Z.testbit b 1, Z.testbit b 0).

Lemma accepts_first_spec b : is_u8 b ->
  (accepts_first b = true <-> exists t s r, b = first_byte t s r) /\
  (accepts_first b = true ->
     (Z.land (Z.shiftr b 2) 1 =? 0) = negb (Z.testbit b 2) /\
     u8 (Z.land (Z.shiftr b 1) 1) = Z.b2z (Z.testbit b 1) /\
     u8 (Z.land b 1) = Z.b2z (Z.testbit b 0) /\
     b = first_byte (Z.testbit b 2) (Z.testbit b 1) (Z.testbit b 0)).
Proof.
  intros Hb. split; [split|].
  - intros Ha. exists (Z.testbit b 2), (Z.testbit b 1), (Z.testbit b 0).
    pose proof (byte_cases (fun b => negb (accepts_first b) ||
      (b =? first_byte (Z.testbit b 2) (Z.testbit b 1) (Z.testbit b 0))) ltac:(by vm_compute) b Hb) as H.
    cbn beta in H. rewrite Ha in H. by apply Z.eqb_eq.
  - by intros ([] & [] & [] & ->).
  - intros Ha. pose proof (byte_cases (fun b => negb (accepts_first b) ||
      (Bool.eqb (Z.land (Z.shiftr b 2) 1 =? 0) (negb (Z.testbit b 2)) &&
       (u8 (Z.land (Z.shiftr b 1) 1) =? Z.b2z (Z.testbit b 1)) &&
       (u8 (Z.land b 1) =? Z.b2z (Z.testbit b 0)) &&
       (b =? first_byte (Z.testbit b 2) (Z.testbit b 1) (Z.testbit b 0)))) ltac:(by vm_compute) b Hb) as H.
    cbn beta in H. rewrite Ha in H. cbn [negb orb] in H.
    apply andb_true_iff in H as [[[H1%eqb_prop H2]%andb_true_iff H3]%andb_true_iff H4].
    split; [done|]. lia.
Qed.

Lemma first_byte_inj t s r t' s' r' : first_byte t s r = first_byte t' s' r' -> t = t' /\ s = s' /\ r = r'.
Proof. by destruct t, s, r, t', s', r'. Qed.

Lemma parse_prefix_exact data i :
  advc_vp9_parse_frame_prefix (Some data) = inr i <->
  exists t s r, frame_prefix data t s r /\ i = info_of t s r.
Proof.
  unfold advc_vp9_parse_frame_prefix.
  destruct (accepts_first_spec (byte_at data 0) (byte_at_range data 0)) as [Ha Hf].
  unfold accepts_first in Ha, Hf.
  destruct (Z.eqb_spec (zlen data) 0) as [E0|E0].
  { split; [done|]. intros (t & s & r & [[? _] _] & _). lia. }
  assert (1 <= zlen data) as H1 by (unfold zlen in *; lia).
  destruct (Z.land (Z.shiftr (byte_at data 0) 6) 3 =? ADVC_VP9_FRAME_MARKER) eqn:E1; cbn [negb andb] in *.
  2:{ split; [done|]. intros (t & s & r & [[_ E] _] & _). exfalso. by assert (false = true) by (apply (proj2 Ha); eauto). }
  destruct (Z.eqb_spec (u8 (Z.lor (Z.land (Z.shiftr (byte_at data 0) 5) 1)
    (Z.shiftl (Z.land (Z.shiftr (byte_at data 0) 4) 1) 1))) 0) as [E2|E2]; cbn [negb andb] in *.
  2:{ split; [done|]. intros (t & s & r & [[_ E] _] & _). exfalso. by assert (false = true) by (apply (proj2 Ha); eauto). }
  destruct (u8 (Z.land (Z.shiftr (byte_at data 0) 3) 1) =? 0) eqn:E3; cbn [negb andb] in *.
  2:{ split; [done|]. intros (t & s & r & [[_ E] _] & _). exfalso. by assert (false = true) by (apply (proj2 Ha); eauto). }
  destruct (Hf eq_refl) as (-> & -> & -> & Eb). rewrite E2.
  set (t := Z.testbit (byte_at data 0) 2) in *. set (sh := Z.testbit (byte_at data 0) 1) in *.
  set (r := Z.testbit (byte_at data 0) 0) in *.
  assert (negb (Z.b2z (negb t) =? 0) = negb t) as -> by by destruct t. split.
  - destruct (negb t && _) eqn:Ek; [done|]. intros [= <-]. exists t, sh, r. split; [|done].
    split; [done|]. intros Et. rewrite Et in Ek. cbn [negb andb] in Ek. unfold sync_code. lia.
  - intros (t' & s' & r' & [[_ E] Hs] & ->). rewrite Eb in E.
    apply first_byte_inj in E as (<- & <- & <-). unfold info_of.
    destruct t; cbn [negb andb]; [done|]. destruct (Hs eq_refl) as (H4 & -> & -> & ->).
    by rewrite (proj2 (Z.ltb_ge _ 4)) by done.
Qed.

(** Every failure of the parser on a non-empty frame is EPROTO or ENOTSUP. *)
Lemma parse_prefix_errors data e : advc_vp9_parse_frame_prefix (Some data) = inl e ->
  zlen data = 0 /\ e = EINVAL \/ e = EPROTO \/ e = ENOTSUP.
Proof.
  unfold advc_vp9_parse_frame_prefix.
  destruct (Z.eqb_spec (zlen data) 0); [by intros [= <-]; left|].
  destruct (negb _); [by intros [= <-]; right; left|].
  destruct (negb _); [by intros [= <-]; right; right|].
  destruct (negb _); [by intros [= <-]; right; right|].
  destruct (_ && _); [by intros [= <-]; right; left|done].
Qed.

(** The subset the driver forwards: 8-bit 4:2:0 Profile 0 of the surface's size, the
    whole frame in one slice buffer. *)
Record vp9_supported (p : vp9_picture) (sl : vp9_slice) (size w h : Z) : Prop := {
  vs_geometry : 1 <= w <= 65535 /\ 1 <= h <= 65535 /\ vp_frame_width p = w /\ vp_frame_height p = h;
  vs_format : vp_profile p = 0 /\ vp_bit_depth p = 8 /\ vp_subsampling_x p = 1 /\ vp_subsampling_y p = 1;
  vs_whole : vs_slice_data_flag sl = VA_SLICE_DATA_FLAG_ALL /\ vs_slice_data_offset sl = 0;
  vs_size : vs_slice_data_size sl = size /\ 1 <= size <= ADVC_MAX_INPUT_BYTES }.

(** [advc_vp9_build_access_unit] succeeds exactly on a frame of the supported
    subset whose own header prefix says what the picture parameters say: the marker and
    Profile 0, not a repeated frame, the same frame type, show_frame and
    error_resilient_mode, and the sync code on a key frame.  The access unit is then the
    slice data unchanged and the key flag that of the header. *)
Theorem vp9_access_unit_exact p sl data w h out key :
  0 <= w -> 0 <= h -> 0 <= vp_show_frame p <= 1 -> 0 <= vp_error_resilient_mode p <= 1 ->
  advc_vp9_build_access_unit true (Some p) (Some sl) (Some data) w h = inr (out, key) <->
  vp9_supported p sl (zlen data) w h /\
  frame_prefix data (negb (vp_frame_type p =? 0)) (vp_show_frame p =? 1)
    (vp_error_resilient_mode p =? 1) /\
  out = data /\ key = Z.b2z (vp_frame_type p =? 0).
Proof.
  intros Hw Hh Hs Hr. unfold advc_vp9_build_access_unit.
  pose proof (parse_prefix_exact data) as Hp.
  assert (0 <= zlen data) as Hz by (unfold zlen; lia). split.
  - destruct (_ || _) eqn:E1; [done|]. destruct (_ || _) eqn:E2 in |- *; [done|].
    destruct (_ || _) eqn:E3 in |- *; [done|]. destruct (_ || _) eqn:E4 in |- *; [done|].
    destruct (_ || _) eqn:E5 in |- *; [done|]. destruct (Z.ltb_spec ADVC_MAX_INPUT_BYTES (zlen data)); [done|].
    destruct (advc_vp9_parse_frame_prefix (Some data)) as [e|i]; [done|]. cbn [mbind res_bind].
    destruct (proj1 (Hp i) eq_refl) as (t & s & r & Hf & ->). unfold info_of.
    cbn [fi_profile fi_key_frame fi_show_frame fi_error_resilient_mode].
    destruct (_ || _) eqn:E6 in |- *; [done|]. intros [= <- <-].
    rewrite !orb_false_iff, !negb_false_iff, !Z.eqb_eq in E6. destruct E6 as (((_ & E7) & E8) & E9).
    assert (t = negb (vp_frame_type p =? 0)) as ->
      by (revert E7; by destruct t, (vp_frame_type p =? 0)).
    assert (s = (vp_show_frame p =? 1)) as -> by (rewrite <- E8; by destruct s).
    assert (r = (vp_error_resilient_mode p =? 1)) as -> by (rewrite <- E9; by destruct r).
    split; [constructor; lia|]. split; [done|]. by rewrite negb_involutive.
  - intros ([(Hw' & Hh' & <- & <-) (-> & -> & -> & ->) (-> & ->) (-> & Hsz)] & Hf & -> & ->).
    rewrite (proj2 (Hp (info_of _ _ _)) (ex_intro _ _ (ex_intro _ _ (ex_intro _ _ (conj Hf eq_refl))))).
    rewrite !Z.eqb_refl, (proj2 (Z.eqb_neq (vp_frame_width p) 0)), (proj2 (Z.eqb_neq (vp_frame_height p) 0)),
      (proj2 (Z.eqb_neq (zlen data) 0)), !(proj2 (Z.ltb_ge _ _)) by lia.
    cbn [negb orb mbind res_bind info_of fi_profile fi_key_frame fi_show_frame fi_error_resilient_mode].
    assert (forall x, 0 <= x <= 1 -> (Z.b2z (x =? 1) =? x) = true) as Hx
      by (intros x Hx; by assert (x = 0 \/ x = 1) as [-> | ->] by lia).
    by rewrite negb_involutive, !Z.eqb_refl, !Hx by done.
Qed.

(** A visible key frame of 16 by 8. *)
Definition example_frame : list Z := [0x82; 0x49; 0x83; 0x42; 0x20].

Lemma vp9_access_unit_exact_witness :
  vp9_supported (Vp9Picture 16 8 0 8 1 1 0 1 0) (Vp9Slice 5 0 0) (zlen example_frame) 16 8 /\
  frame_prefix example_frame false true false /\ example_frame = example_frame /\ 1 = 1.
Proof.
  apply (vp9_access_unit_exact (Vp9Picture 16 8 0 8 1 1 0 1 0) (Vp9Slice 5 0 0) example_frame 16 8
    example_frame 1); [lia|lia|cbn; lia|cbn; lia|].
  vm_compute. reflexivity.
Defined.
