(* ===== verification/Hevc.v ===== *)
(** * HEVC Annex-B bitstreams (src/src/vaapi_advc/advc_vaapi_decode_hevc.c)

    The VPS/SPS/PPS of the supported Main subset are reconstructed from the
    picture parameters, slices are checked and joined.  The file has its own
    copies of the bit writer and reader of advc_h264_annexb.c: [put_bit],
    [finish_rbsp], [read_bit], [read_ue], [annexb_prefix_size] and the escaping
    loops are the same code on a larger buffer and are shared with AnnexB (the
    capacity of a writer is the size of its buffer); [put_bits] and [put_ue]
    differ and are defined here.  [inl e] is the return of -1 with [errno = e]. *)

From stdpp Require Import base list.
From Stdlib Require Import ZArith Lia Bool.
From S2P Require Import Prelude Kernel Protocol AnnexB AnnexBSpec.

Definition ADVC_HEVC_MAX_CONFIG_BYTES : Z := 2048.
Definition ADVC_HEVC_MAX_SLICES : Z := 256.
Definition ADVC_HEVC_MAX_TILE_COLUMNS : Z := 20.
Definition ADVC_HEVC_MAX_TILE_ROWS : Z := 22.

(** ** Writing bits *)

Definition hevc_writer : bit_writer := Writer (replicate 2048 0) 0.

Definition hevc_put_bits (w : bit_writer) (value count : Z) : Z + bit_writer :=
  if 64 <? count then inl EINVAL else put_bits_loop w value (Z.to_nat count).

Definition hevc_put_ue (w : bit_writer) (value : Z) : Z + bit_writer :=
  let code_num := u64 (value + 1) in
  let bits := code_bits 64 code_num 0 in
  w ← put_zeros w (Z.to_nat (bits - 1));
  hevc_put_bits w code_num bits.

Definition hevc_put_se (w : bit_writer) (value : Z) : Z + bit_writer :=
  let magnitude := if value <? 0 then u64 (- value) else u64 value in
  let code_num := if value <=? 0 then u64 (magnitude * 2) else u64 (magnitude * 2 - 1) in
  if UINT32_MAX <? code_num then inl EOVERFLOW else hevc_put_ue w (u32 code_num).

Definition put_profile_tier_level_main (w : bit_writer) : Z + bit_writer :=
  w ← hevc_put_bits w 0 2;
  w ← put_bit w 0;
  w ← hevc_put_bits w 1 5;
  w ← hevc_put_bits w 0x40000000 32;
  w ← hevc_put_bits w 0 48;
  hevc_put_bits w 186 8.

(** ** NAL units *)

Definition hevc_append_nal (capacity : Z) (out : list Z) (nal_unit_type : Z) (rbsp : bit_writer)
  : Z + list Z :=
  if (63 <? nal_unit_type) || negb (bw_bit_count rbsp mod 8 =? 0) then inl EINVAL
  else if (capacity <? zlen out) || (capacity - zlen out <? 6) then inl EOVERFLOW
  else escape_loop capacity (take (Z.to_nat (bw_bit_count rbsp / 8)) (bw_data rbsp)) 0
         (out ++ [0; 0; 0; 1; u8 (Z.shiftl nal_unit_type 1); 1]).

(** Reader, NAL type and temporal identifier; [None] is a NULL [data]. *)
Definition hevc_init_slice_reader (data : option (list Z)) : Z + (bit_reader * Z * Z) :=
  match data with
  | None => inl EINVAL
  | Some data =>
      let prefix := annexb_prefix_size data in
      if zlen data - prefix <? 3 then inl EINVAL
      else
        let first := byte_at data prefix in
        let second := byte_at data (prefix + 1) in
        let nal_unit_type := Z.land (Z.shiftr first 1) 0x3f in
        let temporal_id_plus1 := Z.land second 7 in
        let layer_id := Z.lor (Z.shiftl (Z.land first 1) 5) (Z.shiftr second 3) in
        if negb (Z.land first 0x80 =? 0) || (31 <? nal_unit_type) || negb (layer_id =? 0) ||
           negb (temporal_id_plus1 =? 1) then inl ENOTSUP
        else
          let bytes := unescape_loop (drop (Z.to_nat (prefix + 2)) data) 0 [] in
          if zlen bytes =? 0 then inl EINVAL
          else inr (Reader bytes 0, nal_unit_type, temporal_id_plus1)
  end.

Record advc_hevc_slice_identity := HevcIdentity {
  hi_pps_id : Z;
  hi_nal_unit_type : Z;
  hi_first_slice : Z;
  hi_no_output_of_prior_pics : Z;
  hi_temporal_id_plus1 : Z }.

(** [nal_type >= 16 && nal_type <= 23] *)
Definition irap (nal_type : Z) : bool := (16 <=? nal_type) && (nal_type <=? 23).

Definition advc_hevc_parse_slice_identity (data : option (list Z)) : Z + advc_hevc_slice_identity :=
  '(r, nal_type, temporal) ← hevc_init_slice_reader data;
  '(first, r) ← read_bit r;
  '(prior, r) ← (if irap nal_type then read_bit r else inr (0, r));
  '(pps_id, r) ← read_ue r;
  if 63 <? pps_id then inl ENOTSUP
  else inr (HevcIdentity pps_id nal_type (u8 first) (u8 prior) temporal).

(** ** Parameters *)

Record advc_hevc_parameter_input := HevcParams {
  h_visible_width : Z; h_visible_height : Z;
  h_pic_width : Z; h_pic_height : Z;
  h_chroma_format_idc : Z;
  h_separate_colour_plane_flag : Z;
  h_bit_depth_luma_minus8 : Z; h_bit_depth_chroma_minus8 : Z;
  h_sps_max_dec_pic_buffering_minus1 : Z;
  h_no_pic_reordering_flag : Z;
  h_log2_min_cb_minus3 : Z; h_log2_diff_cb : Z;
  h_log2_min_tb_minus2 : Z; h_log2_diff_tb : Z;
  h_max_transform_hierarchy_depth_intra : Z; h_max_transform_hierarchy_depth_inter : Z;
  h_scaling_list_enabled_flag : Z; h_amp_enabled_flag : Z;
  h_sample_adaptive_offset_enabled_flag : Z; h_pcm_enabled_flag : Z;
  h_strong_intra_smoothing_enabled_flag : Z;
  h_num_short_term_ref_pic_sets : Z;
  h_long_term_ref_pics_present_flag : Z; h_num_long_term_ref_pic_sps : Z;
  h_sps_temporal_mvp_enabled_flag : Z; h_log2_max_poc_lsb_minus4 : Z;
  h_dependent_slice_segments_enabled_flag : Z; h_output_flag_present_flag : Z;
  h_num_extra_slice_header_bits : Z; h_sign_data_hiding_enabled_flag : Z;
  h_cabac_init_present_flag : Z;
  h_num_ref_idx_l0_minus1 : Z; h_num_ref_idx_l1_minus1 : Z;
  h_init_qp_minus26 : Z;
  h_constrained_intra_pred_flag : Z; h_transform_skip_enabled_flag : Z;
  h_cu_qp_delta_enabled_flag : Z; h_diff_cu_qp_delta_depth : Z;
  h_pps_cb_qp_offset : Z; h_pps_cr_qp_offset : Z;
  h_pps_slice_chroma_qp_offsets_present_flag : Z;
  h_weighted_pred_flag : Z; h_weighted_bipred_flag : Z;
  h_transquant_bypass_enabled_flag : Z; h_tiles_enabled_flag : Z;
  h_entropy_coding_sync_enabled_flag : Z;
  h_num_tile_columns_minus1 : Z; h_num_tile_rows_minus1 : Z;
  h_column_width_minus1 : list Z; h_row_height_minus1 : list Z;
  h_loop_filter_across_tiles_enabled_flag : Z;
  h_pps_loop_filter_across_slices_enabled_flag : Z;
  h_deblocking_filter_override_enabled_flag : Z;
  h_pps_disable_deblocking_filter_flag : Z;
  h_pps_beta_offset_div2 : Z; h_pps_tc_offset_div2 : Z;
  h_lists_modification_present_flag : Z;
  h_log2_parallel_merge_level_minus2 : Z;
  h_slice_segment_header_extension_present_flag : Z }.

(** The second guard of [validate_parameters]. *)
Definition hevc_unsupported (p : advc_hevc_parameter_input) : bool :=
  negb (h_chroma_format_idc p =? 1) || negb (h_separate_colour_plane_flag p =? 0) ||
  negb (h_bit_depth_luma_minus8 p =? 0) || negb (h_bit_depth_chroma_minus8 p =? 0) ||
  negb (h_scaling_list_enabled_flag p =? 0) || negb (h_pcm_enabled_flag p =? 0) ||
  negb (h_num_short_term_ref_pic_sets p =? 0) || negb (h_long_term_ref_pics_present_flag p =? 0) ||
  negb (h_num_long_term_ref_pic_sps p =? 0) || (12 <? h_log2_max_poc_lsb_minus4 p) ||
  (3 <? h_log2_min_cb_minus3 p) || (3 <? h_log2_diff_cb p) ||
  (3 <? h_log2_min_tb_minus2 p) || (3 <? h_log2_diff_tb p) ||
  (15 <? h_sps_max_dec_pic_buffering_minus1 p) ||
  (14 <? h_num_ref_idx_l0_minus1 p) || (14 <? h_num_ref_idx_l1_minus1 p) ||
  (7 <? h_num_extra_slice_header_bits p) ||
  (ADVC_HEVC_MAX_TILE_COLUMNS <=? h_num_tile_columns_minus1 p) ||
  (ADVC_HEVC_MAX_TILE_ROWS <=? h_num_tile_rows_minus1 p).

Definition hevc_crop_right (p : advc_hevc_parameter_input) : Z :=
  u32 (h_pic_width p - h_visible_width p) / 2.
Definition hevc_crop_bottom (p : advc_hevc_parameter_input) : Z :=
  u32 (h_pic_height p - h_visible_height p) / 2.
Definition ctb_log2 (p : advc_hevc_parameter_input) : Z :=
  u32 (u32 (h_log2_min_cb_minus3 p + 3) + h_log2_diff_cb p).
Definition ctb_size (p : advc_hevc_parameter_input) : Z := u32 (Z.shiftl 1 (ctb_log2 p)).
Definition ctb_width (p : advc_hevc_parameter_input) : Z :=
  u32 (h_pic_width p + ctb_size p - 1) / ctb_size p.
Definition ctb_height (p : advc_hevc_parameter_input) : Z :=
  u32 (h_pic_height p + ctb_size p - 1) / ctb_size p.

(** One of the two tile loops: the first [n] entries of [l] from [sum] on stay
    below [limit]. *)
Fixpoint tiles_fit (l : list Z) (n : nat) (sum limit : Z) : bool :=
  match n with
  | O => true
  | S n =>
      let sum := u32 (sum + u32 (default 0 (head l) + 1)) in
      if limit <=? sum then false else tiles_fit (tail l) n sum limit
  end.

Definition hevc_validate_parameters (p : advc_hevc_parameter_input) : Z + unit :=
  if (h_visible_width p =? 0) || (h_visible_height p =? 0) || (8192 <? h_visible_width p) ||
     (8192 <? h_visible_height p) || (h_pic_width p =? 0) || (h_pic_height p =? 0) then inl EINVAL
  else if hevc_unsupported p then inl ENOTSUP
  else if (h_pic_width p <? h_visible_width p) || (h_pic_height p <? h_visible_height p) ||
          negb (Z.land (u32 (h_pic_width p - h_visible_width p)) 1 =? 0) ||
          negb (Z.land (u32 (h_pic_height p - h_visible_height p)) 1 =? 0) then inl ENOTSUP
  else if 6 <? ctb_log2 p then inl ENOTSUP
  else if h_tiles_enabled_flag p =? 0 then
    guard_errno (negb (h_num_tile_columns_minus1 p =? 0) || negb (h_num_tile_rows_minus1 p =? 0)) ENOTSUP
  else if (ctb_width p <? u32 (h_num_tile_columns_minus1 p + 1)) ||
          (ctb_height p <? u32 (h_num_tile_rows_minus1 p + 1)) then inl ENOTSUP
  else if negb (tiles_fit (h_column_width_minus1 p) (Z.to_nat (h_num_tile_columns_minus1 p)) 0 (ctb_width p))
  then inl ENOTSUP
  else guard_errno
    (negb (tiles_fit (h_row_height_minus1 p) (Z.to_nat (h_num_tile_rows_minus1 p)) 0 (ctb_height p))) ENOTSUP.

(** ** Parameter sets *)

Record advc_hevc_codec_config := HevcConfig { hc_data : list Z; hc_pps_id : Z }.

Definition max_reorder (p : advc_hevc_parameter_input) : Z :=
  if negb (h_no_pic_reordering_flag p =? 0) then 0 else h_sps_max_dec_pic_buffering_minus1 p.

Definition vps_fields (w : bit_writer) (p : advc_hevc_parameter_input) : Z + bit_writer :=
  w ← hevc_put_bits w 0 4; w ← put_bit w 1;
  w ← put_bit w 1; w ← hevc_put_bits w 0 6;
  w ← hevc_put_bits w 0 3; w ← put_bit w 1;
  w ← hevc_put_bits w 65535 16;
  w ← put_profile_tier_level_main w;
  w ← put_bit w 0;
  w ← hevc_put_ue w (h_sps_max_dec_pic_buffering_minus1 p);
  w ← hevc_put_ue w (max_reorder p); w ← hevc_put_ue w 0;
  w ← hevc_put_bits w 0 6; w ← hevc_put_ue w 0;
  w ← put_bit w 0; put_bit w 0.

Definition hevc_cropped (p : advc_hevc_parameter_input) : bool :=
  negb (hevc_crop_right p =? 0) || negb (hevc_crop_bottom p =? 0).

Definition hevc_sps_fields (w : bit_writer) (p : advc_hevc_parameter_input) : Z + bit_writer :=
  w ← hevc_put_bits w 0 4; w ← hevc_put_bits w 0 3;
  w ← put_bit w 1; w ← put_profile_tier_level_main w;
  w ← hevc_put_ue w 0; w ← hevc_put_ue w (h_chroma_format_idc p);
  w ← hevc_put_ue w (h_pic_width p);
  w ← hevc_put_ue w (h_pic_height p);
  w ← put_bit w (Z.b2z (hevc_cropped p));
  w ← (if hevc_cropped p then
         w ← hevc_put_ue w 0; w ← hevc_put_ue w (hevc_crop_right p);
         w ← hevc_put_ue w 0; hevc_put_ue w (hevc_crop_bottom p)
       else inr w);
  w ← hevc_put_ue w (h_bit_depth_luma_minus8 p);
  w ← hevc_put_ue w (h_bit_depth_chroma_minus8 p);
  w ← hevc_put_ue w (h_log2_max_poc_lsb_minus4 p);
  w ← put_bit w 0;
  w ← hevc_put_ue w (h_sps_max_dec_pic_buffering_minus1 p);
  w ← hevc_put_ue w (max_reorder p); w ← hevc_put_ue w 0;
  w ← hevc_put_ue w (h_log2_min_cb_minus3 p);
  w ← hevc_put_ue w (h_log2_diff_cb p);
  w ← hevc_put_ue w (h_log2_min_tb_minus2 p);
  w ← hevc_put_ue w (h_log2_diff_tb p);
  w ← hevc_put_ue w (h_max_transform_hierarchy_depth_inter p);
  w ← hevc_put_ue w (h_max_transform_hierarchy_depth_intra p);
  w ← put_bit w (h_scaling_list_enabled_flag p);
  w ← put_bit w (h_amp_enabled_flag p);
  w ← put_bit w (h_sample_adaptive_offset_enabled_flag p);
  w ← put_bit w (h_pcm_enabled_flag p);
  w ← hevc_put_ue w (h_num_short_term_ref_pic_sets p);
  w ← put_bit w (h_long_term_ref_pics_present_flag p);
  w ← put_bit w (h_sps_temporal_mvp_enabled_flag p);
  w ← put_bit w (h_strong_intra_smoothing_enabled_flag p);
  w ← put_bit w 0; put_bit w 0.

(** The two loops over explicit tile sizes. *)
Fixpoint put_sizes (w : bit_writer) (l : list Z) (n : nat) : Z + bit_writer :=
  match n with
  | O => inr w
  | S n => w ← hevc_put_ue w (default 0 (head l)); put_sizes w (tail l) n
  end.

Definition tile_fields (w : bit_writer) (p : advc_hevc_parameter_input) : Z + bit_writer :=
  w ← hevc_put_ue w (h_num_tile_columns_minus1 p);
  w ← hevc_put_ue w (h_num_tile_rows_minus1 p);
  w ← put_bit w 0;
  w ← put_sizes w (h_column_width_minus1 p) (Z.to_nat (h_num_tile_columns_minus1 p));
  w ← put_sizes w (h_row_height_minus1 p) (Z.to_nat (h_num_tile_rows_minus1 p));
  put_bit w (h_loop_filter_across_tiles_enabled_flag p).

Definition hevc_pps_fields (w : bit_writer) (p : advc_hevc_parameter_input) (pps_id : Z)
  : Z + bit_writer :=
  w ← hevc_put_ue w pps_id; w ← hevc_put_ue w 0;
  w ← put_bit w (h_dependent_slice_segments_enabled_flag p);
  w ← put_bit w (h_output_flag_present_flag p);
  w ← hevc_put_bits w (h_num_extra_slice_header_bits p) 3;
  w ← put_bit w (h_sign_data_hiding_enabled_flag p);
  w ← put_bit w (h_cabac_init_present_flag p);
  w ← hevc_put_ue w (h_num_ref_idx_l0_minus1 p);
  w ← hevc_put_ue w (h_num_ref_idx_l1_minus1 p);
  w ← hevc_put_se w (h_init_qp_minus26 p);
  w ← put_bit w (h_constrained_intra_pred_flag p);
  w ← put_bit w (h_transform_skip_enabled_flag p);
  w ← put_bit w (h_cu_qp_delta_enabled_flag p);
  w ← (if negb (h_cu_qp_delta_enabled_flag p =? 0)
       then hevc_put_ue w (h_diff_cu_qp_delta_depth p) else inr w);
  w ← hevc_put_se w (h_pps_cb_qp_offset p);
  w ← hevc_put_se w (h_pps_cr_qp_offset p);
  w ← put_bit w (h_pps_slice_chroma_qp_offsets_present_flag p);
  w ← put_bit w (h_weighted_pred_flag p);
  w ← put_bit w (h_weighted_bipred_flag p);
  w ← put_bit w (h_transquant_bypass_enabled_flag p);
  w ← put_bit w (h_tiles_enabled_flag p);
  w ← put_bit w (h_entropy_coding_sync_enabled_flag p);
  w ← (if negb (h_tiles_enabled_flag p =? 0) then tile_fields w p else inr w);
  w ← put_bit w (h_pps_loop_filter_across_slices_enabled_flag p);
  w ← put_bit w 1;
  w ← put_bit w (h_deblocking_filter_override_enabled_flag p);
  w ← put_bit w (h_pps_disable_deblocking_filter_flag p);
  w ← (if h_pps_disable_deblocking_filter_flag p =? 0
       then w ← hevc_put_se w (h_pps_beta_offset_div2 p); hevc_put_se w (h_pps_tc_offset_div2 p)
       else inr w);
  w ← put_bit w 0;
  w ← put_bit w (h_lists_modification_present_flag p);
  w ← hevc_put_ue w (h_log2_parallel_merge_level_minus2 p);
  w ← put_bit w (h_slice_segment_header_extension_present_flag p);
  put_bit w 0.

(** [errno0] is the caller's errno, which the first test leaves alone. *)
Definition advc_hevc_build_codec_config (errno0 : Z) (p : advc_hevc_parameter_input) (pps_id : Z)
  : Z + advc_hevc_codec_config :=
  guard_errno (63 <? pps_id) errno0 ≫= fun _ =>
  hevc_validate_parameters p ≫= fun _ =>
  vps ← vps_fields hevc_writer p ≫= finish_rbsp;
  sps ← hevc_sps_fields hevc_writer p ≫= finish_rbsp;
  pps ← hevc_pps_fields hevc_writer p pps_id ≫= finish_rbsp;
  out ← hevc_append_nal ADVC_HEVC_MAX_CONFIG_BYTES [] 32 vps;
  out ← hevc_append_nal ADVC_HEVC_MAX_CONFIG_BYTES out 33 sps;
  out ← hevc_append_nal ADVC_HEVC_MAX_CONFIG_BYTES out 34 pps;
  inr (HevcConfig out pps_id).

(** ** Access units *)

Record advc_hevc_slice_input := HevcSlice {
  hs_data : option (list Z); hs_expected_address : Z; hs_expected_last : Z }.
Definition hevc_bytes (s : advc_hevc_slice_input) : list Z := default [] (hs_data s).

(** The first loop from slice [i] on ([first]: [i == 0]): total size, common PPS,
    whether any slice is IRAP.  A NULL or empty slice keeps the caller's errno. *)
Fixpoint hevc_check_slices (errno0 : Z) (l : list advc_hevc_slice_input) (first : bool)
    (output_size common_pps : Z) (any_irap : bool) : Z + (Z * Z * bool) :=
  match l with
  | [] => inr (output_size, common_pps, any_irap)
  | s :: l =>
      if zlen (hevc_bytes s) =? 0 then inl errno0
      else
        id ← advc_hevc_parse_slice_identity (hs_data s);
        let first_slice := negb (hi_first_slice id =? 0) in
        if negb (Bool.eqb (hs_expected_address s =? 0) first_slice) then inl EPROTO
        else if negb (Bool.eqb (bool_decide (l = [])) (negb (hs_expected_last s =? 0))) then inl EPROTO
        else if first && negb first_slice then inl EPROTO
        else if negb first && (negb (hi_pps_id id =? common_pps) || first_slice) then inl ENOTSUP
        else
          let body := zlen (hevc_bytes s) - annexb_prefix_size (hevc_bytes s) in
          if (ADVC_MAX_INPUT_BYTES - 4 <? output_size) ||
             (ADVC_MAX_INPUT_BYTES - output_size - 4 <? body) then inl EOVERFLOW
          else hevc_check_slices errno0 l false (output_size + 4 + body)
                 (if first then hi_pps_id id else common_pps)
                 (any_irap || irap (hi_nal_unit_type id))
  end.

(** The second loop. *)
Definition hevc_join (l : list advc_hevc_slice_input) : list Z :=
  concat ((fun s => [0; 0; 0; 1] ++
    drop (Z.to_nat (annexb_prefix_size (hevc_bytes s))) (hevc_bytes s)) <$> l).

(** Access unit, PPS and IRAP flag. *)
Definition advc_hevc_build_access_unit (errno0 : Z) (alloc_ok : bool)
    (slices : list advc_hevc_slice_input) : Z + (list Z * Z * bool) :=
  if (zlen slices =? 0) || (ADVC_HEVC_MAX_SLICES <? zlen slices) then inl EINVAL
  else
    '(output_size, pps, is_irap) ← hevc_check_slices errno0 slices true 0 0 false;
    if alloc_ok then inr (hevc_join slices, pps, is_irap) else inl ENOMEM.

(** ** What the writers write *)

Lemma hevc_writer_rep : @wrep 2048 hevc_writer [].
Proof.
  constructor; unfold hevc_writer; cbn [bw_data bw_bit_count length].
  - apply length_replicate.
  - done.
  - lia.
  - by intros [|k] b Hk.
  - intros i Hi. change (8 * ((Z.of_nat 0 + 7) / 8)) with 0 in Hi. lia.
  - apply Forall_replicate. wsolve.
Qed.

Lemma writes_bits64 {cap} v n : 0 <= n <= 64 ->
  @writes cap (fun w => hevc_put_bits w v n) (digits v (Z.to_nat n)).
Proof.
  intros Hn. eapply writes_ext; [|apply writes_bits_loop]. intros w. unfold hevc_put_bits.
  by destruct (Z.ltb_spec 64 n); [lia|].
Qed.

Lemma writes_ue64 {cap} v : 0 <= v <= UINT32_MAX -> @writes cap (fun w => hevc_put_ue w v) (ue_code v).
Proof.
  intros Hv. assert (0 <= Z.log2 (v + 1) <= 32) as Hl.
  { split; [apply Z.log2_nonneg|]. change 32 with (Z.log2 (2 ^ 32)). apply Z.log2_le_mono.
    unfold UINT32_MAX in Hv. lia. }
  unfold hevc_put_ue, ue_code. cbn zeta. rewrite (u64_id (v + 1)) by wsolve.
  rewrite code_bits_log2 by lia. apply writes_bind.
  - replace (Z.log2 (v + 1) + 1 - 1) with (Z.log2 (v + 1)) by lia. apply writes_zeros.
  - replace (S (Z.to_nat (Z.log2 (v + 1)))) with (Z.to_nat (Z.log2 (v + 1) + 1)) by lia.
    apply writes_bits64. lia.
Qed.

Lemma writes_se64 {cap} v : is_i8 v -> @writes cap (fun w => hevc_put_se w v) (se_code v).
Proof.
  unfold is_i8. intros Hv.
  assert (0 <= se_num v <= 256) as Hs by (unfold se_num; destruct (Z.leb_spec v 0); lia).
  eapply writes_ext; [|apply (writes_ue64 (se_num v)); unfold UINT32_MAX; lia].
  intros w. unfold hevc_put_se. cbn zeta.
  assert ((if v <=? 0 then u64 ((if v <? 0 then u64 (- v) else u64 v) * 2)
           else u64 ((if v <? 0 then u64 (- v) else u64 v) * 2 - 1)) = se_num v) as ->.
  { unfold se_num. destruct (Z.leb_spec v 0), (Z.ltb_spec v 0); try lia; wsolve. }
  destruct (Z.ltb_spec UINT32_MAX (se_num v)); [unfold UINT32_MAX in *; lia|].
  by rewrite u32_id by wsolve.
Qed.

(** *** The syntax *)

Definition ptl_bits : list bool :=
  digits 0 2 ++ [false] ++ digits 1 5 ++ digits 0x40000000 32 ++ digits 0 48 ++ digits 186 8.

Definition vps_bits (p : advc_hevc_parameter_input) : list bool :=
  digits 0 4 ++ [true] ++ [true] ++ digits 0 6 ++ digits 0 3 ++ [true] ++ digits 65535 16 ++
  ptl_bits ++ [false] ++ ue_code (h_sps_max_dec_pic_buffering_minus1 p) ++ ue_code (max_reorder p) ++
  ue_code 0 ++ digits 0 6 ++ ue_code 0 ++ [false] ++ [false].

Definition hevc_sps_bits (p : advc_hevc_parameter_input) : list bool :=
  digits 0 4 ++ digits 0 3 ++ [true] ++ ptl_bits ++ ue_code 0 ++ ue_code (h_chroma_format_idc p) ++
  ue_code (h_pic_width p) ++ ue_code (h_pic_height p) ++ [hevc_cropped p] ++
  (if hevc_cropped p then
     ue_code 0 ++ ue_code (hevc_crop_right p) ++ ue_code 0 ++ ue_code (hevc_crop_bottom p) else []) ++
  ue_code (h_bit_depth_luma_minus8 p) ++ ue_code (h_bit_depth_chroma_minus8 p) ++
  ue_code (h_log2_max_poc_lsb_minus4 p) ++ [false] ++
  ue_code (h_sps_max_dec_pic_buffering_minus1 p) ++ ue_code (max_reorder p) ++ ue_code 0 ++
  ue_code (h_log2_min_cb_minus3 p) ++ ue_code (h_log2_diff_cb p) ++
  ue_code (h_log2_min_tb_minus2 p) ++ ue_code (h_log2_diff_tb p) ++
  ue_code (h_max_transform_hierarchy_depth_inter p) ++
  ue_code (h_max_transform_hierarchy_depth_intra p) ++
  [Z.odd (h_scaling_list_enabled_flag p)] ++ [Z.odd (h_amp_enabled_flag p)] ++
  [Z.odd (h_sample_adaptive_offset_enabled_flag p)] ++ [Z.odd (h_pcm_enabled_flag p)] ++
  ue_code (h_num_short_term_ref_pic_sets p) ++ [Z.odd (h_long_term_ref_pics_present_flag p)] ++
  [Z.odd (h_sps_temporal_mvp_enabled_flag p)] ++ [Z.odd (h_strong_intra_smoothing_enabled_flag p)] ++
  [false] ++ [false].

(** The first [n] entries of an array, the missing ones zero. *)
Definition entries (l : list Z) (n : Z) : list Z :=
  (fun i => default 0 (l !! i)) <$> seq 0 (Z.to_nat n).

Definition tile_bits (p : advc_hevc_parameter_input) : list bool :=
  ue_code (h_num_tile_columns_minus1 p) ++ ue_code (h_num_tile_rows_minus1 p) ++ [false] ++
  concat (ue_code <$> entries (h_column_width_minus1 p) (h_num_tile_columns_minus1 p)) ++
  concat (ue_code <$> entries (h_row_height_minus1 p) (h_num_tile_rows_minus1 p)) ++
  [Z.odd (h_loop_filter_across_tiles_enabled_flag p)].

Definition hevc_pps_bits (p : advc_hevc_parameter_input) (pps_id : Z) : list bool :=
  ue_code pps_id ++ ue_code 0 ++ [Z.odd (h_dependent_slice_segments_enabled_flag p)] ++
  [Z.odd (h_output_flag_present_flag p)] ++ digits (h_num_extra_slice_header_bits p) 3 ++
  [Z.odd (h_sign_data_hiding_enabled_flag p)] ++ [Z.odd (h_cabac_init_present_flag p)] ++
  ue_code (h_num_ref_idx_l0_minus1 p) ++ ue_code (h_num_ref_idx_l1_minus1 p) ++
  se_code (h_init_qp_minus26 p) ++ [Z.odd (h_constrained_intra_pred_flag p)] ++
  [Z.odd (h_transform_skip_enabled_flag p)] ++ [Z.odd (h_cu_qp_delta_enabled_flag p)] ++
  (if h_cu_qp_delta_enabled_flag p =? 0 then [] else ue_code (h_diff_cu_qp_delta_depth p)) ++
  se_code (h_pps_cb_qp_offset p) ++ se_code (h_pps_cr_qp_offset p) ++
  [Z.odd (h_pps_slice_chroma_qp_offsets_present_flag p)] ++ [Z.odd (h_weighted_pred_flag p)] ++
  [Z.odd (h_weighted_bipred_flag p)] ++ [Z.odd (h_transquant_bypass_enabled_flag p)] ++
  [Z.odd (h_tiles_enabled_flag p)] ++ [Z.odd (h_entropy_coding_sync_enabled_flag p)] ++
  (if h_tiles_enabled_flag p =? 0 then [] else tile_bits p) ++
  [Z.odd (h_pps_loop_filter_across_slices_enabled_flag p)] ++ [true] ++
  [Z.odd (h_deblocking_filter_override_enabled_flag p)] ++
  [Z.odd (h_pps_disable_deblocking_filter_flag p)] ++
  (if h_pps_disable_deblocking_filter_flag p =? 0
   then se_code (h_pps_beta_offset_div2 p) ++ se_code (h_pps_tc_offset_div2 p) else []) ++
  [false] ++ [Z.odd (h_lists_modification_present_flag p)] ++
  ue_code (h_log2_parallel_merge_level_minus2 p) ++
  [Z.odd (h_slice_segment_header_extension_present_flag p)] ++ [false].

(** The widths of the C fields that are coded with ue(v) or se(v). *)
Record hevc_typed (p : advc_hevc_parameter_input) : Prop := {
  ht_visible_w : is_u32 (h_visible_width p);
  ht_visible_h : is_u32 (h_visible_height p);
  ht_width : is_u16 (h_pic_width p);
  ht_height : is_u16 (h_pic_height p);
  ht_chroma : is_u8 (h_chroma_format_idc p);
  ht_luma_depth : is_u8 (h_bit_depth_luma_minus8 p);
  ht_chroma_depth : is_u8 (h_bit_depth_chroma_minus8 p);
  ht_buffering : is_u8 (h_sps_max_dec_pic_buffering_minus1 p);
  ht_min_cb : is_u8 (h_log2_min_cb_minus3 p);
  ht_diff_cb : is_u8 (h_log2_diff_cb p);
  ht_min_tb : is_u8 (h_log2_min_tb_minus2 p);
  ht_diff_tb : is_u8 (h_log2_diff_tb p);
  ht_intra : is_u8 (h_max_transform_hierarchy_depth_intra p);
  ht_inter : is_u8 (h_max_transform_hierarchy_depth_inter p);
  ht_sets : is_u8 (h_num_short_term_ref_pic_sets p);
  ht_poc : is_u8 (h_log2_max_poc_lsb_minus4 p);
  ht_extra : is_u8 (h_num_extra_slice_header_bits p);
  ht_l0 : is_u8 (h_num_ref_idx_l0_minus1 p);
  ht_l1 : is_u8 (h_num_ref_idx_l1_minus1 p);
  ht_qp : is_i8 (h_init_qp_minus26 p);
  ht_qp_depth : is_u8 (h_diff_cu_qp_delta_depth p);
  ht_cb : is_i8 (h_pps_cb_qp_offset p);
  ht_cr : is_i8 (h_pps_cr_qp_offset p);
  ht_columns : is_u8 (h_num_tile_columns_minus1 p);
  ht_rows : is_u8 (h_num_tile_rows_minus1 p);
  ht_column_sizes : Forall is_u16 (h_column_width_minus1 p);
  ht_row_sizes : Forall is_u16 (h_row_height_minus1 p);
  ht_beta : is_i8 (h_pps_beta_offset_div2 p);
  ht_tc : is_i8 (h_pps_tc_offset_div2 p);
  ht_merge : is_u8 (h_log2_parallel_merge_level_minus2 p) }.

Lemma writes_ptl {cap} : @writes cap put_profile_tier_level_main ptl_bits.
Proof.
  unfold put_profile_tier_level_main, ptl_bits.
  apply writes_bind; [apply (writes_bits64 0 2); lia|]. apply writes_bind; [apply (writes_bit 0)|].
  apply writes_bind; [apply (writes_bits64 1 5); lia|].
  apply writes_bind; [apply (writes_bits64 0x40000000 32); lia|].
  apply writes_bind; [apply (writes_bits64 0 48); lia|]. apply (writes_bits64 186 8); lia.
Qed.

(** Discharges one step of a writer program of this file. *)
Ltac hevc_emits :=
  first [ apply (writes_bit 0) | apply (writes_bit 1) | apply writes_bit
        | apply writes_bits64; lia
        | apply writes_ue64; unfold UINT32_MAX in *; wsolve
        | apply writes_ptl | apply writes_se64; done | apply writes_nil ].
Ltac hevc_emit_all := repeat (apply writes_bind; [hevc_emits|]); try hevc_emits.

Lemma se_length_63 v : is_i8 v -> (length (se_code v) <= 63)%nat.
Proof.
  intros Hv. apply ue_length_63. unfold se_num, is_i8, UINT32_MAX in *. destruct (Z.leb_spec v 0); lia.
Qed.

Section Sets.
Context (p : advc_hevc_parameter_input) (Ht : hevc_typed p).

Lemma max_reorder_u8 : is_u8 (max_reorder p).
Proof. unfold max_reorder. destruct (negb _); [wsolve|apply Ht]. Qed.
Lemma hevc_crop_range : 0 <= hevc_crop_right p < 2 ^ 31 /\ 0 <= hevc_crop_bottom p < 2 ^ 31.
Proof. unfold hevc_crop_right, hevc_crop_bottom. wsolve. Qed.

Lemma writes_vps {cap} : @writes cap (fun w => vps_fields w p) (vps_bits p).
Proof.
  pose proof max_reorder_u8. destruct Ht. unfold vps_fields, vps_bits.
  change [true] with [Z.odd 1]. change [false] with [Z.odd 0].
  hevc_emit_all.
Qed.

Lemma writes_hevc_sps {cap} : @writes cap (fun w => hevc_sps_fields w p) (hevc_sps_bits p).
Proof.
  pose proof max_reorder_u8. pose proof hevc_crop_range as [Hcr Hcb].
  change (2 ^ 31) with 2147483648 in *. destruct Ht. unfold hevc_sps_fields, hevc_sps_bits.
  change [true] with [Z.odd 1]. change [false] with [Z.odd 0].
  do 8 (apply writes_bind; [hevc_emits|]).
  apply writes_bind; [by destruct (hevc_cropped p); [apply (writes_bit 1)|apply (writes_bit 0)]|].
  apply writes_bind; [destruct (hevc_cropped p); hevc_emit_all|]. hevc_emit_all.
Qed.

Lemma writes_sizes {cap} l n : Forall is_u16 l ->
  @writes cap (fun w => put_sizes w l (Z.to_nat n)) (concat (ue_code <$> entries l n)).
Proof.
  intros Hl. unfold entries. generalize (Z.to_nat n) as k. clear n Ht. intros k. revert l Hl.
  induction k as [|k IH]; intros l Hl; cbn [put_sizes seq fmap list_fmap concat]; [apply writes_nil|].
  assert (0 <= default 0 (head l) <= 65535) as Hh.
  { destruct Hl; cbn; [lia|]. unfold is_u16 in *. lia. }
  assert (default 0 (l !! 0%nat) = default 0 (head l)) as -> by by destruct l.
  apply writes_bind; [apply writes_ue64; unfold UINT32_MAX; lia|].
  specialize (IH (tail l) ltac:(by destruct Hl)).
  assert ((fun i : nat => default 0 (l !! i)) <$> seq 1 k =
          (fun i : nat => default 0 (tail l !! i)) <$> seq 0 k) as ->; [|exact IH].
  rewrite <- fmap_S_seq, <- list_fmap_compose. apply list_fmap_ext. intros i x _. by destruct l.
Qed.

Lemma writes_tiles {cap} : @writes cap (fun w => tile_fields w p) (tile_bits p).
Proof.
  destruct Ht. unfold tile_fields, tile_bits. change [false] with [Z.odd 0].
  do 3 (apply writes_bind; [hevc_emits|]).
  apply writes_bind; [by apply writes_sizes|]. apply writes_bind; [by apply writes_sizes|]. hevc_emits.
Qed.

Lemma writes_hevc_pps {cap} pps_id : 0 <= pps_id <= 63 ->
  @writes cap (fun w => hevc_pps_fields w p pps_id) (hevc_pps_bits p pps_id).
Proof.
  intros Hid. pose proof (@writes_tiles cap) as Hw. destruct Ht. unfold hevc_pps_fields, hevc_pps_bits.
  change [true] with [Z.odd 1]. change [false] with [Z.odd 0].
  do 13 (apply writes_bind; [hevc_emits|]).
  apply writes_bind; [destruct (_ =? 0); cbn [negb]; hevc_emits|].
  do 8 (apply writes_bind; [hevc_emits|]).
  apply writes_bind; [destruct (_ =? 0); cbn [negb]; [hevc_emits|exact Hw]|].
  do 4 (apply writes_bind; [hevc_emits|]).
  apply writes_bind; [destruct (_ =? 0); hevc_emit_all|]. hevc_emit_all.
Qed.

(** Every code has at most 63 bits; the sum bounds a parameter set. *)
Ltac code_lengths :=
  repeat (rewrite length_app || rewrite digits_length); cbn [length];
  repeat match goal with
  | |- context [length (ue_code ?v)] =>
      let H := fresh in pose proof (ue_length_63 v ltac:(unfold UINT32_MAX in *; wsolve)) as H;
      generalize dependent (length (ue_code v)); intros
  | |- context [length (se_code ?v)] =>
      let H := fresh in pose proof (se_length_63 v ltac:(done)) as H;
      generalize dependent (length (se_code v)); intros
  end.

Lemma vps_length : (length (vps_bits p) <= 500)%nat.
Proof.
  pose proof max_reorder_u8. destruct Ht. unfold vps_bits, ptl_bits. code_lengths. lia.
Qed.

Lemma hevc_sps_length : (length (hevc_sps_bits p) <= 1500)%nat.
Proof.
  pose proof max_reorder_u8. pose proof hevc_crop_range as [Hcr Hcb].
  change (2 ^ 31) with 2147483648 in *. destruct Ht. unfold hevc_sps_bits, ptl_bits.
  destruct (hevc_cropped p); code_lengths; lia.
Qed.

Lemma sizes_length l n : Forall is_u16 l ->
  (length (concat (ue_code <$> entries l n)) <= 63 * Z.to_nat n)%nat.
Proof.
  intros Hl. unfold entries.
  assert (forall k a, (length (concat (ue_code <$> ((fun i : nat => default 0%Z (l !! i)) <$> seq a k))) <= 63 * k)%nat) as H;
    [|apply H].
  induction k as [|k IH]; intros a; cbn [seq fmap list_fmap concat]; [cbn [length]; lia|].
  rewrite length_app. specialize (IH (S a)).
  assert (length (ue_code (default 0%Z (l !! a))) <= 63)%nat; [|cbn [fmap] in IH; lia].
  apply ue_length_63. destruct (l !! a) as [x|] eqn:E; cbn [default from_option id]; [|wsolve].
  pose proof (Forall_lookup_1 _ _ _ _ Hl E). wsolve.
Qed.

Lemma hevc_pps_length pps_id : 0 <= pps_id <= 63 -> h_num_tile_columns_minus1 p < 20 ->
  h_num_tile_rows_minus1 p < 22 -> (length (hevc_pps_bits p pps_id) <= 4000)%nat.
Proof.
  intros Hid Hc Hr. destruct Ht. unfold hevc_pps_bits, tile_bits.
  pose proof (sizes_length _ (h_num_tile_columns_minus1 p) ht_column_sizes0) as L1.
  pose proof (sizes_length _ (h_num_tile_rows_minus1 p) ht_row_sizes0) as L2.
  unfold is_u8 in ht_columns0, ht_rows0.
  assert (Z.to_nat (h_num_tile_columns_minus1 p) <= 19)%nat by lia.
  assert (Z.to_nat (h_num_tile_rows_minus1 p) <= 21)%nat by lia.
  revert L1 L2. generalize (concat (ue_code <$> entries (h_column_width_minus1 p) (h_num_tile_columns_minus1 p))) as k1.
  generalize (concat (ue_code <$> entries (h_row_height_minus1 p) (h_num_tile_rows_minus1 p))) as k2. intros k2 k1 L1 L2.
  destruct (h_cu_qp_delta_enabled_flag p =? 0), (h_tiles_enabled_flag p =? 0),
    (h_pps_disable_deblocking_filter_flag p =? 0); code_lengths; lia.
Qed.

(** A parameter set is written, finished and fits its writer. *)
Lemma hevc_set_written f l : @writes 2048 f l -> (length l <= 4000)%nat ->
  exists w, f hevc_writer ≫= finish_rbsp = inr w /\ @wrep 2048 w (close_rbsp l) /\
    Z.of_nat (length (close_rbsp l)) mod 8 = 0 /\ (length (close_rbsp l) <= length l + 8)%nat.
Proof.
  intros Hf Hl. destruct (Hf hevc_writer [] hevc_writer_rep) as (w1 & E1 & Hw1); [cbn [length]; lia|].
  destruct (finish_rbsp_rep w1 l Hw1) as (w2 & E2 & Hw2 & Hm); [lia|].
  exists w2. rewrite E1. split; [done|]. split; [done|]. split; [done|].
  unfold close_rbsp, trailing. rewrite length_app. cbn [length]. rewrite length_replicate.
  pose proof (Z.mod_pos_bound (- (Z.of_nat (length l) + 1)) 8). lia.
Qed.
End Sets.

(** ** The configuration *)

(** One unit of the configuration: start code, two header bytes, escaped set. *)
Definition hevc_nal (type : Z) (rbsp : list Z) : list Z :=
  [0; 0; 0; 1; type * 2; 1] ++ escape 0 rbsp.

Lemma hevc_append_spec {wcap} cap out type w l : @wrep wcap w l -> Z.of_nat (length l) mod 8 = 0 ->
  0 <= type <= 63 -> zlen out + 6 + 2 * zlen (rbsp_bytes w) <= cap ->
  hevc_append_nal cap out type w = inr (out ++ hevc_nal type (rbsp_bytes w)).
Proof.
  intros Hw Hm Ht Hc. unfold hevc_append_nal. rewrite (wr_count _ _ Hw), Hm.
  destruct (Z.ltb_spec 63 type); [lia|]. change (false || negb (0 =? 0)) with false. cbn iota.
  pose proof (escape_length 0 (rbsp_bytes w)) as He. unfold zlen in *.
  destruct (Z.ltb_spec cap (Z.of_nat (length out))); [lia|].
  destruct (Z.ltb_spec (cap - Z.of_nat (length out)) 6); [lia|]. cbn [orb].
  rewrite <- (wr_count _ _ Hw). fold (rbsp_bytes w). rewrite escape_loop_spec.
  - unfold hevc_nal. rewrite Z.shiftl_mul_pow2, u8_id by (unfold is_u8; lia). by rewrite <- app_assoc.
  - unfold zlen. rewrite length_app. cbn [length]. lia.
Qed.

Lemma validate_accepts p : hevc_validate_parameters p = inr tt ->
  h_num_tile_columns_minus1 p < 20 /\ h_num_tile_rows_minus1 p < 22 /\
  h_visible_width p <= h_pic_width p /\ h_visible_height p <= h_pic_height p /\
  Z.land (u32 (h_pic_width p - h_visible_width p)) 1 = 0 /\
  Z.land (u32 (h_pic_height p - h_visible_height p)) 1 = 0.
Proof.
  unfold hevc_validate_parameters.
  match goal with |- (if ?c then _ else _) = _ -> _ => destruct c; [done|] end.
  destruct (hevc_unsupported p) eqn:Hu; [done|].
  match goal with |- (if ?c then _ else _) = _ -> _ => destruct c eqn:Hc; [done|] end. intros _.
  unfold hevc_unsupported, ADVC_HEVC_MAX_TILE_COLUMNS, ADVC_HEVC_MAX_TILE_ROWS in Hu.
  rewrite !orb_false_iff in Hu. destruct_and! Hu. lia.
Qed.

Lemma even_half x : Z.b2z (Z.odd x) = 0 -> x = 2 * (x / 2).
Proof.
  intros H. pose proof (Zmod_odd x) as Hm. pose proof (Z.div_mod x 2). destruct (Z.odd x); [done|]. lia.
Qed.

(** For every parameter input of the supported subset the HEVC configuration
    is built (no buffer overflows) and is the three units of the stream: start
    code, NAL header of type 32, 33 or 34 in layer 0, and the escaped bytes whose
    bits are the VPS, SPS or PPS syntax of these parameters with its trailing
    bits.  The cropping of the SPS gives back the visible size. *)
Theorem hevc_config_exact errno0 p pps_id :
  hevc_typed p -> 0 <= pps_id <= 63 -> hevc_validate_parameters p = inr tt ->
  exists vps sps pps,
    advc_hevc_build_codec_config errno0 p pps_id =
      inr (HevcConfig (hevc_nal 32 vps ++ hevc_nal 33 sps ++ hevc_nal 34 pps) pps_id) /\
    bits_of_bytes vps = close_rbsp (vps_bits p) /\
    bits_of_bytes sps = close_rbsp (hevc_sps_bits p) /\
    bits_of_bytes pps = close_rbsp (hevc_pps_bits p pps_id) /\
    h_pic_width p - 2 * hevc_crop_right p = h_visible_width p /\
    h_pic_height p - 2 * hevc_crop_bottom p = h_visible_height p.
Proof.
  intros Ht Hid Hv. destruct (validate_accepts p Hv) as (Hc & Hr & Hw & Hh & Ew & Eh).
  pose proof (vps_length p Ht) as L1. pose proof (hevc_sps_length p Ht) as L2.
  pose proof (hevc_pps_length p Ht pps_id Hid Hc Hr) as L3.
  destruct (hevc_set_written (fun w => vps_fields w p) _ (writes_vps p Ht)) as (wv & E1 & W1 & M1 & N1); [lia|].
  destruct (hevc_set_written (fun w => hevc_sps_fields w p) _ (writes_hevc_sps p Ht)) as (ws & E2 & W2 & M2 & N2); [lia|].
  destruct (hevc_set_written (fun w => hevc_pps_fields w p pps_id) _ (writes_hevc_pps p Ht pps_id Hid))
    as (wp & E3 & W3 & M3 & N3); [lia|].
  destruct (rbsp_bytes_spec wv _ W1 M1) as (B1 & _ & S1). destruct (rbsp_bytes_spec ws _ W2 M2) as (B2 & _ & S2).
  destruct (rbsp_bytes_spec wp _ W3 M3) as (B3 & _ & S3).
  exists (rbsp_bytes wv), (rbsp_bytes ws), (rbsp_bytes wp). split.
  - unfold advc_hevc_build_codec_config, guard_errno. destruct (Z.ltb_spec 63 pps_id); [lia|].
    rewrite Hv, E1, E2, E3. cbn [mbind res_bind].
    pose proof (escape_length 0 (rbsp_bytes wv)). pose proof (escape_length 0 (rbsp_bytes ws)).
    assert (forall t r, zlen (hevc_nal t r) = 6 + zlen (escape 0 r)) as Hn.
    { intros t r. unfold hevc_nal, zlen. rewrite length_app. cbn [length]. lia. }
    unfold ADVC_HEVC_MAX_CONFIG_BYTES.
    rewrite (hevc_append_spec _ [] 32 wv _ W1 M1) by (unfold zlen in *; cbn [length]; lia). cbn [mbind res_bind app].
    rewrite (hevc_append_spec _ _ 33 ws _ W2 M2) by (rewrite ?Hn; unfold zlen in *; lia). cbn [mbind res_bind].
    rewrite (hevc_append_spec _ _ 34 wp _ W3 M3).
    + cbn [mbind res_bind]. by rewrite <- app_assoc.
    + lia.
    + unfold zlen in *. rewrite length_app. pose proof (Hn 32 (rbsp_bytes wv)). pose proof (Hn 33 (rbsp_bytes ws)). lia.
  - split; [done|]. split; [done|]. split; [done|]. destruct Ht.
    unfold hevc_crop_right, hevc_crop_bottom.
    rewrite u32_id in Ew, Eh |- * by (unfold is_u16, is_u32 in *; lia).
    rewrite u32_id by (unfold is_u16, is_u32 in *; lia).
    rewrite land_1_odd in Ew, Eh.
    pose proof (even_half _ Ew). pose proof (even_half _ Eh). lia.
Qed.

(** ** Slices *)

(** A slice segment of layer 0 and temporal layer 0 behind a start code or none. *)
Definition hevc_slice_nal (sc : list Z) (type : Z) (rbsp : list Z) : list Z :=
  sc ++ type * 2 :: 1 :: escape 0 rbsp.

Lemma hevc_prefix_size sc h tail : start_code sc -> annexb_prefix_size (sc ++ h :: 1 :: tail) = zlen sc.
Proof.
  intros Hsc. unfold annexb_prefix_size. destruct Hsc as [-> | [-> | ->]]; cbn [app].
  - change (byte_at (h :: 1 :: tail) 1) with 1. by rewrite !andb_false_r.
  - change (byte_at (0 :: 0 :: 1 :: h :: 1 :: tail) 2) with 1. rewrite andb_false_r. cbn [andb].
    rewrite (proj2 (Z.leb_le 3 _)); [done|]. unfold zlen. cbn [length]. lia.
  - rewrite (proj2 (Z.leb_le 4 _)); [done|]. unfold zlen. cbn [length]. lia.
Qed.

Lemma escape_nonempty z rbsp : rbsp <> [] -> escape z rbsp <> [].
Proof. destruct rbsp; [done|]. cbn [escape]. by destruct (_ && _). Qed.

Lemma hevc_init_spec sc type rbsp : start_code sc -> 0 <= type <= 31 -> rbsp <> [] ->
  hevc_init_slice_reader (Some (hevc_slice_nal sc type rbsp)) = inr (Reader (take 128 rbsp) 0, type, 1).
Proof.
  intros Hsc Ht Hr. unfold hevc_init_slice_reader, hevc_slice_nal. cbn zeta. rewrite hevc_prefix_size by done.
  set (data := sc ++ type * 2 :: 1 :: escape 0 rbsp).
  assert (zlen data = zlen sc + 2 + zlen (escape 0 rbsp)) as Hl.
  { unfold data, zlen. rewrite length_app. cbn [length]. lia. }
  assert (0 < zlen (escape 0 rbsp)) as He.
  { pose proof (escape_nonempty 0 rbsp Hr). destruct (escape 0 rbsp); [done|]. unfold zlen. cbn [length]. lia. }
  assert (byte_at data (zlen sc) = type * 2) as ->.
  { unfold data, byte_at, zlen. rewrite Nat2Z.id, lookup_app_r, Nat.sub_diag by lia. cbn. apply u8_id. unfold is_u8. lia. }
  assert (byte_at data (zlen sc + 1) = 1) as ->.
  { unfold data, byte_at, zlen. rewrite lookup_app_r by lia.
    by replace (Z.to_nat (Z.of_nat (length sc) + 1) - length sc)%nat with 1%nat by lia. }
  rewrite (proj2 (Z.ltb_ge _ 3)) by lia.
  assert (Z.land (type * 2) 128 = 0 /\ Z.land (Z.shiftr (type * 2) 1) 63 = type /\ Z.land (type * 2) 1 = 0) as (-> & -> & ->).
  { assert (is_u8 type) as Hb by (unfold is_u8; lia).
    pose proof (byte_cases (fun t => (31 <? t) || ((Z.land (t * 2) 128 =? 0) && (Z.land (Z.shiftr (t * 2) 1) 63 =? t) &&
      (Z.land (t * 2) 1 =? 0))) ltac:(by vm_compute) type Hb) as H. cbn beta in H. lia. }
  rewrite (proj2 (Z.ltb_ge 31 type)) by lia. cbn [negb orb Z.eqb Z.shiftl Z.shiftr Z.lor Z.land].
  change (negb (Z.lor (Z.shiftl 0 5) (Z.shiftr 1 3) =? 0)) with false.
  change (negb (Z.land 1 7 =? 1)) with false. cbn [orb].
  assert (drop (Z.to_nat (zlen sc + 2)) data = escape 0 rbsp) as ->.
  { unfold data. replace (Z.to_nat (zlen sc + 2)) with (length sc + 2)%nat by (unfold zlen; lia).
    by rewrite <- drop_drop, drop_app_length. }
  rewrite unescape_spec by (cbn [length]; lia). cbn [app].
  destruct (Z.eqb_spec (zlen (take 128 rbsp)) 0) as [H|_]; [|done].
  unfold zlen in H. rewrite length_take in H. destruct rbsp; [done|]. cbn [length] in H. lia.
Qed.

(** slice_segment_header up to slice_pic_parameter_set_id. *)
Definition slice_header_bits (type : Z) (first prior : bool) (pps : Z) : list bool :=
  [first] ++ (if irap type then [prior] else []) ++ ue_code pps.

(** The HEVC slice parser reads what the bitstream says: for a slice segment
    of the base layer behind either start code or none, whose RBSP begins with
    the header of these values, whatever emulation prevention inserted, exactly they
    come back (the second flag only in an IRAP picture), or ENOTSUP when the PPS
    identifier is above 63. *)
Theorem hevc_identity_exact sc type rbsp first prior pps rest :
  start_code sc -> 0 <= type <= 31 -> 0 <= pps < UINT32_MAX ->
  bits_of_bytes rbsp = slice_header_bits type first prior pps ++ rest ->
  advc_hevc_parse_slice_identity (Some (hevc_slice_nal sc type rbsp)) =
    if 63 <? pps then inl ENOTSUP
    else inr (HevcIdentity pps type (Z.b2z first) (if irap type then Z.b2z prior else 0) 1).
Proof.
  intros Hsc Ht Hp Hbits. pose proof (ue_length_63 pps Hp) as Hlp.
  assert (length (slice_header_bits type first prior pps) <= 65)%nat as Hl.
  { unfold slice_header_bits. rewrite !length_app. destruct (irap type); cbn [length]; lia. }
  destruct (holds_reader rbsp _ rest Hbits ltac:(lia)) as [Hh Hlen].
  unfold advc_hevc_parse_slice_identity. rewrite hevc_init_spec; [|done|done|by intros ->].
  cbn [mbind res_bind]. unfold slice_header_bits in Hh, Hlen.
  apply holds_app in Hh as [Hf Hh]. apply holds_app in Hh as [Hr Hu]. rewrite !length_app in Hlen.
  rewrite (reads_bit _ first 0 Hf) by (cbn [length] in *; lia). cbn [mbind res_bind].
  destruct (irap type); cbn [length] in *.
  - rewrite (reads_bit _ prior _ Hr) by (cbn [length] in *; lia). cbn [mbind res_bind length].
    rewrite (read_ue_spec _ _ pps Hp Hu) by lia. cbn [mbind res_bind].
    by destruct (63 <? pps), first, prior.
  - rewrite Z.add_0_r in Hu. cbn [mbind res_bind]. rewrite (read_ue_spec _ _ pps Hp Hu) by lia. cbn [mbind res_bind].
    by destruct (63 <? pps), first.
Qed.

(** ** Access units *)

(** What the checks establish about slice [i] of [n]. *)
Record hevc_slice_checked (pps : Z) (is_first is_last : bool) (s : advc_hevc_slice_input) (ir : bool) : Prop := {
  hk_parsed : exists id, advc_hevc_parse_slice_identity (hs_data s) = inr id /\ hi_pps_id id = pps /\
    irap (hi_nal_unit_type id) = ir /\ negb (hi_first_slice id =? 0) = is_first;
  hk_address : (hs_expected_address s =? 0) = is_first;
  hk_last : negb (hs_expected_last s =? 0) = is_last }.

(** Every slice of the list is checked; only the first is the first of its
    picture, only the last the last. *)
Fixpoint hevc_all_checked (pps : Z) (is_first : bool) (l : list advc_hevc_slice_input)
    (flags : list bool) : Prop :=
  match l, flags with
  | [], [] => True
  | s :: l, ir :: flags =>
      hevc_slice_checked pps is_first (bool_decide (l = [])) s ir /\ hevc_all_checked pps false l flags
  | _, _ => False
  end.

Lemma prefix_body data : zlen data - annexb_prefix_size data =
  zlen (drop (Z.to_nat (annexb_prefix_size data)) data).
Proof.
  unfold zlen at 2. rewrite length_drop. unfold annexb_prefix_size, zlen.
  destruct (Z.leb_spec 4 (Z.of_nat (length data))), (Z.leb_spec 3 (Z.of_nat (length data)));
    cbn [andb]; repeat match goal with |- context [if ?c then _ else _] => destruct c end; lia.
Qed.

Lemma hevc_check_slices_spec errno0 l : forall first size pps ir size' pps' ir',
  hevc_check_slices errno0 l first size pps ir = inr (size', pps', ir') ->
  size' = size + zlen (hevc_join l) /\ (l <> [] -> size' <= ADVC_MAX_INPUT_BYTES) /\
  (first = false -> pps' = pps) /\
  exists flags, ir' = (ir || existsb id flags) /\ hevc_all_checked pps' first l flags.
Proof.
  induction l as [|s l IH]; intros first size pps ir size' pps' ir' H; cbn [hevc_check_slices] in H.
  - injection H as <- <- <-. split; [unfold zlen; cbn; lia|]. split; [done|]. split; [done|].
    exists []. by rewrite orb_false_r.
  - destruct (zlen (hevc_bytes s) =? 0); [done|].
    destruct (advc_hevc_parse_slice_identity (hs_data s)) as [e|id] eqn:Hid; [done|]. cbn [mbind res_bind] in H.
    cbn zeta in H. set (fs := negb (hi_first_slice id =? 0)) in *.
    destruct (Bool.eqb _ fs) eqn:E1 in H; cbn [negb] in H; [|done]. apply eqb_prop in E1.
    destruct (Bool.eqb (bool_decide (l = [])) _) eqn:E2 in H; cbn [negb] in H; [|done]. apply eqb_prop in E2.
    destruct (first && negb fs) eqn:E3; [done|].
    destruct (negb first && _) eqn:E4 in H; [done|].
    assert (fs = first) as Efs.
    { destruct first, fs; try done. by rewrite orb_true_r in E4. }
    rewrite prefix_body in H.
    set (body := drop (Z.to_nat (annexb_prefix_size (hevc_bytes s))) (hevc_bytes s)) in *.
    destruct (_ || _) eqn:Hb in H; [done|]. apply orb_false_iff in Hb as [Hb1%Z.ltb_ge Hb2%Z.ltb_ge].
    apply IH in H as (Hsz & Hmax & Hpps & flags & Hir & Hall). specialize (Hpps eq_refl).
    assert (zlen (hevc_join (s :: l)) = 4 + zlen body + zlen (hevc_join l)) as Hjoin.
    { unfold hevc_join. cbn [fmap list_fmap concat]. unfold zlen. rewrite !length_app. cbn [length]. fold body. lia. }
    split; [lia|]. split.
    { intros _. destruct l as [|s' l]; [|by apply Hmax]. unfold hevc_join, zlen in Hsz. cbn in Hsz.
      rewrite Hsz. unfold zlen in *. lia. }
    split; [intros ->; done|]. exists (irap (hi_nal_unit_type id) :: flags). split.
    { rewrite Hir. cbn. by rewrite orb_assoc. }
    split; [|done]. constructor; [|by rewrite E1|by rewrite E2]. exists id. split; [done|].
    split; [|by split]. destruct first; [done|]. cbn [negb andb] in E4. apply orb_false_iff in E4 as [E4 _]. lia.
Qed.

(** C40. An accepted HEVC access unit is exactly its slices: every slice with its
    own start code replaced by the four-byte one, in order, within the input limit
    of the codec session.  Every slice was parsed and refers to the one PPS
    returned; the first slice, and no other, starts the picture in the bitstream
    and in the caller's parameters, the last and no other is marked last; the
    unit is a random access point exactly when some slice is. *)
Theorem hevc_access_unit_exact errno0 alloc slices data pps ir :
  advc_hevc_build_access_unit errno0 alloc slices = inr (data, pps, ir) ->
  data = hevc_join slices /\ 0 < zlen data <= ADVC_MAX_INPUT_BYTES /\
  0 < zlen slices <= ADVC_HEVC_MAX_SLICES /\
  exists flags, ir = existsb id flags /\ hevc_all_checked pps true slices flags.
Proof.
  intros H. unfold advc_hevc_build_access_unit in H. destruct (_ || _) eqn:Hn in H; [done|].
  apply orb_false_iff in Hn as [Hn1%Z.eqb_neq Hn2%Z.ltb_ge].
  destruct (hevc_check_slices errno0 slices true 0 0 false) as [e|[[size pps'] ir']] eqn:Hc; [done|].
  cbn [mbind res_bind] in H. destruct alloc; [|done]. injection H as <- <- <-.
  assert (slices <> []) as Hne by (by intros ->).
  destruct (hevc_check_slices_spec _ _ _ _ _ _ _ _ _ Hc) as (Hs & Hmax & _ & flags & Hir & Hall).
  specialize (Hmax Hne). split; [done|]. split.
  - split; [|lia]. destruct slices; [done|]. unfold hevc_join, zlen. cbn. lia.
  - split; [unfold zlen in *; lia|]. by exists flags.
Qed.

(** ** Examples *)

(** 1920x1080 in 64x64 coding tree blocks, two tile columns. *)
Definition hevc_hd : advc_hevc_parameter_input :=
  HevcParams 1920 1080 1920 1088 1 0 0 0 4 0 0 3 0 3 1 1 0 1 1 0 1 0 0 0 1 4
    0 0 0 0 0 0 0 0 0 0 1 1 0 0 0 0 0 0 1 0 1 0 [14] [] 1 1 0 0 0 0 0 0 0.

Lemma hevc_hd_typed : hevc_typed hevc_hd.
Proof. constructor; cbn; unfold is_u8, is_u16, is_u32, is_i8; try lia; repeat constructor; lia. Qed.

Lemma hevc_config_exact_witness : exists vps sps pps,
  advc_hevc_build_codec_config 0 hevc_hd 0 =
    inr (HevcConfig (hevc_nal 32 vps ++ hevc_nal 33 sps ++ hevc_nal 34 pps) 0) /\
  bits_of_bytes sps = close_rbsp (hevc_sps_bits hevc_hd) /\
  h_pic_height hevc_hd - 2 * hevc_crop_bottom hevc_hd = 1080.
Proof.
  destruct (hevc_config_exact 0 hevc_hd 0 hevc_hd_typed ltac:(lia) ltac:(vm_compute; reflexivity))
    as (vps & sps & pps & E & _ & Hs & _ & _ & Hh).
  exists vps, sps, pps. split; [exact E|]. split; [exact Hs|exact Hh].
Defined.

(** An IDR slice that refers to PPS 0. *)
Definition hevc_slices : list advc_hevc_slice_input :=
  [HevcSlice (Some [0; 0; 1; 0x26; 1; 0xaf; 0x80]) 0 1].

Lemma hevc_identity_exact_witness :
  advc_hevc_parse_slice_identity (Some (hevc_slice_nal [0; 0; 1] 19 [0xaf; 0x80])) =
    inr (HevcIdentity 0 19 1 0 1).
Proof.
  apply (hevc_identity_exact [0; 0; 1] 19 [0xaf; 0x80] true false 0
    [false; true; true; true; true; true; false; false; false; false; false; false; false]);
    [right; left; reflexivity|lia|unfold UINT32_MAX; lia|vm_compute; reflexivity].
Defined.

Lemma hevc_access_unit_exact_witness :
  hevc_join hevc_slices = [0; 0; 0; 1; 0x26; 1; 0xaf; 0x80] /\
  exists flags, true = existsb id flags /\ hevc_all_checked 0 true hevc_slices flags.
Proof.
  destruct (hevc_access_unit_exact 0 true hevc_slices [0; 0; 0; 1; 0x26; 1; 0xaf; 0x80] 0 true
    ltac:(vm_compute; reflexivity)) as (E & _ & _ & H).
  split; [symmetry; exact E|exact H].
Defined.
