(* ===== verification/Av1.v ===== *)
(** * AV1 access units (src/src/vaapi_advc/advc_vaapi_decode_av1.c)

    One frame that arrives as size-delimited OBUs is passed on as it is; one
    temporal unit of the Annex-B format is unwrapped into size-delimited OBUs.  Every
    OBU is checked on the way, and every tile has to lie in the payload of one.
    [inl e] is a return of -1 with [errno = e]; [inl 0] a return of -1 that leaves
    [errno] alone, which is 0 when a stream is parsed.  Buffers hold bytes and their
    size is their length. *)

From stdpp Require Import base list.
From Stdlib Require Import ZArith Lia Bool.
From S2P Require Import Prelude Kernel Protocol AnnexB.

Definition E2BIG : Z := 7.
Definition ADVC_AV1_MAX_TILES : Z := 512.
Definition ADVC_AV1_MAX_OBUS : Z := 1024.

Definition ADVC_AV1_OBU_SEQUENCE_HEADER : Z := 1.
Definition ADVC_AV1_OBU_TEMPORAL_DELIMITER : Z := 2.
Definition ADVC_AV1_OBU_FRAME_HEADER : Z := 3.
Definition ADVC_AV1_OBU_TILE_GROUP : Z := 4.
Definition ADVC_AV1_OBU_METADATA : Z := 5.
Definition ADVC_AV1_OBU_FRAME : Z := 6.
Definition ADVC_AV1_OBU_PADDING : Z := 15.

Definition VA_SLICE_DATA_FLAG_ALL : Z := 0.

(** The fields of VADecPictureParameterBufferAV1 and VASliceParameterBufferAV1 that
    are read. *)
Record av1_picture := Av1Picture {
  ap_profile : Z; ap_bit_depth_idx : Z; ap_still_picture : Z; ap_mono_chrome : Z;
  ap_subsampling_x : Z; ap_subsampling_y : Z; ap_large_scale_tile : Z; ap_frame_type : Z;
  ap_show_frame : Z; ap_anchor_frames_num : Z; ap_frame_width_minus1 : Z;
  ap_frame_height_minus1 : Z; ap_tile_cols : Z; ap_tile_rows : Z }.
Record av1_tile := Av1Tile {
  at_slice_data_size : Z; at_slice_data_offset : Z; at_slice_data_flag : Z; at_tile_row : Z;
  at_tile_column : Z }.

(** [payloads] and its count are a list. *)
Record parse_state := ParseState {
  ps_obu_count : Z; ps_tile_group_count : Z; ps_sequence_seen : bool;
  ps_reduced_known : bool; ps_reduced : bool; ps_frame_header_seen : bool;
  ps_frame_obu_seen : bool; ps_complete_frame : bool; ps_payloads : list (Z * Z) }.
(** The state after the [memset]. *)
Definition blank_state : parse_state := ParseState 0 0 false false false false false false [].

Record av1_obu := Obu {
  ob_header : Z; ob_type : Z; ob_extension : Z; ob_header_size : Z; ob_payload_offset : Z;
  ob_payload_size : Z }.

Definition add_size (left right : Z) : Z + Z :=
  if SIZE_MAX - right <? left then inl EOVERFLOW else inr (left + right).

(** ** LEB128 *)

(** The loop from byte [i] on, [n] bytes at most: consumed and value. *)
Fixpoint leb128_loop (n : nat) (i decoded : Z) (data : list Z) : Z + (Z * Z) :=
  match n with
  | O => inl EPROTO
  | S n =>
      match data with
      | [] => inl EPROTO
      | byte :: data =>
          let decoded := Z.lor decoded (u64 (Z.shiftl (Z.land byte 0x7f) (7 * i))) in
          if Z.land byte 0x80 =? 0 then
            if SIZE_MAX <? decoded then inl EOVERFLOW else inr (i + 1, decoded)
          else leb128_loop n (i + 1) decoded data
      end
  end.
Definition read_leb128 (data : list Z) : Z + (Z * Z) := leb128_loop 8 0 0 data.

(** A [size_t] takes ten bytes at most. *)
Definition leb128_fuel : nat := 10.
Fixpoint leb128_size_loop (fuel : nat) (value bytes : Z) : Z :=
  match fuel with
  | O => bytes
  | S fuel => if 0x80 <=? value then leb128_size_loop fuel (Z.shiftr value 7) (bytes + 1) else bytes
  end.
Definition leb128_size (value : Z) : Z := leb128_size_loop leb128_fuel value 1.

(** The bytes written. *)
Fixpoint write_leb128_loop (fuel : nat) (value : Z) : list Z :=
  match fuel with
  | O => []
  | S fuel =>
      let byte := Z.land value 0x7f in
      let value := Z.shiftr value 7 in
      if negb (value =? 0) then Z.lor byte 0x80 :: write_leb128_loop fuel value else [byte]
  end.
Definition write_leb128 (value : Z) : list Z := write_leb128_loop leb128_fuel value.

(** ** OBUs *)

(** The OBU that is exactly [data]. *)
Definition parse_obu (data : list Z) (absolute_offset : Z) (annex_b : bool) : Z + av1_obu :=
  let size := zlen data in
  if size =? 0 then inl EINVAL
  else
    let header := byte_at data 0 in
    if negb (Z.land header 0x81 =? 0) then inl EPROTO
    else
      let extension := Z.land (Z.shiftr header 2) 1 in
      header_size ← (if negb (extension =? 0) then
                       if size <=? 1 then inl EPROTO
                       else if negb (byte_at data 1 =? 0) then inl ENOTSUP else inr 2
                     else inr 1);
      '(cursor, payload_size) ←
        (if negb (Z.land header 2 =? 0) then
           '(field_size, payload_size) ← read_leb128 (drop (Z.to_nat header_size) data);
           if (size - header_size <? field_size) ||
              negb (payload_size =? size - header_size - field_size) then inl EPROTO
           else inr (header_size + field_size, payload_size)
         else if negb annex_b then inl ENOTSUP
         else inr (header_size, size - header_size));
      if SIZE_MAX - cursor <? absolute_offset then inl EOVERFLOW
      else inr (Obu header (Z.land (Z.shiftr header 3) 15) extension header_size
                  (absolute_offset + cursor) payload_size).

(** The new bit offset and the bit. *)
Definition read_payload_bit (payload : list Z) (bit_offset : Z) : Z + (Z * Z) :=
  if u64 (zlen payload * 8) <=? bit_offset then inl EPROTO
  else inr (bit_offset + 1,
            Z.land (Z.shiftr (byte_at payload (bit_offset / 8)) (7 - bit_offset mod 8)) 1).

Fixpoint read_payload_bits_loop (count : nat) (payload : list Z) (bit_offset result : Z) : Z + (Z * Z) :=
  match count with
  | O => inr (bit_offset, result)
  | S count =>
      '(bit_offset, bit) ← read_payload_bit payload bit_offset;
      read_payload_bits_loop count payload bit_offset (Z.lor (u32 (Z.shiftl result 1)) bit)
  end.
Definition read_payload_bits (payload : list Z) (bit_offset : Z) (count : nat) : Z + (Z * Z) :=
  if (32 <? count)%nat then inl EINVAL else read_payload_bits_loop count payload bit_offset 0.

Definition put_reduced (reduced : bool) (s : parse_state) : parse_state :=
  ParseState (ps_obu_count s) (ps_tile_group_count s) (ps_sequence_seen s) true reduced
    (ps_frame_header_seen s) (ps_frame_obu_seen s) (ps_complete_frame s) (ps_payloads s).

Section Parse.
Context (picture : av1_picture).

Definition check_sequence_prefix (s : parse_state) (payload : list Z) : Z + parse_state :=
  '(o, profile) ← read_payload_bits payload 0 3;
  '(o, still_picture) ← read_payload_bit payload o;
  '(_, reduced) ← read_payload_bit payload o;
  if negb (profile =? ap_profile picture) || negb (profile =? 0) then inl ENOTSUP
  else if negb (still_picture =? ap_still_picture picture) ||
          (negb (reduced =? 0) && (still_picture =? 0)) then inl EPROTO
  else inr (put_reduced (negb (reduced =? 0)) s).

Definition check_frame_prefix (s : parse_state) (payload : list Z) : Z + parse_state :=
  s ← (if ps_reduced_known s then inr s
       else if negb (ap_still_picture picture =? 0) then inl ENOTSUP
       else inr (put_reduced false s));
  '(frame_type, show_frame) ←
    (if ps_reduced s then inr (0, 1)
     else
       '(o, show_existing) ← read_payload_bit payload 0;
       if negb (show_existing =? 0) then inl ENOTSUP
       else
         '(o, frame_type) ← read_payload_bits payload o 2;
         '(_, show_frame) ← read_payload_bit payload o;
         inr (frame_type, show_frame));
  if negb (frame_type =? ap_frame_type picture) || negb (show_frame =? ap_show_frame picture)
  then inl EPROTO else inr s.

Definition count_obu (s : parse_state) : parse_state :=
  ParseState (ps_obu_count s + 1) (ps_tile_group_count s) (ps_sequence_seen s) (ps_reduced_known s)
    (ps_reduced s) (ps_frame_header_seen s) (ps_frame_obu_seen s) (ps_complete_frame s) (ps_payloads s).
Definition see_sequence (s : parse_state) : parse_state :=
  ParseState (ps_obu_count s) (ps_tile_group_count s) true (ps_reduced_known s)
    (ps_reduced s) (ps_frame_header_seen s) (ps_frame_obu_seen s) (ps_complete_frame s) (ps_payloads s).
Definition see_frame_header (s : parse_state) : parse_state :=
  ParseState (ps_obu_count s) (ps_tile_group_count s) (ps_sequence_seen s) (ps_reduced_known s)
    (ps_reduced s) true (ps_frame_obu_seen s) (ps_complete_frame s) (ps_payloads s).
Definition add_tile_group (span : Z * Z) (s : parse_state) : parse_state :=
  ParseState (ps_obu_count s) (ps_tile_group_count s + 1) (ps_sequence_seen s) (ps_reduced_known s)
    (ps_reduced s) (ps_frame_header_seen s) (ps_frame_obu_seen s) true (ps_payloads s ++ [span]).
Definition see_frame (span : Z * Z) (s : parse_state) : parse_state :=
  ParseState (ps_obu_count s) (ps_tile_group_count s) (ps_sequence_seen s) (ps_reduced_known s)
    (ps_reduced s) (ps_frame_header_seen s) true true [span].

Definition observe_obu (s : parse_state) (obu : av1_obu) (payload : list Z) : Z + parse_state :=
  if ADVC_AV1_MAX_OBUS <=? ps_obu_count s then inl E2BIG
  else
    let s := count_obu s in
    let type := ob_type obu in
    let span := (ob_payload_offset obu, ob_payload_offset obu + ob_payload_size obu) in
    let started := ps_frame_header_seen s || ps_frame_obu_seen s in
    let begun := started || negb (ps_tile_group_count s =? 0) in
    if type =? ADVC_AV1_OBU_SEQUENCE_HEADER then
      if ps_sequence_seen s || started then inl ENOTSUP
      else s ← check_sequence_prefix s payload; inr (see_sequence s)
    else if type =? ADVC_AV1_OBU_TEMPORAL_DELIMITER then
      if negb (ob_payload_size obu =? 0) || begun then inl EPROTO else inr s
    else if type =? ADVC_AV1_OBU_FRAME_HEADER then
      if begun then inl 0 else s ← check_frame_prefix s payload; inr (see_frame_header s)
    else if type =? ADVC_AV1_OBU_TILE_GROUP then
      if negb (ps_frame_header_seen s) || ps_frame_obu_seen s || (ADVC_AV1_MAX_TILES <=? zlen (ps_payloads s))
      then inl ENOTSUP else inr (add_tile_group span s)
    else if type =? ADVC_AV1_OBU_FRAME then
      if begun then inl 0 else s ← check_frame_prefix s payload; inr (see_frame span s)
    else if type =? ADVC_AV1_OBU_METADATA then
      if begun then inl ENOTSUP else inr s
    else if type =? ADVC_AV1_OBU_PADDING then inr s
    else inl ENOTSUP.

Definition finish_parse (s : parse_state) : Z + unit :=
  if negb (ps_complete_frame s) || (zlen (ps_payloads s) =? 0) ||
     (ps_frame_header_seen s && (ps_tile_group_count s =? 0)) then inl ENOTSUP else inr tt.

(** ** The two formats *)

(** The payload of an OBU in the whole input. *)
Definition payload_in (data : list Z) (obu : av1_obu) : list Z :=
  take (Z.to_nat (ob_payload_size obu)) (drop (Z.to_nat (ob_payload_offset obu)) data).

(** Not an errno: a loop ran out of fuel. *)
Definition OUT_OF_FUEL : Z := -1.

(** The extent of the OBU at the start of [rest]. *)
Definition raw_extent (rest : list Z) : Z + Z :=
  let header := byte_at rest 0 in
  let header_size := 1 + Z.land (Z.shiftr header 2) 1 in
  if (zlen rest <=? header_size) || (Z.land header 2 =? 0) then inl 0
  else
    '(field_size, payload_size) ← read_leb128 (drop (Z.to_nat header_size) rest);
    obu_size ← add_size header_size field_size;
    obu_size ← add_size obu_size payload_size;
    if zlen rest <? obu_size then inl 0 else inr obu_size.

Fixpoint raw_loop (fuel : nat) (data : list Z) (offset : Z) (s : parse_state) : Z + parse_state :=
  if offset <? zlen data then
    match fuel with
    | O => inl OUT_OF_FUEL
    | S fuel =>
        let rest := drop (Z.to_nat offset) data in
        obu_size ← raw_extent rest;
        obu ← parse_obu (take (Z.to_nat obu_size) rest) offset false;
        s ← observe_obu s obu (payload_in data obu);
        raw_loop fuel data (offset + obu_size) s
    end
  else inr s.
Definition parse_raw_obus (data : list Z) : Z + parse_state :=
  s ← raw_loop (length data) data 0 blank_state; finish_parse s;; inr s.

(** The OBU with a size field, as it is written at the output. *)
Definition write_obu (data : list Z) (cursor : Z) (obu : av1_obu) : list Z :=
  Z.lor (ob_header obu) 2 :: (if ob_header_size obu =? 2 then [byte_at data (cursor + 1)] else []) ++
  write_leb128 (ob_payload_size obu) ++ payload_in data obu.

(** [output]: its capacity, [None] for NULL.  State, size and the bytes written. *)
Fixpoint annex_b_loop (fuel : nat) (data : list Z) (fu_end cursor : Z) (output : option Z)
    (s : parse_state) (out_size : Z) (out : list Z) : Z + (parse_state * Z * list Z) :=
  if cursor <? fu_end then
    match fuel with
    | O => inl OUT_OF_FUEL
    | S fuel =>
        '(length_field, obu_size) ← read_leb128 (take (Z.to_nat (fu_end - cursor)) (drop (Z.to_nat cursor) data));
        if (fu_end - cursor <? length_field) || (obu_size =? 0) || (fu_end - cursor - length_field <? obu_size)
        then inl 0
        else
          let cursor := cursor + length_field in
          obu ← parse_obu (take (Z.to_nat obu_size) (drop (Z.to_nat cursor) data)) cursor true;
          s ← observe_obu s obu (payload_in data obu);
          let size_field := leb128_size (ob_payload_size obu) in
          normalized ←
            match add_size (ob_header_size obu) size_field with
            | inl _ => inl E2BIG
            | inr n =>
                match add_size n (ob_payload_size obu) with
                | inl _ => inl E2BIG
                | inr n => if u64 (ADVC_MAX_INPUT_BYTES - n) <? out_size then inl E2BIG else inr n
                end
            end;
          out ← match output with
                | None => inr out
                | Some capacity =>
                    if (capacity <? out_size) || (capacity - out_size <? normalized) then inl EOVERFLOW
                    else inr (out ++ write_obu data cursor obu)
                end;
          annex_b_loop fuel data fu_end (cursor + obu_size) output s (out_size + normalized) out
    end
  else if negb (cursor =? fu_end) then inl 0 else inr (s, out_size, out).

Definition parse_annex_b (data : list Z) (output : option Z) : Z + (parse_state * Z * list Z) :=
  match read_leb128 data with
  | inl _ => inl EPROTO
  | inr (tu_field, tu_size) =>
      if negb (tu_size =? zlen data - tu_field) then inl EPROTO
      else
        match read_leb128 (drop (Z.to_nat tu_field) data) with
        | inl _ => inl EPROTO
        | inr (fu_field, fu_size) =>
            if (zlen data - tu_field <? fu_field) || negb (fu_size =? zlen data - tu_field - fu_field)
            then inl EPROTO
            else
              let cursor := tu_field + fu_field in
              '(s, n, out) ← annex_b_loop (length data) data (cursor + fu_size) cursor output blank_state 0 [];
              finish_parse s;; inr (s, n, out)
        end
  end.

(** ** The picture and its tiles *)

Definition validate_picture (expected_width expected_height : Z) : Z + unit :=
  if (expected_width =? 0) || (expected_height =? 0) || (65535 <? expected_width) || (65535 <? expected_height)
  then inl EINVAL
  else if negb (ap_profile picture =? 0) || negb (ap_bit_depth_idx picture =? 0) ||
          negb (ap_mono_chrome picture =? 0) || negb (ap_subsampling_x picture =? 1) ||
          negb (ap_subsampling_y picture =? 1) || negb (ap_large_scale_tile picture =? 0) ||
          negb (ap_anchor_frames_num picture =? 0) then inl ENOTSUP
  else if negb (ap_frame_width_minus1 picture + 1 =? expected_width) ||
          negb (ap_frame_height_minus1 picture + 1 =? expected_height) then inl EINVAL
  else if (ap_tile_cols picture =? 0) || (ap_tile_rows picture =? 0) ||
          (ADVC_AV1_MAX_TILES <? ap_tile_cols picture * ap_tile_rows picture) then inl ENOTSUP
  else inr tt.

Definition tile_begin (t : av1_tile) : Z := at_slice_data_offset t.
Definition tile_end (t : av1_tile) : Z := at_slice_data_offset t + at_slice_data_size t.
Definition tile_index (t : av1_tile) : Z := at_tile_row t * ap_tile_cols picture + at_tile_column t.

Definition tile_bad (data_size : Z) (t : av1_tile) : bool :=
  negb (at_slice_data_flag t =? VA_SLICE_DATA_FLAG_ALL) || (at_slice_data_size t =? 0) ||
  (ap_tile_rows picture <=? at_tile_row t) || (ap_tile_cols picture <=? at_tile_column t) ||
  (data_size <? tile_begin t) || (data_size - tile_begin t <? at_slice_data_size t).
Definition contained (s : parse_state) (t : av1_tile) : bool :=
  existsb (fun p => (fst p <=? tile_begin t) && (tile_end t <=? snd p)) (ps_payloads s).
Definition overlaps (t u : av1_tile) : bool := (tile_begin t <? tile_end u) && (tile_begin u <? tile_end t).

(** The loop; [before]: the tiles that were seen. *)
Fixpoint tile_loop (data_size : Z) (s : parse_state) (before tiles : list av1_tile) (seen : list bool) : Z + unit :=
  match tiles with
  | [] => inr tt
  | t :: tiles =>
      if tile_bad data_size t then inl ENOTSUP
      else
        let index := Z.to_nat (tile_index t) in
        if default false (seen !! index) then inl EPROTO
        else if negb (contained s t) then inl ENOTSUP
        else if existsb (overlaps t) before then inl EPROTO
        else tile_loop data_size s (before ++ [t]) tiles (<[index := true]> seen)
  end.
Definition validate_tiles (tiles : option (list av1_tile)) (data_size : Z) (s : parse_state) : Z + unit :=
  match tiles with
  | None => inl ENOTSUP
  | Some tiles =>
      if negb (zlen tiles =? ap_tile_cols picture * ap_tile_rows picture) || (zlen tiles =? 0) then inl ENOTSUP
      else tile_loop data_size s [] tiles (replicate (Z.to_nat ADVC_AV1_MAX_TILES) false)
  end.
End Parse.

(** ** The access unit *)

Inductive av1_input_format := ADVC_AV1_INPUT_RAW_OBU | ADVC_AV1_INPUT_ANNEX_B.
Record av1_access_unit_info := Av1Info {
  ai_input_format : av1_input_format; ai_frame_type : Z; ai_key_frame : bool;
  ai_contains_sequence_header : bool; ai_obu_count : Z }.

Definition failure {A} (r : Z + A) : Z := match r with inl e => e | inr _ => 0 end.
Definition succeeds {A} (r : Z + A) : bool := match r with inl _ => false | inr _ => true end.

(** The allocated copy, its size, and what is told of it. *)
Definition advc_av1_build_access_unit (alloc_ok : bool) (picture : option av1_picture)
    (tiles : option (list av1_tile)) (slice_data : option (list Z)) (expected_width expected_height : Z)
    : Z + (list Z * Z * av1_access_unit_info) :=
  match slice_data with
  | None => inl EINVAL
  | Some data =>
      if (zlen data =? 0) || (ADVC_MAX_INPUT_BYTES <? zlen data)
      then inl (if ADVC_MAX_INPUT_BYTES <? zlen data then E2BIG else EINVAL)
      else
        match picture with
        | None => inl EINVAL
        | Some picture =>
            validate_picture picture expected_width expected_height;;
            let raw := parse_raw_obus picture data in
            let annex := parse_annex_b picture data None in
            let info format (s : parse_state) :=
              Av1Info format (u8 (ap_frame_type picture)) (u8 (ap_frame_type picture) =? 0)
                (ps_sequence_seen s) (ps_obu_count s) in
            match raw, annex with
            | inr _, inr _ => inl EPROTO
            | inl e, inl f =>
                inl (if (e =? ENOTSUP) || (f =? ENOTSUP) then ENOTSUP else if negb (e =? 0) then e else f)
            | inr s, inl _ =>
                validate_tiles picture tiles (zlen data) s;;
                if negb alloc_ok then inl ENOMEM else inr (data, zlen data, info ADVC_AV1_INPUT_RAW_OBU s)
            | inl _, inr (s, n, _) =>
                validate_tiles picture tiles (zlen data) s;;
                if negb alloc_ok then inl ENOMEM
                else
                  '(s, n, out) ← parse_annex_b picture data (Some n);
                  inr (out, n, info ADVC_AV1_INPUT_ANNEX_B s)
            end
        end
  end.
