(* ===== verification/Av1Spec.v ===== *)
(** * What AV1 access units are

    LEB128 numbers, and OBUs with and without their size field: what they are as bytes,
    and the readers and writers of Av1.v against that. *)

From stdpp Require Import base list.
From Stdlib Require Import ZArith Lia Bool.
#[local] Notation length := List.length.
From S2P Require Import Prelude Kernel Protocol AnnexB Av1.

Notation bytes_ok := (Forall is_u8).

Lemma drop_zlen {A} (p q : list A) : drop (Z.to_nat (zlen p)) (p ++ q) = q.
Proof. unfold zlen. rewrite Nat2Z.id. apply drop_app_length. Qed.
Lemma take_zlen {A} (p q : list A) : take (Z.to_nat (zlen p)) (p ++ q) = p.
Proof. unfold zlen. rewrite Nat2Z.id. apply take_app_length. Qed.

(** ** LEB128 *)

(** Seven bits a byte, the low ones first; all bytes but the last have bit 7. *)
Fixpoint leb_form (bs : list Z) : Prop :=
  match bs with
  | [] => False
  | [b] => 0 <= b < 128
  | b :: bs => 128 <= b < 256 /\ leb_form bs
  end.
Fixpoint leb_value (bs : list Z) : Z :=
  match bs with [] => 0 | b :: bs => b mod 128 + 128 * leb_value bs end.
(** [bs] encodes [v]. *)
Definition leb (v : Z) (bs : list Z) : Prop := leb_form bs /\ (length bs <= 8)%nat /\ leb_value bs = v.

Lemma leb_form_cons b bs : leb_form (b :: bs) <-> (0 <= b < 128 /\ bs = []) \/ (128 <= b < 256 /\ leb_form bs).
Proof.
  destruct bs as [|c bs]; cbn; [|split; [auto|intros [[_ ?]|?]; done]]. split; [auto|]. by intros [[? _]|[_ ?]].
Qed.
Lemma leb_value_bound bs : leb_form bs -> 0 <= leb_value bs < 128 ^ zlen bs.
Proof.
  induction bs as [|b bs IH]; [done|]. intros [[H ->]|[H Hf]]%leb_form_cons; cbn [leb_value].
  - rewrite Z.mod_small by lia. cbn [leb_value]. change (zlen [b]) with 1. lia.
  - specialize (IH Hf). rewrite zlen_cons, Z.pow_add_r by (pose proof (zlen_nonneg bs); lia).
    pose proof (Z.mod_pos_bound b 128 ltac:(lia)). lia.
Qed.

Lemma land_127 b : Z.land b 127 = b mod 128.
Proof. change 127 with (Z.ones 7). by rewrite Z.land_ones. Qed.
Lemma land_128 b : is_u8 b -> (Z.land b 128 =? 0) = (b <? 128).
Proof.
  intros Hb. pose proof (byte_cases (fun b => Bool.eqb (Z.land b 128 =? 0) (b <? 128)) ltac:(by vm_compute) b Hb) as H.
  by apply Bool.eqb_prop in H.
Qed.

Lemma leb128_loop_exact n i decoded data k v : bytes_ok data -> 0 <= i -> i + Z.of_nat n <= 8 -> 0 <= decoded < 2 ^ (7 * i) ->
  leb128_loop n i decoded data = inr (k, v) <->
  exists bs rest, data = bs ++ rest /\ leb_form bs /\ (length bs <= n)%nat /\ k = i + zlen bs /\ v = decoded + 2 ^ (7 * i) * leb_value bs.
Proof.
  revert i decoded data. induction n as [|n IH]; intros i decoded data Hd Hi Hn Hdec; cbn [leb128_loop].
  { split; [done|]. intros (bs & rest & _ & Hf & Hl & _). destruct bs; [done|cbn in Hl; lia]. }
  destruct data as [|b data].
  { split; [done|]. intros (bs & rest & E & Hf & _). by destruct bs. }
  apply Forall_cons in Hd as [Hb Hd].
  assert (0 <= b mod 128 < 128) as Hm by (apply Z.mod_pos_bound; lia).
  assert (Z.lor decoded (u64 (Z.shiftl (Z.land b 127) (7 * i))) = decoded + 2 ^ (7 * i) * (b mod 128)) as Elor.
  { rewrite land_127, Z.shiftl_mul_pow2 by lia.
    assert (0 < 2 ^ (7 * i) <= 2 ^ 49) by (split; [apply Z.pow_pos_nonneg; lia|apply Z.pow_le_mono_r; lia]).
    unfold u64. rewrite Z.mod_small by nia. rewrite <- Z.shiftl_mul_pow2 by lia. rewrite lor_low_shiftl by lia. lia. }
  rewrite Elor, land_128 by done.
  assert (0 < 2 ^ (7 * i)) by (apply Z.pow_pos_nonneg; lia).
  assert (2 ^ (7 * (i + 1)) = 2 ^ (7 * i) * 128) as Ep by (replace (7 * (i + 1)) with (7 * i + 7) by lia; rewrite Z.pow_add_r by lia; done).
  assert (2 ^ (7 * (i + 1)) <= 2 ^ 56) by (apply Z.pow_le_mono_r; lia).
  destruct (Z.ltb_spec b 128) as [Hlt|Hge].
  - rewrite (proj2 (Z.ltb_ge SIZE_MAX _)) by (unfold SIZE_MAX, UINT64_MAX; nia). split.
    + intros [= <- <-]. exists [b], data. split_and!; [done|cbn; unfold is_u8 in Hb; lia|cbn; lia|done|cbn; lia].
    + intros (bs & rest & E & Hf & Hl & -> & ->). destruct bs as [|b' bs]; [done|]. injection E as <- ->.
      apply leb_form_cons in Hf as [[_ ->]|[? _]]; [|lia]. do 2 f_equal. cbn. lia.
  - rewrite IH; [|done|lia|lia|]; [|nia]. split.
    + intros (bs & rest & -> & Hf & Hl & -> & ->). exists (b :: bs), rest.
      split_and!; [done|apply leb_form_cons; right; unfold is_u8 in Hb; split; [lia|done]|cbn; lia|rewrite zlen_cons; lia|].
      cbn [leb_value]. rewrite Ep. lia.
    + intros (bs & rest & E & Hf & Hl & -> & ->). destruct bs as [|b' bs]; [done|]. injection E as <- ->.
      apply leb_form_cons in Hf as [[? _]|[_ Hf]]; [lia|]. exists bs, rest.
      split_and!; [done|done|cbn in Hl; lia|rewrite zlen_cons; lia|].
      cbn [leb_value]. rewrite Ep. lia.
Qed.

Lemma read_leb128_exact data k v : bytes_ok data ->
  read_leb128 data = inr (k, v) <-> exists bs rest, data = bs ++ rest /\ leb v bs /\ k = zlen bs.
Proof.
  intros Hd. unfold read_leb128. rewrite leb128_loop_exact by (done || (change (2 ^ (7 * 0)) with 1; lia)). split.
  - intros (bs & rest & -> & Hf & Hl & -> & ->). exists bs, rest. split_and!; [done|split_and!; [done|done|]|lia].
    change (2 ^ (7 * 0)) with 1. lia.
  - intros (bs & rest & -> & (Hf & Hl & <-) & ->). exists bs, rest. change (2 ^ (7 * 0)) with 1.
    split_and!; [done..|lia|lia].
Qed.

(** A prefix code: the reader finds the encoding at the start. *)
Lemma read_leb128_app v bs rest : bytes_ok (bs ++ rest) -> leb v bs -> read_leb128 (bs ++ rest) = inr (zlen bs, v).
Proof. intros H Hl. apply read_leb128_exact; [done|]. by exists bs, rest. Qed.

(** *** The encoder *)

Lemma shiftr_7 v : Z.shiftr v 7 = v / 128.
Proof. by rewrite Z.shiftr_div_pow2. Qed.

Lemma leb_write_loop_spec fuel v : 0 <= v < 128 ^ Z.of_nat fuel -> (0 < fuel)%nat ->
  leb_form (write_leb128_loop fuel v) /\ leb_value (write_leb128_loop fuel v) = v /\
  (forall n, (n < fuel)%nat -> v < 128 ^ Z.of_nat (S n) -> (length (write_leb128_loop fuel v) <= S n)%nat).
Proof.
  revert v. induction fuel as [|fuel IH]; intros v Hv Hf; [lia|]. cbn [write_leb128_loop]. rewrite land_127, shiftr_7.
  pose proof (Z.mod_pos_bound v 128 ltac:(lia)) as Hm. pose proof (Z.div_mod v 128 ltac:(lia)) as Hd.
  destruct (Z.eqb_spec (v / 128) 0) as [E|E]; cbn [negb].
  - split_and!; [cbn; lia|cbn; rewrite Z.mod_mod by lia; lia|intros; cbn; lia].
  - assert (0 <= v / 128) by (apply Z.div_pos; lia).
    rewrite Nat2Z.inj_succ, Z.pow_succ_r in Hv by lia.
    assert (0 < fuel)%nat as Hf' by (destruct fuel; [cbn in Hv; lia|lia]).
    destruct (IH (v / 128)) as (F & V & L); [lia|done|].
    assert (Z.lor (v mod 128) 128 = v mod 128 + 128) as El.
    { change 128 with (Z.shiftl 1 7) at 2. rewrite lor_low_shiftl by lia. done. }
    split_and!.
    + apply leb_form_cons. right. rewrite El. split; [lia|done].
    + cbn [leb_value]. rewrite V, El. rewrite <- Z.add_mod_idemp_r, Z.mod_same, Z.add_0_r, Z.mod_mod by lia. lia.
    + intros n Hn Hvn. cbn [length]. destruct n as [|n]; [change (128 ^ Z.of_nat 1) with 128 in Hvn; lia|].
      rewrite Nat2Z.inj_succ, Z.pow_succ_r in Hvn by lia. specialize (L n ltac:(lia) ltac:(lia)). lia.
Qed.

Lemma size_loop_spec fuel v k : 0 <= v < 128 ^ Z.of_nat fuel -> (0 < fuel)%nat ->
  leb128_size_loop fuel v k = k - 1 + zlen (write_leb128_loop fuel v).
Proof.
  revert v k. induction fuel as [|fuel IH]; intros v k Hv Hf; [lia|]. cbn [leb128_size_loop write_leb128_loop].
  rewrite shiftr_7.
  rewrite Nat2Z.inj_succ, Z.pow_succ_r in Hv by lia. pose proof (Z.div_mod v 128 ltac:(lia)) as Hd.
  pose proof (Z.mod_pos_bound v 128 ltac:(lia)).
  assert (0 <= v / 128) by (apply Z.div_pos; lia).
  destruct (Z.leb_spec 128 v) as [Hge|Hlt].
  - rewrite (proj2 (Z.eqb_neq (v / 128) 0)) by lia. cbn [negb].
    rewrite IH; [|lia|destruct fuel; [cbn in Hv; lia|lia]].
    rewrite zlen_cons. lia.
  - rewrite (proj2 (Z.eqb_eq (v / 128) 0)) by lia. cbn [negb]. change (zlen [_]) with 1. lia.
Qed.

Definition LEB_MAX : Z := 2 ^ 56.
Lemma write_leb128_spec v : 0 <= v < LEB_MAX -> leb v (write_leb128 v) /\ zlen (write_leb128 v) = leb128_size v /\
  forall w bs, v <= w -> leb w bs -> zlen (write_leb128 v) <= zlen bs.
Proof.
  unfold LEB_MAX. intros Hv.
  assert (0 <= v < 128 ^ Z.of_nat leb128_fuel) as Hv' by (change (128 ^ Z.of_nat leb128_fuel) with (2 ^ 70); lia).
  destruct (leb_write_loop_spec leb128_fuel v Hv' ltac:(unfold leb128_fuel; lia)) as (F & V & L).
  fold (write_leb128 v) in *.
  split_and!.
  - split_and!; [done| |done]. apply (L 7%nat); [unfold leb128_fuel; lia|]. change (128 ^ Z.of_nat 8) with (2 ^ 56).
    lia.
  - unfold leb128_size. rewrite size_loop_spec by (done || unfold leb128_fuel; lia). fold (write_leb128 v). lia.
  - intros w bs Hw (Hf & Hl & Hval). pose proof (leb_value_bound bs Hf) as Hb. rewrite Hval in Hb.
    destruct bs as [|b bs]; [done|]. cbn [length] in Hl. unfold zlen in *. cbn [length] in *.
    pose proof (L (length bs) ltac:(unfold leb128_fuel; lia) ltac:(lia)). lia.
Qed.
Lemma leb_bound v bs : leb v bs -> 0 <= v < LEB_MAX.
Proof.
  intros (Hf & Hl & <-). pose proof (leb_value_bound bs Hf).
  assert (128 ^ zlen bs <= 128 ^ 8) by (apply Z.pow_le_mono_r; unfold zlen; lia).
  change (128 ^ 8) with LEB_MAX in *. lia.
Qed.
Lemma leb_form_bytes bs : leb_form bs -> bytes_ok bs.
Proof.
  induction bs as [|b bs IH]; [done|].
  intros [[H ->]|[H Hf]]%leb_form_cons; constructor; unfold is_u8; try lia; [constructor|auto].
Qed.
Lemma leb_nonempty v bs : leb v bs -> 1 <= zlen bs.
Proof. intros (Hf & _). destruct bs; [done|]. rewrite zlen_cons. pose proof (zlen_nonneg bs). lia. Qed.

(** ** OBUs *)

(** An OBU: its header byte and its payload. *)
Record item := Item { it_header : Z; it_payload : list Z }.
Definition it_type (it : item) : Z := Z.land (Z.shiftr (it_header it) 3) 15.
Definition it_size (it : item) : Z := zlen (it_payload it).
(** The extension byte, which is zero. *)
Definition extension (h : Z) : list Z := if Z.testbit h 2 then [0] else [].
(** Forbidden bit and reserved bit are clear. *)
Definition header_ok (it : item) : Prop := is_u8 (it_header it) /\ Z.land (it_header it) 0x81 = 0.

(** The bytes of an OBU with its size field, and of one without. *)
Definition sized (it : item) (bs : list Z) : Prop :=
  header_ok it /\ Z.land (it_header it) 2 <> 0 /\
  exists l, leb (it_size it) l /\ bs = it_header it :: extension (it_header it) ++ l ++ it_payload it.
Definition unsized (it : item) (bs : list Z) : Prop :=
  header_ok it /\ Z.land (it_header it) 2 = 0 /\ bs = it_header it :: extension (it_header it) ++ it_payload it.

Definition extended (h : Z) : Z := Z.land (Z.shiftr h 2) 1.
Lemma extended_spec h : extended h = zlen (extension h).
Proof.
  unfold extended, extension. rewrite (Z.land_ones _ 1) by lia. change (2 ^ 1) with 2.
  rewrite <- Z.bit0_mod, Z.shiftr_spec by lia.
  change (0 + 2) with 2. by destruct (Z.testbit h 2).
Qed.

(** What the parser makes of it. *)
Definition obu_at (it : item) (payload_offset : Z) : av1_obu :=
  Obu (it_header it) (it_type it) (extended (it_header it)) (1 + extended (it_header it)) payload_offset (it_size it).

Lemma byte_at_cons h t : is_u8 h -> byte_at (h :: t) 0 = h.
Proof. intros H. unfold byte_at. cbn. by apply u8_id. Qed.

Definition extension_read (data : list Z) (h : Z) : Z + Z :=
  if negb (extended h =? 0) then
    if zlen data <=? 1 then inl EPROTO else if negb (byte_at data 1 =? 0) then inl ENOTSUP else inr 2
  else inr 1.
Lemma extension_read_spec h t : bytes_ok t ->
  match extension_read (h :: t) h with
  | inr hs => hs = 1 + extended h /\ t = extension h ++ drop (Z.to_nat hs) (h :: t)
  | inl _ => forall t', t <> extension h ++ t'
  end.
Proof.
  intros Ht. unfold extension_read. rewrite extended_spec. unfold extension.
  destruct (Z.testbit h 2); cbn [negb]; [|done].
  change (zlen [0]) with 1. cbn [Z.eqb negb]. destruct t as [|b t]; [done|]. rewrite !zlen_cons.
  pose proof (zlen_nonneg t).
  rewrite (proj2 (Z.leb_gt _ _)) by lia. apply Forall_cons in Ht as [Hb _].
  assert (byte_at (h :: b :: t) 1 = b) as -> by (unfold byte_at; cbn; by apply u8_id).
  destruct (Z.eqb_spec b 0) as [->|Hne]; cbn [negb]; [done|]. by intros t' [= ? _].
Qed.

(** A size field is read where it is, and tells where the payload starts. *)
Lemma sized_read it h t : bytes_ok t -> sized it (h :: extension h ++ t) ->
  read_leb128 t = inr (zlen t - it_size it, it_size it).
Proof.
  intros Ht (_ & _ & l & Hl & E). injection E as E1 E2. rewrite <- E1 in E2. apply app_inv_head in E2 as ->.
  rewrite (read_leb128_app _ l (it_payload it) Ht Hl), zlen_app. unfold it_size. do 2 f_equal. lia.
Qed.
Lemma sized_is it h l p v : bytes_ok (l ++ p) -> leb v l ->
  sized it (h :: extension h ++ l ++ p) <-> it = Item h p /\ header_ok (Item h p) /\ Z.land h 2 <> 0 /\ v = zlen p.
Proof.
  intros Hb Hl. split.
  - intros Hs. pose proof (sized_read it h (l ++ p) Hb Hs) as Hr.
    rewrite (read_leb128_app v l p Hb Hl), zlen_app in Hr. injection Hr as Hr1 Hr2.
    destruct Hs as (Hok & H2 & l' & _ & E). destruct it as [h' p']. unfold it_size in *.
    cbn [it_header it_payload] in *.
    injection E as <- E. apply app_inv_head, app_inj_2 in E as [_ ->]; [|unfold zlen in *; lia].
    split_and!; [done..|lia].
  - intros (-> & Hok & H2 & ->). split_and!; [done..|]. by exists l.
Qed.

Lemma parse_obu_exact data off annex o : bytes_ok data -> 0 <= off -> off + zlen data <= SIZE_MAX ->
  parse_obu data off annex = inr o <->
  exists it, (sized it data \/ annex = true /\ unsized it data) /\ o = obu_at it (off + zlen data - it_size it).
Proof.
  intros Hd Hoff Hmax. destruct data as [|h t].
  { split; [done|]. intros (it & [(_ & _ & l & _ & E)|(_ & _ & _ & E)] & _); discriminate E. }
  pose proof Hd as Hd'. apply Forall_cons in Hd' as [Hh Ht]. unfold parse_obu. rewrite byte_at_cons by done.
  rewrite (proj2 (Z.eqb_neq (zlen (h :: t)) 0)) by (rewrite zlen_cons; pose proof (zlen_nonneg t); lia). cbn zeta.
  destruct (Z.eqb_spec (Z.land h 129) 0) as [E0|E0]; cbn [negb]; cycle 1.
  { split; [done|]. intros (it & [((_ & Hok) & _ & l & _ & E)|(_ & (_ & Hok) & _ & E)] & _); injection E as -> _; done. }
  fold (extended h). change (if negb (extended h =? 0) then _ else _) with (extension_read (h :: t) h).
  pose proof (extension_read_spec h t Ht) as Hx. destruct (extension_read (h :: t) h) as [e|hs].
  { cbn [mbind res_bind]. split; [done|].
    intros (it & [(_ & _ & l & _ & E)|(_ & _ & _ & E)] & _); injection E as <- E; by apply Hx in E. }
  cbn [mbind res_bind]. destruct Hx as [Ehs Et]. set (t' := drop (Z.to_nat hs) (h :: t)) in *. clearbody t'. subst hs.
  assert (zlen (h :: t) = 1 + extended h + zlen t') as Hz by (rewrite zlen_cons, Et, zlen_app, extended_spec; lia).
  assert (bytes_ok t') as Ht' by (rewrite Et in Ht; by apply Forall_app in Ht as [_ ?]).
  pose proof (zlen_nonneg t'). pose proof (zlen_nonneg (extension h)) as Hext. rewrite <- extended_spec in Hext.
  cbn [mbind res_bind]. rewrite !Hz.
  destruct (Z.eqb_spec (Z.land h 2) 0) as [E2|E2]; cbn [negb].
  - destruct annex; cbn [negb]; cycle 1.
    { split; [done|]. intros (it & [(_ & Hn & l & _ & E)|(? & _)] & _); [|done]. injection E as -> _. done. }
    cbn [mbind res_bind]. rewrite (proj2 (Z.ltb_ge _ _)) by lia. split.
    + intros [= <-]. exists (Item h t').
      split; [right; split; [done|]; split_and!; [by split|done|cbn; by rewrite <- Et]|].
      unfold obu_at, it_size, it_type. cbn [it_header it_payload]. f_equal; lia.
    + intros (it & [(_ & Hn & l & _ & E)|(_ & _ & _ & E)] & ->); [injection E as -> _; done|]. destruct it as [h' p].
      cbn in E. injection E as <- E.
      rewrite Et in E. apply app_inv_head in E as ->. unfold obu_at, it_size, it_type. cbn [it_header it_payload].
      do 2 f_equal; lia.
  - assert (forall it, unsized it (h :: t) -> False) as Hno by (intros it (_ & Hn & E); injection E as -> _; done).
    destruct (read_leb128 t') as [e|[fs ps]] eqn:El; cbn [mbind res_bind].
    { split; [done|]. intros (it & [Hs|[_ Hs]] & _); [|by apply Hno in Hs]. rewrite Et in Hs.
      apply sized_read in Hs; [|done].
      by rewrite Hs in El. }
    apply read_leb128_exact in El as (l & p & -> & Hl & ->); [|done]. rewrite zlen_app in *.
    pose proof (zlen_nonneg l). pose proof (zlen_nonneg p). rewrite (proj2 (Z.ltb_ge _ (zlen l))) by lia. cbn [orb].
    pose proof (fun it => sized_is it h l p ps Ht' Hl) as His. rewrite <- Et in His.
    destruct (Z.eqb_spec ps (1 + extended h + (zlen l + zlen p) - (1 + extended h) - zlen l)) as [Eps|Eps]; cbn [negb].
    + cbn [mbind res_bind]. rewrite (proj2 (Z.ltb_ge _ _)) by lia. split.
      * intros [= <-]. exists (Item h p). split; [left; apply His; split_and!; [done|by split|done|lia]|].
        unfold obu_at, it_size, it_type. cbn [it_header it_payload]. f_equal; lia.
      * intros (it & [(-> & _)%His|[_ Hs]] & ->); [|by apply Hno in Hs].
        unfold obu_at, it_size, it_type. cbn [it_header it_payload]. do 2 f_equal; lia.
    + split; [done|]. intros (it & [(_ & _ & _ & E)%His|[_ Hs]] & _); [lia|by apply Hno in Hs].
Qed.
