(* ===== verification/Av1Frame.v ===== *)
(** * What AV1 access units hold: the OBUs of one frame

    The sequences of OBUs that make one frame, as an inductive grammar over OBUs and the
    offsets of their payloads, and [observe_obu] of Av1.v against it. *)

From stdpp Require Import base list.
From Stdlib Require Import ZArith Lia Bool.
#[local] Notation length := List.length.
From S2P Require Import Prelude Kernel Protocol AnnexB Av1 Av1Spec.

(** An OBU with the offset of its payload. *)
Notation placed := (item * Z)%type.
Definition of_type (ty : Z) (p : placed) : bool := it_type (fst p) =? ty.
(** An OBU the parser has found: bytes, and not too many of them. *)
Definition it_ok (it : item) : Prop := bytes_ok (it_payload it) /\ it_size it <= ADVC_MAX_INPUT_BYTES.

(** ** The grammar *)

Section Grammar.
Context (picture : av1_picture).

(** The first five bits: profile, still picture, reduced header. *)
Definition sequence_ok (it : item) (reduced : bool) : Prop :=
  match it_payload it with
  | [] => False
  | b :: _ => b / 32 = ap_profile picture /\ b / 32 = 0 /\ (b / 16) mod 2 = ap_still_picture picture /\
              reduced = negb ((b / 8) mod 2 =? 0) /\ (reduced = true -> (b / 16) mod 2 <> 0)
  end.
(** The first four bits, unless the header is reduced: an existing frame is shown, the
    type, whether the frame is shown.  Without a sequence header the picture says that
    the header is not reduced. *)
Definition frame_ok (sequence : option bool) (it : item) : Prop :=
  (sequence = None -> ap_still_picture picture = 0) /\
  if default false sequence then ap_frame_type picture = 0 /\ ap_show_frame picture = 1
  else
    match it_payload it with
    | [] => False
    | b :: _ => b / 128 = 0 /\ (b / 32) mod 4 = ap_frame_type picture /\ (b / 16) mod 2 = ap_show_frame picture
    end.

Definition lead (p : placed) : Prop :=
  of_type ADVC_AV1_OBU_TEMPORAL_DELIMITER p /\ it_size (fst p) = 0 \/
  of_type ADVC_AV1_OBU_METADATA p \/ of_type ADVC_AV1_OBU_PADDING p.

(** What comes before the frame, one sequence header at most. *)
Inductive leading : option bool -> list placed -> option bool -> Prop :=
| leading_nil r : leading r [] r
| leading_lead r p l r' : lead p -> leading r l r' -> leading r (p :: l) r'
| leading_sequence p l b r' : of_type ADVC_AV1_OBU_SEQUENCE_HEADER p -> sequence_ok (fst p) b ->
    leading (Some b) l r' -> leading None (p :: l) r'.

(** Where tiles may lie: the frame OBU or the tile groups. *)
Definition tile_spans (l : list placed) : list (Z * Z) :=
  flat_map (fun p => if of_type ADVC_AV1_OBU_FRAME p || of_type ADVC_AV1_OBU_TILE_GROUP p
                     then [(snd p, snd p + it_size (fst p))] else []) l.

(** A frame in one OBU, or a header with its tile groups. *)
Inductive frame (r : option bool) : list placed -> Prop :=
| frame_one p l : of_type ADVC_AV1_OBU_FRAME p -> frame_ok r (fst p) ->
    Forall (of_type ADVC_AV1_OBU_PADDING) l -> frame r (p :: l)
| frame_groups p l : of_type ADVC_AV1_OBU_FRAME_HEADER p -> frame_ok r (fst p) ->
    Forall (fun q => of_type ADVC_AV1_OBU_TILE_GROUP q \/ of_type ADVC_AV1_OBU_PADDING q) l ->
    1 <= zlen (tile_spans l) <= ADVC_AV1_MAX_TILES -> frame r (p :: l).

Definition accepted (r : option bool) (l : list placed) : Prop :=
  zlen l <= ADVC_AV1_MAX_OBUS /\ exists before after, l = before ++ after /\ leading None before r /\ frame r after.

(** ** The states *)

Definition lead_state (r : option bool) (n : Z) : parse_state :=
  ParseState n 0 (bool_decide (is_Some r)) (bool_decide (is_Some r)) (default false r) false false false [].
Definition header_state (r : option bool) (n : Z) (spans : list (Z * Z)) : parse_state :=
  ParseState n (zlen spans) (bool_decide (is_Some r)) true (default false r) true false (0 <? zlen spans) spans.
Definition frame_state (r : option bool) (n : Z) (span : Z * Z) : parse_state :=
  ParseState n 0 (bool_decide (is_Some r)) true (default false r) false true true [span].

(** What the parser keeps of a frame. *)
Definition summary (r : option bool) (l : list placed) : parse_state :=
  if existsb (of_type ADVC_AV1_OBU_FRAME) l then frame_state r (zlen l) (default (0, 0) (tile_spans l !! 0%nat))
  else header_state r (zlen l) (tile_spans l).

(** The parser on a list. *)
Fixpoint observe_all (s : parse_state) (l : list placed) : Z + parse_state :=
  match l with
  | [] => inr s
  | p :: l => s ← observe_obu picture s (obu_at (fst p) (snd p)) (it_payload (fst p)); observe_all s l
  end.

End Grammar.

(** ** Prefixes *)

Lemma bind_inr {A C} (x : Z + A) (k : A -> Z + C) c : (x ≫= k) = inr c <-> exists a, x = inr a /\ k a = inr c.
Proof. destruct x; cbn [mbind res_bind]; split; [done|by intros (? & ? & _)|by eauto|by intros (? & [= ->] & ?)]. Qed.

Lemma payload_bit b p o : is_u8 b -> zlen (b :: p) <= ADVC_MAX_INPUT_BYTES -> 0 <= o < 8 ->
  read_payload_bit (b :: p) o = inr (o + 1, (b / 2 ^ (7 - o)) mod 2).
Proof.
  intros Hb Hp Ho. unfold read_payload_bit. pose proof (zlen_nonneg p). rewrite zlen_cons in *.
  unfold ADVC_MAX_INPUT_BYTES in *.
  rewrite u64_id by (unfold is_u64; lia). rewrite (proj2 (Z.leb_gt _ _)) by lia.
  rewrite Z.div_small, Z.mod_small, byte_at_cons by (done || lia).
  rewrite (Z.land_ones _ 1), Z.shiftr_div_pow2 by lia. done.
Qed.
Lemma payload_nil o : 0 <= o -> read_payload_bit [] o = inl EPROTO.
Proof. intros Ho. unfold read_payload_bit. change (u64 (zlen [] * 8)) with 0.
  by rewrite (proj2 (Z.leb_le _ _)) by lia. Qed.

Lemma profile_bits b p : is_u8 b -> zlen (b :: p) <= ADVC_MAX_INPUT_BYTES -> read_payload_bits (b :: p) 0 3 = inr (3, b / 32).
Proof.
  intros Hb Hp. unfold read_payload_bits. cbn [Nat.ltb Nat.leb read_payload_bits_loop].
  do 3 (rewrite payload_bit by (done || lia); cbn [mbind res_bind]). do 2 f_equal. apply Z.eqb_eq.
  by apply (byte_cases (fun b => Z.lor (u32 (Z.shiftl (Z.lor (u32 (Z.shiftl (Z.lor (u32 (Z.shiftl 0 1)) ((b / 2 ^ (7 - 0)) mod 2)) 1))
    ((b / 2 ^ (7 - (0 + 1))) mod 2)) 1)) ((b / 2 ^ (7 - (0 + 1 + 1))) mod 2) =? b / 32)); [vm_compute|].
Qed.
Lemma type_bits b p : is_u8 b -> zlen (b :: p) <= ADVC_MAX_INPUT_BYTES -> read_payload_bits (b :: p) 1 2 = inr (3, (b / 32) mod 4).
Proof.
  intros Hb Hp. unfold read_payload_bits. cbn [Nat.ltb Nat.leb read_payload_bits_loop].
  do 2 (rewrite payload_bit by (done || lia); cbn [mbind res_bind]). do 2 f_equal. apply Z.eqb_eq.
  by apply (byte_cases (fun b => Z.lor (u32 (Z.shiftl (Z.lor (u32 (Z.shiftl 0 1)) ((b / 2 ^ (7 - 1)) mod 2)) 1))
    ((b / 2 ^ (7 - (1 + 1))) mod 2) =? (b / 32) mod 4)); [vm_compute|].
Qed.

Section Observe.
Context (picture : av1_picture).
Notation observe_obu := (observe_obu picture).
Notation observe_all := (observe_all picture).

Lemma sequence_prefix_exact s it s' : it_ok it ->
  check_sequence_prefix picture s (it_payload it) = inr s' <->
  exists reduced, sequence_ok picture it reduced /\ s' = put_reduced reduced s.
Proof.
  intros [Hb Hs]. unfold it_size in Hs. unfold check_sequence_prefix, sequence_ok. destruct (it_payload it) as [|b p].
  { unfold read_payload_bits. cbn. rewrite payload_nil by done. split; [done|]. by intros (? & [] & _). }
  apply Forall_cons in Hb as [Hb _]. rewrite profile_bits by done. cbn [mbind res_bind].
  rewrite payload_bit by (done || lia). cbn [mbind res_bind]. rewrite payload_bit by (done || lia).
  cbn [mbind res_bind].
  change (b / 2 ^ (7 - 3)) with (b / 16). change (b / 2 ^ (7 - (3 + 1))) with (b / 8).
  destruct (Z.eqb_spec (b / 32) (ap_profile picture)) as [E1|E1]; cbn [negb orb]; [|by split; [|intros (? & (? & _) & _)]].
  destruct (Z.eqb_spec (b / 32) 0) as [E2|E2]; cbn [negb]; [|by split; [|intros (? & (? & ? & _) & _)]].
  destruct (Z.eqb_spec ((b / 16) mod 2) (ap_still_picture picture)) as [E3|E3]; cbn [negb orb]; [|by split; [|intros (? & (? & ? & ? & _) & _)]].
  destruct (negb ((b / 8) mod 2 =? 0)) eqn:E4; cbn [andb].
  - destruct (Z.eqb_spec ((b / 16) mod 2) 0) as [E5|E5]; split; try done.
    + intros (? & (_ & _ & _ & -> & H) & _). by specialize (H eq_refl).
    + intros [= <-]. eauto 10.
    + by intros (? & (_ & _ & _ & -> & _) & ->).
  - split; [intros [= <-]; exists false; by split_and!|]. by intros (? & (_ & _ & _ & -> & _) & ->).
Qed.

Lemma frame_prefix_exact r n it s' : it_ok it ->
  check_frame_prefix picture (lead_state r n) (it_payload it) = inr s' <->
  frame_ok picture r it /\ s' = put_reduced (default false r) (lead_state r n).
Proof.
  intros [Hb Hs]. unfold it_size in Hs. unfold check_frame_prefix, frame_ok.
  assert ((if ps_reduced_known (lead_state r n) then inr (lead_state r n)
           else if negb (ap_still_picture picture =? 0) then inl ENOTSUP else inr (put_reduced false (lead_state r n))) =
          if bool_decide (r = None -> ap_still_picture picture = 0) then inr (put_reduced (default false r) (lead_state r n)) else inl ENOTSUP) as ->.
  { destruct r as [[]|]; try done. cbn.
    destruct (Z.eqb_spec (ap_still_picture picture) 0) as [E|E]; [by rewrite bool_decide_true|].
    rewrite bool_decide_false; [done|]. intros H. by apply E, H. }
  destruct (bool_decide_reflect (r = None -> ap_still_picture picture = 0)) as [Hn|Hn]; cbn [mbind res_bind]; [|by split; [|intros [[? _] _]]].
  change (ps_reduced (put_reduced _ _)) with (default false r). set (s1 := put_reduced _ _). clearbody s1.
  destruct (default false r).
  - cbn [mbind res_bind].
    destruct (Z.eqb_spec 0 (ap_frame_type picture)) as [E1|E1]; cbn [negb orb]; [|by split; [|intros [(_ & ? & _) _]]].
    destruct (Z.eqb_spec 1 (ap_show_frame picture)) as [E2|E2]; cbn [negb]; [|by split; [|intros [(_ & _ & ?) _]]].
    split; [intros [= <-]; auto|by intros [_ ->]].
  - destruct (it_payload it) as [|b p]; [rewrite payload_nil by done; by split; [|intros [[_ ?] _]]|].
    apply Forall_cons in Hb as [Hb _]. rewrite payload_bit by (done || lia). cbn [mbind res_bind].
    assert ((b / 2 ^ (7 - 0)) mod 2 = b / 128) as ->.
    { change (2 ^ (7 - 0)) with 128. unfold is_u8 in Hb. apply Z.mod_small.
      split; [apply Z.div_pos; lia|apply Z.div_lt_upper_bound; lia]. }
    destruct (Z.eqb_spec (b / 128) 0) as [E0|E0]; cbn [negb mbind res_bind]; [|by split; [|intros [(_ & ? & _) _]]].
    rewrite type_bits by done. cbn [mbind res_bind]. rewrite payload_bit by (done || lia). cbn [mbind res_bind].
    change (b / 2 ^ (7 - 3)) with (b / 16).
    destruct (Z.eqb_spec ((b / 32) mod 4) (ap_frame_type picture)) as [E1|E1]; cbn [negb orb]; [|by split; [|intros [(_ & _ & ? & _) _]]].
    destruct (Z.eqb_spec ((b / 16) mod 2) (ap_show_frame picture)) as [E2|E2]; cbn [negb]; [|by split; [|intros [(_ & _ & _ & ?) _]]].
    split; [intros [= <-]; auto|by intros [_ ->]].
Qed.

Lemma of_type_spec ty p : of_type ty p <-> it_type (fst p) = ty.
Proof. unfold of_type. by rewrite Is_true_true, Z.eqb_eq. Qed.

Lemma lead_step r n it o s' : it_ok it ->
  observe_obu (lead_state r n) (obu_at it o) (it_payload it) = inr s' <->
  n < ADVC_AV1_MAX_OBUS /\
  (lead (it, o) /\ s' = lead_state r (n + 1) \/
   (it_type it = ADVC_AV1_OBU_SEQUENCE_HEADER /\ r = None /\ exists b, sequence_ok picture it b /\ s' = lead_state (Some b) (n + 1)) \/
   (it_type it = ADVC_AV1_OBU_FRAME_HEADER /\ frame_ok picture r it /\ s' = header_state r (n + 1) []) \/
   (it_type it = ADVC_AV1_OBU_FRAME /\ frame_ok picture r it /\ s' = frame_state r (n + 1) (o, o + it_size it))).
Proof.
  intros Hit. unfold Av1.observe_obu, lead. rewrite !of_type_spec. cbn [fst ps_obu_count lead_state].
  destruct (Z.leb_spec ADVC_AV1_MAX_OBUS n) as [Hn|Hn]; [split; [done|lia]|].
  change (count_obu (ParseState _ _ _ _ _ _ _ _ _)) with (lead_state r (n + 1)).
  cbn [ob_type obu_at ob_payload_offset ob_payload_size]. set (t := it_type it).
  repeat match goal with |- context [t =? ?c] => destruct (Z.eqb_spec t c) as [->|?] end; cbn.
  - destruct r as [b|]; cbn; [naive_solver|]. rewrite bind_inr. setoid_rewrite sequence_prefix_exact; [|done]. split.
    + intros (? & (b & Hb & ->) & [= <-]). split; [done|]. right; left. eauto.
    + intros (_ & [[H _]|[(_ & _ & b & Hb & ->)|[[H _]|[H _]]]]); [naive_solver| |done..]. eauto.
  - destruct (Z.eqb_spec (it_size it) 0) as [E|E]; cbn; naive_solver.
  - rewrite bind_inr. setoid_rewrite frame_prefix_exact; [|done]. split.
    + intros (? & (Hf & ->) & [= <-]). split; [done|]. right; right; left. auto.
    + intros (_ & [[H _]|[(H & _)|[(_ & Hf & ->)|[H _]]]]); [naive_solver|done| |done]. eauto.
  - naive_solver.
  - rewrite bind_inr. setoid_rewrite frame_prefix_exact; [|done]. split.
    + intros (? & (Hf & ->) & [= <-]). split; [done|]. right; right; right. auto.
    + intros (_ & [[H _]|[(H & _)|[(H & _)|(_ & Hf & ->)]]]); [naive_solver|done|done|]. eauto.
  - naive_solver.
  - naive_solver.
  - naive_solver.
Qed.

Lemma header_step r n spans it o s' :
  observe_obu (header_state r n spans) (obu_at it o) (it_payload it) = inr s' <->
  n < ADVC_AV1_MAX_OBUS /\
  (it_type it = ADVC_AV1_OBU_TILE_GROUP /\ zlen spans < ADVC_AV1_MAX_TILES /\
     s' = header_state r (n + 1) (spans ++ [(o, o + it_size it)]) \/
   it_type it = ADVC_AV1_OBU_PADDING /\ s' = header_state r (n + 1) spans).
Proof.
  unfold Av1.observe_obu. cbn [ps_obu_count header_state].
  destruct (Z.leb_spec ADVC_AV1_MAX_OBUS n) as [Hn|Hn]; [split; [done|lia]|].
  change (count_obu (ParseState _ _ _ _ _ _ _ _ _)) with (header_state r (n + 1) spans).
  cbn [ob_type obu_at ob_payload_offset ob_payload_size]. set (t := it_type it).
  repeat match goal with |- context [t =? ?c] => destruct (Z.eqb_spec t c) as [->|?] end; cbn; rewrite ?orb_true_r;
    [naive_solver|naive_solver|naive_solver| |naive_solver..].
  assert (add_tile_group (o, o + it_size it) (header_state r (n + 1) spans) = header_state r (n + 1) (spans ++ [(o, o + it_size it)])) as E.
  { unfold add_tile_group, header_state. cbn. rewrite !zlen_app. change (zlen [_]) with 1.
    pose proof (zlen_nonneg spans).
    by rewrite (proj2 (Z.ltb_lt 0 _)) by lia. }
  destruct (Z.leb_spec ADVC_AV1_MAX_TILES (zlen spans)) as [Hs|Hs]; [split; [done|naive_solver lia]|]. rewrite <- E.
  naive_solver.
Qed.

Lemma frame_step r n span it o s' :
  observe_obu (frame_state r n span) (obu_at it o) (it_payload it) = inr s' <->
  n < ADVC_AV1_MAX_OBUS /\ it_type it = ADVC_AV1_OBU_PADDING /\ s' = frame_state r (n + 1) span.
Proof.
  unfold Av1.observe_obu. cbn [ps_obu_count frame_state].
  destruct (Z.leb_spec ADVC_AV1_MAX_OBUS n) as [Hn|Hn]; [split; [done|lia]|].
  change (count_obu (ParseState _ _ _ _ _ _ _ _ _)) with (frame_state r (n + 1) span).
  cbn [ob_type obu_at ob_payload_offset ob_payload_size]. set (t := it_type it).
  repeat match goal with |- context [t =? ?c] => destruct (Z.eqb_spec t c) as [->|?] end; cbn; rewrite ?orb_true_r; naive_solver.
Qed.

Lemma pads_exact r n span l s' : n <= ADVC_AV1_MAX_OBUS ->
  observe_all (frame_state r n span) l = inr s' <->
  n + zlen l <= ADVC_AV1_MAX_OBUS /\ Forall (of_type ADVC_AV1_OBU_PADDING) l /\ s' = frame_state r (n + zlen l) span.
Proof.
  revert n. induction l as [|[it o] l IH]; intros n Hn; cbn [Av1Frame.observe_all fst snd].
  - rewrite Z.add_0_r. naive_solver.
  - rewrite bind_inr. setoid_rewrite frame_step. rewrite zlen_cons, Forall_cons, of_type_spec. cbn [fst].
    pose proof (zlen_nonneg l).
    rewrite Z.add_assoc. split.
    + intros (? & (? & ? & ->) & Hl). apply IH in Hl; [tauto|lia].
    + intros (? & (? & ?) & ->). eexists. split; [split_and!; [lia|done|done]|]. apply IH; [lia|tauto].
Qed.

Lemma tile_spans_cons it o l : tile_spans ((it, o) :: l) =
  (if (it_type it =? ADVC_AV1_OBU_FRAME) || (it_type it =? ADVC_AV1_OBU_TILE_GROUP) then [(o, o + it_size it)] else []) ++ tile_spans l.
Proof. done. Qed.

Lemma groups_exact r n spans l s' : n <= ADVC_AV1_MAX_OBUS -> zlen spans <= ADVC_AV1_MAX_TILES ->
  observe_all (header_state r n spans) l = inr s' <->
  n + zlen l <= ADVC_AV1_MAX_OBUS /\ Forall (fun q => of_type ADVC_AV1_OBU_TILE_GROUP q \/ of_type ADVC_AV1_OBU_PADDING q) l /\
  zlen (spans ++ tile_spans l) <= ADVC_AV1_MAX_TILES /\ s' = header_state r (n + zlen l) (spans ++ tile_spans l).
Proof.
  revert n spans. induction l as [|[it o] l IH]; intros n spans Hn Hs; cbn [Av1Frame.observe_all fst snd].
  - rewrite Z.add_0_r, app_nil_r. naive_solver.
  - rewrite bind_inr. setoid_rewrite header_step. rewrite zlen_cons, Forall_cons, !of_type_spec, tile_spans_cons.
    cbn [fst].
    pose proof (zlen_nonneg l). pose proof (zlen_nonneg (tile_spans l)). rewrite Z.add_assoc. split.
    + intros (? & (? & [(E & ? & ->)|(E & ->)]) & Hl); rewrite E; cbn.
      * apply IH in Hl as (? & ? & ? & ->); [|lia|rewrite zlen_app; change (zlen [_]) with 1; lia].
        rewrite <- app_assoc in *. split_and!; auto.
      * apply IH in Hl as (? & ? & ? & ->); [|lia|done]. split_and!; auto.
    + intros (? & ([E|E] & ?) & Hz & ->); rewrite E in *; cbn in *.
      * exists (header_state r (n + 1) (spans ++ [(o, o + it_size it)])). rewrite !zlen_app, zlen_cons in Hz.
        split; [split; [lia|left; split_and!; [done|lia|done]]|].
        apply IH; [lia|rewrite zlen_app; change (zlen [_]) with 1; lia|]. rewrite <- app_assoc, zlen_app. cbn.
        rewrite zlen_cons. split_and!; auto; lia.
      * exists (header_state r (n + 1) spans). split; [split; [lia|auto]|]. apply IH; [lia|done|auto].
Qed.

(** The frame that starts with [p]. *)
Definition begun (r : option bool) (n : Z) (l : list placed) (s : parse_state) : Prop :=
  match l with
  | [] => False
  | p :: l =>
      frame_ok picture r (fst p) /\
      (it_type (fst p) = ADVC_AV1_OBU_FRAME_HEADER /\
         Forall (fun q => of_type ADVC_AV1_OBU_TILE_GROUP q \/ of_type ADVC_AV1_OBU_PADDING q) l /\
         zlen (tile_spans l) <= ADVC_AV1_MAX_TILES /\ s = header_state r n (tile_spans l) \/
       it_type (fst p) = ADVC_AV1_OBU_FRAME /\ Forall (of_type ADVC_AV1_OBU_PADDING) l /\
         s = frame_state r n (snd p, snd p + it_size (fst p)))
  end.

Lemma lead_exact r n l s' : Forall (fun p => it_ok (fst p)) l -> n <= ADVC_AV1_MAX_OBUS ->
  observe_all (lead_state r n) l = inr s' <->
  n + zlen l <= ADVC_AV1_MAX_OBUS /\ exists r',
    (leading picture r l r' /\ s' = lead_state r' (n + zlen l)) \/
    (exists before after, l = before ++ after /\ leading picture r before r' /\ begun r' (n + zlen l) after s').
Proof.
  intros Hl. revert r n. induction Hl as [|[it o] l Hit Hl IH]; intros r n Hn; cbn [Av1Frame.observe_all fst snd].
  { rewrite Z.add_0_r. split.
    - intros [= <-]. split; [done|]. exists r. left. by split; [constructor|].
    - intros (_ & r' & [[H ->]|(b & a & E & _ & H)]); [by inversion H|]. symmetry in E. apply app_nil in E as [-> ->].
      done. }
  rewrite bind_inr. setoid_rewrite lead_step; [|done]. rewrite zlen_cons, Z.add_assoc. pose proof (zlen_nonneg l).
  split.
  - intros (? & (? & [[Hp ->]|[(Et & -> & b & Hb & ->)|[(Et & Hf & ->)|(Et & Hf & ->)]]]) & Ho).
    + apply IH in Ho as (? & r' & Ho); [|lia]. split; [done|]. exists r'.
      destruct Ho as [[? ->]|(bf & af & -> & ? & ?)]; [left; split; [by constructor|done]|].
      right. exists ((it, o) :: bf), af. split_and!; [done|by constructor|done].
    + apply IH in Ho as (? & r' & Ho); [|lia]. split; [done|]. exists r'.
      destruct Ho as [[? ->]|(bf & af & -> & ? & ?)].
      * left. split; [|done]. eapply leading_sequence; [by apply of_type_spec|done|done].
      * right. exists ((it, o) :: bf), af. split_and!; [done| |done].
        eapply leading_sequence; [by apply of_type_spec|done|done].
    + apply groups_exact in Ho as (? & ? & ? & ->); [|lia|done]. split; [done|]. exists r. right.
      exists [], ((it, o) :: l).
      split_and!; [done|constructor|]. split; [done|]. left. auto.
    + apply pads_exact in Ho as (? & ? & ->); [|lia]. split; [done|]. exists r. right. exists [], ((it, o) :: l).
      split_and!; [done|constructor|]. split; [done|]. right. auto.
  - intros (? & r' & Ho).
    assert (forall r1, leading picture r1 l r' /\ s' = lead_state r' (n + 1 + zlen l) \/
      (exists before after, l = before ++ after /\ leading picture r1 before r' /\ begun r' (n + 1 + zlen l) after s') ->
      observe_all (lead_state r1 (n + 1)) l = inr s') as Hr.
    { intros r1 Ho'. apply IH; [lia|]. split; [done|]. by exists r'. }
    destruct Ho as [[Hld ->]|(bf & af & E & Hld & Hbg)].
    + inversion Hld as [|? ? ? ? Hp Hld'|? ? b ? Ht Hb Hld']; subst; (eexists; split; [split; [lia|]|apply Hr; left; split; [exact Hld'|done]]).
      * by left.
      * right; left. apply of_type_spec in Ht. split_and!; [done|done|by exists b].
    + inversion Hld as [|? ? bf' ? Hp Hld'|? bf' b ? Ht Hb Hld']; subst.
      * cbn in E. subst af. destruct Hbg as [Hf [(Et & Hall & Hz & ->)|(Et & Hall & ->)]]; cbn [fst snd] in *.
        -- exists (header_state r' (n + 1) []). split; [split; [lia|auto 10]|]. apply groups_exact; [lia|done|]. auto.
        -- exists (frame_state r' (n + 1) (o, o + it_size it)). split; [split; [lia|auto 10]|].
           apply pads_exact; [lia|]. auto.
      * injection E as <- ->. eexists; split; [split; [lia|by left]|apply Hr; right; by exists bf', af].
      * injection E as <- ->. eexists; split; [split; [lia|]|apply Hr; right; by exists bf', af].
        right; left. apply of_type_spec in Ht. split_and!; [done|done|by exists b].
Qed.

Lemma existsb_frame_cons it o l : existsb (of_type ADVC_AV1_OBU_FRAME) ((it, o) :: l) =
  (it_type it =? ADVC_AV1_OBU_FRAME) || existsb (of_type ADVC_AV1_OBU_FRAME) l.
Proof. done. Qed.
Lemma leading_inert r l r' : leading picture r l r' -> existsb (of_type ADVC_AV1_OBU_FRAME) l = false /\ tile_spans l = [].
Proof.
  induction 1 as [|r p l r' Hp _ [IH1 IH2]|p l b r' Ht _ _ [IH1 IH2]]; [done|destruct p as [it o]..]; rewrite tile_spans_cons; cbn [existsb];
    unfold of_type at 1; cbn [fst]; rewrite IH1, IH2, orb_false_r, app_nil_r; unfold lead in *; rewrite ?of_type_spec in *; cbn [fst] in *.
  - by destruct Hp as [[-> _]|[-> | ->]].
  - by rewrite Ht.
Qed.
Lemma tile_spans_app l l' : tile_spans (l ++ l') = tile_spans l ++ tile_spans l'.
Proof. apply flat_map_app. Qed.
Lemma padding_inert l : Forall (of_type ADVC_AV1_OBU_PADDING) l -> tile_spans l = [].
Proof.
  induction 1 as [|[it o] l Hp _ IH]; [done|]. apply of_type_spec in Hp. cbn [fst] in Hp.
  rewrite tile_spans_cons, Hp, IH. done.
Qed.
Lemma groups_inert l : Forall (fun q => of_type ADVC_AV1_OBU_TILE_GROUP q \/ of_type ADVC_AV1_OBU_PADDING q) l ->
  existsb (of_type ADVC_AV1_OBU_FRAME) l = false.
Proof.
  induction 1 as [|[it o] l Hp _ IH]; [done|]. rewrite !of_type_spec in Hp. cbn [fst] in Hp. cbn [existsb].
  unfold of_type at 1. cbn [fst].
  destruct Hp as [-> | ->]; done.
Qed.

Lemma begun_finished r before after s :
  leading picture None before r ->
  begun r (zlen (before ++ after)) after s /\ finish_parse s = inr tt <->
  frame picture r after /\ s = summary r (before ++ after).
Proof.
  intros Hld. pose proof (leading_inert _ _ _ Hld) as [Hb1 Hb2]. unfold summary.
  rewrite existsb_app, Hb1, tile_spans_app, Hb2.
  cbn [orb app]. set (n := zlen _). split.
  - intros [Hb Hfin]. destruct after as [|[it o] l]; [done|].
    destruct Hb as [Hf [(Et & Hall & Hz & ->)|(Et & Hall & ->)]]; cbn [fst snd] in *.
    + rewrite existsb_frame_cons, tile_spans_cons, Et, groups_inert by done. cbn [orb app]. split; [|done].
      apply frame_groups; [by apply of_type_spec|done|done|]. split; [|done]. unfold finish_parse in Hfin.
      cbn in Hfin. destruct (Z.ltb_spec 0 (zlen (tile_spans l))); [lia|done].
    + rewrite existsb_frame_cons, tile_spans_cons, Et. cbn. split; [|done].
      apply frame_one; [by apply of_type_spec|done|done].
  - intros [Hf ->]. destruct Hf as [[it o] l Ht Hf Hall|[it o] l Ht Hf Hall Hz]; apply of_type_spec in Ht; cbn [fst] in Ht;
      rewrite existsb_frame_cons, tile_spans_cons, Ht; cbn in *.
    + rewrite padding_inert by done. split; [|done]. split; [done|]. right. auto.
    + rewrite groups_inert by done. split; [split; [done|]; left; naive_solver|].
      unfold finish_parse. cbn. rewrite (proj2 (Z.ltb_lt _ _)) by lia. by rewrite (proj2 (Z.eqb_neq _ _)) by lia.
Qed.

(** The parser accepts the frames of the grammar, and keeps their summary. *)
Lemma observe_exact l s : Forall (fun p => it_ok (fst p)) l ->
  observe_all blank_state l = inr s /\ finish_parse s = inr tt <->
  exists r, accepted picture r l /\ s = summary r l.
Proof.
  intros Hl. change blank_state with (lead_state None 0).
  rewrite lead_exact by (done || (unfold ADVC_AV1_MAX_OBUS; lia)). rewrite Z.add_0_l. split.
  - intros [(Hn & r & [[_ ->]|(before & after & -> & Hld & Hb)]) Hfin]; [done|]. exists r.
    destruct (proj1 (begun_finished r before after s Hld) (conj Hb Hfin)) as [Hf ->]. split; [|done]. split; [done|].
    by exists before, after.
  - intros (r & (Hn & before & after & -> & Hld & Hf) & ->).
    destruct (proj2 (begun_finished r before after _ Hld) (conj Hf eq_refl)) as [Hb Hfin]. split; [|done].
    split; [done|].
    exists r. right. by exists before, after.
Qed.
End Observe.
