(* ===== verification/Av1Stream.v ===== *)
(** * The two framings of AV1 access units

    Size-delimited OBUs and the temporal unit of Annex B as relations between OBUs, the
    offsets of their payloads, and bytes; [parse_raw_obus] and [parse_annex_b] of Av1.v
    against them, and the normalised output. *)

From stdpp Require Import base list.
From Stdlib Require Import ZArith Lia Bool.
#[local] Notation length := List.length.
From S2P Require Import Prelude Kernel Protocol AnnexB Av1 Av1Spec Av1Frame.

(** ** The framings *)

(** OBUs with their size fields, from offset [off] on. *)
Inductive raw_obus : Z -> list placed -> list Z -> Prop :=
| raw_nil off : raw_obus off [] []
| raw_cons off it b l bs : sized it b -> raw_obus (off + zlen b) l bs ->
    raw_obus off ((it, off + zlen b - it_size it) :: l) (b ++ bs).

(** OBUs with their lengths before them. *)
Inductive annex_obus : Z -> list placed -> list Z -> Prop :=
| annex_nil off : annex_obus off [] []
| annex_cons off it b n l bs : leb (zlen b) n -> sized it b \/ unsized it b -> annex_obus (off + zlen n + zlen b) l bs ->
    annex_obus off ((it, off + zlen n + zlen b - it_size it) :: l) (n ++ b ++ bs).

(** A temporal unit of one frame unit. *)
Definition temporal_unit (l : list placed) (data : list Z) : Prop :=
  exists tu fu obus, data = tu ++ fu ++ obus /\ leb (zlen (fu ++ obus)) tu /\ leb (zlen obus) fu /\
    annex_obus (zlen tu + zlen fu) l obus.

(** An OBU as it is written at the output, and what it is then. *)
Definition normal (it : item) : list Z :=
  Z.lor (it_header it) 2 :: extension (it_header it) ++ write_leb128 (it_size it) ++ it_payload it.
Definition with_size (it : item) : item := Item (Z.lor (it_header it) 2) (it_payload it).
Definition normalized (l : list placed) : list Z := flat_map (fun p => normal (fst p)) l.

(** ** One OBU *)

Lemma sized_payload it b : sized it b \/ unsized it b -> exists hd, b = hd ++ it_payload it /\ 1 <= zlen hd.
Proof.
  intros [(_ & _ & l & _ & ->)|(_ & _ & ->)].
  - exists (it_header it :: extension (it_header it) ++ l). cbn [app]. rewrite <- app_assoc. split; [done|].
    rewrite zlen_cons. pose proof (zlen_nonneg (extension (it_header it) ++ l)). lia.
  - exists (it_header it :: extension (it_header it)). split; [done|]. rewrite zlen_cons.
    pose proof (zlen_nonneg (extension (it_header it))). lia.
Qed.

Lemma payload_found pre it b rest : sized it b \/ unsized it b ->
  payload_in (pre ++ b ++ rest) (obu_at it (zlen pre + zlen b - it_size it)) = it_payload it.
Proof.
  intros (hd & -> & _)%sized_payload. unfold payload_in. cbn [obu_at ob_payload_size ob_payload_offset].
  rewrite zlen_app. unfold it_size.
  replace (zlen pre + (zlen hd + zlen (it_payload it)) - zlen (it_payload it)) with (zlen (pre ++ hd)) by (rewrite zlen_app; lia).
  rewrite <- app_assoc, app_assoc, drop_zlen. apply take_zlen.
Qed.

Lemma found_ok it b : sized it b \/ unsized it b -> bytes_ok b -> zlen b <= ADVC_MAX_INPUT_BYTES -> it_ok it.
Proof.
  intros (hd & -> & _)%sized_payload Hb Hz. apply Forall_app in Hb as [_ Hb]. rewrite zlen_app in Hz.
  pose proof (zlen_nonneg hd).
  split; [done|]. unfold it_size. lia.
Qed.

Lemma raw_extent_bound rest n : bytes_ok rest -> raw_extent rest = inr n -> 1 <= n <= zlen rest.
Proof.
  intros Hb. unfold raw_extent. destruct (_ || _) eqn:E; [done|]. rewrite bind_inr. intros ([k v] & Hr & H).
  apply read_leb128_exact in Hr as (l & r & _ & Hl & ->); [|by apply Forall_drop]. pose proof (leb_bound _ _ Hl).
  pose proof (leb_nonempty _ _ Hl).
  apply orb_false_iff in E as [E _].
  assert (0 <= Z.land (Z.shiftr (byte_at rest 0) 2) 1) by (apply Z.land_nonneg; lia).
  set (x := Z.land (Z.shiftr (byte_at rest 0) 2) 1) in *. clearbody x.
  unfold add_size in H. destruct (_ <? _); [done|]. cbn [mbind res_bind] in H. destruct (_ <? _); [done|].
  cbn [mbind res_bind] in H.
  destruct (Z.ltb_spec (zlen rest) (1 + x + zlen l + v)); [done|]. injection H as <-. lia.
Qed.

Lemma extension_length h : 0 <= zlen (extension h) <= 1.
Proof. unfold extension. destruct (Z.testbit h 2); by vm_compute. Qed.

Lemma raw_extent_sized it b rest : sized it b -> bytes_ok (b ++ rest) -> zlen (b ++ rest) <= ADVC_MAX_INPUT_BYTES ->
  raw_extent (b ++ rest) = inr (zlen b).
Proof.
  intros ([Hh _] & H2 & l & Hl & ->) Hb Hz. unfold raw_extent. cbn [app] in *. rewrite byte_at_cons by done.
  fold (extended (it_header it)).
  pose proof (extension_length (it_header it)) as He.
  pose proof (leb_nonempty _ _ Hl). pose proof (zlen_nonneg rest). pose proof (zlen_nonneg (it_payload it)).
  rewrite (proj2 (Z.eqb_neq _ _)) by done. rewrite orb_false_r, extended_spec.
  rewrite <- !app_assoc in *. rewrite !zlen_cons, !zlen_app in *. unfold ADVC_MAX_INPUT_BYTES in *.
  rewrite (proj2 (Z.leb_gt _ _)) by lia.
  replace (drop _ _) with (l ++ it_payload it ++ rest).
  2: { rewrite Z2Nat.inj_add by lia. change (Z.to_nat 1) with 1%nat. cbn [Nat.add]. by rewrite skipn_cons, drop_zlen.
  }
  apply Forall_cons in Hb as [_ [_ Hb]%Forall_app]. rewrite (read_leb128_app (it_size it)) by done.
  cbn [mbind res_bind].
  unfold add_size. unfold SIZE_MAX, UINT64_MAX, it_size in *. rewrite (proj2 (Z.ltb_ge _ _)) by lia.
  cbn [mbind res_bind].
  rewrite (proj2 (Z.ltb_ge _ _)) by lia. cbn [mbind res_bind]. rewrite (proj2 (Z.ltb_ge _ _)) by lia. f_equal. lia.
Qed.

Lemma small_size n : n <= ADVC_MAX_INPUT_BYTES -> n <= SIZE_MAX.
Proof. unfold ADVC_MAX_INPUT_BYTES, SIZE_MAX, UINT64_MAX. lia. Qed.

Lemma raw_step off rest n o : bytes_ok rest -> 0 <= off -> off + zlen rest <= ADVC_MAX_INPUT_BYTES ->
  raw_extent rest = inr n /\ parse_obu (take (Z.to_nat n) rest) off false = inr o <->
  exists it b rest', rest = b ++ rest' /\ sized it b /\ n = zlen b /\ o = obu_at it (off + zlen b - it_size it).
Proof.
  intros Hb Hoff Hz. split.
  - intros [Hn Ho]. pose proof (raw_extent_bound _ _ Hb Hn) as Hbd.
    assert (zlen (take (Z.to_nat n) rest) = n) as Et by (unfold zlen in *; rewrite length_take; lia).
    apply parse_obu_exact in Ho as (it & [Hs|[? _]] & ->); [|done|by apply Forall_take|done|apply small_size; lia].
    exists it, (take (Z.to_nat n) rest), (drop (Z.to_nat n) rest). rewrite take_drop, Et. auto.
  - intros (it & b & rest' & -> & Hs & -> & ->). rewrite zlen_app in Hz. pose proof (zlen_nonneg rest'). split.
    + apply (raw_extent_sized it); [done|done|]. rewrite zlen_app. lia.
    + rewrite take_zlen. apply Forall_app in Hb as [Hb _]. apply parse_obu_exact; [done|done|apply small_size; lia|].
      exists it. auto.
Qed.

Lemma obu_nonempty it b : sized it b \/ unsized it b -> 1 <= zlen b.
Proof. intros (hd & -> & ?)%sized_payload. rewrite zlen_app. pose proof (zlen_nonneg (it_payload it)). lia. Qed.
Lemma zlen_zero {A} (l : list A) : zlen l = 0 -> l = [].
Proof. destruct l; [done|]. rewrite zlen_cons. pose proof (zlen_nonneg l). lia. Qed.

Lemma raw_obus_nil off l : raw_obus off l [] -> l = [].
Proof.
  intros H. remember [] as bs eqn:E. destruct H as [|off it b l bs Hs _]; [done|]. apply app_nil in E as [-> _].
  by pose proof (obu_nonempty it [] (or_introl Hs)).
Qed.

Lemma raw_obus_ok off l bs : raw_obus off l bs -> bytes_ok bs -> zlen bs <= ADVC_MAX_INPUT_BYTES -> Forall (fun p => it_ok (fst p)) l.
Proof.
  induction 1 as [|off it b l bs Hs _ IH]; [constructor|]. intros [Hb Hbs]%Forall_app. rewrite zlen_app. intros Hz.
  pose proof (zlen_nonneg b). pose proof (zlen_nonneg bs).
  constructor; [by apply (found_ok it b); [left| |lia]|apply IH; [done|lia]].
Qed.

(** One OBU of Annex B, with its length. *)
Lemma annex_step off rest lf n o : bytes_ok rest -> 0 <= off -> off + zlen rest <= ADVC_MAX_INPUT_BYTES ->
  read_leb128 rest = inr (lf, n) /\ lf <= zlen rest /\ n <> 0 /\ n <= zlen rest - lf /\
    parse_obu (take (Z.to_nat n) (drop (Z.to_nat lf) rest)) (off + lf) true = inr o <->
  exists it b nb rest', rest = nb ++ b ++ rest' /\ leb (zlen b) nb /\ (sized it b \/ unsized it b) /\
    lf = zlen nb /\ n = zlen b /\ o = obu_at it (off + zlen nb + zlen b - it_size it).
Proof.
  intros Hb Hoff Hz. split.
  - intros (Hr & Hlf & Hn0 & Hn & Ho). apply read_leb128_exact in Hr as (nb & rest1 & -> & Hl & ->); [|done].
    pose proof (leb_bound _ _ Hl). pose proof (leb_nonempty _ _ Hl). apply Forall_app in Hb as [_ Hb].
    rewrite zlen_app in *. rewrite drop_zlen in Ho.
    assert (zlen (take (Z.to_nat n) rest1) = n) as Et by (unfold zlen in *; rewrite length_take; lia).
    apply parse_obu_exact in Ho as (it & Hs & ->); [|by apply Forall_take|lia|apply small_size; lia]. rewrite Et in *.
    exists it, (take (Z.to_nat n) rest1), nb, (drop (Z.to_nat n) rest1). rewrite take_drop, Et. split_and!; auto.
    naive_solver.
  - intros (it & b & nb & rest' & -> & Hl & Hs & -> & -> & ->). rewrite !zlen_app in *.
    pose proof (obu_nonempty _ _ Hs).
    pose proof (leb_nonempty _ _ Hl). pose proof (zlen_nonneg rest'). split_and!; [by apply read_leb128_app|lia..|].
    rewrite drop_zlen, take_zlen. apply Forall_app in Hb as [_ [Hb _]%Forall_app].
    apply parse_obu_exact; [done|lia|apply small_size; lia|].
    exists it. naive_solver.
Qed.

(** The normal form is never longer, its size is as computed, and it is what is written. *)
Lemma normal_size it : it_size it < LEB_MAX ->
  zlen (normal it) = 1 + extended (it_header it) + leb128_size (it_size it) + it_size it.
Proof.
  intros H. unfold normal. rewrite zlen_cons, !zlen_app, extended_spec. fold (it_size it).
  destruct (write_leb128_spec (it_size it)) as (_ & -> & _); [|lia]. split; [apply zlen_nonneg|done].
Qed.
Lemma obu_size_value it b : sized it b \/ unsized it b -> 
  (exists l, leb (it_size it) l /\ zlen b = 1 + extended (it_header it) + zlen l + it_size it) \/
  zlen b = 1 + extended (it_header it) + it_size it.
Proof.
  rewrite extended_spec. intros [(_ & _ & l & Hl & ->)|(_ & _ & ->)].
  - left. exists l. split; [done|]. rewrite zlen_cons, !zlen_app. unfold it_size. lia.
  - right. rewrite zlen_cons, zlen_app. unfold it_size. lia.
Qed.
Lemma normal_shorter it b nb : sized it b \/ unsized it b -> leb (zlen b) nb -> it_size it < LEB_MAX ->
  1 <= zlen (normal it) <= zlen nb + zlen b.
Proof.
  intros Hs Hl Hz. rewrite normal_size by done. pose proof (leb_nonempty _ _ Hl).
  pose proof (zlen_nonneg (extension (it_header it))) as Hx.
  rewrite <- extended_spec in Hx. assert (0 <= it_size it) by apply zlen_nonneg.
  destruct (write_leb128_spec (it_size it)) as (Hf & <- & Hmin); [lia|]. pose proof (leb_nonempty _ _ Hf).
  split; [lia|].
  destruct (obu_size_value it b Hs) as [(l & Hl' & ->)|E]; [specialize (Hmin _ l (Z.le_refl _) Hl'); lia|].
  specialize (Hmin (zlen b) nb ltac:(lia) Hl). lia.
Qed.

Lemma normalized_cons p l : normalized (p :: l) = normal (fst p) ++ normalized l.
Proof. done. Qed.

Lemma normal_written it pre b rest : sized it b \/ unsized it b ->
  write_obu (pre ++ b ++ rest) (zlen pre) (obu_at it (zlen pre + zlen b - it_size it)) = normal it.
Proof.
  intros Hs. unfold write_obu. rewrite payload_found by done. unfold normal.
  cbn [obu_at ob_header ob_header_size ob_payload_size].
  f_equal. rewrite extended_spec. f_equal. unfold extension.
  assert (exists t, b = it_header it :: extension (it_header it) ++ t) as [t ->] by (destruct Hs as [(_ & _ & l & _ & ->)|(_ & _ & ->)]; eauto).
  unfold extension. destruct (Z.testbit (it_header it) 2); [|done]. cbn. f_equal. unfold byte_at.
  assert ((pre ++ it_header it :: 0 :: t ++ rest) !! Z.to_nat (zlen pre + 1) = Some 0) as ->; [|done].
  unfold zlen. rewrite lookup_app_r by lia. by replace (Z.to_nat _ - length pre)%nat with 1%nat by lia.
Qed.

Section Streams.
Context (picture : av1_picture).

Lemma raw_loop_exact fuel pre rest s s' : bytes_ok (pre ++ rest) -> zlen (pre ++ rest) <= ADVC_MAX_INPUT_BYTES ->
  (length rest <= fuel)%nat ->
  raw_loop picture fuel (pre ++ rest) (zlen pre) s = inr s' <->
  exists l, raw_obus (zlen pre) l rest /\ observe_all picture s l = inr s'.
Proof.
  revert pre rest s. induction fuel as [|fuel IH]; intros pre rest s Hb Hz Hf.
  { destruct rest; [|cbn in Hf; lia]. cbn [raw_loop]. rewrite app_nil_r, Z.ltb_irrefl. split.
    - intros H. exists []. split; [constructor|done].
    - by intros (l & ->%raw_obus_nil & H). }
  cbn [raw_loop]. rewrite (zlen_app pre rest). pose proof (zlen_nonneg pre). pose proof (zlen_nonneg rest).
  destruct (Z.ltb_spec (zlen pre) (zlen pre + zlen rest)) as [Hlt|Hge]; cycle 1.
  { assert (rest = []) as -> by (apply zlen_zero; lia). split.
    - intros H'. exists []. split; [constructor|done].
    - by intros (l & ->%raw_obus_nil & H'). }
  rewrite drop_zlen. rewrite zlen_app in Hz. pose proof Hb as Hb'. apply Forall_app in Hb' as [_ Hbr]. split.
  - rewrite bind_inr. intros (n & Hn & Hl). apply bind_inr in Hl as (o & Ho & Hl).
    apply bind_inr in Hl as (s1 & Hs1 & Hl).
    destruct (proj1 (raw_step (zlen pre) rest n o Hbr ltac:(lia) Hz) (conj Hn Ho)) as (it & b & rest' & -> & Hs & -> & ->).
    rewrite payload_found in Hs1 by auto. pose proof (obu_nonempty it b (or_introl Hs)).
    rewrite app_assoc, <- zlen_app in Hl.
    apply IH in Hl as (l & Hl & Ho'); [|by rewrite <- app_assoc|rewrite !zlen_app in *; lia|rewrite length_app in Hf; unfold zlen in *; lia].
    eexists. split; [apply raw_cons; [done|by rewrite <- zlen_app]|]. cbn [Av1Frame.observe_all fst snd].
    by rewrite Hs1.
  - intros (l & Hl & Ho). inversion Hl as [|? it b l' bs Hs Hl']; subst; [unfold zlen in Hlt; cbn in Hlt; lia|].
    cbn [Av1Frame.observe_all fst snd] in Ho.
    apply bind_inr in Ho as (s1 & Hs1 & Ho).
    destruct (proj2 (raw_step (zlen pre) (b ++ bs) (zlen b) (obu_at it (zlen pre + zlen b - it_size it)) Hbr ltac:(lia) Hz)) as [-> Hp]; [by exists it, b, bs|].
    cbn [mbind res_bind]. rewrite Hp. cbn [mbind res_bind]. rewrite payload_found by auto. rewrite Hs1.
    cbn [mbind res_bind].
    pose proof (obu_nonempty it b (or_introl Hs)). rewrite app_assoc, <- zlen_app.
    apply IH; [by rewrite <- app_assoc|rewrite !zlen_app in *; lia|rewrite length_app in Hf; unfold zlen in *; lia|].
    exists l'. by rewrite zlen_app.
Qed.
(** The output holds what has been written and what is to come. *)
Definition fits (output : option Z) (n : Z) (l : list placed) : Prop :=
  match output with None => True | Some capacity => n + zlen (normalized l) <= capacity end.
Definition written (output : option Z) (out : list Z) (l : list placed) : list Z :=
  match output with None => out | Some _ => out ++ normalized l end.

Lemma fits_cons output n p l : fits output n (p :: l) <-> fits output (n + zlen (normal (fst p))) l.
Proof. unfold fits. rewrite normalized_cons, zlen_app, Z.add_assoc. done. Qed.
Lemma written_cons output out p l :
  written output out (p :: l) = written output (if output then out ++ normal (fst p) else out) l.
Proof. destruct output; [|done]. unfold written. by rewrite normalized_cons, app_assoc. Qed.

Definition annex_outcome (s : parse_state) (output : option Z) (n : Z) (out : list Z) (off : Z) (rest : list Z)
    (s' : parse_state) (n' : Z) (out' : list Z) : Prop :=
  exists l, annex_obus off l rest /\ observe_all picture s l = inr s' /\ fits output n l /\
    n' = n + zlen (normalized l) /\ out' = written output out l.

Lemma annex_obus_nil off l : annex_obus off l [] -> l = [].
Proof.
  intros H. remember [] as bs eqn:E. destruct H as [|off it b nb l bs Hl _ _]; [done|]. apply app_nil in E as [-> _].
  by apply leb_nonempty in Hl.
Qed.
Lemma annex_done s output n out off s' n' out' : fits output n [] ->
  inr (s, n, out) = inr (s', n', out') :> Z + _ <-> annex_outcome s output n out off [] s' n' out'.
Proof.
  intros Hfit. split.
  - intros [= <- <- <-]. exists []. split_and!; [constructor|done|done|unfold zlen; cbn; lia|].
    destruct output; cbn; [by rewrite app_nil_r|done].
  - intros (l & ->%annex_obus_nil & [= <-] & _ & -> & ->). unfold zlen; cbn. rewrite Z.add_0_r.
    destruct output; cbn; [by rewrite app_nil_r|done].
Qed.

(** The sizes add up, and what is written so far leaves room in a message. *)
Lemma normal_added it n : it_size it <= ADVC_MAX_INPUT_BYTES -> 0 <= n -> n + zlen (normal it) <= ADVC_MAX_INPUT_BYTES ->
  match add_size (1 + extended (it_header it)) (leb128_size (it_size it)) with
  | inl _ => inl E2BIG
  | inr k =>
      match add_size k (it_size it) with
      | inl _ => inl E2BIG
      | inr k => if u64 (ADVC_MAX_INPUT_BYTES - k) <? n then inl E2BIG else inr k
      end
  end = inr (zlen (normal it)).
Proof.
  intros Hs Hn Hz. assert (it_size it < LEB_MAX) as Hm by (unfold LEB_MAX, ADVC_MAX_INPUT_BYTES in *; lia).
  pose proof (normal_size it Hm) as E. assert (0 <= it_size it) by apply zlen_nonneg.
  assert (1 <= leb128_size (it_size it)) as H1.
  { destruct (write_leb128_spec (it_size it)) as (Hl & <- & _); [lia|]. by apply leb_nonempty in Hl. }
  pose proof (zlen_nonneg (extension (it_header it))) as Hx. rewrite <- extended_spec in Hx.
  unfold add_size. unfold ADVC_MAX_INPUT_BYTES, SIZE_MAX, UINT64_MAX in *. rewrite (proj2 (Z.ltb_ge _ _)) by lia.
  rewrite (proj2 (Z.ltb_ge _ _)) by lia.
  rewrite u64_id by (unfold is_u64; lia). rewrite (proj2 (Z.ltb_ge _ _)) by lia. by rewrite E.
Qed.

Lemma fits_nil output n l : fits output n l -> fits output n [].
Proof. destruct output; [|done]. unfold fits. pose proof (zlen_nonneg (normalized l)). unfold zlen in *. cbn. lia.
  Qed.

(** What the loop does with an OBU it has found: [k] is the rest of the loop. *)
Definition annex_tail (data : list Z) (output : option Z) (s : parse_state) (n : Z) (out : list Z) (cursor : Z) (obu : av1_obu)
    (k : parse_state -> Z -> list Z -> Z + (parse_state * Z * list Z)) : Z + (parse_state * Z * list Z) :=
  s ← observe_obu picture s obu (payload_in data obu);
  normalized ←
    match add_size (ob_header_size obu) (leb128_size (ob_payload_size obu)) with
    | inl _ => inl E2BIG
    | inr m =>
        match add_size m (ob_payload_size obu) with
        | inl _ => inl E2BIG
        | inr m => if u64 (ADVC_MAX_INPUT_BYTES - m) <? n then inl E2BIG else inr m
        end
    end;
  out ← match output with
        | None => inr out
        | Some capacity =>
            if (capacity <? n) || (capacity - n <? normalized) then inl EOVERFLOW else inr (out ++ write_obu data cursor obu)
        end;
  k s (n + normalized) out.

Lemma annex_tail_exact pre it b rest output s n out k c :
  sized it b \/ unsized it b -> it_size it <= ADVC_MAX_INPUT_BYTES -> 0 <= n -> n + zlen (normal it) <= ADVC_MAX_INPUT_BYTES ->
  annex_tail (pre ++ b ++ rest) output s n out (zlen pre) (obu_at it (zlen pre + zlen b - it_size it)) k = inr c <->
  exists s1, observe_obu picture s (obu_at it (zlen pre + zlen b - it_size it)) (it_payload it) = inr s1 /\
    fits output (n + zlen (normal it)) [] /\
    k s1 (n + zlen (normal it)) (if output then out ++ normal it else out) = inr c.
Proof.
  intros Hs Hsz Hn Hz. unfold annex_tail. rewrite payload_found, normal_written by done. rewrite bind_inr.
  cbn [obu_at ob_header_size ob_payload_size]. rewrite normal_added by done. cbn [mbind res_bind].
  assert (0 <= zlen (normal it)) by apply zlen_nonneg.
  destruct output as [cap|]; cbn [fits mbind res_bind]; [|naive_solver]. unfold fits.
  change (zlen (normalized [])) with 0. rewrite Z.add_0_r.
  destruct (Z.ltb_spec cap n); cbn [orb]; [naive_solver lia|].
  destruct (Z.ltb_spec (cap - n) (zlen (normal it))); naive_solver lia.
Qed.

Definition loop_exact (fuel : nat) (output : option Z) (s' : parse_state) (n' : Z) (out' : list Z) : Prop :=
  forall pre rest s n out,
  bytes_ok (pre ++ rest) -> zlen (pre ++ rest) <= ADVC_MAX_INPUT_BYTES -> (length rest <= fuel)%nat ->
  0 <= n <= zlen pre -> fits output n [] ->
  annex_b_loop picture fuel (pre ++ rest) (zlen (pre ++ rest)) (zlen pre) output s n out = inr (s', n', out') <->
  annex_outcome s output n out (zlen pre) rest s' n' out'.

(** One round, given the others. *)
Lemma annex_found fuel output s' n' out' pre it b nb rest s n out (data := pre ++ nb ++ b ++ rest)
    (obu := obu_at it (zlen pre + zlen nb + zlen b - it_size it)) :
  loop_exact fuel output s' n' out' -> bytes_ok data -> zlen data <= ADVC_MAX_INPUT_BYTES ->
  (length (nb ++ b ++ rest) <= S fuel)%nat -> 0 <= n <= zlen pre -> leb (zlen b) nb -> sized it b \/ unsized it b ->
  annex_tail data output s n out (zlen pre + zlen nb) obu
    (annex_b_loop picture fuel data (zlen data) (zlen pre + zlen nb + zlen b) output) = inr (s', n', out') <->
  exists s1, observe_obu picture s obu (it_payload it) = inr s1 /\ fits output (n + zlen (normal it)) [] /\
    annex_outcome s1 output (n + zlen (normal it)) (if output then out ++ normal it else out)
      (zlen pre + zlen nb + zlen b) rest s' n' out'.
Proof.
  intros IH Hb Hz Hf Hn Hl Hs. unfold obu, data in *. clear obu data. rewrite !zlen_app in Hz.
  pose proof (obu_nonempty it b Hs). pose proof (leb_nonempty _ _ Hl). pose proof (zlen_nonneg rest).
  pose proof (zlen_nonneg pre).
  assert (it_ok it) as [_ Hit] by (apply (found_ok it b Hs); [by apply Forall_app in Hb as [_ [_ [? _]%Forall_app]%Forall_app]|lia]).
  pose proof (normal_shorter it b nb Hs Hl ltac:(unfold LEB_MAX, ADVC_MAX_INPUT_BYTES in *; lia)).
  replace (pre ++ nb ++ b ++ rest) with ((pre ++ nb) ++ b ++ rest) by (by rewrite <- app_assoc).
  rewrite <- !(zlen_app pre nb). rewrite annex_tail_exact by (done || lia).
  enough (forall s1, fits output (n + zlen (normal it)) [] ->
    annex_b_loop picture fuel ((pre ++ nb) ++ b ++ rest) (zlen ((pre ++ nb) ++ b ++ rest)) (zlen (pre ++ nb) + zlen b) output s1
      (n + zlen (normal it)) (if output then out ++ normal it else out) = inr (s', n', out') <->
    annex_outcome s1 output (n + zlen (normal it)) (if output then out ++ normal it else out) (zlen (pre ++ nb) + zlen b) rest s' n' out') as Hk
    by (split; intros (s1 & ? & ? & ?); exists s1; (split_and!; [done|done|by apply Hk])).
  intros s1 Hfit. rewrite <- !(zlen_app (pre ++ nb) b).
  replace ((pre ++ nb) ++ b ++ rest) with (((pre ++ nb) ++ b) ++ rest) by (by rewrite <- !app_assoc).
  apply IH; [by rewrite <- !app_assoc|rewrite !zlen_app; lia|rewrite !length_app in Hf; unfold zlen in *; lia|rewrite !zlen_app; lia|done].
Qed.

Lemma annex_loop_exact fuel output s' n' out' : loop_exact fuel output s' n' out'.
Proof.
  induction fuel as [|fuel IH]; intros pre rest s n out Hb Hz Hf Hn Hfit.
  { destruct rest; [|cbn in Hf; lia]. cbn [annex_b_loop]. rewrite app_nil_r, Z.ltb_irrefl, Z.eqb_refl.
    by apply annex_done. }
  cbn [annex_b_loop]. rewrite (zlen_app pre rest) in *. pose proof (zlen_nonneg pre). pose proof (zlen_nonneg rest).
  destruct (Z.ltb_spec (zlen pre) (zlen pre + zlen rest)) as [Hlt|Hge]; cycle 1.
  { assert (rest = []) as -> by (apply zlen_zero; lia). rewrite (proj2 (Z.eqb_eq _ _)) by (unfold zlen; cbn; lia).
    by apply annex_done. }
  rewrite drop_zlen. replace (zlen pre + zlen rest - zlen pre) with (zlen rest) by lia. rewrite <- zlen_app in *.
  replace (take (Z.to_nat (zlen rest)) rest) with rest by (unfold zlen; rewrite Nat2Z.id, firstn_all; done).
  pose proof Hb as Hb'. apply Forall_app in Hb' as [_ Hbr]. split.
  - rewrite bind_inr. intros ([lf m] & Hr & Hl). destruct (_ || _) eqn:E; [done|].
    apply orb_false_iff in E as [[E1 E2]%orb_false_iff E3].
    apply Z.ltb_ge in E1, E3. apply Z.eqb_neq in E2. apply bind_inr in Hl as (o & Ho & Hl).
    assert (0 <= lf) as Hlf by (apply read_leb128_exact in Hr as (nb & ? & _ & _ & ->); [apply zlen_nonneg|done]).
    rewrite Z2Nat.inj_add, <- drop_drop, drop_zlen in Ho by lia.
    destruct (proj1 (annex_step (zlen pre) rest lf m o Hbr ltac:(lia) ltac:(by rewrite <- zlen_app))) as (it & b & nb & rest' & -> & Hnb & Hs & -> & -> & ->); [by split_and!|].
    destruct (proj1 (annex_found fuel _ _ _ _ pre it b nb rest' s n out IH Hb Hz Hf Hn Hnb Hs) Hl) as (s1 & Hs1 & _ & l & Hl' & Ho' & Hfit' & -> & ->).
    eexists. split_and!; [by apply annex_cons| |by apply fits_cons| |by rewrite written_cons].
    + cbn [Av1Frame.observe_all fst snd]. by rewrite Hs1.
    + rewrite normalized_cons, zlen_app. cbn [fst]. lia.
  - intros (l & Hl & Ho & Hfit' & E1 & E2).
    inversion Hl as [|? it b nb l' bs Hnb Hs Hl']; subst l rest; [by apply Z.lt_neq in Hlt; rewrite app_nil_r in Hlt|].
    cbn [Av1Frame.observe_all fst snd] in Ho. apply bind_inr in Ho as (s1 & Hs1 & Ho). apply fits_cons in Hfit'.
    cbn [fst] in Hfit'.
    destruct (proj2 (annex_step (zlen pre) (nb ++ b ++ bs) (zlen nb) (zlen b)
      (obu_at it (zlen pre + zlen nb + zlen b - it_size it)) Hbr ltac:(lia) ltac:(by rewrite <- zlen_app))) as (Hr & Hr1 & Hr2 & Hr3 & Hp); [by exists it, b, nb, bs|].
    rewrite Hr. cbn [mbind res_bind].
    rewrite (proj2 (Z.ltb_ge _ _)), (proj2 (Z.eqb_neq _ _)), (proj2 (Z.ltb_ge _ _)) by lia. cbn [orb].
    rewrite Z2Nat.inj_add, <- drop_drop, drop_zlen by (pose proof (zlen_nonneg nb); lia). rewrite Hp.
    cbn [mbind res_bind].
    apply (annex_found fuel _ _ _ _ pre it b nb bs s n out IH Hb Hz Hf Hn Hnb Hs). exists s1.
    split_and!; [done|by eapply fits_nil|]. exists l'.
    rewrite written_cons in E2. rewrite normalized_cons, zlen_app in E1. cbn [fst] in *.
    split_and!; [done|done|done|lia|done].
Qed.

Lemma finish_bind {A} (x : Z + A) s (f : A -> parse_state) a :
  (x ≫= fun a => finish_parse (f a);; inr a) = inr a -> f a = s -> x = inr a /\ finish_parse s = inr tt.
Proof.
  intros (a' & -> & H)%bind_inr Hf. apply bind_inr in H as ([] & Hs & [= ->]). by rewrite <- Hf.
Qed.

(** The parsers are the framings with the grammar. *)
Lemma parse_raw_exact data s : bytes_ok data -> zlen data <= ADVC_MAX_INPUT_BYTES ->
  parse_raw_obus picture data = inr s <-> exists r l, raw_obus 0 l data /\ accepted picture r l /\ s = summary r l.
Proof.
  intros Hb Hz. unfold parse_raw_obus. pose proof (raw_loop_exact (length data) [] data blank_state) as Hx.
  cbn [app] in Hx. change (zlen []) with 0 in Hx. split.
  - intros H. apply (finish_bind _ s id) in H as [H Hfin]; [|done]. apply Hx in H as (l & Hl & Ho); [|done..].
    destruct (proj1 (observe_exact picture l s (raw_obus_ok _ _ _ Hl Hb Hz)) (conj Ho Hfin)) as (r & Ha & ->).
    by exists r, l.
  - intros (r & l & Hl & Ha & ->).
    destruct (proj2 (observe_exact picture l _ (raw_obus_ok _ _ _ Hl Hb Hz)) (ex_intro _ r (conj Ha eq_refl))) as [Ho Hfin].
    rewrite (proj2 (Hx _ Hb Hz (le_n _)) (ex_intro _ l (conj Hl Ho))). cbn [mbind res_bind]. by rewrite Hfin.
Qed.

Lemma annex_obus_ok off l bs : annex_obus off l bs -> bytes_ok bs -> zlen bs <= ADVC_MAX_INPUT_BYTES -> Forall (fun p => it_ok (fst p)) l.
Proof.
  induction 1 as [|off it b nb l bs _ Hs _ IH]; [constructor|]. intros [_ [Hb Hbs]%Forall_app]%Forall_app.
  rewrite !zlen_app. intros Hz.
  pose proof (zlen_nonneg b). pose proof (zlen_nonneg nb). pose proof (zlen_nonneg bs).
  constructor; [by apply (found_ok it b); [| |lia]|apply IH; [done|lia]].
Qed.

Lemma annex_open data output : bytes_ok data ->
  forall c, parse_annex_b picture data output = inr c <->
  exists tu fu obus, data = tu ++ fu ++ obus /\ leb (zlen (fu ++ obus)) tu /\ leb (zlen obus) fu /\
    ('(s, n, out) ← annex_b_loop picture (length data) data (zlen data) (zlen (tu ++ fu)) output blank_state 0 [];
     finish_parse s;; inr (s, n, out)) = inr c.
Proof.
  intros Hb c. unfold parse_annex_b. split.
  - destruct (read_leb128 data) as [|[tf ts]] eqn:Et; [done|].
    apply read_leb128_exact in Et as (tu & d1 & -> & Htu & ->); [|done].
    rewrite drop_zlen, zlen_app. destruct (Z.eqb_spec ts (zlen tu + zlen d1 - zlen tu)) as [->|]; [cbn [negb]|done].
    destruct (read_leb128 d1) as [|[ff fs]] eqn:Ef; [done|]. apply Forall_app in Hb as [_ Hb].
    apply read_leb128_exact in Ef as (fu & obus & -> & Hfu & ->); [|done]. rewrite zlen_app.
    destruct (_ || _) eqn:E; [done|]. apply orb_false_iff in E as [_ E]. apply negb_false_iff, Z.eqb_eq in E.
    assert (fs = zlen obus) as -> by lia. rewrite zlen_app in Htu.
    replace (zlen tu + (zlen fu + zlen obus) - zlen tu) with (zlen fu + zlen obus) in Htu by lia.
    intros H. exists tu, fu, obus. rewrite !zlen_app in *. split_and!; [done..|].
    by replace (zlen tu + (zlen fu + zlen obus)) with (zlen tu + zlen fu + zlen obus) by lia.
  - intros (tu & fu & obus & -> & Htu & Hfu & H).
    rewrite (read_leb128_app _ tu (fu ++ obus) Hb Htu), drop_zlen, (zlen_app tu).
    rewrite (proj2 (Z.eqb_eq _ _)) by lia. cbn [negb]. apply Forall_app in Hb as [_ Hb].
    rewrite (read_leb128_app _ fu obus Hb Hfu), !zlen_app in *.
    pose proof (zlen_nonneg obus). rewrite (proj2 (Z.ltb_ge _ _)), (proj2 (Z.eqb_eq _ _)) by lia. cbn [orb negb].
    by replace (zlen tu + zlen fu + zlen obus) with (zlen tu + (zlen fu + zlen obus)) by lia.
Qed.

Lemma unit_bytes tu fu obus : bytes_ok (tu ++ fu ++ obus) -> zlen (tu ++ fu ++ obus) <= ADVC_MAX_INPUT_BYTES ->
  bytes_ok obus /\ zlen obus <= ADVC_MAX_INPUT_BYTES.
Proof.
  intros [_ [_ Hb]%Forall_app]%Forall_app Hz. split; [done|]. rewrite !zlen_app in Hz. pose proof (zlen_nonneg tu).
  pose proof (zlen_nonneg fu). lia.
Qed.

Lemma parse_annex_exact data output s n out : bytes_ok data -> zlen data <= ADVC_MAX_INPUT_BYTES -> fits output 0 [] ->
  parse_annex_b picture data output = inr (s, n, out) <->
  exists r l, temporal_unit l data /\ accepted picture r l /\ s = summary r l /\
    fits output 0 l /\ n = zlen (normalized l) /\ out = written output [] l.
Proof.
  intros Hb Hz Hfit. rewrite annex_open by done. split.
  - intros (tu & fu & obus & -> & Htu & Hfu & H). apply bind_inr in H as ([[s1 n1] out1] & H & Hs).
    apply bind_inr in Hs as ([] & Hfin & [= -> -> ->]).
    rewrite app_assoc in H.
    apply annex_loop_exact in H as (l & Hl & Ho & Hfl & -> & ->); [|by rewrite <- app_assoc..|rewrite !length_app; lia|split; [done|apply zlen_nonneg]|done].
    rewrite zlen_app in Hl. destruct (unit_bytes tu fu obus Hb Hz) as [Hbo Hzo].
    destruct (proj1 (observe_exact picture l s (annex_obus_ok _ _ _ Hl Hbo Hzo)) (conj Ho Hfin)) as (r & Ha & ->).
    exists r, l. split_and!; [by exists tu, fu, obus|done..].
  - intros (r & l & (tu & fu & obus & -> & Htu & Hfu & Hl) & Ha & -> & Hfl & -> & ->). exists tu, fu, obus.
    split_and!; [done..|].
    destruct (unit_bytes tu fu obus Hb Hz) as [Hbo Hzo].
    destruct (proj2 (observe_exact picture l _ (annex_obus_ok _ _ _ Hl Hbo Hzo)) (ex_intro _ r (conj Ha eq_refl))) as [Ho Hfin].
    rewrite <- zlen_app in Hl. rewrite app_assoc in *.
    rewrite (proj2 (annex_loop_exact (length ((tu ++ fu) ++ obus)) output (summary r l) (zlen (normalized l)) (written output [] l) (tu ++ fu) obus blank_state 0 [] Hb Hz
      ltac:(rewrite (length_app _ obus); lia) ltac:(split; [done|apply zlen_nonneg]) Hfit)); [|by exists l].
    cbn [mbind res_bind]. by rewrite Hfin.
Qed.

End Streams.
