(* ===== verification/Av1Claims.v ===== *)
(** * AV1 access units, end to end

    The tiles of a picture against the OBUs they lie in, and
    [advc_av1_build_access_unit] of Av1.v: what it accepts, what it returns, and that it
    returns. *)

From stdpp Require Import base list.
From Stdlib Require Import ZArith Lia Bool.
#[local] Notation length := List.length.
From S2P Require Import Prelude Kernel Protocol AnnexB Av1 Av1Spec Av1Frame Av1Stream.

(** ** Tiles *)

(** The widths of the fields that are used as numbers. *)
Definition picture_widths (picture : av1_picture) : Prop :=
  is_u8 (ap_tile_cols picture) /\ is_u8 (ap_tile_rows picture) /\ 0 <= ap_frame_type picture < 4.
Definition tile_widths (t : av1_tile) : Prop :=
  is_u32 (at_slice_data_size t) /\ is_u32 (at_slice_data_offset t) /\ is_u16 (at_tile_row t) /\ is_u16 (at_tile_column t).

(** A whole tile of the picture that lies in one of the payloads. *)
Definition tile_ok (picture : av1_picture) (size : Z) (spans : list (Z * Z)) (t : av1_tile) : Prop :=
  at_slice_data_flag t = VA_SLICE_DATA_FLAG_ALL /\ 0 < at_slice_data_size t /\
  at_tile_row t < ap_tile_rows picture /\ at_tile_column t < ap_tile_cols picture /\ tile_end t <= size /\
  exists span, span ∈ spans /\ fst span <= tile_begin t /\ tile_end t <= snd span.
(** Two tiles at different places of the picture and of the data. *)
Definition apart (t u : av1_tile) : Prop :=
  (at_tile_row t, at_tile_column t) <> (at_tile_row u, at_tile_column u) /\
  (tile_end u <= tile_begin t \/ tile_end t <= tile_begin u).
(** Every tile of the picture once. *)
Definition tiles_ok (picture : av1_picture) (size : Z) (spans : list (Z * Z)) (tiles : list av1_tile) : Prop :=
  zlen tiles = ap_tile_cols picture * ap_tile_rows picture /\ tiles <> [] /\ Forall (tile_ok picture size spans) tiles /\
  forall i j t u, (i < j)%nat -> tiles !! i = Some t -> tiles !! j = Some u -> apart u t.

Section Tiles.
Context (picture : av1_picture) (Hpic : picture_widths picture)
  (Hmax : ap_tile_cols picture * ap_tile_rows picture <= ADVC_AV1_MAX_TILES).

Lemma contained_spec s t :
  contained s t = true <-> exists span, span ∈ ps_payloads s /\ fst span <= tile_begin t /\ tile_end t <= snd span.
Proof.
  unfold contained. rewrite existsb_exists. setoid_rewrite andb_true_iff. setoid_rewrite Z.leb_le.
  split; intros (p & Hp & ?); exists p; (split; [by apply list_elem_of_In|done]).
Qed.

Lemma tile_index_range t : tile_widths t -> at_tile_row t < ap_tile_rows picture -> at_tile_column t < ap_tile_cols picture ->
  0 <= tile_index picture t < ADVC_AV1_MAX_TILES.
Proof. destruct Hpic as (? & ? & _). intros (_ & _ & Hr & Hc) ? ?. unfold tile_index, is_u8, is_u16 in *. nia. Qed.

Lemma tile_index_inj t u : tile_widths t -> tile_widths u ->
  at_tile_column t < ap_tile_cols picture -> at_tile_column u < ap_tile_cols picture ->
  tile_index picture t = tile_index picture u <-> (at_tile_row t, at_tile_column t) = (at_tile_row u, at_tile_column u).
Proof.
  destruct Hpic as (? & ? & _). intros (_ & _ & Hr & Hc) (_ & _ & Hr' & Hc') ? ?.
  unfold tile_index, is_u8, is_u16 in *. split.
  - intros E. assert (at_tile_row t = at_tile_row u) by nia. f_equal; [done|]. nia.
  - by intros [= -> ->].
Qed.

(** [seen]: the places of the tiles before. *)
Definition seen_ok (before : list av1_tile) (seen : list bool) : Prop :=
  length seen = Z.to_nat ADVC_AV1_MAX_TILES /\
  forall i, (i < length seen)%nat -> seen !! i = Some true <-> exists t, t ∈ before /\ Z.to_nat (tile_index picture t) = i.

Fixpoint spread (before tiles : list av1_tile) : Prop :=
  match tiles with [] => True | t :: tiles => Forall (apart t) before /\ spread (before ++ [t]) tiles end.

Lemma tile_ok_spec size s t : tile_widths t ->
  tile_bad picture size t = false /\ contained s t = true <-> tile_ok picture size (ps_payloads s) t.
Proof.
  intros (Hs & Ho & _). unfold tile_bad, tile_ok.
  rewrite contained_spec, !orb_false_iff, negb_false_iff, !Z.eqb_eq, Z.eqb_neq, !Z.leb_gt, !Z.ltb_ge.
  unfold tile_end, tile_begin, is_u32 in *. naive_solver lia.
Qed.

Lemma apart_spec size spans before seen t : tile_widths t -> Forall tile_widths before -> Forall (tile_ok picture size spans) before ->
  seen_ok before seen -> tile_ok picture size spans t ->
  default false (seen !! Z.to_nat (tile_index picture t)) = false /\ existsb (overlaps t) before = false <-> Forall (apart t) before.
Proof.
  intros Ht Hf Hok [Hlen Hseen] (_ & _ & Hr & Hc & _). pose proof (tile_index_range t Ht Hr Hc) as Hi.
  rewrite Forall_forall in Hf, Hok |- *.
  specialize (Hseen (Z.to_nat (tile_index picture t)) ltac:(lia)).
  destruct (lookup_lt_is_Some_2 seen (Z.to_nat (tile_index picture t))) as [b Eb]; [lia|].
  rewrite Eb in *. cbn [default].
  rewrite <- not_true_iff_false, <- (not_true_iff_false (existsb _ _)), existsb_exists.
  assert (b = true <-> exists u, u ∈ before /\ tile_index picture u = tile_index picture t) as Hb.
  { split.
    - intros ->. destruct (proj1 Hseen eq_refl) as (u & Hu & E). exists u. split; [done|].
      destruct (Hok u Hu) as (_ & _ & Hru & Hcu & _). pose proof (tile_index_range u (Hf u Hu) Hru Hcu). lia.
    - intros (u & Hu & E). enough (Some b = Some true) as [= ->] by done. apply Hseen. exists u. by rewrite E. }
  rewrite Hb. clear Hb Hseen. assert (forall u, u ∈ before ->
    (tile_index picture u = tile_index picture t <-> (at_tile_row t, at_tile_column t) = (at_tile_row u, at_tile_column u)) /\
    (overlaps t u = true <-> ~ (tile_end u <= tile_begin t \/ tile_end t <= tile_begin u))) as Hu.
  { intros u Hu. destruct (Hok u Hu) as (_ & _ & _ & Hcu & _). rewrite tile_index_inj by auto. split; [by split|].
    unfold overlaps. rewrite andb_true_iff, !Z.ltb_lt. lia. }
  setoid_rewrite list_elem_of_In in Hu. setoid_rewrite list_elem_of_In. unfold apart. split.
  - intros [H1 H2] u Hin. destruct (Hu u Hin) as [E1 E2]. split.
    + intros E. apply H1. exists u. split; [done|]. by apply E1.
    + destruct (Z.le_gt_cases (tile_end u) (tile_begin t)); [by left|].
      destruct (Z.le_gt_cases (tile_end t) (tile_begin u)); [by right|].
      exfalso. apply H2. exists u. split; [done|]. apply E2. lia.
  - intros H. split; intros (u & Hin & E); destruct (H u Hin) as [H1 H2]; destruct (Hu u Hin) as [E1 E2]; [by apply H1, E1|by apply E2 in E].
Qed.

Lemma seen_step before seen t : seen_ok before seen -> 0 <= tile_index picture t < ADVC_AV1_MAX_TILES ->
  seen_ok (before ++ [t]) (<[Z.to_nat (tile_index picture t) := true]> seen).
Proof.
  intros [Hlen Hs] Hi. split; [by rewrite length_insert|]. rewrite length_insert. intros i Hlt.
  destruct (decide (i = Z.to_nat (tile_index picture t))) as [->|Hne].
  - rewrite list_lookup_insert_eq by lia. split; [|done]. intros _. exists t.
    split; [apply elem_of_app; right; by constructor|done].
  - rewrite list_lookup_insert_ne by done. rewrite Hs by done. setoid_rewrite elem_of_app.
    setoid_rewrite list_elem_of_singleton. naive_solver.
Qed.

Lemma tile_loop_exact size s before tiles seen : Forall tile_widths (before ++ tiles) ->
  Forall (tile_ok picture size (ps_payloads s)) before -> seen_ok before seen ->
  tile_loop picture size s before tiles seen = inr tt <-> Forall (tile_ok picture size (ps_payloads s)) tiles /\ spread before tiles.
Proof.
  revert before seen. induction tiles as [|t tiles IH]; intros before seen Hf Hbef Hseen; cbn [tile_loop spread].
  { split; [by split|done]. }
  pose proof Hf as Hf'. apply Forall_app in Hf' as [Hfb [Ht Hft]%Forall_cons]. rewrite Forall_cons.
  pose proof (tile_ok_spec size s t Ht) as Hok. pose proof (apart_spec size _ before seen t Ht Hfb Hbef Hseen) as Hap.
  destruct (tile_bad picture size t); [by split; [|intros [[[? _]%Hok _] _]]|].
  destruct (contained s t) eqn:Ec; cbn [negb]; [|destruct (default _ _); by split; [|intros [[[_ ?]%Hok _] _]]].
  assert (tile_ok picture size (ps_payloads s) t) as Htok by (by apply Hok). specialize (Hap Htok).
  destruct (default _ _); [by split; [|intros [_ [[? _]%Hap _]]]|].
  destruct (existsb _ _); [by split; [|intros [_ [[_ ?]%Hap _]]]|].
  pose proof Htok as (_ & _ & Hr & Hc & _).
  rewrite IH; [|by rewrite <- app_assoc|apply Forall_app; auto|by apply seen_step, tile_index_range].
  pose proof (proj1 Hap (conj eq_refl eq_refl)). tauto.
Qed.

Lemma spread_lookup before tiles : spread before tiles <-> forall j u, tiles !! j = Some u -> Forall (apart u) (before ++ take j tiles).
Proof.
  revert before. induction tiles as [|t tiles IH]; intros before; cbn [spread]; [by split|]. rewrite IH. split.
  - intros [H1 H2] [|j] u Hj; cbn in *; [injection Hj as ->; by rewrite app_nil_r|]. specialize (H2 j u Hj).
    by rewrite <- app_assoc in H2.
  - intros H. split; [specialize (H 0%nat t eq_refl); by rewrite app_nil_r in H|]. intros j u Hj.
    rewrite <- app_assoc. by apply (H (S j)).
Qed.

Lemma validate_tiles_exact tiles size s : Forall tile_widths tiles ->
  validate_tiles picture (Some tiles) size s = inr tt <-> tiles_ok picture size (ps_payloads s) tiles.
Proof.
  intros Hf. unfold validate_tiles, tiles_ok.
  destruct (Z.eqb_spec (zlen tiles) (ap_tile_cols picture * ap_tile_rows picture)) as [E|E]; cbn [negb orb]; [|naive_solver].
  destruct (Z.eqb_spec (zlen tiles) 0) as [E0|E0]; [apply zlen_zero in E0; naive_solver|].
  rewrite tile_loop_exact; [|done|constructor|].
  2: { split; [by rewrite length_replicate|]. intros i Hi. rewrite length_replicate in Hi.
  rewrite lookup_replicate_2 by done. split; [done|]. by intros (? & ?%not_elem_of_nil & _). }
  rewrite spread_lookup. assert (tiles <> []) by (by intros ->). cbn [app].
  enough ((forall j u, tiles !! j = Some u -> Forall (apart u) (take j tiles)) <->
          forall i j t u, (i < j)%nat -> tiles !! i = Some t -> tiles !! j = Some u -> apart u t) by tauto.
  split.
  - intros H' i j t u Hij Hi Hj. specialize (H' j u Hj). rewrite Forall_lookup in H'. apply (H' i).
    by rewrite lookup_take_lt.
  - intros H' j u Hj. apply Forall_lookup. intros i t [Hi Hij]%lookup_take_Some. by apply (H' i j).
Qed.
End Tiles.

(** ** The picture *)

(** An 8-bit 4:2:0 picture of the main profile, of the size expected, with its tiles. *)
Definition picture_ok (picture : av1_picture) (width height : Z) : Prop :=
  0 < width <= 65535 /\ 0 < height <= 65535 /\
  ap_profile picture = 0 /\ ap_bit_depth_idx picture = 0 /\ ap_mono_chrome picture = 0 /\
  ap_subsampling_x picture = 1 /\ ap_subsampling_y picture = 1 /\ ap_large_scale_tile picture = 0 /\
  ap_anchor_frames_num picture = 0 /\ ap_frame_width_minus1 picture + 1 = width /\ ap_frame_height_minus1 picture + 1 = height /\
  0 < ap_tile_cols picture * ap_tile_rows picture <= ADVC_AV1_MAX_TILES.

Lemma validate_picture_exact picture width height : picture_widths picture -> is_u32 width -> is_u32 height ->
  validate_picture picture width height = inr tt <-> picture_ok picture width height.
Proof.
  intros (Hc & Hr & _) Hw Hh. unfold validate_picture, picture_ok, is_u8, is_u32 in *.
  assert (forall (b : bool) e (x : Z + unit), (if b then inl e else x) = inr tt <-> b = false /\ x = inr tt) as Hif
    by (intros [] ? ?; naive_solver).
  rewrite !Hif, !orb_false_iff, !negb_false_iff, !Z.eqb_eq, !Z.eqb_neq, !Z.ltb_ge. split; [intros; naive_solver nia|].
  intros (? & ? & ? & ? & ? & ? & ? & ? & ? & ? & ? & H).
  split_and!; try done; try lia; intros E; rewrite E in H; lia.
Qed.

(** ** The summary of a frame *)

Section Summary.
Context (picture : av1_picture).

Lemma summary_payloads r l : accepted picture r l -> ps_payloads (summary r l) = tile_spans l.
Proof.
  intros (_ & before & after & -> & Hld & Hf). destruct (leading_inert picture _ _ _ Hld) as [Hb1 Hb2].
  unfold summary. rewrite existsb_app, Hb1, tile_spans_app, Hb2. cbn [orb app].
  destruct Hf as [[it o] l Ht _ Hall|[it o] l Ht _ Hall _];
    apply of_type_spec in Ht; cbn [fst] in Ht; rewrite existsb_frame_cons, tile_spans_cons, Ht; cbn; [by rewrite padding_inert|by rewrite groups_inert].
Qed.
Lemma summary_fields r l : ps_obu_count (summary r l) = zlen l /\ ps_sequence_seen (summary r l) = bool_decide (is_Some r).
Proof. unfold summary. by destruct (existsb _ _). Qed.

(** *** The normal form of a frame is a frame *)

Fixpoint renormalized (off : Z) (l : list placed) : list placed :=
  match l with
  | [] => []
  | p :: l => (with_size (fst p), off + zlen (normal (fst p)) - it_size (fst p)) :: renormalized (off + zlen (normal (fst p))) l
  end.

Lemma with_size_type it : it_type (with_size it) = it_type it.
Proof.
  unfold it_type, with_size. cbn [it_header]. rewrite Z.shiftr_lor. change (Z.shiftr 2 3) with 0.
  by rewrite Z.lor_0_r.
Qed.

Lemma normal_sized it : header_ok it -> it_size it < LEB_MAX -> sized (with_size it) (normal it).
Proof.
  intros [Hh H0] Hz. assert (0 <= it_size it) by apply zlen_nonneg. split; [|split].
  - split; cbn [with_size it_header].
    + apply Z.eqb_eq in H0.
      pose proof (byte_cases (fun h => (0 <=? Z.lor h 2) && (Z.lor h 2 <? 256)) ltac:(by vm_compute) _ Hh) as Hl.
      cbn beta in Hl. unfold is_u8. change (2 ^ 8) with 256. lia.
    + by rewrite Z.land_lor_distr_l, H0.
  - cbn [with_size it_header]. rewrite Z.land_lor_distr_l. intros [_ E]%Z.lor_eq_0_iff. done.
  - exists (write_leb128 (it_size it)). split; [by apply write_leb128_spec|]. unfold normal, extension, with_size.
    cbn [it_header it_payload].
    by rewrite Z.lor_spec, orb_false_r.
Qed.

Lemma renormalized_raw off l : Forall (fun p => header_ok (fst p) /\ it_size (fst p) < LEB_MAX) l ->
  raw_obus off (renormalized off l) (normalized l).
Proof.
  intros Hl. revert off. induction Hl as [|p l [Hh Hz] _ IH]; intros off; [constructor|]. rewrite normalized_cons.
  cbn [renormalized].
  apply (raw_cons off (with_size (fst p))); [by apply normal_sized|apply IH].
Qed.

Definition similar (p q : placed) : Prop := it_type (fst p) = it_type (fst q) /\ it_payload (fst p) = it_payload (fst q).

Lemma renormalized_similar off l : Forall2 similar l (renormalized off l).
Proof. revert off. induction l as [|p l IH]; intros off; constructor; [|apply IH]. split; [|done]. cbn [fst].
  by rewrite with_size_type. Qed.

Lemma similar_spans l l' : Forall2 similar l l' -> zlen (tile_spans l) = zlen (tile_spans l').
Proof.
  induction 1 as [|[it o] [it' o'] l l' [E _] _ IH]; [done|]. cbn [fst] in E.
  rewrite !tile_spans_cons, !zlen_app, E, IH. by destruct (_ || _).
Qed.
Lemma similar_type ty p q : similar p q -> of_type ty p -> of_type ty q.
Proof. intros [E _]. rewrite !of_type_spec. by rewrite E. Qed.
Lemma similar_forall (P Q : placed -> Prop) l l' : (forall p q, similar p q -> P p -> Q q) -> Forall2 similar l l' -> Forall P l -> Forall Q l'.
Proof. intros HPQ. induction 1; inversion_clear 1; constructor; eauto. Qed.

Lemma similar_leading r l r' l' : leading picture r l r' -> Forall2 similar l l' -> leading picture r l' r'.
Proof.
  intros H. revert l'. induction H as [r|r p l r' Hp _ IH|p l b r' Ht Hb _ IH]; intros l' Hs; inversion Hs as [|? q ? l1 Hpq Hl1]; subst; [constructor| |].
  - apply leading_lead; [|by apply IH].
    destruct Hp as [[Ht Hz]|[Ht|Ht]]; [left|right; left|right; right]; try (by apply (similar_type _ p)).
    split; [by apply (similar_type _ p)|]. unfold it_size in *. by rewrite <- (proj2 Hpq).
  - apply (leading_sequence picture q l1 b); [by apply (similar_type _ p)| |by apply IH]. unfold sequence_ok in *.
    by rewrite <- (proj2 Hpq).
Qed.
Lemma similar_frame r l l' : frame picture r l -> Forall2 similar l l' -> frame picture r l'.
Proof.
  assert (forall p q, similar p q -> frame_ok picture r (fst p) -> frame_ok picture r (fst q)) as Hfo
    by (intros p q [_ E]; unfold frame_ok; by rewrite E).
  intros [p l0 Ht Hf Hall|p l0 Ht Hf Hall Hz] Hs; inversion Hs as [|? q ? l1 Hpq Hl1]; subst.
  - apply frame_one; [by apply (similar_type _ p)|by apply (Hfo p)|]. eapply similar_forall; [|done|done]. intros ? ?.
    apply similar_type.
  - apply frame_groups; [by apply (similar_type _ p)|by apply (Hfo p)| |by rewrite <- (similar_spans l0)].
    eapply similar_forall; [|done|done]. cbn beta. intros p' q' Hs' [?|?]; [left|right]; by apply (similar_type _ p').
Qed.
Lemma similar_accepted r l l' : Forall2 similar l l' -> accepted picture r l -> accepted picture r l'.
Proof.
  intros Hs (Hn & before & after & -> & Hld & Hf).
  split; [unfold zlen in *; by rewrite <- (Forall2_length _ _ _ Hs)|].
  apply Forall2_app_inv_l in Hs as (l1 & l2 & Hs1 & Hs2 & ->). exists l1, l2.
  split_and!; [done|by eapply similar_leading|by eapply similar_frame].
Qed.
End Summary.

(** ** The access unit *)

Section Build.
Context (picture : av1_picture) (tiles : list av1_tile) (data : list Z) (width height : Z).

Definition raw_frame (r : option bool) (l : list placed) : Prop := raw_obus 0 l data /\ accepted picture r l.
Definition annex_frame (r : option bool) (l : list placed) : Prop := temporal_unit l data /\ accepted picture r l.
Definition unit_info (format : av1_input_format) (r : option bool) (l : list placed) : av1_access_unit_info :=
  Av1Info format (ap_frame_type picture) (ap_frame_type picture =? 0) (bool_decide (is_Some r)) (zlen l).

(** Exactly one of the two framings holds a frame, and its tiles lie in it. *)
Definition unit_result (out : list Z) (info : av1_access_unit_info) : Prop :=
  exists r l, tiles_ok picture (zlen data) (tile_spans l) tiles /\
  (raw_frame r l /\ (forall r' l', ~ annex_frame r' l') /\ out = data /\ info = unit_info ADVC_AV1_INPUT_RAW_OBU r l \/
   annex_frame r l /\ (forall r' l', ~ raw_frame r' l') /\ out = normalized l /\ info = unit_info ADVC_AV1_INPUT_ANNEX_B r l).

Context (Hpic : picture_widths picture) (Htiles : Forall tile_widths tiles) (Hbytes : bytes_ok data)
  (Hsize : zlen data <= ADVC_MAX_INPUT_BYTES) (Hw : is_u32 width) (Hh : is_u32 height).

Lemma raw_first r l : raw_frame r l -> parse_raw_obus picture data = inr (summary r l).
Proof. intros [Hl Ha]. apply parse_raw_exact; [done..|]. by exists r, l. Qed.
Lemma raw_result : match parse_raw_obus picture data with
  | inr s => exists r l, raw_frame r l /\ s = summary r l
  | inl _ => forall r l, ~ raw_frame r l
  end.
Proof.
  destruct (parse_raw_obus picture data) as [e|s] eqn:E; [by intros r l H; rewrite (raw_first r l H) in E|].
  apply parse_raw_exact in E as (r & l & Hl & Ha & ->); [|done..]. by exists r, l.
Qed.

(** The two passes. *)
Lemma annex_first r l : annex_frame r l -> parse_annex_b picture data None = inr (summary r l, zlen (normalized l), []).
Proof. intros [Hl Ha]. apply parse_annex_exact; [done..|]. by exists r, l. Qed.
Lemma annex_second r l : annex_frame r l ->
  parse_annex_b picture data (Some (zlen (normalized l))) = inr (summary r l, zlen (normalized l), normalized l).
Proof.
  intros [Hl Ha]. apply parse_annex_exact; [done|done|unfold fits; apply zlen_nonneg|]. exists r, l.
  split_and!; try done. cbn. lia.
Qed.
Lemma annex_result : match parse_annex_b picture data None with
  | inr (s, n, _) => exists r l, annex_frame r l /\ s = summary r l /\ n = zlen (normalized l)
  | inl _ => forall r l, ~ annex_frame r l
  end.
Proof.
  destruct (parse_annex_b picture data None) as [e|[[s n] out]] eqn:E; [by intros r l H; rewrite (annex_first r l H) in E|].
  apply parse_annex_exact in E as (r & l & Hl & Ha & -> & _ & -> & _); [|done..]. by exists r, l.
Qed.

Lemma info_u8 : u8 (ap_frame_type picture) = ap_frame_type picture.
Proof. destruct Hpic as (_ & _ & ?). apply u8_id. unfold is_u8. lia. Qed.

Lemma tiles_exact r l : picture_ok picture width height -> accepted picture r l ->
  validate_tiles picture (Some tiles) (zlen data) (summary r l) = inr tt <-> tiles_ok picture (zlen data) (tile_spans l) tiles.
Proof. intros (_ & _ & _ & _ & _ & _ & _ & _ & _ & _ & _ & Hmax) Ha. rewrite validate_tiles_exact by (done || lia).
  by rewrite (summary_payloads picture). Qed.

End Build.

(** What is returned is right. *)
Lemma build_sound picture tiles data width height out n info :
  picture_widths picture -> Forall tile_widths tiles -> bytes_ok data -> is_u32 width -> is_u32 height ->
  advc_av1_build_access_unit true (Some picture) (Some tiles) (Some data) width height = inr (out, n, info) ->
  0 < zlen data <= ADVC_MAX_INPUT_BYTES /\ picture_ok picture width height /\ n = zlen out /\ unit_result picture tiles data out info.
Proof.
  intros Hpic Htiles Hb Hw Hh. unfold advc_av1_build_access_unit. pose proof (zlen_nonneg data).
  destruct (Z.eqb_spec (zlen data) 0) as [E0|E0]; cbn [orb]; [done|].
  destruct (Z.ltb_spec ADVC_MAX_INPUT_BYTES (zlen data)) as [Hbig|Hz]; [done|].
  pose proof (validate_picture_exact picture width height Hpic Hw Hh) as Hp.
  destruct (validate_picture picture width height) as [|[]]; cbn [mbind res_bind]; [done|].
  assert (picture_ok picture width height) as Hok by (by apply Hp). rewrite (info_u8 picture Hpic). cbn zeta.
  pose proof (raw_result picture data Hb Hz) as Hraw. pose proof (annex_result picture data Hb Hz) as Hannex.
  destruct (parse_raw_obus picture data) as [e|s], (parse_annex_b picture data None) as [f|[[s' m] o]]; [done| | |done].
  - destruct Hannex as (r & l & Hf & -> & ->). rewrite (annex_second picture data Hb Hz r l Hf).
    intros ([] & Ht & [= <- <- <-])%bind_inr.
    apply (tiles_exact picture tiles data width height Hpic Htiles r l Hok (proj2 Hf)) in Ht.
    split_and!; [lia|done|done|done|].
    exists r, l. split; [done|]. right. destruct (summary_fields r l) as [-> ->]. done.
  - destruct Hraw as (r & l & Hf & ->). intros ([] & Ht & [= <- <- <-])%bind_inr.
    apply (tiles_exact picture tiles data width height Hpic Htiles r l Hok (proj2 Hf)) in Ht.
    split_and!; [lia|done|done|done|].
    exists r, l. split; [done|]. left. destruct (summary_fields r l) as [-> ->]. done.
Qed.

(** *** The output as a stream *)

Lemma sized_bytes it b : sized it b -> bytes_ok (it_payload it) -> bytes_ok b.
Proof.
  intros ([Hh _] & _ & n & [Hn _] & ->) Hp. constructor; [done|]. apply Forall_app.
  split; [|apply Forall_app; split; [by apply leb_form_bytes|done]].
  unfold extension. destruct (Z.testbit _ _); repeat constructor; unfold is_u8; lia.
Qed.
Lemma raw_obus_bytes off l bs : raw_obus off l bs -> Forall (fun p => it_ok (fst p)) l -> bytes_ok bs.
Proof.
  induction 1 as [|off it b l bs Hs _ IH]; [constructor|]. intros [[Hp _] Hl]%Forall_cons. apply Forall_app.
  split; [by apply (sized_bytes it)|auto].
Qed.
Lemma annex_headers off l bs : annex_obus off l bs -> Forall (fun p => header_ok (fst p)) l.
Proof. induction 1 as [|off it b n l bs _ Hs _ IH]; constructor; [|done]. by destruct Hs as [[? _]|[? _]]. Qed.
Lemma normalized_shorter off l bs : annex_obus off l bs -> Forall (fun p => it_ok (fst p)) l -> zlen (normalized l) <= zlen bs.
Proof.
  induction 1 as [|off it b n l bs Hl Hs _ IH]; [done|]. intros [[_ Hz] Hok]%Forall_cons.
  rewrite normalized_cons, !zlen_app. cbn [fst] in *.
  pose proof (normal_shorter it b n Hs Hl ltac:(unfold LEB_MAX, ADVC_MAX_INPUT_BYTES in *; lia)). specialize (IH Hok).
  lia.
Qed.
Lemma similar_ok l l' : Forall2 similar l l' -> Forall (fun p => it_ok (fst p)) l -> Forall (fun p => it_ok (fst p)) l'.
Proof. apply similar_forall. intros p q [_ E]. unfold it_ok, it_size. by rewrite E. Qed.
Lemma similar_refl l : Forall2 similar l l.
Proof. induction l; by constructor. Qed.

(** C30. What is an access unit, and what is returned for it.  A buffer of at most
    [ADVC_MAX_INPUT_BYTES] bytes with a picture of the size expected is accepted if
    exactly one of the two framings reads it as one frame and every tile of the picture
    is there once, inside a payload and apart from the others.  What is returned is the
    buffer itself, or the OBUs of the temporal unit with their size fields; the size is
    its length, and the number of OBUs and whether there is a sequence header are told.
    Everything else is refused. *)
Theorem av1_access_unit_exact picture tiles data width height out n info :
  picture_widths picture -> Forall tile_widths tiles -> Forall is_u8 data -> is_u32 width -> is_u32 height ->
  advc_av1_build_access_unit true (Some picture) (Some tiles) (Some data) width height = inr (out, n, info) <->
  0 < zlen data <= ADVC_MAX_INPUT_BYTES /\ picture_ok picture width height /\ n = zlen out /\ unit_result picture tiles data out info.
Proof.
  intros Hpic Htiles Hb Hw Hh. split; [by apply build_sound|]. intros (Hz & Hok & -> & r & l & Ht & Hcase).
  unfold advc_av1_build_access_unit. rewrite (proj2 (Z.eqb_neq _ _)), (proj2 (Z.ltb_ge _ _)) by lia. cbn [orb].
  rewrite (proj2 (validate_picture_exact picture width height Hpic Hw Hh) Hok). cbn [mbind res_bind].
  rewrite (info_u8 picture Hpic). cbn zeta.
  destruct Hz as [_ Hz]. destruct (summary_fields r l) as [Es1 Es2].
  destruct Hcase as [(Hf & Hno & -> & ->)|(Hf & Hno & -> & ->)].
  - rewrite (raw_first picture data Hb Hz r l Hf). pose proof (annex_result picture data Hb Hz) as Hannex.
    destruct (parse_annex_b picture data None) as [f|[[s' m] o]]; [|by destruct Hannex as (r' & l' & ? & _); destruct (Hno r' l')].
    rewrite (proj2 (tiles_exact picture tiles data width height Hpic Htiles r l Hok (proj2 Hf)) Ht).
    cbn [mbind res_bind negb]. by rewrite Es1, Es2.
  - rewrite (annex_first picture data Hb Hz r l Hf), (annex_second picture data Hb Hz r l Hf).
    pose proof (raw_result picture data Hb Hz) as Hraw.
    destruct (parse_raw_obus picture data) as [f|s]; [|by destruct Hraw as (r' & l' & ? & _); destruct (Hno r' l')].
    rewrite (proj2 (tiles_exact picture tiles data width height Hpic Htiles r l Hok (proj2 Hf)) Ht).
    cbn [mbind res_bind negb]. by rewrite Es1, Es2.
Qed.

(** C31. What is returned reads as size-delimited OBUs.  The parser of that format accepts
    the output of either format as one frame, with the number of OBUs told; they are the
    OBUs of the input by type and payload, in its order, and the output is not longer
    than the input. *)
Theorem av1_output_is_raw picture tiles data width height out n info :
  picture_widths picture -> Forall tile_widths tiles -> Forall is_u8 data -> is_u32 width -> is_u32 height ->
  advc_av1_build_access_unit true (Some picture) (Some tiles) (Some data) width height = inr (out, n, info) ->
  exists r l l', (raw_obus 0 l data \/ temporal_unit l data) /\ Forall2 similar l l' /\
    raw_obus 0 l' out /\ parse_raw_obus picture out = inr (summary r l') /\
    ai_obu_count info = zlen l' /\ n = zlen out /\ zlen out <= zlen data.
Proof.
  intros Hpic Htiles Hb Hw Hh (Hz & _ & -> & r & l & _ & Hcase)%build_sound; [|done..].
  destruct Hcase as [((Hl & Ha) & _ & -> & ->)|((Hl & Ha) & _ & -> & ->)].
  - exists r, l, l. split_and!; [by left|apply similar_refl|done| |done|done|lia]. apply parse_raw_exact; [done|lia|].
    by exists r, l.
  - destruct Hl as (tu & fu & obus & -> & Htu & Hfu & Hl).
    destruct (unit_bytes tu fu obus Hb ltac:(lia)) as [Hbo Hzo].
    pose proof (annex_obus_ok _ _ _ Hl Hbo Hzo) as Hok. pose proof (normalized_shorter _ _ _ Hl Hok) as Hshort.
    pose proof (renormalized_similar 0 l) as Hsim. assert (raw_obus 0 (renormalized 0 l) (normalized l)) as Hraw.
    { apply renormalized_raw, Forall_and. split; [by eapply annex_headers|]. eapply Forall_impl; [exact Hok|].
      intros p [_ Hp]. unfold LEB_MAX, ADVC_MAX_INPUT_BYTES in *. lia. }
    exists r, l, (renormalized 0 l). split_and!; [right; by exists tu, fu, obus|done|done| | |done|].
    + apply parse_raw_exact; [by eapply raw_obus_bytes, similar_ok|lia|]. exists r, (renormalized 0 l).
      split_and!; [done|by eapply similar_accepted|done].
    + cbn [unit_info ai_obu_count]. unfold zlen. by rewrite (Forall2_length _ _ _ Hsim).
    + rewrite !zlen_app. pose proof (zlen_nonneg tu). pose proof (zlen_nonneg fu). lia.
Qed.

(** ** The fuel *)

Definition fuelled {A} (x : Z + A) : Prop := x <> inl OUT_OF_FUEL.
Lemma bind_fuelled {A C} (x : Z + A) (k : A -> Z + C) : fuelled x -> (forall a, x = inr a -> fuelled (k a)) -> fuelled (x ≫= k).
Proof. destruct x as [e|a]; [|intros _ H; by apply H]. intros He _ [= ->]. by apply He. Qed.

(** A body without loops. *)
Ltac straight :=
  repeat (first
    [ apply bind_fuelled; [|intros ? _] | done
    | match goal with
      | |- fuelled (if ?b then _ else _) => destruct b
      | |- fuelled (let '(_, _) := ?p in _) => destruct p
      | |- fuelled (match ?x with _ => _ end) => destruct x
      end ]);
  try done.

Lemma leb128_loop_fuelled n i d data : fuelled (leb128_loop n i d data).
Proof. revert i d data. induction n as [|n IH]; intros i d data; [done|]. cbn [leb128_loop]. destruct data; [done|].
  straight; apply IH. Qed.
Lemma read_leb128_fuelled data : fuelled (read_leb128 data).
Proof. apply leb128_loop_fuelled. Qed.
Lemma payload_bit_fuelled p o : fuelled (read_payload_bit p o).
Proof. unfold read_payload_bit. straight. Qed.
Lemma payload_bits_fuelled p o n : fuelled (read_payload_bits p o n).
Proof.
  unfold read_payload_bits. destruct (_ <? _)%nat; [done|]. generalize 0. revert o.
  induction n as [|n IH]; intros o z; [done|]. cbn [read_payload_bits_loop].
  apply bind_fuelled; [apply payload_bit_fuelled|]. intros [o' b] _. apply IH.
Qed.
Lemma parse_obu_fuelled data off annex : fuelled (parse_obu data off annex).
Proof. unfold parse_obu. straight. apply read_leb128_fuelled. Qed.
Lemma observe_fuelled picture s obu payload : fuelled (observe_obu picture s obu payload).
Proof. unfold observe_obu, check_sequence_prefix, check_frame_prefix.
  straight; first [apply payload_bit_fuelled|apply payload_bits_fuelled]. Qed.
Lemma raw_extent_fuelled rest : fuelled (raw_extent rest).
Proof. unfold raw_extent, add_size. straight. apply read_leb128_fuelled. Qed.
Lemma finish_fuelled s : fuelled (finish_parse s).
Proof. unfold finish_parse. straight. Qed.

Lemma raw_loop_fuelled picture fuel data off s : bytes_ok data -> 0 <= off -> zlen data - off <= Z.of_nat fuel ->
  fuelled (raw_loop picture fuel data off s).
Proof.
  intros Hb. revert off s.
  induction fuel as [|fuel IH]; intros off s Hoff Hf; cbn [raw_loop]; (destruct (Z.ltb_spec off (zlen data)); [|done]); [lia|].
  apply bind_fuelled; [apply raw_extent_fuelled|]. intros n Hn. apply raw_extent_bound in Hn; [|by apply Forall_drop].
  apply bind_fuelled; [apply parse_obu_fuelled|]. intros o _. apply bind_fuelled; [apply observe_fuelled|]. intros s1 _.
  apply IH; lia.
Qed.
Lemma annex_loop_fuelled picture fuel data fu_end cursor output s n out : bytes_ok data -> 0 <= cursor -> fu_end - cursor <= Z.of_nat fuel ->
  fuelled (annex_b_loop picture fuel data fu_end cursor output s n out).
Proof.
  intros Hb. revert cursor s n out. induction fuel as [|fuel IH]; intros cursor s n out Hc Hf; cbn [annex_b_loop];
    (destruct (Z.ltb_spec cursor fu_end); [|by destruct (negb _)]); [lia|].
  apply bind_fuelled; [apply read_leb128_fuelled|]. intros [lf m] Hr.
  apply read_leb128_exact in Hr as (nb & ? & _ & Hl & ->); [|by apply Forall_take, Forall_drop].
  pose proof (leb_bound _ _ Hl). pose proof (leb_nonempty _ _ Hl). destruct (_ || _) eqn:E; [done|].
  apply orb_false_iff in E as [[_ E]%orb_false_iff _]. apply Z.eqb_neq in E.
  apply bind_fuelled; [apply parse_obu_fuelled|]. intros o _. apply bind_fuelled; [apply observe_fuelled|]. intros s1 _.
  apply bind_fuelled; [unfold add_size; straight|]. intros k _. apply bind_fuelled; [straight|]. intros out1 _.
  apply IH; lia.
Qed.

Lemma parse_raw_fuelled picture data : bytes_ok data -> fuelled (parse_raw_obus picture data).
Proof.
  intros Hb. apply bind_fuelled; [apply raw_loop_fuelled; [done|done|unfold zlen; lia]|]. intros s _.
  apply bind_fuelled; [apply finish_fuelled|done].
Qed.
Lemma leb128_consumed data k v : bytes_ok data -> read_leb128 data = inr (k, v) -> 1 <= k.
Proof. intros Hb (bs & ? & _ & Hl & ->)%read_leb128_exact; [|done]. by apply leb_nonempty in Hl. Qed.
Lemma parse_annex_fuelled picture data output : bytes_ok data -> fuelled (parse_annex_b picture data output).
Proof.
  intros Hb. unfold parse_annex_b. destruct (read_leb128 data) as [|[tf ts]] eqn:Et; [done|].
  destruct (negb _); [done|].
  destruct (read_leb128 (drop _ data)) as [|[ff fs]] eqn:Ef; [done|].
  apply leb128_consumed in Et, Ef; [|by apply Forall_drop|done].
  destruct (_ || _) eqn:E; [done|]. apply orb_false_iff in E as [_ E]. apply negb_false_iff, Z.eqb_eq in E.
  apply bind_fuelled; [|intros [[s n] out] _; apply bind_fuelled; [apply finish_fuelled|done]].
  apply annex_loop_fuelled; [done|lia|]. unfold zlen in *. lia.
Qed.
Lemma tile_loop_fuelled picture size s before tiles seen : fuelled (tile_loop picture size s before tiles seen).
Proof. revert before seen. induction tiles as [|t tiles IH]; intros before seen; [done|]. cbn [tile_loop].
  straight; apply IH. Qed.
Lemma validate_fuelled picture tiles size s width height :
  fuelled (validate_tiles picture tiles size s) /\ fuelled (validate_picture picture width height).
Proof. unfold validate_tiles, validate_picture. split; straight; apply tile_loop_fuelled. Qed.

(** The parsers return.  Every round of either loop reads at least a byte, so that a
    round for each byte is enough: whatever the buffer holds, the call never stops for
    want of fuel. *)
Theorem av1_build_returns alloc_ok picture tiles slice_data width height : Forall is_u8 (default [] slice_data) ->
  advc_av1_build_access_unit alloc_ok picture tiles slice_data width height <> inl OUT_OF_FUEL.
Proof.
  intros Hb. destruct slice_data as [data|]; [cbn in Hb|done]. unfold advc_av1_build_access_unit.
  destruct (_ || _); [by destruct (_ <? _)|]. destruct picture as [picture|]; [|done].
  match goal with |- ?x <> _ => change (fuelled x) end.
  assert (forall s, fuelled (validate_tiles picture tiles (zlen data) s)) as Ht by (intros s; by destruct (validate_fuelled picture tiles (zlen data) s 0 0)).
  pose proof (parse_raw_fuelled picture data Hb) as Hr. pose proof (parse_annex_fuelled picture data None Hb) as Ha.
  apply bind_fuelled; [by destruct (validate_fuelled picture tiles 0 blank_state width height)|]. intros _ _. cbn zeta.
  destruct (parse_raw_obus picture data) as [e|s], (parse_annex_b picture data None) as [f|[[s' n] o]]; [| | |done].
  - destruct (_ || _); [done|]. destruct (negb _); intros [= ->]; [by apply Hr|by apply Ha].
  - apply bind_fuelled; [apply Ht|]. intros _ _. destruct (negb _); [done|].
    apply bind_fuelled; [by apply parse_annex_fuelled|]. by intros [[? ?] ?] _.
  - apply bind_fuelled; [apply Ht|]. intros _ _. by destruct (negb _).
Qed.

(** ** The test vectors of tests/av1_decode_test.c *)

Definition raw_key_frame : list Z := [0x0a; 0x01; 0x00; 0x32; 0x03; 0x10; 0xaa; 0xbb].
Definition annex_b_key_frame : list Z := [0x09; 0x08; 0x02; 0x08; 0x00; 0x04; 0x30; 0x10; 0xaa; 0xbb].
Definition valid_picture : av1_picture := Av1Picture 0 0 0 0 1 1 0 0 1 0 63 63 1 1.
Definition raw_tile : av1_tile := Av1Tile 2 6 VA_SLICE_DATA_FLAG_ALL 0 0.
Definition annex_b_tile : av1_tile := Av1Tile 2 8 VA_SLICE_DATA_FLAG_ALL 0 0.

Definition build (picture : av1_picture) (tiles : list av1_tile) (data : list Z) (width height : Z) :=
  advc_av1_build_access_unit true (Some picture) (Some tiles) (Some data) width height.

Example test_raw_obu_exact_copy : build valid_picture [raw_tile] raw_key_frame 64 64 =
  inr (raw_key_frame, 8, Av1Info ADVC_AV1_INPUT_RAW_OBU 0 true true 2).
Proof. by vm_compute. Qed.
Example test_annex_b_exact_unwrap : build valid_picture [annex_b_tile] annex_b_key_frame 64 64 =
  inr (raw_key_frame, 8, Av1Info ADVC_AV1_INPUT_ANNEX_B 0 true true 2).
Proof. by vm_compute. Qed.
Example test_fail_closed_profile :
  build (Av1Picture 1 0 0 0 1 1 0 0 1 0 63 63 1 1) [raw_tile] raw_key_frame 64 64 = inl ENOTSUP.
Proof. by vm_compute. Qed.
Example test_fail_closed_fragment : build valid_picture [Av1Tile 2 6 1 0 0] raw_key_frame 64 64 = inl ENOTSUP.
Proof. by vm_compute. Qed.
Example test_fail_closed_frame_type :
  build (Av1Picture 0 0 0 0 1 1 0 1 1 0 63 63 1 1) [raw_tile] raw_key_frame 64 64 = inl EPROTO.
Proof. by vm_compute. Qed.

Lemma test_fields : picture_widths valid_picture /\ Forall tile_widths [annex_b_tile] /\ bytes_ok annex_b_key_frame /\ is_u32 64.
Proof.
  split; [by split_and!|]. split; [by repeat constructor|]. split; [|done].
  by apply (bool_decide_unpack (Forall _ _)); vm_compute.
Qed.

Lemma av1_access_unit_exact_witness :
  unit_result valid_picture [annex_b_tile] annex_b_key_frame raw_key_frame (Av1Info ADVC_AV1_INPUT_ANNEX_B 0 true true 2).
Proof.
  destruct test_fields as (Hp & Ht & Hb & Hw).
  exact (proj2 (proj2 (proj2 (proj1 (av1_access_unit_exact valid_picture [annex_b_tile] annex_b_key_frame 64 64 raw_key_frame 8 _ Hp Ht Hb Hw Hw)
    test_annex_b_exact_unwrap)))).
Defined.

Lemma av1_output_is_raw_witness : exists r l, parse_raw_obus valid_picture raw_key_frame = inr (summary r l) /\ zlen l = 2.
Proof.
  destruct test_fields as (Hp & Ht & Hb & Hw).
  destruct (av1_output_is_raw valid_picture [annex_b_tile] annex_b_key_frame 64 64 raw_key_frame 8 _ Hp Ht Hb Hw Hw
    test_annex_b_exact_unwrap) as (r & l & l' & _ & _ & _ & Hparse & Hn & _).
  exists r, l'. by split.
Defined.

(** A buffer that neither format reads can be refused without an error number: an OBU of
    length zero in the temporal unit, and an OBU without a size field outside of it. *)
Theorem failure_without_errno : build valid_picture [raw_tile] [0x04; 0x03; 0x00; 0x00; 0x00] 64 64 = inl 0.
Proof. by vm_compute. Qed.
