(* ===== verification/World.v ===== *)
(** * The world of the VA-API driver

    The driver's two runtimes ([R]: what a runtime keeps) run in the process of
    Client.v and ClientConnect.v, with one peer per connected socket.  A call on a
    socket exchanges records with that socket's peer; a call that leaves the
    runtime's tables alone is described by the triple [hands] of ClientSafe.v,
    lifted to the world ([handsw]).  [holds] is the account of the descriptors against
    a [ledger] of those at the start, and [owns] says that the process holds exactly
    those of the runtime and the listed ones, next to what records without bytes
    brought. *)

From stdpp Require Import base list gmap.
From Stdlib Require Import ZArith Lia Bool String.
#[local] Notation length := List.length.
From S2P Require Import Prelude Kernel Protocol Dmabuf Engine EngineFiles EngineInv EngineSafe Broker BrokerLive Client ClientSafe ClientConnect.

(** The first slot that satisfies a test: the search loops. *)
Fixpoint first_slot {A} (p : A -> bool) (l : list A) : option nat :=
  match l with
  | [] => None
  | x :: l => if p x then Some O else S <$> first_slot p l
  end.

(** ** The world *)

(** The other end of a socket: what it sends, what was sent to it, the results of
    the next sends. *)
Record peer := Peer { pr_rx : list rx_event; pr_tx : list packet; pr_txres : list Z }.
Definition silent_peer : peer := Peer [] [] [].

Notation process := (machine (client_statics connect_env)).

(** The static counters of the export timing trace. *)
Record export_timing := Timing { et_count : Z; et_total_ns : Z; et_max_ns : Z }.

Record world_of (R : Type) := World {
  w_rt : R;
  w_m : process;
  w_peers : gmap Z peer;       (* the peer of each connected socket *)
  w_accept : list peer;        (* the peers of the next connections *)
  w_stack : list (list Z);     (* what the next reply buffers hold; zero past the end *)
  w_sleeps : list N;           (* durations of the next sleeps that end early *)
  w_timing : export_timing }.
Arguments World {R}.
Arguments w_rt {R}.
Arguments w_m {R}.
Arguments w_peers {R}.
Arguments w_accept {R}.
Arguments w_stack {R}.
Arguments w_sleeps {R}.
Arguments w_timing {R}.

Section World.
Context {R : Type}.
Notation world := (world_of R).

Definition set_rt r (w : world) : world :=
  World r (w_m w) (w_peers w) (w_accept w) (w_stack w) (w_sleeps w) (w_timing w).
Definition set_m m (w : world) : world :=
  World (w_rt w) m (w_peers w) (w_accept w) (w_stack w) (w_sleeps w) (w_timing w).
Definition set_peers p a (w : world) : world :=
  World (w_rt w) (w_m w) p a (w_stack w) (w_sleeps w) (w_timing w).
Definition set_stack l (w : world) : world :=
  World (w_rt w) (w_m w) (w_peers w) (w_accept w) l (w_sleeps w) (w_timing w).
Definition set_sleeps l (w : world) : world :=
  World (w_rt w) (w_m w) (w_peers w) (w_accept w) (w_stack w) l (w_timing w).
Definition set_timing t (w : world) : world :=
  World (w_rt w) (w_m w) (w_peers w) (w_accept w) (w_stack w) (w_sleeps w) t.

Definition the_runtime : St world R := gets w_rt.
Definition update (f : R -> R) : St world unit := modify (fun w => set_rt (f (w_rt w)) w).

(** A loop over a list. *)
Definition for_each {A} (l : list A) (f : A -> St world unit) : St world unit :=
  foldr (fun x k => f x ;; k) (mret tt) l.

(** A system call. *)
Definition kernel {A} (c : St process A) : St world A := fun w =>
  let '(a, m) := c (w_m w) in (a, set_m m w).

(** Room for the largest reply. *)
Definition REPLY_BYTES : nat := Z.to_nat caps_capacity.

(** A call on one socket: it exchanges records with that socket's peer, and its
    reply buffer is on the stack.  Between such calls no socket is attached. *)
Definition detached (m : process) : process := set_rx [] (set_tx [] [] m).
Definition on_socket {A} (fd : Z) (c : list Z -> St process A) : St world A := fun w =>
  let p := default silent_peer (w_peers w !! fd) in
  let '(a, m) := c (resize REPLY_BYTES 0 (hd [] (w_stack w))) (set_rx (pr_rx p) (set_tx (pr_tx p) (pr_txres p) (w_m w))) in
  (a, set_stack (tl (w_stack w)) (set_m (detached m)
        (set_peers (<[fd := Peer (m_rx m) (m_tx m) (m_txres m)]> (w_peers w)) (w_accept w) w))).

(** A call of ClientConnect.v: it sees the environment part of the process and
    exchanges no records. *)
Definition on_environment {A} (c : St (machine connect_env) A) : St process A := fun m =>
  let s := m_be m in
  let '(a, n) := c (Machine (cl_user s) (m_fds m) (m_limit m) (m_errno m) (m_alloc m) [] [] []
                      (m_io m)) in
  (a, Machine (Statics (next_value s) (m_be n)) (m_fds n) (m_limit n) (m_errno n) (m_alloc n)
        (m_rx m) (m_tx m) (m_txres m) (m_io n)).

(** A new connection gets the next peer. *)
Definition attach_peer (fd : Z) : St world unit := modify (fun w =>
  set_peers (<[fd := hd silent_peer (w_accept w)]> (w_peers w)) (tl (w_accept w)) w).

(** [clock_gettime(CLOCK_MONOTONIC, &now)] in nanoseconds; 0 when it fails. *)
Definition monotonic_ns : St world Z :=
  now ← kernel (on_environment sys_clock);
  mret (match now with None => 0 | Some (sec, nsec) => u64 (u64 (sec * 1000000000) + nsec) end).

(** [nanosleep({0, 1000000}, NULL)]: a signal may end it early. *)
Definition pause_1ms : St world unit := fun w =>
  let advance n := kernel (on_environment (modify (on_env (with_now (Z.add n))))) in
  match w_sleeps w with
  | [] => advance 1000000 w
  | n :: l => advance (Z.of_N n) (set_sleeps l w)
  end.

End World.

(** [write(fd, bytes, n)] at the end of a memory file: at most the environment's
    bound is written. *)
Definition sys_write {B} (fd : Z) (bytes : list Z) : St (machine B) Z :=
  v ← next_io;
  if v <? 0 then mret (-1)
  else
    t ← gets m_fds;
    match t !! fd with
    | Some (FdInfo c (KMemFile data seals)) =>
        if has_seal seals F_SEAL_WRITE || has_seal seals F_SEAL_GROW then fail_with EPERM
        else
          let n := Z.min v (zlen bytes) in
          set_file fd (FdInfo c (KMemFile (data ++ take (Z.to_nat n) bytes) seals)) ;; mret n
    | Some _ => fail_with EINVAL
    | None => fail_with EBADF
    end.

(** ** Updating a slot *)

Lemma bind_alter {A} (f : A -> list Z) (g : A -> A) (l : list A) k x : l !! k = Some x ->
  (alter g k l ≫= f) ++ f x ≡ₚ (l ≫= f) ++ f (g x).
Proof.
  revert k. induction l as [|y l IH]; intros [|k] Hk; cbn in *; [done|done|..].
  - injection Hk as ->. change (list_bind _ _ f (g x :: l)) with (f (g x) ++ (l ≫= f)).
    change (list_bind _ _ f (x :: l)) with (f x ++ (l ≫= f)). solve_Permutation.
  - specialize (IH k Hk). change (list_bind _ _ f (y :: alter g k l)) with (f y ++ (alter g k l ≫= f)).
    change (list_bind _ _ f (y :: l)) with (f y ++ (l ≫= f)). rewrite <- !app_assoc. by rewrite IH.
Qed.

Lemma bind_alter_same {A} (f : A -> list Z) (g : A -> A) (l : list A) k :
  (forall x, f (g x) = f x) -> alter g k l ≫= f = l ≫= f.
Proof.
  intros Hg. revert k. induction l as [|y l IH]; intros [|k]; cbn; [done|done|by rewrite Hg|].
  f_equal. apply IH.
Qed.

(** ** Ownership *)

Definition descriptor_owned (d : advc_dmabuf_descriptor) : list Z := List.concat (opt_fd <$> declared_fds d).

Lemma st_seq {S A C} (c : St S A) (k : A -> St S C) s : (c ≫= k) s = k (fst (c s)) (snd (c s)).
Proof. unfold mbind, st_bind. by destruct (c s). Qed.

(** *** Closing *)

Section Closing.
Context {B : Type}.

Lemma hands_sys_close fd : hands (B := B) [fd] (sys_close fd) (fun _ => []) (fun _ => True).
Proof.
  apply hands_keeps. intros t m Hi. pose proof (close_all_installed t [fd] m Hi) as Hc.
  cbn [close_all foldr] in Hc. rewrite bind_seq in Hc. cbn [snd mret st_ret] in Hc.
  split_and!; [|rewrite Hc; apply installed_nil|done]. apply quiet_close.
Qed.

Lemma hands_close_if fd : hands (B := B) (opt_fd fd) (close_if_open fd) (fun _ => []) (fun _ => True).
Proof.
  unfold close_if_open, opt_fd. destruct (0 <=? fd); [apply hands_sys_close|by apply hands_ret].
Qed.

Lemma hands_close_each l : Forall (fun fd => 0 <= fd) l ->
  hands (B := B) l (close_each l) (fun _ => []) (fun _ => True).
Proof.
  intros Hl. apply hands_keeps. intros t m Hi. pose proof (close_each_installed t l m Hi) as Hc.
  split_and!; [|rewrite Hc; apply installed_nil|done].
  apply quiet_foldr. intros fd. unfold close_if_open. destruct (0 <=? fd); [apply quiet_close|apply quiet_ret].
Qed.

Lemma hands_descriptor_close d : descriptor_typed d ->
  hands (B := B) (descriptor_owned d) (advc_dmabuf_descriptor_close d) (fun _ => [])
    (fun d' => d' = blank_descriptor).
Proof.
  intros Hd. apply hands_keeps. intros t m Hi. pose proof (descriptor_close_installed t d m Hd Hi) as Hc.
  destruct (quiet_descriptor_close d m) as (_ & _ & Hs).
  split_and!; [done|rewrite Hc; apply installed_nil|].
  unfold advc_dmabuf_descriptor_close. cbn zeta. by rewrite bind_seq.
Qed.
End Closing.

Section Ownership.
Context {R : Type}.
Notation world := (world_of R).
Implicit Types w : world.

Definition fds_of (w : world) : gmap Z fd_info := m_fds (w_m w).

(** No socket is attached, and the control buffer has room for every record to come. *)
Definition world_fits (w : world) : Prop :=
  m_rx (w_m w) = [] /\ map_Forall (fun _ p => Forall control_fits (pr_rx p)) (w_peers w) /\
  Forall (fun p => Forall control_fits (pr_rx p)) (w_accept w).

(** *** What is hidden in records to come *)

Definition hidden_in (peers : gmap Z peer) : nat := map_fold (fun _ p n => (hidden (pr_rx p) + n)%nat) 0%nat peers.
Definition world_hidden (w : world) : nat :=
  (hidden_in (w_peers w) + sum_list_with (fun p => hidden (pr_rx p)) (w_accept w))%nat.

Lemma hidden_in_insert peers fd p : peers !! fd = None ->
  hidden_in (<[fd := p]> peers) = (hidden (pr_rx p) + hidden_in peers)%nat.
Proof. intros H. unfold hidden_in. rewrite map_fold_insert_L; [done|intros; lia|done]. Qed.

Lemma hidden_in_change peers fd p :
  (hidden_in (<[fd := p]> peers) + hidden (pr_rx (default silent_peer (peers !! fd))) =
   hidden (pr_rx p) + hidden_in peers)%nat.
Proof.
  destruct (peers !! fd) as [q|] eqn:E; cbn.
  - assert (hidden_in peers = (hidden (pr_rx q) + hidden_in (delete fd peers))%nat) as ->.
    { rewrite <- (insert_delete_id peers fd q E) at 1. by rewrite hidden_in_insert by apply lookup_delete_eq. }
    rewrite <- insert_delete_eq, hidden_in_insert by apply lookup_delete_eq. lia.
  - rewrite hidden_in_insert by done. change (hidden []) with 0%nat. lia.
Qed.

(** *** The ledger *)

(** The descriptors at the start, and how many were hidden in records then. *)
Record ledger := Ledger { lg_table : gmap Z fd_info; lg_hidden : nat }.

(** Next to the descriptors at the start, the process has those of [l], all of them
    distinct, and as many as came with records without bytes at most. *)
Definition holds (t : ledger) (w : world) (l : list Z) : Prop :=
  exists lost t', (length lost + world_hidden w <= lg_hidden t)%nat /\
    installed (lg_table t) t' lost /\ installed t' (fds_of w) l.

Lemma holds_Permutation t w l l' : l ≡ₚ l' -> holds t w l -> holds t w l'.
Proof.
  intros Hp (lost & t' & H1 & H2 & H3). exists lost, t'. split_and!; [done|done|]. by eapply installed_Permutation.
Qed.
Lemma holds_nonneg t w l : holds t w l -> Forall (fun fd => 0 <= fd) l.
Proof. intros (lost & t' & _ & _ & H). by eapply installed_nonneg. Qed.

(** Nothing is lost when every record had a byte. *)
Lemma holds_exact t w l : lg_hidden t = 0%nat -> holds t w l -> installed (lg_table t) (fds_of w) l.
Proof.
  intros Ht (lost & t' & H1 & H2 & H3). destruct lost; [|cbn in H1; lia]. apply installed_same in H2. by subst t'.
Qed.

(** The process holds the descriptors of the runtime's tables, which are in order,
    and those in [l]. *)
Definition owns (ok : R -> Prop) (fds : R -> list Z) (t : ledger) (l : list Z) (w : world) : Prop :=
  world_fits w /\ ok (w_rt w) /\ holds t w (fds (w_rt w) ++ l).

(** ** Calls *)

(** The calls on the process that leave the tables alone. *)
Definition handsw {A} (l : list Z) (c : St world A) (F : A -> list Z) (Q : A -> Prop) : Prop :=
  forall X t w, world_fits w -> holds t w (X ++ l) ->
    world_fits (snd (c w)) /\ w_rt (snd (c w)) = w_rt w /\
    holds t (snd (c w)) (X ++ F (fst (c w))) /\ Q (fst (c w)).

(** A call that takes nothing from a socket and opens nothing. *)
Lemma handsw_plain {A} l (c : St world A) :
  (forall w, w_rt (snd (c w)) = w_rt w /\ w_peers (snd (c w)) = w_peers w /\ w_accept (snd (c w)) = w_accept w /\
     m_rx (w_m (snd (c w))) = m_rx (w_m w) /\ fds_of (snd (c w)) = fds_of w) ->
  handsw l c (fun _ => l) (fun _ => True).
Proof.
  intros Hc X t w (H1 & H2 & H3) (lost & t' & Hh). destruct (Hc w) as (E1 & E2 & E3 & E4 & E5).
  split_and!; try done; [unfold world_fits; by rewrite E2, E3, E4|].
  exists lost, t'. unfold world_hidden in *. by rewrite E2, E3, E5.
Qed.

Lemma handsw_kernel {A} l (c : St process A) F Q : hands l c F Q -> handsw l (kernel c) F Q.
Proof.
  intros Hc X t w (Hm & Hp & Ha) (lost & t' & Hn & H1 & H2). unfold kernel, fds_of in *.
  destruct (hands_under X _ _ _ _ Hc t' (w_m w)) as (got & lost2 & t2 & Hg & Hl & H3 & H4 & Hq);
    [unfold fits; rewrite Hm; by apply Forall_nil|done|].
  rewrite Hm in Hg. symmetry in Hg. apply app_eq_nil in Hg as [-> Hm']. destruct lost2; [|cbn in Hl; lia].
  apply installed_same in H3. subst t2. destruct (c (w_m w)) as [a m]. cbn in *. split_and!; try done. by exists lost, t'.
Qed.

Lemma handsw_socket {A} l fd (c : list Z -> St process A) F Q :
  (forall p, hands l (c p) F Q) -> handsw l (on_socket fd c) F Q.
Proof.
  intros Hc X t w (Hm & Hp & Ha) (lost & t' & Hn & H1 & H2). unfold on_socket, fds_of in *.
  pose proof (hidden_in_change (w_peers w) fd) as Hin. set (p := default silent_peer (w_peers w !! fd)) in *.
  set (m := set_rx (pr_rx p) (set_tx (pr_tx p) (pr_txres p) (w_m w))).
  assert (fits m) as Hfit.
  { unfold fits, m. cbn. unfold p. destruct (w_peers w !! fd) as [q|] eqn:E; cbn; [|by apply Forall_nil].
    by apply (Hp _ _ E). }
  destruct (hands_under X _ _ _ _ (Hc (resize REPLY_BYTES 0 (hd [] (w_stack w)))) t' m Hfit H2)
    as (got & lost2 & t2 & Hg & Hl & H3 & H4 & Hq).
  destruct (c _ m) as [a m']. cbn in Hg, H4, Hq |- *. unfold fits in Hfit. cbn in Hfit. rewrite Hg in Hfit.
  apply Forall_app in Hfit as [_ Hfit]. split_and!; [|done| |done].
  - split_and!; [done| |done]. by apply map_Forall_insert_2.
  - exists (lost ++ lost2), t2. split_and!; [|by eapply installed_app|done]. unfold world_hidden in *. cbn.
    specialize (Hin (Peer (m_rx m') (m_tx m') (m_txres m'))). cbn [pr_rx] in Hin. rewrite Hg, hidden_app in Hin. rewrite length_app. lia.
Qed.

Lemma handsw_ret {A} (a : A) l F (Q : A -> Prop) : l ≡ₚ F a -> Q a -> handsw l (mret a) F Q.
Proof.
  intros Hl Hq X t w Hw Hi. cbn. split_and!; try done. eapply holds_Permutation; [|exact Hi]. by rewrite Hl.
Qed.

Lemma handsw_bind {A C} (c : St world A) (k : A -> St world C) l F Q G P' :
  handsw l c F Q -> (forall a, Q a -> handsw (F a) (k a) G P') -> handsw l (c ≫= k) G P'.
Proof.
  intros Hc Hk X t w Hw Hi. rewrite st_seq. destruct (Hc X t w Hw Hi) as (H1 & H2 & H3 & H4).
  destruct (Hk _ H4 X t _ H1 H3) as (H5 & H6 & H7 & H8). split_and!; try done. congruence.
Qed.

Lemma handsw_weaken {A} l l' (c : St world A) F Q (G : A -> list Z) (P' : A -> Prop) :
  handsw l c F Q -> l' ≡ₚ l -> (forall a, Q a -> F a ≡ₚ G a /\ P' a) -> handsw l' c G P'.
Proof.
  intros Hc Hl Hw X t w Hm Hi. destruct (Hc X t w Hm) as (? & ? & Hi' & Hq).
  { eapply holds_Permutation; [|exact Hi]. by rewrite Hl. }
  destruct (Hw _ Hq) as [Hp Hr]. split_and!; [done|done| |done].
  eapply holds_Permutation; [|exact Hi']. by rewrite Hp.
Qed.

Lemma handsw_frame {A} l (c : St world A) F Q : handsw [] c F Q -> handsw l c (fun a => l ++ F a) Q.
Proof.
  intros Hc X t w Hw Hi. destruct (Hc (X ++ l) t w Hw) as (? & ? & ? & ?); [by rewrite app_nil_r|].
  split_and!; try done. by rewrite app_assoc.
Qed.

(** Reading the tables. *)
Lemma handsw_gets {A} l (f : world -> A) : handsw l (gets f) (fun _ => l) (fun _ => True).
Proof. intros X t w Hw Hi. done. Qed.

(** *** Calls of both runtimes *)

Lemma handsw_inert {A} l (c : St process A) : inert c -> handsw l (kernel c) (fun _ => l) (fun _ => True).
Proof. intros H. apply handsw_kernel. by apply hands_inert. Qed.

(** Closing some descriptors, then going on with the others. *)
Lemma handsw_close_then {A C} l1 l2 (c : St process A) (k : St world C) Q G P' :
  hands l1 c (fun _ => []) Q -> handsw l2 k G P' -> handsw (l1 ++ l2) (kernel c ;; k) G P'.
Proof.
  intros Hc Hk. eapply (handsw_bind _ _ _ (fun _ => l2) (fun _ => True)); [|by intros].
  intros X t w Hw Hi. destruct (handsw_kernel _ _ _ _ Hc (X ++ l2) t w Hw) as (? & ? & Hi' & ?).
  { eapply holds_Permutation; [|exact Hi]. solve_Permutation. }
  rewrite app_nil_r in Hi'. done.
Qed.

Lemma handsw_attach l fd : handsw l (attach_peer fd) (fun _ => l) (fun _ => True).
Proof.
  intros X t w (H1 & H2 & H3) (lost & t' & Hn & Hi). cbn. split_and!; try done.
  - split_and!; [done| |].
    + apply map_Forall_insert_2; [|done]. destruct (w_accept w) as [|p q]; [by apply Forall_nil|].
      by apply Forall_cons in H3 as [? _].
    + destruct (w_accept w) as [|p q]; [done|]. by apply Forall_cons in H3 as [_ ?].
  - exists lost, t'. split; [|exact Hi]. unfold world_hidden in *. cbn.
    pose proof (hidden_in_change (w_peers w) fd (hd silent_peer (w_accept w))).
    destruct (w_accept w) as [|p q]; cbn in *; [|lia]. unfold hidden in *. cbn in *. lia.
Qed.

(** Closing the connection and giving up. *)
Lemma handsw_hang_up {A} fd (a : A) F : 0 <= fd -> F a = [] ->
  handsw [fd] (kernel (sys_close fd) ;; mret a) F (fun x => x = a).
Proof.
  intros Hfd Ha. eapply handsw_bind; [apply handsw_kernel, hands_sys_close|]. intros ? _. apply handsw_ret; [by rewrite Ha|done].
Qed.

Lemma handsw_socket_frame {A} l fd (c : list Z -> St process A) :
  (forall p, hands [] (c p) (fun _ => []) (fun _ => True)) -> handsw l (on_socket fd c) (fun _ => l) (fun _ => True).
Proof.
  intros Hc. eapply handsw_weaken; [apply (handsw_frame l), handsw_socket, Hc|done|].
  intros ? _. cbn beta. by rewrite app_nil_r.
Qed.

Lemma handsw_environment {A} l (c : St (machine connect_env) A) :
  (forall m, m_fds (snd (c m)) = m_fds m) -> handsw l (kernel (on_environment c)) (fun _ => l) (fun _ => True).
Proof.
  intros Hc. apply handsw_kernel, hands_keeps. intros t m Hi. unfold on_environment.
  set (n := Machine _ _ _ _ _ _ _ _ _). specialize (Hc n). destruct (c n) as [a n']. cbn [fst snd] in *.
  cbn. rewrite Hc. done.
Qed.

Lemma clock_fds m : m_fds (snd (sys_clock m)) = m_fds m.
Proof. unfold sys_clock. by destruct (ce_clock _) as [|[]]. Qed.

Lemma handsw_monotonic l : handsw l monotonic_ns (fun _ => l) (fun _ => True).
Proof.
  unfold monotonic_ns. eapply handsw_bind; [apply handsw_environment, clock_fds|]. intros x _. by apply handsw_ret.
Qed.

Lemma handsw_pause l : handsw l pause_1ms (fun _ => l) (fun _ => True).
Proof.
  intros X t w Hw Hi. unfold pause_1ms. destruct (w_sleeps w) as [|n k].
  - by apply (handsw_environment l (modify (on_env (with_now (Z.add 1000000))))).
  - by apply (handsw_environment l (modify (on_env (with_now (Z.add (Z.of_N n))))) ltac:(done) X t (set_sleeps k w)).
Qed.

(** ** Steps of an operation *)

Lemma wown_perm {ok : R -> Prop} {fds : R -> list Z} t l l' w : l ≡ₚ l' -> owns ok fds t l w -> owns ok fds t l' w.
Proof.
  intros Hl (H1 & H2 & H3). split_and!; try done. eapply holds_Permutation; [|exact H3]. by rewrite Hl.
Qed.

Lemma wp_call {A} {ok : R -> Prop} {fds : R -> list Z} (c : St world A) l l' F Q t w (P : A -> world -> Prop) :
  handsw l c F Q -> owns ok fds t (l' ++ l) w ->
  (forall a w', w_rt w' = w_rt w -> owns ok fds t (l' ++ F a) w' -> Q a -> P a w') -> wp c P w.
Proof.
  intros Hc (H1 & H2 & H3) HP. rewrite app_assoc in H3. destruct (Hc _ _ _ H1 H3) as (H4 & H5 & H6 & H7).
  apply HP; [done| |done]. split_and!; [done|by rewrite H5|]. rewrite H5, app_assoc. exact H6.
Qed.

(** Between two updates the tables need not be well formed. *)
Lemma wp_handsw {A} (c : St world A) l F Q X t w (P : A -> world -> Prop) :
  handsw l c F Q -> world_fits w -> holds t w (X ++ l) ->
  (forall a w', world_fits w' -> w_rt w' = w_rt w -> holds t w' (X ++ F a) -> Q a -> P a w') ->
  wp c P w.
Proof. intros Hc H1 H2 HP. destruct (Hc _ _ _ H1 H2) as (? & ? & ? & ?). by apply HP. Qed.

Lemma wp_update {ok : R -> Prop} {fds : R -> list Z} f l l' t w (P : unit -> world -> Prop) :
  owns ok fds t l w -> ok (f (w_rt w)) -> fds (w_rt w) ++ l ≡ₚ fds (f (w_rt w)) ++ l' ->
  (owns ok fds t l' (set_rt (f (w_rt w)) w) -> P tt (set_rt (f (w_rt w)) w)) -> wp (update f) P w.
Proof.
  intros (H1 & H2 & H3) Hok Hp HP. apply HP. split_and!; [done|done|].
  eapply holds_Permutation; [exact Hp|exact H3].
Qed.

End Ownership.

Lemma installed_move t t' l l' : l ≡ₚ l' -> installed t t' l -> installed t t' l'.
Proof. apply installed_Permutation. Qed.

(** *** The first free slot *)

Lemma first_slot_Some {A} (p : A -> bool) l k : first_slot p l = Some k ->
  exists x, l !! k = Some x /\ p x = true.
Proof.
  revert k. induction l as [|y l IH]; intros k H; cbn in H; [done|]. destruct (p y) eqn:E.
  - injection H as <-. exists y. done.
  - destruct (first_slot p l) as [j|]; [|done]. injection H as <-. by apply IH.
Qed.

Lemma first_slot_none {A} (p : A -> bool) l k x : first_slot p l = None -> l !! k = Some x -> p x = false.
Proof.
  revert k. induction l as [|y l IH]; intros k H Hk; cbn in H; [done|]. destruct (p y) eqn:E; [done|].
  destruct (first_slot p l); [done|]. destruct k as [|k]; cbn in Hk; [by injection Hk as ->|]. by apply (IH k).
Qed.
