(* ===== verification/Still.v ===== *)
(** * Calls that take no time

    Nothing a runtime says to the broker moves the clock of the model: it advances
    where the code sleeps or polls.  [timeless] says so of a call on the process,
    [frozen] of one on the world; the tactics of those names follow the code. *)

From stdpp Require Import base list gmap.
From Stdlib Require Import ZArith Lia Bool String.
#[local] Notation length := List.length.
From S2P Require Import Prelude Kernel Protocol Dmabuf Engine Broker Client ClientConnect World.

(** ** Calls that leave the clock alone *)

Section Still.
Context {U : Type}.
Notation M := (machine (client_statics U)).

Definition timeless {A} (c : St M A) : Prop := forall m, cl_user (m_be (snd (c m))) = cl_user (m_be m).

Lemma timeless_value {A} (a : A) : timeless (mret a).
Proof. by intros m. Qed.
Lemma timeless_seq {A C} (c : St M A) (k : A -> St M C) : timeless c -> (forall a, timeless (k a)) -> timeless (c ≫= k).
Proof. intros Hc Hk m. unfold mbind, st_bind. specialize (Hc m). destruct (c m) as [a m1]. cbn [snd] in Hc. by rewrite Hk. Qed.
Lemma timeless_read {A} (f : M -> A) : timeless (gets f).
Proof. by intros m. Qed.
Lemma timeless_errno : timeless errno.
Proof. by intros m. Qed.
Lemma timeless_set_errno e : timeless (errno_is e).
Proof. by intros m. Qed.
Lemma timeless_fail e : timeless (fail_with e).
Proof. by intros m. Qed.
Lemma timeless_install f : timeless (install_fd f).
Proof. intros m. unfold install_fd. by destruct (_ <=? _). Qed.
Lemma timeless_close fd : timeless (sys_close fd).
Proof. intros m. unfold sys_close. by destruct (_ !! _). Qed.
Lemma timeless_next_io : timeless next_io.
Proof. intros m. unfold next_io. destruct (m_io m) as [|v l]; [done|]. by destruct (v <? 0). Qed.
Lemma timeless_send pk : timeless (sys_sendmsg pk).
Proof. intros m. unfold sys_sendmsg. destruct (send_retry _ _) as [r rs]. by destruct (r <? 0). Qed.
Lemma timeless_recv : timeless sys_recvmsg.
Proof. intros m. unfold sys_recvmsg. by destruct (recv_retry _). Qed.
Lemma timeless_request_id : timeless next_request_id.
Proof. by intros m. Qed.
Lemma timeless_alloc : timeless sys_alloc.
Proof. intros m. unfold sys_alloc. by destruct (m_alloc m) as [|[] l]. Qed.
Lemma timeless_dup fd : timeless (fcntl_dupfd_cloexec fd).
Proof. intros m. unfold fcntl_dupfd_cloexec. destruct (_ !! _); [apply timeless_install|done]. Qed.
End Still.
Create HintDb timeless discriminated.
#[export] Hint Resolve timeless_value timeless_read timeless_errno timeless_set_errno timeless_fail timeless_install timeless_close timeless_next_io
  timeless_send timeless_recv timeless_request_id timeless_alloc timeless_dup : timeless.

Ltac timeless_step :=
  lazymatch goal with
  | |- timeless (_ ≫= _) => apply timeless_seq; [|intros ?]
  | |- timeless (match ?x with _ => _ end) => destruct x
  | |- timeless _ => first [solve [eauto with timeless nocore]|progress cbn beta zeta|progress cbn iota]
  end.
Ltac timeless := repeat timeless_step.

Section Calls.
Context {U : Type}.
Notation M := (machine (client_statics U)).

Lemma timeless_close_if_open fd : timeless (U := U) (close_if_open fd).
Proof. unfold close_if_open. timeless. Qed.
Hint Resolve timeless_close_if_open : timeless.
Lemma timeless_close_all l : timeless (U := U) (close_all l).
Proof. induction l; cbn [close_all foldr]; timeless. Qed.
Lemma timeless_close_each l : timeless (U := U) (close_each l).
Proof. induction l; cbn [close_each foldr]; timeless. Qed.
Hint Resolve timeless_close_all timeless_close_each : timeless.
Lemma timeless_close_message m : timeless (U := U) (advc_close_message_fds m).
Proof. unfold advc_close_message_fds. timeless. Qed.
Hint Resolve timeless_close_message : timeless.
Lemma timeless_refuse m : timeless (U := U) (refuse_reply m).
Proof. unfold refuse_reply. timeless. Qed.
Hint Resolve timeless_refuse : timeless.
Lemma timeless_status m : timeless (U := U) (parse_status_reply m).
Proof. unfold parse_status_reply. timeless. Qed.
Hint Resolve timeless_status : timeless.
Lemma timeless_install_files l : timeless (U := U) (install_files l).
Proof. induction l; cbn [install_files]; timeless. Qed.
Hint Resolve timeless_install_files : timeless.
Lemma timeless_install_control l : timeless (U := U) (install_control l).
Proof. induction l as [|[] l]; cbn [install_control]; timeless. Qed.
Lemma timeless_gather l fds n : timeless (U := U) (gather_fds l fds n).
Proof. revert fds n. induction l as [|[] l]; intros fds n; cbn [gather_fds]; timeless. Qed.
Hint Resolve timeless_install_control timeless_gather : timeless.
Lemma timeless_header_validate h : timeless (U := U) (advc_header_validate h).
Proof. unfold advc_header_validate. timeless. Qed.
Hint Resolve timeless_header_validate : timeless.
Lemma timeless_receive m : timeless (U := U) (advc_receive_message m).
Proof. unfold advc_receive_message, record_check, advc_header_decode. timeless. Qed.
Lemma timeless_send_message m : timeless (U := U) (advc_send_message m).
Proof. unfold advc_send_message, advc_header_encode. timeless. Qed.
Hint Resolve timeless_receive timeless_send_message : timeless.
Lemma timeless_transaction opc sid rp n rf c p cap v : timeless (U := U) (transaction_ex opc sid rp n rf c p cap v).
Proof. unfold transaction_ex. timeless. Qed.
Hint Resolve timeless_transaction : timeless.
Lemma timeless_release p sid id : timeless (U := U) (advc_client_release_output p sid id).
Proof. unfold advc_client_release_output, advc_client_release_output_fenced, session_status_transaction. timeless. Qed.
Lemma timeless_dequeue p sid : timeless (U := U) (advc_client_dequeue_output p sid).
Proof. unfold advc_client_dequeue_output, output_unsound, fcntl_get_seals, sys_fstat. timeless. Qed.
Lemma timeless_release_fenced p sid id fence : timeless (U := U) (advc_client_release_output_fenced p sid id fence).
Proof. unfold advc_client_release_output_fenced, session_status_transaction. timeless. Qed.
Lemma timeless_queue p sid input : timeless (U := U) (advc_client_queue_input p sid input).
Proof. unfold advc_client_queue_input, input_check, session_status_transaction, fcntl_get_seals, sys_fstat. timeless. Qed.
Lemma timeless_output_close o : timeless (U := U) (advc_client_output_close o).
Proof. unfold advc_client_output_close. timeless. Qed.
Lemma timeless_validate d : timeless (U := U) (advc_dmabuf_descriptor_validate d).
Proof. unfold advc_dmabuf_descriptor_validate. timeless. Qed.
Lemma timeless_descriptor_close d : timeless (U := U) (advc_dmabuf_descriptor_close d).
Proof.
  unfold advc_dmabuf_descriptor_close. cbn zeta. apply timeless_seq; [|intros; apply timeless_value].
  induction (seqZ _ _) as [|i l IH]; cbn [foldr]; timeless.
Qed.
Hint Resolve timeless_validate timeless_descriptor_close : timeless.
Lemma timeless_transfer p sid id d : timeless (U := U) (advc_client_transfer_prime p sid id d).
Proof. unfold advc_client_transfer_prime, advc_dmabuf_registration_decode. timeless. Qed.
End Calls.
#[export] Hint Resolve timeless_close_if_open timeless_release timeless_release_fenced timeless_dequeue timeless_queue timeless_output_close
  timeless_validate timeless_descriptor_close timeless_transfer : timeless.

(** ** On the world *)

Section Frozen.
Context {R : Type}.
Notation world := (world_of R).
Implicit Types w : world.

Definition environment w : connect_env := cl_user (m_be (w_m w)).

(** The monotonic clock in nanoseconds. *)
Definition clock w : Z := ce_now (environment w).

(** The environment, with the clock and what it will do, and the sleeps that will end early. *)
Definition moment w : connect_env * list N := (environment w, w_sleeps w).
Definition frozen {A} (c : St world A) : Prop := forall w, moment (snd (c w)) = moment w.

Lemma frozen_env {A} (c : St world A) w : frozen c -> environment (snd (c w)) = environment w.
Proof. intros H. by injection (H w). Qed.

Lemma frozen_value {A} (a : A) : frozen (mret a).
Proof. by intros w. Qed.
Lemma frozen_seq {A C} (c : St world A) (k : A -> St world C) : frozen c -> (forall a, frozen (k a)) -> frozen (c ≫= k).
Proof. intros Hc Hk w. rewrite st_seq, Hk. apply Hc. Qed.
Lemma frozen_kernel {A} (c : St process A) : timeless c -> frozen (kernel c).
Proof. intros H w. unfold kernel, moment, environment. specialize (H (w_m w)). destruct (c (w_m w)). cbn in *. by rewrite H. Qed.
Lemma frozen_socket {A} fd (c : list Z -> St process A) : (forall p, timeless (c p)) -> frozen (on_socket fd c).
Proof.
  intros H w. unfold on_socket, moment, environment. specialize (H (resize REPLY_BYTES 0 (hd [] (w_stack w)))
    (set_rx (pr_rx (default silent_peer (w_peers w !! fd))) (set_tx (pr_tx (default silent_peer (w_peers w !! fd)))
      (pr_txres (default silent_peer (w_peers w !! fd))) (w_m w)))).
  destruct (c _ _). cbn in *. by rewrite H.
Qed.
Lemma frozen_update f : frozen (update f).
Proof. by intros w. Qed.
Lemma frozen_runtime : frozen the_runtime.
Proof. by intros w. Qed.

Lemma wp_frozen {A} (c : St world A) w (P : A -> world -> Prop) : frozen c ->
  (forall a w', environment w' = environment w -> P a w') -> wp c P w.
Proof. intros Hc HP. by apply HP, frozen_env. Qed.
End Frozen.
Create HintDb frozen discriminated.
#[export] Hint Resolve frozen_value frozen_update frozen_runtime : frozen.
Ltac frozen_step :=
  lazymatch goal with
  | |- frozen (_ ≫= _) => apply frozen_seq; [|intros ?]
  | |- frozen (kernel _) => apply frozen_kernel
  | |- frozen (on_socket _ _) => apply frozen_socket; intros ?
  | |- frozen (match ?x with _ => _ end) => destruct x
  | |- frozen _ => first [solve [eauto with frozen nocore]|progress cbn beta zeta|progress cbn iota]
  | |- timeless _ => progress timeless
  end.
Ltac frozen := repeat frozen_step.
