(* ===== verification/Va.v ===== *)
(** * libva's types as the driver uses them

    Status codes, profiles, surface attributes and the DRM PRIME surface
    descriptor, shared by the decode runtime, the encode runtime and the image
    code.  An array member is a list of its elements; the count that says how many
    of them are valid is a member of its own, as in C, because an application may
    set it to anything. *)

From stdpp Require Import base list.
From Stdlib Require Import ZArith Lia Bool.
From S2P Require Import Prelude VaapiPolicy.

Definition VA_INVALID_ID : Z := 0xffffffff.
Definition VA_INVALID_SURFACE : Z := 0xffffffff.

Inductive va_status :=
  | VA_STATUS_SUCCESS | VA_STATUS_ERROR_OPERATION_FAILED | VA_STATUS_ERROR_ALLOCATION_FAILED
  | VA_STATUS_ERROR_INVALID_CONFIG | VA_STATUS_ERROR_INVALID_CONTEXT
  | VA_STATUS_ERROR_INVALID_SURFACE | VA_STATUS_ERROR_INVALID_BUFFER
  | VA_STATUS_ERROR_ATTR_NOT_SUPPORTED | VA_STATUS_ERROR_MAX_NUM_EXCEEDED
  | VA_STATUS_ERROR_UNSUPPORTED_PROFILE | VA_STATUS_ERROR_UNSUPPORTED_ENTRYPOINT
  | VA_STATUS_ERROR_UNSUPPORTED_RT_FORMAT | VA_STATUS_ERROR_UNSUPPORTED_BUFFERTYPE
  | VA_STATUS_ERROR_UNSUPPORTED_MEMORY_TYPE | VA_STATUS_ERROR_INVALID_PARAMETER
  | VA_STATUS_ERROR_RESOLUTION_NOT_SUPPORTED | VA_STATUS_ERROR_DECODING_ERROR
  | VA_STATUS_ERROR_TIMEDOUT
  | VA_STATUS_ERROR_ENCODING_ERROR | VA_STATUS_ERROR_SURFACE_BUSY | VA_STATUS_ERROR_NOT_ENOUGH_BUFFER
  | VA_STATUS_ERROR_INVALID_IMAGE | VA_STATUS_ERROR_INVALID_IMAGE_FORMAT.
#[export] Instance va_status_eq_dec : EqDecision va_status.
Proof. solve_decision. Defined.
#[export] Instance va_profile_eq_dec : EqDecision va_profile.
Proof. solve_decision. Defined.

Definition profile_eqb (a b : va_profile) : bool := bool_decide (a = b).


(** ** Formats and flags *)

Definition VA_FOURCC_NV12 : Z := 0x3231564e.
Definition VA_FOURCC_I420 : Z := 0x30323449.
Definition VA_RT_FORMAT_YUV420 : Z := 1.
Definition VA_SURFACE_ATTRIB_GETTABLE : Z := 1.
Definition VA_SURFACE_ATTRIB_SETTABLE : Z := 2.
Definition VA_SURFACE_ATTRIB_MEM_TYPE_VA : Z := 1.
Definition VA_SURFACE_ATTRIB_MEM_TYPE_DRM_PRIME_2 : Z := 0x40000000.
Definition VA_SURFACE_ATTRIB_USAGE_HINT_GENERIC : Z := 0.
Definition VA_SURFACE_ATTRIB_USAGE_HINT_ENCODER : Z := 2.
Definition VA_EXPORT_SURFACE_READ_ONLY : Z := 1.
Definition VA_EXPORT_SURFACE_WRITE_ONLY : Z := 2.
Definition VA_EXPORT_SURFACE_READ_WRITE : Z := 3.
Definition VA_EXPORT_SURFACE_SEPARATE_LAYERS : Z := 4.
Definition VA_EXPORT_SURFACE_COMPOSED_LAYERS : Z := 8.

(** ** VADRMPRIMESurfaceDescriptor *)

Record prime_object := PrimeObject { po_fd : Z; po_size : Z; po_modifier : Z }.
Record prime_layer := PrimeLayer {
  pl_format : Z; pl_num_planes : Z;
  pl_object_index : list Z; pl_offset : list Z; pl_pitch : list Z }.   (* 4 of each *)
Record prime_surface := PrimeSurface {
  ps_fourcc : Z; ps_width : Z; ps_height : Z;
  ps_num_objects : Z; ps_objects : list prime_object;   (* 4 of them *)
  ps_num_layers : Z; ps_layers : list prime_layer }.    (* 4 of them *)

Definition zero_layer : prime_layer := PrimeLayer 0 0 [0; 0; 0; 0] [0; 0; 0; 0] [0; 0; 0; 0].
Definition object_of (p : prime_surface) (i : Z) : prime_object :=
  default (PrimeObject 0 0 0) (ps_objects p !! Z.to_nat i).
Definition layer_of (p : prime_surface) (i : Z) : prime_layer :=
  default zero_layer (ps_layers p !! Z.to_nat i).
Definition entry (l : list Z) (i : Z) : Z := default 0 (l !! Z.to_nat i).

(** ** VASurfaceAttrib *)

Inductive surface_attrib_type :=
  | VASurfaceAttribPixelFormat | VASurfaceAttribMinWidth | VASurfaceAttribMaxWidth
  | VASurfaceAttribMinHeight | VASurfaceAttribMaxHeight | VASurfaceAttribMemoryType
  | VASurfaceAttribExternalBufferDescriptor | VASurfaceAttribUsageHint | VASurfaceAttribNone
  | VASurfaceAttribOther.
(** A pointer value is NULL or an array of PRIME descriptors. *)
Inductive generic_value := GInteger (i : Z) | GPointer (p : option (list prime_surface)) | GOther.
Record surface_attrib := SurfaceAttrib {
  sa_type : surface_attrib_type; sa_flags : Z; sa_value : generic_value }.

Definition sa_integer (a : surface_attrib) : bool :=
  match sa_value a with GInteger _ => true | _ => false end.
(** [attribute->value.value.i] *)
Definition sa_i (a : surface_attrib) : Z := match sa_value a with GInteger i => i | _ => 0 end.
