(* ===== verification/DecodeState.v ===== *)
(** * The state of the VA-API decode runtime
    (src/src/vaapi_advc/advc_vaapi_decode_runtime.c)

    The runtime is four fixed tables of slots, handed out as typed identifiers:
    configurations, contexts (each with its own broker connection, session and
    the picture being staged), surfaces and parameter buffers.  This file has the
    tables and the world their operations run in: the process of Client.v and
    ClientConnect.v, with one peer per connected socket.

    libva's structures are not part of the sources.  Their sizes and the reading
    of their fields from the bytes of a buffer are the parameter [va_abi]; the
    records below have the fields the code reads.  The runtime pointer and the
    pointers results are stored through are not NULL. *)

From stdpp Require Import base list gmap.
From Stdlib Require Import ZArith Lia Bool String.
#[local] Notation length := List.length.
From S2P Require Import Prelude Kernel Protocol Dmabuf Engine Broker Client ClientConnect World Va VaapiRoutes VaapiPolicy DecodeEos AnnexB Hevc Vp9.

Definition ADVC_VAAPI_CONFIG_SLOTS : Z := 8.
Definition ADVC_VAAPI_CONTEXT_SLOTS : Z := 4.
Definition ADVC_VAAPI_SURFACE_SLOTS : Z := 64.
Definition ADVC_VAAPI_BUFFER_SLOTS : Z := 256.
Definition ADVC_VAAPI_TYPE_CONFIG : Z := 0x01000000.
Definition ADVC_VAAPI_TYPE_CONTEXT : Z := 0x02000000.
Definition ADVC_VAAPI_TYPE_SURFACE : Z := 0x03000000.
Definition ADVC_VAAPI_TYPE_BUFFER : Z := 0x04000000.
Definition ADVC_VAAPI_INDEX_MASK : Z := 0x00ffffff.
Definition ADVC_VAAPI_SYNC_LIMIT_NS : Z := 5000000000.
Definition ADVC_VAAPI_PTS_STEP_NS : Z := 1000000.
Definition DRM_FORMAT_R8 : Z := 0x20203852.
Definition DRM_FORMAT_GR88 : Z := 0x38385247.
Definition E2BIG : Z := 7.
Definition EPROTONOSUPPORT : Z := 93.

(** ** libva's types *)

Inductive va_buffer_type :=
  | VAPictureParameterBufferType | VAIQMatrixBufferType | VASliceParameterBufferType
  | VASliceDataBufferType | VABufferTypeOther.
#[export] Instance va_buffer_type_eq_dec : EqDecision va_buffer_type.
Proof. solve_decision. Defined.
Definition type_eqb (a b : va_buffer_type) : bool := bool_decide (a = b).

(** The fields the code reads of VAPictureParameterBufferH264,
    VASliceParameterBufferH264, VAPictureParameterBufferHEVC and
    VASliceParameterBufferHEVC. *)
Record h264_picture := H264Picture {
  pp_picture_width_in_mbs_minus1 : Z; pp_picture_height_in_mbs_minus1 : Z;
  pp_bit_depth_luma_minus8 : Z; pp_bit_depth_chroma_minus8 : Z; pp_chroma_format_idc : Z;
  pp_residual_colour_transform_flag : Z; pp_gaps_in_frame_num_value_allowed_flag : Z;
  pp_frame_mbs_only_flag : Z; pp_mb_adaptive_frame_field_flag : Z;
  pp_direct_8x8_inference_flag : Z; pp_log2_max_frame_num_minus4 : Z;
  pp_pic_order_cnt_type : Z; pp_log2_max_pic_order_cnt_lsb_minus4 : Z;
  pp_delta_pic_order_always_zero_flag : Z; pp_num_ref_frames : Z; pp_pic_init_qp_minus26 : Z;
  pp_pic_init_qs_minus26 : Z; pp_chroma_qp_index_offset : Z;
  pp_second_chroma_qp_index_offset : Z; pp_entropy_coding_mode_flag : Z;
  pp_weighted_pred_flag : Z; pp_weighted_bipred_idc : Z; pp_transform_8x8_mode_flag : Z;
  pp_field_pic_flag : Z; pp_constrained_intra_pred_flag : Z; pp_pic_order_present_flag : Z;
  pp_deblocking_filter_control_present_flag : Z; pp_redundant_pic_cnt_present_flag : Z }.
Definition zero_h264_picture : h264_picture :=
  H264Picture 0 0 0 0 0 0 0 0 0 0 0 0 0 0 0 0 0 0 0 0 0 0 0 0 0 0 0 0.

Record h264_slice := H264Slice {
  hs4_slice_data_size : Z; hs4_slice_data_offset : Z; hs4_slice_data_flag : Z;
  hs4_first_mb_in_slice : Z; hs4_slice_type : Z;
  hs4_num_ref_idx_l0_active_minus1 : Z; hs4_num_ref_idx_l1_active_minus1 : Z }.

Record hevc_picture := HevcPicture {
  hp_pic_width_in_luma_samples : Z; hp_pic_height_in_luma_samples : Z;
  hp_chroma_format_idc : Z; hp_separate_colour_plane_flag : Z; hp_bit_depth_luma_minus8 : Z;
  hp_bit_depth_chroma_minus8 : Z; hp_sps_max_dec_pic_buffering_minus1 : Z;
  hp_NoPicReorderingFlag : Z; hp_log2_min_luma_coding_block_size_minus3 : Z;
  hp_log2_diff_max_min_luma_coding_block_size : Z; hp_log2_min_transform_block_size_minus2 : Z;
  hp_log2_diff_max_min_transform_block_size : Z; hp_max_transform_hierarchy_depth_intra : Z;
  hp_max_transform_hierarchy_depth_inter : Z; hp_scaling_list_enabled_flag : Z;
  hp_amp_enabled_flag : Z; hp_sample_adaptive_offset_enabled_flag : Z; hp_pcm_enabled_flag : Z;
  hp_strong_intra_smoothing_enabled_flag : Z; hp_num_short_term_ref_pic_sets : Z;
  hp_long_term_ref_pics_present_flag : Z; hp_num_long_term_ref_pic_sps : Z;
  hp_sps_temporal_mvp_enabled_flag : Z; hp_log2_max_pic_order_cnt_lsb_minus4 : Z;
  hp_dependent_slice_segments_enabled_flag : Z; hp_output_flag_present_flag : Z;
  hp_num_extra_slice_header_bits : Z; hp_sign_data_hiding_enabled_flag : Z;
  hp_cabac_init_present_flag : Z; hp_num_ref_idx_l0_default_active_minus1 : Z;
  hp_num_ref_idx_l1_default_active_minus1 : Z; hp_init_qp_minus26 : Z;
  hp_constrained_intra_pred_flag : Z; hp_transform_skip_enabled_flag : Z;
  hp_cu_qp_delta_enabled_flag : Z; hp_diff_cu_qp_delta_depth : Z; hp_pps_cb_qp_offset : Z;
  hp_pps_cr_qp_offset : Z; hp_pps_slice_chroma_qp_offsets_present_flag : Z;
  hp_weighted_pred_flag : Z; hp_weighted_bipred_flag : Z;
  hp_transquant_bypass_enabled_flag : Z; hp_tiles_enabled_flag : Z;
  hp_entropy_coding_sync_enabled_flag : Z; hp_num_tile_columns_minus1 : Z;
  hp_num_tile_rows_minus1 : Z; hp_column_width_minus1 : list Z; hp_row_height_minus1 : list Z;
  hp_loop_filter_across_tiles_enabled_flag : Z;
  hp_pps_loop_filter_across_slices_enabled_flag : Z;
  hp_deblocking_filter_override_enabled_flag : Z; hp_pps_disable_deblocking_filter_flag : Z;
  hp_pps_beta_offset_div2 : Z; hp_pps_tc_offset_div2 : Z;
  hp_lists_modification_present_flag : Z; hp_log2_parallel_merge_level_minus2 : Z;
  hp_slice_segment_header_extension_present_flag : Z }.
Definition zero_hevc_picture : hevc_picture :=
  HevcPicture 0 0 0 0 0 0 0 0 0 0 0 0 0 0 0 0 0 0 0 0 0 0 0 0 0 0 0 0 0 0 0 0 0 0 0 0 0 0 0 0 0
  0 0 0 0 0 [] [] 0 0 0 0 0 0 0 0 0.

Record hevc_slice := HevcSliceParam {
  hs5_slice_data_size : Z; hs5_slice_data_offset : Z; hs5_slice_data_flag : Z;
  hs5_slice_segment_address : Z; hs5_LastSliceOfPic : Z }.

Definition zero_vp9_picture : vp9_picture := Vp9Picture 0 0 0 0 0 0 0 0 0.

(** Sizes of libva's structures, and their fields from their bytes. *)
Record va_abi := VaAbi {
  sizeof_h264_picture : Z; sizeof_h264_iq : Z; sizeof_h264_slice : Z;
  sizeof_hevc_picture : Z; sizeof_hevc_iq : Z; sizeof_hevc_slice : Z;
  sizeof_vp9_picture : Z; sizeof_vp9_slice : Z;
  read_h264_picture : list Z -> h264_picture; read_h264_slice : list Z -> h264_slice;
  read_hevc_picture : list Z -> hevc_picture; read_hevc_slice : list Z -> hevc_slice;
  read_vp9_picture : list Z -> vp9_picture; read_vp9_slice : list Z -> vp9_slice }.

(** ** The tables *)

Record config := Config { cf_used : bool; cf_profile : va_profile }.
Definition zero_config : config := Config false VAProfileOther.

Inductive surface_state := SURFACE_IDLE | SURFACE_PENDING | SURFACE_READY | SURFACE_ERROR.
#[export] Instance surface_state_eq_dec : EqDecision surface_state.
Proof. solve_decision. Defined.
Definition state_eqb (a b : surface_state) : bool := bool_decide (a = b).

Record surface := Surface {
  sf_used : bool; sf_width : Z; sf_height : Z; sf_state : surface_state; sf_pts_ns : Z;
  sf_owner_context : Z; sf_owner_session : Z; sf_broker_buffer_id : Z; sf_prime_reserved : bool;
  sf_prime : advc_dmabuf_descriptor; sf_acquire_fence_fd : Z }.
(** [memset(surface, 0, sizeof *surface)] *)
Definition zero_surface : surface :=
  Surface false 0 0 SURFACE_IDLE 0 0 0 0 false zero_descriptor 0.

Definition set_state (st : surface_state) (s : surface) : surface :=
  Surface (sf_used s) (sf_width s) (sf_height s) st (sf_pts_ns s) (sf_owner_context s)
    (sf_owner_session s) (sf_broker_buffer_id s) (sf_prime_reserved s) (sf_prime s)
    (sf_acquire_fence_fd s).
(** The timestamp and the owner of a submitted picture. *)
Definition set_submission (pts_ns context_id session : Z) (s : surface) : surface :=
  Surface (sf_used s) (sf_width s) (sf_height s) (sf_state s) pts_ns context_id session
    (sf_broker_buffer_id s) (sf_prime_reserved s) (sf_prime s) (sf_acquire_fence_fd s).
(** What a surface holds of the broker: the buffer, whether it is a reserved
    one, its dma-buf and the fence to wait for. *)
Definition set_holding (buffer_id : Z) (reserved : bool) (prime : advc_dmabuf_descriptor)
    (fence : Z) (s : surface) : surface :=
  Surface (sf_used s) (sf_width s) (sf_height s) (sf_state s) (sf_pts_ns s) (sf_owner_context s)
    (sf_owner_session s) buffer_id reserved prime fence.

Record buffer := Buffer {
  bf_used : bool; bf_context_id : Z; bf_type : va_buffer_type; bf_element_size : Z;
  bf_capacity_elements : Z; bf_num_elements : Z; bf_data : list Z; bf_mapped : bool }.
Definition zero_buffer : buffer := Buffer false 0 VABufferTypeOther 0 0 0 [] false.

Inductive decode_codec := DECODE_CODEC_H264 | DECODE_CODEC_HEVC | DECODE_CODEC_VP9.
#[export] Instance decode_codec_eq_dec : EqDecision decode_codec.
Proof. solve_decision. Defined.

(** The members [reset_staging] clears: the picture being submitted. *)
Record staging := Staging {
  sg_picture_active : bool; sg_target : Z; sg_have_picture : bool; sg_have_iq : bool;
  sg_slice_parameters : list h264_slice; sg_hevc_slice_parameters : list hevc_slice;
  sg_vp9_slice_parameters : list vp9_slice;
  sg_slice_count : Z; sg_slice_data_bound_count : Z;
  sg_slice_data : option (list Z); sg_slice_data_size : Z }.

Record context := Context {
  cx_used : bool; cx_config_id : Z; cx_broker_fd : Z; cx_broker_session : Z;
  cx_width : Z; cx_height : Z; cx_codec : decode_codec;
  cx_async_decode_prime : bool; cx_broker_qcom_modifier : Z;
  cx_staging : staging;
  cx_picture : h264_picture; cx_iq : list Z;
  cx_hevc_picture : hevc_picture; cx_hevc_iq : list Z; cx_vp9_picture : vp9_picture;
  cx_last_config : advc_h264_codec_config; cx_hevc_last_config : advc_hevc_codec_config;
  cx_configured : bool;
  cx_pps_l0_default_active_minus1 : Z; cx_pps_l1_default_active_minus1 : Z;
  cx_pps_l0_known : bool; cx_pps_l1_known : bool;
  cx_eos : decode_eos_state }.

Definition reset_staging : staging :=
  Staging false VA_INVALID_SURFACE false false [] [] [] 0 0 None 0.
(** [memset(context, 0, sizeof *context)] *)
Definition zero_context : context :=
  Context false 0 0 0 0 0 DECODE_CODEC_H264 false 0 (Staging false 0 false false [] [] [] 0 0 None 0)
    zero_h264_picture [] zero_hevc_picture [] zero_vp9_picture (CodecConfig [] 0) (HevcConfig [] 0)
    false 0 0 false false (State 0 0 0 0 0 0 0).

(** Member assignments. *)
Definition set_broker_fd (fd : Z) (c : context) : context :=
  Context (cx_used c) (cx_config_id c) fd (cx_broker_session c) (cx_width c) (cx_height c)
    (cx_codec c) (cx_async_decode_prime c) (cx_broker_qcom_modifier c) (cx_staging c) (cx_picture c)
    (cx_iq c) (cx_hevc_picture c) (cx_hevc_iq c) (cx_vp9_picture c) (cx_last_config c)
    (cx_hevc_last_config c) (cx_configured c) (cx_pps_l0_default_active_minus1 c)
    (cx_pps_l1_default_active_minus1 c) (cx_pps_l0_known c) (cx_pps_l1_known c) (cx_eos c).
Definition set_staging (sg : staging) (c : context) : context :=
  Context (cx_used c) (cx_config_id c) (cx_broker_fd c) (cx_broker_session c) (cx_width c)
    (cx_height c) (cx_codec c) (cx_async_decode_prime c) (cx_broker_qcom_modifier c) sg (cx_picture c)
    (cx_iq c) (cx_hevc_picture c) (cx_hevc_iq c) (cx_vp9_picture c) (cx_last_config c)
    (cx_hevc_last_config c) (cx_configured c) (cx_pps_l0_default_active_minus1 c)
    (cx_pps_l1_default_active_minus1 c) (cx_pps_l0_known c) (cx_pps_l1_known c) (cx_eos c).
Definition set_pictures (p : h264_picture) (iq : list Z) (hp : hevc_picture) (hiq : list Z)
    (vp : vp9_picture) (c : context) : context :=
  Context (cx_used c) (cx_config_id c) (cx_broker_fd c) (cx_broker_session c) (cx_width c)
    (cx_height c) (cx_codec c) (cx_async_decode_prime c) (cx_broker_qcom_modifier c) (cx_staging c) p
    iq hp hiq vp (cx_last_config c) (cx_hevc_last_config c) (cx_configured c)
    (cx_pps_l0_default_active_minus1 c) (cx_pps_l1_default_active_minus1 c) (cx_pps_l0_known c)
    (cx_pps_l1_known c) (cx_eos c).
Definition set_configured (k : advc_h264_codec_config) (hk : advc_hevc_codec_config) (c : context)
    : context :=
  Context (cx_used c) (cx_config_id c) (cx_broker_fd c) (cx_broker_session c) (cx_width c)
    (cx_height c) (cx_codec c) (cx_async_decode_prime c) (cx_broker_qcom_modifier c) (cx_staging c)
    (cx_picture c) (cx_iq c) (cx_hevc_picture c) (cx_hevc_iq c) (cx_vp9_picture c) k hk true
    (cx_pps_l0_default_active_minus1 c) (cx_pps_l1_default_active_minus1 c) (cx_pps_l0_known c)
    (cx_pps_l1_known c) (cx_eos c).
Definition set_pps (l0 l1 : Z) (k0 k1 : bool) (c : context) : context :=
  Context (cx_used c) (cx_config_id c) (cx_broker_fd c) (cx_broker_session c) (cx_width c)
    (cx_height c) (cx_codec c) (cx_async_decode_prime c) (cx_broker_qcom_modifier c) (cx_staging c)
    (cx_picture c) (cx_iq c) (cx_hevc_picture c) (cx_hevc_iq c) (cx_vp9_picture c) (cx_last_config c)
    (cx_hevc_last_config c) (cx_configured c) l0 l1 k0 k1 (cx_eos c).
Definition set_eos (e : decode_eos_state) (c : context) : context :=
  Context (cx_used c) (cx_config_id c) (cx_broker_fd c) (cx_broker_session c) (cx_width c)
    (cx_height c) (cx_codec c) (cx_async_decode_prime c) (cx_broker_qcom_modifier c) (cx_staging c)
    (cx_picture c) (cx_iq c) (cx_hevc_picture c) (cx_hevc_iq c) (cx_vp9_picture c) (cx_last_config c)
    (cx_hevc_last_config c) (cx_configured c) (cx_pps_l0_default_active_minus1 c)
    (cx_pps_l1_default_active_minus1 c) (cx_pps_l0_known c) (cx_pps_l1_known c) e.

Record runtime := Runtime {
  rt_socket_path : string; rt_policy : advc_vaapi_policy;
  rt_modifier_policy : Modifier.modifier_policy; rt_consumer : Surface.consumer_policy;
  rt_next_pts_ns : Z;
  rt_configs : list config;      (* ADVC_VAAPI_CONFIG_SLOTS of them *)
  rt_contexts : list context;    (* ADVC_VAAPI_CONTEXT_SLOTS *)
  rt_surfaces : list surface;    (* ADVC_VAAPI_SURFACE_SLOTS *)
  rt_buffers : list buffer }.    (* ADVC_VAAPI_BUFFER_SLOTS *)

Definition set_configs l (r : runtime) : runtime :=
  Runtime (rt_socket_path r) (rt_policy r) (rt_modifier_policy r) (rt_consumer r) (rt_next_pts_ns r)
    l (rt_contexts r) (rt_surfaces r) (rt_buffers r).
Definition set_contexts l (r : runtime) : runtime :=
  Runtime (rt_socket_path r) (rt_policy r) (rt_modifier_policy r) (rt_consumer r) (rt_next_pts_ns r)
    (rt_configs r) l (rt_surfaces r) (rt_buffers r).
Definition set_surfaces l (r : runtime) : runtime :=
  Runtime (rt_socket_path r) (rt_policy r) (rt_modifier_policy r) (rt_consumer r) (rt_next_pts_ns r)
    (rt_configs r) (rt_contexts r) l (rt_buffers r).
Definition set_buffers l (r : runtime) : runtime :=
  Runtime (rt_socket_path r) (rt_policy r) (rt_modifier_policy r) (rt_consumer r) (rt_next_pts_ns r)
    (rt_configs r) (rt_contexts r) (rt_surfaces r) l.
Definition set_next_pts n (r : runtime) : runtime :=
  Runtime (rt_socket_path r) (rt_policy r) (rt_modifier_policy r) (rt_consumer r) n
    (rt_configs r) (rt_contexts r) (rt_surfaces r) (rt_buffers r).

(** Slot access and update by index. *)
Definition config_at (r : runtime) (i : nat) : config := default zero_config (rt_configs r !! i).
Definition context_at (r : runtime) (i : nat) : context := default zero_context (rt_contexts r !! i).
Definition surface_at (r : runtime) (i : nat) : surface := default zero_surface (rt_surfaces r !! i).
Definition buffer_at (r : runtime) (i : nat) : buffer := default zero_buffer (rt_buffers r !! i).
Definition on_context (i : nat) (f : context -> context) (r : runtime) : runtime :=
  set_contexts (alter f i (rt_contexts r)) r.
Definition on_surface (i : nat) (f : surface -> surface) (r : runtime) : runtime :=
  set_surfaces (alter f i (rt_surfaces r)) r.
Definition on_buffer (i : nat) (f : buffer -> buffer) (r : runtime) : runtime :=
  set_buffers (alter f i (rt_buffers r)) r.

(** ** Identifiers *)

Definition make_id (type : Z) (index : nat) : Z := Z.lor type (Z.of_nat index + 1).

(** [None]: the function returns -1. *)
Definition id_index (id type limit : Z) : option nat :=
  if negb (Z.land id (Z.lxor UINT32_MAX ADVC_VAAPI_INDEX_MASK) =? type) then None
  else
    let low := Z.land id ADVC_VAAPI_INDEX_MASK in
    if (low =? 0) || (limit <? low) then None else Some (Z.to_nat (low - 1)).

(** The slot of a live object; [None] is NULL. *)
Definition get_config (r : runtime) (id : Z) : option nat :=
  i ← id_index id ADVC_VAAPI_TYPE_CONFIG ADVC_VAAPI_CONFIG_SLOTS;
  if cf_used (config_at r i) then Some i else None.
Definition get_context (r : runtime) (id : Z) : option nat :=
  i ← id_index id ADVC_VAAPI_TYPE_CONTEXT ADVC_VAAPI_CONTEXT_SLOTS;
  if cx_used (context_at r i) then Some i else None.
Definition get_surface (r : runtime) (id : Z) : option nat :=
  i ← id_index id ADVC_VAAPI_TYPE_SURFACE ADVC_VAAPI_SURFACE_SLOTS;
  if sf_used (surface_at r i) then Some i else None.
Definition get_buffer (r : runtime) (id : Z) : option nat :=
  i ← id_index id ADVC_VAAPI_TYPE_BUFFER ADVC_VAAPI_BUFFER_SLOTS;
  if bf_used (buffer_at r i) then Some i else None.

(** ** The world *)

Notation world := (world_of runtime).
