(* ===== verification/DecodeStaging.v ===== *)
(** * Staging a picture (src/src/vaapi_advc/advc_vaapi_decode_runtime.c)

    The pure parts of the decode runtime: the decisions by profile, the mapping of
    libva's picture parameters to the bitstream builders' input, and the staging
    of slice parameters and slice data, whose offsets are rebased into one
    buffer. *)

From stdpp Require Import base list gmap.
From Stdlib Require Import ZArith Lia Bool String.
#[local] Notation length := List.length.
From S2P Require Import Prelude Kernel Protocol Dmabuf Engine Broker Client ClientConnect World Va VaapiRoutes VaapiPolicy DecodeEos AnnexB Hevc Vp9 DecodeState.

(** ** Tables of constants *)

Definition status_for_errno (error : Z) : va_status :=
  if error =? ENOMEM then VA_STATUS_ERROR_ALLOCATION_FAILED
  else if (error =? ENOTSUP) || (error =? EPROTONOSUPPORT) then VA_STATUS_ERROR_UNSUPPORTED_PROFILE
  else if (error =? E2BIG) || (error =? EINVAL) || (error =? EPROTO)
  then VA_STATUS_ERROR_INVALID_PARAMETER
  else VA_STATUS_ERROR_OPERATION_FAILED.

Definition has_codec (p : advc_vaapi_policy) (bit : Z) : bool :=
  negb (Z.land (vp_advertised_codecs p) bit =? 0).

Definition profile_supported (r : runtime) (profile : va_profile) : bool :=
  if (profile_eqb profile VAProfileH264ConstrainedBaseline || profile_eqb profile VAProfileH264Main) &&
     has_codec (rt_policy r) ADVC_VAAPI_CODEC_H264 then true
  else if profile_eqb profile VAProfileHEVCMain && has_codec (rt_policy r) ADVC_VAAPI_CODEC_HEVC_MAIN
  then true
  else profile_eqb profile VAProfileVP9Profile0 && has_codec (rt_policy r) ADVC_VAAPI_CODEC_VP9_PROFILE0.

Definition codec_for_profile (profile : va_profile) : decode_codec :=
  if profile_eqb profile VAProfileHEVCMain then DECODE_CODEC_HEVC
  else if profile_eqb profile VAProfileVP9Profile0 then DECODE_CODEC_VP9
  else DECODE_CODEC_H264.

Definition profile_limits (p : advc_vaapi_policy) (profile : va_profile) : Z * Z :=
  let l := if profile_eqb profile VAProfileHEVCMain then vp_hevc p
           else if profile_eqb profile VAProfileVP9Profile0 then vp_vp9 p else vp_h264 p in
  (cl_max_width l, cl_max_height l).

Definition profile_mime (profile : va_profile) : list Z :=
  if profile_eqb profile VAProfileHEVCMain then MIME_HEVC
  else if profile_eqb profile VAProfileVP9Profile0 then MIME_VP9 else MIME_AVC.

Definition advertised_surface_limits (p : advc_vaapi_policy) : Z * Z :=
  let grow bit l wh :=
    if has_codec p bit
    then (if fst wh <? cl_max_width l then cl_max_width l else fst wh,
          if snd wh <? cl_max_height l then cl_max_height l else snd wh)
    else wh in
  grow ADVC_VAAPI_CODEC_VP9_PROFILE0 (vp_vp9 p)
    (grow ADVC_VAAPI_CODEC_HEVC_MAIN (vp_hevc p)
       (grow ADVC_VAAPI_CODEC_H264 (vp_h264 p) (0, 0))).

(** ** Slice staging *)

(** [memcpy(dst, data, n)] from an allocation of [zlen data] bytes; [None] reads
    past its end. *)
Definition copy_from (data : list Z) (n : Z) : option (list Z) :=
  if n <=? zlen data then Some (take (Z.to_nat n) data) else None.

(** An array of [n] structures of [size] bytes. *)
Definition chunks (size : Z) (n : Z) (data : list Z) : list (list Z) :=
  (fun k => take (Z.to_nat size) (drop (Z.to_nat (k * size)) data)) <$> seqZ 0 n.

Definition map_h264_parameters (c : context) (profile : va_profile) : advc_h264_parameter_input :=
  let p := cx_picture c in
  Params
    (if profile_eqb profile VAProfileH264ConstrainedBaseline then 66 else 77) (cx_width c)
    (cx_height c) (pp_picture_width_in_mbs_minus1 p) (pp_picture_height_in_mbs_minus1 p)
    (pp_bit_depth_luma_minus8 p) (pp_bit_depth_chroma_minus8 p) (pp_chroma_format_idc p)
    (pp_residual_colour_transform_flag p) (pp_gaps_in_frame_num_value_allowed_flag p)
    (pp_frame_mbs_only_flag p) (pp_mb_adaptive_frame_field_flag p)
    (pp_direct_8x8_inference_flag p) (pp_log2_max_frame_num_minus4 p) (pp_pic_order_cnt_type p)
    (pp_log2_max_pic_order_cnt_lsb_minus4 p) (pp_delta_pic_order_always_zero_flag p)
    (pp_num_ref_frames p) 0 0 0 (pp_pic_init_qp_minus26 p) (pp_pic_init_qs_minus26 p)
    (pp_chroma_qp_index_offset p) (pp_second_chroma_qp_index_offset p)
    (pp_entropy_coding_mode_flag p) (pp_weighted_pred_flag p) (pp_weighted_bipred_idc p)
    (pp_transform_8x8_mode_flag p) (pp_field_pic_flag p) (pp_constrained_intra_pred_flag p)
    (pp_pic_order_present_flag p) (pp_deblocking_filter_control_present_flag p)
    (pp_redundant_pic_cnt_present_flag p) (cx_pps_l0_default_active_minus1 c)
    (cx_pps_l1_default_active_minus1 c).

Definition map_hevc_parameters (c : context) : advc_hevc_parameter_input :=
  let p := cx_hevc_picture c in
  HevcParams (cx_width c) (cx_height c)
    (hp_pic_width_in_luma_samples p) (hp_pic_height_in_luma_samples p) (hp_chroma_format_idc p)
    (hp_separate_colour_plane_flag p) (hp_bit_depth_luma_minus8 p)
    (hp_bit_depth_chroma_minus8 p) (hp_sps_max_dec_pic_buffering_minus1 p)
    (hp_NoPicReorderingFlag p) (hp_log2_min_luma_coding_block_size_minus3 p)
    (hp_log2_diff_max_min_luma_coding_block_size p) (hp_log2_min_transform_block_size_minus2 p)
    (hp_log2_diff_max_min_transform_block_size p) (hp_max_transform_hierarchy_depth_intra p)
    (hp_max_transform_hierarchy_depth_inter p) (hp_scaling_list_enabled_flag p)
    (hp_amp_enabled_flag p) (hp_sample_adaptive_offset_enabled_flag p) (hp_pcm_enabled_flag p)
    (hp_strong_intra_smoothing_enabled_flag p) (hp_num_short_term_ref_pic_sets p)
    (hp_long_term_ref_pics_present_flag p) (hp_num_long_term_ref_pic_sps p)
    (hp_sps_temporal_mvp_enabled_flag p) (hp_log2_max_pic_order_cnt_lsb_minus4 p)
    (hp_dependent_slice_segments_enabled_flag p) (hp_output_flag_present_flag p)
    (hp_num_extra_slice_header_bits p) (hp_sign_data_hiding_enabled_flag p)
    (hp_cabac_init_present_flag p) (hp_num_ref_idx_l0_default_active_minus1 p)
    (hp_num_ref_idx_l1_default_active_minus1 p) (hp_init_qp_minus26 p)
    (hp_constrained_intra_pred_flag p) (hp_transform_skip_enabled_flag p)
    (hp_cu_qp_delta_enabled_flag p) (hp_diff_cu_qp_delta_depth p) (hp_pps_cb_qp_offset p)
    (hp_pps_cr_qp_offset p) (hp_pps_slice_chroma_qp_offsets_present_flag p)
    (hp_weighted_pred_flag p) (hp_weighted_bipred_flag p) (hp_transquant_bypass_enabled_flag p)
    (hp_tiles_enabled_flag p) (hp_entropy_coding_sync_enabled_flag p)
    (hp_num_tile_columns_minus1 p) (hp_num_tile_rows_minus1 p) (hp_column_width_minus1 p)
    (hp_row_height_minus1 p) (hp_loop_filter_across_tiles_enabled_flag p)
    (hp_pps_loop_filter_across_slices_enabled_flag p)
    (hp_deblocking_filter_override_enabled_flag p) (hp_pps_disable_deblocking_filter_flag p)
    (hp_pps_beta_offset_div2 p) (hp_pps_tc_offset_div2 p)
    (hp_lists_modification_present_flag p) (hp_log2_parallel_merge_level_minus2 p)
    (hp_slice_segment_header_extension_present_flag p).

(** [for (i = 4; i + 4 <= size; ++i)]: the offset of the second start code, 0
    when there is none. *)
Definition second_code (data : list Z) (i : Z) : bool :=
  (byte_at data i =? 0) && (byte_at data (i + 1) =? 0) && (byte_at data (i + 2) =? 0) &&
  (byte_at data (i + 3) =? 1).
Definition codec_config_sps_size (c : advc_h264_codec_config) : Z :=
  let size := zlen (cc_data c) in
  match List.find (second_code (cc_data c)) (seqZ 4 (size - 7)) with Some i => i | None => 0 end.

Section Shapes.
Context (abi : va_abi).

(** [sizeof] of the slice structure and the most slices of a picture. *)
Definition slice_shape (codec : decode_codec) : Z * Z :=
  match codec with
  | DECODE_CODEC_HEVC => (sizeof_hevc_slice abi, ADVC_HEVC_MAX_SLICES)
  | DECODE_CODEC_VP9 => (sizeof_vp9_slice abi, 1)
  | DECODE_CODEC_H264 => (sizeof_h264_slice abi, ADVC_H264_MAX_SLICES)
  end.

Definition buffer_shape_supported (codec : decode_codec) (type : va_buffer_type)
    (size num_elements : Z) : bool :=
  if type_eqb type VASliceDataBufferType then true
  else match codec with
  | DECODE_CODEC_HEVC =>
      if type_eqb type VAPictureParameterBufferType
      then (size =? sizeof_hevc_picture abi) && (num_elements =? 1)
      else if type_eqb type VAIQMatrixBufferType
      then (size =? sizeof_hevc_iq abi) && (num_elements =? 1)
      else type_eqb type VASliceParameterBufferType && (size =? sizeof_hevc_slice abi)
  | DECODE_CODEC_VP9 =>
      if type_eqb type VAPictureParameterBufferType
      then (size =? sizeof_vp9_picture abi) && (num_elements =? 1)
      else type_eqb type VASliceParameterBufferType && (size =? sizeof_vp9_slice abi)
  | DECODE_CODEC_H264 =>
      if type_eqb type VAPictureParameterBufferType
      then (size =? sizeof_h264_picture abi) && (num_elements =? 1)
      else if type_eqb type VAIQMatrixBufferType
      then (size =? sizeof_h264_iq abi) && (num_elements =? 1)
      else type_eqb type VASliceParameterBufferType && (size =? sizeof_h264_slice abi)
  end.

(** The copied array goes to the list of the context's codec. *)
Definition store_slices (codec : decode_codec) (raw : list (list Z)) (n : Z) (g : staging) : staging :=
  Staging (sg_picture_active g) (sg_target g) (sg_have_picture g) (sg_have_iq g)
    (match codec with DECODE_CODEC_H264 => sg_slice_parameters g ++ (read_h264_slice abi <$> raw)
     | _ => sg_slice_parameters g end)
    (match codec with DECODE_CODEC_HEVC => sg_hevc_slice_parameters g ++ (read_hevc_slice abi <$> raw)
     | _ => sg_hevc_slice_parameters g end)
    (match codec with DECODE_CODEC_VP9 => sg_vp9_slice_parameters g ++ (read_vp9_slice abi <$> raw)
     | _ => sg_vp9_slice_parameters g end)
    (sg_slice_count g + n) (sg_slice_data_bound_count g) (sg_slice_data g) (sg_slice_data_size g).

(** The staged result of one buffer: refused with an errno, staged, or undefined. *)
Inductive staged := Refused (e : Z) | StagedAs (g : staging) | Overread.

(** The guard of [append_slice_parameters]. *)
Definition slices_refused (codec : decode_codec) (g : staging) (b : buffer) : bool :=
  let max_slices := snd (slice_shape codec) in
  negb (sg_slice_data_bound_count g =? sg_slice_count g) ||
  negb (bf_element_size b =? fst (slice_shape codec)) ||
  (bf_num_elements b =? 0) || (max_slices <? bf_num_elements b) ||
  (max_slices - bf_num_elements b <? sg_slice_count g).

(** [alloc_ok]: the [realloc] succeeds. *)
Definition append_slice_parameters (alloc_ok : bool) (codec : decode_codec) (g : staging)
    (b : buffer) : staged :=
  let expected_size := fst (slice_shape codec) in
  if slices_refused codec g b then Refused EINVAL
  else if negb alloc_ok then Refused ENOMEM
  else match copy_from (bf_data b) (bf_num_elements b * expected_size) with
  | None => Overread
  | Some data => StagedAs (store_slices codec (chunks expected_size (bf_num_elements b) data)
                             (bf_num_elements b) g)
  end.

(** The offset and the size of a staged slice. *)
Definition slice_spans (codec : decode_codec) (g : staging) : list (Z * Z) :=
  match codec with
  | DECODE_CODEC_HEVC =>
      (fun s => (hs5_slice_data_offset s, hs5_slice_data_size s)) <$> sg_hevc_slice_parameters g
  | DECODE_CODEC_VP9 =>
      (fun s => (vs_slice_data_offset s, vs_slice_data_size s)) <$> sg_vp9_slice_parameters g
  | DECODE_CODEC_H264 =>
      (fun s => (hs4_slice_data_offset s, hs4_slice_data_size s)) <$> sg_slice_parameters g
  end.

(** [parameters[bound + i].slice_data_offset = offsets[i]] *)
Definition put_offsets {A} (set : Z -> A -> A) (bound : Z) (offsets : list Z) (l : list A) : list A :=
  take (Z.to_nat bound) l ++ zip_with set offsets (drop (Z.to_nat bound) l).

Definition rebased (codec : decode_codec) (offsets : list Z) (data : list Z) (g : staging) : staging :=
  let bound := sg_slice_data_bound_count g in
  Staging (sg_picture_active g) (sg_target g) (sg_have_picture g) (sg_have_iq g)
    (match codec with
     | DECODE_CODEC_H264 => put_offsets (fun o s => H264Slice (hs4_slice_data_size s) o
         (hs4_slice_data_flag s) (hs4_first_mb_in_slice s) (hs4_slice_type s)
         (hs4_num_ref_idx_l0_active_minus1 s) (hs4_num_ref_idx_l1_active_minus1 s))
         bound offsets (sg_slice_parameters g)
     | _ => sg_slice_parameters g end)
    (match codec with
     | DECODE_CODEC_HEVC => put_offsets (fun o s => HevcSliceParam (hs5_slice_data_size s) o
         (hs5_slice_data_flag s) (hs5_slice_segment_address s) (hs5_LastSliceOfPic s))
         bound offsets (sg_hevc_slice_parameters g)
     | _ => sg_hevc_slice_parameters g end)
    (match codec with
     | DECODE_CODEC_VP9 => put_offsets (fun o s => Vp9Slice (vs_slice_data_size s) o
         (vs_slice_data_flag s)) bound offsets (sg_vp9_slice_parameters g)
     | _ => sg_vp9_slice_parameters g end)
    (sg_slice_count g) (sg_slice_count g)
    (Some (default [] (sg_slice_data g) ++ data)) (sg_slice_data_size g + zlen data).

(** The three allocations are the offset array, the size array and the grown
    data. *)
Definition set_slice_data (alloc0 alloc1 alloc2 : bool) (codec : decode_codec) (g : staging)
    (b : buffer) : staged :=
  let size := bf_element_size b * bf_num_elements b in
  if (sg_slice_count g <=? sg_slice_data_bound_count g) || (size =? 0) ||
     (ADVC_MAX_INPUT_BYTES <? sg_slice_data_size g) ||
     (ADVC_MAX_INPUT_BYTES - sg_slice_data_size g <? size)
  then Refused EINVAL
  else if negb (alloc0 && alloc1) then Refused ENOMEM
  else
    let pending := drop (Z.to_nat (sg_slice_data_bound_count g)) (slice_spans codec g) in
    match Slices.advc_vaapi_rebase_slice_offsets (Some (fst <$> pending)) (Some (snd <$> pending))
            (sg_slice_count g - sg_slice_data_bound_count g) (sg_slice_data_size g) size
            ADVC_MAX_INPUT_BYTES with
    | inl e => Refused e
    | inr offsets =>
        if negb alloc2 then Refused ENOMEM
        else match copy_from (bf_data b) size with
        | None => Overread
        | Some data => StagedAs (rebased codec offsets data g)
        end
    end.

(** A picture parameter or IQ matrix buffer. *)
Definition set_have (picture iq : bool) (g : staging) : staging :=
  Staging (sg_picture_active g) (sg_target g) picture iq (sg_slice_parameters g)
    (sg_hevc_slice_parameters g) (sg_vp9_slice_parameters g) (sg_slice_count g)
    (sg_slice_data_bound_count g) (sg_slice_data g) (sg_slice_data_size g).

Definition copy_picture (c : context) (b : buffer) : option context :=
  match cx_codec c with
  | DECODE_CODEC_HEVC =>
      d ← copy_from (bf_data b) (sizeof_hevc_picture abi);
      Some (set_pictures (cx_picture c) (cx_iq c) (read_hevc_picture abi d) (cx_hevc_iq c)
              (cx_vp9_picture c) c)
  | DECODE_CODEC_VP9 =>
      d ← copy_from (bf_data b) (sizeof_vp9_picture abi);
      Some (set_pictures (cx_picture c) (cx_iq c) (cx_hevc_picture c) (cx_hevc_iq c)
              (read_vp9_picture abi d) c)
  | DECODE_CODEC_H264 =>
      d ← copy_from (bf_data b) (sizeof_h264_picture abi);
      Some (set_pictures (read_h264_picture abi d) (cx_iq c) (cx_hevc_picture c) (cx_hevc_iq c)
              (cx_vp9_picture c) c)
  end.

(** Not for VP9. *)
Definition copy_iq (c : context) (b : buffer) : option context :=
  match cx_codec c with
  | DECODE_CODEC_HEVC =>
      d ← copy_from (bf_data b) (sizeof_hevc_iq abi);
      Some (set_pictures (cx_picture c) (cx_iq c) (cx_hevc_picture c) d (cx_vp9_picture c) c)
  | _ =>
      d ← copy_from (bf_data b) (sizeof_h264_iq abi);
      Some (set_pictures (cx_picture c) d (cx_hevc_picture c) (cx_hevc_iq c) (cx_vp9_picture c) c)
  end.
End Shapes.

(** ** The picture handed to the builders *)

(** The bytes of one slice; [None]: not inside the staged data. *)
Definition slice_range (g : staging) (flag offset size : Z) : option (list Z) :=
  if negb (flag =? VA_SLICE_DATA_FLAG_ALL) || (sg_slice_data_size g <? offset) ||
     (sg_slice_data_size g - offset <? size)
  then None
  else Some (take (Z.to_nat size) (drop (Z.to_nat offset) (default [] (sg_slice_data g)))).

Definition staging_incomplete (g : staging) : bool :=
  negb (sg_have_picture g) || (sg_slice_count g =? 0) || bool_decide (sg_slice_data g = None) ||
  negb (sg_slice_data_bound_count g =? sg_slice_count g).

Definition hevc_inputs (g : staging) : option (list advc_hevc_slice_input) :=
  mapM (fun p =>
    d ← slice_range g (hs5_slice_data_flag p) (hs5_slice_data_offset p) (hs5_slice_data_size p);
    Some (HevcSlice (Some d) (hs5_slice_segment_address p) (u8 (hs5_LastSliceOfPic p))))
    (take (Z.to_nat (sg_slice_count g)) (sg_hevc_slice_parameters g)).

Definition h264_inputs (g : staging) : option (list advc_h264_slice_input) :=
  mapM (fun p =>
    d ← slice_range g (hs4_slice_data_flag p) (hs4_slice_data_offset p) (hs4_slice_data_size p);
    Some (SliceInput (Some d) (hs4_first_mb_in_slice p) (hs4_slice_type p)))
    (take (Z.to_nat (sg_slice_count g)) (sg_slice_parameters g)).
