(* ===== verification/DecodeOutput.v ===== *)
(** * Input and output of a decode context (src/src/vaapi_advc/advc_vaapi_decode_runtime.c)

    What the decode runtime does with a context's broker connection: queueing
    compressed bytes, dequeueing decoded output and giving it to the surface that
    waits for it, releasing a surface's output, and the adapter that runs the
    end-of-stream machine of DecodeEos.v on the connection.  Trace output is left
    out. *)

From stdpp Require Import base list gmap.
From Stdlib Require Import ZArith Lia Bool String.
#[local] Notation length := List.length.
From S2P Require Import Prelude Kernel Protocol Dmabuf Engine Broker Client ClientConnect World Va VaapiRoutes VaapiPolicy DecodeEos AnnexB Hevc Vp9 DecodeState DecodeStaging.

(** ** The driver's surroundings *)

(** The optional conversion hooks: result, converted descriptor, its acquire
    fence, the fence that releases the source. *)
Definition linear_hook : Type :=
  advc_dmabuf_descriptor -> Z -> St process (Z * advc_dmabuf_descriptor * Z * Z).

(** [getenv], the adapter of a preload library, the conversion hooks
    ([dr_gpu_repack = None]: built without ADVC_VAAPI_INPROCESS_REPACK), libva's
    layout. *)
Class driver := Driver {
  dr_getenv : string -> option string;
  dr_hooks : firefox_hooks;
  dr_recycle : option (Z -> St (machine connect_env) Z);
  dr_gpu_repack : option linear_hook;
  dr_cpu_copy : option linear_hook;
  dr_abi : va_abi }.

Section Operations.
Context {dr : driver}.

Definition exact_env (name value : string) : bool :=
  match dr_getenv name with Some actual => String.eqb actual value | None => false end.

(** *** Export timing *)

Definition start_export_timing : St world Z :=
  if exact_env "ADVC_VAAPI_EXPORT_TIMING" "1" then monotonic_ns else mret 0.

Definition record_export_timing (started_ns : Z) : St world unit :=
  if started_ns =? 0 then mret tt
  else
    ended_ns ← monotonic_ns;
    if ended_ns <? started_ns then mret tt
    else
      let elapsed_ns := ended_ns - started_ns in
      modify (fun w => let t := w_timing w in
        set_timing (Timing (u64 (et_count t + 1)) (u64 (et_total_ns t + elapsed_ns))
          (if et_max_ns t <? elapsed_ns then elapsed_ns else et_max_ns t)) w).

(** *** Surfaces and their outputs *)

Definition close_prime (s : nat) : St world unit :=
  r ← the_runtime;
  kernel (close_if_open (sf_acquire_fence_fd (surface_at r s))) ;;
  prime ← kernel (advc_dmabuf_descriptor_close (sf_prime (surface_at r s)));
  update (on_surface s (fun x => set_holding (sf_broker_buffer_id x) (sf_prime_reserved x) prime (-1) x)).

(** The broker gets its buffer back while the session that lent it is open. *)
Definition release_to_broker (r : runtime) (x : surface) : St world unit :=
  if negb (sf_broker_buffer_id x =? 0) && negb (sf_owner_context x =? 0) then
    match id_index (sf_owner_context x) ADVC_VAAPI_TYPE_CONTEXT ADVC_VAAPI_CONTEXT_SLOTS with
    | Some i =>
        let c := context_at r i in
        if cx_used c && (cx_broker_session c =? sf_owner_session x)
        then on_socket (cx_broker_fd c) (fun p =>
               advc_client_release_output p (sf_owner_session x) (sf_broker_buffer_id x)) ;;
             mret tt
        else mret tt
    | None => mret tt
    end
  else mret tt.

Definition release_surface_output (s : nat) : St world unit :=
  r ← the_runtime;
  release_to_broker r (surface_at r s) ;;
  update (on_surface s (fun x =>
    set_submission (sf_pts_ns x) 0 0 (set_holding 0 false (sf_prime x) (sf_acquire_fence_fd x) x))) ;;
  close_prime s ;;
  update (on_surface s (fun x =>
    set_state SURFACE_IDLE (set_submission 0 (sf_owner_context x) (sf_owner_session x) x))).

(** 0: no reservation wanted; 1: reserved; -1: failed. *)
Definition reserve_surface_linear (i : nat) (context_id : Z) (s : nat) (pts_ns : Z) : St world Z :=
  r ← the_runtime;
  let c := context_at r i in
  if negb (cx_async_decode_prime c) ||
     negb (exact_env "ADVC_VAAPI_ASYNC_EXPORT" "candidate-firefox-bframe-v1")
  then mret 0
  else
    '(status, reserved, _) ← on_socket (cx_broker_fd c) (fun p =>
      advc_client_reserve_linear p (cx_broker_session c) pts_ns (cx_width c) (cx_height c)
        blank_descriptor);
    if negb (status =? ADVC_STATUS_OK) then
      kernel (advc_dmabuf_descriptor_close reserved) ;; mret (-1)
    else
      update (on_surface s (fun x =>
        set_submission pts_ns context_id (cx_broker_session c)
          (set_holding (d_buffer_id reserved) true reserved (sf_acquire_fence_fd x) x))) ;;
      mret 1.

(** *** Compressed input *)

(** [create_sealed_memfd]: enough fuel is the bytes left plus the answers the
    environment still has queued. *)
Fixpoint write_loop (fuel : nat) (fd : Z) (data : list Z) : St process Z :=
  match fuel with
  | O => mret (-1)
  | S fuel =>
      match data with
      | [] => mret 0
      | _ =>
          written ← sys_write fd data;
          if written <? 0 then
            e ← errno;
            if e =? EINTR then write_loop fuel fd data else sys_close fd ;; mret (-1)
          else if written =? 0 then sys_close fd ;; fail_with EIO
          else write_loop fuel fd (drop (Z.to_nat written) data)
      end
  end.
Definition create_sealed_memfd (data : list Z) : St process Z :=
  fd ← sys_memfd_create;
  if fd <? 0 then mret (-1)
  else
    io ← gets m_io;
    w ← write_loop (S (length data + length io)) fd data;
    if w <? 0 then mret (-1)
    else
      c ← fcntl_add_seals fd
            (Z.lor (Z.lor (Z.lor F_SEAL_SHRINK F_SEAL_GROW) F_SEAL_WRITE) F_SEAL_SEAL);
      if c <? 0 then sys_close fd ;; mret (-1) else mret fd.

Definition queue_bytes (i : nat) (data : list Z) (pts_ns flags : Z) : St world Z :=
  r ← the_runtime;
  let c := context_at r i in
  let inline := zlen data <=? ADVC_MAX_PAYLOAD - ADVC_QUEUE_INPUT_SIZE in
  fd ← (if inline then mret (-1) else kernel (create_sealed_memfd data));
  if negb inline && (fd <? 0) then mret (-1)
  else
    let input := Input (if inline then Some data else None) (zlen data) fd 0 pts_ns pts_ns flags in
    '(status, _) ← on_socket (cx_broker_fd c) (fun p =>
      advc_client_queue_input p (cx_broker_session c) input);
    kernel (close_if_open fd) ;;
    if status =? ADVC_STATUS_OK then mret 0
    else
      (if status =? ADVC_STATUS_WOULD_BLOCK then kernel (errno_is EAGAIN)
       else if status =? ADVC_STATUS_NO_RESOURCE then kernel (errno_is ENOSPC)
       else if 0 <=? status then kernel (errno_is EIO)
       else mret tt) ;;
      mret (-1).

(** *** Decoded output *)

(** The route of a buffer the consumer policy and the context allow. *)
Definition output_consumer (r : runtime) (c : context) : Surface.consumer_policy :=
  let k := rt_consumer r in
  Surface.Consumer (Surface.accepts_linear_nv12 k)
    (Surface.accepts_qcom_compressed_nv12 k && (0 <? cx_broker_qcom_modifier c) &&
     negb (cx_async_decode_prime c))
    (Surface.gpu_repack_available k) (Surface.cpu_copy_allowed k).

Definition direct_route (route : Surface.route) : bool :=
  match route with Surface.DIRECT_LINEAR | Surface.DIRECT_QCOM => true | _ => false end.

(** The conversion of a source that cannot be handed out as it is. *)
Definition convert_source (route : Surface.route) (source : advc_dmabuf_descriptor) (fence : Z)
    : St world (Z * advc_dmabuf_descriptor * Z * Z) :=
  let unsupported := kernel (errno_is ENOTSUP) ;; mret (-1, zero_descriptor, -1, -1) in
  match route with
  | Surface.GPU_REPACK_LINEAR =>
      match dr_gpu_repack with Some hook => kernel (hook source fence) | None => unsupported end
  | Surface.CPU_COPY_LINEAR =>
      match dr_cpu_copy with Some hook => kernel (hook source fence) | None => unsupported end
  | _ => unsupported
  end.

(** The output's transport, and the fence left in it. *)
Definition take_fence (o : advc_client_output) : advc_client_output :=
  COutput (cout_buffer_id o) (cout_pts_ns o) (cout_size o) (cout_flags o) (cout_width o)
    (cout_height o) (cout_android_format o) (cout_stride o) (cout_layers o) (cout_usage o)
    (cout_slice_height o) (cout_crop_left o) (cout_crop_top o) (cout_crop_right o)
    (cout_crop_bottom o) (cout_data_fd o) (cout_transport o) (-1).

(** The reserved buffer the surface already exports becomes ready. *)
Definition convert_reserved (s : nat) (output : advc_client_output) : St world (Z * advc_client_output) :=
  r ← the_runtime;
  let surface := surface_at r s in
  if negb (cout_transport output =? ADVC_TRANSPORT_AHARDWAREBUFFER) || (cout_buffer_id output =? 0) ||
     negb (d_drm_fourcc (sf_prime surface) =? Surface.ADVC_DRM_FORMAT_NV12) ||
     negb (d_drm_modifier (sf_prime surface) =? 0)
  then mret (-1, output)
  else
    v ← kernel (advc_dmabuf_descriptor_validate (sf_prime surface));
    if v <? 0 then mret (-1, output)
    else
      update (on_surface s (fun x => set_state SURFACE_READY
        (set_holding (cout_buffer_id output) false (sf_prime x) (cout_acquire_fence_fd output) x))) ;;
      mret (0, take_fence output).

(** A conversion whose result the code can use: it releases the source. *)
Definition conversion_released (i : nat) (output : advc_client_output) (rc : Z)
    (converted : advc_dmabuf_descriptor) (source_release_fence : Z) : St world bool :=
  r ← the_runtime;
  let c := context_at r i in
  if negb (rc =? 0) || negb (d_drm_fourcc converted =? Surface.ADVC_DRM_FORMAT_NV12) ||
     negb (d_drm_modifier converted =? 0)
  then mret false
  else
    v ← kernel (advc_dmabuf_descriptor_validate converted);
    if negb (v =? 0) then mret false
    else
      '(status, _) ← on_socket (cx_broker_fd c) (fun p =>
        advc_client_release_output_fenced p (cx_broker_session c) (cout_buffer_id output)
          source_release_fence);
      mret (status =? ADVC_STATUS_OK).

(** Result, and the output as it is left. *)
Definition convert_output (i s : nat) (output : advc_client_output) : St world (Z * advc_client_output) :=
  r ← the_runtime;
  let c := context_at r i in
  if sf_prime_reserved (surface_at r s) then convert_reserved s output
  else if negb (cout_transport output =? ADVC_TRANSPORT_AHARDWAREBUFFER) then mret (-1, output)
  else
    '(status, source, _) ← on_socket (cx_broker_fd c) (fun p =>
      advc_client_transfer_prime p (cx_broker_session c) (cout_buffer_id output) zero_descriptor);
    if negb (status =? ADVC_STATUS_OK) then mret (-1, output)
    else
      table ← kernel (gets m_fds);
      let route := Surface.advc_vaapi_select_surface_route table (Some source)
                     (Some (output_consumer r c)) in
      if direct_route route then
        update (on_surface s (fun x => set_state SURFACE_READY
          (set_holding (cout_buffer_id output) (sf_prime_reserved x) source
             (cout_acquire_fence_fd output) x))) ;;
        mret (0, take_fence output)
      else
        '(rc, converted, converted_fence, source_release_fence) ←
          convert_source route source (cout_acquire_fence_fd output);
        ok ← conversion_released i output rc converted source_release_fence;
        if (ok : bool) then
          kernel (close_if_open source_release_fence) ;;
          kernel (advc_dmabuf_descriptor_close source) ;;
          update (on_surface s (fun x => set_state SURFACE_READY
            (set_holding (sf_broker_buffer_id x) (sf_prime_reserved x) converted converted_fence x))) ;;
          mret (0, output)
        else
          kernel (close_if_open source_release_fence) ;;
          kernel (close_if_open converted_fence) ;;
          kernel (advc_dmabuf_descriptor_close source) ;;
          kernel (advc_dmabuf_descriptor_close converted) ;;
          mret (-1, output).

(** The pending surface an output belongs to. *)
Definition awaits (c : context) (pts_ns : Z) (s : surface) : bool :=
  sf_used s && state_eqb (sf_state s) SURFACE_PENDING && (sf_pts_ns s =? pts_ns) &&
  (sf_owner_session s =? cx_broker_session c).
Definition pending_surface (r : runtime) (c : context) (pts_ns : Z) : option nat :=
  first_slot (awaits c pts_ns) (rt_surfaces r).

(** [advc_client_output_close] on an output that is not NULL. *)
Definition output_close (o : advc_client_output) : St world advc_client_output :=
  x ← kernel (advc_client_output_close (Some o)); mret (default o x).

(** The dequeued output goes to its surface or back to the broker: 1 or -1. *)
Definition deliver_output (i : nat) (output : advc_client_output) : St world Z :=
  r ← the_runtime;
  let c := context_at r i in
  let found := pending_surface r c (cout_pts_ns output) in
  '(converted, output) ←
    (match found with Some s => convert_output i s output | None => mret (-1, output) end);
  if converted <? 0 then
    (match found with Some s => update (on_surface s (set_state SURFACE_ERROR)) | None => mret tt end) ;;
    (if negb (cout_buffer_id output =? 0)
     then on_socket (cx_broker_fd c) (fun p =>
            advc_client_release_output p (cx_broker_session c) (cout_buffer_id output)) ;; mret tt
     else mret tt) ;;
    output_close output ;; mret (-1)
  else output_close output ;; mret 1.

(** *** End of stream *)

(** The adapter between the end-of-stream machine and one context: the output it
    holds between dequeue and delivery. *)
Record private_eos_adapter := Adapter {
  ad_world : world; ad_client_output : advc_client_output; ad_have_output : bool }.

Definition in_world {A} (c : St world A) : St private_eos_adapter A := fun a =>
  let '(x, w) := c (ad_world a) in (x, Adapter w (ad_client_output a) (ad_have_output a)).
Definition hold_output (o : advc_client_output) (have : bool) : St private_eos_adapter unit :=
  modify (fun a => Adapter (ad_world a) o have).

(** [&adapter->client_output] *)
Definition CLIENT_OUTPUT : Z := 1.

Definition private_eos_try_signal (i : nat) : St private_eos_adapter Z :=
  r ← in_world the_runtime;
  let c := context_at r i in
  let input := Input None 0 (-1) 0 0 0 ADVC_FLAG_END_OF_STREAM in
  '(status, _) ← in_world (on_socket (cx_broker_fd c) (fun p =>
    advc_client_queue_input p (cx_broker_session c) input));
  mret (if status =? ADVC_STATUS_OK then IO_OK
        else if status =? ADVC_STATUS_WOULD_BLOCK then IO_RETRY
        else if status =? ADVC_STATUS_NO_RESOURCE then IO_OUTPUT_WINDOW_FULL
        else IO_FATAL).

Definition private_eos_try_dequeue (i : nat) (output : decode_eos_output)
    : St private_eos_adapter (Z * decode_eos_output) :=
  have ← gets ad_have_output;
  if (have : bool) then mret (IO_FATAL, output)
  else
    r ← in_world the_runtime;
    let c := context_at r i in
    '(status, o, _) ← in_world (on_socket (cx_broker_fd c) (fun p =>
      advc_client_dequeue_output p (cx_broker_session c)));
    if status =? ADVC_STATUS_OK then
      hold_output o true ;;
      mret (IO_OK, Output (cout_buffer_id o) (cout_pts_ns o) (cout_flags o)
        (if (cout_transport o =? ADVC_TRANSPORT_BYTES) && (cout_size o =? 0) &&
            negb (Z.land (cout_flags o) ADVC_FLAG_END_OF_STREAM =? 0)
         then OUTPUT_CONTROL else OUTPUT_FRAME) CLIENT_OUTPUT)
    else
      hold_output o false ;;
      mret (if status =? ADVC_STATUS_WOULD_BLOCK then IO_RETRY
            else if status =? ADVC_STATUS_NO_RESOURCE then IO_OUTPUT_WINDOW_FULL
            else IO_FATAL, output).

Definition private_eos_handle_frame (i : nat) (output : decode_eos_output) : St private_eos_adapter Z :=
  a ← gets id;
  if negb (ad_have_output a) || negb (eo_private_data output =? CLIENT_OUTPUT) then mret IO_FATAL
  else
    r ← in_world the_runtime;
    match pending_surface r (context_at r i) (eo_pts_ns output) with
    | None => mret IO_FATAL
    | Some s =>
        '(converted, o) ← in_world (convert_output i s (ad_client_output a));
        if converted <? 0 then
          in_world (update (on_surface s (set_state SURFACE_ERROR))) ;;
          hold_output o true ;; mret IO_FATAL
        else
          o ← in_world (output_close o);
          hold_output o false ;; mret IO_OK
    end.

Definition private_eos_release_output (i : nat) (output : decode_eos_output) : St private_eos_adapter Z :=
  a ← gets id;
  if negb (ad_have_output a) || negb (eo_private_data output =? CLIENT_OUTPUT) then mret IO_FATAL
  else
    r ← in_world the_runtime;
    let c := context_at r i in
    '(status, _) ← in_world (on_socket (cx_broker_fd c) (fun p =>
      advc_client_release_output p (cx_broker_session c) (cout_buffer_id (ad_client_output a))));
    o ← in_world (output_close (ad_client_output a));
    hold_output o false ;;
    mret (if status =? ADVC_STATUS_OK then IO_OK else IO_FATAL).

Definition fail_pending (session : Z) (s : surface) : surface :=
  if sf_used s && state_eqb (sf_state s) SURFACE_PENDING && (sf_owner_session s =? session)
  then set_state SURFACE_ERROR s else s.
Definition private_eos_mark_remaining_pending_failed (i : nat) : St private_eos_adapter unit :=
  in_world (update (fun r =>
    set_surfaces (fail_pending (cx_broker_session (context_at r i)) <$> rt_surfaces r) r)).

Definition private_eos_ops (i : nat) : decode_eos_ops private_eos_adapter :=
  Ops (Some (private_eos_try_signal i))
    (Some (fun o a => private_eos_try_dequeue i o a))
    (Some (private_eos_handle_frame i)) (Some (private_eos_release_output i))
    (Some (fun a => snd (private_eos_mark_remaining_pending_failed i a))).

(** [struct private_eos_adapter] before a call: all zero. *)
Definition zero_client_output : advc_client_output := COutput 0 0 0 0 0 0 0 0 0 0 0 0 0 0 0 0 0 0.
Definition fresh_adapter (w : world) : private_eos_adapter := Adapter w zero_client_output false.

(** Runs a call of the machine on the context's state; result and status. *)
Definition run_eos (i : nat)
    (call : option decode_eos_state -> option (decode_eos_ops private_eos_adapter) ->
            private_eos_adapter ->
            outcome private_eos_adapter (option decode_eos_state))
    : St world (Z * option decode_eos_status * private_eos_adapter) := fun w =>
  let '(result, state, status, a) :=
    call (Some (cx_eos (context_at (w_rt w) i))) (Some (private_eos_ops i)) (fresh_adapter w) in
  let w := ad_world a in
  ((result, status, a),
   set_rt (on_context i (set_eos (default (cx_eos (context_at (w_rt w) i)) state)) (w_rt w)) w).

(** An output the machine left in the adapter. *)
Definition release_leftover (i : nat) (o : advc_client_output) : St world unit := fun w =>
  let '(_, a) := private_eos_release_output i (Output (cout_buffer_id o) 0 0 0 CLIENT_OUTPUT)
                   (Adapter w o true) in (tt, ad_world a).

Definition private_eos_progress_locked (i : nat) (max_outputs : Z) (status : option decode_eos_status)
    : St world (Z * option decode_eos_status) :=
  '(result, status, a) ← run_eos i (fun state ops a =>
    advc_vaapi_decode_eos_state_progress state ops max_outputs status a);
  (if ad_have_output a then release_leftover i (ad_client_output a) else mret tt) ;;
  mret (result, status).

Definition private_eos_drain_one (i : nat) : St world Z :=
  let status := Status status_size 0 0 0 0 0 0 0 0 0 0 (replicate 8 0) in
  '(result, status) ← private_eos_progress_locked i 1 (Some status);
  mret (if (result =? RESULT_OK) || (result =? RESULT_COMPLETE)
        then if 0 <? match status with Some st => es_frames_processed st | None => 0 end then 1 else 0
        else if (result =? RESULT_WOULD_BLOCK) || (result =? RESULT_NEED_OUTPUT_RELEASE) then 0
        else -1).

Definition RESULT_DISABLED : Z := 5.
Definition RESULT_INVALID_CONTEXT : Z := -3.

(** Result, and [*status] as it is left. *)
Definition private_eos_immediate_status (status : option decode_eos_status) (result phase flags : Z)
    : Z * option decode_eos_status :=
  if negb (status_is_valid status) then (RESULT_INVALID_ARGUMENT, status)
  else (result, (fun st => Status (es_struct_size st) ABI_VERSION phase flags result 0 0 0 0 0 0
                             (replicate 8 0)) <$> status).

Definition eos_context_missing (status : option decode_eos_status) : Z * option decode_eos_status :=
  private_eos_immediate_status status RESULT_INVALID_CONTEXT FAILED STATUS_FAILED.

Definition advc_vaapi_decode_signal_eos_private (context_id : Z) (status : option decode_eos_status)
    : St world (Z * option decode_eos_status) :=
  if negb (advc_vaapi_decode_eos_gate_enabled dr_getenv)
  then mret (private_eos_immediate_status status RESULT_DISABLED OPEN 0)
  else
    r ← the_runtime;
    match get_context r context_id with
    | None => mret (eos_context_missing status)
    | Some i =>
        if sg_picture_active (cx_staging (context_at r i))
        then mret (private_eos_immediate_status status RESULT_INVALID_ARGUMENT
                     (st_phase (cx_eos (context_at r i))) 0)
        else
          '(result, status, _) ← run_eos i (fun state ops a =>
            advc_vaapi_decode_eos_state_signal state ops status a);
          mret (result, status)
    end.

Definition advc_vaapi_decode_progress_eos_private (context_id max_outputs : Z)
    (status : option decode_eos_status) : St world (Z * option decode_eos_status) :=
  if negb (advc_vaapi_decode_eos_gate_enabled dr_getenv)
  then mret (private_eos_immediate_status status RESULT_DISABLED OPEN 0)
  else
    r ← the_runtime;
    match get_context r context_id with
    | None => mret (eos_context_missing status)
    | Some i => private_eos_progress_locked i max_outputs status
    end.

(** *** Draining *)

(** 1: an output was delivered; 0: none is ready; -1: failed. *)
Definition drain_one_output (i : nat) : St world Z :=
  r ← the_runtime;
  let c := context_at r i in
  if negb (st_phase (cx_eos c) =? OPEN) then private_eos_drain_one i
  else
    '(status, output, _) ← on_socket (cx_broker_fd c) (fun p =>
      advc_client_dequeue_output p (cx_broker_session c));
    if status =? ADVC_STATUS_WOULD_BLOCK then mret 0
    else if negb (status =? ADVC_STATUS_OK) then mret (-1)
    else deliver_output i output.

(** [for (attempt = 0; attempt < 5000u; ++attempt)] *)
Fixpoint queue_attempts (n : nat) (i : nat) (data : list Z) (pts_ns flags : Z) : St world Z :=
  match n with
  | O => kernel (fail_with ETIMEDOUT)
  | S n =>
      q ← queue_bytes i data pts_ns flags;
      if q =? 0 then mret 0
      else
        e ← kernel errno;
        if negb (e =? EAGAIN) then mret (-1)
        else
          drained ← drain_one_output i;
          if drained <? 0 then mret (-1)
          else
            (if drained =? 0 then pause_1ms else mret tt) ;;
            queue_attempts n i data pts_ns flags
  end.
Definition queue_bytes_with_drain (i : nat) (data : list Z) (pts_ns flags : Z) : St world Z :=
  queue_attempts 5000 i data pts_ns flags.

End Operations.
