(* ===== verification/DecodeRuntime.v ===== *)
(** * The entry points of the decode runtime (src/src/vaapi_advc/advc_vaapi_decode_runtime.c)

    One definition per function of advc_vaapi_decode_runtime.h.  Every entry point
    holds the runtime's mutex for its whole body, except that
    [advc_vaapi_decode_sync_surface] releases it between polls and
    [advc_vaapi_decode_begin_picture] and [advc_vaapi_decode_export_surface] call
    it in between: those are sequences of locked sections ([sync_step];
    [begin_first], [begin_second]; [reserved_export], [export_locked]).  An entry
    point that can run into undefined behaviour returns an option, [None] standing
    for it. *)

From stdpp Require Import base list gmap.
From Stdlib Require Import ZArith Lia Bool String.
#[local] Notation length := List.length.
From S2P Require Import Prelude Kernel Protocol Dmabuf Engine Broker Client ClientConnect World Va VaapiRoutes VaapiPolicy DecodeEos AnnexB Hevc Vp9 DecodeState DecodeStaging DecodeOutput.

Section EntryPoints.
Context {dr : driver}.

(** ** Creating and destroying the runtime *)

(** [None]: returns -1. *)
Definition configure_consumer_policy : option (Modifier.modifier_policy * Surface.consumer_policy) :=
  match Modifier.advc_vaapi_modifier_policy_parse (dr_getenv "ADVC_VAAPI_DECODE_OUTPUT")
          (dr_getenv "ADVC_VAAPI_OUTPUT") with
  | (inl _, _) => None
  | (inr _, mp) =>
      let qcom := exact_env "ADVC_VAAPI_QCOM_IMPORT" "validated-v1" in
      let '(linear, compressed) :=
        match Modifier.mp_mode mp with
        | Modifier.AUTO => (true, qcom)
        | Modifier.LINEAR => (true, false)
        | Modifier.QCOM => (false, qcom)
        end in
      Some (mp, Surface.Consumer linear compressed
        (match dr_gpu_repack with
         | Some _ => exact_env "ADVC_VAAPI_GPU_LINEAR_REPACK" "validated-qcom-nv12-v1"
         | None => false
         end)
        (match dr_cpu_copy with
         | Some _ => exact_env "ADVC_VAAPI_ALLOW_CPU_COPY" "explicit"
         | None => false
         end))
  end.

(** The tables of a new runtime. *)
Definition blank_runtime (path : string) (policy : advc_vaapi_policy) (mp : Modifier.modifier_policy)
    (consumer : Surface.consumer_policy) : runtime :=
  Runtime path policy mp consumer ADVC_VAAPI_PTS_STEP_NS
    (replicate (Z.to_nat ADVC_VAAPI_CONFIG_SLOTS) zero_config)
    (replicate (Z.to_nat ADVC_VAAPI_CONTEXT_SLOTS) (set_broker_fd (-1) zero_context))
    (replicate (Z.to_nat ADVC_VAAPI_SURFACE_SLOTS) (set_holding 0 false zero_descriptor (-1) zero_surface))
    (replicate (Z.to_nat ADVC_VAAPI_BUFFER_SLOTS) zero_buffer).

(** [None] is NULL. *)
Definition advc_vaapi_decode_runtime_create (socket_path : option string)
    (policy : option advc_vaapi_policy) : St process (option runtime) :=
  match socket_path, policy with
  | Some path, Some policy =>
      if String.eqb path EmptyString then errno_is EINVAL ;; mret None
      else
        a ← sys_alloc;
        if negb a then mret None
        else
          b ← sys_alloc;
          if negb b then mret None
          else match configure_consumer_policy with
          | None => errno_is EINVAL ;; mret None
          | Some (mp, consumer) => mret (Some (blank_runtime path policy mp consumer))
          end
  | _, _ => errno_is EINVAL ;; mret None
  end.

(** [if (close_status != OK || recycle(fd) < 0) close(fd);] *)
Definition retire_socket (close_status fd : Z) : St world unit :=
  if negb (close_status =? ADVC_STATUS_OK) then kernel (sys_close fd)
  else
    recycled ← kernel (on_environment (advc_client_recycle_broker_socket dr_recycle fd));
    if recycled <? 0 then kernel (sys_close fd) else mret tt.

Definition destroy_context_slot (i : nat) : St world unit :=
  r ← the_runtime;
  let c := context_at r i in
  if negb (cx_used c) then mret tt
  else
    update (on_context i (set_staging reset_staging)) ;;
    close_status ← (if negb (cx_broker_session c =? 0)
                    then '(status, _) ← on_socket (cx_broker_fd c) (fun p =>
                           advc_client_close_session p (cx_broker_session c)); mret status
                    else mret ADVC_STATUS_BAD_MESSAGE);
    if 0 <=? cx_broker_fd c then retire_socket close_status (cx_broker_fd c) else mret tt.

(** The last step is [free(runtime)]: no slot is left. *)
Definition advc_vaapi_decode_runtime_destroy : St world unit :=
  for_each (seq 0 (Z.to_nat ADVC_VAAPI_SURFACE_SLOTS)) (fun s =>
    r ← the_runtime; if sf_used (surface_at r s) then release_surface_output s else mret tt) ;;
  for_each (seq 0 (Z.to_nat ADVC_VAAPI_CONTEXT_SLOTS)) destroy_context_slot ;;
  update (fun r => set_configs [] (set_contexts [] (set_surfaces [] (set_buffers [] r)))).

(** ** Configurations *)

(** An attribute: whether it is VAConfigAttribRTFormat, and its value. *)
Definition config_attribute : Type := bool * Z.

(** [attributes = None] is NULL; [vld]: the entry point is VAEntrypointVLD.
    Status and identifier. *)
Definition advc_vaapi_decode_create_config (profile : va_profile) (vld : bool)
    (attributes : option (list config_attribute)) (num_attributes : Z) : St world (va_status * Z) :=
  r ← the_runtime;
  if (num_attributes <? 0) || ((0 <? num_attributes) && bool_decide (attributes = None))
  then mret (VA_STATUS_ERROR_INVALID_PARAMETER, 0)
  else if negb (profile_supported r profile) then mret (VA_STATUS_ERROR_UNSUPPORTED_PROFILE, 0)
  else if negb vld then mret (VA_STATUS_ERROR_UNSUPPORTED_ENTRYPOINT, 0)
  else if existsb (fun a => negb (fst a) || (Z.land (snd a) VA_RT_FORMAT_YUV420 =? 0))
            (take (Z.to_nat num_attributes) (default [] attributes))
  then mret (VA_STATUS_ERROR_ATTR_NOT_SUPPORTED, 0)
  else match first_slot (fun c => negb (cf_used c)) (rt_configs r) with
  | None => mret (VA_STATUS_ERROR_MAX_NUM_EXCEEDED, 0)
  | Some i =>
      update (fun r => set_configs (<[i := Config true profile]> (rt_configs r)) r) ;;
      mret (VA_STATUS_SUCCESS, make_id ADVC_VAAPI_TYPE_CONFIG i)
  end.

Definition advc_vaapi_decode_destroy_config (config_id : Z) : St world va_status :=
  r ← the_runtime;
  match get_config r config_id with
  | None => mret VA_STATUS_ERROR_INVALID_CONFIG
  | Some i =>
      if existsb (fun c => cx_used c && (cx_config_id c =? config_id)) (rt_contexts r)
      then mret VA_STATUS_ERROR_OPERATION_FAILED
      else
        update (fun r => set_configs (<[i := zero_config]> (rt_configs r)) r) ;;
        mret VA_STATUS_SUCCESS
  end.

(** Status and profile; the entry point is always VLD and the one attribute is
    the YUV420 format. *)
Definition advc_vaapi_decode_query_config (config_id : Z) : St world (va_status * option va_profile) :=
  r ← the_runtime;
  match get_config r config_id with
  | None => mret (VA_STATUS_ERROR_INVALID_CONFIG, None)
  | Some i => mret (VA_STATUS_SUCCESS, Some (cf_profile (config_at r i)))
  end.

(** ** Surfaces *)

(** The status one attribute makes the call fail with. *)
Definition attribute_refused (a : surface_attrib) : option va_status :=
  match sa_type a with
  | VASurfaceAttribPixelFormat =>
      if negb (sa_integer a) || negb (u32 (sa_i a) =? VA_FOURCC_NV12)
      then Some VA_STATUS_ERROR_UNSUPPORTED_RT_FORMAT else None
  | VASurfaceAttribMemoryType =>
      if negb (sa_integer a) || (Z.land (u32 (sa_i a)) VA_SURFACE_ATTRIB_MEM_TYPE_VA =? 0)
      then Some VA_STATUS_ERROR_UNSUPPORTED_MEMORY_TYPE else None
  | VASurfaceAttribExternalBufferDescriptor => Some VA_STATUS_ERROR_UNSUPPORTED_MEMORY_TYPE
  | _ => None
  end.
Fixpoint attributes_refused (l : list surface_attrib) : option va_status :=
  match l with
  | [] => None
  | a :: l => match attribute_refused a with Some s => Some s | None => attributes_refused l end
  end.

Definition fresh_surface (width height : Z) : surface :=
  Surface true width height SURFACE_IDLE 0 0 0 0 false zero_descriptor (-1).

(** The allocation loop from slot [k] on: the table and the slots taken. *)
Fixpoint allocate_surfaces (width height : Z) (room k : nat) (l : list surface)
    : list surface * list nat :=
  match room, l with
  | O, _ => (l, [])
  | _, [] => ([], [])
  | S n, s :: l =>
      if sf_used s
      then let '(l, ks) := allocate_surfaces width height room (S k) l in (s :: l, ks)
      else let '(l, ks) := allocate_surfaces width height n (S k) l in
           (fresh_surface width height :: l, k :: ks)
  end.

(** Status and identifiers. *)
Definition advc_vaapi_decode_create_surfaces (format width height num_surfaces : Z)
    (attributes : option (list surface_attrib)) (num_attributes : Z) : St world (va_status * list Z) :=
  r ← the_runtime;
  let '(max_width, max_height) := advertised_surface_limits (rt_policy r) in
  if (num_surfaces =? 0) || (ADVC_VAAPI_SURFACE_SLOTS <? num_surfaces) ||
     negb (format =? VA_RT_FORMAT_YUV420) || (width =? 0) || (height =? 0)
  then mret (VA_STATUS_ERROR_UNSUPPORTED_RT_FORMAT, [])
  else if (max_width <? width) || (max_height <? height)
  then mret (VA_STATUS_ERROR_UNSUPPORTED_RT_FORMAT, [])
  else if (0 <? num_attributes) && bool_decide (attributes = None)
  then mret (VA_STATUS_ERROR_INVALID_PARAMETER, [])
  else match attributes_refused (take (Z.to_nat num_attributes) (default [] attributes)) with
  | Some status => mret (status, [])
  | None =>
      let '(l, allocated) :=
        allocate_surfaces width height (Z.to_nat num_surfaces) 0 (rt_surfaces r) in
      if negb (zlen allocated =? num_surfaces) then
        update (set_surfaces (foldl (fun l k => <[k := zero_surface]> l) l allocated)) ;;
        mret (VA_STATUS_ERROR_MAX_NUM_EXCEEDED, [])
      else
        update (set_surfaces l) ;;
        mret (VA_STATUS_SUCCESS, make_id ADVC_VAAPI_TYPE_SURFACE <$> allocated)
  end.

(** The destroy loop; [None]: [get_surface] returned NULL and its result is
    dereferenced. *)
Fixpoint destroy_surface_loop (ids : list Z) : St world (option va_status) :=
  match ids with
  | [] => mret (Some VA_STATUS_SUCCESS)
  | id :: ids =>
      r ← the_runtime;
      match get_surface r id with
      | None => mret None
      | Some s =>
          release_surface_output s ;;
          update (on_surface s (fun _ => zero_surface)) ;;
          destroy_surface_loop ids
      end
  end.
Definition advc_vaapi_decode_destroy_surfaces (surfaces : option (list Z)) (num_surfaces : Z)
    : St world (option va_status) :=
  r ← the_runtime;
  if (num_surfaces <? 0) || ((0 <? num_surfaces) && bool_decide (surfaces = None))
  then mret (Some VA_STATUS_ERROR_INVALID_PARAMETER)
  else
    let ids := take (Z.to_nat num_surfaces) (default [] surfaces) in
    if forallb (fun id => bool_decide (is_Some (get_surface r id))) ids
    then destroy_surface_loop ids
    else mret (Some VA_STATUS_ERROR_INVALID_SURFACE).

(** [attributes = false] is NULL.  Status, [*num_attributes], the attributes
    written. *)
Definition advc_vaapi_decode_query_surface_attributes (config_id : Z) (attributes : bool)
    (num_attributes : Z) : St world (va_status * Z * list surface_attrib) :=
  r ← the_runtime;
  match get_config r config_id with
  | None => mret (VA_STATUS_ERROR_INVALID_CONFIG, num_attributes, [])
  | Some i =>
      let '(max_width, max_height) := profile_limits (rt_policy r) (cf_profile (config_at r i)) in
      if negb attributes then mret (VA_STATUS_SUCCESS, 6, [])
      else if num_attributes <? 6 then mret (VA_STATUS_ERROR_MAX_NUM_EXCEEDED, 6, [])
      else
        let both := Z.lor VA_SURFACE_ATTRIB_GETTABLE VA_SURFACE_ATTRIB_SETTABLE in
        let attrib type flags value := SurfaceAttrib type flags (GInteger value) in
        mret (VA_STATUS_SUCCESS, 6,
          [attrib VASurfaceAttribPixelFormat both (to_int VA_FOURCC_NV12);
           attrib VASurfaceAttribMinWidth VA_SURFACE_ATTRIB_GETTABLE 16;
           attrib VASurfaceAttribMaxWidth VA_SURFACE_ATTRIB_GETTABLE (to_int max_width);
           attrib VASurfaceAttribMinHeight VA_SURFACE_ATTRIB_GETTABLE 16;
           attrib VASurfaceAttribMaxHeight VA_SURFACE_ATTRIB_GETTABLE (to_int max_height);
           attrib VASurfaceAttribMemoryType both
             (Z.lor VA_SURFACE_ATTRIB_MEM_TYPE_VA VA_SURFACE_ATTRIB_MEM_TYPE_DRM_PRIME_2)])
  end.

(** ** Contexts *)

(** The offered features, and the ones the broker must have. *)
Definition offered_features : Z :=
  Z.lor (Z.lor (Z.lor (Z.lor (Z.lor ADVC_FEATURE_DECODE ADVC_FEATURE_DECODE_PRIME) ADVC_FEATURE_DMABUF)
    ADVC_FEATURE_NATIVE_FENCE) ADVC_FEATURE_ASYNC_DECODE_PRIME) ADVC_FEATURE_DECODE_QCOM_MODIFIER.
Definition required_features : Z := Z.lor ADVC_FEATURE_DECODE ADVC_FEATURE_DECODE_PRIME.

Definition ADVC_CLIENT_CONNECT_TIMEOUT_MS : Z := 5000.

(** [advc_client_connect_bounded] with room for every attempt its timeout allows. *)
Definition connect_broker (path : string) : St world Z :=
  fd ← kernel (on_environment (advc_client_connect_bounded
         (attempts_bound ADVC_CLIENT_CONNECT_TIMEOUT_MS) dr_hooks (Some path)
         ADVC_CLIENT_CONNECT_TIMEOUT_MS));
  let fd := default (-1) fd in
  (if 0 <=? fd then attach_peer fd else mret tt) ;; mret fd.

(** Connect and greet: the socket and the broker's features, or nothing. *)
Definition open_broker (path : string) : St world (option (Z * Z)) :=
  fd ← connect_broker path;
  if fd <? 0 then mret None
  else
    '(greeted, answer) ← on_socket fd (fun p => advc_client_hello p offered_features);
    match answer with
    | Some (features, max_payload) =>
        if (greeted <? 0) || negb (Z.land features required_features =? required_features) ||
           (max_payload <? ADVC_TRANSFER_PRIME_REPLY_SIZE)
        then kernel (sys_close fd) ;; mret None
        else mret (Some (fd, features))
    | None => kernel (sys_close fd) ;; mret None
    end.

Definition new_context (r : runtime) (config_id fd session_id width height features : Z)
    (profile : va_profile) : context :=
  let mode := Modifier.mp_mode (rt_modifier_policy r) in
  let async := negb (Z.land features ADVC_FEATURE_ASYNC_DECODE_PRIME =? 0) &&
               exact_env "ADVC_VAAPI_ASYNC_EXPORT" "candidate-firefox-bframe-v1" in
  let qcom := if negb (Z.land features ADVC_FEATURE_DECODE_QCOM_MODIFIER =? 0) then 1 else 0 in
  let z := zero_context in
  Context true config_id fd session_id width height (codec_for_profile profile)
    (if Modifier.mode_eqb mode Modifier.QCOM then false else async)
    (if Modifier.mode_eqb mode Modifier.LINEAR then -1 else qcom)
    (Staging false VA_INVALID_SURFACE false false [] [] [] 0 0 None 0)
    (cx_picture z) (cx_iq z) (cx_hevc_picture z) (cx_hevc_iq z) (cx_vp9_picture z) (cx_last_config z)
    (cx_hevc_last_config z) false 0 0 false false advc_vaapi_decode_eos_state_init.

(** The modifier policy demands a layout the broker or the importer lacks. *)
Definition qcom_unavailable (r : runtime) (features : Z) : bool :=
  Modifier.mode_eqb (Modifier.mp_mode (rt_modifier_policy r)) Modifier.QCOM &&
  ((Z.land features ADVC_FEATURE_DECODE_QCOM_MODIFIER =? 0) ||
   negb (Surface.accepts_qcom_compressed_nv12 (rt_consumer r))).

(** Connect, open a session and fill slot [i]. *)
Definition open_context (i : nat) (config_id width height : Z) (profile : va_profile)
    : St world (va_status * Z) :=
  r ← the_runtime;
  opened ← open_broker (rt_socket_path r);
  match opened with
  | None => mret (VA_STATUS_ERROR_OPERATION_FAILED, 0)
  | Some (fd, features) =>
      let session_config := SessionConfig (Some (profile_mime profile)) ADVC_DIRECTION_DECODE width
        height 0 0 0 ADVC_TRANSPORT_AHARDWAREBUFFER 0 0 in
      '(status, session_id, _) ← on_socket fd (fun p => advc_client_create_session p session_config);
      let session_id := default 0 session_id in
      if negb (status =? ADVC_STATUS_OK) then
        kernel (sys_close fd) ;; mret (VA_STATUS_ERROR_OPERATION_FAILED, 0)
      else if qcom_unavailable r features then
        on_socket fd (fun p => advc_client_close_session p session_id) ;;
        kernel (sys_close fd) ;;
        update (on_context i (fun _ => set_broker_fd (-1) zero_context)) ;;
        mret (VA_STATUS_ERROR_UNSUPPORTED_PROFILE, 0)
      else
        update (on_context i (fun _ =>
          new_context r config_id fd session_id width height features profile)) ;;
        mret (VA_STATUS_SUCCESS, make_id ADVC_VAAPI_TYPE_CONTEXT i)
  end.

(** [targets = None] is NULL.  Status and identifier. *)
Definition advc_vaapi_decode_create_context (config_id width height : Z) (targets : option (list Z))
    (num_targets : Z) : St world (va_status * Z) :=
  r ← the_runtime;
  if (width <? 16) || (height <? 16) || (num_targets <? 0) ||
     ((0 <? num_targets) && bool_decide (targets = None))
  then mret (VA_STATUS_ERROR_INVALID_PARAMETER, 0)
  else match get_config r config_id with
  | None => mret (VA_STATUS_ERROR_INVALID_CONFIG, 0)
  | Some k =>
      let profile := cf_profile (config_at r k) in
      let '(max_width, max_height) := profile_limits (rt_policy r) profile in
      let target_bad id :=
        match get_surface r id with
        | None => true
        | Some s => negb (sf_width (surface_at r s) =? width) || negb (sf_height (surface_at r s) =? height)
        end in
      if (max_width <? width) || (max_height <? height)
      then mret (VA_STATUS_ERROR_RESOLUTION_NOT_SUPPORTED, 0)
      else if existsb target_bad (take (Z.to_nat num_targets) (default [] targets))
      then mret (VA_STATUS_ERROR_INVALID_SURFACE, 0)
      else match first_slot (fun c => negb (cx_used c)) (rt_contexts r) with
      | None => mret (VA_STATUS_ERROR_MAX_NUM_EXCEEDED, 0)
      | Some i => open_context i config_id width height profile
      end
  end.

Definition advc_vaapi_decode_destroy_context (context_id : Z) : St world va_status :=
  r ← the_runtime;
  match get_context r context_id with
  | None => mret VA_STATUS_ERROR_INVALID_CONTEXT
  | Some i =>
      let c := context_at r i in
      for_each (seq 0 (Z.to_nat ADVC_VAAPI_SURFACE_SLOTS)) (fun s =>
        r ← the_runtime;
        if sf_used (surface_at r s) && (sf_owner_context (surface_at r s) =? context_id)
        then release_surface_output s else mret tt) ;;
      update (on_context i (set_staging reset_staging)) ;;
      on_socket (cx_broker_fd c) (fun p => advc_client_flush p (cx_broker_session c)) ;;
      '(close_status, _) ← on_socket (cx_broker_fd c) (fun p =>
        advc_client_close_session p (cx_broker_session c));
      retire_socket close_status (cx_broker_fd c) ;;
      update (on_context i (fun _ => set_broker_fd (-1) zero_context)) ;;
      mret VA_STATUS_SUCCESS
  end.

(** ** Buffers *)

(** [data = None] is NULL, otherwise at least [size * num_elements] bytes. *)
Definition advc_vaapi_decode_create_buffer (context_id : Z) (type : va_buffer_type)
    (size num_elements : Z) (data : option (list Z)) : St world (va_status * Z) :=
  r ← the_runtime;
  if (size =? 0) || (num_elements =? 0) || (SIZE_MAX / num_elements <? size)
  then mret (VA_STATUS_ERROR_INVALID_PARAMETER, 0)
  else
    let total := size * num_elements in
    if ADVC_MAX_INPUT_BYTES <? total then mret (VA_STATUS_ERROR_INVALID_PARAMETER, 0)
    else match get_context r context_id with
    | None => mret (VA_STATUS_ERROR_INVALID_CONTEXT, 0)
    | Some i =>
        if negb (buffer_shape_supported dr_abi (cx_codec (context_at r i)) type size num_elements)
        then mret (VA_STATUS_ERROR_UNSUPPORTED_BUFFERTYPE, 0)
        else match first_slot (fun b => negb (bf_used b)) (rt_buffers r) with
        | None => mret (VA_STATUS_ERROR_MAX_NUM_EXCEEDED, 0)
        | Some k =>
            ok ← kernel sys_alloc;
            if negb ok then
              update (on_buffer k (fun _ => zero_buffer)) ;;
              mret (VA_STATUS_ERROR_ALLOCATION_FAILED, 0)
            else
              update (on_buffer k (fun _ => Buffer true context_id type size num_elements num_elements
                (match data with Some d => take (Z.to_nat total) d | None => zeros total end) false)) ;;
              mret (VA_STATUS_SUCCESS, make_id ADVC_VAAPI_TYPE_BUFFER k)
        end
    end.

Definition advc_vaapi_decode_buffer_set_num_elements (buffer_id num_elements : Z) : St world va_status :=
  r ← the_runtime;
  if num_elements =? 0 then mret VA_STATUS_ERROR_INVALID_PARAMETER
  else match get_buffer r buffer_id with
  | None => mret VA_STATUS_ERROR_INVALID_BUFFER
  | Some k =>
      if bf_capacity_elements (buffer_at r k) <? num_elements
      then mret VA_STATUS_ERROR_INVALID_PARAMETER
      else
        update (on_buffer k (fun b => Buffer (bf_used b) (bf_context_id b) (bf_type b)
          (bf_element_size b) (bf_capacity_elements b) num_elements (bf_data b) (bf_mapped b))) ;;
        mret VA_STATUS_SUCCESS
  end.

Definition set_mapped (v : bool) (b : buffer) : buffer :=
  Buffer (bf_used b) (bf_context_id b) (bf_type b) (bf_element_size b) (bf_capacity_elements b)
    (bf_num_elements b) (bf_data b) v.

(** The mapping is the buffer's own memory: [application_write] stores to it. *)
Definition advc_vaapi_decode_map_buffer (buffer_id : Z) : St world va_status :=
  r ← the_runtime;
  match get_buffer r buffer_id with
  | None => mret VA_STATUS_ERROR_INVALID_BUFFER
  | Some k =>
      if bf_mapped (buffer_at r k) then mret VA_STATUS_ERROR_OPERATION_FAILED
      else update (on_buffer k (set_mapped true)) ;; mret VA_STATUS_SUCCESS
  end.

Definition advc_vaapi_decode_unmap_buffer (buffer_id : Z) : St world va_status :=
  r ← the_runtime;
  match get_buffer r buffer_id with
  | None => mret VA_STATUS_ERROR_INVALID_BUFFER
  | Some k =>
      if negb (bf_mapped (buffer_at r k)) then mret VA_STATUS_ERROR_OPERATION_FAILED
      else update (on_buffer k (set_mapped false)) ;; mret VA_STATUS_SUCCESS
  end.

Definition advc_vaapi_decode_destroy_buffer (buffer_id : Z) : St world va_status :=
  r ← the_runtime;
  match get_buffer r buffer_id with
  | None => mret VA_STATUS_ERROR_INVALID_BUFFER
  | Some k => update (on_buffer k (fun _ => zero_buffer)) ;; mret VA_STATUS_SUCCESS
  end.

(** The application stores through the pointer of a mapped buffer. *)
Definition application_write (buffer_id off : Z) (bytes : list Z) : St world unit :=
  update (fun r => match get_buffer r buffer_id with
    | Some k => on_buffer k (fun b => Buffer (bf_used b) (bf_context_id b) (bf_type b)
        (bf_element_size b) (bf_capacity_elements b) (bf_num_elements b)
        (list_inserts (Z.to_nat off) bytes (bf_data b)) (bf_mapped b)) r
    | None => r
    end).

(** ** Synchronisation *)

(** [poll] of a fence, repeated while interrupted.  An open descriptor reports
    POLLIN, POLLERR or POLLHUP, a closed one POLLNVAL. *)
Fixpoint poll_fence (fuel : nat) (fd timeout_ms : Z) : St process Z :=
  match fuel with
  | O => mret (-1)
  | S fuel =>
      '(rc, _) ← on_environment (sys_poll true timeout_ms);
      e ← errno;
      if (rc <? 0) && (e =? EINTR) then poll_fence fuel fd timeout_ms
      else
        t ← gets m_fds;
        if (0 <? rc) && bool_decide (is_Some (t !! fd)) then mret 0
        else
          (if rc =? 0 then errno_is ETIMEDOUT else mret tt) ;; mret (-1)
  end.
Definition wait_fence (fd timeout_ns : Z) : St process Z :=
  if fd <? 0 then mret 0
  else
    let timeout_ms := if INT_MAX * 1000000 <=? timeout_ns then INT_MAX
                      else u64 (timeout_ns + 999999) / 1000000 in
    polls ← gets (fun m => ce_polls (cl_user (m_be m)));
    poll_fence (S (length polls)) fd timeout_ms.

(** One locked section of [advc_vaapi_decode_sync_surface]. *)
Inductive sync_outcome := SyncDone (s : va_status) | SyncFence (fd : Z) | SyncAgain.

Definition sync_step (surface_id : Z) : St world sync_outcome :=
  r ← the_runtime;
  match get_surface r surface_id with
  | None => mret (SyncDone VA_STATUS_ERROR_INVALID_SURFACE)
  | Some s =>
      let surface := surface_at r s in
      match sf_state surface with
      | SURFACE_ERROR => mret (SyncDone VA_STATUS_ERROR_DECODING_ERROR)
      | SURFACE_READY =>
          if 0 <=? sf_acquire_fence_fd surface
          then fd ← kernel (fcntl_dupfd_cloexec (sf_acquire_fence_fd surface)); mret (SyncFence fd)
          else mret (SyncDone VA_STATUS_SUCCESS)
      | SURFACE_IDLE => mret (SyncDone VA_STATUS_ERROR_OPERATION_FAILED)
      | SURFACE_PENDING =>
          match id_index (sf_owner_context surface) ADVC_VAAPI_TYPE_CONTEXT ADVC_VAAPI_CONTEXT_SLOTS with
          | Some i =>
              if cx_used (context_at r i) then drain_one_output i ;; mret SyncAgain
              else mret (SyncDone VA_STATUS_ERROR_OPERATION_FAILED)
          | None => mret (SyncDone VA_STATUS_ERROR_OPERATION_FAILED)
          end
      end
  end.

(** Waiting for the fence, outside the lock. *)
Definition sync_fence (fence_fd start limit : Z) : St world va_status :=
  if fence_fd <? 0 then mret VA_STATUS_ERROR_OPERATION_FAILED
  else
    now ← monotonic_ns;
    if (now <? start) || (limit <=? now - start)
    then kernel (close_if_open fence_fd) ;; mret VA_STATUS_ERROR_TIMEDOUT
    else
      w ← kernel (wait_fence fence_fd (limit - (now - start)));
      kernel (close_if_open fence_fd) ;;
      if w <? 0 then
        e ← kernel errno;
        mret (if e =? ETIMEDOUT then VA_STATUS_ERROR_TIMEDOUT else VA_STATUS_ERROR_OPERATION_FAILED)
      else mret VA_STATUS_SUCCESS.

(** [None]: more than [fuel] polls. *)
Fixpoint sync_loop (fuel : nat) (surface_id start limit : Z) : St world (option va_status) :=
  match fuel with
  | O => mret None
  | S fuel =>
      step ← sync_step surface_id;
      match step with
      | SyncDone status => mret (Some status)
      | SyncFence fd => status ← sync_fence fd start limit; mret (Some status)
      | SyncAgain =>
          now ← monotonic_ns;
          if (now <? start) || (limit <=? now - start) then mret (Some VA_STATUS_ERROR_TIMEDOUT)
          else pause_1ms ;; sync_loop fuel surface_id start limit
      end
  end.
Definition advc_vaapi_decode_sync_surface (fuel : nat) (surface_id timeout_ns : Z)
    : St world (option va_status) :=
  let limit := if ADVC_VAAPI_SYNC_LIMIT_NS <? timeout_ns then ADVC_VAAPI_SYNC_LIMIT_NS
               else timeout_ns in
  start ← monotonic_ns;
  sync_loop fuel surface_id start limit.

(** At most [n] drains, while the surface is pending and outputs arrive. *)
Fixpoint status_drain (n : nat) (i s : nat) : St world unit :=
  match n with
  | O => mret tt
  | S n =>
      r ← the_runtime;
      if state_eqb (sf_state (surface_at r s)) SURFACE_PENDING then
        drained ← drain_one_output i;
        if drained <=? 0 then mret tt else status_drain n i s
      else mret tt
  end.

Inductive surface_status := VASurfaceRendering | VASurfaceReady.

(** Status, and [*status] when it is written. *)
Definition advc_vaapi_decode_query_surface_status (surface_id : Z)
    : St world (va_status * option surface_status) :=
  r ← the_runtime;
  match get_surface r surface_id with
  | None => mret (VA_STATUS_ERROR_INVALID_SURFACE, None)
  | Some s =>
      let surface := surface_at r s in
      (match id_index (sf_owner_context surface) ADVC_VAAPI_TYPE_CONTEXT ADVC_VAAPI_CONTEXT_SLOTS with
       | Some i =>
           if state_eqb (sf_state surface) SURFACE_PENDING && cx_used (context_at r i)
           then status_drain (Z.to_nat ADVC_VAAPI_SURFACE_SLOTS) i s else mret tt
       | None => mret tt
       end) ;;
      r ← the_runtime;
      mret (match sf_state (surface_at r s) with
            | SURFACE_ERROR => (VA_STATUS_ERROR_DECODING_ERROR, None)
            | SURFACE_PENDING => (VA_STATUS_SUCCESS, Some VASurfaceRendering)
            | _ => (VA_STATUS_SUCCESS, Some VASurfaceReady)
            end)
  end.

(** ** Pictures *)

Definition activate (target : Z) (g : staging) : staging :=
  Staging true target (sg_have_picture g) (sg_have_iq g) (sg_slice_parameters g)
    (sg_hevc_slice_parameters g) (sg_vp9_slice_parameters g) (sg_slice_count g)
    (sg_slice_data_bound_count g) (sg_slice_data g) (sg_slice_data_size g).

(** The checks of [advc_vaapi_decode_begin_picture]: the context and the surface. *)
Definition begin_guard (r : runtime) (context_id target : Z) : va_status + (nat * nat) :=
  match get_context r context_id, get_surface r target with
  | None, _ => inl VA_STATUS_ERROR_INVALID_CONTEXT
  | Some _, None => inl VA_STATUS_ERROR_INVALID_SURFACE
  | Some i, Some s =>
      let c := context_at r i in
      if sg_picture_active (cx_staging c) || negb (st_phase (cx_eos c) =? OPEN) ||
         negb (sf_width (surface_at r s) =? cx_width c) ||
         negb (sf_height (surface_at r s) =? cx_height c)
      then inl VA_STATUS_ERROR_OPERATION_FAILED
      else inr (i, s)
  end.

Definition begin_commit (i s : nat) (target : Z) : St world va_status :=
  r ← the_runtime;
  if state_eqb (sf_state (surface_at r s)) SURFACE_ERROR then mret VA_STATUS_ERROR_DECODING_ERROR
  else
    release_surface_output s ;;
    update (on_context i (set_staging (activate target reset_staging))) ;;
    mret VA_STATUS_SUCCESS.

(** The first locked section: decided, or the pending surface must be waited
    for. *)
Definition begin_first (context_id target : Z) : St world (option va_status) :=
  r ← the_runtime;
  match begin_guard r context_id target with
  | inl status => mret (Some status)
  | inr (i, s) =>
      if state_eqb (sf_state (surface_at r s)) SURFACE_PENDING then mret None
      else status ← begin_commit i s target; mret (Some status)
  end.

(** The locked section after the wait. *)
Definition begin_second (context_id target : Z) : St world va_status :=
  r ← the_runtime;
  match begin_guard r context_id target with
  | inl status => mret status
  | inr (i, s) => begin_commit i s target
  end.

Definition advc_vaapi_decode_begin_picture (fuel : nat) (context_id target : Z)
    : St world (option va_status) :=
  first ← begin_first context_id target;
  match first with
  | Some status => mret (Some status)
  | None =>
      sync_status ← advc_vaapi_decode_sync_surface fuel target ADVC_VAAPI_SYNC_LIMIT_NS;
      match sync_status with
      | Some VA_STATUS_SUCCESS => status ← begin_second context_id target; mret (Some status)
      | other => mret other
      end
  end.

(** What one buffer does: go on, stop with a status, or read past its end. *)
Inductive rendered := Rendered | Stopped (s : va_status) | OutOfBounds.

(** The outcome of staging slices in context [i]. *)
Definition stage (i : nat) (x : staged) : St world rendered :=
  match x with
  | Refused e => kernel (errno_is e) ;; mret (Stopped (status_for_errno e))
  | Overread => mret OutOfBounds
  | StagedAs g => update (on_context i (set_staging g)) ;; mret Rendered
  end.

(** A memory allocation inside a staging function is taken only when its guards
    pass. *)
Definition render_slices (i : nat) (b : buffer) : St world rendered :=
  r ← the_runtime;
  let c := context_at r i in
  let g := cx_staging c in
  if slices_refused dr_abi (cx_codec c) g b
  then stage i (append_slice_parameters dr_abi true (cx_codec c) g b)
  else ok ← kernel sys_alloc; stage i (append_slice_parameters dr_abi ok (cx_codec c) g b).

Definition render_data (i : nat) (b : buffer) : St world rendered :=
  r ← the_runtime;
  let c := context_at r i in
  let g := cx_staging c in
  match set_slice_data false false false (cx_codec c) g b with
  | Refused e =>
      if e =? EINVAL then stage i (Refused e)
      else
        a0 ← kernel sys_alloc;
        a1 ← kernel sys_alloc;
        match set_slice_data a0 a1 false (cx_codec c) g b with
        | Refused e =>
            if negb (a0 && a1) || (e =? EINVAL) then stage i (Refused e)
            else a2 ← kernel sys_alloc; stage i (set_slice_data a0 a1 a2 (cx_codec c) g b)
        | x => stage i x
        end
  | x => stage i x
  end.

Definition render_one (i : nat) (context_id buffer_id : Z) : St world rendered :=
  r ← the_runtime;
  let c := context_at r i in
  let g := cx_staging c in
  match get_buffer r buffer_id with
  | None => mret (Stopped VA_STATUS_ERROR_INVALID_BUFFER)
  | Some k =>
      let b := buffer_at r k in
      if negb (bf_context_id b =? context_id) then mret (Stopped VA_STATUS_ERROR_INVALID_BUFFER)
      else if bf_mapped b then mret (Stopped VA_STATUS_ERROR_OPERATION_FAILED)
      else match bf_type b with
      | VAPictureParameterBufferType =>
          if sg_have_picture g then mret (Stopped VA_STATUS_ERROR_INVALID_PARAMETER)
          else match copy_picture dr_abi c b with
          | None => mret OutOfBounds
          | Some c =>
              update (on_context i (fun _ => set_staging (set_have true (sg_have_iq g) g) c)) ;;
              mret Rendered
          end
      | VAIQMatrixBufferType =>
          if sg_have_iq g then mret (Stopped VA_STATUS_ERROR_INVALID_PARAMETER)
          else match cx_codec c with
          | DECODE_CODEC_VP9 => mret (Stopped VA_STATUS_ERROR_UNSUPPORTED_BUFFERTYPE)
          | _ =>
              match copy_iq dr_abi c b with
              | None => mret OutOfBounds
              | Some c =>
                  update (on_context i (fun _ => set_staging (set_have (sg_have_picture g) true g) c)) ;;
                  mret Rendered
              end
          end
      | VASliceParameterBufferType => render_slices i b
      | VASliceDataBufferType => render_data i b
      | VABufferTypeOther => mret (Stopped VA_STATUS_ERROR_UNSUPPORTED_BUFFERTYPE)
      end
  end.

Fixpoint render_loop (i : nat) (context_id : Z) (buffers : list Z) : St world (option va_status) :=
  match buffers with
  | [] => mret (Some VA_STATUS_SUCCESS)
  | id :: buffers =>
      x ← render_one i context_id id;
      match x with
      | Rendered => render_loop i context_id buffers
      | Stopped status => mret (Some status)
      | OutOfBounds => mret None
      end
  end.
Definition advc_vaapi_decode_render_picture (context_id : Z) (buffers : option (list Z))
    (num_buffers : Z) : St world (option va_status) :=
  r ← the_runtime;
  if (num_buffers <? 0) || ((0 <? num_buffers) && bool_decide (buffers = None))
  then mret (Some VA_STATUS_ERROR_INVALID_PARAMETER)
  else match get_context r context_id with
  | None => mret (Some VA_STATUS_ERROR_INVALID_CONTEXT)
  | Some i =>
      if negb (sg_picture_active (cx_staging (context_at r i)))
      then mret (Some VA_STATUS_ERROR_OPERATION_FAILED)
      else render_loop i context_id (take (Z.to_nat num_buffers) (default [] buffers))
  end.

(** A builder's result, with [errno] set when it fails.  Its allocation comes
    last. *)
Definition built {A} (f : Z -> bool -> Z + A) : St world (option A) :=
  e ← kernel errno;
  match f e true with
  | inl e => kernel (errno_is e) ;; mret None
  | inr a => ok ← kernel sys_alloc; mret (if (ok : bool) then Some a else None)
  end.
Definition checked {A} (f : Z -> Z + A) : St world (option A) :=
  e ← kernel errno;
  match f e with
  | inl e => kernel (errno_is e) ;; mret None
  | inr a => mret (Some a)
  end.

(** [result = status_for_errno(errno); goto out;] *)
Definition errno_status : St world va_status := e ← kernel errno; mret (status_for_errno e).

(** The timestamp of the next access unit; [None]: exhausted. *)
Definition take_pts : St world (option Z) :=
  r ← the_runtime;
  let pts_ns := rt_next_pts_ns r in
  if INT64_MAX - ADVC_VAAPI_PTS_STEP_NS <? pts_ns then mret None
  else update (set_next_pts (pts_ns + ADVC_VAAPI_PTS_STEP_NS)) ;; mret (Some pts_ns).

(** Reserve a destination and queue the access unit; [false]: failed. *)
Definition submit_access_unit (i : nat) (context_id : Z) (s : nat) (access_unit : list Z)
    (pts_ns flags : Z) : St world bool :=
  reserved ← reserve_surface_linear i context_id s pts_ns;
  if reserved <? 0 then mret false
  else
    queued ← queue_bytes_with_drain i access_unit pts_ns flags;
    if queued <? 0 then
      r ← the_runtime;
      (if sf_prime_reserved (surface_at r s) then release_surface_output s else mret tt) ;;
      mret false
    else mret true.

Definition mark_pending (i : nat) (context_id : Z) (s : nat) (pts_ns : Z) : St world unit :=
  update (fun r => on_surface s (fun x => set_state SURFACE_PENDING
    (set_submission pts_ns context_id (cx_broker_session (context_at r i)) x)) r).

(** *** HEVC *)

Definition hevc_submit (i : nat) (context_id : Z) (s : nat) (access_unit : list Z) (is_irap : bool)
    (config : advc_hevc_codec_config) : St world va_status :=
  r ← the_runtime;
  let c := context_at r i in
  let changed := negb (bool_decide (hc_data (cx_hevc_last_config c) = hc_data config)) in
  if negb (cx_configured c) && negb is_irap then mret VA_STATUS_ERROR_DECODING_ERROR
  else if cx_configured c && negb is_irap && changed then mret VA_STATUS_ERROR_DECODING_ERROR
  else
    pts ← take_pts;
    match pts with
    | None => mret VA_STATUS_ERROR_OPERATION_FAILED
    | Some pts_ns =>
        configured ← (if negb (cx_configured c) || changed then
            q ← queue_bytes_with_drain i (hc_data config) pts_ns ADVC_FLAG_CODEC_CONFIG;
            if q <? 0 then mret false
            else update (on_context i (fun c => set_configured (cx_last_config c) config c)) ;; mret true
          else mret true);
        if negb configured then mret VA_STATUS_ERROR_OPERATION_FAILED
        else
          ok ← submit_access_unit i context_id s access_unit pts_ns
                 (if is_irap then ADVC_FLAG_KEY_FRAME else 0);
          if negb ok then mret VA_STATUS_ERROR_OPERATION_FAILED
          else mark_pending i context_id s pts_ns ;; mret VA_STATUS_SUCCESS
    end.

Definition end_hevc_picture (i : nat) (context_id : Z) (s : nat) : St world va_status :=
  r ← the_runtime;
  let c := context_at r i in
  let g := cx_staging c in
  if staging_incomplete g then mret VA_STATUS_ERROR_DECODING_ERROR
  else
    ok ← kernel sys_alloc;
    if negb ok then mret VA_STATUS_ERROR_ALLOCATION_FAILED
    else match hevc_inputs g with
    | None => mret VA_STATUS_ERROR_INVALID_PARAMETER
    | Some slices =>
        unit_ ← built (fun e a => advc_hevc_build_access_unit e a slices);
        match unit_ with
        | None => errno_status
        | Some (access_unit, pps_id, is_irap) =>
            config ← checked (fun e => advc_hevc_build_codec_config e (map_hevc_parameters c) pps_id);
            match config with
            | None => errno_status
            | Some config => hevc_submit i context_id s access_unit is_irap config
            end
        end
    end.

(** *** VP9 *)

Definition end_vp9_picture (i : nat) (context_id : Z) (s : nat) : St world va_status :=
  r ← the_runtime;
  let c := context_at r i in
  let g := cx_staging c in
  if staging_incomplete g || negb (sg_slice_count g =? 1) then mret VA_STATUS_ERROR_DECODING_ERROR
  else
    unit_ ← built (fun _ a => advc_vp9_build_access_unit a (Some (cx_vp9_picture c))
               (sg_vp9_slice_parameters g !! O) (sg_slice_data g) (cx_width c) (cx_height c));
    match unit_ with
    | None => errno_status
    | Some (access_unit, key_frame) =>
        if negb (cx_configured c) && (key_frame =? 0) then mret VA_STATUS_ERROR_DECODING_ERROR
        else
          pts ← take_pts;
          match pts with
          | None => mret VA_STATUS_ERROR_OPERATION_FAILED
          | Some pts_ns =>
              ok ← submit_access_unit i context_id s access_unit pts_ns
                     (if negb (key_frame =? 0) then ADVC_FLAG_KEY_FRAME else 0);
              if negb ok then mret VA_STATUS_ERROR_OPERATION_FAILED
              else
                update (on_context i (fun c =>
                  set_configured (cx_last_config c) (cx_hevc_last_config c) c)) ;;
                mark_pending i context_id s pts_ns ;; mret VA_STATUS_SUCCESS
          end
    end.

(** *** H.264 *)

Definition with_reorder (frames floor : Z) (p : advc_h264_parameter_input) : advc_h264_parameter_input :=
  Params (profile_idc p) (visible_width p) (visible_height p) (picture_width_in_mbs_minus1 p)
    (picture_height_in_mbs_minus1 p) (bit_depth_luma_minus8 p) (bit_depth_chroma_minus8 p)
    (chroma_format_idc p) (separate_colour_plane_flag p) (gaps_in_frame_num_value_allowed_flag p)
    (frame_mbs_only_flag p) (mb_adaptive_frame_field_flag p) (direct_8x8_inference_flag p)
    (log2_max_frame_num_minus4 p) (pic_order_cnt_type p) (log2_max_pic_order_cnt_lsb_minus4 p)
    (delta_pic_order_always_zero_flag p) (num_ref_frames p) 1 frames
    (if floor <? num_ref_frames p then num_ref_frames p else floor)
    (pic_init_qp_minus26 p) (pic_init_qs_minus26 p) (chroma_qp_index_offset p)
    (second_chroma_qp_index_offset p) (entropy_coding_mode_flag p) (weighted_pred_flag p)
    (weighted_bipred_idc p) (transform_8x8_mode_flag p) (field_pic_flag p)
    (constrained_intra_pred_flag p) (bottom_field_pic_order_in_frame_present_flag p)
    (deblocking_filter_control_present_flag p) (redundant_pic_cnt_present_flag p)
    (num_ref_idx_l0_default_active_minus1 p) (num_ref_idx_l1_default_active_minus1 p).

(** The reorder bound the environment asks for, for the Main profile. *)
Definition reorder_parameters (profile : va_profile) (p : advc_h264_parameter_input)
    : advc_h264_parameter_input :=
  let bound := exact_env "ADVC_VAAPI_H264_REORDER_BOUND" in
  if negb (profile_eqb profile VAProfileH264Main) then p
  else if bound "validated-main-reorder4-v1"%string then with_reorder 4 4 p
  else if bound "candidate-firefox-pts-reorder2-v1"%string then with_reorder 2 2 p
  else if bound "validated-main-reorder1-v1"%string || bound "candidate-firefox-pts-reorder1-v1"%string
  then with_reorder 1 1 p
  else if bound "candidate-firefox-pts-reorder0-v1"%string then with_reorder 0 4 p
  else p.

Definition with_references (l0 l1 : Z) (p : advc_h264_parameter_input) : advc_h264_parameter_input :=
  Params (profile_idc p) (visible_width p) (visible_height p) (picture_width_in_mbs_minus1 p)
    (picture_height_in_mbs_minus1 p) (bit_depth_luma_minus8 p) (bit_depth_chroma_minus8 p)
    (chroma_format_idc p) (separate_colour_plane_flag p) (gaps_in_frame_num_value_allowed_flag p)
    (frame_mbs_only_flag p) (mb_adaptive_frame_field_flag p) (direct_8x8_inference_flag p)
    (log2_max_frame_num_minus4 p) (pic_order_cnt_type p) (log2_max_pic_order_cnt_lsb_minus4 p)
    (delta_pic_order_always_zero_flag p) (num_ref_frames p) (vui_bitstream_restriction_flag p)
    (max_num_reorder_frames p) (max_dec_frame_buffering p) (pic_init_qp_minus26 p)
    (pic_init_qs_minus26 p) (chroma_qp_index_offset p) (second_chroma_qp_index_offset p)
    (entropy_coding_mode_flag p) (weighted_pred_flag p) (weighted_bipred_idc p)
    (transform_8x8_mode_flag p) (field_pic_flag p) (constrained_intra_pred_flag p)
    (bottom_field_pic_order_in_frame_present_flag p) (deblocking_filter_control_present_flag p)
    (redundant_pic_cnt_present_flag p) l0 l1.

(** A first slice that uses the PPS defaults tells what they are. *)
Definition learn_references (o : advc_h264_reference_override) (p : h264_slice) (c : context) : context :=
  if uses_reference_lists o && (override_present o =? 0) then
    set_pps (hs4_num_ref_idx_l0_active_minus1 p)
      (if uses_list1 o then hs4_num_ref_idx_l1_active_minus1 p else cx_pps_l1_default_active_minus1 c)
      true (uses_list1 o || cx_pps_l1_known c) c
  else c.

(** A configuration that changes at a picture that is not IDR must keep its SPS. *)
Definition sps_changed (old new : advc_h264_codec_config) : bool :=
  let old_size := codec_config_sps_size old in
  let new_size := codec_config_sps_size new in
  (old_size =? 0) || (new_size =? 0) || negb (old_size =? new_size) ||
  negb (bool_decide (take (Z.to_nat new_size) (cc_data old) = take (Z.to_nat new_size) (cc_data new))).

(** Publishing a changed configuration: the access unit to queue and whether the
    configuration travels inside it. *)
Definition publish_config (i : nat) (config : advc_h264_codec_config) (access_unit : list Z)
    (pts_ns : Z) : St world (va_status + (list Z * bool)) :=
  r ← the_runtime;
  if cx_configured (context_at r i) &&
     exact_env "ADVC_VAAPI_H264_INBAND_CONFIG_UPDATE" "validated-pps-v1" then
    joined ← built (fun _ a => advc_h264_prepend_codec_config a config (Some access_unit));
    match joined with
    | None => status ← errno_status; mret (inl status)
    | Some access_unit => mret (inr (access_unit, true))
    end
  else
    q ← queue_bytes_with_drain i (cc_data config) pts_ns ADVC_FLAG_CODEC_CONFIG;
    if q <? 0 then mret (inl VA_STATUS_ERROR_OPERATION_FAILED)
    else
      update (on_context i (fun c => set_configured config (cx_hevc_last_config c) c)) ;;
      mret (inr (access_unit, false)).

Definition h264_submit (i : nat) (context_id : Z) (s : nat) (access_unit : list Z) (is_idr : bool)
    (config : advc_h264_codec_config) : St world va_status :=
  r ← the_runtime;
  let c := context_at r i in
  let config_changed := negb (cx_configured c) ||
    negb (bool_decide (cc_data (cx_last_config c) = cc_data config)) in
  if cx_configured c && negb is_idr && config_changed && sps_changed (cx_last_config c) config
  then mret VA_STATUS_ERROR_DECODING_ERROR
  else
    pts ← take_pts;
    match pts with
    | None => mret VA_STATUS_ERROR_OPERATION_FAILED
    | Some pts_ns =>
        published ← (if config_changed then publish_config i config access_unit pts_ns
                     else mret (inr (access_unit, false)));
        match published with
        | inl status => mret status
        | inr (access_unit, inband) =>
            ok ← submit_access_unit i context_id s access_unit pts_ns
                   (if is_idr then ADVC_FLAG_KEY_FRAME else 0);
            if negb ok then mret VA_STATUS_ERROR_OPERATION_FAILED
            else
              (if (inband : bool)
               then update (on_context i (fun c => set_configured config (cx_hevc_last_config c) c))
               else mret tt) ;;
              mark_pending i context_id s pts_ns ;; mret VA_STATUS_SUCCESS
        end
    end.

Definition end_h264_picture (i : nat) (context_id : Z) (s : nat) (profile : va_profile)
    : St world va_status :=
  r ← the_runtime;
  let c := context_at r i in
  let g := cx_staging c in
  ok ← kernel sys_alloc;
  if negb ok then mret VA_STATUS_ERROR_ALLOCATION_FAILED
  else match h264_inputs g, sg_slice_parameters g with
  | Some (first :: rest as slices), first_parameters :: _ =>
      unit_ ← built (fun e a => advc_h264_build_access_unit e a slices);
      match unit_ with
      | None => errno_status
      | Some (access_unit, pps_id, is_idr) =>
          let parameters := reorder_parameters profile (map_h264_parameters c profile) in
          over ← checked (fun _ => advc_h264_parse_reference_override (slice_bytes first) parameters);
          match over with
          | None => errno_status
          | Some over =>
              update (on_context i (learn_references over first_parameters)) ;;
              let c := learn_references over first_parameters c in
              let parameters := with_references
                (if cx_pps_l0_known c then cx_pps_l0_default_active_minus1 c else 0)
                (if cx_pps_l1_known c then cx_pps_l1_default_active_minus1 c else 0) parameters in
              config ← checked (fun e => advc_h264_build_codec_config e parameters pps_id);
              match config with
              | None => errno_status
              | Some config => h264_submit i context_id s access_unit is_idr config
              end
          end
      end
  | _, _ => mret VA_STATUS_ERROR_INVALID_PARAMETER
  end.

(** [out:] releases the staged picture whatever happened. *)
Definition advc_vaapi_decode_end_picture (context_id : Z) : St world va_status :=
  r ← the_runtime;
  match get_context r context_id with
  | None => mret VA_STATUS_ERROR_INVALID_CONTEXT
  | Some i =>
      let g := cx_staging (context_at r i) in
      if negb (sg_picture_active g) then mret VA_STATUS_ERROR_OPERATION_FAILED
      else
        result ← (match get_surface r (sg_target g), get_config r (cx_config_id (context_at r i)) with
          | Some s, Some k =>
              if staging_incomplete g then mret VA_STATUS_ERROR_DECODING_ERROR
              else
                let profile := cf_profile (config_at r k) in
                if profile_eqb profile VAProfileHEVCMain then end_hevc_picture i context_id s
                else if profile_eqb profile VAProfileVP9Profile0 then end_vp9_picture i context_id s
                else end_h264_picture i context_id s profile
          | _, _ => mret VA_STATUS_ERROR_DECODING_ERROR
          end);
        update (on_context i (set_staging reset_staging)) ;;
        mret result
  end.

(** ** Export *)

Record export_object := ExportObject { xo_fd : Z; xo_size : Z; xo_modifier : Z }.
Record export_layer := ExportLayer {
  xl_drm_format : Z; xl_planes : list advc_dmabuf_plane }.
(** VADRMPRIMESurfaceDescriptor: the first [num_objects] objects and [num_layers]
    layers. *)
Record prime_descriptor := PrimeDescriptor {
  xd_fourcc : Z; xd_width : Z; xd_height : Z;
  xd_objects : list export_object; xd_layers : list export_layer }.

Definition export_refused (mem_type flags : Z) : bool :=
  let allowed := Z.lor (Z.lor VA_EXPORT_SURFACE_READ_WRITE VA_EXPORT_SURFACE_SEPARATE_LAYERS)
                   VA_EXPORT_SURFACE_COMPOSED_LAYERS in
  negb (mem_type =? VA_SURFACE_ATTRIB_MEM_TYPE_DRM_PRIME_2) ||
  negb (Z.land flags VA_EXPORT_SURFACE_READ_WRITE =? VA_EXPORT_SURFACE_READ_ONLY) ||
  negb (Z.land flags (Z.lxor UINT32_MAX allowed) =? 0) ||
  (negb (Z.land flags VA_EXPORT_SURFACE_SEPARATE_LAYERS =? 0) &&
   negb (Z.land flags VA_EXPORT_SURFACE_COMPOSED_LAYERS =? 0)).

(** The duplication loop: the objects, or the descriptors opened before it
    failed. *)
Fixpoint export_objects (modifier : Z) (objects : list advc_dmabuf_object) (acc : list export_object)
    : St world (list Z + list export_object) :=
  match objects with
  | [] => mret (inr acc)
  | o :: objects =>
      if UINT32_MAX <? o_size o then mret (inl (xo_fd <$> acc))
      else
        fd ← kernel (fcntl_dupfd_cloexec (o_fd o));
        if fd <? 0 then mret (inl (xo_fd <$> acc))
        else export_objects modifier objects (acc ++ [ExportObject fd (o_size o) modifier])
  end.

Definition export_layers (separate : bool) (d : advc_dmabuf_descriptor) : list export_layer :=
  if separate
  then [ExportLayer DRM_FORMAT_R8 [plane_at d 0]; ExportLayer DRM_FORMAT_GR88 [plane_at d 1]]
  else [ExportLayer Surface.ADVC_DRM_FORMAT_NV12 [plane_at d 0; plane_at d 1]].

(** Whether the timing of the call is recorded, its status and the descriptor. *)
Definition export_locked (surface_id : Z) (separate : bool)
    : St world (bool * va_status * option prime_descriptor) :=
  r ← the_runtime;
  match get_surface r surface_id with
  | None => mret (false, VA_STATUS_ERROR_INVALID_SURFACE, None)
  | Some s =>
      let surface := surface_at r s in
      let d := sf_prime surface in
      if negb (state_eqb (sf_state surface) SURFACE_READY) &&
         negb (state_eqb (sf_state surface) SURFACE_PENDING && sf_prime_reserved surface)
      then mret (false, VA_STATUS_ERROR_TIMEDOUT, None)
      else if negb (d_drm_fourcc d =? Surface.ADVC_DRM_FORMAT_NV12) || (d_object_count d =? 0) ||
              (4 <? d_object_count d) || negb (d_plane_count d =? 2) ||
              (UINT32_MAX <? p_offset (plane_at d 0)) || (UINT32_MAX <? p_offset (plane_at d 1))
      then mret (false, VA_STATUS_ERROR_UNSUPPORTED_RT_FORMAT, None)
      else
        objects ← export_objects (d_drm_modifier d)
                    (take (Z.to_nat (d_object_count d)) (d_objects d)) [];
        match objects with
        | inl opened =>
            kernel (close_each opened) ;; mret (true, VA_STATUS_ERROR_OPERATION_FAILED, None)
        | inr objects =>
            mret (true, VA_STATUS_SUCCESS, Some (PrimeDescriptor VA_FOURCC_NV12 (d_width d) (d_height d)
              objects (export_layers separate d)))
        end
  end.

(** [surface->state == PENDING && surface->prime_reserved] with a valid buffer. *)
Definition reserved_export (surface_id : Z) : St world bool :=
  r ← the_runtime;
  match get_surface r surface_id with
  | None => mret false
  | Some s =>
      let surface := surface_at r s in
      if state_eqb (sf_state surface) SURFACE_PENDING && sf_prime_reserved surface
      then v ← kernel (advc_dmabuf_descriptor_validate (sf_prime surface)); mret (v =? 0)
      else mret false
  end.

(** [None]: more than [fuel] polls.  Status, and the descriptor on success. *)
Definition advc_vaapi_decode_export_surface (fuel : nat) (surface_id mem_type flags : Z)
    : St world (option (va_status * option prime_descriptor)) :=
  started ← start_export_timing;
  if export_refused mem_type flags then mret (Some (VA_STATUS_ERROR_INVALID_PARAMETER, None))
  else
    reserved ← reserved_export surface_id;
    synced ← (if (reserved : bool) then mret (Some VA_STATUS_SUCCESS)
              else advc_vaapi_decode_sync_surface fuel surface_id ADVC_VAAPI_SYNC_LIMIT_NS);
    match synced with
    | None => mret None
    | Some VA_STATUS_SUCCESS =>
        '(recorded, status, out) ← export_locked surface_id
          (negb (Z.land flags VA_EXPORT_SURFACE_SEPARATE_LAYERS =? 0));
        (if (recorded : bool) then record_export_timing started else mret tt) ;;
        mret (Some (status, out))
    | Some status => record_export_timing started ;; mret (Some (status, None))
    end.

End EntryPoints.
