(* ===== verification/DecodeSlices.v ===== *)
(** * The slices a decoder receives are the slices the application bound

    libva gives slice parameters and slice data in separate buffers; the offsets
    of a parameter group are relative to the data buffer that follows it.  The
    runtime joins the data of a picture and rebases the offsets.  The abstract
    view of a staged picture is the list of its slices' bytes; staging a group
    appends the slices cut out of the group's own data. *)

From stdpp Require Import base list gmap.
From Stdlib Require Import ZArith Lia Bool.
From S2P Require Import Prelude Kernel Protocol Dmabuf Engine Client World VaapiRoutes AnnexB Hevc Vp9 DecodeState DecodeStaging.

(** ** The abstract view *)

(** [n] bytes at [off]. *)
Definition cut (data : list Z) (span : Z * Z) : list Z :=
  take (Z.to_nat (snd span)) (drop (Z.to_nat (fst span)) data).

(** The slices whose data is bound. *)
Definition bound_slices (codec : decode_codec) (g : staging) : list (list Z) :=
  cut (default [] (sg_slice_data g)) <$>
    take (Z.to_nat (sg_slice_data_bound_count g)) (slice_spans codec g).

Definition span_inside (size : Z) (span : Z * Z) : Prop :=
  0 < snd span /\ fst span + snd span <= size.
Definition span_typed (span : Z * Z) : Prop := is_u32 (fst span) /\ is_u32 (snd span).

Record staging_ok (codec : decode_codec) (g : staging) : Prop := {
  so_count : zlen (slice_spans codec g) = sg_slice_count g;
  so_bound : 0 <= sg_slice_data_bound_count g <= sg_slice_count g;
  so_size : sg_slice_data_size g = zlen (default [] (sg_slice_data g));
  so_limit : sg_slice_data_size g <= ADVC_MAX_INPUT_BYTES;
  so_none : sg_slice_data g = None -> sg_slice_data_bound_count g = 0;
  so_typed : Forall span_typed (slice_spans codec g);
  so_inside : Forall (span_inside (sg_slice_data_size g))
                (take (Z.to_nat (sg_slice_data_bound_count g)) (slice_spans codec g)) }.

(** The memory of a buffer. *)
Record buffer_wf (b : buffer) : Prop := {
  bfw_size : 0 < bf_element_size b;
  bfw_elements : 0 < bf_num_elements b <= bf_capacity_elements b;
  bfw_data : zlen (bf_data b) = bf_element_size b * bf_capacity_elements b }.

Section Staging.
Context (abi : va_abi) (codec : decode_codec).

(** The span of a slice structure. *)
Definition read_span (raw : list Z) : Z * Z :=
  match codec with
  | DECODE_CODEC_H264 => let s := read_h264_slice abi raw in (hs4_slice_data_offset s, hs4_slice_data_size s)
  | DECODE_CODEC_HEVC => let s := read_hevc_slice abi raw in (hs5_slice_data_offset s, hs5_slice_data_size s)
  | DECODE_CODEC_VP9 => let s := read_vp9_slice abi raw in (vs_slice_data_offset s, vs_slice_data_size s)
  end.

(** The members are [uint32_t]. *)
Definition spans_typed : Prop := forall raw, span_typed (read_span raw).

(** What a parameter buffer declares and what a data buffer holds. *)
Definition declared_spans (b : buffer) : list (Z * Z) :=
  let size := fst (slice_shape abi codec) in
  read_span <$> chunks size (bf_num_elements b) (take (Z.to_nat (bf_num_elements b * size)) (bf_data b)).
Definition held_bytes (b : buffer) : list Z :=
  take (Z.to_nat (bf_element_size b * bf_num_elements b)) (bf_data b).

(** A parameter buffer and the data buffer that follows it. *)
Definition stage_group (g : staging) (group : buffer * buffer) : option staging :=
  match append_slice_parameters abi true codec g (fst group) with
  | StagedAs g =>
      match set_slice_data true true true codec g (snd group) with StagedAs g => Some g | _ => None end
  | _ => None
  end.
Definition stage_groups (g : staging) (groups : list (buffer * buffer)) : option staging :=
  foldl (fun g group => g ≫= fun g => stage_group g group) (Some g) groups.

(** The slices of a group. *)
Definition group_slices (group : buffer * buffer) : list (list Z) :=
  cut (held_bytes (snd group)) <$> declared_spans (fst group).

(** A group that fits a picture with [count] slices and [total] bytes. *)
Record group_fits (count total : Z) (group : buffer * buffer) : Prop := {
  gf_shape : bf_element_size (fst group) = fst (slice_shape abi codec);
  gf_slices : count + bf_num_elements (fst group) <= snd (slice_shape abi codec);
  gf_bytes : total + zlen (held_bytes (snd group)) <= ADVC_MAX_INPUT_BYTES;
  gf_inside : Forall (span_inside (zlen (held_bytes (snd group)))) (declared_spans (fst group)) }.

Fixpoint groups_fit (count total : Z) (groups : list (buffer * buffer)) : Prop :=
  match groups with
  | [] => True
  | group :: groups => group_fits count total group /\
      groups_fit (count + bf_num_elements (fst group)) (total + zlen (held_bytes (snd group))) groups
  end.

(** ** Parameters *)

Lemma held_length b : buffer_wf b -> zlen (held_bytes b) = bf_element_size b * bf_num_elements b.
Proof.
  intros [H1 H2 H3]. unfold held_bytes, zlen in *. rewrite length_take, Nat.min_l; nia.
Qed.

Lemma copy_wf b n : buffer_wf b -> n <= bf_element_size b * bf_num_elements b ->
  copy_from (bf_data b) n = Some (take (Z.to_nat n) (bf_data b)).
Proof. intros [H1 H2 H3] Hn. unfold copy_from. destruct (Z.leb_spec n (zlen (bf_data b))); [done|nia]. Qed.

Lemma declared_length b : 0 <= bf_num_elements b -> zlen (declared_spans b) = bf_num_elements b.
Proof. intros H. unfold declared_spans, chunks, zlen. rewrite !length_fmap, length_seqZ. lia. Qed.

Lemma declared_typed b : spans_typed -> Forall span_typed (declared_spans b).
Proof. intros H. apply Forall_fmap, Forall_forall. intros x _. apply H. Qed.

Lemma store_spans raw n g :
  slice_spans codec (store_slices abi codec raw n g) = slice_spans codec g ++ (read_span <$> raw).
Proof.
  unfold slice_spans, store_slices, read_span. destruct codec; cbn; by rewrite fmap_app, <- list_fmap_compose.
Qed.

Lemma append_exact g b : staging_ok codec g -> sg_slice_data_bound_count g = sg_slice_count g ->
  buffer_wf b ->
  let fits := bf_element_size b = fst (slice_shape abi codec) /\
    sg_slice_count g + bf_num_elements b <= snd (slice_shape abi codec) in
  match append_slice_parameters abi true codec g b with
  | Refused e => ~ fits /\ e = EINVAL
  | Overread => False
  | StagedAs g' => fits /\ slice_spans codec g' = slice_spans codec g ++ declared_spans b /\
      sg_slice_count g' = sg_slice_count g + bf_num_elements b /\
      sg_slice_data_bound_count g' = sg_slice_data_bound_count g /\
      sg_slice_data g' = sg_slice_data g /\ sg_slice_data_size g' = sg_slice_data_size g
  end.
Proof.
  intros Hg Hb Hw. pose proof (bfw_elements _ Hw) as He. pose proof (so_bound _ _ Hg) as Hbound.
  cbn zeta. unfold append_slice_parameters, slices_refused. cbn zeta.
  destruct (_ || _) eqn:E; [split; [lia|done]|]. cbn [negb].
  rewrite copy_wf by (done || lia). split; [lia|]. cbn. rewrite store_spans. unfold declared_spans. done.
Qed.

(** The spans already bound stay. *)
Lemma append_take g b g' : staging_ok codec g -> sg_slice_data_bound_count g' = sg_slice_data_bound_count g ->
  slice_spans codec g' = slice_spans codec g ++ declared_spans b ->
  take (Z.to_nat (sg_slice_data_bound_count g')) (slice_spans codec g') =
  take (Z.to_nat (sg_slice_data_bound_count g)) (slice_spans codec g).
Proof.
  intros Hg Hbn Hsp. rewrite Hsp, Hbn. pose proof (so_count _ _ Hg) as Hc. pose proof (so_bound _ _ Hg).
  unfold zlen in Hc. by rewrite take_app_le by lia.
Qed.

Lemma append_staging g b g' : spans_typed -> staging_ok codec g -> sg_slice_data_bound_count g = sg_slice_count g ->
  buffer_wf b -> append_slice_parameters abi true codec g b = StagedAs g' -> staging_ok codec g'.
Proof.
  intros Hty Hg Hb Hw E. pose proof (append_exact g b Hg Hb Hw) as Ha. cbn zeta in Ha. rewrite E in Ha.
  destruct Ha as (_ & Hsp & Hcn & Hbn & Hda & Hsz). pose proof (append_take g b g' Hg Hbn Hsp) as Htake.
  pose proof (bfw_elements _ Hw) as He. pose proof (declared_length b ltac:(lia)) as Hdl.
  destruct Hg as [Hc Hbd Hs Hl Hn Ht Hi]. split.
  - rewrite Hsp, Hcn. unfold zlen in *. rewrite length_app. lia.
  - lia.
  - by rewrite Hsz, Hda.
  - by rewrite Hsz.
  - rewrite Hda, Hbn. done.
  - rewrite Hsp. apply Forall_app. split; [done|]. by apply declared_typed.
  - rewrite Htake, Hsz. done.
Qed.

(** ** Data *)

Lemma zip_spans (l : list (Z * Z)) (agg : Z) :
  Forall span_typed l -> 0 <= agg ->
  Forall (fun s => agg + fst s <= UINT32_MAX) l ->
  zip_with (fun o (s : Z * Z) => (o, snd s)) ((fun o => u32 (agg + o)) <$> (fst <$> l)) l =
  (fun s => (agg + fst s, snd s)) <$> l.
Proof.
  intros Ht Ha Hl. induction l as [|s l IH]; [done|].
  apply Forall_cons in Ht as [[H1 H2] Ht]. apply Forall_cons in Hl as [H3 Hl]. cbn. f_equal; [|by apply IH].
  f_equal. apply u32_id. unfold is_u32 in *. unfold UINT32_MAX in *. lia.
Qed.

Lemma put_offsets_spans {A} (set : Z -> A -> A) (span : A -> Z * Z) bound offsets l :
  (forall o x, span (set o x) = (o, snd (span x))) ->
  span <$> put_offsets set bound offsets l =
  take (Z.to_nat bound) (span <$> l) ++
  zip_with (fun o (s : Z * Z) => (o, snd s)) offsets (drop (Z.to_nat bound) (span <$> l)).
Proof.
  intros H. unfold put_offsets. rewrite fmap_app, fmap_take, <- fmap_drop. f_equal.
  generalize (drop (Z.to_nat bound) l). revert offsets. induction offsets as [|o os IH]; intros [|x xs]; cbn; try done.
  by rewrite H, IH.
Qed.

Lemma rebased_spans offsets data g :
  slice_spans codec (rebased codec offsets data g) =
  take (Z.to_nat (sg_slice_data_bound_count g)) (slice_spans codec g) ++
  zip_with (fun o (s : Z * Z) => (o, snd s)) offsets
    (drop (Z.to_nat (sg_slice_data_bound_count g)) (slice_spans codec g)).
Proof. unfold slice_spans, rebased. destruct codec; cbn; by rewrite put_offsets_spans. Qed.

Lemma at_pairs {f : Z * Z -> Z} (l : list (Z * Z)) i : 0 <= i < zlen l ->
  exists s, l !! Z.to_nat i = Some s /\ Slices.at_ (f <$> l) i = f s.
Proof.
  unfold zlen. intros Hi. destruct (lookup_lt_is_Some_2 l (Z.to_nat i)) as [s Hs]; [lia|].
  exists s. split; [done|]. unfold Slices.at_. by rewrite list_lookup_fmap, Hs.
Qed.

Lemma spans_inside_forall (l : list (Z * Z)) local :
  Slices.spans_inside (fst <$> l) (snd <$> l) (zlen l) local <-> Forall (span_inside local) l.
Proof.
  rewrite Forall_lookup. unfold Slices.spans_inside. split.
  - intros H i s Hs. assert (0 <= Z.of_nat i < zlen l) as Hi by (apply lookup_lt_Some in Hs; unfold zlen; lia).
    specialize (H _ Hi). destruct (at_pairs (f := fst) l _ Hi) as (s1 & H1 & H2).
    destruct (at_pairs (f := snd) l _ Hi) as (s2 & H3 & H4).
    rewrite Nat2Z.id in H1, H3. rewrite Hs in H1, H3. simplify_eq. rewrite H2, H4 in H. done.
  - intros H i Hi. destruct (at_pairs (f := fst) l _ Hi) as (s1 & H1 & H2).
    destruct (at_pairs (f := snd) l _ Hi) as (s2 & H3 & H4). simplify_eq.
    specialize (H _ _ H1). rewrite H2, H4. done.
Qed.

Lemma rebase_pairs (l : list (Z * Z)) agg local :
  Forall span_typed l -> 0 < zlen l -> 0 <= agg -> 0 < local -> agg + local <= ADVC_MAX_INPUT_BYTES ->
  match Slices.advc_vaapi_rebase_slice_offsets (Some (fst <$> l)) (Some (snd <$> l)) (zlen l) agg local
          ADVC_MAX_INPUT_BYTES with
  | inl e => ~ Forall (span_inside local) l /\ e = EINVAL
  | inr offsets => Forall (span_inside local) l /\
      zip_with (fun o (s : Z * Z) => (o, snd s)) offsets l = (fun s => (agg + fst s, snd s)) <$> l
  end.
Proof.
  intros Ht Hn Ha Hl Hm. pose proof (Slices.rebase_slices_exact (fst <$> l) (snd <$> l) (zlen l) agg local
    ADVC_MAX_INPUT_BYTES) as H. unfold ADVC_MAX_INPUT_BYTES in *. cbn zeta in H.
  destruct (Slices.advc_vaapi_rebase_slice_offsets _ _ _ _ _ _) as [e|offsets] eqn:E.
  - destruct H as [H ->]; [|split; [|done]].
    + constructor; [..|unfold is_u64; lia|unfold is_u64; lia|unfold is_u64; lia].
      * apply Forall_fmap. eapply Forall_impl; [exact Ht|]. by intros s [].
      * apply Forall_fmap. eapply Forall_impl; [exact Ht|]. by intros s [].
      * unfold zlen. rewrite !length_fmap. lia.
    + intros Hin. apply H. unfold UINT32_MAX. split_and!; [lia..|by apply spans_inside_forall].
  - destruct H as [H _].
    + constructor; [..|unfold is_u64; lia|unfold is_u64; lia|unfold is_u64; lia].
      * apply Forall_fmap. eapply Forall_impl; [exact Ht|]. by intros s [].
      * apply Forall_fmap. eapply Forall_impl; [exact Ht|]. by intros s [].
      * unfold zlen. rewrite !length_fmap. lia.
    + destruct H as (_ & _ & _ & _ & Hin). apply spans_inside_forall in Hin. split; [done|]. unfold Slices.advc_vaapi_rebase_slice_offsets in E.
      destruct (_ || _) in E; [done|]. destruct (existsb _ _) in E; [done|]. injection E as <-.
      unfold zlen. rewrite take_ge, drop_ge, app_nil_r by (rewrite length_fmap; lia).
      apply zip_spans; [done|done|]. apply Forall_forall. intros s Hs.
      rewrite Forall_forall in Hin, Ht. destruct (Hin s Hs), (Ht s Hs) as [? ?]. unfold is_u32, UINT32_MAX in *. lia.
Qed.

(** The slices already bound do not move when data is appended. *)
Lemma cut_app data more span : 0 <= fst span -> 0 <= snd span -> fst span + snd span <= zlen data ->
  cut (data ++ more) span = cut data span.
Proof.
  unfold zlen. intros H1 H2 H3. unfold cut. rewrite drop_app_le by lia.
  rewrite take_app_le; [done|]. rewrite length_drop. lia.
Qed.

Lemma cut_shift data more span : 0 <= fst span ->
  cut (data ++ more) (zlen data + fst span, snd span) = cut more span.
Proof.
  unfold zlen. intros H. unfold cut. cbn. f_equal. rewrite drop_app_ge by lia. f_equal. lia.
Qed.

(** Binding the data of the pending slices. *)
Lemma set_data_exact g b : staging_ok codec g -> sg_slice_data_bound_count g < sg_slice_count g ->
  buffer_wf b ->
  let pending := drop (Z.to_nat (sg_slice_data_bound_count g)) (slice_spans codec g) in
  let fits := sg_slice_data_size g + zlen (held_bytes b) <= ADVC_MAX_INPUT_BYTES /\
    Forall (span_inside (zlen (held_bytes b))) pending in
  match set_slice_data true true true codec g b with
  | Refused e => ~ fits /\ e = EINVAL
  | Overread => False
  | StagedAs g' => fits /\ staging_ok codec g' /\
      bound_slices codec g' = bound_slices codec g ++ (cut (held_bytes b) <$> pending) /\
      sg_slice_count g' = sg_slice_count g /\ sg_slice_data_bound_count g' = sg_slice_count g /\
      sg_slice_data_size g' = sg_slice_data_size g + zlen (held_bytes b)
  end.
Proof.
  intros Hg Hlt Hw pending. rewrite held_length by done. pose proof (bfw_size _ Hw). pose proof (bfw_elements _ Hw).
  destruct Hg as [Hc Hb Hsz Hlim Hnone Ht Hin]. assert (0 <= sg_slice_data_size g) as Hz by (rewrite Hsz; unfold zlen; lia).
  assert (zlen pending = sg_slice_count g - sg_slice_data_bound_count g) as Hpl.
  { unfold pending, zlen in *. rewrite length_drop. lia. }
  cbn zeta. unfold set_slice_data. fold pending. cbn zeta.
  destruct (_ || _) eqn:E; [split; [|done]; nia|]. cbn [andb negb]. rewrite <- Hpl.
  pose proof (rebase_pairs pending (sg_slice_data_size g) (bf_element_size b * bf_num_elements b)) as Hr.
  destruct (Slices.advc_vaapi_rebase_slice_offsets _ _ _ _ _ _) as [e|offsets].
  { destruct Hr as [Hr ->]; [by apply Forall_drop|nia|lia|nia|lia|]. split; [|done]. by intros [_ ?]. }
  destruct Hr as [Hins Hzip]; [by apply Forall_drop|nia|lia|nia|lia|].
  rewrite copy_wf by (done || lia). fold (held_bytes b). split; [split; [lia|done]|].
  pose proof (held_length b Hw) as Hhl.
  assert (slice_spans codec (rebased codec offsets (held_bytes b) g) =
    take (Z.to_nat (sg_slice_data_bound_count g)) (slice_spans codec g) ++
    ((fun s => (sg_slice_data_size g + fst s, snd s)) <$> pending)) as Hspans.
  { rewrite rebased_spans. fold pending. by rewrite Hzip. }
  assert (zlen (slice_spans codec (rebased codec offsets (held_bytes b) g)) = sg_slice_count g) as Hlen.
  { rewrite Hspans. unfold zlen in *. rewrite length_app, length_take, length_fmap. lia. }
  set (data := default [] (sg_slice_data g)) in *.
  assert (Forall span_typed pending) as Htp by (by apply Forall_drop).
  split_and!; try done.
  - split.
    + done.
    + cbn. lia.
    + cbn. unfold zlen in *. fold data. rewrite length_app. lia.
    + cbn. lia.
    + done.
    + rewrite Hspans. apply Forall_app. split; [by apply Forall_take|]. apply Forall_fmap, Forall_forall.
      intros s Hs. rewrite Forall_forall in Hins, Htp. destruct (Hins s Hs), (Htp s Hs) as [? ?].
      unfold ADVC_MAX_INPUT_BYTES in *. split; unfold is_u32 in *; cbn; lia.
    + rewrite take_ge by (cbn; unfold zlen in Hlen; lia). rewrite Hspans. cbn [sg_slice_data_size rebased].
      apply Forall_app. split; [eapply Forall_impl; [exact Hin|]; intros s []; split; lia|].
      apply Forall_fmap. eapply Forall_impl; [exact Hins|]. intros s []. split; cbn; lia.
  - unfold bound_slices. rewrite (take_ge (slice_spans _ (rebased _ _ _ _))) by (cbn; unfold zlen in Hlen; lia).
    rewrite Hspans, fmap_app. cbn [sg_slice_data rebased default]. fold data. f_equal.
    + apply list_fmap_ext. intros i s Hs. rewrite Forall_lookup in Hin, Ht.
      pose proof (Hin _ _ Hs) as []. assert (span_typed s) as [? ?].
      { apply lookup_take_Some in Hs as [Hs _]. by eapply Ht. }
      apply cut_app; unfold is_u32 in *; lia.
    + rewrite <- list_fmap_compose. apply list_fmap_ext. intros i s Hs. rewrite Forall_lookup in Htp.
      destruct (Htp _ _ Hs) as [? ?]. cbn. rewrite Hsz. apply cut_shift. unfold is_u32 in *. lia.
  - cbn. lia.
Qed.

(** ** Groups *)

Lemma stage_group_exact g group : spans_typed -> staging_ok codec g ->
  sg_slice_data_bound_count g = sg_slice_count g -> buffer_wf (fst group) -> buffer_wf (snd group) ->
  match stage_group g group with
  | None => ~ group_fits (sg_slice_count g) (sg_slice_data_size g) group
  | Some g' => group_fits (sg_slice_count g) (sg_slice_data_size g) group /\ staging_ok codec g' /\
      bound_slices codec g' = bound_slices codec g ++ group_slices group /\
      sg_slice_count g' = sg_slice_count g + bf_num_elements (fst group) /\
      sg_slice_data_bound_count g' = sg_slice_count g' /\
      sg_slice_data_size g' = sg_slice_data_size g + zlen (held_bytes (snd group))
  end.
Proof.
  intros Hty Hg Hb Hw1 Hw2. unfold stage_group. pose proof (append_exact g (fst group) Hg Hb Hw1) as Ha.
  pose proof (bfw_elements _ Hw1) as He. pose proof (declared_length (fst group) ltac:(lia)) as Hdl.
  cbn zeta in Ha. destruct (append_slice_parameters _ _ _ _ _) as [e|g1|] eqn:Ea; [|..|done].
  { intros []. by apply Ha. }
  destruct Ha as ([Hsh Hsl] & Hsp & Hcn & Hbn & Hda & Hsz).
  assert (drop (Z.to_nat (sg_slice_data_bound_count g1)) (slice_spans codec g1) = declared_spans (fst group)) as Hdrop.
  { rewrite Hsp, Hbn, Hb, drop_app_ge; [|pose proof (so_count _ _ Hg); unfold zlen in *; lia].
    pose proof (so_count _ _ Hg) as Hc. unfold zlen in Hc. by replace (_ - _)%nat with 0%nat by lia. }
  pose proof (append_take _ _ _ Hg Hbn Hsp) as Htake.
  pose proof (append_staging _ _ _ Hty Hg Hb Hw1 Ea) as Hg1.
  pose proof (set_data_exact g1 (snd group) Hg1 ltac:(lia) Hw2) as Hs. cbn zeta in Hs. rewrite Hdrop, Hsz in Hs.
  destruct (set_slice_data _ _ _ _ _ _) as [e|g2|]; [|..|done].
  { intros []. by apply Hs. }
  destruct Hs as ([Hf1 Hf2] & Hok & Hsl2 & Hc2 & Hb2 & Hz2).
  split; [by constructor|]. split_and!; [done| |lia|lia|done].
  rewrite Hsl2. f_equal. unfold bound_slices. by rewrite Htake, Hda.
Qed.

Lemma stage_groups_none groups : foldl (fun g group => g ≫= fun g => stage_group g group) None groups = None.
Proof. by induction groups. Qed.

Lemma stage_groups_exact g groups : spans_typed -> staging_ok codec g ->
  sg_slice_data_bound_count g = sg_slice_count g ->
  Forall (fun gr => buffer_wf (fst gr) /\ buffer_wf (snd gr)) groups ->
  match stage_groups g groups with
  | None => ~ groups_fit (sg_slice_count g) (sg_slice_data_size g) groups
  | Some g' => groups_fit (sg_slice_count g) (sg_slice_data_size g) groups /\ staging_ok codec g' /\
      bound_slices codec g' = bound_slices codec g ++ (groups ≫= group_slices) /\
      sg_slice_data_bound_count g' = sg_slice_count g'
  end.
Proof.
  intros Hty Hg Hb Hw. revert g Hg Hb. induction Hw as [|group groups [Hw1 Hw2] Hw IH]; intros g Hg Hb.
  { cbn. by rewrite app_nil_r. }
  unfold stage_groups. cbn [foldl mbind option_bind].
  pose proof (stage_group_exact g group Hty Hg Hb Hw1 Hw2) as H.
  destruct (stage_group g group) as [g1|].
  2:{ rewrite stage_groups_none. cbn [groups_fit]. tauto. }
  destruct H as (Hf & Hok & Hs & Hc & Hb1 & Hz). specialize (IH g1 Hok Hb1).
  unfold stage_groups in IH. rewrite Hc, Hz in IH.
  destruct (foldl _ _ _) as [g2|]; cbn [groups_fit]; [|tauto].
  destruct IH as (IH1 & IH2 & IH3 & IH4). split_and!; try done. rewrite IH3, Hs. cbn. by rewrite app_assoc.
Qed.

End Staging.

(** The range check on a bound slice passes. *)
Lemma slice_in_range codec g span : staging_ok codec g ->
  sg_slice_data_bound_count g = sg_slice_count g -> span ∈ slice_spans codec g ->
  (sg_slice_data_size g <? fst span) = false /\ (sg_slice_data_size g - fst span <? snd span) = false.
Proof.
  intros Hg Hb Hs. pose proof (so_inside _ _ Hg) as Hi. pose proof (so_count _ _ Hg) as Hc. unfold zlen in Hc.
  rewrite take_ge in Hi by lia. rewrite Forall_forall in Hi. destruct (Hi _ Hs). lia.
Qed.

(** ** The builders' input *)

Lemma slice_range_cut codec g o n : staging_ok codec g -> sg_slice_data_bound_count g = sg_slice_count g ->
  (o, n) ∈ slice_spans codec g ->
  slice_range g VA_SLICE_DATA_FLAG_ALL o n = Some (cut (default [] (sg_slice_data g)) (o, n)).
Proof.
  intros Hg Hb Hs. destruct (slice_in_range _ _ _ Hg Hb Hs) as [H1 H2]. cbn in H1, H2.
  unfold slice_range. by rewrite H1, H2, Z.eqb_refl.
Qed.

Lemma mapM_fmap {A C} (f : A -> option C) (l : list A) (bytes : C -> list Z) (h : A -> list Z) :
  (forall x, x ∈ l -> exists y, f x = Some y /\ bytes y = h x) ->
  exists l', mapM f l = Some l' /\ bytes <$> l' = h <$> l.
Proof.
  induction l as [|x l IH]; intros H; [by exists []|].
  destruct (H x) as (y & Hy & Hb); [set_solver|]. destruct IH as (l' & Hl & Hl'); [set_solver|].
  exists (y :: l'). cbn. rewrite Hy. cbn. rewrite Hl. cbn. by rewrite Hb, Hl'.
Qed.

Lemma bound_all codec g : staging_ok codec g -> sg_slice_data_bound_count g = sg_slice_count g ->
  bound_slices codec g = cut (default [] (sg_slice_data g)) <$> slice_spans codec g.
Proof.
  intros Hg Hb. unfold bound_slices. pose proof (so_count _ _ Hg) as Hc. unfold zlen in Hc.
  by rewrite take_ge by lia.
Qed.

Lemma h264_inputs_bound g : staging_ok DECODE_CODEC_H264 g ->
  sg_slice_data_bound_count g = sg_slice_count g ->
  Forall (fun p => hs4_slice_data_flag p = VA_SLICE_DATA_FLAG_ALL) (sg_slice_parameters g) ->
  exists inputs, h264_inputs g = Some inputs /\ slice_bytes <$> inputs = bound_slices DECODE_CODEC_H264 g.
Proof.
  intros Hg Hb Hf. unfold h264_inputs. rewrite bound_all by done. pose proof (so_count _ _ Hg) as Hc.
  unfold slice_spans, zlen in Hc |- *. rewrite length_fmap in Hc. rewrite take_ge by lia.
  rewrite <- list_fmap_compose. apply mapM_fmap. intros p Hp. rewrite Forall_forall in Hf. rewrite (Hf p Hp).
  rewrite (slice_range_cut DECODE_CODEC_H264) by (done || (apply list_elem_of_fmap; eauto)).
  cbn. eexists. split; [done|]. done.
Qed.

Lemma hevc_inputs_bound g : staging_ok DECODE_CODEC_HEVC g ->
  sg_slice_data_bound_count g = sg_slice_count g ->
  Forall (fun p => hs5_slice_data_flag p = VA_SLICE_DATA_FLAG_ALL) (sg_hevc_slice_parameters g) ->
  exists inputs, hevc_inputs g = Some inputs /\ hevc_bytes <$> inputs = bound_slices DECODE_CODEC_HEVC g.
Proof.
  intros Hg Hb Hf. unfold hevc_inputs. rewrite bound_all by done. pose proof (so_count _ _ Hg) as Hc.
  unfold slice_spans, zlen in Hc |- *. rewrite length_fmap in Hc. rewrite take_ge by lia.
  rewrite <- list_fmap_compose. apply mapM_fmap. intros p Hp. rewrite Forall_forall in Hf. rewrite (Hf p Hp).
  rewrite (slice_range_cut DECODE_CODEC_HEVC) by (done || (apply list_elem_of_fmap; eauto)).
  cbn. eexists. split; [done|]. done.
Qed.

Lemma reset_ok codec : staging_ok codec reset_staging.
Proof.
  assert (slice_spans codec reset_staging = []) as H by (by destruct codec).
  split; rewrite ?H; cbn; done || lia.
Qed.

(** C23. The decoder receives exactly the slices the application bound.  Rendering
    groups of slice parameters, each followed by its data, into a fresh picture is
    accepted exactly when every group has the codec's structure size, the slices
    and the bytes stay within their limits and every slice is non-empty and inside
    the data of its own group.  Then every slice is bound and inside the joined
    data, and the slices the H.264 and the HEVC builder receive are those of the
    groups in order, each one cut out of its own group's data at its own offset:
    joining the data and rebasing the offsets moves no byte of a slice. *)
Theorem staged_slices_exact (abi : va_abi) (codec : decode_codec) (groups : list (buffer * buffer))
    (Ht : spans_typed abi codec)
    (Hw : Forall (fun gr => buffer_wf (fst gr) /\ buffer_wf (snd gr)) groups) :
  match stage_groups abi codec reset_staging groups with
  | None => ~ groups_fit abi codec 0 0 groups
  | Some g =>
      groups_fit abi codec 0 0 groups /\ staging_ok codec g /\
      sg_slice_data_bound_count g = sg_slice_count g /\
      bound_slices codec g = groups ≫= group_slices abi codec /\
      (codec = DECODE_CODEC_H264 ->
       Forall (fun p => hs4_slice_data_flag p = VA_SLICE_DATA_FLAG_ALL) (sg_slice_parameters g) ->
       exists inputs, h264_inputs g = Some inputs /\
         slice_bytes <$> inputs = groups ≫= group_slices abi codec) /\
      (codec = DECODE_CODEC_HEVC ->
       Forall (fun p => hs5_slice_data_flag p = VA_SLICE_DATA_FLAG_ALL) (sg_hevc_slice_parameters g) ->
       exists inputs, hevc_inputs g = Some inputs /\
         hevc_bytes <$> inputs = groups ≫= group_slices abi codec)
  end.
Proof.
  pose proof (stage_groups_exact abi codec reset_staging groups Ht (reset_ok codec) eq_refl Hw) as H.
  destruct (stage_groups _ _ _ _) as [g|]; [|exact H]. destruct H as (H1 & H2 & H3 & H4).
  assert (bound_slices codec g = groups ≫= group_slices abi codec) as Hs by (rewrite H3; by destruct codec).
  split_and!; try done.
  - intros -> Hf. rewrite <- Hs. by apply h264_inputs_bound.
  - intros -> Hf. rewrite <- Hs. by apply hevc_inputs_bound.
Qed.

(** Two groups, structures of one byte for the size and one for the offset. *)
Definition byte_abi : va_abi :=
  VaAbi 1 1 2 1 1 2 1 2 (fun _ => zero_h264_picture)
    (fun raw => H264Slice (byte_at raw 0) (byte_at raw 1) 0 0 0 0 0) (fun _ => zero_hevc_picture)
    (fun raw => HevcSliceParam (byte_at raw 0) (byte_at raw 1) 0 0 0) (fun _ => zero_vp9_picture)
    (fun raw => Vp9Slice (byte_at raw 0) (byte_at raw 1) 0).
Definition group_of (params data : list Z) : buffer * buffer :=
  (Buffer true 1 VASliceParameterBufferType 2 (zlen params / 2) (zlen params / 2) params false,
   Buffer true 1 VASliceDataBufferType 1 (zlen data) (zlen data) data false).
Definition two_groups : list (buffer * buffer) :=
  [group_of [2; 1] [10; 11; 12]; group_of [1; 0; 2; 1] [20; 21; 22]].

Lemma staged_slices_exact_witness :
  (two_groups ≫= group_slices byte_abi DECODE_CODEC_H264) = [[11; 12]; [20]; [21; 22]] /\
  exists g, stage_groups byte_abi DECODE_CODEC_H264 reset_staging two_groups = Some g /\
    sg_slice_data g = Some [10; 11; 12; 20; 21; 22] /\
    bound_slices DECODE_CODEC_H264 g = [[11; 12]; [20]; [21; 22]].
Proof.
  split; [vm_compute; reflexivity|]. eexists. split; [vm_compute; reflexivity|]. split; [reflexivity|].
  pose proof (staged_slices_exact byte_abi DECODE_CODEC_H264 two_groups) as H.
  assert (spans_typed byte_abi DECODE_CODEC_H264) as Ht.
  { intros raw. split; cbn; pose proof (byte_at_range raw 0); pose proof (byte_at_range raw 1);
      unfold is_u8, is_u32 in *; lia. }
  assert (Forall (fun gr => buffer_wf (fst gr) /\ buffer_wf (snd gr)) two_groups) as Hw.
  { repeat (apply Forall_cons; split); try apply Forall_nil; try done;
      (split; constructor; vm_compute; try split; congruence || reflexivity). }
  specialize (H Ht Hw). destruct (stage_groups _ _ _ _) as [g|] eqn:E in H; [|vm_compute in E; discriminate].
  destruct H as (_ & _ & _ & Hs & _). vm_compute in E. injection E as <-. exact Hs.
Defined.
