(* ===== verification/DecodeOwn.v ===== *)
(** * Which descriptors the decode runtime owns

    A live context owns its broker socket, a live surface the files of its buffer
    and its acquire fence.  [wown t l w]: the descriptor table of the process is
    [t] with exactly the runtime's descriptors and the ones in [l] opened on top.
    A call that leaves the tables alone is described by the triple [hands] of
    ClientSafe.v, lifted to the world ([handsw]). *)

From stdpp Require Import base list gmap.
From Stdlib Require Import ZArith Lia Bool.
From S2P Require Import Prelude Kernel Protocol Dmabuf Engine EngineFiles EngineInv EngineSafe Broker BrokerLive Client ClientSafe ClientConnect World Va VaapiRoutes VaapiPolicy DecodeEos AnnexB Hevc Vp9 DecodeState DecodeStaging DecodeOutput.

(** ** Owned descriptors *)

Definition surface_fds (s : surface) : list Z :=
  if sf_used s then opt_fd (sf_acquire_fence_fd s) ++ descriptor_owned (sf_prime s) else [].
Definition context_fds (c : context) : list Z := if cx_used c then [cx_broker_fd c] else [].
Definition owned (r : runtime) : list Z :=
  (rt_contexts r ≫= context_fds) ++ (rt_surfaces r ≫= surface_fds).

(** A surface that is not ready has no fence, and no files unless its buffer is
    reserved. *)
Record surface_ok (s : surface) : Prop := {
  sk_typed : descriptor_typed (sf_prime s);
  sk_fence : sf_state s <> SURFACE_READY -> sf_acquire_fence_fd s < 0;
  sk_empty : sf_state s <> SURFACE_READY -> sf_prime_reserved s = false ->
             descriptor_owned (sf_prime s) = [] }.

Record tables_ok (r : runtime) : Prop := {
  tk_contexts : length (rt_contexts r) = 4%nat;
  tk_surfaces : length (rt_surfaces r) = 64%nat;
  tk_surface : Forall (fun s => sf_used s = true -> surface_ok s) (rt_surfaces r);
  tk_socket : Forall (fun c => cx_used c = true -> 0 <= cx_broker_fd c) (rt_contexts r) }.

Notation wown := (owns tables_ok owned).

Lemma surface_lookup r s : tables_ok r -> (s < 64)%nat -> rt_surfaces r !! s = Some (surface_at r s).
Proof.
  intros Hr Hs. unfold surface_at. destruct (rt_surfaces r !! s) eqn:E; [done|].
  apply lookup_ge_None in E. rewrite (tk_surfaces _ Hr) in E. lia.
Qed.
Lemma context_lookup r i : tables_ok r -> (i < 4)%nat -> rt_contexts r !! i = Some (context_at r i).
Proof.
  intros Hr Hi. unfold context_at. destruct (rt_contexts r !! i) eqn:E; [done|].
  apply lookup_ge_None in E. rewrite (tk_contexts _ Hr) in E. lia.
Qed.

Lemma surface_at_ok r s : tables_ok r -> sf_used (surface_at r s) = true -> surface_ok (surface_at r s).
Proof.
  intros Hr Hu. unfold surface_at in *. destruct (rt_surfaces r !! s) as [x|] eqn:E; [|done].
  by apply (Forall_lookup_1 _ _ _ _ (tk_surface _ Hr) E).
Qed.

Lemma used_index r s : tables_ok r -> sf_used (surface_at r s) = true -> (s < 64)%nat.
Proof.
  intros Hr Hu. unfold surface_at in Hu. destruct (rt_surfaces r !! s) as [x|] eqn:E; [|done].
  apply lookup_lt_Some in E. rewrite (tk_surfaces _ Hr) in E. lia.
Qed.
Lemma used_context r i : tables_ok r -> cx_used (context_at r i) = true -> (i < 4)%nat.
Proof.
  intros Hr Hu. unfold context_at in Hu. destruct (rt_contexts r !! i) as [x|] eqn:E; [|done].
  apply lookup_lt_Some in E. rewrite (tk_contexts _ Hr) in E. lia.
Qed.
Lemma used_socket r i : tables_ok r -> cx_used (context_at r i) = true -> 0 <= cx_broker_fd (context_at r i).
Proof.
  intros Hr Hu. pose proof (used_context _ _ Hr Hu) as Hi.
  by apply (Forall_lookup_1 _ _ _ _ (tk_socket _ Hr) (context_lookup _ _ Hr Hi)).
Qed.

Lemma owned_surface r s f : tables_ok r -> (s < 64)%nat ->
  owned (on_surface s f r) ++ surface_fds (surface_at r s) ≡ₚ owned r ++ surface_fds (f (surface_at r s)).
Proof.
  intros Hr Hs. unfold owned. cbn. pose proof (surface_lookup _ _ Hr Hs) as Hl.
  rewrite <- !app_assoc. f_equiv. by apply bind_alter.
Qed.
Lemma owned_context r i f : tables_ok r -> (i < 4)%nat ->
  owned (on_context i f r) ++ context_fds (context_at r i) ≡ₚ owned r ++ context_fds (f (context_at r i)).
Proof.
  intros Hr Hi. unfold owned. cbn. pose proof (context_lookup _ _ Hr Hi) as Hl.
  pose proof (bind_alter context_fds f _ _ _ Hl) as Hp. clear Hl.
  revert Hp. generalize (alter f i (rt_contexts r) ≫= context_fds), (rt_surfaces r ≫= surface_fds).
  intros A S Hp. transitivity (S ++ (A ++ context_fds (context_at r i))); [solve_Permutation|].
  rewrite Hp. solve_Permutation.
Qed.

(** A member assignment that leaves the descriptors alone. *)
Lemma owned_context_same r i f : (forall c, context_fds (f c) = context_fds c) -> owned (on_context i f r) = owned r.
Proof. intros Hf. unfold owned. cbn. f_equal. by apply bind_alter_same. Qed.

Lemma surface_at_same r s f : tables_ok r -> (s < 64)%nat ->
  surface_at (on_surface s f r) s = f (surface_at r s).
Proof.
  intros Hr Hs. unfold surface_at at 1. cbn. rewrite list_lookup_alter_eq.
  by rewrite (surface_lookup _ _ Hr Hs).
Qed.
Lemma surface_at_other r s k f : k <> s -> surface_at (on_surface s f r) k = surface_at r k.
Proof. intros H. unfold surface_at. cbn. by rewrite list_lookup_alter_ne. Qed.
Lemma context_at_same r i f : tables_ok r -> (i < 4)%nat ->
  context_at (on_context i f r) i = f (context_at r i).
Proof.
  intros Hr Hs. unfold context_at at 1. cbn. rewrite list_lookup_alter_eq.
  by rewrite (context_lookup _ _ Hr Hs).
Qed.
Lemma context_at_other r i k f : k <> i -> context_at (on_context i f r) k = context_at r k.
Proof. intros H. unfold context_at. cbn. by rewrite list_lookup_alter_ne. Qed.

Lemma tables_ok_surface r s f : tables_ok r ->
  (sf_used (f (surface_at r s)) = true -> surface_ok (f (surface_at r s))) ->
  tables_ok (on_surface s f r).
Proof.
  intros [T1 T2 T3 T4] H1. split; cbn; try done.
  - by rewrite length_alter.
  - apply Forall_alter; [done|]. intros x Hx _ Hu. unfold surface_at in *. rewrite Hx in *. cbn in *.
    auto.
Qed.
Lemma tables_ok_context r i f : tables_ok r ->
  ((i < 4)%nat -> cx_used (f (context_at r i)) = true -> 0 <= cx_broker_fd (f (context_at r i))) ->
  tables_ok (on_context i f r).
Proof.
  intros [T1 T2 T3 T4] H1. split; cbn; try done.
  - by rewrite length_alter.
  - apply Forall_alter; [done|]. intros x Hx _ Hu. unfold context_at in *. rewrite Hx in *. cbn in *.
    apply lookup_lt_Some in Hx. apply H1; [lia|done].
Qed.

(** ** Steps of an operation *)

Lemma owned_surface_perm r s f l l' : tables_ok r -> (s < 64)%nat ->
  surface_fds (surface_at r s) ++ l ≡ₚ surface_fds (f (surface_at r s)) ++ l' ->
  owned r ++ l ≡ₚ owned (on_surface s f r) ++ l'.
Proof.
  intros Hr Hs Hl. pose proof (owned_surface r s f Hr Hs) as Hp.
  apply (Permutation_app_inv_l (surface_fds (surface_at r s))).
  transitivity (owned r ++ (surface_fds (surface_at r s) ++ l)); [solve_Permutation|]. rewrite Hl.
  transitivity ((owned r ++ surface_fds (f (surface_at r s))) ++ l'); [solve_Permutation|].
  rewrite <- Hp. solve_Permutation.
Qed.
Lemma owned_context_perm r i f l l' : tables_ok r -> (i < 4)%nat ->
  context_fds (context_at r i) ++ l ≡ₚ context_fds (f (context_at r i)) ++ l' ->
  owned r ++ l ≡ₚ owned (on_context i f r) ++ l'.
Proof.
  intros Hr Hs Hl. pose proof (owned_context r i f Hr Hs) as Hp.
  apply (Permutation_app_inv_l (context_fds (context_at r i))).
  transitivity (owned r ++ (context_fds (context_at r i) ++ l)); [solve_Permutation|]. rewrite Hl.
  transitivity ((owned r ++ context_fds (f (context_at r i))) ++ l'); [solve_Permutation|].
  rewrite <- Hp. solve_Permutation.
Qed.

(** ** Releasing a surface *)

(** The surface after its output is released. *)
Definition released (s : surface) : surface :=
  Surface (sf_used s) (sf_width s) (sf_height s) SURFACE_IDLE 0 0 0 0 false blank_descriptor (-1).

Lemma released_fds s : surface_fds (released s) = [].
Proof. unfold surface_fds, released. cbn. by destruct (sf_used s). Qed.
Lemma released_ok s : surface_ok (released s).
Proof. split; [apply blank_typed|done|done]. Qed.

Lemma on_surface_twice s f g r : on_surface s f (on_surface s g r) = on_surface s (fun x => f (g x)) r.
Proof.
  destruct r. unfold on_surface, set_surfaces. cbn. f_equal. by rewrite list_alter_alter_eq.
Qed.

Lemma handsw_release_output fd sid id :
  handsw (R := runtime) [] (on_socket fd (fun p => advc_client_release_output p sid id) ;; mret tt)
    (fun _ => []) (fun _ => True).
Proof.
  eapply handsw_bind; [apply handsw_socket; intros p; apply hands_release_fenced|].
  intros a _. by apply handsw_ret.
Qed.

Lemma handsw_release_to_broker r x : handsw [] (release_to_broker r x) (fun _ => []) (fun _ => True).
Proof.
  unfold release_to_broker. destruct (_ && _); [|by apply handsw_ret].
  destruct (id_index _ _ _) as [i|]; [|by apply handsw_ret]. cbn zeta.
  destruct (_ && _); [apply handsw_release_output|by apply handsw_ret].
Qed.

(** The runtime is where [f] puts it and the rest of the world is [w1]'s. *)
Lemma release_spec t l s w : wown t l w -> sf_used (surface_at (w_rt w) s) = true ->
  wp (release_surface_output s) (fun _ w' =>
    w_rt w' = on_surface s released (w_rt w) /\ wown t l w') w.
Proof.
  intros Hw Hu. pose proof Hw as (_ & Hok & _). pose proof (used_index _ _ Hok Hu) as Hs.
  pose proof (surface_at_ok _ _ Hok Hu) as [Hty _ _].
  unfold release_surface_output. apply wp_bind, wp_gets, wp_bind.
  eapply wp_call; [apply handsw_release_to_broker|rewrite app_nil_r; exact Hw|].
  intros a w1 Hr1 Hw1 _. rewrite app_nil_r in Hw1. apply wp_bind, wp_modify, wp_bind.
  unfold close_prime. apply wp_bind, wp_gets. cbn [w_rt set_rt]. rewrite Hr1.
  set (r := w_rt w) in *. set (x := surface_at r s) in *. rewrite surface_at_same by done. fold x.
  cbn [sf_acquire_fence_fd sf_prime set_submission set_holding].
  destruct Hw1 as (Hc1 & _ & Hi1). rewrite Hr1 in Hi1.
  set (r1 := on_surface s _ r). set (w2 := set_rt r1 w1).
  assert (owned r ++ l ≡ₚ (owned (on_surface s released r) ++ l) ++ descriptor_owned (sf_prime x) ++
    opt_fd (sf_acquire_fence_fd x)) as Hp.
  { rewrite <- app_assoc. apply owned_surface_perm; [done|done|]. fold x. rewrite released_fds.
    unfold surface_fds. rewrite Hu. solve_Permutation. }
  assert (holds t w2 ((owned (on_surface s released r) ++ l) ++ descriptor_owned (sf_prime x) ++
    opt_fd (sf_acquire_fence_fd x))) as Hi2 by (by eapply holds_Permutation).
  rewrite app_assoc in Hi2. apply wp_bind.
  eapply wp_handsw; [apply handsw_kernel, hands_close_if|exact Hc1|exact Hi2|].
  intros a3 w3 Hc3 Hr3 Hi3 _. rewrite app_nil_r in Hi3. apply wp_bind.
  eapply wp_handsw; [apply handsw_kernel, hands_descriptor_close, Hty|exact Hc3|exact Hi3|].
  intros d w4 Hc4 Hr4 Hi4 ->. rewrite app_nil_r in Hi4. apply wp_modify, wp_modify.
  cbn [w_rt set_rt]. rewrite Hr4, Hr3. cbn [w_rt set_rt]. unfold r1. rewrite !on_surface_twice.
  split; [done|]. split_and!; [done| |exact Hi4]. apply tables_ok_surface; [done|]. intros _. apply released_ok.
Qed.
