(* ===== verification/DecodeDrain.v ===== *)
(** * Draining decoded output

    Serving a context's connection changes nothing but the surfaces that wait for
    it: a pending surface becomes ready or failed ([served]).  Every descriptor
    that arrives with an output ends up in the surface or is closed, on every
    path of the conversion and of the end-of-stream machine. *)

From stdpp Require Import base list gmap.
From Stdlib Require Import ZArith Lia Bool.
From S2P Require Import Prelude Kernel Protocol Dmabuf Engine EngineFiles EngineInv EngineSafe Broker BrokerLive Client ClientSafe ClientConnect World Va VaapiRoutes VaapiPolicy DecodeEos AnnexB Hevc Vp9 DecodeState DecodeStaging DecodeOutput DecodeOwn.

(** ** What draining may change *)

(** The members of a surface that identify it. *)
Definition same_surface (x y : surface) : Prop :=
  sf_used y = sf_used x /\ sf_width y = sf_width x /\ sf_height y = sf_height x /\
  sf_pts_ns y = sf_pts_ns x /\ sf_owner_context y = sf_owner_context x /\
  sf_owner_session y = sf_owner_session x.

Record settles (x y : surface) : Prop := {
  se_used : sf_used x = true;
  se_pending : sf_state x = SURFACE_PENDING;
  se_same : same_surface x y;
  se_state : sf_state y <> SURFACE_IDLE }.

(** A context is the same up to its end-of-stream state. *)
Definition same_context (c c' : context) : Prop :=
  set_eos advc_vaapi_decode_eos_state_init c' = set_eos advc_vaapi_decode_eos_state_init c.

Record served (r r' : runtime) : Prop := {
  sv_configs : rt_configs r' = rt_configs r;
  sv_buffers : rt_buffers r' = rt_buffers r;
  sv_pts : rt_next_pts_ns r' = rt_next_pts_ns r;
  sv_ncontexts : length (rt_contexts r') = length (rt_contexts r);
  sv_nsurfaces : length (rt_surfaces r') = length (rt_surfaces r);
  sv_context : forall i, same_context (context_at r i) (context_at r' i);
  sv_surface : forall s, surface_at r' s = surface_at r s \/
                 settles (surface_at r s) (surface_at r' s) }.

#[export] Instance served_preorder : PreOrder served.
Proof.
  split.
  - intros r. split; try done. by left.
  - intros a b c [A1 A2 A3 A4 A5 A6 A7] [B1 B2 B3 B4 B5 B6 B7]. split; try congruence.
    intros s. destruct (B7 s) as [-> | HB]; [apply A7|].
    destruct (A7 s) as [E|HA]; [right; by rewrite <- E|right]. destruct HA as [? ? HA ?], HB as [? ? HB ?].
    split; try done. unfold same_surface in *. intuition congruence.
Qed.

Lemma served_surface r s f : tables_ok r -> settles (surface_at r s) (f (surface_at r s)) ->
  served r (on_surface s f r).
Proof.
  intros Hr Hf. split; try done.
  - cbn. by rewrite length_alter.
  - intros k. destruct (decide (k = s)) as [->|Hk]; [|left; by apply surface_at_other].
    right. rewrite surface_at_same; [done|done|]. eapply used_index; [done|apply Hf].
Qed.

Lemma served_context r i f : (forall c, same_context c (f c)) -> served r (on_context i f r).
Proof.
  intros Hf. split; try done.
  - cbn. by rewrite length_alter.
  - intros k. unfold context_at. cbn. destruct (decide (k = i)) as [->|Hk].
    + rewrite list_lookup_alter_eq. destruct (rt_contexts r !! i); [apply Hf|done].
    + by rewrite list_lookup_alter_ne.
  - by left.
Qed.

(** ** The optional parts of the driver *)

Definition hook_fds (x : Z * advc_dmabuf_descriptor * Z * Z) : list Z :=
  let '(_, converted, converted_fence, source_release_fence) := x in
  descriptor_owned converted ++ opt_fd converted_fence ++ opt_fd source_release_fence.
Definition hook_descriptor (x : Z * advc_dmabuf_descriptor * Z * Z) : advc_dmabuf_descriptor :=
  let '(_, converted, _, _) := x in converted.

(** A conversion hook hands over what it returns, whatever its result. *)
Definition hook_ok (h : linear_hook) : Prop :=
  forall source fence, hands [] (h source fence) hook_fds (fun x => descriptor_typed (hook_descriptor x)).

(** A driver whose hooks keep their contract, in a process without the socket pool
    of the Firefox adapter. *)
Class DriverOk (dr : driver) : Prop := {
  dk_hooks : hooks_ok dr_hooks;
  dk_recycle : dr_recycle = None;
  dk_gpu : forall h, dr_gpu_repack = Some h -> hook_ok h;
  dk_cpu : forall h, dr_cpu_copy = Some h -> hook_ok h }.

Lemma zero_typed : descriptor_typed zero_descriptor.
Proof.
  repeat split; try (by unfold is_u64, is_u32; cbn; lia); cbn;
    repeat (apply Forall_cons; split; [by unfold is_u64, is_u32; cbn; lia|]); done.
Qed.

Definition out_fds (o : advc_client_output) : list Z :=
  opt_fd (cout_data_fd o) ++ opt_fd (cout_acquire_fence_fd o).

(** *** The end-of-stream machine only calls its adapter *)

Section Adapter.
Context {W : Type} (I : W -> Prop) (ops : decode_eos_ops W).
Context (Hsignal : forall w, I w -> I (snd (try_signal ops w))).
Context (Hdequeue : forall o w, I w -> I (snd (try_dequeue ops o w))).
Context (Hframe : forall o w, I w -> I (snd (handle_frame ops o w))).
Context (Hrelease : forall o w, I w -> I (snd (DecodeEos.release_output ops o w))).
Context (Hmark : forall w, I w -> I (mark_remaining_pending_failed ops w)).

Lemma discard_keeps state o status a b c w : I w -> I (snd (discard_and_fail state ops o status a b c w)).
Proof. intros Hw. unfold discard_and_fail, fail_state. cbn. destruct (negb _); auto. Qed.

Lemma control_keeps state o status a b c w : I w -> I (snd (control_output state ops o status a b c w)).
Proof.
  intros Hw. unfold control_output. destruct (negb _); [by apply discard_keeps|].
  pose proof (Hrelease o w Hw) as H. destruct (DecodeEos.release_output ops o w) as [r w1]. cbn [snd] in H.
  destruct (negb (r =? IO_OK)); [done|]. cbn zeta. destruct (negb _); [done|]. unfold finish, report. cbn. auto.
Qed.

Lemma loop_keeps room state status a b c w : I w -> I (snd (progress_loop ops room state status a b c w)).
Proof.
  revert state a b c w. induction room as [|room IH]; intros state a b c w Hw; cbn [progress_loop]; [done|].
  pose proof (Hdequeue zero_output w Hw) as H. destruct (try_dequeue ops zero_output w) as [[io o] w1]. cbn [snd] in H.
  destruct (io =? IO_RETRY); [done|]. destruct (io =? IO_OUTPUT_WINDOW_FULL); [done|]. destruct (negb _); [done|].
  cbn zeta. destruct (eo_buffer_id o =? 0); [done|].
  destruct (eo_kind o =? OUTPUT_CONTROL); [by apply control_keeps|].
  destruct (negb (eo_kind o =? OUTPUT_FRAME)); [by apply discard_keeps|].
  destruct (_ && _); [by apply discard_keeps|].
  pose proof (Hframe o w1 H) as H2. destruct (handle_frame ops o w1) as [r w2]. cbn [snd] in H2.
  destruct (negb (r =? IO_OK)); [by apply discard_keeps|].
  destruct (negb _); [|by apply IH]. unfold finish, report. cbn. auto.
Qed.

Lemma on_state_world (x : outcome W decode_eos_state) : snd (on_state x) = snd x.
Proof. by destruct x as [[[? ?] ?] ?]. Qed.

Lemma progress_keeps state n status w : I w ->
  I (snd (advc_vaapi_decode_eos_state_progress state (Some ops) n status w)).
Proof.
  intros Hw. unfold advc_vaapi_decode_eos_state_progress. destruct state as [state|]; [|done].
  destruct (_ || _); [done|]. rewrite on_state_world. unfold progress_body.
  repeat match goal with |- context [if ?b then _ else _] => destruct b; [done|] end. by apply loop_keeps.
Qed.

Lemma signal_keeps state status w : I w ->
  I (snd (advc_vaapi_decode_eos_state_signal state (Some ops) status w)).
Proof.
  intros Hw. unfold advc_vaapi_decode_eos_state_signal. destruct state as [state|]; [|done].
  destruct (_ || _); [done|]. rewrite on_state_world. unfold signal_body.
  repeat match goal with |- context [if ?b then report _ _ _ _ _ _ _ _ else _] => destruct b; [done|] end.
  cbn zeta. pose proof (Hsignal w Hw) as H. destruct (try_signal ops w) as [io w1]. cbn [snd] in H.
  destruct (io =? IO_OK); [done|]. by destruct (_ || _).
Qed.
End Adapter.

Section Drain.
Context {dr : driver} {Hdr : DriverOk dr}.

Lemma handsw_convert_source route source fence :
  handsw [] (convert_source route source fence) hook_fds (fun x => descriptor_typed (hook_descriptor x)).
Proof.
  assert (handsw (R := runtime) [] (kernel (errno_is ENOTSUP) ;; mret (-1, zero_descriptor, -1, -1)) hook_fds
    (fun x => descriptor_typed (hook_descriptor x))) as Hu.
  { eapply handsw_bind; [apply handsw_inert; auto with inert|]. intros a _. apply handsw_ret; [done|apply zero_typed]. }
  unfold convert_source. cbn zeta. destruct route; try exact Hu.
  - destruct dr_gpu_repack as [h|] eqn:E; [|exact Hu]. apply handsw_kernel. by apply dk_gpu.
  - destruct dr_cpu_copy as [h|] eqn:E; [|exact Hu]. apply handsw_kernel. by apply dk_cpu.
Qed.

Lemma handsw_conversion_released i o rc d fence :
  handsw [] (conversion_released i o rc d fence) (fun _ => []) (fun _ => True).
Proof.
  unfold conversion_released. eapply handsw_bind; [apply handsw_gets|]. intros r _. cbn zeta.
  destruct (_ || _); [by apply handsw_ret|].
  eapply handsw_bind; [apply handsw_inert; auto with inert|]. intros v _. destruct (negb _); [by apply handsw_ret|].
  eapply handsw_bind; [apply handsw_socket; intros p; apply hands_release_fenced|].
  intros [st o'] _. by apply handsw_ret.
Qed.

Lemma handsw_drop_conversion {A} source converted cfence rfence (a : A) :
  descriptor_typed source -> descriptor_typed converted ->
  handsw (R := runtime) (opt_fd rfence ++ opt_fd cfence ++ descriptor_owned source ++ descriptor_owned converted)
    (kernel (close_if_open rfence) ;; kernel (close_if_open cfence) ;;
     kernel (advc_dmabuf_descriptor_close source) ;; kernel (advc_dmabuf_descriptor_close converted) ;;
     mret a) (fun _ => []) (fun x => x = a).
Proof.
  intros Hs Hc. eapply handsw_close_then; [apply hands_close_if|].
  eapply handsw_close_then; [apply hands_close_if|].
  eapply handsw_close_then; [by apply hands_descriptor_close|].
  rewrite <- (app_nil_r (descriptor_owned converted)).
  eapply handsw_close_then; [by apply hands_descriptor_close|by apply handsw_ret].
Qed.

(** ** The conversion *)

(** The surface is ready, or nothing changed. *)
Definition converted_ok (t : ledger) (l : list Z) (r : runtime) (s : nat)
    (x : Z * advc_client_output) (w' : world) : Prop :=
  wown t (l ++ out_fds (snd x)) w' /\ served r (w_rt w') /\
  ((fst x = 0 /\ exists f, w_rt w' = on_surface s f r /\ sf_state (f (surface_at r s)) = SURFACE_READY) \/
   (fst x = -1 /\ w_rt w' = r)).

Lemma converted_refused t l s o w : wown t (l ++ out_fds o) w -> converted_ok t l (w_rt w) s (-1, o) w.
Proof. intros Hw. split_and!; [done|reflexivity|by right]. Qed.

Lemma take_fence_fds o : out_fds o ≡ₚ out_fds (take_fence o) ++ opt_fd (cout_acquire_fence_fd o).
Proof. unfold out_fds, take_fence. cbn. by rewrite app_nil_r. Qed.

(** A pending surface takes a buffer and a fence. *)
Lemma take_output t l s w extra f o :
  wown t (l ++ extra) w -> settles (surface_at (w_rt w) s) (f (surface_at (w_rt w) s)) ->
  surface_ok (f (surface_at (w_rt w) s)) -> sf_state (f (surface_at (w_rt w) s)) = SURFACE_READY ->
  surface_fds (surface_at (w_rt w) s) ++ extra ≡ₚ surface_fds (f (surface_at (w_rt w) s)) ++ out_fds o ->
  converted_ok t l (w_rt w) s (0, o) (set_rt (on_surface s f (w_rt w)) w).
Proof.
  intros Hw Hse Hsk Hrd Hperm. pose proof Hw as (_ & Hok & _). pose proof (used_index _ _ Hok (se_used _ _ Hse)) as Hs.
  split_and!; [| |left; split; [done|by eexists]].
  - destruct Hw as (H1 & H2 & H3). split_and!; [done| |].
    + by apply tables_ok_surface.
    + eapply holds_Permutation; [|exact H3]. cbn [w_rt set_rt snd].
      apply (owned_surface_perm _ _ _ _ _ Hok Hs).
      transitivity (l ++ (surface_fds (surface_at (w_rt w) s) ++ extra)); [solve_Permutation|]. rewrite Hperm.
      solve_Permutation.
  - cbn. by apply served_surface.
Qed.

Lemma pending_settles x y : sf_used x = true -> sf_state x = SURFACE_PENDING -> same_surface x y ->
  sf_state y <> SURFACE_IDLE -> settles x y.
Proof. by split. Qed.

Lemma pending_fds x : sf_used x = true -> sf_state x = SURFACE_PENDING -> surface_ok x ->
  surface_fds x = (if sf_prime_reserved x then descriptor_owned (sf_prime x) else []).
Proof.
  intros Hu Hp [_ Hf He]. unfold surface_fds. rewrite Hu.
  assert (sf_state x <> SURFACE_READY) as Hn by (by rewrite Hp).
  rewrite opt_fd_neg by auto. destruct (sf_prime_reserved x); [done|]. by rewrite He.
Qed.

Lemma convert_reserved_spec t l s o w :
  wown t (l ++ out_fds o) w -> sf_used (surface_at (w_rt w) s) = true ->
  sf_state (surface_at (w_rt w) s) = SURFACE_PENDING -> sf_prime_reserved (surface_at (w_rt w) s) = true ->
  wp (convert_reserved s o) (converted_ok t l (w_rt w) s) w.
Proof.
  intros Hw Hu Hp Hres. pose proof Hw as (_ & Hok & _). pose proof (surface_at_ok _ _ Hok Hu) as Hsk.
  unfold convert_reserved. apply wp_bind, wp_gets. cbn zeta.
  destruct (_ || _); [by apply converted_refused|]. apply wp_bind.
  eapply wp_call; [apply (handsw_inert []); auto with inert|rewrite app_nil_r; exact Hw|].
  intros v w1 Hr1 Hw1 _. rewrite app_nil_r in Hw1. rewrite <- Hr1 in *.
  destruct (v <? 0); [by apply converted_refused|]. apply wp_bind, wp_modify, wp_ret.
  eapply take_output; [exact Hw1|by apply pending_settles| |done|].
  - split; [apply Hsk|done|done].
  - rewrite pending_fds by done. rewrite Hres. unfold surface_fds at 1. cbn. rewrite Hu.
    rewrite take_fence_fds. solve_Permutation.
Qed.

(** A descriptor's files are the open ones it declares. *)
Lemma owned_declared t l d w : wown t (l ++ declared_fds d) w -> declared_fds d = descriptor_owned d.
Proof.
  intros (_ & _ & Hi). apply holds_nonneg in Hi. rewrite !Forall_app in Hi. destruct Hi as (_ & _ & Hi).
  unfold descriptor_owned. induction Hi as [|fd fds Hfd _ IH]; [done|]. cbn. by rewrite opt_fd_pos, <- IH.
Qed.

Lemma convert_spec t l i s o w :
  wown t (l ++ out_fds o) w -> sf_used (surface_at (w_rt w) s) = true ->
  sf_state (surface_at (w_rt w) s) = SURFACE_PENDING ->
  wp (convert_output i s o) (converted_ok t l (w_rt w) s) w.
Proof.
  intros Hw Hu Hp. pose proof Hw as (_ & Hok & _). pose proof (surface_at_ok _ _ Hok Hu) as Hsk.
  unfold convert_output. apply wp_bind, wp_gets. cbn zeta.
  destruct (sf_prime_reserved _) eqn:Hres; [by apply convert_reserved_spec|].
  pose proof (pending_fds _ Hu Hp Hsk) as Hfds. rewrite Hres in Hfds.
  destruct (negb _); [by apply converted_refused|]. apply wp_bind.
  eapply wp_call; [apply handsw_socket; intros p; apply hands_transfer_prime|rewrite app_nil_r; exact Hw|].
  intros [[status source] det] w1 Hr1 Hw1 Hty. rewrite <- Hr1 in *. unfold descriptor_fds, typed_result in *. cbn [fst snd] in *.
  destruct (Z.eqb_spec status ADVC_STATUS_OK) as [E|E]; cbn [negb].
  2:{ rewrite app_nil_r in Hw1. by apply converted_refused. }
  specialize (Hty E). apply wp_bind.
  assert (wown t (l ++ out_fds o ++ descriptor_owned source) w1) as Hw2.
  { rewrite app_assoc. by rewrite <- (owned_declared _ _ _ _ Hw1). }
  clear Hw1. unfold wp at 1. cbn [fst snd kernel gets].
  replace (set_m (w_m w1) w1) with w1 by (by destruct w1).
  set (route := Surface.advc_vaapi_select_surface_route _ _ _).
  destruct (direct_route route).
  { apply wp_bind, wp_modify, wp_ret. eapply take_output; [exact Hw2|by apply pending_settles| |done|].
    - split; [done|done|done].
    - rewrite Hfds. unfold surface_fds. cbn. rewrite Hu, take_fence_fds. solve_Permutation. }
  apply wp_bind. eapply wp_call; [apply handsw_convert_source|rewrite app_nil_r; exact Hw2|].
  intros [[[rc conv] cfence] rfence] w3 Hr3 Hw3 Htc. cbn [hook_fds hook_descriptor] in *. rewrite <- Hr3 in *. apply wp_bind.
  eapply wp_call; [apply handsw_conversion_released|rewrite app_nil_r; exact Hw3|].
  intros ok w4 Hr4 Hw4 _. rewrite app_nil_r in Hw4. rewrite <- Hr4 in *. destruct ok.
  - apply wp_bind. eapply (wp_call _ (opt_fd rfence) (l ++ out_fds o ++ descriptor_owned source ++ descriptor_owned conv ++ opt_fd cfence));
      [apply handsw_kernel, hands_close_if|eapply wown_perm; [|exact Hw4]; solve_Permutation|].
    intros a5 w5 Hr5 Hw5 _. rewrite <- Hr5 in *. apply wp_bind.
    eapply (wp_call _ (descriptor_owned source) (l ++ out_fds o ++ descriptor_owned conv ++ opt_fd cfence));
      [by apply handsw_kernel, hands_descriptor_close|eapply wown_perm; [|exact Hw5]; solve_Permutation|].
    intros a6 w6 Hr6 Hw6 _. rewrite <- Hr6 in *. rewrite app_nil_r in Hw6. apply wp_bind, wp_modify, wp_ret.
    eapply take_output; [exact Hw6|by apply pending_settles| |done|].
    + split; [done|done|done].
    + rewrite Hfds. unfold surface_fds. cbn. rewrite Hu. solve_Permutation.
  - eapply (wp_call _ (opt_fd rfence ++ opt_fd cfence ++ descriptor_owned source ++ descriptor_owned conv)
      (l ++ out_fds o)); [by apply handsw_drop_conversion|eapply wown_perm; [|exact Hw4]; solve_Permutation|].
    intros x w5 Hr5 Hw5 ->. rewrite app_nil_r in Hw5. rewrite <- Hr5. by apply converted_refused.
Qed.
(** ** Delivering an output *)

Lemma pending_surface_spec r c pts s : pending_surface r c pts = Some s ->
  sf_used (surface_at r s) = true /\ sf_state (surface_at r s) = SURFACE_PENDING /\
  sf_pts_ns (surface_at r s) = pts /\ sf_owner_session (surface_at r s) = cx_broker_session c.
Proof.
  intros H. apply first_slot_Some in H as (x & Hx & Ha). unfold surface_at. rewrite Hx. cbn.
  unfold awaits, state_eqb in Ha. rewrite !andb_true_iff, bool_decide_eq_true, !Z.eqb_eq in Ha. tauto.
Qed.

Lemma hands_output_close o :
  hands (out_fds o) (advc_client_output_close (U := connect_env) (Some o)) (fun _ => [])
    (fun x => exists o', x = Some o' /\ out_fds o' = []).
Proof.
  unfold advc_client_output_close, out_fds.
  eapply (hands_bind _ _ _ (fun _ => opt_fd (cout_acquire_fence_fd o)) (fun _ => True)).
  - eapply hands_perm; [|apply (hands_under (opt_fd (cout_acquire_fence_fd o))), (hands_close_if (cout_data_fd o))|].
    + solve_Permutation.
    + intros ? _. cbn beta. by rewrite app_nil_r.
  - intros ? _. eapply hands_bind; [apply hands_close_if|]. intros ? _. apply hands_ret; [done|]. eauto.
Qed.

Lemma handsw_output_close o : handsw (out_fds o) (output_close o) (fun _ => []) (fun o' => out_fds o' = []).
Proof.
  unfold output_close. eapply handsw_bind; [apply handsw_kernel, hands_output_close|].
  intros x (o' & -> & Ho). by apply handsw_ret.
Qed.

(** The end of a failed delivery: the buffer goes back, its descriptors are closed. *)
Lemma handsw_return_output o fd sid :
  handsw (out_fds o) ((if negb (cout_buffer_id o =? 0)
     then on_socket fd (fun p => advc_client_release_output p sid (cout_buffer_id o)) ;; mret tt
     else mret tt) ;; output_close o ;; mret (-1)) (fun _ => []) (fun x => x = -1).
Proof.
  eapply (handsw_bind _ _ _ (fun _ => out_fds o) (fun _ => True)).
  - destruct (negb _); [|by apply handsw_ret].
    eapply handsw_weaken; [apply (handsw_frame (out_fds o)), handsw_release_output|done|].
    intros ? _. cbn beta. by rewrite app_nil_r.
  - intros ? _. eapply handsw_bind; [apply handsw_output_close|]. intros ? _. by apply handsw_ret.
Qed.

(** A pending surface that fails keeps what it holds. *)
Lemma fail_surface t l s w : wown t l w -> sf_used (surface_at (w_rt w) s) = true ->
  sf_state (surface_at (w_rt w) s) = SURFACE_PENDING ->
  wown t l (set_rt (on_surface s (set_state SURFACE_ERROR) (w_rt w)) w) /\
  served (w_rt w) (on_surface s (set_state SURFACE_ERROR) (w_rt w)).
Proof.
  intros Hw Hu Hp. pose proof Hw as (H1 & Hok & H3). pose proof (surface_at_ok _ _ Hok Hu) as Hsk.
  split; [|apply served_surface; [done|by apply pending_settles]].
  split_and!; [done| |].
  - apply tables_ok_surface; [done|]. intros _. destruct Hsk as [S1 S2 S3]. rewrite Hp in *. by split; auto.
  - eapply holds_Permutation; [|exact H3]. apply owned_surface_perm; [done|by eapply used_index|]. done.
Qed.

Lemma deliver_spec t l i o w : wown t (l ++ out_fds o) w ->
  wp (deliver_output i o) (fun _ w' => wown t l w' /\ served (w_rt w) (w_rt w')) w.
Proof.
  intros Hw. unfold deliver_output. apply wp_bind, wp_gets. cbn zeta.
  set (c := context_at (w_rt w) i). set (r := w_rt w).
  destruct (pending_surface r c (cout_pts_ns o)) as [s|] eqn:Ef; apply wp_bind.
  - apply pending_surface_spec in Ef as (Hu & Hp & _). eapply wp_mono; [by apply (convert_spec t l i s o w)|].
    intros [rc o'] w1 (Hw1 & Hs1 & Hrc). cbn [fst snd] in *. destruct (Z.ltb_spec rc 0).
    + destruct Hrc as [[? _]|[_ Hr1]]; [lia|]. apply wp_bind, wp_modify. fold r in Hr1.
      rewrite <- Hr1 in Hu, Hp. destruct (fail_surface _ _ _ _ Hw1 Hu Hp) as [Hw2 Hs2].
      eapply wp_call; [apply handsw_return_output|exact Hw2|].
      intros x w3 Hr3 Hw3 ->. rewrite app_nil_r in Hw3. split; [done|]. rewrite Hr3; cbn; by etrans.
    + destruct Hrc as [[_ (f & Hf & Hrd)]|[? _]]; [|lia].
      apply wp_bind. eapply wp_call; [apply handsw_output_close|exact Hw1|].
      intros x w3 Hr3 Hw3 _. rewrite app_nil_r in Hw3. apply wp_ret. split; [done|by rewrite Hr3].
  - apply wp_ret. apply wp_bind, wp_ret.
    eapply wp_call; [apply handsw_return_output|exact Hw|].
    intros x w3 Hr3 Hw3 ->. rewrite app_nil_r in Hw3. split; [done|by rewrite Hr3].
Qed.

(** ** The adapter *)

Definition held (a : private_eos_adapter) : list Z :=
  if ad_have_output a then out_fds (ad_client_output a) else [].
Definition aown (t : ledger) (l : list Z) (r : runtime) (a : private_eos_adapter) : Prop :=
  wown t (l ++ held a) (ad_world a) /\ served r (w_rt (ad_world a)).

Lemma wp_in_world {A} (c : St world A) P a :
  wp c (fun x w => P x (Adapter w (ad_client_output a) (ad_have_output a))) (ad_world a) <->
  wp (in_world c) P a.
Proof. unfold wp, in_world. by destruct (c (ad_world a)). Qed.

(** A call through the adapter's connection. *)
Lemma wp_adapter_call {A} (c : St world A) l F Q t r a (P : A -> private_eos_adapter -> Prop) :
  handsw [] c F Q -> aown t l r a ->
  (forall x w', wown t (l ++ held a ++ F x) w' -> served r (w_rt w') -> w_rt w' = w_rt (ad_world a) -> Q x ->
     P x (Adapter w' (ad_client_output a) (ad_have_output a))) ->
  wp (in_world c) P a.
Proof.
  intros Hc [Hw Hs] HP. apply wp_in_world. eapply wp_call; [exact Hc|rewrite app_nil_r; exact Hw|].
  intros x w' Hr Hw' Hq. apply HP; [by rewrite app_assoc|by rewrite Hr|done|done].
Qed.

Section Ops.
Context (t : ledger) (l : list Z) (r : runtime) (i : nat).

Lemma signal_aown a : aown t l r a -> aown t l r (snd (private_eos_try_signal i a)).
Proof.
  intros Ha. change (wp (private_eos_try_signal i) (fun _ a' => aown t l r a') a).
  unfold private_eos_try_signal. apply wp_bind, wp_in_world, wp_gets. cbn zeta. apply wp_bind.
  destruct a as [w o h]. eapply wp_adapter_call; [apply handsw_socket; intros p; apply hands_queue_input|exact Ha|].
  intros [st d] w' Hw Hs Hr _. apply wp_ret. split; [|done]. cbn. by rewrite !app_nil_r in Hw.
Qed.

Lemma dequeue_aown o a : aown t l r a -> aown t l r (snd (private_eos_try_dequeue i o a)).
Proof.
  intros Ha. change (wp (private_eos_try_dequeue i o) (fun _ a' => aown t l r a') a).
  unfold private_eos_try_dequeue. apply wp_bind, wp_gets. destruct (ad_have_output a) eqn:Eh; [done|].
  apply wp_bind, wp_in_world, wp_gets. cbn zeta. apply wp_bind. destruct a as [w o0 h]. cbn in Eh. subst h.
  eapply wp_adapter_call; [apply handsw_socket; intros p; apply hands_dequeue|exact Ha|].
  intros [[st out] d] w' Hw Hs Hr Hq. unfold output_fds in *. cbn [fst snd] in *. fold (out_fds out) in Hw, Hq.
  cbn [held ad_have_output] in Hw. rewrite app_nil_l in Hw.
  destruct (Z.eqb_spec st ADVC_STATUS_OK) as [E|E].
  - apply wp_bind, wp_modify, wp_ret. by split.
  - destruct Hq as [?|Hq]; [done|]. apply wp_bind, wp_modify, wp_ret. split; [|done]. cbn. by rewrite Hq in Hw.
Qed.

Lemma frame_aown o a : aown t l r a -> aown t l r (snd (private_eos_handle_frame i o a)).
Proof.
  intros Ha. change (wp (private_eos_handle_frame i o) (fun _ a' => aown t l r a') a).
  unfold private_eos_handle_frame. apply wp_bind, wp_gets. destruct (_ || _) eqn:E; [done|].
  apply orb_false_iff in E as [Eh _]. apply negb_false_iff in Eh. unfold id in Eh.
  apply wp_bind, wp_in_world, wp_gets. destruct a as [w out h]. cbn in Eh. subst h. cbn [ad_world ad_client_output ad_have_output id].
  destruct Ha as [Hw Hs]. cbn [held ad_have_output ad_client_output ad_world] in *.
  destruct (pending_surface _ _ _) as [s|] eqn:Ep; [|by split].
  apply pending_surface_spec in Ep as (Hu & Hp & _). apply wp_bind, wp_in_world. cbn [ad_world ad_client_output ad_have_output].
  eapply wp_mono; [by apply (convert_spec t l i s out w)|]. intros [rc o'] w1 (Hw1 & Hs1 & Hrc). cbn [fst snd] in *.
  destruct (Z.ltb_spec rc 0).
  - destruct Hrc as [[? _]|[_ Hr1]]; [lia|]. rewrite <- Hr1 in Hu, Hp. destruct (fail_surface _ _ _ _ Hw1 Hu Hp) as [Hw2 Hs2].
    apply wp_bind, wp_in_world, wp_modify, wp_bind, wp_modify, wp_ret. split; [exact Hw2|].
    cbn. etrans; [exact Hs|]. by etrans.
  - apply wp_bind, wp_in_world. cbn [ad_world ad_client_output ad_have_output].
    eapply wp_call; [apply handsw_output_close|exact Hw1|]. intros o'' w2 Hr2 Hw2 Ho.
    apply wp_bind, wp_modify, wp_ret. split; [exact Hw2|]. cbn. rewrite Hr2. by etrans.
Qed.

Lemma release_aown o a : aown t l r a -> aown t l r (snd (private_eos_release_output i o a)).
Proof.
  intros Ha. change (wp (private_eos_release_output i o) (fun _ a' => aown t l r a') a).
  unfold private_eos_release_output. apply wp_bind, wp_gets. destruct (_ || _) eqn:E; [done|].
  apply orb_false_iff in E as [Eh _]. apply negb_false_iff in Eh. unfold id in Eh.
  apply wp_bind, wp_in_world, wp_gets. cbn zeta. destruct a as [w out h]. cbn in Eh. subst h.
  apply wp_bind. eapply wp_adapter_call; [apply handsw_socket; intros p; apply hands_release_fenced|exact Ha|].
  intros [st d] w' Hw Hs Hr _. cbn [held ad_have_output ad_client_output id] in *. rewrite app_nil_r in Hw.
  apply wp_bind, wp_in_world. cbn [ad_world ad_client_output ad_have_output].
  eapply wp_call; [apply handsw_output_close|exact Hw|]. intros o'' w2 Hr2 Hw2 Ho.
  apply wp_bind, wp_modify, wp_ret. split; [exact Hw2|]. cbn. by rewrite Hr2.
Qed.

Lemma fail_pending_fds session s : surface_fds (fail_pending session s) = surface_fds s.
Proof. unfold fail_pending. by destruct (_ && _ && _). Qed.

Lemma mark_served x session : tables_ok x ->
  tables_ok (set_surfaces (fail_pending session <$> rt_surfaces x) x) /\
  served x (set_surfaces (fail_pending session <$> rt_surfaces x) x).
Proof.
  intros [T1 T2 T3 T4]. split; split; cbn; try done; try by rewrite length_fmap.
  - apply Forall_fmap. eapply Forall_impl; [exact T3|]. intros s Hs. unfold fail_pending, compose.
    destruct (_ && _ && _) eqn:E; [|done]. intros Hu. destruct (Hs Hu) as [S1 S2 S3].
    rewrite !andb_true_iff in E. unfold state_eqb in E. rewrite bool_decide_eq_true in E. destruct E as [[_ E] _].
    rewrite E in *. split; [done|..]; intros _; cbn; auto.
  - intros s. unfold surface_at. cbn. rewrite list_lookup_fmap. destruct (rt_surfaces x !! s) as [y|]; [|by left].
    cbn. unfold fail_pending. destruct (_ && _ && _) eqn:E; [right|by left].
    rewrite !andb_true_iff in E. unfold state_eqb in E. rewrite bool_decide_eq_true in E. destruct E as [[? E] _]. by split.
Qed.

Lemma mark_aown a : aown t l r a -> aown t l r (snd (private_eos_mark_remaining_pending_failed i a)).
Proof.
  intros [(H1 & H2 & H3) Hs]. destruct (mark_served _ (cx_broker_session (context_at (w_rt (ad_world a)) i)) H2) as [Ht Hv].
  split; [split_and!; [done|exact Ht|]|cbn; by etrans]. cbn. unfold owned in *. cbn in *.
  replace (list_bind _ _ surface_fds (list_fmap _ _ _ (rt_surfaces (w_rt (ad_world a)))))
    with (rt_surfaces (w_rt (ad_world a)) ≫= surface_fds); [done|].
  generalize (rt_surfaces (w_rt (ad_world a))). intros k. induction k as [|s k IH]; [done|]. cbn.
  rewrite fail_pending_fds. f_equal. exact IH.
Qed.
End Ops.

End Drain.
