(* ===== verification/DecodeSettle.v ===== *)
(** * What becomes of a surface that waits

    [settled] is the account of one delivered output: which of the three ways its
    surface takes the picture (the buffer reserved for it, the broker's own layout,
    a converted copy) and what it then holds, or why it fails.  [deliver_settles]
    and [drain_settles] show that the code follows it and touches no other surface. *)

From stdpp Require Import base list gmap.
From Stdlib Require Import ZArith Lia Bool.
From S2P Require Import Prelude Kernel Protocol Dmabuf Engine Client ClientConnect World Va VaapiRoutes VaapiPolicy DecodeEos DecodeState DecodeStaging DecodeOutput DecodeOwn DecodeDrain.

Section Settle.
Context {dr : driver}.

(** ** Calls that leave the tables alone *)

Definition steady {A} (c : St world A) : Prop := forall w, w_rt (snd (c w)) = w_rt w.

Lemma steady_ret {A} (a : A) : steady (mret a).
Proof. done. Qed.
Lemma steady_bind {A C} (c : St world A) (k : A -> St world C) :
  steady c -> (forall a, steady (k a)) -> steady (c ≫= k).
Proof. intros Hc Hk w. rewrite st_seq. by rewrite Hk. Qed.
Lemma steady_gets {A} (f : world -> A) : steady (gets f).
Proof. done. Qed.
Lemma steady_kernel {A} (c : St process A) : steady (kernel c).
Proof. intros w. unfold kernel. by destruct (c (w_m w)). Qed.
Lemma steady_socket {A} fd (c : list Z -> St process A) : steady (on_socket fd c).
Proof. intros w. unfold on_socket. cbn zeta. by destruct (c _ _). Qed.

Lemma steady_convert_source route source fence : steady (convert_source route source fence).
Proof.
  assert (steady (kernel (errno_is ENOTSUP) ;; mret (-1, zero_descriptor, -1, -1))) as Hu
    by (apply steady_bind; [apply steady_kernel|intros; apply steady_ret]).
  unfold convert_source. cbn zeta. destruct route; try exact Hu.
  - destruct dr_gpu_repack; [apply steady_kernel|exact Hu].
  - destruct dr_cpu_copy; [apply steady_kernel|exact Hu].
Qed.

Lemma steady_conversion_released i o rc d fence : steady (conversion_released i o rc d fence).
Proof.
  unfold conversion_released. apply steady_bind; [apply steady_gets|]. intros r. cbn zeta.
  destruct (_ || _); [apply steady_ret|]. apply steady_bind; [apply steady_kernel|]. intros v.
  destruct (negb _); [apply steady_ret|]. apply steady_bind; [apply steady_socket|]. by intros [st x].
Qed.

Lemma steady_output_close o : steady (output_close o).
Proof. unfold output_close. apply steady_bind; [apply steady_kernel|intros; apply steady_ret]. Qed.

(** ** The account *)

(** The buffer reserved for the surface can take the output. *)
Definition reserve_fits (w : world) (x : surface) (o : advc_client_output) : bool :=
  (cout_transport o =? ADVC_TRANSPORT_AHARDWAREBUFFER) && negb (cout_buffer_id o =? 0) &&
  (d_drm_fourcc (sf_prime x) =? Surface.ADVC_DRM_FORMAT_NV12) && (d_drm_modifier (sf_prime x) =? 0) &&
  descriptor_ok (m_fds (w_m w)) (sf_prime x).

(** The broker's answer to the request for the output's layout. *)
Definition transferred (i : nat) (o : advc_client_output) (w : world) :=
  let c := context_at (w_rt w) i in
  on_socket (cx_broker_fd c) (fun p =>
    advc_client_transfer_prime p (cx_broker_session c) (cout_buffer_id o) zero_descriptor) w.

Definition route_of (i : nat) (source : advc_dmabuf_descriptor) (w : world) : Surface.route :=
  Surface.advc_vaapi_select_surface_route (m_fds (w_m w)) (Some source)
    (Some (output_consumer (w_rt w) (context_at (w_rt w) i))).

(** [settled i s o w rc y]: the output [o] of context [i], delivered in the state [w],
    leaves the surface in slot [s] as [y], with the result [rc]. *)
Inductive settled (i s : nat) (o : advc_client_output) (w : world) : Z -> surface -> Prop :=
  | SettledReserved x : x = surface_at (w_rt w) s -> sf_prime_reserved x = true -> reserve_fits w x o = true ->
      settled i s o w 1
        (set_state SURFACE_READY (set_holding (cout_buffer_id o) false (sf_prime x) (cout_acquire_fence_fd o) x))
  | SettledMisfit x : x = surface_at (w_rt w) s -> sf_prime_reserved x = true -> reserve_fits w x o = false ->
      settled i s o w (-1) (set_state SURFACE_ERROR x)
  | SettledTransport x : x = surface_at (w_rt w) s -> sf_prime_reserved x = false ->
      cout_transport o <> ADVC_TRANSPORT_AHARDWAREBUFFER -> settled i s o w (-1) (set_state SURFACE_ERROR x)
  | SettledUntransferred x st source det w2 : x = surface_at (w_rt w) s -> sf_prime_reserved x = false ->
      transferred i o w = (st, source, det, w2) -> st <> ADVC_STATUS_OK ->
      settled i s o w (-1) (set_state SURFACE_ERROR x)
  | SettledDirect x source det w2 : x = surface_at (w_rt w) s -> sf_prime_reserved x = false ->
      cout_transport o = ADVC_TRANSPORT_AHARDWAREBUFFER ->
      transferred i o w = (ADVC_STATUS_OK, source, det, w2) -> direct_route (route_of i source w2) = true ->
      settled i s o w 1
        (set_state SURFACE_READY (set_holding (cout_buffer_id o) false source (cout_acquire_fence_fd o) x))
  | SettledConverted x source det w2 rc conv cfence rfence w3 w4 :
      x = surface_at (w_rt w) s -> sf_prime_reserved x = false ->
      cout_transport o = ADVC_TRANSPORT_AHARDWAREBUFFER ->
      transferred i o w = (ADVC_STATUS_OK, source, det, w2) -> direct_route (route_of i source w2) = false ->
      convert_source (route_of i source w2) source (cout_acquire_fence_fd o) w2 = (rc, conv, cfence, rfence, w3) ->
      conversion_released i o rc conv rfence w3 = (true, w4) ->
      settled i s o w 1
        (set_state SURFACE_READY (set_holding (sf_broker_buffer_id x) false conv cfence x))
  | SettledUnconverted x source det w2 rc conv cfence rfence w3 w4 :
      x = surface_at (w_rt w) s -> sf_prime_reserved x = false ->
      transferred i o w = (ADVC_STATUS_OK, source, det, w2) -> direct_route (route_of i source w2) = false ->
      convert_source (route_of i source w2) source (cout_acquire_fence_fd o) w2 = (rc, conv, cfence, rfence, w3) ->
      conversion_released i o rc conv rfence w3 = (false, w4) ->
      settled i s o w (-1) (set_state SURFACE_ERROR x).

(** ** The code follows it *)

(** The surface is ready, or the tables are as they were and the surface is to fail. *)
Definition conversion_settles (i s : nat) (o : advc_client_output) (w : world)
    (x : Z * advc_client_output * world) : Prop :=
  (fst (fst x) = 0 /\ exists f, w_rt (snd x) = on_surface s f (w_rt w) /\
     settled i s o w 1 (f (surface_at (w_rt w) s))) \/
  (fst (fst x) = -1 /\ w_rt (snd x) = w_rt w /\
     settled i s o w (-1) (set_state SURFACE_ERROR (surface_at (w_rt w) s))).

Lemma reserved_settles i s o w : sf_prime_reserved (surface_at (w_rt w) s) = true ->
  conversion_settles i s o w (convert_reserved s o w).
Proof.
  intros Hres. unfold convert_reserved. rewrite st_seq. cbn [the_runtime gets fst snd].
  assert (reserve_fits w (surface_at (w_rt w) s) o = false ->
    forall x, fst (fst x) = -1 -> w_rt (snd x) = w_rt w -> conversion_settles i s o w x) as Hno.
  { intros Hf x H1 H2. right. split; [done|]. split; [done|]. by eapply SettledMisfit. }
  unfold reserve_fits in Hno.
  destruct (cout_transport o =? _) eqn:E1; [|by apply Hno]. destruct (cout_buffer_id o =? 0) eqn:E2; [by apply Hno|].
  destruct (d_drm_fourcc _ =? _) eqn:E3; [|by apply Hno]. destruct (d_drm_modifier _ =? 0) eqn:E4; [|by apply Hno].
  cbn [andb orb negb] in *. rewrite st_seq. unfold kernel. rewrite validate_desc.
  destruct (descriptor_ok _ _) eqn:Eok; cbn [fst snd Z.ltb Z.compare]; [|by apply Hno].
  left. split; [done|]. eexists. split; [reflexivity|]. eapply SettledReserved; try done.
  unfold reserve_fits. by rewrite E1, E2, E3, E4, Eok.
Qed.

Lemma convert_settles i s o w : conversion_settles i s o w (convert_output i s o w).
Proof.
  unfold convert_output. rewrite st_seq. cbn [the_runtime gets fst snd].
  destruct (sf_prime_reserved _) eqn:Hres; [by apply reserved_settles|].
  destruct (Z.eqb_spec (cout_transport o) ADVC_TRANSPORT_AHARDWAREBUFFER) as [Et|Et]; cbn [negb].
  2:{ right. split_and!; [done|done|]. by eapply SettledTransport. }
  rewrite st_seq. fold (transferred i o w).
  assert (w_rt (snd (transferred i o w)) = w_rt w) as Hw2 by apply steady_socket.
  destruct (transferred i o w) as [[[st source] det] w2] eqn:Ht. cbn [fst snd] in *.
  destruct (Z.eqb_spec st ADVC_STATUS_OK) as [->|Es]; cbn [negb].
  2:{ right. split_and!; [done|done|]. by eapply SettledUntransferred. }
  rewrite st_seq. cbn [kernel gets fst snd]. replace (set_m (w_m w2) w2) with w2 by (by destruct w2).
  assert (Surface.advc_vaapi_select_surface_route (m_fds (w_m w2)) (Some source)
    (Some (output_consumer (w_rt w) (context_at (w_rt w) i))) = route_of i source w2) as ->
    by (unfold route_of; by rewrite Hw2).
  cbn zeta.
  destruct (direct_route (route_of i source w2)) eqn:Er.
  { left. split; [done|]. eexists. rewrite <- Hw2. split; [reflexivity|]. rewrite Hw2. cbn beta. rewrite Hres.
    by eapply SettledDirect. }
  rewrite st_seq. pose proof (steady_convert_source (route_of i source w2) source (cout_acquire_fence_fd o) w2) as Hw3.
  destruct (convert_source _ _ _ w2) as [[[[rc conv] cfence] rfence] w3] eqn:Ec. cbn [fst snd] in *.
  rewrite st_seq. pose proof (steady_conversion_released i o rc conv rfence w3) as Hw4.
  destruct (conversion_released _ _ _ _ _ w3) as [ok w4] eqn:Eo. cbn [fst snd] in *.
  assert (forall c : St process unit, forall v, w_rt (snd (kernel c v)) = w_rt v) as Hk by (intros c; apply steady_kernel).
  destruct ok.
  - left. rewrite !st_seq. split; [done|]. eexists. split.
    + cbn [snd mret st_ret update modify w_rt set_rt]. rewrite (steady_kernel _ _), Hk, Hw4, Hw3, Hw2. reflexivity.
    + cbn beta. rewrite Hres. by eapply SettledConverted.
  - right. rewrite !st_seq. split; [done|]. split; [|by eapply SettledUnconverted].
    cbn [snd mret st_ret]. by rewrite !(steady_kernel _ _), Hw4, Hw3, Hw2.
Qed.

(** The result, and the surface the output is for; the others are as they were. *)
Definition delivery_settles (i : nat) (o : advc_client_output) (w : world) (x : Z * world) : Prop :=
  match pending_surface (w_rt w) (context_at (w_rt w) i) (cout_pts_ns o) with
  | Some s => exists f, w_rt (snd x) = on_surface s f (w_rt w) /\ settled i s o w (fst x) (f (surface_at (w_rt w) s))
  | None => w_rt (snd x) = w_rt w /\ fst x = -1
  end.

Lemma deliver_settles i o w : delivery_settles i o w (deliver_output i o w).
Proof.
  unfold delivery_settles, deliver_output. rewrite st_seq. cbn [the_runtime gets fst snd]. cbn zeta.
  set (c := context_at (w_rt w) i).
  assert (forall o' v, w_rt (snd (((if negb (cout_buffer_id o' =? 0)
     then on_socket (cx_broker_fd c) (fun p => advc_client_release_output p (cx_broker_session c) (cout_buffer_id o')) ;; mret tt
     else mret tt) ;; output_close o' ;; mret (-1)) v)) = w_rt v /\
    fst (((if negb (cout_buffer_id o' =? 0)
     then on_socket (cx_broker_fd c) (fun p => advc_client_release_output p (cx_broker_session c) (cout_buffer_id o')) ;; mret tt
     else mret tt) ;; output_close o' ;; mret (-1)) v) = -1) as Hback.
  { intros o' v. rewrite !st_seq. split; [|done]. cbn [snd mret st_ret]. rewrite steady_output_close.
    destruct (negb _); [|done]. rewrite st_seq. apply steady_socket. }
  destruct (pending_surface (w_rt w) c (cout_pts_ns o)) as [s|]; rewrite st_seq.
  - pose proof (convert_settles i s o w) as Hc. destruct (convert_output i s o w) as [[rc o'] w1]. cbn [fst snd] in *.
    destruct Hc as [(E0 & f & Hf & Hset)|(E1 & Hw1 & Hset)]; cbn [fst snd] in *; subst rc; cbn [Z.ltb Z.compare].
    + exists f. rewrite st_seq. cbn [fst snd mret st_ret]. by rewrite steady_output_close.
    + exists (set_state SURFACE_ERROR). rewrite st_seq. cbn [update modify fst snd].
      destruct (Hback o' (set_rt (on_surface s (set_state SURFACE_ERROR) (w_rt w1)) w1)) as [-> ->].
      cbn [w_rt set_rt]. by rewrite Hw1.
  - cbn [mret st_ret fst snd Z.ltb Z.compare]. rewrite st_seq. cbn [mret st_ret fst snd]. apply Hback.
Qed.

(** One drain before the end of the stream is signalled. *)
Definition dequeued (i : nat) (w : world) :=
  let c := context_at (w_rt w) i in
  on_socket (cx_broker_fd c) (fun p => advc_client_dequeue_output p (cx_broker_session c)) w.

Lemma drain_settles i w : st_phase (cx_eos (context_at (w_rt w) i)) = OPEN ->
  let x := dequeued i w in
  w_rt (snd x) = w_rt w /\
  if decide (fst (fst (fst x)) = ADVC_STATUS_OK)
  then delivery_settles i (snd (fst (fst x))) (snd x) (drain_one_output i w)
  else w_rt (snd (drain_one_output i w)) = w_rt w.
Proof.
  intros Hopen. cbn zeta. unfold drain_one_output. rewrite st_seq. cbn [the_runtime gets fst snd]. rewrite Hopen.
  change (negb (OPEN =? OPEN)) with false. cbn iota. rewrite st_seq. fold (dequeued i w).
  assert (w_rt (snd (dequeued i w)) = w_rt w) as Hw1 by apply steady_socket.
  destruct (dequeued i w) as [[[st o] det] w1]. cbn [fst snd] in *. split; [done|].
  destruct (Z.eqb_spec st ADVC_STATUS_WOULD_BLOCK) as [->|].
  { by rewrite decide_False. }
  destruct (Z.eqb_spec st ADVC_STATUS_OK) as [->|]; cbn [negb].
  - rewrite decide_True by done. apply deliver_settles.
  - by rewrite decide_False.
Qed.
End Settle.
