(* ===== verification/DecodeQueue.v ===== *)
(** * Queueing input and draining a connection

    A compressed unit that does not fit a record travels in a sealed memory file
    ([create_sealed_memfd_exact]).  Every call on a context's connection that the
    decode runtime makes leaves it with the descriptors it had, up to what its
    surfaces took over ([drain_spec], [queue_bytes_spec], [queue_spec]). *)

From stdpp Require Import base list gmap.
From Stdlib Require Import ZArith Lia Bool.
From S2P Require Import Prelude Kernel Protocol Dmabuf Engine EngineFiles EngineInv EngineSafe Broker BrokerLive Client ClientSafe ClientConnect World Va VaapiRoutes VaapiPolicy DecodeEos AnnexB Hevc Vp9 DecodeState DecodeStaging DecodeOutput DecodeOwn DecodeDrain.

(** ** The sealed memory file *)

Lemma write_cases {B} t fd cur data (m : machine B) : m_fds m = memfd t fd cur ->
  (exists m', sys_write fd data m = (-1, m') /\ m_fds m' = m_fds m /\ (length (m_io m') < length (m_io m))%nat) \/
  (exists n m', sys_write fd data m = (n, m') /\ 0 <= n <= zlen data /\
     m_fds m' = memfd t fd (cur ++ take (Z.to_nat n) data) /\ (length (m_io m') <= length (m_io m))%nat).
Proof.
  intros Hm. unfold sys_write. rewrite bind_seq.
  assert (forall v (m1 : machine B), 0 <= v -> m_fds m1 = m_fds m -> (length (m_io m1) <= length (m_io m))%nat ->
    exists n m', (t0 ← gets m_fds;
      match t0 !! fd with
      | Some (FdInfo c (KMemFile data0 seals)) =>
          if has_seal seals F_SEAL_WRITE || has_seal seals F_SEAL_GROW then fail_with EPERM
          else let n := Z.min v (zlen data) in
            set_file fd (FdInfo c (KMemFile (data0 ++ take (Z.to_nat n) data) seals)) ;; mret n
      | Some _ => fail_with EINVAL
      | None => fail_with EBADF
      end) m1 = (n, m') /\ 0 <= n <= zlen data /\
      m_fds m' = memfd t fd (cur ++ take (Z.to_nat n) data) /\ (length (m_io m') <= length (m_io m))%nat) as Hgo.
  { intros v m1 Hv Hf Hl. rewrite bind_seq. cbn [gets fst snd]. rewrite Hf, Hm. unfold memfd at 1.
    rewrite lookup_insert_eq. cbn [has_seal Z.land negb orb]. eexists _, _. split; [reflexivity|].
    split; [unfold zlen; lia|]. split; [|done]. cbn. by rewrite Hf, Hm, memfd_twice. }
  destruct (next_io_cases m) as [(Hio & ->)|[(v & l & Hio & Hv & ->)|(v & l & Hio & Hv & ->)]]; cbn [fst snd].
  - right. destruct (Z.ltb_spec (2 ^ 63 - 1) 0); [lia|]. by apply Hgo.
  - left. destruct (Z.ltb_spec v 0); [|lia]. eexists. split; [reflexivity|]. rewrite Hio. cbn. split; [done|lia].
  - right. destruct (Z.ltb_spec v 0); [lia|]. apply Hgo; [done|done|]. rewrite Hio. cbn. lia.
Qed.

Lemma write_loop_spec t fd fuel data cur (m : process) : m_fds m = memfd t fd cur -> t !! fd = None ->
  (length data + length (m_io m) < fuel)%nat ->
  let x := write_loop fuel fd data m in
  (fst x = 0 /\ m_fds (snd x) = memfd t fd (cur ++ data)) \/ (fst x = -1 /\ m_fds (snd x) = t).
Proof.
  intros Hm Hn. revert data cur m Hm. induction fuel as [|fuel IH]; intros data cur m Hm Hf; [lia|].
  cbn [write_loop]. destruct data as [|b data]; [left; by rewrite app_nil_r|]. rewrite bind_seq.
  assert (forall (m' : process) cur', m_fds m' = memfd t fd cur' -> m_fds (snd (sys_close fd m')) = t) as Hclose.
  { intros m' cur' Hm'. rewrite (close_open_fds fd m' (FdInfo true (KMemFile cur' 0))).
    - rewrite Hm'. by apply delete_insert_id.
    - rewrite Hm'. apply lookup_insert_eq. }
  destruct (write_cases t fd cur (b :: data) m Hm) as [(m' & -> & Hf' & Hl)|(n & m' & -> & Hn' & Hf' & Hl)]; cbn [fst snd].
  - cbn [Z.ltb Z.compare]. rewrite bind_seq. cbn [errno gets fst snd]. destruct (_ =? EINTR).
    + apply IH; [by rewrite Hf'|cbn [length] in *; lia].
    + rewrite bind_seq. right. split; [done|]. cbn. apply (Hclose _ cur). by rewrite Hf'.
  - destruct (Z.ltb_spec n 0); [lia|]. destruct (Z.eqb_spec n 0).
    + rewrite bind_seq. right. split; [done|]. cbn. by eapply Hclose.
    + destruct (IH (drop (Z.to_nat n) (b :: data)) _ m' Hf') as [[H1 H2]|H3].
      * rewrite length_drop. cbn [length] in *. lia.
      * left. split; [done|]. rewrite H2, <- app_assoc, take_drop. done.
      * by right.
Qed.

(** The file exists with exactly the data and all seals, or nothing is left. *)
Lemma create_sealed_memfd_exact data (m : process) :
  let x := create_sealed_memfd data m in
  (fst x = -1 /\ m_fds (snd x) = m_fds m) \/
  (fst x = lowest_free (m_fds m) /\
   m_fds (snd x) = <[lowest_free (m_fds m) := FdInfo true (KMemFile data ALL_SEALS)]> (m_fds m)).
Proof.
  unfold create_sealed_memfd. rewrite bind_seq. pose proof (lowest_free_spec (m_fds m)) as [Hn Hfree].
  set (fd := lowest_free (m_fds m)) in *.
  destruct (memfd_create_cases m) as [(m1 & -> & Hf1 & _)|(m1 & -> & Hf1 & _)]; cbn [fst snd]; [by left|].
  fold fd in Hf1 |- *. destruct (Z.ltb_spec fd 0); [lia|]. rewrite bind_seq. cbn [gets fst snd]. rewrite bind_seq.
  destruct (write_loop_spec (m_fds m) fd (S (length data + length (m_io m1))) data [] m1 Hf1 Hfree) as [[H1 H2]|[H1 H2]];
    [lia|..]; rewrite H1; cbn [Z.ltb Z.compare]; [|left; by split].
  rewrite app_nil_l in H2. fold ALL_SEALS. rewrite bind_seq. destruct (add_seals_cases _ _ _ _ H2) as [(m3 & -> & Hf3 & _)|(m3 & -> & Hf3)]; cbn [fst snd].
  - cbn [Z.ltb Z.compare]. rewrite bind_seq. left. split; [done|]. cbn.
    rewrite (close_open_fds fd m3 (FdInfo true (KMemFile data 0))); rewrite Hf3, H2; [by apply delete_insert_id|apply lookup_insert_eq].
  - cbn [Z.ltb Z.compare]. by right.
Qed.

Lemma quiet_write {B} fd data : quiet (B := B) (sys_write fd data).
Proof. unfold sys_write. hush. Qed.

Lemma quiet_write_loop fuel fd data : quiet (write_loop fuel fd data).
Proof.
  revert data. induction fuel as [|fuel IH]; intros data; [apply quiet_ret|]. cbn [write_loop].
  destruct data as [|b data]; [apply quiet_ret|]. apply quiet_bind; [apply quiet_write|]. intros n.
  destruct (n <? 0).
  - apply quiet_bind; [apply quiet_errno|]. intros e. destruct (e =? EINTR); [apply IH|]. hush.
  - destruct (n =? 0); [hush|apply IH].
Qed.

Lemma hands_sealed_memfd data : hands [] (create_sealed_memfd data) opt_fd (fun _ => True).
Proof.
  apply hands_keeps. intros t m Hi. apply installed_same in Hi. subst t.
  assert (quiet (create_sealed_memfd data)) as Hq.
  { unfold create_sealed_memfd. apply quiet_bind; [apply quiet_memfd|]. intros fd. destruct (fd <? 0); [apply quiet_ret|].
    apply quiet_bind; [apply quiet_gets|]. intros io. apply quiet_bind; [apply quiet_write_loop|]. intros n. hush. }
  destruct (Hq m) as (_ & _ & Hs). split_and!; [done| |done].
  pose proof (lowest_free_spec (m_fds m)) as [Hn _].
  destruct (create_sealed_memfd_exact data m) as [[-> ->]|[-> ->]]; [apply installed_nil|].
  rewrite opt_fd_pos by lia. apply installed_one.
Qed.

Section Queue.
Context {dr : driver} {Hdr : DriverOk dr}.

(** ** End of stream *)

Definition drained_ok (t : ledger) (l : list Z) (r : runtime) (w' : world) : Prop :=
  wown t l w' /\ served r (w_rt w').

Lemma set_eos_ok t l i e w : wown t l w ->
  drained_ok t l (w_rt w) (set_rt (on_context i (set_eos e) (w_rt w)) w).
Proof.
  intros (H1 & H2 & H3). split; [|by apply served_context]. split_and!; [done| |].
  - apply tables_ok_context; [done|]. cbn. intros Hi Hu. by apply used_socket.
  - cbn [w_rt set_rt]. by rewrite owned_context_same.
Qed.

Lemma run_eos_spec t l i call w :
  (forall state a, aown t l (w_rt w) a -> aown t l (w_rt w) (snd (call state (Some (private_eos_ops i)) a))) ->
  wown t l w ->
  wp (run_eos i call) (fun x w' => drained_ok t (l ++ held (snd x)) (w_rt w) w') w.
Proof.
  intros Hcall Hw. unfold wp, run_eos.
  pose proof (Hcall (Some (cx_eos (context_at (w_rt w) i))) (fresh_adapter w)) as Ha.
  destruct (call _ _ _) as [[[res st] status] a]. cbn [fst snd] in *.
  destruct Ha as [Ha Hs]; [split; [by rewrite app_nil_r|reflexivity]|].
  destruct (set_eos_ok _ _ i (default (cx_eos (context_at (w_rt (ad_world a)) i)) st) _ Ha) as [H1 H2].
  split; [exact H1|]. by etrans.
Qed.

Lemma release_leftover_spec t l i o w : wown t (l ++ out_fds o) w ->
  wp (release_leftover i o) (fun _ w' => drained_ok t l (w_rt w) w') w.
Proof.
  intros Hw. unfold wp, release_leftover. set (e := Output _ _ _ _ _).
  pose proof (release_aown t l (w_rt w) i e (Adapter w o true)) as Ha.
  assert (ad_have_output (snd (private_eos_release_output i e (Adapter w o true))) = false) as Hh.
  { unfold private_eos_release_output. rewrite st_seq. cbn [gets fst snd ad_have_output negb orb id e eo_private_data].
    change (CLIENT_OUTPUT =? CLIENT_OUTPUT) with true. cbn [negb]. rewrite st_seq. cbn zeta. rewrite st_seq.
    destruct (fst (in_world _ _)) as [st d]. rewrite !st_seq. done. }
  destruct (private_eos_release_output _ _ _) as [x a]. cbn [fst snd] in *.
  destruct Ha as [Ha Hs]; [by split|]. unfold held in Ha. rewrite Hh, app_nil_r in Ha. by split.
Qed.

Lemma progress_locked_spec t l i n status w : wown t l w ->
  wp (private_eos_progress_locked i n status) (fun _ w' => drained_ok t l (w_rt w) w') w.
Proof.
  intros Hw. unfold private_eos_progress_locked. apply wp_bind. eapply wp_mono; [apply (run_eos_spec t l)|].
  - intros state a Ha. apply (progress_keeps (aown t l (w_rt w)) (private_eos_ops i)); try done; cbn.
    + intros. by apply dequeue_aown.
    + intros. by apply frame_aown.
    + intros. by apply release_aown.
    + intros. by apply mark_aown.
  - done.
  - intros [[res st] a] w1 [Hw1 Hs1]. cbn [snd] in Hw1. apply wp_bind. unfold held in Hw1.
    destruct (ad_have_output a); [|apply wp_ret, wp_ret; rewrite app_nil_r in Hw1; by split].
    eapply wp_mono; [by apply release_leftover_spec|]. intros ? w2 [Hw2 Hs2]. apply wp_ret. split; [done|by etrans].
Qed.

Lemma signal_spec t l i status w : wown t l w ->
  wp ('(result, status, _) ← run_eos i (fun state ops a => advc_vaapi_decode_eos_state_signal state ops status a);
      mret (result, status)) (fun _ w' => drained_ok t l (w_rt w) w') w.
Proof.
  intros Hw. apply wp_bind. unfold run_eos, wp.
  pose proof (signal_keeps (fun a => aown t l (w_rt w) a /\ ad_have_output a = false) (private_eos_ops i)) as Hk.
  specialize (Hk ltac:(intros a [Ha Hh]; split; [by apply signal_aown|];
    unfold try_signal, private_eos_ops; cbn; unfold private_eos_try_signal; rewrite st_seq; cbn zeta; rewrite st_seq;
    destruct (fst (in_world _ _)); cbn; unfold in_world; destruct (on_socket _ _ _); exact Hh)).
  specialize (Hk (Some (cx_eos (context_at (w_rt w) i))) status (fresh_adapter w)).
  destruct (advc_vaapi_decode_eos_state_signal _ _ _ _) as [[[res st] status'] a]. cbn [fst snd] in *.
  destruct Hk as [[Ha Hs] Hh]; [split; [split; [by rewrite app_nil_r|reflexivity]|done]|].
  unfold held in Ha. rewrite Hh, app_nil_r in Ha.
  destruct (set_eos_ok _ _ i (default (cx_eos (context_at (w_rt (ad_world a)) i)) st) _ Ha) as [H1 H2].
  split; [exact H1|]. by etrans.
Qed.

(** ** Draining and queueing *)

Lemma drain_spec t l i w : wown t l w ->
  wp (drain_one_output i) (fun _ w' => drained_ok t l (w_rt w) w') w.
Proof.
  intros Hw. unfold drain_one_output. apply wp_bind, wp_gets. cbn zeta. destruct (negb _).
  - unfold private_eos_drain_one. apply wp_bind. eapply wp_mono; [by apply progress_locked_spec|].
    intros [res st] w1 H1. by apply wp_ret.
  - apply wp_bind. eapply wp_call; [apply handsw_socket; intros p; apply hands_dequeue|rewrite app_nil_r; exact Hw|].
    intros [[st out] d] w1 Hr1 Hw1 Hq. unfold output_fds in *. cbn [fst snd] in *. fold (out_fds out) in Hw1, Hq.
    rewrite <- Hr1. destruct (st =? ADVC_STATUS_WOULD_BLOCK) eqn:E1.
    { destruct Hq as [->|Hq]; [done|]. rewrite Hq, app_nil_r in Hw1. by split. }
    destruct (Z.eqb_spec st ADVC_STATUS_OK) as [E|E]; cbn [negb].
    + eapply wp_mono; [by apply deliver_spec|]. intros x w2 [H1 H2]. by split.
    + destruct Hq as [?|Hq]; [done|]. rewrite Hq, app_nil_r in Hw1. by split.
Qed.

Lemma queue_bytes_spec t l i data pts flags w : wown t l w ->
  wp (queue_bytes i data pts flags) (fun _ w' => wown t l w' /\ w_rt w' = w_rt w) w.
Proof.
  intros Hw. unfold queue_bytes. apply wp_bind, wp_gets. cbn zeta. set (inline := _ <=? _). apply wp_bind.
  assert (handsw (R := runtime) [] (if inline then mret (-1) else kernel (create_sealed_memfd data)) opt_fd (fun _ => True)) as Hfd.
  { destruct inline; [by apply handsw_ret|apply handsw_kernel, hands_sealed_memfd]. }
  eapply wp_call; [exact Hfd|rewrite app_nil_r; exact Hw|]. clear Hfd. intros fd w1 Hr1 Hw1 _.
  destruct (negb inline && (fd <? 0)) eqn:E.
  { apply andb_true_iff in E as [_ E]. apply Z.ltb_lt in E. rewrite opt_fd_neg, app_nil_r in Hw1 by done. by split. }
  cbn zeta. apply wp_bind.
  eapply wp_call; [apply handsw_socket; intros p; apply hands_queue_input|rewrite app_nil_r; exact Hw1|].
  intros [st d] w2 Hr2 Hw2 _. rewrite app_nil_r in Hw2. apply wp_bind.
  eapply wp_call; [apply handsw_kernel, hands_close_if|exact Hw2|]. intros ? w3 Hr3 Hw3 _. rewrite app_nil_r in Hw3.
  destruct (st =? ADVC_STATUS_OK); [apply wp_ret; split; [done|congruence]|].
  eapply (wp_call _ [] l (fun _ => []) (fun _ => True)); [|rewrite app_nil_r; exact Hw3|].
  - apply (handsw_bind _ _ _ (fun _ => []) (fun _ => True)); [|intros ? _; by apply handsw_ret].
    repeat (destruct (st =? _); [apply handsw_inert; auto with inert|]).
    destruct (0 <=? st); [apply handsw_inert; auto with inert|by apply handsw_ret].
  - intros x w4 Hr4 Hw4 _. rewrite app_nil_r in Hw4. split; [done|congruence].
Qed.

Lemma queue_spec t l n i data pts flags w : wown t l w ->
  wp (queue_attempts n i data pts flags) (fun _ w' => drained_ok t l (w_rt w) w') w.
Proof.
  revert w. induction n as [|n IH]; intros w Hw; cbn [queue_attempts].
  - eapply wp_call; [apply (handsw_inert []); auto with inert|rewrite app_nil_r; exact Hw|].
    intros x w1 Hr Hw1 _. rewrite app_nil_r in Hw1. split; [done|by rewrite Hr].
  - apply wp_bind. eapply wp_mono; [by apply queue_bytes_spec|]. intros q w1 [Hw1 Hr1]. rewrite <- Hr1.
    destruct (q =? 0); [by split|]. apply wp_bind.
    eapply wp_call; [apply (handsw_inert []); auto with inert|rewrite app_nil_r; exact Hw1|].
    intros e w2 Hr2 Hw2 _. rewrite app_nil_r in Hw2. rewrite <- Hr2. destruct (negb _); [by split|]. apply wp_bind.
    eapply wp_mono; [by apply drain_spec|]. intros d w3 [Hw3 Hs3]. destruct (d <? 0); [by split|]. apply wp_bind.
    eapply (wp_call _ []); [|rewrite app_nil_r; exact Hw3|].
    { instantiate (1 := fun _ => True). instantiate (1 := fun _ => []).
      destruct (d =? 0); [apply handsw_pause|by apply handsw_ret]. }
    intros ? w4 Hr4 Hw4 _. rewrite app_nil_r in Hw4. eapply wp_mono; [by apply IH|].
    intros x w5 [Hw5 Hs5]. rewrite Hr4 in Hs5. split; [done|by etrans].
Qed.
End Queue.
