(* ===== verification/DecodeInv.v ===== *)
(** * The invariant of the decode runtime

    [runtime_ok] says what the tables hold between two entry points: a live
    context has a live configuration of its codec, its staged slices lie inside the
    staged bytes, a buffer is as large as it says and has the shape its context's
    codec reads, the surface a picture is begun on is vacant and belongs to that
    picture alone, a surface that waits for an output has a live owner and a
    timestamp of its own.  The lemmas give the condition under which each kind of
    update keeps it. *)

From stdpp Require Import base list gmap.
From Stdlib Require Import ZArith Lia Bool.
From S2P Require Import Prelude Kernel Protocol Dmabuf Engine Client ClientConnect World Va VaapiRoutes VaapiPolicy DecodeEos AnnexB Hevc Vp9 DecodeState DecodeStaging DecodeOutput DecodeSlices DecodeOwn DecodeDrain.

(** ** Identifiers *)

Definition context_slot (id : Z) : option nat := id_index id ADVC_VAAPI_TYPE_CONTEXT ADVC_VAAPI_CONTEXT_SLOTS.
Definition surface_slot (id : Z) : option nat := id_index id ADVC_VAAPI_TYPE_SURFACE ADVC_VAAPI_SURFACE_SLOTS.

Lemma id_index_Some id type limit i : id_index id type limit = Some i ->
  Z.land id (Z.lxor UINT32_MAX ADVC_VAAPI_INDEX_MASK) = type /\
  Z.land id ADVC_VAAPI_INDEX_MASK = Z.of_nat i + 1 /\ Z.of_nat i < limit.
Proof.
  unfold id_index. destruct (Z.eqb_spec (Z.land id (Z.lxor UINT32_MAX ADVC_VAAPI_INDEX_MASK)) type); cbn [negb]; [|done].
  destruct (_ || _) eqn:E; [done|]. intros H. injection H as <-.
  assert (0 <= Z.land id ADVC_VAAPI_INDEX_MASK) by (apply Z.land_nonneg; right; done). lia.
Qed.

(** An identifier has one slot and a slot one identifier. *)
Lemma u32_split id : is_u32 id ->
  id = Z.lor (Z.land id (Z.lxor UINT32_MAX ADVC_VAAPI_INDEX_MASK)) (Z.land id ADVC_VAAPI_INDEX_MASK).
Proof.
  intros H. rewrite <- Z.land_lor_distr_r. change (Z.lor _ ADVC_VAAPI_INDEX_MASK) with (Z.ones 32).
  rewrite Z.land_ones by lia. unfold is_u32 in H. rewrite Z.mod_small; lia.
Qed.
Lemma slot_id id type limit i : is_u32 id -> id_index id type limit = Some i -> id = make_id type i.
Proof.
  intros Hu Hi. apply id_index_Some in Hi as (Ht & Hl & _). rewrite (u32_split id Hu), Ht, Hl. done.
Qed.
Lemma slot_inj id id' type limit i : is_u32 id -> is_u32 id' ->
  id_index id type limit = Some i -> id_index id' type limit = Some i -> id = id'.
Proof. intros H1 H2 H3 H4. by rewrite (slot_id _ _ _ _ H1 H3), (slot_id _ _ _ _ H2 H4). Qed.

Lemma id_slot type limit i : In (type, limit)
    [(ADVC_VAAPI_TYPE_CONFIG, ADVC_VAAPI_CONFIG_SLOTS); (ADVC_VAAPI_TYPE_CONTEXT, ADVC_VAAPI_CONTEXT_SLOTS);
     (ADVC_VAAPI_TYPE_SURFACE, ADVC_VAAPI_SURFACE_SLOTS); (ADVC_VAAPI_TYPE_BUFFER, ADVC_VAAPI_BUFFER_SLOTS)] ->
  Z.of_nat i < limit -> id_index (make_id type i) type limit = Some i /\ is_u32 (make_id type i).
Proof.
  intros Hin Hi.
  assert (forallb (fun p => forallb (fun k =>
    bool_decide (id_index (make_id (fst p) k) (fst p) (snd p) = Some k) &&
    (0 <=? make_id (fst p) k) && (make_id (fst p) k <? 2 ^ 32)) (seq 0 (Z.to_nat (snd p))))
    [(ADVC_VAAPI_TYPE_CONFIG, ADVC_VAAPI_CONFIG_SLOTS); (ADVC_VAAPI_TYPE_CONTEXT, ADVC_VAAPI_CONTEXT_SLOTS);
     (ADVC_VAAPI_TYPE_SURFACE, ADVC_VAAPI_SURFACE_SLOTS); (ADVC_VAAPI_TYPE_BUFFER, ADVC_VAAPI_BUFFER_SLOTS)] = true)
    as H by (vm_compute; reflexivity).
  rewrite forallb_forall in H. specialize (H _ Hin). cbn [fst snd] in H. rewrite forallb_forall in H.
  specialize (H i). rewrite in_seq, !andb_true_iff, bool_decide_eq_true in H. unfold is_u32.
  destruct H as [[-> ?] ?]; [lia|]. split; [done|lia].
Qed.

(** ** The invariant *)

Definition waiting (x : surface) : Prop := sf_used x = true /\ sf_state x = SURFACE_PENDING.
Definition vacant (x : surface) : Prop := sf_state x = SURFACE_IDLE /\ sf_prime_reserved x = false.

(** The slot of the surface a context's picture is begun on. *)
Definition target_slot (c : context) : option nat :=
  if cx_used c && sg_picture_active (cx_staging c) then surface_slot (sg_target (cx_staging c)) else None.

Definition config_of (r : runtime) (c : context) : Prop :=
  is_u32 (cx_config_id c) /\ exists k, get_config r (cx_config_id c) = Some k /\
  cx_codec c = codec_for_profile (cf_profile (config_at r k)).

(** The owner of a waiting surface. *)
Definition owner_live (r : runtime) (x : surface) : Prop :=
  is_u32 (sf_owner_context x) /\ exists i, context_slot (sf_owner_context x) = Some i /\
  cx_used (context_at r i) = true /\ cx_broker_session (context_at r i) = sf_owner_session x.

Section Invariant.
Context (abi : va_abi).

(** The shape of a buffer is the one its context's codec reads. *)
Definition shape_fits (r : runtime) (b : buffer) : Prop :=
  is_u32 (bf_context_id b) /\
  forall i, context_slot (bf_context_id b) = Some i -> cx_used (context_at r i) = true ->
  buffer_shape_supported abi (cx_codec (context_at r i)) (bf_type b) (bf_element_size b)
    (bf_capacity_elements b) = true.

Record runtime_ok (r : runtime) : Prop := {
  rk_configs : length (rt_configs r) = 8%nat;
  rk_buffers : length (rt_buffers r) = 256%nat;
  rk_pts : 0 < rt_next_pts_ns r <= INT64_MAX;
  rk_config : forall i, cx_used (context_at r i) = true -> config_of r (context_at r i);
  rk_staging : forall i, cx_used (context_at r i) = true ->
    staging_ok (cx_codec (context_at r i)) (cx_staging (context_at r i));
  rk_buffer : forall k, bf_used (buffer_at r k) = true ->
    buffer_wf (buffer_at r k) /\ shape_fits r (buffer_at r k);
  rk_vacant : forall i s, target_slot (context_at r i) = Some s ->
    sf_used (surface_at r s) = true -> vacant (surface_at r s);
  rk_alone : forall i j s, target_slot (context_at r i) = Some s ->
    target_slot (context_at r j) = Some s -> i = j;
  rk_owner : forall s, waiting (surface_at r s) -> owner_live r (surface_at r s);
  rk_stamp : forall s, waiting (surface_at r s) -> 0 < sf_pts_ns (surface_at r s) < rt_next_pts_ns r;
  rk_unique : forall s s', waiting (surface_at r s) -> waiting (surface_at r s') ->
    sf_pts_ns (surface_at r s) = sf_pts_ns (surface_at r s') -> s = s' }.

(** ** Updates that keep it *)

(** *** Surfaces *)

(** Surfaces that change stop waiting, and stay or become vacant where a picture is
    begun on them. *)
Lemma ok_surfaces r l : runtime_ok r ->
  (forall s, let x := surface_at (set_surfaces l r) s in x = surface_at r s \/
     (~ waiting x /\ (sf_used x = true -> vacant x \/ forall i, target_slot (context_at r i) <> Some s))) ->
  runtime_ok (set_surfaces l r).
Proof.
  intros [] Hl. cbn zeta in Hl.
  assert (forall s, waiting (surface_at (set_surfaces l r) s) -> surface_at (set_surfaces l r) s = surface_at r s) as Hw.
  { intros s Hs. destruct (Hl s) as [?|[? _]]; done. }
  split; try done.
  - intros i s Hi Hu. specialize (rk_vacant0 i s Hi). destruct (Hl s) as [E|[_ Hv]]; [rewrite E in *; auto|].
    destruct (Hv Hu) as [?|Hn]; [done|]. by destruct (Hn i).
  - intros s Hs. pose proof (Hw s Hs) as E. rewrite E in Hs |- *. by apply rk_owner0.
  - intros s Hs. pose proof (Hw s Hs) as E. rewrite E in Hs |- *. by apply rk_stamp0.
  - intros s s' Hs Hs'. pose proof (Hw s Hs) as E. pose proof (Hw s' Hs') as E'. rewrite E in Hs |- *.
    rewrite E' in Hs' |- *. by apply rk_unique0.
Qed.

Lemma ok_surface r s f : runtime_ok r ->
  (forall x, ~ waiting (f x)) ->
  (forall x, sf_used (f x) = true -> vacant (f x) \/ forall i, target_slot (context_at r i) <> Some s) ->
  runtime_ok (on_surface s f r).
Proof.
  intros Hr Hf Hv. apply ok_surfaces; [done|]. intros k x.
  destruct (decide (k = s)) as [->|Hk].
  - unfold x, surface_at. cbn. rewrite list_lookup_alter_eq. destruct (rt_surfaces r !! s); cbn; [right; split; auto|by left].
  - left. by apply surface_at_other.
Qed.

(** A surface starts to wait with a new timestamp. *)
Lemma ok_pending r s pts owner session : runtime_ok r -> tables_ok r ->
  0 < pts < rt_next_pts_ns r -> (forall k, waiting (surface_at r k) -> sf_pts_ns (surface_at r k) < pts) ->
  (forall i, target_slot (context_at r i) <> Some s) ->
  (is_u32 owner /\ exists i, context_slot owner = Some i /\ cx_used (context_at r i) = true /\
     cx_broker_session (context_at r i) = session) ->
  runtime_ok (on_surface s (fun x => set_state SURFACE_PENDING (set_submission pts owner session x)) r).
Proof.
  intros [] Ht Hp Hnew Htgt Hown. set (f := fun x => _). set (r' := on_surface s f r).
  assert (forall k, waiting (surface_at r' k) -> (k = s /\ surface_at r' k = f (surface_at r s)) \/
    (k <> s /\ surface_at r' k = surface_at r k)) as Hcase.
  { intros k Hk. destruct (decide (k = s)) as [->|Hne]; [left|right; split; [done|by apply surface_at_other]].
    split; [done|]. unfold r', surface_at in Hk |- *. cbn in Hk |- *. rewrite list_lookup_alter_eq in Hk |- *.
    by destruct (rt_surfaces r !! s); [|destruct Hk]. }
  split; try done.
  - intros i k Hi Hu. destruct (decide (k = s)) as [->|Hne]; [by destruct (Htgt i)|].
    unfold r' in *. rewrite surface_at_other in Hu |- * by done. by eapply rk_vacant0.
  - intros k Hk. destruct (Hcase k Hk) as [[-> ->]|[Hne E]]; [done|]. rewrite E in Hk |- *. by apply rk_owner0.
  - intros k Hk. destruct (Hcase k Hk) as [[-> ->]|[Hne E]]; [done|]. rewrite E in Hk |- *. by apply rk_stamp0.
  - intros k k' Hk Hk'. destruct (Hcase k Hk) as [[-> E]|[Hne E]], (Hcase k' Hk') as [[-> E']|[Hne' E']]; rewrite ?E, ?E'; try done.
    + rewrite E' in Hk'. pose proof (Hnew _ Hk'). cbn. lia.
    + rewrite E in Hk. pose proof (Hnew _ Hk). cbn. lia.
    + rewrite E in Hk. rewrite E' in Hk'. by apply rk_unique0.
Qed.

(** *** Contexts *)

(** The members the tables refer to. *)
Definition same_core (c c' : context) : Prop :=
  cx_used c' = cx_used c /\ cx_config_id c' = cx_config_id c /\ cx_codec c' = cx_codec c /\
  cx_broker_session c' = cx_broker_session c.

Lemma context_at_on r i f k : context_at (on_context i f r) k = context_at r k \/
  (k = i /\ context_at (on_context i f r) k = f (context_at r i)).
Proof.
  destruct (decide (k = i)) as [->|Hk]; [|left; by apply context_at_other].
  unfold context_at. cbn. rewrite list_lookup_alter_eq. destruct (rt_contexts r !! i); cbn; [by right|by left].
Qed.

Lemma ok_context r i f : runtime_ok r -> same_core (context_at r i) (f (context_at r i)) ->
  (cx_used (context_at r i) = true -> staging_ok (cx_codec (context_at r i)) (cx_staging (f (context_at r i)))) ->
  (forall s, target_slot (f (context_at r i)) = Some s -> (sf_used (surface_at r s) = true -> vacant (surface_at r s)) /\
     forall j, j <> i -> target_slot (context_at r j) <> Some s) ->
  runtime_ok (on_context i f r).
Proof.
  intros [] (C1 & C2 & C3 & C4) Hg Ht.
  assert (forall k, cx_used (context_at (on_context i f r) k) = cx_used (context_at r k) /\
    cx_config_id (context_at (on_context i f r) k) = cx_config_id (context_at r k) /\
    cx_codec (context_at (on_context i f r) k) = cx_codec (context_at r k) /\
    cx_broker_session (context_at (on_context i f r) k) = cx_broker_session (context_at r k)) as Hc.
  { intros k. destruct (context_at_on r i f k) as [->|[-> ->]]; done. }
  split; try done.
  - intros k Hu. destruct (Hc k) as (E1 & E2 & E3 & E4). rewrite E1 in Hu. destruct (rk_config0 k Hu) as (? & n & ? & ?).
    unfold config_of. rewrite E2, E3. eauto.
  - intros k Hu. destruct (Hc k) as (E1 & E2 & E3 & E4). rewrite E1 in Hu. rewrite E3.
    destruct (context_at_on r i f k) as [->|[-> ->]]; auto.
  - intros k Hu. destruct (rk_buffer0 k Hu) as (? & ? & Hs). split; [done|]. split; [done|].
    intros j Hj Hju. destruct (Hc j) as (E1 & _ & E3 & _). rewrite E1 in Hju. rewrite E3. by apply Hs.
  - intros k s Hk. destruct (context_at_on r i f k) as [E|[-> E]]; rewrite E in Hk; [by eapply rk_vacant0|].
    by apply Ht.
  - intros k j s Hk Hj. destruct (context_at_on r i f k) as [E|[-> E]], (context_at_on r i f j) as [E'|[-> E']];
      rewrite E in Hk; rewrite E' in Hj; try done.
    + by eapply rk_alone0.
    + destruct (decide (k = i)) as [->|Hn]; [done|]. destruct (Ht _ Hj) as [_ H]. by destruct (H k).
    + destruct (decide (j = i)) as [->|Hn]; [done|]. destruct (Ht _ Hk) as [_ H]. by destruct (H j).
  - intros s Hs. destruct (rk_owner0 s Hs) as (? & j & ? & Hju & Hjs). split; [done|]. exists j.
    destruct (Hc j) as (E1 & _ & _ & E4). rewrite E1, E4. done.
Qed.

(** A context without a picture being staged. *)
Lemma ok_reset r i : runtime_ok r -> runtime_ok (on_context i (set_staging reset_staging) r).
Proof.
  intros Hr. apply ok_context; [done|done|intros _; apply reset_ok|].
  intros s Hs. unfold target_slot in Hs. cbn in Hs. by rewrite andb_false_r in Hs.
Qed.

(** Members the tables do not refer to. *)
Lemma ok_context_member r i f : runtime_ok r ->
  (forall c, same_core c (f c) /\ cx_staging (f c) = cx_staging c) -> runtime_ok (on_context i f r).
Proof.
  intros Hr Hf. destruct (Hf (context_at r i)) as [Hc Hs]. apply ok_context; [done|done|..].
  - intros Hu. rewrite Hs. by apply rk_staging.
  - intros s Ht. assert (target_slot (context_at r i) = Some s) as Ht0.
    { unfold target_slot in *. destruct Hc as (E & _). by rewrite E, Hs in Ht. }
    split; [by eapply rk_vacant|]. intros j Hj Htj. apply Hj. by eapply rk_alone.
Qed.

(** A slot gets another context that nothing refers to yet. *)
Lemma ok_replace r i c : runtime_ok r -> tables_ok r -> (i < 4)%nat -> target_slot c = None ->
  (cx_used c = true -> config_of r c /\ staging_ok (cx_codec c) (cx_staging c) /\
     forall k, bf_used (buffer_at r k) = true -> context_slot (bf_context_id (buffer_at r k)) <> Some i) ->
  (forall s, waiting (surface_at r s) -> context_slot (sf_owner_context (surface_at r s)) <> Some i) ->
  runtime_ok (on_context i (fun _ => c) r).
Proof.
  intros Hr Ht Hi Htc Hc Hw.
  assert (forall k, context_at (on_context i (fun _ => c) r) k = if decide (k = i) then c else context_at r k) as Hat.
  { intros k. destruct (decide (k = i)) as [->|Hk]; [by apply (context_at_same r i (fun _ => c))|by apply context_at_other]. }
  destruct Hr. split; try done.
  - intros k. rewrite Hat. destruct (decide (k = i)); [intros Hu; by apply Hc|]. apply rk_config0.
  - intros k. rewrite Hat. destruct (decide (k = i)); [intros Hu; by apply Hc|]. apply rk_staging0.
  - intros k Hk. destruct (rk_buffer0 k Hk) as (? & ? & Hs). split; [done|]. split; [done|]. intros j Hj. rewrite Hat.
    destruct (decide (j = i)) as [->|]; [|by apply Hs]. intros Hu. destruct (Hc Hu) as (_ & _ & Hb). by destruct (Hb k Hk).
  - intros k s. rewrite Hat. destruct (decide (k = i)); [by rewrite Htc|]. apply rk_vacant0.
  - intros k j s. rewrite !Hat. destruct (decide (k = i)), (decide (j = i)); rewrite ?Htc; try done. apply rk_alone0.
  - intros s Hs. destruct (rk_owner0 s Hs) as (? & j & Hj & Hju & Hjs). split; [done|]. exists j. rewrite Hat.
    destruct (decide (j = i)) as [->|]; [by destruct (Hw s Hs)|done].
Qed.

(** *** The other tables *)

Lemma ok_buffer r k f : runtime_ok r ->
  (bf_used (f (buffer_at r k)) = true ->
   buffer_wf (f (buffer_at r k)) /\ shape_fits r (f (buffer_at r k))) ->
  runtime_ok (on_buffer k f r).
Proof.
  intros [] Hf. split; try done.
  - cbn. by rewrite length_alter.
  - intros j Hu. unfold buffer_at in *. cbn in *. destruct (decide (j = k)) as [->|Hj].
    + rewrite list_lookup_alter_eq in Hu |- *. destruct (rt_buffers r !! k) as [b|]; [|done]. by apply Hf.
    + rewrite list_lookup_alter_ne in Hu |- * by done. by apply rk_buffer0.
Qed.

Lemma ok_next_pts r n : runtime_ok r -> rt_next_pts_ns r <= n <= INT64_MAX -> runtime_ok (set_next_pts n r).
Proof.
  intros [] Hn. split; try done.
  - cbn. lia.
  - intros s Hs. specialize (rk_stamp0 s Hs). cbn in *. change (surface_at (set_next_pts n r) s) with (surface_at r s). lia.
Qed.

(** *** Serving a connection *)

Lemma same_context_core c c' : same_context c c' -> same_core c c' /\ cx_staging c' = cx_staging c.
Proof.
  intros H. unfold same_context in H. unfold same_core. split_and!;
    [exact (f_equal cx_used H)|exact (f_equal cx_config_id H)|exact (f_equal cx_codec H)|
     exact (f_equal cx_broker_session H)|exact (f_equal cx_staging H)].
Qed.

Lemma settles_waiting r r' s : served r r' -> waiting (surface_at r' s) ->
  waiting (surface_at r s) /\ same_surface (surface_at r s) (surface_at r' s).
Proof.
  intros Hs Hw. destruct (sv_surface _ _ Hs s) as [E|E].
  - rewrite E in *. split; [done|]. by unfold same_surface.
  - destruct E as [Hu Hp Hsame _]. by split.
Qed.

Lemma ok_served r r' : runtime_ok r -> served r r' -> runtime_ok r'.
Proof.
  intros [] Hs. pose proof (settles_waiting r r') as Hw.
  assert (forall k, same_core (context_at r k) (context_at r' k) /\
    cx_staging (context_at r' k) = cx_staging (context_at r k)) as Hc.
  { intros k. apply same_context_core. by apply sv_context. }
  assert (forall k, target_slot (context_at r' k) = target_slot (context_at r k)) as Ht.
  { intros k. destruct (Hc k) as [(E1 & _) E5]. unfold target_slot. by rewrite E1, E5. }
  assert (forall k, buffer_at r' k = buffer_at r k) as Hb by (intros k; unfold buffer_at; by rewrite (sv_buffers _ _ Hs)).
  assert (forall k, config_at r' k = config_at r k) as Hk by (intros k; unfold config_at; by rewrite (sv_configs _ _ Hs)).
  split.
  - by rewrite (sv_configs _ _ Hs).
  - by rewrite (sv_buffers _ _ Hs).
  - by rewrite (sv_pts _ _ Hs).
  - intros i Hu. destruct (Hc i) as [(E1 & E2 & E3 & _) _]. rewrite E1 in Hu. destruct (rk_config0 i Hu) as (? & n & Hn & ?).
    unfold config_of, get_config in *. rewrite E2, E3. split; [done|]. exists n. rewrite Hk. split; [|done].
    destruct (id_index _ _ _) as [j|]; [|done]. cbn in *. by rewrite Hk.
  - intros i Hu. destruct (Hc i) as [(E1 & E2 & E3 & _) E5]. rewrite E1 in Hu. rewrite E3, E5. auto.
  - intros k. rewrite Hb. intros Hu. destruct (rk_buffer0 k Hu) as (? & ? & Hsh). split; [done|]. split; [done|].
    intros i Hi Hui. destruct (Hc i) as [(E1 & _ & E3 & _) _]. rewrite E1 in Hui. rewrite E3. by apply Hsh.
  - intros i s. rewrite Ht. intros Hi Hu. destruct (sv_surface _ _ Hs s) as [E|E].
    + rewrite E in *. by eapply rk_vacant0.
    + destruct E as [Hu0 Hp0 _ _]. destruct (rk_vacant0 _ _ Hi Hu0) as [Hid _]. congruence.
  - intros i j s. rewrite !Ht. apply rk_alone0.
  - intros s Hsw. destruct (Hw s Hs Hsw) as [Hws (_ & _ & _ & _ & E1 & E2)]. destruct (rk_owner0 s Hws) as (? & i & ? & Hu & Hss).
    unfold owner_live. rewrite E1, E2. split; [done|]. exists i. destruct (Hc i) as [(D1 & _ & _ & D4) _]. by rewrite D1, D4.
  - intros s Hsw. destruct (Hw s Hs Hsw) as [Hws (_ & _ & _ & E & _)]. rewrite E, (sv_pts _ _ Hs). auto.
  - intros s s' H1 H2. destruct (Hw s Hs H1) as [Hw1 (_ & _ & _ & E1 & _)], (Hw s' Hs H2) as [Hw2 (_ & _ & _ & E2 & _)].
    rewrite E1, E2. auto.
Qed.
End Invariant.
