(* ===== verification/DecodeEntry.v ===== *)
(** * The entry points keep the invariant

    Every locked section of the decode runtime, started where the process holds
    exactly the runtime's descriptors and the callers' ([wown]) and the tables are
    well formed ([runtime_ok]), ends in such a state again, with the descriptors it
    hands out added. *)

From stdpp Require Import base list gmap.
From Stdlib Require Import ZArith Lia Bool String.
#[local] Notation length := List.length.
From S2P Require Import Prelude Kernel Protocol Dmabuf Engine EngineFiles EngineInv EngineSafe Broker BrokerLive Client ClientSafe ClientConnect World Va VaapiRoutes VaapiPolicy DecodeEos AnnexB Hevc Vp9 DecodeState DecodeStaging DecodeOutput DecodeRuntime DecodeSlices DecodeOwn DecodeDrain DecodeQueue DecodeInv.

Section Entry.
Context {dr : driver} {Hdr : DriverOk dr}.

Definition wok (t : ledger) (l : list Z) (w : world) : Prop :=
  wown t l w /\ runtime_ok dr_abi (w_rt w).

Lemma wok_perm t l l' w : l ≡ₚ l' -> wok t l w -> wok t l' w.
Proof. intros Hl [H1 H2]. split; [by eapply wown_perm|done]. Qed.

(** A call that leaves the tables alone. *)
Lemma wok_call {A} (c : St world A) l l' F Q t w (P : A -> world -> Prop) :
  handsw l c F Q -> wok t (l' ++ l) w ->
  (forall a w', w_rt w' = w_rt w -> wok t (l' ++ F a) w' -> Q a -> P a w') -> wp c P w.
Proof.
  intros Hc [Hw Hr] HP. eapply wp_call; [exact Hc|exact Hw|]. intros a w' E Hw' Hq. apply HP; [done| |done].
  split; [done|]. by rewrite E.
Qed.
Lemma wok_inert {A} (c : St process A) t l w (P : A -> world -> Prop) :
  inert c -> wok t l w -> (forall a w', w_rt w' = w_rt w -> wok t l w' -> P a w') -> wp (kernel c) P w.
Proof.
  intros Hc Hw HP. eapply (wok_call _ [] l); [by apply handsw_inert|by rewrite app_nil_r|].
  intros a w' E Hw' _. rewrite app_nil_r in Hw'. by apply HP.
Qed.

(** An update of a table that owns nothing. *)
Lemma wok_update f t l w (P : unit -> world -> Prop) : wok t l w ->
  rt_contexts (f (w_rt w)) = rt_contexts (w_rt w) -> rt_surfaces (f (w_rt w)) = rt_surfaces (w_rt w) ->
  runtime_ok dr_abi (f (w_rt w)) -> (wok t l (set_rt (f (w_rt w)) w) -> P tt (set_rt (f (w_rt w)) w)) ->
  wp (update f) P w.
Proof.
  intros [(H1 & H2 & H3) _] Ec Es Hr HP. apply HP. split; [|done]. split_and!; [done| |].
  - destruct H2. split; cbn; rewrite ?Ec, ?Es; done.
  - unfold owned in *. cbn. by rewrite Ec, Es.
Qed.

(** ** Configurations *)

Lemma ok_configs r l : runtime_ok dr_abi r -> length l = 8%nat ->
  (forall i k, cx_used (context_at r i) = true -> get_config r (cx_config_id (context_at r i)) = Some k ->
     config_at (set_configs l r) k = config_at r k) -> runtime_ok dr_abi (set_configs l r).
Proof.
  intros [] Hl Hk. split; try done. intros i Hu. destruct (rk_config i Hu) as (Hid & k & Hg & Hc).
  split; [done|]. exists k. pose proof (Hk i k Hu Hg) as E. change (context_at (set_configs l r) i) with (context_at r i).
  rewrite E. split; [|done]. unfold get_config in *. destruct (id_index _ _ _) as [j|] eqn:Ej; [|done]. cbn in *.
  destruct (cf_used (config_at r j)) eqn:Eu; [|done]. injection Hg as ->. by rewrite E, Eu.
Qed.

Lemma get_config_Some r id k : get_config r id = Some k ->
  id_index id ADVC_VAAPI_TYPE_CONFIG ADVC_VAAPI_CONFIG_SLOTS = Some k /\ cf_used (config_at r k) = true.
Proof.
  unfold get_config. destruct (id_index _ _ _) as [j|]; [|done]. cbn. destruct (cf_used _) eqn:E; [|done].
  intros H. by injection H as ->.
Qed.

Lemma config_at_insert r i c k : config_at (set_configs (<[i := c]> (rt_configs r)) r) k = config_at r k \/ k = i.
Proof.
  destruct (decide (k = i)) as [->|Hn]; [by right|left]. unfold config_at. cbn. by rewrite list_lookup_insert_ne.
Qed.

Lemma create_config_spec profile vld attrs n t l w : wok t l w ->
  wp (advc_vaapi_decode_create_config profile vld attrs n) (fun _ w' => wok t l w') w.
Proof.
  intros Hw. pose proof Hw as [_ Hr]. unfold advc_vaapi_decode_create_config. apply wp_bind, wp_gets.
  repeat (destruct (_ : bool); [done|]). destruct (first_slot _ _) as [i|] eqn:Ei; [|done].
  apply first_slot_Some in Ei as (c & Hc & Hn). apply wp_bind. eapply wok_update; [exact Hw|done|done| |by intros].
  apply ok_configs; [done|by rewrite length_insert; apply Hr|]. intros j k Hu Hk.
  apply get_config_Some in Hk as [_ Hk]. destruct (config_at_insert (w_rt w) i (Config true profile) k) as [E| ->]; [done|].
  unfold config_at in Hk. rewrite Hc in Hk. cbn in Hk. by rewrite Hk in Hn.
Qed.

Lemma destroy_config_spec id t l w : is_u32 id -> wok t l w ->
  wp (advc_vaapi_decode_destroy_config id) (fun _ w' => wok t l w') w.
Proof.
  intros Hid Hw. pose proof Hw as [_ Hr]. unfold advc_vaapi_decode_destroy_config. apply wp_bind, wp_gets.
  destruct (get_config _ id) as [i|] eqn:Ei; [|done]. destruct (existsb _ _) eqn:Ex; [done|].
  apply get_config_Some in Ei as [Ei _]. apply wp_bind. eapply wok_update; [exact Hw|done|done| |by intros].
  apply ok_configs; [done|by rewrite length_insert; apply Hr|]. intros j k Hu Hk.
  apply get_config_Some in Hk as [Hk _]. destruct (config_at_insert (w_rt w) i zero_config k) as [E| ->]; [done|].
  destruct (rk_config _ _ Hr j Hu) as [Hu32 _]. pose proof (slot_inj _ _ _ _ _ Hu32 Hid Hk Ei) as E. exfalso.
  assert (existsb (fun c => cx_used c && (cx_config_id c =? id)) (rt_contexts (w_rt w)) = true) as Hx; [|congruence].
  apply existsb_exists. exists (context_at (w_rt w) j). rewrite Hu, E, Z.eqb_refl. split; [|done].
  unfold context_at in Hu |- *. destruct (rt_contexts (w_rt w) !! j) as [c|] eqn:Ec; [|done].
  apply list_elem_of_In. by eapply list_elem_of_lookup_2.
Qed.

(** ** Surfaces *)

(** Free slots are filled or cleared. *)
Lemma wok_slots t l w k : wok t l w -> length k = 64%nat ->
  (forall s x, k !! s = Some x -> x = surface_at (w_rt w) s \/
     (sf_used (surface_at (w_rt w) s) = false /\ (x = zero_surface \/ exists a b, x = fresh_surface a b))) ->
  wok t l (set_rt (set_surfaces k (w_rt w)) w).
Proof.
  intros [(H1 & H2 & H3) Hr] Hl Hk. set (r := w_rt w) in *.
  assert (forall a b, surface_ok (fresh_surface a b)) as Hfresh by (intros; split; [apply zero_typed|done|done]).
  assert (tables_ok (set_surfaces k r)) as Ht.
  { split; [apply H2|done| |apply H2]. cbn. apply Forall_lookup_2. intros s x Hx Hu.
    destruct (Hk s x Hx) as [-> |[_ [-> |(a & b & ->)]]]; [by apply surface_at_ok|done|apply Hfresh]. }
  split; [split_and!; [done|done|]|].
  - assert (forall i, surface_fds <$> (k !! i) = surface_fds <$> (rt_surfaces r !! i)) as Hp.
    { intros i. destruct (k !! i) as [x|] eqn:E.
      - pose proof (lookup_lt_Some _ _ _ E) as Hlt. rewrite (surface_lookup r i H2) by lia. cbn. f_equal.
        destruct (Hk i x E) as [-> |[Hu [-> |(a & b & ->)]]]; [done|..]; unfold surface_fds at 2; by rewrite Hu.
      - apply lookup_ge_None in E. rewrite (proj2 (lookup_ge_None _ _)); [done|]. rewrite (tk_surfaces _ H2). lia. }
    assert (surface_fds <$> k = surface_fds <$> rt_surfaces r) as Heq.
    { apply list_eq. intros i. by rewrite !list_lookup_fmap. }
    assert (forall q : list surface, q ≫= surface_fds = List.concat (surface_fds <$> q)) as Hb
      by (intros q; induction q as [|y q IH]; [done|]; cbn; f_equal; exact IH).
    unfold owned in *. cbn -[mbind] in *. rewrite Hb in H3 |- *. by rewrite Heq.
  - apply ok_surfaces; [done|]. intros s x. assert (x = default zero_surface (k !! s)) as Hx by done. clearbody x.
    subst x. destruct (k !! s) as [y|] eqn:E; cbn [default from_option id].
    + destruct (Hk s y E) as [-> |[Hu [-> |(a & b & ->)]]]; [by left|right; split; [by intros [? ?]|done]|].
      right. split; [by intros [? ?]|]. intros _. by left.
    + right. split; [by intros [? ?]|done].
Qed.

Lemma allocate_spec wd ht room k l :
  let '(l', ks) := allocate_surfaces wd ht room k l in
  length l' = length l /\
  (forall j x, l' !! j = Some x -> l !! j = Some x \/
     (exists y, l !! j = Some y /\ sf_used y = false /\ x = fresh_surface wd ht)) /\
  Forall (fun j => (k <= j)%nat /\ exists y, l !! (j - k)%nat = Some y /\ sf_used y = false) ks.
Proof.
  revert room k. induction l as [|y l IH]; intros room k; cbn [allocate_surfaces].
  - destruct room; (split_and!; [done|by intros|done]).
  - destruct room as [|room]; [split_and!; [done|by left|done]|].
    assert (forall ks, Forall (fun j => (S k <= j)%nat /\ exists y, l !! (j - S k)%nat = Some y /\ sf_used y = false) ks ->
      Forall (fun j => (k <= j)%nat /\ exists z, (y :: l) !! (j - k)%nat = Some z /\ sf_used z = false) ks) as Hshift.
    { intros ks Hks. eapply Forall_impl; [exact Hks|]. intros j (Hj & z & Hz & Hu). split; [lia|]. exists z. split; [|done].
      replace (j - k)%nat with (S (j - S k)) by lia. done. }
    destruct (sf_used y) eqn:Ey.
    + specialize (IH (S room) (S k)). destruct (allocate_surfaces _ _ _ _ l) as [l' ks]. destruct IH as (H1 & H2 & H3).
      split_and!; [cbn; lia| |by apply Hshift]. intros [|j] x Hx; cbn in *; [by left|]. by apply H2.
    + specialize (IH room (S k)). destruct (allocate_surfaces _ _ _ _ l) as [l' ks]. destruct IH as (H1 & H2 & H3).
      split_and!; [cbn; lia| |].
      * intros [|j] x Hx; cbn in *; [right|by apply H2]. exists y. by injection Hx as <-.
      * apply Forall_cons. split; [|by apply Hshift]. split; [lia|]. exists y. by rewrite Nat.sub_diag.
Qed.

(** Clearing the slots of a failed allocation. *)
Lemma clear_slots (ks : list nat) (l : list surface) :
  let l' := foldl (fun l k => <[k := zero_surface]> l) l ks in
  length l' = length l /\ forall j x, l' !! j = Some x -> l !! j = Some x \/ (j ∈ ks /\ x = zero_surface).
Proof.
  revert l. induction ks as [|k ks IH]; intros l; cbn [foldl]; [split; [done|by left]|].
  destruct (IH (<[k := zero_surface]> l)) as [H1 H2]. split; [by rewrite H1, length_insert|].
  intros j x Hx. destruct (H2 j x Hx) as [Hj|[Hj ->]]; [|right; split; [by constructor|done]].
  destruct (decide (j = k)) as [->|Hn]; [|rewrite list_lookup_insert_ne in Hj by done; by left].
  right. split; [by constructor|]. apply list_lookup_insert_Some in Hj as [(_ & <- & _)|[? _]]; done.
Qed.

Lemma create_surfaces_spec fmt wd ht n attrs na t l w : wok t l w ->
  wp (advc_vaapi_decode_create_surfaces fmt wd ht n attrs na) (fun _ w' => wok t l w') w.
Proof.
  intros Hw. pose proof Hw as [(_ & Hok & _) Hr]. unfold advc_vaapi_decode_create_surfaces. apply wp_bind, wp_gets.
  destruct (advertised_surface_limits _) as [mw mh]. repeat (destruct (_ : bool); [done|]).
  destruct (attributes_refused _); [done|].
  pose proof (allocate_spec wd ht (Z.to_nat n) 0 (rt_surfaces (w_rt w))) as Ha.
  destruct (allocate_surfaces _ _ _ _ _) as [k ks]. destruct Ha as (H1 & H2 & H3).
  assert (forall s x, k !! s = Some x -> x = surface_at (w_rt w) s \/
    (sf_used (surface_at (w_rt w) s) = false /\ (x = zero_surface \/ exists a b, x = fresh_surface a b))) as Hk.
  { intros s x Hx. unfold surface_at. destruct (H2 s x Hx) as [-> |(y & -> & Hy & ->)]; [by left|right]. eauto. }
  rewrite (tk_surfaces _ Hok) in H1. destruct (negb _); apply wp_bind, wp_modify, wp_ret.
  - destruct (clear_slots ks k) as [C1 C2]. apply wok_slots; [done|congruence|]. intros s x Hx.
    destruct (C2 s x Hx) as [Hs|[Hs ->]]; [by apply Hk|right]. rewrite Forall_forall in H3.
    destruct (H3 s Hs) as (_ & y & Hy & Hu). rewrite Nat.sub_0_r in Hy. unfold surface_at. rewrite Hy. by split; [|left].
  - by apply wok_slots.
Qed.

(** Releasing a surface. *)
Lemma wok_release t l s w : wok t l w -> sf_used (surface_at (w_rt w) s) = true ->
  wp (release_surface_output s) (fun _ w' => w_rt w' = on_surface s released (w_rt w) /\ wok t l w') w.
Proof.
  intros [Hw Hr] Hu. eapply wp_mono; [by apply release_spec|]. intros a w' [E Hw']. split; [done|]. split; [done|].
  rewrite E. apply ok_surface; [done|..].
  - intros x [_ Hx]. done.
  - intros x _. by left.
Qed.

Lemma get_surface_Some r id s : get_surface r id = Some s -> surface_slot id = Some s /\ sf_used (surface_at r s) = true.
Proof.
  unfold get_surface, surface_slot. destruct (id_index _ _ _) as [j|]; [|done]. cbn. destruct (sf_used _) eqn:E; [|done].
  intros H. by injection H as ->.
Qed.
Lemma get_context_Some r id i : get_context r id = Some i -> context_slot id = Some i /\ cx_used (context_at r i) = true.
Proof.
  unfold get_context, context_slot. destruct (id_index _ _ _) as [j|]; [|done]. cbn. destruct (cx_used _) eqn:E; [|done].
  intros H. by injection H as ->.
Qed.

Definition live_surface (r : runtime) (id : Z) : Prop := is_Some (get_surface r id).

(** A slot that was cleared is no longer live; the others are as they were. *)
Lemma cleared_live r s id id' : tables_ok r -> is_u32 id -> is_u32 id' -> get_surface r id = Some s ->
  live_surface (on_surface s (fun _ => zero_surface) r) id' <-> live_surface r id' /\ id' <> id.
Proof.
  intros Hok Hid Hid' Hs. pose proof (get_surface_Some _ _ _ Hs) as [Hslot Hus]. pose proof (used_index _ _ Hok Hus) as Hlt.
  split.
  - intros [s' Hs']. pose proof (get_surface_Some _ _ _ Hs') as [Hslot' Hus'].
    assert (s' <> s) as Hne by (intros ->; rewrite surface_at_same in Hus' by done; done).
    rewrite surface_at_other in Hus' by done. split; [|intros ->; congruence]. exists s'. unfold get_surface.
    change (id_index _ _ _) with (surface_slot id'). rewrite Hslot'. cbn. by rewrite Hus'.
  - intros [[s' Hs'] Hne]. pose proof (get_surface_Some _ _ _ Hs') as [Hslot' Hus']. exists s'. unfold get_surface.
    change (id_index _ _ _) with (surface_slot id'). rewrite Hslot'. cbn. rewrite surface_at_other; [by rewrite Hus'|].
    intros ->. apply Hne. by apply (slot_inj id' id _ _ _ Hid' Hid Hslot' Hslot).
Qed.

(** The loop ends exactly when it meets every surface live. *)
Lemma destroy_surfaces_loop_spec ids t l w : Forall is_u32 ids -> wok t l w ->
  wp (destroy_surface_loop ids) (fun x w' =>
    match x with
    | Some _ => wok t l w' /\ NoDup ids /\ Forall (live_surface (w_rt w)) ids
    | None => ~ (NoDup ids /\ Forall (live_surface (w_rt w)) ids)
    end) w.
Proof.
  revert w. induction ids as [|id ids IH]; intros w Hu Hw; cbn [destroy_surface_loop]; [by split_and!; [|apply NoDup_nil|]|].
  apply Forall_cons in Hu as [Hid Hu]. apply wp_bind, wp_gets.
  destruct (get_surface (w_rt w) id) as [s|] eqn:Hs.
  2:{ apply wp_ret. intros [_ [[s Hl] _]%Forall_cons]. congruence. }
  pose proof (get_surface_Some _ _ _ Hs) as [Hslot Hus]. apply wp_bind.
  eapply wp_mono; [by apply wok_release|]. intros a w1 [E1 Hw1]. apply wp_bind, wp_modify. pose proof Hw as [(_ & Hok & _) _].
  pose proof (used_index _ _ Hok Hus) as Hlt. set (w2 := set_rt _ w1).
  assert (wok t l w2) as Hw2.
  { destruct Hw1 as [(A1 & A2 & A3) Hr1]. split; [split_and!; [done|..]|]; cbn.
    - apply tables_ok_surface; [done|]. by intros.
    - eapply holds_Permutation; [|exact A3]. apply owned_surface_perm; [done|done|]. rewrite E1, surface_at_same by done.
      by rewrite released_fds.
    - apply ok_surface; [done|by intros x [? ?]|by intros]. }
  assert (forall id', is_u32 id' -> live_surface (w_rt w2) id' <-> live_surface (w_rt w) id' /\ id' <> id) as Hlive.
  { intros id' Hid'. unfold w2. cbn. rewrite E1, on_surface_twice. by apply cleared_live. }
  assert (Forall (live_surface (w_rt w2)) ids <-> Forall (live_surface (w_rt w)) ids /\ id ∉ ids) as Hall.
  { rewrite !Forall_forall in *. split.
    - intros H. split; [intros x Hx; by apply Hlive; auto|]. intros Hin. by destruct (proj1 (Hlive id Hid) (H id Hin)).
    - intros [H Hn] x Hx. apply Hlive; auto. split; auto. by intros ->. }
  assert (NoDup (id :: ids) /\ Forall (live_surface (w_rt w)) (id :: ids) <->
    NoDup ids /\ Forall (live_surface (w_rt w2)) ids) as Hsame.
  { rewrite NoDup_cons, Forall_cons, Hall. split; [tauto|]. intros (? & ? & ?). split_and!; try done. by exists s. }
  eapply wp_mono; [by apply IH|]. intros [st|] w3; [|by rewrite Hsame]. intros [Hw3 H]. split; [done|]. by apply Hsame.
Qed.

(** [surfaces[0 .. n)] are live, and one is listed twice. *)
Definition listed_twice (r : runtime) (ids : option (list Z)) (n : Z) : Prop :=
  let ids := take (Z.to_nat n) (default [] ids) in Forall (live_surface r) ids /\ ~ NoDup ids.

Lemma destroy_surfaces_spec ids n t l w : Forall is_u32 (take (Z.to_nat n) (default [] ids)) -> wok t l w ->
  wp (advc_vaapi_decode_destroy_surfaces ids n) (fun x w' =>
    match x with
    | Some _ => wok t l w' /\ ~ listed_twice (w_rt w) ids n
    | None => listed_twice (w_rt w) ids n
    end) w.
Proof.
  intros Hu Hw. unfold advc_vaapi_decode_destroy_surfaces, listed_twice. apply wp_bind, wp_gets. cbn zeta. destruct (_ || _) eqn:E.
  { apply wp_ret. split; [done|]. intros [_ Hn]. apply Hn. apply orb_true_iff in E as [E|E].
    - replace (Z.to_nat n) with 0%nat by lia. rewrite take_0. apply NoDup_nil. done.
    - apply andb_true_iff in E as [_ ->%bool_decide_eq_true]. cbn. rewrite take_nil. by apply NoDup_nil. }
  destruct (forallb _ _) eqn:El.
  - assert (Forall (live_surface (w_rt w)) (take (Z.to_nat n) (default [] ids))) as Hall.
    { apply Forall_forall. intros id Hid. rewrite forallb_forall in El. specialize (El id). rewrite bool_decide_eq_true in El.
      apply El. by apply list_elem_of_In. }
    eapply wp_mono; [by apply destroy_surfaces_loop_spec|]. intros [st|] w'; [|intros H; split; [done|]; tauto].
    intros (Hw' & Hn & _). split; [done|]. by intros [_ ?].
  - apply wp_ret. split; [done|]. intros [Hall _]. rewrite <- not_true_iff_false in El. apply El. apply forallb_forall.
    intros id Hid. apply bool_decide_eq_true. rewrite Forall_forall in Hall. by apply Hall, list_elem_of_In.
Qed.

(** ** Contexts *)

Lemma hands_connect path :
  hands [] (on_environment (advc_client_connect_bounded (attempts_bound ADVC_CLIENT_CONNECT_TIMEOUT_MS) dr_hooks
    (Some path) ADVC_CLIENT_CONNECT_TIMEOUT_MS)) (fun x => opt_fd (default (-1) x)) (fun _ => True).
Proof.
  apply hands_keeps. intros t m Hi. unfold on_environment. set (n := Machine _ _ _ _ _ _ _ _ _).
  destruct (connect_bounded_ends (attempts_bound ADVC_CLIENT_CONNECT_TIMEOUT_MS) dr_hooks (Some path)
    ADVC_CLIENT_CONNECT_TIMEOUT_MS n dk_hooks) as (r & n' & -> & Hc & _); [done|done|].
  apply installed_same in Hi. cbn in *. split_and!; [done| |done]. subst t. destruct Hc as [[-> ->]|(Hr & Hc & _)].
  - apply installed_nil.
  - by rewrite opt_fd_pos.
Qed.

Lemma handsw_connect path : handsw [] (connect_broker path) opt_fd (fun _ => True).
Proof.
  unfold connect_broker. eapply handsw_bind; [apply handsw_kernel, hands_connect|]. intros x _. cbn zeta.
  eapply (handsw_bind _ _ _ (fun _ => opt_fd (default (-1) x)) (fun _ => True)); [|intros ? _; by apply handsw_ret].
  destruct (_ <=? _); [apply handsw_attach|by apply handsw_ret].
Qed.

Definition opened_fds (x : option (Z * Z)) : list Z := match x with Some (fd, _) => [fd] | None => [] end.

Lemma handsw_open path : handsw [] (open_broker path) opened_fds
  (fun x => forall fd f, x = Some (fd, f) -> 0 <= fd).
Proof.
  unfold open_broker. eapply handsw_bind; [apply handsw_connect|]. intros fd _.
  destruct (Z.ltb_spec fd 0) as [Hn|Hn]; [apply handsw_ret; [by rewrite opt_fd_neg|done]|]. rewrite opt_fd_pos by done.
  eapply (handsw_bind _ _ _ (fun _ => [fd]) (fun _ => True)).
  { eapply handsw_weaken; [apply (handsw_frame [fd]), handsw_socket; intros p; apply hands_hello|done|].
    intros ? _. cbn beta. by rewrite app_nil_r. }
  intros [st ans] _.
  assert (handsw (R := runtime) [fd] (kernel (sys_close fd) ;; mret None) opened_fds (fun x => forall k f, x = Some (k, f) -> 0 <= k)) as Hc.
  { eapply handsw_weaken; [by apply (handsw_hang_up fd None opened_fds)|done|]. by intros a ->. }
  destruct ans as [[f mp]|]; [|exact Hc]. destruct (_ || _); [exact Hc|]. apply handsw_ret; [done|]. by intros k g [= -> ->].
Qed.

(** A free slot is filled. *)
Lemma wok_new_context t l i fd c w : wok t (l ++ [fd]) w -> (i < 4)%nat -> cx_used (context_at (w_rt w) i) = false ->
  cx_used c = true -> cx_broker_fd c = fd -> 0 <= fd -> config_of (w_rt w) c -> cx_staging c = reset_staging ->
  (forall k, bf_used (buffer_at (w_rt w) k) = true -> context_slot (bf_context_id (buffer_at (w_rt w) k)) <> Some i) ->
  wok t l (set_rt (on_context i (fun _ => c) (w_rt w)) w).
Proof.
  intros [(H1 & H2 & H3) Hr] Hi Hfree Hu Hfd Hpos Hcfg Hst Hbuf. set (r := w_rt w) in *.
  split; [split_and!; [done|..]|]; cbn.
  - by apply tables_ok_context; [|intros; rewrite Hfd].
  - eapply holds_Permutation; [|exact H3]. apply owned_context_perm; [done|done|]. unfold context_fds. fold r.
    rewrite Hfree, Hu, Hfd. solve_Permutation.
  - apply ok_replace; try done; [unfold target_slot; by rewrite Hst, andb_false_r|..].
    + intros _. split_and!; [done|rewrite Hst; apply reset_ok|done].
    + intros s Hs Ho. destruct (rk_owner _ _ Hr s Hs) as (_ & j & Hj & Hju & _). congruence.
Qed.

(** A live context leaves: nothing waits for it. *)
Lemma wok_drop_context t l i w c : world_fits w -> tables_ok (w_rt w) -> runtime_ok dr_abi (w_rt w) -> (i < 4)%nat ->
  holds t w (owned (on_context i (fun _ => c) (w_rt w)) ++ l) -> cx_used c = false ->
  (forall s, waiting (surface_at (w_rt w) s) -> context_slot (sf_owner_context (surface_at (w_rt w) s)) <> Some i) ->
  wok t l (set_rt (on_context i (fun _ => c) (w_rt w)) w).
Proof.
  intros H1 H2 Hr Hi H3 Hc Hw. set (r := w_rt w) in *. split; [split_and!; [done| |exact H3]|]; cbn.
  - apply tables_ok_context; [done|]. intros _ Hx. congruence.
  - apply ok_replace; try done; [unfold target_slot; by rewrite Hc|]. congruence.
Qed.

(** No buffer outlives the context it was created for. *)
Definition buffers_live (r : runtime) : Prop :=
  forall k, bf_used (buffer_at r k) = true -> is_Some (get_context r (bf_context_id (buffer_at r k))).

Lemma open_context_spec i id wd ht k t l w : wok t l w -> is_u32 id -> get_config (w_rt w) id = Some k ->
  (i < 4)%nat -> cx_used (context_at (w_rt w) i) = false -> buffers_live (w_rt w) ->
  wp (open_context i id wd ht (cf_profile (config_at (w_rt w) k))) (fun _ w' => wok t l w') w.
Proof.
  intros Hw Hid Hk Hi Hfree Hb. unfold open_context. apply wp_bind, wp_gets, wp_bind.
  eapply wok_call; [apply handsw_open|rewrite app_nil_r; exact Hw|]. intros [[fd feats]|] w1 E1 Hw1 Hpos; cbn [opened_fds] in Hw1;
    [|rewrite app_nil_r in Hw1; done]. specialize (Hpos _ _ eq_refl). cbn zeta. apply wp_bind.
  eapply wok_call; [apply handsw_socket_frame; intros p; apply hands_create|exact Hw1|].
  intros [[st sid] d] w2 E2 Hw2 _. destruct (negb _).
  { eapply wok_call; [by apply (handsw_hang_up fd (VA_STATUS_ERROR_OPERATION_FAILED, 0) (fun _ => []))|exact Hw2|].
    intros a w3 _ Hw3 _. by rewrite app_nil_r in Hw3. }
  destruct (qcom_unavailable _ _).
  - apply wp_bind. eapply wok_call; [apply handsw_socket_frame; intros p; apply hands_session_status|exact Hw2|].
    intros ? w3 E3 Hw3 _. apply wp_bind.
    eapply wok_call; [apply handsw_kernel, hands_sys_close|exact Hw3|]. intros ? w4 E4 Hw4 _. rewrite app_nil_r in Hw4.
    apply wp_bind, wp_modify, wp_ret. assert (w_rt w4 = w_rt w) as E by congruence. destruct Hw4 as [(A1 & A2 & A3) A4].
    apply wok_drop_context; try done.
    + eapply holds_Permutation; [|exact A3]. apply owned_context_perm; [done|done|]. unfold context_fds.
      rewrite E, Hfree. done.
    + intros s Hs Ho. destruct (rk_owner _ _ A4 s Hs) as (_ & j & Hj & Hju & _). rewrite E in *. congruence.
  - apply wp_bind, wp_modify, wp_ret. assert (w_rt w2 = w_rt w) as E by congruence.
    apply (wok_new_context t l i fd); rewrite ?E; try done.
    + split; [done|]. by exists k.
    + intros j Hj Hs. destruct (Hb j Hj) as [n Hn]. apply get_context_Some in Hn as [Hn Hu]. congruence.
Qed.

Lemma create_context_spec id wd ht targets n t l w : wok t l w -> is_u32 id -> buffers_live (w_rt w) ->
  wp (advc_vaapi_decode_create_context id wd ht targets n) (fun _ w' => wok t l w') w.
Proof.
  intros Hw Hid Hb. unfold advc_vaapi_decode_create_context. apply wp_bind, wp_gets. destruct (_ || _); [done|].
  destruct (get_config _ id) as [k|] eqn:Ek; [|done]. cbn zeta. destruct (profile_limits _ _) as [mw mh].
  destruct (_ || _); [done|]. destruct (existsb _ _); [done|]. destruct (first_slot _ _) as [i|] eqn:Ei; [|done].
  apply first_slot_Some in Ei as (c & Hc & Hn). pose proof Hw as [(_ & Hok & _) _].
  apply open_context_spec; try done.
  - apply lookup_lt_Some in Hc. rewrite (tk_contexts _ Hok) in Hc. lia.
  - unfold context_at. rewrite Hc. by apply negb_true_iff in Hn.
Qed.

(** Surfaces released one after the other. *)
Lemma for_each_release (p : runtime -> nat -> bool) t l slots w :
  (forall r s, p r s = true -> sf_used (surface_at r s) = true) ->
  (forall r s s', s' <> s -> p (on_surface s released r) s' = p r s') ->
  (forall r s, tables_ok r -> (s < 64)%nat -> p (on_surface s released r) s = false) ->
  wok t l w ->
  wp (for_each slots (fun s => r ← the_runtime; if p r s then release_surface_output s else mret tt))
    (fun _ w' => wok t l w' /\ rt_contexts (w_rt w') = rt_contexts (w_rt w) /\
       (forall s, p (w_rt w') s = true -> p (w_rt w) s = true) /\
       forall s, s ∈ slots -> p (w_rt w') s = false) w.
Proof.
  intros Hused Hother Hsame. revert w. induction slots as [|s slots IH]; intros w Hw; cbn [for_each foldr].
  { split_and!; try done. intros s Hs. by apply not_elem_of_nil in Hs. }
  apply wp_bind, wp_bind, wp_gets. destruct (p (w_rt w) s) eqn:Ep.
  - pose proof (Hused _ _ Ep) as Hu. eapply wp_mono; [by apply wok_release|]. intros a w1 [E1 Hw1].
    eapply wp_mono; [by apply IH|]. intros ? w2 (Hw2 & Hc2 & Hm2 & Hs2). rewrite E1 in Hc2, Hm2.
    pose proof Hw as [(_ & Hok & _) _].
    assert (p (on_surface s released (w_rt w)) s = false) as Hoff by (apply Hsame; [done|by eapply used_index]).
    split_and!; [done|done|..].
    + intros k Hk. specialize (Hm2 k Hk). destruct (decide (k = s)) as [->|Hne]; [congruence|]. by rewrite Hother in Hm2.
    + intros k [->|Hk]%elem_of_cons; [|by apply Hs2]. destruct (p (w_rt w2) s) eqn:E; [|done]. specialize (Hm2 s E). congruence.
  - apply wp_ret. eapply wp_mono; [by apply IH|]. intros ? w2 (Hw2 & Hc2 & Hm2 & Hs2). split_and!; [done|done|done|].
    intros k [->|Hk]%elem_of_cons; [|by apply Hs2]. destruct (p (w_rt w2) s) eqn:E; [|done]. specialize (Hm2 s E). congruence.
Qed.

Lemma hands_recycle fd : hands [] (on_environment (advc_client_recycle_broker_socket dr_recycle fd)) (fun _ => [])
  (fun x => x = -1).
Proof.
  apply hands_keeps. intros t m Hi. rewrite dk_recycle. unfold on_environment, advc_client_recycle_broker_socket. by cbn.
Qed.

Lemma handsw_retire st fd : handsw [fd] (retire_socket st fd) (fun _ => []) (fun _ => True).
Proof.
  unfold retire_socket. destruct (negb _); [apply handsw_kernel, hands_sys_close|].
  eapply (handsw_bind _ _ _ (fun _ => [fd]) (fun x => x = -1)).
  - eapply handsw_weaken; [apply (handsw_frame [fd]), handsw_kernel, hands_recycle|done|]. intros a Ha. cbn; done.
  - intros x ->. apply handsw_kernel, hands_sys_close.
Qed.

Lemma destroy_context_spec id t l w : wok t l w -> is_u32 id ->
  wp (advc_vaapi_decode_destroy_context id) (fun _ w' => wok t l w') w.
Proof.
  intros Hw Hid. unfold advc_vaapi_decode_destroy_context. apply wp_bind, wp_gets.
  destruct (get_context _ id) as [i|] eqn:Ei; [|done]. apply get_context_Some in Ei as [Hslot Hu]. cbn zeta.
  pose proof Hw as [(_ & Hok & _) _]. pose proof (used_context _ _ Hok Hu) as Hi. apply wp_bind.
  eapply wp_mono; [apply (for_each_release (fun r s => sf_used (surface_at r s) && (sf_owner_context (surface_at r s) =? id)) t l)|].
  { intros r s H. by apply andb_true_iff in H as [? _]. }
  { intros r s s' Hne. by rewrite surface_at_other. }
  { intros r s Hr Hs. rewrite surface_at_same by done. cbn [released sf_used sf_owner_context].
    destruct (Z.eqb_spec 0 id) as [<-|_]; [|apply andb_false_r]. vm_compute in Hslot. done. }
  { exact Hw. }
  intros _ w1 (Hw1 & Hc1 & _ & Hfree). apply wp_bind, wp_modify.
  assert (context_at (w_rt w1) i = context_at (w_rt w) i) as Ec by (unfold context_at; by rewrite Hc1).
  assert (wok t l (set_rt (on_context i (set_staging reset_staging) (w_rt w1)) w1)) as Hw2.
  { destruct Hw1 as [(A1 & A2 & A3) A4]. split; [split_and!; [done|..]|]; cbn [w_rt set_rt].
    - apply tables_ok_context; [done|]. cbn. intros _ Hx. by apply used_socket.
    - by rewrite owned_context_same.
    - by apply ok_reset. }
  set (w2 := set_rt _ w1) in *. apply wp_bind.
  eapply (wok_call _ [] l); [apply handsw_socket_frame; intros p; apply hands_session_status|rewrite app_nil_r; exact Hw2|].
  intros ? w3 E3 Hw3 _. rewrite app_nil_r in Hw3. apply wp_bind.
  eapply (wok_call _ [] l); [apply handsw_socket_frame; intros p; apply hands_session_status|rewrite app_nil_r; exact Hw3|].
  intros [st d] w4 E4 Hw4 _. rewrite app_nil_r in Hw4. apply wp_bind.
  destruct Hw4 as [(B1 & B2 & B3) B4]. assert (w_rt w4 = w_rt w2) as E by congruence.
  assert (cx_used (context_at (w_rt w4) i) = true /\ cx_broker_fd (context_at (w_rt w4) i) = cx_broker_fd (context_at (w_rt w) i))
    as [Hu4 Hf4].
  { rewrite E. unfold w2. cbn [w_rt set_rt]. rewrite context_at_same by (done || apply Hw1). cbn. by rewrite Ec. }
  set (c := set_broker_fd (-1) zero_context).
  eapply (wp_handsw _ [cx_broker_fd (context_at (w_rt w) i)] _ _ (owned (on_context i (fun _ => c) (w_rt w4)) ++ l));
    [apply handsw_retire|exact B1| |].
  { eapply holds_Permutation; [|exact B3]. rewrite <- app_assoc. apply owned_context_perm; [done|done|].
    unfold context_fds. rewrite Hu4, Hf4. cbn. solve_Permutation. }
  intros ? w5 C1 C2 C3 _. rewrite app_nil_r in C3. apply wp_bind, wp_modify, wp_ret. rewrite <- C2 in *.
  apply wok_drop_context; try done. intros s [Hs1 Hs2] Ho.
  assert (surface_at (w_rt w5) s = surface_at (w_rt w1) s) as Es by (by rewrite E).
  rewrite Es in *. destruct (rk_owner _ _ (proj2 Hw1) s (conj Hs1 Hs2)) as [Hou _].
  assert (sf_used (surface_at (w_rt w1) s) && (sf_owner_context (surface_at (w_rt w1) s) =? id) = false) as Hx.
  { apply Hfree. pose proof Hw1 as [(_ & Hok1 & _) _]. pose proof (used_index _ _ Hok1 Hs1).
    apply list_elem_of_In, in_seq. change (Z.to_nat ADVC_VAAPI_SURFACE_SLOTS) with 64%nat. lia. }
  rewrite Hs1, (slot_inj _ _ _ _ _ Hou Hid Ho Hslot), Z.eqb_refl in Hx. done.
Qed.

(** ** Buffers *)

Lemma get_buffer_Some r id k : get_buffer r id = Some k -> bf_used (buffer_at r k) = true.
Proof.
  unfold get_buffer. destruct (id_index _ _ _) as [j|]; [|done]. cbn. destruct (bf_used _) eqn:E; [|done].
  intros H. by injection H as <-.
Qed.

Lemma create_buffer_spec id type size n data t l w : wok t l w -> is_u32 id -> 0 <= size -> 0 <= n ->
  (forall d, data = Some d -> size * n <= zlen d) ->
  wp (advc_vaapi_decode_create_buffer id type size n data) (fun _ w' => wok t l w') w.
Proof.
  intros Hw Hid Hsize Hn Hd. unfold advc_vaapi_decode_create_buffer. apply wp_bind, wp_gets.
  destruct (_ || _) eqn:Eg; [done|]. cbn zeta. destruct (_ <? size * n); [done|].
  destruct (get_context _ id) as [i|] eqn:Ei; [|done]. apply get_context_Some in Ei as [Hslot Hu].
  destruct (negb _) eqn:Es; [done|]. apply negb_false_iff in Es. destruct (first_slot _ _) as [k|]; [|done]. apply wp_bind.
  eapply wok_inert; [apply inert_alloc|exact Hw|]. intros ok w1 E1 Hw1. rewrite <- E1 in *. destruct (negb ok); apply wp_bind.
  - eapply wok_update; [exact Hw1|done|done| |by intros]. apply ok_buffer; [apply Hw1|by intros].
  - eapply wok_update; [exact Hw1|done|done| |by intros]. apply ok_buffer; [apply Hw1|]. intros _. split.
    + split; cbn; [lia|lia|]. destruct data as [d|]; [|unfold zeros, zlen; rewrite length_replicate; nia].
      specialize (Hd d eq_refl). unfold zlen in *. rewrite length_take. nia.
    + split; [done|]. cbn. intros j Hj _. assert (j = i) as -> by congruence. done.
Qed.

(** A buffer keeps its shape. *)
Lemma wok_buffer k f t l w (P : unit -> world -> Prop) : wok t l w -> bf_used (buffer_at (w_rt w) k) = true ->
  (let b := buffer_at (w_rt w) k in buffer_wf b -> buffer_wf (f b) /\ bf_context_id (f b) = bf_context_id b /\
     bf_type (f b) = bf_type b /\ bf_element_size (f b) = bf_element_size b /\
     bf_capacity_elements (f b) = bf_capacity_elements b) ->
  (forall w', wok t l w' -> P tt w') -> wp (update (on_buffer k f)) P w.
Proof.
  intros Hw Hu Hf HP. eapply wok_update; [exact Hw|done|done| |apply HP]. destruct Hw as [_ Hr].
  apply ok_buffer; [done|]. intros _. destruct (rk_buffer _ _ Hr k Hu) as (Hwf & Hid & Hs).
  destruct (Hf Hwf) as (H1 & H2 & H3 & H4 & H5). split; [done|]. unfold shape_fits. rewrite H2, H3, H4, H5. done.
Qed.

Lemma set_num_elements_spec id n t l w : wok t l w -> 0 <= n ->
  wp (advc_vaapi_decode_buffer_set_num_elements id n) (fun _ w' => wok t l w') w.
Proof.
  intros Hw Hn. unfold advc_vaapi_decode_buffer_set_num_elements. apply wp_bind, wp_gets. destruct (n =? 0) eqn:E0; [done|].
  destruct (get_buffer _ id) as [k|] eqn:Ek; [|done]. apply get_buffer_Some in Ek. destruct (_ <? n) eqn:El; [done|].
  apply wp_bind. eapply wok_buffer; [exact Hw|done| |by intros]. intros b [B1 B2 B3]. split; [|done].
  split; cbn; [done| |done]. fold b in El. lia.
Qed.

Lemma map_buffer_spec id t l w : wok t l w -> wp (advc_vaapi_decode_map_buffer id) (fun _ w' => wok t l w') w.
Proof.
  intros Hw. unfold advc_vaapi_decode_map_buffer. apply wp_bind, wp_gets. destruct (get_buffer _ id) as [k|] eqn:Ek; [|done].
  apply get_buffer_Some in Ek. destruct (bf_mapped _); [done|]. apply wp_bind.
  eapply wok_buffer; [exact Hw|done| |by intros]. intros b [B1 B2 B3]. split; [by split|done].
Qed.
Lemma unmap_buffer_spec id t l w : wok t l w -> wp (advc_vaapi_decode_unmap_buffer id) (fun _ w' => wok t l w') w.
Proof.
  intros Hw. unfold advc_vaapi_decode_unmap_buffer. apply wp_bind, wp_gets. destruct (get_buffer _ id) as [k|] eqn:Ek; [|done].
  apply get_buffer_Some in Ek. destruct (negb _); [done|]. apply wp_bind.
  eapply wok_buffer; [exact Hw|done| |by intros]. intros b [B1 B2 B3]. split; [by split|done].
Qed.
Lemma destroy_buffer_spec id t l w : wok t l w -> wp (advc_vaapi_decode_destroy_buffer id) (fun _ w' => wok t l w') w.
Proof.
  intros Hw. unfold advc_vaapi_decode_destroy_buffer. apply wp_bind, wp_gets. destruct (get_buffer _ id) as [k|]; [|done].
  apply wp_bind. eapply wok_update; [exact Hw|done|done| |by intros]. apply ok_buffer; [apply Hw|by intros].
Qed.
Lemma application_write_spec id off bytes t l w : wok t l w ->
  wp (application_write id off bytes) (fun _ w' => wok t l w') w.
Proof.
  intros Hw. unfold application_write. destruct (get_buffer (w_rt w) id) as [k|] eqn:Ek.
  - pose proof (get_buffer_Some _ _ _ Ek) as Hu. unfold update. apply wp_modify. rewrite Ek.
    apply (wok_buffer k _ t l w (fun _ w' => wok t l w')) ; [done|done| |done]. intros b [B1 B2 B3].
    split; [|done]. split; cbn; [done|done|]. unfold zlen in *. by rewrite length_inserts.
  - apply wp_modify. rewrite Ek. by destruct w.
Qed.
End Entry.
