(* ===== verification/DecodePicture.v ===== *)
(** * Pictures, synchronisation and export keep the invariant

    The rest of DecodeEntry.v: waiting for a surface, the three steps of a picture
    ([begin], [render], [end]), export, the end-of-stream calls and the end of the
    runtime. *)

From stdpp Require Import base list gmap.
From Stdlib Require Import ZArith Lia Bool.
From S2P Require Import Prelude Kernel Protocol Dmabuf Engine EngineFiles EngineInv EngineSafe Broker BrokerLive Client ClientSafe ClientConnect World Va VaapiRoutes VaapiPolicy DecodeEos AnnexB Hevc Vp9 DecodeState DecodeStaging DecodeOutput DecodeRuntime DecodeSlices DecodeOwn DecodeDrain DecodeQueue DecodeInv DecodeEntry.

Section Picture.
Context {dr : driver} {Hdr : DriverOk dr}.

Lemma wok_drained t l w w' : wok t l w -> drained_ok t l (w_rt w) w' -> wok t l w'.
Proof. intros [_ Hr] [Hw Hs]. split; [done|]. by eapply ok_served. Qed.

(** ** Synchronisation *)

Lemma hands_dup {B} fd : hands (B := B) [] (fcntl_dupfd_cloexec fd) opt_fd (fun _ => True).
Proof.
  apply hands_keeps. intros t m Hi. apply installed_same in Hi. subst t. unfold fcntl_dupfd_cloexec.
  destruct (m_fds m !! fd) as [f|]; [|cbn; split_and!; [done|apply installed_nil|done]].
  destruct (install_fd_spec (FdInfo true (fd_kind f)) m) as [(m' & E & Hf)|(Hl & E)]; rewrite E; cbn.
  - destruct (quiet_install (FdInfo true (fd_kind f)) m) as (_ & _ & Hs). rewrite E in Hs.
    split_and!; [done|rewrite Hf; apply installed_nil|done].
  - pose proof (lowest_free_spec (m_fds m)) as [Hn _]. rewrite opt_fd_pos by lia. split_and!; [done|apply installed_one|done].
Qed.

Definition step_fds (x : sync_outcome) : list Z := match x with SyncFence fd => opt_fd fd | _ => [] end.

Lemma sync_step_spec id t l w : wok t l w ->
  wp (sync_step id) (fun x w' => wok t (l ++ step_fds x) w') w.
Proof.
  intros Hw. assert (wok t (l ++ []) w) as Hw0 by (by rewrite app_nil_r). unfold sync_step. apply wp_bind, wp_gets.
  destruct (get_surface _ id) as [s|]; [|done]. cbn zeta. destruct (sf_state _); try done.
  - destruct (id_index _ _ _) as [i|]; [|done]. destruct (cx_used _); [|done]. apply wp_bind.
    eapply wp_mono; [apply drain_spec, Hw|]. intros x w1 H1. apply wp_ret. cbn. rewrite app_nil_r. by eapply wok_drained.
  - destruct (_ <=? _); [|done]. apply wp_bind. eapply wok_call; [apply handsw_kernel, hands_dup|exact Hw0|].
    intros fd w1 _ Hw1 _. by apply wp_ret.
Qed.

Lemma hands_poll_fence fuel l fd ms : hands l (poll_fence fuel fd ms) (fun _ => l) (fun _ => True).
Proof.
  induction fuel as [|fuel IH]; [by apply hands_ret|]. cbn [poll_fence].
  eapply (hands_bind _ _ _ (fun _ => l) (fun _ => True)).
  { apply hands_keeps. intros t m Hi. unfold on_environment. set (n := Machine _ _ _ _ _ _ _ _ _).
    assert (m_fds (snd (sys_poll true ms n)) = m_fds m) as Hf.
    { unfold sys_poll. destruct (ce_polls (m_be n)) as [|[] ?]; done. }
    destruct (sys_poll true ms n) as [a n']. cbn in *. by rewrite Hf. }
  intros [rc o] _. eapply hands_bind; [apply hands_inert, inert_errno|]. intros e _. destruct (_ && _); [apply IH|].
  eapply hands_bind; [apply hands_inert, inert_gets|]. intros tb _. destruct (_ && _); [by apply hands_ret|].
  eapply (hands_bind _ _ _ (fun _ => l) (fun _ => True)); [|intros ? _; by apply hands_ret].
  destruct (_ =? 0); [apply hands_inert; auto with inert|by apply hands_ret].
Qed.

Lemma handsw_sync_fence fd start limit : handsw (opt_fd fd) (sync_fence fd start limit) (fun _ => []) (fun _ => True).
Proof.
  unfold sync_fence. destruct (Z.ltb_spec fd 0); [apply handsw_ret; [by rewrite opt_fd_neg|done]|].
  eapply handsw_bind; [apply handsw_monotonic|]. intros now _. destruct (_ || _).
  - eapply handsw_bind; [apply handsw_kernel, hands_close_if|]. intros ? _. by apply handsw_ret.
  - eapply (handsw_bind _ _ _ (fun _ => opt_fd fd) (fun _ => True)).
    { apply handsw_kernel. unfold wait_fence. destruct (fd <? 0); [by apply hands_ret|]. cbn zeta.
      eapply hands_bind; [apply hands_inert, inert_gets|]. intros ? _. apply hands_poll_fence. }
    intros rc _. eapply handsw_bind; [apply handsw_kernel, hands_close_if|]. intros ? _. destruct (rc <? 0); [|by apply handsw_ret].
    eapply handsw_bind; [apply handsw_inert, inert_errno|]. intros ? _. by apply handsw_ret.
Qed.

Lemma status_drain_spec n i s t l w : wown t l w ->
  wp (status_drain n i s) (fun _ w' => drained_ok t l (w_rt w) w') w.
Proof.
  revert w. induction n as [|n IH]; intros w Hw; cbn [status_drain]; [by split|]. apply wp_bind, wp_gets.
  destruct (state_eqb _ _); [|by split]. apply wp_bind. eapply wp_mono; [by apply drain_spec|]. intros x w1 [Hw1 Hs1].
  destruct (_ <=? _); [by split|]. eapply wp_mono; [by apply IH|]. intros ? w2 [Hw2 Hs2]. split; [done|by etrans].
Qed.

Lemma query_status_spec id t l w : wok t l w ->
  wp (advc_vaapi_decode_query_surface_status id) (fun _ w' => wok t l w') w.
Proof.
  intros Hw. unfold advc_vaapi_decode_query_surface_status. apply wp_bind, wp_gets.
  destruct (get_surface _ id) as [s|]; [|done]. cbn zeta. apply wp_bind.
  assert (wp (mret tt) (fun _ w' => wok t l w') w) as Hskip by done.
  assert (forall i, wp (status_drain (Z.to_nat ADVC_VAAPI_SURFACE_SLOTS) i s) (fun _ w' => wok t l w') w) as Hdrain.
  { intros i. eapply wp_mono; [apply status_drain_spec, Hw|]. intros ? w1 H1. by eapply wok_drained. }
  eapply wp_mono with (Q1 := fun _ w' => wok t l w').
  - destruct (id_index _ _ _) as [i|]; [|done]. destruct (_ && _); [apply Hdrain|done].
  - intros ? w1 H1. by apply wp_bind, wp_gets, wp_ret.
Qed.

(** ** Beginning a picture *)

(** No picture of another context is begun on the surface. *)
Definition target_free (r : runtime) (context_id target : Z) : Prop :=
  forall j s, surface_slot target = Some s -> target_slot (context_at r j) = Some s -> context_slot context_id = Some j.

Lemma begin_guard_Some r id target i s : begin_guard r id target = inr (i, s) ->
  context_slot id = Some i /\ cx_used (context_at r i) = true /\
  surface_slot target = Some s /\ sf_used (surface_at r s) = true /\
  sg_picture_active (cx_staging (context_at r i)) = false.
Proof.
  unfold begin_guard. destruct (get_context r id) as [i'|] eqn:Ei; [|done]. destruct (get_surface r target) as [s'|] eqn:Es; [|done].
  cbn zeta. destruct (_ || _) eqn:E; [done|]. intros [= -> ->]. apply get_context_Some in Ei as [? ?].
  apply get_surface_Some in Es as [? ?]. rewrite !orb_false_iff in E. tauto.
Qed.

Lemma begin_commit_spec id target i s t l w : wok t l w -> begin_guard (w_rt w) id target = inr (i, s) ->
  target_free (w_rt w) id target -> wp (begin_commit i s target) (fun _ w' => wok t l w') w.
Proof.
  intros Hw Hg Hfree. apply begin_guard_Some in Hg as (Hslot & Hu & Hts & Hsu & Ha). unfold begin_commit.
  apply wp_bind, wp_gets. destruct (state_eqb _ _); [done|]. apply wp_bind. eapply wp_mono; [by apply wok_release|].
  intros x w1 [E1 Hw1]. apply wp_bind, wp_modify, wp_ret. pose proof Hw as [(_ & Hok & _) _].
  destruct Hw1 as [(A1 & A2 & A3) A4]. split; [split_and!; [done|..]|]; cbn [w_rt set_rt].
  - apply tables_ok_context; [done|]. cbn. intros _ Hx. by apply used_socket.
  - by rewrite owned_context_same.
  - apply ok_context; [done|done|..].
    + intros _. destruct (reset_ok (cx_codec (context_at (w_rt w1) i))). split; done.
    + intros k Hk. unfold target_slot in Hk.
      cbn [cx_used set_staging cx_staging activate sg_picture_active sg_target] in Hk. rewrite andb_true_r in Hk. 
      destruct (cx_used (context_at (w_rt w1) i)); [|done]. rewrite Hts in Hk. injection Hk as <-. split.
      * intros _. rewrite E1, surface_at_same; [by split|done|by eapply used_index].
      * intros j Hj Hjt. rewrite E1 in Hjt. pose proof (Hfree j s Hts Hjt). congruence.
Qed.

Lemma begin_first_spec id target t l w : wok t l w -> target_free (w_rt w) id target ->
  wp (begin_first id target) (fun _ w' => wok t l w') w.
Proof.
  intros Hw Hf. unfold begin_first. apply wp_bind, wp_gets. destruct (begin_guard _ _ _) as [st|[i s]] eqn:E; [done|].
  destruct (state_eqb _ _); [done|]. apply wp_bind. eapply wp_mono; [by eapply begin_commit_spec|]. intros. by apply wp_ret.
Qed.
Lemma begin_second_spec id target t l w : wok t l w -> target_free (w_rt w) id target ->
  wp (begin_second id target) (fun _ w' => wok t l w') w.
Proof.
  intros Hw Hf. unfold begin_second. apply wp_bind, wp_gets. destruct (begin_guard _ _ _) as [st|[i s]] eqn:E; [done|].
  by eapply begin_commit_spec.
Qed.

(** ** Staging buffers *)

(** The offset and the size of a slice are [uint32_t] members. *)
Class AbiTyped : Prop := abi_typed : forall codec, spans_typed dr_abi codec.
Context {Habi : AbiTyped}.

(** Only the slices and their data change. *)
Definition same_target (g g' : staging) : Prop :=
  sg_picture_active g' = sg_picture_active g /\ sg_target g' = sg_target g.

Definition staged_ok (codec : decode_codec) (g : staging) (x : staged) : Prop :=
  match x with Refused _ => True | Overread => False | StagedAs g' => staging_ok codec g' /\ same_target g g' end.

Lemma append_staged ok codec g b : staging_ok codec g -> buffer_wf b ->
  staged_ok codec g (append_slice_parameters dr_abi ok codec g b).
Proof.
  intros Hg Hb. destruct (decide (sg_slice_data_bound_count g = sg_slice_count g)) as [He|He].
  2:{ unfold append_slice_parameters, slices_refused. cbn zeta.
      destruct (Z.eqb_spec (sg_slice_data_bound_count g) (sg_slice_count g)); [done|]. done. }
  pose proof (append_exact dr_abi codec g b Hg He Hb) as Ha. cbn zeta in Ha.
  destruct (append_slice_parameters dr_abi true codec g b) as [e|g'|] eqn:E; [..|done].
  - unfold append_slice_parameters in *. cbn zeta in *. destruct (slices_refused _ _ _ _); [done|]. cbn [negb] in E.
    destruct (copy_from _ _); done.
  - pose proof (append_staging dr_abi codec g b g' (abi_typed codec) Hg He Hb E) as Hg'.
    unfold append_slice_parameters in *. cbn zeta in *. destruct (slices_refused _ _ _ _); [done|]. cbn [negb] in E.
    destruct ok; [|done]. cbn [negb]. destruct (copy_from _ _); [|done]. injection E as <-. by split.
Qed.

Lemma data_staged a0 a1 a2 codec g b : staging_ok codec g -> buffer_wf b ->
  staged_ok codec g (set_slice_data a0 a1 a2 codec g b).
Proof.
  intros Hg Hb. pose proof (set_data_exact codec g b Hg) as Hs. cbn zeta in Hs.
  unfold set_slice_data in *. cbn zeta in *. destruct (_ || _) eqn:E; [done|].
  specialize (Hs ltac:(rewrite !orb_false_iff in E; lia) Hb). destruct (negb (a0 && a1)); [done|]. cbn [negb andb] in Hs.
  destruct (Slices.advc_vaapi_rebase_slice_offsets _ _ _ _ _ _) as [e|offs]; [done|]. destruct (negb a2); [done|]. cbn [negb] in Hs.
  destruct (copy_from _ _); [|done]. destruct Hs as (_ & Hok & _). by split.
Qed.

(** A picture parameter copy leaves the tables' members alone. *)
Definition rendered_ok (t : ledger) (l : list Z) (i : nat) (x : rendered) (w' : world) : Prop :=
  x <> OutOfBounds /\ wok t l w' /\ cx_used (context_at (w_rt w') i) = true.

Lemma wok_restage t l i f w : wok t l w -> cx_used (context_at (w_rt w) i) = true ->
  same_core (context_at (w_rt w) i) (f (context_at (w_rt w) i)) ->
  cx_broker_fd (f (context_at (w_rt w) i)) = cx_broker_fd (context_at (w_rt w) i) ->
  staging_ok (cx_codec (context_at (w_rt w) i)) (cx_staging (f (context_at (w_rt w) i))) ->
  same_target (cx_staging (context_at (w_rt w) i)) (cx_staging (f (context_at (w_rt w) i))) ->
  wok t l (set_rt (on_context i f (w_rt w)) w) /\ cx_used (context_at (on_context i f (w_rt w)) i) = true.
Proof.
  intros [(H1 & H2 & H3) Hr] Hu Hc Hfd Hg [Ht1 Ht2]. pose proof (used_context _ _ H2 Hu) as Hi. destruct Hc as (C1 & C2 & C3 & C4).
  split; [|rewrite context_at_same by done; congruence]. split; [split_and!; [done|..]|]; cbn [w_rt set_rt].
  - apply tables_ok_context; [done|]. intros _ _. rewrite Hfd. by apply used_socket.
  - eapply holds_Permutation; [|exact H3]. apply owned_context_perm; [done|done|]. unfold context_fds. by rewrite C1, Hfd.
  - apply ok_context; [done|done|done|]. intros s Hs.
    assert (target_slot (context_at (w_rt w) i) = Some s) as Hs0 by (unfold target_slot in *; by rewrite C1, Ht1, Ht2 in Hs).
    split; [by eapply rk_vacant|]. intros j Hj Htj. apply Hj. by eapply rk_alone.
Qed.

Lemma stage_spec t l i x w : wok t l w -> cx_used (context_at (w_rt w) i) = true ->
  staged_ok (cx_codec (context_at (w_rt w) i)) (cx_staging (context_at (w_rt w) i)) x ->
  wp (stage i x) (rendered_ok t l i) w.
Proof.
  intros Hw Hu Hx. destruct x as [e|g|]; cbn [stage].
  - apply wp_bind. eapply wok_inert; [auto with inert|exact Hw|]. intros ? w1 E1 Hw1. apply wp_ret.
    split_and!; [done|done|by rewrite E1].
  - destruct Hx as [Hg Ht]. apply wp_bind, wp_modify, wp_ret. split; [done|]. by apply wok_restage.
  - done.
Qed.

Lemma render_slices_spec t l i b w : wok t l w -> cx_used (context_at (w_rt w) i) = true -> buffer_wf b ->
  wp (render_slices i b) (rendered_ok t l i) w.
Proof.
  intros Hw Hu Hb. pose proof (rk_staging _ _ (proj2 Hw) i Hu) as Hg. unfold render_slices. apply wp_bind, wp_gets. cbn zeta.
  destruct (slices_refused _ _ _ _); [by apply stage_spec; [..|apply append_staged]|]. apply wp_bind.
  eapply wok_inert; [apply inert_alloc|exact Hw|]. intros ok w1 E1 Hw1. rewrite <- E1 in *.
  by apply stage_spec; [..|apply append_staged].
Qed.

Lemma render_data_spec t l i b w : wok t l w -> cx_used (context_at (w_rt w) i) = true -> buffer_wf b ->
  wp (render_data i b) (rendered_ok t l i) w.
Proof.
  intros Hw Hu Hb. pose proof (rk_staging _ _ (proj2 Hw) i Hu) as Hg. unfold render_data. apply wp_bind, wp_gets. cbn zeta.
  pose proof (data_staged false false false _ _ b Hg Hb) as H0. destruct (set_slice_data false false false _ _ b) as [e|g|] eqn:E0;
    [|by apply stage_spec|done].
  destruct (e =? EINVAL); [by apply stage_spec|]. apply wp_bind.
  eapply wok_inert; [apply inert_alloc|exact Hw|]. intros a0 w1 E1 Hw1. apply wp_bind.
  eapply wok_inert; [apply inert_alloc|exact Hw1|]. intros a1 w2 E2 Hw2.
  assert (w_rt w2 = w_rt w) as E by congruence. rewrite <- E in *.
  pose proof (data_staged a0 a1 false _ _ b Hg Hb) as H1. destruct (set_slice_data a0 a1 false _ _ b) as [e1|g1|] eqn:E3;
    [|by apply stage_spec|done].
  destruct (_ || _); [by apply stage_spec|]. apply wp_bind.
  eapply wok_inert; [apply inert_alloc|exact Hw2|]. intros a2 w3 E4 Hw3. rewrite <- E4 in *.
  by apply stage_spec; [..|apply data_staged].
Qed.

Lemma copy_picture_ok c b : buffer_wf b -> bf_type b = VAPictureParameterBufferType ->
  buffer_shape_supported dr_abi (cx_codec c) (bf_type b) (bf_element_size b) (bf_capacity_elements b) = true ->
  exists c', copy_picture dr_abi c b = Some c' /\ same_core c c' /\ cx_broker_fd c' = cx_broker_fd c.
Proof.
  intros [_ _ Hd] Ht Hs. rewrite Ht in Hs. unfold buffer_shape_supported, copy_picture, copy_from in *. cbn in Hs.
  destruct (cx_codec c) eqn:Ec; cbn in Hs; apply andb_true_iff in Hs as [H1 H2]; apply Z.eqb_eq in H1, H2;
    rewrite Hd, H1, H2, Z.mul_1_r, Z.leb_refl; (eexists; split; [reflexivity|]; by repeat split).
Qed.
Lemma copy_iq_ok c b : buffer_wf b -> bf_type b = VAIQMatrixBufferType -> cx_codec c <> DECODE_CODEC_VP9 ->
  buffer_shape_supported dr_abi (cx_codec c) (bf_type b) (bf_element_size b) (bf_capacity_elements b) = true ->
  exists c', copy_iq dr_abi c b = Some c' /\ same_core c c' /\ cx_broker_fd c' = cx_broker_fd c.
Proof.
  intros [_ _ Hd] Ht Hv Hs. rewrite Ht in Hs. unfold buffer_shape_supported, copy_iq, copy_from in *. cbn in Hs.
  destruct (cx_codec c) eqn:Ec; [..|done]; cbn in Hs; apply andb_true_iff in Hs as [H1 H2]; apply Z.eqb_eq in H1, H2;
    rewrite Hd, H1, H2, Z.mul_1_r, Z.leb_refl; (eexists; split; [reflexivity|]; by repeat split).
Qed.

Lemma render_one_spec t l i id buf w : wok t l w -> cx_used (context_at (w_rt w) i) = true -> context_slot id = Some i ->
  wp (render_one i id buf) (rendered_ok t l i) w.
Proof.
  intros Hw Hu Hslot. unfold render_one. apply wp_bind, wp_gets. cbn zeta.
  assert (forall st, rendered_ok t l i (Stopped st) w) as Hstop by (intros st; unfold rendered_ok; by split_and!).
  destruct (get_buffer _ buf) as [k|] eqn:Ek; [|apply Hstop]. apply get_buffer_Some in Ek.
  destruct (rk_buffer _ _ (proj2 Hw) k Ek) as (Hb & _ & Hshape). set (b := buffer_at (w_rt w) k) in *.
  destruct (Z.eqb_spec (bf_context_id b) id) as [Hid|]; cbn [negb]; [|apply Hstop]. destruct (bf_mapped b); [apply Hstop|].
  specialize (Hshape i ltac:(by rewrite Hid) Hu). set (c := context_at (w_rt w) i) in *.
  pose proof (rk_staging _ _ (proj2 Hw) i Hu) as Hg. fold c in Hg.
  destruct (bf_type b) eqn:Et; [..|apply Hstop].
  - destruct (sg_have_picture _); [apply Hstop|]. rewrite <- Et in Hshape.
    destruct (copy_picture_ok c b Hb Et Hshape) as (c' & -> & Hc & Hf). apply wp_bind, wp_modify, wp_ret. split; [done|].
    apply wok_restage; try done. destruct Hg. by split.
  - destruct (sg_have_iq _); [apply Hstop|]. rewrite <- Et in Hshape. destruct (cx_codec c) eqn:Ec; [..|apply Hstop];
      (destruct (copy_iq_ok c b Hb Et) as (c' & -> & Hc & Hf); [congruence|congruence|]; apply wp_bind, wp_modify, wp_ret;
       split; [done|]; apply wok_restage; try done; fold c; rewrite Ec; destruct Hg; by split).
  - by apply render_slices_spec.
  - by apply render_data_spec.
Qed.

Lemma render_loop_spec t l i id bufs w : wok t l w -> cx_used (context_at (w_rt w) i) = true -> context_slot id = Some i ->
  wp (render_loop i id bufs) (fun x w' => is_Some x /\ wok t l w') w.
Proof.
  revert w. induction bufs as [|b bufs IH]; intros w Hw Hu Hslot; cbn [render_loop]; [by split|]. apply wp_bind.
  eapply wp_mono; [by apply render_one_spec|]. intros [|st|] w1 (Hx & Hw1 & Hu1); [by apply IH|by split|done].
Qed.

Lemma render_picture_spec id bufs n t l w : wok t l w ->
  wp (advc_vaapi_decode_render_picture id bufs n) (fun x w' => is_Some x /\ wok t l w') w.
Proof.
  intros Hw. unfold advc_vaapi_decode_render_picture. apply wp_bind, wp_gets. destruct (_ || _); [by split|].
  destruct (get_context _ id) as [i|] eqn:Ei; [|by split]. apply get_context_Some in Ei as [Hs Hu].
  destruct (negb _); [by split|]. by apply render_loop_spec.
Qed.
End Picture.
