(* ===== verification/DecodeSubmit.v ===== *)
(** * Submitting a picture

    [advc_vaapi_decode_end_picture] hands the staged picture to the broker and makes
    its surface wait for the output; along the way outputs of earlier pictures may
    arrive.  Whatever fails, the picture is dropped and the tables are well formed
    again. *)

From stdpp Require Import base list gmap.
From Stdlib Require Import ZArith Lia Bool.
From S2P Require Import Prelude Kernel Protocol Dmabuf Engine EngineFiles EngineInv EngineSafe Broker BrokerLive Client ClientSafe ClientConnect World Va VaapiRoutes VaapiPolicy DecodeEos AnnexB Hevc Vp9 DecodeState DecodeStaging DecodeOutput DecodeRuntime DecodeSlices DecodeOwn DecodeDrain DecodeQueue DecodeInv DecodeEntry DecodePicture.

Section Submit.
Context {dr : driver} {Hdr : DriverOk dr}.

(** The runtime once the picture of context [i] is dropped. *)
Definition finished (i : nat) (r : runtime) : runtime := on_context i (set_staging reset_staging) r.

(** While the picture is submitted: the surface [s] is not waiting, and no other
    picture is begun on it. *)
Record submitting (i : nat) (context_id : Z) (s : nat) (r : runtime) : Prop := {
  sb_ok : runtime_ok dr_abi (finished i r);
  sb_id : is_u32 context_id /\ context_slot context_id = Some i;
  sb_context : cx_used (context_at r i) = true;
  sb_surface : sf_used (surface_at r s) = true;
  sb_idle : sf_state (surface_at r s) = SURFACE_IDLE;
  sb_alone : forall j, j <> i -> target_slot (context_at r j) <> Some s }.

Definition sub (t : ledger) (l : list Z) (i : nat) (id : Z) (s : nat) (w : world) : Prop :=
  wown t l w /\ submitting i id s (w_rt w).
(** How a submission ends. *)
Definition ended (t : ledger) (l : list Z) (i : nat) (w : world) : Prop :=
  wown t l w /\ runtime_ok dr_abi (finished i (w_rt w)).

Lemma sub_ended t l i id s w : sub t l i id s w -> ended t l i w.
Proof. intros [? []]. by split. Qed.

Lemma finished_served i r r' : served r r' -> served (finished i r) (finished i r').
Proof.
  intros [V1 V2 V3 V4 V5 V6 V7]. split; try done.
  - cbn. by rewrite !length_alter.
  - intros k. destruct (decide (k = i)) as [->|Hk].
    + specialize (V6 i). unfold finished, context_at in *. cbn. rewrite !list_lookup_alter_eq.
      destruct (rt_contexts r !! i) as [c|] eqn:E, (rt_contexts r' !! i) as [c'|] eqn:E'; cbn in *.
      * unfold same_context in *. change (set_staging reset_staging (set_eos advc_vaapi_decode_eos_state_init c') =
          set_staging reset_staging (set_eos advc_vaapi_decode_eos_state_init c)). by rewrite V6.
      * apply lookup_lt_Some in E. apply lookup_ge_None in E'. lia.
      * apply lookup_lt_Some in E'. apply lookup_ge_None in E. lia.
      * done.
    + unfold finished. rewrite !context_at_other by done. apply V6.
Qed.

Lemma submitting_served i id s r r' : submitting i id s r -> served r r' ->
  submitting i id s r' /\ surface_at r' s = surface_at r s.
Proof.
  intros [S1 S2 S3 S4 S5 S6] Hs. assert (surface_at r' s = surface_at r s) as Hsame.
  { destruct (sv_surface _ _ Hs s) as [?|[]]; [done|]. congruence. }
  assert (forall k, cx_used (context_at r' k) = cx_used (context_at r k) /\ target_slot (context_at r' k) = target_slot (context_at r k)) as Hc.
  { intros k. destruct (same_context_core _ _ (sv_context _ _ Hs k)) as [(E1 & _) E5]. split; [done|].
    unfold target_slot. by rewrite E1, E5. }
  split; [|done]. split; rewrite ?Hsame; try done.
  - eapply ok_served; [done|]. by apply finished_served.
  - by rewrite (proj1 (Hc i)).
  - intros j Hj. rewrite (proj2 (Hc j)). by apply S6.
Qed.

(** The waiting surfaces have older timestamps. *)
Definition stamped_before (pts : Z) (r : runtime) : Prop :=
  0 < pts < rt_next_pts_ns r /\ forall k, waiting (surface_at r k) -> sf_pts_ns (surface_at r k) < pts.

Lemma stamped_served pts r r' : stamped_before pts r -> served r r' -> stamped_before pts r'.
Proof.
  intros [H1 H2] Hs. split; [by rewrite (sv_pts _ _ Hs)|]. intros k Hk.
  destruct (settles_waiting _ _ _ Hs Hk) as [Hw (_ & _ & _ & E & _)]. rewrite E. auto.
Qed.

(** A member of the context that the tables do not refer to. *)
Lemma sub_member t l i id s f w : sub t l i id s w ->
  (forall c, same_core c (f c) /\ cx_broker_fd (f c) = cx_broker_fd c /\
     f (set_staging reset_staging c) = set_staging reset_staging (f c)) ->
  sub t l i id s (set_rt (on_context i f (w_rt w)) w).
Proof.
  intros [(H1 & H2 & H3) [S1 S2 S3 S4 S5 S6]] Hf. pose proof (used_context _ _ H2 S3) as Hi.
  split; [split_and!; [done|..]|]; cbn [w_rt set_rt].
  - apply tables_ok_context; [done|]. intros _ Hx. destruct (Hf (context_at (w_rt w) i)) as (_ & E & _). rewrite E.
    by apply used_socket.
  - rewrite owned_context_same; [done|]. intros c. destruct (Hf c) as ((E1 & _) & E2 & _). unfold context_fds. by rewrite E1, E2.
  - split; try done.
    + replace (finished i (on_context i f (w_rt w))) with (on_context i f (finished i (w_rt w))).
      * apply ok_context; [done|by apply Hf|..].
        -- intros _. unfold finished. rewrite context_at_same by done. destruct (Hf (context_at (w_rt w) i)) as (_ & _ & ->). apply reset_ok.
        -- unfold finished. rewrite context_at_same by done. destruct (Hf (context_at (w_rt w) i)) as (_ & _ & ->).
           intros k Hk. unfold target_slot in Hk. cbn in Hk. by rewrite andb_false_r in Hk.
      * unfold finished, on_context, set_contexts. cbn. f_equal. rewrite !list_alter_alter_eq. apply list_alter_ext; [|done].
        intros c _. destruct (Hf c) as (_ & _ & E). exact E.
    + rewrite context_at_same by done. destruct (Hf (context_at (w_rt w) i)) as ((E & _) & _). by rewrite E.
    + intros j Hj. rewrite context_at_other by done. by apply S6.
Qed.

(** ** Reserving a destination *)

(** A refused reservation leaves nothing in the descriptor. *)
Lemma reserve_refused p sid pts wd ht (m : process) :
  let x := fst (advc_client_reserve_linear p sid pts wd ht blank_descriptor m) in
  fst (fst x) = ADVC_STATUS_OK \/ snd (fst x) = blank_descriptor.
Proof.
  assert (forall reply d (m0 : process), snd (fst (fst (reserve_abandon reply d m0))) = blank_descriptor) as Hab.
  { intros reply d m0. unfold reserve_abandon. rewrite !bind_seq. cbn [fst snd mret st_ret].
    unfold advc_dmabuf_descriptor_close. cbn zeta. by rewrite bind_seq. }
  unfold advc_client_reserve_linear. cbn zeta. destruct (_ || _); [rewrite bind_seq; by right|]. rewrite bind_seq.
  destruct (fst (transaction_ex _ _ _ _ _ _ _ _ _ m)) as [r reply]. cbn beta iota zeta. destruct (r <? 0); [by right|].
  destruct (_ =? ADVC_STATUS_SIZE).
  { rewrite bind_seq. destruct (fst (parse_status_reply _ _)) as [st d]. by right. }
  destruct (_ || _); [rewrite bind_seq; by right|]. destruct (_ || _); [right; apply Hab|]. rewrite bind_seq.
  destruct (fst (advc_dmabuf_registration_decode _ _ _ _ _ _)) as [v d]. cbn beta iota zeta.
  destruct (_ || _); [right; apply Hab|]. rewrite bind_seq. by left.
Qed.

Lemma hands_reserve p sid pts wd ht :
  hands [] (advc_client_reserve_linear (U := connect_env) p sid pts wd ht blank_descriptor) descriptor_fds
    (fun x => typed_result x /\ (fst (fst x) = ADVC_STATUS_OK \/ snd (fst x) = blank_descriptor)).
Proof.
  apply (hands_also [] _ _ typed_result (fun x => fst (fst x) = ADVC_STATUS_OK \/ snd (fst x) = blank_descriptor));
    [apply hands_reserve_linear|]. intros m. apply reserve_refused.
Qed.

Definition subp (t : ledger) (l : list Z) (i : nat) (id : Z) (s : nat) (pts : Z) (w : world) : Prop :=
  sub t l i id s w /\ stamped_before pts (w_rt w).

(** The surface gets a buffer while it is idle. *)
Lemma sub_hold t l i id s pts owner session bid d extra w :
  wown t (l ++ extra) w -> submitting i id s (w_rt w) -> stamped_before pts (w_rt w) ->
  sf_prime_reserved (surface_at (w_rt w) s) = false -> descriptor_typed d -> descriptor_owned d = extra ->
  let f x := set_submission pts owner session (set_holding bid true d (sf_acquire_fence_fd x) x) in
  subp t l i id s pts (set_rt (on_surface s f (w_rt w)) w).
Proof.
  intros (H1 & H2 & H3) [S1 S2 S3 S4 S5 S6] [P1 P2] Hres Hd He f. pose proof (used_index _ _ H2 S4) as Hs.
  destruct (surface_at_ok _ _ H2 S4) as [_ Kf Ke]. assert (sf_state (surface_at (w_rt w) s) <> SURFACE_READY) as Hn by (by rewrite S5).
  specialize (Kf Hn). specialize (Ke Hn Hres).
  assert (forall k, waiting (surface_at (on_surface s f (w_rt w)) k) -> surface_at (on_surface s f (w_rt w)) k = surface_at (w_rt w) k) as Hk.
  { intros k. destruct (decide (k = s)) as [->|Hne]; [|by rewrite surface_at_other].
    rewrite surface_at_same by done. intros [_ Hx]. cbn in Hx. congruence. }
  split; [split; [split_and!; [done|..]|]|]; cbn [w_rt set_rt].
  - apply tables_ok_surface; [done|]. intros _. split; [done|done|]. by intros.
  - eapply holds_Permutation; [|exact H3]. apply owned_surface_perm; [done|done|].
    unfold surface_fds. cbn. rewrite S4, Ke, He, opt_fd_neg by done. solve_Permutation.
  - split; try done; rewrite ?surface_at_same by done; try done.
    change (runtime_ok dr_abi (on_surface s f (finished i (w_rt w)))). apply ok_surfaces; [done|]. intros k x.
    destruct (decide (k = s)) as [->|Hne]; [right|left; by apply surface_at_other].
    unfold x. change (surface_at _ s) with (surface_at (on_surface s f (w_rt w)) s). rewrite surface_at_same by done. split.
    + intros [_ Hx]. cbn in Hx. congruence.
    + intros _. right. intros j. destruct (context_at_on (w_rt w) i (set_staging reset_staging) j) as [E|[-> E]]; unfold finished; rewrite E.
      * destruct (decide (j = i)) as [->|Hj]; [|by apply S6]. unfold finished in *.
        pose proof (used_context _ _ H2 S3) as Hi. rewrite context_at_same in E by done. rewrite <- E.
        unfold target_slot. cbn. by rewrite andb_false_r.
      * unfold target_slot. cbn. by rewrite andb_false_r.
  - split; [done|]. intros k Hw. pose proof (Hk k Hw) as E. rewrite E in Hw |- *. by apply P2.
Qed.

Lemma reserve_spec t l i id s pts w : subp t l i id s pts w -> sf_prime_reserved (surface_at (w_rt w) s) = false ->
  wp (reserve_surface_linear i id s pts) (fun _ w' => subp t l i id s pts w') w.
Proof.
  intros [[Hw Hs] Hp] Hres. unfold reserve_surface_linear. apply wp_bind, wp_gets. cbn zeta. destruct (_ || _); [done|].
  apply wp_bind. eapply wp_call; [apply handsw_socket; intros p; apply hands_reserve|rewrite app_nil_r; exact Hw|].
  intros [[st d] det] w1 E1 Hw1 [Hty Hbl]. unfold descriptor_fds, typed_result in *. cbn [fst snd] in *. rewrite <- E1 in *.
  destruct (Z.eqb_spec st ADVC_STATUS_OK) as [E|E]; cbn [negb].
  - specialize (Hty E). apply wp_bind, wp_modify, wp_ret. pose proof (owned_declared _ _ _ _ Hw1) as Hd.
    apply (sub_hold t l i id s pts _ _ _ d (declared_fds d)); try done.
  - destruct Hbl as [?| ->]; [done|]. apply wp_bind.
    eapply (wp_call _ []); [apply handsw_kernel, (hands_descriptor_close blank_descriptor), blank_typed|exact Hw1|].
    intros x w2 E2 Hw2 _. rewrite app_nil_r in Hw2. apply wp_ret. rewrite <- E2 in *. by split.
Qed.

(** ** The steps of a submission *)

Lemma queue_sub t l i id s pts n j data p flags w : subp t l i id s pts w ->
  wp (queue_attempts n j data p flags) (fun _ w' => subp t l i id s pts w' /\ surface_at (w_rt w') s = surface_at (w_rt w) s) w.
Proof.
  intros [[Hw Hs] Hp]. eapply wp_mono; [by apply queue_spec|]. intros x w1 [Hw1 Hs1].
  destruct (submitting_served _ _ _ _ _ Hs Hs1) as [Hs2 E]. split; [|done]. split; [by split|]. by eapply stamped_served.
Qed.

Lemma release_ended t l i id s pts w : subp t l i id s pts w -> wp (release_surface_output s) (fun _ w' => ended t l i w') w.
Proof.
  intros [[Hw [S1 S2 S3 S4 S5 S6]] _]. eapply wp_mono; [by apply release_spec|]. intros x w1 [E1 Hw1]. split; [done|].
  rewrite E1. change (runtime_ok dr_abi (on_surface s released (finished i (w_rt w)))).
  apply ok_surface; [done|by intros y [_ ?]|]. intros y _. by left.
Qed.

Lemma submit_spec t l i id s pts data flags w : subp t l i id s pts w ->
  sf_prime_reserved (surface_at (w_rt w) s) = false ->
  wp (submit_access_unit i id s data pts flags)
    (fun ok w' => if (ok : bool) then subp t l i id s pts w' else ended t l i w') w.
Proof.
  intros Hw Hres. unfold submit_access_unit. apply wp_bind. eapply wp_mono; [by apply reserve_spec|].
  intros rc w1 Hw1. destruct (rc <? 0); [apply wp_ret; eapply sub_ended, Hw1|]. apply wp_bind.
  eapply wp_mono; [apply (queue_sub t l i id s pts), Hw1|]. intros q w2 [Hw2 _]. destruct (q <? 0); [|by apply wp_ret].
  apply wp_bind, wp_gets, wp_bind. destruct (sf_prime_reserved (surface_at (w_rt w2) s)).
  - eapply wp_mono; [by eapply release_ended|]. intros ? w3 H3. by apply wp_ret.
  - apply wp_ret, wp_ret. eapply sub_ended, Hw2.
Qed.

Lemma mark_pending_spec t l i id s pts w : subp t l i id s pts w ->
  wp (mark_pending i id s pts) (fun _ w' => ended t l i w') w.
Proof.
  intros [[(H1 & H2 & H3) [S1 S2 S3 S4 S5 S6]] [P1 P2]]. unfold mark_pending. apply wp_modify.
  pose proof (used_index _ _ H2 S4) as Hs. pose proof (used_context _ _ H2 S3) as Hi.
  destruct (surface_at_ok _ _ H2 S4) as [Kt Kf Ke]. assert (sf_state (surface_at (w_rt w) s) <> SURFACE_READY) as Hn by (by rewrite S5).
  split; [split_and!; [done|..]|]; cbn [w_rt set_rt].
  - apply tables_ok_surface; [done|]. intros _. split; [done|..]; intros _; cbn; auto.
  - eapply holds_Permutation; [|exact H3]. apply owned_surface_perm; [done|done|]. done.
  - set (session := cx_broker_session _). change (runtime_ok dr_abi (on_surface s (fun x => set_state SURFACE_PENDING
      (set_submission pts id session x)) (finished i (w_rt w)))).
    apply ok_pending; try done.
    + by apply tables_ok_context; [|intros _ Hx; by apply used_socket].
    + intros j. destruct (decide (j = i)) as [->|Hj]; unfold finished.
      * rewrite context_at_same by done. unfold target_slot. cbn. by rewrite andb_false_r.
      * rewrite context_at_other by done. by apply S6.
    + destruct S2 as [? ?]. split; [done|]. exists i. unfold finished. rewrite context_at_same by done. by split_and!.
Qed.

Lemma take_pts_spec t l i id s w : sub t l i id s w ->
  wp take_pts (fun x w' => surface_at (w_rt w') s = surface_at (w_rt w) s /\
    match x with None => ended t l i w' | Some pts => subp t l i id s pts w' end) w.
Proof.
  intros Hw. pose proof Hw as [(H1 & H2 & H3) [S1 S2 S3 S4 S5 S6]]. unfold take_pts. apply wp_bind, wp_gets. cbn zeta.
  destruct (_ <? _) eqn:E; [split; [done|by eapply sub_ended]|]. apply wp_bind, wp_modify, wp_ret. split; [done|].
  pose proof (rk_pts _ _ S1) as Hpts. cbn in Hpts. unfold ADVC_VAAPI_PTS_STEP_NS in *. apply Z.ltb_ge in E.
  split; [split; [split_and!; [done|by destruct H2|done]|]|].
  - split; try done. change (runtime_ok dr_abi (set_next_pts (rt_next_pts_ns (w_rt w) + 1000000) (finished i (w_rt w)))).
    apply ok_next_pts; [done|]. cbn. lia.
  - split; [cbn; lia|]. intros k Hk. pose proof (rk_stamp _ _ S1 k Hk) as Hx. cbn in Hx. apply Hx.
Qed.

(** A call that touches neither the tables nor a descriptor. *)
Definition reads {A} (c : St world A) : Prop := handsw [] c (fun _ => []) (fun _ => True).

Lemma reads_wp {A} (c : St world A) t l w (P : A -> world -> Prop) : reads c -> wown t l w ->
  (forall a w', w_rt w' = w_rt w -> wown t l w' -> P a w') -> wp c P w.
Proof.
  intros Hc Hw HP. eapply wp_call; [exact Hc|rewrite app_nil_r; exact Hw|]. intros a w' E Hw' _.
  rewrite app_nil_r in Hw'. by apply HP.
Qed.
Lemma reads_inert {A} (c : St process A) : inert c -> reads (kernel c).
Proof. apply handsw_inert. Qed.
Lemma reads_bind {A C} (c : St world A) (k : A -> St world C) : reads c -> (forall a, reads (k a)) -> reads (c ≫= k).
Proof. intros Hc Hk. eapply handsw_bind; [exact Hc|]. intros a _. apply Hk. Qed.
Lemma reads_ret {A} (a : A) : reads (mret a).
Proof. by apply handsw_ret. Qed.
Lemma reads_built {A} (f : Z -> bool -> Z + A) : reads (built f).
Proof.
  unfold built. apply reads_bind; [apply reads_inert, inert_errno|]. intros e. destruct (f e true).
  - apply reads_bind; [apply reads_inert, inert_errno_is|]. intros. apply reads_ret.
  - apply reads_bind; [apply reads_inert, inert_alloc|]. intros. apply reads_ret.
Qed.
Lemma reads_checked {A} (f : Z -> Z + A) : reads (checked f).
Proof.
  unfold checked. apply reads_bind; [apply reads_inert, inert_errno|]. intros e. destruct (f e); [|apply reads_ret].
  apply reads_bind; [apply reads_inert, inert_errno_is|]. intros. apply reads_ret.
Qed.
Lemma reads_errno_status : reads errno_status.
Proof. unfold errno_status. apply reads_bind; [apply reads_inert, inert_errno|]. intros. apply reads_ret. Qed.

Lemma sub_reads {A} (c : St world A) t l i id s w (P : A -> world -> Prop) : reads c -> sub t l i id s w ->
  (forall a w', w_rt w' = w_rt w -> sub t l i id s w' -> P a w') -> wp c P w.
Proof.
  intros Hc [Hw Hs] HP. eapply reads_wp; [exact Hc|exact Hw|]. intros a w' E Hw'. apply HP; [done|]. split; [done|by rewrite E].
Qed.

(** The error returns of the builders. *)
Lemma errno_ended t l i id s w : sub t l i id s w -> wp errno_status (fun _ w' => ended t l i w') w.
Proof. intros Hw. eapply sub_reads; [apply reads_errno_status|exact Hw|]. intros a w' _ H'. by eapply sub_ended. Qed.

(** The surface waits for the queued picture. *)
Lemma mark_success t l i id s pts w : subp t l i id s pts w ->
  wp (mark_pending i id s pts ;; mret VA_STATUS_SUCCESS) (fun _ w' => ended t l i w') w.
Proof. intros Hw. apply wp_bind. eapply wp_mono; [by apply mark_pending_spec|]. intros ? w3 H3. by apply wp_ret. Qed.

Lemma subp_member t l i id s pts f w : subp t l i id s pts w ->
  (forall c, same_core c (f c) /\ cx_broker_fd (f c) = cx_broker_fd c /\
     f (set_staging reset_staging c) = set_staging reset_staging (f c)) ->
  wp (update (on_context i f)) (fun _ w' => subp t l i id s pts w' /\ surface_at (w_rt w') s = surface_at (w_rt w) s) w.
Proof. intros [Hw Hp] Hf. apply wp_modify. split; [|done]. split; [by apply sub_member|]. done. Qed.

(** Before the destination is reserved. *)
Definition subr (t : ledger) (l : list Z) (i : nat) (id : Z) (s : nat) (pts : Z) (w : world) : Prop :=
  subp t l i id s pts w /\ sf_prime_reserved (surface_at (w_rt w) s) = false.

Lemma configure_spec t l i id s pts data flags f w : subr t l i id s pts w ->
  (forall c, same_core c (f c) /\ cx_broker_fd (f c) = cx_broker_fd c /\
     f (set_staging reset_staging c) = set_staging reset_staging (f c)) ->
  wp (q ← queue_bytes_with_drain i data pts flags;
      if q <? 0 then mret false else update (on_context i f) ;; mret true) (fun _ w' => subr t l i id s pts w') w.
Proof.
  intros [Hw Hr] Hf. apply wp_bind. eapply wp_mono; [by apply queue_sub|]. intros q w1 [Hw1 E1].
  destruct (q <? 0); [apply wp_ret; split; [done|by rewrite E1]|]. apply wp_bind.
  eapply wp_mono; [by apply subp_member|]. intros ? w2 [Hw2 E2]. apply wp_ret. split; [done|congruence].
Qed.

(** *** The codecs *)

Lemma hevc_submit_spec t l i id s data irap config w : sub t l i id s w ->
  sf_prime_reserved (surface_at (w_rt w) s) = false ->
  wp (hevc_submit i id s data irap config) (fun _ w' => ended t l i w') w.
Proof.
  intros Hw Hres. pose proof (sub_ended _ _ _ _ _ _ Hw) as He. unfold hevc_submit. apply wp_bind, wp_gets. cbn zeta.
  destruct (_ && _); [done|]. destruct (_ && _); [done|]. apply wp_bind. eapply wp_mono; [by apply take_pts_spec|].
  intros [pts|] w1 [E1 Hw1]; [|done]. apply wp_bind.
  assert (subr t l i id s pts w1) as Hw1' by (split; [done|by rewrite E1]).
  eapply wp_mono with (Q1 := fun _ w' => subr t l i id s pts w').
  { destruct (_ || _); [|done]. by apply configure_spec. }
  intros [] w2 [Hw2 Hr2]; cbn [negb]; [|eapply sub_ended, Hw2]. apply wp_bind. eapply wp_mono; [by apply submit_spec|].
  intros [] w3 Hw3; cbn [negb]; [by apply mark_success|done].
Qed.

Lemma end_hevc_spec t l i id s w : sub t l i id s w -> sf_prime_reserved (surface_at (w_rt w) s) = false ->
  wp (end_hevc_picture i id s) (fun _ w' => ended t l i w') w.
Proof.
  intros Hw Hres. pose proof (sub_ended _ _ _ _ _ _ Hw) as He. unfold end_hevc_picture. apply wp_bind, wp_gets. cbn zeta.
  destruct (staging_incomplete _); [done|]. apply wp_bind. eapply sub_reads; [apply reads_inert, inert_alloc|exact Hw|].
  intros ok w1 E1 Hw1. rewrite <- E1 in Hres. destruct (negb ok); [by eapply sub_ended|].
  destruct (hevc_inputs _) as [slices|]; [|by eapply sub_ended]. apply wp_bind.
  eapply sub_reads; [apply reads_built|exact Hw1|]. intros [[[au pps] irap]|] w2 E2 Hw2; [|by eapply errno_ended].
  rewrite <- E2 in Hres. apply wp_bind. eapply sub_reads; [apply reads_checked|exact Hw2|].
  intros [config|] w3 E3 Hw3; [|by eapply errno_ended]. rewrite <- E3 in Hres. by apply hevc_submit_spec.
Qed.

Lemma end_vp9_spec t l i id s w : sub t l i id s w -> sf_prime_reserved (surface_at (w_rt w) s) = false ->
  wp (end_vp9_picture i id s) (fun _ w' => ended t l i w') w.
Proof.
  intros Hw Hres. pose proof (sub_ended _ _ _ _ _ _ Hw) as He. unfold end_vp9_picture. apply wp_bind, wp_gets. cbn zeta.
  destruct (_ || _); [done|]. apply wp_bind. eapply sub_reads; [apply reads_built|exact Hw|].
  intros [[au key]|] w1 E1 Hw1; [|by eapply errno_ended]. rewrite <- E1 in Hres. destruct (_ && _); [by eapply sub_ended|].
  apply wp_bind. eapply wp_mono; [by apply take_pts_spec|]. intros [pts|] w2 [E2 Hw2]; [|done]. rewrite <- E2 in Hres.
  apply wp_bind. eapply wp_mono; [by apply submit_spec|]. intros [] w3 Hw3; cbn [negb]; [|done]. apply wp_bind.
  eapply wp_mono; [by apply subp_member|]. intros ? w4 [Hw4 _]. by apply mark_success.
Qed.

Lemma publish_spec t l i id s pts config data w : subr t l i id s pts w ->
  wp (publish_config i config data pts) (fun _ w' => subr t l i id s pts w') w.
Proof.
  intros Hw. pose proof Hw as [[Hs Hp] Hr]. unfold publish_config. apply wp_bind, wp_gets. destruct (_ && _).
  - apply wp_bind. eapply sub_reads; [apply reads_built|exact Hs|]. intros [au|] w1 E1 Hw1.
    + apply wp_ret. split; [split; [done|by rewrite E1]|by rewrite E1].
    + apply wp_bind. eapply sub_reads; [apply reads_errno_status|exact Hw1|]. intros st w2 E2 Hw2. apply wp_ret.
      assert (w_rt w2 = w_rt w) as E by congruence. split; [split; [done|by rewrite E]|by rewrite E].
  - apply wp_bind. eapply wp_mono; [apply (queue_sub t l i id s pts), Hw|]. intros q w1 [Hw1 E1].
    destruct (q <? 0); [apply wp_ret; split; [done|by rewrite E1]|]. apply wp_bind.
    eapply wp_mono; [by apply subp_member|]. intros ? w2 [Hw2 E2]. apply wp_ret. split; [done|congruence].
Qed.

Lemma h264_submit_spec t l i id s data idr config w : sub t l i id s w ->
  sf_prime_reserved (surface_at (w_rt w) s) = false ->
  wp (h264_submit i id s data idr config) (fun _ w' => ended t l i w') w.
Proof.
  intros Hw Hres. pose proof (sub_ended _ _ _ _ _ _ Hw) as He. unfold h264_submit. apply wp_bind, wp_gets. cbn zeta.
  destruct (_ && sps_changed _ _); [done|]. apply wp_bind. eapply wp_mono; [by apply take_pts_spec|].
  intros [pts|] w1 [E1 Hw1]; [|done]. assert (subr t l i id s pts w1) as Hw1' by (split; [done|by rewrite E1]). apply wp_bind.
  eapply wp_mono with (Q1 := fun _ w' => subr t l i id s pts w').
  { destruct (_ || _); [by apply publish_spec|done]. }
  intros [st|[au inband]] w2 [Hw2 Hr2]; [eapply sub_ended, Hw2|]. apply wp_bind. eapply wp_mono; [by apply submit_spec|].
  intros [] w3 Hw3; cbn [negb]; [|done]. apply wp_bind. destruct inband; [|by apply wp_ret, mark_success].
  eapply wp_mono; [by apply subp_member|]. intros ? w4 [Hw4 _]. by apply mark_success.
Qed.

Lemma learn_member over p c : same_core c (learn_references over p c) /\
  cx_broker_fd (learn_references over p c) = cx_broker_fd c /\
  learn_references over p (set_staging reset_staging c) = set_staging reset_staging (learn_references over p c).
Proof. unfold learn_references. destruct (_ && _); by split_and!. Qed.

Lemma end_h264_spec t l i id s profile w : sub t l i id s w -> sf_prime_reserved (surface_at (w_rt w) s) = false ->
  wp (end_h264_picture i id s profile) (fun _ w' => ended t l i w') w.
Proof.
  intros Hw Hres. unfold end_h264_picture. apply wp_bind, wp_gets. cbn zeta. apply wp_bind.
  eapply sub_reads; [apply reads_inert, inert_alloc|exact Hw|]. intros ok w1 E1 Hw1. rewrite <- E1 in Hres.
  pose proof (sub_ended _ _ _ _ _ _ Hw1) as He. destruct (negb ok); [done|].
  destruct (h264_inputs _) as [[|first rest]|]; [done| |done]. destruct (sg_slice_parameters _) as [|fp ?]; [done|]. apply wp_bind.
  eapply sub_reads; [apply reads_built|exact Hw1|]. intros [[[au pps] idr]|] w2 E2 Hw2; [|by eapply errno_ended].
  rewrite <- E2 in Hres. apply wp_bind. eapply sub_reads; [apply reads_checked|exact Hw2|].
  intros [over|] w3 E3 Hw3; [|by eapply errno_ended]. rewrite <- E3 in Hres. apply wp_bind, wp_modify, wp_bind.
  assert (sub t l i id s (set_rt (on_context i (learn_references over fp) (w_rt w3)) w3)) as Hw4
    by (apply sub_member; [done|]; intros c; apply learn_member).
  eapply sub_reads; [apply reads_checked|exact Hw4|]. intros [config|] w5 E5 Hw5; [|by eapply errno_ended].
  apply h264_submit_spec; [done|]. by rewrite E5.
Qed.

(** ** The entry point *)

Lemma end_picture_spec id t l w : wok t l w -> is_u32 id ->
  wp (advc_vaapi_decode_end_picture id) (fun _ w' => wok t l w') w.
Proof.
  intros Hw Hid. unfold advc_vaapi_decode_end_picture. apply wp_bind, wp_gets.
  destruct (get_context _ id) as [i|] eqn:Ei; [|done]. apply get_context_Some in Ei as [Hslot Hu]. cbn zeta.
  destruct (negb (sg_picture_active _)) eqn:Ea; [done|]. apply negb_false_iff in Ea. pose proof Hw as [Hown Hr].
  assert (ended t l i w) as Hend by (split; [done|by apply ok_reset]). apply wp_bind.
  eapply wp_mono with (Q1 := fun _ w' => ended t l i w').
  - destruct (get_surface _ _) as [s|] eqn:Es; [|done]. destruct (get_config _ _) as [k|]; [|done].
    destruct (staging_incomplete _); [done|]. apply get_surface_Some in Es as [Hts Hsu].
    assert (target_slot (context_at (w_rt w) i) = Some s) as Ht by (unfold target_slot; by rewrite Hu, Ea).
    destruct (rk_vacant _ _ Hr i s Ht Hsu) as [Hidle Hres].
    assert (sub t l i id s w) as Hsub.
    { split; [done|]. split; try done; [by apply ok_reset|]. intros j Hj Htj. apply Hj. by eapply rk_alone. }
    destruct (profile_eqb _ _); [by apply end_hevc_spec|]. destruct (profile_eqb _ _); [by apply end_vp9_spec|].
    by apply end_h264_spec.
  - intros st w1 [(H1 & H2 & H3) Hr1]. apply wp_bind, wp_modify, wp_ret. split; [|done]. split_and!; [done|..]; cbn [w_rt set_rt].
    + apply tables_ok_context; [done|]. intros _ Hx. by apply used_socket.
    + by rewrite owned_context_same.
Qed.
End Submit.
