(* ===== verification/DecodeSafe.v ===== *)
(** * The decode runtime under any use

    The threads of an application run the locked sections of the entry points in
    any order.  [step] is one section; [held] are the descriptors the callers have
    in hand: exported dma-bufs and the fences [advc_vaapi_decode_sync_surface] waits
    for outside the lock. *)

From stdpp Require Import base list gmap relations.
From Stdlib Require Import ZArith Lia Bool String.
#[local] Notation length := List.length.
From S2P Require Import Prelude Kernel Protocol Dmabuf Engine EngineFiles EngineInv EngineSafe Broker BrokerLive Client ClientSafe ClientConnect World Va VaapiRoutes VaapiPolicy DecodeEos AnnexB Hevc Vp9 DecodeState DecodeStaging DecodeOutput DecodeRuntime DecodeSlices DecodeOwn DecodeDrain DecodeQueue DecodeInv DecodeEntry DecodePicture DecodeSubmit.

Section Steps.
Context {dr : driver}.

(** ** Sections *)

Inductive locked :=
  | CreateConfig (profile : va_profile) (vld : bool) (attributes : option (list config_attribute)) (n : Z)
  | DestroyConfig (id : Z) | QueryConfig (id : Z) | QuerySurfaceAttributes (id : Z) (have : bool) (n : Z)
  | CreateSurfaces (format width height n : Z) (attributes : option (list surface_attrib)) (num : Z)
  | DestroySurfaces (ids : option (list Z)) (n : Z)
  | CreateContext (config width height : Z) (targets : option (list Z)) (n : Z) | DestroyContext (id : Z)
  | CreateBuffer (context : Z) (type : va_buffer_type) (size n : Z) (data : option (list Z))
  | SetNumElements (id n : Z) | MapBuffer (id : Z) | UnmapBuffer (id : Z) | DestroyBuffer (id : Z)
  | ApplicationWrite (id off : Z) (bytes : list Z)
  | BeginFirst (context target : Z) | BeginSecond (context target : Z)
  | RenderPicture (context : Z) (buffers : option (list Z)) (n : Z) | EndPicture (context : Z)
  | SyncStep (id : Z) | QueryStatus (id : Z) | ReservedExport (id : Z) | ExportLocked (id : Z) (separate : bool)
  | SignalEos (context : Z) (status : option decode_eos_status)
  | ProgressEos (context n : Z) (status : option decode_eos_status)
  (* outside the lock *)
  | WaitFence (fd start limit : Z) | Clock | Pause | StartTiming | RecordTiming (started : Z)
  | ApplicationClose (fd : Z).

Definition exported_fds (x : bool * va_status * option prime_descriptor) : list Z :=
  match snd x with Some d => xo_fd <$> xd_objects d | None => [] end.

(** No descriptor comes back. *)
Definition plain {A} (c : St world A) : St world (option (list Z)) := c ;; mret (Some []).
Definition defined {A} (c : St world (option A)) : St world (option (list Z)) :=
  x ← c; mret ((fun _ => []) <$> x).

(** The descriptors the caller gets; [None]: undefined behaviour. *)
Definition perform (sec : locked) : St world (option (list Z)) :=
  match sec with
  | CreateConfig p v a n => plain (advc_vaapi_decode_create_config p v a n)
  | DestroyConfig id => plain (advc_vaapi_decode_destroy_config id)
  | QueryConfig id => plain (advc_vaapi_decode_query_config id)
  | QuerySurfaceAttributes id a n => plain (advc_vaapi_decode_query_surface_attributes id a n)
  | CreateSurfaces f w h n a k => plain (advc_vaapi_decode_create_surfaces f w h n a k)
  | DestroySurfaces ids n => defined (advc_vaapi_decode_destroy_surfaces ids n)
  | CreateContext c w h t n => plain (advc_vaapi_decode_create_context c w h t n)
  | DestroyContext id => plain (advc_vaapi_decode_destroy_context id)
  | CreateBuffer c ty s n d => plain (advc_vaapi_decode_create_buffer c ty s n d)
  | SetNumElements id n => plain (advc_vaapi_decode_buffer_set_num_elements id n)
  | MapBuffer id => plain (advc_vaapi_decode_map_buffer id)
  | UnmapBuffer id => plain (advc_vaapi_decode_unmap_buffer id)
  | DestroyBuffer id => plain (advc_vaapi_decode_destroy_buffer id)
  | ApplicationWrite id off b => plain (application_write id off b)
  | BeginFirst c t => plain (begin_first c t)
  | BeginSecond c t => plain (begin_second c t)
  | RenderPicture c b n => defined (advc_vaapi_decode_render_picture c b n)
  | EndPicture c => plain (advc_vaapi_decode_end_picture c)
  | SyncStep id => x ← sync_step id; mret (Some (match x with SyncFence fd => opt_fd fd | _ => [] end))
  | QueryStatus id => plain (advc_vaapi_decode_query_surface_status id)
  | ReservedExport id => plain (reserved_export id)
  | ExportLocked id sep => x ← export_locked id sep; mret (Some (exported_fds x))
  | SignalEos c st => plain (advc_vaapi_decode_signal_eos_private c st)
  | ProgressEos c n st => plain (advc_vaapi_decode_progress_eos_private c n st)
  | WaitFence fd start limit => plain (sync_fence fd start limit)
  | Clock => plain monotonic_ns
  | Pause => plain pause_1ms
  | StartTiming => plain start_export_timing
  | RecordTiming started => plain (record_export_timing started)
  | ApplicationClose fd => plain (kernel (sys_close fd))
  end.

(** The descriptors the caller gives up. *)
Definition closes (sec : locked) : list Z :=
  match sec with WaitFence fd _ _ => opt_fd fd | ApplicationClose fd => [fd] | _ => [] end.

Definition u32_ok (n : Z) : bool := (0 <=? n) && (n <? 2 ^ 32).
(** [buffers_live] and [target_free] of the entry points, decided. *)
Definition no_stale_buffer (r : runtime) : bool :=
  forallb (fun b => negb (bf_used b) || bool_decide (is_Some (get_context r (bf_context_id b)))) (rt_buffers r).
Definition no_other_target (r : runtime) (context_id target : Z) : bool :=
  match surface_slot target with
  | None => true
  | Some s => forallb (fun j => negb (bool_decide (target_slot (context_at r j) = Some s)) ||
                        bool_decide (context_slot context_id = Some j)) (seq 0 (length (rt_contexts r)))
  end.

(** What the types of the arguments say: identifiers are [unsigned int], a size
    is not negative, [data] has the bytes it is declared with. *)
Definition arguments_ok (sec : locked) : bool :=
  match sec with
  | DestroyConfig id => u32_ok id
  | DestroySurfaces ids n => forallb u32_ok (take (Z.to_nat n) (default [] ids))
  | CreateContext c _ _ _ _ | DestroyContext c | EndPicture c => u32_ok c
  | CreateBuffer c _ size n data =>
      u32_ok c && (0 <=? size) && (0 <=? n) &&
      match data with Some d => size * n <=? zlen d | None => true end
  | SetNumElements _ n => 0 <=? n
  | _ => true
  end.

(** The uses covered: the buffers of a destroyed context are destroyed before another
    one is created, and a picture is not begun on a surface another context's
    unfinished picture is begun on. *)
Definition permitted (r : runtime) (sec : locked) : bool :=
  arguments_ok sec &&
  match sec with
  | CreateContext _ _ _ _ _ => no_stale_buffer r
  | BeginFirst c t | BeginSecond c t => no_other_target r c t
  | _ => true
  end.

(** A surface is destroyed that the call itself destroyed before. *)
Definition destroys_twice (r : runtime) (sec : locked) : Prop :=
  match sec with DestroySurfaces ids n => listed_twice r ids n | _ => False end.

(** One section, by a caller that has the descriptors it gives up. *)
Inductive step : world * list Z -> world * list Z -> Prop :=
  | step_section sec w w' held rest opened :
      permitted (w_rt w) sec = true -> held ≡ₚ rest ++ closes sec -> perform sec w = (Some opened, w') ->
      step (w, held) (w', rest ++ opened).
End Steps.

(** ** Every section is safe *)

Section Safe.
Context {dr : driver} {Hdr : DriverOk dr} {Habi : AbiTyped}.

(** The call ends with its descriptors handed over; or its behaviour is undefined,
    for the only reason there is. *)
Definition safely (t : ledger) (l : list Z) (r : runtime) (sec : locked) (x : option (list Z)) (w : world) : Prop :=
  match x with Some fds => wok t (l ++ fds) w /\ ~ destroys_twice r sec | None => destroys_twice r sec end.

Lemma wp_plain {A} sec (c : St world A) t l w : (forall r, ~ destroys_twice r sec) -> wp c (fun _ w' => wok t l w') w ->
  wp (plain c) (safely t l (w_rt w) sec) w.
Proof.
  intros Hsec Hc. unfold plain. apply wp_bind. eapply wp_mono; [exact Hc|]. intros a w' Hw'. apply wp_ret.
  split; [by rewrite app_nil_r|done].
Qed.
Lemma wok_hands {A} (c : St world A) l' t l w : handsw l' c (fun _ => []) (fun _ => True) -> wok t (l ++ l') w ->
  wp c (fun _ w' => wok t l w') w.
Proof. intros Hc Hw. eapply wok_call; [exact Hc|exact Hw|]. intros a w' _ Hw' _. by rewrite app_nil_r in Hw'. Qed.

(** *** Export *)

Definition objects_fds (x : list Z + list export_object) : list Z :=
  match x with inl opened => opened | inr objects => xo_fd <$> objects end.

Lemma handsw_objects modifier objects acc : Forall (fun fd => 0 <= fd) (xo_fd <$> acc) ->
  handsw (xo_fd <$> acc) (export_objects modifier objects acc) objects_fds
    (fun x => Forall (fun fd => 0 <= fd) (objects_fds x)).
Proof.
  revert acc. induction objects as [|o objects IH]; intros acc Ha; cbn [export_objects]; [by apply handsw_ret|].
  destruct (_ <? _); [by apply handsw_ret|].
  eapply (handsw_bind _ _ _ (fun fd => (xo_fd <$> acc) ++ opt_fd fd) (fun _ => True)).
  { eapply handsw_weaken; [apply (handsw_frame (xo_fd <$> acc)), handsw_kernel, hands_dup|done|done]. }
  intros fd _. destruct (Z.ltb_spec fd 0) as [Hf|Hf]; [apply handsw_ret; [by rewrite opt_fd_neg, app_nil_r|done]|].
  rewrite opt_fd_pos by done. specialize (IH (acc ++ [ExportObject fd (o_size o) modifier])).
  rewrite fmap_app in IH. cbn in IH. apply IH. apply Forall_app. split; [done|]. by apply Forall_singleton.
Qed.

Lemma export_locked_spec id sep t l w : wok t l w ->
  wp (export_locked id sep) (fun x w' => wok t (l ++ exported_fds x) w') w.
Proof.
  intros Hw. assert (wok t (l ++ []) w) as Hw0 by (by rewrite app_nil_r). unfold export_locked. apply wp_bind, wp_gets.
  destruct (get_surface _ id) as [s|]; [|done]. cbn zeta. destruct (_ && _); [done|]. destruct (_ || _); [done|]. apply wp_bind.
  eapply wok_call; [by apply (handsw_objects _ _ [])|exact Hw0|]. intros [opened|objects] w1 _ Hw1 Hn; cbn [objects_fds] in *.
  - apply wp_bind. eapply wok_call; [by apply handsw_kernel, hands_close_each|exact Hw1|]. intros ? w2 _ Hw2 _. by apply wp_ret.
  - by apply wp_ret.
Qed.

Lemma reserved_export_spec id t l w : wok t l w -> wp (reserved_export id) (fun _ w' => wok t l w') w.
Proof.
  intros Hw. unfold reserved_export. apply wp_bind, wp_gets. destruct (get_surface _ id) as [s|]; [|done]. cbn zeta.
  destruct (_ && _); [|done]. apply wp_bind. eapply wok_inert; [apply inert_descriptor_validate|exact Hw|].
  intros v w1 _ Hw1. by apply wp_ret.
Qed.

(** *** End of stream *)

Lemma signal_eos_spec id status t l w : wok t l w ->
  wp (advc_vaapi_decode_signal_eos_private id status) (fun _ w' => wok t l w') w.
Proof.
  intros Hw. unfold advc_vaapi_decode_signal_eos_private. destruct (negb _); [done|]. apply wp_bind, wp_gets.
  destruct (get_context _ id) as [i|]; [|done]. destruct (sg_picture_active _); [done|].
  eapply wp_mono; [apply signal_spec, Hw|]. intros x w1 H1. by eapply wok_drained.
Qed.
Lemma progress_eos_spec id n status t l w : wok t l w ->
  wp (advc_vaapi_decode_progress_eos_private id n status) (fun _ w' => wok t l w') w.
Proof.
  intros Hw. unfold advc_vaapi_decode_progress_eos_private. destruct (negb _); [done|]. apply wp_bind, wp_gets.
  destruct (get_context _ id) as [i|]; [|done]. eapply wp_mono; [apply progress_locked_spec, Hw|].
  intros x w1 H1. by eapply wok_drained.
Qed.

(** *** Timing *)

Lemma handsw_timing f : handsw (R := runtime) [] (modify (fun w => set_timing (f (w_timing w)) w)) (fun _ => []) (fun _ => True).
Proof. intros X t w Hw Hi. done. Qed.

Lemma handsw_record started : handsw [] (record_export_timing started) (fun _ => []) (fun _ => True).
Proof.
  unfold record_export_timing. destruct (started =? 0); [by apply handsw_ret|].
  eapply handsw_bind; [apply handsw_monotonic|]. intros ended _. destruct (_ <? _); [by apply handsw_ret|]. cbn zeta.
  apply (handsw_timing (fun t => Timing (u64 (et_count t + 1)) (u64 (et_total_ns t + (ended - started)))
    (if et_max_ns t <? ended - started then ended - started else et_max_ns t))).
Qed.

Lemma u32_okE n : u32_ok n = true -> is_u32 n.
Proof. unfold u32_ok, is_u32. lia. Qed.

Lemma stale_live r : no_stale_buffer r = true -> buffers_live r.
Proof.
  unfold no_stale_buffer, buffers_live, buffer_at. intros H k Hu. rewrite forallb_forall in H.
  destruct (rt_buffers r !! k) as [b|] eqn:E; [|done]. cbn in *.
  specialize (H b ltac:(apply list_elem_of_In; by eapply list_elem_of_lookup_2)). rewrite Hu in H. cbn in H.
  by apply bool_decide_eq_true in H.
Qed.

Lemma other_free r c target : no_other_target r c target = true -> target_free r c target.
Proof.
  unfold no_other_target, target_free. intros H j s Hs Ht. rewrite Hs, forallb_forall in H. specialize (H j).
  rewrite orb_true_iff, negb_true_iff, bool_decide_eq_true, bool_decide_eq_false in H. destruct H as [H|H]; [|done|done].
  apply in_seq. unfold context_at in Ht. destruct (rt_contexts r !! j) eqn:E; [apply lookup_lt_Some in E; lia|done].
Qed.

Lemma perform_spec sec t l w : wok t (l ++ closes sec) w -> permitted (w_rt w) sec = true ->
  wp (perform sec) (safely t l (w_rt w) sec) w.
Proof.
  intros Hw Hp. assert (closes sec = [] -> wok t l w) as Hl by (intros E; by rewrite E, app_nil_r in Hw).
  unfold permitted in Hp. apply andb_true_iff in Hp as [Ha Hp].
  destruct sec; cbn [perform closes arguments_ok] in *; try specialize (Hl eq_refl);
    try (apply wp_plain; [by intros ? ?|]).
  - by apply create_config_spec.
  - by apply destroy_config_spec; [apply u32_okE|].
  - unfold advc_vaapi_decode_query_config. apply wp_bind, wp_gets. by destruct (get_config _ _).
  - unfold advc_vaapi_decode_query_surface_attributes. apply wp_bind, wp_gets. destruct (get_config _ _); [|done].
    destruct (profile_limits _ _). destruct (negb have); [done|]. by destruct (n <? 6).
  - by apply create_surfaces_spec.
  - rewrite forallb_forall in Ha. unfold defined. apply wp_bind. eapply wp_mono; [apply destroy_surfaces_spec; [|exact Hl]|].
    + apply Forall_forall. intros id Hid. by apply u32_okE, Ha, list_elem_of_In.
    + intros [st|] w'; intros H; apply wp_ret; [|done]. destruct H. split; [by rewrite app_nil_r|done].
  - by apply create_context_spec; [|apply u32_okE|apply stale_live].
  - by apply destroy_context_spec; [|apply u32_okE].
  - rewrite !andb_true_iff in Ha. destruct Ha as [[[Hu H1] H2] Hd].
    apply create_buffer_spec; [done|by apply u32_okE|lia|lia|]. intros d ->. lia.
  - apply set_num_elements_spec; [done|lia].
  - by apply map_buffer_spec.
  - by apply unmap_buffer_spec.
  - by apply destroy_buffer_spec.
  - by apply application_write_spec.
  - by apply begin_first_spec; [|apply other_free].
  - by apply begin_second_spec; [|apply other_free].
  - unfold defined. apply wp_bind. eapply wp_mono; [by apply render_picture_spec|]. intros x w' [[y ->] Hw']. apply wp_ret.
    split; [by rewrite app_nil_r|by intros []].
  - by apply end_picture_spec; [|apply u32_okE].
  - apply wp_bind. eapply wp_mono; [by apply sync_step_spec|]. intros x w1 H1. apply wp_ret. by split; [|intros []].
  - by apply query_status_spec.
  - by apply reserved_export_spec.
  - apply wp_bind. eapply wp_mono; [by apply export_locked_spec|]. intros x w1 H1. apply wp_ret. by split; [|intros []].
  - by apply signal_eos_spec.
  - by apply progress_eos_spec.
  - by eapply wok_hands; [apply handsw_sync_fence|].
  - by eapply wok_hands; [apply handsw_monotonic|rewrite app_nil_r].
  - by eapply wok_hands; [apply handsw_pause|rewrite app_nil_r].
  - unfold start_export_timing. destruct (exact_env _ _); [|done]. by eapply wok_hands; [apply handsw_monotonic|rewrite app_nil_r].
  - by eapply wok_hands; [apply handsw_record|rewrite app_nil_r].
  - by eapply wok_hands; [apply handsw_kernel, hands_sys_close|].
Qed.

(** Whether a call is defined does not depend on what else is permitted. *)
Lemma perform_defined sec t l w : wok t l w -> arguments_ok sec = true ->
  fst (perform sec w) = None <-> destroys_twice (w_rt w) sec.
Proof.
  intros Hw Ha. assert (closes sec = [] -> wok t (l ++ closes sec) w) as Hl by (intros ->; by rewrite app_nil_r).
  assert (closes sec = [] -> permitted (w_rt w) sec = true -> fst (perform sec w) = None <-> destroys_twice (w_rt w) sec) as Hspec.
  { intros Hc Hp. pose proof (perform_spec sec t l w (Hl Hc) Hp) as H. unfold wp in H.
    destruct (perform sec w) as [[fds|] w']; cbn in *; [|done]. split; [done|]. by intros ?%H. }
  destruct sec; try (apply Hspec; [done|unfold permitted; by rewrite Ha]);
    cbn [perform destroys_twice]; unfold plain; rewrite st_seq; by split.
Qed.

Lemma step_wok t w held w' held' : step (w, held) (w', held') -> wok t held w -> wok t held' w'.
Proof.
  intros Hs Hw. inversion Hs as [sec w0 w0' h0 rest opened Hp Hh Hx E1 E2]; subst. assert (wok t (rest ++ closes sec) w) as Hw1 by (by eapply wok_perm).
  pose proof (perform_spec sec t rest w Hw1 Hp) as H. unfold wp in H. rewrite Hx in H. apply H.
Qed.

Lemma steps_wok t x y : rtc step x y -> wok t (snd x) (fst x) -> wok t (snd y) (fst y).
Proof.
  induction 1 as [|[w1 h1] [w2 h2] z Hs _ IH]; [done|]. intros Hw. apply IH. by eapply step_wok.
Qed.

(** ** From creation to destruction *)

(** The world of a runtime that was just created. *)
Definition started (r : runtime) (m : process) (accept : list peer) (stack : list (list Z)) (sleeps : list N) : world :=
  World r m ∅ accept stack sleeps (Timing 0 0 0).

Lemma blank_ok path policy mp consumer :
  tables_ok (blank_runtime path policy mp consumer) /\ runtime_ok dr_abi (blank_runtime path policy mp consumer) /\
  owned (blank_runtime path policy mp consumer) = [].
Proof.
  set (r := blank_runtime _ _ _ _).
  assert (forall i, cx_used (context_at r i) = false) as Hc.
  { intros i. unfold context_at. cbn. do 4 (destruct i as [|i]; [done|]). done. }
  assert (forall i, sf_used (surface_at r i) = false) as Hs.
  { intros i. unfold surface_at, r, blank_runtime. cbn [rt_surfaces].
    destruct (replicate _ _ !! i) as [x|] eqn:E; [|done]. apply lookup_replicate in E as [-> _]. done. }
  assert (forall i, bf_used (buffer_at r i) = false) as Hb.
  { intros i. unfold buffer_at, r, blank_runtime. cbn [rt_buffers].
    destruct (replicate _ _ !! i) as [x|] eqn:E; [|done]. apply lookup_replicate in E as [-> _]. done. }
  assert (forall i, target_slot (context_at r i) = None) as Ht by (intros i; unfold target_slot; by rewrite Hc).
  split_and!; [| |vm_compute; reflexivity].
  - split; try reflexivity; apply Forall_replicate; done.
  - split; try reflexivity; try done; try (intros i; rewrite ?Hc, ?Hb; done).
    + intros i s. by rewrite Ht.
    + intros i j s. by rewrite Ht.
    + intros s [Hu _]. congruence.
    + intros s [Hu _]. congruence.
    + intros s s' [Hu _]. congruence.
Qed.

Lemma created_wok path policy (m m' : process) r accept stack sleeps :
  advc_vaapi_decode_runtime_create path policy m = (Some r, m') -> m_rx m = [] ->
  Forall (fun p => Forall control_fits (pr_rx p)) accept ->
  wok (Ledger (m_fds m) (world_hidden (started r m' accept stack sleeps))) [] (started r m' accept stack sleeps).
Proof.
  intros Hc Hm Ha. unfold advc_vaapi_decode_runtime_create in Hc.
  assert (forall e (x : process), (errno_is e ;; mret (None : option runtime)) x <> (Some r, m')) as Hno by (intros e x E; discriminate).
  destruct path as [path|]; [|by apply Hno in Hc]. destruct policy as [policy|]; [|by apply Hno in Hc].
  destruct (String.eqb _ _); [by apply Hno in Hc|]. rewrite bind_seq in Hc.
  destruct (negb (fst (sys_alloc m))); [done|]. rewrite bind_seq in Hc. destruct (negb _); [done|].
  destruct configure_consumer_policy as [[mp consumer]|]; [|by apply Hno in Hc]. injection Hc as <- <-.
  assert (forall x : process, m_fds (snd (sys_alloc x)) = m_fds x /\ m_rx (snd (sys_alloc x)) = m_rx x) as Halloc.
  { intros x. unfold sys_alloc. by destruct (m_alloc x) as [|[] ?]. }
  destruct (Halloc m) as [A1 A2], (Halloc (snd (sys_alloc m))) as [B1 B2].
  destruct (blank_ok path policy mp consumer) as (T & R & O). split; [|done]. split_and!; [|done|].
  - split_and!; [|by apply map_Forall_empty|done]. cbn. congruence.
  - cbn [w_rt started]. rewrite O, app_nil_r. exists [], (m_fds m). split_and!; [done|apply installed_nil|].
    unfold fds_of. cbn. rewrite B1, A1. apply installed_nil.
Qed.

Lemma destroy_slot_spec t i w : world_fits w -> tables_ok (w_rt w) ->
  forall X, holds t w (X ++ context_fds (context_at (w_rt w) i)) -> (i < 4)%nat ->
  wp (destroy_context_slot i) (fun _ w' => world_fits w' /\ holds t w' X /\ tables_ok (w_rt w') /\
    rt_surfaces (w_rt w') = rt_surfaces (w_rt w) /\
    forall k, context_fds (context_at (w_rt w') k) = context_fds (context_at (w_rt w) k)) w.
Proof.
  intros Hc Ht X Hi Hlt. unfold destroy_context_slot. apply wp_bind, wp_gets. cbn zeta. unfold context_fds in Hi.
  destruct (cx_used _) eqn:Hu; cbn [negb]; [|apply wp_ret; rewrite app_nil_r in Hi; by split_and!].
  apply wp_bind, wp_modify. set (c := context_at (w_rt w) i) in *. set (w1 := set_rt _ w).
  assert (tables_ok (w_rt w1) /\ rt_surfaces (w_rt w1) = rt_surfaces (w_rt w) /\
    forall k, context_fds (context_at (w_rt w1) k) = context_fds (context_at (w_rt w) k)) as Hkeep.
  { split_and!; [|done|].
    - apply tables_ok_context; [done|]. intros _ Hx. by apply used_socket.
    - intros k. destruct (context_at_on (w_rt w) i (set_staging reset_staging) k) as [E|[-> E]]; unfold w1; cbn [w_rt set_rt]; by rewrite E. }
  apply wp_bind.
  eapply (wp_handsw _ [] (fun _ => []) (fun _ => True) (X ++ [cx_broker_fd c]) t w1); [|exact Hc|by rewrite app_nil_r|].
  { destruct (negb _); [|by apply handsw_ret]. eapply handsw_bind; [apply handsw_socket; intros p; apply hands_session_status|].
    intros [st d] _. by apply handsw_ret. }
  intros st w2 C2 E2 I2 _. rewrite app_nil_r in I2.
  assert (0 <= cx_broker_fd c) as Hpos by (by apply used_socket). destruct (Z.leb_spec 0 (cx_broker_fd c)); [|lia].
  eapply wp_handsw; [apply handsw_retire|exact C2|exact I2|]. intros ? w3 C3 E3 I3 _. rewrite app_nil_r in I3.
  assert (w_rt w3 = w_rt w1) as E by congruence. rewrite E. destruct Hkeep as (? & ? & ?). by split_and!.
Qed.

(** All surfaces give up what they hold. *)
Lemma release_all_spec t l slots w : wok t l w ->
  wp (for_each slots (fun s => r ← the_runtime; if sf_used (surface_at r s) then release_surface_output s else mret tt))
    (fun _ w' => wok t l w' /\ rt_contexts (w_rt w') = rt_contexts (w_rt w) /\
       (forall s, surface_fds (surface_at (w_rt w) s) = [] -> surface_fds (surface_at (w_rt w') s) = []) /\
       forall s, s ∈ slots -> surface_fds (surface_at (w_rt w') s) = []) w.
Proof.
  revert w. induction slots as [|s slots IH]; intros w Hw; cbn [for_each foldr].
  { split_and!; try done. intros s Hs. by apply not_elem_of_nil in Hs. }
  apply wp_bind, wp_bind, wp_gets.
  eapply wp_mono with (Q1 := fun _ w1 => wok t l w1 /\ rt_contexts (w_rt w1) = rt_contexts (w_rt w) /\
    (forall k, surface_fds (surface_at (w_rt w) k) = [] -> surface_fds (surface_at (w_rt w1) k) = []) /\
    surface_fds (surface_at (w_rt w1) s) = []).
  - destruct (sf_used _) eqn:Hu; [|apply wp_ret; split_and!; try done; unfold surface_fds; by rewrite Hu].
    eapply wp_mono; [by apply wok_release|]. intros ? w1 [E1 Hw1]. pose proof Hw as [(_ & Hok & _) _].
    pose proof (used_index _ _ Hok Hu). rewrite E1. split_and!; [done|done| |].
    + intros k Hk. destruct (decide (k = s)) as [->|Hne]; [|by rewrite surface_at_other].
      rewrite surface_at_same by done. apply released_fds.
    + rewrite surface_at_same by done. apply released_fds.
  - intros ? w1 (Hw1 & Hc1 & Hm1 & Hs1). eapply wp_mono; [by apply IH|]. intros ? w2 (Hw2 & Hc2 & Hm2 & Hs2).
    split_and!; [done|congruence|auto|]. intros k [->|Hk]%elem_of_cons; auto.
Qed.

Lemma bind_nil {A} (f : A -> list Z) (k : list A) : (forall i x, k !! i = Some x -> f x = []) -> k ≫= f = [].
Proof.
  induction k as [|x k IH]; intros H; [done|]. cbn. rewrite (H 0%nat x eq_refl). apply IH. intros i. apply (H (S i)).
Qed.

(** Every descriptor of the runtime is closed; the callers' are not touched. *)
Lemma destroy_spec t l w : wok t l w ->
  wp advc_vaapi_decode_runtime_destroy (fun _ w' => holds t w' l) w.
Proof.
  intros Hw. unfold advc_vaapi_decode_runtime_destroy. apply wp_bind. eapply wp_mono; [by apply release_all_spec|].
  intros ? w1 ([(C1 & T1 & I1) _] & _ & _ & Hs). apply wp_bind.
  assert (rt_surfaces (w_rt w1) ≫= surface_fds = []) as Hempty.
  { apply bind_nil. intros i x Hx. specialize (Hs i). unfold surface_at in Hs. rewrite Hx in Hs. apply Hs.
    apply list_elem_of_In, in_seq. change (Z.to_nat ADVC_VAAPI_SURFACE_SLOTS) with 64%nat.
    apply lookup_lt_Some in Hx. rewrite (tk_surfaces _ T1) in Hx. lia. }
  set (C w k := context_fds (context_at (w_rt w) k)).
  assert (owned (w_rt w1) ++ l ≡ₚ (((l ++ C w1 3%nat) ++ C w1 2%nat) ++ C w1 1%nat) ++ C w1 0%nat) as Hp.
  { unfold owned. rewrite Hempty, app_nil_r. unfold C, context_at.
    destruct (rt_contexts (w_rt w1)) as [|c0 [|c1 [|c2 [|c3 [|c4 q]]]]] eqn:E; pose proof (tk_contexts _ T1) as Hl; rewrite E in Hl; try done.
    cbn. rewrite !app_nil_r. solve_Permutation. }
  apply (holds_Permutation _ _ _ _ Hp) in I1. clear Hp Hs Hempty. cbn [for_each seq foldr Z.to_nat ADVC_VAAPI_CONTEXT_SLOTS Pos.to_nat Pos.iter_op Nat.add].
  apply wp_bind. eapply wp_mono; [by apply destroy_slot_spec; [..|lia]|]. intros ? w2 (C2 & I2 & T2 & _ & K2).
  unfold C in I2. rewrite <- !K2 in I2.
  apply wp_bind. eapply wp_mono; [by apply destroy_slot_spec; [..|lia]|]. intros ? w3 (C3 & I3 & T3 & _ & K3). rewrite <- !K3 in I3.
  apply wp_bind. eapply wp_mono; [by apply destroy_slot_spec; [..|lia]|]. intros ? w4 (C4 & I4 & T4 & _ & K4). rewrite <- !K4 in I4.
  apply wp_bind. eapply wp_mono; [by apply destroy_slot_spec; [..|lia]|]. intros ? w5 (C5 & I5 & T5 & _ & K5).
  apply wp_ret, wp_modify. exact I5.
Qed.
End Safe.
