(* ===== verification/DecodeCalls.v ===== *)
(** * Reachable states and the calls that release the lock

    [reachable] are the states of the decode runtime; the calls that wait or export
    run through several sections, so the state between two of them is reachable too.
    The time a wait takes is in DecodeWait.v. *)

From stdpp Require Import base list gmap relations.
From Stdlib Require Import ZArith Lia Bool String.
#[local] Notation length := List.length.
From S2P Require Import Prelude Kernel Protocol Dmabuf Engine EngineFiles EngineInv EngineSafe Broker BrokerLive Client ClientSafe ClientConnect World Va VaapiRoutes VaapiPolicy DecodeEos AnnexB Hevc Vp9 DecodeState DecodeStaging DecodeOutput DecodeRuntime DecodeSlices DecodeOwn DecodeDrain DecodeQueue DecodeInv DecodeEntry DecodePicture DecodeSubmit DecodeSafe.

(** ** Reachable states *)

Section Reachable.
Context {dr : driver}.

(** The runtime was created in a process with the descriptors [lg_table t], and its
    sections ran in some order since, each one [permitted]; the records the broker
    sends, over any connection, carry control messages the control buffer has room
    for and [lg_hidden t] descriptors without a byte. *)
Definition reachable (t : ledger) (w : world) (held : list Z) : Prop :=
  exists path policy m r m' accept stack sleeps,
    advc_vaapi_decode_runtime_create path policy m = (Some r, m') /\ m_rx m = [] /\
    Forall (fun p => Forall control_fits (pr_rx p)) accept /\
    t = Ledger (m_fds m) (world_hidden (started r m' accept stack sleeps)) /\
    rtc step (started r m' accept stack sleeps, []) (w, held).

Lemma reachable_wok {Hdr : DriverOk dr} {Habi : AbiTyped} t w held : reachable t w held -> wok t held w.
Proof.
  intros (path & policy & m & r & m' & accept & stack & sleeps & Hc & Hm & Ha & -> & Hs).
  by apply (steps_wok _ _ _ Hs), (created_wok path policy m m').
Qed.

Lemma reachable_step t w held w' held' : reachable t w held -> rtc step (w, held) (w', held') -> reachable t w' held'.
Proof.
  intros (path & policy & m & r & m' & accept & stack & sleeps & Hc & Hm & Ha & Ht & Hs) Hstep.
  exists path, policy, m, r, m', accept, stack, sleeps. split_and!; try done. by etrans.
Qed.

(** Sections one after the other; a section closes the descriptors handed out last. *)
Fixpoint run (secs : list locked) (w : world) (held : list Z) : option (world * list Z) :=
  match secs with
  | [] => Some (w, held)
  | sec :: secs =>
      let rest := take (length held - length (closes sec)) held in
      if permitted (w_rt w) sec && bool_decide (held = rest ++ closes sec)
      then match perform sec w with
           | (Some opened, w') => run secs w' (rest ++ opened)
           | (None, _) => None
           end
      else None
  end.

Lemma run_steps secs w held w' held' : run secs w held = Some (w', held') -> rtc step (w, held) (w', held').
Proof.
  revert w held. induction secs as [|sec secs IH]; intros w held H; cbn [run] in H; [injection H as -> ->; constructor|].
  destruct (_ && _) eqn:E; [|done]. apply andb_true_iff in E as [Hp Hh]. apply bool_decide_eq_true in Hh.
  destruct (perform sec w) as [[opened|] w1] eqn:Ex; [|done]. eapply rtc_l; [|by apply IH].
  eapply step_section; [exact Hp| |exact Ex]. by rewrite <- Hh.
Qed.
End Reachable.

(** ** The calls that release the lock *)

Section Composition.
Context {dr : driver} {Hdr : DriverOk dr} {Habi : AbiTyped}.

Lemma step_plain {A} sec (c : St world A) w held : perform sec = plain c -> closes sec = [] ->
  permitted (w_rt w) sec = true -> step (w, held) (snd (c w), held).
Proof.
  intros Hp Hc Ha. replace held with (held ++ []) at 2 by apply app_nil_r.
  eapply step_section; [exact Ha|by rewrite Hc, app_nil_r|]. rewrite Hp. unfold plain. by rewrite st_seq.
Qed.

Lemma sync_loop_steps fuel id start limit w held st w' :
  sync_loop fuel id start limit w = (Some st, w') -> rtc step (w, held) (w', held).
Proof.
  revert w. induction fuel as [|fuel IH]; intros w H; cbn [sync_loop] in H; [done|]. rewrite st_seq in H.
  assert (step (w, held) (snd (sync_step id w), held ++ step_fds (fst (sync_step id w)))) as Hs.
  { eapply (step_section (SyncStep id)); [done|by rewrite app_nil_r|]. cbn [perform]. by rewrite st_seq. }
  destruct (sync_step id w) as [[sd|fd|] w1]; cbn [fst snd step_fds] in *.
  - injection H as <- <-. rewrite app_nil_r in Hs. by apply rtc_once.
  - rewrite st_seq in H. injection H as <- <-. eapply rtc_l; [exact Hs|]. apply rtc_once.
    replace held with (held ++ []) at 2 by apply app_nil_r.
    eapply (step_section (WaitFence fd start limit)); [done|done|]. cbn [perform]. unfold plain. by rewrite st_seq.
  - rewrite app_nil_r in Hs. rewrite st_seq in H. eapply rtc_l; [exact Hs|].
    eapply rtc_l; [by apply (step_plain Clock monotonic_ns)|]. destruct (_ || _); [injection H as <- <-; constructor|].
    rewrite st_seq in H. eapply rtc_l; [by apply (step_plain Pause pause_1ms)|]. by apply IH.
Qed.

Lemma sync_steps fuel id timeout w held st w' :
  advc_vaapi_decode_sync_surface fuel id timeout w = (Some st, w') -> rtc step (w, held) (w', held).
Proof.
  unfold advc_vaapi_decode_sync_surface. rewrite st_seq. intros H.
  eapply rtc_l; [by apply (step_plain Clock monotonic_ns)|]. by eapply sync_loop_steps.
Qed.

(** Waiting for a surface changes no staged picture. *)
Lemma sync_loop_served fuel id start limit t l w : wown t l w ->
  wp (sync_loop fuel id start limit) (fun _ w' => drained_ok t l (w_rt w) w') w.
Proof.
  revert w. induction fuel as [|fuel IH]; intros w Hw; cbn [sync_loop]; [by split|]. apply wp_bind.
  assert (wp (sync_step id) (fun x w' => drained_ok t (l ++ step_fds x) (w_rt w) w') w) as Hstep.
  { assert (drained_ok t (l ++ []) (w_rt w) w) as H0 by (rewrite app_nil_r; by split).
    unfold sync_step. apply wp_bind, wp_gets. destruct (get_surface _ id) as [s|]; [|done]. cbn zeta.
    destruct (sf_state _); try done.
    - destruct (id_index _ _ _) as [i|]; [|done]. destruct (cx_used _); [|done]. apply wp_bind.
      eapply wp_mono; [by apply drain_spec|]. intros x w1 H1. apply wp_ret. cbn. by rewrite app_nil_r.
    - destruct (_ <=? _); [|done]. apply wp_bind. eapply wp_call; [apply handsw_kernel, hands_dup|rewrite app_nil_r; exact Hw|].
      intros fd w1 E1 Hw1 _. apply wp_ret. split; [done|by rewrite E1]. }
  eapply wp_mono; [exact Hstep|]. intros [sd|fd|] w1 [Hw1 Hs1]; cbn [step_fds] in Hw1; try rewrite app_nil_r in Hw1.
  - by split.
  - apply wp_bind. eapply wp_call; [apply handsw_sync_fence|exact Hw1|]. intros x w2 E2 Hw2 _. rewrite app_nil_r in Hw2.
    apply wp_ret. split; [done|by rewrite E2].
  - apply wp_bind. eapply (wp_call _ [] l); [apply handsw_monotonic|rewrite app_nil_r; exact Hw1|].
    intros now w2 E2 Hw2 _. rewrite app_nil_r in Hw2. destruct (_ || _); [apply wp_ret; split; [done|by rewrite E2]|]. apply wp_bind.
    eapply (wp_call _ [] l); [apply handsw_pause|rewrite app_nil_r; exact Hw2|]. intros ? w3 E3 Hw3 _. rewrite app_nil_r in Hw3.
    eapply wp_mono; [by apply IH|]. intros x w4 [Hw4 Hs4]. split; [done|]. etrans; [exact Hs1|]. congruence.
Qed.

Lemma other_target_served r r' c target : served r r' -> no_other_target r' c target = no_other_target r c target.
Proof.
  intros Hs. unfold no_other_target. rewrite (sv_ncontexts _ _ Hs). destruct (surface_slot target); [|done].
  induction (seq _ _) as [|j js IH]; [done|]. cbn [forallb]. rewrite IH.
  destruct (same_context_core _ _ (sv_context _ _ Hs j)) as [(E1 & _) E5]. unfold target_slot. by rewrite E1, E5.
Qed.

Lemma begin_steps t fuel c target w held st w' : wown t held w ->
  advc_vaapi_decode_begin_picture fuel c target w = (Some st, w') -> no_other_target (w_rt w) c target = true ->
  rtc step (w, held) (w', held).
Proof.
  intros Hw H Hp. unfold advc_vaapi_decode_begin_picture in H. rewrite st_seq in H.
  eapply rtc_l; [by apply (step_plain (BeginFirst c target) (begin_first c target))|].
  assert (fst (begin_first c target w) = None -> snd (begin_first c target w) = w) as Hsame.
  { unfold begin_first. rewrite st_seq. cbn [the_runtime gets fst snd]. destruct (begin_guard _ _ _) as [|[i s]]; [done|].
    destruct (state_eqb _ _); [done|]. by rewrite st_seq. }
  destruct (begin_first c target w) as [[first|] w1]; cbn [fst snd] in *; [injection H as <- <-; constructor|].
  rewrite (Hsame eq_refl) in *. clear Hsame. rewrite st_seq in H.
  assert (no_other_target (w_rt (snd (advc_vaapi_decode_sync_surface fuel target ADVC_VAAPI_SYNC_LIMIT_NS w))) c target = true) as Hp2.
  { rewrite <- Hp. apply other_target_served.
    assert (wp (advc_vaapi_decode_sync_surface fuel target ADVC_VAAPI_SYNC_LIMIT_NS) (fun _ w' => drained_ok t held (w_rt w) w') w) as Hd.
    { unfold advc_vaapi_decode_sync_surface. apply wp_bind. eapply (wp_call _ [] held); [apply handsw_monotonic|by rewrite app_nil_r|].
      intros now w2 E2 Hw2 _. rewrite app_nil_r in Hw2. rewrite <- E2. by apply sync_loop_served. }
    apply Hd. }
  pose proof (sync_steps fuel target ADVC_VAAPI_SYNC_LIMIT_NS w held) as Hsync.
  destruct (advc_vaapi_decode_sync_surface _ _ _ w) as [[sst|] w2]; cbn [fst snd] in *; [|done].
  etrans; [by eapply Hsync|]. destruct sst; try (injection H as <- <-; constructor). rewrite st_seq in H. injection H as <- <-.
  apply rtc_once. by apply (step_plain (BeginSecond c target) (begin_second c target)).
Qed.

Lemma export_steps fuel id mem flags w held st d w' :
  advc_vaapi_decode_export_surface fuel id mem flags w = (Some (st, d), w') ->
  rtc step (w, held) (w', held ++ match d with Some d => xo_fd <$> xd_objects d | None => [] end).
Proof.
  intros H. unfold advc_vaapi_decode_export_surface in H. rewrite st_seq in H.
  eapply rtc_l; [by apply (step_plain StartTiming start_export_timing)|].
  destruct (export_refused _ _); [injection H as <- <- <-; by rewrite app_nil_r|]. rewrite st_seq in H.
  eapply rtc_l; [by apply (step_plain (ReservedExport id) (reserved_export id))|].
  set (w1 := snd (start_export_timing w)) in *. set (ts := fst (start_export_timing w)) in *.
  destruct (reserved_export id w1) as [res w2]. cbn [fst snd] in *. rewrite st_seq in H.
  set (sync := if res then _ else _) in H.
  assert (forall x w3, sync w2 = (Some x, w3) -> rtc step (w2, held) (w3, held)) as Hsync.
  { intros x w3. unfold sync. destruct res; [intros [= _ <-]; constructor|apply sync_steps]. }
  destruct (sync w2) as [[sst|] w3]; cbn [fst snd] in *; [|done]. etrans; [by eapply Hsync|]. clear Hsync.
  assert (forall v : va_status, (record_export_timing ts ;; mret (Some (v, None))) w3 = (Some (st, d), w') ->
    rtc step (w3, held) (w', held ++ match d with Some d => xo_fd <$> xd_objects d | None => [] end)) as Hrec.
  { intros v Hv. rewrite st_seq in Hv. injection Hv as <- <- <-. rewrite app_nil_r. apply rtc_once.
    by apply (step_plain (RecordTiming ts) (record_export_timing ts)). }
  destruct sst; try (by eapply Hrec). clear Hrec. rewrite st_seq in H.
  set (sep := negb _) in H. assert (step (w3, held) (snd (export_locked id sep w3), held ++ exported_fds (fst (export_locked id sep w3)))) as Hs.
  { eapply (step_section (ExportLocked id sep)); [done|by rewrite app_nil_r|]. cbn [perform]. by rewrite st_seq. }
  destruct (export_locked id sep w3) as [[[rec xst] out] w4]. cbn [fst snd] in *. rewrite st_seq in H. injection H as <- <- <-.
  eapply rtc_l; [exact Hs|]. unfold exported_fds. cbn [snd]. destruct rec; [|constructor]. apply rtc_once.
  by apply (step_plain (RecordTiming ts) (record_export_timing ts)).
Qed.
End Composition.
