(* ===== verification/DecodeWait.v ===== *)
(** * Waiting for a surface

    [advc_vaapi_decode_sync_surface] polls until its surface is decided or its limit
    has passed: [sync_rounds] rounds are enough, and [synced] says what its status
    means.  The clock of the model advances where the code sleeps or polls. *)

From stdpp Require Import base list gmap.
From Stdlib Require Import ZArith Lia Bool String.
#[local] Notation length := List.length.
From S2P Require Import Prelude Kernel Protocol Dmabuf Engine Broker Client ClientConnect World Still Va VaapiRoutes VaapiPolicy DecodeEos DecodeState DecodeStaging DecodeOutput DecodeRuntime DecodeSlices DecodeOwn DecodeDrain DecodeSettle DecodeQueue DecodeInv.

(** The conversion hooks leave the clock of the model alone. *)
Class ConversionsStill (dr : driver) : Prop := {
  cs_gpu : forall h, dr_gpu_repack = Some h -> forall source fence, timeless (h source fence);
  cs_cpu : forall h, dr_cpu_copy = Some h -> forall source fence, timeless (h source fence) }.

Section Wait.
Context {dr : driver} {Hcs : ConversionsStill dr}.
Implicit Types w : world.

(** ** Draining takes no time *)

Lemma frozen_convert_source route source fence : frozen (convert_source route source fence).
Proof.
  unfold convert_source. cbn zeta. destruct route; try solve [frozen].
  - destruct dr_gpu_repack as [h|] eqn:E; [apply frozen_kernel; by apply cs_gpu|frozen].
  - destruct dr_cpu_copy as [h|] eqn:E; [apply frozen_kernel; by apply cs_cpu|frozen].
Qed.
Lemma frozen_convert i s o : frozen (convert_output i s o).
Proof. unfold convert_output, convert_reserved, conversion_released. pose proof frozen_convert_source. frozen; auto. Qed.
Lemma frozen_decode_output_close o : frozen (output_close o).
Proof. unfold output_close. frozen. Qed.
Lemma frozen_deliver i o : frozen (deliver_output i o).
Proof. unfold deliver_output. pose proof frozen_convert. pose proof frozen_decode_output_close. frozen; auto. Qed.

(** The adapter of the end-of-stream machine. *)
Definition frozen_adapter {A} (c : St private_eos_adapter A) : Prop :=
  forall a, moment (ad_world (snd (c a))) = moment (ad_world a).

Lemma adapter_value {A} (x : A) : frozen_adapter (mret x).
Proof. by intros a. Qed.
Lemma adapter_seq {A C} (c : St private_eos_adapter A) (k : A -> St private_eos_adapter C) :
  frozen_adapter c -> (forall x, frozen_adapter (k x)) -> frozen_adapter (c ≫= k).
Proof. intros Hc Hk a. rewrite st_seq, Hk. apply Hc. Qed.
Lemma adapter_world {A} (c : St world A) : frozen c -> frozen_adapter (in_world c).
Proof. intros H a. unfold in_world. specialize (H (ad_world a)). by destruct (c (ad_world a)). Qed.
Lemma adapter_hold o have : frozen_adapter (hold_output o have).
Proof. by intros a. Qed.
Lemma adapter_gets {A} (f : private_eos_adapter -> A) : frozen_adapter (gets f).
Proof. by intros a. Qed.
Ltac adapter :=
  repeat lazymatch goal with
  | |- frozen_adapter (_ ≫= _) => apply adapter_seq; [|intros ?]
  | |- frozen_adapter (in_world _) => apply adapter_world
  | |- frozen_adapter (match ?x with _ => _ end) => destruct x
  | |- frozen_adapter _ => first [apply adapter_value|apply adapter_hold|apply adapter_gets|progress cbn beta zeta]
  end.

Lemma adapter_dequeue i o : frozen_adapter (private_eos_try_dequeue i o).
Proof. unfold private_eos_try_dequeue. adapter; frozen. Qed.
Lemma adapter_frame i o : frozen_adapter (private_eos_handle_frame i o).
Proof. unfold private_eos_handle_frame. adapter; auto using frozen_convert, frozen_decode_output_close; frozen. Qed.
Lemma adapter_release i o : frozen_adapter (private_eos_release_output i o).
Proof. unfold private_eos_release_output. adapter; auto using frozen_decode_output_close; frozen. Qed.

Lemma frozen_run_eos i call :
  (forall state w a, moment (ad_world a) = moment w -> moment (ad_world (snd (call state (Some (private_eos_ops i)) a))) = moment w) ->
  frozen (run_eos i call).
Proof.
  intros H w. unfold run_eos. specialize (H (Some (cx_eos (context_at (w_rt w) i))) w (fresh_adapter w) eq_refl).
  destruct (call _ _ _) as [[[res st] status] a]. exact H.
Qed.

Lemma frozen_progress i n status : frozen (private_eos_progress_locked i n status).
Proof.
  unfold private_eos_progress_locked. apply frozen_seq.
  - apply frozen_run_eos. intros state w a Ha.
    apply (progress_keeps (fun a => moment (ad_world a) = moment w) (private_eos_ops i)); try done; cbn.
    + intros o a' H. by rewrite adapter_dequeue.
    + intros o a' H. by rewrite adapter_frame.
    + intros o a' H. by rewrite adapter_release.
  - intros [[res st] a]. apply frozen_seq; [|intros; apply frozen_value]. destruct (ad_have_output a); [|apply frozen_value].
    intros w. unfold release_leftover. set (e := Output _ _ _ _ _).
    pose proof (adapter_release i e (Adapter w (ad_client_output a) true)) as H.
    by destruct (private_eos_release_output _ _ _).
Qed.

Lemma frozen_drain i : frozen (drain_one_output i).
Proof.
  unfold drain_one_output, private_eos_drain_one. pose proof frozen_progress. pose proof frozen_deliver. frozen; auto.
Qed.

(** ** What the code waits with *)

(** No [clock_gettime] fails. *)
Definition clock_runs w : Prop := Forall (fun ok => ok = true) (ce_clock (environment w)).
Definition polls w : list poll_event := ce_polls (environment w).
(** The time the sleeps that end early take. *)
Definition short_sleeps w : Z := foldr (fun n sum => Z.of_N n + sum) 0 (w_sleeps w).

(** The clock does not wrap around before the deadline and what is still to pass. *)
Definition in_time (deadline : Z) w : Prop :=
  0 <= clock w /\ clock_runs w /\ clock w + short_sleeps w < 2 ^ 64 /\ deadline + 10 ^ 6 + short_sleeps w < 2 ^ 64.

Lemma short_sleeps_nonneg w : 0 <= short_sleeps w.
Proof. unfold short_sleeps. induction (w_sleeps w) as [|n l IH]; cbn [foldr]; lia. Qed.

Lemma ns_split n : 0 <= n < 2 ^ 64 -> u64 (u64 (n / 10 ^ 9 * 1000000000) + n mod 10 ^ 9) = n.
Proof.
  intros H. pose proof (Z.div_mod n (10 ^ 9) ltac:(lia)). pose proof (Z.mod_pos_bound n (10 ^ 9) ltac:(lia)).
  assert (0 <= n / 10 ^ 9) by (apply Z.div_pos; lia). unfold u64. rewrite (Z.mod_small (n / 10 ^ 9 * _)) by lia. rewrite Z.mod_small by lia. lia.
Qed.

(** Reading the clock. *)
Lemma monotonic_ns_spec w : 0 <= clock w < 2 ^ 64 -> clock_runs w ->
  wp monotonic_ns (fun now w' => now = clock w /\ clock w' = clock w /\ clock_runs w' /\ polls w' = polls w /\
    w_sleeps w' = w_sleeps w /\ w_rt w' = w_rt w /\ fds_of w' = fds_of w) w.
Proof.
  intros Hn Hr. unfold wp, monotonic_ns. rewrite st_seq.
  unfold kernel, on_environment, sys_clock, clock_runs, clock, polls, environment, fds_of in *. cbn [m_be].
  set (e := cl_user (m_be (w_m w))) in *. destruct (ce_clock e) as [|b l] eqn:E.
  - cbn. rewrite E. split_and!; try done. by apply ns_split.
  - apply Forall_cons in Hr as [-> Hr]. cbn. split_and!; try done. by apply ns_split.
Qed.

(** A pause: a millisecond, or less when a signal ends it. *)
Lemma pause_spec w : wp pause_1ms (fun _ w' => clock_runs w' = clock_runs w /\ polls w' = polls w /\ w_rt w' = w_rt w /\
  ((w_sleeps w = [] /\ w_sleeps w' = [] /\ clock w' = clock w + 10 ^ 6) \/
   exists n, w_sleeps w = n :: w_sleeps w' /\ clock w' = clock w + Z.of_N n)) w.
Proof.
  unfold wp, pause_1ms. destruct (w_sleeps w) as [|n l] eqn:E; unfold clock_runs, polls, clock, environment; cbn;
    (split_and!; [done|done|done|]); [left|right; exists n]; rewrite ?E; split_and!; try done; lia.
Qed.

(** *** The fence *)

Definition penv (m : process) : connect_env := cl_user (m_be m).

(** A poll reported the descriptor ready. *)
Definition polled (l l' : list poll_event) : Prop := exists before late o, l = before ++ PReady late o :: l'.
Definition poll_refuses (l : list poll_event) : Prop := exists late, PFailed ETIMEDOUT late ∈ l.

Lemma poll_fence_spec fuel fd ms m : (length (ce_polls (penv m)) < fuel)%nat -> is_Some (m_fds m !! fd) -> 0 <= ms ->
  let '(r, m') := poll_fence fuel fd ms m in
  m_fds m' = m_fds m /\
  ((r = 0 /\ polled (ce_polls (penv m)) (ce_polls (penv m'))) \/
   (r = -1 /\ (m_errno m' = ETIMEDOUT ->
      ce_now (penv m) + ms * 10 ^ 6 <= ce_now (penv m') \/ poll_refuses (ce_polls (penv m))))).
Proof.
  revert m. induction fuel as [|fuel IH]; intros m Hf Ho Hms; [lia|]. cbn [poll_fence]. rewrite st_seq.
  destruct (on_environment (sys_poll true ms) m) as [[rc o] m1] eqn:Ep. cbn [fst snd]. rewrite st_seq. cbn [errno gets fst snd].
  unfold on_environment, sys_poll in Ep. cbn [m_be] in Ep. fold (penv m) in Ep.
  assert (forall late l, rc = 0 -> m_fds m1 = m_fds m -> penv m1 = with_now (fun t => t + ms * 10 ^ 6 + Z.of_N late) l ->
    ce_now l = ce_now (penv m) -> 
    let '(r, m') := (if (rc <? 0) && (m_errno m1 =? EINTR) then poll_fence fuel fd ms
      else t ← gets m_fds; if (0 <? rc) && bool_decide (is_Some (t !! fd)) then mret 0
           else (if rc =? 0 then errno_is ETIMEDOUT else mret tt) ;; mret (-1)) m1 in
    m_fds m' = m_fds m /\ ((r = 0 /\ polled (ce_polls (penv m)) (ce_polls (penv m'))) \/
     (r = -1 /\ (m_errno m' = ETIMEDOUT ->
      ce_now (penv m) + ms * 10 ^ 6 <= ce_now (penv m') \/ poll_refuses (ce_polls (penv m)))))) as Htimeout.
  { intros late l -> Hm1 He Hl. cbn [Z.ltb Z.compare andb Z.eqb]. rewrite !st_seq. cbn. split; [done|]. right. split; [done|].
    intros _. left. change (penv (set_errno ETIMEDOUT m1)) with (penv m1). rewrite He. cbn. lia. }
  assert (forall ev late l, ce_polls (penv m) = ev :: l -> 
    let m2 := Machine (Statics (next_value (m_be m)) (with_now (Z.add (Z.of_N late)) (with_polls l (penv m)))) (m_fds m) (m_limit m) EINTR
      (m_alloc m) (m_rx m) (m_tx m) (m_txres m) (m_io m) in
    let '(r, m') := poll_fence fuel fd ms m2 in
    m_fds m' = m_fds m /\ ((r = 0 /\ polled (ev :: l) (ce_polls (penv m'))) \/
     (r = -1 /\ (m_errno m' = ETIMEDOUT ->
      ce_now (penv m) + ms * 10 ^ 6 <= ce_now (penv m') \/ poll_refuses (ev :: l))))) as Hagain.
  { intros ev late l El m2. specialize (IH m2). destruct (poll_fence fuel fd ms m2) as [r m'].
    destruct IH as (F & H); [rewrite El in Hf; cbn in Hf |- *; lia|done|done|]. split; [exact F|].
    destruct H as [(-> & before & late' & o2 & E)|(-> & H)]; [left|right]; (split; [done|]).
    - exists (ev :: before), late', o2. cbn in E. by rewrite E.
    - intros [H1|[dt H1]]%H; [left; cbn in H1; lia|right]. exists dt. by right. }
  destruct (ce_polls (penv m)) as [|ev l] eqn:El; [|destruct ev as [late|late|e late|late o']]; injection Ep as <- <- <-.
  - by eapply (Htimeout 0%N).
  - by eapply (Htimeout late).
  - cbn [Z.ltb Z.compare andb m_errno set_errno]. rewrite Z.eqb_refl. by eapply Hagain.
  - cbn [Z.ltb Z.compare andb m_errno set_errno]. destruct (Z.eqb_spec e EINTR) as [->|He]; [by eapply Hagain|].
    rewrite !st_seq. cbn. split; [done|]. right. split; [done|]. intros ->. right. exists late. left.
  - cbn [Z.ltb Z.compare andb]. rewrite st_seq. cbn [gets fst snd m_fds]. rewrite bool_decide_eq_true_2 by done.
    cbn. split; [done|]. left. split; [done|]. by exists [], late, o'.
Qed.

Lemma wait_fence_spec fd ns m : 0 <= fd -> is_Some (m_fds m !! fd) -> 0 < ns < INT_MAX * 1000000 ->
  let '(r, m') := wait_fence fd ns m in
  m_fds m' = m_fds m /\
  ((r = 0 /\ polled (ce_polls (penv m)) (ce_polls (penv m'))) \/
   (r = -1 /\ (m_errno m' = ETIMEDOUT ->
      ce_now (penv m) + ns <= ce_now (penv m') \/ poll_refuses (ce_polls (penv m))))).
Proof.
  intros Hfd Ho Hns. unfold wait_fence. destruct (Z.ltb_spec fd 0); [lia|].
  destruct (Z.leb_spec (INT_MAX * 1000000) ns); [lia|]. cbn zeta. rewrite st_seq. cbn [gets fst snd]. fold (penv m).
  unfold INT_MAX in *. assert (u64 (ns + 999999) = ns + 999999) as -> by (apply Z.mod_small; lia).
  pose proof (Z.div_mod (ns + 999999) 1000000 ltac:(lia)). pose proof (Z.mod_pos_bound (ns + 999999) 1000000 ltac:(lia)).
  pose proof (poll_fence_spec (S (length (ce_polls (penv m)))) fd ((ns + 999999) / 1000000) m ltac:(lia) Ho ltac:(apply Z.div_pos; lia)) as Hp.
  destruct (poll_fence _ _ _ m) as [r m']. destruct Hp as (F & [?|(-> & He)]); (split; [done|]); [by left|right]. split; [done|].
  intros [?|?]%He; [left; lia|by right].
Qed.

(** Waiting for a fence until [deadline]: what the status means. *)
Definition fence_status (deadline : Z) (w w' : world) (st : va_status) : Prop :=
  match st with
  | VA_STATUS_SUCCESS => polled (polls w) (polls w')
  | VA_STATUS_ERROR_TIMEDOUT => deadline <= clock w' \/ poll_refuses (polls w)
  | VA_STATUS_ERROR_OPERATION_FAILED => True
  | _ => False
  end.

Lemma wp_process {A} (c : St process A) (P : A -> world -> Prop) w :
  (let '(a, m) := c (w_m w) in P a (set_m m w)) -> wp (kernel c) P w.
Proof. unfold wp, kernel. by destruct (c (w_m w)). Qed.

Lemma sync_fence_spec fd start limit w : in_time (start + limit) w -> 0 <= start <= clock w -> limit < INT_MAX * 1000000 ->
  (0 <= fd -> is_Some (fds_of w !! fd)) ->
  wp (sync_fence fd start limit) (fun st w' => w_rt w' = w_rt w /\ fence_status (start + limit) w w' st) w.
Proof.
  intros (H1 & H2 & H3 & H4) Hs Hl Hfd. pose proof (short_sleeps_nonneg w). unfold sync_fence.
  destruct (Z.ltb_spec fd 0) as [|Hpos]; [by split|]. specialize (Hfd Hpos).
  apply wp_bind. eapply wp_mono; [apply monotonic_ns_spec; [lia|done]|]. intros now w1 (-> & C1 & R1 & P1 & S1 & E1 & F1).
  assert (forall w2, w_rt (snd (kernel (close_if_open fd) w2)) = w_rt w2 /\
    moment (snd (kernel (close_if_open fd) w2)) = moment w2) as Hclose.
  { intros w2. split; [apply steady_kernel|apply frozen_kernel; timeless]. }
  destruct (Z.ltb_spec (clock w) start) as [|_]; [lia|]. cbn [orb]. destruct (Z.leb_spec limit (clock w - start)).
  - apply wp_bind. unfold wp. destruct (Hclose w1) as [E2 M2]. injection M2 as M2 _. cbn [fst snd mret st_ret].
    split; [congruence|]. left. unfold clock at 1. rewrite M2. fold (clock w1). lia.
  - apply wp_bind, wp_process.
    pose proof (wait_fence_spec fd (limit - (clock w - start)) (w_m w1) Hpos ltac:(unfold fds_of in *; by rewrite F1) ltac:(lia)) as Hw.
    destruct (wait_fence _ _ (w_m w1)) as [r m2]. destruct Hw as (F2 & Hr). apply wp_bind, wp_process.
    unfold close_if_open. destruct (Z.leb_spec 0 fd); [|lia]. unfold sys_close. cbn [w_m set_m]. rewrite F2.
    destruct (m_fds (w_m w1) !! fd) as [f|] eqn:Ef; [|unfold fds_of in *; rewrite <- F1, Ef in Hfd; by destruct Hfd].
    unfold polls, environment in *. destruct Hr as [(-> & Hp)|(-> & He)]; cbn [Z.ltb Z.compare].
    + apply wp_ret. split; [exact E1|]. cbn. unfold polls, environment. rewrite <- P1. exact Hp.
    + apply wp_bind, wp_process. cbn [errno gets fst snd]. apply wp_ret. split; [exact E1|]. cbn [w_m set_m m_errno set_fds].
      destruct (Z.eqb_spec (m_errno m2) ETIMEDOUT) as [E|_]; [|done]. specialize (He E). cbn. unfold clock, environment in *. cbn.
      unfold polls, environment. rewrite <- P1. unfold penv in He. destruct He as [He|He]; [left|by right]. lia.
Qed.

(** ** The wait *)

(** What the status of a wait for [id] until [deadline], begun in [w], says of the
    state [w'] it ends in. *)
Definition synced (id deadline : Z) (w : world) (st : va_status) (w' : world) : Prop :=
  let found P := exists s, get_surface (w_rt w') id = Some s /\ P (surface_at (w_rt w') s) in
  let fenced x := sf_state x = SURFACE_READY /\ 0 <= sf_acquire_fence_fd x in
  match st with
  | VA_STATUS_SUCCESS => found (fun x => sf_state x = SURFACE_READY /\ (0 <= sf_acquire_fence_fd x -> polled (polls w) (polls w')))
  | VA_STATUS_ERROR_DECODING_ERROR => found (fun x => sf_state x = SURFACE_ERROR)
  | VA_STATUS_ERROR_OPERATION_FAILED => found (fun x => sf_state x = SURFACE_IDLE \/ fenced x \/
      (sf_state x = SURFACE_PENDING /\ forall i, context_slot (sf_owner_context x) = Some i -> cx_used (context_at (w_rt w') i) = false))
  | VA_STATUS_ERROR_TIMEDOUT => deadline <= clock w' \/ (found fenced /\ poll_refuses (polls w))
  | VA_STATUS_ERROR_INVALID_SURFACE => get_surface (w_rt w') id = None
  | _ => False
  end.

Lemma dup_open fd w : wp (kernel (fcntl_dupfd_cloexec fd)) (fun r w' => w_rt w' = w_rt w /\ (0 <= r -> is_Some (fds_of w' !! r))) w.
Proof.
  apply wp_process. unfold fcntl_dupfd_cloexec. destruct (_ !! _) as [f|]; [|cbn; split; [done|lia]]. unfold install_fd.
  destruct (_ <=? _); cbn; (split; [done|]); [lia|]. intros _. unfold fds_of. cbn. rewrite lookup_insert_eq. by eexists.
Qed.

Lemma sync_step_waits id w : wp (sync_step id) (fun x w' =>
  match x with
  | SyncDone st => w' = w /\ forall deadline w0, synced id deadline w0 st w
  | SyncFence fd => w_rt w' = w_rt w /\ moment w' = moment w /\ (0 <= fd -> is_Some (fds_of w' !! fd)) /\
      exists s, get_surface (w_rt w) id = Some s /\ sf_state (surface_at (w_rt w) s) = SURFACE_READY /\
        0 <= sf_acquire_fence_fd (surface_at (w_rt w) s)
  | SyncAgain => moment w' = moment w
  end) w.
Proof.
  unfold sync_step. apply wp_bind, wp_gets. destruct (get_surface (w_rt w) id) as [s|] eqn:Hs; [|by apply wp_ret]. cbn zeta.
  destruct (sf_state _) eqn:Hst.
  - apply wp_ret. split; [done|]. intros. exists s. by split; [|left].
  - change (id_index _ _ _) with (context_slot (sf_owner_context (surface_at (w_rt w) s))).
    destruct (context_slot _) as [i|] eqn:Hi; [destruct (cx_used _) eqn:Hu|].
    + apply wp_bind. unfold wp. cbn [fst snd mret st_ret]. apply frozen_drain.
    + apply wp_ret. split; [done|]. intros. exists s. split; [done|]. right. right. split; [done|]. intros j Hj. congruence.
    + apply wp_ret. split; [done|]. intros. exists s. split; [done|]. right. right. split; [done|]. intros j Hj. congruence.
  - destruct (Z.leb_spec 0 (sf_acquire_fence_fd (surface_at (w_rt w) s))).
    + apply wp_bind. pose proof (frozen_kernel _ (timeless_dup (sf_acquire_fence_fd (surface_at (w_rt w) s))) w) as Hm.
      destruct (dup_open (sf_acquire_fence_fd (surface_at (w_rt w) s)) w) as [H1 H2]. unfold wp. cbn [fst snd mret st_ret].
      split_and!; [done|done|done|by exists s].
    + apply wp_ret. split; [done|]. intros. exists s. split; [done|]. split; [done|lia].
  - apply wp_ret. split; [done|]. intros. by exists s.
Qed.

(** Rounds to a deadline: one for each millisecond, and one for each short sleep. *)
Definition rounds_to (deadline : Z) w : nat := (Z.to_nat ((deadline - clock w) / 10 ^ 6 + 1) + length (w_sleeps w))%nat.

(** A pause before the deadline uses up a round. *)
Lemma pause_round deadline w : in_time deadline w -> clock w < deadline ->
  wp pause_1ms (fun _ w' => in_time deadline w' /\ polls w' = polls w /\ clock w <= clock w' /\ (rounds_to deadline w' < rounds_to deadline w)%nat) w.
Proof.
  intros (H1 & H2 & H3 & H4) Hlt. eapply wp_mono; [apply pause_spec|]. intros [] w' (R & P & _ & Hp).
  pose proof (short_sleeps_nonneg w'). assert (clock_runs w') as Hr by (by rewrite R). unfold in_time, rounds_to, short_sleeps in *.
  assert (0 <= (deadline - clock w) / 10 ^ 6) by (apply Z.div_pos; lia).
  destruct Hp as [(S0 & S1 & C)|(n & S & C)].
  - rewrite S0, S1 in *. cbn [foldr] in *. rewrite C. split_and!; try done; try lia.
    assert ((deadline - (clock w + 10 ^ 6)) / 10 ^ 6 = (deadline - clock w) / 10 ^ 6 - 1) as ->.
    { replace (deadline - (clock w + 10 ^ 6)) with (deadline - clock w + -1 * 10 ^ 6) by lia. rewrite Z.div_add by lia. lia. }
    cbn [List.length]. lia.
  - rewrite S in *. cbn [foldr List.length] in *. rewrite C. split_and!; try done; try lia.
    assert ((deadline - (clock w + Z.of_N n)) / 10 ^ 6 <= (deadline - clock w) / 10 ^ 6) by (apply Z.div_le_mono; lia). lia.
Qed.

Lemma in_time_moment deadline w w' : moment w' = moment w -> in_time deadline w ->
  in_time deadline w' /\ clock w' = clock w /\ polls w' = polls w /\ rounds_to deadline w' = rounds_to deadline w.
Proof.
  intros E H. injection E as E1 E2. unfold in_time, rounds_to, short_sleeps, clock_runs, clock, polls in *. by rewrite E1, E2.
Qed.

Lemma sync_loop_waits fuel id start limit w0 w : in_time (start + limit) w -> 0 <= start <= clock w -> limit < INT_MAX * 1000000 ->
  polls w = polls w0 -> (rounds_to (start + limit) w < fuel)%nat ->
  wp (sync_loop fuel id start limit) (fun x w' => exists st, x = Some st /\ synced id (start + limit) w0 st w') w.
Proof.
  revert w. induction fuel as [|fuel IH]; intros w Hw Hs Hl Hp Hf; [lia|]. cbn [sync_loop]. apply wp_bind.
  eapply wp_mono; [apply sync_step_waits|]. intros [st|fd|] w1.
  - intros [-> Hst]. apply wp_ret. eauto.
  - intros (E1 & M1 & Ho & s & Hg & Hst & Hfe). destruct (in_time_moment _ _ _ M1 Hw) as (T1 & C1 & P1 & _). apply wp_bind.
    eapply wp_mono; [apply sync_fence_spec; [done|lia|done|done]|]. intros st w2 [E2 Hfs]. apply wp_ret. exists st. split; [done|].
    assert (get_surface (w_rt w2) id = Some s) as Hg2 by congruence.
    assert (surface_at (w_rt w2) s = surface_at (w_rt w) s) as Hx by congruence. unfold fence_status in Hfs. rewrite P1, Hp in Hfs.
    destruct st; try done; cbn in Hfs |- *.
    + exists s. rewrite Hx. by split.
    + exists s. rewrite Hx. split; [done|]. right. left. by split.
    + destruct Hfs as [?|?]; [by left|right]. split; [|done]. exists s. by rewrite Hx.
  - intros M1. destruct (in_time_moment _ _ _ M1 Hw) as (T1 & C1 & P1 & R1). apply wp_bind.
    pose proof T1 as (B1 & B2 & B3 & B4). pose proof (short_sleeps_nonneg w1).
    eapply wp_mono; [apply monotonic_ns_spec; [lia|done]|]. intros now w2 (-> & C2 & K2 & P2 & S2 & E2 & _).
    assert (in_time (start + limit) w2) as T2 by (unfold in_time, short_sleeps in *; by rewrite C2, S2).
    assert (rounds_to (start + limit) w2 = rounds_to (start + limit) w1) as R2 by (unfold rounds_to; by rewrite C2, S2).
    destruct (Z.ltb_spec (clock w1) start) as [|_]; [lia|]. cbn [orb]. destruct (Z.leb_spec limit (clock w1 - start)).
    + apply wp_ret. eexists. split; [done|]. left. lia.
    + apply wp_bind. eapply wp_mono; [apply pause_round; [exact T2|lia]|]. intros [] w3 (T3 & P3 & C3 & R3).
      apply IH; [done|lia|done|congruence|lia].
Qed.

(** The limit of a wait, and rounds that are enough for it. *)
Definition sync_limit (timeout_ns : Z) : Z := Z.min timeout_ns ADVC_VAAPI_SYNC_LIMIT_NS.
Definition sync_rounds (timeout_ns : Z) w : nat := S (rounds_to (clock w + sync_limit timeout_ns) w).

Lemma sync_surface_spec fuel id timeout w : 0 <= timeout -> in_time (clock w + sync_limit timeout) w ->
  (sync_rounds timeout w <= fuel)%nat ->
  exists st w', advc_vaapi_decode_sync_surface fuel id timeout w = (Some st, w') /\
    synced id (clock w + sync_limit timeout) w st w'.
Proof.
  intros Ht Hw Hf. pose proof Hw as (B1 & B2 & B3 & B4). pose proof (short_sleeps_nonneg w). unfold sync_rounds in Hf.
  assert (wp (advc_vaapi_decode_sync_surface fuel id timeout) (fun x w' =>
    exists st, x = Some st /\ synced id (clock w + sync_limit timeout) w st w') w) as Hwp.
  { unfold advc_vaapi_decode_sync_surface. cbn zeta. apply wp_bind.
    eapply wp_mono; [apply monotonic_ns_spec; [lia|done]|]. intros now w2 (-> & C2 & K2 & P2 & S2 & E2 & _).
    assert ((if ADVC_VAAPI_SYNC_LIMIT_NS <? timeout then ADVC_VAAPI_SYNC_LIMIT_NS else timeout) = sync_limit timeout) as ->
      by (unfold sync_limit; destruct (Z.ltb_spec ADVC_VAAPI_SYNC_LIMIT_NS timeout); lia).
    apply sync_loop_waits; [|lia| |done|].
    - unfold in_time, short_sleeps in *. by rewrite C2, S2.
    - unfold sync_limit, ADVC_VAAPI_SYNC_LIMIT_NS, INT_MAX. lia.
    - unfold rounds_to in *. rewrite C2, S2. lia. }
  destruct Hwp as (st & E & Hst). exists st, (snd (advc_vaapi_decode_sync_surface fuel id timeout w)).
  split; [|done]. rewrite <- E. apply surjective_pairing.
Qed.
End Wait.
