(* ===== verification/DecodeClaims.v ===== *)
(** * What the decode runtime guarantees

    The properties of the runtime in every reachable state, an application that
    decodes and exports one picture as their instance, and the uses outside
    [permitted] that show what goes wrong there. *)

From stdpp Require Import base list gmap relations.
From Stdlib Require Import ZArith Lia Bool String.
#[local] Notation length := List.length.
From S2P Require Import Prelude Kernel Protocol Dmabuf Engine EngineFiles EngineInv EngineSafe Broker BrokerLive Client ClientSafe ClientConnect World Still Va VaapiRoutes VaapiPolicy DecodeEos AnnexB Hevc Vp9 DecodeState DecodeStaging DecodeOutput DecodeRuntime DecodeSlices DecodeOwn DecodeDrain DecodeSettle DecodeQueue DecodeInv DecodeEntry DecodePicture DecodeSubmit DecodeSafe DecodeCalls DecodeWait.

(** ** Properties *)

Section Properties.
Context {dr : driver} {Hdr : DriverOk dr} {Habi : AbiTyped}.

(** C13. Every descriptor is accounted for.  Whatever the threads of an application
    call in which order, within [permitted] (no buffer outlives its context while
    another context is created, no surface is begun by two contexts: see
    shared_target_leaks below), whatever the broker sends, and with hooks that keep
    [DriverOk] (no socket pool), the descriptors of the process are those it had when
    the runtime was created, the sockets of the live contexts, the files and fences of
    the live surfaces, and those the callers were given and have not closed, all of
    them distinct; and lost ones, at most as many as the records received so far
    carried without bytes.  Destroying the runtime then closes exactly its own. *)
Theorem decode_descriptors_accounted t w held : reachable t w held ->
  holds t w (owned (w_rt w) ++ held) /\ holds t (snd (advc_vaapi_decode_runtime_destroy w)) held.
Proof.
  intros Hr. pose proof (reachable_wok _ _ _ Hr) as Hw. split; [apply Hw|]. by apply (destroy_spec t held w).
Qed.

(** C21. The tables stay well typed.  In every reachable state the four tables have
    their sizes; a live context refers to a live configuration of its codec, has a
    socket, and its bound slices lie inside its staged bytes; a live buffer has the
    bytes it declares and the shape its context's codec reads; a surface a picture
    is begun on is vacant and no other picture's; a surface that is not ready has no
    fence, and files only if its buffer is reserved; a surface that waits has a live
    context of its session as owner and a timestamp no other waiting surface has. *)
Theorem decode_tables_typed t w held : reachable t w held ->
  tables_ok (w_rt w) /\ runtime_ok dr_abi (w_rt w).
Proof. intros Hr. pose proof (reachable_wok _ _ _ Hr) as [(_ & ? & _) ?]. by split. Qed.

(** C22. The one call that is undefined.  In every state that permitted uses reach, the
    next section, permitted or not, is defined whatever its arguments and the staged
    structures are, but for a destruction that lists live surfaces only and one of
    them twice: that one dereferences the NULL of a missing surface.  No other section
    does, and none copies past the end of a parameter or data buffer. *)
Theorem decode_sections_defined t w held sec : reachable t w held -> arguments_ok sec = true ->
  fst (perform sec w) = None <-> destroys_twice (w_rt w) sec.
Proof. intros Hr. by eapply perform_defined, reachable_wok. Qed.

(** C14. A decoded picture reaches the surface that was submitted for it.  In a
    context whose end of stream has not been signalled, a drain asks the broker for an
    output.  When the broker answers with one, the surface of that session that waits
    for its timestamp becomes what [settled] says, and the drain returns its result:
    READY with the output's buffer, its acquire fence and the reserved files, or the
    broker's own layout of the buffer, or the converted copy; or ERROR with all else
    as it was, when the reserved buffer cannot take the output, the layout is not to
    be had or the conversion fails.  No other surface changes; and none does when the
    broker answers anything else. *)
Theorem output_reaches_its_surface t w held i : reachable t w held ->
  st_phase (cx_eos (context_at (w_rt w) i)) = OPEN ->
  let '(st, o, _, w1) := dequeued i w in
  let '(rc, w') := drain_one_output i w in
  let meant s := st = ADVC_STATUS_OK /\ waiting (surface_at (w_rt w) s) /\
    sf_pts_ns (surface_at (w_rt w) s) = cout_pts_ns o /\
    sf_owner_session (surface_at (w_rt w) s) = cx_broker_session (context_at (w_rt w) i) in
  forall s, (meant s -> settled i s o w1 rc (surface_at (w_rt w') s)) /\
            (~ meant s -> surface_at (w_rt w') s = surface_at (w_rt w) s).
Proof.
  intros Hr Hopen. pose proof (reachable_wok _ _ _ Hr) as [(_ & Ht & _) Hok]. pose proof (drain_settles i w Hopen) as Hd.
  destruct (dequeued i w) as [[[st o] det] w1], (drain_one_output i w) as [rc w']. cbn zeta in Hd. cbn [fst snd] in Hd.
  destruct Hd as [Hw1 Hd]. intros meant s. destruct (decide (st = ADVC_STATUS_OK)) as [Eo|Eo].
  2:{ rewrite Hd. split; [by intros [? _]|done]. }
  unfold delivery_settles in Hd. rewrite Hw1 in Hd. cbn [fst snd] in Hd.
  destruct (pending_surface (w_rt w) _ _) as [k|] eqn:Ep.
  - apply pending_surface_spec in Ep as (Hu & Hp & Hpts & Hses). destruct Hd as (f & -> & Hf).
    pose proof (used_index _ _ Ht Hu) as Hk. destruct (decide (s = k)) as [->|Hne].
    + rewrite surface_at_same by done. split; [done|]. intros Hn. destruct Hn. by split_and!.
    + rewrite surface_at_other by done. split; [|done]. intros (_ & Hws & Hps & _). destruct Hne.
      apply (rk_unique _ _ Hok); [done|by split|congruence].
  - destruct Hd as [-> _]. split; [|done]. intros (_ & [Hu Hp] & Hpts & Hses). exfalso.
    apply first_slot_none with (k := s) (x := surface_at (w_rt w) s) in Ep.
    + unfold awaits, state_eqb in Ep. rewrite Hu, Hp, Hpts, Hses, !Z.eqb_refl in Ep. done.
    + apply surface_lookup; [done|by eapply used_index].
Qed.

(** C24. Waiting for a surface ends.  Whatever the broker does, and with sleeps that
    signals end early, [advc_vaapi_decode_sync_surface] returns within [sync_rounds]
    rounds of its loop, in a state that other sections can go on from and with no
    descriptor handed out; and its status is true of that state.  SUCCESS: the surface
    is ready, and when it has an acquire fence, a poll has reported it;
    DECODING_ERROR: its picture failed; INVALID_SURFACE: there is none;
    OPERATION_FAILED: it is idle, or ready with a fence that could not be waited for,
    never a picture still pending; TIMEDOUT: the limit has passed, or the poll of a
    ready surface's fence failed with that errno.  The clock can be read and does not
    wrap around, the conversion hooks take no time on it, and the sections of the call
    follow each other without those of other threads. *)
Theorem sync_surface_returns {Hcs : ConversionsStill dr} t w held fuel id timeout : reachable t w held ->
  0 <= timeout -> in_time (clock w + sync_limit timeout) w -> (sync_rounds timeout w <= fuel)%nat ->
  exists st w', advc_vaapi_decode_sync_surface fuel id timeout w = (Some st, w') /\ reachable t w' held /\
    synced id (clock w + sync_limit timeout) w st w' /\
    (st = VA_STATUS_ERROR_OPERATION_FAILED -> forall s, get_surface (w_rt w') id = Some s -> ~ waiting (surface_at (w_rt w') s)).
Proof.
  intros Hr Ht Hw Hf. destruct (sync_surface_spec fuel id timeout w Ht Hw Hf) as (st & w' & E & Hst).
  assert (reachable t w' held) as Hr' by (by eapply reachable_step, sync_steps).
  exists st, w'. split_and!; try done. intros -> s Hs [Hu Hp]. destruct Hst as (s' & Hs' & Hcase).
  assert (s' = s) as -> by congruence. pose proof (reachable_wok _ _ _ Hr') as [_ Hok].
  destruct (rk_owner _ _ Hok s (conj Hu Hp)) as (_ & i & Hi & Huse & _).
  destruct Hcase as [?|[[? _]|[_ H]]]; [congruence|congruence|]. specialize (H i Hi). congruence.
Qed.
End Properties.

(** ** An application that decodes one picture *)

(** Structures of one byte, of two for a slice and four for an HEVC picture; every
    VP9 picture is a visible key frame of 16 by 16. *)
Definition scene_abi : va_abi :=
  VaAbi 1 1 2 4 1 2 1 2 (fun _ => zero_h264_picture)
    (fun raw => H264Slice (byte_at raw 0) (byte_at raw 1) 0 0 0 0 0) (fun _ => zero_hevc_picture)
    (fun raw => HevcSliceParam (byte_at raw 0) (byte_at raw 1) 0 0 0)
    (fun _ => Vp9Picture 16 16 0 8 1 1 0 1 0) (fun raw => Vp9Slice (byte_at raw 0) (byte_at raw 1) 0).
Definition scene : driver := Driver (fun _ => None) no_hooks None None None scene_abi.

Definition scene_policy : advc_vaapi_policy :=
  let codecs := Z.lor (Z.lor ADVC_VAAPI_CODEC_H264 ADVC_VAAPI_CODEC_HEVC_MAIN) ADVC_VAAPI_CODEC_VP9_PROFILE0 in
  let limits := Limits 4096 2304 [] in VaPolicy codecs codecs limits limits limits.

(** The broker's records. *)
Definition scene_reply (opc rid sid : Z) (payload : list Z) (files : list file_kind) : rx_event :=
  RxRecord (header_store (replicate 32 0)
    (Header ADVC_VERSION_MAJOR ADVC_VERSION_MINOR ADVC_MSG_REPLY opc rid sid 0 (zlen payload) (zlen files) 0) ++ payload)
    false (match files with [] => [] | _ => [ScmRights files] end).
Definition status_ok : list Z := zeros ADVC_STATUS_SIZE.
Definition hello_reply : list Z :=
  advc_put_u32 (advc_put_u64 (zeros ADVC_HELLO_SIZE) 0 required_features) 8 ADVC_MAX_PAYLOAD.
(** A hardware buffer with the timestamp of the first picture and a fence. *)
Definition scene_output : list Z :=
  advc_put_u32 (advc_put_u32 (advc_put_u32 (advc_put_u32 (advc_put_u64 (advc_put_u64 (zeros ADVC_OUTPUT_READY_SIZE)
    0 77) 8 ADVC_VAAPI_PTS_STEP_NS) 28 ADVC_TRANSPORT_AHARDWAREBUFFER) 32 16) 36 16) 108 ADVC_FD_ACQUIRE_FENCE.
(** Its linear NV12 layout. *)
Definition scene_layout : advc_dmabuf_descriptor :=
  Desc 77 16 16 842094158 ADVC_DMABUF_EXPLICIT_ALL 0 0 0 16 16 1 2 2 3 3 2 1 1
    (Obj 5 65536 :: replicate 3 (Obj (-1) 0))
    ([Plane 0 0 64; Plane 0 8192 64] ++ replicate 2 zero_plane).
Definition scene_prime : list Z :=
  zeros 8 ++ write_registration (zeros ADVC_REGISTER_DMABUF_SIZE) scene_layout.

Definition scene_peer : peer :=
  Peer [scene_reply ADVC_OP_HELLO 5 0 hello_reply []; scene_reply ADVC_OP_CREATE_SESSION 6 1 status_ok [];
        scene_reply ADVC_OP_QUEUE_INPUT 7 1 status_ok []; scene_reply ADVC_OP_DEQUEUE_OUTPUT 8 1 scene_output [KSyncFile];
        scene_reply ADVC_OP_TRANSFER_PRIME 9 1 scene_prime [KOther]] [] [].

(** Connects succeed at once. *)
Definition scene_process : process :=
  Machine (Statics 5 (CEnv (5 * 10 ^ 9) [] [PReady 0 (inr 0)] (fun _ => (0, 0%N)) 0 [] ∅)) {[ 0 := FdInfo true KOther ]} 64 0
    [] [] [] [] [].

Section Scene.
#[local] Existing Instance scene.

Definition scene_runtime : option runtime :=
  fst (advc_vaapi_decode_runtime_create (Some "/run/advc"%string) (Some scene_policy) scene_process).
(** What an application gets to, from the creation of the runtime. *)
Definition after_with (p : peer) (secs : list locked) : option (world * list Z) :=
  r ← scene_runtime; run secs (started r scene_process [p] [] []) [].
Definition after : list locked -> option (world * list Z) := after_with scene_peer.

Definition CONFIG : Z := make_id ADVC_VAAPI_TYPE_CONFIG 0.
Definition SURFACE : Z := make_id ADVC_VAAPI_TYPE_SURFACE 0.
Definition CONTEXT : Z := make_id ADVC_VAAPI_TYPE_CONTEXT 0.
Definition BUFFER (k : nat) : Z := make_id ADVC_VAAPI_TYPE_BUFFER k.

Definition decode_one : list locked :=
  [CreateConfig VAProfileVP9Profile0 true None 0;
   CreateSurfaces VA_RT_FORMAT_YUV420 16 16 1 None 0;
   CreateContext CONFIG 16 16 (Some [SURFACE]) 1;
   CreateBuffer CONTEXT VAPictureParameterBufferType 1 1 (Some [0]);
   CreateBuffer CONTEXT VASliceParameterBufferType 2 1 (Some [5; 0]);
   CreateBuffer CONTEXT VASliceDataBufferType 5 1 (Some example_frame);
   BeginFirst CONTEXT SURFACE;
   RenderPicture CONTEXT (Some [BUFFER 0; BUFFER 1; BUFFER 2]) 3;
   EndPicture CONTEXT].
Definition export_one : list locked :=
  [SyncStep SURFACE; SyncStep SURFACE; Clock; ExportLocked SURFACE false].


(** The fence is descriptor 4 while it is waited for, then the exported file is. *)
Definition decode_and_export : list locked :=
  decode_one ++ [SyncStep SURFACE; SyncStep SURFACE; WaitFence 4 0 ADVC_VAAPI_SYNC_LIMIT_NS; ExportLocked SURFACE false].

#[local] Instance scene_ok : DriverOk scene.
Proof. by split. Qed.
#[local] Instance scene_typed : AbiTyped.
Proof.
  intros codec raw. pose proof (byte_at_range raw 0). pose proof (byte_at_range raw 1).
  unfold is_u8 in *. destruct codec; split; unfold is_u32; cbn; lia.
Qed.

Definition scene_fds : gmap Z fd_info := {[ 0 := FdInfo true KOther ]}.
Definition scene_table : ledger := Ledger scene_fds 0.

Lemma after_with_reachable p secs w held : Forall control_fits (pr_rx p) -> after_with p secs = Some (w, held) ->
  reachable (Ledger scene_fds (hidden (pr_rx p))) w held.
Proof.
  intros Hp. unfold after_with. destruct scene_runtime as [r|] eqn:E; [|done]. intros Hr. cbn [mbind option_bind] in Hr.
  exists (Some "/run/advc"%string), (Some scene_policy), scene_process, r, scene_process, [p], [], [].
  split_and!; try done.
  - unfold scene_runtime in E. rewrite <- E. by vm_compute.
  - by apply Forall_singleton.
  - unfold world_hidden, hidden_in. cbn. by rewrite map_fold_empty, Nat.add_0_r.
  - by apply (run_steps secs).
Qed.

Lemma scene_fits : Forall control_fits (pr_rx scene_peer).
Proof. vm_compute; repeat constructor; discriminate. Qed.

Lemma after_reachable secs w held : after secs = Some (w, held) -> reachable scene_table w held.
Proof. apply after_with_reachable, scene_fits. Qed.

(** A broker that sends a descriptor without a byte instead of an output. *)
Definition leaking_peer : peer :=
  Peer [scene_reply ADVC_OP_HELLO 5 0 hello_reply []; scene_reply ADVC_OP_CREATE_SESSION 6 1 status_ok [];
        scene_reply ADVC_OP_QUEUE_INPUT 7 1 status_ok []; RxRecord [] false [ScmRights [KOther]]] [] [].

Lemma leaking_fits : Forall control_fits (pr_rx leaking_peer).
Proof. vm_compute; repeat constructor; discriminate. Qed.

(** What holds of the state an application gets to. *)
Definition reached (secs : list locked) (P : world -> list Z -> Prop) : Prop :=
  match after secs with Some (w, held) => P w held | None => False end.

Lemma decode_descriptors_accounted_witness :
  reached decode_and_export (fun w held => held = [4] /\
    installed scene_fds (fds_of w) (owned (w_rt w) ++ [4]) /\
    installed scene_fds (fds_of (snd (advc_vaapi_decode_runtime_destroy w))) [4]) /\
  match after_with leaking_peer (decode_one ++ [SyncStep SURFACE]) with
  | Some (w, held) => (map_to_list (fds_of w)).*1 = [2; 1; 0] /\ owned (w_rt w) ++ held = [1] /\
      holds (Ledger scene_fds 1) w [1] /\ holds (Ledger scene_fds 1) (snd (advc_vaapi_decode_runtime_destroy w)) []
  | None => False
  end.
Proof.
  split.
  - unfold reached. assert (snd <$> after decode_and_export = Some [4]) as H by (vm_compute; reflexivity).
    destruct (after decode_and_export) as [[w held]|] eqn:E; [|discriminate H]. injection H as ->. split; [reflexivity|].
    destruct (decode_descriptors_accounted scene_table w [4] (after_reachable _ _ _ E)) as [H1 H2].
    split; [exact (holds_exact scene_table _ _ eq_refl H1)|exact (holds_exact scene_table _ _ eq_refl H2)].
  - assert ((fun x => ((map_to_list (fds_of (fst x))).*1, owned (w_rt (fst x)), snd x)) <$>
      after_with leaking_peer (decode_one ++ [SyncStep SURFACE]) = Some ([2; 1; 0], [1], [])) as H by (vm_compute; reflexivity).
    destruct (after_with leaking_peer _) as [[w held]|] eqn:E; [|discriminate H]. cbn [fmap option_fmap option_map fst snd] in H.
    injection H as H1 H2 ->. split; [exact H1|]. rewrite H2. split; [reflexivity|].
    destruct (decode_descriptors_accounted _ w [] (after_with_reachable _ _ _ _ leaking_fits E)) as [H3 H4].
    rewrite H2 in H3. split; [exact H3|exact H4].
Defined.

Lemma decode_tables_typed_witness : reached decode_one (fun w _ =>
  waiting (surface_at (w_rt w) 0) /\ tables_ok (w_rt w) /\ runtime_ok dr_abi (w_rt w)).
Proof.
  unfold reached.
  assert ((fun x => bool_decide (waiting (surface_at (w_rt (fst x)) 0))) <$> after decode_one = Some true) as H by (vm_compute; reflexivity).
  destruct (after decode_one) as [[w held]|] eqn:E; [|discriminate H]. injection H as H. apply bool_decide_eq_true in H.
  split; [exact H|]. apply (decode_tables_typed scene_table w held). exact (after_reachable _ _ _ E).
Defined.

Lemma decode_sections_defined_witness : reached (take 7 decode_one) (fun w _ =>
  fst (perform (RenderPicture CONTEXT (Some [BUFFER 0; BUFFER 1; BUFFER 2]) 3) w) <> None /\
  fst (perform (DestroySurfaces (Some [SURFACE; SURFACE]) 2) w) = None).
Proof.
  unfold reached.
  assert ((fun x => bool_decide (is_Some (get_surface (w_rt (fst x)) SURFACE))) <$> after (take 7 decode_one) = Some true) as H
    by (vm_compute; reflexivity).
  destruct (after (take 7 decode_one)) as [[w held]|] eqn:E; [|discriminate H]. injection H as H. apply bool_decide_eq_true in H.
  split; [intros Hn|]; apply (decode_sections_defined scene_table w held) in Hn || apply (decode_sections_defined scene_table w held);
    try exact (after_reachable _ _ _ E); try reflexivity; [exact Hn|].
  split; [by repeat constructor|]. intros Hd. apply NoDup_cons in Hd as [Hd _]. apply Hd. left.
Defined.

Lemma output_reaches_its_surface_witness : reached decode_one (fun w _ =>
  let '(rc, w') := drain_one_output 0 w in
  rc = 1 /\ sf_state (surface_at (w_rt w') 0) = SURFACE_READY /\
  settled 0 0 (snd (fst (fst (dequeued 0 w)))) (snd (dequeued 0 w)) 1 (surface_at (w_rt w') 0)).
Proof.
  unfold reached.
  assert ((fun x => let w := fst x in let c := context_at (w_rt w) 0 in let y := fst (dequeued 0 w) in
      (st_phase (cx_eos c), fst (fst y), bool_decide (waiting (surface_at (w_rt w) 0)),
       sf_pts_ns (surface_at (w_rt w) 0) - cout_pts_ns (snd (fst y)),
       sf_owner_session (surface_at (w_rt w) 0) - cx_broker_session c, fst (drain_one_output 0 w),
       state_eqb (sf_state (surface_at (w_rt (snd (drain_one_output 0 w))) 0)) SURFACE_READY)) <$> after decode_one =
    Some (OPEN, ADVC_STATUS_OK, true, 0, 0, 1, true)) as H by (vm_compute; reflexivity).
  destruct (after decode_one) as [[w held]|] eqn:E; [|discriminate H]. cbn zeta in H.
  injection H as H1 H2 H3 H4 H5 H6 H7. apply bool_decide_eq_true in H3. apply bool_decide_eq_true in H7.
  pose proof (output_reaches_its_surface scene_table w held 0 (after_reachable _ _ _ E) H1) as Hc. cbn [fst] in *.
  destruct (dequeued 0 w) as [[[st o] det] w1], (drain_one_output 0 w) as [rc w']. cbn [fst snd] in *. subst rc.
  split; [reflexivity|]. split; [exact H7|]. apply Hc. split; [exact H2|]. split; [exact H3|]. split; lia.
Defined.

#[local] Instance scene_still : ConversionsStill scene.
Proof. by split. Qed.

Lemma sync_surface_returns_witness : reached decode_one (fun w held =>
  exists st w', advc_vaapi_decode_sync_surface 5 SURFACE 2000000 w = (Some st, w') /\ reachable scene_table w' held /\
    synced SURFACE (clock w + 2000000) w st w' /\ st = VA_STATUS_SUCCESS).
Proof.
  unfold reached.
  assert ((fun x => let w := fst x in (bool_decide (ce_clock (environment w) = []), bool_decide (w_sleeps w = []), clock w,
      fst (advc_vaapi_decode_sync_surface 5 SURFACE 2000000 w))) <$> after decode_one =
    Some (true, true, 5 * 10 ^ 9, Some VA_STATUS_SUCCESS)) as H by (vm_compute; reflexivity).
  destruct (after decode_one) as [[w held]|] eqn:E; [|discriminate H]. cbn [fmap option_fmap option_map fst snd] in H.
  injection H as H1 H2 H3 H4. apply bool_decide_eq_true in H1. apply bool_decide_eq_true in H2.
  destruct (sync_surface_returns scene_table w held 5 SURFACE 2000000 (after_reachable _ _ _ E)) as (st & w' & Hx & Hr & Hs & _).
  - lia.
  - unfold in_time, clock_runs, short_sleeps. rewrite H1, H2, H3. split_and!; try (vm_compute; congruence). by apply Forall_nil.
  - unfold sync_rounds, rounds_to. rewrite H2, H3. vm_compute. lia.
  - rewrite Hx in H4. injection H4 as H4. exists st, w'. split; [exact Hx|]. split; [exact Hr|]. split; [exact Hs|exact H4].
Defined.

End Scene.

(** ** Outside the permitted uses *)

(** Sections whether permitted or not; [None]: undefined behaviour. *)
Fixpoint run_any {dr : driver} (secs : list locked) (w : world) : option world :=
  match secs with
  | [] => Some w
  | sec :: secs => match perform sec w with (Some _, w') => run_any secs w' | (None, _) => None end
  end.
Definition from_start (dr : driver) (peers : list peer) (secs : list locked) : option world :=
  r ← fst (advc_vaapi_decode_runtime_create (Some "/run/advc"%string) (Some scene_policy) scene_process);
  run_any secs (started r scene_process peers [] []).

(** Listing a surface twice: the first round clears its slot, the second
    dereferences the NULL of [get_surface]. *)
Lemma destroying_twice_is_undefined :
  is_Some (from_start scene [] (take 2 decode_one)) /\
  from_start scene [] (take 2 decode_one ++ [DestroySurfaces (Some [SURFACE; SURFACE]) 2]) = None.
Proof. split; [eexists|]; vm_compute; reflexivity. Qed.

(** A VP9 parameter buffer outlives its context; a new HEVC context takes the slot
    and with it the identifier, and rendering the old buffer reads past its one byte. *)
Definition second_peer (rid : Z) : peer :=
  Peer [scene_reply ADVC_OP_HELLO rid 0 hello_reply []; scene_reply ADVC_OP_CREATE_SESSION (rid + 1) 1 status_ok []] [] [].
Definition stale_buffer : list locked :=
  take 4 decode_one ++
  [DestroyContext CONTEXT; CreateConfig VAProfileHEVCMain true None 0;
   CreateContext (make_id ADVC_VAAPI_TYPE_CONFIG 1) 16 16 (Some [SURFACE]) 1; BeginFirst CONTEXT SURFACE].
Lemma stale_buffer_is_overread :
  is_Some (from_start scene [scene_peer; second_peer 9] stale_buffer) /\
  from_start scene [scene_peer; second_peer 9]
    (stale_buffer ++ [RenderPicture CONTEXT (Some [BUFFER 0]) 1]) = None.
Proof. split; [eexists|]; vm_compute; reflexivity. Qed.

Definition OTHER : Z := make_id ADVC_VAAPI_TYPE_CONTEXT 1.
(** Two contexts begin a picture on one surface.  The first picture is decoded, and
    the second one makes the surface wait again with what it holds: the output of the
    second overwrites the file and the fence of the first, which stay open. *)
Definition shared_peer (rid queued dequeued picture : Z) : peer :=
  Peer [scene_reply ADVC_OP_HELLO rid 0 hello_reply []; scene_reply ADVC_OP_CREATE_SESSION (rid + 1) 1 status_ok [];
        scene_reply ADVC_OP_QUEUE_INPUT queued 1 status_ok [];
        scene_reply ADVC_OP_DEQUEUE_OUTPUT dequeued 1
          (advc_put_u64 scene_output 8 (picture * ADVC_VAAPI_PTS_STEP_NS)) [KSyncFile];
        scene_reply ADVC_OP_TRANSFER_PRIME (dequeued + 1) 1 scene_prime [KOther]] [] [].
Definition one_picture (context : Z) (k : nat) : list locked :=
  [CreateBuffer context VAPictureParameterBufferType 1 1 (Some [0]);
   CreateBuffer context VASliceParameterBufferType 2 1 (Some [5; 0]);
   CreateBuffer context VASliceDataBufferType 5 1 (Some example_frame);
   RenderPicture context (Some [BUFFER k; BUFFER (k + 1); BUFFER (k + 2)]) 3; EndPicture context].
Definition shared_target : list locked :=
  take 3 decode_one ++
  [CreateContext CONFIG 16 16 (Some [SURFACE]) 1; BeginFirst CONTEXT SURFACE; BeginFirst OTHER SURFACE] ++
  one_picture CONTEXT 0 ++ [SyncStep SURFACE] ++ one_picture OTHER 3.
Definition open_and_owned (w : world) : list Z * list Z := ((map_to_list (fds_of w)).*1, owned (w_rt w)).
Lemma shared_target_leaks :
  open_and_owned <$> from_start scene [shared_peer 5 9 10 1; shared_peer 7 12 13 2] shared_target = Some ([3; 4; 2; 1; 0], [1; 2; 3; 4]) /\
  open_and_owned <$> from_start scene [shared_peer 5 9 10 1; shared_peer 7 12 13 2] (shared_target ++ [SyncStep SURFACE]) = Some ([5; 3; 6; 4; 2; 1; 0], [1; 2; 5; 6]).
Proof. split; vm_compute; reflexivity. Qed.

(** Every broker connection numbers its sessions from 1, and the end of the stream of
    one context fails the surfaces of every context with its session number. *)
Definition scene_eos : driver :=
  Driver (fun name => if String.eqb name OPT_IN_ENV then Some OPT_IN_VALUE else None) no_hooks None None None scene_abi.
Definition control_record : list Z :=
  advc_put_u32 (advc_put_u32 (advc_put_u64 (zeros ADVC_OUTPUT_BYTES_SIZE) 0 78) 24 ADVC_FLAG_END_OF_STREAM)
    28 ADVC_TRANSPORT_BYTES.
Definition ending_peer : peer :=
  Peer [scene_reply ADVC_OP_HELLO 5 0 hello_reply []; scene_reply ADVC_OP_CREATE_SESSION 6 1 status_ok [];
        scene_reply ADVC_OP_QUEUE_INPUT 10 1 status_ok [];
        scene_reply ADVC_OP_DEQUEUE_OUTPUT 11 1 control_record [KMemFile [] ALL_SEALS];
        scene_reply ADVC_OP_RELEASE_OUTPUT 12 1 status_ok []] [] [].
Definition other_peer : peer :=
  Peer [scene_reply ADVC_OP_HELLO 7 0 hello_reply []; scene_reply ADVC_OP_CREATE_SESSION 8 1 status_ok [];
        scene_reply ADVC_OP_QUEUE_INPUT 9 1 status_ok []] [] [].
Definition eos_request : option decode_eos_status := Some (Status status_size 0 0 0 0 0 0 0 0 0 0 (replicate 8 0)).
Definition foreign_eos : list locked :=
  take 3 decode_one ++
  [CreateContext CONFIG 16 16 (Some [SURFACE]) 1;
   CreateBuffer OTHER VAPictureParameterBufferType 1 1 (Some [0]);
   CreateBuffer OTHER VASliceParameterBufferType 2 1 (Some [5; 0]);
   CreateBuffer OTHER VASliceDataBufferType 5 1 (Some example_frame);
   BeginFirst OTHER SURFACE; RenderPicture OTHER (Some [BUFFER 0; BUFFER 1; BUFFER 2]) 3; EndPicture OTHER].
Lemma eos_fails_foreign_surface :
  (fun w => sf_state (surface_at (w_rt w) 0)) <$> from_start scene_eos [ending_peer; other_peer] foreign_eos =
    Some SURFACE_PENDING /\
  (fun w => (sf_state (surface_at (w_rt w) 0), sf_owner_context (surface_at (w_rt w) 0))) <$>
    from_start scene_eos [ending_peer; other_peer]
      (foreign_eos ++ [SignalEos CONTEXT eos_request; ProgressEos CONTEXT 4 eos_request]) =
    Some (SURFACE_ERROR, OTHER).
Proof. split; vm_compute; reflexivity. Qed.
