(* ===== verification/EncodeParams.v ===== *)
(** * Encode policy and picture parameters (src/src/vaapi_advc/advc_vaapi_encode.c)

    What the driver offers for encoding, the checks of a configuration, and the
    reading of an application's parameter buffers into the parameters of a frame.
    The part of the file that talks to the broker is EncodeBroker.v.

    The sizes of libva's encode structures and the reading of their fields from the
    bytes of a buffer are the parameter [enc_abi]; the records have the fields the
    code reads. *)

From stdpp Require Import base list gmap.
From Stdlib Require Import ZArith Lia Bool String.
#[local] Notation length := List.length.
From S2P Require Import Prelude Kernel Protocol Policy Dmabuf Engine Broker Client VaapiPolicy Va.

Definition VA_RC_VBR : Z := 4.
Definition VA_ATTRIB_NOT_SUPPORTED : Z := 0x80000000.

(** ** Data *)

Inductive encode_codec := ENCODE_CODEC_NONE | ENCODE_CODEC_H264 | ENCODE_CODEC_HEVC.
#[export] Instance encode_codec_eq_dec : EqDecision encode_codec.
Proof. solve_decision. Defined.
Definition codec_is (a b : encode_codec) : bool := bool_decide (a = b).

Definition ADVC_VAAPI_ENCODE_H264 : Z := Z.shiftl 1 0.
Definition ADVC_VAAPI_ENCODE_HEVC : Z := Z.shiftl 1 1.

Record encode_policy := EncodePolicy {
  ep_codecs : Z; ep_h264_max_width : Z; ep_h264_max_height : Z; ep_hevc_max_width : Z;
  ep_hevc_max_height : Z; ep_rate_control : Z; ep_rt_formats : Z; ep_prime_input_ready : bool }.

(** The entry points and attributes the code tells apart. *)
Inductive va_entrypoint := VAEntrypointEncSlice | VAEntrypointOther.
Inductive config_attrib :=
  | VAConfigAttribRTFormat | VAConfigAttribRateControl | VAConfigAttribEncPackedHeaders
  | VAConfigAttribEncInterlaced | VAConfigAttribEncMaxRefFrames | VAConfigAttribEncMaxSlices
  | VAConfigAttribOther.

Record encode_config := EncodeConfig {
  ec_codec : encode_codec; ec_profile : va_profile; ec_entrypoint : va_entrypoint;
  ec_rate_control : Z; ec_rt_format : Z }.

Record frame_params := FrameParams {
  fp_codec : encode_codec; fp_width : Z; fp_height : Z; fp_bitrate : Z; fp_framerate_milli : Z;
  fp_coded_buffer : Z; fp_gop_frames : Z; fp_sequence_seen : bool; fp_picture_seen : bool;
  fp_slice_seen : bool; fp_force_idr : bool }.

(** ** The policy *)

Definition profile_codec (profile : va_profile) : encode_codec :=
  match profile with
  | VAProfileH264ConstrainedBaseline => ENCODE_CODEC_H264
  | VAProfileHEVCMain => ENCODE_CODEC_HEVC
  | _ => ENCODE_CODEC_NONE
  end.

Definition grow (old new : Z) : Z := if old <? new then new else old.

Definition encode_step (p : encode_policy) (c : advc_codec_capability) : encode_policy :=
  if negb (cap_direction c =? ADVC_DIRECTION_ENCODE) ||
     negb (cap_acceleration c =? CodecDiscovery.ADVC_ACCELERATION_HARDWARE)
  then p
  else if str_eq (cstring (cap_mime c)) MIME_AVC then
    EncodePolicy (Z.lor (ep_codecs p) ADVC_VAAPI_ENCODE_H264)
      (grow (ep_h264_max_width p) (cap_max_width c)) (grow (ep_h264_max_height p) (cap_max_height c))
      (ep_hevc_max_width p) (ep_hevc_max_height p) (ep_rate_control p) (ep_rt_formats p)
      (ep_prime_input_ready p)
  else if str_eq (cstring (cap_mime c)) MIME_HEVC then
    EncodePolicy (Z.lor (ep_codecs p) ADVC_VAAPI_ENCODE_HEVC)
      (ep_h264_max_width p) (ep_h264_max_height p)
      (grow (ep_hevc_max_width p) (cap_max_width c)) (grow (ep_hevc_max_height p) (cap_max_height c))
      (ep_rate_control p) (ep_rt_formats p) (ep_prime_input_ready p)
  else p.

(** The features PRIME input needs. *)
Definition prime_input_features (features : Z) : bool :=
  let required := Z.lor (Z.lor ADVC_FEATURE_ENCODE ADVC_FEATURE_DMABUF) ADVC_FEATURE_NATIVE_FENCE in
  (Z.land features required =? required) &&
  negb (Z.land features (Z.lor ADVC_FEATURE_DMABUF_VULKAN ADVC_FEATURE_DMABUF_EGL) =? 0).

(** The errno, or the policy. *)
Definition advc_vaapi_encode_policy_from_capabilities (caps : option advc_capability_set)
    : Z + encode_policy :=
  match caps with
  | None => inl EINVAL
  | Some caps =>
      if ADVC_MAX_CAPABILITIES <? caps_count caps then inl EINVAL
      else
        let ready := prime_input_features (caps_transport_features caps) in
        if negb ready then inr (EncodePolicy 0 0 0 0 0 0 0 false)
        else
          let p := fold_left encode_step (take (Z.to_nat (caps_count caps)) (caps_codecs caps))
                     (EncodePolicy 0 0 0 0 0 0 0 true) in
          inr (if negb (ep_codecs p =? 0)
               then EncodePolicy (ep_codecs p) (ep_h264_max_width p) (ep_h264_max_height p)
                      (ep_hevc_max_width p) (ep_hevc_max_height p) VA_RC_VBR VA_RT_FORMAT_YUV420 true
               else p)
  end.

Definition advc_vaapi_encode_profile_supported (policy : option encode_policy) (profile : va_profile)
    : bool :=
  match policy with
  | None => false
  | Some p =>
      ep_prime_input_ready p &&
      match profile_codec profile with
      | ENCODE_CODEC_H264 => negb (Z.land (ep_codecs p) ADVC_VAAPI_ENCODE_H264 =? 0)
      | ENCODE_CODEC_HEVC => negb (Z.land (ep_codecs p) ADVC_VAAPI_ENCODE_HEVC =? 0)
      | ENCODE_CODEC_NONE => false
      end
  end.

(** Result, errno when it fails, and the value stored. *)
Definition advc_vaapi_encode_get_attribute (policy : option encode_policy) (profile : va_profile)
    (entrypoint : va_entrypoint) (type : config_attrib) : (Z + unit) * Z :=
  match policy with
  | None => (inl EINVAL, VA_ATTRIB_NOT_SUPPORTED)
  | Some p =>
      match entrypoint with
      | VAEntrypointEncSlice =>
          if negb (advc_vaapi_encode_profile_supported policy profile)
          then (inl ENOTSUP, VA_ATTRIB_NOT_SUPPORTED)
          else (inr tt, match type with
               | VAConfigAttribRTFormat => ep_rt_formats p
               | VAConfigAttribRateControl => ep_rate_control p
               | VAConfigAttribEncPackedHeaders | VAConfigAttribEncInterlaced => 0
               | VAConfigAttribEncMaxRefFrames | VAConfigAttribEncMaxSlices => 1
               | VAConfigAttribOther => VA_ATTRIB_NOT_SUPPORTED
               end)
      | VAEntrypointOther => (inl ENOTSUP, VA_ATTRIB_NOT_SUPPORTED)
      end
  end.

(** The attribute loop: the requested format and rate control, or refused. *)
Fixpoint requested (policy : option encode_policy) (profile : va_profile) (entrypoint : va_entrypoint)
    (attributes : list (config_attrib * Z)) (rt rc : Z) : option (Z * Z) :=
  match attributes with
  | [] => Some (rt, rc)
  | (VAConfigAttribRTFormat, v) :: l => requested policy profile entrypoint l v rc
  | (VAConfigAttribRateControl, v) :: l => requested policy profile entrypoint l rt v
  | (type, v) :: l =>
      match advc_vaapi_encode_get_attribute policy profile entrypoint type with
      | (inl _, _) => None
      | (inr _, supported) =>
          if (supported =? VA_ATTRIB_NOT_SUPPORTED) || negb (Z.ldiff v supported =? 0) then None
          else requested policy profile entrypoint l rt rc
      end
  end.

(** The errno, or the configuration. *)
Definition advc_vaapi_encode_config_init (policy : option encode_policy) (profile : va_profile)
    (entrypoint : va_entrypoint) (attributes : option (list (config_attrib * Z))) (num_attributes : Z)
    : Z + encode_config :=
  let enc_slice := match entrypoint with VAEntrypointEncSlice => true | _ => false end in
  if bool_decide (policy = None) || (num_attributes <? 0) ||
     ((0 <? num_attributes) && bool_decide (attributes = None)) || negb enc_slice ||
     negb (advc_vaapi_encode_profile_supported policy profile)
  then inl EINVAL
  else match requested policy profile entrypoint
               (take (Z.to_nat num_attributes) (default [] attributes)) VA_RT_FORMAT_YUV420 VA_RC_VBR with
  | None => inl ENOTSUP
  | Some (rt, rc) =>
      if negb (rt =? VA_RT_FORMAT_YUV420) || negb (rc =? VA_RC_VBR) then inl ENOTSUP
      else inr (EncodeConfig (profile_codec profile) profile entrypoint rc rt)
  end.

(** ** Parameter buffers *)

(** The buffer types the encode runtime tells apart. *)
Inductive encode_buffer_type :=
  | VAEncCodedBufferType | VAEncSequenceParameterBufferType | VAEncPictureParameterBufferType
  | VAEncSliceParameterBufferType | VAEncMiscParameterBufferType | VAEncBufferTypeOther.
#[export] Instance encode_buffer_type_eq_dec : EqDecision encode_buffer_type.
Proof. solve_decision. Defined.
Definition buffer_type_is (a b : encode_buffer_type) : bool := bool_decide (a = b).

Inductive misc_type :=
  | VAEncMiscParameterTypeRateControl | VAEncMiscParameterTypeFrameRate | VAEncMiscParameterTypeHRD
  | VAEncMiscParameterTypeOther.

Record h264_sequence := H264Sequence {
  q4_picture_width_in_mbs : Z; q4_picture_height_in_mbs : Z; q4_chroma_format_idc : Z;
  q4_bit_depth_luma_minus8 : Z; q4_bit_depth_chroma_minus8 : Z; q4_frame_mbs_only_flag : Z;
  q4_mb_adaptive_frame_field_flag : Z; q4_seq_scaling_matrix_present_flag : Z;
  q4_bits_per_second : Z; q4_intra_idr_period : Z; q4_intra_period : Z }.
Record h264_enc_picture := H264EncPicture {
  p4_coded_buf : Z; p4_idr_pic_flag : Z; p4_pic_scaling_matrix_present_flag : Z }.
Record h264_enc_slice := H264EncSlice {
  l4_slice_type : Z; l4_macroblock_address : Z; l4_num_macroblocks : Z }.
Record hevc_sequence := HevcSequence {
  q5_general_profile_idc : Z; q5_pic_width_in_luma_samples : Z; q5_pic_height_in_luma_samples : Z;
  q5_chroma_format_idc : Z; q5_separate_colour_plane_flag : Z; q5_bit_depth_luma_minus8 : Z;
  q5_bit_depth_chroma_minus8 : Z; q5_scaling_list_enabled_flag : Z; q5_hierachical_flag : Z;
  q5_bits_per_second : Z; q5_intra_idr_period : Z; q5_intra_period : Z }.
Record hevc_enc_picture := HevcEncPicture {
  p5_coded_buf : Z; p5_tiles_enabled_flag : Z; p5_scaling_list_data_present_flag : Z;
  p5_coding_type : Z; p5_idr_pic_flag : Z }.
Record hevc_enc_slice := HevcEncSlice {
  l5_slice_segment_address : Z; l5_last_slice_of_pic_flag : Z; l5_slice_type : Z }.

(** Sizes of the structures, and their fields from their bytes.  [read_bits] and
    [read_framerate] read the structure that follows the misc header. *)
Record enc_abi := EncAbi {
  sizeof_misc : Z; sizeof_rate_control : Z; sizeof_frame_rate : Z; sizeof_hrd : Z;
  sizeof_h264_sequence : Z; sizeof_h264_enc_picture : Z; sizeof_h264_enc_slice : Z;
  sizeof_hevc_sequence : Z; sizeof_hevc_enc_picture : Z; sizeof_hevc_enc_slice : Z;
  read_misc_type : list Z -> misc_type;
  read_bits_per_second : list Z -> Z; read_framerate : list Z -> Z;
  read_h264_sequence : list Z -> h264_sequence; read_h264_enc_picture : list Z -> h264_enc_picture;
  read_h264_enc_slice : list Z -> h264_enc_slice;
  read_hevc_sequence : list Z -> hevc_sequence; read_hevc_enc_picture : list Z -> hevc_enc_picture;
  read_hevc_enc_slice : list Z -> hevc_enc_slice }.

Definition advc_vaapi_encode_frame_init (codec : encode_codec) (width height default_bitrate
    default_framerate_milli : Z) : frame_params :=
  FrameParams codec width height default_bitrate default_framerate_milli VA_INVALID_ID 0 false false
    false false.

(** The sequence and the rates stay. *)
Definition advc_vaapi_encode_frame_begin (f : frame_params) : frame_params :=
  FrameParams (fp_codec f) (fp_width f) (fp_height f) (fp_bitrate f) (fp_framerate_milli f)
    VA_INVALID_ID (fp_gop_frames f) (fp_sequence_seen f) false false false.

Definition with_rates (bitrate framerate_milli : Z) (f : frame_params) : frame_params :=
  FrameParams (fp_codec f) (fp_width f) (fp_height f) bitrate framerate_milli (fp_coded_buffer f)
    (fp_gop_frames f) (fp_sequence_seen f) (fp_picture_seen f) (fp_slice_seen f) (fp_force_idr f).
Definition with_sequence (bits_per_second gop_frames : Z) (f : frame_params) : frame_params :=
  FrameParams (fp_codec f) (fp_width f) (fp_height f)
    (if negb (bits_per_second =? 0) then bits_per_second else fp_bitrate f) (fp_framerate_milli f)
    (fp_coded_buffer f) gop_frames true (fp_picture_seen f) (fp_slice_seen f) (fp_force_idr f).
Definition with_picture (coded_buffer idr : Z) (f : frame_params) : frame_params :=
  FrameParams (fp_codec f) (fp_width f) (fp_height f) (fp_bitrate f) (fp_framerate_milli f)
    coded_buffer (fp_gop_frames f) (fp_sequence_seen f) true (fp_slice_seen f) (negb (idr =? 0)).
Definition with_slice (f : frame_params) : frame_params :=
  FrameParams (fp_codec f) (fp_width f) (fp_height f) (fp_bitrate f) (fp_framerate_milli f)
    (fp_coded_buffer f) (fp_gop_frames f) (fp_sequence_seen f) (fp_picture_seen f) true (fp_force_idr f).

(** What a buffer does to a frame.  [Overread]: the code reads past the end of the
    buffer's bytes. *)
Inductive consumed := Consumed (f : frame_params) | Rejected | Overread.

(** A structure of [n] bytes at the start of an element of [size] bytes. *)
Definition struct_at (data : list Z) (size n : Z) (k : list Z -> consumed) : consumed :=
  if size <? n then Rejected
  else if zlen data <? n then Overread else k (take (Z.to_nat n) data).

Definition accept_if (b : bool) (f : frame_params) : consumed := if b then Consumed f else Rejected.

Section Consume.
Context (abi : enc_abi).

Definition consume_misc (f : frame_params) (data : list Z) (size : Z) : consumed :=
  let header := sizeof_misc abi in
  struct_at data size header (fun m =>
    match read_misc_type abi m with
    | VAEncMiscParameterTypeRateControl =>
        struct_at data size (header + sizeof_rate_control abi) (fun m =>
          let bits := read_bits_per_second abi (drop (Z.to_nat header) m) in
          accept_if (negb (bits =? 0) && (bits <=? ADVC_MAX_ENCODE_BITRATE))
            (with_rates bits (fp_framerate_milli f) f))
    | VAEncMiscParameterTypeFrameRate =>
        struct_at data size (header + sizeof_frame_rate abi) (fun m =>
          let framerate := read_framerate abi (drop (Z.to_nat header) m) in
          let numerator := Z.land framerate 0xffff in
          let denominator := Z.shiftr framerate 16 in
          let denominator := if denominator =? 0 then 1 else denominator in
          let milli := u64 (numerator * 1000) / denominator in
          accept_if ((1000 <=? milli) && (milli <=? 240000)) (with_rates (fp_bitrate f) (u32 milli) f))
    | VAEncMiscParameterTypeHRD =>
        accept_if (header + sizeof_hrd abi <=? size) f
    | VAEncMiscParameterTypeOther => Rejected
    end).

(** [(n + 15u) / 16u] *)
Definition macroblocks (n : Z) : Z := u32 (n + 15) / 16.

Definition consume_h264 (f : frame_params) (type : encode_buffer_type) (data : list Z)
    (size num_elements : Z) : consumed :=
  if negb (num_elements =? 1) then Rejected
  else match type with
  | VAEncSequenceParameterBufferType =>
      struct_at data size (sizeof_h264_sequence abi) (fun m =>
        let seq := read_h264_sequence abi m in
        if negb (q4_picture_width_in_mbs seq =? macroblocks (fp_width f)) ||
           negb (q4_picture_height_in_mbs seq =? macroblocks (fp_height f)) ||
           negb (q4_chroma_format_idc seq =? 1) || negb (q4_bit_depth_luma_minus8 seq =? 0) ||
           negb (q4_bit_depth_chroma_minus8 seq =? 0) || (q4_frame_mbs_only_flag seq =? 0) ||
           negb (q4_mb_adaptive_frame_field_flag seq =? 0) ||
           negb (q4_seq_scaling_matrix_present_flag seq =? 0)
        then Rejected
        else Consumed (with_sequence (q4_bits_per_second seq)
               (if negb (q4_intra_idr_period seq =? 0) then q4_intra_idr_period seq
                else q4_intra_period seq) f))
  | VAEncPictureParameterBufferType =>
      struct_at data size (sizeof_h264_enc_picture abi) (fun m =>
        let pic := read_h264_enc_picture abi m in
        accept_if (negb (p4_coded_buf pic =? VA_INVALID_ID) &&
                   (p4_pic_scaling_matrix_present_flag pic =? 0))
          (with_picture (p4_coded_buf pic) (p4_idr_pic_flag pic) f))
  | VAEncSliceParameterBufferType =>
      let mb_count := u32 (macroblocks (fp_width f) * macroblocks (fp_height f)) in
      struct_at data size (sizeof_h264_enc_slice abi) (fun m =>
        let slice := read_h264_enc_slice abi m in
        let slice_type := l4_slice_type slice mod 5 in
        if negb (l4_macroblock_address slice =? 0) || negb (l4_num_macroblocks slice =? mb_count) ||
           (slice_type =? 1) || (2 <? slice_type)
        then Rejected else Consumed (with_slice f))
  | _ => Rejected
  end.

Definition consume_hevc (f : frame_params) (type : encode_buffer_type) (data : list Z)
    (size num_elements : Z) : consumed :=
  if negb (num_elements =? 1) then Rejected
  else match type with
  | VAEncSequenceParameterBufferType =>
      struct_at data size (sizeof_hevc_sequence abi) (fun m =>
        let seq := read_hevc_sequence abi m in
        if negb (q5_general_profile_idc seq =? 1) ||
           negb (q5_pic_width_in_luma_samples seq =? fp_width f) ||
           negb (q5_pic_height_in_luma_samples seq =? fp_height f) ||
           negb (q5_chroma_format_idc seq =? 1) || negb (q5_separate_colour_plane_flag seq =? 0) ||
           negb (q5_bit_depth_luma_minus8 seq =? 0) || negb (q5_bit_depth_chroma_minus8 seq =? 0) ||
           negb (q5_scaling_list_enabled_flag seq =? 0) || negb (q5_hierachical_flag seq =? 0)
        then Rejected
        else Consumed (with_sequence (q5_bits_per_second seq)
               (if negb (q5_intra_idr_period seq =? 0) then q5_intra_idr_period seq
                else q5_intra_period seq) f))
  | VAEncPictureParameterBufferType =>
      struct_at data size (sizeof_hevc_enc_picture abi) (fun m =>
        let pic := read_hevc_enc_picture abi m in
        if (p5_coded_buf pic =? VA_INVALID_ID) || negb (p5_tiles_enabled_flag pic =? 0) ||
           negb (p5_scaling_list_data_present_flag pic =? 0) || (p5_coding_type pic <? 1) ||
           (2 <? p5_coding_type pic)
        then Rejected else Consumed (with_picture (p5_coded_buf pic) (p5_idr_pic_flag pic) f))
  | VAEncSliceParameterBufferType =>
      struct_at data size (sizeof_hevc_enc_slice abi) (fun m =>
        let slice := read_hevc_enc_slice abi m in
        if negb (l5_slice_segment_address slice =? 0) || (l5_last_slice_of_pic_flag slice =? 0) ||
           (l5_slice_type slice =? 0) || (2 <? l5_slice_type slice)
        then Rejected else Consumed (with_slice f))
  | _ => Rejected
  end.

(** [errno]: EINVAL for an empty buffer, ENOTSUP for the others that are refused. *)
Definition advc_vaapi_encode_frame_consume (f : frame_params) (type : encode_buffer_type)
    (data : option (list Z)) (size num_elements : Z) : consumed :=
  match data with
  | None => Rejected
  | Some data =>
      if (size =? 0) || (num_elements =? 0) then Rejected
      else match type with
      | VAEncMiscParameterBufferType =>
          if negb (num_elements =? 1) then Rejected else consume_misc f data size
      | _ =>
          match fp_codec f with
          | ENCODE_CODEC_H264 => consume_h264 f type data size num_elements
          | ENCODE_CODEC_HEVC => consume_hevc f type data size num_elements
          | ENCODE_CODEC_NONE => Rejected
          end
      end
  end.
End Consume.

(** [errno] is EINVAL when it fails. *)
Definition advc_vaapi_encode_frame_validate (f : frame_params) : bool :=
  negb ((fp_width f <? 16) || (fp_height f <? 16) || negb (Z.land (fp_width f) 1 =? 0) ||
        negb (Z.land (fp_height f) 1 =? 0) || (fp_bitrate f =? 0) ||
        (ADVC_MAX_ENCODE_BITRATE <? fp_bitrate f) || (fp_framerate_milli f <? 1000) ||
        (240000 <? fp_framerate_milli f) || negb (fp_sequence_seen f) || negb (fp_picture_seen f) ||
        negb (fp_slice_seen f) || (fp_coded_buffer f =? VA_INVALID_ID)).

(** [caps] has a hardware encoder for the session. *)
Definition has_hardware_encoder (caps : advc_capability_set) (mime : list Z)
    (width height fps_milli : Z) : bool :=
  existsb (fun c =>
    (cap_direction c =? ADVC_DIRECTION_ENCODE) &&
    (cap_acceleration c =? CodecDiscovery.ADVC_ACCELERATION_HARDWARE) &&
    str_eq (cstring (cap_mime c)) mime &&
    ((cap_max_width c =? 0) || (width <=? cap_max_width c)) &&
    ((cap_max_height c =? 0) || (height <=? cap_max_height c)) &&
    ((cap_max_fps_milli c =? 0) || (fps_milli <=? cap_max_fps_milli c)))
    (take (Z.to_nat (Z.min (caps_count caps) ADVC_MAX_CAPABILITIES)) (caps_codecs caps)).
