(* ===== verification/EncodeState.v ===== *)
(** * The state of the encode runtime and of the images
    (src/src/vaapi_advc/advc_vaapi_encode_runtime.c, advc_vaapi_image.c)

    Two tables of slots that share one library: the encode runtime's
    configurations, contexts, surfaces and buffers, and the images an application
    maps.  [driver_state] also has what their system calls act on: the live memory
    mappings and the bytes of the dma-bufs, by inode, so that two descriptors of one
    dma-buf show the same bytes.

    The members the code always sets together are grouped in records of their own.
    Pointers into a table are the slot's index; the [next] pointer of a coded segment
    says in which structure it points. *)

From stdpp Require Import base list gmap.
From Stdlib Require Import ZArith Lia Bool String.
#[local] Notation length := List.length.
From S2P Require Import Prelude Kernel Protocol Dmabuf Engine Broker Client ClientConnect World EncodeEos VaapiRoutes VaapiPolicy Va EncodeParams.

Definition ADVC_ENCODE_CONFIG_SLOTS : Z := 8.
Definition ADVC_ENCODE_CONTEXT_SLOTS : Z := 4.
Definition ADVC_ENCODE_SURFACE_SLOTS : Z := 64.
Definition ADVC_ENCODE_BUFFER_SLOTS : Z := 256.
Definition ADVC_ENCODE_ID_INDEX_MASK : Z := 0x00ffffff.
Definition ADVC_ENCODE_SYNC_LIMIT_NS : Z := 5000000000.
Definition ADVC_ENCODE_DEFAULT_BITRATE : Z := 8000000.
Definition ADVC_ENCODE_DEFAULT_FPS_MILLI : Z := 60000.
Definition ADVC_ENCODE_MAX_DIMENSION : Z := 8192.
Definition ADVC_VAAPI_ENCODE_CONFIG_TYPE : Z := 0x11000000.
Definition ADVC_VAAPI_ENCODE_CONTEXT_TYPE : Z := 0x12000000.
Definition ADVC_VAAPI_ENCODE_SURFACE_TYPE : Z := 0x13000000.
Definition ADVC_VAAPI_ENCODE_BUFFER_TYPE : Z := 0x14000000.
Definition ADVC_VAAPI_OBJECT_TYPE_MASK : Z := 0xff000000.
Definition ADVC_VAAPI_ENCODE_MAX_CODED_SEGMENTS : nat := 8.
Definition ADVC_VAAPI_IMAGE_SYNC_TIMEOUT_MS : Z := 5000.
Definition ADVC_VAAPI_IMAGE_SLOTS : Z := 64.
Definition ADVC_VAAPI_IMAGE_ID_TYPE : Z := 0x71000000.
Definition ADVC_VAAPI_IMAGE_BUFFER_ID_TYPE : Z := 0x72000000.
Definition ADVC_VAAPI_IMAGE_ID_MASK : Z := 0x00ffffff.

(** ** Encode *)

Inductive encode_surface_state :=
  | ENCODE_SURFACE_IDLE | ENCODE_SURFACE_PENDING | ENCODE_SURFACE_READY | ENCODE_SURFACE_ERROR.
#[export] Instance encode_surface_state_eq_dec : EqDecision encode_surface_state.
Proof. solve_decision. Defined.
Definition state_is (a b : encode_surface_state) : bool := bool_decide (a = b).

(** [struct advc_vaapi_encode_broker] *)
Record encode_broker := EncodeBroker {
  bk_fd : Z; bk_session_id : Z; bk_features : Z; bk_config : advc_client_session_config }.
Definition no_session_config : advc_client_session_config := SessionConfig None 0 0 0 0 0 0 0 0 0.
Definition zero_broker : encode_broker := EncodeBroker 0 0 0 no_session_config.
(** [memset(broker, 0, sizeof *broker); broker->fd = -1;] *)
Definition closed_broker : encode_broker := EncodeBroker (-1) 0 0 no_session_config.

(** A segment of coded output: the VA segment, its mapping (0 for NULL) and where
    [next] points: the segment of that index in the named structure. *)
Inductive coded_place := OnStack | InBuffer (k : nat).
Record coded_segment := CodedSegment {
  sg_size : Z; sg_mapping : Z; sg_mapping_size : Z; sg_next : option (coded_place * nat) }.
(** [struct advc_vaapi_encode_coded_output]; [count] is the length. *)
Record coded_output := CodedOutput { co_segments : list coded_segment; co_pts_ns : Z; co_flags : Z }.
Definition zero_output : coded_output := CodedOutput [] 0 0.

(** Where the [descriptor] pointer of a surface's link points. *)
Inductive link_target := LinkNull | LinkPrime | LinkBrokerPrime.
Record surface_link := SurfaceLink {
  lk_descriptor : link_target; lk_acquire_fence_fd : Z; lk_release_fence_fd : Z; lk_registered : bool }.
Definition closed_link : surface_link := SurfaceLink LinkNull (-1) (-1) false.

(** The submission a surface is in. *)
Record progress := Progress {
  pg_state : encode_surface_state; pg_owner_context : Z; pg_coded_buffer : Z; pg_pts_ns : Z;
  pg_submit_index : Z }.
(** The accounting counters. *)
Record counters := Counters {
  ct_cpu_pixel_copies : Z; ct_writable_prime_exports : Z; ct_gpu_conversion_submits : Z;
  ct_gpu_modifier_repack_submits : Z; ct_pending_cpu_pixel_copies : Z;
  ct_pending_writable_prime_exports : Z }.
Definition no_counters : counters := Counters 0 0 0 0 0 0.

Record enc_surface := EncSurface {
  es_used : bool; es_width : Z; es_height : Z; es_progress : progress; es_write_exported : bool;
  es_counters : counters; es_prime : advc_dmabuf_descriptor; es_broker_prime : advc_dmabuf_descriptor;
  es_broker_prime_valid : bool; es_external_import : bool; es_link : surface_link }.
(** [memset(surface, 0, sizeof *surface)] *)
Definition zero_surface : enc_surface :=
  EncSurface false 0 0 (Progress ENCODE_SURFACE_IDLE 0 0 0 0) false no_counters zero_descriptor
    zero_descriptor false false (SurfaceLink LinkNull 0 0 false).

Definition es_state (s : enc_surface) : encode_surface_state := pg_state (es_progress s).
Definition es_owner_context (s : enc_surface) : Z := pg_owner_context (es_progress s).

(** Member assignments. *)
Definition put_progress (p : progress) (s : enc_surface) : enc_surface :=
  EncSurface (es_used s) (es_width s) (es_height s) p (es_write_exported s) (es_counters s)
    (es_prime s) (es_broker_prime s) (es_broker_prime_valid s) (es_external_import s) (es_link s).
Definition put_state (st : encode_surface_state) (s : enc_surface) : enc_surface :=
  let p := es_progress s in
  put_progress (Progress st (pg_owner_context p) (pg_coded_buffer p) (pg_pts_ns p) (pg_submit_index p)) s.
Definition put_owner (owner coded : Z) (s : enc_surface) : enc_surface :=
  let p := es_progress s in
  put_progress (Progress (pg_state p) owner coded (pg_pts_ns p) (pg_submit_index p)) s.
Definition put_write_exported (b : bool) (s : enc_surface) : enc_surface :=
  EncSurface (es_used s) (es_width s) (es_height s) (es_progress s) b (es_counters s)
    (es_prime s) (es_broker_prime s) (es_broker_prime_valid s) (es_external_import s) (es_link s).
Definition put_counters (f : counters -> counters) (s : enc_surface) : enc_surface :=
  EncSurface (es_used s) (es_width s) (es_height s) (es_progress s) (es_write_exported s)
    (f (es_counters s)) (es_prime s) (es_broker_prime s) (es_broker_prime_valid s)
    (es_external_import s) (es_link s).
Definition put_link (f : surface_link -> surface_link) (s : enc_surface) : enc_surface :=
  EncSurface (es_used s) (es_width s) (es_height s) (es_progress s) (es_write_exported s)
    (es_counters s) (es_prime s) (es_broker_prime s) (es_broker_prime_valid s) (es_external_import s)
    (f (es_link s)).
Definition put_broker_prime (d : advc_dmabuf_descriptor) (valid : bool) (s : enc_surface) : enc_surface :=
  EncSurface (es_used s) (es_width s) (es_height s) (es_progress s) (es_write_exported s)
    (es_counters s) (es_prime s) d valid (es_external_import s) (es_link s).

Record enc_buffer := EncBuffer {
  bu_used : bool; bu_mapped : bool; bu_owner_context : Z; bu_type : encode_buffer_type;
  bu_element_size : Z; bu_capacity_elements : Z; bu_num_elements : Z; bu_coded_capacity : Z;
  bu_pending_surface : Z; bu_data : option (list Z); bu_output : coded_output }.
Definition zero_buffer : enc_buffer :=
  EncBuffer false false 0 VAEncBufferTypeOther 0 0 0 0 0 None zero_output.
Definition put_mapped (b : bool) (u : enc_buffer) : enc_buffer :=
  EncBuffer (bu_used u) b (bu_owner_context u) (bu_type u) (bu_element_size u) (bu_capacity_elements u)
    (bu_num_elements u) (bu_coded_capacity u) (bu_pending_surface u) (bu_data u) (bu_output u).
Definition put_elements (n : Z) (u : enc_buffer) : enc_buffer :=
  EncBuffer (bu_used u) (bu_mapped u) (bu_owner_context u) (bu_type u) (bu_element_size u)
    (bu_capacity_elements u) n (bu_coded_capacity u) (bu_pending_surface u) (bu_data u) (bu_output u).
Definition put_pending (id : Z) (u : enc_buffer) : enc_buffer :=
  EncBuffer (bu_used u) (bu_mapped u) (bu_owner_context u) (bu_type u) (bu_element_size u)
    (bu_capacity_elements u) (bu_num_elements u) (bu_coded_capacity u) id (bu_data u) (bu_output u).
Definition put_data (d : option (list Z)) (u : enc_buffer) : enc_buffer :=
  EncBuffer (bu_used u) (bu_mapped u) (bu_owner_context u) (bu_type u) (bu_element_size u)
    (bu_capacity_elements u) (bu_num_elements u) (bu_coded_capacity u) (bu_pending_surface u) d
    (bu_output u).
Definition put_output (o : coded_output) (u : enc_buffer) : enc_buffer :=
  EncBuffer (bu_used u) (bu_mapped u) (bu_owner_context u) (bu_type u) (bu_element_size u)
    (bu_capacity_elements u) (bu_num_elements u) (bu_coded_capacity u) (bu_pending_surface u)
    (bu_data u) o.

(** The picture between begin and end. *)
Record enc_context := EncContext {
  en_used : bool; en_config_id : Z; en_width : Z; en_height : Z;
  en_picture_active : bool; en_target : Z;
  en_pending_count : Z; en_frame_index : Z; en_last_pts_ns : Z; en_encode_profile : Z;
  en_frame : frame_params; en_broker : encode_broker; en_broker_open : bool;
  en_broker_frame_session : bool; en_broker_eos_received : bool; en_eos : encode_eos_state }.
Definition zero_frame : frame_params := FrameParams ENCODE_CODEC_NONE 0 0 0 0 0 0 false false false false.
Definition zero_context : enc_context :=
  EncContext false 0 0 0 false 0 0 0 0 0 zero_frame zero_broker false false false fresh_state.
(** [memset; target = VA_INVALID_SURFACE; broker.fd = -1;] *)
Definition closed_context : enc_context :=
  EncContext false 0 0 0 false VA_INVALID_SURFACE 0 0 0 0 zero_frame closed_broker false false false
    fresh_state.

Definition put_picture (active : bool) (target : Z) (f : frame_params) (c : enc_context) : enc_context :=
  EncContext (en_used c) (en_config_id c) (en_width c) (en_height c) active target
    (en_pending_count c) (en_frame_index c) (en_last_pts_ns c) (en_encode_profile c) f (en_broker c)
    (en_broker_open c) (en_broker_frame_session c) (en_broker_eos_received c) (en_eos c).
Definition put_pending_count (n : Z) (c : enc_context) : enc_context :=
  EncContext (en_used c) (en_config_id c) (en_width c) (en_height c) (en_picture_active c)
    (en_target c) n (en_frame_index c) (en_last_pts_ns c) (en_encode_profile c) (en_frame c)
    (en_broker c) (en_broker_open c) (en_broker_frame_session c) (en_broker_eos_received c) (en_eos c).
Definition put_submitted (index pts_ns : Z) (c : enc_context) : enc_context :=
  EncContext (en_used c) (en_config_id c) (en_width c) (en_height c) (en_picture_active c)
    (en_target c) (en_pending_count c) index pts_ns (en_encode_profile c) (en_frame c)
    (en_broker c) (en_broker_open c) (en_broker_frame_session c) (en_broker_eos_received c) (en_eos c).
Definition put_broker (b : encode_broker) (open frame_session : bool) (c : enc_context) : enc_context :=
  EncContext (en_used c) (en_config_id c) (en_width c) (en_height c) (en_picture_active c)
    (en_target c) (en_pending_count c) (en_frame_index c) (en_last_pts_ns c) (en_encode_profile c)
    (en_frame c) b open frame_session (en_broker_eos_received c) (en_eos c).
Definition put_eos (received : bool) (e : encode_eos_state) (c : enc_context) : enc_context :=
  EncContext (en_used c) (en_config_id c) (en_width c) (en_height c) (en_picture_active c)
    (en_target c) (en_pending_count c) (en_frame_index c) (en_last_pts_ns c) (en_encode_profile c)
    (en_frame c) (en_broker c) (en_broker_open c) (en_broker_frame_session c) received e.

Record enc_config_slot := EncConfigSlot { ef_used : bool; ef_config : encode_config }.
Definition zero_config : enc_config_slot :=
  EncConfigSlot false (EncodeConfig ENCODE_CODEC_NONE VAProfileOther VAEntrypointOther 0 0).

Record enc_runtime := EncRuntime {
  er_socket_path : string; er_policy : encode_policy; er_modifier_policy : Modifier.modifier_policy;
  er_write_export_ready : bool;
  er_configs : list enc_config_slot;    (* ADVC_ENCODE_CONFIG_SLOTS of them *)
  er_contexts : list enc_context;       (* ADVC_ENCODE_CONTEXT_SLOTS *)
  er_surfaces : list enc_surface;       (* ADVC_ENCODE_SURFACE_SLOTS *)
  er_buffers : list enc_buffer }.       (* ADVC_ENCODE_BUFFER_SLOTS *)

(** ** Images *)

(** The members of VAImage the code sets; [num_planes] is the length. *)
Record va_image := VaImage {
  vi_image_id : Z; vi_buf : Z; vi_fourcc : Z; vi_width : Z; vi_height : Z; vi_data_size : Z;
  vi_pitches : list Z; vi_offsets : list Z }.
Definition zero_image_info : va_image := VaImage 0 0 0 0 0 0 [] [].

Record image_slot := ImageSlot {
  im_used : bool; im_mapped : bool; im_derived : bool; im_info : va_image;
  im_heap : option (list Z); im_prime : advc_dmabuf_descriptor; im_derived_surface : Z;
  im_acquire_fence_fd : Z; im_mapping : Z }.
Definition zero_image : image_slot :=
  ImageSlot false false false zero_image_info None zero_descriptor 0 0 0.

Record image_runtime := ImageRuntime {
  ir_cpu_pixel_copy_count : Z; ir_images : list image_slot }.   (* ADVC_VAAPI_IMAGE_SLOTS of them *)

(** ** The driver's state *)

(** A private mapping shows the bytes its file had; a shared one the bytes of the
    dma-buf. *)
Inductive mapping := PrivateMapping (bytes : list Z) | SharedMapping (inode length : Z).

Record driver_state := DriverState {
  ds_encode : enc_runtime;
  ds_images : image_runtime;
  ds_maps : gmap Z mapping;         (* the live mappings, by address *)
  ds_next_map : Z;                  (* the address of the next one *)
  ds_memory : gmap Z (list Z);      (* the bytes of each dma-buf, by inode *)
  ds_next_inode : Z }.
