(* ===== verification/EncodeWorld.v ===== *)
(** * The world of the encode runtime

    Access to the tables of EncodeState.v, identifiers, and the system calls that
    act on memory: mapping a memory file or a dma-buf, the dma-buf ioctls, and the
    system heap that allocates dma-bufs.  Addresses are not used twice; 0 is NULL and
    -1 is MAP_FAILED. *)

From stdpp Require Import base list gmap.
From Stdlib Require Import ZArith Lia Bool String.
#[local] Notation length := List.length.
From S2P Require Import Prelude Kernel Protocol Dmabuf Engine Broker Client ClientConnect World EncodeEos VaapiRoutes VaapiPolicy Va EncodeParams EncodeState.

Definition ENODEV : Z := 19.
Definition EOPNOTSUPP : Z := 95.

Notation world := (world_of driver_state).

(** ** Tables *)

Definition put_encode (r : enc_runtime) (d : driver_state) : driver_state :=
  DriverState r (ds_images d) (ds_maps d) (ds_next_map d) (ds_memory d) (ds_next_inode d).
Definition put_images (r : image_runtime) (d : driver_state) : driver_state :=
  DriverState (ds_encode d) r (ds_maps d) (ds_next_map d) (ds_memory d) (ds_next_inode d).
Definition put_maps (m : gmap Z mapping) (next : Z) (d : driver_state) : driver_state :=
  DriverState (ds_encode d) (ds_images d) m next (ds_memory d) (ds_next_inode d).
Definition put_memory (m : gmap Z (list Z)) (next : Z) (d : driver_state) : driver_state :=
  DriverState (ds_encode d) (ds_images d) (ds_maps d) (ds_next_map d) m next.

Definition put_configs l (r : enc_runtime) : enc_runtime :=
  EncRuntime (er_socket_path r) (er_policy r) (er_modifier_policy r) (er_write_export_ready r) l
    (er_contexts r) (er_surfaces r) (er_buffers r).
Definition put_contexts l (r : enc_runtime) : enc_runtime :=
  EncRuntime (er_socket_path r) (er_policy r) (er_modifier_policy r) (er_write_export_ready r)
    (er_configs r) l (er_surfaces r) (er_buffers r).
Definition put_surfaces l (r : enc_runtime) : enc_runtime :=
  EncRuntime (er_socket_path r) (er_policy r) (er_modifier_policy r) (er_write_export_ready r)
    (er_configs r) (er_contexts r) l (er_buffers r).
Definition put_buffers l (r : enc_runtime) : enc_runtime :=
  EncRuntime (er_socket_path r) (er_policy r) (er_modifier_policy r) (er_write_export_ready r)
    (er_configs r) (er_contexts r) (er_surfaces r) l.

Definition config_at (r : enc_runtime) (i : nat) : enc_config_slot := default zero_config (er_configs r !! i).
Definition context_at (r : enc_runtime) (i : nat) : enc_context := default zero_context (er_contexts r !! i).
Definition surface_at (r : enc_runtime) (i : nat) : enc_surface := default zero_surface (er_surfaces r !! i).
Definition buffer_at (r : enc_runtime) (i : nat) : enc_buffer := default zero_buffer (er_buffers r !! i).
Definition image_at (r : image_runtime) (i : nat) : image_slot := default zero_image (ir_images r !! i).
Definition on_config (i : nat) f (r : enc_runtime) : enc_runtime := put_configs (alter f i (er_configs r)) r.
Definition on_context (i : nat) f (r : enc_runtime) : enc_runtime := put_contexts (alter f i (er_contexts r)) r.
Definition on_surface (i : nat) f (r : enc_runtime) : enc_runtime := put_surfaces (alter f i (er_surfaces r)) r.
Definition on_buffer (i : nat) f (r : enc_runtime) : enc_runtime := put_buffers (alter f i (er_buffers r)) r.
Definition on_image (i : nat) f (r : image_runtime) : image_runtime :=
  ImageRuntime (ir_cpu_pixel_copy_count r) (alter f i (ir_images r)).

Definition enc_update (f : enc_runtime -> enc_runtime) : St world unit :=
  update (fun d => put_encode (f (ds_encode d)) d).
Definition image_update (f : image_runtime -> image_runtime) : St world unit :=
  update (fun d => put_images (f (ds_images d)) d).
Definition encode_tables : St world enc_runtime := gets (fun w => ds_encode (w_rt w)).
Definition image_tables : St world image_runtime := gets (fun w => ds_images (w_rt w)).

(** ** Identifiers *)

Definition make_id (type : Z) (index : nat) : Z := Z.lor type (Z.of_nat index + 1).

(** [None]: the function returns -1. *)
Definition id_index (id type limit : Z) : option nat :=
  if negb (Z.land id ADVC_VAAPI_OBJECT_TYPE_MASK =? type) then None
  else
    let low := Z.land id ADVC_ENCODE_ID_INDEX_MASK in
    if (low =? 0) || (limit <? low) then None else Some (Z.to_nat (low - 1)).

Definition owns_id (type id : Z) : bool := Z.land id ADVC_VAAPI_OBJECT_TYPE_MASK =? type.
Definition advc_vaapi_encode_owns_config := owns_id ADVC_VAAPI_ENCODE_CONFIG_TYPE.
Definition advc_vaapi_encode_owns_context := owns_id ADVC_VAAPI_ENCODE_CONTEXT_TYPE.
Definition advc_vaapi_encode_owns_surface := owns_id ADVC_VAAPI_ENCODE_SURFACE_TYPE.
Definition advc_vaapi_encode_owns_buffer := owns_id ADVC_VAAPI_ENCODE_BUFFER_TYPE.

(** The slot of a live object; [None] is NULL. *)
Definition get_config (r : enc_runtime) (id : Z) : option nat :=
  i ← id_index id ADVC_VAAPI_ENCODE_CONFIG_TYPE ADVC_ENCODE_CONFIG_SLOTS;
  if ef_used (config_at r i) then Some i else None.
Definition get_context (r : enc_runtime) (id : Z) : option nat :=
  i ← id_index id ADVC_VAAPI_ENCODE_CONTEXT_TYPE ADVC_ENCODE_CONTEXT_SLOTS;
  if en_used (context_at r i) then Some i else None.
Definition get_surface (r : enc_runtime) (id : Z) : option nat :=
  i ← id_index id ADVC_VAAPI_ENCODE_SURFACE_TYPE ADVC_ENCODE_SURFACE_SLOTS;
  if es_used (surface_at r i) then Some i else None.
Definition get_buffer (r : enc_runtime) (id : Z) : option nat :=
  i ← id_index id ADVC_VAAPI_ENCODE_BUFFER_TYPE ADVC_ENCODE_BUFFER_SLOTS;
  if bu_used (buffer_at r i) then Some i else None.

(** The identifiers of images and of their buffers. *)
Definition image_id_index (id type : Z) : option nat :=
  if negb (Z.land id (Z.lxor UINT32_MAX ADVC_VAAPI_IMAGE_ID_MASK) =? type) then None
  else
    let low := Z.land id ADVC_VAAPI_IMAGE_ID_MASK in
    if (low =? 0) || (ADVC_VAAPI_IMAGE_SLOTS <? low) then None else Some (Z.to_nat (low - 1)).

Definition find_image (r : image_runtime) (image : Z) : option nat :=
  i ← image_id_index image ADVC_VAAPI_IMAGE_ID_TYPE;
  if im_used (image_at r i) then Some i else None.
Definition find_buffer (r : image_runtime) (buffer : Z) : option nat :=
  i ← image_id_index buffer ADVC_VAAPI_IMAGE_BUFFER_ID_TYPE;
  if im_used (image_at r i) && (vi_buf (im_info (image_at r i)) =? buffer) then Some i else None.

(** ** Memory *)

(** [mmap] of [size] bytes of the file [fd]: private and read-only, or shared. *)
Definition sys_mmap (shared : bool) (fd size : Z) : St world Z :=
  v ← kernel next_io;
  if v <? 0 then mret (-1)
  else
    t ← kernel (gets m_fds);
    d ← the_runtime;
    let map_at m : St world Z :=
      update (fun d => put_maps (<[ds_next_map d := m]> (ds_maps d)) (ds_next_map d + 1) d) ;;
      mret (ds_next_map d) in
    match t !! fd with
    | None => kernel (fail_with EBADF)
    | Some f =>
        match fd_kind f, shared with
        | KMemFile bytes _, false => map_at (PrivateMapping (take (Z.to_nat size) bytes))
        | KDmaBuf inode, true =>
            if zlen (default [] (ds_memory d !! inode)) <? size then kernel (fail_with EINVAL)
            else map_at (SharedMapping inode size)
        | _, _ => kernel (fail_with ENODEV)
        end
    end.

(** [munmap] of a whole mapping. *)
Definition sys_munmap (address : Z) : St world Z :=
  d ← the_runtime;
  match ds_maps d !! address with
  | None => kernel (fail_with EINVAL)
  | Some _ => update (fun d => put_maps (delete address (ds_maps d)) (ds_next_map d) d) ;; mret 0
  end.

(** An ioctl every dma-buf answers. *)
Definition dma_buf_ioctl (fd : Z) : St process Z :=
  v ← next_io;
  if v <? 0 then mret (-1)
  else
    t ← gets m_fds;
    match fd_kind <$> t !! fd with
    | Some (KDmaBuf _) => mret 0
    | Some _ => fail_with ENOTTY
    | None => fail_with EBADF
    end.

(** [ioctl(fd, DMA_BUF_IOCTL_EXPORT_SYNC_FILE, &request)]: the result, and
    [request.fd]. *)
Definition dma_buf_export_sync_file (fd : Z) : St process (Z * Z) :=
  r ← dma_buf_ioctl fd;
  if r <? 0 then mret (-1, -1)
  else
    f ← install_fd (FdInfo true KSyncFile);
    if f <? 0 then mret (-1, -1) else mret (0, f).

(** [open(path, O_RDONLY | O_CLOEXEC)] of a device. *)
Definition sys_open_device : St process Z :=
  v ← next_io; if v <? 0 then mret (-1) else install_fd (FdInfo true KOther).

(** [ioctl(heap, DMA_HEAP_IOCTL_ALLOC, &request)]: a cleared dma-buf. *)
Definition dma_heap_alloc (size : Z) : St world (Z * Z) :=
  v ← kernel next_io;
  if v <? 0 then mret (-1, 0)
  else
    d ← the_runtime;
    fd ← kernel (install_fd (FdInfo true (KDmaBuf (ds_next_inode d))));
    if fd <? 0 then mret (-1, 0)
    else
      update (fun d => put_memory (<[ds_next_inode d := zeros size]> (ds_memory d))
                         (ds_next_inode d + 1) d) ;;
      mret (0, fd).

(** [fstat]: device and inode, as one number for a dma-buf; the other files are not
    told apart. *)
Definition fstat_inode (fd : Z) : St process (option Z) :=
  t ← gets m_fds;
  match fd_kind <$> t !! fd with
  | Some (KDmaBuf inode) => mret (Some inode)
  | Some _ => mret (Some (-1))
  | None => errno_is EBADF ;; mret None
  end.
