(* ===== verification/EncodeBroker.v ===== *)
(** * The broker connection of an encode session (src/src/vaapi_advc/advc_vaapi_encode.c)

    Opening a session with the checks of what the broker offers, allocating the
    linear surfaces it reads, registering and submitting them, and receiving coded
    output: each output is mapped and given back to the broker before the next one is
    asked for.  Trace output is left out.

    A function that returns -1 leaves the reason in [errno].  [broker_receive] runs
    its loop with fuel for every round its timeout allows (EncodeReceive.v). *)

From stdpp Require Import base list gmap.
From Stdlib Require Import ZArith Lia Bool String.
#[local] Notation length := List.length.
From S2P Require Import Prelude Kernel Protocol Dmabuf Engine Broker Client ClientConnect World EncodeEos VaapiRoutes VaapiPolicy Va EncodeParams EncodeState EncodeWorld.

Definition ADVC_CLIENT_CONNECT_TIMEOUT_MS : Z := 5000.
Definition ADVC_VAAPI_DEFAULT_SOCKET : string := "/run/android-drm/advc-broker-1.1.sock".

Definition ADVC_COLOR_PRIMARIES_BT709 : Z := 1.
Definition ADVC_COLOR_TRANSFER_BT709 : Z := 2.
Definition ADVC_COLOR_MATRIX_BT709 : Z := 3.

(** ** The driver's surroundings *)

(** The conversion linked into the driver ([None]: built without it): result,
    converted descriptor, its acquire fence, the fence that releases the source. *)
Definition repack_hook : Type :=
  advc_dmabuf_descriptor -> Z -> St process (Z * advc_dmabuf_descriptor * Z * Z).

Class encoder := Encoder {
  nr_getenv : string -> option string;
  nr_hooks : firefox_hooks;
  nr_gpu_repack : option repack_hook;
  nr_abi : enc_abi }.

Section Broker.
Context {nr : encoder}.

Definition exact_env (name value : string) : bool :=
  match nr_getenv name with Some actual => String.eqb actual value | None => false end.

(** ** Time *)

Definition monotonic_ms : St world Z :=
  now ← kernel (on_environment sys_clock);
  mret (match now with
        | None => UINT64_MAX
        | Some (sec, nsec) => u64 (u64 (sec * 1000) + nsec / 1000000)
        end).

(** The poll is repeated only while it is interrupted. *)
Fixpoint pause_loop (fuel : nat) (timeout : Z) : St process Z :=
  match fuel with
  | O => mret (-1)
  | S fuel =>
      '(r, _) ← on_environment (sys_poll false timeout);
      if r <? 0 then e ← errno; if negb (e =? EINTR) then mret (-1) else pause_loop fuel timeout
      else mret 0
  end.

Definition wait_retry (deadline_ms : Z) : St world Z :=
  now ← monotonic_ms;
  if (now =? UINT64_MAX) || (deadline_ms <=? now) then kernel (fail_with ETIMEDOUT)
  else
    let timeout := if 2 <? deadline_ms - now then 2 else deadline_ms - now in
    polls ← gets (fun w => ce_polls (cl_user (m_be (w_m w))));
    kernel (pause_loop (S (length polls)) timeout).

(** ** The session *)

Definition advc_vaapi_encode_broker_close (b : encode_broker) : St world encode_broker :=
  (if (0 <=? bk_fd b) && negb (bk_session_id b =? 0)
   then on_socket (bk_fd b) (fun p => advc_client_close_session p (bk_session_id b)) ;; mret tt
   else mret tt) ;;
  (if 0 <=? bk_fd b then kernel (sys_close (bk_fd b)) else mret tt) ;;
  mret closed_broker.

Definition open_request_bad (codec : encode_codec) (encode_profile width height bitrate
    framerate_milli : Z) : bool :=
  (width <? 16) || (height <? 16) || negb (Z.land width 1 =? 0) || negb (Z.land height 1 =? 0) ||
  (bitrate =? 0) || (ADVC_MAX_ENCODE_BITRATE <? bitrate) || (framerate_milli <? 1000) ||
  (240000 <? framerate_milli) ||
  (codec_is codec ENCODE_CODEC_H264 &&
   negb (encode_profile =? ADVC_ENCODE_PROFILE_H264_CONSTRAINED_BASELINE)) ||
  (codec_is codec ENCODE_CODEC_HEVC && negb (encode_profile =? ADVC_ENCODE_PROFILE_HEVC_MAIN)).

Definition codec_mime (codec : encode_codec) : option (list Z) :=
  match codec with
  | ENCODE_CODEC_H264 => Some MIME_AVC
  | ENCODE_CODEC_HEVC => Some MIME_HEVC
  | ENCODE_CODEC_NONE => None
  end.

Definition offered_features : Z :=
  Z.lor (Z.lor (Z.lor (Z.lor (Z.lor ADVC_FEATURE_ENCODE ADVC_FEATURE_DMABUF) ADVC_FEATURE_NATIVE_FENCE)
    ADVC_FEATURE_DMABUF_EGL) ADVC_FEATURE_DMABUF_VULKAN) ADVC_FEATURE_ENCODE_QCOM_MODIFIER.

(** The broker's answer to the greeting will do. *)
Definition greeting_ok (result : Z) (answer : option (Z * Z)) : bool :=
  match answer with
  | None => false
  | Some (features, max_payload) =>
      negb (result <? 0) && negb (max_payload <? ADVC_REGISTER_DMABUF_SIZE) &&
      prime_input_features features
  end.

(** [advc_client_connect_bounded] with room for every attempt its timeout allows. *)
Definition connect_broker (path : string) : St world Z :=
  fd ← kernel (on_environment (advc_client_connect_bounded
         (attempts_bound ADVC_CLIENT_CONNECT_TIMEOUT_MS) nr_hooks (Some path)
         ADVC_CLIENT_CONNECT_TIMEOUT_MS));
  let fd := default (-1) fd in
  (if 0 <=? fd then attach_peer fd else mret tt) ;; mret fd.

(** [goto fail] *)
Definition open_failed (b : encode_broker) : St world (Z * encode_broker) :=
  b ← advc_vaapi_encode_broker_close b; mret (-1, b).

(** The session that is asked for once the broker is found good. *)
Definition encode_session (mime : list Z) (encode_profile width height bitrate framerate_milli : Z)
    : advc_client_session_config :=
  SessionConfig (Some mime) ADVC_DIRECTION_ENCODE width height bitrate framerate_milli 0
    ADVC_TRANSPORT_DMABUF encode_profile 0.

(** The greeting, the capabilities and the session on a connected socket. *)
Definition open_session (fd : Z) (mime : list Z) (encode_profile width height bitrate framerate_milli : Z)
    : St world (Z * encode_broker) :=
  let b := EncodeBroker fd 0 0 no_session_config in
  '(greeted, answer) ← on_socket fd (fun p => advc_client_hello p offered_features);
  if negb (greeting_ok greeted answer) then open_failed b
  else
    '(queried, caps) ← on_socket fd advc_client_query_capabilities;
    match caps with
    | None => open_failed b
    | Some caps =>
        if (queried <? 0) || negb (has_hardware_encoder caps mime width height framerate_milli)
        then open_failed b
        else
          let config := encode_session mime encode_profile width height bitrate framerate_milli in
          '(status, session_id, _) ← on_socket fd (fun p => advc_client_create_session p config);
          let b := EncodeBroker fd (default 0 session_id) (fst (default (0, 0) answer)) config in
          if negb (status =? ADVC_STATUS_OK) then
            (if status <? 0 then mret tt else kernel (errno_is ENOTSUP)) ;; open_failed b
          else mret (0, b)
    end.

(** The result and the broker. *)
Definition advc_vaapi_encode_broker_open (b : encode_broker) (socket_path : string)
    (codec : encode_codec) (encode_profile width height bitrate framerate_milli : Z)
    : St world (Z * encode_broker) :=
  if open_request_bad codec encode_profile width height bitrate framerate_milli
  then r ← kernel (fail_with EINVAL); mret (r, b)
  else
    match codec_mime codec with
    | None => r ← kernel (fail_with ENOTSUP); mret (r, b)
    | Some mime =>
        fd ← connect_broker (if String.eqb socket_path EmptyString then ADVC_VAAPI_DEFAULT_SOCKET
                             else socket_path);
        if fd <? 0 then mret (-1, EncodeBroker fd 0 0 no_session_config)
        else open_session fd mime encode_profile width height bitrate framerate_milli
    end.

(** ** Surfaces *)

(** The heaps that are tried. *)
Fixpoint allocate_from (heaps : nat) (size : Z) : St world Z :=
  match heaps with
  | O => kernel (fail_with ENODEV)
  | S heaps =>
      heap ← kernel sys_open_device;
      if heap <? 0 then allocate_from heaps size
      else
        '(r, fd) ← dma_heap_alloc size;
        if r =? 0 then kernel (sys_close heap) ;; mret fd
        else
          saved ← kernel errno;
          kernel (sys_close heap) ;; kernel (errno_is saved) ;;
          allocate_from heaps size
  end.
Definition allocate_system_heap (size : Z) : St world Z := allocate_from 2 size.

(** The pitch, and the bytes of the luma plane. *)
Definition linear_pitch (width : Z) : Z := Z.ldiff (width + 63) 63.
Definition linear_luma (width height : Z) : Z := linear_pitch width * Z.ldiff (height + 31) 31.

Definition nv12_descriptor (buffer_id width height modifier : Z) (objects : list advc_dmabuf_object)
    (object_count : Z) (planes : list advc_dmabuf_plane) : advc_dmabuf_descriptor :=
  Desc buffer_id width height VA_FOURCC_NV12 ADVC_DMABUF_EXPLICIT_ALL modifier 0 0 width height
    object_count 2 ADVC_COLOR_PRIMARIES_BT709 ADVC_COLOR_TRANSFER_BT709 ADVC_COLOR_MATRIX_BT709
    ADVC_COLOR_RANGE_LIMITED ADVC_CHROMA_SITING_MIDPOINT
    ADVC_CHROMA_SITING_MIDPOINT objects planes.

(** The result and the descriptor. *)
Definition advc_vaapi_encode_surface_allocate_linear (buffer_id width height : Z)
    (d : advc_dmabuf_descriptor) : St world (Z * advc_dmabuf_descriptor) :=
  if (buffer_id =? 0) || (width <? 16) || (height <? 16) || (8192 <? width) || (8192 <? height) ||
     negb (Z.land width 1 =? 0) || negb (Z.land height 1 =? 0)
  then r ← kernel (fail_with EINVAL); mret (r, d)
  else
    let y_size := linear_luma width height in
    let allocation_size := y_size + y_size / 2 in
    fd ← allocate_system_heap allocation_size;
    if fd <? 0 then mret (-1, blank_descriptor)
    else
      let d := nv12_descriptor buffer_id width height 0
                 (Obj fd allocation_size :: replicate 3 (Obj (-1) 0)) 1
                 [Plane 0 0 (linear_pitch width); Plane 0 y_size (linear_pitch width);
                  zero_plane; zero_plane] in
      r ← kernel (advc_dmabuf_descriptor_validate d);
      if r <? 0 then
        saved ← kernel errno;
        d ← kernel (advc_dmabuf_descriptor_close d);
        kernel (errno_is saved) ;; mret (-1, d)
      else mret (0, d).

Definition closed_session (b : encode_broker) : bool := (bk_fd b <? 0) || (bk_session_id b =? 0).

(** [status < 0]: [errno] stays. *)
Definition refused (status e : Z) : St world Z :=
  (if status <? 0 then mret tt else kernel (errno_is e)) ;; mret (-1).

Definition advc_vaapi_encode_broker_register_surface (b : encode_broker) (d : advc_dmabuf_descriptor)
    : St world Z :=
  if closed_session b || (d_buffer_id d =? 0) || negb (d_drm_fourcc d =? VA_FOURCC_NV12) ||
     negb (d_width d =? sc_width (bk_config b)) || negb (d_height d =? sc_height (bk_config b))
  then kernel (fail_with EINVAL)
  else
    '(status, _) ← on_socket (bk_fd b) (fun p =>
                     advc_client_register_dmabuf p (bk_session_id b) (Some d));
    if negb (status =? ADVC_STATUS_OK)
    then refused status (if status =? ADVC_STATUS_UNSUPPORTED then ENOTSUP else EIO)
    else mret 0.

Definition advc_vaapi_encode_broker_unregister_surface (b : encode_broker) (buffer_id : Z)
    : St world Z :=
  if closed_session b || (buffer_id =? 0) then kernel (fail_with EINVAL)
  else
    '(status, _) ← on_socket (bk_fd b) (fun p =>
                     advc_client_unregister_dmabuf p (bk_session_id b) buffer_id);
    if negb (status =? ADVC_STATUS_OK) then refused status EBUSY else mret 0.

(** The result and the release fence. *)
Definition advc_vaapi_encode_broker_submit_surface (b : encode_broker) (buffer_id pts_ns fence : Z)
    : St world (Z * Z) :=
  if closed_session b || (buffer_id =? 0) || (fence <? -1)
  then r ← kernel (fail_with EINVAL); mret (r, -1)
  else
    let failed status : St world (Z * Z) :=
      r ← refused status (if status =? ADVC_STATUS_WOULD_BLOCK then EAGAIN else EIO);
      mret (r, -1) in
    '(status, _) ← on_socket (bk_fd b) (fun p =>
                     advc_client_queue_dmabuf p (bk_session_id b)
                       (Some (Submission buffer_id pts_ns fence)));
    if negb (status =? ADVC_STATUS_OK) then failed status
    else
      '(status, release, _) ← on_socket (bk_fd b) (fun p =>
                                advc_client_complete_dmabuf p (bk_session_id b) buffer_id);
      if negb (status =? ADVC_STATUS_OK) then
        kernel (close_if_open release) ;; failed status
      else mret (0, release).

Definition advc_vaapi_encode_broker_signal_eos (b : encode_broker) (pts_ns : Z) : St world Z :=
  if closed_session b || (INT64_MAX <? pts_ns) then kernel (fail_with EINVAL)
  else
    '(status, _) ← on_socket (bk_fd b) (fun p =>
                     advc_client_queue_input p (bk_session_id b)
                       (Input None 0 (-1) 0 0 pts_ns ADVC_FLAG_END_OF_STREAM));
    if negb (status =? ADVC_STATUS_OK) then refused status EIO else mret 0.

(** ** Coded output *)

Definition output_close (o : advc_client_output) : St world unit :=
  kernel (advc_client_output_close (Some o)) ;; mret tt.

(** The mappings are undone. *)
Fixpoint unmap_segments (l : list coded_segment) : St world unit :=
  match l with
  | [] => mret tt
  | s :: l =>
      (if negb (sg_mapping s =? 0) && (0 <? sg_mapping_size s)
       then sys_munmap (sg_mapping s) ;; mret tt else mret tt) ;;
      unmap_segments l
  end.
Definition advc_vaapi_encode_coded_output_close (o : coded_output) : St world coded_output :=
  unmap_segments (take ADVC_VAAPI_ENCODE_MAX_CODED_SEGMENTS (co_segments o)) ;; mret zero_output.

(** [coded->segments[coded->count - 1].next = segment] *)
Definition link_last (place : coded_place) (l : list coded_segment) : list coded_segment :=
  alter (fun s => CodedSegment (sg_size s) (sg_mapping s) (sg_mapping_size s) (Some (place, length l)))
    (length l - 1)%nat l.

(** The segment [part] becomes. *)
Definition segment_of (part : advc_client_output) (mapping : Z) : coded_segment :=
  CodedSegment (u32 (cout_size part)) mapping (cout_size part) None.

Definition append_output (b : encode_broker) (coded : coded_output) (part : advc_client_output)
    : St world (Z * coded_output) :=
  let size := cout_size part in
  if (ADVC_VAAPI_ENCODE_MAX_CODED_SEGMENTS <=? length (co_segments coded))%nat ||
     negb (cout_transport part =? ADVC_TRANSPORT_BYTES) || (UINT32_MAX <? size) ||
     ((0 <? size) && (cout_data_fd part <? 0))
  then r ← kernel (fail_with EOVERFLOW); mret (r, coded)
  else
    mapping ← (if 0 <? size then sys_mmap false (cout_data_fd part) size else mret 0);
    if mapping =? -1 then mret (-1, coded)
    else
      '(status, _) ← on_socket (bk_fd b) (fun p =>
                       advc_client_release_output p (bk_session_id b) (cout_buffer_id part));
      if negb (status =? ADVC_STATUS_OK) then
        (if negb (mapping =? 0) then sys_munmap mapping ;; mret tt else mret tt) ;;
        r ← refused status EIO; mret (r, coded)
      else
        mret (0, CodedOutput (link_last OnStack (co_segments coded) ++ [segment_of part mapping])
                   (cout_pts_ns part) (Z.lor (co_flags coded) (cout_flags part))).

(** The end of a failed receive. *)
Definition receive_failed (coded : coded_output) : St world (option (Z * coded_output)) :=
  o ← advc_vaapi_encode_coded_output_close coded; mret (Some (-1, o)).

Definition ends_receive (part : advc_client_output) : bool :=
  ((0 <? cout_size part) && (Z.land (cout_flags part) ADVC_FLAG_CODEC_CONFIG =? 0)) ||
  negb (Z.land (cout_flags part) ADVC_FLAG_END_OF_STREAM =? 0).

(** [None] when [fuel] rounds were not enough. *)
Fixpoint receive_loop (fuel : nat) (b : encode_broker) (timeout_ms deadline : Z) (coded : coded_output)
    : St world (option (Z * coded_output)) :=
  match fuel with
  | O => mret None
  | S fuel =>
      '(status, part, _) ← on_socket (bk_fd b) (fun p => advc_client_dequeue_output p (bk_session_id b));
      if status =? ADVC_STATUS_WOULD_BLOCK then
        if timeout_ms =? 0 then kernel (errno_is ETIMEDOUT) ;; receive_failed coded
        else
          r ← wait_retry deadline;
          if r <? 0 then receive_failed coded else receive_loop fuel b timeout_ms deadline coded
      else if negb (status =? ADVC_STATUS_OK) then
        (if status <? 0 then mret tt else kernel (errno_is EIO)) ;; receive_failed coded
      else
        '(r, coded) ← append_output b coded part;
        if r <? 0 then output_close part ;; receive_failed coded
        else
          output_close part ;;
          if ends_receive part then mret (Some (0, coded))
          else receive_loop fuel b timeout_ms deadline coded
  end.

(** A round waits for a millisecond or takes one of the eight segments. *)
Definition receive_fuel (timeout_ms : Z) : nat := Z.to_nat timeout_ms + 10.

(** The result and the output. *)
Definition advc_vaapi_encode_broker_receive (b : encode_broker) (timeout_ms : Z) (output : coded_output)
    : St world (Z * coded_output) :=
  if closed_session b || (60000 <? timeout_ms) then r ← kernel (fail_with EINVAL); mret (r, output)
  else
    now ← monotonic_ms;
    if (now =? UINT64_MAX) || (UINT64_MAX - now <? timeout_ms)
    then r ← kernel (fail_with EOVERFLOW); mret (r, zero_output)
    else
      x ← receive_loop (receive_fuel timeout_ms) b timeout_ms (now + timeout_ms) zero_output;
      mret (default (-1, zero_output) x).

End Broker.
