(* ===== verification/EncodeLink.v ===== *)
(** * Linear NV12 surfaces: fences, PRIME import and export, the link to the broker
    (src/src/vaapi_advc/advc_vaapi_image.c)

    The part of the image file that does not use the image table: the layout checks,
    waiting for a sync file, the import of an application's PRIME descriptor and the
    export of a surface, and the link of a surface with the session it is registered
    with. *)

From stdpp Require Import base list gmap.
From Stdlib Require Import ZArith Lia Bool String.
#[local] Notation length := List.length.
From S2P Require Import Prelude Kernel Protocol Dmabuf Engine Broker Client ClientConnect World EncodeEos VaapiRoutes VaapiPolicy Va EncodeParams EncodeState EncodeWorld EncodeBroker.

Definition DRM_FORMAT_R8 : Z := 0x20203852.
Definition DRM_FORMAT_GR88 : Z := 0x38385247.
Definition QCOM_COMPRESSED : Z := 0x0500000000000001.

Definition image_status_from_errno (error : Z) : va_status :=
  if error =? ENOMEM then VA_STATUS_ERROR_ALLOCATION_FAILED
  else if error =? ETIMEDOUT then VA_STATUS_ERROR_TIMEDOUT
  else if (error =? ENOTSUP) || (error =? EOPNOTSUPP) then VA_STATUS_ERROR_UNSUPPORTED_RT_FORMAT
  else if error =? EBUSY then VA_STATUS_ERROR_SURFACE_BUSY
  else if (error =? EINVAL) || (error =? EOVERFLOW) || (error =? EBADF)
  then VA_STATUS_ERROR_INVALID_PARAMETER
  else VA_STATUS_ERROR_OPERATION_FAILED.

(** ** Layout *)

(** The rows of a plane lie inside its object. *)
Definition plane_extent (offset pitch rows row_bytes object_size : Z) : bool :=
  negb ((rows =? 0) || (row_bytes =? 0) || (pitch <? row_bytes) || (object_size <? offset)) &&
  let last := pitch * (rows - 1) in
  negb ((object_size - offset <? last) || (object_size - offset - last <? row_bytes)).

Definition plane_rows (d : advc_dmabuf_descriptor) (p : Z) : Z :=
  if p =? 0 then d_height d else d_height d / 2.

Definition plane_fits (d : advc_dmabuf_descriptor) (p : Z) : bool :=
  let plane := plane_at d p in
  plane_extent (p_offset plane) (p_pitch plane) (plane_rows d p) (d_width d)
    (o_size (object_at d (p_object_index plane))).

(** The tests that follow the validation. *)
Definition linear_nv12 (d : advc_dmabuf_descriptor) (require_one_object : bool) : bool :=
  (d_drm_fourcc d =? VA_FOURCC_NV12) && (d_drm_modifier d =? 0) && (d_plane_count d =? 2) &&
  negb (require_one_object && negb (d_object_count d =? 1)) &&
  (Z.land (d_width d) 1 =? 0) && (Z.land (d_height d) 1 =? 0) &&
  plane_fits d 0 && plane_fits d 1.

Definition validate_linear_nv12 (d : advc_dmabuf_descriptor) (require_one_object : bool)
    : St process Z :=
  r ← advc_dmabuf_descriptor_validate d;
  mret (if r <? 0 then -1 else if linear_nv12 d require_one_object then 0 else -1).

(** A compressed surface of one object with both planes in it. *)
Definition qcom_nv12 (d : advc_dmabuf_descriptor) : bool :=
  (d_drm_modifier d =? QCOM_COMPRESSED) && (d_drm_fourcc d =? VA_FOURCC_NV12) &&
  (d_object_count d =? 1) && (d_plane_count d =? 2).

(** [c && advc_dmabuf_descriptor_validate(d) == 0] *)
Definition and_valid (c : bool) (d : advc_dmabuf_descriptor) : St process bool :=
  if c then r ← advc_dmabuf_descriptor_validate d; mret (r =? 0) else mret false.

(** ** Fences *)

(** [poll] of a fence, repeated while interrupted: its result, and POLLERR or
    POLLNVAL. *)
Fixpoint poll_sync_file (fuel : nat) (fd timeout_ms : Z) : St process (Z * bool) :=
  match fuel with
  | O => mret (-1, false)
  | S fuel =>
      '(status, o) ← on_environment (sys_poll true timeout_ms);
      e ← errno;
      if (status <? 0) && (e =? EINTR) then poll_sync_file fuel fd timeout_ms
      else
        t ← gets m_fds;
        let broken := match o with inl _ => true | inr _ => false end in
        mret (status, (0 <? status) && (broken || bool_decide (t !! fd = None)))
  end.

Definition advc_vaapi_wait_sync_file (fd timeout_ms : Z) : St process Z :=
  bad ← (if (fd <? 0) || (timeout_ms =? 0) then mret true
         else r ← advc_dmabuf_sync_file_validate fd; mret (r <? 0));
  if (bad : bool) then
    e ← errno; (if e =? 0 then errno_is EINVAL else mret tt) ;; mret (-1)
  else
    polls ← gets (fun m => ce_polls (cl_user (m_be m)));
    '(status, broken) ← poll_sync_file (S (length polls)) fd timeout_ms;
    if status =? 0 then fail_with ETIMEDOUT
    else if (status <? 0) || (broken : bool)
    then (if 0 <=? status then errno_is EIO else mret tt) ;; mret (-1)
    else mret 0.

(** ** PRIME import *)

(** [None]: the layers are of another format. *)
Definition copy_prime_layout (prime : prime_surface) (d : advc_dmabuf_descriptor)
    : option advc_dmabuf_descriptor :=
  let plane_of l k := Plane (entry (pl_object_index l) k) (entry (pl_offset l) k) (entry (pl_pitch l) k) in
  let planes p0 p1 := Some (with_planes (p0 :: p1 :: drop 2 (d_planes d)) d) in
  let l0 := layer_of prime 0 in
  let l1 := layer_of prime 1 in
  if (ps_num_layers prime =? 1) && (pl_format l0 =? VA_FOURCC_NV12) && (pl_num_planes l0 =? 2)
  then planes (plane_of l0 0) (plane_of l0 1)
  else if (ps_num_layers prime =? 2) && (pl_format l0 =? DRM_FORMAT_R8) &&
          (pl_format l1 =? DRM_FORMAT_GR88) && (pl_num_planes l0 =? 1) && (pl_num_planes l1 =? 1)
  then planes (plane_of l0 0) (plane_of l1 0)
  else None.

Definition put_object (i : nat) (o : advc_dmabuf_object) (d : advc_dmabuf_descriptor)
    : advc_dmabuf_descriptor := with_objects (<[i := o]> (d_objects d)) d.

Definition import_request_bad (prime : prime_surface) (buffer_id width height : Z) : bool :=
  (buffer_id =? 0) || (width <? 16) || (height <? 16) || (8192 <? width) || (8192 <? height) ||
  negb (Z.land width 1 =? 0) || negb (Z.land height 1 =? 0) ||
  negb (ps_fourcc prime =? VA_FOURCC_NV12) || negb (ps_width prime =? width) ||
  negb (ps_height prime =? height).

(** Close what was taken, and refuse. *)
Definition import_refused (status : va_status) (d : advc_dmabuf_descriptor)
    : St process (va_status * advc_dmabuf_descriptor) :=
  d ← advc_dmabuf_descriptor_close d; mret (status, d).

(** The objects from [i] on; [inl]: refused. *)
Fixpoint import_objects (n i : nat) (prime : prime_surface) (d : advc_dmabuf_descriptor)
    : St process ((va_status * advc_dmabuf_descriptor) + advc_dmabuf_descriptor) :=
  match n with
  | O => mret (inr d)
  | S n =>
      let o := object_of prime (Z.of_nat i) in
      if (po_fd o <? 0) || (po_size o =? 0) || negb (po_modifier o =? 0)
      then x ← import_refused VA_STATUS_ERROR_UNSUPPORTED_RT_FORMAT d; mret (inl x)
      else
        fd ← fcntl_dupfd_cloexec (po_fd o);
        if fd <? 0 then
          e ← errno;
          x ← import_refused (image_status_from_errno e) (put_object i (Obj fd 0) d); mret (inl x)
        else import_objects n (S i) prime (put_object i (Obj fd (po_size o)) d)
  end.

Definition advc_vaapi_prime_import_nv12_linear (prime : prime_surface) (buffer_id width height : Z)
    (d : advc_dmabuf_descriptor) : St process (va_status * advc_dmabuf_descriptor) :=
  if import_request_bad prime buffer_id width height || (ps_num_objects prime =? 0) ||
     (ADVC_MAX_DMABUF_OBJECTS <? ps_num_objects prime)
  then mret (VA_STATUS_ERROR_INVALID_PARAMETER, d)
  else
    x ← import_objects (Z.to_nat (ps_num_objects prime)) 0 prime
          (nv12_descriptor buffer_id width height 0 (replicate 4 (Obj (-1) 0)) (ps_num_objects prime)
             (replicate 4 zero_plane));
    match x with
    | inl refused => mret refused
    | inr d =>
        match copy_prime_layout prime d with
        | None => errno_is ENOTSUP ;; import_refused VA_STATUS_ERROR_UNSUPPORTED_RT_FORMAT d
        | Some d =>
            r ← validate_linear_nv12 d false;
            if r <? 0 then import_refused VA_STATUS_ERROR_UNSUPPORTED_RT_FORMAT d
            else mret (VA_STATUS_SUCCESS, d)
        end
    end.

(** The plane of a compressed surface starts inside the object. *)
Definition compressed_plane_ok (d : advc_dmabuf_descriptor) (i : Z) : bool :=
  (p_object_index (plane_at d i) =? 0) && negb (p_pitch (plane_at d i) =? 0) &&
  (p_offset (plane_at d i) <? o_size (object_at d 0)).

Definition advc_vaapi_prime_import_nv12_modifier (prime : prime_surface) (buffer_id width height
    allowed_modifier : Z) (d : advc_dmabuf_descriptor) : St process (va_status * advc_dmabuf_descriptor) :=
  let o := object_of prime 0 in
  if allowed_modifier =? 0 then advc_vaapi_prime_import_nv12_linear prime buffer_id width height d
  else if negb (allowed_modifier =? QCOM_COMPRESSED) || import_request_bad prime buffer_id width height ||
     negb (ps_num_objects prime =? 1) || (po_fd o <? 0) || (po_size o =? 0) ||
     negb (po_modifier o =? allowed_modifier)
  then mret (VA_STATUS_ERROR_UNSUPPORTED_RT_FORMAT, d)
  else
    fd ← fcntl_dupfd_cloexec (po_fd o);
    let taken size := nv12_descriptor buffer_id width height allowed_modifier
                        (Obj fd size :: replicate 3 (Obj (-1) 0)) 1 (replicate 4 zero_plane) in
    if fd <? 0 then e ← errno; mret (image_status_from_errno e, taken 0)
    else
      match copy_prime_layout prime (taken (po_size o)) with
      | None =>
          errno_is ENOTSUP ;; import_refused VA_STATUS_ERROR_UNSUPPORTED_RT_FORMAT (taken (po_size o))
      | Some d =>
          ok ← and_valid (compressed_plane_ok d 0 && compressed_plane_ok d 1) d;
          if (ok : bool) then mret (VA_STATUS_SUCCESS, d)
          else import_refused VA_STATUS_ERROR_UNSUPPORTED_RT_FORMAT d
      end.

(** The attribute loop: the memory type was seen, the external descriptors. *)
Fixpoint import_attributes (l : list surface_attrib) (memory : bool) (primes : option (list prime_surface))
    : va_status + (bool * option (list prime_surface)) :=
  match l with
  | [] => inr (memory, primes)
  | a :: l =>
      match sa_type a with
      | VASurfaceAttribMemoryType =>
          if memory || negb (sa_integer a) ||
             negb (u32 (sa_i a) =? VA_SURFACE_ATTRIB_MEM_TYPE_DRM_PRIME_2)
          then inl VA_STATUS_ERROR_UNSUPPORTED_MEMORY_TYPE
          else import_attributes l true primes
      | VASurfaceAttribExternalBufferDescriptor =>
          match primes, sa_value a with
          | None, GPointer (Some p) => import_attributes l memory (Some p)
          | _, _ => inl VA_STATUS_ERROR_INVALID_PARAMETER
          end
      | VASurfaceAttribPixelFormat =>
          if negb (sa_integer a) || negb (u32 (sa_i a) =? VA_FOURCC_NV12)
          then inl VA_STATUS_ERROR_UNSUPPORTED_RT_FORMAT
          else import_attributes l memory primes
      | VASurfaceAttribUsageHint =>
          if negb (sa_integer a) then inl VA_STATUS_ERROR_INVALID_PARAMETER
          else import_attributes l memory primes
      | VASurfaceAttribNone => import_attributes l memory primes
      | _ => inl VA_STATUS_ERROR_ATTR_NOT_SUPPORTED
      end
  end.

(** The modifiers of the objects after the first: [None] when the code reads past
    the four objects of the descriptor. *)
Definition modifiers_agree (prime : prime_surface) : option bool :=
  let agree := forallb (fun i => po_modifier (object_of prime i) =? po_modifier (object_of prime 0))
                 (seqZ 1 (Z.min (ps_num_objects prime) 4 - 1)) in
  if negb agree then Some false
  else if ps_num_objects prime <=? 4 then Some true else None.

(** [None]: the code reads outside of an array. *)
Definition advc_vaapi_prime_import_surface_attributes (format width height : Z)
    (attributes : list surface_attrib) (surface_index num_surfaces : nat) (buffer_id : Z)
    (d : advc_dmabuf_descriptor) : St process (option (va_status * advc_dmabuf_descriptor)) :=
  let refuse status : St process (option (va_status * advc_dmabuf_descriptor)) :=
    mret (Some (status, d)) in
  if negb (format =? VA_RT_FORMAT_YUV420) || bool_decide (attributes = []) ||
     (num_surfaces <=? surface_index)%nat || (num_surfaces =? 0)%nat
  then refuse VA_STATUS_ERROR_INVALID_PARAMETER
  else
    match import_attributes attributes false None with
    | inl status => refuse status
    | inr (true, Some primes) =>
        match primes !! surface_index with
        | None => mret None
        | Some prime =>
            if ps_num_objects prime =? 0 then refuse VA_STATUS_ERROR_INVALID_PARAMETER
            else
              match modifiers_agree prime with
              | None => mret None
              | Some false => refuse VA_STATUS_ERROR_UNSUPPORTED_RT_FORMAT
              | Some true =>
                  x ← advc_vaapi_prime_import_nv12_modifier prime buffer_id width height
                        (po_modifier (object_of prime 0)) d;
                  mret (Some x)
              end
        end
    | inr _ => refuse VA_STATUS_ERROR_INVALID_PARAMETER
    end.

(** ** PRIME export *)

Definition closed_prime : prime_surface :=
  PrimeSurface 0 0 0 0 (replicate 4 (PrimeObject (-1) 0 0)) 0 (replicate 4 zero_layer).

Definition advc_vaapi_prime_export_close (p : prime_surface) : St process prime_surface :=
  close_each (take 4 (po_fd <$> ps_objects p)) ;; mret closed_prime.

Definition export_flags_bad (flags : Z) : bool :=
  let access := Z.land flags VA_EXPORT_SURFACE_READ_WRITE in
  (negb (access =? VA_EXPORT_SURFACE_READ_ONLY) && negb (access =? VA_EXPORT_SURFACE_WRITE_ONLY)) ||
  negb (Z.ldiff flags (Z.lor (Z.lor VA_EXPORT_SURFACE_READ_WRITE VA_EXPORT_SURFACE_SEPARATE_LAYERS)
                        VA_EXPORT_SURFACE_COMPOSED_LAYERS) =? 0) ||
  (negb (Z.land flags VA_EXPORT_SURFACE_SEPARATE_LAYERS =? 0) &&
   negb (Z.land flags VA_EXPORT_SURFACE_COMPOSED_LAYERS =? 0)).

(** The objects from [i] on; [None]: one could not be exported. *)
Fixpoint export_objects (n i : nat) (d : advc_dmabuf_descriptor) (l : list prime_object)
    : St process (list prime_object * bool) :=
  match n with
  | O => mret (l, true)
  | S n =>
      let o := object_at d (Z.of_nat i) in
      if UINT32_MAX <? o_size o then mret (l, false)
      else
        fd ← fcntl_dupfd_cloexec (o_fd o);
        if fd <? 0 then mret (<[i := PrimeObject fd 0 0]> l, false)
        else export_objects n (S i) d (<[i := PrimeObject fd (o_size o) (d_drm_modifier d)]> l)
  end.

(** The layers of an exported surface. *)
Definition export_layers (d : advc_dmabuf_descriptor) (separate : bool) : Z * list prime_layer :=
  let p0 := plane_at d 0 in
  let p1 := plane_at d 1 in
  if separate then
    (2, [PrimeLayer DRM_FORMAT_R8 1 [p_object_index p0; 0; 0; 0] [u32 (p_offset p0); 0; 0; 0] [p_pitch p0; 0; 0; 0];
         PrimeLayer DRM_FORMAT_GR88 1 [p_object_index p1; 0; 0; 0] [u32 (p_offset p1); 0; 0; 0] [p_pitch p1; 0; 0; 0];
         zero_layer; zero_layer])
  else
    (1, [PrimeLayer VA_FOURCC_NV12 2 [p_object_index p0; p_object_index p1; 0; 0]
           [u32 (p_offset p0); u32 (p_offset p1); 0; 0] [p_pitch p0; p_pitch p1; 0; 0];
         zero_layer; zero_layer; zero_layer]).

(** The status, and the descriptor written ([old] where it is not). *)
Definition advc_vaapi_prime_export_nv12 (d : advc_dmabuf_descriptor) (acquire_fence_fd flags : Z)
    (old : prime_surface) : St process (va_status * prime_surface) :=
  r ← validate_linear_nv12 d false;
  let linear := r =? 0 in
  qcom ← and_valid (qcom_nv12 d && (p_object_index (plane_at d 0) =? 0) &&
                    (p_object_index (plane_at d 1) =? 0) && (p_offset (plane_at d 0) <=? UINT32_MAX) &&
                    (p_offset (plane_at d 1) <=? UINT32_MAX)) d;
  if (acquire_fence_fd <? -1) || export_flags_bad flags || (negb linear && negb qcom)
  then mret (VA_STATUS_ERROR_INVALID_PARAMETER, old)
  else if (Z.land flags VA_EXPORT_SURFACE_READ_WRITE =? VA_EXPORT_SURFACE_WRITE_ONLY) && negb linear
  then mret (VA_STATUS_ERROR_UNSUPPORTED_RT_FORMAT, old)
  else
    waited ← (if 0 <=? acquire_fence_fd
              then advc_vaapi_wait_sync_file acquire_fence_fd ADVC_VAAPI_IMAGE_SYNC_TIMEOUT_MS
              else mret 0);
    if waited <? 0 then e ← errno; mret (image_status_from_errno e, old)
    else
      '(objects, ok) ← export_objects (Z.to_nat (d_object_count d)) 0 d
                         (replicate 4 (PrimeObject (-1) 0 0));
      let export n layers := PrimeSurface VA_FOURCC_NV12 (d_width d) (d_height d) (d_object_count d)
                               objects n layers in
      if (ok : bool) then
        let '(n, layers) := export_layers d
             (negb (Z.land flags VA_EXPORT_SURFACE_SEPARATE_LAYERS =? 0)) in
        mret (VA_STATUS_SUCCESS, export n layers)
      else
        p ← advc_vaapi_prime_export_close (export 0 (replicate 4 zero_layer));
        mret (VA_STATUS_ERROR_OPERATION_FAILED, p).

(** ** The link to the broker

    [d]: the descriptor the link points at, if it points at one. *)

Definition put_acquire (fd : Z) (k : surface_link) : surface_link :=
  SurfaceLink (lk_descriptor k) fd (lk_release_fence_fd k) (lk_registered k).
Definition put_release (fd : Z) (k : surface_link) : surface_link :=
  SurfaceLink (lk_descriptor k) (lk_acquire_fence_fd k) fd (lk_registered k).
Definition put_registered (b : bool) (k : surface_link) : surface_link :=
  SurfaceLink (lk_descriptor k) (lk_acquire_fence_fd k) (lk_release_fence_fd k) b.

Definition advc_vaapi_encode_surface_link_init (target : link_target) : surface_link :=
  SurfaceLink target (-1) (-1) false.

Definition advc_vaapi_encode_surface_link_set_acquire_fence (k : surface_link) (owned_fence_fd : Z)
    : St process (Z * surface_link) :=
  if (owned_fence_fd <? -1) || (0 <=? lk_release_fence_fd k)
  then r ← fail_with EINVAL; mret (r, k)
  else
    v ← (if 0 <=? owned_fence_fd then advc_dmabuf_sync_file_validate owned_fence_fd else mret 0);
    if v <? 0 then mret (-1, k)
    else close_if_open (lk_acquire_fence_fd k) ;; mret (0, put_acquire owned_fence_fd k).

Definition advc_vaapi_encode_surface_link_register {nr : encoder} (k : surface_link)
    (d : option advc_dmabuf_descriptor) (b : encode_broker) : St world (Z * surface_link) :=
  match d with
  | None => r ← kernel (fail_with EINVAL); mret (r, k)
  | Some d =>
      linear ← kernel (validate_linear_nv12 d false);
      ok ← (if linear =? 0 then mret true else kernel (and_valid (qcom_nv12 d) d));
      if lk_registered k || negb ok ||
         ((d_drm_modifier d =? QCOM_COMPRESSED) &&
          (Z.land (bk_features b) ADVC_FEATURE_ENCODE_QCOM_MODIFIER =? 0))
      then r ← kernel (fail_with EINVAL); mret (r, k)
      else
        r ← advc_vaapi_encode_broker_register_surface b d;
        if r <? 0 then mret (-1, k) else mret (0, put_registered true k)
  end.

Definition advc_vaapi_encode_surface_link_submit {nr : encoder} (k : surface_link)
    (d : option advc_dmabuf_descriptor) (b : encode_broker) (pts_ns : Z) : St world (Z * surface_link) :=
  match d with
  | None => r ← kernel (fail_with EBUSY); mret (r, k)
  | Some d =>
      if negb (lk_registered k) || (0 <=? lk_release_fence_fd k)
      then r ← kernel (fail_with EBUSY); mret (r, k)
      else
        '(r, release) ← advc_vaapi_encode_broker_submit_surface b (d_buffer_id d) pts_ns
                          (lk_acquire_fence_fd k);
        if r <? 0 then mret (-1, k)
        else
          saved ← kernel errno;
          kernel (close_if_open (lk_acquire_fence_fd k)) ;;
          kernel (errno_is saved) ;;
          mret (0, put_release release (put_acquire (-1) k))
  end.

Definition advc_vaapi_encode_surface_link_wait (k : surface_link) (timeout_ms : Z)
    : St process (Z * surface_link) :=
  if timeout_ms =? 0 then r ← fail_with EINVAL; mret (r, k)
  else if lk_release_fence_fd k <? 0 then mret (0, k)
  else
    r ← advc_vaapi_wait_sync_file (lk_release_fence_fd k) timeout_ms;
    if r <? 0 then mret (-1, k)
    else sys_close (lk_release_fence_fd k) ;; mret (0, put_release (-1) k).

Definition advc_vaapi_encode_surface_link_take_release_fence (k : surface_link) : Z * surface_link :=
  (lk_release_fence_fd k, put_release (-1) k).

Definition advc_vaapi_encode_surface_link_unregister {nr : encoder} (k : surface_link)
    (d : option advc_dmabuf_descriptor) (b : encode_broker) (timeout_ms : Z) : St world (Z * surface_link) :=
  if negb (lk_registered k) then r ← kernel (fail_with EINVAL); mret (r, k)
  else
    '(waited, k) ← (if 0 <=? lk_release_fence_fd k
                    then kernel (advc_vaapi_encode_surface_link_wait k timeout_ms) else mret (0, k));
    if waited <? 0 then mret (-1, k)
    else
      r ← advc_vaapi_encode_broker_unregister_surface b (default 0 (d_buffer_id <$> d));
      if r <? 0 then mret (-1, k) else mret (0, put_registered false k).

Definition advc_vaapi_encode_surface_link_close (k : surface_link) : St process surface_link :=
  close_if_open (lk_acquire_fence_fd k) ;;
  close_if_open (lk_release_fence_fd k) ;;
  mret closed_link.
