(* ===== verification/EncodeSync.v ===== *)
(** * Waiting for coded output (src/src/vaapi_advc/advc_vaapi_encode_runtime.c)

    The helpers every entry point uses, [sync_surface_locked], which gives the
    outputs of a context to its pending surfaces in the order of their submission,
    the end of a context, and the two callbacks the image code gets.  The adapter of
    EncodeEos.v runs on the world of the driver. *)

From stdpp Require Import base list gmap.
From Stdlib Require Import ZArith Lia Bool String.
#[local] Notation length := List.length.
From S2P Require Import Prelude Kernel Protocol Dmabuf Engine Broker Client ClientConnect World EncodeEos VaapiRoutes VaapiPolicy Va EncodeParams EncodeState EncodeWorld EncodeBroker EncodeLink.
Notation world := (world_of driver_state).

(** ** Helpers *)

Definition status_from_errno (error : Z) : va_status :=
  if error =? ENOMEM then VA_STATUS_ERROR_ALLOCATION_FAILED
  else if error =? ETIMEDOUT then VA_STATUS_ERROR_TIMEDOUT
  else if (error =? EBUSY) || (error =? EAGAIN) then VA_STATUS_ERROR_SURFACE_BUSY
  else if (error =? ENOTSUP) || (error =? EOPNOTSUPP) then VA_STATUS_ERROR_UNSUPPORTED_PROFILE
  else if (error =? EINVAL) || (error =? EOVERFLOW) || (error =? EBADF)
  then VA_STATUS_ERROR_INVALID_PARAMETER
  else VA_STATUS_ERROR_OPERATION_FAILED.

Definition status_to_errno (status : va_status) : Z :=
  match status with
  | VA_STATUS_ERROR_TIMEDOUT => ETIMEDOUT
  | VA_STATUS_ERROR_SURFACE_BUSY => EBUSY
  | VA_STATUS_ERROR_NOT_ENOUGH_BUFFER => ENOSPC
  | _ => EIO
  end.

(** The ioctl is repeated while it is interrupted. *)
Fixpoint export_fence_loop (fuel : nat) (fd : Z) : St process (Z * Z) :=
  match fuel with
  | O => mret (-1, -1)
  | S fuel =>
      '(status, fence) ← dma_buf_export_sync_file fd;
      e ← errno;
      if (status <? 0) && (e =? EINTR) then export_fence_loop fuel fd else mret (status, fence)
  end.

Definition export_implicit_read_fence (d : advc_dmabuf_descriptor) : St process Z :=
  if negb (d_object_count d =? 1) || (o_fd (object_at d 0) <? 0) then fail_with ENOTSUP
  else
    io ← gets m_io;
    '(status, fence) ← export_fence_loop (S (length io)) (o_fd (object_at d 0));
    if status <? 0 then mret (-1)
    else
      bad ← (if fence <? 0 then mret true
             else v ← advc_dmabuf_sync_file_validate fence; mret (v <? 0));
      if (bad : bool) then
        e ← errno;
        close_if_open fence ;;
        fail_with (if e =? 0 then EPROTO else e)
      else mret fence.

(** The result, and the copy. *)
Definition duplicate_descriptor (source destination : advc_dmabuf_descriptor)
    : St process (Z * advc_dmabuf_descriptor) :=
  v ← advc_dmabuf_descriptor_validate source;
  if v <? 0 then mret (-1, destination)
  else
    dups ← dup_fds (declared_fds source) [];
    match dups with
    | None => mret (-1, blank_descriptor)
    | Some dups => mret (0, with_objects (owned_objects source dups) source)
    end.

Definition coded_output_size (o : coded_output) : Z :=
  fold_left (fun total s => if SIZE_MAX - total <? sg_size s then SIZE_MAX else total + sg_size s)
    (co_segments o) 0.

Definition media_codec_pts_ns (pts_ns : Z) : Z := pts_ns / 1000 * 1000.

Definition all_surfaces : list nat := seq 0 (Z.to_nat ADVC_ENCODE_SURFACE_SLOTS).

(** [surface->used && surface->owner_context != 0 &&
    get_context(runtime, surface->owner_context) == context] *)
Definition owned_by (r : enc_runtime) (c : nat) (s : enc_surface) : bool :=
  es_used s && negb (es_owner_context s =? 0) && bool_decide (get_context r (es_owner_context s) = Some c).
Definition pending_in (r : enc_runtime) (c : nat) (s : enc_surface) : bool :=
  owned_by r c s && state_is (es_state s) ENCODE_SURFACE_PENDING.

Definition submit_index (r : enc_runtime) (s : nat) : Z := pg_submit_index (es_progress (surface_at r s)).

(** The pending surface with the smallest submission number, the first of them. *)
Definition older (r : enc_runtime) (c : nat) (oldest : option nat) (s : nat) : option nat :=
  if pending_in r c (surface_at r s) then
    match oldest with
    | None => Some s
    | Some o => if submit_index r s <? submit_index r o then Some s else oldest
    end
  else oldest.
Definition find_oldest_pending_surface (r : enc_runtime) (c : nat) : option nat :=
  fold_left (older r c) all_surfaces None.

Definition fail_pending (c : nat) (r : enc_runtime) (s : nat) : enc_runtime :=
  if pending_in r c (surface_at r s) then
    on_surface s (put_state ENCODE_SURFACE_ERROR)
      match get_buffer r (pg_coded_buffer (es_progress (surface_at r s))) with
      | Some k => on_buffer k (put_pending VA_INVALID_SURFACE) r
      | None => r
      end
  else r.
Definition mark_context_pending_error (c : nat) (r : enc_runtime) : enc_runtime :=
  on_context c (put_pending_count 0) (fold_left (fail_pending c) all_surfaces r).

(** The descriptor a surface's link points at. *)
Definition link_descriptor (s : enc_surface) : option advc_dmabuf_descriptor :=
  match lk_descriptor (es_link s) with
  | LinkNull => None
  | LinkPrime => Some (es_prime s)
  | LinkBrokerPrime => Some (es_broker_prime s)
  end.

Section Sync.
Context {nr : encoder}.

Definition frame_session_mode : bool := exact_env "ADVC_VAAPI_ENCODE_FRAME_SESSION" "validated-v1".

(** ** Synchronisation *)

(** The [next] pointers of the segments stored in buffer [k]. *)
Definition relink (k : nat) (l : list coded_segment) : list coded_segment :=
  imap (fun i s => CodedSegment (sg_size s) (sg_mapping s) (sg_mapping_size s)
                     (if (i + 1 <? length l)%nat then Some (InBuffer k, (i + 1)%nat) else None)) l.

(** The output is dropped and the context's submissions fail. *)
Definition drop_and_fail (c : nat) (output : coded_output) (status : va_status) : St world va_status :=
  advc_vaapi_encode_coded_output_close output ;;
  enc_update (mark_context_pending_error c) ;;
  mret status.

(** Output for surface [s], whose coded buffer is [k]: the round's end, or [None]. *)
Definition complete_surface (c s k : nat) (timeout_ms : Z) (output : coded_output)
    : St world (option va_status) :=
  r ← encode_tables;
  '(waited, link) ← kernel (advc_vaapi_encode_surface_link_wait (es_link (surface_at r s)) timeout_ms);
  enc_update (on_surface s (put_link (fun _ => link))) ;;
  if waited <? 0 then
    saved ← kernel errno;
    if saved =? ETIMEDOUT then
      advc_vaapi_encode_coded_output_close output ;; mret (Some VA_STATUS_ERROR_TIMEDOUT)
    else x ← drop_and_fail c output VA_STATUS_ERROR_ENCODING_ERROR; mret (Some x)
  else if bu_coded_capacity (buffer_at r k) <? coded_output_size output then
    x ← drop_and_fail c output VA_STATUS_ERROR_NOT_ENOUGH_BUFFER; mret (Some x)
  else
    advc_vaapi_encode_coded_output_close (bu_output (buffer_at r k)) ;;
    let pts := media_codec_pts_ns (pg_pts_ns (es_progress (surface_at r s))) in
    enc_update (on_buffer k (fun u =>
      put_pending VA_INVALID_SURFACE
        (put_output (CodedOutput (relink k (co_segments output)) pts (co_flags output)) u))) ;;
    enc_update (on_surface s (put_state ENCODE_SURFACE_READY)) ;;
    enc_update (on_context c (fun x =>
      if 0 <? en_pending_count x then put_pending_count (en_pending_count x - 1) x else x)) ;;
    mret None.

(** The end of a frame session: the broker connection goes with its registrations. *)
Definition close_frame_session (c : nat) : St world unit :=
  r ← encode_tables;
  if en_broker_frame_session (context_at r c) && (en_pending_count (context_at r c) =? 0) then
    b ← advc_vaapi_encode_broker_close (en_broker (context_at r c));
    enc_update (on_context c (fun x => put_broker b false (en_broker_frame_session x) x)) ;;
    for_each all_surfaces (fun s =>
      r ← encode_tables;
      if owned_by r c (surface_at r s)
      then enc_update (on_surface s (put_link (put_registered false))) else mret tt)
  else mret tt.

(** One round of the loop: its end, or [None] for the next round. *)
Definition sync_round (c : nat) (timeout_ms : Z) : St world (option va_status) :=
  r ← encode_tables;
  '(received, output) ← advc_vaapi_encode_broker_receive (en_broker (context_at r c)) timeout_ms zero_output;
  if received <? 0 then
    e ← kernel errno;
    if e =? ETIMEDOUT then mret (Some VA_STATUS_ERROR_TIMEDOUT)
    else enc_update (mark_context_pending_error c) ;; mret (Some VA_STATUS_ERROR_ENCODING_ERROR)
  else
    (if negb (Z.land (co_flags output) ADVC_FLAG_END_OF_STREAM =? 0)
     then enc_update (on_context c (fun x => put_eos true (en_eos x) x)) else mret tt) ;;
    let failed := x ← drop_and_fail c output VA_STATUS_ERROR_ENCODING_ERROR; mret (Some x) in
    if coded_output_size output =? 0 then failed
    else
      r ← encode_tables;
      match find_oldest_pending_surface r c with
      | None => failed
      | Some s =>
          match get_buffer r (pg_coded_buffer (es_progress (surface_at r s))) with
          | None => failed
          | Some k =>
              if negb (buffer_type_is (bu_type (buffer_at r k)) VAEncCodedBufferType) then failed
              else
                x ← complete_surface c s k timeout_ms output;
                match x with
                | Some status => mret (Some status)
                | None => close_frame_session c ;; mret None
                end
          end
      end.

(** [while (surface->state == PENDING)]; [None] when [fuel] rounds were not enough. *)
Fixpoint sync_loop (fuel : nat) (c s : nat) (timeout_ms : Z) : St world (option va_status) :=
  r ← encode_tables;
  if state_is (es_state (surface_at r s)) ENCODE_SURFACE_PENDING then
    match fuel with
    | O => mret None
    | S fuel =>
        x ← sync_round c timeout_ms;
        match x with
        | Some status => mret (Some status)
        | None => sync_loop fuel c s timeout_ms
        end
    end
  else
    mret (Some (if state_is (es_state (surface_at r s)) ENCODE_SURFACE_READY then VA_STATUS_SUCCESS
                else VA_STATUS_ERROR_ENCODING_ERROR)).

(** Every round completes one of the surfaces. *)
Definition sync_fuel : nat := Z.to_nat ADVC_ENCODE_SURFACE_SLOTS.

Definition sync_surface_locked (s : nat) (timeout_ms : Z) : St world va_status :=
  r ← encode_tables;
  let surface := surface_at r s in
  match es_state surface with
  | ENCODE_SURFACE_READY => mret VA_STATUS_SUCCESS
  | ENCODE_SURFACE_ERROR => mret VA_STATUS_ERROR_ENCODING_ERROR
  | ENCODE_SURFACE_IDLE => mret VA_STATUS_SUCCESS
  | ENCODE_SURFACE_PENDING =>
      let lost := enc_update (on_surface s (put_state ENCODE_SURFACE_ERROR)) ;;
                  mret VA_STATUS_ERROR_ENCODING_ERROR in
      match get_context r (es_owner_context surface) with
      | None => lost
      | Some c =>
          if negb (en_broker_open (context_at r c)) || (en_pending_count (context_at r c) =? 0) then lost
          else x ← sync_loop sync_fuel c s timeout_ms; mret (default VA_STATUS_ERROR_OPERATION_FAILED x)
      end
  end.

(** ** The end of a context *)

Definition close_surface (c s : nat) : St world unit :=
  r ← encode_tables;
  let surface := surface_at r s in
  if negb (owned_by r c surface) then mret tt
  else
    (if en_broker_open (context_at r c) && lk_registered (es_link surface) then
       '(done, link) ← advc_vaapi_encode_surface_link_unregister (es_link surface)
                         (link_descriptor surface) (en_broker (context_at r c))
                         ADVC_VAAPI_IMAGE_SYNC_TIMEOUT_MS;
       if done <? 0
       then enc_update (on_surface s (fun x =>
              put_state ENCODE_SURFACE_ERROR (put_link (fun _ => put_registered false link) x)))
       else enc_update (on_surface s (put_link (fun _ => link)))
     else mret tt) ;;
    enc_update (on_surface s (fun x =>
      let x := put_owner 0 VA_INVALID_ID x in
      if state_is (es_state x) ENCODE_SURFACE_PENDING then put_state ENCODE_SURFACE_ERROR x else x)).

Definition close_context_locked (c : nat) : St world unit :=
  for_each all_surfaces (close_surface c) ;;
  r ← encode_tables;
  (if en_broker_open (context_at r c)
   then advc_vaapi_encode_broker_close (en_broker (context_at r c)) ;; mret tt else mret tt) ;;
  enc_update (on_context c (fun _ => closed_context)).

(** *** End of stream *)

Definition context_eos_now_ms : St world Z :=
  now ← kernel (on_environment sys_clock);
  match now with
  | None => mret UINT64_MAX
  | Some (sec, nsec) =>
      if (UINT64_MAX - nsec / 1000000) / 1000 <? sec
      then kernel (errno_is EOVERFLOW) ;; mret UINT64_MAX
      else mret (sec * 1000 + nsec / 1000000)
  end.

Definition context_eos_signal (c : nat) (pts_ns : Z) : St world Z :=
  r ← encode_tables; advc_vaapi_encode_broker_signal_eos (en_broker (context_at r c)) pts_ns.

(** The result, and whether the end of the stream was received. *)
Definition context_eos_drain_once (c : nat) (timeout_ms : Z) : St world (Z * bool) :=
  let fail e : St world (Z * bool) := r ← kernel (fail_with e); mret (r, false) in
  r ← encode_tables;
  if 0 <? en_pending_count (context_at r c) then
    match find_oldest_pending_surface r c with
    | None => fail EPROTO
    | Some s =>
        status ← sync_surface_locked s timeout_ms;
        if negb (bool_decide (status = VA_STATUS_SUCCESS)) then fail (status_to_errno status)
        else
          r ← encode_tables;
          let context := context_at r c in
          if en_broker_eos_received context && negb (en_pending_count context =? 0) then fail EPROTO
          else mret (0, en_broker_eos_received context)
    end
  else
    '(received, output) ← advc_vaapi_encode_broker_receive (en_broker (context_at r c)) timeout_ms zero_output;
    if received <? 0 then mret (-1, false)
    else if Z.land (co_flags output) ADVC_FLAG_END_OF_STREAM =? 0 then
      advc_vaapi_encode_coded_output_close output ;; fail EPROTO
    else
      enc_update (on_context c (fun x => put_eos true (en_eos x) x)) ;;
      advc_vaapi_encode_coded_output_close output ;;
      mret (0, true).

Definition context_eos_fail_closed (c : nat) : St world unit := enc_update (mark_context_pending_error c).

(** A callback as EncodeEos.v has it. *)
Definition callback {A} (f : St world A) : world -> A * (world * Z) := fun w =>
  let '(a, w') := f w in (a, (w', m_errno (w_m w'))).

Definition context_eos_ops (c : nat) : encode_eos_ops world :=
  EosOps (callback context_eos_now_ms) (fun pts_ns => callback (context_eos_signal c pts_ns))
    (fun timeout_ms => callback (context_eos_drain_once c timeout_ms))
    (Some (fun w => snd (callback (context_eos_fail_closed c) w))).

(** A drain completes a surface, or receives the end of the stream. *)
Definition eos_fuel : nat := Z.to_nat ADVC_ENCODE_SURFACE_SLOTS + 2.

(** The result, [None] when [eos_fuel] was not enough, which [finish_eos_ended] of
    EncodeInv.v rules out; [errno] is the machine's. *)
Definition finish_eos (c : nat) : St world (option Z) := fun w =>
  let context := context_at (ds_encode (w_rt w)) c in
  match advc_vaapi_encode_eos_finish (context_eos_ops c) eos_fuel (en_last_pts_ns context)
          ADVC_VAAPI_IMAGE_SYNC_TIMEOUT_MS (en_eos context) (EncodeEos.World w (m_errno (w_m w)) []) with
  | None => (None, w)
  | Some (r, (eos, x)) =>
      (kernel (errno_is (werrno x)) ;;
       enc_update (on_context c (fun k => put_eos (en_broker_eos_received k) eos k)) ;;
       mret (Some r)) (wd x)
  end.

(** The drain of a frame session; [None] when [fuel] rounds were not enough. *)
Fixpoint drain_frames (fuel : nat) (c : nat) (deadline : Z) : St world (option va_status) :=
  r ← encode_tables;
  if negb (0 <? en_pending_count (context_at r c)) then mret (Some VA_STATUS_SUCCESS)
  else
    match fuel with
    | O => mret None
    | S fuel =>
        let failed status := enc_update (mark_context_pending_error c) ;; mret (Some status) in
        let surface := find_oldest_pending_surface r c in
        now ← context_eos_now_ms;
        match surface with
        | None => failed VA_STATUS_ERROR_ENCODING_ERROR
        | Some s =>
            if (now =? UINT64_MAX) || (deadline <=? now) then failed VA_STATUS_ERROR_TIMEDOUT
            else
              let remaining := deadline - now in
              status ← sync_surface_locked s (if UINT32_MAX <? remaining then UINT32_MAX else remaining);
              if negb (bool_decide (status = VA_STATUS_SUCCESS)) then failed status
              else drain_frames fuel c deadline
        end
    end.

Definition drain_frame_session_locked (c : nat) : St world va_status :=
  start ← context_eos_now_ms;
  if (start =? UINT64_MAX) || (UINT64_MAX - start <? ADVC_VAAPI_IMAGE_SYNC_TIMEOUT_MS) then
    enc_update (mark_context_pending_error c) ;; mret VA_STATUS_ERROR_OPERATION_FAILED
  else
    x ← drain_frames sync_fuel c (start + ADVC_VAAPI_IMAGE_SYNC_TIMEOUT_MS);
    mret (default VA_STATUS_ERROR_OPERATION_FAILED x).

Definition finish_context_locked (c : nat) : St world va_status :=
  r ← encode_tables;
  if negb (en_broker_open (context_at r c)) then mret VA_STATUS_SUCCESS
  else if en_broker_frame_session (context_at r c) then drain_frame_session_locked c
  else
    done ← finish_eos c;
    match done with
    | None => mret VA_STATUS_ERROR_OPERATION_FAILED
    | Some done =>
        if done =? 0 then mret VA_STATUS_SUCCESS
        else saved ← kernel errno; mret (status_from_errno saved)
    end.

(** ** The callbacks of the image code *)

Inductive surface_access := ACCESS_READ | ACCESS_WRITE | ACCESS_READ_WRITE.
Definition writes (a : surface_access) : bool :=
  match a with ACCESS_READ => false | _ => true end.

(** The status, the descriptor and the acquire fence. *)
Definition image_acquire_surface (id : Z) (access : surface_access)
    : St world (va_status * advc_dmabuf_descriptor * Z) :=
  let finish status : St world (va_status * advc_dmabuf_descriptor * Z) :=
    mret (status, blank_descriptor, -1) in
  r ← encode_tables;
  match get_surface r id with
  | None => finish VA_STATUS_ERROR_INVALID_SURFACE
  | Some s =>
      let pending := state_is (es_state (surface_at r s)) ENCODE_SURFACE_PENDING in
      if pending && writes access then finish VA_STATUS_ERROR_SURFACE_BUSY
      else
        status ← (if pending then sync_surface_locked s ADVC_VAAPI_IMAGE_SYNC_TIMEOUT_MS
                  else mret VA_STATUS_SUCCESS);
        if negb (bool_decide (status = VA_STATUS_SUCCESS)) then finish status
        else
          r ← encode_tables;
          if state_is (es_state (surface_at r s)) ENCODE_SURFACE_ERROR
          then finish VA_STATUS_ERROR_ENCODING_ERROR
          else
            '(done, d) ← kernel (duplicate_descriptor (es_prime (surface_at r s)) blank_descriptor);
            if done <? 0 then e ← kernel errno; mret (status_from_errno e, d, -1)
            else mret (VA_STATUS_SUCCESS, d, -1)
  end.

Definition count_cpu_copy (n : counters) : counters :=
  Counters (u64 (ct_cpu_pixel_copies n + 1)) (ct_writable_prime_exports n) (ct_gpu_conversion_submits n)
    (ct_gpu_modifier_repack_submits n) (u32 (ct_pending_cpu_pixel_copies n + 1))
    (ct_pending_writable_prime_exports n).

Definition image_release_surface (id : Z) (access : surface_access) (access_succeeded : bool)
    : St world unit :=
  if negb access_succeeded || negb (writes access) then mret tt
  else
    r ← encode_tables;
    match get_surface r id with
    | None => mret tt
    | Some s => enc_update (on_surface s (put_counters count_cpu_copy))
    end.

End Sync.
