(* ===== verification/EncodeRuntime.v ===== *)
(** * The encode runtime (src/src/vaapi_advc/advc_vaapi_encode_runtime.c)

    The entry points: configurations, surfaces, contexts, buffers, pictures,
    synchronisation, export.  The end of the runtime is in Image.v, with the images
    it owns.  Trace output and the mutex, held for the whole of every call, are left
    out.  An operation in which the code has undefined behaviour returns [None]. *)

From stdpp Require Import base list gmap.
From Stdlib Require Import ZArith Lia Bool String.
#[local] Notation length := List.length.
From S2P Require Import Prelude Kernel Protocol Dmabuf Engine Broker Client ClientConnect World EncodeEos VaapiRoutes VaapiPolicy Va EncodeParams EncodeState EncodeWorld EncodeBroker EncodeLink EncodeSync.
Notation world := (world_of driver_state).

Definition wire_encode_profile (profile : va_profile) : Z :=
  match profile with
  | VAProfileH264ConstrainedBaseline => ADVC_ENCODE_PROFILE_H264_CONSTRAINED_BASELINE
  | VAProfileHEVCMain => ADVC_ENCODE_PROFILE_HEVC_MAIN
  | _ => ADVC_ENCODE_PROFILE_NONE
  end.

Definition profile_allowed (profile : va_profile) : bool :=
  match profile with VAProfileH264ConstrainedBaseline | VAProfileHEVCMain => true | _ => false end.

Definition or_default_dimension (value : Z) : Z := if value =? 0 then ADVC_ENCODE_MAX_DIMENSION else value.
Definition codec_max_width (r : enc_runtime) (codec : encode_codec) : Z :=
  or_default_dimension (if codec_is codec ENCODE_CODEC_H264 then ep_h264_max_width (er_policy r)
                        else ep_hevc_max_width (er_policy r)).
Definition codec_max_height (r : enc_runtime) (codec : encode_codec) : Z :=
  or_default_dimension (if codec_is codec ENCODE_CODEC_H264 then ep_h264_max_height (er_policy r)
                        else ep_hevc_max_height (er_policy r)).

(** [None]: refused. *)
Definition checked_allocation_size (size num_elements : Z) : option Z :=
  if (size =? 0) || (num_elements =? 0) || (SIZE_MAX / size <? num_elements) then None
  else Some (size * num_elements).

Definition supported_buffer_type (type : encode_buffer_type) : bool :=
  match type with VAEncBufferTypeOther => false | _ => true end.

Definition frame_pts_ns (frame_index fps_milli : Z) : Z :=
  if (fps_milli =? 0) || (UINT64_MAX / 1000000000000 <? frame_index) then UINT64_MAX
  else frame_index * 1000000000000 / fps_milli.

Definition timeout_ns_to_ms (timeout_ns : Z) : Z :=
  if timeout_ns =? 0 then 0
  else
    let limited := if ADVC_ENCODE_SYNC_LIMIT_NS <? timeout_ns then ADVC_ENCODE_SYNC_LIMIT_NS else timeout_ns in
    let millis := u64 (limited + 999999) / 1000000 in
    let millis := if millis =? 0 then 1 else millis in
    if UINT32_MAX <? millis then UINT32_MAX else millis.

Section Runtime.
Context {nr : encoder}.

(** ** The runtime *)

Definition blank_encode_runtime (path : string) (policy : encode_policy) (mp : Modifier.modifier_policy)
    (ready : bool) : enc_runtime :=
  EncRuntime path policy mp ready
    (replicate (Z.to_nat ADVC_ENCODE_CONFIG_SLOTS) zero_config)
    (replicate (Z.to_nat ADVC_ENCODE_CONTEXT_SLOTS) closed_context)
    (replicate (Z.to_nat ADVC_ENCODE_SURFACE_SLOTS) zero_surface)
    (replicate (Z.to_nat ADVC_ENCODE_BUFFER_SLOTS) zero_buffer).

(** The runtime and its images; [None] is NULL. *)
Definition advc_vaapi_encode_runtime_create (socket_path : option string) (policy : option encode_policy)
    : St process (option (enc_runtime * image_runtime)) :=
  match socket_path, policy with
  | Some path, Some policy =>
      if String.eqb path EmptyString then mret None
      else
        a ← sys_alloc;
        if negb a then mret None
        else
          b ← sys_alloc;
          if negb b then mret None
          else
            match Modifier.advc_vaapi_modifier_policy_parse (nr_getenv "ADVC_VAAPI_ENCODE_INPUT")
                    (nr_getenv "ADVC_VAAPI_OUTPUT") with
            | (inl e, _) => errno_is e ;; mret None
            | (inr _, mp) =>
                images ← sys_alloc;
                if negb images then mret None
                else mret (Some (blank_encode_runtime path policy mp
                       (exact_env "ADVC_VAAPI_ENABLE_WRITE_EXPORT" "validated-dmabuf-syncfile-v1"),
                     ImageRuntime 0 (replicate (Z.to_nat ADVC_VAAPI_IMAGE_SLOTS) zero_image)))
            end
  | _, _ => mret None
  end.

Definition advc_vaapi_encode_buffer_is_coded (id : Z) : St world bool :=
  r ← encode_tables;
  mret match get_buffer r id with
       | Some k => buffer_type_is (bu_type (buffer_at r k)) VAEncCodedBufferType
       | None => false
       end.

(** ** Configurations *)

(** The status and the new identifier. *)
Definition advc_vaapi_encode_create_config (profile : va_profile) (entrypoint : va_entrypoint)
    (attributes : option (list (config_attrib * Z))) (num_attributes : Z) : St world (va_status * Z) :=
  r ← encode_tables;
  let config := if profile_allowed profile
                then advc_vaapi_encode_config_init (Some (er_policy r)) profile entrypoint attributes num_attributes
                else inl EINVAL in
  match config with
  | inl _ =>
      mret (match entrypoint with
            | VAEntrypointEncSlice => VA_STATUS_ERROR_UNSUPPORTED_PROFILE
            | VAEntrypointOther => VA_STATUS_ERROR_UNSUPPORTED_ENTRYPOINT
            end, 0)
  | inr config =>
      match first_slot (fun c => negb (ef_used c)) (er_configs r) with
      | None => mret (VA_STATUS_ERROR_MAX_NUM_EXCEEDED, 0)
      | Some i =>
          enc_update (on_config i (fun _ => EncConfigSlot true config)) ;;
          mret (VA_STATUS_SUCCESS, make_id ADVC_VAAPI_ENCODE_CONFIG_TYPE i)
      end
  end.

Definition advc_vaapi_encode_destroy_config (config_id : Z) : St world va_status :=
  r ← encode_tables;
  match get_config r config_id with
  | None => mret VA_STATUS_ERROR_INVALID_CONFIG
  | Some i =>
      if existsb (fun c => en_used c && (en_config_id c =? config_id)) (er_contexts r)
      then mret VA_STATUS_ERROR_OPERATION_FAILED
      else enc_update (on_config i (fun _ => zero_config)) ;; mret VA_STATUS_SUCCESS
  end.

(** The status and what is stored: profile, entry point, the two attributes. *)
Definition advc_vaapi_encode_query_config (config_id : Z)
    : St world (va_status * option (va_profile * va_entrypoint * list (config_attrib * Z))) :=
  r ← encode_tables;
  mret match get_config r config_id with
       | None => (VA_STATUS_ERROR_INVALID_CONFIG, None)
       | Some i =>
           let config := ef_config (config_at r i) in
           (VA_STATUS_SUCCESS,
            Some (ec_profile config, ec_entrypoint config,
                  [(VAConfigAttribRTFormat, ec_rt_format config);
                   (VAConfigAttribRateControl, ec_rate_control config)]))
       end.

(** ** Surfaces *)

Definition surface_has_prime_attributes (attributes : list surface_attrib) : bool :=
  existsb (fun a => match sa_type a with VASurfaceAttribMemoryType => true | _ => false end &&
                    sa_integer a && (u32 (sa_i a) =? VA_SURFACE_ATTRIB_MEM_TYPE_DRM_PRIME_2)) attributes.

(** The attribute loop of [create_surfaces]: the status that refuses. *)
Fixpoint surface_attributes_refused (import_prime : bool) (l : list surface_attrib) : option va_status :=
  match l with
  | [] => None
  | a :: l =>
      let next := surface_attributes_refused import_prime l in
      let value := u32 (sa_i a) in
      match sa_type a with
      | VASurfaceAttribPixelFormat =>
          if negb (sa_integer a) || negb (value =? VA_FOURCC_NV12)
          then Some VA_STATUS_ERROR_UNSUPPORTED_RT_FORMAT else next
      | VASurfaceAttribMemoryType =>
          if negb (sa_integer a) then Some VA_STATUS_ERROR_INVALID_PARAMETER
          else if negb (value =? VA_SURFACE_ATTRIB_MEM_TYPE_VA) &&
                  negb (value =? VA_SURFACE_ATTRIB_MEM_TYPE_DRM_PRIME_2)
          then Some VA_STATUS_ERROR_UNSUPPORTED_MEMORY_TYPE else next
      | VASurfaceAttribUsageHint =>
          if negb (sa_integer a) then Some VA_STATUS_ERROR_INVALID_PARAMETER
          else if negb (value =? VA_SURFACE_ATTRIB_USAGE_HINT_GENERIC) &&
                  (Z.land value VA_SURFACE_ATTRIB_USAGE_HINT_ENCODER =? 0)
          then Some VA_STATUS_ERROR_INVALID_PARAMETER else next
      | VASurfaceAttribExternalBufferDescriptor =>
          match sa_value a with
          | GPointer (Some _) => if negb import_prime then Some VA_STATUS_ERROR_INVALID_PARAMETER else next
          | _ => Some VA_STATUS_ERROR_INVALID_PARAMETER
          end
      | VASurfaceAttribNone => next
      | _ => Some VA_STATUS_ERROR_ATTR_NOT_SUPPORTED
      end
  end.

(** The descriptors of a surface are closed and the slot is cleared. *)
Definition release_surface (s : nat) : St world unit :=
  r ← encode_tables;
  kernel (advc_vaapi_encode_surface_link_close (es_link (surface_at r s))) ;;
  kernel (advc_dmabuf_descriptor_close (es_broker_prime (surface_at r s))) ;;
  kernel (advc_dmabuf_descriptor_close (es_prime (surface_at r s))) ;;
  enc_update (on_surface s (fun _ => zero_surface)).

(** An imported layout the modifier policy takes. *)
Definition import_layout_ok (mode : Modifier.modifier_mode) (modifier : Z) : bool :=
  ((modifier =? 0) || (modifier =? Modifier.QCOM_MODIFIER)) &&
  negb (Modifier.mode_eqb mode Modifier.LINEAR && negb (modifier =? 0)) &&
  negb (Modifier.mode_eqb mode Modifier.QCOM && negb (modifier =? Modifier.QCOM_MODIFIER)).

Definition cleared_surface (prime : advc_dmabuf_descriptor) : enc_surface :=
  EncSurface false 0 0 (Progress ENCODE_SURFACE_IDLE 0 0 0 0) false no_counters prime blank_descriptor
    false false (SurfaceLink LinkNull 0 0 false).
Definition new_surface (width height : Z) (prime : advc_dmabuf_descriptor) (import_prime : bool)
    : enc_surface :=
  EncSurface true width height (Progress ENCODE_SURFACE_IDLE 0 VA_INVALID_ID 0 0) false no_counters prime
    blank_descriptor false import_prime (advc_vaapi_encode_surface_link_init LinkPrime).

(** Slot [i], the [n]-th of the surfaces asked for. *)
Definition create_surface (import_prime : bool) (width height : Z) (attributes : list surface_attrib)
    (num_surfaces n i : nat) : St world (option va_status) :=
  let id := make_id ADVC_VAAPI_ENCODE_SURFACE_TYPE i in
  enc_update (on_surface i (fun _ => cleared_surface blank_descriptor)) ;;
  x ← (if import_prime
       then kernel (advc_vaapi_prime_import_surface_attributes VA_RT_FORMAT_YUV420 width height attributes n
              num_surfaces id blank_descriptor)
       else
         '(done, prime) ← advc_vaapi_encode_surface_allocate_linear id width height blank_descriptor;
         if done =? 0 then mret (Some (VA_STATUS_SUCCESS, prime))
         else e ← kernel errno; mret (Some (status_from_errno e, prime)));
  match x with
  | None => mret None
  | Some (status, prime) =>
      enc_update (on_surface i (fun _ => cleared_surface prime)) ;;
      if negb (bool_decide (status = VA_STATUS_SUCCESS)) then mret (Some status)
      else
        r ← encode_tables;
        if import_prime &&
           negb (import_layout_ok (Modifier.mp_mode (er_modifier_policy r)) (d_drm_modifier prime)) then
          prime ← kernel (advc_dmabuf_descriptor_close prime);
          enc_update (on_surface i (fun _ => cleared_surface prime)) ;;
          mret (Some VA_STATUS_ERROR_UNSUPPORTED_RT_FORMAT)
        else
          enc_update (on_surface i (fun _ => new_surface width height prime import_prime)) ;;
          mret (Some VA_STATUS_SUCCESS)
  end.

(** The slots that are left; the status and the slots taken. *)
Fixpoint create_loop (slots : list nat) (import_prime : bool) (width height : Z)
    (attributes : list surface_attrib) (num_surfaces : nat) (allocated : list nat)
    : St world (option (va_status * list nat)) :=
  if (num_surfaces <=? length allocated)%nat then mret (Some (VA_STATUS_SUCCESS, allocated))
  else
    match slots with
    | [] => mret (Some (VA_STATUS_SUCCESS, allocated))
    | i :: slots =>
        r ← encode_tables;
        if es_used (surface_at r i)
        then create_loop slots import_prime width height attributes num_surfaces allocated
        else
          x ← create_surface import_prime width height attributes num_surfaces (length allocated) i;
          match x with
          | None => mret None
          | Some status =>
              if negb (bool_decide (status = VA_STATUS_SUCCESS)) then mret (Some (status, allocated))
              else create_loop slots import_prime width height attributes num_surfaces (allocated ++ [i])
          end
    end.

(** The status and the identifiers. *)
Definition advc_vaapi_encode_create_surfaces (format width height : Z) (num_surfaces : Z)
    (attributes : option (list surface_attrib)) (num_attributes : Z)
    : St world (option (va_status * list Z)) :=
  let l := take (Z.to_nat num_attributes) (default [] attributes) in
  if (num_surfaces =? 0) || (ADVC_ENCODE_SURFACE_SLOTS <? num_surfaces) ||
     negb (format =? VA_RT_FORMAT_YUV420) || (width <? 16) || (height <? 16) ||
     (ADVC_ENCODE_MAX_DIMENSION <? width) || (ADVC_ENCODE_MAX_DIMENSION <? height) ||
     negb (Z.land width 1 =? 0) || negb (Z.land height 1 =? 0) ||
     ((0 <? num_attributes) && bool_decide (attributes = None))
  then mret (Some (VA_STATUS_ERROR_UNSUPPORTED_RT_FORMAT, []))
  else if negb (Z.of_nat (length l) =? num_attributes) then mret None
  else
    let import_prime := surface_has_prime_attributes l in
    match surface_attributes_refused import_prime l with
    | Some status => mret (Some (status, []))
    | None =>
        x ← create_loop all_surfaces import_prime width height l (Z.to_nat num_surfaces) [];
        match x with
        | None => mret None
        | Some (status, allocated) =>
            if (length allocated =? Z.to_nat num_surfaces)%nat
            then mret (Some (status, make_id ADVC_VAAPI_ENCODE_SURFACE_TYPE <$> allocated))
            else
              for_each allocated release_surface ;;
              mret (Some (if bool_decide (status = VA_STATUS_SUCCESS)
                          then VA_STATUS_ERROR_MAX_NUM_EXCEEDED else status, []))
        end
    end.

(** The first refused surface decides. *)
Fixpoint destroy_refused (r : enc_runtime) (l : list Z) : option va_status :=
  match l with
  | [] => None
  | id :: l =>
      match get_surface r id with
      | None => Some VA_STATUS_ERROR_INVALID_SURFACE
      | Some s =>
          if state_is (es_state (surface_at r s)) ENCODE_SURFACE_PENDING ||
             lk_registered (es_link (surface_at r s))
          then Some VA_STATUS_ERROR_SURFACE_BUSY else destroy_refused r l
      end
  end.
(** A surface that is gone is a NULL pointer the loop writes through. *)
Fixpoint destroy_each (l : list Z) : St world (option va_status) :=
  match l with
  | [] => mret (Some VA_STATUS_SUCCESS)
  | id :: l =>
      r ← encode_tables;
      match get_surface r id with
      | None => mret None
      | Some s => release_surface s ;; destroy_each l
      end
  end.
Definition advc_vaapi_encode_destroy_surfaces (surfaces : option (list Z)) (num_surfaces : Z)
    : St world (option va_status) :=
  let l := take (Z.to_nat num_surfaces) (default [] surfaces) in
  if (num_surfaces <? 0) || ((0 <? num_surfaces) && bool_decide (surfaces = None))
  then mret (Some VA_STATUS_ERROR_INVALID_PARAMETER)
  else if negb (Z.of_nat (length l) =? num_surfaces) then mret None
  else
    r ← encode_tables;
    match destroy_refused r l with
    | Some status => mret (Some status)
    | None => destroy_each l
    end.

Definition set_surface_attribute (type : surface_attrib_type) (value flags : Z) : surface_attrib :=
  SurfaceAttrib type flags (GInteger value).

(** The status, the attributes written and the number stored.  [room = None] is a
    NULL array. *)
Definition advc_vaapi_encode_query_surface_attributes (config_id : Z) (room : option Z)
    : St world (va_status * list surface_attrib * option Z) :=
  r ← encode_tables;
  mret match get_config r config_id with
       | None => (VA_STATUS_ERROR_INVALID_CONFIG, [], None)
       | Some i =>
           let codec := ec_codec (ef_config (config_at r i)) in
           let both := Z.lor VA_SURFACE_ATTRIB_GETTABLE VA_SURFACE_ATTRIB_SETTABLE in
           let limit type value := set_surface_attribute type value VA_SURFACE_ATTRIB_GETTABLE in
           match room with
           | None => (VA_STATUS_SUCCESS, [], Some 7)
           | Some n =>
               if n <? 7 then (VA_STATUS_ERROR_MAX_NUM_EXCEEDED, [], Some 7)
               else
                 (VA_STATUS_SUCCESS,
                  [set_surface_attribute VASurfaceAttribPixelFormat VA_FOURCC_NV12 both;
                   limit VASurfaceAttribMinWidth 16; limit VASurfaceAttribMaxWidth (codec_max_width r codec);
                   limit VASurfaceAttribMinHeight 16; limit VASurfaceAttribMaxHeight (codec_max_height r codec);
                   set_surface_attribute VASurfaceAttribMemoryType
                     (Z.lor VA_SURFACE_ATTRIB_MEM_TYPE_VA VA_SURFACE_ATTRIB_MEM_TYPE_DRM_PRIME_2) both;
                   set_surface_attribute VASurfaceAttribUsageHint VA_SURFACE_ATTRIB_USAGE_HINT_ENCODER both],
                  Some 7)
           end
       end.

(** ** Contexts *)

Definition new_context (config_id width height profile : Z) (codec : encode_codec) : enc_context :=
  EncContext true config_id width height false VA_INVALID_SURFACE 0 0 0 profile
    (advc_vaapi_encode_frame_init codec width height ADVC_ENCODE_DEFAULT_BITRATE
       ADVC_ENCODE_DEFAULT_FPS_MILLI)
    (EncodeBroker (-1) 0 0 no_session_config) false false false fresh_state.

(** A target is missing or of another size. *)
Definition target_refused (r : enc_runtime) (width height id : Z) : bool :=
  match get_surface r id with
  | None => true
  | Some s => negb (es_width (surface_at r s) =? width) || negb (es_height (surface_at r s) =? height)
  end.

(** The status and the new identifier. *)
Definition advc_vaapi_encode_create_context (config_id width height : Z) (targets : option (list Z))
    (num_targets : Z) : St world (va_status * Z) :=
  if (width <? 16) || (height <? 16) || negb (Z.land width 1 =? 0) || negb (Z.land height 1 =? 0) ||
     (num_targets <? 0) || ((0 <? num_targets) && bool_decide (targets = None))
  then mret (VA_STATUS_ERROR_INVALID_PARAMETER, 0)
  else
    r ← encode_tables;
    match get_config r config_id with
    | None => mret (VA_STATUS_ERROR_INVALID_CONFIG, 0)
    | Some i =>
        let config := ef_config (config_at r i) in
        if (codec_max_width r (ec_codec config) <? width) || (codec_max_height r (ec_codec config) <? height)
        then mret (VA_STATUS_ERROR_RESOLUTION_NOT_SUPPORTED, 0)
        else if existsb (target_refused r width height) (take (Z.to_nat num_targets) (default [] targets))
        then mret (VA_STATUS_ERROR_INVALID_SURFACE, 0)
        else
          match first_slot (fun c => negb (en_used c)) (er_contexts r) with
          | None => mret (VA_STATUS_ERROR_MAX_NUM_EXCEEDED, 0)
          | Some c =>
              let profile := wire_encode_profile (ec_profile config) in
              if profile =? ADVC_ENCODE_PROFILE_NONE then
                enc_update (on_context c (fun _ => zero_context)) ;;
                mret (VA_STATUS_ERROR_UNSUPPORTED_PROFILE, 0)
              else
                enc_update (on_context c (fun _ => new_context config_id width height profile (ec_codec config))) ;;
                mret (VA_STATUS_SUCCESS, make_id ADVC_VAAPI_ENCODE_CONTEXT_TYPE c)
          end
    end.

Definition advc_vaapi_encode_destroy_context (context_id : Z) : St world va_status :=
  r ← encode_tables;
  match get_context r context_id with
  | None => mret VA_STATUS_ERROR_INVALID_CONTEXT
  | Some c => status ← finish_context_locked c; close_context_locked c ;; mret status
  end.

(** ** Buffers *)

Definition new_buffer (context_id : Z) (type : encode_buffer_type) (size num_elements coded_capacity : Z)
    (data : option (list Z)) : enc_buffer :=
  EncBuffer true false context_id type size num_elements num_elements coded_capacity VA_INVALID_SURFACE
    data zero_output.

(** The status and the new identifier; [data]: the bytes to start with. *)
Definition advc_vaapi_encode_create_buffer (context_id : Z) (type : encode_buffer_type)
    (size num_elements : Z) (data : option (list Z)) : St world (va_status * Z) :=
  match checked_allocation_size size num_elements with
  | None => mret (VA_STATUS_ERROR_INVALID_PARAMETER, 0)
  | Some total =>
      if negb (supported_buffer_type type) then mret (VA_STATUS_ERROR_UNSUPPORTED_BUFFERTYPE, 0)
      else
        r ← encode_tables;
        match get_context r context_id with
        | None => mret (VA_STATUS_ERROR_INVALID_CONTEXT, 0)
        | Some _ =>
            match first_slot (fun b => negb (bu_used b)) (er_buffers r) with
            | None => mret (VA_STATUS_ERROR_MAX_NUM_EXCEEDED, 0)
            | Some k =>
                let id := make_id ADVC_VAAPI_ENCODE_BUFFER_TYPE k in
                if buffer_type_is type VAEncCodedBufferType then
                  enc_update (on_buffer k (fun _ => new_buffer context_id type size num_elements total None)) ;;
                  mret (VA_STATUS_SUCCESS, id)
                else
                  a ← kernel sys_alloc;
                  if negb a then
                    enc_update (on_buffer k (fun _ => zero_buffer)) ;;
                    mret (VA_STATUS_ERROR_ALLOCATION_FAILED, 0)
                  else
                    let bytes := match data with
                                 | Some bytes => take (Z.to_nat total) bytes
                                 | None => zeros total
                                 end in
                    enc_update (on_buffer k (fun _ =>
                      new_buffer context_id type size num_elements 0 (Some bytes))) ;;
                    mret (VA_STATUS_SUCCESS, id)
            end
        end
  end.

Definition advc_vaapi_encode_buffer_set_num_elements (id num_elements : Z) : St world va_status :=
  if num_elements =? 0 then mret VA_STATUS_ERROR_INVALID_PARAMETER
  else
    r ← encode_tables;
    match get_buffer r id with
    | None => mret VA_STATUS_ERROR_INVALID_BUFFER
    | Some k =>
        let buffer := buffer_at r k in
        if bu_mapped buffer || buffer_type_is (bu_type buffer) VAEncCodedBufferType ||
           (bu_capacity_elements buffer <? num_elements)
        then mret VA_STATUS_ERROR_INVALID_PARAMETER
        else enc_update (on_buffer k (put_elements num_elements)) ;; mret VA_STATUS_SUCCESS
    end.

(** What [*mapped] points at; [None] is NULL. *)
Inductive mapped_at := MappedSegments (k : nat) | MappedData (k : nat).

Definition advc_vaapi_encode_map_buffer (id : Z) : St world (va_status * option mapped_at) :=
  let refuse status : St world (va_status * option mapped_at) := mret (status, None) in
  r ← encode_tables;
  match get_buffer r id with
  | None => refuse VA_STATUS_ERROR_INVALID_BUFFER
  | Some k =>
      let buffer := buffer_at r k in
      let map pointer : St world (va_status * option mapped_at) :=
        enc_update (on_buffer k (put_mapped true)) ;; mret (VA_STATUS_SUCCESS, pointer) in
      if bu_mapped buffer then refuse VA_STATUS_ERROR_OPERATION_FAILED
      else if buffer_type_is (bu_type buffer) VAEncCodedBufferType then
        status ← (if bu_pending_surface buffer =? VA_INVALID_SURFACE then mret VA_STATUS_SUCCESS
                  else match get_surface r (bu_pending_surface buffer) with
                       | None => mret VA_STATUS_ERROR_ENCODING_ERROR
                       | Some s => sync_surface_locked s ADVC_VAAPI_IMAGE_SYNC_TIMEOUT_MS
                       end);
        if negb (bool_decide (status = VA_STATUS_SUCCESS)) then refuse status
        else
          r ← encode_tables;
          if (length (co_segments (bu_output (buffer_at r k))) =? 0)%nat
          then refuse VA_STATUS_ERROR_OPERATION_FAILED
          else map (Some (MappedSegments k))
      else map (match bu_data buffer with Some _ => Some (MappedData k) | None => None end)
  end.

Definition advc_vaapi_encode_unmap_buffer (id : Z) : St world va_status :=
  r ← encode_tables;
  match get_buffer r id with
  | None => mret VA_STATUS_ERROR_INVALID_BUFFER
  | Some k =>
      if negb (bu_mapped (buffer_at r k)) then mret VA_STATUS_ERROR_OPERATION_FAILED
      else enc_update (on_buffer k (put_mapped false)) ;; mret VA_STATUS_SUCCESS
  end.

Definition advc_vaapi_encode_destroy_buffer (id : Z) : St world va_status :=
  r ← encode_tables;
  match get_buffer r id with
  | None => mret VA_STATUS_ERROR_INVALID_BUFFER
  | Some k =>
      let buffer := buffer_at r k in
      if bu_mapped buffer || negb (bu_pending_surface buffer =? VA_INVALID_SURFACE)
      then mret VA_STATUS_ERROR_SURFACE_BUSY
      else
        advc_vaapi_encode_coded_output_close (bu_output buffer) ;;
        enc_update (on_buffer k (fun _ => zero_buffer)) ;;
        mret VA_STATUS_SUCCESS
  end.

(** ** Pictures *)

Definition begin_refused (context_id : Z) (context : enc_context) (surface : enc_surface) : bool :=
  en_picture_active context || (frame_session_mode && negb (en_pending_count context =? 0)) ||
  (ADVC_MAX_INFLIGHT_DMABUFS <=? en_pending_count context) ||
  state_is (es_state surface) ENCODE_SURFACE_PENDING ||
  (negb (es_owner_context surface =? 0) && negb (es_owner_context surface =? context_id)).

Definition advc_vaapi_encode_begin_picture (context_id target : Z) : St world va_status :=
  r ← encode_tables;
  match get_context r context_id with
  | None => mret VA_STATUS_ERROR_INVALID_CONTEXT
  | Some c =>
      let context := context_at r c in
      match get_surface r target with
      | None => mret VA_STATUS_ERROR_INVALID_SURFACE
      | Some s =>
          let surface := surface_at r s in
          if negb (es_width surface =? en_width context) || negb (es_height surface =? en_height context)
          then mret VA_STATUS_ERROR_INVALID_SURFACE
          else if state_is (es_state surface) ENCODE_SURFACE_ERROR then mret VA_STATUS_ERROR_ENCODING_ERROR
          else if begin_refused context_id context surface then mret VA_STATUS_ERROR_SURFACE_BUSY
          else
            enc_update (on_context c (fun x =>
              put_picture true target (advc_vaapi_encode_frame_begin (en_frame x)) x)) ;;
            enc_update (on_surface s (fun x =>
              put_state ENCODE_SURFACE_IDLE (put_owner (es_owner_context x) VA_INVALID_ID x))) ;;
            mret VA_STATUS_SUCCESS
      end
  end.

(** The buffer loop; [None]: the code reads past the end of a buffer. *)
Fixpoint render_buffers (context_id : Z) (c : nat) (l : list Z) : St world (option va_status) :=
  match l with
  | [] => mret (Some VA_STATUS_SUCCESS)
  | id :: l =>
      r ← encode_tables;
      match get_buffer r id with
      | None => mret (Some VA_STATUS_ERROR_INVALID_BUFFER)
      | Some k =>
          let buffer := buffer_at r k in
          if negb (bu_owner_context buffer =? context_id) || bu_mapped buffer ||
             buffer_type_is (bu_type buffer) VAEncCodedBufferType || bool_decide (bu_data buffer = None)
          then mret (Some VA_STATUS_ERROR_INVALID_PARAMETER)
          else
            match advc_vaapi_encode_frame_consume nr_abi (en_frame (context_at r c)) (bu_type buffer)
                    (bu_data buffer) (bu_element_size buffer) (bu_num_elements buffer) with
            | Overread => mret None
            | Rejected => mret (Some VA_STATUS_ERROR_UNSUPPORTED_BUFFERTYPE)
            | Consumed f =>
                enc_update (on_context c (fun x => put_picture (en_picture_active x) (en_target x) f x)) ;;
                render_buffers context_id c l
            end
      end
  end.

Definition advc_vaapi_encode_render_picture (context_id : Z) (buffers : option (list Z)) (num_buffers : Z)
    : St world (option va_status) :=
  let l := take (Z.to_nat num_buffers) (default [] buffers) in
  if (num_buffers <? 0) || ((0 <? num_buffers) && bool_decide (buffers = None))
  then mret (Some VA_STATUS_ERROR_INVALID_PARAMETER)
  else if negb (Z.of_nat (length l) =? num_buffers) then mret None
  else
    r ← encode_tables;
    match get_context r context_id with
    | None => mret (Some VA_STATUS_ERROR_INVALID_CONTEXT)
    | Some c =>
        if negb (en_picture_active (context_at r c)) then mret (Some VA_STATUS_ERROR_OPERATION_FAILED)
        else render_buffers context_id c l
    end.

(** *** The input of the encoder *)

Definition same_dmabuf_object (a b : advc_dmabuf_descriptor) : St process bool :=
  if negb (d_object_count a =? 1) || negb (d_object_count b =? 1) || (o_fd (object_at a 0) <? 0) ||
     (o_fd (object_at b 0) <? 0) then mret false
  else
    i ← fstat_inode (o_fd (object_at a 0));
    match i with
    | None => mret false
    | Some i =>
        j ← fstat_inode (o_fd (object_at b 0));
        mret match j with Some j => i =? j | None => false end
    end.

Definition set_link_fence (s : nat) (fence : Z) : St world Z :=
  r ← encode_tables;
  '(done, link) ← kernel (advc_vaapi_encode_surface_link_set_acquire_fence (es_link (surface_at r s)) fence);
  enc_update (on_surface s (put_link (fun _ => link))) ;;
  mret done.

(** [goto fail] *)
Definition prepare_failed (source_acquire converted_acquire source_release : Z)
    (converted : advc_dmabuf_descriptor) : St world Z :=
  e ← kernel errno;
  kernel (close_if_open source_acquire) ;;
  kernel (close_if_open converted_acquire) ;;
  kernel (close_if_open source_release) ;;
  kernel (advc_dmabuf_descriptor_close converted) ;;
  kernel (fail_with (if e =? 0 then EIO else e)).

(** The broker's copy of the surface becomes [converted]: 0, or -1. *)
Definition replace_broker_prime (c s : nat) (converted : advc_dmabuf_descriptor) : St world Z :=
  r ← encode_tables;
  let surface := surface_at r s in
  '(done, link) ← (if lk_registered (es_link surface)
                   then advc_vaapi_encode_surface_link_unregister (es_link surface) (link_descriptor surface)
                          (en_broker (context_at r c)) ADVC_VAAPI_IMAGE_SYNC_TIMEOUT_MS
                   else mret (0, es_link surface));
  enc_update (on_surface s (put_link (fun _ => link))) ;;
  if done <? 0 then mret (-1)
  else
    kernel (advc_vaapi_encode_surface_link_close link) ;;
    kernel (advc_dmabuf_descriptor_close (es_broker_prime surface)) ;;
    enc_update (on_surface s (fun x =>
      put_link (fun _ => advc_vaapi_encode_surface_link_init LinkBrokerPrime)
        (put_broker_prime converted true x))) ;;
    mret 0.

Definition count_repack (n : counters) : counters :=
  Counters (ct_cpu_pixel_copies n) (ct_writable_prime_exports n) (ct_gpu_conversion_submits n)
    (u64 (ct_gpu_modifier_repack_submits n + 1)) (ct_pending_cpu_pixel_copies n)
    (ct_pending_writable_prime_exports n).

(** From the conversion's result on. *)
Definition adopt_converted (c s : nat) (converted : advc_dmabuf_descriptor)
    (converted_acquire source_release : Z) : St world Z :=
  ok ← (if negb (d_drm_modifier converted =? 0) || negb (d_drm_fourcc converted =? VA_FOURCC_NV12)
        then mret false
        else v ← kernel (advc_dmabuf_descriptor_validate converted); mret (negb (v <? 0)));
  if negb ok then
    kernel (errno_is EPROTO) ;; prepare_failed (-1) converted_acquire source_release converted
  else
    r ← encode_tables;
    let surface := surface_at r s in
    same ← (if es_broker_prime_valid surface
            then kernel (same_dmabuf_object (es_broker_prime surface) converted) else mret false);
    replaced ← (if (same : bool) then mret 0 else replace_broker_prime c s converted);
    if replaced <? 0 then prepare_failed (-1) converted_acquire source_release converted
    else
      let converted := if (same : bool) then converted else blank_descriptor in
      done ← set_link_fence s converted_acquire;
      if done <? 0 then prepare_failed (-1) converted_acquire source_release converted
      else
        kernel (close_if_open source_release) ;;
        kernel (advc_dmabuf_descriptor_close converted) ;;
        enc_update (on_surface s (put_counters count_repack)) ;;
        mret 0.

Definition encode_route (r : enc_runtime) (c s : nat) (valid : bool) : Modifier.modifier_route :=
  Modifier.advc_vaapi_modifier_route_encode (Some (er_modifier_policy r))
    (d_drm_modifier (es_prime (surface_at r s))) valid
    (negb (Z.land (bk_features (en_broker (context_at r c))) ADVC_FEATURE_ENCODE_QCOM_MODIFIER =? 0))
    (exact_env "ADVC_VAAPI_ENCODE_QCOM_IMPORT" "validated-v1")
    (bool_decide (is_Some nr_gpu_repack) &&
     exact_env "ADVC_VAAPI_GPU_LINEAR_REPACK" "validated-qcom-nv12-v1").

Definition prepare_encode_input (c s : nat) : St world Z :=
  r ← encode_tables;
  let prime := es_prime (surface_at r s) in
  if d_drm_modifier prime =? 0 then mret 0
  else
    v ← kernel (advc_dmabuf_descriptor_validate prime);
    match encode_route r c s (v =? 0) with
    | Modifier.ROUTE_DIRECT_QCOM =>
        fence ← kernel (export_implicit_read_fence prime);
        done ← (if fence <? 0 then mret (-1) else set_link_fence s fence);
        if done <? 0 then
          saved ← kernel errno; kernel (close_if_open fence) ;; kernel (fail_with saved)
        else mret 0
    | Modifier.ROUTE_GPU_REPACK_LINEAR =>
        match nr_gpu_repack with
        | None => kernel (fail_with ENOTSUP)
        | Some repack =>
            fence ← kernel (export_implicit_read_fence prime);
            if fence <? 0 then prepare_failed fence (-1) (-1) blank_descriptor
            else
              '(done, converted, converted_acquire, source_release) ← kernel (repack prime fence);
              if done <? 0 then prepare_failed fence converted_acquire source_release converted
              else
                kernel (sys_close fence) ;;
                adopt_converted c s converted converted_acquire source_release
        end
    | _ => kernel (fail_with ENOTSUP)
    end.

(** *** Submission *)

(** The picture is over. *)
Definition drop_picture (c : nat) (status : va_status) : St world va_status :=
  enc_update (on_context c (fun x => put_picture false VA_INVALID_SURFACE (en_frame x) x)) ;;
  mret status.

(** [return status_from_errno(errno)] *)
Definition drop_with_errno (c : nat) : St world va_status :=
  e ← kernel errno; drop_picture c (status_from_errno e).

Definition coded_refused (context_id : Z) (buffer : enc_buffer) : bool :=
  negb (bu_owner_context buffer =? context_id) ||
  negb (buffer_type_is (bu_type buffer) VAEncCodedBufferType) ||
  bu_mapped buffer || negb (bu_pending_surface buffer =? VA_INVALID_SURFACE).

(** The session of a context, opened when it has none; the status that refuses. *)
Definition ensure_session (c : nat) : St world (option va_status) :=
  r ← encode_tables;
  let context := context_at r c in
  let frame := en_frame context in
  if negb (en_broker_open context) then
    '(opened, b) ← advc_vaapi_encode_broker_open (en_broker context) (er_socket_path r) (fp_codec frame)
                     (en_encode_profile context) (en_width context) (en_height context)
                     (fp_bitrate frame) (fp_framerate_milli frame);
    if opened <? 0 then
      e ← kernel errno;
      enc_update (on_context c (fun x => put_broker b false (en_broker_frame_session x) x)) ;;
      mret (Some (status_from_errno e))
    else
      enc_update (on_context c (fun x =>
        put_eos false fresh_state (put_broker b true frame_session_mode x))) ;;
      mret None
  else
    let config := bk_config (en_broker context) in
    mret (if negb (sc_bitrate config =? fp_bitrate frame) ||
             negb (sc_framerate_milli config =? fp_framerate_milli frame)
          then Some VA_STATUS_ERROR_ATTR_NOT_SUPPORTED else None).

(** The fence of the application's last write, if the surface was exported for
    writing; the status that refuses. *)
Definition take_write_fence (s : nat) : St world (option va_status) :=
  r ← encode_tables;
  let surface := surface_at r s in
  if negb (es_write_exported surface) then mret None
  else
    fence ← kernel (export_implicit_read_fence (es_prime surface));
    done ← (if fence <? 0 then mret (-1) else set_link_fence s fence);
    if done <? 0 then
      saved ← kernel errno;
      kernel (close_if_open fence) ;;
      enc_update (on_surface s (put_state ENCODE_SURFACE_ERROR)) ;;
      mret (Some (status_from_errno saved))
    else enc_update (on_surface s (put_write_exported false)) ;; mret None.

Definition register_surface (c s : nat) : St world Z :=
  r ← encode_tables;
  let surface := surface_at r s in
  if lk_registered (es_link surface) then mret 0
  else
    '(done, link) ← advc_vaapi_encode_surface_link_register (es_link surface) (link_descriptor surface)
                      (en_broker (context_at r c));
    enc_update (on_surface s (put_link (fun _ => link))) ;;
    mret done.

Definition submit_surface (c s : nat) (pts_ns : Z) : St world Z :=
  r ← encode_tables;
  if pts_ns =? UINT64_MAX then mret (-1)
  else
    '(done, link) ← advc_vaapi_encode_surface_link_submit (es_link (surface_at r s))
                      (link_descriptor (surface_at r s)) (en_broker (context_at r c)) pts_ns;
    enc_update (on_surface s (put_link (fun _ => link))) ;;
    mret done.

Definition count_submit (n : counters) : counters :=
  Counters (ct_cpu_pixel_copies n) (ct_writable_prime_exports n) (u64 (ct_gpu_conversion_submits n + 1))
    (ct_gpu_modifier_repack_submits n) 0 0.

(** The submission is recorded. *)
Definition record_submission (c s k : nat) (pts_ns : Z) : St world unit :=
  r ← encode_tables;
  let context := context_at r c in
  advc_vaapi_encode_coded_output_close (bu_output (buffer_at r k)) ;;
  enc_update (on_buffer k (fun u => put_pending (en_target context) (put_output zero_output u))) ;;
  enc_update (on_surface s (fun x =>
    put_progress (Progress ENCODE_SURFACE_PENDING (es_owner_context x) (fp_coded_buffer (en_frame context))
      pts_ns (en_frame_index context)) x)) ;;
  enc_update (on_context c (fun x =>
    put_picture false VA_INVALID_SURFACE (en_frame x)
      (put_submitted (u64 (en_frame_index x + 1)) pts_ns
        (put_pending_count (u32 (en_pending_count x + 1)) x)))).

(** The submission failed. *)
Definition submission_failed (c s : nat) : St world va_status :=
  e ← kernel errno;
  enc_update (on_surface s (put_state ENCODE_SURFACE_ERROR)) ;;
  drop_picture c (status_from_errno e).

(** From the session on. *)
Definition submit_picture (context_id : Z) (c s k : nat) : St world va_status :=
  r ← encode_tables;
  (if es_owner_context (surface_at r s) =? 0
   then enc_update (on_surface s (fun x => put_owner context_id (pg_coded_buffer (es_progress x)) x))
   else mret tt) ;;
  r ← encode_tables;
  if negb (es_owner_context (surface_at r s) =? context_id) then drop_picture c VA_STATUS_ERROR_SURFACE_BUSY
  else
    prepared ← prepare_encode_input c s;
    if prepared <? 0 then drop_with_errno c
    else
      fenced ← take_write_fence s;
      match fenced with
      | Some status => drop_picture c status
      | None =>
          registered ← register_surface c s;
          if registered <? 0 then drop_with_errno c
          else
            r ← encode_tables;
            let pts_ns := frame_pts_ns (en_frame_index (context_at r c))
                            (fp_framerate_milli (en_frame (context_at r c))) in
            submitted ← submit_surface c s pts_ns;
            if submitted <? 0 then submission_failed c s
            else
              enc_update (on_surface s (put_counters count_submit)) ;;
              r ← encode_tables;
              signalled ← (if frame_session_mode
                           then advc_vaapi_encode_broker_signal_eos (en_broker (context_at r c)) pts_ns
                           else mret 0);
              if signalled <? 0 then submission_failed c s
              else record_submission c s k pts_ns ;; mret VA_STATUS_SUCCESS
      end.

Definition advc_vaapi_encode_end_picture (context_id : Z) : St world va_status :=
  r ← encode_tables;
  match get_context r context_id with
  | None => mret VA_STATUS_ERROR_INVALID_CONTEXT
  | Some c =>
      let context := context_at r c in
      if negb (en_picture_active context) then mret VA_STATUS_ERROR_OPERATION_FAILED
      else
        match get_surface r (en_target context) with
        | None => drop_picture c VA_STATUS_ERROR_INVALID_SURFACE
        | Some s =>
            if negb (advc_vaapi_encode_frame_validate (en_frame context))
            then drop_picture c VA_STATUS_ERROR_INVALID_PARAMETER
            else
              match get_buffer r (fp_coded_buffer (en_frame context)) with
              | None => drop_picture c VA_STATUS_ERROR_INVALID_BUFFER
              | Some k =>
                  if coded_refused context_id (buffer_at r k)
                  then drop_picture c VA_STATUS_ERROR_INVALID_BUFFER
                  else
                    refused ← ensure_session c;
                    match refused with
                    | Some status => drop_picture c status
                    | None => submit_picture context_id c s k
                    end
              end
        end
  end.

(** ** Waiting *)

Definition advc_vaapi_encode_sync_surface (surface_id timeout_ns : Z) : St world va_status :=
  r ← encode_tables;
  match get_surface r surface_id with
  | None => mret VA_STATUS_ERROR_INVALID_SURFACE
  | Some s => sync_surface_locked s (timeout_ns_to_ms timeout_ns)
  end.

Definition advc_vaapi_encode_sync_buffer (buffer_id timeout_ns : Z) : St world va_status :=
  r ← encode_tables;
  match get_buffer r buffer_id with
  | None => mret VA_STATUS_ERROR_INVALID_BUFFER
  | Some k =>
      if negb (buffer_type_is (bu_type (buffer_at r k)) VAEncCodedBufferType)
      then mret VA_STATUS_ERROR_INVALID_BUFFER
      else if bu_pending_surface (buffer_at r k) =? VA_INVALID_SURFACE then mret VA_STATUS_SUCCESS
      else
        match get_surface r (bu_pending_surface (buffer_at r k)) with
        | None => mret VA_STATUS_ERROR_ENCODING_ERROR
        | Some s => sync_surface_locked s (timeout_ns_to_ms timeout_ns)
        end
  end.

Inductive va_surface_status := VASurfaceRendering | VASurfaceReady | VASurfaceSkipped.

Definition advc_vaapi_encode_query_surface_status (surface_id : Z)
    : St world (va_status * option va_surface_status) :=
  r ← encode_tables;
  mret match get_surface r surface_id with
       | None => (VA_STATUS_ERROR_INVALID_SURFACE, None)
       | Some s =>
           (VA_STATUS_SUCCESS,
            Some match es_state (surface_at r s) with
                 | ENCODE_SURFACE_PENDING => VASurfaceRendering
                 | ENCODE_SURFACE_ERROR => VASurfaceSkipped
                 | _ => VASurfaceReady
                 end)
       end.

(** ** Export *)

Definition count_write_export (n : counters) : counters :=
  Counters (ct_cpu_pixel_copies n) (u64 (ct_writable_prime_exports n + 1)) (ct_gpu_conversion_submits n)
    (ct_gpu_modifier_repack_submits n) (ct_pending_cpu_pixel_copies n)
    (u32 (ct_pending_writable_prime_exports n + 1)).

(** May the surface be exported with this access?  The status that refuses. *)
Definition export_access_refused (s : nat) (access : Z) : St world (option va_status) :=
  r ← encode_tables;
  if access =? VA_EXPORT_SURFACE_WRITE_ONLY then
    if negb (er_write_export_ready r) || state_is (es_state (surface_at r s)) ENCODE_SURFACE_ERROR
    then mret (Some VA_STATUS_ERROR_OPERATION_FAILED)
    else
      fence ← kernel (export_implicit_read_fence (es_prime (surface_at r s)));
      if fence <? 0 then e ← kernel errno; mret (Some (status_from_errno e))
      else kernel (sys_close fence) ;; mret None
  else
    mret (if access =? VA_EXPORT_SURFACE_READ_ONLY then None else Some VA_STATUS_ERROR_INVALID_PARAMETER).

(** The status, and the application's descriptor. *)
Definition advc_vaapi_encode_export_surface (surface_id mem_type flags : Z) (old : prime_surface)
    : St world (va_status * prime_surface) :=
  let access := Z.land flags VA_EXPORT_SURFACE_READ_WRITE in
  if negb (mem_type =? VA_SURFACE_ATTRIB_MEM_TYPE_DRM_PRIME_2)
  then mret (VA_STATUS_ERROR_UNSUPPORTED_MEMORY_TYPE, old)
  else
    r ← encode_tables;
    match get_surface r surface_id with
    | None => mret (VA_STATUS_ERROR_INVALID_SURFACE, old)
    | Some s =>
        status ← (if state_is (es_state (surface_at r s)) ENCODE_SURFACE_PENDING
                  then sync_surface_locked s ADVC_VAAPI_IMAGE_SYNC_TIMEOUT_MS else mret VA_STATUS_SUCCESS);
        if negb (bool_decide (status = VA_STATUS_SUCCESS)) then mret (status, old)
        else
          refused ← export_access_refused s access;
          match refused with
          | Some status => mret (status, old)
          | None =>
              r ← encode_tables;
              '(status, prime) ← kernel (advc_vaapi_prime_export_nv12 (es_prime (surface_at r s)) (-1) flags old);
              (if bool_decide (status = VA_STATUS_SUCCESS) && (access =? VA_EXPORT_SURFACE_WRITE_ONLY)
               then enc_update (on_surface s (fun x =>
                      put_counters count_write_export (put_write_exported true x)))
               else mret tt) ;;
              mret (status, prime)
          end
    end.

(** The status and the four counters. *)
Definition advc_vaapi_encode_query_surface_accounting (surface_id : Z)
    : St world (va_status * option (Z * Z * Z * Z)) :=
  r ← encode_tables;
  mret match get_surface r surface_id with
       | None => (VA_STATUS_ERROR_INVALID_SURFACE, None)
       | Some s =>
           let n := es_counters (surface_at r s) in
           (VA_STATUS_SUCCESS,
            Some (ct_cpu_pixel_copies n, ct_writable_prime_exports n, ct_gpu_conversion_submits n,
                  ct_gpu_modifier_repack_submits n))
       end.

End Runtime.
