(* ===== verification/Image.v ===== *)
(** * Images (src/src/vaapi_advc/advc_vaapi_image.c)

    The image table: images with memory of their own, images derived from a surface,
    mapping and unmapping their buffers, and [advc_vaapi_image_put], which copies a
    rectangle of an image into the dma-buf of a surface.  The callbacks the code gets
    from the encode runtime are the record [image_ops]; [encode_image_ops] are the
    ones it gets.  The end of the encode runtime is here too.

    The copy is a function on the bytes of the dma-bufs; it is [None] where the code
    accesses memory outside of the image or of a mapping. *)

From stdpp Require Import base list gmap.
From Stdlib Require Import ZArith Lia Bool String.
#[local] Notation length := List.length.
From S2P Require Import Prelude Kernel Protocol Dmabuf Engine Broker Client ClientConnect World EncodeEos VaapiRoutes VaapiPolicy Va EncodeParams EncodeState EncodeWorld EncodeBroker EncodeLink EncodeSync EncodeRuntime.
Notation world := (world_of driver_state).

Definition UINT16_MAX : Z := 65535.
Definition DMA_BUF_SYNC_RW : Z := 3.
Definition DMA_BUF_SYNC_START : Z := 0.
Definition DMA_BUF_SYNC_END : Z := 4.

(** [struct advc_vaapi_image_surface_ops]; [None] is NULL. *)
Record image_ops := ImageOps {
  io_acquire_surface : option (Z -> surface_access -> St world (va_status * advc_dmabuf_descriptor * Z));
  io_release_surface : option (Z -> surface_access -> bool -> St world unit);
  io_dma_buf_sync : option (Z -> Z -> St world Z);
  io_wait_fence : option (Z -> Z -> St world Z) }.

(** ** The copy *)

(** [n] bytes at [off]. *)
Definition load (bytes : list Z) (off n : Z) : option (list Z) :=
  if (0 <=? off) && (off + n <=? zlen bytes) then Some (take (Z.to_nat n) (drop (Z.to_nat off) bytes)) else None.
Definition store (bytes : list Z) (off : Z) (new : list Z) : option (list Z) :=
  if (0 <=? off) && (off + zlen new <=? zlen bytes) then Some (list_inserts (Z.to_nat off) new bytes) else None.

(** The bytes of a shared mapping are those of the dma-buf. *)
Definition store_at (maps : gmap Z mapping) (address off : Z) (new : list Z) (memory : gmap Z (list Z))
    : option (gmap Z (list Z)) :=
  match maps !! address with
  | Some (SharedMapping inode n) =>
      if n <? off + zlen new then None
      else bytes ← memory !! inode; bytes ← store bytes off new; Some (<[inode := bytes]> memory)
  | _ => None
  end.

Fixpoint interleave (u v : list Z) : list Z :=
  match u, v with
  | a :: u, b :: v => a :: b :: interleave u v
  | _, _ => []
  end.

(** [for (row = 0; row < n; ++row)] *)
Fixpoint copy_rows (n : nat) (row : Z) (step : Z -> gmap Z (list Z) -> option (gmap Z (list Z)))
    (memory : gmap Z (list Z)) : option (gmap Z (list Z)) :=
  match n with
  | O => Some memory
  | S n => memory ← step row memory; copy_rows n (row + 1) step memory
  end.

(** Where row [y] of plane [p] of an image starts at column [x]. *)
Definition image_at_row (info : va_image) (p : nat) (y x : Z) : Z :=
  default 0 (vi_offsets info !! p) + y * default 0 (vi_pitches info !! p) + x.
Definition surface_at_row (d : advc_dmabuf_descriptor) (p y x : Z) : Z :=
  p_offset (plane_at d p) + y * p_pitch (plane_at d p) + x.

(** A row of interleaved chroma bytes: as the image has it, or from its two planes. *)
Definition chroma_row (heap : list Z) (info : va_image) (src_x y width : Z) : option (list Z) :=
  if vi_fourcc info =? VA_FOURCC_NV12 then load heap (image_at_row info 1 y src_x) width
  else
    u ← load heap (image_at_row info 1 y (src_x / 2)) (width / 2);
    v ← load heap (image_at_row info 2 y (src_x / 2)) (width / 2);
    Some (interleave u v).

(** [addresses]: where the objects of the destination are mapped. *)
Definition copy_image_to_nv12 (maps : gmap Z mapping) (heap : list Z) (info : va_image)
    (src_x src_y width height : Z) (d : advc_dmabuf_descriptor) (dst_x dst_y : Z) (addresses : list Z)
    (memory : gmap Z (list Z)) : option (gmap Z (list Z)) :=
  let base p := default 0 (addresses !! Z.to_nat (p_object_index (plane_at d p))) in
  let put p row y new := store_at maps (base p) (surface_at_row d p (y + row) dst_x) new in
  memory ← copy_rows (Z.to_nat height) 0 (fun row memory =>
             new ← load heap (image_at_row info 0 (src_y + row) src_x) width;
             put 0 row dst_y new memory) memory;
  copy_rows (Z.to_nat (height / 2)) 0 (fun row memory =>
    new ← chroma_row heap info src_x (src_y / 2 + row) width;
    put 1 row (dst_y / 2) new memory) memory.

Section Images.
Context (ops : image_ops).

Definition runtime_wait_fence (fd : Z) : St world Z :=
  if fd <? 0 then mret 0
  else match io_wait_fence ops with
       | Some wait => wait fd ADVC_VAAPI_IMAGE_SYNC_TIMEOUT_MS
       | None => kernel (advc_vaapi_wait_sync_file fd ADVC_VAAPI_IMAGE_SYNC_TIMEOUT_MS)
       end.

Definition runtime_dma_sync (fd flags : Z) : St world Z :=
  match io_dma_buf_sync ops with
  | Some sync => sync fd flags
  | None => kernel (dma_buf_ioctl fd)
  end.

Definition release_to_owner (id : Z) (access : surface_access) (succeeded : bool) : St world unit :=
  match io_release_surface ops with Some release => release id access succeeded | None => mret tt end.

(** ** Slots *)

Definition advc_vaapi_image_query_formats : list Z := [VA_FOURCC_NV12; VA_FOURCC_I420].

Definition put_mapping (mapped : bool) (address : Z) (m : image_slot) : image_slot :=
  ImageSlot (im_used m) mapped (im_derived m) (im_info m) (im_heap m) (im_prime m) (im_derived_surface m)
    (im_acquire_fence_fd m) address.
Definition put_image_fence (fd : Z) (m : image_slot) : image_slot :=
  ImageSlot (im_used m) (im_mapped m) (im_derived m) (im_info m) (im_heap m) (im_prime m)
    (im_derived_surface m) fd (im_mapping m).
Definition image_fd (m : image_slot) : Z := o_fd (object_at (im_prime m) 0).

(** A mapped derived image has a mapping. *)
Definition unmap_slot (i : nat) : St world unit :=
  r ← image_tables;
  let slot := image_at r i in
  if negb (im_mapped slot) then mret tt
  else
    (if im_derived slot then
       runtime_dma_sync (image_fd slot) (Z.lor DMA_BUF_SYNC_END DMA_BUF_SYNC_RW) ;;
       if negb (im_mapping slot =? 0) && negb (im_mapping slot =? -1)
       then sys_munmap (im_mapping slot) ;; mret tt else mret tt
     else mret tt) ;;
    image_update (on_image i (put_mapping false 0)).

(** [memset; acquire_fence_fd = -1] *)
Definition cleared_image : image_slot :=
  ImageSlot false false false zero_image_info None zero_descriptor 0 (-1) 0.

Definition destroy_slot (i : nat) : St world unit :=
  unmap_slot i ;;
  r ← image_tables;
  let slot := image_at r i in
  kernel (close_if_open (im_acquire_fence_fd slot)) ;;
  kernel (advc_dmabuf_descriptor_close (im_prime slot)) ;;
  image_update (on_image i (fun _ => cleared_image)) ;;
  if im_derived slot then release_to_owner (im_derived_surface slot) ACCESS_READ_WRITE true else mret tt.

Definition all_images : list nat := seq 0 (Z.to_nat ADVC_VAAPI_IMAGE_SLOTS).

Definition advc_vaapi_image_runtime_destroy : St world unit :=
  for_each all_images (fun i =>
    r ← image_tables; if im_used (image_at r i) then destroy_slot i else mret tt).

(** ** Creation *)

(** The image of a width and a height: its planes, one after the other. *)
Definition own_image (i : nat) (fourcc width height : Z) : va_image :=
  let y_size := width * height in
  let chroma_size := width / 2 * (height / 2) in
  let total := y_size + chroma_size * 2 in
  if fourcc =? VA_FOURCC_NV12 then
    VaImage (make_id ADVC_VAAPI_IMAGE_ID_TYPE i) (make_id ADVC_VAAPI_IMAGE_BUFFER_ID_TYPE i) fourcc width
      height total [width; width] [0; y_size]
  else
    VaImage (make_id ADVC_VAAPI_IMAGE_ID_TYPE i) (make_id ADVC_VAAPI_IMAGE_BUFFER_ID_TYPE i) fourcc width
      height total [width; width / 2; width / 2] [0; y_size; y_size + chroma_size].

(** The status and the image. *)
Definition advc_vaapi_image_create (fourcc width height : Z) : St world (va_status * option va_image) :=
  if (width <=? 0) || (height <=? 0) || (UINT16_MAX <? width) || (UINT16_MAX <? height) ||
     negb (Z.land width 1 =? 0) || negb (Z.land height 1 =? 0) ||
     (negb (fourcc =? VA_FOURCC_NV12) && negb (fourcc =? VA_FOURCC_I420))
  then mret (VA_STATUS_ERROR_INVALID_IMAGE_FORMAT, None)
  else
    let total := width * height + width / 2 * (height / 2) * 2 in
    if UINT32_MAX <? total then mret (VA_STATUS_ERROR_RESOLUTION_NOT_SUPPORTED, None)
    else
      r ← image_tables;
      match first_slot (fun m => negb (im_used m)) (ir_images r) with
      | None => mret (VA_STATUS_ERROR_MAX_NUM_EXCEEDED, None)
      | Some i =>
          a ← kernel sys_alloc;
          if negb a then
            image_update (on_image i (fun _ => ImageSlot false false false zero_image_info None
                                                blank_descriptor 0 (-1) 0)) ;;
            mret (VA_STATUS_ERROR_ALLOCATION_FAILED, None)
          else
            let info := own_image i fourcc width height in
            image_update (on_image i (fun _ => ImageSlot true false false info (Some (zeros total))
                                                blank_descriptor 0 (-1) 0)) ;;
            mret (VA_STATUS_SUCCESS, Some info)
      end.

(** The layout a derived image can show. *)
Definition derivable (d : advc_dmabuf_descriptor) : bool :=
  (p_object_index (plane_at d 0) =? 0) && (p_object_index (plane_at d 1) =? 0) &&
  (o_size (object_at d 0) <=? UINT32_MAX) && (p_offset (plane_at d 0) <=? UINT32_MAX) &&
  (p_offset (plane_at d 1) <=? UINT32_MAX) && (d_width d <=? UINT16_MAX) && (d_height d <=? UINT16_MAX).

Definition derived_image (i : nat) (d : advc_dmabuf_descriptor) : va_image :=
  VaImage (make_id ADVC_VAAPI_IMAGE_ID_TYPE i) (make_id ADVC_VAAPI_IMAGE_BUFFER_ID_TYPE i) VA_FOURCC_NV12
    (d_width d) (d_height d) (o_size (object_at d 0)) [p_pitch (plane_at d 0); p_pitch (plane_at d 1)]
    [p_offset (plane_at d 0); p_offset (plane_at d 1)].

Definition advc_vaapi_image_derive (surface : Z) : St world (va_status * option va_image) :=
  match io_acquire_surface ops with
  | None => mret (VA_STATUS_ERROR_INVALID_PARAMETER, None)
  | Some acquire =>
      '(status, d, fence) ← acquire surface ACCESS_READ_WRITE;
      if negb (bool_decide (status = VA_STATUS_SUCCESS)) then
        kernel (close_if_open fence) ;; kernel (advc_dmabuf_descriptor_close d) ;; mret (status, None)
      else
        let fail status : St world (va_status * option va_image) :=
          kernel (close_if_open fence) ;; kernel (advc_dmabuf_descriptor_close d) ;;
          release_to_owner surface ACCESS_READ_WRITE false ;; mret (status, None) in
        ok ← (if fence <? -1 then mret false
              else v ← kernel (validate_linear_nv12 d true); mret ((v =? 0) && derivable d));
        if negb ok then fail VA_STATUS_ERROR_UNSUPPORTED_RT_FORMAT
        else
          r ← image_tables;
          match first_slot (fun m => negb (im_used m)) (ir_images r) with
          | None => fail VA_STATUS_ERROR_MAX_NUM_EXCEEDED
          | Some i =>
              let info := derived_image i d in
              image_update (on_image i (fun _ => ImageSlot true false true info None d surface fence 0)) ;;
              mret (VA_STATUS_SUCCESS, Some info)
          end
  end.

Definition advc_vaapi_image_destroy (image : Z) : St world va_status :=
  r ← image_tables;
  match find_image r image with
  | None => mret VA_STATUS_ERROR_INVALID_IMAGE
  | Some i => destroy_slot i ;; mret VA_STATUS_SUCCESS
  end.

Definition advc_vaapi_image_owns_buffer (buffer : Z) : St world bool :=
  r ← image_tables; mret (bool_decide (is_Some (find_buffer r buffer))).

(** ** Mapping *)

(** What [*mapped] points at: the image's memory, or a mapping. *)
Inductive image_pointer := HeapOf (i : nat) | MappedAt (address : Z).

Definition advc_vaapi_image_map_buffer (buffer : Z) : St world (va_status * option image_pointer) :=
  let refuse status : St world (va_status * option image_pointer) := mret (status, None) in
  let refuse_errno : St world (va_status * option image_pointer) :=
    e ← kernel errno; refuse (image_status_from_errno e) in
  r ← image_tables;
  match find_buffer r buffer with
  | None => refuse VA_STATUS_ERROR_INVALID_BUFFER
  | Some i =>
      let slot := image_at r i in
      if im_mapped slot then refuse VA_STATUS_ERROR_SURFACE_BUSY
      else if negb (im_derived slot) then
        image_update (on_image i (put_mapping true 0)) ;; mret (VA_STATUS_SUCCESS, Some (HeapOf i))
      else
        waited ← (if 0 <=? im_acquire_fence_fd slot then
                    w ← runtime_wait_fence (im_acquire_fence_fd slot);
                    if w <? 0 then mret (-1)
                    else
                      kernel (sys_close (im_acquire_fence_fd slot)) ;;
                      image_update (on_image i (put_image_fence (-1))) ;; mret 0
                  else mret 0);
        if waited <? 0 then refuse_errno
        else
          synced ← runtime_dma_sync (image_fd slot) (Z.lor DMA_BUF_SYNC_START DMA_BUF_SYNC_RW);
          if synced <? 0 then refuse_errno
          else
            address ← sys_mmap true (image_fd slot) (o_size (object_at (im_prime slot) 0));
            if address =? -1 then
              e ← kernel errno;
              runtime_dma_sync (image_fd slot) (Z.lor DMA_BUF_SYNC_END DMA_BUF_SYNC_RW) ;;
              image_update (on_image i (put_mapping false 0)) ;;
              refuse (image_status_from_errno e)
            else
              image_update (on_image i (put_mapping true address)) ;;
              mret (VA_STATUS_SUCCESS, Some (MappedAt address))
  end.

Definition advc_vaapi_image_unmap_buffer (buffer : Z) : St world va_status :=
  r ← image_tables;
  match find_buffer r buffer with
  | None => mret VA_STATUS_ERROR_INVALID_BUFFER
  | Some i =>
      let slot := image_at r i in
      if negb (im_mapped slot) then mret VA_STATUS_ERROR_INVALID_PARAMETER
      else
        error ← (if im_derived slot then
                   unmapped ← sys_munmap (im_mapping slot);
                   e1 ← (if unmapped <? 0 then kernel errno else mret 0);
                   synced ← runtime_dma_sync (image_fd slot) (Z.lor DMA_BUF_SYNC_END DMA_BUF_SYNC_RW);
                   if (synced <? 0) && (e1 =? 0) then kernel errno else mret e1
                 else mret 0);
        image_update (on_image i (put_mapping false 0)) ;;
        mret (if error =? 0 then VA_STATUS_SUCCESS else image_status_from_errno error)
  end.

(** *** The objects of a destination *)

(** Undo the mappings [addresses] of the first objects, and the first [synced]
    synchronisations. *)
Definition undo_maps (d : advc_dmabuf_descriptor) (addresses : list Z) (synced : nat) : St world unit :=
  for_each (seq 0 synced) (fun i =>
    match addresses !! i with Some a => sys_munmap a ;; mret tt | None => mret tt end ;;
    runtime_dma_sync (o_fd (object_at d (Z.of_nat i))) (Z.lor DMA_BUF_SYNC_END DMA_BUF_SYNC_RW) ;;
    mret tt).

Definition maps_failed (d : advc_dmabuf_descriptor) (addresses : list Z) (synced : nat) : St world (option (list Z)) :=
  saved ← kernel errno;
  undo_maps d addresses synced ;;
  kernel (errno_is saved) ;;
  mret None.

(** The objects from the [length addresses]-th on; [None]: the function returns -1. *)
Fixpoint begin_maps (n : nat) (d : advc_dmabuf_descriptor) (addresses : list Z) : St world (option (list Z)) :=
  match n with
  | O => mret (Some addresses)
  | S n =>
      let o := object_at d (Z.of_nat (length addresses)) in
      synced ← runtime_dma_sync (o_fd o) (Z.lor DMA_BUF_SYNC_START DMA_BUF_SYNC_RW);
      if synced <? 0 then maps_failed d addresses (length addresses)
      else
        a ← sys_mmap true (o_fd o) (o_size o);
        if a =? -1 then maps_failed d addresses (S (length addresses))
        else begin_maps n d (addresses ++ [a])
  end.
Definition begin_object_maps (d : advc_dmabuf_descriptor) : St world (option (list Z)) :=
  begin_maps (Z.to_nat (d_object_count d)) d [].

(** The first error, from object [i] on. *)
Fixpoint end_maps (d : advc_dmabuf_descriptor) (addresses : list Z) (i : Z) (error : Z) : St world Z :=
  match addresses with
  | [] => mret error
  | a :: addresses =>
      unmapped ← sys_munmap a;
      error ← (if (unmapped <? 0) && (error =? 0) then kernel errno else mret error);
      synced ← runtime_dma_sync (o_fd (object_at d i)) (Z.lor DMA_BUF_SYNC_END DMA_BUF_SYNC_RW);
      error ← (if (synced <? 0) && (error =? 0) then kernel errno else mret error);
      end_maps d addresses (i + 1) error
  end.
Definition end_object_maps (d : advc_dmabuf_descriptor) (addresses : list Z) : St world Z :=
  error ← end_maps d addresses 0 0;
  if error =? 0 then mret 0 else kernel (fail_with error).

(** ** The upload *)

Definition put_refused (src_x src_y src_width src_height dst_x dst_y dst_width dst_height : Z) : bool :=
  (src_x <? 0) || (src_y <? 0) || (dst_x <? 0) || (dst_y <? 0) || (src_width =? 0) || (src_height =? 0) ||
  negb (src_width =? dst_width) || negb (src_height =? dst_height) || negb (Z.land src_x 1 =? 0) ||
  negb (Z.land src_y 1 =? 0) || negb (Z.land dst_x 1 =? 0) || negb (Z.land dst_y 1 =? 0) ||
  negb (Z.land src_width 1 =? 0) || negb (Z.land src_height 1 =? 0).

(** The mapped destination is written: the status, or [None]. *)
Definition upload (i : nat) (src_x src_y width height : Z) (d : advc_dmabuf_descriptor) (dst_x dst_y : Z)
    : St world (option va_status) :=
  maps ← begin_object_maps d;
  match maps with
  | None => e ← kernel errno; mret (Some (image_status_from_errno e))
  | Some addresses =>
      s ← the_runtime;
      let slot := image_at (ds_images s) i in
      match im_heap slot with
      | None =>
          end_object_maps d addresses ;; mret (Some (image_status_from_errno EINVAL))
      | Some heap =>
          match copy_image_to_nv12 (ds_maps s) heap (im_info slot) src_x src_y width height d dst_x dst_y
                  addresses (ds_memory s) with
          | None => mret None
          | Some memory =>
              update (fun s => put_memory memory (ds_next_inode s) s) ;;
              ended ← end_object_maps d addresses;
              if ended <? 0 then e ← kernel errno; mret (Some (image_status_from_errno e))
              else
                image_update (fun r => ImageRuntime (u64 (ir_cpu_pixel_copy_count r + 1)) (ir_images r)) ;;
                mret (Some VA_STATUS_SUCCESS)
          end
      end
  end.

(** With the destination acquired. *)
Definition put_acquired (i : nat) (src_x src_y width height : Z) (d : advc_dmabuf_descriptor) (fence : Z)
    (dst_x dst_y : Z) : St world (option va_status) :=
  ok ← (if fence <? -1 then mret false
        else v ← kernel (validate_linear_nv12 d false);
             mret ((v =? 0) && (dst_x + width <=? d_width d) && (dst_y + height <=? d_height d)));
  if negb ok then mret (Some VA_STATUS_ERROR_UNSUPPORTED_RT_FORMAT)
  else
    waited ← (if 0 <=? fence then runtime_wait_fence fence else mret 0);
    if waited <? 0 then e ← kernel errno; mret (Some (image_status_from_errno e))
    else upload i src_x src_y width height d dst_x dst_y.

(** [None]: the code accesses memory outside of the image or of a mapping. *)
Definition advc_vaapi_image_put (surface image src_x src_y src_width src_height dst_x dst_y dst_width
    dst_height : Z) : St world (option va_status) :=
  match io_acquire_surface ops with
  | None => mret (Some VA_STATUS_ERROR_INVALID_PARAMETER)
  | Some acquire =>
      if put_refused src_x src_y src_width src_height dst_x dst_y dst_width dst_height
      then mret (Some VA_STATUS_ERROR_INVALID_PARAMETER)
      else
        r ← image_tables;
        match find_image r image with
        | None => mret (Some VA_STATUS_ERROR_INVALID_IMAGE)
        | Some i =>
            let slot := image_at r i in
            if im_derived slot || im_mapped slot || (vi_width (im_info slot) <? src_x + src_width) ||
               (vi_height (im_info slot) <? src_y + src_height)
            then mret (Some (if im_mapped slot then VA_STATUS_ERROR_SURFACE_BUSY
                             else VA_STATUS_ERROR_INVALID_PARAMETER))
            else
              '(status, d, fence) ← acquire surface ACCESS_WRITE;
              if negb (bool_decide (status = VA_STATUS_SUCCESS)) then
                kernel (close_if_open fence) ;; kernel (advc_dmabuf_descriptor_close d) ;;
                mret (Some status)
              else
                x ← put_acquired i src_x src_y src_width src_height d fence dst_x dst_y;
                match x with
                | None => mret None
                | Some status =>
                    kernel (close_if_open fence) ;;
                    kernel (advc_dmabuf_descriptor_close d) ;;
                    release_to_owner surface ACCESS_WRITE (bool_decide (status = VA_STATUS_SUCCESS)) ;;
                    mret (Some status)
                end
        end
  end.

Definition advc_vaapi_image_cpu_pixel_copy_count : St world Z :=
  r ← image_tables; mret (ir_cpu_pixel_copy_count r).

End Images.

(** ** The encode runtime's images *)

Section Destroy.
Context {nr : encoder}.

Definition encode_image_ops : image_ops :=
  ImageOps (Some image_acquire_surface) (Some image_release_surface) None None.

Definition advc_vaapi_encode_runtime_destroy : St world unit :=
  advc_vaapi_image_runtime_destroy encode_image_ops ;;
  for_each (seq 0 (Z.to_nat ADVC_ENCODE_CONTEXT_SLOTS)) (fun c =>
    r ← encode_tables;
    if en_used (context_at r c) then finish_context_locked c ;; close_context_locked c else mret tt) ;;
  for_each (seq 0 (Z.to_nat ADVC_ENCODE_BUFFER_SLOTS)) (fun k =>
    r ← encode_tables; advc_vaapi_encode_coded_output_close (bu_output (buffer_at r k)) ;; mret tt) ;;
  for_each all_surfaces (fun s =>
    r ← encode_tables;
    kernel (advc_vaapi_encode_surface_link_close (es_link (surface_at r s))) ;;
    kernel (advc_dmabuf_descriptor_close (es_broker_prime (surface_at r s))) ;;
    kernel (advc_dmabuf_descriptor_close (es_prime (surface_at r s))) ;;
    mret tt).

End Destroy.
