(* ===== verification/EncodeScene.v ===== *)
(** * Concrete encode runtimes

    What the witnesses of the encode and image theorems run on: a layout of the
    parameter structures one byte per member, a process whose next calls succeed, and
    a driver with one surface and one image. *)

From stdpp Require Import base list gmap.
From Stdlib Require Import ZArith Lia Bool String.
#[local] Notation length := List.length.
From S2P Require Import Prelude Kernel Protocol Dmabuf Engine Broker Client ClientConnect World EncodeEos VaapiRoutes VaapiPolicy Va EncodeParams EncodeState EncodeWorld EncodeBroker EncodeLink EncodeSync EncodeRuntime Image.
Notation world := (world_of driver_state).

Definition at_byte (i : nat) (m : list Z) : Z := default 0 (m !! i).

Definition byte_abi : enc_abi :=
  EncAbi 1 1 2 1 11 3 3 12 5 3
    (fun m => if at_byte 0 m =? 0 then VAEncMiscParameterTypeRateControl
              else if at_byte 0 m =? 1 then VAEncMiscParameterTypeFrameRate
              else if at_byte 0 m =? 2 then VAEncMiscParameterTypeHRD else VAEncMiscParameterTypeOther)
    (at_byte 0) (at_byte 0)
    (fun m => H264Sequence (at_byte 0 m) (at_byte 1 m) (at_byte 2 m) (at_byte 3 m) (at_byte 4 m) (at_byte 5 m)
                (at_byte 6 m) (at_byte 7 m) (at_byte 8 m) (at_byte 9 m) (at_byte 10 m))
    (fun m => H264EncPicture (Z.lor ADVC_VAAPI_ENCODE_BUFFER_TYPE (at_byte 0 m)) (at_byte 1 m) (at_byte 2 m))
    (fun m => H264EncSlice (at_byte 0 m) (at_byte 1 m) (at_byte 2 m))
    (fun m => HevcSequence (at_byte 0 m) (at_byte 1 m) (at_byte 2 m) (at_byte 3 m) (at_byte 4 m) (at_byte 5 m)
                (at_byte 6 m) (at_byte 7 m) (at_byte 8 m) (at_byte 9 m) (at_byte 10 m) (at_byte 11 m))
    (fun m => HevcEncPicture (Z.lor ADVC_VAAPI_ENCODE_BUFFER_TYPE (at_byte 0 m)) (at_byte 1 m) (at_byte 2 m)
                (at_byte 3 m) (at_byte 4 m))
    (fun m => HevcEncSlice (at_byte 0 m) (at_byte 1 m) (at_byte 2 m)).

Definition plain_encoder : encoder := Encoder (fun _ => None) no_hooks None byte_abi.

(** A process with the files [t], and a driver on it. *)
Definition plain_process (t : gmap Z fd_info) : process :=
  Machine (Statics 5 (CEnv (5 * 10 ^ 9) [] [] (fun _ => (0, 0%N)) 0 [] ∅)) t 64 0 [] [] [] [] [].
Definition plain_world (s : driver_state) (t : gmap Z fd_info) : world :=
  World.World s (plain_process t) ∅ [] [] [] (Timing 0 0 0).
Definition plain_runtime (surfaces : list enc_surface) : enc_runtime :=
  put_surfaces (surfaces ++ replicate (64 - length surfaces) zero_surface)
    (blank_encode_runtime "/run/advc" 
      (EncodePolicy (Z.lor ADVC_VAAPI_CODEC_H264 ADVC_VAAPI_CODEC_HEVC_MAIN) 1920 1080 1920 1080 VA_RC_VBR VA_RT_FORMAT_YUV420 true)
      (Modifier.Policy Modifier.AUTO Modifier.DEFAULT) false).
Definition plain_images (images : list image_slot) : image_runtime :=
  ImageRuntime 0 (images ++ replicate (64 - length images) zero_image).

(** A linear surface of 16 by 16 whose dma-buf is the file 3, and what it holds. *)
Definition small_prime : advc_dmabuf_descriptor :=
  nv12_descriptor 7 16 16 0 (Obj 3 384 :: replicate 3 (Obj (-1) 0)) 1
    [Plane 0 0 16; Plane 0 256 16; zero_plane; zero_plane].
Definition small_surface : enc_surface :=
  EncSurface true 16 16 (Progress ENCODE_SURFACE_IDLE 0 VA_INVALID_ID 0 0) false no_counters small_prime
    blank_descriptor false false closed_link.
Definition small_files : gmap Z fd_info := {[ 0 := FdInfo true KOther; 3 := FdInfo true (KDmaBuf 9) ]}.

(** An I420 image of 4 by 4, its bytes numbered. *)
Definition small_image : image_slot :=
  ImageSlot true false false (own_image 0 VA_FOURCC_I420 4 4) (Some (map (fun i => 100 + Z.of_nat i) (seq 0 24)))
    blank_descriptor 0 (-1) 0.
Definition small_world : world :=
  plain_world (DriverState (plain_runtime [small_surface]) (plain_images [small_image]) ∅ 1
    {[ 9 := zeros 384 ]} 10) small_files.

Definition SMALL_SURFACE : Z := make_id ADVC_VAAPI_ENCODE_SURFACE_TYPE 0.
Definition SMALL_IMAGE : Z := make_id ADVC_VAAPI_IMAGE_ID_TYPE 0.
