(* ===== verification/EncodeReceive.v ===== *)
(** * Receiving coded output returns (src/src/vaapi_advc/advc_vaapi_encode.c)

    [advc_vaapi_encode_broker_receive] asks the broker for output until a frame has
    come, at most eight segments have, or its timeout has passed; its fuel is enough.
    No call to the broker moves the clock, and each pause between two of them lets at
    least a millisecond pass. *)

From stdpp Require Import base list gmap.
From Stdlib Require Import ZArith Lia Bool String.
#[local] Notation length := List.length.
From S2P Require Import Prelude Kernel Protocol Dmabuf Engine Broker Client ClientConnect World Still EncodeEos VaapiRoutes VaapiPolicy Va EncodeParams EncodeState EncodeWorld EncodeBroker EncodeLink EncodeScene.
Notation world := (world_of driver_state).

Lemma frozen_mmap s fd n : frozen (sys_mmap s fd n).
Proof. unfold sys_mmap. frozen. Qed.
Lemma frozen_munmap a : frozen (sys_munmap a).
Proof. unfold sys_munmap. frozen. Qed.
#[export] Hint Resolve frozen_mmap frozen_munmap : frozen.

Section Receive.
Context {nr : encoder}.

Lemma frozen_output_close o : frozen (output_close o).
Proof. unfold output_close. frozen. Qed.
Lemma frozen_append b o part : frozen (append_output b o part).
Proof. unfold append_output, refused. frozen. Qed.

(** ** Time *)

(** The delays timeless to come, and the clock as the code reads it. *)
Definition delay (p : poll_event) : Z :=
  Z.of_N match p with PTimeout n | PInterrupted n | PFailed _ n | PReady n _ => n end.
Definition delays (l : list poll_event) : Z := foldr (fun p n => delay p + n) 0 l.
Definition delayed (w : world) : Z := delays (ce_polls (environment w)).
Definition HORIZON : Z := 2 ^ 64 * 10 ^ 6.
Definition ms (w : world) : Z := clock w / 10 ^ 6.

Lemma delays_nonneg l : 0 <= delays l.
Proof. induction l as [|p l IH]; [done|]. change (0 <= delay p + delays l). unfold delay. lia. Qed.

Lemma ms_split n : 0 <= n < HORIZON -> u64 (u64 (n / 10 ^ 9 * 1000) + n mod 10 ^ 9 / 1000000) = n / 10 ^ 6.
Proof.
  change HORIZON with 18446744073709551616000000. change (10 ^ 9) with 1000000000. change (10 ^ 6) with 1000000. intros H.
  assert (0 <= n / 1000000 < 18446744073709551616) by (split; [apply Z.div_pos|apply Z.div_lt_upper_bound]; lia).
  pose proof (Z.div_mod n 1000000000 ltac:(lia)). pose proof (Z.mod_pos_bound n 1000000000 ltac:(lia)).
  assert (n / 1000000 = n / 1000000000 * 1000 + n mod 1000000000 / 1000000) as E.
  { rewrite <- (Z.div_add_l (n / 1000000000 * 1000) 1000000 (n mod 1000000000)) by lia. f_equal. lia. }
  assert (0 <= n mod 1000000000 / 1000000 < 1000) by (split; [apply Z.div_pos|apply Z.div_lt_upper_bound]; lia).
  assert (0 <= n / 1000000000) by (apply Z.div_pos; lia).
  unfold u64. change (2 ^ 64) with 18446744073709551616. rewrite (Z.mod_small (n / 1000000000 * 1000)) by lia. rewrite Z.mod_small by lia. lia.
Qed.

Lemma monotonic_ms_spec w : 0 <= clock w < HORIZON -> wp monotonic_ms (fun now w' =>
  (now = ms w \/ now = UINT64_MAX) /\ clock w' = clock w /\ delayed w' = delayed w) w.
Proof.
  intros H. pose proof (ms_split _ H) as E. unfold monotonic_ms, wp. rewrite st_seq.
  unfold kernel, on_environment, sys_clock, clock, delayed, environment, ms in *. cbn [m_be]. set (e := cl_user (m_be (w_m w))) in *.
  destruct (ce_clock e) as [|[] l]; cbn [fst snd mret st_ret]; (split; [first [left; exact E|by right]|done]).
Qed.

Lemma kernel_two {A C} (c : St process A) (k : A -> St process C) (P : C -> world -> Prop) w :
  wp (kernel c) (fun a w' => wp (kernel (k a)) P w') w -> wp (kernel (c ≫= k)) P w.
Proof. unfold wp, kernel. rewrite st_seq. destruct (c (w_m w)) as [a m]. cbn [fst snd w_m set_m]. by destruct (k a m). Qed.
Lemma kernel_value {A} (a : A) (P : A -> world -> Prop) w : P a w -> wp (kernel (mret a)) P w.
Proof. unfold wp, kernel. cbn. by destruct w. Qed.

(** One poll of nothing: the time passes, or it fails early. *)
Lemma poll_nothing_spec timeout w : wp (kernel (on_environment (sys_poll false timeout))) (fun x w' =>
  exists late, 0 <= late /\ delayed w = late + delayed w' /\
    ((fst x = 0 /\ clock w' = clock w + timeout * 10 ^ 6 + late /\ (length (ce_polls (environment w')) <= length (ce_polls (environment w)))%nat) \/
     (fst x = -1 /\ clock w' = clock w + late /\ (length (ce_polls (environment w')) < length (ce_polls (environment w)))%nat))) w.
Proof.
  unfold wp, kernel, on_environment, sys_poll, clock, delayed, environment. cbn [m_be].
  destruct (ce_polls (cl_user (m_be (w_m w)))) as [|p l] eqn:El.
  { exists 0. split; [done|]. cbn. rewrite El. split; [done|]. left. split_and!; [done|lia|done]. }
  exists (delay p). split; [unfold delay; lia|]. unfold delay.
  destruct p; cbn; (split; [done|]); [left|right|right|left]; (split_and!; [done|lia|lia]).
Qed.

(** [poll(NULL, 0, timeout)], repeated while interrupted. *)
Lemma pause_loop_spec fuel timeout w : (length (ce_polls (environment w)) < fuel)%nat -> 0 <= timeout ->
  wp (kernel (pause_loop fuel timeout)) (fun r w' =>
    (r = 0 /\ clock w + timeout * 10 ^ 6 <= clock w' \/ r = -1) /\ clock w <= clock w' /\
    clock w' + delayed w' <= clock w + timeout * 10 ^ 6 + delayed w /\ delayed w' <= delayed w) w.
Proof.
  revert w. induction fuel as [|fuel IH]; intros w Hf Ht; [lia|]. cbn [pause_loop].
  apply kernel_two. eapply wp_mono; [apply poll_nothing_spec|]. intros [r o] w1 (late & L0 & D1 & [(Hr & C1 & P1)|(Hr & C1 & P1)]); cbn [fst] in Hr; subst r; cbn.
  - apply kernel_value. split_and!; [left; split; [done|lia]|lia|lia|lia].
  - apply kernel_two, (wp_frozen _ _ _ (frozen_kernel _ timeless_errno)). intros e w2 E2.
    assert (clock w2 = clock w1 /\ delayed w2 = delayed w1) as [C2 D2] by (unfold clock, delayed; by rewrite E2).
    destruct (negb _).
    + apply kernel_value. split_and!; [by right|lia|lia|lia].
    + eapply wp_mono; [apply IH; [rewrite E2; lia|done]|]. intros r w3 ([[-> H1]| ->] & H2 & H3 & H4); (split_and!; [|lia|lia|lia]); [left; split; [done|lia]|by right].
Qed.

(** No clock value up to a while after the deadline wraps around. *)
Definition in_time (deadline : Z) (w : world) : Prop :=
  0 <= clock w /\ clock w + delayed w < HORIZON /\ (deadline + 2) * 10 ^ 6 + delayed w < HORIZON.

Lemma delayed_nonneg w : 0 <= delayed w.
Proof. apply delays_nonneg. Qed.

Lemma wait_retry_moves deadline w : in_time deadline w ->
  wp (wait_retry deadline) (fun r w' => r < 0 \/ (ms w < deadline /\ ms w + 1 <= ms w' /\ in_time deadline w')) w.
Proof.
  intros (H1 & H2 & H3). unfold wait_retry. pose proof (delayed_nonneg w).
  apply wp_bind. eapply wp_mono; [apply monotonic_ms_spec; lia|]. intros now w1 (Hnow & C1 & D1).
  destruct (Z.eqb_spec now UINT64_MAX) as [_|Hne]; cbn [orb]; [by left|]. destruct Hnow as [->|]; [|done].
  destruct (Z.leb_spec deadline (ms w)) as [|Hlt]; [by left|]. cbn zeta.
  set (timeout := if 2 <? deadline - ms w then 2 else deadline - ms w).
  assert (1 <= timeout <= 2) as Ht by (unfold timeout; destruct (Z.ltb_spec 2 (deadline - ms w)); lia).
  apply wp_bind, wp_gets. eapply wp_mono; [apply pause_loop_spec; [unfold environment; lia|lia]|].
  intros r w2 ([[-> Hc]| ->] & H4 & H5 & H6); [right|by left]. rewrite C1, D1 in *. clear D1.
  assert (clock w < deadline * 10 ^ 6) as Hd.
  { unfold ms in Hlt. destruct (Z.lt_ge_cases (clock w) (deadline * 10 ^ 6)) as [|Hge]; [done|].
    apply (Z.div_le_mono _ _ (10 ^ 6)) in Hge; [|lia]. rewrite Z.div_mul in Hge by lia. lia. }
  split_and!; [done| |split_and!; lia].
  unfold ms. rewrite <- (Z.div_add (clock w) 1 (10 ^ 6)) by lia. apply Z.div_le_mono; lia.
Qed.

Lemma append_output_spec b coded part w : wp (append_output b coded part) (fun x w' => environment w' = environment w /\
  (0 <= fst x -> (length (co_segments coded) < 8)%nat /\ length (co_segments (snd x)) = S (length (co_segments coded)))) w.
Proof.
  assert (forall (c : St world (Z * coded_output)), frozen c -> (forall w, 0 <= fst (fst (c w)) -> False) ->
    forall w1, environment w1 = environment w -> wp c (fun x w' => environment w' = environment w /\
      (0 <= fst x -> (length (co_segments coded) < 8)%nat /\ length (co_segments (snd x)) = S (length (co_segments coded)))) w1) as Hfail.
  { intros c Hc Hn w1 E1. split; [by rewrite frozen_env|]. intros H. by destruct (Hn w1). }
  unfold append_output. cbn zeta. destruct (_ || _) eqn:Eg; [apply Hfail; [frozen|by cbn|done]|].
  apply wp_bind, wp_frozen; [frozen|]. intros mapping w1 E1. destruct (mapping =? -1); [apply wp_ret; split; [done|cbn; lia]|].
  apply wp_bind, wp_frozen; [frozen|]. intros [status detail] w2 E2. destruct (negb (status =? ADVC_STATUS_OK)).
  - apply wp_bind, wp_frozen; [frozen|]. intros _ w3 E3. apply wp_bind.
    apply (wp_mono _ (fun r w4 => r = -1 /\ environment w4 = environment w3)).
    { split; [unfold refused; by rewrite st_seq|]. revert w3 E3. assert (frozen (refused status EIO)) as Hr by (unfold refused; frozen). intros w3 _. by apply frozen_env. }
    intros r w4 [-> E4]. apply wp_ret. split; [congruence|cbn; lia].
  - apply wp_ret. split; [congruence|]. intros _. apply orb_false_iff in Eg as [Eg _]. apply orb_false_iff in Eg as [Eg _].
    apply orb_false_iff in Eg as [Eg _]. apply Nat.leb_gt in Eg. unfold ADVC_VAAPI_ENCODE_MAX_CODED_SEGMENTS in Eg. split; [done|].
    cbn [snd co_segments]. unfold link_last. rewrite length_app, length_alter. cbn. lia.
Qed.

Lemma in_time_frozen deadline w w' : environment w' = environment w -> in_time deadline w -> in_time deadline w' /\ ms w' = ms w.
Proof. intros E H. unfold in_time, ms, clock, delayed in *. by rewrite E. Qed.

Lemma receive_failed_returns coded w : is_Some (fst (receive_failed coded w)).
Proof. unfold receive_failed. rewrite st_seq. by eexists. Qed.

(** Every round that goes on has let a millisecond pass, or taken a segment. *)
Lemma receive_loop_returns fuel b timeout deadline coded w : in_time deadline w ->
  (length (co_segments coded) <= 8)%nat -> (Z.to_nat (deadline - ms w) + (9 - length (co_segments coded)) <= fuel)%nat ->
  wp (receive_loop fuel b timeout deadline coded) (fun x _ => is_Some x) w.
Proof.
  revert coded w. induction fuel as [|fuel IH]; intros coded w Hw Hs Hf; [lia|]. cbn [receive_loop].
  apply wp_bind, wp_frozen; [frozen|]. intros [[status part] detail] w1 E1. destruct (in_time_frozen _ _ _ E1 Hw) as [H1 M1].
  destruct (status =? ADVC_STATUS_WOULD_BLOCK).
  { destruct (timeout =? 0).
    - apply wp_bind, wp_frozen; [frozen|]. intros _ w2 _. apply receive_failed_returns.
    - apply wp_bind. eapply wp_mono; [by apply wait_retry_moves|]. intros r w2 Hr. destruct (Z.ltb_spec r 0); [apply receive_failed_returns|].
      destruct Hr as [|(L & L' & H2)]; [lia|]. apply IH; [done|done|]. lia. }
  destruct (negb _).
  { apply wp_bind, wp_frozen; [destruct (status <? 0); frozen|]. intros _ w2 _. apply receive_failed_returns. }
  apply wp_bind. eapply wp_mono; [apply append_output_spec|]. intros [r coded'] w2 [E2 Hr]. cbn [fst snd] in Hr.
  destruct (in_time_frozen _ _ _ E2 H1) as [H2 M2]. destruct (Z.ltb_spec r 0) as [|Hge].
  { apply wp_bind, wp_frozen; [apply frozen_output_close|]. intros _ w3 _. apply receive_failed_returns. }
  specialize (Hr Hge). destruct Hr as [Hlt Hlen]. apply wp_bind, wp_frozen; [apply frozen_output_close|]. intros [] w3 E3.
  destruct (in_time_frozen _ _ _ E3 H2) as [H3 M3]. destruct (ends_receive part); [apply wp_ret; by eexists|].
  apply IH; [done|lia|]. lia.
Qed.

(** C8. Waiting for coded output always returns: however often the broker has nothing,
    the sleeps in between are interrupted or late, and parameter sets come first, the
    loop ends within its fuel (a round per millisecond of the timeout and ten more),
    provided that the clock does not wrap around before the deadline and the delays
    are over. *)
Theorem broker_receive_returns b timeout w : 0 <= timeout -> in_time (ms w + timeout) w ->
  let '(now, w1) := monotonic_ms w in
  now = UINT64_MAX \/ is_Some (fst (receive_loop (receive_fuel timeout) b timeout (now + timeout) zero_output w1)).
Proof.
  intros Ht (H1 & H2 & H3). pose proof (delayed_nonneg w) as Hd. pose proof (monotonic_ms_spec w ltac:(lia)) as Hm. unfold wp in Hm.
  destruct (monotonic_ms w) as [now w1]. cbn [fst snd] in Hm. destruct Hm as ([-> | ->] & C1 & D1); [right|by left].
  apply receive_loop_returns; [unfold in_time; rewrite C1, D1; done|cbn; lia|].
  unfold receive_fuel. replace (ms w1) with (ms w) by (unfold ms; by rewrite C1). cbn. lia.
Qed.
End Receive.

(** A broker that never answers, five seconds after the start of the machine. *)
Lemma broker_receive_returns_witness :
  let '(now, w1) := @monotonic_ms small_world in
  now = UINT64_MAX \/ is_Some (fst (@receive_loop (receive_fuel 1000) (EncodeBroker 5 1 0 no_session_config) 1000 (now + 1000) zero_output w1)).
Proof. apply (broker_receive_returns (EncodeBroker 5 1 0 no_session_config) 1000 small_world); [lia|]. by vm_compute. Defined.
