(* ===== verification/ImageCopy.v ===== *)
(** * What an upload writes (src/src/vaapi_advc/advc_vaapi_image.c)

    [copy_image_to_nv12] writes exactly the rectangle: every luma and chroma byte of
    it, from the place of the image the code means, and no other byte of any dma-buf;
    and no access is outside of the image or of a mapping. *)

From stdpp Require Import base list gmap.
From Stdlib Require Import ZArith Lia Bool String.
#[local] Notation length := List.length.
From S2P Require Import Prelude Kernel Protocol Dmabuf Engine EngineFiles EngineInv EngineSafe Broker BrokerLive Client ClientSafe ClientConnect World EncodeEos VaapiRoutes VaapiPolicy Va EncodeParams EncodeState EncodeWorld EncodeBroker EncodeLink EncodeSync EncodeRuntime Image.
Notation world := (world_of driver_state).

(** ** Bytes *)

(** The byte at an offset of a dma-buf. *)
Definition pixel (memory : gmap Z (list Z)) (inode off : Z) : option Z :=
  if off <? 0 then None else bytes ← memory !! inode; bytes !! Z.to_nat off.

(** Only bytes changed. *)
Definition same_sizes (m m' : gmap Z (list Z)) : Prop :=
  forall inode, zlen <$> m' !! inode = zlen <$> m !! inode.

Lemma load_spec bytes off n : 0 <= off -> 0 <= n -> off + n <= zlen bytes ->
  exists new, load bytes off n = Some new /\ zlen new = n /\
    forall c, 0 <= c < n -> new !! Z.to_nat c = bytes !! Z.to_nat (off + c).
Proof.
  intros Ho Hn Hl. unfold load. rewrite (proj2 (Z.leb_le _ _)), (proj2 (Z.leb_le _ _)) by lia. cbn. eexists. split; [done|].
  unfold zlen in *. rewrite length_take, length_drop. split; [lia|]. intros c Hc.
  rewrite lookup_take_lt, lookup_drop by lia. f_equal. lia.
Qed.

Lemma store_at_spec maps a inode n off new memory bytes :
  maps !! a = Some (SharedMapping inode n) -> memory !! inode = Some bytes -> n <= zlen bytes ->
  0 <= off -> off + zlen new <= n ->
  exists memory', store_at maps a off new memory = Some memory' /\ same_sizes memory memory' /\
    (forall c, 0 <= c < zlen new -> pixel memory' inode (off + c) = new !! Z.to_nat c) /\
    (forall j k, ~ (j = inode /\ off <= k < off + zlen new) -> pixel memory' j k = pixel memory j k).
Proof.
  intros Hm Hb Hn Ho Hl. unfold store_at. rewrite Hm. rewrite (proj2 (Z.ltb_ge _ _)) by lia. rewrite Hb. cbn.
  unfold store. rewrite (proj2 (Z.leb_le _ _)), (proj2 (Z.leb_le _ _)) by lia. cbn.
  eexists. split; [done|]. unfold zlen in *. split; [|split].
  - intros j. destruct (decide (j = inode)) as [->|Hj]; [|by rewrite lookup_insert_ne].
    rewrite lookup_insert_eq, Hb. cbn. unfold zlen. by rewrite length_inserts.
  - intros c Hc. unfold pixel. rewrite (proj2 (Z.ltb_ge _ _)) by lia. rewrite lookup_insert_eq. cbn.
    rewrite list_lookup_inserts by lia. f_equal. lia.
  - intros j k Hjk. unfold pixel. destruct (Z.ltb_spec k 0); [done|].
    destruct (decide (j = inode)) as [->|Hj]; [|by rewrite lookup_insert_ne].
    rewrite lookup_insert_eq, Hb. cbn.
    destruct (Z.ltb_spec k off); [rewrite list_lookup_inserts_lt|rewrite list_lookup_inserts_ge]; by try lia.
Qed.

Lemma same_sizes_refl m : same_sizes m m.
Proof. by intros i. Qed.
Lemma same_sizes_trans m1 m2 m3 : same_sizes m1 m2 -> same_sizes m2 m3 -> same_sizes m1 m3.
Proof. intros H1 H2 i. by rewrite H2. Qed.
Lemma same_sizes_lookup m m' i bytes : same_sizes m m' -> m !! i = Some bytes ->
  exists bytes', m' !! i = Some bytes' /\ zlen bytes' = zlen bytes.
Proof.
  intros H Hb. specialize (H i). rewrite Hb in H. destruct (m' !! i) as [b|]; [|done]. cbn in H. injection H as H. eauto.
Qed.

(** ** The loop *)

(** Byte [k] lies in one of [n] rows from [row] on. *)
Definition in_rows (off : Z -> Z) (width row : Z) (n : nat) (k : Z) : Prop :=
  exists r, row <= r < row + Z.of_nat n /\ off r <= k < off r + width.

Section Loop.
Context (maps : gmap Z mapping) (a inode size : Z) (off : Z -> Z) (width : Z) (data : Z -> option (list Z)).
Context (Hmap : maps !! a = Some (SharedMapping inode size)).

(** One row: the source is read and stored. *)
Definition row_step (row : Z) (memory : gmap Z (list Z)) : option (gmap Z (list Z)) :=
  new ← data row; store_at maps a (off row) new memory.

Lemma copy_rows_spec n row memory bytes :
  memory !! inode = Some bytes -> size <= zlen bytes ->
  (forall r, row <= r < row + Z.of_nat n -> 0 <= off r /\ off r + width <= size /\
     exists new, data r = Some new /\ zlen new = width) ->
  (forall r, row <= r -> off r + width <= off (r + 1)) ->
  (forall r r', row <= r <= r' -> off r <= off r') ->
  exists memory', copy_rows n row row_step memory = Some memory' /\ same_sizes memory memory' /\
    (forall r c new, row <= r < row + Z.of_nat n -> data r = Some new -> 0 <= c < width ->
       pixel memory' inode (off r + c) = new !! Z.to_nat c) /\
    (forall j k, ~ (j = inode /\ in_rows off width row n k) -> pixel memory' j k = pixel memory j k).
Proof.
  revert row memory bytes. induction n as [|n IH]; intros row memory bytes Hb Hs Hrows Hpitch Hmono; cbn [copy_rows].
  { exists memory. split; [done|]. split; [apply same_sizes_refl|]. split; [lia|done]. }
  destruct (Hrows row ltac:(lia)) as (Ho & Hl & new & Hd & Hn).
  destruct (store_at_spec maps a inode size (off row) new memory bytes Hmap Hb Hs Ho ltac:(lia)) as (m1 & E1 & Hsz & Hin & Hout).
  assert (row_step row memory = Some m1) as -> by (unfold row_step; by rewrite Hd). cbn [mbind option_bind]. destruct (same_sizes_lookup _ _ _ _ Hsz Hb) as (b1 & Hb1 & Hl1).
  destruct (IH (row + 1) m1 b1 Hb1 ltac:(lia)) as (m2 & -> & Hsz2 & Hin2 & Hout2).
  { intros r Hr. apply Hrows. lia. }
  { intros r Hr. apply Hpitch. lia. }
  { intros r r' Hr. apply Hmono. lia. }
  exists m2. split; [done|]. split; [by eapply same_sizes_trans|]. split.
  - intros r c new' Hr Hd' Hc. destruct (decide (r = row)) as [->|Hne]; [|apply Hin2; [lia|done|done]].
    rewrite Hd in Hd'. injection Hd' as <-. rewrite Hout2.
    + apply Hin. lia.
    + intros (_ & r' & Hr' & Hk). pose proof (Hpitch row ltac:(lia)). pose proof (Hmono (row + 1) r' ltac:(lia)). lia.
  - intros j k Hjk. rewrite Hout2.
    + apply Hout. intros [-> Hk]. apply Hjk. split; [done|]. exists row. lia.
    + intros (-> & r & Hr & Hk). apply Hjk. split; [done|]. exists r. lia.
Qed.
End Loop.

Lemma interleave_spec u v n : zlen u = n -> zlen v = n ->
  zlen (interleave u v) = 2 * n /\
  forall c, 0 <= c < 2 * n -> interleave u v !! Z.to_nat c = (if c mod 2 =? 0 then u else v) !! Z.to_nat (c / 2).
Proof.
  revert v n. induction u as [|x u IH]; intros v n Hu Hv.
  { cbn in *. unfold zlen in Hu. cbn in Hu. subst n. split; [done|lia]. }
  destruct v as [|y v]; [unfold zlen in *; cbn in *; lia|]. unfold zlen in Hu, Hv. cbn [length] in Hu, Hv.
  destruct (IH v (n - 1)) as [Hl Hc]; [unfold zlen; lia|unfold zlen; lia|]. cbn [interleave]. unfold zlen in *. cbn [length].
  split; [lia|]. intros c Hr. destruct (decide (c = 0)) as [->|]; [done|]. destruct (decide (c = 1)) as [->|]; [done|].
  replace (Z.to_nat c) with (S (S (Z.to_nat (c - 2)))) by lia. cbn [lookup list_lookup]. rewrite Hc by lia.
  assert ((c - 2) mod 2 = c mod 2) as -> by (replace c with ((c - 2) + 1 * 2) at 2 by lia; by rewrite Z.mod_add).
  assert (Z.to_nat (c / 2) = S (Z.to_nat ((c - 2) / 2))) as ->.
  { replace c with ((c - 2) + 1 * 2) at 1 by lia. rewrite Z.div_add by lia. pose proof (Z.div_pos (c - 2) 2). lia. }
  by destruct (_ =? _).
Qed.

(** ** The upload *)

(** Where the code takes a luma byte and an interleaved chroma byte of an image. *)
Definition luma_source (info : va_image) (x y : Z) : Z := image_at_row info 0 y x.
Definition chroma_source (info : va_image) (x y : Z) : Z :=
  if vi_fourcc info =? VA_FOURCC_NV12 then image_at_row info 1 y x
  else image_at_row info (if x mod 2 =? 0 then 1 else 2) y (x / 2).

(** Byte [k] of dma-buf [j] is in the rectangle of plane [p]. *)
Definition in_rectangle (d : advc_dmabuf_descriptor) (inode : Z -> Z) (p x y width rows j k : Z) : Prop :=
  j = inode p /\ in_rows (fun r => surface_at_row d p (y + r) x) width 0 (Z.to_nat rows) k.

(** [memory'] is [memory] with the rectangle of the image in it.  Where the planes of
    the surface overlap, the chroma bytes are what is left. *)
Record uploaded (d : advc_dmabuf_descriptor) (inode : Z -> Z) (heap : list Z) (info : va_image)
    (src_x src_y width height dst_x dst_y : Z) (memory memory' : gmap Z (list Z)) : Prop := {
  up_sizes : same_sizes memory memory';
  up_chroma : forall row col, 0 <= row < height / 2 -> 0 <= col < width ->
    pixel memory' (inode 1) (surface_at_row d 1 (dst_y / 2 + row) (dst_x + col)) =
    heap !! Z.to_nat (chroma_source info (src_x + col) (src_y / 2 + row));
  up_luma : forall row col, 0 <= row < height -> 0 <= col < width ->
    let k := surface_at_row d 0 (dst_y + row) (dst_x + col) in
    ~ in_rectangle d inode 1 dst_x (dst_y / 2) width (height / 2) (inode 0) k ->
    pixel memory' (inode 0) k = heap !! Z.to_nat (luma_source info (src_x + col) (src_y + row));
  up_rest : forall j k,
    ~ in_rectangle d inode 0 dst_x dst_y width height j k ->
    ~ in_rectangle d inode 1 dst_x (dst_y / 2) width (height / 2) j k ->
    pixel memory' j k = pixel memory j k }.

(** The image is one the driver made, with its memory. *)
Definition own_pixels (heap : list Z) (info : va_image) : Prop :=
  exists i fourcc width height, info = own_image i fourcc width height /\
    (fourcc = VA_FOURCC_NV12 \/ fourcc = VA_FOURCC_I420) /\ 0 < width /\ 0 < height /\
    width mod 2 = 0 /\ height mod 2 = 0 /\ zlen heap = width * height + width / 2 * (height / 2) * 2.

Definition even_rectangle (x y width height : Z) : Prop :=
  0 <= x /\ 0 <= y /\ 0 < width /\ 0 < height /\ x mod 2 = 0 /\ y mod 2 = 0 /\ width mod 2 = 0 /\ height mod 2 = 0.

Lemma plane_extent_fits off pitch rows row_bytes size y x n : 0 <= y -> 0 <= x -> 0 <= pitch ->
  plane_extent off pitch rows row_bytes size = true -> y < rows -> x + n <= row_bytes -> 0 <= n ->
  row_bytes <= pitch /\ off + y * pitch + x + n <= size.
Proof.
  intros Hy Hx Hp H Hr Hn H0. unfold plane_extent in H.
  apply andb_true_iff in H as [H1 H2]. rewrite negb_true_iff, !orb_false_iff in H1. cbn zeta in H2.
  rewrite negb_true_iff, orb_false_iff in H2. destruct H1 as [[[_ _] H1] _], H2 as [_ H2].
  apply Z.ltb_ge in H1, H2. assert (y * pitch <= (rows - 1) * pitch) by (apply Z.mul_le_mono_nonneg_r; lia). lia.
Qed.

(** A region inside [w] x [h] starts and ends inside the plane. *)
Lemma row_inside w h y x n : 0 <= y < h -> 0 <= x -> 0 <= n -> x + n <= w -> y * w + x + n <= w * h.
Proof. intros. assert (y * w <= (h - 1) * w) by (apply Z.mul_le_mono_nonneg_r; lia). lia. Qed.

Lemma halves n : n mod 2 = 0 -> n = 2 * (n / 2).
Proof. intros H. pose proof (Z.div_mod n 2). lia. Qed.

Section Sources.
Context (heap : list Z) (i : nat) (fourcc w h : Z) (sx sy width height : Z).
Context (Hf : fourcc = VA_FOURCC_NV12 \/ fourcc = VA_FOURCC_I420) (Hw : 0 < w) (Hh : 0 < h).
Context (Hw2 : w mod 2 = 0) (Hh2 : h mod 2 = 0) (Hlen : zlen heap = w * h + w / 2 * (h / 2) * 2).
Context (Hrect : even_rectangle sx sy width height) (Hx : sx + width <= w) (Hy : sy + height <= h).
Notation info := (own_image i fourcc w h).

Lemma luma_row r : 0 <= r < height ->
  exists new, load heap (image_at_row info 0 (sy + r) sx) width = Some new /\ zlen new = width /\
    forall c, 0 <= c < width -> new !! Z.to_nat c = heap !! Z.to_nat (luma_source info (sx + c) (sy + r)).
Proof.
  intros Hr. destruct Hrect as (? & ? & ? & ? & _).
  assert (forall x y, image_at_row info 0 y x = y * w + x) as E.
  { intros. unfold image_at_row, own_image. destruct (_ =? _); cbn; lia. }
  unfold luma_source. rewrite E. pose proof (row_inside w h (sy + r) sx width ltac:(lia) ltac:(lia) ltac:(lia) ltac:(lia)).
  assert (0 <= w / 2 * (h / 2)) by (apply Z.mul_nonneg_nonneg; apply Z.div_pos; lia).
  assert (0 <= (sy + r) * w) by (apply Z.mul_nonneg_nonneg; lia).
  set (z := w / 2 * (h / 2)) in *. clearbody z.
  destruct (load_spec heap ((sy + r) * w + sx) width) as (new & Hn & Hl & Hc); [lia|lia|lia|].
  exists new. split_and!; [done|done|]. intros c Hcr. rewrite Hc by done. rewrite E. do 2 f_equal. lia.
Qed.

Lemma chroma_row_spec r : 0 <= r < height / 2 ->
  exists new, chroma_row heap info sx (sy / 2 + r) width = Some new /\ zlen new = width /\
    forall c, 0 <= c < width -> new !! Z.to_nat c = heap !! Z.to_nat (chroma_source info (sx + c) (sy / 2 + r)).
Proof.
  intros Hr. destruct Hrect as (? & ? & ? & ? & Hsx & Hsy & Hwd & Hht).
  apply halves in Hw2, Hh2, Hsx, Hsy, Hwd, Hht.
  assert (0 <= (sy / 2 + r) * (w / 2)) by (apply Z.mul_nonneg_nonneg; lia).
  pose proof (row_inside (w / 2) (h / 2) (sy / 2 + r) (sx / 2) (width / 2) ltac:(lia) ltac:(lia) ltac:(lia) ltac:(lia)) as Hin.
  assert (0 <= w * h) by (apply Z.mul_nonneg_nonneg; lia).
  unfold chroma_row, chroma_source, own_image. destruct Hf as [-> | ->].
  - rewrite ?Z.eqb_refl. cbn [vi_fourcc]. rewrite ?Z.eqb_refl. unfold image_at_row. cbn [vi_offsets vi_pitches lookup list_lookup default].
    assert ((sy / 2 + r) * w = 2 * ((sy / 2 + r) * (w / 2))) as E by (rewrite Hw2 at 1; ring).
    destruct (load_spec heap (w * h + (sy / 2 + r) * w + sx) width) as (new & Hn & Hl & Hc); [lia|lia|lia|].
    exists new. split_and!; [done|done|]. intros c Hcr. rewrite Hc by done. do 2 f_equal. cbn. lia.
  - change (VA_FOURCC_I420 =? VA_FOURCC_NV12) with false. cbn [vi_fourcc]. change (VA_FOURCC_I420 =? VA_FOURCC_NV12) with false.
    cbv iota. unfold image_at_row. cbn [vi_offsets vi_pitches lookup list_lookup default].
    change (default 0 (Some ?x)) with x.
    destruct (load_spec heap (w * h + (sy / 2 + r) * (w / 2) + sx / 2) (width / 2)) as (u & Hu & Hul & Huc); [lia|lia|lia|].
    destruct (load_spec heap (w * h + w / 2 * (h / 2) + (sy / 2 + r) * (w / 2) + sx / 2) (width / 2)) as (v & Hv & Hvl & Hvc); [lia|lia|lia|].
    cbn. rewrite Hu. cbn. rewrite Hv. cbn. destruct (interleave_spec u v (width / 2) Hul Hvl) as [Hl Hc].
    eexists. split_and!; [done|lia|]. intros c Hcr. rewrite Hc by lia.
    assert ((sx + c) mod 2 = c mod 2) as Em by (rewrite Hsx at 1; rewrite Z.add_comm, Z.mul_comm; apply Z.mod_add; lia).
    assert ((sx + c) / 2 = sx / 2 + c / 2) as Ed by (rewrite Hsx at 1; rewrite Z.add_comm, Z.mul_comm, Z.div_add by lia; lia).
    rewrite Em, Ed. assert (0 <= c / 2 < width / 2) by (split; [apply Z.div_pos; lia|apply Z.div_lt_upper_bound; lia]).
    destruct (c mod 2 =? 0); [rewrite Huc by done|rewrite Hvc by done]; do 2 f_equal; cbn; lia.
Qed.
End Sources.

(** ** The destination *)

(** The objects of the destination are mapped: plane [p]'s bytes are those of the
    dma-buf [inode p]. *)
Definition destination_mapped (maps : gmap Z mapping) (d : advc_dmabuf_descriptor) (inode : Z -> Z)
    (addresses : list Z) (memory : gmap Z (list Z)) : Prop :=
  forall p, p = 0 \/ p = 1 ->
    let o := p_object_index (plane_at d p) in
    exists bytes, maps !! default 0 (addresses !! Z.to_nat o) = Some (SharedMapping (inode p) (o_size (object_at d o))) /\
      memory !! inode p = Some bytes /\ o_size (object_at d o) <= zlen bytes.

Definition planes_typed (d : advc_dmabuf_descriptor) : Prop :=
  forall p, p = 0 \/ p = 1 -> 0 <= p_offset (plane_at d p) /\ 0 <= p_pitch (plane_at d p).

Section Destination.
Context (maps : gmap Z mapping) (d : advc_dmabuf_descriptor) (inode : Z -> Z) (addresses : list Z).
Context (p x y rows width : Z) (data : Z -> option (list Z)) (source : Z -> Z -> option Z).
Context (Hp : p = 0 \/ p = 1) (Hd : planes_typed d) (Hfit : plane_fits d p = true).
Context (Hx : 0 <= x) (Hy : 0 <= y) (Hw : 0 < width) (Hxw : x + width <= d_width d) (Hyr : y + rows <= plane_rows d p).
Context (Hdata : forall r, 0 <= r < rows -> exists new, data r = Some new /\ zlen new = width /\
  forall c, 0 <= c < width -> new !! Z.to_nat c = source r c).
Notation base := (default 0 (addresses !! Z.to_nat (p_object_index (plane_at d p)))).

(** One plane: exactly the rectangle is written. *)
Lemma plane_written memory : destination_mapped maps d inode addresses memory ->
  exists memory', copy_rows (Z.to_nat rows) 0 (row_step maps base (fun r => surface_at_row d p (y + r) x) data) memory
      = Some memory' /\ same_sizes memory memory' /\
    (forall r c, 0 <= r < rows -> 0 <= c < width ->
       pixel memory' (inode p) (surface_at_row d p (y + r) (x + c)) = source r c) /\
    (forall j k, ~ in_rectangle d inode p x y width rows j k -> pixel memory' j k = pixel memory j k).
Proof.
  intros Hmap. destruct (Hmap p Hp) as (bytes & Hm & Hb & Hl). destruct (Hd p Hp) as [Ho Hpi].
  assert (forall r, 0 <= r < rows -> width <= p_pitch (plane_at d p) /\
    surface_at_row d p (y + r) x + width <= o_size (object_at d (p_object_index (plane_at d p)))) as Hin.
  { intros r Hr. unfold plane_fits in Hfit. cbn zeta in Hfit.
    destruct (plane_extent_fits _ _ _ _ _ (y + r) x width ltac:(lia) Hx Hpi Hfit ltac:(lia) Hxw ltac:(lia)) as [H1 H2].
    unfold surface_at_row. lia. }
  destruct (decide (0 < rows)) as [Hr|Hr].
  - destruct (Hin 0 ltac:(lia)) as [Hpitch _].
    destruct (copy_rows_spec maps base (inode p) _ (fun r => surface_at_row d p (y + r) x) width data Hm
      (Z.to_nat rows) 0 memory bytes Hb Hl) as (m' & Hc & Hs & Hi & Hout).
    + intros r Hrr. destruct (Hin r ltac:(lia)) as [_ H2]. split; [|split; [exact H2|]].
      * unfold surface_at_row. assert (0 <= (y + r) * p_pitch (plane_at d p)) by (apply Z.mul_nonneg_nonneg; lia). lia.
      * destruct (Hdata r ltac:(lia)) as (new & ? & ? & _). eauto.
    + intros r Hrr. unfold surface_at_row. lia.
    + intros r r' Hrr. unfold surface_at_row.
      assert ((y + r) * p_pitch (plane_at d p) <= (y + r') * p_pitch (plane_at d p)) by (apply Z.mul_le_mono_nonneg_r; lia). lia.
    + exists m'. split_and!; [exact Hc|exact Hs| |exact Hout].
      intros r c Hrr Hcc. destruct (Hdata r Hrr) as (new & Hn & Hnl & Hnc). rewrite <- Hnc by done.
      rewrite <- (Hi r c new ltac:(lia) Hn Hcc). f_equal. unfold surface_at_row. lia.
  - exists memory. replace (Z.to_nat rows) with O by lia. split_and!; [done|apply same_sizes_refl|lia|done].
Qed.
End Destination.

Lemma destination_same maps d inode addresses m m' : same_sizes m m' ->
  destination_mapped maps d inode addresses m -> destination_mapped maps d inode addresses m'.
Proof.
  intros Hs H p Hp. destruct (H p Hp) as (b & H1 & H2 & H3). destruct (same_sizes_lookup _ _ _ _ Hs H2) as (b' & ? & ?).
  exists b'. split_and!; [done|done|]. cbn zeta in *. lia.
Qed.

Lemma copy_exact maps heap info sx sy width height d dx dy inode addresses memory :
  own_pixels heap info -> even_rectangle sx sy width height -> sx + width <= vi_width info ->
  sy + height <= vi_height info -> even_rectangle dx dy width height ->
  planes_typed d -> plane_fits d 0 = true -> plane_fits d 1 = true ->
  dx + width <= d_width d -> dy + height <= d_height d ->
  destination_mapped maps d inode addresses memory ->
  exists memory', copy_image_to_nv12 maps heap info sx sy width height d dx dy addresses memory = Some memory' /\
    uploaded d inode heap info sx sy width height dx dy memory memory'.
Proof.
  intros (i & fourcc & w & h & -> & Hf & Hw & Hh & Hw2 & Hh2 & Hlen) Hrect Hx Hy Hdst Hd Hf0 Hf1 Hdx Hdy Hmap.
  assert (vi_width (own_image i fourcc w h) = w /\ vi_height (own_image i fourcc w h) = h) as [Ew Eh]
    by (unfold own_image; by destruct (_ =? _)).
  rewrite Ew in Hx. rewrite Eh in Hy. pose proof Hdst as (Hdx0 & Hdy0 & Hwd & Hht & Hex & Hey & Hew & Heh).
  destruct (plane_written maps d inode addresses 0 dx dy height width _ _ (or_introl eq_refl) Hd Hf0 Hdx0 Hdy0 Hwd Hdx
    ltac:(unfold plane_rows; cbn; lia) (luma_row heap i fourcc w h sx sy width height Hw Hh Hlen Hrect Hx Hy) memory Hmap)
    as (m1 & E1 & Hs1 & Hi1 & Ho1).
  apply halves in Hey, Heh.
  destruct (plane_written maps d inode addresses 1 dx (dy / 2) (height / 2) width _ _ (or_intror eq_refl) Hd Hf1 Hdx0 ltac:(lia) Hwd Hdx
    ltac:(unfold plane_rows; cbn; apply Z.div_le_lower_bound; lia)
    (chroma_row_spec heap i fourcc w h sx sy width height Hf Hw Hh Hw2 Hh2 Hlen Hrect Hx Hy) m1 (destination_same _ _ _ _ _ _ Hs1 Hmap))
    as (m2 & E2 & Hs2 & Hi2 & Ho2).
  exists m2. split.
  - unfold copy_image_to_nv12. unfold row_step in E1, E2. rewrite E1. cbn [mbind option_bind]. exact E2.
  - split; [by eapply same_sizes_trans|exact Hi2| |].
    + intros row col Hr Hc k Hk. rewrite Ho2 by exact Hk. by apply Hi1.
    + intros j k H0 H1. rewrite Ho2 by exact H1. by apply Ho1.
Qed.
