(* ===== verification/ImageUpload.v ===== *)
(** * Uploading an image into a surface (src/src/vaapi_advc/advc_vaapi_image.c)

    [advc_vaapi_image_put] from the acquired destination on: the objects are mapped,
    the rectangle is copied and the mappings are undone.  Every failure on the way
    leaves all dma-bufs as they were or holds the whole copy, and nothing stays
    mapped. *)

From stdpp Require Import base list gmap.
From Stdlib Require Import ZArith Lia Bool String.
#[local] Notation length := List.length.
From S2P Require Import Prelude Kernel Protocol Dmabuf Engine EngineFiles EngineInv EngineSafe Broker BrokerLive Client ClientSafe ClientConnect World EncodeEos VaapiRoutes VaapiPolicy Va EncodeParams EncodeState EncodeWorld EncodeBroker EncodeLink EncodeSync EncodeRuntime Image ImageCopy.
Notation world := (world_of driver_state).

(** ** Calls that touch only mappings *)

(** The descriptors, the bytes and the tables are the same. *)
Record still (w w' : world) : Prop := {
  st_fds : fds_of w' = fds_of w;
  st_memory : ds_memory (w_rt w') = ds_memory (w_rt w);
  st_images : ds_images (w_rt w') = ds_images (w_rt w);
  st_encode : ds_encode (w_rt w') = ds_encode (w_rt w) }.

#[export] Instance still_preorder : PreOrder still.
Proof. split; [by intros w; split|]. intros w1 w2 w3 [] []. split; congruence. Qed.

(** Addresses are given out in order. *)
Definition maps_fresh (s : driver_state) : Prop :=
  0 < ds_next_map s /\ forall a, is_Some (ds_maps s !! a) -> 0 < a < ds_next_map s.

(** A call that leaves the driver's state and the descriptors alone. *)
Definition idle {A} (c : St process A) : Prop := forall m, m_fds (snd (c m)) = m_fds m.

Lemma wp_idle {A} (c : St process A) w (P : A -> world -> Prop) : idle c ->
  (forall a w', still w w' -> w_rt w' = w_rt w -> P a w') -> wp (kernel c) P w.
Proof.
  intros Hc HP. unfold wp, kernel. specialize (Hc (w_m w)). destruct (c (w_m w)) as [a m]. cbn in *.
  apply HP; [|done]. by split.
Qed.

Lemma idle_ioctl fd : idle (dma_buf_ioctl fd).
Proof.
  intros m. assert (m_fds (snd (next_io m)) = m_fds m) as E.
  { unfold next_io. destruct (m_io m) as [|v l]; [done|]. by destruct (v <? 0). }
  unfold dma_buf_ioctl. rewrite bind_seq. destruct (fst (next_io m) <? 0); [exact E|].
  rewrite bind_seq. cbn [gets fst snd]. by destruct (fd_kind <$> _) as [[]|].
Qed.
Lemma idle_inert {A} (c : St process A) : inert c -> idle c.
Proof. by intros [_ H]. Qed.

(** ** Mapping and unmapping *)

Definition dma_inode (t : gmap Z fd_info) (fd : Z) : option Z :=
  match fd_kind <$> t !! fd with Some (KDmaBuf inode) => Some inode | _ => None end.

(** At [a], the dma-buf of [fd] is mapped with [size] bytes. *)
Definition mapped_buf (w : world) (fd size a : Z) : Prop :=
  exists inode, dma_inode (fds_of w) fd = Some inode /\
    ds_maps (w_rt w) !! a = Some (SharedMapping inode size) /\
    size <= zlen (default [] (ds_memory (w_rt w) !! inode)).

Lemma next_io_still w (P : Z -> world -> Prop) :
  (forall v w', still w w' -> w_rt w' = w_rt w -> P v w') -> wp (kernel next_io) P w.
Proof. apply wp_idle. intros m. unfold next_io. destruct (m_io m) as [|v l]; [done|]. by destruct (v <? 0). Qed.

Lemma kernel_gets {A} (f : process -> A) (w : world) : kernel (gets f) w = (f (w_m w), w).
Proof. by destruct w. Qed.

Lemma wp_set f (w : world) (P : unit -> world -> Prop) : P tt (set_rt (f (w_rt w)) w) -> wp (update f) P w.
Proof. done. Qed.

Lemma mmap_shared_spec fd size w : maps_fresh (w_rt w) ->
  wp (sys_mmap true fd size) (fun a w' => still w w' /\ maps_fresh (w_rt w') /\
    ((a = -1 /\ w_rt w' = w_rt w) \/
     (a = ds_next_map (w_rt w) /\ mapped_buf w' fd size a /\
      exists m, ds_maps (w_rt w') = <[a := m]> (ds_maps (w_rt w))))) w.
Proof.
  intros Hf. unfold sys_mmap. apply wp_bind, next_io_still. intros v w1 H1 E1.
  destruct (v <? 0); [apply wp_ret; rewrite E1; auto|].
  apply wp_bind. unfold wp at 1. rewrite kernel_gets. cbn [fst snd]. apply wp_bind, wp_gets. cbn beta.
  assert (forall e, wp (kernel (fail_with (B := client_statics connect_env) e)) (fun a w' => still w w' /\ maps_fresh (w_rt w') /\
    ((a = -1 /\ w_rt w' = w_rt w) \/
     (a = ds_next_map (w_rt w) /\ mapped_buf w' fd size a /\
      exists m, ds_maps (w_rt w') = <[a := m]> (ds_maps (w_rt w))))) w1) as Hfail.
  { intros e. unfold wp. change (kernel (fail_with e) w1) with (-1, set_m (set_errno e (w_m w1)) w1). cbn [fst snd].
    change (w_rt (set_m (set_errno e (w_m w1)) w1)) with (w_rt w1). rewrite E1. split; [|auto].
    etransitivity; [exact H1|]. by split. }
  destruct (m_fds (w_m w1) !! fd) as [f|] eqn:Hfd; [|apply Hfail].
  destruct (fd_kind f) as [| |inode|] eqn:Hk; try apply Hfail.
  destruct (Z.ltb_spec (zlen (default [] (ds_memory (w_rt w1) !! inode))) size) as [|Hs]; [apply Hfail|].
  apply wp_bind, wp_set, wp_ret. destruct Hf as [Hn Hf]. rewrite E1 in *. cbn.
  split; [|split; [|right; split; [done|split]]].
  - destruct H1. by split.
  - split; cbn; [lia|]. intros a. rewrite lookup_insert_is_Some. intros [<-|[_ Ha]]; [lia|]. specialize (Hf a Ha). lia.
  - exists inode. split_and!; [|cbn; by rewrite lookup_insert_eq|cbn; exact Hs].
    unfold dma_inode, fds_of. cbn. by rewrite Hfd; cbn; rewrite Hk.
  - cbn. eauto.
Qed.

Lemma mapped_still w w' fd size a : still w w' -> mapped_buf w fd size a ->
  ds_maps (w_rt w') !! a = ds_maps (w_rt w) !! a -> mapped_buf w' fd size a.
Proof. intros [] (i & H1 & H2 & H3) E. exists i. split_and!; congruence. Qed.

(** Unmapping, and closing the access. *)
Lemma munmap_spec a w : wp (sys_munmap a) (fun _ w' => still w w' /\ ds_next_map (w_rt w') = ds_next_map (w_rt w) /\
  ds_maps (w_rt w') = delete a (ds_maps (w_rt w))) w.
Proof.
  unfold sys_munmap. apply wp_bind, wp_gets. destruct (ds_maps (w_rt w) !! a) eqn:E.
  - apply wp_bind, wp_set, wp_ret. cbn. by split.
  - unfold wp, kernel. cbn. split; [by split|]. split; [done|]. by rewrite delete_id.
Qed.

Section Upload.
Context (ops : image_ops) (Hops : io_dma_buf_sync ops = None).

Lemma dma_sync_still fd flags w (P : Z -> world -> Prop) :
  (forall v w', still w w' -> w_rt w' = w_rt w -> P v w') -> wp (runtime_dma_sync ops fd flags) P w.
Proof. unfold runtime_dma_sync. rewrite Hops. apply wp_idle, idle_ioctl. Qed.

(** The mappings [addresses] of the first objects, made since the maps were [maps]. *)
Definition objects_mapped (d : advc_dmabuf_descriptor) (maps : gmap Z mapping) (w : world) (addresses : list Z) : Prop :=
  maps_fresh (w_rt w) /\ NoDup addresses /\
  (forall a, a ∈ addresses -> maps !! a = None) /\
  (forall a, a ∉ addresses -> ds_maps (w_rt w) !! a = maps !! a) /\
  (forall j a, addresses !! j = Some a ->
     mapped_buf w (o_fd (object_at d (Z.of_nat j))) (o_size (object_at d (Z.of_nat j))) a).

Lemma objects_still d maps w w' l : still w w' -> w_rt w' = w_rt w -> objects_mapped d maps w l -> objects_mapped d maps w' l.
Proof.
  intros Hs E (H1 & H2 & H3 & H4 & H5). rewrite <- E in H1, H4. split_and!; try done.
  intros j a Ha. apply (mapped_still w); [done|by apply H5|by rewrite E].
Qed.

(** Removing the [i]-th mapping, and what is left. *)
Lemma objects_unmap (maps : gmap Z mapping) (addresses : list Z) w :
  (forall a, a ∈ addresses -> maps !! a = None) -> (forall a, a ∉ addresses -> ds_maps (w_rt w) !! a = maps !! a) ->
  forall M, (forall a, a ∈ addresses -> M !! a = None) -> (forall a, a ∉ addresses -> M !! a = ds_maps (w_rt w) !! a) -> M = maps.
Proof.
  intros H1 H2 M H3 H4. apply map_eq. intros a. destruct (decide (a ∈ addresses)).
  - rewrite H3, H1 by done. done.
  - by rewrite H4, H2.
Qed.

Lemma undo_maps_spec d l n w : (length l <= n)%nat ->
  wp (undo_maps ops d l n) (fun _ w' => still w w' /\ ds_next_map (w_rt w') = ds_next_map (w_rt w) /\
    (forall a, a ∈ l -> ds_maps (w_rt w') !! a = None) /\
    (forall a, a ∉ l -> ds_maps (w_rt w') !! a = ds_maps (w_rt w) !! a)) w.
Proof.
  intros Hn. unfold undo_maps.
  assert (forall k s w, (s + k = n)%nat ->
    wp (for_each (seq s k) (fun i =>
      match l !! i with Some a => sys_munmap a ;; mret tt | None => mret tt end ;;
      runtime_dma_sync ops (o_fd (object_at d (Z.of_nat i))) (Z.lor DMA_BUF_SYNC_END DMA_BUF_SYNC_RW) ;;
      mret tt)) (fun _ w' => still w w' /\ ds_next_map (w_rt w') = ds_next_map (w_rt w) /\
      (forall a, a ∈ drop s l -> ds_maps (w_rt w') !! a = None) /\
      (forall a, a ∉ drop s l -> ds_maps (w_rt w') !! a = ds_maps (w_rt w) !! a)) w) as Hg.
  { clear w. induction k as [|k IH]; intros s w Hs; cbn [seq for_each foldr].
    { apply wp_ret. rewrite drop_ge by lia. split_and!; [done|done|intros a Ha; by apply not_elem_of_nil in Ha|done]. }
    apply wp_bind, wp_bind.
    apply (wp_mono _ (fun _ w' => still w w' /\ ds_next_map (w_rt w') = ds_next_map (w_rt w) /\
      ds_maps (w_rt w') = match l !! s with Some a => delete a (ds_maps (w_rt w)) | None => ds_maps (w_rt w) end)).
    { destruct (l !! s) as [a|]; [|by apply wp_ret]. apply wp_bind. eapply wp_mono; [apply munmap_spec|]. intros ? w' H. by apply wp_ret. }
    intros [] w1 (H1 & N1 & M1). apply wp_bind, dma_sync_still. intros v w2 H2 E2. apply wp_ret.
    eapply wp_mono; [apply IH; lia|]. intros [] w3 (H3 & N3 & I3 & O3).
    assert (still w w3) as Hst by (etransitivity; [exact H1|by etransitivity]). split; [exact Hst|]. split; [congruence|].
    rewrite E2, M1 in *. destruct (l !! s) as [b|] eqn:Eb.
    - rewrite (drop_S l b s Eb). split.
      + intros a [->|Ha]%elem_of_cons; [|by apply I3].
        destruct (decide (b ∈ drop (S s) l)); [by apply I3|]. rewrite O3 by done. apply lookup_delete_eq.
      + intros a [Hne Ha]%not_elem_of_cons. rewrite O3 by done. by rewrite lookup_delete_ne.
    - apply lookup_ge_None in Eb. rewrite (drop_ge l (S s)) in I3, O3 by lia. rewrite (drop_ge l s) by lia. done. }
  apply (Hg n 0%nat w eq_refl).
Qed.

Lemma still_maps w w' : still w w' -> w_rt w' = w_rt w -> maps_fresh (w_rt w) -> maps_fresh (w_rt w').
Proof. intros _ ->. done. Qed.

Lemma fresh_le s s' : ds_next_map s' = ds_next_map s -> (forall a, is_Some (ds_maps s' !! a) -> is_Some (ds_maps s !! a)) ->
  maps_fresh s -> maps_fresh s'.
Proof. intros E H [H1 H2]. split; [lia|]. intros a Ha. rewrite E. by apply H2, H. Qed.

(** What is left when the mappings are undone. *)
Definition unmapped (maps : gmap Z mapping) (w w' : world) : Prop :=
  still w w' /\ maps_fresh (w_rt w') /\ ds_maps (w_rt w') = maps.

Lemma objects_undone d maps w l w' : objects_mapped d maps w l -> still w w' ->
  ds_next_map (w_rt w') = ds_next_map (w_rt w) ->
  (forall a, a ∈ l -> ds_maps (w_rt w') !! a = None) ->
  (forall a, a ∉ l -> ds_maps (w_rt w') !! a = ds_maps (w_rt w) !! a) -> unmapped maps w w'.
Proof.
  intros (Hf & _ & H3 & H4 & _) Hs Hn Hin Hout. split_and!; [done| |by eapply objects_unmap].
  eapply fresh_le; [exact Hn| |exact Hf]. intros a Ha. destruct (decide (a ∈ l)) as [Hl|Hl].
  - rewrite Hin in Ha by done. by destruct Ha.
  - by rewrite <- Hout.
Qed.

Lemma maps_failed_spec d maps l n w w0 : objects_mapped d maps w l -> (length l <= n)%nat -> still w0 w ->
  wp (maps_failed ops d l n) (fun x w' => x = None /\ unmapped maps w0 w') w.
Proof.
  intros Ho Hn H0. unfold maps_failed. apply wp_bind, wp_idle; [by intros m|]. intros e w1 H1 E1.
  apply (objects_still _ _ _ _ _ H1 E1) in Ho. apply wp_bind. eapply wp_mono; [by apply undo_maps_spec|].
  intros [] w2 (H2 & N2 & I2 & O2). apply wp_bind, wp_idle; [by intros m|]. intros [] w3 H3 E3. apply wp_ret. split; [done|].
  destruct (objects_undone _ _ _ _ _ Ho H2 N2 I2 O2) as (_ & Hf & Hm).
  split_and!; [|by rewrite E3|by rewrite E3]. do 3 (etransitivity; [eassumption|]). done.
Qed.

Lemma begin_maps_spec n d maps l w : objects_mapped d maps w l ->
  wp (begin_maps ops n d l) (fun x w' =>
    match x with
    | None => unmapped maps w w'
    | Some l' => still w w' /\ objects_mapped d maps w' l' /\ length l' = (length l + n)%nat
    end) w.
Proof.
  revert l w. induction n as [|n IH]; intros l w Ho; cbn [begin_maps].
  { apply wp_ret. split_and!; [done|done|lia]. }
  apply wp_bind, dma_sync_still. intros v w1 H1 E1. apply (objects_still _ _ _ _ _ H1 E1) in Ho.
  destruct (v <? 0).
  { eapply wp_mono; [by apply (maps_failed_spec d maps l _ w1 w)|]. by intros x w' [-> Hu]. }
  apply wp_bind. eapply wp_mono; [apply mmap_shared_spec, Ho|]. intros a w2 (H2 & Hf2 & Ha).
  assert (still w w2) as H02 by (by etransitivity).
  destruct Ha as [[-> E2]|(Ea & Hb & m & Em)].
  { cbn. apply (objects_still _ _ _ _ _ H2 E2) in Ho.
    eapply wp_mono; [apply (maps_failed_spec d maps l _ w2 w); [done|lia|done]|]. by intros x w' [-> Hu]. }
  destruct Ho as ([Hn Hf] & Hnd & Hnew & Hold & Hmap).
  assert (ds_maps (w_rt w1) !! a = None) as Hfree.
  { destruct (ds_maps (w_rt w1) !! a) eqn:E; [|done]. specialize (Hf a ltac:(eauto)). lia. }
  assert (a ∉ l) as Hal.
  { intros [j Hj]%list_elem_of_lookup. destruct (Hmap j a Hj) as (i & _ & Hm & _). congruence. }
  rewrite (proj2 (Z.eqb_neq a (-1))) by lia.
  assert (objects_mapped d maps w2 (l ++ [a])) as Ho2.
  { split_and!; [exact Hf2| | | |].
    - apply NoDup_app. split_and!; [done| |apply NoDup_singleton]. intros b Hb' ->%list_elem_of_singleton. done.
    - intros b [Hb'| ->%list_elem_of_singleton]%elem_of_app; [by apply Hnew|]. by rewrite <- (Hold a Hal).
    - intros b [Hb' Hc]%not_elem_of_app. rewrite Em, lookup_insert_ne; [by apply Hold|].
      intros ->. apply Hc. by apply list_elem_of_singleton.
    - intros j b. rewrite lookup_app_Some. intros [Hj|[Hj Hb']].
      + apply (mapped_still w1); [done|by apply Hmap|]. rewrite Em. apply lookup_insert_ne. intros ->.
        apply Hal. by eapply list_elem_of_lookup_2.
      + apply list_lookup_singleton_Some in Hb' as [Hj0 <-]. replace j with (length l) by lia. exact Hb. }
  eapply wp_mono; [apply (IH _ _ Ho2)|]. intros [l'|] w3.
  - intros (H3 & Ho3 & Hl3). rewrite length_app in Hl3. cbn in Hl3. split_and!; [by etransitivity|done|lia].
  - intros (H3 & ? & ?). split_and!; [by etransitivity|done|done].
Qed.

Lemma end_maps_spec d l i e w :
  wp (end_maps ops d l i e) (fun _ w' => still w w' /\ ds_next_map (w_rt w') = ds_next_map (w_rt w) /\
    (forall a, a ∈ l -> ds_maps (w_rt w') !! a = None) /\
    (forall a, a ∉ l -> ds_maps (w_rt w') !! a = ds_maps (w_rt w) !! a)) w.
Proof.
  revert i e w. induction l as [|a l IH]; intros i e w; cbn [end_maps].
  { apply wp_ret. split_and!; [done|done|intros a Ha; by apply not_elem_of_nil in Ha|done]. }
  apply wp_bind. eapply wp_mono; [apply munmap_spec|]. intros u w1 (H1 & N1 & M1).
  assert (forall c (b : bool) (w : world) (P : Z -> world -> Prop),
    (forall v w', still w w' -> w_rt w' = w_rt w -> P v w') -> wp (if b then kernel errno else mret c) P w) as Herr.
  { intros c b w0 P HP. destruct b; [apply wp_idle; [by intros m|done]|]. apply wp_ret. by apply HP. }
  apply wp_bind, Herr. intros e2 w2 H2 E2. apply wp_bind, dma_sync_still. intros v w3 H3 E3.
  apply wp_bind, Herr. intros e4 w4 H4 E4. eapply wp_mono; [apply IH|]. intros ? w5 (H5 & N5 & I5 & O5).
  assert (still w w5) as Hst by (do 4 (etransitivity; [eassumption|]); done).
  rewrite E4, E3, E2 in *. split_and!; [done|congruence| |].
  - intros b [->|Hb]%elem_of_cons; [|by apply I5]. destruct (decide (a ∈ l)); [by apply I5|].
    rewrite O5, M1 by done. apply lookup_delete_eq.
  - intros b [Hne Hb]%not_elem_of_cons. rewrite O5, M1 by done. by rewrite lookup_delete_ne.
Qed.

Lemma end_object_maps_spec d maps l w : objects_mapped d maps w l ->
  wp (end_object_maps ops d l) (fun _ w' => unmapped maps w w') w.
Proof.
  intros Ho. unfold end_object_maps. apply wp_bind. eapply wp_mono; [apply end_maps_spec|].
  intros e w1 (H1 & N1 & I1 & O1). pose proof (objects_undone _ _ _ _ _ Ho H1 N1 I1 O1) as (_ & Hf & Hm).
  destruct (e =? 0); [apply wp_ret; by split|]. apply wp_idle; [by intros m|]. intros v w2 H2 E2.
  split_and!; [by etransitivity|by rewrite E2|by rewrite E2].
Qed.

(** The inode plane [p] of the destination is in. *)
Definition plane_inode (t : gmap Z fd_info) (d : advc_dmabuf_descriptor) (p : Z) : Z :=
  default 0 (dma_inode t (o_fd (object_at d (p_object_index (plane_at d p))))).

Lemma mapped_destination d maps w l : objects_mapped d maps w l ->
  (forall p, p = 0 \/ p = 1 -> 0 <= p_object_index (plane_at d p) < Z.of_nat (length l) /\
     0 < o_size (object_at d (p_object_index (plane_at d p)))) ->
  destination_mapped (ds_maps (w_rt w)) d (plane_inode (fds_of w) d) l (ds_memory (w_rt w)).
Proof.
  intros (_ & _ & _ & _ & Hmap) Hp p Hpp. destruct (Hp p Hpp) as [Hi Hs]. cbn zeta.
  set (o := p_object_index (plane_at d p)) in *.
  destruct (lookup_lt_is_Some_2 l (Z.to_nat o)) as [a Ha]; [lia|]. rewrite Ha. cbn [default].
  destruct (Hmap _ _ Ha) as (i & Hd & Hm & Hsz). rewrite Z2Nat.id in * by lia.
  unfold plane_inode. fold o. rewrite Hd. cbn [default].
  destruct (ds_memory (w_rt w) !! i) as [bytes|] eqn:E; [|unfold zlen in Hsz; cbn in Hsz; lia].
  exists bytes. split_and!; [exact Hm|exact E|exact Hsz].
Qed.

(** The destination is good for the rectangle. *)
Definition destination_good (d : advc_dmabuf_descriptor) (dx dy width height : Z) : Prop :=
  planes_typed d /\ plane_fits d 0 = true /\ plane_fits d 1 = true /\ dx + width <= d_width d /\ dy + height <= d_height d /\
  0 <= d_object_count d /\
  forall p, p = 0 \/ p = 1 -> 0 <= p_object_index (plane_at d p) < d_object_count d /\
    0 < o_size (object_at d (p_object_index (plane_at d p))).

(** What an upload may have done to the world: the dma-bufs hold the copy or are as
    they were, nothing else changed but the counter. *)
Definition upload_effect (d : advc_dmabuf_descriptor) (heap : list Z) (info : va_image)
    (sx sy width height dx dy : Z) (w : world) (status : va_status) (w' : world) : Prop :=
  let copied := uploaded d (plane_inode (fds_of w) d) heap info sx sy width height dx dy
                  (ds_memory (w_rt w)) (ds_memory (w_rt w')) in
  fds_of w' = fds_of w /\ ds_encode (w_rt w') = ds_encode (w_rt w) /\
  ir_images (ds_images (w_rt w')) = ir_images (ds_images (w_rt w)) /\
  ds_maps (w_rt w') = ds_maps (w_rt w) /\ maps_fresh (w_rt w') /\
  (ds_memory (w_rt w') = ds_memory (w_rt w) \/ copied) /\
  (status = VA_STATUS_SUCCESS -> copied /\
     ir_cpu_pixel_copy_count (ds_images (w_rt w')) = u64 (ir_cpu_pixel_copy_count (ds_images (w_rt w)) + 1)).

Lemma image_status_failure e : image_status_from_errno e <> VA_STATUS_SUCCESS.
Proof. unfold image_status_from_errno. repeat (destruct (_ =? _); [done|]; cbn [orb]). repeat destruct (_ || _); done. Qed.

Lemma upload_spec i heap info sx sy width height d dx dy w :
  im_heap (image_at (ds_images (w_rt w)) i) = Some heap -> im_info (image_at (ds_images (w_rt w)) i) = info ->
  own_pixels heap info -> even_rectangle sx sy width height -> sx + width <= vi_width info ->
  sy + height <= vi_height info -> even_rectangle dx dy width height -> destination_good d dx dy width height ->
  maps_fresh (w_rt w) ->
  wp (upload ops i sx sy width height d dx dy) (fun x w' =>
    exists status, x = Some status /\ upload_effect d heap info sx sy width height dx dy w status w') w.
Proof.
  intros Hh Hi Hown Hrect Hx Hy Hdst (Hty & Hf0 & Hf1 & Hdx & Hdy & Hoc & Hpl) Hfresh. unfold upload.
  apply wp_bind. eapply wp_mono.
  { apply (begin_maps_spec _ d (ds_maps (w_rt w)) [] w). split_and!; [done|apply NoDup_nil_2| |done|done].
    intros a Ha. by apply not_elem_of_nil in Ha. }
  intros [l|] w1; cycle 1.
  { intros (H1 & Hf & Hm). apply wp_bind, wp_idle; [by intros m|]. intros e w2 H2 E2. apply wp_ret. eexists. split; [done|].
    destruct (still_preorder.(PreOrder_Transitive) _ _ _ H1 H2) as [? ? Him ?].
    split_and!; [done|done|by rewrite Him|congruence|by rewrite E2|by left|]. intros Hc. by apply image_status_failure in Hc. }
  intros (H1 & Ho & Hl). cbn in Hl. apply wp_bind, wp_gets. cbn zeta. destruct H1 as [Ef Em Ei Ee] eqn:E1. clear E1.
  rewrite Ei, Hh, Hi.
  assert (destination_mapped (ds_maps (w_rt w1)) d (plane_inode (fds_of w) d) l (ds_memory (w_rt w1))) as Hdm.
  { rewrite <- Ef. eapply mapped_destination; [exact Ho|]. intros p Hp. destruct (Hpl p Hp). split; [lia|done]. }
  rewrite Em in Hdm.
  destruct (copy_exact _ heap info sx sy width height d dx dy _ l _ Hown Hrect Hx Hy Hdst Hty Hf0 Hf1 Hdx Hdy Hdm) as (mem & Hc & Hup).
  rewrite Em, Hc. apply wp_bind, wp_set. apply wp_bind.
  set (w2 := set_rt _ w1).
  assert (objects_mapped d (ds_maps (w_rt w)) w2 l) as Ho2.
  { destruct Ho as (O1 & O2 & O3 & O4 & O5). split_and!; try done. intros j a Hj.
    destruct (O5 j a Hj) as (ino & A1 & A2 & A3). exists ino. split_and!; [done|done|]. cbn.
    rewrite Em in A3. pose proof (up_sizes _ _ _ _ _ _ _ _ _ _ _ _ Hup ino) as Hz.
    destruct (ds_memory (w_rt w) !! ino), (mem !! ino); cbn in *; simplify_eq; [congruence|done]. }
  eapply wp_mono; [apply end_object_maps_spec, Ho2|]. intros r w3 ([Ef3 Em3 Ei3 Ee3] & Hf3 & Hm3).
  cbn in Ef3, Em3, Ei3, Ee3.
  destruct (r <? 0).
  - apply wp_bind, wp_idle; [by intros m|]. intros e w4 [Ef4 Em4 Ei4 Ee4] E4. apply wp_ret. eexists. split; [done|].
    split_and!; [by rewrite Ef4, Ef3|congruence|by rewrite Ei4, Ei3, Ei|by rewrite E4|by rewrite E4|right; by rewrite Em4, Em3|].
    intros Hf. by apply image_status_failure in Hf.
  - apply wp_bind, wp_set, wp_ret. eexists. split; [done|]. unfold upload_effect. cbn [w_rt set_rt put_images ds_encode ds_images ds_maps ds_memory ir_images ir_cpu_pixel_copy_count]. rewrite Ei3, Ei, Em3.
    split_and!; [etransitivity; [exact Ef3|exact Ef]|congruence|done|done|by destruct Hf3|by right|]. intros _. by split.
Qed.

End Upload.
