(* ===== verification/ImagePut.v ===== *)
(** * vaPutImage (src/src/vaapi_advc/advc_vaapi_image.c, advc_vaapi_encode_runtime.c)

    The whole of [advc_vaapi_image_put] with the callbacks of the encode runtime: it
    works on duplicates of the surface's descriptors, so what it writes shows in the
    surface's own dma-bufs. *)

From stdpp Require Import base list gmap.
From Stdlib Require Import ZArith Lia Bool String.
#[local] Notation length := List.length.
From S2P Require Import Prelude Kernel Protocol Dmabuf Engine EngineFiles EngineInv EngineSafe Broker BrokerLive Client ClientSafe ClientConnect World EncodeEos VaapiRoutes VaapiPolicy Va EncodeParams EncodeState EncodeWorld EncodeBroker EncodeLink EncodeSync EncodeRuntime Image EncodeScene ImageCopy ImageUpload.
Notation world := (world_of driver_state).

(** ** Duplicates *)

(** [n] shows the file [fd] shows. *)
Definition same_file (t t' : gmap Z fd_info) (fd n : Z) : Prop :=
  fd_kind <$> t' !! n = fd_kind <$> t !! fd /\ 0 <= n.

Lemma image_dup_fds_files {B} todo done_ (m : machine B) l :
  Forall (fun fd => is_Some (m_fds m !! fd)) todo -> fst (dup_fds todo done_ m) = Some l ->
  m_fds m ⊆ m_fds (snd (dup_fds todo done_ m)) /\
  exists new, l = done_ ++ new /\ Forall2 (same_file (m_fds m) (m_fds (snd (dup_fds todo done_ m)))) todo new.
Proof.
  revert done_ m. induction todo as [|fd todo IH]; intros done_ m Hopen; cbn [dup_fds].
  { intros [= <-]. split; [done|]. exists []. by rewrite app_nil_r. }
  apply Forall_cons in Hopen as [_ Hopen].
  rewrite !bind_seq. destruct (dup_cases fd m) as [(e & Hne & He)|(f & Hf & He)]; rewrite He; cbn [fst snd].
  { cbn [Z.ltb Z.compare]. rewrite bind_seq. done. }
  destruct (lowest_free_spec (m_fds m)) as [Hn Hfree]. rewrite (proj2 (Z.ltb_ge _ _)) by lia.
  set (m1 := set_fds _ m). assert (m_fds m ⊆ m_fds m1) as Hsub1 by (by apply insert_subseteq).
  intros Hl. destruct (IH (done_ ++ [lowest_free (m_fds m)]) m1) as (Hsub & new & -> & Hnew); [|exact Hl|].
  { eapply Forall_impl; [exact Hopen|]. intros x [y Hy]. exists y. by eapply lookup_weaken. }
  split; [by etransitivity|]. exists (lowest_free (m_fds m) :: new). rewrite <- app_assoc. split; [done|]. constructor.
  - split; [|done]. rewrite Hf. cbn.
    assert (m_fds m1 !! lowest_free (m_fds m) = Some (FdInfo true (fd_kind f))) as E1 by apply lookup_insert_eq.
    by rewrite (lookup_weaken _ _ _ _ E1 Hsub).
  - clear IH Hl. revert Hopen Hnew. generalize (m_fds (snd (dup_fds todo (done_ ++ [lowest_free (m_fds m)]) m1))).
    clear Hsub. intros t' Hopen Hnew. revert Hopen. induction Hnew as [|x n xs ns [Hx Hxn] _ IH]; intros Hopen; constructor.
    + apply Forall_cons in Hopen as [[y Hy] _]. split; [|done]. etransitivity; [exact Hx|]. by rewrite Hy, (lookup_weaken _ _ _ _ Hy Hsub1).
    + apply IH. by apply Forall_cons in Hopen as [_ ?].
Qed.

(** The duplicate of a surface's descriptor. *)
Definition duplicate_of (t t' : gmap Z fd_info) (source d : advc_dmabuf_descriptor) : Prop :=
  exists dups, d = with_objects (owned_objects source dups) source /\
    Forall2 (same_file t t') (declared_fds source) dups.

Lemma duplicate_spec source d0 (m : process) : descriptor_typed source ->
  wp (duplicate_descriptor source d0) (fun x m' =>
    m_fds m ⊆ m_fds m' /\ (fst x = 0 \/ fst x = -1) /\ (fst x = 0 -> duplicate_of (m_fds m) (m_fds m') source (snd x))) m.
Proof.
  intros Ht. unfold duplicate_descriptor. apply wp_bind. unfold wp at 1. rewrite validate_desc.
  destruct (descriptor_ok (m_fds m) source) eqn:E; cbn [fst snd Z.ltb Z.compare].
  - apply descriptor_ok_spec in E; [|done]. destruct (declared_fds_valid _ _ Ht E) as [_ Hopen].
    apply wp_bind. unfold wp at 1. destruct (fst (dup_fds (declared_fds source) [] m)) as [dups|] eqn:Ed.
    + destruct (image_dup_fds_files (declared_fds source) [] m dups) as (Hs & new & -> & Hn); [|exact Ed|].
      { eapply Forall_impl; [exact Hopen|]. by intros x [_ ?]. }
      apply wp_ret. cbn. split_and!; [done|by left|]. intros _. by exists new.
    + apply wp_ret. pose proof (dup_fds_spec (m_fds m) (declared_fds source) [] m (installed_nil _)) as Hd.
      rewrite Ed in Hd. destruct Hd as [Hd _]. cbn. rewrite Hd. split_and!; [done|by right|done].
  - apply wp_ret. cbn. split_and!; [done|by right|done].
Qed.

Lemma with_objects_planes l d i : plane_at (with_objects l d) i = plane_at d i.
Proof. done. Qed.

Lemma owned_object source dups i : descriptor_typed source -> 0 <= i ->
  object_at (with_objects (owned_objects source dups) source) i =
  match d_objects source !! Z.to_nat i with
  | Some o => Obj (default (-1) (dups !! Z.to_nat i)) (o_size o)
  | None => object_at source i
  end.
Proof.
  intros _ Hi. unfold object_at, owned_objects. cbn. rewrite list_lookup_imap. by destruct (d_objects source !! Z.to_nat i).
Qed.

Lemma duplicate_plane t t' source d p : descriptor_typed source -> duplicate_of t t' source d ->
  0 <= p_object_index (plane_at d p) < d_object_count d -> d_object_count d <= 4 ->
  plane_inode t' d p = plane_inode t source p.
Proof.
  intros Ht (dups & -> & Hd) Hi H4. unfold plane_inode. rewrite with_objects_planes in *. cbn in Hi, H4.
  set (o := p_object_index (plane_at source p)) in *. rewrite owned_object by (done || lia).
  assert (length (d_objects source) = 4%nat) as L by (by destruct Ht as (_&_&_&_&_&_&_&_&_&_&_&_&_&_&_&_&_&_&L&_)).
  destruct (lookup_lt_is_Some_2 (d_objects source) (Z.to_nat o)) as [ob Hob]; [lia|]. rewrite Hob.
  assert (declared_fds source !! Z.to_nat o = Some (o_fd ob)) as Hf.
  { unfold declared_fds. rewrite list_lookup_fmap, lookup_take_lt by lia. by rewrite Hob. }
  destruct (Forall2_lookup_l _ _ _ _ _ Hd Hf) as (n & Hn & Hk & _). rewrite Hn. cbn [default o_fd].
  assert (object_at source o = ob) as -> by (unfold object_at; by rewrite Hob).
  unfold dma_inode. cbn. by rewrite Hk.
Qed.

Lemma duplicate_typed t t' source d : descriptor_typed source -> duplicate_of t t' source d -> descriptor_typed d.
Proof.
  intros Ht (dups & -> & _). unfold descriptor_typed in *. cbn. destruct_and!. split_and!; try done.
  - unfold owned_objects. by rewrite length_imap.
  - apply Forall_lookup. intros i o Ho. unfold owned_objects in Ho. rewrite list_lookup_imap in Ho.
    destruct (d_objects source !! i) as [x|] eqn:E; [|done]. cbn in Ho. injection Ho as <-. cbn.
    match goal with H : Forall (fun o => is_u64 (o_size o)) _ |- _ => rewrite Forall_lookup in H; by apply (H i) end.
Qed.

(** A validated linear destination is good for a rectangle inside it. *)
Lemma validated_good t d dx dy width height : descriptor_typed d -> descriptor_ok t d = true ->
  linear_nv12 d false = true -> dx + width <= d_width d -> dy + height <= d_height d ->
  destination_good d dx dy width height /\ d_object_count d <= 4.
Proof.
  intros Ht Hok Hl Hx Hy. apply descriptor_ok_spec in Hok; [|done]. unfold linear_nv12 in Hl. rewrite !andb_true_iff in Hl.
  destruct Hl as [[[[[[[_ _] Hpc] _] _] _] Hf0] Hf1]. apply Z.eqb_eq in Hpc.
  pose proof (ds_counts _ _ Hok) as [Hc _].
  split; [|lia]. split_and!; try done; [|lia|].
  - intros p _. destruct (plane_typed d Ht p) as (_ & [? _] & [? _]). done.
  - intros p Hp. destruct (ds_plane _ _ Hok p) as (Hi & _); [lia|]. split; [done|].
    destruct (ds_object _ _ Hok _ Hi) as (_ & _ & ?). lia.
Qed.


(** ** The call *)

Lemma wp_kernel {A} (c : St process A) w (P : A -> world -> Prop) :
  (forall a m, P a (set_m m w)) -> wp (kernel c) P w.
Proof. intros HP. unfold wp, kernel. destruct (c (w_m w)) as [a m]. apply HP. Qed.

Section Put.
Context {nr : encoder}.

(** What the tables guarantee: the addresses are fresh, the heap images are the
    driver's own, the descriptors are typed. *)
Record put_ready (w : world) : Prop := {
  pr_maps : maps_fresh (w_rt w);
  pr_images : forall i, let slot := image_at (ds_images (w_rt w)) i in
    im_used slot = true -> im_derived slot = false -> exists heap, im_heap slot = Some heap /\ own_pixels heap (im_info slot);
  pr_primes : forall s, descriptor_typed (es_prime (surface_at (ds_encode (w_rt w)) s)) }.

(** The surface's dma-bufs hold the rectangle of the image. *)
Definition surface_written (surface image sx sy width height dx dy : Z) (w w' : world) : Prop :=
  exists i s heap, find_image (ds_images (w_rt w)) image = Some i /\
    get_surface (ds_encode (w_rt w)) surface = Some s /\
    im_heap (image_at (ds_images (w_rt w)) i) = Some heap /\
    let prime := es_prime (surface_at (ds_encode (w_rt w)) s) in
    uploaded prime (plane_inode (fds_of w) prime) heap (im_info (image_at (ds_images (w_rt w)) i))
      sx sy width height dx dy (ds_memory (w_rt w)) (ds_memory (w_rt w')).

Lemma uploaded_duplicate source d ino ino' heap info sx sy width height dx dy mem mem' dups :
  d = with_objects (owned_objects source dups) source -> ino 0 = ino' 0 -> ino 1 = ino' 1 ->
  uploaded d ino heap info sx sy width height dx dy mem mem' ->
  uploaded source ino' heap info sx sy width height dx dy mem mem'.
Proof.
  intros -> E0 E1 [H1 H2 H3 H4].
  assert (forall x y w rows j k, in_rectangle source ino' 0 x y w rows j k ->
    in_rectangle (with_objects (owned_objects source dups) source) ino 0 x y w rows j k) as R0.
  { intros x y w rows j k [-> H]. split; [by rewrite E0|exact H]. }
  assert (forall x y w rows j k, in_rectangle source ino' 1 x y w rows j k <->
    in_rectangle (with_objects (owned_objects source dups) source) ino 1 x y w rows j k) as R1.
  { intros x y w rows j k. unfold in_rectangle. by rewrite E1. }
  split; [done|by rewrite <- E1| |].
  - intros row col Hr Hc k Hk. unfold k. rewrite <- E0. apply (H3 row col Hr Hc). intros Hin. apply Hk, R1. rewrite <- E0. exact Hin.
  - intros j k Hj0 Hj1. apply H4; [|by rewrite <- R1]. intros [-> Hin]. apply Hj0. split; [by rewrite E0|exact Hin].
Qed.

Lemma find_image_used r image i : find_image r image = Some i -> im_used (image_at r i) = true.
Proof. unfold find_image. destruct (image_id_index _ _) as [j|]; [|done]. cbn. destruct (im_used _) eqn:E; [|done]. by intros [= <-]. Qed.

Lemma acquire_for_write surface w : (forall s, descriptor_typed (es_prime (surface_at (ds_encode (w_rt w)) s))) ->
  wp (image_acquire_surface surface ACCESS_WRITE) (fun x w' =>
    let '(status, d, fence) := x in
    w_rt w' = w_rt w /\ fence = -1 /\
    (status = VA_STATUS_SUCCESS -> exists s, get_surface (ds_encode (w_rt w)) surface = Some s /\
       duplicate_of (fds_of w) (fds_of w') (es_prime (surface_at (ds_encode (w_rt w)) s)) d)) w.
Proof.
  intros Ht. unfold image_acquire_surface. apply wp_bind, wp_gets.
  destruct (get_surface (ds_encode (w_rt w)) surface) as [s|] eqn:Es; [|by apply wp_ret]. cbn zeta.
  destruct (state_is (es_state (surface_at (ds_encode (w_rt w)) s)) ENCODE_SURFACE_PENDING); cbn [andb writes]; [by apply wp_ret|].
  apply wp_bind, wp_ret. cbn [negb]. rewrite bool_decide_true by done. cbn [negb]. apply wp_bind, wp_gets.
  destruct (state_is (es_state (surface_at (ds_encode (w_rt w)) s)) ENCODE_SURFACE_ERROR); [by apply wp_ret|].
  apply wp_bind. pose proof (duplicate_spec (es_prime (surface_at (ds_encode (w_rt w)) s)) blank_descriptor (w_m w) (Ht s)) as Hd.
  unfold wp, kernel in *. destruct (duplicate_descriptor _ _ (w_m w)) as [[done d] m]. cbn in Hd.
  destruct Hd as (_ & [-> | ->] & Hd); cbn [fst snd].
  - change (0 <? 0) with false. cbn. split_and!; [done|done|]. intros _. exists s. split; [done|]. by apply Hd.
  - change (-1 <? 0) with true. cbn. split_and!; [done|done|]. intros H. exfalso. revert H. unfold status_from_errno.
    repeat (destruct (_ || _) || destruct (_ =? _)); done.
Qed.

Lemma descriptor_ok_fds t t' d : t = t' -> descriptor_ok t d = descriptor_ok t' d.
Proof. by intros ->. Qed.

Lemma mod_even n : Z.land n 1 = 0 -> n mod 2 = 0.
Proof. change 1 with (Z.ones 1). by rewrite Z.land_ones by lia. Qed.

Lemma put_refused_false sx sy w h dx dy dw dh : put_refused sx sy w h dx dy dw dh = false -> 0 <= w -> 0 <= h ->
  even_rectangle sx sy w h /\ even_rectangle dx dy w h.
Proof.
  unfold put_refused. rewrite !orb_false_iff, !negb_false_iff, !Z.eqb_eq, !Z.ltb_ge, !Z.eqb_neq. intros H Hw Hh. destruct_and!. subst.
  split; split_and!; try done; try lia; by apply mod_even.
Qed.

(** The surface may be written: nothing, or the whole rectangle. *)
Definition put_effect (surface image sx sy width height dx dy : Z) (w : world) (status : va_status) (w' : world) : Prop :=
  let written := surface_written surface image sx sy width height dx dy w w' in
  ir_images (ds_images (w_rt w')) = ir_images (ds_images (w_rt w)) /\
  ds_maps (w_rt w') = ds_maps (w_rt w) /\
  (ds_memory (w_rt w') = ds_memory (w_rt w) \/ written) /\
  (status = VA_STATUS_SUCCESS -> written).

Lemma wp_validate_linear d one w (P : Z -> world -> Prop) :
  (forall m, m_fds m = fds_of w -> P (if descriptor_ok (fds_of w) d && linear_nv12 d one then 0 else -1) (set_m m w)) ->
  wp (kernel (validate_linear_nv12 d one)) P w.
Proof.
  intros HP. unfold wp, kernel, validate_linear_nv12. rewrite bind_seq, validate_desc.
  change (m_fds (w_m w)) with (fds_of w). destruct (descriptor_ok (fds_of w) d); cbn; [|by apply HP].
  destruct (linear_nv12 d one); by apply HP.
Qed.

Lemma put_acquired_spec image i surface s heap sx sy width height dx dy d w0 w :
  w_rt w = w_rt w0 -> put_ready w0 ->
  find_image (ds_images (w_rt w0)) image = Some i -> get_surface (ds_encode (w_rt w0)) surface = Some s ->
  im_heap (image_at (ds_images (w_rt w0)) i) = Some heap -> own_pixels heap (im_info (image_at (ds_images (w_rt w0)) i)) ->
  duplicate_of (fds_of w0) (fds_of w) (es_prime (surface_at (ds_encode (w_rt w0)) s)) d ->
  even_rectangle sx sy width height -> even_rectangle dx dy width height ->
  sx + width <= vi_width (im_info (image_at (ds_images (w_rt w0)) i)) ->
  sy + height <= vi_height (im_info (image_at (ds_images (w_rt w0)) i)) ->
  wp (put_acquired encode_image_ops i sx sy width height d (-1) dx dy) (fun x w' =>
    exists status, x = Some status /\ put_effect surface image sx sy width height dx dy w0 status w' /\
      ds_encode (w_rt w') = ds_encode (w_rt w0)) w.
Proof.
  intros Ew [Hmaps _ Hprimes] Hi Hs Hheap Hown Hdup Hsrc Hdst Hx Hy.
  assert (forall status w', w_rt w' = w_rt w0 -> status <> VA_STATUS_SUCCESS ->
    exists st, Some status = Some st /\ put_effect surface image sx sy width height dx dy w0 st w' /\
      ds_encode (w_rt w') = ds_encode (w_rt w0)) as Hfail.
  { intros status w' E Hne. exists status. split; [done|]. unfold put_effect. rewrite E. split_and!; try done; by left. }
  unfold put_acquired. apply wp_bind. change (-1 <? -1) with false. cbn match. apply wp_bind, wp_validate_linear.
  intros m Hm. apply wp_ret.
  assert (w_rt (set_m m w) = w_rt w0) as E1 by exact Ew. assert (fds_of (set_m m w) = fds_of w) as F1 by exact Hm.
  revert E1 F1. generalize (set_m m w). intros w1 E1 F1.
  destruct (descriptor_ok (fds_of w) d && linear_nv12 d false) eqn:Eok; cycle 1.
  { apply wp_ret. by apply Hfail. }
  destruct (_ && _ && _) eqn:Eb; cycle 1.
  { apply wp_ret. by apply Hfail. }
  rewrite !andb_true_iff, !Z.leb_le in Eb. destruct Eb as [[_ Hdx] Hdy]. apply andb_true_iff in Eok as [Eok El].
  apply wp_bind, wp_ret. change (0 <? 0) with false. cbn match.
  destruct (validated_good _ _ dx dy width height (duplicate_typed _ _ _ _ (Hprimes s) Hdup) Eok El) as [Hgood H4]; [done|done|].
  eapply wp_mono; [apply (upload_spec encode_image_ops eq_refl i heap (im_info (image_at (ds_images (w_rt w0)) i)) sx sy width height d dx dy w1)|]; try rewrite E1; try done.
  intros x w' (status & -> & Hf & He & Him & Hmp & _ & Hmem & Hok). exists status. split; [done|].
  rewrite E1, F1 in *. split; [|done].
  assert (uploaded d (plane_inode (fds_of w) d) heap (im_info (image_at (ds_images (w_rt w0)) i)) sx sy width height dx dy
    (ds_memory (w_rt w0)) (ds_memory (w_rt w')) -> surface_written surface image sx sy width height dx dy w0 w') as Hwr.
  { intros Hu. exists i, s, heap. split_and!; [done|done|done|]. cbn zeta. pose proof Hdup as (dups & Hd & _).
    destruct Hgood as (_ & _ & _ & _ & _ & _ & Hp).
    eapply (uploaded_duplicate _ _ _ _ _ _ _ _ _ _ _ _ _ _ _ Hd); [| |exact Hu];
      (eapply duplicate_plane; [by apply Hprimes|exact Hdup|by apply Hp; auto|done]). }
  split_and!; [done|done| |].
  - destruct Hmem as [?|Hu]; [by left|right; by apply Hwr].
  - intros Hst. apply Hwr. by apply Hok.
Qed.

(** C3. vaPutImage, whole: the call never leaves the image's or a mapping's memory,
    maps nothing that it does not unmap, changes no image, and either leaves every
    dma-buf as it was or writes into the surface's own dma-bufs exactly the rectangle
    of the image, luma and chroma; when it answers success, it has written. *)
Theorem image_put_exact surface image sx sy width height dx dy dw dh w :
  put_ready w -> 0 <= width -> 0 <= height ->
  wp (advc_vaapi_image_put encode_image_ops surface image sx sy width height dx dy dw dh) (fun x w' =>
    exists status, x = Some status /\ put_effect surface image sx sy width height dx dy w status w') w.
Proof.
  intros Hr Hw Hh.
  assert (forall status w', w_rt w' = w_rt w -> status <> VA_STATUS_SUCCESS ->
    exists st, Some status = Some st /\ put_effect surface image sx sy width height dx dy w st w') as Hfail.
  { intros status w' E Hne. exists status. split; [done|]. unfold put_effect. rewrite E. split_and!; try done; by left. }
  unfold advc_vaapi_image_put. cbn [io_acquire_surface encode_image_ops].
  destruct (put_refused sx sy width height dx dy dw dh) eqn:Eref; [apply wp_ret; by apply Hfail|].
  destruct (put_refused_false _ _ _ _ _ _ _ _ Eref Hw Hh) as [Hsrc Hdst].
  apply wp_bind, wp_gets. destruct (find_image (ds_images (w_rt w)) image) as [i|] eqn:Ei; [|apply wp_ret; by apply Hfail]. cbn zeta.
  destruct (im_derived _ || _ || _ || _) eqn:Eg.
  { apply wp_ret, Hfail; [done|]. by destruct (im_mapped _). }
  rewrite !orb_false_iff, !Z.ltb_ge in Eg. destruct Eg as [[[Hder _] Hx] Hy].
  destruct (pr_images w Hr i (find_image_used _ _ _ Ei) Hder) as (heap & Hheap & Hown).
  apply wp_bind. eapply wp_mono; [apply acquire_for_write, pr_primes, Hr|]. intros [[status d] fence] w1 (E1 & -> & Hst).
  case_bool_decide as Hok; cbn [negb]; cycle 1.
  { apply wp_bind, wp_kernel. intros ? m. apply wp_bind, wp_kernel. intros ? m'. apply wp_ret. by apply Hfail. }
  destruct (Hst Hok) as (s & Hs & Hdup). apply wp_bind.
  eapply wp_mono; [by apply (put_acquired_spec image i surface s heap sx sy width height dx dy d w)|].
  intros x w2 (st & -> & (H1 & H2 & H3 & H4) & He).
  apply wp_bind, wp_kernel. intros ? m. apply wp_bind, wp_kernel. intros ? m'. apply wp_bind.
  apply (wp_mono _ (fun _ w' => ds_images (w_rt w') = ds_images (w_rt w2) /\ ds_maps (w_rt w') = ds_maps (w_rt w2) /\
    ds_memory (w_rt w') = ds_memory (w_rt w2))).
  { unfold release_to_owner. cbn [io_release_surface encode_image_ops]. unfold image_release_surface.
    case_match; [by apply wp_ret|]. apply wp_bind, wp_gets. case_match; [by apply wp_set|by apply wp_ret]. }
  intros [] w3 (G1 & G2 & G3). apply wp_ret. exists st. split; [done|].
  assert (surface_written surface image sx sy width height dx dy w w2 ->
          surface_written surface image sx sy width height dx dy w w3) as Hwr.
  { intros (i' & s' & heap' & ? & ? & ? & Hu). exists i', s', heap'. split_and!; [done|done|done|]. by rewrite G3. }
  split_and!; [by rewrite G1|by rewrite G2| |by intros; apply Hwr, H4].
  rewrite G3. destruct H3 as [?|?]; [by left|right; by apply Hwr].
Qed.

End Put.

(** ** A small upload *)

Lemma table_at {A} (P : A -> Prop) (z x : A) n i : P z -> P x -> P (default z ((x :: replicate n z) !! i)).
Proof.
  intros Hz Hx. destruct ((x :: replicate n z) !! i) as [y|] eqn:E; [|done].
  apply list_elem_of_lookup_2, elem_of_cons in E as [->|E]; [done|]. by apply elem_of_replicate_inv in E as ->.
Qed.

Lemma small_ready : put_ready small_world.
Proof.
  split.
  - split; [done|]. intros a [x Hx]. done.
  - intros i. cbn zeta. apply (table_at (fun slot => im_used slot = true -> im_derived slot = false ->
      exists heap, im_heap slot = Some heap /\ own_pixels heap (im_info slot))); [done|].
    intros _ _. eexists. split; [done|]. exists 0%nat, VA_FOURCC_I420, 4, 4. split_and!; try done. by right.
  - intros s. apply (table_at (fun x => descriptor_typed (es_prime x)));
      unfold descriptor_typed; split_and!; try done; repeat (apply Forall_cons; split); try apply Forall_nil; done.
Qed.

Notation small_put := (advc_vaapi_image_put encode_image_ops SMALL_SURFACE SMALL_IMAGE 0 2 4 2 8 6 4 2).

(** The lower half of the image goes to column 8, rows 6 and 7; its chroma to row 3. *)
Lemma image_put_exact_witness :
  put_ready small_world /\
  fst (small_put small_world) = Some VA_STATUS_SUCCESS /\
  take 4 (drop 104 (default [] (ds_memory (w_rt (snd (small_put small_world))) !! 9))) = [108; 109; 110; 111] /\
  take 4 (drop 312 (default [] (ds_memory (w_rt (snd (small_put small_world))) !! 9))) = [118; 122; 119; 123] /\
  exists status, fst (small_put small_world) = Some status /\
    put_effect SMALL_SURFACE SMALL_IMAGE 0 2 4 2 8 6 small_world status (snd (small_put small_world)).
Proof.
  split; [apply small_ready|]. split; [vm_compute; reflexivity|]. split; [vm_compute; reflexivity|].
  split; [vm_compute; reflexivity|].
  apply (image_put_exact SMALL_SURFACE SMALL_IMAGE 0 2 4 2 8 6 4 2 small_world small_ready); done.
Defined.
