(* ===== verification/EncodeKeeps.v ===== *)
(** * Calls that leave the encode tables alone

    Whatever is said to the broker, mapped, waited for or closed, the tables of the
    encode runtime stay what they were.  [keeps] says so; the tactic of that name
    proves it by following the code. *)

From stdpp Require Import base list gmap.
From Stdlib Require Import ZArith Lia Bool String.
#[local] Notation length := List.length.
From S2P Require Import Prelude Kernel Protocol Dmabuf Engine Broker Client ClientConnect World EncodeEos VaapiRoutes VaapiPolicy Va EncodeParams EncodeState EncodeWorld EncodeBroker EncodeLink EncodeSync EncodeRuntime Image.
Notation world := (world_of driver_state).

Definition tables (w : world) : enc_runtime := ds_encode (w_rt w).

Definition keeps {A} (c : St world A) : Prop := forall w, tables (snd (c w)) = tables w.

Create HintDb keeps discriminated.

Lemma wp_keeps {A} (c : St world A) w (P : A -> world -> Prop) : keeps c ->
  (forall a w', tables w' = tables w -> P a w') -> wp c P w.
Proof. intros Hc HP. apply HP, Hc. Qed.

Lemma keeps_value {A} (a : A) : keeps (mret a).
Proof. by intros w. Qed.
Lemma keeps_seq {A C} (c : St world A) (k : A -> St world C) : keeps c -> (forall a, keeps (k a)) -> keeps (c ≫= k).
Proof. intros Hc Hk w. rewrite st_seq, Hk. apply Hc. Qed.
Lemma keeps_kernel {A} (c : St process A) : keeps (kernel c).
Proof. intros w. unfold kernel. by destruct (c (w_m w)). Qed.
Lemma keeps_socket {A} fd (c : list Z -> St process A) : keeps (on_socket fd c).
Proof. intros w. unfold on_socket. by destruct (c _ _). Qed.
Lemma keeps_attach fd : keeps (attach_peer (R := driver_state) fd).
Proof. by intros w. Qed.
Lemma keeps_gets {A} (f : world -> A) : keeps (gets f).
Proof. by intros w. Qed.
Lemma keeps_update f : (forall d, ds_encode (f d) = ds_encode d) -> keeps (update f).
Proof. intros Hf w. apply Hf. Qed.
Lemma keeps_image f : keeps (image_update f).
Proof. by apply keeps_update. Qed.
Lemma keeps_for_each {A} (l : list A) f : (forall x, keeps (f x)) -> keeps (for_each l f).
Proof. intros Hf. induction l as [|x l IH]; [apply keeps_value|]. by apply keeps_seq. Qed.
#[export] Hint Resolve keeps_value keeps_kernel keeps_socket keeps_attach keeps_gets keeps_image : keeps.

(** One step of the code. *)
Ltac keeps_step :=
  lazymatch goal with
  | |- keeps (_ ≫= _) => apply keeps_seq; [|intros ?]
  | |- keeps (update _) => apply keeps_update; done
  | |- keeps (for_each _ _) => apply keeps_for_each; intros ?
  | |- keeps (match ?x with _ => _ end) => destruct x
  | |- keeps _ => first [solve [eauto with keeps nocore]|progress cbn beta zeta|progress cbn iota]
  end.
Ltac keeps := repeat keeps_step.

Lemma keeps_mmap shared fd size : keeps (sys_mmap shared fd size).
Proof. unfold sys_mmap. keeps. Qed.
Lemma keeps_munmap a : keeps (sys_munmap a).
Proof. unfold sys_munmap. keeps. Qed.
Lemma keeps_heap size : keeps (dma_heap_alloc size).
Proof. unfold dma_heap_alloc, the_runtime. keeps. Qed.
#[export] Hint Resolve keeps_mmap keeps_munmap keeps_heap : keeps.

Section Keeps.
Context {nr : encoder}.

Lemma keeps_monotonic_ms : keeps monotonic_ms.
Proof. unfold monotonic_ms. keeps. Qed.
Hint Resolve keeps_monotonic_ms : keeps.
Lemma keeps_wait_retry d : keeps (wait_retry d).
Proof. unfold wait_retry. keeps. Qed.
Lemma keeps_close b : keeps (advc_vaapi_encode_broker_close b).
Proof. unfold advc_vaapi_encode_broker_close. keeps. Qed.
Hint Resolve keeps_wait_retry keeps_close : keeps.
Lemma keeps_open b path codec profile w h br fr : keeps (advc_vaapi_encode_broker_open b path codec profile w h br fr).
Proof. unfold advc_vaapi_encode_broker_open, connect_broker, open_session, open_failed. keeps. Qed.
Lemma keeps_allocate_from n size : keeps (allocate_from n size).
Proof. induction n; cbn [allocate_from]; keeps. Qed.
Hint Resolve keeps_allocate_from : keeps.
Lemma keeps_allocate id w h d : keeps (advc_vaapi_encode_surface_allocate_linear id w h d).
Proof. unfold advc_vaapi_encode_surface_allocate_linear, allocate_system_heap. keeps. Qed.
Lemma keeps_refused s e : keeps (refused s e).
Proof. unfold refused. keeps. Qed.
Hint Resolve keeps_refused : keeps.
Lemma keeps_register b d : keeps (advc_vaapi_encode_broker_register_surface b d).
Proof. unfold advc_vaapi_encode_broker_register_surface. keeps. Qed.
Lemma keeps_unregister b id : keeps (advc_vaapi_encode_broker_unregister_surface b id).
Proof. unfold advc_vaapi_encode_broker_unregister_surface. keeps. Qed.
Lemma keeps_submit b id pts fence : keeps (advc_vaapi_encode_broker_submit_surface b id pts fence).
Proof. unfold advc_vaapi_encode_broker_submit_surface. keeps. Qed.
Lemma keeps_signal b pts : keeps (advc_vaapi_encode_broker_signal_eos b pts).
Proof. unfold advc_vaapi_encode_broker_signal_eos. keeps. Qed.
Lemma keeps_unmap l : keeps (unmap_segments l).
Proof. induction l; cbn [unmap_segments]; keeps. Qed.
Hint Resolve keeps_register keeps_unregister keeps_submit keeps_signal keeps_unmap : keeps.
Lemma keeps_coded_close o : keeps (advc_vaapi_encode_coded_output_close o).
Proof. unfold advc_vaapi_encode_coded_output_close. keeps. Qed.
Hint Resolve keeps_coded_close : keeps.
Lemma keeps_append b o part : keeps (append_output b o part).
Proof. unfold append_output. keeps. Qed.
Hint Resolve keeps_append : keeps.
Lemma keeps_receive_loop fuel b t d o : keeps (receive_loop fuel b t d o).
Proof. revert o. induction fuel; intros o; cbn [receive_loop]; unfold receive_failed, output_close; keeps. Qed.
Hint Resolve keeps_receive_loop : keeps.
Lemma keeps_receive b t o : keeps (advc_vaapi_encode_broker_receive b t o).
Proof. unfold advc_vaapi_encode_broker_receive. keeps. Qed.

Lemma keeps_link_register k d b : keeps (advc_vaapi_encode_surface_link_register k d b).
Proof. unfold advc_vaapi_encode_surface_link_register. keeps. Qed.
Lemma keeps_link_submit k d b pts : keeps (advc_vaapi_encode_surface_link_submit k d b pts).
Proof. unfold advc_vaapi_encode_surface_link_submit. keeps. Qed.
Lemma keeps_link_unregister k d b t : keeps (advc_vaapi_encode_surface_link_unregister k d b t).
Proof. unfold advc_vaapi_encode_surface_link_unregister. keeps. Qed.
Lemma keeps_now : keeps context_eos_now_ms.
Proof. unfold context_eos_now_ms. keeps. Qed.
Lemma keeps_eos_signal c pts : keeps (context_eos_signal c pts).
Proof. unfold context_eos_signal. keeps. Qed.
End Keeps.
#[export] Hint Resolve keeps_monotonic_ms keeps_wait_retry keeps_close keeps_open keeps_allocate keeps_register
  keeps_unregister keeps_submit keeps_signal keeps_unmap keeps_coded_close keeps_receive keeps_link_register
  keeps_link_submit keeps_link_unregister keeps_now keeps_eos_signal : keeps.

Section Images.
Context (ops : image_ops) (Hwait : io_wait_fence ops = None) (Hsync : io_dma_buf_sync ops = None).

Lemma keeps_dma_sync fd flags : keeps (runtime_dma_sync ops fd flags).
Proof. unfold runtime_dma_sync. rewrite Hsync. keeps. Qed.
Lemma keeps_wait_fence fd : keeps (runtime_wait_fence ops fd).
Proof. unfold runtime_wait_fence. rewrite Hwait. keeps. Qed.
Hint Resolve keeps_dma_sync keeps_wait_fence : keeps.
Lemma keeps_begin_maps n d l : keeps (begin_maps ops n d l).
Proof. revert l. induction n; intros l; cbn [begin_maps]; unfold maps_failed, undo_maps; keeps. Qed.
Lemma keeps_end_maps d l i e : keeps (end_maps ops d l i e).
Proof. revert i e. induction l; intros i e; cbn [end_maps]; keeps. Qed.
Hint Resolve keeps_begin_maps keeps_end_maps : keeps.
Lemma keeps_put_acquired i sx sy w h d fence dx dy : keeps (put_acquired ops i sx sy w h d fence dx dy).
Proof. unfold put_acquired, upload, end_object_maps, begin_object_maps, the_runtime. keeps. Qed.
Lemma keeps_unmap_slot i : keeps (unmap_slot ops i).
Proof. unfold unmap_slot, image_tables. keeps. Qed.
Lemma keeps_image_map id : keeps (advc_vaapi_image_map_buffer ops id).
Proof. unfold advc_vaapi_image_map_buffer, image_tables. keeps. Qed.
Lemma keeps_image_unmap id : keeps (advc_vaapi_image_unmap_buffer ops id).
Proof. unfold advc_vaapi_image_unmap_buffer, image_tables. keeps. Qed.
Lemma keeps_image_create fourcc w h : keeps (advc_vaapi_image_create fourcc w h).
Proof. unfold advc_vaapi_image_create, image_tables. keeps. Qed.
End Images.
#[export] Hint Resolve keeps_put_acquired keeps_unmap_slot keeps_image_map keeps_image_unmap keeps_image_create : keeps.
