(* ===== verification/EncodeQueue.v ===== *)
(** * The queue of submissions (src/src/vaapi_advc/advc_vaapi_encode_runtime.c)

    A context's pending surfaces are a queue of (surface, coded buffer): [queued r Q]
    says that the tables [r] hold the queues [Q].  The searches and loops of the code
    are the operations of a queue: the oldest pending surface is its head, and a
    failure empties it. *)

From stdpp Require Import base list gmap sorting.
From Stdlib Require Import ZArith Lia Bool String Sorted.
#[local] Notation length := List.length.
From S2P Require Import Prelude Kernel Protocol Dmabuf Engine Broker Client ClientConnect World EncodeEos VaapiRoutes VaapiPolicy Va EncodeParams EncodeState EncodeWorld EncodeBroker EncodeLink EncodeSync EncodeRuntime EncodeKeeps.
Notation world := (world_of driver_state).

(** ** Slots *)

Section Slots.
Context {A : Type} (z : A).
Definition slot_at (l : list A) (i : nat) : A := default z (l !! i).
Lemma slot_other f l i j : i <> j -> slot_at (alter f i l) j = slot_at l j.
Proof. intros H. unfold slot_at. by rewrite list_lookup_alter_ne. Qed.
Lemma slot_same f l i : (i < length l)%nat -> slot_at (alter f i l) i = f (slot_at l i).
Proof.
  intros H. unfold slot_at. rewrite list_lookup_alter_eq. apply lookup_lt_is_Some in H as [x Hx]. by rewrite Hx.
Qed.
Lemma slot_out f l i : (length l <= i)%nat -> slot_at (alter f i l) i = slot_at l i.
Proof. intros H. unfold slot_at. rewrite list_lookup_alter_eq, lookup_ge_None_2 by done. done. Qed.
(** A property of every slot survives an update that keeps it. *)
Lemma slot_cases f l i j : slot_at (alter f i l) j = slot_at l j \/
  (i = j /\ (i < length l)%nat /\ slot_at (alter f i l) j = f (slot_at l j)).
Proof.
  destruct (decide (i = j)) as [<-|H]; [|left; by apply slot_other].
  destruct (decide (i < length l)%nat); [right; split_and!; [done|done|by apply slot_same]|left; apply slot_out; lia].
Qed.
End Slots.

Lemma surface_at_slot r s : surface_at r s = slot_at zero_surface (er_surfaces r) s.
Proof. done. Qed.

(** The slot an identifier names. *)
Definition context_ix (id : Z) : option nat := id_index id ADVC_VAAPI_ENCODE_CONTEXT_TYPE ADVC_ENCODE_CONTEXT_SLOTS.
Definition surface_ix (id : Z) : option nat := id_index id ADVC_VAAPI_ENCODE_SURFACE_TYPE ADVC_ENCODE_SURFACE_SLOTS.
Definition buffer_ix (id : Z) : option nat := id_index id ADVC_VAAPI_ENCODE_BUFFER_TYPE ADVC_ENCODE_BUFFER_SLOTS.

Lemma get_context_ix r id c : get_context r id = Some c <-> context_ix id = Some c /\ en_used (context_at r c) = true.
Proof.
  unfold get_context, context_ix. destruct (id_index _ _ _) as [i|]; cbn; [|split; [done|by intros []]].
  destruct (en_used (context_at r i)) eqn:E; split; [by intros [= <-]|by intros [[= <-] _]|done|intros [[= <-] H]; congruence].
Qed.
Lemma get_surface_ix r id s : get_surface r id = Some s <-> surface_ix id = Some s /\ es_used (surface_at r s) = true.
Proof.
  unfold get_surface, surface_ix. destruct (id_index _ _ _) as [i|]; cbn; [|split; [done|by intros []]].
  destruct (es_used (surface_at r i)) eqn:E; split; [by intros [= <-]|by intros [[= <-] _]|done|intros [[= <-] H]; congruence].
Qed.
Lemma get_buffer_ix r id k : get_buffer r id = Some k <-> buffer_ix id = Some k /\ bu_used (buffer_at r k) = true.
Proof.
  unfold get_buffer, buffer_ix. destruct (id_index _ _ _) as [i|]; cbn; [|split; [done|by intros []]].
  destruct (bu_used (buffer_at r i)) eqn:E; split; [by intros [= <-]|by intros [[= <-] _]|done|intros [[= <-] H]; congruence].
Qed.

Lemma surface_ix_invalid : surface_ix VA_INVALID_SURFACE = None.
Proof. done. Qed.
Lemma context_ix_zero : context_ix 0 = None.
Proof. done. Qed.

(** ** The queues *)

Definition queues : Type := nat -> list (nat * nat).
Definition set_queue (c : nat) (q : list (nat * nat)) (Q : queues) : queues := fun c' => if decide (c' = c) then q else Q c'.

Lemma set_queue_same c q Q : set_queue c q Q c = q.
Proof. unfold set_queue. by rewrite decide_True. Qed.
Lemma set_queue_other c q Q c' : c' <> c -> set_queue c q Q c' = Q c'.
Proof. intros H. unfold set_queue. by rewrite decide_False. Qed.

(** In context [c] surface [s] waits for its output, which goes to buffer [k]. *)
Record waiting (r : enc_runtime) (c s k : nat) : Prop := {
  wt_context : en_used (context_at r c) = true;
  wt_open : en_broker_open (context_at r c) = true;
  wt_used : es_used (surface_at r s) = true;
  wt_state : es_state (surface_at r s) = ENCODE_SURFACE_PENDING;
  wt_owner : context_ix (es_owner_context (surface_at r s)) = Some c;
  wt_coded : buffer_ix (pg_coded_buffer (es_progress (surface_at r s))) = Some k;
  wt_buffer : bu_used (buffer_at r k) = true;
  wt_type : bu_type (buffer_at r k) = VAEncCodedBufferType;
  wt_pending : surface_ix (bu_pending_surface (buffer_at r k)) = Some s;
  wt_index : submit_index r s < en_frame_index (context_at r c) }.

(** The largest number a frame is submitted with. *)
Definition MAX_FRAME_INDEX : Z := UINT64_MAX / 1000000000000.

Definition older_entry (r : enc_runtime) (a b : nat * nat) : Prop := submit_index r a.1 < submit_index r b.1.

Record queued (r : enc_runtime) (Q : queues) : Prop := {
  q_sizes : length (er_contexts r) = 4%nat /\ length (er_surfaces r) = 64%nat /\ length (er_buffers r) = 256%nat;
  q_waiting : forall c s k, (s, k) ∈ Q c -> waiting r c s k;
  q_surface : forall s, es_used (surface_at r s) = true -> es_state (surface_at r s) = ENCODE_SURFACE_PENDING ->
                exists c k, (s, k) ∈ Q c;
  q_buffer : forall k, bu_used (buffer_at r k) = true -> bu_pending_surface (buffer_at r k) <> VA_INVALID_SURFACE ->
                exists c s, (s, k) ∈ Q c;
  q_sorted : forall c, StronglySorted (older_entry r) (Q c);
  q_count : forall c, en_used (context_at r c) = true -> en_pending_count (context_at r c) = zlen (Q c);
  q_frames : forall c, en_used (context_at r c) = true -> 0 <= en_frame_index (context_at r c) <= MAX_FRAME_INDEX + 1;
  q_target : forall c s, en_used (context_at r c) = true -> en_picture_active (context_at r c) = true ->
                surface_ix (en_target (context_at r c)) = Some s -> s ∉ (Q c).*1 }.

Lemma on_surface_at f r s s' : surface_at (on_surface s f r) s' = surface_at r s' \/
  (s = s' /\ (s < length (er_surfaces r))%nat /\ surface_at (on_surface s f r) s' = f (surface_at r s')).
Proof. apply (slot_cases zero_surface). Qed.
Lemma on_context_at f r c c' : context_at (on_context c f r) c' = context_at r c' \/
  (c = c' /\ (c < length (er_contexts r))%nat /\ context_at (on_context c f r) c' = f (context_at r c')).
Proof. apply (slot_cases zero_context). Qed.
Lemma on_buffer_at f r k k' : buffer_at (on_buffer k f r) k' = buffer_at r k' \/
  (k = k' /\ (k < length (er_buffers r))%nat /\ buffer_at (on_buffer k f r) k' = f (buffer_at r k')).
Proof. apply (slot_cases zero_buffer). Qed.

(** *** What the queues depend on *)

Definition surface_view (x : enc_surface) : option (Z * Z * Z) :=
  if es_used x && state_is (es_state x) ENCODE_SURFACE_PENDING
  then Some (es_owner_context x, pg_coded_buffer (es_progress x), pg_submit_index (es_progress x)) else None.
Definition buffer_view (u : enc_buffer) : option (encode_buffer_type * Z) :=
  if bu_used u && negb (bu_pending_surface u =? VA_INVALID_SURFACE) then Some (bu_type u, bu_pending_surface u) else None.

Lemma surface_view_some x v : surface_view x = Some v <->
  es_used x = true /\ es_state x = ENCODE_SURFACE_PENDING /\
  v = (es_owner_context x, pg_coded_buffer (es_progress x), pg_submit_index (es_progress x)).
Proof.
  unfold surface_view, state_is. destruct (es_used x); cbn; [|split; [done|by intros []]].
  case_bool_decide; split; [by intros [= <-]|by intros (_ & _ & ->)|done|by intros (_ & ? & _)].
Qed.
Lemma buffer_view_some u v : buffer_view u = Some v <->
  bu_used u = true /\ bu_pending_surface u <> VA_INVALID_SURFACE /\ v = (bu_type u, bu_pending_surface u).
Proof.
  unfold buffer_view. destruct (bu_used u); cbn; [|split; [done|by intros []]].
  destruct (Z.eqb_spec (bu_pending_surface u) VA_INVALID_SURFACE); cbn; split; [done|by intros (_ & ? & _)|by intros [= <-]|by intros (_ & _ & ->)].
Qed.

Lemma waiting_views r c s k : waiting r c s k <->
  en_used (context_at r c) = true /\ en_broker_open (context_at r c) = true /\
  exists owner coded index pending, surface_view (surface_at r s) = Some (owner, coded, index) /\
    buffer_view (buffer_at r k) = Some (VAEncCodedBufferType, pending) /\ context_ix owner = Some c /\
    buffer_ix coded = Some k /\ surface_ix pending = Some s /\ index < en_frame_index (context_at r c).
Proof.
  split.
  - intros []. split_and!; [done|done|]. do 4 eexists. rewrite surface_view_some, buffer_view_some. split_and!; try done.
    + intros E. rewrite E in *. done.
    + by rewrite wt_type0.
  - intros (H1 & H2 & owner & coded & index & pending & (Hu & Hs & E1)%surface_view_some & (Hb & Hp & E2)%buffer_view_some & H3 & H4 & H5 & H6).
    injection E1 as -> -> ->. injection E2 as E2 ->. by split.
Qed.

(** The same surfaces and buffers wait. *)
Record same_views (r r' : enc_runtime) : Prop := {
  vw_sizes : length (er_contexts r') = length (er_contexts r) /\ length (er_surfaces r') = length (er_surfaces r) /\
             length (er_buffers r') = length (er_buffers r);
  vw_surface : forall s, surface_view (surface_at r' s) = surface_view (surface_at r s);
  vw_buffer : forall k, buffer_view (buffer_at r' k) = buffer_view (buffer_at r k);
  vw_context : forall c, context_at r' c = context_at r c }.

#[export] Instance same_views_preorder : PreOrder same_views.
Proof.
  split; [by intros r; split|]. intros a b c [(A1 & A2 & A3) A4 A5 A6] [(B1 & B2 & B3) B4 B5 B6].
  split; [split_and!; congruence|intros; by rewrite B4|intros; by rewrite B5|intros; by rewrite B6].
Qed.

Lemma queued_views r r' Q : same_views r r' -> queued r Q -> queued r' Q.
Proof.
  intros [(N1 & N2 & N3) Vs Vb Vc] [(M1 & M2 & M3) H2 H3 H4 H5 H6 H7 H8].
  assert (forall c s k, (s, k) ∈ Q c -> waiting r' c s k) as H2'.
  { intros c s k Hin. apply H2 in Hin. apply waiting_views in Hin. apply waiting_views. by rewrite Vs, Vb, Vc. }
  split; [split_and!; congruence|done| | | | | |].
  - intros s Hu Hs. assert (is_Some (surface_view (surface_at r' s))) as [v Hv] by (eexists; by apply surface_view_some).
    rewrite Vs in Hv. apply surface_view_some in Hv as (? & ? & _). by apply H3.
  - intros k Hu Hp. assert (is_Some (buffer_view (buffer_at r' k))) as [v Hv] by (eexists; by apply buffer_view_some).
    rewrite Vb in Hv. apply buffer_view_some in Hv as (? & ? & _). by apply H4.
  - intros c. specialize (H5 c).
    assert (forall s, s ∈ (Q c).*1 -> submit_index r' s = submit_index r s) as E.
    { intros s ([s' k] & -> & Hin)%list_elem_of_fmap. cbn. pose proof (H2 _ _ _ Hin) as Hw. apply waiting_views in Hw as (_ & _ & o & cd & ix & p & Hv & _).
      pose proof Hv as Hv'. rewrite <- Vs in Hv'. apply surface_view_some in Hv as (_ & _ & E1), Hv' as (_ & _ & E2). unfold submit_index. congruence. }
    clear -H5 E. induction H5 as [|a l Hl IH Ha]; constructor.
    + apply IH. intros s Hs. apply E. cbn. by right.
    + rewrite Forall_forall in *. intros b Hb. specialize (Ha b Hb). unfold older_entry in *.
      rewrite !E; [done|cbn; right; by apply list_elem_of_fmap_2|cbn; left; by destruct a].
  - intros c. rewrite Vc. apply H6.
  - intros c. rewrite Vc. apply H7.
  - intros c s. rewrite Vc. apply H8.
Qed.

Lemma same_views_surface f r s : surface_view (f (surface_at r s)) = surface_view (surface_at r s) -> same_views r (on_surface s f r).
Proof.
  intros Hf. split; [cbn; by rewrite length_alter| |done|done].
  intros s'. destruct (on_surface_at f r s s') as [->|(<- & _ & ->)]; done.
Qed.
Lemma same_views_buffer f r k : buffer_view (f (buffer_at r k)) = buffer_view (buffer_at r k) -> same_views r (on_buffer k f r).
Proof.
  intros Hf. split; [cbn; by rewrite length_alter|done| |done].
  intros k'. destruct (on_buffer_at f r k k') as [->|(<- & _ & ->)]; done.
Qed.

(** A context changes: what its new state [x] must satisfy. *)
Record context_good (r : enc_runtime) (c : nat) (Q : queues) (x : enc_context) : Prop := {
  cg_idle : en_used x = false \/ en_broker_open x = false -> Q c = [];
  cg_count : en_used x = true -> en_pending_count x = zlen (Q c);
  cg_frames : en_used x = true -> 0 <= en_frame_index x <= MAX_FRAME_INDEX + 1;
  cg_index : Q c = [] \/ en_frame_index (context_at r c) <= en_frame_index x;
  cg_target : forall s, en_used x = true -> en_picture_active x = true -> surface_ix (en_target x) = Some s -> s ∉ (Q c).*1 }.

Lemma queued_context f r c Q : queued r Q -> context_good r c Q (f (context_at r c)) -> queued (on_context c f r) Q.
Proof.
  intros [(M1 & M2 & M3) H2 H3 H4 H5 H6 H7 H8] [G1 G2 G3 G4 G5].
  split; [cbn; by rewrite length_alter| |done|done|done| | |].
  - intros c' s k Hin. pose proof (H2 _ _ _ Hin) as Hw. destruct (on_context_at f r c c') as [E|(<- & _ & E)].
    + destruct Hw. split; rewrite ?E; done.
    + assert (Q c <> []) as Hq by (intros Hq; rewrite Hq in Hin; by apply not_elem_of_nil in Hin).
      destruct Hw. split; rewrite ?E; try done.
      * destruct (en_used (f (context_at r c))); [done|]. exfalso. apply Hq, G1. by left.
      * destruct (en_broker_open (f (context_at r c))); [done|]. exfalso. apply Hq, G1. by right.
      * change (submit_index (on_context c f r) s) with (submit_index r s). destruct G4; [done|lia].
  - intros c'. destruct (on_context_at f r c c') as [->|(<- & _ & ->)]; [apply H6|apply G2].
  - intros c'. destruct (on_context_at f r c c') as [->|(<- & _ & ->)]; [apply H7|apply G3].
  - intros c' s. destruct (on_context_at f r c c') as [->|(<- & _ & ->)]; [apply H8|apply G5].
Qed.

(** The members the queues do not depend on. *)
Lemma queued_context_same f r c Q : queued r Q ->
  (let x := context_at r c in en_used (f x) = en_used x /\ en_broker_open (f x) = en_broker_open x /\
     en_pending_count (f x) = en_pending_count x /\ en_frame_index (f x) = en_frame_index x /\
     (en_picture_active (f x) = true -> en_picture_active x = true /\ en_target (f x) = en_target x)) ->
  queued (on_context c f r) Q.
Proof.
  intros H (E1 & E2 & E3 & E4 & E5). apply queued_context; [done|]. destruct H as [_ H2 _ _ _ H6 H7 H8]. split.
  - rewrite E1, E2. intros Hoff. destruct (Q c) as [|[s k] l] eqn:Eq; [done|].
    destruct (H2 c s k) as [? ? _ _ _ _ _ _ _ _]; [rewrite Eq; by left|]. destruct Hoff; congruence.
  - rewrite E1, E3. apply H6.
  - rewrite E1, E4. apply H7.
  - right. lia.
  - intros s. rewrite E1. intros Hu Ha. destruct (E5 Ha) as [Ha' ->]. by apply H8.
Qed.

(** ** Searches *)

Lemma pending_in_spec r Q c s : queued r Q -> pending_in r c (surface_at r s) = true <-> s ∈ (Q c).*1.
Proof.
  intros H. unfold pending_in, owned_by, state_is. rewrite !andb_true_iff, !bool_decide_eq_true, negb_true_iff, Z.eqb_neq.
  rewrite get_context_ix. split.
  - intros [[[Hu _] [Hc _]] Hs]. destruct (q_surface r Q H s Hu Hs) as (c' & k & Hin).
    pose proof (q_waiting r Q H _ _ _ Hin) as [_ _ _ _ Ho _ _ _ _ _]. rewrite Hc in Ho. injection Ho as <-.
    apply list_elem_of_fmap. by exists (s, k).
  - intros ([s' k] & -> & Hin)%list_elem_of_fmap. cbn. destruct (q_waiting r Q H _ _ _ Hin). split_and!; try done.
    intros E. rewrite E in *. done.
Qed.

Lemma queue_slot r Q c s k : queued r Q -> (s, k) ∈ Q c -> (c < 4)%nat /\ (s < 64)%nat /\ (k < 256)%nat.
Proof.
  intros H Hin. destruct (q_waiting r Q H _ _ _ Hin). destruct (q_sizes r Q H) as (L1 & L2 & L3).
  assert (forall {A} (z : A) l i n (f : A -> bool), length l = n -> f z = false -> f (slot_at z l i) = true -> (i < n)%nat) as Hlt.
  { intros A z l i n f <- Hz Hi. destruct (decide (i < length l)%nat); [done|]. unfold slot_at in Hi.
    rewrite lookup_ge_None_2 in Hi by lia. cbn in Hi. congruence. }
  split_and!; [apply (Hlt _ zero_context (er_contexts r) c _ en_used)|apply (Hlt _ zero_surface (er_surfaces r) s _ es_used)|
    apply (Hlt _ zero_buffer (er_buffers r) k _ bu_used)]; done.
Qed.

Lemma all_surfaces_in s : s ∈ all_surfaces <-> (s < 64)%nat.
Proof. unfold all_surfaces. change (Z.to_nat ADVC_ENCODE_SURFACE_SLOTS) with 64%nat. rewrite elem_of_seq. lia. Qed.

(** The search returns a pending surface of [c], none older than it among those seen. *)
Lemma older_spec r c l o :
  (forall m, o = Some m -> pending_in r c (surface_at r m) = true) ->
  let o' := fold_left (older r c) l o in
  (forall m, o' = Some m -> pending_in r c (surface_at r m) = true /\
     (forall m0, o = Some m0 -> submit_index r m <= submit_index r m0) /\
     forall s, s ∈ l -> pending_in r c (surface_at r s) = true -> submit_index r m <= submit_index r s) /\
  (o' = None -> o = None /\ forall s, s ∈ l -> pending_in r c (surface_at r s) = false).
Proof.
  revert o. induction l as [|s l IH]; intros o Ho; cbn [fold_left].
  { split; [intros m E; split_and!; [by apply Ho|intros m0 E0; replace m0 with m by congruence; lia|]|intros E; split; [done|]];
      intros x Hx; by apply not_elem_of_nil in Hx. }
  destruct (IH (older r c o s)) as [I1 I2].
  { intros m. unfold older. destruct (pending_in r c (surface_at r s)) eqn:E; [|by apply Ho].
    destruct o as [x|]; [|by intros [= <-]]. destruct (_ <? _); [by intros [= <-]|by apply Ho]. }
  unfold older in I1, I2 at 1. split.
  - intros m Hm. destruct (I1 m Hm) as (J1 & J2 & J3). split; [done|].
    destruct (pending_in r c (surface_at r s)) eqn:E.
    + destruct o as [x|].
      * destruct (Z.ltb_spec (submit_index r s) (submit_index r x)) as [Hlt|Hge].
        -- specialize (J2 s eq_refl). split; [intros ? [= <-]; lia|].
           intros y [->|Hy]%elem_of_cons Hp; [done|by apply J3].
        -- specialize (J2 x eq_refl). split; [intros ? [= <-]; lia|].
           intros y [->|Hy]%elem_of_cons Hp; [lia|by apply J3].
      * split; [done|]. specialize (J2 s eq_refl). intros y [->|Hy]%elem_of_cons Hp; [done|by apply J3].
    + split; [done|]. intros y [->|Hy]%elem_of_cons Hp; [congruence|by apply J3].
  - intros Hn. destruct (I2 Hn) as [J1 J2]. unfold older in J1. destruct (pending_in r c (surface_at r s)) eqn:E.
    + destruct o as [x|]; [|done]. by destruct (_ <? _).
    + split; [done|]. intros y [->|Hy]%elem_of_cons; [done|by apply J2].
Qed.

(** The oldest pending surface is the head of the queue. *)
Lemma find_oldest r Q c : queued r Q -> find_oldest_pending_surface r c = fst <$> head (Q c).
Proof.
  intros H. unfold find_oldest_pending_surface. destruct (older_spec r c all_surfaces None) as [S1 S2]; [done|].
  destruct (Q c) as [|[s k] l] eqn:Eq.
  - destruct (fold_left (older r c) all_surfaces None) as [m|] eqn:E; [|done].
    destruct (S1 m eq_refl) as [Hp _]. apply (pending_in_spec r Q c m H) in Hp. rewrite Eq in Hp. by apply not_elem_of_nil in Hp.
  - assert (pending_in r c (surface_at r s) = true) as Hp by (apply (pending_in_spec r Q); [done|rewrite Eq; by left]).
    assert (s ∈ all_surfaces) as Hs.
    { apply all_surfaces_in. eapply (queue_slot r Q c s k H). rewrite Eq. by left. }
    destruct (fold_left (older r c) all_surfaces None) as [m|] eqn:E; cycle 1.
    { destruct (S2 eq_refl) as [_ Hn]. rewrite Hn in Hp; done. }
    destruct (S1 m eq_refl) as (Hm & _ & Hmin). specialize (Hmin s Hs Hp). cbn.
    apply (pending_in_spec r Q c m H) in Hm. rewrite Eq in Hm. cbn in Hm. apply elem_of_cons in Hm as [->|Hm]; [done|].
    pose proof (q_sorted r Q H c) as Hsort. rewrite Eq in Hsort. apply StronglySorted_inv in Hsort as [_ Hall].
    apply list_elem_of_fmap in Hm as ([m' k'] & -> & Hm). rewrite Forall_forall in Hall. specialize (Hall _ Hm).
    unfold older_entry in Hall. cbn in Hall, Hmin. lia.
Qed.

(** ** Changing a queue *)

(** Entries of different places name different surfaces and buffers. *)
Lemma entry_unique r Q c s k c' s' k' : queued r Q -> (s, k) ∈ Q c -> (s', k') ∈ Q c' ->
  s = s' \/ k = k' -> c = c' /\ s = s' /\ k = k'.
Proof.
  intros H H1 H2 Hor. destruct (q_waiting r Q H _ _ _ H1) as [_ _ _ _ A1 A2 _ _ A3 _].
  destruct (q_waiting r Q H _ _ _ H2) as [_ _ _ _ B1 B2 _ _ B3 _].
  assert (s = s') as <- by (destruct Hor as [->| ->]; [done|congruence]). split_and!; congruence.
Qed.

Lemma sorted_not_in r s k l : StronglySorted (older_entry r) ((s, k) :: l) -> s ∉ l.*1.
Proof.
  intros [_ Hall]%StronglySorted_inv ([s' k'] & -> & Hin)%list_elem_of_fmap. rewrite Forall_forall in Hall.
  specialize (Hall _ Hin). unfold older_entry in Hall. cbn in Hall. lia.
Qed.

Lemma queue_nodup r Q c : queued r Q -> NoDup (Q c).*1.
Proof.
  intros H. pose proof (q_sorted r Q H c) as Hs. induction (Q c) as [|[s k] l IH]; [apply NoDup_nil_2|].
  cbn. apply NoDup_cons. split; [by eapply sorted_not_in|]. apply IH. by apply StronglySorted_inv in Hs as [? _].
Qed.

(** At most one entry for each slot. *)
Lemma queue_short r Q c : queued r Q -> (length (Q c) <= 64)%nat.
Proof.
  intros H. rewrite <- (length_fmap fst). rewrite <- (length_seq 64 0). apply submseteq_length, NoDup_submseteq; [by eapply queue_nodup|].
  intros s ([s' k] & -> & Hin)%list_elem_of_fmap. apply elem_of_seq. destruct (queue_slot r Q c s' k H Hin) as (_ & ? & _). cbn. lia.
Qed.

(** The entries of [l] are in the same order. *)
Lemma sorted_same r r' l : (forall s k, (s, k) ∈ l -> submit_index r' s = submit_index r s) ->
  StronglySorted (older_entry r) l -> StronglySorted (older_entry r') l.
Proof.
  intros E Hs. induction Hs as [|[s k] l Hl IH Ha]; constructor.
  - apply IH. intros s' k' Hin. apply (E s' k'). by right.
  - rewrite Forall_forall in *. intros [s' k'] Hb. specialize (Ha _ Hb). unfold older_entry in *. cbn in *.
    rewrite (E s k), (E s' k'); [done|by right|by left].
Qed.

Lemma waiting_index r c s k : waiting r c s k ->
  surface_view (surface_at r s) = Some (es_owner_context (surface_at r s), pg_coded_buffer (es_progress (surface_at r s)), submit_index r s).
Proof. intros []. by apply surface_view_some. Qed.

Lemma view_index r r' s : is_Some (surface_view (surface_at r s)) -> surface_view (surface_at r' s) = surface_view (surface_at r s) ->
  submit_index r' s = submit_index r s.
Proof.
  intros [v Hv] E. rewrite Hv in E. apply surface_view_some in Hv as (_ & _ & E1), E as (_ & _ & E2).
  unfold submit_index. congruence.
Qed.

(** The entries [gone] at the head of a queue leave it. *)
Lemma queued_drop r r' Q c gone left : queued r Q -> Q c = gone ++ left ->
  length (er_contexts r') = length (er_contexts r) -> length (er_surfaces r') = length (er_surfaces r) ->
  length (er_buffers r') = length (er_buffers r) ->
  (forall s, surface_view (surface_at r' s) = if decide (s ∈ gone.*1) then None else surface_view (surface_at r s)) ->
  (forall k, buffer_view (buffer_at r' k) = if decide (k ∈ gone.*2) then None else buffer_view (buffer_at r k)) ->
  (forall c', c' <> c -> context_at r' c' = context_at r c') ->
  (let x := context_at r c in let x' := context_at r' c in
     en_used x' = en_used x /\ en_broker_open x' = en_broker_open x /\ en_frame_index x' = en_frame_index x /\
     en_picture_active x' = en_picture_active x /\ en_target x' = en_target x /\
     (en_used x = true -> en_pending_count x' = zlen left)) ->
  queued r' (set_queue c left Q).
Proof.
  intros H EQ L1 L2 L3 Hs Hb Hoc (C1 & C2 & C3 & C4 & C5 & C6).
  assert (forall c', en_used (context_at r' c') = en_used (context_at r c') /\
            en_broker_open (context_at r' c') = en_broker_open (context_at r c') /\
            en_frame_index (context_at r' c') = en_frame_index (context_at r c') /\
            en_picture_active (context_at r' c') = en_picture_active (context_at r c') /\
            en_target (context_at r' c') = en_target (context_at r c')) as HC.
  { intros c'. destruct (decide (c' = c)) as [->|Hne]; [done|]. by rewrite Hoc. }
  pose proof (queue_nodup r Q c H) as Hnd. rewrite EQ, fmap_app, NoDup_app in Hnd. destruct Hnd as (_ & Hnd & _).
  assert (forall c' s k, (s, k) ∈ set_queue c left Q c' -> (s, k) ∈ Q c' /\ s ∉ gone.*1 /\ k ∉ gone.*2) as Hin.
  { intros c' s k Hi. assert ((s, k) ∈ Q c') as Hi'.
    { destruct (decide (c' = c)) as [->|Hne]; [rewrite set_queue_same in Hi; rewrite EQ; apply elem_of_app; by right|by rewrite set_queue_other in Hi]. }
    assert (forall s2 k2, (s2, k2) ∈ gone -> s = s2 \/ k = k2 -> False) as Hno.
    { intros s2 k2 H2 Hor. destruct (entry_unique r Q c' s k c s2 k2 H Hi') as (-> & -> & ->); [rewrite EQ; apply elem_of_app; by left|done|].
      rewrite set_queue_same in Hi. apply (Hnd s2); apply list_elem_of_fmap; by exists (s2, k2). }
    split_and!; [done| |]; intros ([s2 k2] & -> & H2)%list_elem_of_fmap; apply (Hno s2 k2 H2); auto. }
  split.
  - destruct (q_sizes r Q H) as (? & ? & ?). split_and!; congruence.
  - intros c' s k Hi. destruct (Hin c' s k Hi) as (Hi' & N1 & N2). pose proof (q_waiting r Q H _ _ _ Hi') as Hw.
    apply waiting_views in Hw as (W1 & W2 & W3). apply waiting_views. destruct (HC c') as (-> & -> & -> & _).
    rewrite Hs, Hb, !decide_False by done. done.
  - intros s Hu Hp. assert (is_Some (surface_view (surface_at r' s))) as [v Hv] by (eexists; by apply surface_view_some).
    rewrite Hs in Hv. case_decide as Hd; [done|]. apply surface_view_some in Hv as (Hu' & Hp' & _).
    destruct (q_surface r Q H s Hu' Hp') as (c' & k & Hi). exists c', k. destruct (decide (c' = c)) as [->|Hne]; [|by rewrite set_queue_other].
    rewrite set_queue_same. rewrite EQ in Hi. apply elem_of_app in Hi as [Hi|Hi]; [|done]. exfalso. apply Hd, list_elem_of_fmap. by exists (s, k).
  - intros k Hu Hp. assert (is_Some (buffer_view (buffer_at r' k))) as [v Hv] by (eexists; by apply buffer_view_some).
    rewrite Hb in Hv. case_decide as Hd; [done|]. apply buffer_view_some in Hv as (Hu' & Hp' & _).
    destruct (q_buffer r Q H k Hu' Hp') as (c' & s & Hi). exists c', s. destruct (decide (c' = c)) as [->|Hne]; [|by rewrite set_queue_other].
    rewrite set_queue_same. rewrite EQ in Hi. apply elem_of_app in Hi as [Hi|Hi]; [|done]. exfalso. apply Hd, list_elem_of_fmap. by exists (s, k).
  - intros c'. apply (sorted_same r).
    + intros s k Hi. destruct (Hin c' s k Hi) as (Hi' & N1 & _). apply view_index; [|by rewrite Hs, decide_False].
      eexists. apply (waiting_index r c' s k). by apply (q_waiting r Q H).
    + destruct (decide (c' = c)) as [->|Hne]; [|rewrite set_queue_other by done; apply (q_sorted r Q H)].
      rewrite set_queue_same. pose proof (q_sorted r Q H c) as Hst. rewrite EQ in Hst. clear -Hst. induction gone as [|g gone IH]; [done|].
      apply StronglySorted_inv in Hst as [Hst _]. by apply IH.
  - intros c' Hu. destruct (decide (c' = c)) as [->|Hne].
    + rewrite set_queue_same. apply C6. by rewrite <- C1.
    + rewrite set_queue_other, Hoc by done. rewrite Hoc in Hu by done. by apply (q_count r Q H).
  - intros c' Hu. destruct (HC c') as (E1 & _ & -> & _). rewrite E1 in Hu. by apply (q_frames r Q H).
  - intros c' s. destruct (HC c') as (-> & _ & _ & -> & ->). intros Hu Ha Ht ([s2 k2] & -> & Hi)%list_elem_of_fmap.
    destruct (Hin c' s2 k2 Hi) as (Hi' & _). apply (q_target r Q H c' s2 Hu Ha Ht). apply list_elem_of_fmap. by exists (s2, k2).
Qed.

(** A submission is queued. *)
Lemma queued_push r r' Q c s k owner coded pending : queued r Q ->
  surface_view (surface_at r s) = None -> buffer_view (buffer_at r k) = None ->
  context_ix owner = Some c -> buffer_ix coded = Some k -> surface_ix pending = Some s ->
  en_used (context_at r c) = true -> en_frame_index (context_at r c) <= MAX_FRAME_INDEX ->
  length (er_contexts r') = length (er_contexts r) -> length (er_surfaces r') = length (er_surfaces r) ->
  length (er_buffers r') = length (er_buffers r) ->
  (forall s', surface_view (surface_at r' s') = if decide (s' = s) then Some (owner, coded, en_frame_index (context_at r c))
                else surface_view (surface_at r s')) ->
  (forall k', buffer_view (buffer_at r' k') = if decide (k' = k) then Some (VAEncCodedBufferType, pending)
                else buffer_view (buffer_at r k')) ->
  (forall c', c' <> c -> context_at r' c' = context_at r c') ->
  (let x := context_at r c in let x' := context_at r' c in
     en_used x' = true /\ en_broker_open x' = true /\ en_frame_index x' = en_frame_index x + 1 /\
     en_picture_active x' = false /\ en_pending_count x' = en_pending_count x + 1) ->
  queued r' (set_queue c (Q c ++ [(s, k)]) Q).
Proof.
  intros H Vs Vb I1 I2 I3 Hu Hmax L1 L2 L3 Hs Hb Hoc (C1 & C2 & C3 & C4 & C5).
  assert (forall c' s' k', (s', k') ∈ Q c' -> s' <> s /\ k' <> k) as Hnew.
  { intros c' s' k' Hi. pose proof (q_waiting r Q H _ _ _ Hi) as Hw. apply waiting_views in Hw as (_ & _ & o & cd & ix & p & W1 & W2 & _).
    split; intros ->; congruence. }
  assert (forall c' s' k', (s', k') ∈ set_queue c (Q c ++ [(s, k)]) Q c' <-> (s', k') ∈ Q c' \/ (c' = c /\ s' = s /\ k' = k)) as Hin.
  { intros c' s' k'. destruct (decide (c' = c)) as [->|Hne].
    - rewrite set_queue_same, elem_of_app, list_elem_of_singleton. split; [intros [?|[= -> ->]]; auto|intros [?|(_ & -> & ->)]; auto].
    - rewrite set_queue_other by done. naive_solver. }
  split.
  - destruct (q_sizes r Q H) as (? & ? & ?). split_and!; congruence.
  - intros c' s' k' [Hi|(-> & -> & ->)]%Hin; apply waiting_views.
    + destruct (Hnew _ _ _ Hi) as [N1 N2]. pose proof (q_waiting r Q H _ _ _ Hi) as Hw.
      apply waiting_views in Hw as (W1 & W2 & o & cd & ix & p & W3 & W4 & W5 & W6 & W7 & W8).
      rewrite Hs, Hb, !decide_False by done.
      destruct (decide (c' = c)) as [->|Hne]; [|rewrite Hoc by done; split_and!; [done|done|]; by exists o, cd, ix, p].
      rewrite C1, C2, C3. split_and!; [done|done|]. exists o, cd, ix, p. split_and!; try done. lia.
    + rewrite Hs, Hb, !decide_True, C1, C2, C3 by done. split_and!; [done|done|]. do 4 eexists. split_and!; try done. lia.
  - intros s' Hu' Hp. assert (is_Some (surface_view (surface_at r' s'))) as [v Hv] by (eexists; by apply surface_view_some).
    rewrite Hs in Hv. case_decide as Hd; [subst s'; exists c, k; apply Hin; by right|].
    apply surface_view_some in Hv as (Hu2 & Hp2 & _). destruct (q_surface r Q H s' Hu2 Hp2) as (c' & k' & Hi). exists c', k'. apply Hin. by left.
  - intros k' Hu' Hp. assert (is_Some (buffer_view (buffer_at r' k'))) as [v Hv] by (eexists; by apply buffer_view_some).
    rewrite Hb in Hv. case_decide as Hd; [subst k'; exists c, s; apply Hin; by right|].
    apply buffer_view_some in Hv as (Hu2 & Hp2 & _). destruct (q_buffer r Q H k' Hu2 Hp2) as (c' & s' & Hi). exists c', s'. apply Hin. by left.
  - assert (forall c', StronglySorted (older_entry r') (Q c')) as Hold.
    { intros c'. apply (sorted_same r); [|apply (q_sorted r Q H)]. intros s' k' Hi. destruct (Hnew _ _ _ Hi) as [N1 _].
      apply view_index; [|by rewrite Hs, decide_False]. eexists. apply (waiting_index r c' s' k'). by apply (q_waiting r Q H). }
    intros c'. destruct (decide (c' = c)) as [->|Hne]; [rewrite set_queue_same|by rewrite set_queue_other].
    assert (submit_index r' s = en_frame_index (context_at r c)) as E.
    { specialize (Hs s). rewrite decide_True in Hs by done. apply surface_view_some in Hs as (_ & _ & E). unfold submit_index. congruence. }
    assert (forall a, a ∈ Q c -> older_entry r' a (s, k)) as Ha.
    { intros [s' k'] Hi. unfold older_entry. cbn. rewrite E. pose proof (q_waiting r Q H _ _ _ Hi) as Hw.
      destruct (Hnew _ _ _ Hi) as [N1 _]. rewrite (view_index r r' s'); [apply Hw|eexists; by eapply waiting_index|by rewrite Hs, decide_False]. }
    specialize (Hold c). clear -Hold Ha. induction (Q c) as [|a l IH]; cbn; [by repeat constructor|].
    apply StronglySorted_inv in Hold as [Hl Hall]. constructor; [apply IH; [done|]; intros b Hb; apply Ha; by right|].
    apply Forall_app. split; [done|]. apply Forall_singleton, Ha. by left.
  - intros c' Hu'. destruct (decide (c' = c)) as [->|Hne].
    + rewrite set_queue_same, C5, (q_count r Q H c Hu). unfold zlen. rewrite length_app. cbn. lia.
    + rewrite set_queue_other, Hoc by done. rewrite Hoc in Hu' by done. by apply (q_count r Q H).
  - intros c' Hu'. destruct (decide (c' = c)) as [->|Hne].
    + rewrite C3. pose proof (q_frames r Q H c Hu). lia.
    + rewrite Hoc in * by done. by apply (q_frames r Q H).
  - intros c' s' Hu' Ha. destruct (decide (c' = c)) as [->|Hne]; [congruence|].
    rewrite Hoc in * by done. rewrite set_queue_other by done. by apply (q_target r Q H).
Qed.

(** ** A failure *)

Definition failed_surface (Q : queues) (c : nat) (l : list nat) (s : nat) (x : enc_surface) : enc_surface :=
  if decide (s ∈ l /\ s ∈ (Q c).*1) then put_state ENCODE_SURFACE_ERROR x else x.
Definition failed_buffer (Q : queues) (c : nat) (l : list nat) (k : nat) (u : enc_buffer) : enc_buffer :=
  if decide (k ∈ (filter (fun e => e.1 ∈ l) (Q c)).*2) then put_pending VA_INVALID_SURFACE u else u.

Lemma in_filter_snd (Q : queues) c (l : list nat) (k : nat) : k ∈ (filter (fun e : nat * nat => e.1 ∈ l) (Q c)).*2 <-> exists s, s ∈ l /\ (s, k) ∈ Q c.
Proof.
  rewrite list_elem_of_fmap. split.
  - intros ([s k'] & -> & [Hl Hi]%list_elem_of_filter). by exists s.
  - intros (s & Hl & Hi). exists (s, k). split; [done|]. by apply list_elem_of_filter.
Qed.

Lemma fail_fold r Q c l : queued r Q -> NoDup l ->
  let r' := fold_left (fail_pending c) l r in
  er_contexts r' = er_contexts r /\ length (er_surfaces r') = length (er_surfaces r) /\
  length (er_buffers r') = length (er_buffers r) /\
  (forall s, surface_at r' s = failed_surface Q c l s (surface_at r s)) /\
  (forall k, buffer_at r' k = failed_buffer Q c l k (buffer_at r k)).
Proof.
  intros H. induction l as [|s l IH] using rev_ind; intros Hnd; cbn zeta.
  { split_and!; try done; intros i; unfold failed_surface, failed_buffer; rewrite decide_False; try done.
    rewrite in_filter_snd. intros (s & Hs & _). by apply not_elem_of_nil in Hs. }
  apply NoDup_app in Hnd as (Hnd & Hs & _). destruct (IH Hnd) as (I1 & I2 & I3 & I4 & I5).
  assert (s ∉ l) as Hsl by (intros Hi; apply (Hs s Hi); by left). clear IH Hs.
  rewrite fold_left_app. cbn [fold_left]. set (r1 := fold_left (fail_pending c) l r) in *.
  assert (surface_at r1 s = surface_at r s) as E by (rewrite I4; unfold failed_surface; rewrite decide_False by naive_solver; done).
  assert (pending_in r1 c (surface_at r1 s) = pending_in r c (surface_at r s)) as Ep.
  { rewrite E. unfold pending_in, owned_by, get_context, context_at. by rewrite I1. }
  unfold fail_pending. rewrite Ep. destruct (pending_in r c (surface_at r s)) eqn:Hp.
  - apply (pending_in_spec r Q c s H) in Hp. pose proof Hp as ([s' k] & E1 & Hi)%list_elem_of_fmap. cbn in E1. subst s'.
    destruct (q_waiting r Q H _ _ _ Hi) as [_ _ _ _ _ W6 W7 _ _ _]. destruct (queue_slot r Q c s k H Hi) as (_ & B1 & B2).
    destruct (q_sizes r Q H) as (_ & L2 & L3).
    assert (get_buffer r1 (pg_coded_buffer (es_progress (surface_at r1 s))) = Some k) as ->.
    { rewrite E. apply get_buffer_ix. split; [done|]. rewrite I5. unfold failed_buffer. by case_decide. }
    split_and!; [done|cbn; by rewrite length_alter|cbn; by rewrite length_alter| |].
    + intros s'. change (surface_at (on_surface s ?f ?x) s') with (slot_at zero_surface (alter f s (er_surfaces r1)) s').
      unfold failed_surface. destruct (decide (s' = s)) as [->|Hne].
      * rewrite slot_same by lia. change (slot_at zero_surface (er_surfaces r1) s) with (surface_at r1 s). rewrite E, decide_True; [done|].
        split; [apply elem_of_app; right; by left|done].
      * rewrite slot_other by done. change (slot_at zero_surface (er_surfaces r1) s') with (surface_at r1 s'). rewrite I4.
        unfold failed_surface. apply decide_ext. rewrite elem_of_app, list_elem_of_singleton. naive_solver.
    + intros k'. change (buffer_at (on_surface s ?f ?x) k') with (buffer_at x k').
      change (buffer_at (on_buffer k ?f ?x) k') with (slot_at zero_buffer (alter f k (er_buffers r1)) k').
      unfold failed_buffer. destruct (decide (k' = k)) as [->|Hne].
      * rewrite slot_same by lia. change (slot_at zero_buffer (er_buffers r1) k) with (buffer_at r1 k). rewrite I5, decide_True.
        -- unfold failed_buffer. by case_decide.
        -- apply in_filter_snd. exists s. split; [apply elem_of_app; right; by left|done].
      * rewrite slot_other by done. change (slot_at zero_buffer (er_buffers r1) k') with (buffer_at r1 k'). rewrite I5.
        unfold failed_buffer. apply decide_ext. rewrite !in_filter_snd. split.
        -- intros (s' & ? & ?). exists s'. split; [apply elem_of_app; by left|done].
        -- intros (s' & [?| ->%list_elem_of_singleton]%elem_of_app & Hi'); [by exists s'|].
           destruct (entry_unique r Q c s k c s k' H Hi Hi') as (_ & _ & ->); [by left|done].
  - assert (s ∉ (Q c).*1) as Hn by (rewrite <- (pending_in_spec r Q c s H); by rewrite Hp).
    split_and!; try done.
    + intros s'. rewrite I4. unfold failed_surface. apply decide_ext. rewrite elem_of_app, list_elem_of_singleton. naive_solver.
    + intros k'. rewrite I5. unfold failed_buffer. apply decide_ext. rewrite !in_filter_snd. split.
      * intros (s' & ? & ?). exists s'. split; [apply elem_of_app; by left|done].
      * intros (s' & [?| ->%list_elem_of_singleton]%elem_of_app & Hi'); [by exists s'|]. exfalso. apply Hn, list_elem_of_fmap. by exists (s, k').
Qed.

(** The whole queue of [c] fails. *)
Record all_failed (Q : queues) (c : nat) (r r' : enc_runtime) : Prop := {
  fl_queued : queued r' (set_queue c [] Q);
  fl_surface : forall s, surface_at r' s = (if decide (s ∈ (Q c).*1) then put_state ENCODE_SURFACE_ERROR (surface_at r s) else surface_at r s);
  fl_buffer : forall k, buffer_at r' k = (if decide (k ∈ (Q c).*2) then put_pending VA_INVALID_SURFACE (buffer_at r k) else buffer_at r k);
  fl_count : forall c', context_at r' c' = (if decide (c' = c) then put_pending_count 0 (context_at r c) else context_at r c') }.

Lemma mark_error_of r r1 Q c : queued r Q -> (c < 4)%nat ->
  er_contexts r1 = er_contexts r -> length (er_surfaces r1) = length (er_surfaces r) ->
  length (er_buffers r1) = length (er_buffers r) ->
  (forall s, surface_at r1 s = failed_surface Q c all_surfaces s (surface_at r s)) ->
  (forall k, buffer_at r1 k = failed_buffer Q c all_surfaces k (buffer_at r k)) ->
  all_failed Q c r (on_context c (put_pending_count 0) r1).
Proof.
  intros H Hc F1 F2 F3 F4 F5.
  assert (forall s, surface_at r1 s = if decide (s ∈ (Q c).*1) then put_state ENCODE_SURFACE_ERROR (surface_at r s) else surface_at r s) as S1.
  { intros s. rewrite F4. unfold failed_surface. apply decide_ext. split; [naive_solver|]. intros Hi. split; [|done].
    apply list_elem_of_fmap in Hi as ([s' k] & -> & Hi). apply all_surfaces_in. by destruct (queue_slot r Q c s' k H Hi) as (_ & ? & _). }
  assert (forall k, buffer_at r1 k = if decide (k ∈ (Q c).*2) then put_pending VA_INVALID_SURFACE (buffer_at r k) else buffer_at r k) as B1.
  { intros k. rewrite F5. unfold failed_buffer. apply decide_ext. rewrite in_filter_snd, list_elem_of_fmap. split.
    - intros (s & _ & Hi). by exists (s, k).
    - intros ([s k'] & -> & Hi). exists s. split; [|done]. apply all_surfaces_in. by destruct (queue_slot r Q c s k' H Hi) as (_ & ? & _). }
  assert (forall c', context_at (on_context c (put_pending_count 0) r1) c' =
            if decide (c' = c) then put_pending_count 0 (context_at r c) else context_at r c') as C1.
  { intros c'. change (context_at (on_context c ?f ?x) c') with (slot_at zero_context (alter f c (er_contexts r1)) c'). rewrite F1.
    destruct (q_sizes r Q H) as (L1 & _). case_decide as Hd; [subst c'; by rewrite slot_same by lia|by rewrite slot_other]. }
  split; [|exact S1|exact B1|exact C1].
  apply (queued_drop r _ Q c (Q c) []); [done|by rewrite app_nil_r|cbn; by rewrite length_alter, F1|exact F2|exact F3| | | |].
  - intros s. change (surface_at (on_context c ?f r1) s) with (surface_at r1 s). rewrite S1. case_decide; [|done].
    unfold surface_view. cbn. by rewrite andb_false_r.
  - intros k. change (buffer_at (on_context c ?f r1) k) with (buffer_at r1 k). rewrite B1. case_decide; [|done].
    unfold buffer_view. cbn. by rewrite andb_false_r.
  - intros c' Hne. rewrite C1. by rewrite decide_False.
  - cbn zeta. rewrite C1, decide_True by done. by split_and!.
Qed.

Lemma mark_error r Q c : queued r Q -> (c < 4)%nat -> all_failed Q c r (mark_context_pending_error c r).
Proof.
  intros H Hc. destruct (fail_fold r Q c all_surfaces H) as (F1 & F2 & F3 & F4 & F5); [apply NoDup_seq|].
  exact (mark_error_of r _ Q c H Hc F1 F2 F3 F4 F5).
Qed.

Lemma queued_ext r Q Q' : (forall c, Q' c = Q c) -> queued r Q -> queued r Q'.
Proof.
  intros E [M1 M2 M3 M4 M5 M6 M7 M8]. split; [done|intros c s k; rewrite E; apply M2| | |intros c; rewrite E; apply M5|
    intros c; rewrite E; apply M6|done|intros c s; rewrite E; apply M8].
  - intros s Hu Hp. destruct (M3 s Hu Hp) as (c & k & Hi). exists c, k. by rewrite E.
  - intros k Hu Hp. destruct (M4 k Hu Hp) as (c & s & Hi). exists c, s. by rewrite E.
Qed.
Lemma set_queue_id r c Q : queued r Q -> queued r (set_queue c (Q c) Q).
Proof. apply queued_ext. intros c'. unfold set_queue. by case_decide; subst. Qed.
Lemma set_queue_twice r c q q' Q : queued r (set_queue c q (set_queue c q' Q)) -> queued r (set_queue c q Q).
Proof. apply queued_ext. intros c'. unfold set_queue. by case_decide. Qed.
