(* ===== verification/EncodeFifo.v ===== *)
(** * Outputs go to the oldest submission (src/src/vaapi_advc/advc_vaapi_encode_runtime.c)

    [sync_surface_locked] is a loop of rounds, each of which takes one output of the
    broker: it completes the head of the context's queue, leaves the queue alone when
    time runs out, or fails all of it. *)

From stdpp Require Import base list gmap sorting.
From Stdlib Require Import ZArith Lia Bool String Sorted.
#[local] Notation length := List.length.
From S2P Require Import Prelude Kernel Protocol Dmabuf Engine Broker Client ClientConnect World EncodeEos VaapiRoutes VaapiPolicy Va EncodeParams EncodeState EncodeWorld EncodeBroker EncodeLink EncodeSync EncodeRuntime EncodeKeeps EncodeQueue.
Notation world := (world_of driver_state).

(** ** Steps *)

Lemma wp_tables {A} (k : enc_runtime -> St world A) w P : wp (k (tables w)) P w -> wp (encode_tables ≫= k) P w.
Proof. intros H. apply wp_bind, wp_gets. exact H. Qed.
Lemma wp_enc f w (P : unit -> world -> Prop) :
  (forall w', tables w' = f (tables w) -> P tt w') -> wp (enc_update f) P w.
Proof. intros H. by apply H. Qed.
Lemma wp_seq_keeps {A C} (c : St world A) (k : A -> St world C) w P : keeps c ->
  (forall a w', tables w' = tables w -> wp (k a) P w') -> wp (c ≫= k) P w.
Proof. intros Hc Hk. apply wp_bind. by apply wp_keeps. Qed.
Lemma wp_seq_enc {C} f (k : unit -> St world C) w P :
  (forall w', tables w' = f (tables w) -> wp (k tt) P w') -> wp (enc_update f ≫= k) P w.
Proof. intros Hk. apply wp_bind. by apply wp_enc. Qed.

Lemma wp_for_each {A} (l : list A) f (I : world -> Prop) w :
  (forall x w, x ∈ l -> I w -> wp (f x) (fun _ w' => I w') w) -> I w -> wp (for_each l f) (fun _ w' => I w') w.
Proof.
  revert w. induction l as [|x l IH]; intros w Hf Hw; [by apply wp_ret|].
  apply wp_bind. eapply wp_mono; [apply Hf; [by left|done]|]. intros [] w' Hw'. apply IH; [|done].
  intros y w2 Hy. apply Hf. by right.
Qed.

(** ** What a call may touch *)

Definition up_to_link (x : enc_surface) : enc_surface := put_link (fun _ => closed_link) x.

(** Of [c] and the surfaces and buffers [l] anything; of the others only links. *)
Record leaves (c : nat) (l : list (nat * nat)) (r r' : enc_runtime) : Prop := {
  lv_contexts : forall c', c' <> c -> context_at r' c' = context_at r c';
  lv_surface : forall s, s ∉ l.*1 -> up_to_link (surface_at r' s) = up_to_link (surface_at r s);
  lv_buffer : forall k, k ∉ l.*2 -> buffer_at r' k = buffer_at r k }.

Lemma leaves_refl c l r : leaves c l r r.
Proof. by split. Qed.
Lemma leaves_trans c l l' r1 r2 r3 : leaves c l r1 r2 -> leaves c l' r2 r3 -> leaves c (l ++ l') r1 r3.
Proof.
  intros [A1 A2 A3] [B1 B2 B3]. split.
  - intros c' Hc. by rewrite B1, A1.
  - intros s Hs. rewrite fmap_app, not_elem_of_app in Hs. destruct Hs. by rewrite B2, A2.
  - intros k Hk. rewrite fmap_app, not_elem_of_app in Hk. destruct Hk. by rewrite B3, A3.
Qed.
Lemma leaves_weaken c l l' r r' : leaves c l r r' -> (forall e, e ∈ l -> e ∈ l') -> leaves c l' r r'.
Proof.
  intros [A1 A2 A3] Hl. split; [done| |].
  - intros s Hs. apply A2. intros (e & -> & He)%list_elem_of_fmap. apply Hs, list_elem_of_fmap. exists e. auto.
  - intros k Hk. apply A3. intros (e & -> & He)%list_elem_of_fmap. apply Hk, list_elem_of_fmap. exists e. auto.
Qed.

Lemma link_view f x : surface_view (put_link f x) = surface_view x.
Proof. done. Qed.
Lemma up_link f x : up_to_link (put_link f x) = up_to_link x.
Proof. done. Qed.

Lemma on_context_leaves f r c : leaves c [] r (on_context c f r).
Proof.
  split; [|done|done]. intros c' Hc. destruct (on_context_at f r c c') as [->|(? & _)]; congruence.
Qed.
Lemma on_link_leaves f r c s : leaves c [] r (on_surface s (put_link f) r).
Proof.
  split; [done| |done]. intros s' _. destruct (on_surface_at (put_link f) r s s') as [->|(-> & _ & ->)]; done.
Qed.

Lemma queued_link f r s Q : queued r Q -> queued (on_surface s (put_link f) r) Q.
Proof. apply queued_views, same_views_surface. done. Qed.

(** Surface and buffer have the output. *)
Definition delivered (r r' : enc_runtime) (output : coded_output) (e : nat * nat) : Prop :=
  let '(s, k) := e in
  up_to_link (surface_at r' s) = up_to_link (put_state ENCODE_SURFACE_READY (surface_at r s)) /\
  buffer_at r' k =
    put_pending VA_INVALID_SURFACE
      (put_output (CodedOutput (relink k (co_segments output))
                     (media_codec_pts_ns (pg_pts_ns (es_progress (surface_at r s)))) (co_flags output)) (buffer_at r k)) /\
  coded_output_size output <> 0 /\ coded_output_size output <= bu_coded_capacity (buffer_at r k).
Definition completed (r r' : enc_runtime) (e : nat * nat) : Prop := exists output, delivered r r' output e.

(** The submission is over without output. *)
Definition failed (r r' : enc_runtime) (e : nat * nat) : Prop :=
  let '(s, k) := e in
  up_to_link (surface_at r' s) = up_to_link (put_state ENCODE_SURFACE_ERROR (surface_at r s)) /\
  buffer_at r' k = put_pending VA_INVALID_SURFACE (buffer_at r k).

Lemma failing_round r r' Q c : all_failed Q c r r' -> queued r Q ->
  leaves c (Q c) r r' /\ Forall (failed r r') (Q c).
Proof.
  intros [_ F2 F3 F4] H. split; [split|].
  - intros c' Hc. rewrite F4. by rewrite decide_False.
  - intros s Hs. rewrite F2. by rewrite decide_False.
  - intros k Hk. rewrite F3. by rewrite decide_False.
  - apply Forall_forall. intros [s k] Hi. split.
    + rewrite F2, decide_True; [done|]. apply list_elem_of_fmap. by exists (s, k).
    + rewrite F3, decide_True; [done|]. apply list_elem_of_fmap. by exists (s, k).
Qed.

(** The members of a context a round does not change, up to the connection. *)
Lemma completed_queue r Q c s k l output link : queued r Q -> Q c = (s, k) :: l ->
  let r1 := on_buffer k (fun u => put_pending VA_INVALID_SURFACE (put_output output u)) (on_surface s (put_link (fun _ => link)) r) in
  let r2 := on_surface s (put_state ENCODE_SURFACE_READY) r1 in
  let r3 := on_context c (fun x => if 0 <? en_pending_count x then put_pending_count (en_pending_count x - 1) x else x) r2 in
  queued r3 (set_queue c l Q) /\ leaves c [(s, k)] r r3 /\
  up_to_link (surface_at r3 s) = up_to_link (put_state ENCODE_SURFACE_READY (surface_at r s)) /\
  buffer_at r3 k = put_pending VA_INVALID_SURFACE (put_output output (buffer_at r k)) /\
  en_used (context_at r3 c) = true.
Proof.
  intros H EQ r1 r2 r3. assert ((s, k) ∈ Q c) as Hin by (rewrite EQ; by left).
  destruct (queue_slot r Q c s k H Hin) as (B1 & B2 & B3). destruct (q_sizes r Q H) as (L1 & L2 & L3).
  pose proof (q_waiting r Q H _ _ _ Hin) as [W1 _ _ _ _ _ _ _ _ _].
  pose proof (q_count r Q H c W1) as Hcount. rewrite EQ in Hcount. unfold zlen in Hcount. cbn [length] in Hcount.
  assert (forall s', s' <> s -> surface_at r3 s' = surface_at r s') as S1.
  { intros s' Hne. change (surface_at r3 s') with (slot_at zero_surface (alter (put_state ENCODE_SURFACE_READY) s
      (alter (put_link (fun _ => link)) s (er_surfaces r))) s'). by rewrite !slot_other. }
  assert (surface_at r3 s = put_state ENCODE_SURFACE_READY (put_link (fun _ => link) (surface_at r s))) as S2.
  { change (surface_at r3 s) with (slot_at zero_surface (alter (put_state ENCODE_SURFACE_READY) s
      (alter (put_link (fun _ => link)) s (er_surfaces r))) s). rewrite slot_same by (rewrite length_alter; lia). by rewrite slot_same by lia. }
  assert (forall k', buffer_at r3 k' = if decide (k' = k) then put_pending VA_INVALID_SURFACE (put_output output (buffer_at r k)) else buffer_at r k') as U1.
  { intros k'. change (buffer_at r3 k') with (slot_at zero_buffer (alter (fun u => put_pending VA_INVALID_SURFACE (put_output output u)) k (er_buffers r)) k').
    case_decide as Hd; [subst k'; by rewrite slot_same by lia|by rewrite slot_other]. }
  assert (forall c', context_at r3 c' = if decide (c' = c) then put_pending_count (zlen l) (context_at r c) else context_at r c') as C1.
  { intros c'. change (context_at r3 c') with (slot_at zero_context (alter (fun x => if 0 <? en_pending_count x then
      put_pending_count (en_pending_count x - 1) x else x) c (er_contexts r)) c').
    case_decide as Hd; [|by rewrite slot_other]. subst c'. rewrite slot_same by lia.
    change (slot_at zero_context (er_contexts r) c) with (context_at r c). rewrite (proj2 (Z.ltb_lt _ _)) by lia.
    f_equal. unfold zlen. lia. }
  split_and!.
  - apply (queued_drop r r3 Q c [(s, k)] l H EQ); try (unfold r3, r2, r1; cbn; by rewrite ?length_alter).
    + intros s'. case_decide as Hd.
      * apply list_elem_of_singleton in Hd as ->. cbn [fst]. rewrite S2. unfold surface_view. cbn. by rewrite andb_false_r.
      * rewrite S1; [done|]. intros ->. apply Hd. by left.
    + intros k'. rewrite U1. destruct (decide (k' = k)) as [->|Hne].
      * rewrite decide_True by (by left). unfold buffer_view. cbn. by rewrite andb_false_r.
      * rewrite decide_False; [done|]. by intros ->%list_elem_of_singleton.
    + intros c' Hne. rewrite C1. by rewrite decide_False.
    + cbn zeta. rewrite C1, decide_True by done. by split_and!.
  - split.
    + intros c' Hne. rewrite C1. by rewrite decide_False.
    + intros s' Hs. rewrite S1; [done|]. intros ->. apply Hs. by left.
    + intros k' Hk. rewrite U1, decide_False; [done|]. intros ->. apply Hk. by left.
  - by rewrite S2.
  - by rewrite U1, decide_True.
  - by rewrite C1, decide_True.
Qed.

(** ** Rounds *)

Lemma queued_open r Q c : queued r Q -> Q c <> [] -> en_used (context_at r c) = true /\ en_broker_open (context_at r c) = true.
Proof.
  intros H Hq. destruct (Q c) as [|[s k] l] eqn:E; [done|]. destruct (q_waiting r Q H c s k) as [? ? _ _ _ _ _ _ _ _]; [rewrite E; by left|done].
Qed.

Lemma close_session_spec c Q w : queued (tables w) Q -> en_used (context_at (tables w) c) = true ->
  wp (close_frame_session c) (fun _ w' => queued (tables w') Q /\ leaves c [] (tables w) (tables w')) w.
Proof.
  intros H Hu. unfold close_frame_session. apply wp_tables.
  destruct (en_broker_frame_session _ && _) eqn:E; [|apply wp_ret; split; [done|apply leaves_refl]].
  apply andb_true_iff in E as [_ Hz]. apply Z.eqb_eq in Hz. rewrite (q_count _ _ H c Hu) in Hz.
  assert (Q c = []) as Hq by (destruct (Q c); [done|unfold zlen in Hz; cbn in Hz; lia]).
  apply wp_seq_keeps; [eauto with keeps|]. intros b w1 E1. apply wp_seq_enc. intros w2 E2. rewrite E1 in E2.
  apply (wp_for_each _ _ (fun w' => queued (tables w') Q /\ leaves c [] (tables w) (tables w'))).
  - intros s w3 _ [H3 L3]. apply wp_tables. destruct (owned_by _ _ _); [|by apply wp_ret].
    apply wp_enc. intros w4 E4. rewrite E4. split; [by apply queued_link|].
    change [] with ([] ++ [] : list (nat * nat)). eapply leaves_trans; [exact L3|apply on_link_leaves].
  - rewrite E2. split; [|apply on_context_leaves]. apply queued_context; [done|]. split; cbn.
    + done.
    + by apply (q_count _ _ H).
    + by apply (q_frames _ _ H).
    + by left.
    + intros s ? ? Ht. by apply (q_target _ _ H c s).
Qed.

(** What a round that received [received] and [output] did. *)
Definition round_effect (c : nat) (Q : queues) (r : enc_runtime) (received : Z) (output : coded_output)
    (x : option va_status) (r' : enc_runtime) : Prop :=
  match x with
  | None => exists e l, Q c = e :: l /\ 0 <= received /\ delivered r r' output e /\
              queued r' (set_queue c l Q) /\ leaves c [e] r r'
  | Some VA_STATUS_ERROR_TIMEDOUT => queued r' Q /\ leaves c [] r r'
  | Some status => status <> VA_STATUS_SUCCESS /\ queued r' (set_queue c [] Q) /\ leaves c (Q c) r r' /\ Forall (failed r r') (Q c)
  end.

Lemma round_failed c Q r r0 x status rc o : queued r Q -> (c < 4)%nat -> leaves c [] r r0 -> queued r0 Q ->
  (forall k, buffer_at r0 k = buffer_at r k) -> x = Some status ->
  status = VA_STATUS_ERROR_ENCODING_ERROR \/ status = VA_STATUS_ERROR_NOT_ENOUGH_BUFFER ->
  round_effect c Q r rc o x (mark_context_pending_error c r0).
Proof.
  intros H Hc L0 H0 Hb -> Hst. pose proof (mark_error r0 Q c H0 Hc) as Hm. destruct (failing_round _ _ _ _ Hm H0) as [L1 F1].
  assert (leaves c (Q c) r (mark_context_pending_error c r0)) as L by (change (Q c) with ([] ++ Q c); by eapply leaves_trans).
  assert (Forall (failed r (mark_context_pending_error c r0)) (Q c)) as F.
  { apply Forall_forall. intros [s k] Hi. rewrite Forall_forall in F1. destruct (F1 _ Hi) as [F2 F3]. split; [|by rewrite F3, Hb].
    rewrite F2. pose proof (lv_surface _ _ _ _ L0 s ltac:(intros Hn; by apply not_elem_of_nil in Hn)) as E.
    unfold up_to_link, put_link, put_state, put_progress, es_owner_context in *. cbn in *. by injection E as -> -> -> -> -> -> -> -> -> ->. }
  unfold round_effect. destruct Hst as [-> | ->]; (split_and!; [done|apply Hm|done|done]).
Qed.

Lemma get_pending_buffer r Q c s k : queued r Q -> (s, k) ∈ Q c ->
  get_buffer r (pg_coded_buffer (es_progress (surface_at r s))) = Some k /\
  buffer_type_is (bu_type (buffer_at r k)) VAEncCodedBufferType = true.
Proof.
  intros H Hi. destruct (q_waiting r Q H _ _ _ Hi). split; [by apply get_buffer_ix|]. unfold buffer_type_is. by rewrite bool_decide_true.
Qed.

Lemma complete_spec c s k l t output Q w r :
  queued (tables w) Q -> Q c = (s, k) :: l -> coded_output_size output <> 0 ->
  queued r Q -> leaves c [] r (tables w) -> (forall k, buffer_at (tables w) k = buffer_at r k) ->
  wp (complete_surface c s k t output) (fun x w' =>
    match x with
    | None => en_used (context_at (tables w') c) = true /\ delivered r (tables w') output (s, k) /\ queued (tables w') (set_queue c l Q) /\ leaves c [(s, k)] r (tables w')
    | _ => forall rc, round_effect c Q r rc output x (tables w')
    end) w.
Proof.
  intros H EQ Hsz H0 L0 Hb0. assert ((s, k) ∈ Q c) as Hin by (rewrite EQ; by left).
  destruct (queue_slot _ Q c s k H Hin) as (Hc & _ & _).
  unfold complete_surface. apply wp_tables. apply wp_seq_keeps; [eauto with keeps|]. intros [waited link] w1 E1.
  apply wp_seq_enc. intros w2 E2. rewrite E1 in E2.
  assert (queued (tables w2) Q) as H2 by (rewrite E2; by apply queued_link).
  assert (leaves c [] r (tables w2)) as L2.
  { rewrite E2. change [] with ([] ++ [] : list (nat * nat)). eapply leaves_trans; [exact L0|apply on_link_leaves]. }
  assert (forall k, buffer_at (tables w2) k = buffer_at r k) as Hb2 by (intros; rewrite E2; by rewrite <- Hb0).
  assert (forall status w3 rc, tables w3 = tables w2 -> status = VA_STATUS_ERROR_ENCODING_ERROR \/ status = VA_STATUS_ERROR_NOT_ENOUGH_BUFFER ->
    wp (x ← drop_and_fail c output status; mret (Some x)) (fun x w' => match x with None => False | _ => round_effect c Q r rc output x (tables w') end) w3) as Hfail.
  { intros status w3 rc E3 Hst. unfold drop_and_fail. apply wp_bind, wp_seq_keeps; [eauto with keeps|]. intros o w4 E4.
    apply wp_seq_enc. intros w5 E5. apply wp_ret, wp_ret. rewrite E5, E4, E3. by eapply round_failed. }
  destruct (waited <? 0).
  { apply wp_seq_keeps; [eauto with keeps|]. intros saved w3 E3. destruct (saved =? ETIMEDOUT).
    - apply wp_seq_keeps; [eauto with keeps|]. intros o w4 E4. apply wp_ret. intros rc. cbn. by rewrite E4, E3.
    - eapply wp_mono; [apply (Hfail _ _ 0); [done|by left]|]. intros [x|] w' Hx; [|done]. intros rc. destruct x; exact Hx. }
  destruct (Z.ltb_spec (bu_coded_capacity (buffer_at (tables w) k)) (coded_output_size output)) as [|Hcap].
  { eapply wp_mono; [apply (Hfail _ _ 0); [done|by right]|]. intros [x|] w' Hx; [|done]. intros rc. destruct x; exact Hx. }
  apply wp_seq_keeps; [eauto with keeps|]. intros o w3 E3. cbn zeta. apply wp_seq_enc. intros w4 E4.
  apply wp_seq_enc. intros w5 E5. apply wp_seq_enc. intros w6 E6. apply wp_ret.
  set (out := CodedOutput _ _ _) in E4.
  pose proof (completed_queue (tables w) Q c s k l out link H EQ) as Hq. cbn zeta in Hq.
  rewrite <- E2, <- E3, <- E4, <- E5, <- E6 in Hq. destruct Hq as (Q1 & Q2 & Q3 & Q4 & Q5). split; [done|].
  assert (up_to_link (surface_at (tables w) s) = up_to_link (surface_at r s)) as Es.
  { apply (lv_surface _ _ _ _ L0). intros Hn. by apply not_elem_of_nil in Hn. }
  split; [|split; [done|]]; cycle 1.
  { change [(s, k)] with ([] ++ [(s, k)]). eapply leaves_trans; [exact L0|exact Q2]. }
  unfold delivered. rewrite Q3, Q4, Hb0. split; [|split; [|by rewrite <- Hb0]].
  - unfold up_to_link, put_link, put_state, put_progress, es_owner_context in *. cbn in *. by injection Es as -> -> -> -> -> -> -> -> -> ->.
  - unfold out. do 4 f_equal. change (es_progress (surface_at (tables w) s)) with (es_progress (up_to_link (surface_at (tables w) s))). by rewrite Es.
Qed.

(** What [advc_vaapi_encode_broker_receive] answers to context [c]. *)
Definition received_by (c : nat) (t : Z) (w : world) : Z * coded_output :=
  fst (advc_vaapi_encode_broker_receive (en_broker (context_at (tables w) c)) t zero_output w).

Lemma wp_use {A C} (c : St world A) (k : A -> St world C) w P : keeps c ->
  (forall w', tables w' = tables w -> wp (k (fst (c w))) P w') -> wp (c ≫= k) P w.
Proof. intros Hc Hk. apply wp_bind. unfold wp at 1. apply Hk, Hc. Qed.

Lemma sync_round_spec c t w Q : queued (tables w) Q -> Q c <> [] ->
  wp (sync_round c t) (fun x w' =>
    round_effect c Q (tables w) (fst (received_by c t w)) (snd (received_by c t w)) x (tables w')) w.
Proof.
  intros H Hq. destruct (Q c) as [|[s k] l] eqn:EQ; [done|]. clear Hq.
  assert ((s, k) ∈ Q c) as Hin by (rewrite EQ; by left). destruct (queue_slot _ Q c s k H Hin) as (Hc & _ & _).
  unfold sync_round. apply wp_tables, wp_use; [eauto with keeps|]. intros w1 E1. unfold received_by.
  destruct (fst (advc_vaapi_encode_broker_receive _ t zero_output w)) as [received output]. cbn [fst snd].
  destruct (Z.ltb_spec received 0).
  { apply wp_seq_keeps; [eauto with keeps|]. intros e w2 E2. destruct (e =? ETIMEDOUT).
    - apply wp_ret. rewrite E2, E1. split; [done|apply leaves_refl].
    - apply wp_seq_enc. intros w3 E3. apply wp_ret. rewrite E3, E2, E1. by apply (round_failed c Q _ _ _ VA_STATUS_ERROR_ENCODING_ERROR); auto using leaves_refl. }
  apply wp_bind. apply (wp_mono _ (fun _ w2 => queued (tables w2) Q /\ leaves c [] (tables w) (tables w2) /\
    forall k, buffer_at (tables w2) k = buffer_at (tables w) k)).
  { destruct (negb _); [|apply wp_ret; rewrite E1; split_and!; [done|apply leaves_refl|done]].
    apply wp_enc. intros w2 E2. rewrite E2, E1. split_and!; [|apply on_context_leaves|done].
    apply queued_context_same; [done|]. by split_and!. }
  intros [] w2 (H2 & L2 & Hb2).
  assert (wp (x ← drop_and_fail c output VA_STATUS_ERROR_ENCODING_ERROR; mret (Some x))
     (fun x w' => round_effect c Q (tables w) received output x (tables w')) w2) as Hfail.
  { unfold drop_and_fail. apply wp_bind, wp_seq_keeps; [eauto with keeps|]. intros o w3 E3. apply wp_seq_enc. intros w4 E4.
    apply wp_ret, wp_ret. rewrite E4, E3. eapply round_failed; try done. by left. }
  destruct (Z.eqb_spec (coded_output_size output) 0) as [|Hsz]; [exact Hfail|].
  apply wp_tables. rewrite (find_oldest _ Q c H2), EQ. cbn [head fmap option_fmap option_map fst].
  destruct (get_pending_buffer _ Q c s k H2 Hin) as [-> ->]. cbn [negb].
  apply wp_bind. eapply wp_mono; [by apply (complete_spec c s k l t output Q w2 (tables w))|].
  intros [status|] w3 Hx; [apply wp_ret; apply Hx|]. destruct Hx as (Hu & D3 & Q3 & L3).
  apply wp_bind. eapply wp_mono; [apply (close_session_spec c (set_queue c l Q)); [done|]|].
  { done. }
  intros [] w4 [Q4 L4]. apply wp_ret. exists (s, k), l. split_and!; try done.
  - destruct D3 as (D1 & D2 & D3 & D4). split_and!; [|by rewrite (lv_buffer _ _ _ _ L4) by apply not_elem_of_nil|done|done].
    by rewrite (lv_surface _ _ _ _ L4) by apply not_elem_of_nil.
  - change [(s, k)] with ([(s, k)] ++ []). by eapply leaves_trans.
Qed.

(** ** The loop *)

(** Waiting for surface [s] of context [c] completed the entries [gone] at the head of
    the queue, in order; the status says what became of [s] and of the others. *)
Definition sync_effect (c s : nat) (Q : queues) (r r' : enc_runtime) (status : va_status) : Prop :=
  exists gone left, Q c = gone ++ left /\ Forall (completed r r') gone /\
    match status with
    | VA_STATUS_SUCCESS => (exists k before, gone = before ++ [(s, k)]) /\ queued r' (set_queue c left Q) /\ leaves c gone r r'
    | VA_STATUS_ERROR_TIMEDOUT => s ∈ left.*1 /\ queued r' (set_queue c left Q) /\ leaves c gone r r'
    | _ => s ∈ left.*1 /\ Forall (failed r r') left /\ queued r' (set_queue c [] Q) /\ leaves c (Q c) r r'
    end.

Lemma up_to_link_same x y : up_to_link x = up_to_link y ->
  es_progress x = es_progress y /\ forall st, up_to_link (put_state st x) = up_to_link (put_state st y).
Proof.
  unfold up_to_link, put_link, put_state, put_progress, es_owner_context. intros E. cbn in *.
  injection E as -> -> -> -> -> -> -> -> -> ->. done.
Qed.

(** What happened to an entry outside of what is left of the queue stays. *)
Lemma completed_later c l r r1 r2 s k : leaves c l r1 r2 -> s ∉ l.*1 -> k ∉ l.*2 ->
  completed r r1 (s, k) -> completed r r2 (s, k).
Proof.
  intros L Hs Hk (o & D1 & D2 & D3). exists o. split_and!; [|by rewrite (lv_buffer _ _ _ _ L)|apply D3..].
  by rewrite (lv_surface _ _ _ _ L).
Qed.
Lemma completed_earlier c l r r1 r2 s k : leaves c l r r1 -> s ∉ l.*1 -> k ∉ l.*2 ->
  completed r1 r2 (s, k) -> completed r r2 (s, k).
Proof.
  intros L Hs Hk (o & D1 & D2 & D3). pose proof (lv_surface _ _ _ _ L s Hs) as E. rewrite (lv_buffer _ _ _ _ L k Hk) in *.
  destruct (up_to_link_same _ _ E) as [Ep Es]. exists o. split_and!; [by rewrite D1|by rewrite D2, Ep|apply D3..].
Qed.
Lemma failed_earlier c l r r1 r2 s k : leaves c l r r1 -> s ∉ l.*1 -> k ∉ l.*2 ->
  failed r1 r2 (s, k) -> failed r r2 (s, k).
Proof.
  intros L Hs Hk (D1 & D2). pose proof (lv_surface _ _ _ _ L s Hs) as E. rewrite (lv_buffer _ _ _ _ L k Hk) in *.
  destruct (up_to_link_same _ _ E) as [_ Es]. split; [by rewrite D1|done].
Qed.

(** The entries of a queue are apart. *)
Lemma entries_apart r Q c e l : queued r Q -> Q c = e :: l ->
  e.1 ∉ l.*1 /\ e.2 ∉ l.*2 /\ forall e', e' ∈ l -> e'.1 ∉ [e].*1 /\ e'.2 ∉ [e].*2.
Proof.
  intros H EQ. assert (forall e', e' ∈ l -> e.1 = e'.1 \/ e.2 = e'.2 -> False) as Hno.
  { intros [s' k'] He' Hor. destruct e as [s k]. destruct (entry_unique r Q c s k c s' k' H) as (_ & -> & _);
      [rewrite EQ; by left|rewrite EQ; by right|done|].
    pose proof (queue_nodup r Q c H) as Hnd. rewrite EQ in Hnd. cbn in Hnd. apply NoDup_cons in Hnd as [Hnd _].
    apply Hnd, list_elem_of_fmap. by exists (s', k'). }
  split_and!.
  - intros (e' & E & He')%list_elem_of_fmap. apply (Hno e' He'). by left.
  - intros (e' & E & He')%list_elem_of_fmap. apply (Hno e' He'). by right.
  - intros e' He'. cbn. rewrite !list_elem_of_singleton. split; intros E; apply (Hno e' He'); auto.
Qed.

Lemma sync_effect_next c s Q r r1 r2 e l status : queued r Q -> Q c = e :: l -> s <> e.1 ->
  completed r r1 e -> leaves c [e] r r1 -> sync_effect c s (set_queue c l Q) r1 r2 status -> sync_effect c s Q r r2 status.
Proof.
  intros H EQ Hne Hc L (gone & left & Eq & Hg & Hrest). rewrite set_queue_same in Eq.
  destruct (entries_apart r Q c e l H EQ) as (A1 & A2 & A3).
  assert (forall q, queued r2 (set_queue c q (set_queue c l Q)) -> queued r2 (set_queue c q Q)) as Hss by (intros q; apply set_queue_twice).
  exists (e :: gone), left. split; [by rewrite EQ, Eq|].
  assert (forall l', (forall e', e' ∈ l' -> e' ∈ l) -> leaves c l' r1 r2 -> leaves c (e :: l') r r2) as HL.
  { intros l' _ L'. change (e :: l') with ([e] ++ l'). by eapply leaves_trans. }
  assert (forall l', (forall e', e' ∈ l' -> e' ∈ l) -> leaves c l' r1 r2 -> completed r r2 e) as HC.
  { intros l' Hl' L'. destruct e as [s0 k0]. eapply completed_later; [exact L'| | |exact Hc].
    - intros ([s' k'] & E & Hi)%list_elem_of_fmap. cbn in E. subst s'. apply A1, list_elem_of_fmap. exists (s0, k'). auto.
    - intros ([s' k'] & E & Hi)%list_elem_of_fmap. cbn in E. subst k'. apply A2, list_elem_of_fmap. exists (s', k0). auto. }
  assert (Forall (completed r r2) gone) as Hg'.
  { apply Forall_forall. intros [s' k'] Hi. rewrite Forall_forall in Hg. destruct (A3 (s', k')) as [B1 B2].
    { rewrite Eq. apply elem_of_app. by left. }
    by apply (completed_earlier c [e] r r1); [..|apply Hg]. }
  assert (forall e', e' ∈ gone -> e' ∈ l) as Hgl by (intros; rewrite Eq; apply elem_of_app; by left).
  assert (s ∈ left.*1 /\ Forall (failed r1 r2) left /\ queued r2 (set_queue c [] (set_queue c l Q)) /\ leaves c (set_queue c l Q c) r1 r2 ->
    Forall (completed r r2) (e :: gone) /\ s ∈ left.*1 /\ Forall (failed r r2) left /\ queued r2 (set_queue c [] Q) /\ leaves c (Q c) r r2) as Hfail.
  { intros (R1 & R2 & R3 & R4). rewrite set_queue_same in R4. split; [apply Forall_cons; split; [by apply (HC l)|done]|].
    split_and!; [done| |by apply Hss|rewrite EQ; by apply HL].
    apply Forall_forall. intros [s' k'] Hi. rewrite Forall_forall in R2. destruct (A3 (s', k')) as [B1 B2].
    - rewrite Eq. apply elem_of_app. by right.
    - by apply (failed_earlier c [e] r r1); [..|apply R2]. }
  destruct status; try exact (Hfail Hrest).
  - destruct Hrest as ((k & before & ->) & R2 & R3). split; [apply Forall_cons; split; [by apply (HC _ Hgl)|done]|].
    split_and!; [by exists k, (e :: before)|by apply Hss|by apply HL].
  - destruct Hrest as (R1 & R2 & R3). split; [apply Forall_cons; split; [by apply (HC _ Hgl)|done]|].
    split_and!; [done|by apply Hss|by apply HL].
Qed.

Lemma sync_loop_spec fuel c s t w Q : queued (tables w) Q -> s ∈ (Q c).*1 -> (length (Q c) <= fuel)%nat ->
  wp (sync_loop fuel c s t) (fun x w' => exists status, x = Some status /\ sync_effect c s Q (tables w) (tables w') status) w.
Proof.
  revert w Q. induction fuel as [|fuel IH]; intros w Q H Hs Hf.
  { destruct (Q c); [by apply not_elem_of_nil in Hs|cbn in Hf; lia]. }
  assert (es_state (surface_at (tables w) s) = ENCODE_SURFACE_PENDING) as Hp.
  { apply list_elem_of_fmap in Hs as ([s' k] & -> & Hi). by apply (q_waiting _ Q H) in Hi as []. }
  cbn [sync_loop]. apply wp_tables. unfold state_is. rewrite Hp, bool_decide_true by done.
  apply wp_bind. eapply wp_mono; [apply (sync_round_spec c t w Q); [done|by intros E; rewrite E in Hs; apply not_elem_of_nil in Hs]|].
  intros [status|] w1 Hx.
  - apply wp_ret. exists status. split; [done|]. exists [], (Q c). split; [done|]. split; [apply Forall_nil_2|].
    destruct status; cbn in Hx; try (destruct Hx as (? & ? & ? & ?); done). destruct Hx as [? ?]. split_and!; [done| |done].
    by apply set_queue_id.
  - destruct Hx as (e & l & EQ & Hrc & D & Q1 & L1). destruct (decide (s = e.1)) as [->|Hne].
    + assert (es_state (surface_at (tables w1) e.1) = ENCODE_SURFACE_READY) as Er.
      { destruct e as [s k]. destruct D as (D1 & _). cbn. apply up_to_link_same in D1 as [D1 _]. unfold es_state. by rewrite D1. }
      assert (wp (sync_loop fuel c e.1 t) (fun x w' => exists status, x = Some status /\ sync_effect c e.1 Q (tables w) (tables w') status) w1) as Hend; [|exact Hend].
      destruct fuel; cbn [sync_loop]; apply wp_tables; unfold state_is; rewrite Er, bool_decide_false, bool_decide_true by done;
        apply wp_ret; (eexists; split; [done|]); exists [e], l; (split; [done|]); (split; [apply Forall_singleton; by exists (snd (received_by c t w))|]);
        (split_and!; [exists e.2, []; by destruct e|done|done]).
    + eapply wp_mono; [apply (IH w1 (set_queue c l Q)); [done| |]; rewrite set_queue_same; rewrite EQ in *|].
      * apply elem_of_cons in Hs as [?|?]; [done|done].
      * cbn in Hf. lia.
      * intros x w2 (status & -> & He). exists status. split; [done|]. eapply sync_effect_next; try done. by exists (snd (received_by c t w)).
Qed.
