(* ===== verification/EncodeInv.v ===== *)
(** * The queue invariant, call by call (src/src/vaapi_advc/advc_vaapi_encode_runtime.c)

    Every entry point of the encode runtime, and the calls of the image code on it,
    take tables that hold queues to tables that hold queues. *)

From stdpp Require Import base list gmap sorting.
From Stdlib Require Import ZArith Lia Bool String Sorted.
#[local] Notation length := List.length.
From S2P Require Import Prelude Kernel Protocol Dmabuf Engine Broker Client ClientConnect World EncodeEos VaapiRoutes VaapiPolicy Va EncodeParams EncodeState EncodeWorld EncodeBroker EncodeLink EncodeSync EncodeRuntime Image EncodeKeeps EncodeQueue EncodeFifo.
Notation world := (world_of driver_state).

(** ** Calls that move the tables along a relation *)

Section Moves.
Context (R : relation enc_runtime) `{!PreOrder R}.

Definition moves {A} (c : St world A) : Prop := forall w, R (tables w) (tables (snd (c w))).

Lemma moves_keeps {A} (c : St world A) : keeps c -> moves c.
Proof. intros H w. by rewrite H. Qed.
Lemma moves_bind {A C} (c : St world A) (k : A -> St world C) : moves c -> (forall a, moves (k a)) -> moves (c ≫= k).
Proof. intros Hc Hk w. rewrite st_seq. etransitivity; [apply Hc|apply Hk]. Qed.
Lemma moves_enc f : (forall r, R r (f r)) -> moves (enc_update f).
Proof. intros H w. apply H. Qed.
Lemma moves_for_each {A} (l : list A) f : (forall x, moves (f x)) -> moves (for_each l f).
Proof. intros Hf. induction l as [|x l IH]; [apply moves_keeps, keeps_value|]. by apply moves_bind. Qed.
Lemma wp_moves {A} (c : St world A) w (P : A -> world -> Prop) : moves c ->
  (forall a w', R (tables w) (tables w') -> P a w') -> wp c P w.
Proof. intros Hc HP. apply HP, Hc. Qed.
End Moves.

Create HintDb moves discriminated.

(** Follow the code; the updates are left. *)
Ltac moves_step :=
  lazymatch goal with
  | |- moves _ (_ ≫= _) => apply moves_bind; [exact _| |intros ?]
  | |- moves _ (enc_update _) => apply moves_enc; intros ?
  | |- moves _ (for_each _ _) => apply moves_for_each; [exact _|intros ?]
  | |- moves _ (match ?x with _ => _ end) => destruct x
  | |- moves _ _ => first [apply moves_keeps; [exact _|solve [eauto with keeps nocore]]|solve [eauto with moves nocore]|progress cbn beta zeta|progress cbn iota]
  end.
Ltac moves := repeat moves_step.

(** *** Contexts *)

(** No context appears, goes or ends its stream. *)
Definition same_contexts (r r' : enc_runtime) : Prop := forall c,
  en_used (context_at r' c) = en_used (context_at r c) /\ en_eos (context_at r' c) = en_eos (context_at r c).
#[export] Instance same_contexts_preorder : PreOrder same_contexts.
Proof. split; [by intros r c|]. intros a b d H1 H2 c. destruct (H1 c), (H2 c). split; congruence. Qed.

Lemma same_contexts_on f r c : (forall x, en_used (f x) = en_used x /\ en_eos (f x) = en_eos x) -> same_contexts r (on_context c f r).
Proof. intros Hf c'. destruct (on_context_at f r c c') as [->|(<- & _ & ->)]; [done|apply Hf]. Qed.
Lemma same_contexts_eq r r' : er_contexts r' = er_contexts r -> same_contexts r r'.
Proof. intros E c. unfold context_at. by rewrite E. Qed.

Lemma mark_contexts c r : same_contexts r (mark_context_pending_error c r).
Proof.
  unfold mark_context_pending_error. etransitivity; [|by apply same_contexts_on].
  generalize all_surfaces. intros l. revert r. induction l as [|s l IH]; intros r; [done|]. cbn [fold_left]. etransitivity; [|apply IH].
  apply same_contexts_eq. unfold fail_pending. destruct (pending_in _ _ _); [|done]. cbn [on_surface put_surfaces er_contexts].
  destruct (get_buffer r _); done.
Qed.

Ltac contexts := moves; try first [by apply same_contexts_eq|apply same_contexts_on; intros ?; (done || by case_match)|apply mark_contexts].

Lemma sync_round_contexts c t : moves same_contexts (sync_round c t).
Proof.
  unfold sync_round, complete_surface, drop_and_fail, close_frame_session, encode_tables. contexts.
Qed.
#[export] Hint Resolve sync_round_contexts : moves.
Lemma sync_contexts s t : moves same_contexts (sync_surface_locked s t).
Proof.
  assert (forall fuel c, moves same_contexts (sync_loop fuel c s t)) as Hl.
  { intros fuel c. induction fuel; cbn [sync_loop]; unfold encode_tables; contexts. }
  unfold sync_surface_locked, encode_tables. contexts.
Qed.
#[export] Hint Resolve sync_contexts : moves.

(** ** Waiting *)

(** What waiting for surface [s] answers and does. *)
Definition sync_outcome (s : nat) (Q : queues) (r r' : enc_runtime) (status : va_status) : Prop :=
  match es_state (surface_at r s) with
  | ENCODE_SURFACE_PENDING => exists c, s ∈ (Q c).*1 /\ sync_effect c s Q r r' status
  | ENCODE_SURFACE_ERROR => status = VA_STATUS_ERROR_ENCODING_ERROR /\ r' = r
  | _ => status = VA_STATUS_SUCCESS /\ r' = r
  end.

Lemma sync_spec s t w Q : queued (tables w) Q -> es_used (surface_at (tables w) s) = true ->
  wp (sync_surface_locked s t) (fun status w' => sync_outcome s Q (tables w) (tables w') status) w.
Proof.
  intros H Hu. unfold sync_surface_locked, sync_outcome. apply wp_tables. cbn zeta.
  destruct (es_state (surface_at (tables w) s)) eqn:Es; try by apply wp_ret.
  destruct (q_surface _ _ H s Hu Es) as (c & k & Hi). pose proof (q_waiting _ _ H _ _ _ Hi) as [W1 W2 _ _ W5 _ _ _ _ _].
  assert (get_context (tables w) (es_owner_context (surface_at (tables w) s)) = Some c) as -> by (by apply get_context_ix).
  assert (s ∈ (Q c).*1) as Hs by (apply list_elem_of_fmap; by exists (s, k)).
  rewrite W2, (q_count _ _ H c W1). cbn [negb orb].
  destruct (Z.eqb_spec (zlen (Q c)) 0) as [E|_].
  { destruct (Q c); [by apply not_elem_of_nil in Hi|unfold zlen in E; cbn in E; lia]. }
  apply wp_bind. eapply wp_mono; [apply (sync_loop_spec sync_fuel c s t w Q H Hs); by eapply queue_short|].
  intros x w' (status & -> & He). apply wp_ret. by exists c.
Qed.

Lemma sync_effect_queued c s Q r r' status : sync_effect c s Q r r' status ->
  exists q, queued r' (set_queue c q Q) /\ (status = VA_STATUS_SUCCESS -> (length q < length (Q c))%nat).
Proof.
  intros (gone & left & -> & _ & H). destruct status; try (destruct H as (_ & _ & H & _); by exists []).
  - destruct H as ((k & before & ->) & H & _). exists left. split; [done|]. rewrite !length_app. cbn. lia.
  - destruct H as (_ & H & _). by exists left.
Qed.

(** The tables hold queues. *)
Definition holds (w : world) : Prop := (exists Q, queued (tables w) Q) /\ forall c, en_eos (context_at (tables w) c) = fresh_state.

Lemma holds_contexts w w' Q : same_contexts (tables w) (tables w') -> holds w -> queued (tables w') Q -> holds w'.
Proof. intros Hs [_ He] H. split; [by exists Q|]. intros c. destruct (Hs c) as [_ ->]. apply He. Qed.

Lemma sync_holds s t w (P : va_status -> world -> Prop) : holds w -> es_used (surface_at (tables w) s) = true ->
  (forall status w', holds w' -> P status w') -> wp (sync_surface_locked s t) P w.
Proof.
  intros Hw Hu HP. destruct Hw as [[Q H] He]. pose proof (sync_spec s t w Q H Hu) as Hs. pose proof (sync_contexts s t w) as Hc.
  unfold wp in *. destruct (sync_surface_locked s t w) as [status w']. cbn [fst snd] in *. apply HP.
  assert (exists Q', queued (tables w') Q') as [Q' H'].
  { unfold sync_outcome in Hs. destruct (es_state _).
    - destruct Hs as [_ ->]. by exists Q.
    - destruct Hs as (c & _ & Hs). apply sync_effect_queued in Hs as (q & ? & _). by exists (set_queue c q Q).
    - destruct Hs as [_ ->]. by exists Q.
    - destruct Hs as [_ ->]. by exists Q. }
  apply (holds_contexts w w' Q'); [exact Hc|split; [by exists Q|exact He]|exact H'].
Qed.

(** ** The end of a context *)

Lemma queue_context r Q c : queued r Q -> en_used (context_at r c) = true -> (c < 4)%nat.
Proof.
  intros H Hu. destruct (decide (c < 4)%nat); [done|]. exfalso. destruct (q_sizes r Q H) as [L _].
  unfold context_at in Hu. rewrite lookup_ge_None_2 in Hu by lia. done.
Qed.

(** The oldest submission is waited for, with success or not. *)
Lemma sync_oldest c s k t w Q l : queued (tables w) Q -> Q c = (s, k) :: l ->
  wp (sync_surface_locked s t) (fun status w' => exists q, queued (tables w') (set_queue c q Q) /\
    (status = VA_STATUS_SUCCESS -> (length q < length (Q c))%nat)) w.
Proof.
  intros H EQ. assert ((s, k) ∈ Q c) as Hi by (rewrite EQ; by left). pose proof (q_waiting _ _ H _ _ _ Hi) as [_ _ W3 W4 _ _ _ _ _ _].
  eapply wp_mono; [by apply (sync_spec s t w Q)|]. intros status w' Hs. unfold sync_outcome in Hs. rewrite W4 in Hs.
  destruct Hs as (c' & Hs & He). apply list_elem_of_fmap in Hs as ([s' k'] & -> & Hi').
  destruct (entry_unique _ Q c s' k c' s' k' H Hi Hi') as (<- & _ & _); [by left|]. by apply sync_effect_queued in He.
Qed.

(** The queue of [c] is shorter, or as it was; the others are the same. *)
Definition emptied (c : nat) (Q : queues) (w : world) : Prop := queued (tables w) (set_queue c [] Q).

Lemma wp_mark c Q w (P : unit -> world -> Prop) : queued (tables w) Q -> en_used (context_at (tables w) c) = true ->
  (forall w', emptied c Q w' -> same_contexts (tables w) (tables w') -> P tt w') -> wp (enc_update (mark_context_pending_error c)) P w.
Proof.
  intros H Hu HP. apply wp_enc. intros w' E. apply HP; [|rewrite E; apply mark_contexts]. unfold emptied. rewrite E.
  apply mark_error; [done|by eapply queue_context].
Qed.

Lemma drain_frames_spec fuel c deadline w Q : queued (tables w) Q -> en_used (context_at (tables w) c) = true ->
  (length (Q c) <= fuel)%nat ->
  wp (drain_frames fuel c deadline) (fun x w' => is_Some x /\ emptied c Q w') w.
Proof.
  assert (forall w Q, queued (tables w) Q -> Q c = [] -> emptied c Q w) as Hempty.
  { intros w0 Q0 H0 Hq. apply (queued_ext _ Q0); [|done]. intros c'. unfold set_queue. case_decide; by subst. }
  revert w Q. induction fuel as [|fuel IH]; intros w Q H Hu Hf; cbn [drain_frames]; apply wp_tables; rewrite (q_count _ _ H c Hu).
  { destruct (Q c) eqn:EQ; [|cbn in Hf; lia]. apply wp_ret. split; [done|by apply Hempty]. }
  destruct (Q c) as [|[s k] l] eqn:EQ; [apply wp_ret; split; [done|by apply Hempty]|].
  rewrite (proj2 (Z.ltb_lt _ _)) by (unfold zlen; cbn; lia). cbn [negb]. rewrite (find_oldest _ Q c H), EQ. cbn [head fmap option_fmap option_map fst].
  apply wp_seq_keeps; [eauto with keeps|]. intros now w1 E1. rewrite <- E1 in H, Hu.
  destruct (_ || _).
  { apply wp_bind, (wp_mark c Q); [done|done|]. intros w2 H2 _. by apply wp_ret. }
  apply wp_bind. pose proof (sync_oldest c s k (if UINT32_MAX <? deadline - now then UINT32_MAX else deadline - now) w1 Q l H EQ) as Hs.
  pose proof (sync_contexts s (if UINT32_MAX <? deadline - now then UINT32_MAX else deadline - now) w1 c) as Hc.
  unfold wp in Hs |- * at 1. destruct (sync_surface_locked s _ w1) as [status w2]. cbn [fst snd] in *.
  destruct Hs as (q & H2 & Hlen). destruct Hc as [Hu2 _]. rewrite Hu in Hu2.
  case_bool_decide as Hst; cbn [negb].
  - specialize (Hlen Hst). rewrite EQ in Hlen. cbn in Hlen, Hf.
    eapply wp_mono; [apply (IH w2 _ H2 Hu2); rewrite set_queue_same; lia|]. intros x w3 [Hx H3]. split; [done|].
    unfold emptied in *. by apply set_queue_twice in H3.
  - apply wp_bind, (wp_mark c _ _ _ H2 Hu2). intros w3 H3 _. apply wp_ret. split; [done|]. unfold emptied in *. by apply set_queue_twice in H3.
Qed.

Lemma drain_session_spec c w Q : queued (tables w) Q -> en_used (context_at (tables w) c) = true ->
  wp (drain_frame_session_locked c) (fun _ w' => emptied c Q w') w.
Proof.
  intros H Hu. unfold drain_frame_session_locked. apply wp_seq_keeps; [eauto with keeps|]. intros start w1 E1. rewrite <- E1 in H, Hu.
  destruct (_ || _).
  - apply wp_bind, (wp_mark c Q); [done|done|]. intros w2 H2 _. by apply wp_ret.
  - apply wp_bind. eapply wp_mono; [apply (drain_frames_spec sync_fuel c _ w1 Q H Hu); by eapply queue_short|].
    intros x w2 [_ H2]. by apply wp_ret.
Qed.

Lemma drain_session_contexts c : moves same_contexts (drain_frame_session_locked c).
Proof.
  assert (forall fuel d, moves same_contexts (drain_frames fuel c d)) as Hl.
  { intros fuel d. induction fuel; cbn [drain_frames]; unfold encode_tables; contexts. }
  unfold drain_frame_session_locked. contexts.
Qed.

(** *** End of stream *)

Lemma wp_fail {C} e (k : Z -> St world C) w P :
  (forall w', tables w' = tables w -> wp (k (-1)) P w') -> wp (kernel (fail_with e) ≫= k) P w.
Proof. intros H. apply wp_bind. apply (H (snd (kernel (fail_with e) w))). done. Qed.

Lemma drain_once_contexts c t : moves same_contexts (context_eos_drain_once c t).
Proof. unfold context_eos_drain_once, encode_tables. contexts. Qed.

Lemma drain_once_spec c t w Q : queued (tables w) Q -> en_used (context_at (tables w) c) = true ->
  wp (context_eos_drain_once c t) (fun x w' => exists q, queued (tables w') (set_queue c q Q) /\
    (0 <= fst x -> if snd x then q = [] else (length q < length (Q c))%nat)) w.
Proof.
  intros H Hu. unfold context_eos_drain_once. apply wp_tables. rewrite (q_count _ _ H c Hu).
  destruct (Q c) as [|[s k] l] eqn:EQ.
  - apply wp_seq_keeps; [unfold encode_tables; eauto with keeps|]. intros [received output] w1 E1.
    assert (queued (tables w1) (set_queue c [] Q)) as H1.
    { rewrite E1. rewrite <- EQ. by apply set_queue_id. }
    destruct (Z.ltb_spec received 0); [apply wp_ret; exists []; split; [done|cbn; lia]|].
    destruct (_ =? 0).
    + apply wp_seq_keeps; [eauto with keeps|]. intros o w2 E2. apply wp_fail. intros w3 E3. apply wp_ret.
      exists []. rewrite E3, E2. split; [done|cbn; lia].
    + apply wp_seq_enc. intros w2 E2. apply wp_seq_keeps; [eauto with keeps|]. intros o w3 E3. apply wp_ret.
      exists []. split; [|done]. rewrite E3, E2. apply queued_context_same; [done|]. by split_and!.
  - rewrite (proj2 (Z.ltb_lt _ _)) by (unfold zlen; cbn; lia). rewrite (find_oldest _ Q c H), EQ. cbn [head fmap option_fmap option_map fst].
    apply wp_bind. pose proof (sync_oldest c s k t w Q l H EQ) as Hs. pose proof (sync_contexts s t w c) as [Hc _].
    unfold wp in Hs |- * at 1. destruct (sync_surface_locked s t w) as [status w1]. cbn [fst snd] in *. rewrite Hu in Hc.
    destruct Hs as (q & H1 & Hlen). rewrite EQ in Hlen. case_bool_decide as Hst; cbn [negb].
    + apply wp_tables. pose proof (q_count _ _ H1 c Hc) as Hn. rewrite set_queue_same in Hn.
      destruct (en_broker_eos_received (context_at (tables w1) c)) eqn:Er; cbn [andb].
      * destruct (Z.eqb_spec (en_pending_count (context_at (tables w1) c)) 0) as [E|E]; cbn [negb].
        -- apply wp_ret. exists q. split; [done|]. intros _. cbn. rewrite E in Hn. destruct q; [done|unfold zlen in Hn; cbn in Hn; lia].
        -- apply wp_fail. intros w2 E2. apply wp_ret. exists q. rewrite E2. split; [done|cbn; lia].
      * apply wp_ret. exists q. split; [done|]. intros _. cbn. by apply Hlen.
    + apply wp_fail. intros w2 E2. apply wp_ret. exists q. rewrite E2. split; [done|cbn; lia].
Qed.

(** The stream of [c] has ended. *)
Definition ended (c : nat) (Q : queues) (w w' : world) : Prop := emptied c Q w' /\ same_contexts (tables w) (tables w').

Lemma ended_next c q Q w w1 w' : same_contexts (tables w) (tables w1) -> ended c (set_queue c q Q) w1 w' -> ended c Q w w'.
Proof. intros H [E1 E2]. split; [unfold emptied in *; by apply set_queue_twice in E1|by etransitivity]. Qed.

Lemma ended_fail c Q es x e : queued (tables (wd x)) Q -> en_used (context_at (tables (wd x)) c) = true -> es_failed_closed es = false ->
  exists es' x', fail_once (context_eos_ops c) es x e = (-1, (es', x')) /\ ended c Q (wd x) (wd x').
Proof.
  intros H Hu Hf. unfold fail_once. rewrite Hf. cbn. do 2 eexists. split; [done|]. cbn.
  pose proof (wp_mark c Q (wd x) (fun _ w' => ended c Q (wd x) w') H Hu) as Hm. apply Hm. intros w' ? ?. by split.
Qed.

Lemma eos_drain fuel c deadline es x Q : queued (tables (wd x)) Q -> en_used (context_at (tables (wd x)) c) = true ->
  es_failed_closed es = false -> (es_eos_received es = true -> Q c = []) -> (es_eos_received es = false -> (length (Q c) < fuel)%nat) ->
  exists r es' x', drain_loop (context_eos_ops c) fuel deadline es x = Some (r, (es', x')) /\ ended c Q (wd x) (wd x').
Proof.
  revert es x Q. induction fuel as [|fuel IH]; intros es x Q H Hu Hf Hr Hl; unfold drain_loop; fold (drain_loop (context_eos_ops c)).
  - destruct (es_eos_received es); [|specialize (Hl eq_refl); lia]. do 3 eexists. split; [done|]. split; [|done].
    specialize (Hr eq_refl). unfold emptied. rewrite <- Hr. by apply set_queue_id.
  - destruct (es_eos_received es) eqn:Er.
    { do 3 eexists. split; [done|]. split; [|done]. specialize (Hr eq_refl). unfold emptied. rewrite <- Hr. by apply set_queue_id. }
    specialize (Hl eq_refl). unfold now_ms, context_eos_ops at 1, callback. cbn [op_now_ms].
    pose proof (keeps_now (wd x)) as Kn. destruct (context_eos_now_ms (wd x)) as [now w1]. cbn [fst snd] in Kn. cbn [wd werrno wcalls].
    set (x1 := EncodeEos.World w1 _ _). change w1 with (wd x1) in Kn. rewrite <- Kn in H, Hu.
    assert (forall e, exists r es' x', Some (fail_once (context_eos_ops c) es x1 e) = Some (r, (es', x')) /\ ended c Q (wd x) (wd x')) as Hfail.
    { intros e. destruct (ended_fail c Q es x1 e H Hu Hf) as (es' & x' & -> & [E1 E2]). do 3 eexists. split; [done|]. split; [done|]. by rewrite Kn in E2. }
    destruct (now =? UINT64_MAX); [apply Hfail|]. destruct (deadline <=? now); [apply Hfail|]. clear Hfail.
    set (wait := if (if _ <? _ then _ else _) =? 0 then _ else _). clearbody wait.
    unfold drain_once, context_eos_ops at 1, callback. cbn [op_drain_once].
    pose proof (drain_once_spec c wait (wd x1) Q H Hu) as Hd. pose proof (drain_once_contexts c wait (wd x1)) as Hc. unfold wp in Hd.
    destruct (context_eos_drain_once c wait (wd x1)) as [[r received] w2]. cbn [fst snd] in *. cbn [wd werrno wcalls].
    set (x2 := EncodeEos.World w2 _ _). change w2 with (wd x2) in Hd, Hc. destruct Hd as (q & H2 & Hq).
    pose proof (Hc c) as [Hu2 _]. rewrite Hu in Hu2. assert (same_contexts (tables (wd x)) (tables (wd x2))) as Hc2 by (by rewrite <- Kn).
    destruct (Z.ltb_spec r 0).
    + destruct (ended_fail c (set_queue c q Q) es x2 (m_errno (w_m w2)) H2 Hu2 Hf) as (es' & x' & -> & He). do 3 eexists. split; [done|]. by eapply ended_next.
    + specialize (Hq ltac:(lia)).
      destruct (IH (if received then receive_eos es else es) x2 (set_queue c q Q) H2 Hu2) as (r' & es' & x' & Hx & He).
      * by destruct received.
      * rewrite set_queue_same. destruct received; [done|]. cbn. congruence.
      * rewrite set_queue_same. destruct received; cbn; [done|]. lia.
      * exists r', es', x'. split; [exact Hx|]. by eapply ended_next.
Qed.

(** The call at the end of a stream returns, and nothing is pending. *)
Lemma eos_finish_ended c pts w Q : queued (tables w) Q -> en_used (context_at (tables w) c) = true ->
  exists r es' x', advc_vaapi_encode_eos_finish (context_eos_ops c) eos_fuel pts ADVC_VAAPI_IMAGE_SYNC_TIMEOUT_MS fresh_state
    (EncodeEos.World w (m_errno (w_m w)) []) = Some (r, (es', x')) /\ ended c Q w (wd x').
Proof.
  intros H Hu. unfold advc_vaapi_encode_eos_finish.
  cbn [fresh_state es_failed_closed es_eos_received es_signal_attempted es_signal_succeeded es_failure_errno negb].
  unfold signal_eos, context_eos_ops at 1, callback. cbn [op_signal_eos wd].
  pose proof (keeps_eos_signal c pts w) as Ks. destruct (context_eos_signal c pts w) as [r w1]. cbn [fst snd] in Ks. cbn [wd werrno wcalls].
  set (x1 := EncodeEos.World w1 _ _). change w1 with (wd x1) in Ks. rewrite <- Ks in H, Hu.
  assert (forall x', ended c Q (wd x1) (wd x') -> ended c Q w (wd x')) as Hback1 by (intros x' [? ?]; split; [done|by rewrite <- Ks]).
  destruct (r <? 0).
  { destruct (ended_fail c Q (EosState true false false false 0) x1 (m_errno (w_m w1)) H Hu eq_refl) as (es' & x' & E & Hx). do 3 eexists. split; [exact (f_equal Some E)|auto]. }
  unfold drain_phase, now_ms, context_eos_ops at 1, callback. cbn [op_now_ms].
  pose proof (keeps_now (wd x1)) as Kn. destruct (context_eos_now_ms (wd x1)) as [now w2]. cbn [fst snd] in Kn. cbn [wd werrno wcalls].
  set (x2 := EncodeEos.World w2 _ _). change w2 with (wd x2) in Kn. rewrite <- Kn in H, Hu.
  assert (forall x', ended c Q (wd x2) (wd x') -> ended c Q w (wd x')) as Hback by (intros x' [? ?]; apply Hback1; split; [done|by rewrite <- Kn]).
  destruct (_ || _).
  - destruct (ended_fail c Q (EosState true true false false 0) x2 EOVERFLOW H Hu eq_refl) as (es' & x' & E & Hx). do 3 eexists. split; [exact (f_equal Some E)|auto].
  - destruct (eos_drain eos_fuel c (now + ADVC_VAAPI_IMAGE_SYNC_TIMEOUT_MS) (EosState true true false false 0) x2 Q H Hu eq_refl)
      as (r' & es' & x' & E & Hx); [done|intros _; pose proof (queue_short _ _ c H); unfold eos_fuel; change (Z.to_nat ADVC_ENCODE_SURFACE_SLOTS) with 64%nat; lia|].
    exists r', es', x'. split; [exact E|auto].
Qed.

Lemma finish_eos_ended c w Q : queued (tables w) Q -> en_used (context_at (tables w) c) = true ->
  en_eos (context_at (tables w) c) = fresh_state ->
  wp (finish_eos c) (fun r w' => is_Some r /\ emptied c Q w' /\
    (forall c', en_used (context_at (tables w') c') = en_used (context_at (tables w) c')) /\
    forall c', c' <> c -> en_eos (context_at (tables w') c') = en_eos (context_at (tables w) c')) w.
Proof.
  intros H Hu He. unfold finish_eos, wp. change (ds_encode (w_rt w)) with (tables w). rewrite He.
  destruct (eos_finish_ended c (en_last_pts_ns (context_at (tables w) c)) w Q H Hu) as (r' & es' & x' & -> & [E1 E2]).
  set (f := fun k => put_eos (en_broker_eos_received k) es' k).
  change (wp (kernel (errno_is (werrno x')) ≫= fun _ => enc_update (on_context c f) ≫= fun _ => mret (Some r'))
    (fun r w' => is_Some r /\ emptied c Q w' /\ (forall c', en_used (context_at (tables w') c') = en_used (context_at (tables w) c')) /\
      forall c', c' <> c -> en_eos (context_at (tables w') c') = en_eos (context_at (tables w) c')) (wd x')).
  apply wp_seq_keeps; [eauto with keeps|]. intros _ w3 E3. apply wp_seq_enc. intros w4 E4. apply wp_ret. rewrite E3 in E4.
  split; [by eexists|]. unfold emptied in *. rewrite E4. split; [by apply queued_context_same|]. split.
  - intros c'. destruct (E2 c') as [<- _]. destruct (on_context_at f (tables (wd x')) c c') as [->|(_ & _ & ->)]; done.
  - intros c' Hne. destruct (E2 c') as [_ <-]. destruct (on_context_at f (tables (wd x')) c c') as [->|(? & _ & ->)]; congruence.
Qed.
