(* ===== verification/EncodeCalls.v ===== *)
(** * Entry points that do not submit (src/src/vaapi_advc/advc_vaapi_encode_runtime.c)

    Contexts, configurations, surfaces and buffers come and go, and the tables keep
    holding queues.  The end of a context empties its queue. *)

From stdpp Require Import base list gmap sorting.
From Stdlib Require Import ZArith Lia Bool String Sorted.
#[local] Notation length := List.length.
From S2P Require Import Prelude Kernel Protocol Dmabuf Engine Broker Client ClientConnect World EncodeEos VaapiRoutes VaapiPolicy Va EncodeParams EncodeState EncodeWorld EncodeBroker EncodeLink EncodeSync EncodeRuntime Image EncodeKeeps EncodeQueue EncodeFifo EncodeInv.
Notation world := (world_of driver_state).

(** ** Steps the queues do not see *)

(** The same surfaces and buffers wait, in the same contexts. *)
Lemma same_views_contexts r r' : same_views r r' -> same_contexts r r'.
Proof. intros [_ _ _ H] c. by rewrite H. Qed.

Lemma holds_views w w' : same_views (tables w) (tables w') -> holds w -> holds w'.
Proof.
  intros H Hw. pose proof Hw as [[Q HQ] _]. apply (holds_contexts w w' Q); [by apply same_views_contexts|done|]. by eapply queued_views.
Qed.
Lemma holds_keeps w w' : tables w' = tables w -> holds w -> holds w'.
Proof. intros E H. apply (holds_views w); [|done]. by rewrite E. Qed.

Lemma view_not_pending x : es_state x <> ENCODE_SURFACE_PENDING -> surface_view x = None.
Proof. intros H. unfold surface_view, state_is. rewrite bool_decide_false by done. by rewrite andb_false_r. Qed.
Lemma view_unused x : es_used x = false -> surface_view x = None.
Proof. intros H. unfold surface_view. by rewrite H. Qed.
Lemma view_none_not_pending x : surface_view x = None -> es_used x = true -> es_state x <> ENCODE_SURFACE_PENDING.
Proof. unfold surface_view. intros H Hu Hs. rewrite Hu, Hs in H. done. Qed.

(** An update of a surface that does not wait, to one that does not wait. *)
Lemma same_views_idle f r s : surface_view (surface_at r s) = None -> surface_view (f (surface_at r s)) = None ->
  same_views r (on_surface s f r).
Proof. intros H1 H2. apply same_views_surface. by rewrite H1. Qed.

(** ** The end of a context *)

Lemma owned_idle r Q c s : queued r Q -> Q c = [] -> owned_by r c (surface_at r s) = true -> surface_view (surface_at r s) = None.
Proof.
  intros H Hq Ho. apply view_not_pending. intros Hs.
  assert (pending_in r c (surface_at r s) = true) as Hp by (unfold pending_in, state_is; rewrite Ho, bool_decide_true; done).
  apply (pending_in_spec r Q c s H) in Hp. rewrite Hq in Hp. by apply not_elem_of_nil in Hp.
Qed.

(** [s] has no owner any more if it was owned by [c]. *)
Definition disowned (r : enc_runtime) (c s : nat) : Prop := owned_by r c (surface_at r s) = false.

Lemma owned_by_of r r' c x : (forall id, get_context r' id = get_context r id) -> owned_by r' c x = owned_by r c x.
Proof. intros H. unfold owned_by. by rewrite H. Qed.
Lemma get_context_of r r' id : same_contexts r r' -> get_context r' id = get_context r id.
Proof. intros H. unfold get_context. destruct (id_index _ _ _) as [i|]; [|done]. cbn. by destruct (H i) as [-> _]. Qed.

Section Calls.
Context {nr : encoder}.

Lemma close_surface_spec c s w Q : queued (tables w) Q -> Q c = [] ->
  wp (close_surface c s) (fun _ w' => same_views (tables w) (tables w') /\ disowned (tables w') c s /\
    forall s', s' <> s -> surface_at (tables w') s' = surface_at (tables w) s') w.
Proof.
  intros H Hq. unfold close_surface. apply wp_tables. destruct (owned_by _ _ _) eqn:Ho; cbn [negb]; [|by apply wp_ret].
  pose proof (owned_idle _ Q c s H Hq Ho) as Hv.
  apply wp_bind. apply (wp_mono _ (fun _ w1 => same_views (tables w) (tables w1) /\ surface_view (surface_at (tables w1) s) = None /\
    forall s', s' <> s -> surface_at (tables w1) s' = surface_at (tables w) s')).
  { assert (forall f w1 w2, tables w1 = tables w -> tables w2 = on_surface s f (tables w1) -> surface_view (f (surface_at (tables w) s)) = None ->
      same_views (tables w) (tables w2) /\ surface_view (surface_at (tables w2) s) = None /\
      forall s', s' <> s -> surface_at (tables w2) s' = surface_at (tables w) s') as Hone.
    { intros f w1 w2 E1 E2 Hf. rewrite E2, E1. split; [by apply same_views_idle|]. split.
      - destruct (on_surface_at f (tables w) s s) as [->|(_ & _ & ->)]; done.
      - intros s' Hne. destruct (on_surface_at f (tables w) s s') as [->|(? & _)]; congruence. }
    destruct (_ && _); [|by apply wp_ret]. apply wp_seq_keeps; [eauto with keeps|]. intros [done link] w1 E1.
    destruct (done <? 0); apply wp_enc; intros w2 E2; (eapply Hone; [exact E1|exact E2|]).
    - by apply view_not_pending.
    - exact Hv. }
  intros [] w1 (V1 & N1 & O1). apply wp_enc. intros w2 E2.
  set (f := fun x => let x := put_owner 0 VA_INVALID_ID x in _) in E2.
  assert (surface_view (f (surface_at (tables w1) s)) = None) as Hf.
  { unfold f. cbn zeta. destruct (state_is _ _) eqn:E; [by apply view_not_pending|].
    unfold surface_view. unfold state_is in *. by rewrite E, andb_false_r. }
  split; [|split].
  - etransitivity; [exact V1|]. rewrite E2. by apply same_views_idle.
  - unfold disowned, owned_by. rewrite E2. assert (es_owner_context (f (surface_at (tables w1) s)) = 0) as Hz.
    { unfold f. cbn zeta. by destruct (state_is _ _). }
    destruct (on_surface_at f (tables w1) s s) as [E|(_ & _ & E)]; [|by rewrite E, Hz, andb_false_r].
    destruct (decide (s < length (er_surfaces (tables w1)))%nat) as [Hl|Hl].
    + change (surface_at (on_surface s f (tables w1)) s) with (slot_at zero_surface (alter f s (er_surfaces (tables w1))) s).
      rewrite slot_same by done. fold (surface_at (tables w1) s). change (slot_at zero_surface (er_surfaces (tables w1)) s) with (surface_at (tables w1) s). by rewrite Hz, andb_false_r.
    + rewrite E. unfold surface_at. rewrite lookup_ge_None_2 by lia. done.
  - intros s' Hne. rewrite E2, <- O1 by done. destruct (on_surface_at f (tables w1) s s') as [->|(? & _)]; congruence.
Qed.

Lemma close_surfaces_spec c l w Q : queued (tables w) Q -> Q c = [] -> NoDup l ->
  wp (for_each l (close_surface c)) (fun _ w' => same_views (tables w) (tables w') /\
    (forall s, s ∈ l -> disowned (tables w') c s) /\
    forall s, s ∉ l -> surface_at (tables w') s = surface_at (tables w) s) w.
Proof.
  revert w. induction l as [|s l IH]; intros w H Hq Hnd.
  { apply wp_ret. split_and!; [done| |done]. by intros s Hs%not_elem_of_nil. }
  apply NoDup_cons in Hnd as [Hs Hnd]. cbn [for_each]. apply wp_bind. eapply wp_mono; [by apply (close_surface_spec c s w Q)|].
  intros [] w1 (V1 & D1 & O1). eapply wp_mono; [apply IH; [by eapply queued_views|done|done]|]. intros [] w2 (V2 & D2 & O2).
  split_and!; [by etransitivity| |].
  - intros s' [->|Hi]%elem_of_cons; [|by apply D2]. unfold disowned in *. rewrite O2 by done. rewrite <- D1.
    apply owned_by_of. intros id. apply get_context_of. by apply same_views_contexts.
  - intros s' [Hne Hi]%not_elem_of_cons. by rewrite O2, O1.
Qed.

(** Nothing is left of the context. *)
Definition closed (c : nat) (r : enc_runtime) : Prop :=
  context_at r c = closed_context /\ forall s, context_ix (es_owner_context (surface_at r s)) = Some c -> es_used (surface_at r s) = false.

Lemma close_context_spec c w Q : queued (tables w) Q -> Q c = [] -> en_used (context_at (tables w) c) = true ->
  wp (close_context_locked c) (fun _ w' => queued (tables w') Q /\ closed c (tables w') /\
    forall c', c' <> c -> context_at (tables w') c' = context_at (tables w) c') w.
Proof.
  intros H Hq Hu. pose proof (queue_context _ Q c H Hu) as Hc. unfold close_context_locked. apply wp_bind.
  eapply wp_mono; [apply (close_surfaces_spec c all_surfaces w Q H Hq), NoDup_seq|]. intros [] w1 (V1 & D1 & O1).
  pose proof (queued_views _ _ _ V1 H) as H1. apply wp_tables. apply wp_seq_keeps; [eauto with keeps|].
  { destruct (en_broker_open _); [apply keeps_seq; [eauto with keeps|intros; apply keeps_value]|apply keeps_value]. }
  intros _ w2 E2. apply wp_enc. intros w3 E3. rewrite E2 in E3.
  assert (forall c', context_at (tables w3) c' = if decide (c' = c) then closed_context else context_at (tables w) c') as HC.
  { intros c'. rewrite E3. change (context_at (on_context c ?f ?r) c') with (slot_at zero_context (alter f c (er_contexts r)) c').
    case_decide as Hd; [subst c'; rewrite slot_same; [done|destruct (q_sizes _ _ H1) as (-> & _); lia]|rewrite slot_other by done].
    change (context_at (tables w1) c' = context_at (tables w) c'). by rewrite (vw_context _ _ V1). }
  split_and!.
  - rewrite E3. apply queued_context; [done|]. by split; auto.
  - split; [by rewrite HC, decide_True|]. intros s Hs. rewrite E3 in Hs |- *. change (surface_at (on_context c ?f ?r) s) with (surface_at r s) in *.
    destruct (es_used (surface_at (tables w1) s)) eqn:Eu; [|done]. exfalso.
    assert ((s < 64)%nat) as Hlt.
    { destruct (decide (s < 64)%nat); [done|]. unfold surface_at in Eu. destruct (q_sizes _ _ H1) as (_ & L & _).
      rewrite lookup_ge_None_2 in Eu by lia. done. }
    specialize (D1 s (proj2 (all_surfaces_in s) Hlt)). unfold disowned, owned_by in D1. rewrite Eu in D1. cbn [andb] in D1.
    assert (get_context (tables w1) (es_owner_context (surface_at (tables w1) s)) = Some c) as Hg.
    { apply get_context_ix. split; [done|]. by rewrite (vw_context _ _ V1). }
    rewrite Hg, bool_decide_true, andb_true_r in D1 by done. apply negb_false_iff, Z.eqb_eq in D1. rewrite D1 in Hs. done.
  - intros c' Hne. by rewrite HC, decide_False.
Qed.

Lemma set_queue_empty r c Q : queued r Q -> Q c = [] -> queued r (set_queue c [] Q).
Proof. intros H Hq. rewrite <- Hq. by apply set_queue_id. Qed.

(** The context's stream ends, and then the context is closed. *)
Lemma finish_context_spec c w Q : queued (tables w) Q -> en_used (context_at (tables w) c) = true ->
  en_eos (context_at (tables w) c) = fresh_state ->
  wp (finish_context_locked c) (fun _ w' => emptied c Q w' /\
    (forall c', en_used (context_at (tables w') c') = en_used (context_at (tables w) c')) /\
    forall c', c' <> c -> en_eos (context_at (tables w') c') = en_eos (context_at (tables w) c')) w.
Proof.
  intros H Hu He. unfold finish_context_locked. apply wp_tables.
  destruct (en_broker_open _) eqn:Eo; cbn [negb].
  - destruct (en_broker_frame_session _).
    + pose proof (drain_session_spec c w Q H Hu) as Hd.
      pose proof (drain_session_contexts c w) as Hc. unfold wp in *. split; [done|]. split; [apply Hc|]. intros c' _. apply Hc.
    + apply wp_bind. eapply wp_mono; [by apply (finish_eos_ended c w Q)|]. intros ? w1 ([r ->] & H1 & H2 & H3). destruct (r =? 0); [by apply wp_ret|].
      apply wp_seq_keeps; [eauto with keeps|]. intros e w2 E2. apply wp_ret. unfold emptied in *. rewrite E2. by split_and!.
  - apply wp_ret. split; [|done]. apply set_queue_empty; [done|]. destruct (Q c) eqn:EQ; [done|].
    destruct (queued_open _ Q c H) as [_ ?]; [by rewrite EQ|congruence].
Qed.

(** [c], in use and its stream not yet ended, is gone. *)
Definition destroyed (c : nat) (Q : queues) (w : world) (w' : world) : Prop :=
  emptied c Q w' /\ closed c (tables w') /\
  (forall c', c' <> c -> en_used (context_at (tables w') c') = en_used (context_at (tables w) c')) /\
  ((forall c', en_eos (context_at (tables w) c') = fresh_state) -> forall c', en_eos (context_at (tables w') c') = fresh_state).

Lemma end_context_spec c w Q : queued (tables w) Q -> en_used (context_at (tables w) c) = true ->
  en_eos (context_at (tables w) c) = fresh_state ->
  wp (status ← finish_context_locked c; close_context_locked c ;; mret status) (fun _ w' => destroyed c Q w w') w.
Proof.
  intros H Hu He. apply wp_bind. eapply wp_mono; [by apply (finish_context_spec c w Q)|]. intros status w1 (H1 & U1 & F1).
  apply wp_bind. eapply wp_mono; [apply (close_context_spec c w1 _ H1); [apply set_queue_same|by rewrite U1]|].
  intros [] w2 (H2 & C2 & O2). apply wp_ret. split_and!; [done|done| |].
  - intros c' Hne. by rewrite O2, U1.
  - intros Hf c'. destruct (decide (c' = c)) as [->|Hne]; [by destruct C2 as [-> _]|by rewrite O2, F1].
Qed.

Lemma destroy_context_holds id w : holds w -> wp (advc_vaapi_encode_destroy_context id) (fun _ w' => holds w') w.
Proof.
  intros Hw. pose proof Hw as [[Q H] He]. unfold advc_vaapi_encode_destroy_context. apply wp_tables.
  destruct (get_context _ id) as [c|] eqn:Eg; [|by apply wp_ret]. apply get_context_ix in Eg as [_ Hu].
  eapply wp_mono; [by apply (end_context_spec c w Q)|]. intros status w' (H' & _ & _ & F'). split; [by eexists|auto].
Qed.

(** ** Configurations *)

Lemma config_views f r i : same_views r (on_config i f r).
Proof. by split. Qed.
Lemma create_config_holds profile entrypoint attributes n (w : world) : holds w ->
  wp (advc_vaapi_encode_create_config profile entrypoint attributes n) (fun _ w' => holds w') w.
Proof.
  intros Hw. unfold advc_vaapi_encode_create_config. apply wp_tables. cbn zeta.
  match goal with |- context [match ?x with inl _ => _ | inr config => _ end] => destruct x as [|config] end; [by apply wp_ret|].
  destruct (first_slot _ _) as [i|]; [|by apply wp_ret]. apply wp_seq_enc. intros w1 E1. apply wp_ret. eapply holds_views; [|done].
  rewrite E1. apply config_views.
Qed.
Lemma destroy_config_holds id w : holds w -> wp (advc_vaapi_encode_destroy_config id) (fun _ w' => holds w') w.
Proof.
  intros Hw. unfold advc_vaapi_encode_destroy_config. apply wp_tables. destruct (get_config _ id) as [i|]; [|by apply wp_ret].
  destruct (existsb _ _); [by apply wp_ret|]. apply wp_seq_enc. intros w1 E1. apply wp_ret. eapply holds_views; [|done].
  rewrite E1. apply config_views.
Qed.

(** ** Contexts *)

Lemma unused_queue r Q c : queued r Q -> en_used (context_at r c) = false -> Q c = [].
Proof.
  intros H Hu. destruct (Q c) eqn:EQ; [done|]. destruct (queued_open r Q c H) as [? _]; [by rewrite EQ|congruence].
Qed.

Lemma create_context_holds config_id width height targets n w : holds w ->
  wp (advc_vaapi_encode_create_context config_id width height targets n) (fun _ w' => holds w') w.
Proof.
  intros Hw. unfold advc_vaapi_encode_create_context. destruct (_ || _); [by apply wp_ret|]. apply wp_tables.
  destruct (get_config _ _) as [i|]; [|by apply wp_ret]. cbn zeta.
  destruct (_ || _); [by apply wp_ret|]. destruct (existsb _ _); [by apply wp_ret|].
  destruct (first_slot _ _) as [c|] eqn:Ec; [|by apply wp_ret].
  assert (en_used (context_at (tables w) c) = false) as Hu.
  { apply first_slot_Some in Ec as (x & Hx & Hf). unfold context_at. rewrite Hx. cbn. by apply negb_true_iff. }
  pose proof Hw as [[Q H] He]. pose proof (unused_queue _ Q c H Hu) as Hq.
  assert (forall x w1, tables w1 = on_context c (fun _ => x) (tables w) -> en_pending_count x = 0 -> en_frame_index x = 0 ->
    en_eos x = fresh_state -> holds w1) as Hnew.
  { intros x w1 E1 N1 N2 N3. split.
    - exists Q. rewrite E1. apply queued_context; [done|]. split; [by auto|by rewrite N1, Hq|rewrite N2; by intros _; split; vm_compute|by left|].
      intros s _ _ _. rewrite Hq. apply not_elem_of_nil.
    - intros c'. rewrite E1. destruct (on_context_at (fun _ => x) (tables w) c c') as [->|(_ & _ & ->)]; [apply He|done]. }
  destruct (_ =? _); apply wp_seq_enc; intros w1 E1; apply wp_ret; by eapply Hnew.
Qed.

(** ** Buffers *)

Lemma same_views_plain f r k : buffer_view (buffer_at r k) = None -> buffer_view (f (buffer_at r k)) = None ->
  same_views r (on_buffer k f r).
Proof. intros H1 H2. apply same_views_buffer. by rewrite H1. Qed.
Lemma plain_not_waiting u : bu_pending_surface u = VA_INVALID_SURFACE -> buffer_view u = None.
Proof. intros H. unfold buffer_view. rewrite H. by rewrite andb_false_r. Qed.
Lemma plain_unused u : bu_used u = false -> buffer_view u = None.
Proof. intros H. unfold buffer_view. by rewrite H. Qed.

Lemma create_buffer_holds context_id type size n data w : holds w ->
  wp (advc_vaapi_encode_create_buffer context_id type size n data) (fun _ w' => holds w') w.
Proof.
  intros Hw. unfold advc_vaapi_encode_create_buffer. destruct (checked_allocation_size _ _) as [total|]; [|by apply wp_ret].
  destruct (negb _); [by apply wp_ret|]. apply wp_tables. destruct (get_context _ _); [|by apply wp_ret].
  destruct (first_slot _ _) as [k|] eqn:Ek; [|by apply wp_ret]. cbn zeta.
  assert (buffer_view (buffer_at (tables w) k) = None) as Hk.
  { apply first_slot_Some in Ek as (x & Hx & Hf). apply plain_unused. unfold buffer_at. rewrite Hx. cbn. by apply negb_true_iff. }
  destruct (buffer_type_is _ _).
  - apply wp_seq_enc. intros w1 E1. apply wp_ret. eapply holds_views; [|done]. rewrite E1. by apply same_views_plain.
  - apply wp_seq_keeps; [eauto with keeps|]. intros a w1 E1.
    destruct a; cbn [negb]; apply wp_seq_enc; intros w2 E2; apply wp_ret; (eapply holds_views; [|done]); rewrite E2, E1; by apply same_views_plain.
Qed.
Lemma set_num_elements_holds id n w : holds w -> wp (advc_vaapi_encode_buffer_set_num_elements id n) (fun _ w' => holds w') w.
Proof.
  intros Hw. unfold advc_vaapi_encode_buffer_set_num_elements. destruct (n =? 0); [by apply wp_ret|]. apply wp_tables.
  destruct (get_buffer _ _) as [k|]; [|by apply wp_ret]. cbn zeta. destruct (_ || _); [by apply wp_ret|].
  apply wp_seq_enc. intros w1 E1. apply wp_ret. eapply holds_views; [|done]. rewrite E1. by apply same_views_buffer.
Qed.
Lemma map_buffer_holds id w : holds w -> wp (advc_vaapi_encode_map_buffer id) (fun _ w' => holds w') w.
Proof.
  intros Hw. unfold advc_vaapi_encode_map_buffer. apply wp_tables. destruct (get_buffer _ _) as [k|]; [|by apply wp_ret]. cbn zeta.
  assert (forall (p : option mapped_at) w1, holds w1 -> wp (enc_update (on_buffer k (put_mapped true)) ;; mret (VA_STATUS_SUCCESS, p)) (fun _ w' => holds w') w1) as Hmap.
  { intros p w1 H1. apply wp_seq_enc. intros w2 E2. apply wp_ret. eapply holds_views; [|done]. rewrite E2. by apply same_views_buffer. }
  destruct (bu_mapped _); [by apply wp_ret|]. destruct (buffer_type_is _ _); [|by apply Hmap].
  apply wp_bind. apply (wp_mono _ (fun _ w' => holds w')).
  { destruct (_ =? _); [by apply wp_ret|]. destruct (get_surface _ _) as [s|] eqn:Es; [|by apply wp_ret].
    apply get_surface_ix in Es as [_ Hu]. by apply sync_holds. }
  intros status w1 H1. destruct (negb _); [by apply wp_ret|]. apply wp_tables. destruct (_ =? _)%nat; [by apply wp_ret|by apply Hmap].
Qed.
Lemma unmap_buffer_holds id w : holds w -> wp (advc_vaapi_encode_unmap_buffer id) (fun _ w' => holds w') w.
Proof.
  intros Hw. unfold advc_vaapi_encode_unmap_buffer. apply wp_tables. destruct (get_buffer _ _) as [k|]; [|by apply wp_ret].
  destruct (negb _); [by apply wp_ret|]. apply wp_seq_enc. intros w1 E1. apply wp_ret. eapply holds_views; [|done].
  rewrite E1. by apply same_views_buffer.
Qed.
Lemma destroy_buffer_holds id w : holds w -> wp (advc_vaapi_encode_destroy_buffer id) (fun _ w' => holds w') w.
Proof.
  intros Hw. unfold advc_vaapi_encode_destroy_buffer. apply wp_tables. destruct (get_buffer _ _) as [k|]; [|by apply wp_ret]. cbn zeta.
  destruct (bu_mapped _ || _) eqn:E; [by apply wp_ret|]. apply orb_false_iff in E as [_ E]. apply negb_false_iff, Z.eqb_eq in E.
  apply wp_seq_keeps; [eauto with keeps|]. intros o w1 E1. apply wp_seq_enc. intros w2 E2. apply wp_ret. eapply holds_views; [|done].
  rewrite E2, E1. by apply same_views_plain; [apply plain_not_waiting|].
Qed.

(** ** Surfaces *)

(** [s] does not wait. *)
Definition idle (r : enc_runtime) (s : nat) : Prop := surface_view (surface_at r s) = None.
(** If [s] does not wait, the queues do not see the step. *)
Definition idle_step (s : nat) : relation enc_runtime := fun r r' => idle r s -> same_views r r'.

#[local] Instance idle_step_preorder s : PreOrder (idle_step s).
Proof.
  split; [by intros r H|]. intros a b c H1 H2 H. etransitivity; [by apply H1|]. apply H2. unfold idle. by rewrite (vw_surface _ _ (H1 H)).
Qed.
Lemma idle_views r r' s : same_views r r' -> idle r s -> idle r' s.
Proof. intros H. unfold idle. by rewrite (vw_surface _ _ H). Qed.

Lemma idle_step_const s x r : surface_view x = None -> idle_step s r (on_surface s (fun _ => x) r).
Proof. intros Hx H. by apply same_views_idle. Qed.

Ltac idle := moves; try by apply idle_step_const.

Lemma release_surface_idle s : moves (idle_step s) (release_surface s).
Proof. unfold release_surface, encode_tables. idle. Qed.
Lemma create_surface_idle import_prime width height attributes n m s :
  moves (idle_step s) (create_surface import_prime width height attributes n m s).
Proof. unfold create_surface, encode_tables. idle. Qed.

Lemma create_loop_spec slots import_prime width height attributes n allocated w : Forall (idle (tables w)) allocated ->
  wp (create_loop slots import_prime width height attributes n allocated) (fun x w' =>
    same_views (tables w) (tables w') /\ match x with Some (_, l) => Forall (idle (tables w')) l | None => True end) w.
Proof.
  revert allocated w. induction slots as [|s slots IH]; intros allocated w Ha; cbn [create_loop].
  { destruct (_ <=? _)%nat; by apply wp_ret. }
  destruct (_ <=? _)%nat; [by apply wp_ret|]. apply wp_tables. destruct (es_used _) eqn:Eu; [by apply IH|].
  apply wp_bind. apply (wp_moves _ _ _ _ (create_surface_idle import_prime width height attributes n (length allocated) s)).
  intros x w1 V1. assert (idle (tables w) s) as Hs by (by apply view_unused). specialize (V1 Hs).
  assert (Forall (idle (tables w1)) (allocated ++ [s])) as Ha1.
  { apply Forall_app. split; [|by apply Forall_singleton, (idle_views _ _ _ V1)]. eapply Forall_impl; [exact Ha|]. intros i. by apply idle_views. }
  destruct x as [status|]; [|by apply wp_ret]. destruct (negb _).
  - apply wp_ret. split; [done|]. by apply Forall_app in Ha1 as [? _].
  - eapply wp_mono; [by apply IH|]. intros x w2 [V2 H2]. split; [by etransitivity|done].
Qed.

Lemma release_surfaces_views l w : Forall (idle (tables w)) l -> wp (for_each l release_surface) (fun _ w' => same_views (tables w) (tables w')) w.
Proof.
  revert w. induction l as [|s l IH]; intros w Hl; [by apply wp_ret|]. apply Forall_cons in Hl as [Hs Hl]. cbn [for_each].
  apply wp_bind, (wp_moves _ _ _ _ (release_surface_idle s)). intros [] w1 V1. specialize (V1 Hs).
  eapply wp_mono; [apply IH|]. { eapply Forall_impl; [exact Hl|]. intros i. by apply idle_views. } intros [] w2 V2. by etransitivity.
Qed.

Lemma create_surfaces_holds format width height n attributes m w : holds w ->
  wp (advc_vaapi_encode_create_surfaces format width height n attributes m) (fun _ w' => holds w') w.
Proof.
  intros Hw. unfold advc_vaapi_encode_create_surfaces. cbn zeta. destruct (_ || _); [by apply wp_ret|]. destruct (negb _); [by apply wp_ret|].
  destruct (surface_attributes_refused _ _); [by apply wp_ret|]. apply wp_bind. eapply wp_mono; [apply create_loop_spec; constructor|].
  intros [[status l]|] w1 [V1 Hl]; [|apply wp_ret; by eapply holds_views]. destruct (_ =? _)%nat; [apply wp_ret; by eapply holds_views|].
  apply wp_bind. eapply wp_mono; [by apply release_surfaces_views|]. intros [] w2 V2. apply wp_ret. eapply holds_views; [|done]. by etransitivity.
Qed.

(** The surfaces that are asked for do not wait. *)
Lemma destroy_refused_idle r l : destroy_refused r l = None -> forall id s, id ∈ l -> get_surface r id = Some s -> idle r s.
Proof.
  induction l as [|id l IH]; intros H id' s Hin Hs; [by apply not_elem_of_nil in Hin|]. cbn in H.
  destruct (get_surface r id) as [s0|] eqn:E; [|done]. destruct (_ || _) eqn:Eo; [done|]. apply elem_of_cons in Hin as [->|Hin]; [|by eapply IH].
  rewrite E in Hs. injection Hs as ->. apply orb_false_iff in Eo as [Eo _]. unfold state_is in Eo. apply bool_decide_eq_false in Eo. by apply view_not_pending.
Qed.
Lemma destroy_each_views l w : (forall id s, id ∈ l -> surface_ix id = Some s -> idle (tables w) s) ->
  wp (destroy_each l) (fun _ w' => same_views (tables w) (tables w')) w.
Proof.
  revert w. induction l as [|id l IH]; intros w Hl; [by apply wp_ret|]. cbn [destroy_each]. apply wp_tables.
  destruct (get_surface _ id) as [s|] eqn:Es; [|by apply wp_ret]. apply get_surface_ix in Es as [Es _].
  apply wp_bind, (wp_moves _ _ _ _ (release_surface_idle s)). intros [] w1 V1.
  specialize (V1 (Hl id s ltac:(by left) Es)). eapply wp_mono; [apply IH|].
  - intros id' s' Hi Hs. apply (idle_views _ _ _ V1). apply (Hl id'); [by right|done].
  - intros x w2 V2. cbn beta in V2. by etransitivity.
Qed.
Lemma destroy_surfaces_holds surfaces n w : holds w -> wp (advc_vaapi_encode_destroy_surfaces surfaces n) (fun _ w' => holds w') w.
Proof.
  intros Hw. unfold advc_vaapi_encode_destroy_surfaces. cbn zeta. destruct (_ || _); [by apply wp_ret|]. destruct (negb _); [by apply wp_ret|].
  apply wp_tables. destruct (destroy_refused _ _) eqn:E; [by apply wp_ret|]. eapply wp_mono; [apply destroy_each_views|].
  - intros id s Hi Hs. destruct (es_used (surface_at (tables w) s)) eqn:Eu; [|by apply view_unused].
    eapply destroy_refused_idle; [done|done|]. by apply get_surface_ix.
  - intros x w1 V1. cbn beta in V1. by eapply holds_views.
Qed.

End Calls.
