(* ===== verification/EncodeSubmit.v ===== *)
(** * Pictures and submissions (src/src/vaapi_advc/advc_vaapi_encode_runtime.c)

    Up to the submission [EndPicture] changes nothing the queues depend on; a
    submission appends the picture's surface and coded buffer to the context's queue. *)

From stdpp Require Import base list gmap sorting.
From Stdlib Require Import ZArith Lia Bool String Sorted.
#[local] Notation length := List.length.
From S2P Require Import Prelude Kernel Protocol Dmabuf Engine Broker Client ClientConnect World EncodeEos VaapiRoutes VaapiPolicy Va EncodeParams EncodeState EncodeWorld EncodeBroker EncodeLink EncodeSync EncodeRuntime Image EncodeKeeps EncodeQueue EncodeFifo EncodeInv EncodeCalls.
Notation world := (world_of driver_state).

Section Submit.
Context {nr : encoder}.

(** ** The start of a picture *)

Lemma begin_picture_holds context_id target w : holds w -> wp (advc_vaapi_encode_begin_picture context_id target) (fun _ w' => holds w') w.
Proof.
  intros Hw. unfold advc_vaapi_encode_begin_picture. apply wp_tables. destruct (get_context _ _) as [c|] eqn:Ec; [|by apply wp_ret].
  cbn zeta. destruct (get_surface _ _) as [s|] eqn:Es; [|by apply wp_ret]. destruct (_ || _); [by apply wp_ret|].
  destruct (state_is _ _); [by apply wp_ret|]. destruct (begin_refused _ _ _) eqn:Eb; [by apply wp_ret|].
  apply get_context_ix in Ec as [_ Hu]. apply get_surface_ix in Es as [Eix Hs].
  assert (idle (tables w) s) as Hi.
  { unfold begin_refused in Eb. apply orb_false_iff in Eb as [Eb _]. apply orb_false_iff in Eb as [_ Eb].
    unfold state_is in Eb. apply bool_decide_eq_false in Eb. by apply view_not_pending. }
  destruct Hw as [[Q H] He]. apply wp_seq_enc. intros w1 E1. apply wp_seq_enc. intros w2 E2. apply wp_ret.
  assert (queued (tables w1) Q) as H1.
  { rewrite E1. apply queued_context; [done|]. split; cbn.
    - intros [?|Ho]; [congruence|]. destruct (Q c) eqn:EQ; [done|]. destruct (queued_open _ Q c H) as [_ ?]; [by rewrite EQ|congruence].
    - apply (q_count _ _ H).
    - apply (q_frames _ _ H).
    - right. lia.
    - intros s' _ _ Ht. rewrite Eix in Ht. injection Ht as <-. intros ([s' k] & -> & Hin)%list_elem_of_fmap.
      pose proof (q_waiting _ _ H _ _ _ Hin) as [_ _ W3 W4 _ _ _ _ _ _]. by apply (view_none_not_pending _ Hi). }
  apply (holds_views w1); [|split; [by exists Q|]].
  - rewrite E2. apply same_views_idle; [|by apply view_not_pending]. rewrite E1. exact Hi.
  - intros c'. rewrite E1. match goal with |- context [on_context c ?f _] => destruct (on_context_at f (tables w) c c') as [->|(_ & _ & ->)]; apply He end.
Qed.

(** A change of a context that the queues do not depend on. *)
Lemma wp_same_context {B} f c (k : unit -> St world B) w P :
  (forall x, en_used (f x) = en_used x /\ en_broker_open (f x) = en_broker_open x /\
     en_pending_count (f x) = en_pending_count x /\ en_frame_index (f x) = en_frame_index x /\ en_eos (f x) = en_eos x /\
     (en_picture_active (f x) = true -> en_picture_active x = true /\ en_target (f x) = en_target x)) ->
  holds w -> (forall w', holds w' -> wp (k tt) P w') -> wp (enc_update (on_context c f) ≫= k) P w.
Proof.
  intros Hf [[Q H] He] HP. apply wp_seq_enc. intros w1 E1. apply HP. split.
  - exists Q. rewrite E1. apply queued_context_same; [done|]. destruct (Hf (context_at (tables w) c)) as (? & ? & ? & ? & _ & ?). done.
  - intros c'. rewrite E1. destruct (on_context_at f (tables w) c c') as [->|(_ & _ & ->)]; [apply He|]. destruct (Hf (context_at (tables w) c')) as (_ & _ & _ & _ & -> & _). apply He.
Qed.

Lemma render_buffers_holds context_id c l w : holds w -> wp (render_buffers context_id c l) (fun _ w' => holds w') w.
Proof.
  revert w. induction l as [|id l IH]; intros w Hw; [by apply wp_ret|]. cbn [render_buffers]. apply wp_tables.
  destruct (get_buffer _ _) as [k|]; [|by apply wp_ret]. cbn zeta. destruct (_ || _); [by apply wp_ret|].
  destruct (advc_vaapi_encode_frame_consume _ _ _ _ _ _) as [f| |]; [|by apply wp_ret..]. apply wp_same_context; [intros ?; by split_and!|done|intros; by apply IH].
Qed.
Lemma render_picture_holds context_id buffers n w : holds w ->
  wp (advc_vaapi_encode_render_picture context_id buffers n) (fun _ w' => holds w') w.
Proof.
  intros Hw. unfold advc_vaapi_encode_render_picture. cbn zeta. destruct (_ || _); [by apply wp_ret|]. destruct (negb _); [by apply wp_ret|].
  apply wp_tables. destruct (get_context _ _); [|by apply wp_ret]. destruct (negb _); [by apply wp_ret|by apply render_buffers_holds].
Qed.

(** ** Up to the submission *)

(** Only surface [s] changes, and it does not begin to wait. *)
Record quiet (s : nat) (r r' : enc_runtime) : Prop := {
  qt_contexts : er_contexts r' = er_contexts r;
  qt_buffers : er_buffers r' = er_buffers r;
  qt_length : length (er_surfaces r') = length (er_surfaces r);
  qt_other : forall s', s' <> s -> surface_at r' s' = surface_at r s';
  qt_used : es_used (surface_at r' s) = es_used (surface_at r s);
  qt_owner : es_owner_context (surface_at r' s) = es_owner_context (surface_at r s);
  qt_state : es_state (surface_at r' s) = ENCODE_SURFACE_PENDING -> es_state (surface_at r s) = ENCODE_SURFACE_PENDING }.
#[local] Instance quiet_preorder s : PreOrder (quiet s).
Proof.
  split; [by intros r; split|]. intros a b c [A1 A2 A3 A4 A5 A6 A7] [B1 B2 B3 B4 B5 B6 B7].
  split; [congruence..| |congruence|congruence|auto]. intros s' Hs. by rewrite B4, A4.
Qed.
Lemma quiet_on f s r : (forall x, es_used (f x) = es_used x /\ es_owner_context (f x) = es_owner_context x /\
    (es_state (f x) = ENCODE_SURFACE_PENDING -> es_state x = ENCODE_SURFACE_PENDING)) -> quiet s r (on_surface s f r).
Proof.
  intros Hf. split; [done|done|cbn; by rewrite length_alter| |..].
  - intros s' Hs. destruct (on_surface_at f r s s') as [->|(? & _)]; congruence.
  - destruct (on_surface_at f r s s) as [->|(_ & _ & ->)]; [done|apply Hf].
  - destruct (on_surface_at f r s s) as [->|(_ & _ & ->)]; [done|apply Hf].
  - destruct (on_surface_at f r s s) as [->|(_ & _ & ->)]; [done|apply Hf].
Qed.
Ltac quiet := moves; try by apply quiet_on; intros ?; split_and!.

Lemma set_link_fence_quiet s fence : moves (quiet s) (set_link_fence s fence).
Proof. unfold set_link_fence, encode_tables. quiet. Qed.
Hint Resolve set_link_fence_quiet : moves.
Lemma keeps_prepare_failed a b c d : keeps (prepare_failed a b c d).
Proof. unfold prepare_failed. keeps. Qed.
Hint Resolve keeps_prepare_failed : keeps.
Lemma replace_broker_prime_quiet c s d : moves (quiet s) (replace_broker_prime c s d).
Proof. unfold replace_broker_prime, encode_tables. quiet. Qed.
Hint Resolve replace_broker_prime_quiet : moves.
Lemma adopt_converted_quiet c s d a f : moves (quiet s) (adopt_converted c s d a f).
Proof. unfold adopt_converted, encode_tables. quiet. Qed.
Hint Resolve adopt_converted_quiet : moves.
Lemma prepare_quiet c s : moves (quiet s) (prepare_encode_input c s).
Proof. unfold prepare_encode_input, encode_tables. quiet. Qed.
Lemma take_write_fence_quiet s : moves (quiet s) (take_write_fence s).
Proof. unfold take_write_fence, encode_tables. quiet. Qed.
Lemma register_surface_quiet c s : moves (quiet s) (register_surface c s).
Proof. unfold register_surface, encode_tables. quiet. Qed.
Lemma submit_surface_quiet c s pts : moves (quiet s) (submit_surface c s pts).
Proof. unfold submit_surface, encode_tables. quiet. Qed.

(** ** The end of a picture *)

(** The tables hold the queues [Q]. *)
Definition held (Q : queues) (w : world) : Prop := queued (tables w) Q /\ forall c, en_eos (context_at (tables w) c) = fresh_state.

Lemma held_views Q w w' : same_views (tables w) (tables w') -> held Q w -> held Q w'.
Proof.
  intros V [H He]. split; [by eapply queued_views|]. intros c. by rewrite (vw_context _ _ V).
Qed.

(** The picture is dropped, or submitted from surface [s] into buffer [k]. *)
Definition ended_picture (Q : queues) (c s k : nat) (status : va_status) (w' : world) : Prop :=
  held (if decide (status = VA_STATUS_SUCCESS) then set_queue c (Q c ++ [(s, k)]) Q else Q) w' /\
  en_picture_active (context_at (tables w') c) = false.

Lemma drop_picture_ended Q c s k status w : held Q w -> (c < 4)%nat -> status <> VA_STATUS_SUCCESS ->
  wp (drop_picture c status) (ended_picture Q c s k) w.
Proof.
  intros [H He] Hc Hst. unfold drop_picture. apply wp_seq_enc. intros w1 E1. apply wp_ret. unfold ended_picture. rewrite decide_False by done.
  destruct (q_sizes _ _ H) as (L & _). split; cycle 1.
  { rewrite E1. match goal with |- context [on_context c ?f _] => change (en_picture_active (slot_at zero_context (alter f c (er_contexts (tables w))) c) = false) end.
    rewrite slot_same by lia. done. }
  split; [rewrite E1; by apply queued_context_same|]. intros c'. rewrite E1.
  match goal with |- context [on_context c ?f _] => destruct (on_context_at f (tables w) c c') as [->|(_ & _ & ->)]; apply He end.
Qed.
Lemma status_from_errno_fails e : status_from_errno e <> VA_STATUS_SUCCESS.
Proof. unfold status_from_errno. by repeat case_match. Qed.
Lemma drop_with_errno_ended Q c s k w : held Q w -> (c < 4)%nat -> wp (drop_with_errno c) (ended_picture Q c s k) w.
Proof.
  intros Hw Hc. unfold drop_with_errno. apply wp_seq_keeps; [eauto with keeps|]. intros e w1 E1.
  apply drop_picture_ended; [|done|apply status_from_errno_fails]. apply (held_views Q w); [by rewrite E1|done].
Qed.

Lemma ensure_session_spec Q c w : held Q w -> en_used (context_at (tables w) c) = true ->
  wp (ensure_session c) (fun x w' => held Q w' /\ er_buffers (tables w') = er_buffers (tables w) /\
    er_surfaces (tables w') = er_surfaces (tables w) /\
    (let k := context_at (tables w) c in let k' := context_at (tables w') c in
     en_used k' = true /\ en_frame k' = en_frame k /\ en_target k' = en_target k /\ en_picture_active k' = en_picture_active k /\
     match x with None => en_broker_open k' = true | Some status => status <> VA_STATUS_SUCCESS end)) w.
Proof.
  intros [H He] Hu. pose proof (queue_context _ Q c H Hu) as Hlt. destruct (q_sizes _ _ H) as (L & _).
  unfold ensure_session. apply wp_tables. cbn zeta. destruct (en_broker_open (context_at (tables w) c)) eqn:Eo; cbn [negb].
  { apply wp_ret. split_and!; try done. by destruct (_ || _). }
  assert (Q c = []) as Hq.
  { destruct (Q c) eqn:EQ; [done|]. destruct (queued_open _ Q c H) as [_ ?]; [by rewrite EQ|congruence]. }
  apply wp_seq_keeps; [eauto with keeps|]. intros [opened b] w1 E1.
  assert (forall f (w2 w3 : world), tables w2 = tables w -> tables w3 = on_context c f (tables w2) ->
    (let x := context_at (tables w) c in en_used (f x) = true /\ en_frame (f x) = en_frame x /\ en_target (f x) = en_target x /\
       en_picture_active (f x) = en_picture_active x /\ en_pending_count (f x) = en_pending_count x /\ en_frame_index (f x) = en_frame_index x /\
       en_eos (f x) = fresh_state) ->
    held Q w3 /\ er_buffers (tables w3) = er_buffers (tables w) /\ er_surfaces (tables w3) = er_surfaces (tables w) /\
    context_at (tables w3) c = f (context_at (tables w) c)) as Hset.
  { intros f w2 w3 E2 E3 (F1 & F2 & F3 & F4 & F5 & F6 & F7). rewrite E3, E2. split; [split; rewrite E3, E2|split_and!; [done|done|]].
    - apply queued_context; [done|]. split; [done|rewrite F5; intros _; by apply (q_count _ _ H)|rewrite F6; intros _; by apply (q_frames _ _ H)|by left|].
      intros s _ _ _. rewrite Hq. apply not_elem_of_nil.
    - intros c'. destruct (on_context_at f (tables w) c c') as [->|(<- & _ & ->)]; [apply He|done].
    - change (slot_at zero_context (alter f c (er_contexts (tables w))) c = f (slot_at zero_context (er_contexts (tables w)) c)). rewrite slot_same; [done|lia]. }
  destruct (opened <? 0).
  - apply wp_seq_keeps; [eauto with keeps|]. intros e w2 E2. apply wp_seq_enc. intros w3 E3. apply wp_ret.
    destruct (Hset _ w2 w3 ltac:(congruence) E3) as (H3 & B3 & S3 & C3); [cbn; by split_and!|]. rewrite C3. cbn.
    split_and!; try done. apply status_from_errno_fails.
  - apply wp_seq_enc. intros w3 E3. apply wp_ret.
    destruct (Hset _ w1 w3 E1 E3) as (H3 & B3 & S3 & C3); [cbn; by split_and!|]. rewrite C3. cbn. by split_and!.
Qed.

Lemma quiet_views s r r' : quiet s r r' -> idle r s -> same_views r r'.
Proof.
  intros [Q1 Q2 Q3 Q4 Q5 Q6 Q7] Hi. split.
  - by rewrite Q1, Q2, Q3.
  - intros s'. destruct (decide (s' = s)) as [->|Hne]; [|by rewrite Q4]. rewrite Hi.
    destruct (es_used (surface_at r s)) eqn:Eu; [|by apply view_unused]. apply view_not_pending. intros Hs. by apply (view_none_not_pending _ Hi Eu), Q7.
  - intros k. unfold buffer_at. by rewrite Q2.
  - intros c. unfold context_at. by rewrite Q1.
Qed.
Lemma quiet_held s Q w w' : quiet s (tables w) (tables w') -> idle (tables w) s -> held Q w -> held Q w'.
Proof. intros Hq Hi. by apply held_views, (quiet_views s). Qed.

(** A surface that is the target of a picture of [c] and that [c] owns does not wait. *)
Lemma target_idle Q w c s : held Q w -> en_used (context_at (tables w) c) = true -> en_picture_active (context_at (tables w) c) = true ->
  surface_ix (en_target (context_at (tables w) c)) = Some s ->
  (es_owner_context (surface_at (tables w) s) = 0 \/ context_ix (es_owner_context (surface_at (tables w) s)) = Some c) -> idle (tables w) s.
Proof.
  intros [H _] Hu Ha Ht Ho. destruct (es_used (surface_at (tables w) s)) eqn:Eu; [|by apply view_unused].
  destruct (es_state (surface_at (tables w) s)) eqn:Es; try (apply view_not_pending; congruence). exfalso.
  destruct (q_surface _ _ H s Eu Es) as (c' & k & Hin). pose proof (q_waiting _ _ H _ _ _ Hin) as [_ _ _ _ W5 _ _ _ _ _].
  destruct Ho as [Ho|Ho]; [by rewrite Ho in W5|]. rewrite Ho in W5. injection W5 as <-.
  apply (q_target _ _ H c s Hu Ha Ht). apply list_elem_of_fmap. by exists (s, k).
Qed.

Lemma submission_failed_ended Q c s k w w' : held Q w -> (c < 4)%nat -> idle (tables w) s -> quiet s (tables w) (tables w') ->
  wp (submission_failed c s) (ended_picture Q c s k) w'.
Proof.
  intros Hw Hc Hi Hq. unfold submission_failed. apply wp_seq_keeps; [eauto with keeps|]. intros e w1 E1. apply wp_seq_enc. intros w2 E2.
  apply drop_picture_ended; [|done|apply status_from_errno_fails]. apply (quiet_held s Q w); [|done|done]. etransitivity; [exact Hq|].
  rewrite E2, E1. by apply quiet_on.
Qed.

(** The submission is recorded: [w0] is where the surface was last looked at. *)
Lemma record_submission_spec Q context_id c s k pts w0 w : held Q w0 -> idle (tables w0) s -> quiet s (tables w0) (tables w) ->
  (let r := tables w0 in let x := context_at r c in
     en_used x = true /\ en_broker_open x = true /\ en_frame_index x <= MAX_FRAME_INDEX /\ surface_ix (en_target x) = Some s /\
     es_used (surface_at r s) = true /\ es_owner_context (surface_at r s) = context_id /\ context_ix context_id = Some c /\
     buffer_ix (fp_coded_buffer (en_frame x)) = Some k /\ bu_used (buffer_at r k) = true /\
     bu_type (buffer_at r k) = VAEncCodedBufferType /\ bu_pending_surface (buffer_at r k) = VA_INVALID_SURFACE) ->
  wp (record_submission c s k pts) (fun _ w' => held (set_queue c (Q c ++ [(s, k)]) Q) w' /\ en_picture_active (context_at (tables w') c) = false) w.
Proof.
  intros Hw Hi Hq (C1 & C2 & C3 & C4 & S1 & S2 & C5 & C6 & B1 & B2 & B3). pose proof (quiet_held s Q w0 w Hq Hi Hw) as [H He].
  pose proof (idle_views _ _ _ (quiet_views _ _ _ Hq Hi) Hi) as Hi'.
  assert (forall c', context_at (tables w) c' = context_at (tables w0) c') as EC by (intros; unfold context_at; by rewrite (qt_contexts _ _ _ Hq)).
  assert (forall k', buffer_at (tables w) k' = buffer_at (tables w0) k') as EB by (intros; unfold buffer_at; by rewrite (qt_buffers _ _ _ Hq)).
  rewrite <- (EC c) in *. rewrite <- (EB k) in *. rewrite <- (qt_used _ _ _ Hq) in S1. rewrite <- (qt_owner _ _ _ Hq) in S2.
  set (r := tables w) in *. destruct (q_sizes _ _ H) as (L1 & L2 & L3). pose proof (queue_context _ Q c H C1) as Hc.
  assert (s < 64)%nat as Hs.
  { destruct (decide (s < 64)%nat); [done|]. unfold surface_at in S1. rewrite lookup_ge_None_2 in S1 by lia. done. }
  assert (k < 256)%nat as Hk.
  { destruct (decide (k < 256)%nat); [done|]. unfold buffer_at in B1. rewrite lookup_ge_None_2 in B1 by lia. done. }
  unfold record_submission. apply wp_tables. fold r. apply wp_seq_keeps; [eauto with keeps|]. intros o w1 E1. fold r in E1.
  apply wp_seq_enc. intros w2 E2. apply wp_seq_enc. intros w3 E3. apply wp_enc. intros w4 E4.
  set (f1 := fun u => put_pending (en_target (context_at r c)) _) in E2.
  set (f2 := fun x => put_progress _ x) in E3. set (f3 := fun x => put_picture false _ _ _) in E4.
  rewrite E1 in E2. rewrite E2 in E3. rewrite E3 in E4.
  assert (forall c', context_at (tables w4) c' = if decide (c' = c) then f3 (context_at r c) else context_at r c') as HC.
  { intros c'. rewrite E4. change (context_at (on_context c f3 ?x) c') with (slot_at zero_context (alter f3 c (er_contexts x)) c').
    case_decide as Hd; [subst c'; rewrite slot_same; [done|cbn; lia]|by rewrite slot_other]. }
  assert (en_pending_count (context_at r c) = zlen (Q c)) as Hn by (by apply (q_count _ _ H)).
  pose proof (queue_short _ _ c H) as Hshort. pose proof (q_frames _ _ H c C1) as Hframe.
  assert (en_frame_index (context_at r c) + 1 < 2 ^ 64) as Hmax by (unfold MAX_FRAME_INDEX in C3; change (UINT64_MAX / 1000000000000) with 18446744 in C3; lia).
  split; [split|by rewrite HC, decide_True].
  - apply (queued_push r (tables w4) Q c s k context_id (fp_coded_buffer (en_frame (context_at r c))) (en_target (context_at r c))); try done.
    + by apply plain_not_waiting.
    + rewrite E4. cbn. by rewrite length_alter.
    + rewrite E4. cbn. by rewrite length_alter.
    + rewrite E4. cbn. by rewrite length_alter.
    + intros s'. rewrite E4. change (surface_at (on_context c f3 ?x) s') with (surface_at x s').
      change (surface_at (on_surface s f2 ?x) s') with (slot_at zero_surface (alter f2 s (er_surfaces x)) s').
      case_decide as Hd; [subst s'; rewrite slot_same by (cbn; lia)|by rewrite slot_other].
      change (surface_view (f2 (surface_at r s)) = Some (context_id, fp_coded_buffer (en_frame (context_at r c)), en_frame_index (context_at r c))).
      apply surface_view_some. unfold f2. cbn. by rewrite S2.
    + intros k'. rewrite E4. change (buffer_at (on_context c f3 ?x) k') with (buffer_at x k').
      change (buffer_at (on_surface s f2 (on_buffer k f1 r)) k') with (slot_at zero_buffer (alter f1 k (er_buffers r)) k').
      case_decide as Hd; [subst k'; rewrite slot_same by (cbn; lia)|by rewrite slot_other].
      change (slot_at zero_buffer (er_buffers r) k) with (buffer_at r k). apply buffer_view_some. unfold f1. cbn. split_and!; [done| |by rewrite B2].
      intros Ht. rewrite Ht in C4. done.
    + intros c' Hne. by rewrite HC, decide_False.
    + cbn zeta. rewrite HC, decide_True by done. unfold f3. cbn. split_and!; try done.
      * unfold u64. rewrite Z.mod_small; lia.
      * unfold u32. rewrite Hn, Z.mod_small; [done|unfold zlen; lia].
  - intros c'. rewrite HC. case_decide as Hd; [subst c'; apply (He c)|apply He].
Qed.

Lemma submit_surface_pts c s pts w : wp (submit_surface c s pts) (fun x w' => quiet s (tables w) (tables w') /\ (pts = UINT64_MAX -> x < 0)) w.
Proof.
  split; [apply submit_surface_quiet|]. intros ->. unfold submit_surface, encode_tables. done.
Qed.
Lemma wp_any {A} (m : St world A) (P : A -> world -> Prop) w : (forall a w', P a w') -> wp m P w.
Proof. intros H. apply H. Qed.
Lemma take_write_fence_spec s w : wp (take_write_fence s) (fun x w' => quiet s (tables w) (tables w') /\
  match x with Some status => status <> VA_STATUS_SUCCESS | None => True end) w.
Proof.
  split; [apply take_write_fence_quiet|]. change (wp (take_write_fence s) (fun x _ => match x with Some status => status <> VA_STATUS_SUCCESS | None => True end) w).
  unfold take_write_fence. apply wp_tables. cbn zeta. destruct (negb _); [by apply wp_ret|].
  apply wp_bind, wp_any. intros fence w1. apply wp_bind, wp_any. intros done w2. destruct (done <? 0).
  - apply wp_bind, wp_any. intros e w3. do 2 (apply wp_bind, wp_any; intros ? ?). apply wp_ret, status_from_errno_fails.
  - apply wp_bind, wp_any. intros ? ?. by apply wp_ret.
Qed.
Lemma frame_pts_max index fps : MAX_FRAME_INDEX < index -> frame_pts_ns index fps = UINT64_MAX.
Proof.
  intros H. unfold frame_pts_ns. fold MAX_FRAME_INDEX. rewrite (proj2 (Z.ltb_lt _ _) H). by rewrite orb_true_r.
Qed.


Lemma submit_picture_spec Q context_id c s k w : held Q w -> context_ix context_id = Some c ->
  (let r := tables w in let x := context_at r c in
     en_used x = true /\ en_broker_open x = true /\ en_picture_active x = true /\ surface_ix (en_target x) = Some s /\
     es_used (surface_at r s) = true /\ buffer_ix (fp_coded_buffer (en_frame x)) = Some k /\ bu_used (buffer_at r k) = true /\
     bu_type (buffer_at r k) = VAEncCodedBufferType /\ bu_pending_surface (buffer_at r k) = VA_INVALID_SURFACE) ->
  wp (submit_picture context_id c s k) (ended_picture Q c s k) w.
Proof.
  intros Hw Hix (C1 & C2 & C3 & C4 & S1 & C5 & B1 & B2 & B3). assert (c < 4)%nat as Hc by (destruct Hw; by eapply queue_context). unfold submit_picture. apply wp_tables, wp_bind.
  (* the surface gets its owner *)
  apply (wp_mono _ (fun _ w1 => held Q w1 /\ er_contexts (tables w1) = er_contexts (tables w) /\ er_buffers (tables w1) = er_buffers (tables w) /\
    es_used (surface_at (tables w1) s) = true)).
  { destruct (Z.eqb_spec (es_owner_context (surface_at (tables w) s)) 0) as [E|_]; [|by apply wp_ret].
    assert (idle (tables w) s) as Hi by (apply (target_idle Q w c s); auto).
    apply wp_enc. intros w1 E1. split; [|rewrite E1; split_and!; [done|done|]].
    - apply (held_views Q w); [|done]. rewrite E1. apply same_views_idle; [done|]. unfold surface_view in *. cbn. unfold idle, surface_view, es_state in Hi.
      by destruct (es_used _ && _).
    - match goal with |- context [on_surface s ?f _] => destruct (on_surface_at f (tables w) s s) as [->|(_ & _ & ->)]; done end. }
  intros [] w1 (H1 & EC1 & EB1 & U1). apply wp_tables.
  assert (forall c', context_at (tables w1) c' = context_at (tables w) c') as EC by (intros; unfold context_at; by rewrite EC1).
  assert (forall k', buffer_at (tables w1) k' = buffer_at (tables w) k') as EB by (intros; unfold buffer_at; by rewrite EB1).
  rewrite <- (EC c) in C1, C2, C3, C4, C5. rewrite <- (EB k) in B1, B2, B3. clear EC EB EC1 EB1 S1 Hw.
  destruct (Z.eqb_spec (es_owner_context (surface_at (tables w1) s)) context_id) as [Eo|_]; cbn [negb]; [|by apply drop_picture_ended].
  assert (idle (tables w1) s) as Hi by (apply (target_idle Q w1 c s); try done; right; by rewrite Eo).
  apply wp_bind, (wp_moves _ _ _ _ (prepare_quiet c s)). intros prepared w2 Q2.
  destruct (prepared <? 0); [apply drop_with_errno_ended; [by eapply quiet_held|done]|].
  apply wp_bind. pose proof (take_write_fence_spec s w2) as Hf. eapply wp_mono; [exact Hf|]. clear Hf. intros fenced w3 [Q3 Hst].
  assert (quiet s (tables w1) (tables w3)) as Q3' by (by etransitivity). clear Q2 Q3.
  destruct fenced as [status|]; [apply drop_picture_ended; [by eapply quiet_held|done|done]|].
  apply wp_bind, (wp_moves _ _ _ _ (register_surface_quiet c s)). intros registered w4 Q4.
  assert (quiet s (tables w1) (tables w4)) as Q4' by (by etransitivity). clear Q3' Q4.
  destruct (registered <? 0); [apply drop_with_errno_ended; [by eapply quiet_held|done]|]. apply wp_tables. cbn zeta.
  set (pts := frame_pts_ns _ _). apply wp_bind. eapply wp_mono; [apply submit_surface_pts|]. intros submitted w5 [Q5 Hpts].
  assert (quiet s (tables w1) (tables w5)) as Q5' by (by etransitivity).
  destruct (Z.ltb_spec submitted 0) as [|Hok]; [by apply (submission_failed_ended Q c s k w1)|].
  apply wp_seq_enc. intros w6 E6. apply wp_tables. apply wp_seq_keeps; [destruct frame_session_mode; eauto with keeps|]. intros signalled w7 E7.
  assert (quiet s (tables w1) (tables w7)) as Q7 by (etransitivity; [exact Q5'|]; rewrite E7, E6; by apply quiet_on).
  destruct (signalled <? 0); [by apply (submission_failed_ended Q c s k w1)|].
  apply wp_bind. eapply wp_mono; [apply (record_submission_spec Q context_id c s k pts w1 w7 H1 Hi Q7)|].
  - split_and!; try done. destruct (Z.le_gt_cases (en_frame_index (context_at (tables w1) c)) MAX_FRAME_INDEX) as [|Hgt]; [done|].
    exfalso. assert (pts = UINT64_MAX) as E; [|specialize (Hpts E); lia]. apply frame_pts_max.
    unfold context_at in Hgt |- *. rewrite (qt_contexts _ _ _ Q4'). lia.
  - intros [] w8 H8. apply wp_ret. unfold ended_picture. by rewrite decide_True.
Qed.

(** A picture that has a target and a coded buffer is submitted or dropped. *)
Lemma end_picture_at_spec Q context_id c s k w : held Q w -> get_context (tables w) context_id = Some c ->
  en_picture_active (context_at (tables w) c) = true ->
  get_surface (tables w) (en_target (context_at (tables w) c)) = Some s ->
  get_buffer (tables w) (fp_coded_buffer (en_frame (context_at (tables w) c))) = Some k ->
  wp (advc_vaapi_encode_end_picture context_id) (ended_picture Q c s k) w.
Proof.
  intros Hw Ec Ha Es Ek. assert (c < 4)%nat as Hc by (apply get_context_ix in Ec as [_ Hu]; destruct Hw; by eapply queue_context). unfold advc_vaapi_encode_end_picture. apply wp_tables. rewrite Ec. cbn zeta. rewrite Ha, Es. cbn [negb].
  destruct (negb _); [by apply drop_picture_ended|]. rewrite Ek. destruct (coded_refused _ _) eqn:Er; [by apply drop_picture_ended|].
  apply get_context_ix in Ec as [Ec Hu]. apply get_surface_ix in Es as [Es Us]. apply get_buffer_ix in Ek as [Ek Uk].
  apply wp_bind. eapply wp_mono; [by apply (ensure_session_spec Q c)|]. cbn zeta. intros [status|] w1 (H1 & B1 & S1 & U1 & F1 & T1 & A1 & O1).
  - by apply drop_picture_ended.
  - unfold coded_refused in Er. rewrite !orb_false_iff, !negb_false_iff in Er. destruct Er as [[[_ Et] _] Ep].
    unfold buffer_type_is in Et. apply bool_decide_eq_true in Et. apply Z.eqb_eq in Ep.
    apply submit_picture_spec; [done|done|]. cbn zeta. unfold surface_at, buffer_at in *. rewrite F1, T1, A1, B1, S1. by split_and!.
Qed.

(** What the end of a picture of context [c] answers and does. *)
Definition picture_outcome (Q : queues) (c : nat) (w : world) (status : va_status) (w' : world) : Prop :=
  en_picture_active (context_at (tables w') c) = false /\
  if decide (status = VA_STATUS_SUCCESS) then
    exists s k, get_surface (tables w) (en_target (context_at (tables w) c)) = Some s /\
      get_buffer (tables w) (fp_coded_buffer (en_frame (context_at (tables w) c))) = Some k /\
      held (set_queue c (Q c ++ [(s, k)]) Q) w'
  else held Q w'.

Lemma end_picture_outcome Q id c w : held Q w -> get_context (tables w) id = Some c ->
  wp (advc_vaapi_encode_end_picture id) (picture_outcome Q c w) w.
Proof.
  intros Hw Ec. assert (c < 4)%nat as Hc by (apply get_context_ix in Ec as [_ Hu]; destruct Hw; by eapply queue_context).
  assert (forall status, status <> VA_STATUS_SUCCESS -> wp (drop_picture c status) (picture_outcome Q c w) w) as Hdrop.
  { intros status Hst. pose proof (drop_picture_ended Q c 0 0 status w Hw Hc Hst) as Hd. unfold wp, ended_picture in Hd.
    change (fst (drop_picture c status w)) with status in Hd. rewrite decide_False in Hd by done.
    unfold wp, picture_outcome. change (fst (drop_picture c status w)) with status. rewrite decide_False by done. by destruct Hd. }
  destruct (en_picture_active (context_at (tables w) c)) eqn:Ea;
    [|unfold advc_vaapi_encode_end_picture; apply wp_tables; rewrite Ec; cbn zeta; rewrite Ea; by apply wp_ret].
  destruct (get_surface (tables w) (en_target (context_at (tables w) c))) as [s|] eqn:Es;
    [|unfold advc_vaapi_encode_end_picture; apply wp_tables; rewrite Ec; cbn zeta; rewrite Ea, Es; by apply Hdrop].
  destruct (get_buffer (tables w) (fp_coded_buffer (en_frame (context_at (tables w) c)))) as [k|] eqn:Ek.
  - eapply wp_mono; [by apply (end_picture_at_spec Q id c s k)|]. intros st w' [Hx Hp]. split; [done|].
    case_decide; [by exists s, k|done].
  - unfold advc_vaapi_encode_end_picture; apply wp_tables; rewrite Ec; cbn zeta; rewrite Ea, Es, Ek. cbn [negb]. destruct (negb _); by apply Hdrop.
Qed.

Lemma end_picture_holds id w : holds w -> wp (advc_vaapi_encode_end_picture id) (fun _ w' => holds w') w.
Proof.
  intros [[Q H] He]. assert (held Q w) as Hw by done. destruct (get_context (tables w) id) as [c|] eqn:Ec.
  - eapply wp_mono; [by apply (end_picture_outcome Q id c)|]. intros st w' [_ Hx]. case_decide; [destruct Hx as (s & k & _ & _ & Hx)|]; destruct Hx; split; eauto.
  - unfold advc_vaapi_encode_end_picture. apply wp_tables. rewrite Ec. apply wp_ret. split; [by exists Q|done].
Qed.

End Submit.
