(* ===== verification/EncodeServe.v ===== *)
(** * The encode runtime serves calls (src/src/vaapi_advc/advc_vaapi_encode_runtime.c)

    Whatever sequence of calls the driver makes of the encode runtime and of its
    images, the tables hold queues. *)

From stdpp Require Import base list gmap sorting.
From Stdlib Require Import ZArith Lia Bool String Sorted.
#[local] Notation length := List.length.
From S2P Require Import Prelude Kernel Protocol Dmabuf Engine Broker Client ClientConnect World EncodeEos VaapiRoutes VaapiPolicy Va EncodeParams EncodeState EncodeWorld EncodeBroker EncodeLink EncodeSync EncodeRuntime Image EncodeKeeps EncodeQueue EncodeFifo EncodeInv EncodeCalls EncodeSubmit.
Notation world := (world_of driver_state).

Create HintDb holds discriminated.

Section Serve.
Context {nr : encoder}.

(** ** Calls *)

(** The calls, with their arguments. *)
Inductive encode_request :=
| CreateConfig (profile : va_profile) (entrypoint : va_entrypoint) (attributes : option (list (config_attrib * Z))) (n : Z)
| DestroyConfig (config : Z)
| CreateSurfaces (format width height n : Z) (attributes : option (list surface_attrib)) (m : Z)
| DestroySurfaces (surfaces : option (list Z)) (n : Z)
| CreateContext (config width height : Z) (targets : option (list Z)) (n : Z)
| DestroyContext (context : Z)
| CreateBuffer (context : Z) (type : encode_buffer_type) (size n : Z) (data : option (list Z))
| SetNumElements (buffer n : Z)
| MapBuffer (buffer : Z)
| UnmapBuffer (buffer : Z)
| DestroyBuffer (buffer : Z)
| BeginPicture (context target : Z)
| RenderPicture (context : Z) (buffers : option (list Z)) (n : Z)
| EndPicture (context : Z)
| SyncSurface (surface timeout_ns : Z)
| SyncBuffer (buffer timeout_ns : Z)
| ExportSurface (surface mem_type flags : Z) (old : prime_surface)
| CreateImage (fourcc width height : Z)
| DeriveImage (surface : Z)
| PutImage (surface image src_x src_y src_width src_height dst_x dst_y dst_width dst_height : Z)
| MapImage (buffer : Z)
| UnmapImage (buffer : Z)
| DestroyImage (image : Z).

(** The answer is not wanted; [false]: the call has undefined behaviour. *)
Definition answered {A} (c : St world A) : St world bool := c ;; mret true.
Definition defined {A} (c : St world (option A)) : St world bool := x ← c; mret (match x with Some _ => true | None => false end).

Definition serve_request (q : encode_request) : St world bool :=
  match q with
  | CreateConfig p e a n => answered (advc_vaapi_encode_create_config p e a n)
  | DestroyConfig c => answered (advc_vaapi_encode_destroy_config c)
  | CreateSurfaces f w h n a m => defined (advc_vaapi_encode_create_surfaces f w h n a m)
  | DestroySurfaces l n => defined (advc_vaapi_encode_destroy_surfaces l n)
  | CreateContext c w h l n => answered (advc_vaapi_encode_create_context c w h l n)
  | DestroyContext c => answered (advc_vaapi_encode_destroy_context c)
  | CreateBuffer c t s n d => answered (advc_vaapi_encode_create_buffer c t s n d)
  | SetNumElements b n => answered (advc_vaapi_encode_buffer_set_num_elements b n)
  | MapBuffer b => answered (advc_vaapi_encode_map_buffer b)
  | UnmapBuffer b => answered (advc_vaapi_encode_unmap_buffer b)
  | DestroyBuffer b => answered (advc_vaapi_encode_destroy_buffer b)
  | BeginPicture c t => answered (advc_vaapi_encode_begin_picture c t)
  | RenderPicture c l n => defined (advc_vaapi_encode_render_picture c l n)
  | EndPicture c => answered (advc_vaapi_encode_end_picture c)
  | SyncSurface s t => answered (advc_vaapi_encode_sync_surface s t)
  | SyncBuffer b t => answered (advc_vaapi_encode_sync_buffer b t)
  | ExportSurface s m f o => answered (advc_vaapi_encode_export_surface s m f o)
  | CreateImage f w h => answered (advc_vaapi_image_create f w h)
  | DeriveImage s => answered (advc_vaapi_image_derive encode_image_ops s)
  | PutImage s i x y w h x' y' w' h' => defined (advc_vaapi_image_put encode_image_ops s i x y w h x' y' w' h')
  | MapImage b => answered (advc_vaapi_image_map_buffer encode_image_ops b)
  | UnmapImage b => answered (advc_vaapi_image_unmap_buffer encode_image_ops b)
  | DestroyImage i => answered (advc_vaapi_image_destroy encode_image_ops i)
  end.

(** The calls one after the other, up to one with undefined behaviour. *)
Fixpoint serve (l : list encode_request) : St world bool :=
  match l with
  | [] => mret true
  | q :: l => ok ← serve_request q; if (ok : bool) then serve l else mret false
  end.

(** ** Waiting and export *)

Lemma sync_surface_holds id t w : holds w -> wp (advc_vaapi_encode_sync_surface id t) (fun _ w' => holds w') w.
Proof.
  intros Hw. unfold advc_vaapi_encode_sync_surface. apply wp_tables. destruct (get_surface _ _) as [s|] eqn:Es; [|by apply wp_ret].
  apply get_surface_ix in Es as [_ Hu]. by apply sync_holds.
Qed.
Lemma sync_buffer_holds id t w : holds w -> wp (advc_vaapi_encode_sync_buffer id t) (fun _ w' => holds w') w.
Proof.
  intros Hw. unfold advc_vaapi_encode_sync_buffer. apply wp_tables. destruct (get_buffer _ _) as [k|]; [|by apply wp_ret].
  destruct (negb _); [by apply wp_ret|]. destruct (_ =? _); [by apply wp_ret|]. destruct (get_surface _ _) as [s|] eqn:Es; [|by apply wp_ret].
  apply get_surface_ix in Es as [_ Hu]. by apply sync_holds.
Qed.

(** [if (surface->state == PENDING) status = sync_surface_locked(...)] *)
Lemma settle_holds (b : bool) s t w : holds w -> es_used (surface_at (tables w) s) = true ->
  wp (if b then sync_surface_locked s t else mret VA_STATUS_SUCCESS) (fun _ w' => holds w') w.
Proof. intros Hw Hu. destruct b; [by apply sync_holds|by apply wp_ret]. Qed.

Lemma keeps_access_refused s a : keeps (export_access_refused s a).
Proof. unfold export_access_refused, encode_tables. keeps. Qed.
Lemma export_surface_holds id m f o w : holds w -> wp (advc_vaapi_encode_export_surface id m f o) (fun _ w' => holds w') w.
Proof.
  intros Hw. unfold advc_vaapi_encode_export_surface. cbn zeta. destruct (negb _); [by apply wp_ret|]. apply wp_tables.
  destruct (get_surface _ _) as [s|] eqn:Es; [|by apply wp_ret]. apply get_surface_ix in Es as [_ Hu].
  apply wp_bind. eapply wp_mono; [by apply settle_holds|]. intros status w1 H1. destruct (negb _); [by apply wp_ret|].
  apply wp_seq_keeps; [apply keeps_access_refused|]. intros [refused|] w2 E2; [apply wp_ret; by eapply holds_keeps|].
  apply wp_tables, wp_seq_keeps; [eauto with keeps|]. intros [status' prime] w3 E3.
  assert (holds w3) as H3 by (apply (holds_keeps w1); [congruence|done]).
  destruct (_ && _); apply wp_bind; [|by apply wp_ret, wp_ret]. apply wp_enc. intros w4 E4. apply wp_ret.
  apply (holds_views w3); [|done]. rewrite E4. by apply same_views_surface.
Qed.

(** ** Images *)

Lemma acquire_holds id a w : holds w -> wp (image_acquire_surface id a) (fun _ w' => holds w') w.
Proof.
  intros Hw. unfold image_acquire_surface. apply wp_tables. destruct (get_surface _ _) as [s|] eqn:Es; [|by apply wp_ret].
  apply get_surface_ix in Es as [_ Hu]. cbn zeta. destruct (_ && _); [by apply wp_ret|].
  apply wp_bind. eapply wp_mono; [by apply settle_holds|]. intros status w1 H1. destruct (negb _); [by apply wp_ret|].
  apply wp_tables. destruct (state_is _ _); [by apply wp_ret|]. apply wp_seq_keeps; [eauto with keeps|]. intros [done d] w2 E2.
  destruct (done <? 0); [apply wp_seq_keeps; [eauto with keeps|]; intros e w3 E3|]; apply wp_ret; (eapply holds_keeps; [|exact H1]); congruence.
Qed.
Lemma release_holds id a b w : holds w -> wp (release_to_owner encode_image_ops id a b) (fun _ w' => holds w') w.
Proof.
  intros Hw. unfold release_to_owner. cbn. unfold image_release_surface. destruct (_ || _); [by apply wp_ret|]. apply wp_tables.
  destruct (get_surface _ _) as [s|]; [|by apply wp_ret]. apply wp_enc. intros w1 E1. apply (holds_views w); [|done]. rewrite E1. by apply same_views_surface.
Qed.

Lemma derive_holds id w : holds w -> wp (advc_vaapi_image_derive encode_image_ops id) (fun _ w' => holds w') w.
Proof.
  intros Hw. unfold advc_vaapi_image_derive. cbn [encode_image_ops io_acquire_surface]. apply wp_bind.
  eapply wp_mono; [by apply acquire_holds|]. intros [[status d] fence] w1 H1.
  assert (forall w2 st, tables w2 = tables w1 -> wp (kernel (close_if_open fence) ;; kernel (advc_dmabuf_descriptor_close d) ;;
    release_to_owner encode_image_ops id ACCESS_READ_WRITE false ;; mret (st, None)) (fun (_ : va_status * option va_image) w' => holds w') w2) as Hfail.
  { intros w2 st E2. do 2 (apply wp_seq_keeps; [eauto with keeps|]; intros ? ? ?). apply wp_bind. eapply wp_mono; [apply release_holds|].
    - eapply holds_keeps; [|exact H1]. congruence.
    - intros [] w5 H5. by apply wp_ret. }
  destruct (negb _).
  { do 2 (apply wp_seq_keeps; [eauto with keeps|]; intros ? ? ?). apply wp_ret. eapply holds_keeps; [|exact H1]. congruence. }
  apply wp_seq_keeps; [destruct (fence <? -1); [apply keeps_value|apply keeps_seq; [apply keeps_kernel|intros; apply keeps_value]]|].
  intros ok w2 E2. destruct (negb ok); [by apply Hfail|]. apply wp_seq_keeps; [unfold image_tables; eauto with keeps|]. intros r w3 E3.
  destruct (first_slot _ _) as [i|]; [|apply Hfail; congruence]. cbn zeta. apply wp_seq_keeps; [eauto with keeps|]. intros [] w4 E4.
  apply wp_ret. eapply holds_keeps; [|exact H1]. congruence.
Qed.

Lemma put_holds id i x y w h x' y' w' h' s : holds s -> wp (advc_vaapi_image_put encode_image_ops id i x y w h x' y' w' h') (fun _ s' => holds s') s.
Proof.
  intros Hs. unfold advc_vaapi_image_put. cbn [encode_image_ops io_acquire_surface]. destruct (put_refused _ _ _ _ _ _ _ _); [by apply wp_ret|].
  apply wp_seq_keeps; [unfold image_tables; eauto with keeps|]. intros r s1 E1. destruct (find_image _ _) as [j|]; [|apply wp_ret; by eapply holds_keeps].
  cbn zeta. destruct (_ || _); [apply wp_ret; by eapply holds_keeps|]. apply wp_bind.
  eapply wp_mono; [apply acquire_holds; by eapply holds_keeps|]. intros [[status d] fence] s2 H2. destruct (negb _).
  { do 2 (apply wp_seq_keeps; [eauto with keeps|]; intros ? ? ?). apply wp_ret. eapply holds_keeps; [|exact H2]. congruence. }
  apply wp_seq_keeps; [by apply keeps_put_acquired|]. intros [st|] s3 E3; [|apply wp_ret; by eapply holds_keeps].
  do 2 (apply wp_seq_keeps; [eauto with keeps|]; intros ? ? ?). apply wp_bind. eapply wp_mono; [apply release_holds|].
  - eapply holds_keeps; [|exact H2]. congruence.
  - intros [] s6 H6. by apply wp_ret.
Qed.

Lemma destroy_image_holds id w : holds w -> wp (advc_vaapi_image_destroy encode_image_ops id) (fun _ w' => holds w') w.
Proof.
  intros Hw. unfold advc_vaapi_image_destroy. apply wp_seq_keeps; [unfold image_tables; eauto with keeps|]. intros r w1 E1.
  assert (holds w1) as H1 by by eapply holds_keeps. destruct (find_image r id) as [i|]; [|by apply wp_ret]. apply wp_bind.
  unfold destroy_slot. apply wp_seq_keeps; [by apply keeps_unmap_slot|]. intros [] w2 E2.
  apply wp_seq_keeps; [unfold image_tables; eauto with keeps|]. intros r' w3 E3. cbn zeta.
  do 3 (apply wp_seq_keeps; [eauto with keeps|]; intros ? ? ?).
  match goal with |- wp _ _ ?w => assert (holds w) as H' by (eapply holds_keeps; [|exact H1]; congruence) end.
  apply (wp_mono _ (fun _ w' => holds w')); [|intros ? ? ?; by apply wp_ret].
  destruct (im_derived _); [by apply release_holds|by apply wp_ret].
Qed.

(** ** Sequences of calls *)

Lemma wp_answered {A} (c : St world A) w : wp c (fun _ w' => holds w') w -> wp (answered c) (fun _ w' => holds w') w.
Proof. intros H. unfold answered. apply wp_bind. eapply wp_mono; [exact H|]. intros x w' H'. by apply wp_ret. Qed.
Lemma wp_served {A} (c : St world (option A)) w : wp c (fun _ w' => holds w') w -> wp (defined c) (fun _ w' => holds w') w.
Proof. intros H. unfold defined. apply wp_bind. eapply wp_mono; [exact H|]. intros x w' H'. by apply wp_ret. Qed.
Lemma keeps_holds {A} (c : St world A) w : keeps c -> holds w -> wp c (fun _ w' => holds w') w.
Proof. intros Hc Hw. apply wp_keeps; [done|]. intros _ w' E. by eapply holds_keeps. Qed.

Hint Resolve create_config_holds destroy_config_holds create_surfaces_holds destroy_surfaces_holds create_context_holds
  destroy_context_holds create_buffer_holds set_num_elements_holds map_buffer_holds unmap_buffer_holds destroy_buffer_holds
  begin_picture_holds render_picture_holds end_picture_holds sync_surface_holds sync_buffer_holds export_surface_holds
  derive_holds put_holds destroy_image_holds : holds.

Lemma serve_request_holds q w : holds w -> wp (serve_request q) (fun _ w' => holds w') w.
Proof.
  intros Hw. destruct q; cbn [serve_request]; first [apply wp_answered|apply wp_served]; try solve [eauto with holds nocore];
    (apply keeps_holds; [eauto with keeps|done]).
Qed.

Lemma serve_holds l w : holds w -> wp (serve l) (fun _ w' => holds w') w.
Proof.
  revert w. induction l as [|q l IH]; intros w Hw; [by apply wp_ret|]. cbn [serve]. apply wp_bind.
  eapply wp_mono; [by apply serve_request_holds|]. intros [] w' H'; [by apply IH|by apply wp_ret].
Qed.

(** ** The start *)

Lemma queued_none r : length (er_contexts r) = 4%nat -> length (er_surfaces r) = 64%nat -> length (er_buffers r) = 256%nat ->
  Forall (fun x => surface_view x = None) (er_surfaces r) -> Forall (fun u => buffer_view u = None) (er_buffers r) ->
  Forall (fun x => en_used x = true -> en_pending_count x = 0 /\ 0 <= en_frame_index x <= MAX_FRAME_INDEX + 1) (er_contexts r) ->
  queued r (fun _ => []).
Proof.
  intros L1 L2 L3 Hs Hb Hc.
  assert (forall s, surface_view (surface_at r s) = None) as Vs.
  { intros s. unfold surface_at. destruct (er_surfaces r !! s) as [x|] eqn:E; [|done]. rewrite Forall_forall in Hs. cbn. by eapply Hs, list_elem_of_lookup_2. }
  assert (forall k, buffer_view (buffer_at r k) = None) as Vb.
  { intros k. unfold buffer_at. destruct (er_buffers r !! k) as [x|] eqn:E; [|done]. rewrite Forall_forall in Hb. cbn. by eapply Hb, list_elem_of_lookup_2. }
  assert (forall c, en_used (context_at r c) = true -> en_pending_count (context_at r c) = 0 /\ 0 <= en_frame_index (context_at r c) <= MAX_FRAME_INDEX + 1) as Vc.
  { intros c. unfold context_at. destruct (er_contexts r !! c) as [x|] eqn:E; [|done]. rewrite Forall_forall in Hc. cbn. by eapply Hc, list_elem_of_lookup_2. }
  split; [done| | | | | | |].
  - by intros c s k Hi%not_elem_of_nil.
  - intros s Hu Hp. by destruct (view_none_not_pending _ (Vs s) Hu).
  - intros k Hu Hp. specialize (Vb k). unfold buffer_view in Vb. rewrite Hu in Vb. apply Z.eqb_neq in Hp. by rewrite Hp in Vb.
  - constructor.
  - intros c Hu. by apply Vc.
  - intros c Hu. by apply Vc.
  - intros c s _ _ _. apply not_elem_of_nil.
Qed.

Lemma blank_holds w path policy mp ready : tables w = blank_encode_runtime path policy mp ready -> holds w.
Proof.
  intros E. split.
  - exists (fun _ => []). rewrite E. apply queued_none; [done|done|done|..]; cbn [blank_encode_runtime er_surfaces er_buffers er_contexts]; by apply Forall_replicate.
  - intros c. rewrite E. unfold context_at. cbn [blank_encode_runtime er_contexts]. destruct (replicate _ closed_context !! c) as [x|] eqn:Ex; [|done].
    by apply lookup_replicate in Ex as [-> _].
Qed.

End Serve.
