(* ===== verification/EncodeClaims.v ===== *)
(** * What the encode runtime promises (src/src/vaapi_advc/advc_vaapi_encode_runtime.c)

    The theorems on the queue of submissions, and an application that encodes two
    frames. *)

From stdpp Require Import base list gmap sorting.
From Stdlib Require Import ZArith Lia Bool String Sorted.
#[local] Notation length := List.length.
From S2P Require Import Prelude Kernel Protocol Policy Dmabuf Engine Broker Client ClientConnect World EncodeEos VaapiRoutes VaapiPolicy Va EncodeParams EncodeState EncodeWorld EncodeBroker EncodeLink EncodeSync EncodeRuntime Image EncodeScene EncodeKeeps EncodeQueue EncodeFifo EncodeInv EncodeCalls EncodeSubmit EncodeServe.
Notation world := (world_of driver_state).

(** ** An application that encodes two frames *)

(** The broker's records. *)
Definition broker_reply (opc rid sid : Z) (payload : list Z) (files : list file_kind) : rx_event :=
  RxRecord (header_store (replicate 32 0)
    (Header ADVC_VERSION_MAJOR ADVC_VERSION_MINOR ADVC_MSG_REPLY opc rid sid 0 (zlen payload) (zlen files) 0) ++ payload)
    false (match files with [] => [] | _ => [ScmRights files] end).
Definition reply_ok : list Z := zeros ADVC_STATUS_SIZE.
Definition greeting : list Z :=
  advc_put_u32 (advc_put_u64 (zeros ADVC_HELLO_SIZE) 0 offered_features) 8 ADVC_MAX_PAYLOAD.
Definition avc_encoder : advc_codec_capability :=
  Capability MIME_AVC [99] ADVC_DIRECTION_ENCODE CodecDiscovery.ADVC_ACCELERATION_HARDWARE 0 0 0 0 0 0.
Definition encoders : list Z :=
  write_capabilities (advc_put_u32 (zeros (ADVC_CAPS_PREFIX_SIZE + ADVC_CAPS_ENTRY_SIZE)) 4 1) 0 [avc_encoder].
Definition completion (id : Z) : list Z := advc_put_u64 (zeros ADVC_COMPLETE_DMABUF_SIZE) 0 id.
(** A coded frame of [n] bytes. *)
Definition coded_frame (id n : Z) : list Z :=
  advc_put_u32 (advc_put_u64 (advc_put_u64 (zeros ADVC_OUTPUT_BYTES_SIZE) 0 id) 16 n) 28 ADVC_TRANSPORT_BYTES.
Definition coded_file (n : nat) : file_kind := KMemFile (replicate n 7) required_seals.

Definition ENC_CONFIG : Z := make_id ADVC_VAAPI_ENCODE_CONFIG_TYPE 0.
Definition ENC_CONTEXT : Z := make_id ADVC_VAAPI_ENCODE_CONTEXT_TYPE 0.
Definition ENC_SURFACE (s : nat) : Z := make_id ADVC_VAAPI_ENCODE_SURFACE_TYPE s.
Definition ENC_BUFFER (k : nat) : Z := make_id ADVC_VAAPI_ENCODE_BUFFER_TYPE k.

Definition encode_peer : peer :=
  Peer [broker_reply ADVC_OP_HELLO 5 0 greeting []; broker_reply ADVC_OP_QUERY_CAPABILITIES 6 0 encoders [];
        broker_reply ADVC_OP_CREATE_SESSION 7 1 reply_ok [];
        broker_reply ADVC_OP_REGISTER_DMABUF 8 1 reply_ok []; broker_reply ADVC_OP_QUEUE_DMABUF 9 1 reply_ok [];
        broker_reply ADVC_OP_COMPLETE_DMABUF 10 1 (completion (ENC_SURFACE 1)) [];
        broker_reply ADVC_OP_REGISTER_DMABUF 11 1 reply_ok []; broker_reply ADVC_OP_QUEUE_DMABUF 12 1 reply_ok [];
        broker_reply ADVC_OP_COMPLETE_DMABUF 13 1 (completion (ENC_SURFACE 0)) [];
        broker_reply ADVC_OP_DEQUEUE_OUTPUT 14 1 (coded_frame 70 5) [coded_file 5]; broker_reply ADVC_OP_RELEASE_OUTPUT 15 1 reply_ok [];
        broker_reply ADVC_OP_DEQUEUE_OUTPUT 16 1 (coded_frame 71 6) [coded_file 6]; broker_reply ADVC_OP_RELEASE_OUTPUT 17 1 reply_ok []] [] [].

Definition encode_process : process :=
  Machine (Statics 5 (CEnv (5 * 10 ^ 9) [] [PReady 0 (inr 0)] (fun _ => (0, 0%N)) 0 [] ∅)) {[ 0 := FdInfo true KOther ]} 64 0
    [] [] [] [] [].

Section Started.
Context {nr : encoder}.
(** A driver whose encode runtime has just been created. *)
Definition encode_started (w : world) : Prop := exists path policy m r images m',
  advc_vaapi_encode_runtime_create path policy m = (Some (r, images), m') /\ tables w = r.

Lemma started_holds w : encode_started w -> holds w.
Proof.
  intros (path & policy & m & r & images & m' & Hc & <-). unfold advc_vaapi_encode_runtime_create in Hc.
  destruct path as [path|]; [|done]. destruct policy as [policy|]; [|done]. destruct (String.eqb _ _); [done|].
  rewrite st_seq in Hc. destruct (sys_alloc m) as [a m1]. cbn [fst snd] in Hc. destruct a; cbn [negb] in Hc; [|done].
  rewrite st_seq in Hc. destruct (sys_alloc m1) as [b m2]. cbn [fst snd] in Hc. destruct b; cbn [negb] in Hc; [|done].
  destruct (Modifier.advc_vaapi_modifier_policy_parse _ _) as [[e|u] mp]; [by rewrite st_seq in Hc|].
  rewrite st_seq in Hc. destruct (sys_alloc m2) as [d m3]. cbn [fst snd] in Hc. destruct d; cbn [negb] in Hc; [|done].
  injection Hc as Hr _ _. symmetry in Hr. by eapply blank_holds.
Qed.
Lemma served_held l w : encode_started w -> exists Q, held Q (snd (serve l w)).
Proof. intros Hs%started_holds. pose proof (serve_holds l w Hs) as [[Q H] He]. by exists Q. Qed.
End Started.

(** ** Properties *)

Section Properties.
Context {nr : encoder}.

(** C2. Whatever calls are made of a runtime that was just created - configurations,
    surfaces, contexts, buffers, pictures, waits, exports and images, in any order and
    with any arguments - the tables hold a queue of submissions per context: the
    pending surfaces and the coded buffers that wait for output are the queued pairs,
    no surface or buffer is in two of them, the context counts them, their submission
    numbers increase, and the target of the picture in progress is not queued. *)
Theorem encode_tables_hold_queues w l : encode_started w -> exists Q, queued (tables (snd (serve l w))) Q.
Proof. intros H. destruct (served_held l w H) as [Q [HQ _]]. by exists Q. Qed.

(** C1. A wait for a surface refines the queue: a surface that does not wait is
    answered at once; a pending one is in the queue of one context, and the call
    completes entries at its head in order, each with an output that fits its coded
    buffer, until the surface is completed (success), time runs out (the rest stays
    queued), or anything else goes wrong (the rest fails and every coded buffer is
    free again).  Other contexts, surfaces and buffers stay what they were.  The
    loop always ends: no more rounds than surfaces are needed. *)
Theorem sync_completes_in_order w Q s t : queued (tables w) Q -> es_used (surface_at (tables w) s) = true ->
  let '(status, w') := sync_surface_locked s t w in sync_outcome s Q (tables w) (tables w') status.
Proof.
  intros H Hu. pose proof (sync_spec s t w Q H Hu) as Hs. unfold wp in Hs. by destruct (sync_surface_locked s t w).
Qed.

(** C7. One round of a wait: what the broker sends to the context's session goes to the
    oldest submission, with the timestamp of that submission rounded to what
    MediaCodec carries; an output that is empty or does not fit, and a broker that
    fails, end all submissions of the context; a timeout changes none. *)
Theorem sync_round_takes_oldest w Q c t : queued (tables w) Q -> Q c <> [] ->
  let '(received, output) := fst (advc_vaapi_encode_broker_receive (en_broker (context_at (tables w) c)) t zero_output w) in
  let '(x, w') := sync_round c t w in round_effect c Q (tables w) received output x (tables w').
Proof.
  intros H Hq. pose proof (sync_round_spec c t w Q H Hq) as Hs. unfold wp, received_by in Hs.
  destruct (fst (advc_vaapi_encode_broker_receive _ t zero_output w)) as [received output]. by destruct (sync_round c t w).
Qed.

(** C4. The end of a picture that succeeds appends exactly one entry to the queue of its
    context, at the end: the picture's target and the coded buffer its parameters
    name.  The other queues stay, and the picture is over. *)
Theorem end_picture_enqueues w w' Q id c : held Q w -> get_context (tables w) id = Some c ->
  advc_vaapi_encode_end_picture id w = (VA_STATUS_SUCCESS, w') ->
  exists s k, get_surface (tables w) (en_target (context_at (tables w) c)) = Some s /\
    get_buffer (tables w) (fp_coded_buffer (en_frame (context_at (tables w) c))) = Some k /\
    queued (tables w') (set_queue c (Q c ++ [(s, k)]) Q) /\ en_picture_active (context_at (tables w') c) = false.
Proof.
  intros Hw Hc He. pose proof (end_picture_outcome Q id c w Hw Hc) as Ho. unfold wp, picture_outcome in Ho. rewrite He in Ho.
  cbn [fst snd] in Ho. rewrite decide_True in Ho by done. destruct Ho as (Ha & s & k & Es & Ek & [Hq _]). by exists s, k.
Qed.

(** C6. A picture that fails is dropped: whatever went wrong - no target, parameters
    that are missing or out of range, a coded buffer in use, a broker that refuses
    the session, the surface or the submission - every queue is what it was and no
    picture is in progress, so that the application can begin the next one. *)
Theorem end_picture_failure_clean w w' Q id c status : held Q w -> get_context (tables w) id = Some c ->
  advc_vaapi_encode_end_picture id w = (status, w') -> status <> VA_STATUS_SUCCESS ->
  queued (tables w') Q /\ en_picture_active (context_at (tables w') c) = false.
Proof.
  intros Hw Hc He Hst. pose proof (end_picture_outcome Q id c w Hw Hc) as Ho. unfold wp, picture_outcome in Ho. rewrite He in Ho.
  cbn [fst snd] in Ho. rewrite decide_False in Ho by done. destruct Ho as (Ha & [Hq _]). done.
Qed.

(** C5. The end of a context always comes: the drain of its stream ends within its fuel,
    whatever the broker does; afterwards nothing waits in the context, no surface in
    use belongs to it, the slot is free, and the submissions of the other contexts
    are what they were. *)
Theorem destroy_context_drains w Q id c : held Q w -> get_context (tables w) id = Some c ->
  let '(_, w') := advc_vaapi_encode_destroy_context id w in
  queued (tables w') (set_queue c [] Q) /\ context_at (tables w') c = closed_context /\
  (forall s, context_ix (es_owner_context (surface_at (tables w') s)) = Some c -> es_used (surface_at (tables w') s) = false) /\
  forall c', c' <> c -> en_used (context_at (tables w') c') = en_used (context_at (tables w) c').
Proof.
  intros [H He] Hc. pose proof Hc as Hc'. apply get_context_ix in Hc' as [_ Hu].
  assert (wp (advc_vaapi_encode_destroy_context id) (fun _ w' => destroyed c Q w w') w) as Hd.
  { unfold advc_vaapi_encode_destroy_context. apply wp_tables. rewrite Hc. by apply end_context_spec. }
  unfold wp in Hd. destruct (advc_vaapi_encode_destroy_context id w) as [st w']. destruct Hd as (D1 & [D2 D3] & D4 & _). done.
Qed.

End Properties.

Section Scene.
#[local] Existing Instance plain_encoder.

Definition encode_policy_avc : encode_policy :=
  EncodePolicy (Z.lor ADVC_VAAPI_ENCODE_H264 ADVC_VAAPI_ENCODE_HEVC) 1920 1080 1920 1080 VA_RC_VBR VA_RT_FORMAT_YUV420 true.

(** The runtime is created. *)
Definition encode_start : option world :=
  match advc_vaapi_encode_runtime_create (Some "/run/advc"%string) (Some encode_policy_avc) encode_process with
  | (Some (r, images), m) => Some (World.World (DriverState r images ∅ 1 ∅ 1) m ∅ [encode_peer] [] [] (Timing 0 0 0))
  | _ => None
  end.

(** A frame on surface [s], its buffers from [k] on; the coded buffer is [k]. *)
Definition frame_requests (s : nat) (k : nat) : list encode_request :=
  [CreateBuffer ENC_CONTEXT VAEncCodedBufferType 1000 1 None;
   CreateBuffer ENC_CONTEXT VAEncSequenceParameterBufferType 11 1 (Some [1; 1; 1; 0; 0; 1; 0; 0; 0; 0; 0]);
   CreateBuffer ENC_CONTEXT VAEncPictureParameterBufferType 3 1 (Some [Z.of_nat k + 1; 1; 0]);
   CreateBuffer ENC_CONTEXT VAEncSliceParameterBufferType 3 1 (Some [2; 0; 1]);
   BeginPicture ENC_CONTEXT (ENC_SURFACE s);
   RenderPicture ENC_CONTEXT (Some [ENC_BUFFER (k + 1); ENC_BUFFER (k + 2); ENC_BUFFER (k + 3)]) 3].
(** Up to the end of the second frame. *)
Definition two_frames : list encode_request :=
  [CreateConfig VAProfileH264ConstrainedBaseline VAEntrypointEncSlice None 0;
   CreateSurfaces VA_RT_FORMAT_YUV420 16 16 2 None 0;
   CreateContext ENC_CONFIG 16 16 (Some [ENC_SURFACE 0; ENC_SURFACE 1]) 2] ++
  frame_requests 1 0 ++ [EndPicture ENC_CONTEXT] ++ frame_requests 0 4.

(** What holds of the state the application gets to. *)
Definition served (l : list encode_request) (P : world -> Prop) : Prop :=
  match encode_start with Some w => P (snd (serve l w)) | None => False end.
Definition observed {A} (l : list encode_request) (f : world -> A) : option A := w ← encode_start; Some (f (snd (serve l w))).
Lemma served_intro {A} l (f : world -> A) a (P : world -> Prop) : observed l f = Some a ->
  (forall w, encode_started w -> f (snd (serve l w)) = a -> P (snd (serve l w))) -> served l P.
Proof.
  unfold served, observed. destruct encode_start as [w|] eqn:E; [|done]. intros [= Ha] H. apply H; [|done].
  unfold encode_start in E. destruct (advc_vaapi_encode_runtime_create _ _ _) as [[[r images]|] m'] eqn:Ec; [|done].
  injection E as <-. by do 6 eexists.
Qed.

Definition two_submitted : list encode_request := two_frames ++ [EndPicture ENC_CONTEXT].
(** Both outputs are received, and a third frame is rendered. *)
Definition third_frame : list encode_request := two_submitted ++ [SyncSurface (ENC_SURFACE 0) 1000000000] ++ frame_requests 0 8.

Lemma encode_tables_hold_queues_witness : served two_submitted (fun w =>
  en_pending_count (context_at (tables w) 0) = 2 /\ exists Q, queued (tables w) Q).
Proof.
  apply (served_intro _ (fun w => en_pending_count (context_at (tables w) 0)) 2); [vm_compute; reflexivity|].
  intros w Hs Hn. split; [exact Hn|]. exact (encode_tables_hold_queues w two_submitted Hs).
Defined.

Lemma sync_completes_in_order_witness : served two_submitted (fun w =>
  fst (sync_surface_locked 0 1000 w) = VA_STATUS_SUCCESS /\
  exists Q, let '(status, w') := sync_surface_locked 0 1000 w in sync_outcome 0 Q (tables w) (tables w') status).
Proof.
  apply (served_intro _ (fun w => (es_used (surface_at (tables w) 0), fst (sync_surface_locked 0 1000 w))) (true, VA_STATUS_SUCCESS));
    [vm_compute; reflexivity|].
  intros w Hs Hf. cbn beta in Hf. apply pair_equal_spec in Hf as [Hu Hst]. split; [exact Hst|]. destruct (served_held two_submitted w Hs) as [Q [HQ He]]. exists Q.
  exact (sync_completes_in_order _ Q 0 1000 HQ Hu).
Defined.

Lemma sync_round_takes_oldest_witness : served two_submitted (fun w =>
  exists Q, let '(received, output) := fst (advc_vaapi_encode_broker_receive (en_broker (context_at (tables w) 0)) 1000 zero_output w) in
    let '(x, w') := sync_round 0 1000 w in round_effect 0 Q (tables w) received output x (tables w')).
Proof.
  apply (served_intro _ (fun w => (en_used (context_at (tables w) 0), en_pending_count (context_at (tables w) 0))) (true, 2));
    [vm_compute; reflexivity|].
  intros w Hs Hf. cbn beta in Hf. apply pair_equal_spec in Hf as [Hu Hn]. destruct (served_held two_submitted w Hs) as [Q [HQ He]]. exists Q.
  apply (sync_round_takes_oldest _ Q 0 1000 HQ). intros E. pose proof (q_count _ _ HQ 0 Hu) as Hc. rewrite E, Hn in Hc. discriminate Hc.
Defined.

Lemma end_picture_enqueues_witness : served two_frames (fun w =>
  let w' := snd (advc_vaapi_encode_end_picture ENC_CONTEXT w) in
  exists (Q : queues) s k, queued (tables w') (set_queue 0%nat (Q 0%nat ++ [(s, k)]) Q) /\ en_picture_active (context_at (tables w') 0) = false).
Proof.
  apply (served_intro _ (fun w => (get_context (tables w) ENC_CONTEXT, fst (advc_vaapi_encode_end_picture ENC_CONTEXT w)))
    (Some 0%nat, VA_STATUS_SUCCESS)); [vm_compute; reflexivity|].
  intros w Hs Hf. cbn beta in Hf. apply pair_equal_spec in Hf as [Hc Hst]. destruct (served_held two_frames w Hs) as [Q HQ].
  destruct (end_picture_enqueues (snd (serve two_frames w)) (snd (advc_vaapi_encode_end_picture ENC_CONTEXT (snd (serve two_frames w)))) Q ENC_CONTEXT 0 HQ Hc)
    as (s & k & _ & _ & H).
  - rewrite <- Hst. apply surjective_pairing.
  - exists Q, s, k. exact H.
Defined.

(** The broker is gone when the third frame ends. *)
Lemma end_picture_failure_clean_witness : served third_frame (fun w =>
  let '(status, w') := advc_vaapi_encode_end_picture ENC_CONTEXT w in
  status = VA_STATUS_ERROR_OPERATION_FAILED /\ exists Q, queued (tables w') Q /\ en_picture_active (context_at (tables w') 0) = false).
Proof.
  apply (served_intro _ (fun w => (get_context (tables w) ENC_CONTEXT, fst (advc_vaapi_encode_end_picture ENC_CONTEXT w)))
    (Some 0%nat, VA_STATUS_ERROR_OPERATION_FAILED)); [vm_compute; reflexivity|].
  intros w Hs Hf. cbn beta in Hf. apply pair_equal_spec in Hf as [Hc Hst]. destruct (served_held third_frame w Hs) as [Q HQ].
  destruct (advc_vaapi_encode_end_picture ENC_CONTEXT (snd (serve third_frame w))) as [status w'] eqn:E. cbn [fst] in Hst. split; [exact Hst|].
  exists Q. apply (end_picture_failure_clean _ w' Q ENC_CONTEXT 0 status HQ Hc E). intros H. rewrite H in Hst. discriminate Hst.
Defined.

Lemma destroy_context_drains_witness : served two_submitted (fun w =>
  exists Q, let '(_, w') := advc_vaapi_encode_destroy_context ENC_CONTEXT w in
  queued (tables w') (set_queue 0%nat [] Q) /\ context_at (tables w') 0 = closed_context /\
  (forall s, context_ix (es_owner_context (surface_at (tables w') s)) = Some 0%nat -> es_used (surface_at (tables w') s) = false) /\
  forall c', c' <> 0%nat -> en_used (context_at (tables w') c') = en_used (context_at (tables w) c')).
Proof.
  apply (served_intro _ (fun w => get_context (tables w) ENC_CONTEXT) (Some 0%nat)); [vm_compute; reflexivity|].
  intros w Hs Hc. destruct (served_held two_submitted w Hs) as [Q HQ]. exists Q. exact (destroy_context_drains _ Q ENC_CONTEXT 0 HQ Hc).
Defined.

(** A poll with timeout 0 when the output is there ends every submission. *)
Example poll_fails_ready_output : served two_submitted (fun w =>
  fst (advc_vaapi_encode_sync_surface (ENC_SURFACE 1) 1000000 w) = VA_STATUS_SUCCESS /\
  fst (advc_vaapi_encode_sync_surface (ENC_SURFACE 1) 0 w) = VA_STATUS_ERROR_ENCODING_ERROR /\
  en_pending_count (context_at (tables (snd (advc_vaapi_encode_sync_surface (ENC_SURFACE 1) 0 w))) 0) = 0).
Proof. vm_compute. by split_and!. Qed.

(** The end of a runtime that was never used closes descriptor 0. *)
Example destroy_closes_stdin : served [] (fun w =>
  m_fds (w_m w) !! 0 = Some (FdInfo true KOther) /\ m_fds (w_m (snd (advc_vaapi_encode_runtime_destroy w))) !! 0 = None).
Proof. vm_compute. by split_and!. Qed.

(** A surface named twice is released twice: the second time through a null pointer. *)
Example destroying_surface_twice : served (take 2 two_frames) (fun w =>
  fst (advc_vaapi_encode_destroy_surfaces (Some [ENC_SURFACE 1]) 1 w) = Some VA_STATUS_SUCCESS /\
  fst (advc_vaapi_encode_destroy_surfaces (Some [ENC_SURFACE 1; ENC_SURFACE 1]) 2 w) = None).
Proof. vm_compute. by split_and!. Qed.
End Scene.
